(* ===== verification/_CoqProject ===== *)
-Q . S2P
Prelude.v
Effects.v
SelVector.v
Serializer.v
VersionInfo.v
VersionInfoFacts.v
VersionInfoSpec.v
Transaction.v
UpdateInfo.v
UpdateInfoFacts.v
ColumnChunk.v
ColumnChunkSpec.v
FreeSpaceManager.v
FreeSpaceFacts.v
InMemFileWriter.v
FreeSpaceSpec.v
TransactionManager.v
TransactionSpec.v
TransactionDrain.v
UndoBuffer.v
UndoBufferSpec.v
Sequence.v
SequenceSpec.v
CatalogSet.v
CatalogFacts.v
CatalogRun.v
CatalogSpec.v
NullMask.v
NullMaskFacts.v
NullMaskSpec.v
Decoder.v
BufferedFile.v
BufferedFileFacts.v
WALRecord.v
WAL.v
WALFacts.v
WALReplayer.v
WALReplayerFacts.v
WALHistory.v
WALSpec.v
ShadowFile.v
ShadowFacts.v
ShadowHistory.v
ShadowSpec.v
Checkpointer.v
CheckpointerRun.v
CheckpointerState.v
CheckpointerRecovery.v
CheckpointerSpec.v
DurableStorage.v
DurableHistory.v
DurableSpec.v
Bitpacking.v
BitpackingFacts.v
BitpackingPages.v
Compression.v
ColumnPages.v
CompressionFacts.v
ColumnPagesFacts.v
ColumnPagesUpdate.v
ZoneMap.v
ColumnPagesSpec.v
ZoneMapSpec.v
Date.v
CastHelpers.v
DateText.v
DateFacts.v
Timestamp.v
Interval.v
TemporalFacts.v
TemporalSpec.v
Arithmetic.v
ArithmeticSpec.v
BinaryExecutor.v
IntegerCast.v
Utf8.v
Utf8Spec.v
IntervalText.v
IntervalTextSpec.v
