(* ===== verification/Prelude.v ===== *)
(** * A verification library for the transactional core of the Kuzu graph database

    The repository wraps the C++ database Kuzu for Swift; the program is under
    [Sources/cxx-kuzu/kuzu/src/], and all paths below are relative to it. This
    library models the part of it that makes transactions work (which rows,
    values, pages and catalog entries a transaction sees, what a commit, a
    rollback and a checkpoint do to them, and what a crash leaves), the columns of
    integers that its checkpoints write, some of the data structures under it, and a part
    of the query side (dates, times and intervals, integer arithmetic and casts, the
    vectorised execution of binary functions, UTF-8), and proves what these promise. The
    theorems that are the properties of the development are numbered C1 to C40, by
    importance; the other theorems are of the same kind.

    ** The parts and how they interact

    A connection ([Module TransactionContext] of [TransactionManager.v]) begins and
    ends transactions at the shared manager ([Module TransactionManager]), which
    gives them identifiers and timestamps. A transaction changes rows
    ([VersionInfo.v]: inserted and deleted; [ColumnChunk.v] over [UpdateInfo.v]:
    updated), catalog entries ([CatalogSet.v]) and sequences ([Sequence.v]), and
    each change is recorded in its undo buffer ([UndoBuffer.v]). The commit replays
    the buffer forwards with the commit timestamp, the rollback backwards; the
    buffer reaches the changed objects through the class [UndoTargets], of which
    the catalog and the sequences are instances here. A checkpoint, which only
    runs without active transactions, takes pages from and gives them back to the
    page manager ([FreeSpaceManager.v]) and writes the metadata
    ([InMemFileWriter.v], [Serializer.v]); the pages it changes go to a shadow file
    first ([ShadowFile.v]), and the record of the checkpoint in the log decides whether
    they count ([Checkpointer.v]). The manager reaches storage, logs and
    checkpoints through the class [Storage]; its theorems hold for every instance.
    A commit also writes the records of the transaction to the write-ahead log
    ([WAL.v]), from which recovery ([WALReplayer.v]) makes the database again.
    The values of a column lie compressed on its pages ([Bitpacking.v],
    [Compression.v]), which a flush writes, a checkpoint updates in place when the new
    values fit, and scans read ([ColumnPages.v]); the bounds kept with them let scans
    skip what no predicate can match ([ZoneMap.v]).
    Selection vectors ([SelVector.v]) and null masks ([NullMask.v]) are what scans
    write, and what the loop of binary functions ([BinaryExecutor.v]) reads and writes;
    the functions it applies here are the checked arithmetic of integers
    ([Arithmetic.v]). Temporal values are integers with a calendar on top ([Date.v],
    [Timestamp.v], [Interval.v]); their parsers and printers ([CastHelpers.v],
    [DateText.v], [IntervalText.v]) use the casts from text ([IntegerCast.v]), the checked
    arithmetic and the conversion of case ([Utf8.v]).

    ** Files, and the code they model

    - [Prelude.v]: outcomes of calls, machine integers, arrays and counted loops;
      [Effects.v]: programs that change an object and keep the change when they
      throw.
    - [SelVector.v]: [common/data_chunk/sel_vector.cpp] and its header.
    - [Serializer.v]: [include/common/serializer/serializer.h], [deserializer.h]:
      integers, booleans and arrays; a [codec] is a writer with its reader
      and the law that they are inverse.
    - [VersionInfo.v]: [storage/table/version_info.cpp], with the classes
      [VectorVersionInfo] and [VersionInfo] as modules; a null pointer is [None].
      [VersionInfoFacts.v] has the abstract view (a stamp of inserting and deleting
      version per row) and [VersionInfoSpec.v] the theorems C19 to C21: scans agree
      with row-by-row visibility, appended, deleted, committed and rolled back
      rows reach exactly the snapshots they should, deletions are counted right,
      and a checkpoint reads back.
    - [Transaction.v]: the fields and predicates of
      [include/transaction/transaction.h].
    - [UpdateInfo.v]: [storage/table/update_info.cpp] and the undo actions on it of
      [storage/undo_buffer.cpp], on a heap of version objects linked both ways;
      [UpdateInfoFacts.v] has the chains as lists. [ColumnChunk.v]:
      [storage/table/column_chunk.cpp] over them. [ColumnChunkSpec.v], C22 and C23:
      updates and their conflicts, commits and rollbacks, the scans against the
      lookup of a row, and two behaviours that fall short of isolation.
    - [FreeSpaceManager.v]: [storage/free_space_manager.cpp], [page_manager.cpp],
      [optimistic_allocator.cpp] and the page count of [file_handle.cpp];
      [InMemFileWriter.v]: [common/serializer/in_mem_file_writer.cpp] and
      [serializeMetadata] of [storage/checkpointer.cpp]. [FreeSpaceFacts.v] has the
      free ranges as lists of pages and [FreeSpaceSpec.v] C25 and C26: best fit,
      merging, and pages that over every
      history are free, waiting or in use, once each.
    - [TransactionManager.v]: [transaction/transaction_manager.cpp],
      [transaction_context.cpp], commit and rollback of [transaction.cpp], the
      decision to checkpoint of [storage/checkpointer.cpp],
      [runFuncInTransaction] of [main/client_context.cpp] and
      [processor/operator/transaction.cpp]. [TransactionSpec.v], C9 to C12, by
      induction over the steps of the manager: snapshots, one writer, the outcome
      of commits and checkpoints, and what statements leave in a connection;
      [TransactionDrain.v], C13: whatever is active can be rolled back, after which
      checkpoints and writers go through.
    - [UndoBuffer.v]: [storage/undo_buffer.cpp]; [UndoBufferSpec.v], C24: every
      record is replayed once, in the right order.
    - [Sequence.v]: [catalog/catalog_entry/sequence_catalog_entry.cpp] and the
      bounds of [binder/bind/bind_ddl.cpp]; [SequenceSpec.v], C28.
    - [CatalogSet.v]: [catalog/catalog_set.cpp], [catalog_entry.h], the
      catalog records of [transaction/transaction.cpp] and the decisions of
      [processor/operator/ddl/alter.cpp], on a heap of entries. [CatalogFacts.v]
      has the version chains, and with [CatalogRun.v] what the
      statements of one writer leave, and [CatalogSpec.v] C14 and C15: the
      writer's view is a map, and its DDL is atomic and isolated.
    - [NullMask.v]: [common/null_mask.cpp] and its header; [NullMaskFacts.v],
      [NullMaskSpec.v], C39 and C40: copies, ranges and summaries act on exactly
      the bits they name, and the guarantee of no nulls is sound.
    - [Decoder.v]: deserialisers as programs of their reads, so that they run on
      bytes and on files; [BufferedFile.v], [BufferedFileFacts.v]:
      [common/serializer/buffered_file.cpp], over a file of which a length is
      known to be on disk.
    - [WALRecord.v]: [storage/wal/wal_record.cpp]; [WAL.v]: [storage/wal/wal.cpp] and
      [local_wal.cpp], with [WALFacts.v]; [WALReplayer.v]: [storage/wal/wal_replayer.cpp],
      with [WALReplayerFacts.v]; what the records do to the database is the class
      [Recovery]. [WALHistory.v] has the history that the log stands for, and what a
      crash can leave of it; [WALSpec.v], C5 to C8: records read back, the log is
      the history of the committed transactions, the dry run finds the last
      commit, recovery replays exactly what was committed, a crash loses no
      committed transaction, and a checkpoint takes effect with its record; and
      three examples of logs that break this.
    - [ShadowFile.v]: [storage/shadow_file.cpp], [shadow_utils.cpp] and the pages and
      frames of [storage/file_handle.cpp]; [ShadowFacts.v] has files as pages and
      what each operation does to them, [ShadowHistory.v]
      what any sequence of operations leaves, and
      [ShadowSpec.v] C27: a checkpoint reads what it wrote and nobody else does; that
      once the shadow file is flushed its pages reach the data file, whatever a crash
      made of it; and three examples of where this falls short.
    - [Checkpointer.v]: [storage/checkpointer.cpp], [storage_version_info.cpp], the data
      file of [storage/storage_manager.cpp], and the checkpoint of a recovery in
      [storage/wal/wal_replayer.cpp]. What the tables do in a checkpoint is a program
      of calls ([action]): pages updated, read and written straight to the file,
      ranges of pages allocated and freed. [CheckpointerRun.v] has what is read
      from a data file, the invariant of a checkpoint (which pages
      are the tables', free, or waiting to be) and each call's effect;
      [CheckpointerState.v] a weakest precondition for programs of calls, and the database
      between checkpoints and before the shadow file is flushed;
      [CheckpointerRecovery.v] the rest of the checkpoint, the opening of a database, and
      an instance of [Recovery]. [CheckpointerSpec.v], C3 and C4: the data file reads back what the
      checkpoint wrote, or what was there when the tables fail, and a crash leaves
      the last checkpoint and its log or the new one; and examples of what the
      order of the writes does not protect.
    - [DurableStorage.v]: the storage of the transaction manager, an instance of
      [Storage], over the log and the checkpoints ([Transaction::commit] and the
      constructor in [transaction/transaction.cpp]); what local storage and undo buffers
      do to the database is the class [Engine], and what they promise (to leave the log
      and the pages of the last checkpoint alone) [EngineLaws]; and what
      each operation does. [DurableHistory.v] has the steps of a database with its
      connections, the events of a history, from which what must be on disk is
      computed, and the invariant that it is; [DurableSpec.v], C1 and C2: what is
      committed is durable and recovered in the order of the commits, and a crash in a
      commit leaves all of it or nothing.

    - [Bitpacking.v]: [storage/compression/bitpacking_utils.cpp], [sign_extend.h] and the
      class [IntegerBitpacking] of [compression.cpp]; 32 values at a time are packed by
      FastPFor, a third-party library that is the class [FastPFor] here, with the law
      [FastPForLaws] that it packs like [packSingle] and unpacks what was packed (an
      instance that packs one by one shows that it can be met). [BitpackingFacts.v] has
      the bits of a page and what the loops do to them, [BitpackingPages.v] pages as
      arrays and the choice of the width: which values survive it, and
      which bounds share it.
    - [Compression.v]: the rest of [compression.cpp] for integers of 8 to 64 bits and
      internal IDs (constant and uncompressed pages, the dispatch, the metadata) and
      [storage/table/column_chunk_metadata.cpp]. [CompressionFacts.v] has pages as
      arrays, reads and writes of them, and when an update
      keeps the packing.
    - [ColumnPages.v]: the integer columns of [storage/table/column.cpp],
      [column_reader_writer.cpp], [compression_flush_buffer.cpp] and the flush of
      [column_chunk_data.cpp]. [ColumnPagesFacts.v] has chunks on pages as arrays,
      what scans and lookups read, and the flush; [ColumnPagesUpdate.v] the writes,
      the decision to update in place and the statistics. [ColumnPagesSpec.v], C16 and C17:
      an update in place is the update of an array, a flushed chunk reads back, both kinds of scan
      agree, and the least value of a signed type is lost.
    - [ZoneMap.v]: [storage/table/column_chunk_stats.cpp], [storage/predicate/] and
      [getZoneMapResult] of [chunked_node_group.cpp]. [ZoneMapSpec.v], C18: a
      scan that is skipped would have returned nothing when the statistics bound the
      rows, and an update in place that leaves them behind.

    - [Date.v]: [common/types/date_t.cpp] with its tables; [DateFacts.v] has the calendar
      of the specification, by the rule of leap years and the lengths of months, and the
      tables as computations over it, and decimal digits. [CastHelpers.v]:
      [include/common/types/cast_helpers.h], characters written backwards into buffers of
      a fixed size; [DateText.v]: the parsers and printers of dates and, in its module
      [Time], [common/types/dtime_t.cpp].
      [Timestamp.v]: [common/types/timestamp_t.cpp]; [Interval.v]:
      [common/types/interval_t.cpp]; with [TemporalFacts.v]. [TemporalSpec.v], C29 to C32:
      dates follow the calendar, months are added as they should, texts read back, and
      intervals of equal length are less than each other; the difference of timestamps,
      the division of intervals, weekdays and ends of months; and examples of overflows
      and of truncations to the future. [IntervalText.v]: [Interval::fromCString], its
      labels as functions; [IntervalTextSpec.v], C33: which
      intervals read back from their text.
    - [Arithmetic.v]: [function/arithmetic/] and
      [include/function/cast/functions/numeric_cast.h] on the eight integer types, the code
      for other compilers than GCC and Clang included. [ArithmeticSpec.v], C34: the results
      are those of the integers or an exception. [IntegerCast.v]:
      [include/function/cast/functions/cast_string_non_nested_functions.h], and
      C35: which text is cast to which number.
    - [BinaryExecutor.v]: [include/function/binary_function_executor.h], on vectors whose
      values a function may also write to. C36: the loop applies the
      function row by row, null by null; and the multiplication that exchanges its
      operands, for which it does not.
    - [Utf8.v]: [third_party/utf8proc/utf8proc_wrapper.cpp] and the codec of [utf8proc.cpp],
      [function/base_lower_upper_operation.cpp] and [StringUtils::changeCase];
      [Utf8Spec.v] has the encoding of scalar values, and C37 and C38: what
      is valid and what changing the case of a text gives.

    ** Conventions

    A call returns an [outcome]: a value, an exception of the class that is thrown
    (the message without its arguments), or [Undef], which collects a failing
    [KU_ASSERT], a null pointer that is followed, an access outside an array or to
    a destroyed object; theorems that a call returns therefore say that none of
    these happens. Unsigned integers are numbers with their wrap-around written
    out ([u64], [u32]) where they can reach it; sizes of arrays in memory are
    natural numbers. Loops are [for_range] with the bounds of the code, or have
    fuel: the search of a version chain the number of objects ever made, which no
    chain exceeds; the wait for a checkpoint the number of rounds until the
    timeout; the replay of an undo buffer its bytes over the eight of a header; the
    growth of a memory buffer 52, which doubles four kilobytes past sixty-four
    bits; the copy of bits their number; the two passes over a log its bytes, of which
    each record has one at least; the loops over the pages of a column the values that
    are left, of which each page takes one at least; the shifts of years and days to the
    first period of 400 years the number of periods between; the digits of a number ten
    rounds of two digits; the parsers of texts the characters left. Reads of decimal digits
    are structural on the text. In each case the theorems prove that the
    result is reached. [std::mutex] serialises the public functions of the
    manager, so each is one step; the other components are used by one thread at a
    time under their lock.

    ** Not modelled

    The operating system's files fail in no modelled call, and a crash keeps a prefix
    of what was written and not yet synced, never later bytes without earlier ones.
    Memory mapping and the choice of frames to evict (buffer manager; eviction itself
    can happen at any time), the compression of other values than integers, the
    tables above the column chunks, indexes, and most of the query side (parser,
    binder, planner, processor, most functions) have no definitions here: of the functions
    there are those of integers and temporal values named above; floats, decimals, the
    128-bit integer, nested values and strings, aggregates, the select loops and the unary
    and ternary executors are not here. The tables of the case of codepoints, which are
    generated, are parameters, with the hypothesis that they map characters to characters.
    What the
    modelled code asks of them is a parameter: the fields of [Storage],
    [UndoTargets] and [Recovery] (the handlers of the log records), the base values
    of a column chunk, the effect of ALTER on the columns of a table
    ([table_alter]), and how catalog entries, property definitions and vectors are
    written to the log and to the metadata (a [wire]), and which calls the tables make in
    a checkpoint. Transactions that log more than the threshold
    of an early flush are in [WALHistory.v] but not in [DurableHistory.v], where a
    checkpoint of the tables always returns. The data file of [ColumnPages.v] is the
    list of its pages: their shadows are those of [ShadowFile.v]. Integers of 128 bits,
    booleans and floats have packings of their own, and the checkpoint that rewrites a
    chunk needs the node group around it. The hash index, an [Engine] over the column
    chunks and instances of [UndoTargets] for node groups would build on what is here;
    they need the tables.
    Third-party code, the extensions, the C interface and the Swift package are
    outside of the library's scope. *)
From stdpp Require Export base tactics list numbers option strings.
From Stdlib Require Export ZArith Lia.

(** ** Outcomes: what a C++ call can end in *)

(** The exception classes of [common/exception/] the modelled code throws.
    The message is the literal of the [throw] (format arguments dropped). *)
Inductive exn :=
| RuntimeException (msg : string)
| CatalogException (msg : string)
| BinderException (msg : string)
| TransactionManagerException (msg : string)
| CheckpointException (msg : string)
| ConversionException (msg : string)
| OverflowException (msg : string)
| BufferManagerException (msg : string)
| StorageException (msg : string)
| NotImplementedException (msg : string).

#[global] Instance exn_eq_dec : EqDecision exn.
Proof. solve_decision. Defined.

(** [Undef] collects what the C++ program gives no meaning to: an access
    outside an array, a null pointer followed, a failing [KU_ASSERT]. *)
Inductive outcome (A : Type) :=
| Ret (a : A)
| Throw (e : exn)
| Undef.
Arguments Ret {A} a.
Arguments Throw {A} e.
Arguments Undef {A}.

#[global] Instance outcome_eq_dec {A} `{EqDecision A} : EqDecision (outcome A).
Proof. solve_decision. Defined.

#[global] Instance outcome_ret : MRet outcome := @Ret.
#[global] Instance outcome_bind : MBind outcome := fun A B f m =>
  match m with Ret a => f a | Throw e => Throw e | Undef => Undef end.
#[global] Instance outcome_fmap : FMap outcome := fun A B f m =>
  match m with Ret a => Ret (f a) | Throw e => Throw e | Undef => Undef end.

Definition ku_assert (b : bool) : outcome unit := if b then Ret tt else Undef.

Definition is_ret {A} (m : outcome A) : bool :=
  match m with Ret _ => true | _ => false end.

Section outcome_laws.
Context {A B C : Type}.
Implicit Types (m : outcome A) (f : A -> outcome B) (g : B -> outcome C).

Lemma outcome_bind_ret_l (a : A) f : mbind f (Ret a) = f a.
Proof. done. Qed.

Lemma outcome_bind_ret_r m : mbind Ret m = m.
Proof. by destruct m. Qed.

Lemma outcome_bind_assoc m f g :
  mbind g (mbind f m) = mbind (fun a => mbind g (f a)) m.
Proof. by destruct m. Qed.

Lemma outcome_bind_Ret_inv m f (b : B) :
  mbind f m = Ret b -> exists a, m = Ret a /\ f a = Ret b.
Proof. destruct m; cbn; intros; try discriminate. eauto. Qed.
End outcome_laws.

Lemma ku_assert_true (b : bool) {A} (k : unit -> outcome A) :
  b = true -> mbind k (ku_assert b) = k tt.
Proof. by intros ->. Qed.

Lemma ku_assert_Ret_inv b u : ku_assert b = Ret u -> b = true.
Proof. by destruct b. Qed.

Create HintDb kuzu discriminated.
Create Rewrite HintDb kuzu.
#[export] Hint Rewrite @outcome_bind_ret_l @outcome_bind_assoc : kuzu.

(** Runs the monad: opens one bind of the goal whose head has been computed by
    a hypothesis or a proved equation. *)
Ltac run_eq H := rewrite H; cbn [mbind outcome_bind mret outcome_ret].

(** Splits every successful bind in a hypothesis. *)
Ltac inv_ret H :=
  repeat match type of H with
  | mbind _ _ = Ret _ =>
      let a := fresh "a" in let Ha := fresh "Hret" in
      apply outcome_bind_Ret_inv in H as (a & Ha & H)
  | Ret _ = Ret _ => injection H as H
  end.

(** Turns the boolean tests of the code into propositions. *)
Ltac bool_to_prop :=
  repeat match goal with
  | H : andb _ _ = true |- _ => apply andb_prop in H as [? ?]
  | H : orb _ _ = false |- _ => apply orb_false_elim in H as [? ?]
  | H : negb _ = true |- _ => apply negb_true_iff in H
  | H : negb _ = false |- _ => apply negb_false_iff in H
  | H : Z.eqb _ _ = true |- _ => apply Z.eqb_eq in H
  | H : Z.eqb _ _ = false |- _ => apply Z.eqb_neq in H
  | H : Z.leb _ _ = true |- _ => apply Z.leb_le in H
  | H : Z.leb _ _ = false |- _ => apply Z.leb_gt in H
  | H : Z.ltb _ _ = true |- _ => apply Z.ltb_lt in H
  | H : Z.ltb _ _ = false |- _ => apply Z.ltb_ge in H
  | H : Nat.eqb _ _ = true |- _ => apply Nat.eqb_eq in H
  | H : Nat.eqb _ _ = false |- _ => apply Nat.eqb_neq in H
  | H : Nat.leb _ _ = true |- _ => apply Nat.leb_le in H
  | H : Nat.leb _ _ = false |- _ => apply Nat.leb_gt in H
  | H : Nat.ltb _ _ = true |- _ => apply Nat.ltb_lt in H
  | H : Nat.ltb _ _ = false |- _ => apply Nat.ltb_ge in H
  end.

(** ** Machine integers *)

Definition wrap (w z : Z) : Z := z mod 2 ^ w.
Definition u8 := wrap 8.
Definition u16 := wrap 16.
Definition u32 := wrap 32.
Definition u64 := wrap 64.
Definition in_range (w z : Z) : bool := (0 <=? z)%Z && (z <? 2 ^ w)%Z.

Lemma wrap_small (w z : Z) : (0 <= z < 2 ^ w)%Z -> wrap w z = z.
Proof. intros. by apply Z.mod_small. Qed.

Lemma wrap_range (w z : Z) : (0 <= w)%Z -> (0 <= wrap w z < 2 ^ w)%Z.
Proof. intros. apply Z.mod_pos_bound. lia. Qed.

Lemma in_range_spec (w z : Z) : in_range w z = true <-> (0 <= z < 2 ^ w)%Z.
Proof.
  unfold in_range. rewrite andb_true_iff, Z.leb_le, Z.ltb_lt. done.
Qed.

(** ** Arrays *)

Section arrays.
Context {A : Type}.
Implicit Types (l : list A) (x : A) (i n : nat).

(** [a[i]] and [a[i] = x] of a C++ array or vector: undefined out of range. *)
Definition load l i : outcome A :=
  match l !! i with Some x => Ret x | None => Undef end.
Definition store l i x : outcome (list A) :=
  if decide (i < length l) then Ret (<[i := x]> l) else Undef.

Lemma load_Ret l i x : l !! i = Some x -> load l i = Ret x.
Proof. unfold load. by intros ->. Qed.

Lemma load_lt l i : i < length l -> exists x, l !! i = Some x /\ load l i = Ret x.
Proof.
  intros Hi. destruct (lookup_lt_is_Some_2 l i Hi) as [x Hx].
  exists x. split; [done|]. by apply load_Ret.
Qed.

Lemma store_Ret l i x : i < length l -> store l i x = Ret (<[i := x]> l).
Proof. unfold store. intros. by rewrite decide_True. Qed.
End arrays.

#[global] Arguments load {A} l i : simpl never.
#[global] Arguments store {A} l i x : simpl never.

(** ** Counted loops *)

(** [for (i = lo; i < lo + n; i++) s = body(i, s)]. *)
Fixpoint for_range {St : Type} (lo n : nat) (body : nat -> St -> outcome St) (s : St)
  : outcome St :=
  match n with
  | O => Ret s
  | S n' => s' ← body lo s; for_range (S lo) n' body s'
  end.

Section for_range.
Context {St : Type}.
Implicit Types (body : nat -> St -> outcome St) (s : St).

Lemma for_range_app lo n m body s :
  for_range lo (n + m) body s = (s' ← for_range lo n body s; for_range (lo + n) m body s').
Proof.
  revert lo s. induction n as [|n IH]; intros lo s; cbn.
  - by rewrite Nat.add_0_r.
  - destruct (body lo s) as [s'| |]; cbn; [|done..].
    rewrite IH. by replace (S lo + n) with (lo + S n) by lia.
Qed.

(** The loop rule: an invariant [I] indexed by the number of iterations done. *)
Lemma for_range_inv (I : nat -> St -> Prop) lo n body s :
  I 0 s ->
  (forall k s, k < n -> I k s -> exists s', body (lo + k) s = Ret s' /\ I (S k) s') ->
  exists s', for_range lo n body s = Ret s' /\ I n s'.
Proof.
  revert lo s I. induction n as [|n IH]; intros lo s I H0 Hstep; cbn.
  - eauto.
  - destruct (Hstep 0 s) as (s' & Hb & H1); [lia|done|].
    rewrite Nat.add_0_r in Hb. rewrite Hb. cbn.
    destruct (IH (S lo) s' (fun k => I (S k))) as (s'' & Hr & HI);
      [done| |eauto].
    intros k t Hk Ht. destruct (Hstep (S k) t) as (t' & Hbt & Ht'); [lia|done|].
    exists t'. split; [|done]. by replace (S lo + k) with (lo + S k) by lia.
Qed.

(** The same for a run that is known to have returned. *)
Lemma for_range_ret_inv (I : nat -> St -> Prop) lo n body s s' :
  for_range lo n body s = Ret s' -> I 0 s ->
  (forall k t t', k < n -> I k t -> body (lo + k) t = Ret t' -> I (S k) t') ->
  I n s'.
Proof.
  revert lo s I. induction n as [|n IH]; intros lo s I Hrun H0 Hstep; cbn in Hrun.
  - by simplify_eq.
  - apply outcome_bind_Ret_inv in Hrun as (t & Hb & Hrun).
    apply (IH (S lo) t (fun k => I (S k))); [done| |].
    + apply (Hstep 0 s); [lia|done|]. by rewrite Nat.add_0_r.
    + intros k u u' Hk Hu Hbu. apply (Hstep (S k) u); [lia|done|].
      by replace (lo + S k) with (S lo + k) by lia.
Qed.
End for_range.

(** [for (i = start; i < start + n; i++) l[i] = x]. *)
Definition fill {A} (l : list A) (start n : nat) (x : A) : outcome (list A) :=
  for_range start n (fun i l => store l i x) l.

#[global] Arguments fill {A} l start n x : simpl never.

Definition fill_spec {A} (l : list A) (start n : nat) (x : A) (l' : list A) : Prop :=
  length l' = length l /\
  forall i, l' !! i = if bool_decide (start <= i < start + n) then Some x else l !! i.

Lemma fill_Ret {A} (l : list A) start n x :
  start + n <= length l -> exists l', fill l start n x = Ret l' /\ fill_spec l start n x l'.
Proof.
  intros Hle. unfold fill.
  apply (for_range_inv (fun k l' => fill_spec l start k x l')).
  - split; [done|]. intros i. by rewrite bool_decide_false by lia.
  - intros k l' Hk [Hlen Hl']. exists (<[start + k := x]> l'). split.
    + apply store_Ret. lia.
    + split; [by rewrite length_insert|]. intros i.
      destruct (decide (i = start + k)) as [->|Hne].
      * rewrite list_lookup_insert_eq by lia. by rewrite bool_decide_true by lia.
      * rewrite list_lookup_insert_ne by done. rewrite Hl'.
        repeat case_bool_decide; try done; lia.
Qed.

(** ** Division *)

(** Linear goals with [div] and [mod]. *)
Ltac div_lia := Z.div_mod_to_equations; lia.

(** ** Computation over a range *)

(** A statement about all indices below a bound is one computation. *)
Definition all_below (n : nat) (P : Z -> bool) : bool := forallb (fun i => P (Z.of_nat i)) (seq 0 n).
Lemma all_below_true n P : all_below n P = true -> forall i, (0 <= i < Z.of_nat n)%Z -> P i = true.
Proof.
  unfold all_below. rewrite forallb_forall. intros H i Hi. rewrite <- (Z2Nat.id i) by lia. apply H. apply in_seq. lia.
Qed.
