(* ===== verification/Effects.v ===== *)
(** Programs on a shared state: a step gives an outcome and a state, and the
    state survives an exception, as the state of a C++ object does. *)
From S2P Require Import Prelude.

Definition M (S A : Type) : Type := S -> outcome A * S.

Section monad.
Context {S : Type}.

#[global] Instance M_ret : MRet (M S) := fun A a s => (Ret a, s).
#[global] Instance M_bind : MBind (M S) := fun A B f m s =>
  match m s with
  | (Ret a, s') => f a s'
  | (Throw e, s') => (Throw e, s')
  | (Undef, s') => (Undef, s')
  end.

Definition get : M S S := fun s => (Ret s, s).
Definition gets {A} (f : S -> A) : M S A := fun s => (Ret (f s), s).
Definition modify (f : S -> S) : M S unit := fun s => (Ret tt, f s).
Definition throw {A} (e : exn) : M S A := fun s => (Throw e, s).
Definition undef {A} : M S A := fun s => (Undef, s).
Definition when (b : bool) (m : M S unit) : M S unit := if b then m else mret tt.
Definition lift {A} (o : outcome A) : M S A := fun s => (o, s).

(** [try { m } catch (e) { h(e) }]. *)
Definition try_catch {A} (m : M S A) (h : exn -> M S A) : M S A := fun s =>
  match m s with (Throw e, s') => h e s' | r => r end.
End monad.

Definition exn_msg (e : exn) : string :=
  match e with
  | RuntimeException m | CatalogException m | BinderException m | TransactionManagerException m | CheckpointException m
  | ConversionException m | OverflowException m | BufferManagerException m | StorageException m | NotImplementedException m => m
  end.

(** A program that starts in [s] is defined; [Q] holds when it returns and [T] when it
    throws. *)
Definition ends {S A} (m : M S A) (s : S) (Q : A -> S -> Prop) (T : S -> Prop) : Prop :=
  match m s with (Ret a, s') => Q a s' | (Throw _, s') => T s' | (Undef, _) => False end.

Lemma bind_run {S A B} (m : M S A) (f : A -> M S B) s a s' : m s = (Ret a, s') -> mbind f m s = f a s'.
Proof. intros Hm. unfold mbind, M_bind. by rewrite Hm. Qed.

Lemma bind_throw {S A B} (m : M S A) (f : A -> M S B) s e s' : m s = (Throw e, s') -> mbind f m s = (Throw e, s').
Proof. intros Hm. unfold mbind, M_bind. by rewrite Hm. Qed.

Lemma ends_bind {S A B} (m : M S A) (f : A -> M S B) s Q T : ends m s (fun a s' => ends (f a) s' Q T) T -> ends (mbind f m) s Q T.
Proof. unfold ends, mbind, M_bind. by destruct (m s) as [[a|e|] s']. Qed.

Lemma ends_weaken {S A} (m : M S A) s (Q Q' : A -> S -> Prop) (T T' : S -> Prop) :
  ends m s Q T -> (forall a s', Q a s' -> Q' a s') -> (forall s', T s' -> T' s') -> ends m s Q' T'.
Proof. unfold ends. destruct (m s) as [[a|e|] s']; auto. Qed.

Lemma ends_run {S A} (m : M S A) s a s' (Q : A -> S -> Prop) T : m s = (Ret a, s') -> Q a s' -> ends m s Q T.
Proof. intros Hm. unfold ends. by rewrite Hm. Qed.

Lemma bind_ext {S A B} (m m' : M S A) (f f' : A -> M S B) s :
  (forall s, m s = m' s) -> (forall a s, f a s = f' a s) -> mbind f m s = mbind f' m' s.
Proof. intros Hm Hf. unfold mbind, M_bind. rewrite Hm. by destruct (m' s) as [[a|e|] s']. Qed.
