(* ===== verification/SelVector.v ===== *)
(** Selection vectors ([common/data_chunk/sel_vector.cpp], [sel_vector.h]):
    which positions of an output vector are selected, kept either as a prefix
    (STATIC) or as an explicit buffer of positions (DYNAMIC). *)
From S2P Require Import Prelude.

(** [DEFAULT_VECTOR_CAPACITY] of [system_config.h]: [1 << 11]. *)
Definition DEFAULT_VECTOR_CAPACITY : nat := Nat.pow 2 11.
#[global] Opaque DEFAULT_VECTOR_CAPACITY.

Lemma vector_capacity_value : DEFAULT_VECTOR_CAPACITY = Z.to_nat 2048.
Proof. by vm_compute. Qed.

Lemma vector_capacity_pos : 0 < DEFAULT_VECTOR_CAPACITY.
Proof. rewrite vector_capacity_value. lia. Qed.
#[export] Hint Resolve vector_capacity_pos : kuzu.

Lemma vector_row k q : q < DEFAULT_VECTOR_CAPACITY -> (DEFAULT_VECTOR_CAPACITY * k + q) / DEFAULT_VECTOR_CAPACITY = k /\ (DEFAULT_VECTOR_CAPACITY * k + q) mod DEFAULT_VECTOR_CAPACITY = q.
Proof.
  intros Hq. pose proof vector_capacity_pos. split.
  - symmetry. by apply (Nat.div_unique _ _ _ q).
  - symmetry. by apply (Nat.mod_unique _ _ k).
Qed.


(** Loops over the vectors a range of [len] rows from row [off] meets, with the
    rows of each as offsets [start, end) in the vector; the last vector, the one
    of row [off + len], may have none. The rule carries an invariant on the
    number of rows done. *)
Section slices.
Context (off len : nat).
Abbreviation CAPACITY := DEFAULT_VECTOR_CAPACITY.
Abbreviation start_vector := (off / CAPACITY).
Abbreviation end_vector := ((off + len) / CAPACITY).

Definition slice_start (idx : nat) : nat := if idx =? start_vector then off mod CAPACITY else 0.
Definition slice_end (idx : nat) : nat := if idx =? end_vector then (off + len) mod CAPACITY else CAPACITY.

Lemma slice_step idx pos :
  start_vector <= idx <= end_vector -> off + pos = CAPACITY * idx + slice_start idx ->
  slice_start idx <= slice_end idx <= CAPACITY /\
  pos + (slice_end idx - slice_start idx) <= len /\
  (idx < end_vector ->
     off + (pos + (slice_end idx - slice_start idx)) = CAPACITY * S idx + slice_start (S idx)) /\
  (idx = end_vector -> pos + (slice_end idx - slice_start idx) = len).
Proof.
  unfold slice_start, slice_end. pose proof vector_capacity_pos.
  pose proof (Nat.div_mod_eq off CAPACITY) as Hs. pose proof (Nat.div_mod_eq (off + len) CAPACITY) as He.
  pose proof (Nat.mod_upper_bound off CAPACITY ltac:(lia)) as Hs'.
  pose proof (Nat.mod_upper_bound (off + len) CAPACITY ltac:(lia)) as He'.
  revert Hs Hs' He He'. generalize (off / CAPACITY), (off mod CAPACITY),
    ((off + len) / CAPACITY), ((off + len) mod CAPACITY).
  generalize dependent CAPACITY. intros c Hc sk sq ek eq Hs Hs' He He' Hk Hpos.
  destruct (Nat.eqb_spec idx sk), (Nat.eqb_spec idx ek), (Nat.eqb_spec (S idx) sk);
    subst; split_and!; intros; nia.
Qed.

Lemma slices_inv {St} (I : nat -> St -> Prop) (body : nat -> St -> outcome St) (s : St) :
  I 0 s ->
  (forall idx pos s, start_vector <= idx <= end_vector ->
     off + pos = CAPACITY * idx + slice_start idx ->
     slice_start idx <= slice_end idx <= CAPACITY -> pos + (slice_end idx - slice_start idx) <= len ->
     I pos s -> exists s', body idx s = Ret s' /\ I (pos + (slice_end idx - slice_start idx)) s') ->
  exists s', for_range start_vector (S end_vector - start_vector) body s = Ret s' /\ I len s'.
Proof.
  intros H0 Hstep. pose proof vector_capacity_pos.
  assert (start_vector <= end_vector) as Hle by (apply Nat.Div0.div_le_mono; lia).
  destruct (for_range_inv (fun k s => exists pos, I pos s /\
      (k <= end_vector - start_vector -> off + pos = CAPACITY * (start_vector + k) + slice_start (start_vector + k)) /\
      (k = S end_vector - start_vector -> pos = len))
    start_vector (S end_vector - start_vector) body s) as (s' & Hrun & pos & HI & _ & Hend).
  - exists 0. split_and!; [done| |lia]. intros _. rewrite !Nat.add_0_r. unfold slice_start.
    rewrite Nat.eqb_refl. apply Nat.div_mod_eq.
  - intros k t Hk (pos & HI & Hpos & _). specialize (Hpos ltac:(lia)).
    destruct (slice_step (start_vector + k) pos) as (Hb & Hle' & Hnext & Hlast); [lia|done|].
    destruct (Hstep (start_vector + k) pos t) as (t' & Hb' & HI'); [lia|done..|].
    exists t'. split; [done|]. eexists. split; [done|]. rewrite Nat.add_succ_r. split; intros; lia.
  - exists s'. split; [done|]. by rewrite <-Hend.
Qed.
End slices.

Module SelectionVector.

Inductive State := DYNAMIC | STATIC.
#[global] Instance State_eq_dec : EqDecision State.
Proof. solve_decision. Defined.

(** Where [selectedPositions] points: at the constant array
    [INCREMENTAL_SELECTED_POS] = 0, 1, 2, ... or at the vector's own buffer. *)
Inductive Pointer := Incremental | Buffer.

Record t := mk {
  selectedPositions : Pointer;
  selectedSize : nat;
  state : State;
  selectedPositionsBuffer : list nat;
}.

Definition capacity (sv : t) : nat := length (selectedPositionsBuffer sv).

Definition INCREMENTAL_SELECTED_POS : list nat := seq 0 DEFAULT_VECTOR_CAPACITY.

(** [SelectionVector(capacity)]; the buffer is value-initialised. *)
Definition init (cap : nat) : t := mk Incremental 0 STATIC (replicate cap 0).

Definition pointee (sv : t) : list nat :=
  match selectedPositions sv with
  | Incremental => INCREMENTAL_SELECTED_POS
  | Buffer => selectedPositionsBuffer sv
  end.

Definition getSelSize (sv : t) : nat := selectedSize sv.

Definition isUnfiltered (sv : t) : bool :=
  bool_decide (state sv = STATIC) && bool_decide (pointee sv !! 0 = Some 0).

Definition setToUnfiltered (sv : t) (size : nat) : outcome t :=
  _ ← ku_assert (size <=? capacity sv);
  mret (mk Incremental size STATIC (selectedPositionsBuffer sv)).

Definition setRange (sv : t) (startPos size : nat) : outcome t :=
  _ ← ku_assert (startPos + size <=? capacity sv);
  buf ← for_range 0 size (fun i buf => store buf i (startPos + i))
          (selectedPositionsBuffer sv);
  mret (mk Buffer size DYNAMIC buf).

Definition setToFiltered (sv : t) (size : nat) : outcome t :=
  _ ← ku_assert (size <=? capacity sv);
  mret (mk Buffer size DYNAMIC (selectedPositionsBuffer sv)).

(** [memcpy(selectedPositionsBuffer, selectedPositions, selectedSize)]. *)
Definition makeDynamic (sv : t) : outcome t :=
  buf ← for_range 0 (selectedSize sv)
          (fun i buf => x ← load (pointee sv) i; store buf i x)
          (selectedPositionsBuffer sv);
  mret (mk Buffer (selectedSize sv) DYNAMIC buf).

(** [getMutableBuffer()[i] = x]. *)
Definition writeBuffer (sv : t) (i x : nat) : outcome t :=
  buf ← store (selectedPositionsBuffer sv) i x;
  mret (mk (selectedPositions sv) (selectedSize sv) (state sv) buf).

Definition setSelSize (sv : t) (size : nat) : outcome t :=
  _ ← ku_assert (size <=? capacity sv);
  mret (mk (selectedPositions sv) size (state sv) (selectedPositionsBuffer sv)).

(** The positions [forEach] visits: a run from the first position when the
    vector is STATIC, the stored positions otherwise. *)
Definition forEachPositions (sv : t) : list nat :=
  match state sv with
  | DYNAMIC => take (selectedSize sv) (pointee sv)
  | STATIC =>
      match pointee sv !! 0 with
      | Some start => seq start (selectedSize sv)
      | None => []
      end
  end.

(** A vector as the setters leave it. *)
Definition wf (sv : t) : Prop :=
  capacity sv = DEFAULT_VECTOR_CAPACITY /\
  selectedSize sv <= DEFAULT_VECTOR_CAPACITY /\
  (state sv = STATIC <-> selectedPositions sv = Incremental).

Lemma incremental_lookup i :
  i < DEFAULT_VECTOR_CAPACITY -> INCREMENTAL_SELECTED_POS !! i = Some i.
Proof. intros. unfold INCREMENTAL_SELECTED_POS. by rewrite lookup_seq_lt. Qed.

Lemma isUnfiltered_wf sv :
  wf sv -> isUnfiltered sv = bool_decide (state sv = STATIC).
Proof.
  intros (_ & _ & Hp). unfold isUnfiltered. case_bool_decide as Hs; [|done].
  cbn. apply bool_decide_eq_true. unfold pointee. rewrite (proj1 Hp Hs).
  apply incremental_lookup, vector_capacity_pos.
Qed.

Lemma positions_static sv :
  wf sv -> state sv = STATIC -> forEachPositions sv = seq 0 (selectedSize sv).
Proof.
  intros (_ & _ & Hp) Hs. unfold forEachPositions, pointee.
  rewrite Hs, (proj1 Hp Hs), incremental_lookup by apply vector_capacity_pos. done.
Qed.

Lemma positions_dynamic sv :
  wf sv -> state sv = DYNAMIC ->
  forEachPositions sv = take (selectedSize sv) (selectedPositionsBuffer sv).
Proof.
  intros (_ & _ & Hp) Hs. unfold forEachPositions, pointee. rewrite Hs.
  destruct (selectedPositions sv) eqn:E; [|done].
  destruct Hp as [_ Hp]. rewrite Hs in Hp. by specialize (Hp eq_refl).
Qed.

(** [makeDynamic] keeps the selected positions. *)
Lemma makeDynamic_spec sv :
  wf sv ->
  exists sv', makeDynamic sv = Ret sv' /\ wf sv' /\ state sv' = DYNAMIC /\
    selectedSize sv' = selectedSize sv /\ forEachPositions sv' = forEachPositions sv.
Proof.
  intros Hwf. destruct (Hwf) as (Hcap & Hsz & Hp). unfold capacity in Hcap.
  assert (Hptr : forall i, i < selectedSize sv ->
            forEachPositions sv !! i = pointee sv !! i).
  { intros i Hi. destruct (state sv) eqn:Hs.
    - rewrite positions_dynamic, lookup_take_lt by done.
      unfold pointee. destruct (selectedPositions sv); [|done].
      destruct Hp as [_ Hp]. by specialize (Hp eq_refl).
    - rewrite positions_static by done. unfold pointee.
      rewrite (proj1 Hp) by done. rewrite incremental_lookup by lia.
      by rewrite lookup_seq_lt. }
  unfold makeDynamic.
  destruct (for_range_inv
    (fun k buf => length buf = DEFAULT_VECTOR_CAPACITY /\
      (forall i, i < k -> buf !! i = pointee sv !! i) /\
      (forall i, k <= i -> buf !! i = selectedPositionsBuffer sv !! i))
    0 (selectedSize sv)
    (fun i buf => x ← load (pointee sv) i; store buf i x)
    (selectedPositionsBuffer sv)) as (buf & -> & Hlen & Hbuf & _).
  - split; [done|]. split; [lia|done].
  - intros k buf Hk (Hl & Hlo & Hhi). cbn.
    assert (exists x, pointee sv !! k = Some x) as [x Hx].
    { unfold pointee. destruct (selectedPositions sv).
      - rewrite incremental_lookup by lia. eauto.
      - destruct (lookup_lt_is_Some_2 (selectedPositionsBuffer sv) k) as [y ->]; [lia|eauto]. }
    rewrite (load_Ret _ _ _ Hx). cbn. rewrite store_Ret by lia. cbn.
    eexists. split; [done|]. rewrite length_insert. split_and!; [done|..].
    + intros i Hi. destruct (decide (i = k)) as [->|].
      * by rewrite list_lookup_insert_eq by lia.
      * rewrite list_lookup_insert_ne by done. apply Hlo. lia.
    + intros i Hi. rewrite list_lookup_insert_ne by lia. apply Hhi. lia.
  - eexists. split; [done|]. split_and!; try done.
    change (take (selectedSize sv) buf = forEachPositions sv).
    apply list_eq. intros i. destruct (decide (i < selectedSize sv)) as [Hi|Hi].
    + rewrite lookup_take_lt by done. by rewrite Hbuf, Hptr.
    + rewrite lookup_take_ge by lia. symmetry. apply lookup_ge_None.
      destruct (state sv) eqn:Hs.
      * rewrite positions_dynamic, length_take by done. lia.
      * rewrite positions_static, length_seq by done. lia.
Qed.
End SelectionVector.
