(* ===== verification/Serializer.v ===== *)
(** Serialisation ([common/serializer/]): a value is written as its bytes in
    memory (little-endian), a container as its size followed by its elements.
    [writeDebuggingInfo] writes nothing unless [KUZU_DESER_DEBUG] is defined.
    A [codec] packs a writer with its reader and the law that makes them
    inverse; the components build theirs from the ones here. *)
From S2P Require Import Prelude.
Local Open Scope Z_scope.

Definition bytes := list Z.

(** A reader consumes a prefix of the remaining input; what the [Reader]
    implementations do when the input is too short is left undefined. *)
Definition reader (A : Type) := bytes -> outcome (A * bytes).

Record codec (A : Type) := mkCodec {
  serialize : A -> bytes;
  deserialize : reader A;
  serializable : A -> Prop;
  deserialize_serialize : forall a rest,
    serializable a -> deserialize (serialize a ++ rest) = Ret (a, rest);
}.
Arguments mkCodec {A}. Arguments serialize {A}. Arguments deserialize {A}.
Arguments serializable {A}. Arguments deserialize_serialize {A}.

(** ** Fixed-width integers *)

Fixpoint le_bytes (n : nat) (z : Z) : bytes :=
  match n with O => [] | S n => z mod 256 :: le_bytes n (z / 256) end.

Fixpoint le_value (bs : bytes) : Z :=
  match bs with [] => 0 | b :: bs => b + 256 * le_value bs end.

Lemma length_le_bytes n z : length (le_bytes n z) = n.
Proof. revert z. induction n; cbn; congruence. Qed.

Lemma le_value_bytes n z : le_value (le_bytes n z) = z mod 256 ^ Z.of_nat n.
Proof.
  revert z. induction n as [|n IH]; intros z.
  - by rewrite Z.mod_1_r.
  - cbn [le_bytes le_value]. rewrite IH, Nat2Z.inj_succ, Z.pow_succ_r by lia.
    rewrite Z.rem_mul_r by lia. lia.
Qed.

Definition read_uint (n : nat) : reader Z := fun bs =>
  if decide (n <= length bs)%nat then Ret (le_value (take n bs), drop n bs) else Undef.

Lemma read_write_uint n z rest :
  0 <= z < 256 ^ Z.of_nat n -> read_uint n (le_bytes n z ++ rest) = Ret (z, rest).
Proof.
  intros Hz. unfold read_uint.
  rewrite decide_True by (rewrite length_app, length_le_bytes; lia).
  rewrite take_app_length', drop_app_length' by (by rewrite length_le_bytes).
  rewrite le_value_bytes, Z.mod_small by done. done.
Qed.

Definition uint_codec (n : nat) : codec Z := {|
  serialize := le_bytes n;
  deserialize := read_uint n;
  serializable z := 0 <= z < 256 ^ Z.of_nat n;
  deserialize_serialize := read_write_uint n |}.

Definition u8_codec := uint_codec 1.
Definition u32_codec := uint_codec 4.
Definition u64_codec := uint_codec 8.

(** [int64_t] in two's complement. *)
Definition write_i64 (z : Z) : bytes := le_bytes 8 (z mod 2 ^ 64).
Definition read_i64 : reader Z := fun bs =>
  '(z, rest) ← read_uint 8 bs; mret (if z <? 2 ^ 63 then z else z - 2 ^ 64, rest).

Lemma read_write_i64 z rest : - 2 ^ 63 <= z < 2 ^ 63 -> read_i64 (write_i64 z ++ rest) = Ret (z, rest).
Proof.
  intros Hz. unfold read_i64, write_i64. rewrite read_write_uint by (apply Z.mod_pos_bound; lia).
  cbn [mbind outcome_bind]. destruct (Z.lt_ge_cases z 0) as [Hn|Hn].
  - rewrite <-(Z.mod_add z 1), Z.mod_small by lia. rewrite (proj2 (Z.ltb_ge _ _)) by lia.
    by replace (z + 1 * 2 ^ 64 - 2 ^ 64) with z by lia.
  - rewrite Z.mod_small by lia. by rewrite (proj2 (Z.ltb_lt _ _)) by lia.
Qed.

Definition i64_codec : codec Z := {|
  serialize := write_i64;
  deserialize := read_i64;
  serializable z := - 2 ^ 63 <= z < 2 ^ 63;
  deserialize_serialize := read_write_i64 |}.

(** A [bool] is one byte, 0 or 1. *)
Program Definition bool_codec : codec bool := {|
  serialize b := le_bytes 1 (if b : bool then 1 else 0);
  deserialize bs := '(z, rest) ← read_uint 1 bs; mret (negb (z =? 0), rest);
  serializable _ := True |}.
Next Obligation. by intros [] rest _. Qed.

(** ** Containers *)

Section containers.
Context {A : Type} (c : codec A).

Definition serialize_all (xs : list A) : bytes := concat (map (serialize c) xs).

Fixpoint deserialize_n (n : nat) : reader (list A) := fun bs =>
  match n with
  | O => Ret ([], bs)
  | S n =>
      '(x, bs) ← deserialize c bs;
      '(xs, bs) ← deserialize_n n bs;
      mret (x :: xs, bs)
  end.

Lemma deserialize_n_all xs rest :
  Forall (serializable c) xs ->
  deserialize_n (length xs) (serialize_all xs ++ rest) = Ret (xs, rest).
Proof.
  unfold serialize_all. induction 1 as [|x xs Hx Hxs IH]; cbn; [done|].
  rewrite <-app_assoc, deserialize_serialize by done. cbn. by rewrite IH.
Qed.

(** [serializeArray] / [deserializeArray]: the size is not written. *)
Program Definition array_codec (n : nat) : codec (list A) := {|
  serialize := serialize_all;
  deserialize := deserialize_n n;
  serializable xs := length xs = n /\ Forall (serializable c) xs |}.
Next Obligation. intros n xs rest [<- Hxs]. by apply deserialize_n_all. Qed.

(** [serializeVector] / [deserializeVector]: a 64-bit size first. *)
Program Definition vector_codec : codec (list A) := {|
  serialize xs := serialize u64_codec (Z.of_nat (length xs)) ++ serialize_all xs;
  deserialize bs := '(n, bs) ← deserialize u64_codec bs; deserialize_n (Z.to_nat n) bs;
  serializable xs := Z.of_nat (length xs) < 2 ^ 64 /\ Forall (serializable c) xs |}.
Next Obligation.
  intros xs rest [Hlen Hxs]. rewrite <-app_assoc, deserialize_serialize by (cbn; lia).
  cbn. rewrite Nat2Z.id. by apply deserialize_n_all.
Qed.
End containers.

(** [serializeValue(std::string)]: the length, then the characters. *)
Definition string_bytes (s : string) : bytes :=
  map (fun a => Z.of_N (Ascii.N_of_ascii a)) (String.list_ascii_of_string s).
Definition bytes_string (bs : bytes) : string :=
  String.string_of_list_ascii (map (fun z => Ascii.ascii_of_N (Z.to_N z)) bs).

Lemma bytes_string_bytes s : bytes_string (string_bytes s) = s.
Proof.
  unfold bytes_string, string_bytes. rewrite map_map.
  rewrite (map_ext _ id) by (intros a; by rewrite N2Z.id, Ascii.ascii_N_embedding).
  by rewrite map_id, String.string_of_list_ascii_of_string.
Qed.

Definition write_string (s : string) : bytes :=
  serialize u64_codec (Z.of_nat (length (string_bytes s))) ++ string_bytes s.
Definition read_string : reader string := fun bs =>
  '(n, bs) ← deserialize u64_codec bs;
  if decide (Z.to_nat n <= length bs)%nat
  then mret (bytes_string (take (Z.to_nat n) bs), drop (Z.to_nat n) bs) else Undef.

Lemma read_write_string s rest :
  Z.of_nat (length (string_bytes s)) < 2 ^ 64 ->
  read_string (write_string s ++ rest) = Ret (s, rest).
Proof.
  intros Hlen. unfold read_string, write_string.
  rewrite <-app_assoc, deserialize_serialize by (cbn; lia). cbn.
  rewrite Nat2Z.id, decide_True by (rewrite length_app; lia).
  rewrite take_app_length, drop_app_length, bytes_string_bytes. done.
Qed.

Definition string_codec : codec string := {|
  serialize := write_string;
  deserialize := read_string;
  serializable s := Z.of_nat (length (string_bytes s)) < 2 ^ 64;
  deserialize_serialize := read_write_string |}.
