(* ===== verification/VersionInfo.v ===== *)
(** Row versions of a chunked node group ([storage/table/version_info.cpp]):
    which transaction inserted and which deleted each row, one
    [VectorVersionInfo] per [DEFAULT_VECTOR_CAPACITY] rows, created on demand.
    [Module VectorVersionInfo] and [Module VersionInfo] carry the class names
    of the source; [Stamps] is the abstract view the theorems are stated in. *)
From S2P Require Import Prelude Serializer SelVector.

Abbreviation transaction_t := Z (only parsing).
(** [INVALID_TRANSACTION = UINT64_MAX]; transaction ids start at 2^63, commit
    timestamps stay below it. *)
Definition INVALID_TRANSACTION : transaction_t := (2 ^ 64 - 1)%Z.
Definition START_TRANSACTION_ID : transaction_t := (2 ^ 63)%Z.

Abbreviation CAP := DEFAULT_VECTOR_CAPACITY.

Module VectorVersionInfo.
Inductive InsertionStatus := NO_INSERTED | CHECK_VERSION | ALWAYS_INSERTED.
Inductive DeletionStatus := NO_DELETED | DEL_CHECK_VERSION.
#[global] Instance InsertionStatus_eq_dec : EqDecision InsertionStatus.
Proof. solve_decision. Defined.
#[global] Instance DeletionStatus_eq_dec : EqDecision DeletionStatus.
Proof. solve_decision. Defined.

Record t := mk {
  insertedVersions : option (list transaction_t);
  deletedVersions : option (list transaction_t);
  sameInsertionVersion : transaction_t;
  sameDeletionVersion : transaction_t;
  insertionStatus : InsertionStatus;
  deletionStatus : DeletionStatus;
}.

Definition init : t :=
  mk None None INVALID_TRANSACTION INVALID_TRANSACTION NO_INSERTED NO_DELETED.

Definition isSameInsertionVersion (v : t) : bool :=
  negb (sameInsertionVersion v =? INVALID_TRANSACTION)%Z.
Definition isSameDeletionVersion (v : t) : bool :=
  negb (sameDeletionVersion v =? INVALID_TRANSACTION)%Z.

(** [initInsertionVersionArray] and [initDeletionVersionArray]. *)
Definition initVersionArray : list transaction_t := replicate CAP INVALID_TRANSACTION.

Definition append (v : t) (transactionID : transaction_t) (startRow numRows : nat)
  : outcome t :=
  let '(mk ins del sameIns sameDel _ delSt) := v in
  if (transactionID =? sameIns)%Z then mret (mk ins del sameIns sameDel CHECK_VERSION delSt)
  else if negb (isSameInsertionVersion v) && bool_decide (ins = None)
  then mret (mk ins del transactionID sameDel CHECK_VERSION delSt)
  else
    '(arr, sameIns) ←
      match ins with
      | Some arr => mret (arr, sameIns)
      | None =>
          arr ← fill initVersionArray 0 startRow sameIns;
          mret (arr, INVALID_TRANSACTION)
      end;
    arr ← for_range 0 numRows (fun i arr =>
             old ← load arr (startRow + i);
             _ ← ku_assert (old =? INVALID_TRANSACTION)%Z;
             store arr (startRow + i) transactionID) arr;
    mret (mk (Some arr) del sameIns sameDel CHECK_VERSION delSt).

Definition ww_conflict_delete : exn :=
  RuntimeException
    "Write-write conflict: deleting a row that is already deleted by another transaction.".

(** The state is returned beside the result: a [throw] leaves the object
    with what was assigned before it. *)
Definition delete_ (v : t) (transactionID : transaction_t) (rowIdx : nat)
  : t * outcome bool :=
  let '(mk ins del sameIns sameDel insSt _) := v in
  let v := mk ins del sameIns sameDel insSt DEL_CHECK_VERSION in
  if (transactionID =? sameDel)%Z then (v, Ret false)
  else if isSameDeletionVersion v then (v, Throw ww_conflict_delete)
  else
    let arr := default initVersionArray del in
    let v := mk ins (Some arr) sameIns sameDel insSt DEL_CHECK_VERSION in
    match load arr rowIdx with
    | Ret old =>
        if (old =? transactionID)%Z then (v, Ret false)
        else if negb (old =? INVALID_TRANSACTION)%Z then (v, Throw ww_conflict_delete)
        else (mk ins (Some (<[rowIdx := transactionID]> arr)) sameIns sameDel insSt
                DEL_CHECK_VERSION, Ret true)
    | Throw e => (v, Throw e)
    | Undef => (v, Undef)
    end.

Definition setInsertCommitTS (v : t) (commitTS : transaction_t) (startRow numRows : nat)
  : outcome t :=
  let '(mk ins del sameIns sameDel insSt delSt) := v in
  if isSameInsertionVersion v then mret (mk ins del commitTS sameDel insSt delSt)
  else match ins with
       | None => Undef
       | Some arr =>
           arr ← fill arr startRow numRows commitTS;
           mret (mk (Some arr) del sameIns sameDel insSt delSt)
       end.

Definition setDeleteCommitTS (v : t) (commitTS : transaction_t) (startRow numRows : nat)
  : outcome t :=
  let '(mk ins del sameIns sameDel insSt delSt) := v in
  if isSameDeletionVersion v then mret (mk ins del sameIns commitTS insSt delSt)
  else match del with
       | None => Undef
       | Some arr =>
           arr ← fill arr startRow numRows commitTS;
           mret (mk ins (Some arr) sameIns sameDel insSt delSt)
       end.

Definition isDeleted (v : t) (startTS transactionID : transaction_t) (rowIdx : nat)
  : outcome bool :=
  match deletionStatus v with
  | NO_DELETED => mret false
  | DEL_CHECK_VERSION =>
      deletion ←
        if isSameDeletionVersion v then mret (sameDeletionVersion v)
        else match deletedVersions v with None => Undef | Some arr => load arr rowIdx end;
      mret ((deletion =? transactionID)%Z || (deletion <=? startTS)%Z)
  end.

Definition isInserted (v : t) (startTS transactionID : transaction_t) (rowIdx : nat)
  : outcome bool :=
  match insertionStatus v with
  | ALWAYS_INSERTED => mret true
  | NO_INSERTED => mret false
  | CHECK_VERSION =>
      insertion ←
        if isSameInsertionVersion v then mret (sameInsertionVersion v)
        else match insertedVersions v with None => Undef | Some arr => load arr rowIdx end;
      mret ((insertion =? transactionID)%Z || (insertion <=? startTS)%Z)
  end.

Definition isSelected (v : t) (startTS transactionID : transaction_t) (rowIdx : nat)
  : outcome bool :=
  match deletionStatus v, insertionStatus v with
  | NO_DELETED, ALWAYS_INSERTED => mret true
  | _, NO_INSERTED => mret false
  | _, _ =>
      inserted ← isInserted v startTS transactionID rowIdx;
      if inserted : bool
      then deleted ← isDeleted v startTS transactionID rowIdx; mret (negb deleted)
      else mret false
  end.

Import SelectionVector(getSelSize, isUnfiltered, setSelSize, setToUnfiltered, setToFiltered,
  makeDynamic, writeBuffer).

(** One iteration of the loops that append a position to the buffer. *)
Definition push (x : nat) (s : SelectionVector.t * nat) : outcome (SelectionVector.t * nat) :=
  let '(selVector, numSelected) := s in
  selVector ← writeBuffer selVector numSelected x;
  mret (selVector, S numSelected).

Definition getSelVectorForScan (v : t) (startTS transactionID : transaction_t)
    (selVector : SelectionVector.t) (startRow numRows startOutputPos : nat)
  : outcome SelectionVector.t :=
  let numSelected := getSelSize selVector in
  match deletionStatus v, insertionStatus v with
  | NO_DELETED, ALWAYS_INSERTED =>
      if isUnfiltered selVector
      then setSelSize selVector (getSelSize selVector + numRows)
      else
        '(selVector, numSelected) ←
          for_range 0 numRows (fun i s => push (startOutputPos + i) s) (selVector, numSelected);
        setToFiltered selVector numSelected
  | _, NO_INSERTED => mret selVector
  | _, _ =>
      selVector ← if isUnfiltered selVector then makeDynamic selVector else mret selVector;
      '(selVector, numSelected) ←
        for_range 0 numRows (fun i s =>
            let rowIdx := startRow + i in
            inserted ← isInserted v startTS transactionID rowIdx;
            selected ← (if inserted : bool
                        then deleted ← isDeleted v startTS transactionID rowIdx;
                             mret (negb deleted)
                        else mret false);
            if selected : bool then push (startOutputPos + i) s else mret s)
          (selVector, numSelected);
      setToFiltered selVector numSelected
  end.

Definition getNumDeletions (v : t) (startTS transactionID : transaction_t)
    (startRow numRows : nat) : outcome nat :=
  match deletionStatus v with
  | NO_DELETED => mret 0
  | DEL_CHECK_VERSION =>
      for_range 0 numRows (fun i numDeletions =>
          deleted ← isDeleted v startTS transactionID (startRow + i);
          mret (numDeletions + (if deleted : bool then 1 else 0))) 0
  end.

Definition all_invalid (arr : list transaction_t) : bool :=
  forallb (fun version => version =? INVALID_TRANSACTION)%Z arr.

Definition rollbackInsertions (v : t) (startRowInVector numRows : nat) : outcome t :=
  let '(mk ins del sameIns sameDel insSt delSt) := v in
  '(ins, sameIns) ←
    if isSameInsertionVersion v then mret (ins, INVALID_TRANSACTION)
    else match ins with
         | None => mret (ins, sameIns)
         | Some arr =>
             arr ← fill arr startRowInVector numRows INVALID_TRANSACTION;
             mret (if all_invalid arr then None else Some arr, sameIns)
         end;
  match ins with
  | None => mret (mk ins del sameIns sameDel NO_INSERTED NO_DELETED)
  | Some _ => mret (mk ins del sameIns sameDel insSt delSt)
  end.

Definition rollbackDeletions (v : t) (startRowInVector numRows : nat) : outcome t :=
  let '(mk ins del sameIns sameDel insSt delSt) := v in
  '(del, sameDel) ←
    if isSameDeletionVersion v then mret (del, INVALID_TRANSACTION)
    else match del with
         | None => mret (del, sameDel)
         | Some arr =>
             arr ← fill arr startRowInVector numRows INVALID_TRANSACTION;
             mret (if all_invalid arr then None else Some arr, sameDel)
         end;
  match del with
  | None => mret (mk ins del sameIns sameDel insSt NO_DELETED)
  | Some _ => mret (mk ins del sameIns sameDel insSt delSt)
  end.

(** [deletedVersions->size()] of a [std::array] is its constant length. *)
Definition hasDeletions (v : t) (startTS transactionID : transaction_t) : outcome bool :=
  if isSameDeletionVersion v
  then mret ((sameDeletionVersion v <=? startTS)%Z || (sameDeletionVersion v =? transactionID)%Z)
  else
    numDeletions ← for_range 0 CAP (fun i numDeletions =>
          deleted ← isDeleted v startTS transactionID i;
          mret (numDeletions + (if deleted : bool then 1 else 0))) 0;
    mret (0 <? numDeletions).

(** The enumerations are one byte. *)
Definition insertion_status_byte (s : InsertionStatus) : Z :=
  match s with NO_INSERTED => 0 | CHECK_VERSION => 1 | ALWAYS_INSERTED => 2 end.
Definition deletion_status_byte (s : DeletionStatus) : Z :=
  match s with NO_DELETED => 0 | DEL_CHECK_VERSION => 1 end.
Definition insertion_status_of_byte (z : Z) : outcome InsertionStatus :=
  match z with
  | 0 => Ret NO_INSERTED | 1 => Ret CHECK_VERSION | 2 => Ret ALWAYS_INSERTED | _ => Undef
  end%Z.
Definition deletion_status_of_byte (z : Z) : outcome DeletionStatus :=
  match z with 0 => Ret NO_DELETED | 1 => Ret DEL_CHECK_VERSION | _ => Undef end%Z.

Definition version_array_codec : codec (list transaction_t) := array_codec u64_codec CAP.

(** "Versions should be either INVALID_TRANSACTION or committed timestamps." *)
Definition committed_versions (arr : list transaction_t) : bool :=
  forallb (fun deleted => (deleted =? INVALID_TRANSACTION) || (deleted <? START_TRANSACTION_ID))%Z arr.

Definition not_check_version (s : InsertionStatus) : bool :=
  match s with CHECK_VERSION => false | _ => true end.

Definition serialize (v : t) : outcome bytes :=
  _ ← ku_assert (match deletedVersions v with Some arr => committed_versions arr | None => true end);
  _ ← ku_assert (not_check_version (insertionStatus v));
  let header := Serializer.serialize u8_codec (insertion_status_byte (insertionStatus v)) ++
                Serializer.serialize u8_codec (deletion_status_byte (deletionStatus v)) in
  match deletionStatus v with
  | NO_DELETED => mret header
  | DEL_CHECK_VERSION =>
      let same := Serializer.serialize u64_codec (sameDeletionVersion v) in
      if (sameDeletionVersion v =? INVALID_TRANSACTION)%Z
      then match deletedVersions v with
           | None => Undef
           | Some arr => mret (header ++ same ++ Serializer.serialize version_array_codec arr)
           end
      else mret (header ++ same)
  end.

Definition deSerialize : reader t := fun bs =>
  '(z, bs) ← Serializer.deserialize u8_codec bs;
  insSt ← insertion_status_of_byte z;
  _ ← ku_assert (not_check_version insSt);
  '(z, bs) ← Serializer.deserialize u8_codec bs;
  delSt ← deletion_status_of_byte z;
  match delSt with
  | NO_DELETED => mret (mk None None INVALID_TRANSACTION INVALID_TRANSACTION insSt delSt, bs)
  | DEL_CHECK_VERSION =>
      '(sameDel, bs) ← Serializer.deserialize u64_codec bs;
      if (sameDel =? INVALID_TRANSACTION)%Z
      then
        '(arr, bs) ← Serializer.deserialize version_array_codec bs;
        _ ← ku_assert (committed_versions arr);
        mret (mk None (Some arr) INVALID_TRANSACTION sameDel insSt delSt, bs)
      else mret (mk None None INVALID_TRANSACTION sameDel insSt delSt, bs)
  end.
End VectorVersionInfo.

Module VersionInfo.
(** [vectorsInfo]: [None] is the null pointer. *)
Abbreviation t := (list (option VectorVersionInfo.t)) (only parsing).

Definition getQuotientRemainder (i divisor : nat) : nat * nat := (i / divisor, i mod divisor).

Definition getVectorVersionInfo (vi : t) (vectorIdx : nat) : option VectorVersionInfo.t :=
  match vi !! vectorIdx with Some (Some v) => Some v | _ => None end.

(** [vectorsInfo.resize(n)]: grows with null pointers (it is only called to grow). *)
Definition resize (vi : t) (n : nat) : t := vi ++ replicate (n - length vi) None.

Definition getOrCreateVersionInfo (vi : t) (vectorIdx : nat) : t * VectorVersionInfo.t :=
  let vi := if length vi <=? vectorIdx then resize vi (S vectorIdx) else vi in
  match getVectorVersionInfo vi vectorIdx with
  | Some v => (vi, v)
  | None => (<[vectorIdx := Some VectorVersionInfo.init]> vi, VectorVersionInfo.init)
  end.

(** The loop shared by the operations on [numRows > 0] rows from [startRow]:
    each vector of the range with the first row and the number of rows in it. *)
Definition startRowIdx (startRow vectorIdx : nat) : nat :=
  let '(startVectorIdx, startRowIdxInVector) := getQuotientRemainder startRow CAP in
  if vectorIdx =? startVectorIdx then startRowIdxInVector else 0.
Definition endRowIdx (startRow numRows vectorIdx : nat) : nat :=
  let '(endVectorIdx, endRowIdxInVector) :=
    getQuotientRemainder (startRow + numRows - 1) CAP in
  if vectorIdx =? endVectorIdx then endRowIdxInVector else CAP - 1.
Definition numRowsInVector (startRow numRows vectorIdx : nat) : nat :=
  endRowIdx startRow numRows vectorIdx - startRowIdx startRow vectorIdx + 1.

#[global] Arguments startRowIdx : simpl never.
#[global] Arguments endRowIdx : simpl never.
#[global] Arguments numRowsInVector : simpl never.

Definition forVectors {St} (startRow numRows : nat) (body : nat -> St -> outcome St) (s : St)
  : outcome St :=
  let startVectorIdx := startRow / CAP in
  let endVectorIdx := (startRow + numRows - 1) / CAP in
  for_range startVectorIdx (S endVectorIdx - startVectorIdx) body s.

(** The body of the loops that change each vector of the range. *)
Definition updateVectors (op : VectorVersionInfo.t -> nat -> nat -> outcome VectorVersionInfo.t)
    (startRow numRows : nat) (vi : t) : outcome t :=
  if numRows =? 0 then mret vi
  else
    forVectors startRow numRows (fun vectorIdx vi =>
      let '(vi, v) := getOrCreateVersionInfo vi vectorIdx in
      v ← op v (startRowIdx startRow vectorIdx) (numRowsInVector startRow numRows vectorIdx);
      mret (<[vectorIdx := Some v]> vi)) vi.

Definition append (vi : t) (transactionID : transaction_t) (startRow numRows : nat) : outcome t :=
  updateVectors (fun v => VectorVersionInfo.append v transactionID) startRow numRows vi.
Definition commitInsert (vi : t) (startRow numRows : nat) (commitTS : transaction_t) : outcome t :=
  updateVectors (fun v => VectorVersionInfo.setInsertCommitTS v commitTS) startRow numRows vi.
Definition rollbackInsert (vi : t) (startRow numRows : nat) : outcome t :=
  updateVectors VectorVersionInfo.rollbackInsertions startRow numRows vi.
Definition commitDelete (vi : t) (startRow numRows : nat) (commitTS : transaction_t) : outcome t :=
  updateVectors (fun v => VectorVersionInfo.setDeleteCommitTS v commitTS) startRow numRows vi.
Definition rollbackDelete (vi : t) (startRow numRows : nat) : outcome t :=
  updateVectors VectorVersionInfo.rollbackDeletions startRow numRows vi.

Definition delete_ (vi : t) (transactionID : transaction_t) (rowIdx : nat) : t * outcome bool :=
  let '(vectorIdx, rowIdxInVector) := getQuotientRemainder rowIdx CAP in
  let '(vi, v) := getOrCreateVersionInfo vi vectorIdx in
  let '(VectorVersionInfo.mk ins del sameIns sameDel insSt delSt) := v in
  let insSt := match insSt with
               | VectorVersionInfo.NO_INSERTED => VectorVersionInfo.ALWAYS_INSERTED
               | _ => insSt
               end in
  let '(v, res) := VectorVersionInfo.delete_
                     (VectorVersionInfo.mk ins del sameIns sameDel insSt delSt)
                     transactionID rowIdxInVector in
  (<[vectorIdx := Some v]> vi, res).

Definition isSelected (vi : t) (startTS transactionID : transaction_t) (rowIdx : nat)
  : outcome bool :=
  let '(vectorIdx, rowIdxInVector) := getQuotientRemainder rowIdx CAP in
  match getVectorVersionInfo vi vectorIdx with
  | Some v => VectorVersionInfo.isSelected v startTS transactionID rowIdxInVector
  | None => mret true
  end.

Import SelectionVector(getSelSize, isUnfiltered, setSelSize, setToUnfiltered, setToFiltered,
  makeDynamic, writeBuffer).

(** The branch of the scan for a vector without version information. *)
Definition selectWholeVector (selVector : SelectionVector.t) (outputPos numRows : nat)
  : outcome SelectionVector.t :=
  let numSelected := getSelSize selVector in
  if isUnfiltered selVector
  then setSelSize selVector (numSelected + numRows)
  else
    '(selVector, numSelected) ←
      for_range 0 numRows (fun i s => VectorVersionInfo.push (outputPos + i) s)
        (selVector, numSelected);
    setToFiltered selVector numSelected.

Definition getSelVectorToScan (vi : t) (startTS transactionID : transaction_t)
    (selVector : SelectionVector.t) (startRow numRows : nat) : outcome SelectionVector.t :=
  if numRows =? 0 then mret selVector
  else
    selVector ← setToUnfiltered selVector 0;
    '(selVector, outputPos) ←
      forVectors startRow numRows (fun vectorIdx s =>
        let '(selVector, outputPos) := s in
        let startRowIdx := startRowIdx startRow vectorIdx in
        let numRowsInVector := numRowsInVector startRow numRows vectorIdx in
        selVector ←
          match getVectorVersionInfo vi vectorIdx with
          | None => selectWholeVector selVector outputPos numRowsInVector
          | Some v => VectorVersionInfo.getSelVectorForScan v startTS transactionID selVector
                        startRowIdx numRowsInVector outputPos
          end;
        mret (selVector, outputPos + numRowsInVector)) (selVector, 0);
    _ ← ku_assert (outputPos <=? CAP);
    mret selVector.

Definition clearVectorInfo (vi : t) (vectorIdx : nat) : outcome t :=
  _ ← ku_assert (vectorIdx <? length vi);
  store vi vectorIdx None.

Definition hasAnyDeletions (vi : t) : bool :=
  existsb (fun v => match v with
    | Some v => bool_decide (VectorVersionInfo.deletionStatus v = VectorVersionInfo.DEL_CHECK_VERSION)
    | None => false end) vi.

Definition hasInsertions (vi : t) : bool :=
  existsb (fun v => match v with
    | Some v => bool_decide (VectorVersionInfo.insertionStatus v = VectorVersionInfo.CHECK_VERSION)
    | None => false end) vi.

Definition getNumDeletions (vi : t) (startTS transactionID : transaction_t)
    (startRow numRows : nat) : outcome nat :=
  if numRows =? 0 then mret 0
  else
    forVectors startRow numRows (fun vectorIdx numDeletions =>
      match getVectorVersionInfo vi vectorIdx with
      | Some v =>
          n ← VectorVersionInfo.getNumDeletions v startTS transactionID
                (startRowIdx startRow vectorIdx) (numRowsInVector startRow numRows vectorIdx);
          mret (numDeletions + n)
      | None => mret numDeletions
      end) 0.

Definition isDeleted (vi : t) (startTS transactionID : transaction_t) (rowInChunk : nat)
  : outcome bool :=
  let '(vectorIdx, rowInVector) := getQuotientRemainder rowInChunk CAP in
  match getVectorVersionInfo vi vectorIdx with
  | Some v => VectorVersionInfo.isDeleted v startTS transactionID rowInVector
  | None => mret false
  end.

Definition isInserted (vi : t) (startTS transactionID : transaction_t) (rowInChunk : nat)
  : outcome bool :=
  let '(vectorIdx, rowInVector) := getQuotientRemainder rowInChunk CAP in
  match getVectorVersionInfo vi vectorIdx with
  | Some v => VectorVersionInfo.isInserted v startTS transactionID rowInVector
  | None => mret true
  end.

Fixpoint hasDeletions (vi : t) (startTS transactionID : transaction_t) : outcome bool :=
  match vi with
  | [] => mret false
  | None :: vi => hasDeletions vi startTS transactionID
  | Some v :: vi =>
      b ← VectorVersionInfo.hasDeletions v startTS transactionID;
      if b : bool then mret true else hasDeletions vi startTS transactionID
  end.

(** One entry of the vector of pointers: a presence flag, then the vector. *)
Fixpoint serializeVectors (vi : t) : outcome bytes :=
  match vi with
  | [] => mret []
  | v :: vi =>
      head ← match v with
             | None => mret (Serializer.serialize bool_codec false)
             | Some v =>
                 bs ← VectorVersionInfo.serialize v;
                 mret (Serializer.serialize bool_codec true ++ bs)
             end;
      tail ← serializeVectors vi;
      mret (head ++ tail)
  end.

Definition serialize (vi : t) : outcome bytes :=
  bs ← serializeVectors vi;
  mret (Serializer.serialize u64_codec (Z.of_nat (length vi)) ++ bs).

Fixpoint deserializeVectors (n : nat) : reader t := fun bs =>
  match n with
  | O => mret ([], bs)
  | S n =>
      '(hasVectorVersion, bs) ← Serializer.deserialize bool_codec bs;
      '(v, bs) ← (if hasVectorVersion : bool
                  then '(v, bs) ← VectorVersionInfo.deSerialize bs; mret (Some v, bs)
                  else mret (None, bs));
      '(vi, bs) ← deserializeVectors n bs;
      mret (v :: vi, bs)
  end.

Definition deserialize : reader t := fun bs =>
  '(vectorSize, bs) ← Serializer.deserialize u64_codec bs;
  deserializeVectors (Z.to_nat vectorSize) bs.
End VersionInfo.
