(* ===== verification/VersionInfoFacts.v ===== *)
(** Facts on [VersionInfo.v]: the abstract view of a version vector as a stamp
    per row, the well-formed representations, and what each operation of
    [VectorVersionInfo] and [VersionInfo] does to the stamps. *)
From S2P Require Import Prelude SelVector VersionInfo.

(** ** Stamps: the abstract view *)
Module Stamps.
(** When a row came into being (or disappeared): never, before every
    transaction, or by the transaction / at the commit timestamp [ts]. *)
Inductive stamp := Never | Always | At (ts : transaction_t).
#[global] Instance stamp_eq_dec : EqDecision stamp.
Proof. solve_decision. Defined.

Definition seen (startTS txn : transaction_t) (s : stamp) : bool :=
  match s with
  | Never => false
  | Always => true
  | At ts => (ts =? txn)%Z || (ts <=? startTS)%Z
  end.

(** Snapshot visibility: inserted and not deleted, as the transaction sees it. *)
Definition visible (startTS txn : transaction_t) (ins del : stamp) : bool :=
  seen startTS txn ins && negb (seen startTS txn del).

Section vector.
Import VectorVersionInfo.
Definition pick (same : transaction_t) (arr : option (list transaction_t)) (r : nat) : stamp :=
  At (if (same =? INVALID_TRANSACTION)%Z
      then default INVALID_TRANSACTION (arr ≫= (fun a => a !! r)) else same).
Definition ins_stamp (v : t) (r : nat) : stamp :=
  match insertionStatus v with
  | NO_INSERTED => Never
  | ALWAYS_INSERTED => Always
  | CHECK_VERSION => pick (sameInsertionVersion v) (insertedVersions v) r
  end.
Definition del_stamp (v : t) (r : nat) : stamp :=
  match deletionStatus v with
  | NO_DELETED => Never
  | DEL_CHECK_VERSION => pick (sameDeletionVersion v) (deletedVersions v) r
  end.
End vector.

(** The invalid version in a row array means that nothing was recorded:
    stamps are compared up to that. *)
Definition norm (s : stamp) : stamp :=
  match s with At ts => if (ts =? INVALID_TRANSACTION)%Z then Never else s | _ => s end.
#[global] Instance stamp_equiv : Equiv stamp := fun s1 s2 => norm s1 = norm s2.
#[global] Instance stamp_equivalence : Equivalence (≡@{stamp}).
Proof. split; repeat intro; unfold equiv, stamp_equiv in *; congruence. Qed.

(** A transaction as the manager makes them. *)
Definition reader (startTS txn : transaction_t) : Prop :=
  (startTS < INVALID_TRANSACTION)%Z /\ txn <> INVALID_TRANSACTION.

Lemma seen_norm startTS txn s :
  reader startTS txn -> seen startTS txn (norm s) = seen startTS txn s.
Proof.
  intros [Hs Ht]. destruct s as [| |ts]; [done..|]. cbn.
  destruct (Z.eqb_spec ts INVALID_TRANSACTION) as [->|]; [|done]. cbn.
  symmetry. apply orb_false_intro; [by apply Z.eqb_neq|by apply Z.leb_gt].
Qed.

Lemma seen_proper startTS txn s1 s2 :
  reader startTS txn -> s1 ≡ s2 -> seen startTS txn s1 = seen startTS txn s2.
Proof.
  intros Hr H. rewrite <-(seen_norm _ _ s1), <-(seen_norm _ _ s2) by done.
  unfold equiv, stamp_equiv in H. by rewrite H.
Qed.

Lemma visible_proper startTS txn i1 i2 d1 d2 :
  reader startTS txn -> i1 ≡ i2 -> d1 ≡ d2 ->
  visible startTS txn i1 d1 = visible startTS txn i2 d2.
Proof.
  intros Hr Hi Hd. unfold visible.
  by rewrite (seen_proper _ _ _ _ Hr Hi), (seen_proper _ _ _ _ Hr Hd).
Qed.

Lemma equiv_at ts s : ts <> INVALID_TRANSACTION -> s ≡ At ts -> s = At ts.
Proof.
  intros Hts. unfold equiv, stamp_equiv, norm. rewrite (proj2 (Z.eqb_neq ts _)) by done.
  destruct s as [| |x]; [done..|]. by destruct (x =? INVALID_TRANSACTION)%Z.
Qed.

Lemma norm_cases s : (s ≡ Never /\ norm s = Never) \/ s = norm s.
Proof.
  unfold equiv, stamp_equiv. destruct s as [| |ts]; [by right..|]. cbn.
  destruct (ts =? INVALID_TRANSACTION)%Z; [by left|by right].
Qed.

Lemma at_invalid_never : At INVALID_TRANSACTION ≡ Never.
Proof. unfold equiv, stamp_equiv, norm. by rewrite Z.eqb_refl. Qed.

(** The stamps of a row of a chunked group; a vector without information
    holds checkpointed rows only. *)
Definition ins (vi : VersionInfo.t) (row : nat) : stamp :=
  match VersionInfo.getVectorVersionInfo vi (row / CAP) with
  | Some v => ins_stamp v (row mod CAP)
  | None => Always
  end.
Definition del (vi : VersionInfo.t) (row : nat) : stamp :=
  match VersionInfo.getVectorVersionInfo vi (row / CAP) with
  | Some v => del_stamp v (row mod CAP)
  | None => Never
  end.
End Stamps.
Import Stamps.

(** ** Vectors *)
Module VectorFacts.
Import VectorVersionInfo.

(** The three shapes one side (insertions or deletions) of a vector takes:
    nothing recorded, one version for the whole vector, one per row. *)
Inductive shape : bool -> option (list transaction_t) -> transaction_t -> Prop :=
| shape_none : shape false None INVALID_TRANSACTION
| shape_same ts : ts <> INVALID_TRANSACTION -> shape true None ts
| shape_rows arr : length arr = CAP -> shape true (Some arr) INVALID_TRANSACTION.

Definition ins_check (v : t) : bool := bool_decide (insertionStatus v = CHECK_VERSION).
Definition del_check (v : t) : bool := bool_decide (deletionStatus v = DEL_CHECK_VERSION).

Definition wf (v : t) : Prop :=
  shape (ins_check v) (insertedVersions v) (sameInsertionVersion v) /\
  shape (del_check v) (deletedVersions v) (sameDeletionVersion v).

Lemma wf_init : wf init.
Proof. split; constructor. Qed.

Lemma invalid_eqb_refl : (INVALID_TRANSACTION =? INVALID_TRANSACTION)%Z = true.
Proof. apply Z.eqb_refl. Qed.

Lemma pick_same ts arr r : ts <> INVALID_TRANSACTION -> pick ts arr r = At ts.
Proof. intros. unfold pick. by rewrite (proj2 (Z.eqb_neq _ _)). Qed.

Lemma pick_rows_eq arr r :
  pick INVALID_TRANSACTION (Some arr) r = At (default INVALID_TRANSACTION (arr !! r)).
Proof. unfold pick. by rewrite invalid_eqb_refl. Qed.

Lemma pick_rows arr r x : arr !! r = Some x -> pick INVALID_TRANSACTION (Some arr) r = At x.
Proof. intros H. by rewrite pick_rows_eq, H. Qed.

Lemma pick_rows_lt arr r :
  r < length arr -> exists x, arr !! r = Some x /\ load arr r = Ret x /\
    pick INVALID_TRANSACTION (Some arr) r = At x.
Proof.
  intros (x & Hx & Hl)%load_lt. exists x. split_and!; [done..|]. by apply pick_rows.
Qed.

Lemma isInserted_seen v s txn r :
  wf v -> r < CAP -> isInserted v s txn r = Ret (seen s txn (ins_stamp v r)).
Proof.
  intros [Hi _] Hr. unfold isInserted, ins_stamp, ins_check, isSameInsertionVersion in *.
  destruct (insertionStatus v); [done| |done].
  inversion Hi as [|ts Hts|arr Hlen]; clear Hi; subst.
  - rewrite pick_same by done. by rewrite (proj2 (Z.eqb_neq _ _)).
  - rewrite invalid_eqb_refl.
    destruct (pick_rows_lt arr r) as (x & _ & Hl & Hp); [lia|]. rewrite Hp. cbn. by run_eq Hl.
Qed.

Lemma isDeleted_seen v s txn r :
  wf v -> r < CAP -> isDeleted v s txn r = Ret (seen s txn (del_stamp v r)).
Proof.
  intros [_ Hd] Hr. unfold isDeleted, del_stamp, del_check, isSameDeletionVersion in *.
  destruct (deletionStatus v); [done|].
  inversion Hd as [|ts Hts|arr Hlen]; clear Hd; subst.
  - rewrite pick_same by done. by rewrite (proj2 (Z.eqb_neq _ _)).
  - rewrite invalid_eqb_refl.
    destruct (pick_rows_lt arr r) as (x & _ & Hl & Hp); [lia|]. rewrite Hp. cbn. by run_eq Hl.
Qed.

Lemma isSelected_visible v s txn r :
  wf v -> r < CAP ->
  isSelected v s txn r = Ret (visible s txn (ins_stamp v r) (del_stamp v r)).
Proof.
  intros Hwf Hr. unfold isSelected, visible.
  rewrite isInserted_seen, isDeleted_seen by done.
  unfold ins_stamp, del_stamp.
  destruct (insertionStatus v), (deletionStatus v); cbn; try done;
    by destruct (_ || _).
Qed.

(** *** Insertions *)

(** The rows from [n] on are not in use yet, and the vector is not a
    checkpointed one. *)
Definition free_from (v : t) (n : nat) : Prop :=
  insertionStatus v <> ALWAYS_INSERTED /\
  match insertedVersions v with
  | Some arr => forall r, n <= r < CAP -> arr !! r = Some INVALID_TRANSACTION
  | None => sameInsertionVersion v = INVALID_TRANSACTION -> n = 0
  end.

Lemma free_from_init : free_from init 0.
Proof. by split. Qed.

Lemma append_rows arr txn start n :
  length arr = CAP -> start + n <= CAP ->
  (forall r, start <= r < CAP -> arr !! r = Some INVALID_TRANSACTION) ->
  exists arr', for_range 0 n (fun i arr =>
             old ← load arr (start + i);
             _ ← ku_assert (old =? INVALID_TRANSACTION)%Z;
             store arr (start + i) txn) arr = Ret arr' /\ fill_spec arr start n txn arr'.
Proof.
  intros Hlen Hle Hfree.
  apply (for_range_inv (fun k a => fill_spec arr start k txn a)).
  - split; [done|]. intros r. by rewrite bool_decide_false by lia.
  - intros k a Hk [Hl Ha]. cbn.
    assert (a !! (start + k) = Some INVALID_TRANSACTION) as Hold.
    { rewrite Ha, bool_decide_false by lia. apply Hfree. lia. }
    run_eq (load_Ret _ _ _ Hold). rewrite invalid_eqb_refl. cbn.
    rewrite store_Ret by lia. eexists. split; [done|].
    split; [by rewrite length_insert|]. intros r.
    destruct (decide (r = start + k)) as [->|].
    + rewrite list_lookup_insert_eq, bool_decide_true by lia. done.
    + rewrite list_lookup_insert_ne, Ha by done. repeat case_bool_decide; try done; lia.
Qed.

Lemma length_initVersionArray : length initVersionArray = CAP.
Proof. apply length_replicate. Qed.

Lemma lookup_initVersionArray r :
  r < CAP -> initVersionArray !! r = Some INVALID_TRANSACTION.
Proof. intros. by apply lookup_replicate_2. Qed.

Lemma append_spec v txn start n :
  wf v -> free_from v start -> start + n <= CAP -> txn <> INVALID_TRANSACTION ->
  exists v', append v txn start n = Ret v' /\ wf v' /\ free_from v' (start + n) /\
    deletionStatus v' = deletionStatus v /\
    (forall r, del_stamp v' r = del_stamp v r) /\
    (forall r, r < start -> ins_stamp v' r = ins_stamp v r) /\
    (forall r, start <= r < start + n -> ins_stamp v' r = At txn).
Proof.
  intros [Hi Hd] [Halw Hfree] Hle Htxn.
  destruct v as [ia da si sd ist dst]. unfold ins_check, del_check in *. cbn in *.
  inversion Hi as [Hst|ts Hts Hst|arr Hlen Hst]; clear Hi; subst; symmetry in Hst.
  - (* nothing recorded *)
    apply bool_decide_eq_false in Hst. specialize (Hfree eq_refl) as ->.
    rewrite (proj2 (Z.eqb_neq txn _)) by done. unfold isSameInsertionVersion. cbn.
    rewrite invalid_eqb_refl. cbn. eexists. split; [done|]. split_and!.
    + split; [by constructor|done].
    + split; [done|]. cbn. congruence.
    + done.
    + done.
    + intros r Hr. lia.
    + intros r _. unfold ins_stamp. cbn. by rewrite pick_same.
  - (* one version so far *)
    apply bool_decide_eq_true in Hst as ->.
    destruct (Z.eqb_spec txn si) as [->|Hne].
    + eexists. split; [done|]. split_and!; [| |done|done|done|].
      * split; [by constructor|done].
      * split; [done|]. cbn. congruence.
      * intros r _. unfold ins_stamp. cbn. by rewrite pick_same.
    + unfold isSameInsertionVersion. cbn. rewrite (proj2 (Z.eqb_neq si _)) by done. cbn.
      destruct (fill_Ret initVersionArray 0 start si) as (arr & -> & Hal & Har);
        [rewrite length_initVersionArray; lia|]. cbn. rewrite length_initVersionArray in Hal.
      destruct (append_rows arr txn start n) as (arr' & -> & Hl' & Ha'); [done..| |].
      { intros r Hr. rewrite Har, bool_decide_false by lia. apply lookup_initVersionArray. lia. }
      cbn. eexists. split; [done|]. split_and!; [| |done|done|..].
      * split; [by constructor; lia|done].
      * split; [done|]. cbn. intros r Hr. rewrite Ha', bool_decide_false by lia.
        rewrite Har, bool_decide_false by lia.
        apply lookup_initVersionArray. lia.
      * intros r Hr. unfold ins_stamp. cbn. rewrite (pick_same si) by done. apply pick_rows.
        rewrite Ha', bool_decide_false by lia. by rewrite Har, bool_decide_true by lia.
      * intros r Hr. unfold ins_stamp. cbn. apply pick_rows. by rewrite Ha', bool_decide_true by lia.
  - (* one version per row *)
    apply bool_decide_eq_true in Hst as ->.
    rewrite (proj2 (Z.eqb_neq txn _)) by done. unfold isSameInsertionVersion. cbn.
    rewrite invalid_eqb_refl. cbn.
    destruct (append_rows arr txn start n) as (arr' & -> & Hl' & Ha'); [done..|].
    cbn. eexists. split; [done|]. split_and!; [| |done|done|..].
    + split; [by constructor; lia|done].
    + split; [done|]. cbn. intros r Hr. rewrite Ha', bool_decide_false by lia. apply Hfree. lia.
    + intros r Hr. unfold ins_stamp. cbn. unfold pick. cbn. by rewrite Ha', bool_decide_false by lia.
    + intros r Hr. unfold ins_stamp. cbn. apply pick_rows. by rewrite Ha', bool_decide_true by lia.
Qed.

(** A commit stamps the rows, all of the vector when it has one version. *)
Lemma setInsertCommitTS_spec v ts start n :
  wf v -> insertionStatus v = CHECK_VERSION -> start + n <= CAP -> ts <> INVALID_TRANSACTION ->
  exists v', setInsertCommitTS v ts start n = Ret v' /\ wf v' /\
    (forall r, del_stamp v' r = del_stamp v r) /\
    (forall r, ins_stamp v' r =
       if isSameInsertionVersion v || bool_decide (start <= r < start + n)
       then At ts else ins_stamp v r).
Proof.
  intros [Hi Hd] Hst Hle Hts. unfold ins_check in Hi. rewrite Hst in Hi.
  destruct v as [ia da si sd ist dst]. cbn in *. subst ist.
  unfold isSameInsertionVersion. cbn. inversion Hi as [|? Hsi|arr Hlen]; clear Hi; subst.
  - rewrite (proj2 (Z.eqb_neq si _)) by done. cbn. eexists. split; [done|]. split_and!; [|done|].
    + split; [by constructor|done].
    + intros r. unfold ins_stamp. cbn. by rewrite pick_same.
  - rewrite invalid_eqb_refl. cbn.
    destruct (fill_Ret arr start n ts) as (arr' & -> & Hl & Ha); [lia|].
    cbn. eexists. split; [done|]. split_and!; [|done|].
    + split; [constructor; lia|done].
    + intros r. unfold ins_stamp. cbn. rewrite !pick_rows_eq, Ha.
      by destruct (bool_decide _).
Qed.

Lemma setDeleteCommitTS_spec v ts start n :
  wf v -> deletionStatus v = DEL_CHECK_VERSION -> start + n <= CAP -> ts <> INVALID_TRANSACTION ->
  exists v', setDeleteCommitTS v ts start n = Ret v' /\ wf v' /\
    (forall r, ins_stamp v' r = ins_stamp v r) /\
    (forall r, del_stamp v' r =
       if isSameDeletionVersion v || bool_decide (start <= r < start + n)
       then At ts else del_stamp v r).
Proof.
  intros [Hi Hd] Hst Hle Hts. unfold del_check in Hd. rewrite Hst in Hd.
  destruct v as [ia da si sd ist dst]. cbn in *. subst dst.
  unfold isSameDeletionVersion. cbn. inversion Hd as [|? Hsd|arr Hlen]; clear Hd; subst.
  - rewrite (proj2 (Z.eqb_neq sd _)) by done. cbn. eexists. split; [done|]. split_and!; [|done|].
    + split; [done|by constructor].
    + intros r. unfold del_stamp. cbn. by rewrite pick_same.
  - rewrite invalid_eqb_refl. cbn.
    destruct (fill_Ret arr start n ts) as (arr' & -> & Hl & Ha); [lia|].
    cbn. eexists. split; [done|]. split_and!; [|done|].
    + split; [done|constructor; lia].
    + intros r. unfold del_stamp. cbn. rewrite !pick_rows_eq, Ha.
      by destruct (bool_decide _).
Qed.

Lemma all_invalid_lookup arr r x :
  all_invalid arr = true -> arr !! r = Some x -> x = INVALID_TRANSACTION.
Proof.
  unfold all_invalid. rewrite forallb_forall. intros H Hr.
  apply Z.eqb_eq, H. apply list_elem_of_In. by eapply list_elem_of_lookup_2.
Qed.

(** What a row holds once its range (or the one version) is forgotten. *)
Lemma pick_rolled_back arr arr' start n r :
  fill_spec arr start n INVALID_TRANSACTION arr' ->
  pick INVALID_TRANSACTION (Some arr') r ≡
    if bool_decide (start <= r < start + n) then Never
    else pick INVALID_TRANSACTION (Some arr) r.
Proof.
  intros [_ Ha]. rewrite !pick_rows_eq, Ha.
  destruct (bool_decide _); [apply at_invalid_never|done].
Qed.

Lemma pick_all_invalid arr r :
  all_invalid arr = true -> pick INVALID_TRANSACTION (Some arr) r ≡ Never.
Proof.
  intros H. rewrite pick_rows_eq.
  destruct (arr !! r) as [x|] eqn:Hr; cbn; [|apply at_invalid_never].
  rewrite (all_invalid_lookup arr r x) by done. apply at_invalid_never.
Qed.

Lemma rollbackInsertions_spec v start n :
  wf v -> insertionStatus v <> ALWAYS_INSERTED -> start + n <= CAP ->
  (deletionStatus v = DEL_CHECK_VERSION ->
     exists arr r x, insertedVersions v = Some arr /\ ~ (start <= r < start + n) /\
       arr !! r = Some x /\ x <> INVALID_TRANSACTION) ->
  exists v', rollbackInsertions v start n = Ret v' /\ wf v' /\
    (forall r, del_stamp v' r = del_stamp v r) /\
    (forall r, ins_stamp v' r ≡
       if isSameInsertionVersion v || bool_decide (start <= r < start + n)
       then Never else ins_stamp v r).
Proof.
  intros [Hi Hd] Hst Hle Hsurv. unfold ins_check in Hi.
  destruct v as [ia da si sd ist dst]. unfold del_check in Hd. cbn in *.
  unfold isSameInsertionVersion. cbn.
  inversion Hi as [Hc|? Hsi Hc|arr Hlen Hc]; clear Hi; subst; symmetry in Hc.
  - apply bool_decide_eq_false in Hc. destruct ist; [|done|done].
    rewrite invalid_eqb_refl. cbn.
    assert (dst = NO_DELETED) as ->.
    { destruct dst; [done|]. by destruct Hsurv as (? & ? & ? & ? & _). }
    eexists. split; [done|]. split_and!; [split; [constructor|done]|done|].
    intros r. by destruct (bool_decide (start <= r < start + n)).
  - apply bool_decide_eq_true in Hc as ->.
    rewrite (proj2 (Z.eqb_neq si _)) by done. cbn.
    assert (dst = NO_DELETED) as ->.
    { destruct dst; [done|]. by destruct Hsurv as (? & ? & ? & ? & _). }
    eexists. split; [done|]. split_and!; [|done|done].
    split; [constructor|done].
  - apply bool_decide_eq_true in Hc as ->. rewrite invalid_eqb_refl. cbn.
    destruct (fill_Ret arr start n INVALID_TRANSACTION) as (arr' & -> & Hf); [lia|]. cbn.
    destruct (all_invalid arr') eqn:Hall; cbn.
    + assert (dst = NO_DELETED) as ->.
      { destruct dst; [done|].
        destruct Hsurv as (arr0 & r & x & [= <-] & Hr & Hx & Hne); [done|].
        destruct Hne. apply (all_invalid_lookup arr' r); [done|].
        destruct Hf as [_ ->]. by rewrite bool_decide_false. }
      eexists. split; [done|]. split_and!; [|done|].
      * split; [constructor|done].
      * intros r. transitivity (pick INVALID_TRANSACTION (Some arr') r);
          [symmetry; by apply pick_all_invalid|by apply pick_rolled_back].
    + eexists. split; [done|]. split_and!; [|done|].
      * split; [constructor; destruct Hf; lia|done].
      * intros r. by apply pick_rolled_back.
Qed.

Lemma rollbackDeletions_spec v start n :
  wf v -> start + n <= CAP ->
  exists v', rollbackDeletions v start n = Ret v' /\ wf v' /\
    (forall r, ins_stamp v' r = ins_stamp v r) /\
    (forall r, del_stamp v' r ≡
       if isSameDeletionVersion v || bool_decide (start <= r < start + n)
       then Never else del_stamp v r).
Proof.
  intros [Hi Hd] Hle. unfold del_check in Hd.
  destruct v as [ia da si sd ist dst]. cbn in *.
  unfold isSameDeletionVersion. cbn.
  inversion Hd as [Hc|? Hsd Hc|arr Hlen Hc]; clear Hd; subst; symmetry in Hc.
  - apply bool_decide_eq_false in Hc. destruct dst; [|done]. rewrite invalid_eqb_refl. cbn.
    eexists. split; [done|]. split_and!; [split; [done|constructor]|done|].
    intros r. by destruct (bool_decide (start <= r < start + n)).
  - apply bool_decide_eq_true in Hc as ->.
    rewrite (proj2 (Z.eqb_neq sd _)) by done. cbn.
    eexists. split; [done|]. split_and!; [|done|done]. split; [done|constructor].
  - apply bool_decide_eq_true in Hc as ->. rewrite invalid_eqb_refl. cbn.
    destruct (fill_Ret arr start n INVALID_TRANSACTION) as (arr' & -> & Hf); [lia|]. cbn.
    destruct (all_invalid arr') eqn:Hall; cbn; eexists; (split; [done|]); split_and!; try done.
    + split; [done|constructor].
    + intros r. transitivity (pick INVALID_TRANSACTION (Some arr') r);
        [symmetry; by apply pick_all_invalid|by apply pick_rolled_back].
    + split; [done|constructor; destruct Hf; lia].
    + intros r. by apply pick_rolled_back.
Qed.

(** *** Deletions *)

(** What deleting a row that carries stamp [s] answers. *)
Definition delete_result (txn : transaction_t) (s : stamp) : outcome bool :=
  match norm s with
  | At ts => if (ts =? txn)%Z then Ret false else Throw ww_conflict_delete
  | _ => Ret true
  end.

(** The step on an array of versions [arr] that stands for the stamps
    [del_stamp v] of the vector. *)
Lemma delete_rows_spec ia da si sd ist dst txn r arr v v' :
  v = mk ia da si sd ist dst ->
  v' = (fun arr => mk ia (Some arr) si INVALID_TRANSACTION ist DEL_CHECK_VERSION) ->
  wf v -> length arr = CAP -> r < CAP -> txn <> INVALID_TRANSACTION ->
  (forall q, pick INVALID_TRANSACTION (Some arr) q ≡ del_stamp v q) ->
  exists v'', match load arr r with
    | Ret old =>
        if (old =? txn)%Z then (v' arr, Ret false)
        else if negb (old =? INVALID_TRANSACTION)%Z then (v' arr, Throw ww_conflict_delete)
        else (v' (<[r := txn]> arr), Ret true)
    | Throw e => (v' arr, Throw e)
    | Undef => (v' arr, Undef)
    end = (v'', delete_result txn (del_stamp v r)) /\ wf v'' /\
    (forall q, ins_stamp v'' q = ins_stamp v q) /\
    (forall q, del_stamp v'' q ≡
       if bool_decide (q = r /\ delete_result txn (del_stamp v r) = Ret true)
       then At txn else del_stamp v q).
Proof.
  intros Hv -> Hwfv Hlen Hr Htxn Heq.
  assert (Hwf : forall arr', length arr' = CAP ->
            wf (mk ia (Some arr') si INVALID_TRANSACTION ist DEL_CHECK_VERSION)).
  { intros arr' Hl'. subst v. split; [apply Hwfv|by constructor]. }
  assert (Hins : forall arr' q,
            ins_stamp (mk ia (Some arr') si INVALID_TRANSACTION ist DEL_CHECK_VERSION) q
            = ins_stamp v q) by (by subst v).
  destruct (pick_rows_lt arr r) as (x & Hx & -> & Hp); [lia|].
  pose proof (Heq r) as Her. unfold equiv, stamp_equiv in Her. rewrite Hp in Her.
  unfold delete_result. rewrite <-Her. unfold norm.
  destruct (Z.eqb_spec x INVALID_TRANSACTION) as [->|Hxi]; cbn.
  - rewrite (proj2 (Z.eqb_neq INVALID_TRANSACTION txn)) by done.
    eexists. split; [done|]. split_and!; [apply Hwf; by rewrite length_insert|apply Hins|].
    intros q. destruct (decide (q = r)) as [->|Hq].
    + rewrite bool_decide_true by done. unfold del_stamp. cbn.
      rewrite (pick_rows _ _ txn); [done|]. apply list_lookup_insert_eq. lia.
    + rewrite bool_decide_false by (intros [? ?]; congruence). rewrite <-Heq. unfold del_stamp. cbn.
      by rewrite !pick_rows_eq, list_lookup_insert_ne by done.
  - destruct (Z.eqb_spec x txn) as [->|Hxt];
      (eexists; split; [done|]; split_and!; [by apply Hwf|apply Hins|]);
      intros q; (rewrite bool_decide_false by (intros [? ?]; congruence)); apply Heq.
Qed.

Lemma delete_spec v txn r :
  wf v -> r < CAP -> txn <> INVALID_TRANSACTION ->
  exists v', delete_ v txn r = (v', delete_result txn (del_stamp v r)) /\ wf v' /\
    (forall q, ins_stamp v' q = ins_stamp v q) /\
    (forall q, del_stamp v' q ≡
       if bool_decide (q = r /\ delete_result txn (del_stamp v r) = Ret true)
       then At txn else del_stamp v q).
Proof.
  intros Hwf Hr Htxn. pose proof Hwf as [_ Hd].
  destruct v as [ia da si sd ist dst]. unfold del_check in Hd. cbn in Hd.
  unfold delete_, isSameDeletionVersion. cbn [deletedVersions sameDeletionVersion].
  inversion Hd as [Hc|? Hsd Hc|arr Hlen Hc]; clear Hd; subst; symmetry in Hc.
  - apply bool_decide_eq_false in Hc. destruct dst; [|done].
    rewrite (proj2 (Z.eqb_neq txn _)), invalid_eqb_refl by done. cbn [negb default from_option].
    apply (delete_rows_spec ia None si INVALID_TRANSACTION ist NO_DELETED txn r
      initVersionArray _ _ eq_refl eq_refl); try done.
    intros q. rewrite pick_rows_eq. unfold del_stamp; cbn.
    destruct (initVersionArray !! q) as [x|] eqn:Hq; [|apply at_invalid_never]. cbn.
    apply lookup_replicate in Hq as [-> _]. apply at_invalid_never.
  - apply bool_decide_eq_true in Hc as ->.
    assert (del_stamp (mk ia None si sd ist DEL_CHECK_VERSION) r = At sd) as Hds
      by (by unfold del_stamp; cbn; rewrite pick_same).
    unfold delete_result. rewrite Hds. unfold norm.
    rewrite (Z.eqb_sym txn), (proj2 (Z.eqb_neq sd INVALID_TRANSACTION)) by done. cbn.
    destruct (Z.eqb_spec sd txn) as [->|Hne]; cbn;
      (eexists; split; [done|]; split_and!; [done|done|]);
      intros q; by rewrite bool_decide_false by (intros [? ?]; congruence).
  - apply bool_decide_eq_true in Hc as ->.
    rewrite (proj2 (Z.eqb_neq txn _)), invalid_eqb_refl by done. cbn [negb default from_option].
    by apply (delete_rows_spec ia (Some arr) si INVALID_TRANSACTION ist DEL_CHECK_VERSION txn r
      arr _ _ eq_refl eq_refl).
Qed.

(** *** Counting and scanning *)

Definition count (f : nat -> bool) (l : list nat) : nat := length (List.filter f l).

Lemma count_seq_S f start n :
  count f (seq start (S n)) = count f (seq start n) + (if f (start + n) then 1 else 0).
Proof.
  unfold count. rewrite seq_S, List.filter_app, length_app. cbn. by destruct (f _).
Qed.

Lemma count_loop v s txn start n :
  wf v -> start + n <= CAP ->
  for_range 0 n (fun i acc =>
      deleted ← isDeleted v s txn (start + i);
      mret (acc + (if deleted : bool then 1 else 0))) 0
  = Ret (count (fun r => seen s txn (del_stamp v r)) (seq start n)).
Proof.
  intros Hwf Hle.
  destruct (for_range_inv
    (fun k acc => acc = count (fun r => seen s txn (del_stamp v r)) (seq start k)) 0 n
    (fun i acc => deleted ← isDeleted v s txn (start + i);
                  mret (acc + (if deleted : bool then 1 else 0))) 0) as (acc & -> & ->);
    [done| |done].
  intros k acc Hk ->. cbn [Nat.add]. rewrite isDeleted_seen by (done || lia).
  eexists. split; [done|]. by rewrite count_seq_S.
Qed.

Lemma getNumDeletions_count v s txn start n :
  wf v -> start + n <= CAP ->
  getNumDeletions v s txn start n
  = Ret (count (fun r => seen s txn (del_stamp v r)) (seq start n)).
Proof.
  intros Hwf Hle. unfold getNumDeletions. destruct (deletionStatus v) eqn:Hd.
  - unfold count. rewrite (List.filter_ext _ (fun _ => false)), List.filter_false; [done|].
    intros r. unfold del_stamp. by rewrite Hd.
  - by apply count_loop.
Qed.

Import SelectionVector(forEachPositions, selectedSize, state, selectedPositionsBuffer,
  selectedPositions, isUnfiltered, setSelSize, setToFiltered, makeDynamic, getSelSize,
  DYNAMIC, STATIC, Buffer, capacity).

(** The scan so far: the first [pos] output positions have been decided by
    [sel], and a vector still unfiltered has them all. *)
Definition scanned (sel : nat -> bool) (pos : nat) (sv : SelectionVector.t) : Prop :=
  SelectionVector.wf sv /\ selectedSize sv <= pos /\
  forEachPositions sv = List.filter sel (seq 0 pos) /\
  (state sv = STATIC -> selectedSize sv = pos).

Definition pushing (sel : nat -> bool) (pos : nat) (s : SelectionVector.t * nat) : Prop :=
  selectedPositions s.1 = Buffer /\ state s.1 = DYNAMIC /\
  length (selectedPositionsBuffer s.1) = CAP /\ s.2 <= pos /\
  take s.2 (selectedPositionsBuffer s.1) = List.filter sel (seq 0 pos).

Lemma push_step sel pos s :
  pushing sel pos s -> pos < CAP -> sel pos = true ->
  exists s', push pos s = Ret s' /\ pushing sel (S pos) s'.
Proof.
  destruct s as [sv m]. intros (Hp & Hs & Hl & Hm & Ht) Hpos Hsel.
  cbn [fst snd] in *. unfold push, SelectionVector.writeBuffer.
  rewrite store_Ret by lia. cbn [mbind outcome_bind mret outcome_ret]. unfold pushing.
  eexists. split; [done|].
  cbn [fst snd selectedPositions state selectedPositionsBuffer].
  rewrite length_insert. split_and!; [done..|lia|].
  rewrite seq_S, List.filter_app. cbn. rewrite Hsel, <-Ht.
  rewrite (take_S_r _ _ pos) by (apply list_lookup_insert_eq; lia).
  by rewrite take_insert_ge by lia.
Qed.

Lemma pushing_skip sel pos s : pushing sel pos s -> sel pos = false -> pushing sel (S pos) s.
Proof.
  intros (Hp & Hs & Hl & Hm & Ht) Hsel. unfold pushing. split_and!; [done..|lia|].
  rewrite seq_S, List.filter_app, Ht. cbn. by rewrite Hsel, app_nil_r.
Qed.

(** The two loops of the scan. *)
Lemma push_loop sel pos n body sv :
  scanned sel pos sv -> state sv = DYNAMIC -> pos + n <= CAP ->
  (forall k s, k < n -> body k s = if sel (pos + k) then push (pos + k) s else Ret s) ->
  exists sv', ('(selVector, numSelected) ← for_range 0 n body (sv, selectedSize sv);
               setToFiltered selVector numSelected) = Ret sv' /\ scanned sel (pos + n) sv'.
Proof.
  intros (Hwf & Hsz & Hpos & _) Hst Hle Hbody.
  destruct (for_range_inv (fun k => pushing sel (pos + k)) 0 n body (sv, selectedSize sv))
    as ([sv' m] & -> & Hp' & Hs' & Hl' & Hm' & Ht').
  - rewrite Nat.add_0_r. rewrite SelectionVector.positions_dynamic in Hpos by done.
    destruct Hwf as (Hcap & Hsz' & Hptr). split_and!; try done. cbn.
    destruct (selectedPositions sv); [|done]. destruct Hptr as [_ Hptr].
    rewrite Hst in Hptr. by specialize (Hptr eq_refl).
  - intros k s Hk Hs. cbn [Nat.add]. rewrite Hbody by done.
    replace (pos + S k) with (S (pos + k)) by lia. destruct (sel (pos + k)) eqn:Hsel.
    + apply push_step; [done|lia|done].
    + eexists. split; [done|]. by apply pushing_skip.
  - cbn in *. unfold setToFiltered, capacity. rewrite Hl'.
    rewrite (proj2 (Nat.leb_le m CAP)) by lia. cbn. eexists. split; [done|].
    assert (SelectionVector.wf (SelectionVector.mk Buffer m DYNAMIC (selectedPositionsBuffer sv')))
      as Hwf' by (split_and!; cbn; [done|lia|done]).
    split_and!; [done|done| |done]. by rewrite SelectionVector.positions_dynamic.
Qed.

Lemma setSelSize_scanned sel pos n sv :
  scanned sel pos sv -> state sv = STATIC -> pos + n <= CAP ->
  (forall k, k < n -> sel (pos + k) = true) ->
  exists sv', setSelSize sv (getSelSize sv + n) = Ret sv' /\ scanned sel (pos + n) sv'.
Proof.
  intros (Hwf & Hsz & Hpos & Hfull) Hst Hle Hsel. specialize (Hfull Hst).
  destruct (Hwf) as (Hcap & _ & Hptr). unfold setSelSize, getSelSize. rewrite Hfull, Hcap.
  rewrite (proj2 (Nat.leb_le (pos + n) CAP)) by lia. cbn.
  eexists. split; [done|].
  assert (Hwf' : SelectionVector.wf (SelectionVector.mk (selectedPositions sv) (pos + n)
            (state sv) (selectedPositionsBuffer sv))) by (split_and!; done).
  split_and!; [done|done| |done].
  rewrite SelectionVector.positions_static in Hpos |- * by done. cbn.
  rewrite seq_app, List.filter_app, <-Hpos, Hfull. f_equal. cbn.
  symmetry. apply forallb_filter_id, forallb_forall. intros i Hi%in_seq.
  replace i with (pos + (i - pos)) by lia. apply Hsel. lia.
Qed.

Lemma makeDynamic_scanned sel pos sv :
  scanned sel pos sv ->
  exists sv', (if isUnfiltered sv then makeDynamic sv else mret sv) = Ret sv' /\
    scanned sel pos sv' /\ state sv' = DYNAMIC.
Proof.
  intros (Hwf & Hsz & Hpos & Hfull). rewrite SelectionVector.isUnfiltered_wf by done.
  case_bool_decide as Hst.
  - destruct (SelectionVector.makeDynamic_spec sv Hwf) as (sv' & -> & Hwf' & Hst' & Hsz' & Hpos').
    eexists. split; [done|]. split; [|done]. split_and!; [done|lia|congruence|intros; congruence].
  - eexists. split; [done|]. split; [by split_and!|by destruct (state sv)].
Qed.

Lemma getSelVectorForScan_scanned v s txn sel pos n start sv :
  wf v -> insertionStatus v <> NO_INSERTED -> scanned sel pos sv ->
  start + n <= CAP -> pos + n <= CAP ->
  (forall k, k < n -> sel (pos + k) = visible s txn (ins_stamp v (start + k)) (del_stamp v (start + k))) ->
  exists sv', getSelVectorForScan v s txn sv start n pos = Ret sv' /\ scanned sel (pos + n) sv'.
Proof.
  intros Hwf Hst Hsc Hle Hpos Hsel.
  assert (Hcheck : exists sv',
    (selVector ← if isUnfiltered sv then makeDynamic sv else mret sv;
     '(selVector, numSelected) ←
        for_range 0 n (fun i s0 =>
            let rowIdx := start + i in
            inserted ← isInserted v s txn rowIdx;
            selected ← (if inserted : bool
                        then deleted ← isDeleted v s txn rowIdx; mret (negb deleted)
                        else mret false);
            if selected : bool then push (pos + i) s0 else mret s0) (selVector, getSelSize sv);
     setToFiltered selVector numSelected) = Ret sv' /\ scanned sel (pos + n) sv').
  { destruct (makeDynamic_scanned sel pos sv Hsc) as (sv' & Hd & Hsc' & Hst').
    assert (getSelSize sv = selectedSize sv') as ->.
    { revert Hd. destruct (isUnfiltered sv); [|by intros [= ->]].
      destruct Hsc as [Hwfs _].
      destruct (SelectionVector.makeDynamic_spec sv Hwfs) as (x & -> & _ & _ & Hx & _).
      intros [= <-]. done. }
    rewrite Hd, outcome_bind_ret_l. apply push_loop; [done..|]. intros k s0 Hk.
    rewrite Hsel by done. unfold visible. cbn.
    rewrite isInserted_seen, isDeleted_seen by (done || lia). cbn.
    by destruct (seen s txn (ins_stamp v (start + k))), (seen s txn (del_stamp v (start + k))). }
  unfold getSelVectorForScan.
  destruct (deletionStatus v) eqn:Hdel, (insertionStatus v) eqn:Hins; try done.
  assert (Hall : forall k, k < n -> sel (pos + k) = true).
  { intros k Hk. rewrite Hsel by done. unfold visible, ins_stamp, del_stamp. by rewrite Hdel, Hins. }
  pose proof Hsc as (Hwfs & _). rewrite SelectionVector.isUnfiltered_wf by done.
  case_bool_decide as Hs; [by apply setSelSize_scanned|].
  apply push_loop; [done|by destruct (state sv)|done|].
  intros k s0 Hk. by rewrite Hall.
Qed.
End VectorFacts.

(** ** Chunked groups: rows across vectors *)
Module ChunkFacts.
Import VersionInfo.

Definition wf (vi : t) : Prop :=
  forall k v, getVectorVersionInfo vi k = Some v -> VectorFacts.wf v.

Definition in_rows (startRow numRows row : nat) : Prop := startRow <= row < startRow + numRows.
Definition in_vectors (startRow numRows k : nat) : Prop :=
  startRow / CAP <= k <= (startRow + numRows - 1) / CAP.
#[global] Instance in_rows_dec s n r : Decision (in_rows s n r) := _.
#[global] Instance in_vectors_dec s n k : Decision (in_vectors s n k) := _.

#[global] Typeclasses Opaque in_rows in_vectors.

(** The vector the operations work on: a fresh one where there is none. *)
Definition vector_at (vi : t) (k : nat) : VectorVersionInfo.t :=
  default VectorVersionInfo.init (getVectorVersionInfo vi k).

(** *** The arithmetic of the loops *)

Lemma cap_div_mod row : row = CAP * (row / CAP) + row mod CAP /\ row mod CAP < CAP.
Proof.
  pose proof vector_capacity_pos. split; [apply Nat.div_mod_eq|]. apply Nat.mod_upper_bound. lia.
Qed.

(** The split visits a row exactly when the row is in the range. *)
Lemma row_in_vector startRow numRows row :
  0 < numRows ->
  in_rows startRow numRows row <->
  in_vectors startRow numRows (row / CAP) /\
  startRowIdx startRow (row / CAP) <= row mod CAP
    < startRowIdx startRow (row / CAP) + numRowsInVector startRow numRows (row / CAP).
Proof.
  intros Hn. unfold in_rows, in_vectors, numRowsInVector, startRowIdx, endRowIdx,
    getQuotientRemainder. pose proof vector_capacity_pos.
  destruct (cap_div_mod row) as [Hr Hr'], (cap_div_mod startRow) as [Hs Hs'],
    (cap_div_mod (startRow + numRows - 1)) as [He He'].
  revert Hr Hr' Hs Hs' He He'.
  generalize (row / CAP), (row mod CAP), (startRow / CAP), (startRow mod CAP),
    ((startRow + numRows - 1) / CAP), ((startRow + numRows - 1) mod CAP).
  generalize dependent CAP. intros c Hc k q sk sq ek eq Hr Hr' Hs Hs' He He'.
  destruct (Nat.eqb_spec k sk), (Nat.eqb_spec k ek); subst; split; intros; nia.
Qed.

Lemma vector_rows_bound startRow numRows k :
  0 < numRows -> in_vectors startRow numRows k ->
  startRowIdx startRow k + numRowsInVector startRow numRows k <= CAP /\
  0 < numRowsInVector startRow numRows k.
Proof.
  intros Hn. unfold in_vectors, numRowsInVector, startRowIdx, endRowIdx, getQuotientRemainder.
  pose proof vector_capacity_pos.
  destruct (cap_div_mod startRow) as [Hs Hs'], (cap_div_mod (startRow + numRows - 1)) as [He He'].
  revert Hs Hs' He He'.
  generalize (startRow / CAP), (startRow mod CAP),
    ((startRow + numRows - 1) / CAP), ((startRow + numRows - 1) mod CAP).
  generalize dependent CAP. intros c Hc sk sq ek eq Hs Hs' He He' Hk.
  destruct (Nat.eqb_spec k sk), (Nat.eqb_spec k ek); subst; nia.
Qed.

(** Where an appended range ends, and what lies before and after it. *)
Lemma append_end startRow numRows k :
  0 < numRows -> in_vectors startRow numRows k -> k = (startRow + numRows) / CAP ->
  startRowIdx startRow k + numRowsInVector startRow numRows k = startRowIdx (startRow + numRows) k.
Proof.
  intros Hn. unfold in_vectors, numRowsInVector, startRowIdx, endRowIdx, getQuotientRemainder.
  pose proof vector_capacity_pos.
  destruct (cap_div_mod startRow) as [Hs Hs'], (cap_div_mod (startRow + numRows - 1)) as [He He'],
    (cap_div_mod (startRow + numRows)) as [Hf Hf'].
  revert Hs Hs' He He' Hf Hf'.
  generalize (startRow / CAP), (startRow mod CAP), ((startRow + numRows) / CAP),
    ((startRow + numRows) mod CAP),
    ((startRow + numRows - 1) / CAP), ((startRow + numRows - 1) mod CAP).
  generalize dependent CAP. intros c Hc sk sq fk fq ek eq Hs Hs' He He' Hf Hf' Hk ->.
  rewrite Nat.eqb_refl. destruct (Nat.eqb_spec fk sk), (Nat.eqb_spec fk ek); subst; nia.
Qed.

Lemma append_beyond startRow numRows k :
  0 < numRows -> ~ in_vectors startRow numRows k -> (startRow + numRows) / CAP <= k ->
  startRowIdx (startRow + numRows) k = startRowIdx startRow k.
Proof.
  intros Hn. unfold in_vectors, startRowIdx, getQuotientRemainder.
  pose proof vector_capacity_pos.
  destruct (cap_div_mod startRow) as [Hs Hs'], (cap_div_mod (startRow + numRows - 1)) as [He He'],
    (cap_div_mod (startRow + numRows)) as [Hf Hf'].
  revert Hs Hs' He He' Hf Hf'.
  generalize (startRow / CAP), (startRow mod CAP), ((startRow + numRows) / CAP),
    ((startRow + numRows) mod CAP),
    ((startRow + numRows - 1) / CAP), ((startRow + numRows - 1) mod CAP).
  generalize dependent CAP. intros c Hc sk sq fk fq ek eq Hs Hs' He He' Hf Hf' Hk Hfk.
  destruct (Nat.eqb_spec k fk), (Nat.eqb_spec k sk); subst; nia.
Qed.

Lemma append_before startRow numRows row :
  row < startRow -> in_vectors startRow numRows (row / CAP) ->
  row mod CAP < startRowIdx startRow (row / CAP).
Proof.
  unfold in_vectors, startRowIdx, getQuotientRemainder. pose proof vector_capacity_pos.
  destruct (cap_div_mod startRow) as [Hs Hs'], (cap_div_mod row) as [Hr Hr'].
  revert Hs Hs' Hr Hr'. generalize ((startRow + numRows - 1) / CAP).
  generalize (startRow / CAP), (startRow mod CAP), (row / CAP), (row mod CAP).
  generalize dependent CAP. intros c Hc sk sq rk rq ek Hs Hs' Hr Hr' Hlt Hk.
  destruct (Nat.eqb_spec rk sk); subst; nia.
Qed.

(** *** Looking vectors up *)

Lemma get_insert vi k v j :
  k < length vi ->
  getVectorVersionInfo (<[k := Some v]> vi) j =
    if bool_decide (j = k) then Some v else getVectorVersionInfo vi j.
Proof.
  intros Hk. unfold getVectorVersionInfo. case_bool_decide as Hj.
  - subst. by rewrite list_lookup_insert_eq.
  - by rewrite list_lookup_insert_ne.
Qed.

Lemma get_resize vi n j : getVectorVersionInfo (resize vi n) j = getVectorVersionInfo vi j.
Proof.
  unfold getVectorVersionInfo, resize. destruct (decide (j < length vi)).
  - by rewrite lookup_app_l.
  - rewrite lookup_app_r, (lookup_ge_None_2 vi) by lia.
    destruct (replicate _ _ !! _) as [x|] eqn:E; [|done].
    by apply lookup_replicate in E as [-> _].
Qed.

Lemma getOrCreate_spec vi k :
  exists vi', getOrCreateVersionInfo vi k = (vi', vector_at vi k) /\ k < length vi' /\
    (forall j, vector_at vi' j = vector_at vi j) /\
    (forall j, j <> k -> getVectorVersionInfo vi' j = getVectorVersionInfo vi j).
Proof.
  unfold getOrCreateVersionInfo, vector_at.
  set (vi1 := if length vi <=? k then resize vi (S k) else vi).
  assert (Hlen : k < length vi1).
  { subst vi1. destruct (Nat.leb_spec (length vi) k); [|done].
    unfold resize. rewrite length_app, length_replicate. lia. }
  assert (Hget : forall j, getVectorVersionInfo vi1 j = getVectorVersionInfo vi j).
  { subst vi1. intros j. destruct (_ <=? _); [apply get_resize|done]. }
  rewrite Hget. destruct (getVectorVersionInfo vi k) as [v|] eqn:Hk.
  - eexists. split; [done|]. split_and!; [done|..]; intros; by rewrite Hget.
  - eexists. split; [done|]. rewrite length_insert. split_and!; [done|..]; intros j; rewrite get_insert by done.
    + case_bool_decide; [subst; by rewrite Hk|by rewrite Hget].
    + intros. by rewrite bool_decide_false, Hget.
Qed.

(** *** The loop that changes each vector *)

Lemma updateVectors_spec op (P : nat -> VectorVersionInfo.t -> Prop) startRow numRows vi :
  0 < numRows ->
  (forall k, in_vectors startRow numRows k ->
     exists v', op (vector_at vi k) (startRowIdx startRow k) (numRowsInVector startRow numRows k)
                = Ret v' /\ P k v') ->
  exists vi', updateVectors op startRow numRows vi = Ret vi' /\
    (forall k, in_vectors startRow numRows k ->
       exists v', getVectorVersionInfo vi' k = Some v' /\ P k v') /\
    (forall k, ~ in_vectors startRow numRows k ->
       getVectorVersionInfo vi' k = getVectorVersionInfo vi k).
Proof.
  intros Hn Hop. unfold updateVectors, forVectors.
  rewrite (proj2 (Nat.eqb_neq numRows 0)) by lia.
  set (lo := startRow / CAP). set (hi := (startRow + numRows - 1) / CAP).
  edestruct (for_range_inv (fun j vi' =>
    (forall k, lo <= k < lo + j -> exists v', getVectorVersionInfo vi' k = Some v' /\ P k v') /\
    (forall k, ~ (lo <= k < lo + j) -> getVectorVersionInfo vi' k = getVectorVersionInfo vi k))
    lo (S hi - lo)) as (vi' & Hrun & Hin & Hout); [..|exists vi'; split_and!; [exact Hrun|..]].
  - split; [intros; lia|done].
  - intros j vi1 Hj [Hin Hout]. cbn beta.
    destruct (getOrCreate_spec vi1 (lo + j)) as (vi2 & -> & Hlen & Hat & Hget).
    assert (vector_at vi1 (lo + j) = vector_at vi (lo + j)) as ->.
    { unfold vector_at. rewrite Hout by lia. done. }
    destruct (Hop (lo + j)) as (v' & -> & HP); [unfold in_vectors; lia|]. cbn.
    eexists. split; [done|]. split; intros k Hk; rewrite get_insert by done.
    + case_bool_decide as E; [subst; eauto|]. rewrite Hget by done. apply Hin. lia.
    + rewrite bool_decide_false by lia. rewrite Hget by lia. apply Hout. lia.
  - intros k Hk. apply Hin. unfold in_vectors in Hk. lia.
  - intros k Hk. apply Hout. unfold in_vectors in Hk. lia.
Qed.

(** *** Rows *)

Lemma mod_lt row : row mod CAP < CAP.
Proof. apply Nat.mod_upper_bound. pose proof vector_capacity_pos. lia. Qed.

Lemma rows_isInserted_seen vi s txn row :
  wf vi -> isInserted vi s txn row = Ret (seen s txn (ins vi row)).
Proof.
  intros Hwf. unfold isInserted, ins, getQuotientRemainder.
  destruct (getVectorVersionInfo vi _) as [v|] eqn:E; [|done].
  apply VectorFacts.isInserted_seen; [by eapply Hwf|apply mod_lt].
Qed.

Lemma rows_isDeleted_seen vi s txn row :
  wf vi -> isDeleted vi s txn row = Ret (seen s txn (del vi row)).
Proof.
  intros Hwf. unfold isDeleted, del, getQuotientRemainder.
  destruct (getVectorVersionInfo vi _) as [v|] eqn:E; [|done].
  apply VectorFacts.isDeleted_seen; [by eapply Hwf|apply mod_lt].
Qed.

Lemma rows_isSelected_visible vi s txn row :
  wf vi -> isSelected vi s txn row = Ret (visible s txn (ins vi row) (del vi row)).
Proof.
  intros Hwf. unfold isSelected, ins, del, getQuotientRemainder.
  destruct (getVectorVersionInfo vi _) as [v|] eqn:E; [|done].
  apply VectorFacts.isSelected_visible; [by eapply Hwf|apply mod_lt].
Qed.

(** The rows from [startRow] on are not in use. *)
Definition appendable (vi : t) (startRow : nat) : Prop :=
  forall k, startRow / CAP <= k -> VectorFacts.free_from (vector_at vi k) (startRowIdx startRow k).

Lemma wf_vector_at vi k : wf vi -> VectorFacts.wf (vector_at vi k).
Proof.
  intros Hwf. unfold vector_at. destruct (getVectorVersionInfo vi k) eqn:E; cbn.
  - by eapply Hwf.
  - apply VectorFacts.wf_init.
Qed.

(** Well-formedness follows vector by vector. *)
Lemma wf_updated (P : nat -> VectorVersionInfo.t -> Prop) startRow numRows vi vi' :
  wf vi -> (forall k v, P k v -> VectorFacts.wf v) ->
  (forall k, in_vectors startRow numRows k ->
     exists v', getVectorVersionInfo vi' k = Some v' /\ P k v') ->
  (forall k, ~ in_vectors startRow numRows k ->
     getVectorVersionInfo vi' k = getVectorVersionInfo vi k) -> wf vi'.
Proof.
  intros Hwf HP Hin Hout k v Hv. destruct (decide (in_vectors startRow numRows k)) as [Hk|Hk].
  - destruct (Hin k Hk) as (v' & Hv' & Hp). rewrite Hv in Hv'. injection Hv' as ->. eauto.
  - rewrite Hout in Hv by done. by eapply Hwf.
Qed.

Lemma ins_out (Q : nat -> Prop) vi vi' row :
  (forall k, ~ Q k -> getVectorVersionInfo vi' k = getVectorVersionInfo vi k) ->
  ~ Q (row / CAP) -> ins vi' row = ins vi row /\ del vi' row = del vi row.
Proof. intros Hout Hk. unfold ins, del. by rewrite Hout. Qed.

Lemma ins_at vi k v row :
  getVectorVersionInfo vi k = Some v -> row / CAP = k ->
  ins vi row = ins_stamp v (row mod CAP) /\ del vi row = del_stamp v (row mod CAP).
Proof. intros Hv <-. unfold ins, del. by rewrite Hv. Qed.

Lemma del_vector_at vi row : del vi row = del_stamp (vector_at vi (row / CAP)) (row mod CAP).
Proof. unfold del, vector_at. by destruct (getVectorVersionInfo vi (row / CAP)). Qed.

Lemma del_not_always vi row : del vi row <> Always.
Proof.
  unfold del, del_stamp, pick. destruct (getVectorVersionInfo vi _) as [v|]; [|done].
  by destruct (VectorVersionInfo.deletionStatus v).
Qed.

Lemma startRowIdx_after startRow k : startRow / CAP < k -> startRowIdx startRow k = 0.
Proof.
  intros. unfold startRowIdx, getQuotientRemainder. by rewrite (proj2 (Nat.eqb_neq _ _)) by lia.
Qed.

(** What [append] makes of vector [k]. *)
Definition vector_appended vi txn startRow numRows (k : nat) (v' : VectorVersionInfo.t) : Prop :=
  let lo := startRowIdx startRow k in
  let n := numRowsInVector startRow numRows k in
  VectorFacts.wf v' /\ VectorFacts.free_from v' (lo + n) /\
  VectorVersionInfo.deletionStatus v' = VectorVersionInfo.deletionStatus (vector_at vi k) /\
  (forall r, del_stamp v' r = del_stamp (vector_at vi k) r) /\
  (forall r, r < lo -> ins_stamp v' r = ins_stamp (vector_at vi k) r) /\
  (forall r, lo <= r < lo + n -> ins_stamp v' r = At txn).

Lemma append_vectors vi txn startRow numRows :
  wf vi -> appendable vi startRow -> txn <> INVALID_TRANSACTION -> 0 < numRows ->
  exists vi', append vi txn startRow numRows = Ret vi' /\
    (forall k, in_vectors startRow numRows k ->
       exists v', getVectorVersionInfo vi' k = Some v' /\
         vector_appended vi txn startRow numRows k v') /\
    (forall k, ~ in_vectors startRow numRows k ->
       getVectorVersionInfo vi' k = getVectorVersionInfo vi k).
Proof.
  intros Hwf Happ Htxn Hn. apply updateVectors_spec; [done|].
  intros k Hk. apply VectorFacts.append_spec; [by apply wf_vector_at| | |done].
  - apply Happ. unfold in_vectors in Hk. lia.
  - by apply vector_rows_bound.
Qed.

Lemma appended_appendable vi vi' txn startRow numRows :
  0 < numRows -> appendable vi startRow ->
  (forall k, in_vectors startRow numRows k ->
     exists v', getVectorVersionInfo vi' k = Some v' /\
       vector_appended vi txn startRow numRows k v') ->
  (forall k, ~ in_vectors startRow numRows k ->
     getVectorVersionInfo vi' k = getVectorVersionInfo vi k) ->
  appendable vi' (startRow + numRows).
Proof.
  intros Hn Happ Hin Hout k Hk. unfold vector_at.
  destruct (decide (in_vectors startRow numRows k)) as [Hv|Hv].
  - destruct (Hin k Hv) as (v' & -> & _ & Hfree & _). cbn.
    assert (k = (startRow + numRows) / CAP) as Hkk.
    { unfold in_vectors in Hv. apply Nat.le_antisymm; [|done].
      transitivity ((startRow + numRows - 1) / CAP); [lia|].
      apply Nat.Div0.div_le_mono. lia. }
    by rewrite <-(append_end startRow numRows k).
  - rewrite Hout by done. fold (vector_at vi k).
    rewrite append_beyond by done. apply Happ.
    transitivity ((startRow + numRows) / CAP); [|done]. apply Nat.Div0.div_le_mono. lia.
Qed.

Lemma appended_old vi vi' txn startRow numRows row :
  appendable vi startRow ->
  (forall k, in_vectors startRow numRows k ->
     exists v', getVectorVersionInfo vi' k = Some v' /\
       vector_appended vi txn startRow numRows k v') ->
  (forall k, ~ in_vectors startRow numRows k ->
     getVectorVersionInfo vi' k = getVectorVersionInfo vi k) ->
  row < startRow -> ins vi' row = ins vi row.
Proof.
  intros Happ Hin Hout Hrow.
  destruct (decide (in_vectors startRow numRows (row / CAP))) as [Hv|Hv];
    [|by destruct (ins_out _ vi vi' row Hout Hv) as [-> _]].
  destruct (Hin _ Hv) as (v' & Hget & _ & _ & _ & _ & Hins & _).
  destruct (ins_at vi' _ _ row Hget eq_refl) as [-> _].
  pose proof (append_before _ _ _ Hrow Hv) as Hlt. rewrite Hins by done.
  unfold ins. destruct (getVectorVersionInfo vi (row / CAP)) as [v|] eqn:E.
  - unfold vector_at. by rewrite E.
  - destruct (Happ (row / CAP)) as [_ H0]; [unfold in_vectors in Hv; lia|].
    unfold vector_at in H0. rewrite E in H0. cbn in H0. specialize (H0 eq_refl). lia.
Qed.

Lemma append_rows_spec vi txn startRow numRows :
  wf vi -> appendable vi startRow -> txn <> INVALID_TRANSACTION -> 0 < numRows ->
  exists vi', append vi txn startRow numRows = Ret vi' /\ wf vi' /\
    appendable vi' (startRow + numRows) /\
    (forall row, del vi' row = del vi row) /\
    (forall row, row < startRow -> ins vi' row = ins vi row) /\
    (forall row, in_rows startRow numRows row -> ins vi' row = At txn).
Proof.
  intros Hwf Happ Htxn Hn.
  destruct (append_vectors vi txn startRow numRows) as (vi' & Hrun & Hin & Hout); [done..|].
  exists vi'. split; [exact Hrun|]. split_and!.
  - eapply wf_updated; [exact Hwf| |exact Hin|exact Hout]. by intros k v (? & _).
  - by eapply appended_appendable.
  - intros row. rewrite !del_vector_at. unfold vector_at at 1.
    destruct (decide (in_vectors startRow numRows (row / CAP))) as [Hv|Hv].
    + destruct (Hin _ Hv) as (v' & -> & _ & _ & _ & Hdel & _). apply Hdel.
    + by rewrite Hout.
  - intros row. by apply (appended_old vi vi' txn startRow numRows).
  - intros row Hrow. apply row_in_vector in Hrow as [Hv Hr]; [|done].
    destruct (Hin _ Hv) as (v' & Hget & _ & _ & _ & _ & _ & Hnew).
    destruct (ins_at vi' _ _ row Hget eq_refl) as [-> _]. by apply Hnew.
Qed.

(** The loops that change stamps in place: the effect on a row is the effect
    on its slot in its vector. *)
Lemma updateVectors_rows op (Ri Rd : bool -> stamp -> stamp -> Prop) startRow numRows vi :
  0 < numRows -> wf vi -> (forall s, Ri false s s) -> (forall s, Rd false s s) ->
  (forall k, in_vectors startRow numRows k -> exists v v',
     getVectorVersionInfo vi k = Some v /\
     op v (startRowIdx startRow k) (numRowsInVector startRow numRows k) = Ret v' /\
     VectorFacts.wf v' /\
     forall r, r < CAP ->
       let b := bool_decide (startRowIdx startRow k <= r
                  < startRowIdx startRow k + numRowsInVector startRow numRows k) in
       Ri b (ins_stamp v r) (ins_stamp v' r) /\ Rd b (del_stamp v r) (del_stamp v' r)) ->
  exists vi', updateVectors op startRow numRows vi = Ret vi' /\ wf vi' /\
    forall row, let b := bool_decide (in_rows startRow numRows row) in
      Ri b (ins vi row) (ins vi' row) /\ Rd b (del vi row) (del vi' row).
Proof.
  intros Hn Hwf Hri Hrd Hop.
  destruct (updateVectors_spec op
    (fun k v' => VectorFacts.wf v' /\ forall r, r < CAP ->
       let b := bool_decide (startRowIdx startRow k <= r
                  < startRowIdx startRow k + numRowsInVector startRow numRows k) in
       exists v, getVectorVersionInfo vi k = Some v /\
       Ri b (ins_stamp v r) (ins_stamp v' r) /\ Rd b (del_stamp v r) (del_stamp v' r))
    startRow numRows vi Hn) as (vi' & Hrun & Hin & Hout).
  { intros k Hk. destruct (Hop k Hk) as (v & v' & Hv & Hr & Hw & Heff).
    exists v'. unfold vector_at. rewrite Hv. split; [exact Hr|]. split; [done|].
    intros r Hlt. exists v. split; [done|]. by apply Heff. }
  exists vi'. split; [exact Hrun|]. split.
  - eapply wf_updated; [exact Hwf| |exact Hin|exact Hout]. by intros k v (? & _).
  - intros row. destruct (decide (in_vectors startRow numRows (row / CAP))) as [Hv|Hv].
    + destruct (Hin _ Hv) as (v' & Hget & _ & Heff).
      destruct (Heff (row mod CAP) (mod_lt row)) as (v & Hgv & Hrow).
      destruct (ins_at vi' _ _ row Hget eq_refl) as [-> ->].
      destruct (ins_at vi _ _ row Hgv eq_refl) as [-> ->].
      rewrite (bool_decide_ext (in_rows startRow numRows row)
        (startRowIdx startRow (row / CAP) <= row mod CAP
           < startRowIdx startRow (row / CAP) + numRowsInVector startRow numRows (row / CAP)));
        [done|]. rewrite row_in_vector by done. tauto.
    + rewrite bool_decide_false by (rewrite row_in_vector by done; tauto).
      by destruct (ins_out _ vi vi' row Hout Hv) as [-> ->].
Qed.

(** A vector of the range has a row of the range in it. *)
Lemma vector_has_row startRow numRows k :
  0 < numRows -> in_vectors startRow numRows k ->
  exists row, in_rows startRow numRows row /\ row / CAP = k.
Proof.
  intros Hn Hk. destruct (vector_rows_bound _ _ _ Hn Hk) as [Hb Hpos].
  destruct (vector_row k (startRowIdx startRow k)) as [Hd Hm]; [lia|].
  exists (CAP * k + startRowIdx startRow k). split; [|done].
  apply row_in_vector; [done|]. rewrite Hd, Hm. split; [done|lia].
Qed.

Lemma vector_exists startRow numRows vi k :
  0 < numRows -> in_vectors startRow numRows k ->
  (forall row, in_rows startRow numRows row -> ins vi row <> Always) ->
  exists v, getVectorVersionInfo vi k = Some v.
Proof.
  intros Hn Hk Hrows. destruct (vector_has_row _ _ _ Hn Hk) as (row & Hrow & <-).
  specialize (Hrows row Hrow). unfold ins in Hrows.
  destruct (getVectorVersionInfo vi (row / CAP)); [eauto|done].
Qed.

(** The rows of a vector's slice, as rows of the group. *)
Lemma slice_row startRow numRows vi k v r :
  0 < numRows -> in_vectors startRow numRows k -> getVectorVersionInfo vi k = Some v ->
  startRowIdx startRow k <= r < startRowIdx startRow k + numRowsInVector startRow numRows k ->
  exists row, in_rows startRow numRows row /\ ins vi row = ins_stamp v r /\
    del vi row = del_stamp v r.
Proof.
  intros Hn Hk Hv Hr. destruct (vector_rows_bound _ _ _ Hn Hk) as [Hb _].
  destruct (vector_row k r) as [Hd Hm]; [lia|]. exists (CAP * k + r). split.
  - apply row_in_vector; [done|]. by rewrite Hd, Hm.
  - rewrite <-Hm at 2 4. by apply (ins_at vi k).
Qed.

(** *** Commits *)

(** A stamp of the committing transaction, before or after it was restamped. *)
Definition own (tid ts : transaction_t) (s : stamp) : Prop := s = At tid \/ s = At ts.

(** How a commit of part of the rows changes one stamp; [b] says whether the
    row is in the range. *)
Definition restamped (tid ts : transaction_t) (b : bool) (s s' : stamp) : Prop :=
  (s' = At ts /\ own tid ts s) \/ (s' = s /\ b = false).

Lemma commitInsert_rows_spec vi tid ts startRow numRows :
  wf vi -> 0 < numRows -> ts <> INVALID_TRANSACTION ->
  (forall row, in_rows startRow numRows row -> own tid ts (ins vi row)) ->
  exists vi', commitInsert vi startRow numRows ts = Ret vi' /\ wf vi' /\
    forall row, restamped tid ts (bool_decide (in_rows startRow numRows row))
                  (ins vi row) (ins vi' row) /\ del vi' row = del vi row.
Proof.
  intros Hwf Hn Hts Hown.
  apply (updateVectors_rows (fun v => VectorVersionInfo.setInsertCommitTS v ts)
    (restamped tid ts) (fun _ s s' => s' = s)); [done..|by right|done|].
  intros k Hk. destruct (vector_exists startRow numRows vi k) as [v Hv]; [done..| |].
  { intros row Hrow. by destruct (Hown row Hrow) as [-> | ->]. }
  destruct (vector_rows_bound _ _ _ Hn Hk) as [Hb Hpos].
  assert (Hslice : forall r, startRowIdx startRow k <= r
      < startRowIdx startRow k + numRowsInVector startRow numRows k -> own tid ts (ins_stamp v r)).
  { intros r Hr. destruct (slice_row _ _ vi k v r Hn Hk Hv Hr) as (row & Hrow & <- & _). by apply Hown. }
  assert (VectorVersionInfo.insertionStatus v = VectorVersionInfo.CHECK_VERSION) as Hst.
  { specialize (Hslice (startRowIdx startRow k)). unfold own, ins_stamp in Hslice.
    destruct (VectorVersionInfo.insertionStatus v); [|done|]; destruct Hslice; done || lia. }
  destruct (VectorFacts.setInsertCommitTS_spec v ts _ _ (Hwf _ _ Hv) Hst Hb Hts)
    as (v' & Hrun & Hwf' & Hdel & Hins).
  exists v, v'. split_and!; [done..|]. intros r Hr. cbn zeta. split; [|done].
  rewrite Hins. destruct (VectorVersionInfo.isSameInsertionVersion v) eqn:Hsame; cbn [orb].
  - left. split; [done|]. specialize (Hslice (startRowIdx startRow k)).
    replace (ins_stamp v r) with (ins_stamp v (startRowIdx startRow k)); [apply Hslice; lia|].
    unfold ins_stamp. rewrite Hst. unfold VectorVersionInfo.isSameInsertionVersion in Hsame.
    apply negb_true_iff in Hsame. unfold pick. by rewrite Hsame.
  - case_bool_decide; [left; split; [done|by apply Hslice]|by right].
Qed.

Lemma commitDelete_rows_spec vi tid ts startRow numRows :
  wf vi -> 0 < numRows -> ts <> INVALID_TRANSACTION ->
  (forall row, in_rows startRow numRows row -> own tid ts (del vi row)) ->
  exists vi', commitDelete vi startRow numRows ts = Ret vi' /\ wf vi' /\
    forall row, ins vi' row = ins vi row /\
      restamped tid ts (bool_decide (in_rows startRow numRows row)) (del vi row) (del vi' row).
Proof.
  intros Hwf Hn Hts Hown.
  apply (updateVectors_rows (fun v => VectorVersionInfo.setDeleteCommitTS v ts)
    (fun _ s s' => s' = s) (restamped tid ts)); [done..|by right|].
  intros k Hk. destruct (vector_has_row _ _ _ Hn Hk) as (row0 & Hrow0 & Hk0).
  assert (exists v, getVectorVersionInfo vi k = Some v) as [v Hv].
  { specialize (Hown row0 Hrow0). unfold del in Hown. rewrite Hk0 in Hown.
    destruct (getVectorVersionInfo vi k); [eauto|]. by destruct Hown. }
  destruct (vector_rows_bound _ _ _ Hn Hk) as [Hb Hpos].
  assert (Hslice : forall r, startRowIdx startRow k <= r
      < startRowIdx startRow k + numRowsInVector startRow numRows k -> own tid ts (del_stamp v r)).
  { intros r Hr. destruct (slice_row _ _ vi k v r Hn Hk Hv Hr) as (row & Hrow & _ & <-). by apply Hown. }
  assert (VectorVersionInfo.deletionStatus v = VectorVersionInfo.DEL_CHECK_VERSION) as Hst.
  { specialize (Hslice (startRowIdx startRow k)). unfold own, del_stamp in Hslice.
    destruct (VectorVersionInfo.deletionStatus v); [|done]; destruct Hslice; done || lia. }
  destruct (VectorFacts.setDeleteCommitTS_spec v ts _ _ (Hwf _ _ Hv) Hst Hb Hts)
    as (v' & Hrun & Hwf' & Hins & Hdel).
  exists v, v'. split_and!; [done..|]. intros r Hr. cbn zeta. split; [done|].
  rewrite Hdel. destruct (VectorVersionInfo.isSameDeletionVersion v) eqn:Hsame; cbn [orb].
  - left. split; [done|]. specialize (Hslice (startRowIdx startRow k)).
    replace (del_stamp v r) with (del_stamp v (startRowIdx startRow k)); [apply Hslice; lia|].
    unfold del_stamp. rewrite Hst. unfold VectorVersionInfo.isSameDeletionVersion in Hsame.
    apply negb_true_iff in Hsame. unfold pick. by rewrite Hsame.
  - case_bool_decide; [left; split; [done|by apply Hslice]|by right].
Qed.

(** *** Rollbacks *)

(** A stamp of the transaction that rolls back, or one already forgotten. *)
Definition own_or_never (tid : transaction_t) (s : stamp) : Prop := s ≡ At tid \/ s ≡ Never.

Definition forgotten (tid : transaction_t) (b : bool) (s s' : stamp) : Prop :=
  (s' ≡ Never /\ own_or_never tid s) \/ (s' ≡ s /\ b = false).

(** Vector [k] keeps a row that somebody else inserted. *)
Definition survivor (vi : t) (tid : transaction_t) (startRow numRows k : nat) : Prop :=
  exists row x, row / CAP = k /\ ~ in_rows startRow numRows row /\ ins vi row = At x /\
    x <> INVALID_TRANSACTION /\ x <> tid.

Lemma own_not_same vi v k tid startRow numRows :
  0 < numRows -> wf vi -> in_vectors startRow numRows k -> getVectorVersionInfo vi k = Some v ->
  (forall row, in_rows startRow numRows row -> own_or_never tid (ins vi row)) ->
  VectorVersionInfo.isSameInsertionVersion v = true ->
  VectorVersionInfo.sameInsertionVersion v = tid /\
  VectorVersionInfo.insertionStatus v = VectorVersionInfo.CHECK_VERSION.
Proof.
  intros Hn Hwf Hk Hv Hown Hsame. destruct (vector_has_row _ _ _ Hn Hk) as (row & Hrow & Hk').
  specialize (Hown row Hrow). destruct (ins_at vi k v row Hv Hk') as [Hi _].
  rewrite Hi in Hown. unfold VectorVersionInfo.isSameInsertionVersion in Hsame.
  apply negb_true_iff, Z.eqb_neq in Hsame.
  destruct (Hwf _ _ Hv) as [Hs _]. unfold VectorFacts.ins_check in Hs.
  inversion Hs as [Hc H1 H2|? Hts Hc H1 H2|? ? Hc H1 H2]; [congruence| |congruence].
  symmetry in Hc. apply bool_decide_eq_true in Hc. split; [|done].
  unfold ins_stamp in Hown. rewrite Hc, VectorFacts.pick_same in Hown by congruence.
  unfold own_or_never, equiv, stamp_equiv, norm in Hown.
  rewrite (proj2 (Z.eqb_neq (VectorVersionInfo.sameInsertionVersion v) _)) in Hown by done.
  destruct Hown as [Hown|Hown]; [|done]. by destruct (tid =? INVALID_TRANSACTION)%Z; simplify_eq.
Qed.

Lemma survivor_slot vi tid startRow numRows k v row x :
  0 < numRows -> wf vi -> in_vectors startRow numRows k -> getVectorVersionInfo vi k = Some v ->
  (forall row, in_rows startRow numRows row -> own_or_never tid (ins vi row)) ->
  row / CAP = k -> ~ in_rows startRow numRows row -> ins vi row = At x ->
  x <> INVALID_TRANSACTION -> x <> tid ->
  exists arr r x, VectorVersionInfo.insertedVersions v = Some arr /\
    ~ (startRowIdx startRow k <= r < startRowIdx startRow k + numRowsInVector startRow numRows k) /\
    arr !! r = Some x /\ x <> INVALID_TRANSACTION.
Proof.
  intros Hn Hwf Hk Hv Hown Hkk Hout Hx Hxi Hxt.
  destruct (ins_at vi k v row Hv Hkk) as [Hi _]. rewrite Hx in Hi.
  destruct (VectorVersionInfo.isSameInsertionVersion v) eqn:Hsame.
  { destruct (own_not_same vi v k tid startRow numRows) as [Ht E]; [done..|].
    unfold ins_stamp in Hi. rewrite E in Hi. unfold VectorVersionInfo.isSameInsertionVersion in Hsame.
    apply negb_true_iff, Z.eqb_neq in Hsame. rewrite VectorFacts.pick_same in Hi by done. congruence. }
  unfold VectorVersionInfo.isSameInsertionVersion in Hsame.
  apply negb_false_iff, Z.eqb_eq in Hsame. unfold ins_stamp in Hi.
  destruct (VectorVersionInfo.insertionStatus v); [done| |done]. rewrite Hsame in Hi.
  destruct (VectorVersionInfo.insertedVersions v) as [arr|];
    [|unfold pick in Hi; rewrite VectorFacts.invalid_eqb_refl in Hi; cbn in Hi; congruence].
  rewrite VectorFacts.pick_rows_eq in Hi.
  destruct (arr !! (row mod CAP)) as [y|] eqn:E; cbn in Hi; [|congruence].
  exists arr, (row mod CAP), y. split_and!; [done| |done|congruence].
  intros Hr. apply Hout, row_in_vector; [done|]. by rewrite Hkk.
Qed.

Lemma rollbackInsert_rows_spec vi tid startRow numRows :
  wf vi -> 0 < numRows -> tid <> INVALID_TRANSACTION ->
  (forall row, in_rows startRow numRows row -> own_or_never tid (ins vi row)) ->
  (forall k v, in_vectors startRow numRows k -> getVectorVersionInfo vi k = Some v ->
     VectorVersionInfo.deletionStatus v = VectorVersionInfo.DEL_CHECK_VERSION ->
     survivor vi tid startRow numRows k) ->
  exists vi', rollbackInsert vi startRow numRows = Ret vi' /\ wf vi' /\
    forall row, forgotten tid (bool_decide (in_rows startRow numRows row))
                  (ins vi row) (ins vi' row) /\ del vi' row = del vi row.
Proof.
  intros Hwf Hn Htid Hown Hsurv.
  apply (updateVectors_rows VectorVersionInfo.rollbackInsertions
    (forgotten tid) (fun _ s s' => s' = s)); [done..|by right|done|].
  intros k Hk. destruct (vector_exists startRow numRows vi k) as [v Hv]; [done..| |].
  { intros row Hrow E. specialize (Hown row Hrow). rewrite E in Hown.
    unfold own_or_never, equiv, stamp_equiv, norm in Hown.
    destruct (tid =? INVALID_TRANSACTION)%Z; by destruct Hown. }
  destruct (vector_rows_bound _ _ _ Hn Hk) as [Hb Hpos].
  assert (Hslice : forall r, startRowIdx startRow k <= r
      < startRowIdx startRow k + numRowsInVector startRow numRows k ->
      own_or_never tid (ins_stamp v r)).
  { intros r Hr. destruct (slice_row _ _ vi k v r Hn Hk Hv Hr) as (row & Hrow & <- & _). by apply Hown. }
  assert (VectorVersionInfo.insertionStatus v <> VectorVersionInfo.ALWAYS_INSERTED) as Hst.
  { intros E. specialize (Hslice (startRowIdx startRow k)). unfold ins_stamp in Hslice.
    rewrite E in Hslice. unfold own_or_never, equiv, stamp_equiv, norm in Hslice.
    destruct (tid =? INVALID_TRANSACTION)%Z; destruct Hslice; done || lia. }
  destruct (VectorFacts.rollbackInsertions_spec v (startRowIdx startRow k)
    (numRowsInVector startRow numRows k) (Hwf _ _ Hv) Hst Hb)
    as (v' & Hrun & Hwf' & Hdel & Hins).
  { intros Hd. destruct (Hsurv k v Hk Hv Hd) as (row & x & Hkk & Hout & Hx & Hxi & Hxt).
    apply (survivor_slot vi tid startRow numRows k v row x); done. }
  exists v, v'. split_and!; [done..|]. intros r Hr. cbn zeta. split; [|done].
  specialize (Hins r). destruct (VectorVersionInfo.isSameInsertionVersion v) eqn:Hsame; cbn [orb] in Hins.
  - left. split; [done|]. left.
    destruct (own_not_same vi v k tid startRow numRows) as [<- E]; [done..|].
    unfold ins_stamp. rewrite E, VectorFacts.pick_same by done. done.
  - case_bool_decide; [left; split; [done|by apply Hslice]|by right].
Qed.

(** A vector with one version for all its deletions is the transaction's own. *)
Lemma same_deletion_own vi v k tid startRow numRows r :
  0 < numRows -> wf vi -> in_vectors startRow numRows k -> getVectorVersionInfo vi k = Some v ->
  (forall row, in_rows startRow numRows row -> own_or_never tid (del vi row)) ->
  VectorVersionInfo.isSameDeletionVersion v = true -> own_or_never tid (del_stamp v r).
Proof.
  intros Hn Hwf Hk Hv Hown Hsame. destruct (vector_has_row _ _ _ Hn Hk) as (row & Hrow & Hk').
  specialize (Hown row Hrow). destruct (ins_at vi k v row Hv Hk') as [_ Hd].
  rewrite Hd in Hown. replace (del_stamp v r) with (del_stamp v (row mod CAP)); [done|].
  unfold VectorVersionInfo.isSameDeletionVersion in Hsame. apply negb_true_iff in Hsame.
  unfold del_stamp, pick. by rewrite Hsame.
Qed.

Lemma rollbackDelete_rows_spec vi tid startRow numRows :
  wf vi -> 0 < numRows ->
  (forall k, in_vectors startRow numRows k -> is_Some (getVectorVersionInfo vi k)) ->
  (forall row, in_rows startRow numRows row -> own_or_never tid (del vi row)) ->
  exists vi', rollbackDelete vi startRow numRows = Ret vi' /\ wf vi' /\
    forall row, ins vi' row = ins vi row /\
      forgotten tid (bool_decide (in_rows startRow numRows row)) (del vi row) (del vi' row).
Proof.
  intros Hwf Hn Hex Hown.
  apply (updateVectors_rows VectorVersionInfo.rollbackDeletions
    (fun _ s s' => s' = s) (forgotten tid)); [done..|by right|].
  intros k Hk. destruct (Hex k Hk) as [v Hv].
  destruct (vector_rows_bound _ _ _ Hn Hk) as [Hb Hpos].
  destruct (VectorFacts.rollbackDeletions_spec v (startRowIdx startRow k)
    (numRowsInVector startRow numRows k) (Hwf _ _ Hv) Hb) as (v' & Hrun & Hwf' & Hins & Hdel).
  exists v, v'. split_and!; [done..|]. intros r Hr. cbn zeta. split; [done|].
  specialize (Hdel r). destruct (VectorVersionInfo.isSameDeletionVersion v) eqn:Hsame; cbn [orb] in Hdel.
  - left. split; [done|]. by apply (same_deletion_own vi v k tid startRow numRows).
  - case_bool_decide as Hr'; [left; split; [done|]|by right].
    destruct (slice_row _ _ vi k v r Hn Hk Hv Hr') as (row & Hrow & _ & <-). by apply Hown.
Qed.

(** *** Deletions *)

(** The vector [delete_] works on; one that never recorded an insertion holds
    checkpointed rows. *)
Definition delete_vector (v : VectorVersionInfo.t) : VectorVersionInfo.t :=
  let '(VectorVersionInfo.mk ins del sameIns sameDel insSt delSt) := v in
  VectorVersionInfo.mk ins del sameIns sameDel
    (match insSt with
     | VectorVersionInfo.NO_INSERTED => VectorVersionInfo.ALWAYS_INSERTED
     | _ => insSt
     end) delSt.

Lemma delete_vector_wf v : VectorFacts.wf v -> VectorFacts.wf (delete_vector v).
Proof.
  destruct v as [ia da si sd ist dst]. unfold VectorFacts.wf, VectorFacts.ins_check, VectorFacts.del_check.
  cbn. by destruct ist.
Qed.

Lemma delete_vector_stamps v r :
  del_stamp (delete_vector v) r = del_stamp v r /\
  (VectorVersionInfo.insertionStatus v <> VectorVersionInfo.NO_INSERTED ->
   ins_stamp (delete_vector v) r = ins_stamp v r).
Proof. destruct v as [ia da si sd ist dst]. by destruct ist. Qed.

Lemma delete_unfold vi txn row :
  delete_ vi txn row =
  (let '(vi1, v) := getOrCreateVersionInfo vi (row / CAP) in
   let '(v', res) := VectorVersionInfo.delete_ (delete_vector v) txn (row mod CAP) in
   (<[row / CAP := Some v']> vi1, res)).
Proof.
  unfold delete_, getQuotientRemainder. destruct (getOrCreateVersionInfo vi (row / CAP)) as [vi1 v].
  by destruct v as [ia da si sd ist dst].
Qed.

Lemma delete_row_spec vi txn row :
  wf vi -> txn <> INVALID_TRANSACTION -> ins vi row <> Never ->
  exists vi', delete_ vi txn row = (vi', VectorFacts.delete_result txn (del vi row)) /\ wf vi' /\
    (forall row', ins vi' row' = ins vi row') /\
    (forall row', del vi' row' ≡
       if bool_decide (row' = row /\ VectorFacts.delete_result txn (del vi row) = Ret true)
       then At txn else del vi row').
Proof.
  intros Hwf Htxn Hrow. rewrite delete_unfold.
  destruct (getOrCreate_spec vi (row / CAP)) as (vi1 & -> & Hlen & _ & Hget).
  set (v := vector_at vi (row / CAP)).
  destruct (VectorFacts.delete_spec (delete_vector v) txn (row mod CAP)) as (v' & -> & Hwf' & Hins & Hdel);
    [by apply delete_vector_wf, wf_vector_at|apply mod_lt|done|].
  assert (del_stamp (delete_vector v) (row mod CAP) = del vi row) as Hdv.
  { rewrite (proj1 (delete_vector_stamps v _)). symmetry. apply del_vector_at. }
  rewrite Hdv in Hdel |- *.
  eexists. split; [done|].
  assert (Hget' : forall j, getVectorVersionInfo (<[row / CAP := Some v']> vi1) j =
            if bool_decide (j = row / CAP) then Some v' else getVectorVersionInfo vi j).
  { intros j. rewrite get_insert by done. case_bool_decide; [done|]. by apply Hget. }
  split_and!.
  - intros k u. rewrite Hget'. case_bool_decide; [by intros [= <-]|apply Hwf].
  - intros row'. unfold ins. rewrite Hget'. case_bool_decide as E; [|done]. rewrite Hins.
    unfold v, vector_at. rewrite E. unfold ins in Hrow.
    destruct (getVectorVersionInfo vi (row / CAP)) as [u|]; [|done]. cbn.
    apply delete_vector_stamps. intros E'. unfold ins_stamp in Hrow. by rewrite E' in Hrow.
  - intros row'. unfold del at 1. rewrite Hget'. case_bool_decide as E.
    + rewrite Hdel, (proj1 (delete_vector_stamps v _)).
      rewrite (bool_decide_ext _ (row' = row /\ VectorFacts.delete_result txn (del vi row) = Ret true)).
      * assert (del_stamp v (row' mod CAP) = del vi row') as ->; [|done].
        unfold v. by rewrite <-E, <-del_vector_at.
      * destruct (cap_div_mod row) as [H1 _], (cap_div_mod row') as [H2 _].
        split; [intros [H3 ?]; split; [congruence|done]|by intros [-> ?]].
    + rewrite bool_decide_false by (intros [-> _]; done). unfold del.
      by destruct (getVectorVersionInfo vi (row' / CAP)).
Qed.

(** *** Scans *)

Import SelectionVector(forEachPositions, setToUnfiltered, isUnfiltered, getSelSize, state).

(** The slices of the range follow one another. *)
Lemma slice_chain startRow numRows k :
  0 < numRows -> in_vectors startRow numRows k ->
  (k = startRow / CAP -> CAP * k + startRowIdx startRow k = startRow) /\
  (k < (startRow + numRows - 1) / CAP ->
     CAP * k + startRowIdx startRow k + numRowsInVector startRow numRows k
     = CAP * S k + startRowIdx startRow (S k)) /\
  (k = (startRow + numRows - 1) / CAP ->
     CAP * k + startRowIdx startRow k + numRowsInVector startRow numRows k = startRow + numRows).
Proof.
  intros Hn. unfold in_vectors, numRowsInVector, startRowIdx, endRowIdx, getQuotientRemainder.
  pose proof vector_capacity_pos.
  destruct (cap_div_mod startRow) as [Hs Hs'], (cap_div_mod (startRow + numRows - 1)) as [He He'].
  revert Hs Hs' He He'.
  generalize (startRow / CAP), (startRow mod CAP),
    ((startRow + numRows - 1) / CAP), ((startRow + numRows - 1) mod CAP).
  generalize dependent CAP. intros c Hc sk sq ek eq Hs Hs' He He' Hk.
  destruct (Nat.eqb_spec k sk), (Nat.eqb_spec k ek), (Nat.eqb_spec (S k) sk);
    subst; split_and!; intros; nia.
Qed.

Lemma slice_end startRow numRows k :
  0 < numRows -> in_vectors startRow numRows k ->
  startRow <= CAP * k + startRowIdx startRow k /\
  CAP * k + startRowIdx startRow k + numRowsInVector startRow numRows k <= startRow + numRows.
Proof.
  intros Hn. unfold in_vectors, numRowsInVector, startRowIdx, endRowIdx, getQuotientRemainder.
  pose proof vector_capacity_pos.
  destruct (cap_div_mod startRow) as [Hs Hs'], (cap_div_mod (startRow + numRows - 1)) as [He He'].
  revert Hs Hs' He He'.
  generalize (startRow / CAP), (startRow mod CAP),
    ((startRow + numRows - 1) / CAP), ((startRow + numRows - 1) mod CAP).
  generalize dependent CAP. intros c Hc sk sq ek eq Hs Hs' He He' Hk.
  destruct (Nat.eqb_spec k sk), (Nat.eqb_spec k ek); subst; nia.
Qed.

Lemma last_vector startRow numRows :
  0 < numRows -> startRow / CAP <= (startRow + numRows - 1) / CAP.
Proof. intros. apply Nat.Div0.div_le_mono. lia. Qed.

(** Running through the slices: an invariant over the number of rows done. *)
Lemma forVectors_inv {St} (I : nat -> St -> Prop) startRow numRows (body : nat -> St -> outcome St) s :
  0 < numRows -> I 0 s ->
  (forall k pos s, in_vectors startRow numRows k ->
     startRow + pos = CAP * k + startRowIdx startRow k ->
     pos + numRowsInVector startRow numRows k <= numRows -> I pos s ->
     exists s', body k s = Ret s' /\ I (pos + numRowsInVector startRow numRows k) s') ->
  exists s', forVectors startRow numRows body s = Ret s' /\ I numRows s'.
Proof.
  intros Hn H0 Hstep. unfold forVectors.
  set (lo := startRow / CAP). set (hi := (startRow + numRows - 1) / CAP).
  assert (Hlh : lo <= hi) by by apply last_vector.
  destruct (for_range_inv (fun j s => exists pos, I pos s /\
      (j <= hi - lo -> startRow + pos = CAP * (lo + j) + startRowIdx startRow (lo + j)) /\
      (j = S hi - lo -> pos = numRows))
    lo (S hi - lo) body s) as (s' & Hrun & pos & HI & _ & Hend).
  - exists 0. split_and!; [done|intros _|lia]. rewrite !Nat.add_0_r.
    destruct (slice_chain startRow numRows lo) as (Hc & _); [done|unfold in_vectors; lia|].
    symmetry. by apply Hc.
  - intros j t Hj (pos & HI & Hpos & _). specialize (Hpos ltac:(lia)).
    assert (Hk : in_vectors startRow numRows (lo + j)) by (unfold in_vectors; lia).
    destruct (slice_chain _ _ _ Hn Hk) as (_ & Hnext & Hlast). fold hi in Hnext, Hlast.
    assert (Hle : pos + numRowsInVector startRow numRows (lo + j) <= numRows).
    { destruct (slice_end startRow numRows (lo + j)) as [_ ?]; [done..|]. lia. }
    destruct (Hstep (lo + j) pos t) as (t' & Hb & HI'); [done..|].
    exists t'. split; [exact Hb|]. eexists. split; [exact HI'|].
    split; intros; [replace (lo + S j) with (S (lo + j)) by lia|]; lia.
  - exists s'. split; [exact Hrun|]. by rewrite <-Hend.
Qed.
End ChunkFacts.
