(* ===== verification/VersionInfoSpec.v ===== *)
(** What [VersionInfo] promises: scans agree with row-by-row visibility,
    appended and deleted rows reach exactly the snapshots they should, a
    rollback is invisible, and serialisation is inverted by deserialisation. *)
From S2P Require Import Prelude Serializer SelVector VersionInfo VersionInfoFacts.
Import Stamps ChunkFacts.

(** ** Scans *)

Section scan.
Import SelectionVector(forEachPositions, setToUnfiltered, isUnfiltered, getSelSize, state).

Lemma scanned_start sel sv :
  SelectionVector.wf sv ->
  exists sv', setToUnfiltered sv 0 = Ret sv' /\ VectorFacts.scanned sel 0 sv'.
Proof.
  intros (Hcap & Hsz & Hptr). eexists. split; [done|].
  assert (SelectionVector.wf (SelectionVector.mk SelectionVector.Incremental 0
            SelectionVector.STATIC (SelectionVector.selectedPositionsBuffer sv)))
    as Hwf by (split_and!; [done|cbn; lia|done]).
  split_and!; [done|done| |done]. by rewrite SelectionVector.positions_static.
Qed.

Lemma selectWholeVector_scanned sel pos n sv :
  VectorFacts.scanned sel pos sv -> pos + n <= CAP ->
  (forall k, k < n -> sel (pos + k) = true) ->
  exists sv', VersionInfo.selectWholeVector sv pos n = Ret sv' /\
    VectorFacts.scanned sel (pos + n) sv'.
Proof.
  intros Hsc Hle Hall. unfold VersionInfo.selectWholeVector.
  pose proof Hsc as (Hwf & _). rewrite SelectionVector.isUnfiltered_wf by done.
  case_bool_decide as Hs; [by apply VectorFacts.setSelSize_scanned|].
  apply VectorFacts.push_loop; [done|by destruct (state sv)|done|].
  intros k s Hk. by rewrite Hall.
Qed.

End scan.

(** A group for the witnesses: 2048 rows committed at timestamp 5, then
    checkpointed rows without version information. *)
Definition example_group : VersionInfo.t :=
  [Some (VectorVersionInfo.mk None None 5 INVALID_TRANSACTION
           VectorVersionInfo.CHECK_VERSION VectorVersionInfo.NO_DELETED); None].

Lemma example_group_wf : wf example_group.
Proof.
  intros [|[|k]] v; cbn; intros [= <-]. split; [by constructor|constructor].
Qed.


(** ** Insertions *)

Section insertions.
Context (vi : VersionInfo.t) (tid : transaction_t) (startRow numRows : nat).
Context (Hwf : wf vi) (Hn : 0 < numRows).

(** C20. Appending rows in transaction [tid]: the operation returns, keeps the
    representation well-formed and ready for the next append; the rows that
    were there stay as they were for every snapshot, and the new rows are
    selected by [tid] itself and by no other transaction. *)
Theorem append_visibility :
  appendable vi startRow ->
  (START_TRANSACTION_ID <= tid < INVALID_TRANSACTION)%Z ->
  (forall row, in_rows startRow numRows row -> del vi row = Never) ->
  exists vi', VersionInfo.append vi tid startRow numRows = Ret vi' /\ wf vi' /\
    appendable vi' (startRow + numRows) /\
    (forall s t row, row < startRow ->
       VersionInfo.isSelected vi' s t row = VersionInfo.isSelected vi s t row) /\
    (forall s t row, in_rows startRow numRows row -> (s < START_TRANSACTION_ID)%Z ->
       VersionInfo.isSelected vi' s t row = Ret (bool_decide (t = tid))).
Proof using Hwf Hn.
  intros Happ Htid Hdel. unfold START_TRANSACTION_ID, INVALID_TRANSACTION in Htid.
  destruct (append_rows_spec vi tid startRow numRows Hwf Happ) as
    (vi' & Hrun & Hwf' & Happ' & Hdel' & Hold & Hnew); [unfold INVALID_TRANSACTION; lia|done|].
  exists vi'. split_and!; [done..| |].
  - intros s t row Hrow. rewrite !rows_isSelected_visible, Hold, Hdel' by done. done.
  - intros s t row Hrow Hs. unfold START_TRANSACTION_ID in Hs.
    rewrite rows_isSelected_visible, Hnew, Hdel', Hdel by done. unfold visible. cbn.
    rewrite (proj2 (Z.leb_gt _ _)), andb_true_r, orb_false_r by lia.
    case_bool_decide; [subst; by rewrite Z.eqb_refl|by rewrite (proj2 (Z.eqb_neq _ _))].
Qed.

(** Committing rows inserted by [tid] at timestamp [ts]: no snapshot older
    than [ts] changes on any row of the group, and every snapshot taken from
    [ts] on has the committed rows, less those it sees deleted. *)
Theorem commitInsert_atomic (ts : transaction_t) :
  (ts < START_TRANSACTION_ID <= tid)%Z ->
  (forall row, in_rows startRow numRows row -> ins vi row = At tid) ->
  exists vi', VersionInfo.commitInsert vi startRow numRows ts = Ret vi' /\ wf vi' /\
    (forall s t row, (s < ts)%Z -> t <> tid -> t <> ts ->
       VersionInfo.isSelected vi' s t row = VersionInfo.isSelected vi s t row) /\
    (forall s t row, in_rows startRow numRows row -> (ts <= s)%Z ->
       VersionInfo.isInserted vi' s t row = Ret true /\
       VersionInfo.isSelected vi' s t row =
         (deleted ← VersionInfo.isDeleted vi s t row; mret (negb deleted))).
Proof using Hwf Hn.
  intros Hts Hown. unfold START_TRANSACTION_ID in Hts.
  destruct (commitInsert_rows_spec vi tid ts startRow numRows Hwf Hn) as (vi' & Hrun & Hwf' & Heff).
  { unfold INVALID_TRANSACTION. lia. }
  { intros row Hrow. left. by apply Hown. }
  exists vi'. split_and!; [done..| |].
  - intros s t row Hs Ht Ht'. rewrite !rows_isSelected_visible by done.
    destruct (Heff row) as [[[Hi Ho]|[Hi _]] ->]; rewrite Hi; [|done]. f_equal.
    unfold visible. f_equal. destruct Ho as [-> | ->]; [|done]. cbn.
    by rewrite !(proj2 (Z.leb_gt _ _)), !(proj2 (Z.eqb_neq _ _)) by (done || lia).
  - intros s t row Hrow Hs. rewrite rows_isInserted_seen, rows_isSelected_visible, rows_isDeleted_seen by done.
    destruct (Heff row) as [Hr ->]. rewrite bool_decide_true in Hr by done.
    destruct Hr as [[-> _]|[_ ?]]; [|done]. unfold visible. cbn.
    by rewrite !(proj2 (Z.leb_le _ _)), !orb_true_r by done.
Qed.

(** An append that is rolled back leaves no trace: append and rollback both
    return, and afterwards every transaction selects the rows before
    [startRow] as if nothing had happened, and none of the appended ones. *)
Theorem append_rollback_invisible :
  appendable vi startRow -> tid <> INVALID_TRANSACTION ->
  (forall row, row < startRow -> ins vi row <> At tid) ->
  (forall k v, in_vectors startRow numRows k -> VersionInfo.getVectorVersionInfo vi k = Some v ->
     VectorVersionInfo.deletionStatus v = VectorVersionInfo.DEL_CHECK_VERSION ->
     exists row x, row < startRow /\ row / CAP = k /\ ins vi row = At x /\ x <> INVALID_TRANSACTION) ->
  exists vi1 vi2, VersionInfo.append vi tid startRow numRows = Ret vi1 /\
    VersionInfo.rollbackInsert vi1 startRow numRows = Ret vi2 /\ wf vi2 /\
    forall s t, reader s t ->
      (forall row, row < startRow ->
         VersionInfo.isSelected vi2 s t row = VersionInfo.isSelected vi s t row) /\
      (forall row, in_rows startRow numRows row -> VersionInfo.isSelected vi2 s t row = Ret false).
Proof using Hwf Hn.
  intros Happ Htid Hfresh Hdeleted.
  destruct (append_vectors vi tid startRow numRows) as (vi1 & Hrun1 & Hin1 & _); [done..|].
  destruct (append_rows_spec vi tid startRow numRows Hwf Happ Htid Hn)
    as (vi1' & Hrun1' & Hwf1 & _ & Hdel1 & Hold1 & Hnew1).
  rewrite Hrun1 in Hrun1'. injection Hrun1' as <-.
  destruct (rollbackInsert_rows_spec vi1 tid startRow numRows Hwf1 Hn Htid)
    as (vi2 & Hrun2 & Hwf2 & Heff).
  { intros row Hrow. left. by rewrite Hnew1. }
  { intros k v Hk Hv Hd. destruct (Hin1 k Hk) as (v' & Hv' & _ & _ & Hdst & _).
    rewrite Hv in Hv'. injection Hv' as <-.
    unfold vector_at in Hdst. rewrite Hd in Hdst.
    destruct (VersionInfo.getVectorVersionInfo vi k) as [v0|] eqn:Hv0; [|done].
    destruct (Hdeleted k v0 Hk Hv0) as (row & x & Hlt & Hkk & Hx & Hxi); [done|].
    exists row, x. split_and!; [done| |by rewrite Hold1|done|].
    - unfold in_rows. lia.
    - intros ->. by apply (Hfresh row Hlt). }
  exists vi1, vi2. split_and!; [done..|]. intros s t Hr. split; intros row Hrow.
  - rewrite !rows_isSelected_visible by done. f_equal. destruct (Heff row) as [Hf ->]. rewrite Hdel1.
    apply visible_proper; [done| |done].
    destruct Hf as [[-> [Ho|Ho]]|[-> _]]; rewrite <-?Hold1 by done; [|done|done].
    exfalso. rewrite Hold1 in Ho by done. apply (Hfresh row Hrow). by apply equiv_at.
  - rewrite rows_isSelected_visible by done. f_equal. destruct (Heff row) as [Hf ->].
    rewrite bool_decide_true in Hf by done. destruct Hf as [[Hf _]|[_ ?]]; [|done].
    rewrite (visible_proper s t _ Never _ (del vi1 row)) by done. done.
Qed.
End insertions.

(** An in-memory group as it starts: no version information at all. *)
Lemma appendable_empty : appendable [] 0.
Proof.
  intros k _. unfold vector_at. cbn. split; [done|]. intros _.
  unfold VersionInfo.startRowIdx, VersionInfo.getQuotientRemainder.
  pose proof vector_capacity_pos. rewrite Nat.Div0.mod_0_l. by destruct (k =? _).
Qed.

Lemma wf_empty : wf [].
Proof. intros k v. by destruct k. Qed.

Lemma append_visibility_witness :
  exists vi', VersionInfo.append [] (START_TRANSACTION_ID + 1) 0 3000 = Ret vi' /\ wf vi' /\
      appendable vi' (0 + 3000) /\
      (forall s t row, row < 0 ->
         VersionInfo.isSelected vi' s t row = VersionInfo.isSelected [] s t row) /\
      (forall s t row, in_rows 0 3000 row -> (s < START_TRANSACTION_ID)%Z ->
         VersionInfo.isSelected vi' s t row = Ret (bool_decide (t = START_TRANSACTION_ID + 1)%Z)).
Proof.
  apply append_visibility.
  - apply wf_empty.
  - apply Nat.lt_0_succ.
  - apply appendable_empty.
  - done.
  - done.
Defined.

Definition example_uncommitted : VersionInfo.t :=
  [Some (VectorVersionInfo.mk None None (START_TRANSACTION_ID + 1) INVALID_TRANSACTION
           VectorVersionInfo.CHECK_VERSION VectorVersionInfo.NO_DELETED)].

Lemma example_uncommitted_wf : wf example_uncommitted.
Proof. intros [|k] v; cbn; intros [= <-]. split; [by constructor|constructor]. Qed.

Lemma example_uncommitted_ins row :
  row < 2048 -> ins example_uncommitted row = At (START_TRANSACTION_ID + 1).
Proof.
  intros Hrow. unfold ins. rewrite Nat.div_small; [done|]. rewrite vector_capacity_value. lia.
Qed.

Lemma commitInsert_atomic_witness :
  exists vi', VersionInfo.commitInsert example_uncommitted 0 10 9 = Ret vi' /\ wf vi' /\
      (forall s t row, (s < 9)%Z -> t <> (START_TRANSACTION_ID + 1)%Z -> t <> 9%Z ->
         VersionInfo.isSelected vi' s t row = VersionInfo.isSelected example_uncommitted s t row) /\
      (forall s t row, in_rows 0 10 row -> (9 <= s)%Z ->
         VersionInfo.isInserted vi' s t row = Ret true /\
         VersionInfo.isSelected vi' s t row =
           (deleted ← VersionInfo.isDeleted example_uncommitted s t row; mret (negb deleted))).
Proof.
  apply (commitInsert_atomic example_uncommitted (START_TRANSACTION_ID + 1) 0 10).
  - apply example_uncommitted_wf.
  - lia.
  - done.
  - intros row [_ Hrow]. apply example_uncommitted_ins. lia.
Defined.

Lemma append_rollback_invisible_witness :
  exists vi1 vi2, VersionInfo.append [] 11 0 3000 = Ret vi1 /\
      VersionInfo.rollbackInsert vi1 0 3000 = Ret vi2 /\ wf vi2 /\
      forall s t, reader s t ->
        (forall row, row < 0 ->
           VersionInfo.isSelected vi2 s t row = VersionInfo.isSelected [] s t row) /\
        (forall row, in_rows 0 3000 row -> VersionInfo.isSelected vi2 s t row = Ret false).
Proof.
  apply append_rollback_invisible.
  - apply wf_empty.
  - apply Nat.lt_0_succ.
  - apply appendable_empty.
  - done.
  - intros row Hrow. lia.
  - intros [|k] v _; by cbn.
Defined.

(** ** Deletions *)

Lemma norm_at s ts : norm s = At ts -> s = At ts /\ ts <> INVALID_TRANSACTION.
Proof.
  destruct s as [| |x]; [done..|]. cbn.
  destruct (Z.eqb_spec x INVALID_TRANSACTION); [done|]. by intros [= <-].
Qed.

Lemma norm_always s : norm s = Always -> s = Always.
Proof. destruct s as [| |x]; [done..|]. cbn. by destruct (x =? _)%Z. Qed.

(** Deleting a row in use. A row nobody deleted is deleted: it disappears
    for the deleting transaction at once and for no older snapshot of another
    one. Deleting it again in the same transaction answers [false]; a row
    deleted by another transaction, committed or not, raises the write-write
    conflict. In the last two cases no transaction sees a difference on any row,
    and no other row is ever touched. *)
Theorem delete_outcome vi txn row :
  wf vi -> (START_TRANSACTION_ID <= txn < INVALID_TRANSACTION)%Z -> ins vi row <> Never ->
  exists vi' res, VersionInfo.delete_ vi txn row = (vi', res) /\ wf vi' /\
    match res with
    | Ret true =>
        del vi row ≡ Never /\
        (forall s, VersionInfo.isSelected vi' s txn row = Ret false) /\
        (forall s t, reader s t -> (s < START_TRANSACTION_ID)%Z -> t <> txn ->
           VersionInfo.isSelected vi' s t row = VersionInfo.isSelected vi s t row)
    | Ret false => del vi row = At txn
    | Throw e => e = VectorVersionInfo.ww_conflict_delete /\
        exists ts, del vi row = At ts /\ ts <> txn /\ ts <> INVALID_TRANSACTION
    | Undef => False
    end /\
    (forall s t row', reader s t -> row' <> row \/ res <> Ret true ->
       VersionInfo.isSelected vi' s t row' = VersionInfo.isSelected vi s t row').
Proof.
  intros Hwf Htxn Hrow. unfold START_TRANSACTION_ID, INVALID_TRANSACTION in Htxn.
  destruct (delete_row_spec vi txn row) as (vi' & Hrun & Hwf' & Hins & Hdel);
    [done|unfold INVALID_TRANSACTION; lia|done|].
  exists vi', (VectorFacts.delete_result txn (del vi row)). split_and!; [done..| |].
  - assert (Htrue : VectorFacts.delete_result txn (del vi row) = Ret true -> del vi row ≡ Never ->
      (forall s, VersionInfo.isSelected vi' s txn row = Ret false) /\
      (forall s t, reader s t -> (s < START_TRANSACTION_ID)%Z -> t <> txn ->
           VersionInfo.isSelected vi' s t row = VersionInfo.isSelected vi s t row)).
    { intros Hres Hnever. specialize (Hdel row). rewrite bool_decide_true in Hdel by done.
      apply equiv_at in Hdel; [|unfold INVALID_TRANSACTION; lia]. split.
      - intros s. rewrite rows_isSelected_visible, Hdel by done. unfold visible. cbn.
        by rewrite Z.eqb_refl, andb_false_r.
      - intros s t Hr Hs Ht. rewrite !rows_isSelected_visible, Hdel, Hins by done. f_equal.
        unfold visible. f_equal. f_equal. rewrite (seen_proper s t (del vi row) Never) by done. cbn.
        unfold START_TRANSACTION_ID in Hs.
        by rewrite (proj2 (Z.leb_gt _ _)), (proj2 (Z.eqb_neq _ _)) by (done || lia). }
    unfold VectorFacts.delete_result in *. destruct (norm (del vi row)) as [| |ts] eqn:Hn.
    + split; [exact Hn|]. by apply Htrue.
    + by destruct (del_not_always vi row); apply norm_always.
    + destruct (norm_at _ _ Hn) as [Ha Hi].
      destruct (Z.eqb_spec ts txn) as [->|Hne]; [done|]. split; [done|]. by exists ts.
  - intros s t row' Hr Hother. rewrite !rows_isSelected_visible, Hins by done. f_equal.
    apply visible_proper; [done|done|]. rewrite Hdel.
    rewrite bool_decide_false by (intros [? ?]; destruct Hother; congruence). done.
Qed.

(** Row 20 of a checkpointed group, deleted by a transaction still running. *)
Definition example_deleted : VersionInfo.t :=
  (VersionInfo.delete_ [] (START_TRANSACTION_ID + 1) 20).1.

Lemma wf_deleted : wf example_deleted.
Proof.
  unfold example_deleted.
  destruct (delete_row_spec [] (START_TRANSACTION_ID + 1) 20) as (vi' & Hrun & Hwf & _);
    [apply wf_empty|done|done|]. by rewrite Hrun.
Qed.

Lemma example_deleted_ins row : ins example_deleted row <> Never.
Proof.
  unfold example_deleted.
  destruct (delete_row_spec [] (START_TRANSACTION_ID + 1) 20) as (vi' & Hrun & _ & Hins & _);
    [apply wf_empty|done|done|]. rewrite Hrun. cbn. by rewrite Hins.
Qed.

Lemma delete_outcome_witness :
  exists vi' res, VersionInfo.delete_ example_deleted (START_TRANSACTION_ID + 2) 20 = (vi', res) /\
    wf vi' /\
    match res with
    | Ret true =>
        del example_deleted 20 ≡ Never /\
        (forall s, VersionInfo.isSelected vi' s (START_TRANSACTION_ID + 2) 20 = Ret false) /\
        (forall s t, reader s t -> (s < START_TRANSACTION_ID)%Z -> t <> (START_TRANSACTION_ID + 2)%Z ->
           VersionInfo.isSelected vi' s t 20 = VersionInfo.isSelected example_deleted s t 20)
    | Ret false => del example_deleted 20 = At (START_TRANSACTION_ID + 2)
    | Throw e => e = VectorVersionInfo.ww_conflict_delete /\
        exists ts, del example_deleted 20 = At ts /\ ts <> (START_TRANSACTION_ID + 2)%Z /\
          ts <> INVALID_TRANSACTION
    | Undef => False
    end /\
    (forall s t row', reader s t -> row' <> 20 \/ res <> Ret true ->
       VersionInfo.isSelected vi' s t row' = VersionInfo.isSelected example_deleted s t row').
Proof.
  apply delete_outcome.
  - apply wf_deleted.
  - done.
  - apply example_deleted_ins.
Defined.

Lemma in_rows_1 row row' : in_rows row 1 row' <-> row' = row.
Proof. unfold in_rows. lia. Qed.

(** A stamp of a running transaction, or the commit timestamp it becomes, is
    invisible to everybody else's older snapshots. *)
Lemma unseen_own tid ts s t x :
  own tid ts x -> (ts < START_TRANSACTION_ID <= tid)%Z -> (s < ts)%Z -> t <> tid -> t <> ts ->
  seen s t x = false.
Proof.
  unfold START_TRANSACTION_ID. intros [-> | ->] ? ? ? ?; cbn;
    by rewrite (proj2 (Z.leb_gt _ _)), (proj2 (Z.eqb_neq _ _)) by (done || lia).
Qed.

(** A deletion and how its transaction ends. Deleting a row nobody deleted
    and committing at [ts]: no snapshot older than [ts] changes on any row of the
    group, and the row is gone for every snapshot from [ts] on. Deleting it and
    rolling back: every transaction selects all rows as before the deletion
    (the transaction's own earlier deletions apart). *)
Theorem delete_then_finish vi txn ts row :
  wf vi -> (ts < START_TRANSACTION_ID <= txn)%Z -> (txn < INVALID_TRANSACTION)%Z ->
  ins vi row <> Never -> del vi row ≡ Never ->
  exists vi1 vi2 vi3, VersionInfo.delete_ vi txn row = (vi1, Ret true) /\
    VersionInfo.commitDelete vi1 row 1 ts = Ret vi2 /\
    VersionInfo.rollbackDelete vi1 row 1 = Ret vi3 /\ wf vi2 /\ wf vi3 /\
    (forall s t row', (s < ts)%Z -> t <> txn -> t <> ts -> t <> INVALID_TRANSACTION ->
       VersionInfo.isSelected vi2 s t row' = VersionInfo.isSelected vi s t row') /\
    (forall s t, (ts <= s)%Z -> VersionInfo.isSelected vi2 s t row = Ret false) /\
    (forall s t row', reader s t -> del vi row' <> At txn ->
       VersionInfo.isSelected vi3 s t row' = VersionInfo.isSelected vi s t row').
Proof.
  intros Hwf Hts Htxn Hrow Hnever.
  assert (txn <> INVALID_TRANSACTION /\ ts <> INVALID_TRANSACTION) as [Hti Htsi]
    by (unfold START_TRANSACTION_ID, INVALID_TRANSACTION in *; lia).
  destruct (delete_row_spec vi txn row Hwf Hti Hrow) as (vi1 & Hrun & Hwf1 & Hins1 & Hdel1).
  assert (VectorFacts.delete_result txn (del vi row) = Ret true) as Hres.
  { unfold VectorFacts.delete_result. unfold equiv, stamp_equiv in Hnever. by rewrite Hnever. }
  rewrite Hres in Hrun.
  assert (Hd1 : forall row', del vi1 row' ≡ if decide (row' = row) then At txn else del vi row').
  { intros row'. rewrite Hdel1. destruct (decide (row' = row)).
    - by rewrite bool_decide_true.
    - by rewrite bool_decide_false by (intros [? _]; done). }
  clear Hdel1. assert (del vi1 row = At txn) as Hat.
  { apply equiv_at; [done|]. by rewrite Hd1, decide_True. }
  destruct (commitDelete_rows_spec vi1 txn ts row 1 Hwf1) as (vi2 & Hrun2 & Hwf2 & Heff2);
    [lia|done|by intros row' ->%in_rows_1; left|].
  destruct (rollbackDelete_rows_spec vi1 txn row 1 Hwf1) as (vi3 & Hrun3 & Hwf3 & Heff3); [lia| | |].
  { intros k Hk. destruct (vector_has_row row 1 k) as (row' & ->%in_rows_1 & <-); [lia|done|].
    unfold del in Hat. destruct (VersionInfo.getVectorVersionInfo vi1 _); [by eexists|done]. }
  { intros row' ->%in_rows_1. left. by rewrite Hat. }
  exists vi1, vi2, vi3. split_and!; [done..| | |].
  - intros s t row' Hs Ht Ht' Hi. rewrite !rows_isSelected_visible by done.
    destruct (Heff2 row') as [-> Hd]. rewrite Hins1. f_equal. unfold visible. do 2 f_equal.
    assert (reader s t) as Hr
      by (split; [unfold START_TRANSACTION_ID, INVALID_TRANSACTION in *; lia|done]).
    assert (seen s t (del vi2 row') = seen s t (del vi1 row')) as ->.
    { destruct Hd as [[-> Ho]|[-> _]]; [|done].
      by rewrite (unseen_own txn ts s t _ Ho), (unseen_own txn ts s t (At ts)) by (done || by right). }
    rewrite (seen_proper _ _ _ _ Hr (Hd1 row')). destruct (decide (row' = row)) as [->|]; [|done].
    by rewrite (seen_proper _ _ _ _ Hr Hnever), (unseen_own txn ts) by (done || by left).
  - intros s t Hs. rewrite rows_isSelected_visible by done. destruct (Heff2 row) as [_ Hd].
    rewrite bool_decide_true in Hd by by apply in_rows_1.
    destruct Hd as [[-> _]|[_ ?]]; [|done]. unfold visible. cbn.
    by rewrite (proj2 (Z.leb_le _ _)), orb_true_r, andb_false_r by done.
  - intros s t row' Hr Hother. rewrite !rows_isSelected_visible by done.
    destruct (Heff3 row') as [-> Hd]. rewrite Hins1. f_equal. apply visible_proper; [done|done|].
    specialize (Hd1 row'). destruct (decide (row' = row)) as [->|Hne].
    + rewrite bool_decide_true in Hd by by apply in_rows_1.
      destruct Hd as [[-> _]|[_ ?]]; done.
    + destruct Hd as [[-> Ho]|[-> _]]; [|done]. unfold own_or_never in Ho. rewrite Hd1 in Ho.
      destruct Ho as [Ho|Ho]; [by apply equiv_at in Ho|by rewrite Ho].
Qed.

Lemma delete_then_finish_witness :
  exists vi1 vi2 vi3, VersionInfo.delete_ [] (START_TRANSACTION_ID + 1) 20 = (vi1, Ret true) /\
    VersionInfo.commitDelete vi1 20 1 9 = Ret vi2 /\
    VersionInfo.rollbackDelete vi1 20 1 = Ret vi3 /\ wf vi2 /\ wf vi3 /\
    (forall s t row', (s < 9)%Z -> t <> (START_TRANSACTION_ID + 1)%Z -> t <> 9%Z ->
       t <> INVALID_TRANSACTION ->
       VersionInfo.isSelected vi2 s t row' = VersionInfo.isSelected [] s t row') /\
    (forall s t, (9 <= s)%Z -> VersionInfo.isSelected vi2 s t 20 = Ret false) /\
    (forall s t row', reader s t -> del [] row' <> At (START_TRANSACTION_ID + 1) ->
       VersionInfo.isSelected vi3 s t row' = VersionInfo.isSelected [] s t row').
Proof. by apply (delete_then_finish [] (START_TRANSACTION_ID + 1) 9 20); [apply wf_empty|..]. Defined.

(** ** Counting deletions *)

Lemma count_app f l1 l2 : VectorFacts.count f (l1 ++ l2) = VectorFacts.count f l1 + VectorFacts.count f l2.
Proof. unfold VectorFacts.count. by rewrite List.filter_app, length_app. Qed.

Lemma count_false f l : (forall x, x ∈ l -> f x = false) -> VectorFacts.count f l = 0.
Proof.
  unfold VectorFacts.count. induction l as [|x l IH]; intros H; [done|]. cbn.
  rewrite H by apply list_elem_of_here. apply IH. intros y Hy. apply H. by right.
Qed.

Lemma count_pos f l : 0 < VectorFacts.count f l <-> exists x, x ∈ l /\ f x = true.
Proof.
  unfold VectorFacts.count. setoid_rewrite list_elem_of_In. setoid_rewrite <-filter_In.
  destruct (List.filter f l) as [|y l']; cbn; split; try lia.
  - by intros (x & []).
  - intros _. exists y. by left.
Qed.

Lemma vector_hasDeletions v s txn :
  VectorFacts.wf v ->
  VectorVersionInfo.hasDeletions v s txn =
    Ret (0 <? VectorFacts.count (fun r => seen s txn (del_stamp v r)) (seq 0 CAP)).
Proof.
  intros Hwf. unfold VectorVersionInfo.hasDeletions.
  destruct (VectorVersionInfo.isSameDeletionVersion v) eqn:Hsame.
  - assert (Hd : forall r, del_stamp v r = At (VectorVersionInfo.sameDeletionVersion v)).
    { intros r. destruct Hwf as [_ Hs]. unfold VectorFacts.del_check in Hs.
      unfold VectorVersionInfo.isSameDeletionVersion in Hsame. apply negb_true_iff in Hsame.
      unfold del_stamp, pick. rewrite Hsame. destruct (VectorVersionInfo.deletionStatus v); [|done].
      inversion Hs as [Hc H1 H2| |]. rewrite <-H2 in Hsame. done. }
    f_equal. symmetry. rewrite orb_comm. fold (seen s txn (At (VectorVersionInfo.sameDeletionVersion v))).
    destruct (seen s txn (At _)) eqn:Hseen.
    + apply Nat.ltb_lt, count_pos. exists 0. rewrite Hd. split; [|done].
      apply elem_of_seq. pose proof vector_capacity_pos. lia.
    + rewrite count_false; [done|]. intros r _. by rewrite Hd.
  - pose proof (VectorFacts.count_loop v s txn 0 CAP Hwf (Nat.le_refl _)) as Hl. cbn in Hl.
    cbn. by rewrite Hl.
Qed.

Lemma count_shift f g a b n :
  (forall i, i < n -> f (a + i) = g (b + i)) ->
  VectorFacts.count f (seq a n) = VectorFacts.count g (seq b n).
Proof.
  induction n as [|n IH]; intros H; [done|].
  rewrite !VectorFacts.count_seq_S, H by lia. rewrite IH; [done|]. intros i Hi. apply H. lia.
Qed.

Definition vector_deleted (s txn : transaction_t) (v : option VectorVersionInfo.t) (r : nat) : bool :=
  match v with Some v => seen s txn (del_stamp v r) | None => false end.

Lemma hasDeletions_vectors vi s txn :
  wf vi ->
  VersionInfo.hasDeletions vi s txn =
    Ret (existsb (fun v => 0 <? VectorFacts.count (vector_deleted s txn v) (seq 0 CAP)) vi).
Proof.
  intros Hwf. induction vi as [|o vi IH]; [done|].
  assert (wf vi) as Hwf' by (intros k v Hv; by apply (Hwf (S k) v)).
  destruct o as [v|]; cbn [VersionInfo.hasDeletions existsb].
  - rewrite vector_hasDeletions by (by apply (Hwf 0)). cbn -[seq Nat.ltb]. rewrite IH by done.
    cbn [vector_deleted]. by destruct (0 <? _).
  - rewrite IH by done. rewrite count_false; done.
Qed.

Lemma deleted_vector vi s txn k q :
  q < CAP -> seen s txn (del vi (CAP * k + q)) = vector_deleted s txn (default None (vi !! k)) q.
Proof.
  intros Hq. destruct (vector_row k q Hq) as [Hk Hr]. unfold del. rewrite Hk, Hr.
  unfold VersionInfo.getVectorVersionInfo. by destruct (vi !! k) as [[v|]|].
Qed.

(** Counting deletions: over any range of rows, across vectors,
    [getNumDeletions] returns the number of rows the row-by-row test [isDeleted]
    reports for the transaction, and [hasDeletions] says whether there is such
    a row among the vectors of the group. *)
Theorem getNumDeletions_counts vi s txn startRow numRows :
  wf vi ->
  VersionInfo.getNumDeletions vi s txn startRow numRows =
    Ret (VectorFacts.count (fun row => bool_decide (VersionInfo.isDeleted vi s txn row = Ret true))
           (seq startRow numRows)) /\
  exists b, VersionInfo.hasDeletions vi s txn = Ret b /\
    (b = true <-> exists row, row < CAP * length vi /\ VersionInfo.isDeleted vi s txn row = Ret true).
Proof.
  intros Hwf.
  assert (Hdel : forall row, bool_decide (VersionInfo.isDeleted vi s txn row = Ret true)
                             = seen s txn (del vi row)).
  { intros row. rewrite rows_isDeleted_seen by done. by destruct (seen _ _ _). }
  split.
  - unfold VectorFacts.count. rewrite (List.filter_ext _ _ Hdel).
    fold (VectorFacts.count (fun row => seen s txn (del vi row)) (seq startRow numRows)).
    unfold VersionInfo.getNumDeletions. destruct (Nat.eqb_spec numRows 0) as [->|Hn]; [done|].
    match goal with |- VersionInfo.forVectors _ _ ?body _ = _ =>
      destruct (forVectors_inv (fun pos acc =>
        acc = VectorFacts.count (fun row => seen s txn (del vi row)) (seq startRow pos))
        startRow numRows body 0) as (acc & -> & ->); [lia|done| |done] end.
    intros k pos acc Hk Hat Hle ->. rewrite seq_app, count_app, Hat.
    destruct (vector_rows_bound startRow numRows k) as [Hb _]; [lia|done|].
    set (a := VersionInfo.startRowIdx startRow k) in *.
    set (n := VersionInfo.numRowsInVector startRow numRows k) in *.
    assert (VectorFacts.count (fun row => seen s txn (del vi row)) (seq (CAP * k + a) n)
            = VectorFacts.count (vector_deleted s txn (default None (vi !! k))) (seq a n)) as ->.
    { apply count_shift. intros i Hi. rewrite <-Nat.add_assoc. apply deleted_vector. lia. }
    unfold VersionInfo.getVectorVersionInfo. destruct (vi !! k) as [[v|]|] eqn:Hv; cbn [default].
    + rewrite VectorFacts.getNumDeletions_count; [by eexists| |done].
      apply (Hwf k). unfold VersionInfo.getVectorVersionInfo. by rewrite Hv.
    + eexists. split; [done|]. by rewrite (count_false (vector_deleted _ _ _)), Nat.add_0_r.
    + eexists. split; [done|]. by rewrite (count_false (vector_deleted _ _ _)), Nat.add_0_r.
  - rewrite hasDeletions_vectors by done. eexists. split; [done|]. rewrite existsb_exists.
    setoid_rewrite rows_isDeleted_seen; [|done..]. split.
    + intros (o & Hin & Hc). apply Nat.ltb_lt, count_pos in Hc as (q & Hq%elem_of_seq & Hd).
      apply list_elem_of_In, list_elem_of_lookup in Hin as [k Hk]. exists (CAP * k + q).
      apply lookup_lt_Some in Hk as Hlt. split; [nia|].
      rewrite deleted_vector, Hk by lia. cbn. by rewrite Hd.
    + intros (row & Hlt & [= Hd]). destruct (cap_div_mod row) as [Hrow Hmod].
      destruct (lookup_lt_is_Some_2 vi (row / CAP)) as [o Ho]; [nia|]. exists o. split.
      { apply list_elem_of_In, list_elem_of_lookup. by exists (row / CAP). }
      apply Nat.ltb_lt, count_pos. exists (row mod CAP). split; [apply elem_of_seq; lia|].
      rewrite Hrow, deleted_vector, Ho in Hd by done. done.
Qed.

Lemma getNumDeletions_counts_witness :
  VersionInfo.getNumDeletions example_deleted 7 (START_TRANSACTION_ID + 1) 0 5000 =
    Ret (VectorFacts.count (fun row => bool_decide (VersionInfo.isDeleted example_deleted 7
      (START_TRANSACTION_ID + 1) row = Ret true)) (seq 0 5000)) /\
  exists b, VersionInfo.hasDeletions example_deleted 7 (START_TRANSACTION_ID + 1) = Ret b /\
    (b = true <-> exists row, row < CAP * length example_deleted /\
       VersionInfo.isDeleted example_deleted 7 (START_TRANSACTION_ID + 1) row = Ret true).
Proof. apply getNumDeletions_counts, wf_deleted. Defined.

(** ** Checkpointing *)

(** The deletions a checkpoint may find: committed, or rows never deleted. *)
Definition checkpointed_ts (ts : transaction_t) : Prop :=
  (0 <= ts < START_TRANSACTION_ID)%Z \/ ts = INVALID_TRANSACTION.
Definition checkpointable (v : VectorVersionInfo.t) : Prop :=
  forall r ts, r < CAP -> del_stamp v r = At ts -> checkpointed_ts ts.

Lemma checkpointed_u64 ts : checkpointed_ts ts -> serializable u64_codec ts.
Proof.
  unfold checkpointed_ts, START_TRANSACTION_ID, INVALID_TRANSACTION. cbn. intros [?| ->]; lia.
Qed.

Lemma checkpointed_versions arr :
  Forall checkpointed_ts arr -> VectorVersionInfo.committed_versions arr = true.
Proof.
  intros H. unfold VectorVersionInfo.committed_versions. apply forallb_forall. intros x Hx.
  rewrite Forall_forall in H. specialize (H x (proj2 (list_elem_of_In _ _) Hx)).
  destruct H as [H| ->]; [|by rewrite Z.eqb_refl].
  by rewrite (proj2 (Z.ltb_lt _ _)), orb_true_r by lia.
Qed.

Lemma vector_roundtrip v :
  VectorFacts.wf v -> VectorVersionInfo.insertionStatus v <> VectorVersionInfo.CHECK_VERSION ->
  checkpointable v ->
  exists bs, VectorVersionInfo.serialize v = Ret bs /\
    forall rest, VectorVersionInfo.deSerialize (bs ++ rest) = Ret (v, rest).
Proof.
  intros [Hi Hd] Hst Hts. unfold VectorFacts.ins_check, VectorFacts.del_check in *.
  rewrite bool_decide_false in Hi by done.
  destruct v as [ia da si sd ist dst]. cbn in Hi, Hd, Hst. inversion Hi; subst. clear Hi.
  unfold VectorVersionInfo.serialize, VectorVersionInfo.deSerialize. cbn [VectorVersionInfo.deletedVersions
    VectorVersionInfo.insertionStatus VectorVersionInfo.deletionStatus VectorVersionInfo.sameDeletionVersion].
  assert (Hist : VectorVersionInfo.not_check_version ist = true) by by destruct ist.
  assert (Hu8 : serializable u8_codec (VectorVersionInfo.insertion_status_byte ist) /\
                VectorVersionInfo.insertion_status_of_byte (VectorVersionInfo.insertion_status_byte ist) = Ret ist)
    by (destruct ist; cbn; split; done || lia). destruct Hu8 as [Hu8 Hdec].
  inversion Hd as [Hc|ts Hinv Hc|arr Hlen Hc]; subst; symmetry in Hc; clear Hd.
  - apply bool_decide_eq_false in Hc. destruct dst; [|done]. rewrite !ku_assert_true by done.
    eexists. split; [done|]. intros rest.
    rewrite <-app_assoc, deserialize_serialize by done. cbn [mbind outcome_bind]. run_eq Hdec.
    rewrite ku_assert_true by done. cbn [mbind outcome_bind]. rewrite deserialize_serialize by (cbn; lia). done.
  - apply bool_decide_eq_true in Hc as ->. rewrite !ku_assert_true by done.
    assert (serializable u64_codec sd) as Hu.
    { apply checkpointed_u64, (Hts 0); [apply vector_capacity_pos|].
      unfold del_stamp. cbn. by rewrite VectorFacts.pick_same. }
    rewrite (proj2 (Z.eqb_neq _ _)) by done. eexists. split; [done|]. intros rest.
    rewrite <-!app_assoc, deserialize_serialize by done. cbn [mbind outcome_bind]. run_eq Hdec.
    rewrite ku_assert_true by done. cbn [mbind outcome_bind]. rewrite deserialize_serialize by (cbn; lia).
    cbn [mbind outcome_bind VectorVersionInfo.deletion_status_of_byte VectorVersionInfo.deletion_status_byte].
    rewrite deserialize_serialize by done. cbn [mbind outcome_bind].
    by rewrite (proj2 (Z.eqb_neq _ _)) by done.
  - apply bool_decide_eq_true in Hc as ->.
    assert (Forall checkpointed_ts arr) as Hall.
    { apply Forall_lookup. intros r x Hx. apply (Hts r).
      - apply lookup_lt_Some in Hx. lia.
      - unfold del_stamp. cbn. by apply VectorFacts.pick_rows. }
    rewrite !ku_assert_true by (done || by apply checkpointed_versions).
    rewrite VectorFacts.invalid_eqb_refl. eexists. split; [done|]. intros rest.
    rewrite <-!app_assoc, deserialize_serialize by done. cbn [mbind outcome_bind]. run_eq Hdec.
    rewrite ku_assert_true by done. cbn [mbind outcome_bind]. rewrite deserialize_serialize by (cbn; lia).
    cbn [mbind outcome_bind VectorVersionInfo.deletion_status_of_byte VectorVersionInfo.deletion_status_byte].
    rewrite deserialize_serialize by (apply checkpointed_u64; by right). cbn [mbind outcome_bind].
    rewrite VectorFacts.invalid_eqb_refl.
    rewrite deserialize_serialize by (split; [done|eapply Forall_impl, checkpointed_u64; done]).
    cbn [mbind outcome_bind]. by rewrite ku_assert_true by by apply checkpointed_versions.
Qed.

Lemma hasInsertions_false vi k v :
  VersionInfo.hasInsertions vi = false -> VersionInfo.getVectorVersionInfo vi k = Some v ->
  VectorVersionInfo.insertionStatus v <> VectorVersionInfo.CHECK_VERSION.
Proof.
  unfold VersionInfo.getVectorVersionInfo, VersionInfo.hasInsertions. intros Hno Hv E.
  destruct (vi !! k) as [o|] eqn:Hk; [|done]. destruct o as [w|]; [|done]. injection Hv as ->.
  assert (existsb (fun v => match v with
      | Some v => bool_decide (VectorVersionInfo.insertionStatus v = VectorVersionInfo.CHECK_VERSION)
      | None => false end) vi = true) as Hyes; [|congruence].
  apply existsb_exists. exists (Some v). split; [|by apply bool_decide_eq_true].
  apply list_elem_of_In, list_elem_of_lookup. by exists k.
Qed.

(** C21. Checkpoint round trip: version information without insertions left to
    check ([hasInsertions]) and without uncommitted deletions is written without a failing assertion, and reading the bytes back, whatever
    follows them, gives the same version information: presence of every vector,
    statuses and deletion versions included. *)
Theorem serialize_roundtrip vi :
  wf vi -> (Z.of_nat (length vi) < 2 ^ 64)%Z -> VersionInfo.hasInsertions vi = false ->
  (forall k v, VersionInfo.getVectorVersionInfo vi k = Some v -> checkpointable v) ->
  exists bs, VersionInfo.serialize vi = Ret bs /\
    forall rest, VersionInfo.deserialize (bs ++ rest) = Ret (vi, rest).
Proof.
  intros Hwf Hlen Hno Hck. pose proof (fun k v => hasInsertions_false vi k v Hno) as Hst. clear Hno.
  assert (exists bs, VersionInfo.serializeVectors vi = Ret bs /\
    forall rest, VersionInfo.deserializeVectors (length vi) (bs ++ rest) = Ret (vi, rest))
    as (bs & Hser & Hdes).
  { clear Hlen. induction vi as [|o vi IH]; [by exists []|].
    destruct IH as (bs & Hs & Hd);
      [intros k v; apply (Hwf (S k))|intros k v; apply (Hck (S k))|intros k v; apply (Hst (S k))|].
    cbn [VersionInfo.serializeVectors VersionInfo.deserializeVectors length]. destruct o as [v|].
    - destruct (vector_roundtrip v) as (hd & Hhs & Hhd); [by apply (Hwf 0)|by apply (Hst 0)|by apply (Hck 0)|].
      rewrite Hhs. cbn [mbind outcome_bind mret outcome_ret]. rewrite Hs. eexists. split; [done|].
      intros rest. rewrite <-!app_assoc, deserialize_serialize by done.
      cbn [mbind outcome_bind mret outcome_ret]. rewrite Hhd.
      cbn [mbind outcome_bind mret outcome_ret]. by rewrite Hd.
    - cbn [mbind outcome_bind mret outcome_ret]. rewrite Hs. eexists. split; [done|].
      intros rest. rewrite <-!app_assoc, deserialize_serialize by done.
      cbn [mbind outcome_bind mret outcome_ret]. by rewrite Hd. }
  unfold VersionInfo.serialize, VersionInfo.deserialize. rewrite Hser. eexists. split; [done|].
  intros rest. rewrite <-app_assoc, deserialize_serialize by (cbn; lia).
  cbn [mbind outcome_bind]. by rewrite Nat2Z.id.
Qed.

(** A checkpointed vector whose rows were all deleted at timestamp 5, one without
    version information, and one with row 3 deleted. *)
Definition example_checkpointed : VersionInfo.t :=
  [Some (VectorVersionInfo.mk None None INVALID_TRANSACTION 5
           VectorVersionInfo.ALWAYS_INSERTED VectorVersionInfo.DEL_CHECK_VERSION);
   None;
   Some (VectorVersionInfo.mk None (Some (<[3 := 6%Z]> VectorVersionInfo.initVersionArray))
           INVALID_TRANSACTION INVALID_TRANSACTION
           VectorVersionInfo.ALWAYS_INSERTED VectorVersionInfo.DEL_CHECK_VERSION)].

Lemma example_checkpointed_ok k v :
  VersionInfo.getVectorVersionInfo example_checkpointed k = Some v ->
  VectorFacts.wf v /\ checkpointable v.
Proof.
  destruct k as [|[|[|k]]]; cbn; intros [= <-].
  - split; [by split; constructor|]. intros r ts Hr.
    unfold del_stamp. cbn. rewrite VectorFacts.pick_same by done. intros [= <-]. by left.
  - split; [split; constructor; by rewrite length_insert, VectorFacts.length_initVersionArray|].
    intros r ts Hr. unfold del_stamp. cbn -[insert]. rewrite VectorFacts.pick_rows_eq.
    intros [= <-]. destruct (decide (r = 3)) as [->|Hne].
    + rewrite list_lookup_insert_eq by (by rewrite VectorFacts.length_initVersionArray). by left.
    + rewrite list_lookup_insert_ne, VectorFacts.lookup_initVersionArray by done. by right.
Qed.

Lemma serialize_roundtrip_witness :
  exists bs, VersionInfo.serialize example_checkpointed = Ret bs /\
    forall rest, VersionInfo.deserialize (bs ++ rest) = Ret (example_checkpointed, rest).
Proof.
  apply serialize_roundtrip.
  - intros k v Hv. by apply (example_checkpointed_ok k v).
  - done.
  - done.
  - intros k v Hv. by apply (example_checkpointed_ok k v).
Defined.
