(* ===== verification/Transaction.v ===== *)
(** Transactions ([transaction/transaction.h], [transaction.cpp]): what the
    storage components read of them, and their life as
    [transaction/transaction_manager.cpp] runs it. *)
From S2P Require Import Prelude VersionInfo.

Module Transaction.
Inductive TransactionType := READ_ONLY | WRITE | CHECKPOINT | DUMMY | RECOVERY.
#[global] Instance TransactionType_eq_dec : EqDecision TransactionType.
Proof. solve_decision. Defined.

Definition DUMMY_TRANSACTION_ID : transaction_t := 0%Z.
Definition DUMMY_START_TIMESTAMP : transaction_t := 0%Z.

Record t := mk {
  type : TransactionType;
  ID : transaction_t;
  startTS : transaction_t;
  commitTS : transaction_t;
  forceCheckpoint : bool;
  hasCatalogChanges : bool;
}.

(** The two constructors: a transaction of the manager, and the static ones. *)
Definition make (type : TransactionType) (ID startTS : transaction_t) : t :=
  mk type ID startTS INVALID_TRANSACTION false false.
Definition DUMMY_TRANSACTION : t := make DUMMY DUMMY_TRANSACTION_ID DUMMY_START_TIMESTAMP.
Definition DUMMY_CHECKPOINT_TRANSACTION : t :=
  make CHECKPOINT DUMMY_TRANSACTION_ID (START_TRANSACTION_ID - 1).

Definition isWriteTransaction (x : t) : bool := bool_decide (type x = WRITE).
Definition isRecovery (x : t) : bool := bool_decide (type x = RECOVERY).
Definition shouldAppendToUndoBuffer (x : t) : bool := isWriteTransaction x || isRecovery x.
Definition shouldLogToWAL (isInMemory : bool) (x : t) : bool :=
  isWriteTransaction x && negb isInMemory.
Definition shouldForceCheckpoint (isInMemory : bool) (x : t) : bool :=
  negb isInMemory && forceCheckpoint x.
End Transaction.
