(* ===== verification/UpdateInfo.v ===== *)
(** Updated values of a column chunk ([storage/table/update_info.cpp],
    [update_info.h], and the two undo actions on them of
    [storage/undo_buffer.cpp]): per vector a chain of versions, newest first.
    The chain is made of heap objects linked by an owning pointer to the older
    version ([prev]) and a raw one to the newer ([next]); objects are destroyed
    when their owner lets go of them, and following a pointer to a destroyed
    object is undefined. *)
From stdpp Require Export gmap.
From S2P Require Import Prelude SelVector VersionInfo Transaction.

Definition ww_conflict_update : exn :=
  RuntimeException "Write-write conflict of updating the same row.".

Abbreviation pointer := nat (only parsing).

Module VectorUpdateInfo.
(** [rowsInVector] and [data] keep their first [numRowsUpdated] entries. *)
Record t (V : Type) := mk {
  version : transaction_t;
  rowsInVector : list nat;
  data : list V;
  prev : option pointer;
  next : option pointer;
}.
Arguments mk {V}. Arguments version {V}. Arguments rowsInVector {V}.
Arguments data {V}. Arguments prev {V}. Arguments next {V}.

Definition init {V} (transactionID : transaction_t) : t V := mk transactionID [] [] None None.

Definition numRowsUpdated {V} (info : t V) : nat := length (rowsInVector info).

(** The index of the first entry for a row, if there is one. *)
Fixpoint find_row (rows : list nat) (row : nat) : option nat :=
  match rows with
  | [] => None
  | r :: rows => if r =? row then Some 0 else S <$> find_row rows row
  end.

Definition setVersion {V} (v : transaction_t) (info : t V) : t V :=
  mk v (rowsInVector info) (data info) (prev info) (next info).
Definition setPrev {V} (p : option pointer) (info : t V) : t V :=
  mk (version info) (rowsInVector info) (data info) p (next info).
Definition setNext {V} (p : option pointer) (info : t V) : t V :=
  mk (version info) (rowsInVector info) (data info) (prev info) p.
Definition setRows {V} (rows : list nat) (vs : list V) (info : t V) : t V :=
  mk (version info) rows vs (prev info) (next info).
End VectorUpdateInfo.

Module UpdateInfo.
Import VectorUpdateInfo.
(** [vectorsInfo]: the owning pointers to the newest versions. [heap] holds the
    live objects; [fresh_pointer] was never handed out. *)
Record t (V : Type) := mk_store {
  vectorsInfo : list (option pointer);
  heap : gmap pointer (VectorUpdateInfo.t V);
  fresh_pointer : pointer;
}.
Arguments mk_store {V}. Arguments vectorsInfo {V}. Arguments heap {V}.
Arguments fresh_pointer {V}.

Section operations.
Context {V : Type}.
Implicit Types (s : t V) (p : pointer).

Definition init : t V := mk_store [] ∅ 0.

Definition deref s p : outcome (VectorUpdateInfo.t V) :=
  match heap s !! p with Some info => Ret info | None => Undef end.
Definition assign s p (info : VectorUpdateInfo.t V) : t V :=
  mk_store (vectorsInfo s) (<[p := info]> (heap s)) (fresh_pointer s).
Definition allocate s (info : VectorUpdateInfo.t V) : t V * pointer :=
  (mk_store (vectorsInfo s) (<[fresh_pointer s := info]> (heap s)) (S (fresh_pointer s)),
   fresh_pointer s).
Definition destroy s p : t V :=
  mk_store (vectorsInfo s) (delete p (heap s)) (fresh_pointer s).

Definition head s (vectorIdx : nat) : option pointer :=
  match vectorsInfo s !! vectorIdx with Some (Some p) => Some p | _ => None end.
Definition setHead s (vectorIdx : nat) (p : option pointer) : outcome (t V) :=
  infos ← store (vectorsInfo s) vectorIdx p;
  mret (mk_store infos (heap s) (fresh_pointer s)).

(** [vectorsInfo.resize(n)], only called to grow. *)
Definition resize s (n : nat) : t V :=
  mk_store (vectorsInfo s ++ replicate (n - length (vectorsInfo s)) None) (heap s) (fresh_pointer s).

(** The loop [while (current) { ... current = current->next; }] of
    [getOrCreateVectorInfo]. No chain is longer than the number of objects
    ever made, which bounds the fuel. *)
Fixpoint find_own s (fuel : nat) (txn : Transaction.t) (rowIdxInVector : nat)
    (current : option pointer) (info : option pointer) : outcome (option pointer) :=
  match current with
  | None => mret info
  | Some p =>
      match fuel with
      | O => Undef
      | S fuel =>
          cur ← deref s p;
          info ←
            if (version cur =? Transaction.ID txn)%Z
            then _ ← ku_assert (START_TRANSACTION_ID <=? version cur)%Z; mret (Some p)
            else if (Transaction.startTS txn <? version cur)%Z
                    && bool_decide (rowIdxInVector ∈ rowsInVector cur)
            then Throw ww_conflict_update
            else mret info;
          find_own s fuel txn rowIdxInVector (next cur) info
      end
  end.

Definition getOrCreateVectorInfo s (txn : Transaction.t) (vectorIdx rowIdxInVector : nat)
  : outcome (t V * pointer) :=
  let s := if length (vectorsInfo s) <=? vectorIdx then resize s (S vectorIdx) else s in
  match head s vectorIdx with
  | None =>
      let '(s, p) := allocate s (VectorUpdateInfo.init (Transaction.ID txn)) in
      s ← setHead s vectorIdx (Some p);
      mret (s, p)
  | Some h =>
      info ← find_own s (S (fresh_pointer s)) txn rowIdxInVector (Some h) None;
      match info with
      | Some p => mret (s, p)
      | None =>
          let '(s, p) := allocate s (VectorUpdateInfo.init (Transaction.ID txn)) in
          old ← deref s h;
          let s := assign s h (setNext (Some p) old) in
          newInfo ← deref s p;
          let s := assign s p (setPrev (Some h) newInfo) in
          s ← setHead s vectorIdx (Some p);
          info ← deref s p;
          older ← deref s h;
          mret (assign s p (setRows (rowsInVector older) (VectorUpdateInfo.data older) info), p)
      end
  end.

(** [update]: the value goes over the row's entry, or becomes a new entry;
    the arrays have room for [DEFAULT_VECTOR_CAPACITY] entries. *)
Definition update s (txn : Transaction.t) (vectorIdx rowIdxInVector : nat) (value : V)
  : outcome (t V * pointer) :=
  '(s, p) ← getOrCreateVectorInfo s txn vectorIdx rowIdxInVector;
  info ← deref s p;
  match find_row (rowsInVector info) rowIdxInVector with
  | Some i =>
      vs ← store (VectorUpdateInfo.data info) i value;
      mret (assign s p (setRows (rowsInVector info) vs info), p)
  | None =>
      _ ← (if decide (numRowsUpdated info < CAP) then Ret tt else Undef);
      mret (assign s p (setRows (rowsInVector info ++ [rowIdxInVector])
                          (VectorUpdateInfo.data info ++ [value]) info), p)
  end.

(** The loop of [getVectorInfo] along [prev]. *)
Fixpoint find_version s (fuel : nat) (txn : Transaction.t) (current : option pointer)
  : outcome (option pointer) :=
  match current with
  | None => mret None
  | Some p =>
      match fuel with
      | O => Undef
      | S fuel =>
          cur ← deref s p;
          if (version cur =? Transaction.ID txn)%Z
          then _ ← ku_assert (START_TRANSACTION_ID <=? version cur)%Z; mret (Some p)
          else if (version cur <=? Transaction.startTS txn)%Z
          then _ ← ku_assert (version cur <? START_TRANSACTION_ID)%Z; mret (Some p)
          else find_version s fuel txn (prev cur)
      end
  end.

Definition getVectorInfo s (txn : Transaction.t) (idx : nat) : outcome (option pointer) :=
  find_version s (S (fresh_pointer s)) txn (head s idx).

(** The rows and values of the version a transaction reads. *)
Definition getVersion s (txn : Transaction.t) (idx : nat)
  : outcome (option (VectorUpdateInfo.t V)) :=
  p ← getVectorInfo s txn idx;
  match p with
  | None => mret None
  | Some p => info ← deref s p; mret (Some info)
  end.

Definition getNumUpdatedRows s (txn : Transaction.t) : outcome nat :=
  for_range 0 (length (vectorsInfo s)) (fun i numUpdatedRows =>
    info ← getVersion s txn i;
    mret (match info with
          | Some info => numUpdatedRows + numRowsUpdated info
          | None => numUpdatedRows
          end)) 0.

(** [hasUpdates]: a found row ends both loops. *)
Definition hasUpdates s (txn : Transaction.t) (startRow numRows : nat) : outcome bool :=
  let startVector := startRow / CAP in
  let rowInStartVector := startRow mod CAP in
  let endVectorIdx := (startRow + numRows) / CAP in
  let rowInEndVector := (startRow + numRows) mod CAP in
  for_range startVector (S endVectorIdx - startVector) (fun vectorIdx found =>
    if found : bool then mret true
    else
      info ← getVersion s txn vectorIdx;
      match info with
      | None => mret false
      | Some info =>
          let startRowInVector := if vectorIdx =? startVector then rowInStartVector else 0 in
          let endRowInVector := if vectorIdx =? endVectorIdx then rowInEndVector else CAP in
          mret (existsb (fun row => bool_decide (row ∈ rowsInVector info))
                  (seq startRowInVector (S endRowInVector - startRowInVector)))
      end) false.

(** *** Undo actions *)

(** [UndoBuffer::commitVectorUpdateInfo]. *)
Definition commitVectorUpdateInfo s (p : pointer) (commitTS : transaction_t) : outcome (t V) :=
  info ← deref s p;
  mret (assign s p (setVersion commitTS info)).

(** [UndoBuffer::rollbackVectorUpdateInfo]: the version leaves the chain, and
    the object is destroyed by the assignment to the pointer that owns it. *)
Definition rollbackVectorUpdateInfo s (txn : Transaction.t) (vectorIdx : nat) (p : pointer)
  : outcome (t V) :=
  current ← getVectorInfo s txn vectorIdx;
  if bool_decide (current = Some p) then
    info ← deref s p;
    match next info with
    | Some newer =>
        match prev info with
        | None => Undef
        | Some older =>
            old ← deref s older;
            let s := assign s older (setNext (Some newer) old) in
            new ← deref s newer;
            mret (destroy (assign s newer (setPrev (Some older) new)) p)
        end
    | None =>
        s ← setHead s vectorIdx (prev info);
        mret (destroy s p)
    end
  else mret s.
End operations.
#[global] Arguments getVersion : simpl never.
#[global] Arguments getVectorInfo : simpl never.
End UpdateInfo.
