(* ===== verification/UpdateInfoFacts.v ===== *)
(** Facts on [UpdateInfo.v]: the version chain of a vector as a list of
    contents, newest first, and what each operation does to it. *)
From S2P Require Import Prelude SelVector VersionInfo Transaction UpdateInfo.

Module UpdateFacts.
Import VectorUpdateInfo UpdateInfo.

(** A transaction as the manager makes them. *)
Definition proper_txn (txn : Transaction.t) : Prop :=
  (0 <= Transaction.startTS txn < START_TRANSACTION_ID)%Z /\
  (START_TRANSACTION_ID <= Transaction.ID txn)%Z.

Definition reads (txn : Transaction.t) (v : transaction_t) : bool :=
  (v =? Transaction.ID txn)%Z || (v <=? Transaction.startTS txn)%Z.

Section facts.
Context {V : Type}.
Implicit Types (s : t V) (p q : pointer) (info : VectorUpdateInfo.t V).

(** What a version says, without the links. *)
Definition content : Type := transaction_t * list nat * list V.
Definition content_of info : content := (version info, rowsInVector info, data info).
Definition c_version (c : content) : transaction_t := c.1.1.
Definition c_rows (c : content) : list nat := c.1.2.
Definition c_data (c : content) : list V := c.2.

Definition value_at (c : content) (row : nat) : option V :=
  find_row (c_rows c) row ≫= fun i => c_data c !! i.

(** The objects reached along [prev], with their contents. *)
Inductive chain (h : gmap pointer (VectorUpdateInfo.t V)) : option pointer -> list (pointer * content) -> Prop :=
| chain_nil : chain h None []
| chain_cons p info l :
    h !! p = Some info -> chain h (prev info) l -> chain h (Some p) ((p, content_of info) :: l).

Definition content_ok (c : content) : Prop :=
  length (c_data c) = length (c_rows c) /\ NoDup (c_rows c) /\ Forall (fun r => r < CAP) (c_rows c).

(** The chains of the vectors: [ch idx] is the chain of vector [idx]. *)
Record wf s (ch : nat -> list (pointer * content)) : Prop := {
  wf_chain idx : chain (heap s) (head s idx) (ch idx);
  wf_nodup idx : NoDup (ch idx).*1;
  wf_disjoint idx idx' p : p ∈ (ch idx).*1 -> p ∈ (ch idx').*1 -> idx = idx';
  wf_fresh p info : heap s !! p = Some info -> p < fresh_pointer s;
  wf_content idx : Forall (fun pc => content_ok pc.2) (ch idx);
}.

(** The newest version of every vector has no newer one. *)
Definition linked s : Prop :=
  forall idx p info, head s idx = Some p -> heap s !! p = Some info -> next info = None.

Lemma chain_det h o l1 l2 : chain h o l1 -> chain h o l2 -> l1 = l2.
Proof.
  intros H. revert l2. induction H as [|p info l Hp _ IH]; intros l2 H2; inversion H2; simplify_eq; [done|].
  f_equal. by apply IH.
Qed.

Lemma chain_lookup h o l q c :
  chain h o l -> (q, c) ∈ l -> exists info, h !! q = Some info /\ content_of info = c.
Proof.
  induction 1 as [|p info l Hp _ IH]; intros Hin; [by apply not_elem_of_nil in Hin|].
  apply elem_of_cons in Hin as [[= -> ->]|Hin]; eauto.
Qed.

(** A chain looks at the contents and the [prev] links of its objects only. *)
Lemma chain_frame h h' o l :
  chain h o l ->
  (forall q info, q ∈ l.*1 -> h !! q = Some info ->
     exists info', h' !! q = Some info' /\ content_of info' = content_of info /\ prev info' = prev info) ->
  chain h' o l.
Proof.
  induction 1 as [|p info l Hp _ IH]; intros Hf; [constructor|].
  destruct (Hf p info) as (info' & Hp' & Hc & Hprev); [by left|done|].
  rewrite <-Hc. constructor; [done|]. rewrite Hprev. apply IH. intros q i Hq. apply Hf. by right.
Qed.

Lemma chain_length s ch idx : wf s ch -> length (ch idx) <= fresh_pointer s.
Proof.
  intros Hwf. pose proof (wf_nodup _ _ Hwf idx) as Hnd.
  rewrite <-(length_fmap fst).
  replace (fresh_pointer s) with (length (seq 0 (fresh_pointer s))) by apply length_seq.
  apply submseteq_length, NoDup_submseteq; [done|]. intros p Hp. apply elem_of_seq.
  apply list_elem_of_fmap in Hp as ([q c] & -> & Hin).
  destruct (chain_lookup _ _ _ _ _ (wf_chain _ _ Hwf idx) Hin) as (info & Hq & _).
  apply (wf_fresh _ _ Hwf) in Hq. cbn. lia.
Qed.

(** *** Reading *)

Definition read_content (txn : Transaction.t) (l : list (pointer * content)) : option (pointer * content) :=
  List.find (fun pc => reads txn (c_version pc.2)) l.

Lemma find_version_spec s fuel txn o l :
  proper_txn txn -> chain (heap s) o l -> length l < fuel ->
  find_version s fuel txn o = Ret (fst <$> read_content txn l).
Proof.
  intros Ht Hc. revert fuel. induction Hc as [|p info l Hp _ IH]; intros fuel Hf.
  - by destruct fuel.
  - destruct fuel as [|fuel]; [lia|]. cbn [find_version]. unfold deref. rewrite Hp.
    cbn [mbind outcome_bind]. cbn [read_content List.find]. unfold reads, c_version. cbn.
    unfold proper_txn in Ht.
    destruct (Z.eqb_spec (version info) (Transaction.ID txn)) as [E|E]; cbn [orb].
    + rewrite ku_assert_true by (apply Z.leb_le; lia). done.
    + destruct (Z.leb_spec (version info) (Transaction.startTS txn)).
      * rewrite ku_assert_true by (apply Z.ltb_lt; lia). done.
      * rewrite IH by (cbn in Hf; lia). done.
Qed.

Lemma getVectorInfo_spec s ch txn idx :
  wf s ch -> proper_txn txn -> getVectorInfo s txn idx = Ret (fst <$> read_content txn (ch idx)).
Proof.
  intros Hwf Ht. apply find_version_spec; [done|apply Hwf|].
  pose proof (chain_length s ch idx Hwf). lia.
Qed.

Lemma read_content_in txn l pc : read_content txn l = Some pc -> pc ∈ l /\ reads txn (c_version pc.2) = true.
Proof. intros H. apply find_some in H as [Hin Hr]. by rewrite list_elem_of_In. Qed.

(** The version a transaction reads, up to its links. *)
Lemma getVersion_spec s ch txn idx :
  wf s ch -> proper_txn txn ->
  exists res, getVersion s txn idx = Ret res /\
    content_of <$> res = snd <$> read_content txn (ch idx).
Proof.
  intros Hwf Ht. unfold getVersion. rewrite (getVectorInfo_spec s ch) by done. cbn [mbind outcome_bind].
  destruct (read_content txn (ch idx)) as [[p c]|] eqn:E; cbn; [|by exists None].
  destruct (read_content_in _ _ _ E) as [Hin _].
  destruct (chain_lookup _ _ _ _ _ (wf_chain _ _ Hwf idx) Hin) as (info & Hp & Hc).
  unfold deref. rewrite Hp. exists (Some info). cbn. by rewrite Hc.
Qed.

(** The value a transaction reads from the versions, if they have the row. *)
Definition updated (txn : Transaction.t) (ch : nat -> list (pointer * content)) (idx row : nat)
  : option V :=
  read_content txn (ch idx) ≫= fun pc => value_at pc.2 row.

(** *** Updating *)

Lemma find_row_Some rows row i : find_row rows row = Some i -> rows !! i = Some row.
Proof.
  revert i. induction rows as [|r rows IH]; intros i; cbn; [done|].
  destruct (Nat.eqb_spec r row) as [->|]; [by intros [= <-]|].
  intros (j & Hj & ->)%fmap_Some. cbn. by apply IH.
Qed.

Lemma find_row_None rows row : find_row rows row = None <-> row ∉ rows.
Proof.
  induction rows as [|r rows IH]; cbn; [split; [intros _; apply not_elem_of_nil|done]|].
  rewrite not_elem_of_cons, <-IH. destruct (Nat.eqb_spec r row) as [->|].
  - split; [done|]. by intros [? _].
  - destruct (find_row rows row); cbn; [split; [done|by intros [_ ?]]|].
    split; [intros _; split; congruence|done].
Qed.

Lemma find_row_nodup rows row i : NoDup rows -> rows !! i = Some row -> find_row rows row = Some i.
Proof.
  intros Hnd Hi. destruct (find_row rows row) as [j|] eqn:E.
  - apply find_row_Some in E. f_equal. by eapply NoDup_lookup.
  - apply find_row_None in E. destruct E. apply list_elem_of_lookup. eauto.
Qed.

(** Writing a row's value into a version. *)
Definition write_content (c : content) (row : nat) (v : V) : content :=
  match find_row (c_rows c) row with
  | Some i => (c_version c, c_rows c, <[i := v]> (c_data c))
  | None => (c_version c, c_rows c ++ [row], c_data c ++ [v])
  end.

Lemma find_row_app rows row row' :
  find_row (rows ++ [row]) row' =
    match find_row rows row' with
    | Some i => Some i
    | None => if row =? row' then Some (length rows) else None
    end.
Proof.
  induction rows as [|r rows IH]; cbn; [done|].
  destruct (r =? row'); [done|]. rewrite IH. destruct (find_row rows row'); [done|].
  by destruct (row =? row').
Qed.

Lemma write_content_value c row v row' :
  content_ok c ->
  value_at (write_content c row v) row' = if decide (row' = row) then Some v else value_at c row'.
Proof.
  intros (Hlen & Hnd & _). unfold value_at, write_content.
  destruct (find_row (c_rows c) row) as [i|] eqn:E; cbn.
  - destruct (decide (row' = row)) as [->|Hne].
    + rewrite E. cbn. apply list_lookup_insert_eq.
      apply find_row_Some, lookup_lt_Some in E. lia.
    + destruct (find_row (c_rows c) row') as [j|] eqn:E'; [|done]. cbn.
      apply list_lookup_insert_ne. intros ->.
      apply find_row_Some in E, E'. congruence.
  - rewrite find_row_app. destruct (decide (row' = row)) as [->|Hne].
    + rewrite E, Nat.eqb_refl. cbn. by rewrite lookup_app_r, Hlen, Nat.sub_diag by lia.
    + rewrite (proj2 (Nat.eqb_neq row row')) by done.
      destruct (find_row (c_rows c) row') as [j|] eqn:E'; [|done]. cbn.
      apply find_row_Some, lookup_lt_Some in E'. apply lookup_app_l. lia.
Qed.

Lemma write_content_ok c row v : content_ok c -> row < CAP -> content_ok (write_content c row v).
Proof.
  intros (Hlen & Hnd & Hall) Hrow. unfold write_content.
  destruct (find_row (c_rows c) row) eqn:E; split_and!; cbn; try done.
  - by rewrite length_insert.
  - rewrite !length_app. cbn. lia.
  - apply NoDup_app. split_and!; [done| |apply NoDup_singleton].
    intros x Hx ->%list_elem_of_singleton. by apply find_row_None in E.
  - apply Forall_app. by split; [|apply Forall_singleton].
Qed.

(** Distinct rows of a vector leave room for a missing one. *)
Lemma rows_room rows row :
  NoDup rows -> Forall (fun r => r < CAP) rows -> row < CAP -> row ∉ rows -> length rows < CAP.
Proof.
  intros Hnd Hall Hrow Hnot.
  assert (length (row :: rows) <= length (seq 0 CAP)) as Hle.
  { apply submseteq_length, NoDup_submseteq; [by constructor|].
    intros x [->|Hx]%elem_of_cons; apply elem_of_seq; [lia|].
    rewrite Forall_forall in Hall. specialize (Hall x Hx). lia. }
  rewrite length_seq in Hle. cbn in Hle. lia.
Qed.

Definition upd (ch : nat -> list (pointer * content)) (idx : nat) (l : list (pointer * content))
  : nat -> list (pointer * content) := fun j => if decide (j = idx) then l else ch j.

Lemma upd_eq ch idx l : upd ch idx l idx = l.
Proof. unfold upd. by rewrite decide_True. Qed.
Lemma upd_ne ch idx l j : j <> idx -> upd ch idx l j = ch j.
Proof. intros. unfold upd. by rewrite decide_False. Qed.

(** A step that changes the objects of one vector and makes new ones. *)
Lemma wf_upd s ch s' idx l' :
  wf s ch ->
  (forall j, j <> idx -> head s' j = head s j) ->
  chain (heap s') (head s' idx) l' -> NoDup l'.*1 -> Forall (fun pc => content_ok pc.2) l' ->
  (forall q info, heap s !! q = Some info -> q ∉ (ch idx).*1 -> heap s' !! q = Some info) ->
  (forall q, q ∈ l'.*1 -> q ∈ (ch idx).*1 \/ heap s !! q = None) ->
  (forall q info, heap s' !! q = Some info -> q < fresh_pointer s') ->
  wf s' (upd ch idx l').
Proof.
  intros Hwf Hhead Hchain Hnd Hok Hframe Hnew Hfresh.
  assert (Hdisj : forall j q, j <> idx -> q ∈ (ch j).*1 -> q ∉ (ch idx).*1)
    by (intros j q Hj Hq Hq'; by apply Hj, (wf_disjoint _ _ Hwf j idx q)).
  assert (Hnewdisj : forall j q, j <> idx -> q ∈ l'.*1 -> q ∉ (ch j).*1).
  { intros j q Hj Hq Hqj. destruct (Hnew q Hq) as [Hq'|Hq']; [by apply (Hdisj j q)|].
    apply list_elem_of_fmap in Hqj as ([q' c] & -> & Hin).
    destruct (chain_lookup _ _ _ _ _ (wf_chain _ _ Hwf j) Hin) as (info & Hi & _). cbn in Hq'. congruence. }
  split.
  - intros j. destruct (decide (j = idx)) as [->|Hj]; [by rewrite upd_eq|].
    rewrite upd_ne, Hhead by done. apply (chain_frame (heap s)); [apply Hwf|].
    intros q info Hq Hi. exists info. split; [|done]. apply Hframe; [done|by apply (Hdisj j)].
  - intros j. destruct (decide (j = idx)) as [->|Hj]; [by rewrite upd_eq|].
    rewrite upd_ne by done. apply Hwf.
  - intros j j' q. destruct (decide (j = idx)) as [->|Hj], (decide (j' = idx)) as [->|Hj'];
      rewrite ?upd_eq, ?upd_ne by done; try done.
    + intros H1 H2. by destruct (Hnewdisj j' q).
    + intros H1 H2. by destruct (Hnewdisj j q).
    + apply Hwf.
  - done.
  - intros j. destruct (decide (j = idx)) as [->|Hj]; [by rewrite upd_eq|].
    rewrite upd_ne by done. apply Hwf.
Qed.

Lemma head_resize s n j : head (resize s n) j = head s j.
Proof.
  unfold head, resize. cbn. destruct (decide (j < length (vectorsInfo s))).
  - by rewrite lookup_app_l.
  - rewrite lookup_app_r, (lookup_ge_None_2 (vectorsInfo s)) by lia.
    destruct (_ !! _) as [[q|]|] eqn:E; [|done..]. by apply lookup_replicate_1 in E as [? _].
Qed.

Lemma wf_resize s ch n : wf s ch -> wf (resize s n) ch.
Proof.
  intros Hwf. split; try apply Hwf. intros j. rewrite head_resize. apply Hwf.
Qed.

(** The store with room for vector [idx]. *)
Definition grown s (idx : nat) : t V :=
  if length (vectorsInfo s) <=? idx then resize s (S idx) else s.

Lemma grown_spec s ch idx :
  wf s ch -> linked s ->
  wf (grown s idx) ch /\ linked (grown s idx) /\ idx < length (vectorsInfo (grown s idx)).
Proof.
  intros Hwf Hl. unfold grown. destruct (Nat.leb_spec (length (vectorsInfo s)) idx); [|done].
  split_and!; [by apply wf_resize| |].
  - intros j p info. rewrite head_resize. apply Hl.
  - cbn. rewrite length_app, length_replicate. lia.
Qed.

Lemma setHead_spec s idx o :
  idx < length (vectorsInfo s) ->
  exists s', setHead s idx o = Ret s' /\ heap s' = heap s /\ fresh_pointer s' = fresh_pointer s /\
    length (vectorsInfo s') = length (vectorsInfo s) /\
    head s' idx = o /\ forall j, j <> idx -> head s' j = head s j.
Proof.
  intros Hi. unfold setHead. rewrite store_Ret by done. eexists. split; [done|].
  unfold head. cbn. split_and!; [done|done|by rewrite length_insert| |].
  - rewrite list_lookup_insert_eq by done. by destruct o.
  - intros j Hj. by rewrite list_lookup_insert_ne.
Qed.

Lemma wf_ext s ch ch' : (forall j, ch j = ch' j) -> wf s ch -> wf s ch'.
Proof.
  intros E Hwf. split.
  - intros j. rewrite <-E. apply Hwf.
  - intros j. rewrite <-E. apply Hwf.
  - intros j j' q. rewrite <-!E. apply Hwf.
  - apply (wf_fresh _ _ Hwf).
  - intros j. rewrite <-E. apply Hwf.
Qed.

Lemma linked_head s ch idx p c l :
  wf s ch -> linked s -> ch idx = (p, c) :: l ->
  head s idx = Some p /\ exists info, heap s !! p = Some info /\ content_of info = c /\ next info = None /\
    chain (heap s) (prev info) l.
Proof.
  intros Hwf Hl E. pose proof (wf_chain _ _ Hwf idx) as Hc. rewrite E in Hc.
  inversion Hc as [|? info ? Hp Hc' Hh]; subst. split; [done|]. exists info.
  split_and!; [done|done| |done]. by apply (Hl idx p).
Qed.

(** The first object of a chain is in no other chain and not further on. *)
Lemma head_fresh s ch idx p c l q :
  wf s ch -> ch idx = (p, c) :: l -> q ∈ l.*1 -> q <> p.
Proof.
  intros Hwf E Hq ->. pose proof (wf_nodup _ _ Hwf idx) as Hnd. rewrite E in Hnd.
  apply NoDup_cons in Hnd as [? _]. done.
Qed.

Lemma other_head s ch idx p c l j q :
  wf s ch -> ch idx = (p, c) :: l -> j <> idx -> head s j = Some q -> q <> p.
Proof.
  intros Hwf E Hj Hq ->. apply Hj, (wf_disjoint _ _ Hwf j idx p).
  - pose proof (wf_chain _ _ Hwf j) as Hc. rewrite Hq in Hc. inversion Hc; subst. by left.
  - rewrite E. by left.
Qed.

(** Writing into the newest version. *)
Lemma assign_head s ch idx p c l info info' :
  wf s ch -> linked s -> ch idx = (p, c) :: l -> heap s !! p = Some info ->
  prev info' = prev info -> next info' = next info -> content_ok (content_of info') ->
  wf (assign s p info') (upd ch idx ((p, content_of info') :: l)) /\ linked (assign s p info').
Proof.
  intros Hwf Hl E Hp Hprev Hnext Hok. destruct (linked_head _ _ _ _ _ _ Hwf Hl E) as
    (Hh & info0 & Hp0 & _ & Hn & Hc). simplify_eq. split.
  - apply (wf_upd s); [done|done| | | | | |]; cbn.
    + change (head (assign s p info') idx) with (head s idx). rewrite Hh. constructor.
      { apply lookup_insert_eq. }
      rewrite Hprev. apply (chain_frame (heap s)); [done|]. intros q i Hq Hi. exists i.
      split; [|done]. rewrite lookup_insert_ne; [done|]. symmetry. by eapply head_fresh.
    + pose proof (wf_nodup _ _ Hwf idx) as Hnd. by rewrite E in Hnd.
    + constructor; [done|]. pose proof (wf_content _ _ Hwf idx) as Hall. rewrite E in Hall.
      by apply Forall_cons in Hall as [_ ?].
    + intros q i Hi Hq. rewrite lookup_insert_ne; [done|]. intros ->. apply Hq. rewrite E. by left.
    + intros q Hq. left. by rewrite E.
    + intros q i. destruct (decide (q = p)) as [->|].
      * intros _. by eapply wf_fresh.
      * rewrite lookup_insert_ne by done. by apply wf_fresh with (ch := ch).
  - intros j q i Hj Hq. change (head (assign s p info') j) with (head s j) in Hj. cbn in Hq.
    destruct (decide (q = p)) as [->|].
    + rewrite lookup_insert_eq in Hq. injection Hq as <-. by rewrite Hnext.
    + rewrite lookup_insert_ne in Hq by done. by eapply Hl.
Qed.

Lemma fresh_not_in s ch : wf s ch -> heap s !! fresh_pointer s = None.
Proof.
  intros Hwf. destruct (heap s !! fresh_pointer s) as [i|] eqn:E; [|done].
  apply (wf_fresh _ _ Hwf) in E. lia.
Qed.

(** A new object on top of a chain. *)
Lemma push_head s ch idx info s' :
  wf s ch -> linked s -> idx < length (vectorsInfo s) ->
  content_ok (content_of info) -> next info = None -> prev info = head s idx ->
  fresh_pointer s' = S (fresh_pointer s) ->
  head s' idx = Some (fresh_pointer s) -> (forall j, j <> idx -> head s' j = head s j) ->
  heap s' !! fresh_pointer s = Some info ->
  (forall q i, heap s !! q = Some i -> exists i', heap s' !! q = Some i' /\
     content_of i' = content_of i /\ prev i' = prev i /\ (head s idx <> Some q -> i' = i)) ->
  (forall q i, heap s' !! q = Some i -> q = fresh_pointer s \/ is_Some (heap s !! q)) ->
  wf s' (upd ch idx ((fresh_pointer s, content_of info) :: ch idx)) /\ linked s'.
Proof.
  intros Hwf Hl Hi Hok Hnext Hprev Hfr Hh Hho Hnew Hold Hall.
  pose proof (fresh_not_in s ch Hwf) as Hf.
  assert (Hin : forall j q, q ∈ (ch j).*1 -> is_Some (heap s !! q)).
  { intros j q Hq. apply list_elem_of_fmap in Hq as ([q' c] & -> & Hin).
    destruct (chain_lookup _ _ _ _ _ (wf_chain _ _ Hwf j) Hin) as (i & Hi' & _). by exists i. }
  split.
  - apply (wf_upd s); [done|done| | | | | |].
    + rewrite Hh. constructor; [done|]. rewrite Hprev. apply (chain_frame (heap s)); [apply Hwf|].
      intros q i _ Hq. destruct (Hold q i Hq) as (i' & ? & ? & ? & _). by exists i'.
    + cbn. apply NoDup_cons. split; [|apply Hwf]. intros [i Hq]%Hin. congruence.
    + constructor; [done|apply Hwf].
    + intros q i Hq Hnin. destruct (Hold q i Hq) as (i' & Hi' & _ & _ & Heq). rewrite Hi'. f_equal.
      apply Heq. intros Hhq. apply Hnin. pose proof (wf_chain _ _ Hwf idx) as Hc. rewrite Hhq in Hc.
      inversion Hc; subst. by left.
    + intros q [->|Hq]%elem_of_cons; [by right|by left].
    + intros q i [->|[i' Hq]]%Hall; rewrite Hfr; [lia|]. apply (wf_fresh _ _ Hwf) in Hq. lia.
  - intros j q i Hj Hq. destruct (decide (j = idx)) as [->|Hne]; [by simplify_eq|].
    rewrite Hho in Hj by done. destruct (Hall q i Hq) as [->|[i0 Hi0]].
    { pose proof (wf_chain _ _ Hwf j) as Hc. rewrite Hj in Hc. inversion Hc; subst. congruence. }
    destruct (Hold q i0 Hi0) as (i' & Hi' & _ & _ & Heq). simplify_eq.
    rewrite Heq; [by apply (Hl j q)|]. intros Hhq. apply Hne, (wf_disjoint _ _ Hwf j idx q).
    + pose proof (wf_chain _ _ Hwf j) as Hc. rewrite Hj in Hc. inversion Hc; subst. by left.
    + pose proof (wf_chain _ _ Hwf idx) as Hc. rewrite Hhq in Hc. inversion Hc; subst. by left.
Qed.

Lemma deref_Ret s p info : heap s !! p = Some info -> deref s p = Ret info.
Proof. unfold deref. by intros ->. Qed.

Definition conflicts (txn : Transaction.t) (c : content) (row : nat) : bool :=
  (Transaction.startTS txn <? c_version c)%Z && bool_decide (row ∈ c_rows c).

(** What [getOrCreateVectorInfo] answers, by the newest version only. *)
Definition created (txn : Transaction.t) (l : list (pointer * content)) : content :=
  match l with
  | [] => (Transaction.ID txn, [], [])
  | (_, c) :: _ => (Transaction.ID txn, c_rows c, c_data c)
  end.

Definition own_head (txn : Transaction.t) (l : list (pointer * content)) : bool :=
  match l with [] => false | (_, c) :: _ => (c_version c =? Transaction.ID txn)%Z end.
Definition head_conflict (txn : Transaction.t) (l : list (pointer * content)) (row : nat) : bool :=
  match l with [] => false | (_, c) :: _ => conflicts txn c row end.

Lemma created_ok s ch txn idx : wf s ch -> content_ok (created txn (ch idx)).
Proof.
  intros Hwf. unfold created. pose proof (wf_content _ _ Hwf idx) as Hok.
  destruct (ch idx) as [|[p c] l].
  - split_and!; [done|apply NoDup_nil_2|apply Forall_nil_2].
  - by apply Forall_cons in Hok as [? _].
Qed.

Lemma find_own_spec s ch txn idx p c l row fuel :
  wf s ch -> linked s -> proper_txn txn -> ch idx = (p, c) :: l ->
  find_own s (S fuel) txn row (Some p) None =
    if own_head txn (ch idx) then Ret (Some p)
    else if head_conflict txn (ch idx) row then Throw ww_conflict_update else Ret None.
Proof.
  intros Hwf Hl Ht E. destruct (linked_head _ _ _ _ _ _ Hwf Hl E) as (_ & info & Hp & Hc & Hn & _).
  cbn [find_own]. unfold deref. rewrite Hp. cbn [mbind outcome_bind]. rewrite E. cbn [own_head head_conflict].
  rewrite <-Hc. unfold conflicts. cbn. rewrite Hn.
  assert (forall r, find_own s fuel txn row None r = Ret r) as Hend by by destruct fuel.
  destruct (Z.eqb_spec (version info) (Transaction.ID txn)) as [Ev|_].
  - unfold proper_txn in Ht. rewrite ku_assert_true by (apply Z.leb_le; lia). cbn. by rewrite Hend.
  - destruct (_ && _); [done|]. cbn. by rewrite Hend.
Qed.

Lemma getOrCreateVectorInfo_spec s ch txn idx row :
  wf s ch -> linked s -> proper_txn txn ->
  if own_head txn (ch idx) then
    exists s' p, getOrCreateVectorInfo s txn idx row = Ret (s', p) /\ wf s' ch /\ linked s' /\
      fst <$> List.head (ch idx) = Some p
  else if head_conflict txn (ch idx) row then
    getOrCreateVectorInfo s txn idx row = Throw ww_conflict_update
  else
    exists s' p, getOrCreateVectorInfo s txn idx row = Ret (s', p) /\
      wf s' (upd ch idx ((p, created txn (ch idx)) :: ch idx)) /\ linked s'.
Proof.
  intros Hwf0 Hl0 Ht. destruct (grown_spec s ch idx Hwf0 Hl0) as (Hwf & Hl & Hi).
  unfold getOrCreateVectorInfo. fold (grown s idx). revert Hwf Hl Hi. generalize (grown s idx).
  clear s Hwf0 Hl0. intros s Hwf Hl Hi. cbv zeta.
  pose proof (fresh_not_in s ch Hwf) as Hf.
  destruct (ch idx) as [|[h c] l] eqn:E.
  - pose proof (wf_chain _ _ Hwf idx) as Hc. rewrite E in Hc. inversion Hc as [Hh|]. cbn.
    destruct (setHead_spec (mk_store (vectorsInfo s)
      (<[fresh_pointer s := VectorUpdateInfo.init (Transaction.ID txn)]> (heap s)) (S (fresh_pointer s)))
      idx (Some (fresh_pointer s))) as (s' & -> & Hheap & Hfr & _ & Hh' & Hho); [done|].
    exists s', (fresh_pointer s). split; [done|]. rewrite <-E.
    apply (push_head s ch idx (VectorUpdateInfo.init (Transaction.ID txn)) s');
      rewrite ?Hheap; try done.
    + pose proof (created_ok s ch txn idx Hwf) as Hok. by rewrite E in Hok.
    + cbn. apply lookup_insert_eq.
    + intros q i Hq. exists i. cbn. rewrite lookup_insert_ne by congruence. done.
    + intros q i. cbn. destruct (decide (q = fresh_pointer s)) as [->|]; [by left|].
      rewrite lookup_insert_ne by done. by right.
  - destruct (linked_head _ _ _ _ _ _ Hwf Hl E) as (Hh & old & Hp & Hc & Hn & _). rewrite Hh.
    rewrite (find_own_spec s ch txn idx h c l) by done. rewrite E.
    destruct (own_head txn ((h, c) :: l)) eqn:Hown; [by exists s, h|].
    destruct (head_conflict txn ((h, c) :: l) row); [done|].
    assert (h <> fresh_pointer s) as Hne by congruence. cbn [mbind outcome_bind allocate].
    rewrite (deref_Ret _ h old) by (cbn; by rewrite lookup_insert_ne).
    cbn [mbind outcome_bind].
    rewrite (deref_Ret _ (fresh_pointer s) (VectorUpdateInfo.init (Transaction.ID txn)))
      by (cbn; by rewrite lookup_insert_ne, lookup_insert_eq).
    cbn [mbind outcome_bind].
    match goal with |- context [setHead ?st _ _] =>
      destruct (setHead_spec st idx (Some (fresh_pointer s))) as (s' & -> & Hheap & Hfr & _ & Hh' & Hho) end;
      [done|]. cbn in Hheap. cbn [mbind outcome_bind].
    rewrite (deref_Ret s' (fresh_pointer s) (setPrev (Some h) (VectorUpdateInfo.init (Transaction.ID txn))))
      by (by rewrite Hheap, lookup_insert_eq).
    cbn [mbind outcome_bind].
    rewrite (deref_Ret s' h (setNext (Some (fresh_pointer s)) old))
      by (by rewrite Hheap, lookup_insert_ne, lookup_insert_eq).
    cbn [mbind outcome_bind mret outcome_ret].
    eexists _, _. split; [done|]. rewrite <-E.
    replace (created txn (ch idx)) with (content_of (setRows (rowsInVector old) (data old)
      (setPrev (Some h) (VectorUpdateInfo.init (Transaction.ID txn))))) by by rewrite E, <-Hc.
    cbn. apply (push_head s ch idx); cbn; rewrite ?Hheap, ?Hh; try done.
    + rewrite <-Hc in E. pose proof (created_ok s ch txn idx Hwf) as Hok. by rewrite E in Hok.
    + apply lookup_insert_eq.
    + intros q i Hq. rewrite !lookup_insert_ne by congruence.
      destruct (decide (q = h)) as [->|Hqh].
      * rewrite lookup_insert_eq. simplify_eq. eexists. split_and!; done.
      * rewrite lookup_insert_ne, lookup_insert_ne by congruence. by exists i.
    + intros q i. destruct (decide (q = fresh_pointer s)) as [->|]; [by left|].
      rewrite !(lookup_insert_ne _ (fresh_pointer s)) by done.
      destruct (decide (q = h)) as [->|]; [intros _; right; by eexists|].
      rewrite !lookup_insert_ne by done. by right.
Qed.

(** Writing a row of the newest version, which has room for it. *)
Lemma write_head s ch idx p c l row v :
  wf s ch -> linked s -> ch idx = (p, c) :: l -> row < CAP ->
  exists s', (info ← deref s p;
      match find_row (rowsInVector info) row with
      | Some i =>
          vs ← store (data info) i v;
          mret (assign s p (setRows (rowsInVector info) vs info), p)
      | None =>
          _ ← (if decide (numRowsUpdated info < CAP) then Ret tt else Undef);
          mret (assign s p (setRows (rowsInVector info ++ [row]) (data info ++ [v]) info), p)
      end) = Ret (s', p) /\
    wf s' (upd ch idx ((p, write_content c row v) :: l)) /\ linked s'.
Proof.
  intros Hwf Hl E Hrow. destruct (linked_head _ _ _ _ _ _ Hwf Hl E) as (_ & info & Hp & Hc & _).
  rewrite (deref_Ret _ _ _ Hp). cbn [mbind outcome_bind].
  assert (content_ok c) as Hok.
  { pose proof (wf_content _ _ Hwf idx) as Hall. rewrite E in Hall. by apply Forall_cons in Hall as [? _]. }
  pose proof (write_content_ok c row v Hok Hrow) as Hok'. destruct Hok as (Hlen & Hnd & Hall).
  rewrite <-Hc in Hlen, Hnd, Hall, Hok' |- *. cbn in Hlen, Hnd, Hall.
  unfold write_content in *. cbn [c_rows c_data c_version content_of fst snd] in *.
  destruct (find_row (rowsInVector info) row) as [i|] eqn:Ef.
  - rewrite store_Ret by (apply find_row_Some, lookup_lt_Some in Ef; lia).
    eexists. split; [done|].
    apply (assign_head s ch idx p c l info (setRows (rowsInVector info) (<[i:=v]> (data info)) info)); done.
  - apply find_row_None in Ef.
    rewrite decide_True by (by eapply rows_room). eexists. split; [done|].
    apply (assign_head s ch idx p c l info
      (setRows (rowsInVector info ++ [row]) (data info ++ [v]) info)); done.
Qed.

(** The chain of the vector after an update. *)
Definition update_chain (txn : Transaction.t) (l : list (pointer * content)) (p : pointer)
    (row : nat) (v : V) : list (pointer * content) :=
  match l with
  | (h, c) :: tl =>
      if (c_version c =? Transaction.ID txn)%Z then (h, write_content c row v) :: tl
      else (p, write_content (created txn l) row v) :: l
  | [] => [(p, write_content (created txn l) row v)]
  end.

Lemma update_spec s ch txn idx row v :
  wf s ch -> linked s -> proper_txn txn -> row < CAP ->
  if negb (own_head txn (ch idx)) && head_conflict txn (ch idx) row then
    update s txn idx row v = Throw ww_conflict_update
  else
    exists s' p, update s txn idx row v = Ret (s', p) /\
      wf s' (upd ch idx (update_chain txn (ch idx) p row v)) /\ linked s' /\
      fst <$> List.head (update_chain txn (ch idx) p row v) = Some p.
Proof.
  intros Hwf Hl Ht Hrow. pose proof (getOrCreateVectorInfo_spec s ch txn idx row Hwf Hl Ht) as Hg.
  unfold update. destruct (own_head txn (ch idx)) eqn:Hown; cbn [negb andb].
  - destruct Hg as (s1 & p & -> & Hwf1 & Hl1 & Hh). cbn [mbind outcome_bind].
    destruct (ch idx) as [|[h c] l] eqn:E; [done|]. injection Hh as <-.
    destruct (write_head s1 ch idx h c l row v) as (s2 & Hrun & Hwf2 & Hl2); [done..|].
    exists s2, h. split; [exact Hrun|]. cbn [own_head] in Hown. cbn [update_chain].
    rewrite Hown. done.
  - destruct (head_conflict txn (ch idx) row); [by rewrite Hg|].
    destruct Hg as (s1 & p & -> & Hwf1 & Hl1). cbn [mbind outcome_bind].
    destruct (write_head s1 _ idx p (created txn (ch idx)) (ch idx) row v Hwf1 Hl1)
      as (s2 & Hrun & Hwf2 & Hl2); [by rewrite upd_eq|done|].
    exists s2, p. split; [exact Hrun|].
    assert (update_chain txn (ch idx) p row v =
            (p, write_content (created txn (ch idx)) row v) :: ch idx) as ->.
    { destruct (ch idx) as [|[h c] l]; [done|]. cbn [own_head] in Hown. cbn [update_chain].
      by rewrite Hown. }
    split; [|done]. eapply wf_ext; [|done]. intros j. unfold upd. by destruct (decide (j = idx)).
Qed.

(** *** Undo actions *)

Lemma commit_spec s ch idx p c l ts :
  wf s ch -> linked s -> ch idx = (p, c) :: l ->
  exists s', commitVectorUpdateInfo s p ts = Ret s' /\
    wf s' (upd ch idx ((p, (ts, c_rows c, c_data c)) :: l)) /\ linked s'.
Proof.
  intros Hwf Hl E. destruct (linked_head _ _ _ _ _ _ Hwf Hl E) as (_ & info & Hp & Hc & _).
  unfold commitVectorUpdateInfo. rewrite (deref_Ret _ _ _ Hp). eexists. split; [done|].
  pose proof (wf_content _ _ Hwf idx) as Hall. rewrite E in Hall. apply Forall_cons in Hall as [Hok _].
  rewrite <-Hc in *. by apply (assign_head s ch idx p (content_of info) l info (setVersion ts info)).
Qed.

Lemma rollback_spec s ch txn idx p c l :
  wf s ch -> linked s -> proper_txn txn -> ch idx = (p, c) :: l -> c_version c = Transaction.ID txn ->
  exists s', rollbackVectorUpdateInfo s txn idx p = Ret s' /\ wf s' (upd ch idx l).
Proof.
  intros Hwf Hl Ht E Hv. destruct (linked_head _ _ _ _ _ _ Hwf Hl E) as (Hh & info & Hp & Hc & Hn & Hch).
  unfold rollbackVectorUpdateInfo. rewrite (getVectorInfo_spec s ch) by done. cbn [mbind outcome_bind].
  rewrite E. cbn [read_content List.find]. unfold reads. cbn [snd]. rewrite Hv, Z.eqb_refl. cbn.
  rewrite bool_decide_true by done. rewrite (deref_Ret _ _ _ Hp). cbn [mbind outcome_bind]. rewrite Hn.
  destruct (setHead_spec s idx (prev info)) as (s' & -> & Hheap & Hfr & _ & Hh' & Hho).
  { unfold head in Hh. destruct (vectorsInfo s !! idx) eqn:El; [|done]. by eapply lookup_lt_Some. }
  eexists. split; [done|].
  apply (wf_upd s); cbn; rewrite ?Hheap; [done|done| | | | | |].
  - change (head (destroy s' p) idx) with (head s' idx). rewrite Hh'.
    apply (chain_frame (heap s)); [done|]. intros q i Hq Hi. exists i.
    rewrite lookup_delete_ne; [done|]. symmetry. by eapply head_fresh.
  - pose proof (wf_nodup _ _ Hwf idx) as Hnd. rewrite E in Hnd. by apply NoDup_cons in Hnd as [_ ?].
  - pose proof (wf_content _ _ Hwf idx) as Hall. rewrite E in Hall. by apply Forall_cons in Hall as [_ ?].
  - intros q i Hi Hq. rewrite lookup_delete_ne; [done|]. intros ->. apply Hq. rewrite E. by left.
  - intros q Hq. left. rewrite E. by right.
  - intros q i. rewrite Hfr. intros [_ Hq]%lookup_delete_Some. by eapply wf_fresh.
Qed.
End facts.
End UpdateFacts.
