(* ===== verification/ColumnChunk.v ===== *)
(** Column chunks ([storage/table/column_chunk.cpp]): base values, in memory or
    on disk, under the update versions of [UpdateInfo]. The base values are the
    list of the chunk's values (a null is a value); a persistent chunk is read
    through its [Column], which gives the same list. Statistics, compression and
    the nested layout of [ColumnChunkData] are not part of the model. *)
From S2P Require Import Prelude SelVector VersionInfo Transaction UpdateInfo.

Module ColumnChunk.
Inductive ResidencyState := IN_MEMORY | ON_DISK.
#[global] Instance ResidencyState_eq_dec : EqDecision ResidencyState.
Proof. solve_decision. Defined.

Record t (V : Type) := mk {
  residencyState : ResidencyState;
  data : list V;
  updateInfo : option (UpdateInfo.t V);
}.
Arguments mk {V}. Arguments residencyState {V}. Arguments data {V}. Arguments updateInfo {V}.

(** What [pushVectorUpdateInfo] puts into the undo buffer. *)
Record undo := mk_undo { undo_vector : nat; undo_version : pointer }.

Section operations.
Context {V : Type}.
Implicit Types (cc : t V) (txn : Transaction.t) (output : list V).

(** [data->lookup(row, output, pos)]. *)
Definition data_lookup (values : list V) (row : nat) output (pos : nat) : outcome (list V) :=
  x ← load values row; store output pos x.

(** [data->scan(output, offset, length)]. *)
Definition data_scan (values : list V) output (offset length : nat) : outcome (list V) :=
  for_range 0 length (fun i output => data_lookup values (offset + i) output i) output.

Definition scan cc txn output (offsetInChunk length : nat) : outcome (list V) :=
  output ← data_scan (data cc) output offsetInChunk length;
  match updateInfo cc with
  | None => mret output
  | Some updateInfo =>
      let startVectorIdx := offsetInChunk / CAP in
      let startOffsetInVector := offsetInChunk mod CAP in
      let endVectorIdx := (offsetInChunk + length) / CAP in
      let endOffsetInVector := (offsetInChunk + length) mod CAP in
      '(output, _) ←
        for_range startVectorIdx (S endVectorIdx - startVectorIdx) (fun idx s =>
          let '(output, posInVector) := s in
          let startOffset := if idx =? startVectorIdx then startOffsetInVector else 0 in
          let endOffset := if idx =? endVectorIdx then endOffsetInVector else CAP in
          let numRowsInVector := endOffset - startOffset in
          vectorInfo ← UpdateInfo.getVersion updateInfo txn idx;
          output ←
            match vectorInfo with
            | None => mret output
            | Some info =>
                for_range 0 numRowsInVector (fun i output =>
                  match VectorUpdateInfo.find_row (VectorUpdateInfo.rowsInVector info) (i + startOffset) with
                  | Some k => data_lookup (VectorUpdateInfo.data info) k output (posInVector + i)
                  | None => mret output
                  end) output
            end;
          mret (output, posInVector + numRowsInVector)) (output, 0);
      mret output
  end.

Definition lookup cc txn (rowInChunk : nat) output (posInOutputVector : nat) : outcome (list V) :=
  output ← data_lookup (data cc) rowInChunk output posInOutputVector;
  match updateInfo cc with
  | None => mret output
  | Some updateInfo =>
      let vectorIdx := rowInChunk / CAP in
      let rowInVector := rowInChunk mod CAP in
      vectorInfo ← UpdateInfo.getVersion updateInfo txn vectorIdx;
      match vectorInfo with
      | None => mret output
      | Some info =>
          match VectorUpdateInfo.find_row (VectorUpdateInfo.rowsInVector info) rowInVector with
          | Some i => data_lookup (VectorUpdateInfo.data info) i output posInOutputVector
          | None => mret output
          end
      end
  end.

(** [update] with what it pushes into the undo buffer. *)
Definition update cc txn (offsetInChunk : nat) (value : V) : outcome (t V * option undo) :=
  if bool_decide (Transaction.type txn = Transaction.DUMMY) then
    values ← store (data cc) offsetInChunk value;
    mret (mk (residencyState cc) values (updateInfo cc), None)
  else
    let info := default UpdateInfo.init (updateInfo cc) in
    let vectorIdx := offsetInChunk / CAP in
    let rowIdxInVector := offsetInChunk mod CAP in
    '(info, p) ← UpdateInfo.update info txn vectorIdx rowIdxInVector value;
    mret (mk (residencyState cc) (data cc) (Some info), Some (mk_undo vectorIdx p)).

(** The undo actions of the records [update] pushes. *)
Definition commitUpdate cc (u : undo) (commitTS : transaction_t) : outcome (t V) :=
  match updateInfo cc with
  | None => Undef
  | Some info =>
      info ← UpdateInfo.commitVectorUpdateInfo info (undo_version u) commitTS;
      mret (mk (residencyState cc) (data cc) (Some info))
  end.
Definition rollbackUpdate cc txn (u : undo) : outcome (t V) :=
  match updateInfo cc with
  | None => Undef
  | Some info =>
      info ← UpdateInfo.rollbackVectorUpdateInfo info txn (undo_vector u) (undo_version u);
      mret (mk (residencyState cc) (data cc) (Some info))
  end.

Definition hasUpdates cc txn (startRow numRows : nat) : outcome bool :=
  match updateInfo cc with
  | None => mret false
  | Some info => UpdateInfo.hasUpdates info txn startRow numRows
  end.

(** [output.write(chunk, i, pos, 1)]. *)
Definition write_one (values : list V) (i : nat) output (pos : nat) : outcome (list V) :=
  x ← load values i; store output pos x.

Definition scanCommittedUpdates cc txn output (startOffsetInOutput startRowScanned numRows : nat)
  : outcome (list V) :=
  match updateInfo cc with
  | None => mret output
  | Some updateInfo =>
      let startVectorIdx := startRowScanned / CAP in
      let startRowInVector := startRowScanned mod CAP in
      let endVectorIdx := (startRowScanned + numRows) / CAP in
      let endRowInVector := (startRowScanned + numRows) mod CAP in
      for_range startVectorIdx (S endVectorIdx - startVectorIdx) (fun vectorIdx output =>
        let startRow := if vectorIdx =? startVectorIdx then startRowInVector else 0 in
        let endRow := if vectorIdx =? endVectorIdx then endRowInVector else CAP in
        vectorInfo ← UpdateInfo.getVersion updateInfo txn vectorIdx;
        match vectorInfo with
        | None => mret output
        | Some info =>
            for_range 0 (VectorUpdateInfo.numRowsUpdated info) (fun i output =>
              row ← load (VectorUpdateInfo.rowsInVector info) i;
              let pos := startOffsetInOutput + vectorIdx * CAP + row - startRowScanned in
              if negb (vectorIdx =? startVectorIdx) && negb (vectorIdx =? endVectorIdx)
                 || (startRow <=? row) && (row <? endRow)
              then write_one (VectorUpdateInfo.data info) i output pos
              else mret output) output
        end) output
  end.

(** [scanCommitted<SCAN_RESIDENCY_STATE>]; [None] rows are all rows. *)
Definition scanCommitted cc txn (scan_residency : ResidencyState) output (startRow : nat)
    (numRows : option nat) : outcome (list V) :=
  let numRows := default (length (data cc)) numRows in
  let numValuesBeforeScan := length output in
  if bool_decide (scan_residency = residencyState cc) then
    _ ← (if decide (startRow + numRows <= length (data cc)) then Ret tt else Undef);
    scanCommittedUpdates cc txn (output ++ take numRows (drop startRow (data cc)))
      numValuesBeforeScan startRow numRows
  else mret output.

(** [scanUpdates]: the updated rows of the chunk and their values. *)
Definition scanUpdates cc txn : outcome (list nat * list V) :=
  match updateInfo cc with
  | None => Undef
  | Some updateInfo =>
      for_range 0 (length (UpdateInfo.vectorsInfo updateInfo)) (fun vectorIdx s =>
        let '(updatedRows, updatedData) := s in
        vectorInfo ← UpdateInfo.getVersion updateInfo txn vectorIdx;
        match vectorInfo with
        | None => mret (updatedRows, updatedData)
        | Some info =>
            let updatedRows := updatedRows ++
              ((fun row => row + vectorIdx * CAP) <$> VectorUpdateInfo.rowsInVector info) in
            let updatedData := updatedData ++ VectorUpdateInfo.data info in
            _ ← ku_assert (length updatedData =? length updatedRows);
            mret (updatedRows, updatedData)
        end) ([], [])
  end.

Definition getNumUpdatedRows cc txn : outcome nat :=
  match updateInfo cc with
  | None => mret 0
  | Some info => UpdateInfo.getNumUpdatedRows info txn
  end.
End operations.
End ColumnChunk.
