(* ===== verification/ColumnChunkSpec.v ===== *)
(** What [ColumnChunk] promises over its update versions: a transaction reads
    its own updates and the ones committed before it started, a commit appears
    at once to later snapshots only, a rollback is invisible, and the scans
    agree with the row-by-row lookup. Two theorems show where the code falls
    short of that. *)
From S2P Require Import Prelude SelVector VersionInfo Transaction UpdateInfo UpdateInfoFacts ColumnChunk.
Import UpdateFacts ColumnChunk.

Section spec.
Context {V : Type}.
Implicit Types (cc : t V) (txn : Transaction.t) (output : list V).

(** The chunk's versions are the chains [ch]. *)
Definition represents cc (ch : nat -> list (pointer * content)) : Prop :=
  match updateInfo cc with
  | None => forall j, ch j = []
  | Some info => wf info ch
  end.
Definition newest_linked cc : Prop :=
  match updateInfo cc with None => True | Some info => linked info end.

(** A chunk as updates and commits leave it. *)
Definition valid cc : Prop := exists ch, represents cc ch /\ newest_linked cc.

(** What a transaction reads over the base value of a row. *)
Definition over (ch : nat -> list (pointer * content)) txn (row : nat) (base : V) : V :=
  default base (updated txn ch (row / CAP) (row mod CAP)).

Lemma data_lookup_Ret (values : list V) row x output pos :
  values !! row = Some x -> pos < length output ->
  data_lookup values row output pos = Ret (<[pos := x]> output).
Proof. intros Hx Hp. unfold data_lookup. rewrite (load_Ret _ _ _ Hx). by apply store_Ret. Qed.

(** The entry of a row in a version. *)
Lemma find_row_value (info : VectorUpdateInfo.t V) row :
  content_ok (content_of info) ->
  match VectorUpdateInfo.find_row (VectorUpdateInfo.rowsInVector info) row with
  | Some i => exists v, VectorUpdateInfo.data info !! i = Some v /\ value_at (content_of info) row = Some v
  | None => value_at (content_of info) row = None
  end.
Proof.
  intros (Hlen & _). unfold value_at, c_rows, c_data in *. cbn in *.
  destruct (VectorUpdateInfo.find_row _ row) as [i|] eqn:E; cbn; [|done].
  destruct (lookup_lt_is_Some_2 (VectorUpdateInfo.data info) i) as [v Hv]; [|by exists v].
  apply find_row_Some, lookup_lt_Some in E. lia.
Qed.

(** The version a transaction reads, with its contents. *)
Lemma read_version (info : UpdateInfo.t V) ch txn idx :
  wf info ch -> proper_txn txn ->
  exists res, UpdateInfo.getVersion info txn idx = Ret res /\
    match res with
    | Some i => content_ok (content_of i) /\
        forall row, updated txn ch idx row = value_at (content_of i) row
    | None => forall row, updated txn ch idx row = None
    end.
Proof.
  intros Hwf Ht. destruct (getVersion_spec info ch txn idx Hwf Ht) as (res & Hrun & Hres).
  exists res. split; [done|]. unfold updated.
  destruct (read_content txn (ch idx)) as [[p c]|] eqn:E, res as [i|]; try done. cbn in Hres.
  injection Hres as ->. split; [|done]. apply read_content_in in E as [Hin _].
  pose proof (wf_content _ _ Hwf idx) as Hall. rewrite Forall_forall in Hall. apply (Hall _ Hin).
Qed.

Lemma lookup_over cc ch txn row base output pos :
  represents cc ch -> proper_txn txn -> data cc !! row = Some base -> pos < length output ->
  lookup cc txn row output pos = Ret (<[pos := over ch txn row base]> output).
Proof.
  intros Hrep Ht Hb Hp. unfold lookup. rewrite (data_lookup_Ret _ _ _ _ _ Hb Hp). cbn [mbind outcome_bind].
  unfold represents in Hrep. unfold over. destruct (updateInfo cc) as [info|].
  - destruct (read_version info ch txn (row / CAP) Hrep Ht) as (res & -> & Hres). cbn [mbind outcome_bind].
    destruct res as [i|]; [|by rewrite Hres]. destruct Hres as [Hok ->].
    pose proof (find_row_value i (row mod CAP) Hok) as Hv.
    destruct (VectorUpdateInfo.find_row _ _) as [k|]; [|by rewrite Hv].
    destruct Hv as (v & Hv & ->). rewrite (data_lookup_Ret _ _ _ _ _ Hv) by (by rewrite length_insert).
    cbn. by rewrite list_insert_insert_eq.
  - unfold updated. rewrite Hrep. done.
Qed.

(** A lookup out of the chunk or of the output vector is undefined for
    everybody: two chunks with the same base values agree as soon as they agree
    on what is over them. *)
Lemma lookup_agree cc cc' ch ch' txn txn' row output pos :
  represents cc ch -> represents cc' ch' -> proper_txn txn -> proper_txn txn' -> data cc' = data cc ->
  updated txn' ch' (row / CAP) (row mod CAP) = updated txn ch (row / CAP) (row mod CAP) ->
  lookup cc' txn' row output pos = lookup cc txn row output pos.
Proof.
  intros Hrep Hrep' Ht Ht' Hd Hu. destruct (data cc !! row) as [base|] eqn:Hb.
  - destruct (decide (pos < length output)) as [Hp|Hp].
    + rewrite (lookup_over cc' ch' txn' row base), (lookup_over cc ch txn row base) by (done || by rewrite Hd).
      unfold over. by rewrite Hu.
    + unfold lookup, data_lookup, load, store. rewrite Hd, Hb. cbn. by rewrite !decide_False.
  - unfold lookup, data_lookup, load. by rewrite Hd, Hb.
Qed.

(** *** Updates *)

(** The newest version of the row's vector. *)
Definition newest cc (row : nat) : option (VectorUpdateInfo.t V) :=
  info ← updateInfo cc; p ← UpdateInfo.head info (row / CAP); UpdateInfo.heap info !! p.

Definition conflict cc txn (row : nat) : bool :=
  match newest cc row with
  | None => false
  | Some info =>
      negb (VectorUpdateInfo.version info =? Transaction.ID txn)%Z &&
      ((Transaction.startTS txn <? VectorUpdateInfo.version info)%Z &&
       bool_decide (row mod CAP ∈ VectorUpdateInfo.rowsInVector info))
  end.

Lemma newest_content cc ch row :
  represents cc ch -> content_of <$> newest cc row = snd <$> List.head (ch (row / CAP)).
Proof.
  unfold represents, newest. destruct (updateInfo cc) as [info|]; [|intros ->; done].
  intros Hwf. cbn. pose proof (wf_chain _ _ Hwf (row / CAP)) as Hc.
  inversion Hc as [Hh|p i l Hp Hl Hh]; [done|]. cbn. by rewrite Hp.
Qed.

Lemma conflict_chain cc ch txn row :
  represents cc ch ->
  conflict cc txn row = negb (own_head txn (ch (row / CAP))) && head_conflict txn (ch (row / CAP)) (row mod CAP).
Proof.
  intros Hrep. pose proof (newest_content cc ch row Hrep) as Hn. unfold conflict, own_head, head_conflict.
  destruct (newest cc row) as [info|], (ch (row / CAP)) as [|[p c] l]; try done.
  cbn in Hn. injection Hn as <-. done.
Qed.

Lemma init_wf : wf (@UpdateInfo.init V) (fun _ => []) /\ linked (@UpdateInfo.init V).
Proof.
  split; [|by intros j p i]. split.
  - intros j. constructor.
  - intros j. apply NoDup_nil_2.
  - intros j j' p Hp. by apply not_elem_of_nil in Hp.
  - done.
  - intros j. apply Forall_nil_2.
Qed.

(** The chunk after an update, by chains. *)
Lemma update_chains cc ch txn row v :
  represents cc ch -> newest_linked cc -> proper_txn txn -> Transaction.type txn <> Transaction.DUMMY ->
  if conflict cc txn row then update cc txn row v = Throw ww_conflict_update
  else
    exists cc' p, update cc txn row v = Ret (cc', Some (mk_undo (row / CAP) p)) /\
      data cc' = data cc /\ newest_linked cc' /\
      represents cc' (upd ch (row / CAP) (update_chain txn (ch (row / CAP)) p (row mod CAP) v)) /\
      fst <$> List.head (update_chain txn (ch (row / CAP)) p (row mod CAP) v) = Some p.
Proof.
  intros Hrep Hl Ht Htype. rewrite (conflict_chain cc ch) by done.
  unfold update. rewrite bool_decide_false by done.
  assert (wf (default UpdateInfo.init (updateInfo cc)) ch /\ linked (default UpdateInfo.init (updateInfo cc)))
    as [Hwf Hlk].
  { unfold represents, newest_linked in *. destruct (updateInfo cc); [done|]. cbn.
    destruct init_wf as [Hi ?]. split; [|done]. apply (wf_ext _ _ _ (fun j => eq_sym (Hrep j)) Hi). }
  assert (row mod CAP < CAP) as Hmod by (apply Nat.mod_upper_bound; pose proof vector_capacity_pos; lia).
  pose proof (update_spec _ ch txn (row / CAP) (row mod CAP) v Hwf Hlk Ht Hmod) as Hu.
  destruct (_ && _); [by rewrite Hu|]. destruct Hu as (s' & p & -> & Hwf' & Hl' & Hh).
  by eexists _, p.
Qed.

(** The chain after an update: the version written, over versions that give
    every other transaction what it had before. *)
Lemma update_chain_shape txn (l : list (pointer * @content V)) p row (v : V) :
  (forall c, In c l.*2 -> content_ok c) ->
  fst <$> List.head (update_chain txn l p row v) = Some p ->
  exists c rest, update_chain txn l p row v = (p, c) :: rest /\ c_version c = Transaction.ID txn /\
    (forall t, reads t (Transaction.ID txn) = false -> read_content t rest = read_content t l) /\
    (forall r, value_at c r = if decide (r = row) then Some v
                              else ((snd <$> List.head l) ≫= fun c => value_at c r)) /\
    (own_head txn l = false -> rest = l).
Proof.
  intros Hok Hp.
  assert (Hver : forall c, c_version (write_content c row v) = c_version c)
    by (intros c; unfold write_content; by destruct (VectorUpdateInfo.find_row _ _)).
  destruct l as [|[h c] l]; cbn [update_chain] in *.
  - eexists _, []. split_and!; [done|done|done| |done]. intros r. cbn [created].
    rewrite write_content_value by (split_and!; [done|apply NoDup_nil_2|apply Forall_nil_2]). done.
  - assert (content_ok c) as Hc by (apply Hok; by left). cbn [own_head].
    destruct (Z.eqb_spec (c_version c) (Transaction.ID txn)) as [Hv|Hv].
    + injection Hp as ->. eexists _, l. split_and!; [done|by rewrite Hver| | |done].
      * intros t Ht. cbn [read_content List.find snd]. by rewrite Hv, Ht.
      * intros r. by rewrite write_content_value.
    + eexists _, _. split_and!; [done|by rewrite Hver|done| |done]. intros r. cbn [created].
      by rewrite write_content_value.
Qed.

Lemma chain_contents cc ch j c : represents cc ch -> In c (ch j).*2 -> content_ok c.
Proof.
  unfold represents. destruct (updateInfo cc) as [info|]; [|by intros ->].
  intros Hwf Hin%list_elem_of_In. apply list_elem_of_fmap in Hin as ([q c'] & -> & Hin).
  pose proof (wf_content _ _ Hwf j) as Hall. rewrite Forall_forall in Hall. apply (Hall _ Hin).
Qed.

(** A transaction id is out of reach for every snapshot but its own. *)
Lemma reads_other t txn :
  proper_txn t -> proper_txn txn -> Transaction.ID t <> Transaction.ID txn ->
  reads t (Transaction.ID txn) = false.
Proof.
  intros Ht Htx Hne. unfold reads, proper_txn in *.
  rewrite (proj2 (Z.eqb_neq _ _)), (proj2 (Z.leb_gt _ _)) by (done || lia). done.
Qed.

(** The transaction reads the newest version of the row's vector: it is its own
    or was committed before it started. *)
Definition newest_read cc txn (row : nat) : Prop :=
  match newest cc row with
  | None => True
  | Some info => reads txn (VectorUpdateInfo.version info) = true
  end.

(** The transaction has not updated the vector yet. *)
Definition first_update cc txn (row : nat) : Prop :=
  match newest cc row with
  | None => True
  | Some info => VectorUpdateInfo.version info <> Transaction.ID txn
  end.

Lemma newest_read_updated cc ch txn row r :
  represents cc ch -> newest_read cc txn row ->
  (snd <$> List.head (ch (row / CAP))) ≫= (fun c => value_at c r) = updated txn ch (row / CAP) r.
Proof.
  intros Hrep Hn. pose proof (newest_content cc ch row Hrep) as Hc. unfold newest_read in Hn.
  unfold updated. destruct (newest cc row) as [info|], (ch (row / CAP)) as [|[p c] l]; try done.
  cbn in Hc. injection Hc as <-. cbn [read_content List.find snd c_version content_of fst]. by rewrite Hn.
Qed.

Lemma newest_read_no_conflict cc txn row : newest_read cc txn row -> conflict cc txn row = false.
Proof.
  unfold newest_read, conflict, reads. destruct (newest cc row); [|done].
  intros [H|H]%orb_prop; rewrite ?H; [done|]. apply Z.leb_le in H.
  rewrite (proj2 (Z.ltb_ge _ _)) by done. apply andb_false_r.
Qed.

Lemma own_head_first cc ch txn row :
  represents cc ch -> first_update cc txn row -> own_head txn (ch (row / CAP)) = false.
Proof.
  intros Hrep Hn. pose proof (newest_content cc ch row Hrep) as Hc. unfold first_update in Hn.
  destruct (newest cc row) as [info|], (ch (row / CAP)) as [|[p c] l]; try done.
  cbn in Hc. injection Hc as <-. by apply Z.eqb_neq.
Qed.

Lemma updated_upd t (ch : nat -> list (pointer * @content V)) j l idx r :
  updated t (upd ch j l) idx r =
    if decide (idx = j) then read_content t l ≫= (fun pc => value_at pc.2 r) else updated t ch idx r.
Proof. unfold updated, upd. by destruct (decide (idx = j)). Qed.

Lemma upd_upd (ch : nat -> list (pointer * @content V)) j l l' k : upd (upd ch j l) j l' k = upd ch j l' k.
Proof. unfold upd. by destruct (decide (k = j)). Qed.

Lemma upd_self (ch : nat -> list (pointer * @content V)) j k : upd ch j (ch j) k = ch k.
Proof. unfold upd. by destruct (decide (k = j)) as [->|]. Qed.

Lemma same_row row row' : row' / CAP = row / CAP -> row' mod CAP = row mod CAP -> row' = row.
Proof.
  intros Hd Hm. pose proof vector_capacity_pos.
  rewrite (Nat.div_mod_eq row CAP), (Nat.div_mod_eq row' CAP). by rewrite Hd, Hm.
Qed.

(** C22. Updating a row either raises the write-write conflict, exactly when the
    newest version of the row's vector is another transaction's, not visible to
    this one, and has the row; or it succeeds: the transaction reads its own
    value afterwards, no other transaction reads a difference on any row, and
    when the transaction could read the newest version of the vector all other
    rows read as before. *)
Theorem update_outcome cc txn row v :
  valid cc -> proper_txn txn -> Transaction.type txn <> Transaction.DUMMY -> row < length (data cc) ->
  if conflict cc txn row then update cc txn row v = Throw ww_conflict_update
  else
    exists cc' u, update cc txn row v = Ret (cc', Some u) /\ valid cc' /\
      (forall output pos, pos < length output ->
         lookup cc' txn row output pos = Ret (<[pos := v]> output)) /\
      (forall t row' output pos, proper_txn t -> Transaction.ID t <> Transaction.ID txn ->
         lookup cc' t row' output pos = lookup cc t row' output pos) /\
      (newest_read cc txn row -> forall row' output pos, row' <> row ->
         lookup cc' txn row' output pos = lookup cc txn row' output pos).
Proof.
  intros (ch & Hrep & Hl) Ht Htype Hrow.
  pose proof (update_chains cc ch txn row v Hrep Hl Ht Htype) as Hu.
  destruct (conflict cc txn row); [done|].
  destruct Hu as (cc' & p & Hrun & Hd & Hl' & Hrep' & Hp).
  destruct (update_chain_shape txn (ch (row / CAP)) p (row mod CAP) v) as
    (c & rest & Hch & Hver & Hother & Hval & _); [intros c; by apply (chain_contents cc)|done|].
  rewrite Hch in Hrep'. exists cc', (mk_undo (row / CAP) p). split_and!; [done|by eexists| | |].
  - intros output pos Hpos. destruct (lookup_lt_is_Some_2 (data cc) row Hrow) as [base Hb].
    rewrite (lookup_over _ _ _ _ base _ _ Hrep' Ht) by (done || by rewrite Hd).
    unfold over. rewrite updated_upd, decide_True by done. cbn [read_content List.find snd].
    unfold reads. rewrite Hver, Z.eqb_refl. cbn. rewrite Hval, decide_True by done. done.
  - intros t row' output pos Ht' Hne. apply (lookup_agree cc cc' ch _ t t _ _ _ Hrep Hrep'); [done..|].
    rewrite updated_upd. destruct (decide (row' / CAP = row / CAP)) as [E|]; [|done].
    cbn [read_content List.find snd]. rewrite Hver, reads_other by done.
    unfold updated. rewrite E. by rewrite <-Hother by by apply reads_other.
  - intros Hn row' output pos Hne. apply (lookup_agree cc cc' ch _ txn txn _ _ _ Hrep Hrep'); [done..|].
    rewrite updated_upd. destruct (decide (row' / CAP = row / CAP)) as [E|]; [|done].
    cbn [read_content List.find snd]. unfold reads. rewrite Hver, Z.eqb_refl. cbn.
    rewrite Hval, decide_False by (intros E'; by apply Hne, same_row).
    rewrite (newest_read_updated cc ch txn row _ Hrep Hn). by rewrite E.
Qed.

(** C23. Updating a row of a vector whose newest version the transaction reads,
    and committing at [ts]: no snapshot older than [ts] reads a difference on
    any row; every snapshot from [ts] on reads, in the whole vector, exactly what
    the writing transaction read just before it committed. *)
Theorem update_commit_atomic cc txn row v ts :
  valid cc -> proper_txn txn -> Transaction.type txn <> Transaction.DUMMY -> newest_read cc txn row ->
  (ts < START_TRANSACTION_ID)%Z ->
  exists cc1 u cc2, update cc txn row v = Ret (cc1, Some u) /\ commitUpdate cc1 u ts = Ret cc2 /\
    valid cc2 /\
    (forall t row' output pos, proper_txn t -> Transaction.ID t <> Transaction.ID txn ->
       (Transaction.startTS t < ts)%Z ->
       lookup cc2 t row' output pos = lookup cc t row' output pos) /\
    (forall t row' output pos, proper_txn t -> (ts <= Transaction.startTS t)%Z ->
       row' / CAP = row / CAP ->
       lookup cc2 t row' output pos = lookup cc1 txn row' output pos).
Proof.
  intros (ch & Hrep & Hl) Ht Htype Hn Hts.
  pose proof (update_chains cc ch txn row v Hrep Hl Ht Htype) as Hu.
  rewrite newest_read_no_conflict in Hu by done. destruct Hu as (cc1 & p & Hrun & Hd & Hl1 & Hrep1 & Hp).
  destruct (update_chain_shape txn (ch (row / CAP)) p (row mod CAP) v) as
    (c & rest & Hch & Hver & Hother & Hval & _); [intros c; by apply (chain_contents cc)|done|].
  rewrite Hch in Hrep1. exists cc1, (mk_undo (row / CAP) p). unfold commitUpdate. cbn [undo_version].
  pose proof Hrep1 as Hwf1. unfold represents in Hwf1. unfold newest_linked in Hl1.
  destruct (updateInfo cc1) as [info|] eqn:Einfo.
  2: { specialize (Hwf1 (row / CAP)). by rewrite upd_eq in Hwf1. }
  destruct (commit_spec info _ (row / CAP) p c rest ts Hwf1 Hl1) as (info2 & -> & Hwf2 & Hl2);
    [by rewrite upd_eq|].
  assert (represents (mk (residencyState cc1) (data cc1) (Some info2))
    (upd ch (row / CAP) ((p, (ts, c_rows c, c_data c)) :: rest))) as Hrep2.
  { unfold represents. cbn. eapply wf_ext; [|exact Hwf2]. intros j. apply upd_upd. }
  eexists. split_and!; [done|done|by eexists| |].
  - intros t row' output pos Ht' Hne Hs.
    apply (lookup_agree cc _ ch _ t t _ _ _ Hrep Hrep2); [done..|].
    rewrite updated_upd. destruct (decide (row' / CAP = row / CAP)) as [E|]; [|done].
    cbn [read_content List.find snd c_version fst].
    assert (reads t ts = false) as ->.
    { unfold reads, proper_txn in *. by rewrite (proj2 (Z.eqb_neq _ _)), (proj2 (Z.leb_gt _ _)) by lia. }
    unfold updated. rewrite E. by rewrite <-Hother by by apply reads_other.
  - intros t row' output pos Ht' Hs E.
    apply (lookup_agree cc1 _ _ _ txn t _ _ _ Hrep1 Hrep2); [done..|].
    rewrite !updated_upd, !decide_True by done. cbn [read_content List.find snd c_version fst].
    unfold reads. rewrite Hver, Z.eqb_refl, (proj2 (Z.leb_le _ _)), orb_true_r by done. done.
Qed.

(** A transaction's first update of a vector, rolled back: update and
    rollback succeed, and every transaction reads every row as before. *)
Theorem update_rollback_invisible cc txn row v :
  valid cc -> proper_txn txn -> Transaction.type txn <> Transaction.DUMMY ->
  conflict cc txn row = false -> first_update cc txn row ->
  exists cc1 u cc2, update cc txn row v = Ret (cc1, Some u) /\ rollbackUpdate cc1 txn u = Ret cc2 /\
    forall t row' output pos, proper_txn t ->
      lookup cc2 t row' output pos = lookup cc t row' output pos.
Proof.
  intros (ch & Hrep & Hl) Ht Htype Hn Hf.
  pose proof (update_chains cc ch txn row v Hrep Hl Ht Htype) as Hu.
  rewrite Hn in Hu. destruct Hu as (cc1 & p & Hrun & Hd & Hl1 & Hrep1 & Hp).
  destruct (update_chain_shape txn (ch (row / CAP)) p (row mod CAP) v) as
    (c & rest & Hch & Hver & _ & _ & Hrest); [intros c; by apply (chain_contents cc)|done|].
  rewrite Hrest in Hch by by apply (own_head_first cc). rewrite Hch in Hrep1.
  exists cc1, (mk_undo (row / CAP) p). unfold rollbackUpdate. cbn [undo_version undo_vector].
  pose proof Hrep1 as Hwf1. unfold represents in Hwf1. unfold newest_linked in Hl1.
  destruct (updateInfo cc1) as [info|] eqn:Einfo.
  2: { specialize (Hwf1 (row / CAP)). by rewrite upd_eq in Hwf1. }
  destruct (rollback_spec info _ txn (row / CAP) p c (ch (row / CAP)) Hwf1 Hl1) as (info2 & -> & Hwf2);
    [done|by rewrite upd_eq|done|].
  eexists. split_and!; [done|done|]. intros t row' output pos Ht'.
  apply (lookup_agree cc _ ch ch t t _ _ _ Hrep); [|done..].
  eapply wf_ext; [|exact Hwf2]. intros j. rewrite upd_upd. apply upd_self.
Qed.

(** *** Scans *)

Lemma data_scan_spec (values : list V) output offset length' :
  length' <= length output -> offset + length' <= length values ->
  exists output', data_scan values output offset length' = Ret output' /\ length output' = length output /\
    forall i, output' !! i = if decide (i < length') then values !! (offset + i) else output !! i.
Proof.
  intros Ho Hv. unfold data_scan.
  destruct (for_range_inv (fun k o => length o = length output /\
    forall i, o !! i = if decide (i < k) then values !! (offset + i) else output !! i)
    0 length' (fun i output => data_lookup values (offset + i) output i) output) as (o & Hrun & Ho');
    [| |by exists o].
  - split; [done|]. intros i. by rewrite decide_False by lia.
  - intros k o Hk [Hl Hi]. cbn. destruct (lookup_lt_is_Some_2 values (offset + k)) as [x Hx]; [lia|].
    rewrite (data_lookup_Ret _ _ _ _ _ Hx) by lia. eexists. split; [done|]. rewrite length_insert.
    split; [done|]. intros i. destruct (decide (i = k)) as [->|].
    + by rewrite list_lookup_insert_eq, decide_True by lia.
    + rewrite list_lookup_insert_ne, Hi by done. repeat destruct (decide _); done || lia.
Qed.

(** The entries of one version, for [n] rows of a vector from [start] on. *)
Lemma scan_slice (info : VectorUpdateInfo.t V) start n pos output :
  content_ok (content_of info) -> pos + n <= length output ->
  exists output', for_range 0 n (fun i output =>
      match VectorUpdateInfo.find_row (VectorUpdateInfo.rowsInVector info) (i + start) with
      | Some k => data_lookup (VectorUpdateInfo.data info) k output (pos + i)
      | None => mret output
      end) output = Ret output' /\ length output' = length output /\
    (forall i, i < n -> output' !! (pos + i) =
       match value_at (content_of info) (start + i) with Some x => Some x | None => output !! (pos + i) end) /\
    (forall j, j < pos \/ pos + n <= j -> output' !! j = output !! j).
Proof.
  intros Hok Hlen.
  destruct (for_range_inv (fun k o => length o = length output /\
    (forall i, i < k -> o !! (pos + i) =
       match value_at (content_of info) (start + i) with Some x => Some x | None => output !! (pos + i) end) /\
    (forall j, j < pos \/ pos + k <= j -> o !! j = output !! j)) 0 n (fun i output =>
      match VectorUpdateInfo.find_row (VectorUpdateInfo.rowsInVector info) (i + start) with
      | Some k => data_lookup (VectorUpdateInfo.data info) k output (pos + i)
      | None => mret output
      end) output) as (o & Hrun & Ho); [split_and!; [done|lia|done]| |by exists o].
  intros k o Hk (Hl & Hi & Hj). cbn [Nat.add]. rewrite (Nat.add_comm k start).
  pose proof (find_row_value info (start + k) Hok) as Hv.
  destruct (VectorUpdateInfo.find_row _ _) as [e|].
  - destruct Hv as (x & Hx & Hval). rewrite (data_lookup_Ret _ _ _ _ _ Hx) by lia.
    eexists. split; [done|]. rewrite length_insert. split_and!; [done| |].
    + intros i Hik. destruct (decide (i = k)) as [->|].
      * by rewrite list_lookup_insert_eq, Hval by lia.
      * rewrite list_lookup_insert_ne by lia. apply Hi. lia.
    + intros j Hjk. rewrite list_lookup_insert_ne by lia. apply Hj. lia.
  - exists o. split_and!; [done|done| |].
    + intros i Hik. destruct (decide (i = k)) as [->|]; [|apply Hi; lia]. rewrite Hv. apply Hj. lia.
    + intros j Hjk. apply Hj. lia.
Qed.

(** Row [off + pos + i] by its vector. *)
Lemma slice_row_pos off pos idx q i :
  off + pos = CAP * idx + q -> q + i < CAP ->
  (off + (pos + i)) / CAP = idx /\ (off + (pos + i)) mod CAP = q + i.
Proof.
  intros E Hi. replace (off + (pos + i)) with (CAP * idx + (q + i)) by lia. by apply vector_row.
Qed.

(** The scan in terms of what is over the base values. *)
Lemma scan_over cc ch txn output offset length' :
  represents cc ch -> proper_txn txn -> length' <= length output -> offset + length' <= length (data cc) ->
  exists output', scan cc txn output offset length' = Ret output' /\ length output' = length output /\
    (forall i base, i < length' -> data cc !! (offset + i) = Some base ->
       output' !! i = Some (over ch txn (offset + i) base)) /\
    (forall i, length' <= i -> output' !! i = output !! i).
Proof.
  intros Hrep Ht Hlen Hdata. unfold scan.
  destruct (data_scan_spec (data cc) output offset length' Hlen Hdata) as (o1 & -> & Hl1 & Ho1).
  cbn [mbind outcome_bind].
  cbv zeta. unfold represents in Hrep. destruct (updateInfo cc) as [info|].
  2:{ exists o1. split_and!; [done|done| |].
    - intros i base Hi Hb. rewrite Ho1, decide_True, Hb by done. unfold over, updated. by rewrite Hrep.
    - intros i Hi. by rewrite Ho1, decide_False by lia. }
  match goal with |- exists _, (_ ← for_range _ _ ?body _; _) = _ /\ _ =>
    destruct (slices_inv offset length' (fun pos s => s.2 = pos /\ length s.1 = length output /\
      (forall i base, i < pos -> data cc !! (offset + i) = Some base ->
         s.1 !! i = Some (over ch txn (offset + i) base)) /\
      (forall i, pos <= i -> s.1 !! i = o1 !! i)) body (o1, 0)) as ([o2 p2] & -> & _ & Hl2 & Hi2 & Hr2) end.
  - split_and!; [done|done|lia|done].
  - intros idx pos [o p] Hidx Hat Hb Hle (Hp & Hl & Hi & Hr). cbn in Hp, Hl, Hi, Hr. subst p. cbn beta iota zeta.
    fold (slice_start offset idx). fold (slice_end offset length' idx).
    set (n := slice_end offset length' idx - slice_start offset idx) in *.
    destruct (read_version info ch txn idx Hrep Ht) as (res & -> & Hres). cbn [mbind outcome_bind].
    assert (Hrow : forall i, i < n -> (offset + (pos + i)) / CAP = idx /\
              (offset + (pos + i)) mod CAP = slice_start offset idx + i).
    { intros i Hi'. apply slice_row_pos; [done|]. lia. }
    destruct res as [v|].
    + destruct Hres as [Hok Hval].
      destruct (scan_slice v (slice_start offset idx) n pos o Hok) as (o2 & -> & Hl2 & Hi2 & Hr2); [lia|].
      eexists. split; [done|]. cbn. split_and!; [done|lia| |].
      * intros i base Hin Hb'. destruct (decide (i < pos)); [by rewrite Hr2 by lia; apply Hi|].
        replace i with (pos + (i - pos)) in Hb' |- * by lia. rewrite Hi2 by lia.
        unfold over. destruct (Hrow (i - pos)) as [-> ->]; [lia|]. rewrite Hval.
        destruct (value_at _ _) as [x|]; [done|]. rewrite Hr, Ho1, decide_True, Hb' by lia. done.
      * intros i Hi'. rewrite Hr2 by lia. apply Hr. lia.
    + eexists. split; [done|]. cbn. split_and!; [done|done| |].
      * intros i base Hin Hb'. destruct (decide (i < pos)); [by apply Hi|].
        rewrite Hr, Ho1, decide_True, Hb' by lia. unfold over.
        replace i with (pos + (i - pos)) by lia. destruct (Hrow (i - pos)) as [-> _]; [lia|]. by rewrite Hres.
      * intros i Hi'. apply Hr. lia.
  - exists o2. split_and!; [done|done|done|]. intros i Hi. rewrite Hr2 by done.
    cbn in *. by rewrite Ho1, decide_False by lia.
Qed.

(** Scan equivalence: scanning any range of rows, across vectors, writes
    to the first positions of the output exactly the values the row-by-row
    lookup reads for the transaction, and leaves the others as they were. *)
Theorem scan_is_lookup cc txn output offset length' :
  valid cc -> proper_txn txn -> length' <= length output -> offset + length' <= length (data cc) ->
  exists output', scan cc txn output offset length' = Ret output' /\ length output' = length output /\
    (forall i out pos, i < length' -> pos < length out ->
       exists x, output' !! i = Some x /\ lookup cc txn (offset + i) out pos = Ret (<[pos := x]> out)) /\
    (forall i, length' <= i -> output' !! i = output !! i).
Proof.
  intros (ch & Hrep & _) Ht Hlen Hdata.
  destruct (scan_over cc ch txn output offset length' Hrep Ht Hlen Hdata) as (o2 & Hrun & Hl2 & Hi & Hrest).
  exists o2. split_and!; [exact Hrun|done| |done].
  intros i out pos Hil Hpos. destruct (lookup_lt_is_Some_2 (data cc) (offset + i)) as [base Hb]; [lia|].
  exists (over ch txn (offset + i) base). split; [by apply Hi|]. by apply lookup_over.
Qed.

(** Writing the entries of one version that lie in [lo, hi) of its vector. *)
Lemma write_entries (info : VectorUpdateInfo.t V) (full : bool) lo hi base output n at_row :
  content_ok (content_of info) -> lo <= hi <= CAP -> (full = true -> lo = 0 /\ hi = CAP) ->
  (forall r, lo <= r < hi -> at_row r = base + (r - lo)) -> base + (hi - lo) <= n -> length output = n ->
  exists output', for_range 0 (VectorUpdateInfo.numRowsUpdated info) (fun i output =>
      row ← load (VectorUpdateInfo.rowsInVector info) i;
      if full || (lo <=? row) && (row <? hi)
      then write_one (VectorUpdateInfo.data info) i output (at_row row)
      else mret output) output = Ret output' /\ length output' = n /\
    (forall i, i < hi - lo -> output' !! (base + i) =
       match value_at (content_of info) (lo + i) with Some x => Some x | None => output !! (base + i) end) /\
    (forall j, j < base \/ base + (hi - lo) <= j -> output' !! j = output !! j).
Proof.
  intros (Hlen & Hnd & Hall) Hlh Hfull Hat Hn Ho. cbn in Hlen, Hnd, Hall. unfold c_rows, c_data in *. cbn in *.
  set (rows := VectorUpdateInfo.rowsInVector info) in *. set (vals := VectorUpdateInfo.data info) in *.
  destruct (for_range_inv (fun k o => length o = n /\
    (forall i, i < hi - lo -> o !! (base + i) =
       match VectorUpdateInfo.find_row (take k rows) (lo + i) ≫= (fun e => vals !! e) with
       | Some x => Some x | None => output !! (base + i) end) /\
    (forall j, j < base \/ base + (hi - lo) <= j -> o !! j = output !! j)) 0 (length rows) (fun i output =>
      row ← load rows i;
      if full || (lo <=? row) && (row <? hi)
      then write_one vals i output (at_row row) else mret output) output) as (o & Hrun & Hl & Hi & Hj).
  - split_and!; [done|done|done].
  - intros k o Hk (Hl & Hi & Hj). cbn [Nat.add].
    destruct (lookup_lt_is_Some_2 rows k Hk) as [r Hr]. run_eq (load_Ret _ _ _ Hr).
    assert (r < CAP) as Hrc by (rewrite Forall_lookup in Hall; by apply (Hall k)).
    assert (full || (lo <=? r) && (r <? hi) = ((lo <=? r) && (r <? hi))) as ->.
    { destruct full; [|done]. destruct Hfull as [-> ->]; [done|]. symmetry. apply andb_true_iff.
      split; [done|by apply Nat.ltb_lt]. }
    assert (Hfind : forall q, VectorUpdateInfo.find_row (take (S k) rows) q =
              match VectorUpdateInfo.find_row (take k rows) q with
              | Some i => Some i | None => if r =? q then Some k else None end).
    { intros q. rewrite (take_S_r _ _ r) by done. rewrite find_row_app, length_take, Nat.min_l by lia. done. }
    assert (VectorUpdateInfo.find_row (take k rows) r = None) as Hnone.
    { apply find_row_None. intros (m & Hm)%list_elem_of_lookup. apply lookup_take_Some in Hm as [Hm Hmk].
      pose proof (NoDup_lookup _ _ _ _ Hnd Hm Hr). lia. }
    destruct (lookup_lt_is_Some_2 vals k) as [x Hx]; [lia|].
    destruct ((lo <=? r) && (r <? hi)) eqn:Hin.
    + apply andb_prop in Hin as [Hlo%Nat.leb_le Hhi%Nat.ltb_lt].
      unfold write_one. run_eq (load_Ret _ _ _ Hx). rewrite Hat by lia.
      rewrite store_Ret by lia. eexists. split; [done|]. rewrite length_insert. split_and!; [done| |].
      * intros i Hil. rewrite Hfind. destruct (decide (r = lo + i)) as [->|Hne].
        -- replace (lo + i - lo) with i by lia. rewrite list_lookup_insert_eq by lia.
           rewrite Hnone, Nat.eqb_refl. cbn. by rewrite Hx.
        -- rewrite list_lookup_insert_ne, Hi by lia. rewrite (proj2 (Nat.eqb_neq _ _)) by done.
           by destruct (VectorUpdateInfo.find_row (take k rows) (lo + i)).
      * intros j Hjn. rewrite list_lookup_insert_ne by lia. by apply Hj.
    + exists o. split_and!; [done|done| |done]. intros i Hil. rewrite Hi, Hfind by done.
      rewrite (proj2 (Nat.eqb_neq r (lo + i))); [by destruct (VectorUpdateInfo.find_row (take k rows) (lo + i))|].
      intros ->. rewrite (proj2 (Nat.leb_le _ _)), (proj2 (Nat.ltb_lt _ _)) in Hin by lia. done.
  - exists o. split_and!; [exact Hrun|done| |done]. intros i Hil. rewrite Hi, take_ge by (done || lia). done.
Qed.

(** The updates written over the base values of the rows, from position
    [start] of the output on. *)
Lemma scanCommittedUpdates_over cc ch txn o1 start startRow numRows :
  represents cc ch -> proper_txn txn -> length o1 = start + numRows ->
  (forall i, i < numRows -> o1 !! (start + i) = data cc !! (startRow + i)) ->
  exists o2, scanCommittedUpdates cc txn o1 start startRow numRows = Ret o2 /\
    length o2 = length o1 /\
    (forall i base, i < numRows -> data cc !! (startRow + i) = Some base ->
       o2 !! (start + i) = Some (over ch txn (startRow + i) base)) /\
    (forall j, j < start -> o2 !! j = o1 !! j).
Proof.
  intros Hrep Ht Hl1 Ho1.
  unfold scanCommittedUpdates. pose proof Hrep as Hrep'. unfold represents in Hrep'.
  destruct (updateInfo cc) as [info|].
  2:{ exists o1. split_and!; [done|done| |done]. intros i base Hi Hb. rewrite Ho1, Hb by done.
      unfold over, updated. by rewrite Hrep'. }
  match goal with |- exists _, for_range _ _ ?body _ = _ /\ _ =>
    destruct (slices_inv startRow numRows (fun pos o => length o = length o1 /\
      (forall i base, i < pos -> data cc !! (startRow + i) = Some base ->
         o !! (start + i) = Some (over ch txn (startRow + i) base)) /\
      (forall j, j < start \/ start + pos <= j -> o !! j = o1 !! j)) body o1)
      as (o2 & -> & Hl2 & Hi2 & Hj2) end.
  - split_and!; [done|lia|done].
  - intros idx pos o Hidx Hat Hb Hle (Hl & Hi & Hj). cbn beta iota zeta.
    fold (slice_start startRow idx). fold (slice_end startRow numRows idx).
    destruct (read_version info ch txn idx Hrep' Ht) as (res & -> & Hres). cbn [mbind outcome_bind].
    assert (Hrow : forall i, i < slice_end startRow numRows idx - slice_start startRow idx ->
              (startRow + (pos + i)) / CAP = idx /\
              (startRow + (pos + i)) mod CAP = slice_start startRow idx + i).
    { intros i Hi'. apply slice_row_pos; [done|]. lia. }
    destruct res as [v|].
    + destruct Hres as [Hok Hval].
      destruct (write_entries v (negb (idx =? startRow / CAP) && negb (idx =? (startRow + numRows) / CAP))
        (slice_start startRow idx) (slice_end startRow numRows idx) (start + pos) o (length o1)
        (fun row => start + idx * CAP + row - startRow) Hok)
        as (o2 & -> & Hl2 & Hi2 & Hj2); [done| |lia|lia|done|].
      { intros [H1 H2]%andb_prop. unfold slice_start, slice_end.
        destruct (idx =? startRow / CAP), (idx =? (startRow + numRows) / CAP); done. }
      exists o2. split_and!; [done|done| |].
      * intros i base Hin Hb'. destruct (decide (i < pos)); [by rewrite Hj2 by lia; apply Hi|].
        replace i with (pos + (i - pos)) in Hb' |- * by lia. rewrite Nat.add_assoc, Hi2 by lia.
        unfold over. destruct (Hrow (i - pos)) as [-> ->]; [lia|]. rewrite Hval.
        destruct (value_at _ _) as [x|]; [done|]. rewrite <-Nat.add_assoc, Hj, Ho1, Hb' by lia. done.
      * intros j Hj'. rewrite Hj2 by lia. apply Hj. lia.
    + exists o. split_and!; [done|done| |].
      * intros i base Hin Hb'. destruct (decide (i < pos)); [by apply Hi|].
        rewrite Hj, Ho1, Hb' by lia. unfold over.
        replace i with (pos + (i - pos)) by lia. destruct (Hrow (i - pos)) as [-> _]; [lia|]. by rewrite Hres.
      * intros j Hj'. apply Hj. lia.
  - exists o2. split_and!; [done|done|done|]. intros j Hj. apply Hj2. lia.
Qed.

(** Scanning the committed state for a checkpoint: a chunk of the asked
    residency appends to the output, for each of the rows, exactly the value the
    row-by-row lookup of the transaction reads; a chunk of the other residency
    appends nothing. *)
Theorem scanCommitted_is_lookup cc txn residency output startRow numRows :
  valid cc -> proper_txn txn -> startRow + numRows <= length (data cc) ->
  if bool_decide (residency = residencyState cc) then
    exists values, scanCommitted cc txn residency output startRow (Some numRows) = Ret (output ++ values) /\
      length values = numRows /\
      (forall i out pos, i < numRows -> pos < length out ->
         exists x, values !! i = Some x /\ lookup cc txn (startRow + i) out pos = Ret (<[pos := x]> out))
  else scanCommitted cc txn residency output startRow (Some numRows) = Ret output.
Proof.
  intros (ch & Hrep & _) Ht Hdata. unfold scanCommitted. cbv zeta. cbn [default id].
  destruct (bool_decide (residency = residencyState cc)); [|done].
  rewrite decide_True by done. cbn [mbind outcome_bind].
  set (o1 := output ++ take numRows (drop startRow (data cc))).
  assert (length (take numRows (drop startRow (data cc))) = numRows) as Hlt
    by (rewrite length_take, length_drop; lia).
  assert (Ho1 : forall i, i < numRows -> o1 !! (length output + i) = data cc !! (startRow + i)).
  { intros i Hi. unfold o1. rewrite lookup_app_r, Nat.add_comm, Nat.add_sub by lia.
    by rewrite lookup_take_lt, lookup_drop by done. }
  assert (length o1 = length output + numRows) as Hl1 by (unfold o1; rewrite length_app; lia).
  destruct (scanCommittedUpdates_over cc ch txn o1 (length output) startRow numRows)
    as (o2 & Hrun & Hl2 & Hi & Hj); [done..|].
  exists (drop (length output) o2). split_and!.
  - rewrite Hrun. f_equal. rewrite <-(take_drop (length output) o2) at 1. f_equal.
    apply list_eq. intros j. destruct (decide (j < length output)).
    + rewrite lookup_take_lt, Hj by done. unfold o1. by rewrite lookup_app_l.
    + rewrite lookup_take_ge, lookup_ge_None_2 by lia. done.
  - rewrite length_drop. lia.
  - intros i out pos Hil Hpos. destruct (lookup_lt_is_Some_2 (data cc) (startRow + i)) as [base Hb]; [lia|].
    exists (over ch txn (startRow + i) base). split; [rewrite lookup_drop; by apply Hi|].
    by apply lookup_over.
Qed.

(** *** The updated rows *)

Lemma entry_value (info : VectorUpdateInfo.t V) e r :
  content_ok (content_of info) -> VectorUpdateInfo.rowsInVector info !! e = Some r ->
  exists x, VectorUpdateInfo.data info !! e = Some x /\ value_at (content_of info) r = Some x.
Proof.
  intros (Hlen & Hnd & _) He. cbn in Hlen, Hnd. unfold c_rows, c_data in *. cbn in Hlen, Hnd.
  destruct (lookup_lt_is_Some_2 (VectorUpdateInfo.data info) e) as [x Hx].
  { apply lookup_lt_Some in He. lia. }
  exists x. split; [done|]. unfold value_at, c_rows, c_data. cbn.
  by rewrite (find_row_nodup _ _ e) by done.
Qed.

Lemma value_entry (info : VectorUpdateInfo.t V) r x :
  value_at (content_of info) r = Some x ->
  exists e, VectorUpdateInfo.rowsInVector info !! e = Some r /\ VectorUpdateInfo.data info !! e = Some x.
Proof.
  unfold value_at, c_rows, c_data. cbn. intros (e & He & Hx)%bind_Some. exists e.
  by split; [apply find_row_Some|].
Qed.

Lemma entry_bound (info : VectorUpdateInfo.t V) r :
  content_ok (content_of info) -> r ∈ VectorUpdateInfo.rowsInVector info -> r < CAP.
Proof. intros (_ & _ & Hall) Hr. rewrite Forall_forall in Hall. by apply Hall. Qed.

(** The rows and values gathered from the first [k] vectors. *)
Definition gathered (ch : nat -> list (pointer * @content V)) txn (k : nat) (s : list nat * list V) : Prop :=
  length s.2 = length s.1 /\ NoDup s.1 /\
  (forall i row, s.1 !! i = Some row ->
     row / CAP < k /\ is_Some (s.2 !! i) /\ s.2 !! i = updated txn ch (row / CAP) (row mod CAP)) /\
  (forall row x, row / CAP < k -> updated txn ch (row / CAP) (row mod CAP) = Some x -> row ∈ s.1).

Lemma gathered_skip ch txn k s :
  (forall r, updated txn ch k r = None) -> gathered ch txn k s -> gathered ch txn (S k) s.
Proof.
  intros Hnone (Hl & Hnd & Hi & Hr). split_and!; [done|done| |].
  - intros i row H. destruct (Hi i row H) as (? & ? & ?). split_and!; [lia|done|done].
  - intros row x Hlt Hu. apply (Hr row x); [|done].
    destruct (decide (row / CAP = k)) as [E|]; [|lia]. rewrite E, Hnone in Hu. done.
Qed.

Lemma gathered_step ch txn k s (info : VectorUpdateInfo.t V) :
  content_ok (content_of info) -> (forall r, updated txn ch k r = value_at (content_of info) r) ->
  gathered ch txn k s ->
  gathered ch txn (S k) (s.1 ++ ((fun row => row + k * CAP) <$> VectorUpdateInfo.rowsInVector info),
                         s.2 ++ VectorUpdateInfo.data info).
Proof.
  intros Hok Hval (Hl & Hnd & Hi & Hr). pose proof Hok as (Hlen & Hnd' & _). cbn in Hlen, Hnd'.
  unfold c_rows, c_data in Hlen, Hnd'. cbn in Hlen, Hnd'.
  assert (Hrow : forall r, r ∈ VectorUpdateInfo.rowsInVector info ->
            (r + k * CAP) / CAP = k /\ (r + k * CAP) mod CAP = r).
  { intros r Hin. rewrite (Nat.add_comm r), (Nat.mul_comm k). apply vector_row. by eapply entry_bound. }
  split_and!; cbn.
  - rewrite !length_app, length_fmap. lia.
  - apply NoDup_app. split_and!; [done| |by apply NoDup_fmap_2; [intros ? ? ?; lia|]].
    intros row (i & Hrow')%list_elem_of_lookup (r & -> & Hin)%list_elem_of_fmap.
    destruct (Hi i _ Hrow') as (Hlt & _). cbn beta in Hlt. destruct (Hrow r Hin) as [E _]. lia.
  - intros i row [H|[Hge H]]%lookup_app_Some.
    + destruct (Hi i row H) as (? & [x Hx] & Hu). rewrite lookup_app_l by (apply lookup_lt_Some in Hx; lia).
      split_and!; [lia|by exists x|done].
    + rewrite list_lookup_fmap in H. apply fmap_Some in H as (r & Hr' & ->).
      destruct (entry_value info _ r Hok Hr') as (x & Hx & Hv).
      destruct (Hrow r) as [Hd Hm]; [apply list_elem_of_lookup; eauto|]. cbn beta. rewrite Hd, Hm.
      rewrite lookup_app_r, Hl, Hx, Hval by lia. split_and!; [lia|by exists x|done].
  - intros row x Hlt Hu. apply elem_of_app. destruct (decide (row / CAP = k)) as [E|].
    + right. rewrite E, Hval in Hu. destruct (value_entry _ _ _ Hu) as (e & He & _).
      apply list_elem_of_fmap. exists (row mod CAP). split; [|by apply list_elem_of_lookup; exists e].
      pose proof (Nat.div_mod_eq row CAP) as Hd. rewrite E in Hd. lia.
    + left. apply (Hr row x); [lia|done].
Qed.

(** The number of rows of the version read in a vector. *)
Definition version_rows (info : UpdateInfo.t V) txn (idx : nat) : nat :=
  match UpdateInfo.getVersion info txn idx with
  | Ret (Some i) => VectorUpdateInfo.numRowsUpdated i
  | _ => 0
  end.

Lemma version_rows_read (info : UpdateInfo.t V) txn idx res :
  UpdateInfo.getVersion info txn idx = Ret res ->
  version_rows info txn idx = match res with Some i => VectorUpdateInfo.numRowsUpdated i | None => 0 end.
Proof. unfold version_rows. by intros ->. Qed.

Lemma beyond_vectors (info : UpdateInfo.t V) ch txn idx r :
  wf info ch -> length (UpdateInfo.vectorsInfo info) <= idx -> updated txn ch idx r = None.
Proof.
  intros Hwf Hi. pose proof (wf_chain _ _ Hwf idx) as Hc. unfold UpdateInfo.head in Hc.
  rewrite lookup_ge_None_2 in Hc by done. unfold updated. by inversion Hc.
Qed.

Lemma scanUpdates_gathered cc (info : UpdateInfo.t V) ch txn :
  updateInfo cc = Some info -> wf info ch -> proper_txn txn ->
  exists s, scanUpdates cc txn = Ret s /\ gathered ch txn (length (UpdateInfo.vectorsInfo info)) s /\
    length s.1 = sum_list (version_rows info txn <$> seq 0 (length (UpdateInfo.vectorsInfo info))).
Proof.
  intros E Hwf Ht. unfold scanUpdates. rewrite E.
  apply (for_range_inv (fun k s => gathered ch txn k s /\
    length s.1 = sum_list (version_rows info txn <$> seq 0 k))).
  - split; [|done]. split_and!; [done|apply NoDup_nil_2|done|lia].
  - intros k [rows vals] Hk [Hg Hn]. cbn [Nat.add]. rewrite seq_S, fmap_app, sum_list_with_app. cbn.
    destruct (read_version info ch txn k Hwf Ht) as (res & Hread & Hres).
    rewrite (version_rows_read info txn k res), Hread by done.
    cbn [mbind outcome_bind]. destruct res as [i|].
    + destruct Hres as [Hok Hval]. pose proof (gathered_step ch txn k (rows, vals) i Hok Hval Hg) as Hg'.
      cbn [fst snd] in Hg'. pose proof Hg' as (Hl & _). cbn in Hl.
      rewrite ku_assert_true by (by apply Nat.eqb_eq). eexists. split; [done|]. split; [done|].
      cbn in *. rewrite length_app, length_fmap. unfold VectorUpdateInfo.numRowsUpdated. lia.
    + eexists. split; [done|]. split; [by apply gathered_skip|]. cbn in *. lia.
Qed.

Lemma getNumUpdatedRows_sum cc (info : UpdateInfo.t V) ch txn :
  updateInfo cc = Some info -> wf info ch -> proper_txn txn ->
  getNumUpdatedRows cc txn =
    Ret (sum_list (version_rows info txn <$> seq 0 (length (UpdateInfo.vectorsInfo info)))).
Proof.
  intros E Hwf Ht. unfold getNumUpdatedRows, UpdateInfo.getNumUpdatedRows. rewrite E.
  destruct (for_range_inv (fun k acc => acc = sum_list (version_rows info txn <$> seq 0 k)) 0
    (length (UpdateInfo.vectorsInfo info)) (fun i numUpdatedRows =>
    i ← UpdateInfo.getVersion info txn i;
    mret (match i with
          | Some i => numUpdatedRows + VectorUpdateInfo.numRowsUpdated i
          | None => numUpdatedRows
          end)) 0) as (acc & -> & ->); [done| |done].
  intros k acc Hk ->. cbn [Nat.add]. rewrite seq_S, fmap_app, sum_list_with_app. cbn.
  destruct (read_version info ch txn k Hwf Ht) as (res & Hres & _).
  rewrite (version_rows_read info txn k res), Hres by done. eexists. split; [done|]. destruct res; cbn; lia.
Qed.

Lemma slice_inclusive startRow numRows idx r :
  startRow / CAP <= idx <= (startRow + numRows) / CAP -> r < CAP ->
  (startRow <= r + idx * CAP <= startRow + numRows <->
   slice_start startRow idx <= r <= slice_end startRow numRows idx).
Proof.
  unfold slice_start, slice_end. pose proof vector_capacity_pos.
  pose proof (Nat.div_mod_eq startRow CAP) as Hs. pose proof (Nat.div_mod_eq (startRow + numRows) CAP) as He.
  pose proof (Nat.mod_upper_bound startRow CAP ltac:(lia)) as Hs'.
  pose proof (Nat.mod_upper_bound (startRow + numRows) CAP ltac:(lia)) as He'.
  revert Hs Hs' He He'. generalize (startRow / CAP), (startRow mod CAP),
    ((startRow + numRows) / CAP), ((startRow + numRows) mod CAP).
  generalize dependent CAP. intros c Hc sk sq ek eq Hs Hs' He He' Hk Hr.
  destruct (Nat.eqb_spec idx sk), (Nat.eqb_spec idx ek); subst; split; intros; nia.
Qed.

Lemma hasUpdates_rows (info : UpdateInfo.t V) ch txn startRow numRows :
  wf info ch -> proper_txn txn ->
  exists b, UpdateInfo.hasUpdates info txn startRow numRows = Ret b /\
    (b = true <-> exists row x, startRow <= row <= startRow + numRows /\
       updated txn ch (row / CAP) (row mod CAP) = Some x).
Proof.
  intros Hwf Ht. unfold UpdateInfo.hasUpdates. pose proof vector_capacity_pos.
  set (sv := startRow / CAP). set (ev := (startRow + numRows) / CAP).
  assert (sv <= ev) as Hse by (apply Nat.Div0.div_le_mono; lia).
  match goal with |- exists b, for_range _ _ ?body _ = _ /\ _ =>
    destruct (for_range_inv (fun k b => b = true <-> exists row x, row / CAP < sv + k /\
      startRow <= row <= startRow + numRows /\ updated txn ch (row / CAP) (row mod CAP) = Some x)
      sv (S ev - sv) body false) as (b & -> & Hb) end.
  - split; [done|]. intros (row & x & Hlt & Hr & _).
    pose proof (Nat.Div0.div_le_mono startRow row CAP ltac:(lia)) as Hmono. fold sv in Hmono. lia.
  - intros k b Hk Hb. cbn beta.
    destruct b.
    + eexists. split; [done|]. split; [|done]. intros _. destruct (proj1 Hb eq_refl) as (row & x & ? & ?).
      exists row, x. split; [lia|done].
    + assert (Hnew : forall row x, row / CAP < sv + S k -> startRow <= row <= startRow + numRows ->
        updated txn ch (row / CAP) (row mod CAP) = Some x -> row / CAP = sv + k).
      { intros row x H1 H2 H3. destruct (decide (row / CAP < sv + k)) as [Hlt|]; [|lia].
        exfalso. assert (false = true) by (apply Hb; by exists row, x). done. }
      destruct (read_version info ch txn (sv + k) Hwf Ht) as (res & -> & Hres). cbn [mbind outcome_bind].
      destruct res as [i|].
      * destruct Hres as [Hok Hval]. eexists. split; [done|]. rewrite existsb_exists.
        assert (Hincl := slice_inclusive startRow numRows (sv + k)).
        unfold slice_start, slice_end in Hincl. fold sv ev in Hincl. split.
        -- intros (r & Hin & Hmem%bool_decide_eq_true). rewrite in_seq in Hin.
           pose proof (entry_bound i r Hok Hmem) as Hrc.
           apply list_elem_of_lookup in Hmem as [e He]. destruct (entry_value i e r Hok He) as (x & _ & Hx).
           exists (r + (sv + k) * CAP), x.
           destruct (vector_row (sv + k) r Hrc) as [Hd Hm].
           rewrite (Nat.add_comm r), (Nat.mul_comm (sv + k)), Hd, Hm, Hval.
           assert (startRow <= r + (sv + k) * CAP <= startRow + numRows) as Hrange by (apply Hincl; lia).
           split_and!; [lia|lia|lia|done].
        -- intros (row & x & Hlt & Hrange & Hu). pose proof (Hnew row x Hlt Hrange Hu) as E.
           rewrite E, Hval in Hu. exists (row mod CAP).
           assert (row mod CAP < CAP) as Hmod by (apply Nat.mod_upper_bound; lia).
           pose proof (Nat.div_mod_eq row CAP) as Hdm. rewrite E in Hdm.
           destruct (Hincl (row mod CAP)) as [Hi _]; [lia|done|]. rewrite in_seq.
           split; [lia|]. apply bool_decide_eq_true. destruct (value_entry _ _ _ Hu) as (e & He & _).
           apply list_elem_of_lookup. eauto.
      * eexists. split; [done|]. split; [done|]. intros (row & x & Hlt & Hrange & Hu).
        pose proof (Hnew row x Hlt Hrange Hu) as E. by rewrite E, Hres in Hu.
  - exists b. split; [done|]. rewrite Hb. split.
    + intros (row & x & _ & ? & ?). by exists row, x.
    + intros (row & x & Hr & ?). exists row, x. split_and!; [|lia|lia|done].
      pose proof (Nat.Div0.div_le_mono row (startRow + numRows) CAP ltac:(lia)) as Hmono. fold ev in Hmono. lia.
Qed.

(** The updated rows of a chunk: [scanUpdates] lists, without repetition,
    the rows whose value the transaction reads from an update, each with that
    value; every other row reads its base value; [getNumUpdatedRows] is their
    number, and [hasUpdates] tells whether one of them is at [startRow] or up to
    [numRows] rows further on. *)
Theorem scanUpdates_complete cc txn :
  valid cc -> proper_txn txn -> updateInfo cc <> None ->
  exists rows values, scanUpdates cc txn = Ret (rows, values) /\
    length values = length rows /\ NoDup rows /\
    getNumUpdatedRows cc txn = Ret (length rows) /\
    (forall i row x out pos, rows !! i = Some row -> values !! i = Some x ->
       row < length (data cc) -> pos < length out -> lookup cc txn row out pos = Ret (<[pos := x]> out)) /\
    (forall row base out pos, row ∉ rows -> data cc !! row = Some base -> pos < length out ->
       lookup cc txn row out pos = Ret (<[pos := base]> out)) /\
    (forall startRow numRows, exists b, hasUpdates cc txn startRow numRows = Ret b /\
       (b = true <-> exists row, row ∈ rows /\ startRow <= row <= startRow + numRows)).
Proof.
  intros (ch & Hrep & _) Ht Hsome. pose proof Hrep as Hwf. unfold represents in Hwf.
  unfold hasUpdates. destruct (updateInfo cc) as [info|] eqn:Einfo; [|done]. clear Hsome.
  destruct (scanUpdates_gathered cc info ch txn Einfo Hwf Ht) as ([rows vals] & -> & (Hl & Hnd & Hi & Hr) & Hn).
  cbn in Hl, Hnd, Hi, Hr, Hn. exists rows, vals. split_and!; [done..| | | |].
  - rewrite (getNumUpdatedRows_sum cc info ch) by done. by rewrite Hn.
  - intros i row x out pos Hrow Hx Hlt Hpos. destruct (lookup_lt_is_Some_2 (data cc) row Hlt) as [base Hb].
    rewrite (lookup_over cc ch txn row base) by done. unfold over.
    destruct (Hi i row Hrow) as (_ & _ & <-). by rewrite Hx.
  - intros row base out pos Hnot Hb Hpos. rewrite (lookup_over cc ch txn row base) by done. unfold over.
    destruct (updated txn ch (row / CAP) (row mod CAP)) as [x|] eqn:Hu; [|done].
    destruct (decide (row / CAP < length (UpdateInfo.vectorsInfo info))) as [Hlt|Hge].
    + by destruct Hnot; eapply Hr.
    + by rewrite (beyond_vectors info) in Hu by (done || lia).
  - intros startRow numRows. destruct (hasUpdates_rows info ch txn startRow numRows Hwf Ht) as (b & -> & Hb).
    exists b. split; [done|]. rewrite Hb. split.
    + intros (row & x & Hrange & Hu). exists row. split; [|done].
      destruct (decide (row / CAP < length (UpdateInfo.vectorsInfo info))) as [Hlt|Hge]; [by eapply Hr|].
      by rewrite (beyond_vectors info) in Hu by (done || lia).
    + intros (row & (i & Hrow)%list_elem_of_lookup & Hrange).
      destruct (Hi i row Hrow) as (_ & [x Hx] & Hu). exists row, x. split; [done|]. congruence.
Qed.
End spec.

(** *** Where the code falls short *)

Definition writer1 : Transaction.t := Transaction.make Transaction.WRITE (START_TRANSACTION_ID + 1) 1.
Definition writer2 : Transaction.t := Transaction.make Transaction.WRITE (START_TRANSACTION_ID + 2) 1.
Definition writer3 : Transaction.t := Transaction.make Transaction.WRITE (START_TRANSACTION_ID + 3) 5.
Definition writer4 : Transaction.t := Transaction.make Transaction.WRITE (START_TRANSACTION_ID + 4) 5.

Definition example_chunk : t Z := mk IN_MEMORY [10; 20; 30]%Z None.

Definition undo_of {V} (r : t V * option undo) : outcome undo :=
  match r.2 with Some u => Ret u | None => Undef end.

(** After a rollback the version chain has a dangling pointer: one
    transaction updates a row and commits, a second one updates it and rolls
    back, which all succeeds; then any update of the vector by a third one
    follows the [next] pointer the rollback left in the older version to the
    destroyed object, which is undefined. Reading is not affected: the third
    transaction still reads the committed value. *)
Theorem update_after_rollback_undefined (v1 v2 v3 : Z) :
  let after_rollback :=
    r1 ← update example_chunk writer1 0 v1; u1 ← undo_of r1; c2 ← commitUpdate r1.1 u1 5;
    r3 ← update c2 writer3 0 v2; u3 ← undo_of r3; rollbackUpdate r3.1 writer3 u3 in
  exists cc, after_rollback = Ret cc /\
    lookup cc writer4 0 [0%Z] 0 = Ret [v1] /\
    update cc writer4 0 v3 = Undef /\ update cc writer4 2 v3 = Undef.
Proof. intros after. unfold after. eexists.
  do 3 (split; [vm_compute; reflexivity|]). vm_compute; reflexivity.
Qed.

(** With several write transactions at a time an update leaks uncommitted
    values: a new version starts as a copy of the newest one, whoever wrote it.
    After a first transaction has updated row 0, a second one reads the old value
    there; once the second has updated row 1 of the same vector it reads the
    first one's uncommitted value at row 0, and rolling the first transaction
    back follows a null pointer. *)
Theorem concurrent_update_leaks (v1 v2 : Z) :
  exists r1 u1 cc2,
    update example_chunk writer1 0 v1 = Ret (r1, Some u1) /\
    lookup r1 writer2 0 [0%Z] 0 = Ret [10%Z] /\
    (r2 ← update r1 writer2 1 v2; Ret r2.1) = Ret cc2 /\
    lookup cc2 writer2 0 [0%Z] 0 = Ret [v1] /\
    rollbackUpdate cc2 writer1 u1 = Undef.
Proof. eexists _, _, _. do 4 (split; [vm_compute; reflexivity|]). vm_compute; reflexivity. Qed.

(** *** Witnesses *)

Lemma valid_base res (l : list Z) : valid (mk res l None).
Proof. by exists (fun _ => []). Qed.

Lemma proper_writer1 : proper_txn writer1.
Proof. done. Qed.

(** A chunk with an update of row 1 by [writer1]. *)
Definition example_updated : t Z :=
  match update example_chunk writer1 1 99%Z with Ret (cc, _) => cc | _ => example_chunk end.

Lemma example_updated_valid : valid example_updated.
Proof.
  pose proof (update_chains example_chunk (fun _ => []) writer1 1 99%Z ltac:(done) I proper_writer1 ltac:(done)) as H.
  change (conflict example_chunk writer1 1) with false in H. destruct H as (cc & p & Hrun & _ & Hl & Hrep & _).
  unfold example_updated. rewrite Hrun. by eexists.
Qed.

Lemma update_outcome_witness :
  exists cc' u, update example_chunk writer1 1 99%Z = Ret (cc', Some u) /\
    lookup cc' writer1 1 [0%Z] 0 = Ret [99%Z] /\
    lookup cc' writer2 1 [0%Z] 0 = lookup example_chunk writer2 1 [0%Z] 0.
Proof.
  pose proof (update_outcome example_chunk writer1 1 99%Z (valid_base _ _) proper_writer1) as H.
  change (conflict example_chunk writer1 1) with false in H.
  destruct H as (cc' & u & Hrun & _ & Hown & Hother & _); [done|cbn; lia|].
  exists cc', u. split_and!; [done|by apply Hown; cbn; lia|by apply Hother].
Defined.

Lemma update_commit_atomic_witness :
  exists cc1 u cc2, update example_chunk writer1 1 99%Z = Ret (cc1, Some u) /\
    commitUpdate cc1 u 5 = Ret cc2 /\
    lookup cc2 writer2 1 [0%Z] 0 = lookup example_chunk writer2 1 [0%Z] 0 /\
    lookup cc2 writer3 1 [0%Z] 0 = lookup cc1 writer1 1 [0%Z] 0.
Proof.
  destruct (update_commit_atomic example_chunk writer1 1 99%Z 5 (valid_base _ _) proper_writer1)
    as (cc1 & u & cc2 & Hrun & Hc & _ & Hold & Hnew); [done..|].
  exists cc1, u, cc2. split_and!; [done|done|by apply Hold|by apply Hnew].
Defined.

Lemma update_rollback_invisible_witness :
  exists cc1 u cc2, update example_chunk writer1 1 99%Z = Ret (cc1, Some u) /\
    rollbackUpdate cc1 writer1 u = Ret cc2 /\
    lookup cc2 writer1 1 [0%Z] 0 = lookup example_chunk writer1 1 [0%Z] 0.
Proof.
  destruct (update_rollback_invisible example_chunk writer1 1 99%Z (valid_base _ _) proper_writer1)
    as (cc1 & u & cc2 & Hrun & Hc & Hall); [done..|].
  exists cc1, u, cc2. split_and!; [done|done|by apply Hall].
Defined.

Lemma scan_is_lookup_witness :
  exists output', scan example_updated writer1 [0; 0; 0; 0]%Z 1 2 = Ret output' /\
    exists x, output' !! 0 = Some x /\ lookup example_updated writer1 1 [0%Z] 0 = Ret [x].
Proof.
  destruct (scan_is_lookup example_updated writer1 [0; 0; 0; 0]%Z 1 2 example_updated_valid proper_writer1)
    as (o & Hrun & _ & Hi & _); [cbn; lia|vm_compute; lia|].
  exists o. split; [done|]. by destruct (Hi 0 [0%Z] 0) as (x & Hx & Hl); [lia|cbn; lia|]; exists x.
Defined.

Lemma scanCommitted_is_lookup_witness :
  exists values, scanCommitted example_updated writer1 IN_MEMORY [7%Z] 0 (Some 3) = Ret ([7%Z] ++ values) /\
    length values = 3.
Proof.
  destruct (scanCommitted_is_lookup example_updated writer1 IN_MEMORY [7%Z] 0 3
    example_updated_valid proper_writer1) as (vs & Hrun & Hl & _); [vm_compute; lia|]. by exists vs.
Defined.

Lemma scanUpdates_complete_witness :
  exists rows values, scanUpdates example_updated writer1 = Ret (rows, values) /\
    getNumUpdatedRows example_updated writer1 = Ret (length rows).
Proof.
  destruct (scanUpdates_complete example_updated writer1 example_updated_valid proper_writer1)
    as (rows & vs & Hrun & _ & _ & Hn & _); [vm_compute; congruence|]. by exists rows, vs.
Defined.
