(* ===== verification/FreeSpaceManager.v ===== *)
(** Pages of the data file ([storage/free_space_manager.cpp],
    [page_manager.cpp], [optimistic_allocator.cpp], and the page count of
    [file_handle.cpp]): free page ranges in lists by size, best-fit allocation,
    ranges that become free at the next checkpoint, and their serialisation.
    Page indices are 32-bit. A [std::set] ordered by [entryCmp] is its sorted
    list. *)
From S2P Require Import Prelude Serializer.
Local Open Scope Z_scope.

Module PageRange.
Record t := mk { startPageIdx : Z; numPages : Z }.
#[global] Instance eq_dec : EqDecision t.
Proof. solve_decision. Defined.
Definition endPageIdx (r : t) : Z := u32 (startPageIdx r + numPages r).
End PageRange.
Import PageRange.

Module FileHandle.
(** [numPages], and the pages whose frames the buffer manager was asked to
    drop, last first. *)
Record t := mk { numPages : Z; removedFrames : list Z }.

(** [addNewPages]: page by page. *)
Definition addNewPages (fh : t) (numNewPages : Z) : t * Z :=
  (mk (Nat.iter (Z.to_nat numNewPages) (fun n => u32 (n + 1)) (numPages fh)) (removedFrames fh),
   numPages fh).

Definition removePageIdxAndTruncateIfNecessary (fh : t) (pageIdx : Z) : t :=
  if numPages fh <=? pageIdx then fh else mk pageIdx (removedFrames fh).

Definition removePageFromFrameIfNecessary (fh : t) (pageIdx : Z) : t :=
  mk (numPages fh) (pageIdx :: removedFrames fh).
End FileHandle.

Module FreeSpaceManager.
Record t := mk {
  freeLists : list (list PageRange.t);
  uncheckpointedFreePageRanges : list PageRange.t;
  numEntries : Z;
  needClearEvictedEntries : bool;
}.

Definition init : t := mk [] [] 0 false.

(** [CountZeros::Trailing(std::bit_floor(numPages))]. *)
Definition bit_floor (z : Z) : Z := if z =? 0 then 0 else 2 ^ Z.log2 z.
Fixpoint trailing_zeros (p : positive) : nat :=
  match p with xO p => S (trailing_zeros p) | _ => O end.
Definition count_trailing (z : Z) : nat :=
  match z with Zpos p => trailing_zeros p | _ => O end.
Definition getLevel (numPages : Z) : outcome nat :=
  _ ← ku_assert (0 <? numPages);
  mret (count_trailing (bit_floor numPages)).

Definition entryCmp (a b : PageRange.t) : bool :=
  if PageRange.numPages a =? PageRange.numPages b then startPageIdx a <? startPageIdx b
  else PageRange.numPages a <? PageRange.numPages b.

(** *** The sets *)

Fixpoint set_insert (e : PageRange.t) (l : list PageRange.t) : list PageRange.t :=
  match l with
  | [] => [e]
  | x :: l' =>
      if entryCmp e x then e :: l
      else if entryCmp x e then x :: set_insert e l' else l
  end.

Definition set_contains (e : PageRange.t) (l : list PageRange.t) : bool :=
  existsb (fun x => negb (entryCmp e x) && negb (entryCmp x e)) l.

(** The position of the first element that is not before [key]. *)
Fixpoint lower_bound (key : PageRange.t) (l : list PageRange.t) : option nat :=
  match l with
  | [] => None
  | x :: l' => if entryCmp x key then S <$> lower_bound key l' else Some O
  end.

(** *** Operations *)

Definition getFreeList (lists : list (list PageRange.t)) (level : nat) : list (list PageRange.t) :=
  lists ++ replicate (S level - length lists) [].

Definition addFreePages (s : t) (entry : PageRange.t) : outcome t :=
  _ ← ku_assert (0 <? PageRange.numPages entry);
  entryLevel ← getLevel (PageRange.numPages entry);
  let lists := getFreeList (freeLists s) entryLevel in
  freeList ← load lists entryLevel;
  _ ← ku_assert (negb (set_contains entry freeList));
  mret (mk (<[entryLevel := set_insert entry freeList]> lists) (uncheckpointedFreePageRanges s)
          (u64 (numEntries s + 1)) (needClearEvictedEntries s)).

(** Marks the pages as evicted and drops their frames one by one. *)
Definition evictPages (s : t) (fh : FileHandle.t) (entry : PageRange.t) : t * FileHandle.t :=
  (mk (freeLists s) (uncheckpointedFreePageRanges s) (numEntries s) true,
   fold_left (fun fh i => FileHandle.removePageFromFrameIfNecessary fh (u32 (startPageIdx entry + i)))
     (seqZ 0 (PageRange.numPages entry)) fh).

Definition evictAndAddFreePages (s : t) (fh : FileHandle.t) (entry : PageRange.t)
  : outcome (t * FileHandle.t) :=
  let '(s, fh) := evictPages s fh entry in
  s ← addFreePages s entry;
  mret (s, fh).

Definition addUncheckpointedFreePages (s : t) (entry : PageRange.t) : t :=
  mk (freeLists s) (uncheckpointedFreePageRanges s ++ [entry]) (numEntries s) (needClearEvictedEntries s).

Definition rollbackCheckpoint (s : t) : t :=
  mk (freeLists s) [] (numEntries s) (needClearEvictedEntries s).

Definition splitPageRange (s : t) (chunk : PageRange.t) (numRequiredPages : Z)
  : outcome (t * PageRange.t) :=
  _ ← ku_assert (numRequiredPages <=? PageRange.numPages chunk);
  let ret := PageRange.mk (startPageIdx chunk) numRequiredPages in
  if numRequiredPages <? PageRange.numPages chunk then
    s ← addFreePages s (PageRange.mk (u32 (startPageIdx chunk + numRequiredPages))
                          (PageRange.numPages chunk - numRequiredPages));
    mret (s, ret)
  else mret (s, ret).

(** The search loop over the levels from [levelToSearch] on; [fuel] is the
    number of levels left. *)
Fixpoint searchLevels (s : t) (fuel levelToSearch : nat) (numPages : Z)
  : outcome (t * option PageRange.t) :=
  match fuel with
  | O => mret (s, None)
  | S fuel =>
      curList ← load (freeLists s) levelToSearch;
      match lower_bound (PageRange.mk 0 numPages) curList with
      | Some i =>
          entry ← load curList i;
          '(s, ret) ← splitPageRange
            (mk (<[levelToSearch := delete i curList]> (freeLists s)) (uncheckpointedFreePageRanges s)
               (u64 (numEntries s - 1)) (needClearEvictedEntries s)) entry numPages;
          mret (s, Some ret)
      | None => searchLevels s fuel (S levelToSearch) numPages
      end
  end.

Definition popFreePages (s : t) (numPages : Z) : outcome (t * option PageRange.t) :=
  if 0 <? numPages then
    levelToSearch ← getLevel numPages;
    searchLevels s (length (freeLists s) - levelToSearch) levelToSearch numPages
  else mret (s, None).

(** *** Merging at the end of a checkpoint *)

Definition resetFreeLists (s : t) : t :=
  mk [] (uncheckpointedFreePageRanges s) 0 (needClearEvictedEntries s).

(** [std::sort] by the first page. *)
Fixpoint sort_insert (e : PageRange.t) (l : list PageRange.t) : list PageRange.t :=
  match l with
  | [] => [e]
  | x :: l' => if startPageIdx e <? startPageIdx x then e :: l else x :: sort_insert e l'
  end.
Definition sortByStart (l : list PageRange.t) : list PageRange.t := fold_right sort_insert [] l.

Definition handleLastPageRange (s : t) (fh : FileHandle.t) (pageRange : PageRange.t)
  : outcome (t * FileHandle.t) :=
  if endPageIdx pageRange =? FileHandle.numPages fh
  then mret (s, FileHandle.removePageIdxAndTruncateIfNecessary fh (startPageIdx pageRange))
  else s ← addFreePages s pageRange; mret (s, fh).

Fixpoint mergeLoop (s : t) (prevEntry : PageRange.t) (entries : list PageRange.t)
  : outcome (t * PageRange.t) :=
  match entries with
  | [] => mret (s, prevEntry)
  | entry :: entries =>
      _ ← ku_assert (endPageIdx prevEntry <=? startPageIdx entry);
      if endPageIdx prevEntry =? startPageIdx entry
      then mergeLoop s (PageRange.mk (startPageIdx prevEntry)
                          (u32 (PageRange.numPages prevEntry + PageRange.numPages entry))) entries
      else s ← addFreePages s prevEntry; mergeLoop s entry entries
  end.

Definition mergePageRanges (s : t) (fh : FileHandle.t) (newInitialEntries : list PageRange.t)
  : outcome (t * FileHandle.t) :=
  let allEntries := newInitialEntries ++ concat (freeLists s) in
  match allEntries with
  | [] => mret (s, fh)
  | _ =>
      let s := resetFreeLists s in
      match sortByStart allEntries with
      | [] => Undef
      | prevEntry :: entries =>
          '(s, prevEntry) ← mergeLoop s prevEntry entries;
          handleLastPageRange s fh prevEntry
      end
  end.

(** The ranges are moved out for the merge, then the list is cleared. *)
Definition finalizeCheckpoint (s : t) (fh : FileHandle.t) : outcome (t * FileHandle.t) :=
  let uncheckpointed := uncheckpointedFreePageRanges s in
  let '(s, fh) := fold_left (fun '(s, fh) entry => evictPages s fh entry) uncheckpointed (s, fh) in
  '(s, fh) ← mergePageRanges s fh uncheckpointed;
  mret (mk (freeLists s) [] (numEntries s) (needClearEvictedEntries s), fh).

(** *** Iteration: [FreeEntryIterator], a list and a position in it *)

Module Iterator.
Record t := mk_it { freeListIdx : nat; position : nat }.

(** The first non-empty list from [idx] on. *)
Fixpoint advanceFreeListIdx (lists : list (list PageRange.t)) (fuel idx : nat) : nat :=
  match fuel with
  | O => idx
  | S fuel =>
      match lists !! idx with
      | Some (_ :: _) => idx
      | Some [] => advanceFreeListIdx lists fuel (S idx)
      | None => idx
      end
  end.

Definition make (lists : list (list PageRange.t)) (idx : nat) : t :=
  mk_it (advanceFreeListIdx lists (length lists - idx) idx) 0.
Definition done (lists : list (list PageRange.t)) (it : t) : bool := (length lists <=? freeListIdx it)%nat.
Definition deref (lists : list (list PageRange.t)) (it : t) : outcome PageRange.t :=
  freeList ← load lists (freeListIdx it);
  load freeList (position it).
Definition next (lists : list (list PageRange.t)) (it : t) : outcome t :=
  freeList ← load lists (freeListIdx it);
  if (S (position it) =? length freeList)%nat
  then mret (make lists (S (freeListIdx it)))
  else mret (mk_it (freeListIdx it) (S (position it))).

(** [while (!it.done()) { visit the element; ++it; }]. *)
Fixpoint collect (lists : list (list PageRange.t)) (fuel : nat) (it : t)
  : outcome (list PageRange.t) :=
  if done lists it then mret []
  else match fuel with
       | O => Undef
       | S fuel =>
           entry ← deref lists it;
           it ← next lists it;
           entries ← collect lists fuel it;
           mret (entry :: entries)
       end.

Definition advance (lists : list (list PageRange.t)) (numEntries : nat) (it : t) : outcome t :=
  for_range 0 numEntries (fun _ it => next lists it) it.
End Iterator.

Definition getEntries (s : t) (startOffset endOffset : nat) : outcome (list PageRange.t) :=
  _ ← ku_assert (startOffset <=? endOffset)%nat;
  it ← Iterator.advance (freeLists s) startOffset (Iterator.make (freeLists s) 0);
  '(ret, _) ← for_range 0 (endOffset - startOffset) (fun _ st =>
      let '(ret, it) := st in
      _ ← ku_assert (negb (Iterator.done (freeLists s) it));
      entry ← Iterator.deref (freeLists s) it;
      it ← Iterator.next (freeLists s) it;
      mret (ret ++ [entry], it)) ([], it);
  mret ret.

(** *** Serialisation *)

(** What [serializeInternal] passes to its processor: the bytes of a value, or
    the text of a debugging marker. *)
Inductive item := Value (bs : bytes) | DebuggingInfo (text : string).

Definition range_values (r : PageRange.t) : list item :=
  [Value (Serializer.serialize u32_codec (startPageIdx r));
   Value (Serializer.serialize u32_codec (PageRange.numPages r))].

Definition serializeInternal (s : t) : outcome (list item) :=
  let numEntries := u64 (numEntries s + Z.of_nat (length (uncheckpointedFreePageRanges s))) in
  checkpointed ← Iterator.collect (freeLists s) (length (concat (freeLists s)))
                   (Iterator.make (freeLists s) 0);
  _ ← ku_assert (Z.of_nat (length checkpointed + length (uncheckpointedFreePageRanges s)) =? numEntries);
  mret ([DebuggingInfo "page_manager"; DebuggingInfo "numEntries";
         Value (Serializer.serialize u64_codec numEntries); DebuggingInfo "entries"] ++
        concat (map range_values (checkpointed ++ uncheckpointedFreePageRanges s))).

(** [ValueSerializer]: a marker writes nothing. *)
Definition item_bytes (i : item) : bytes :=
  match i with Value bs => bs | DebuggingInfo _ => [] end.

Definition serialize (s : t) : outcome bytes :=
  items ← serializeInternal s; mret (concat (map item_bytes items)).

Definition PAGE_SIZE : Z := 2 ^ 12.

(** [SerializePagesUsedTracker]: pages and bytes used in the last page; it
    counts the markers too. *)
Definition updatePagesUsed (st : Z * Z) (numBytesToAdd : Z) : Z * Z :=
  let '(numPagesUsed, numBytesUsedInPage) := st in
  let '(numPagesUsed, numBytesUsedInPage) :=
    if PAGE_SIZE <? numBytesUsedInPage + numBytesToAdd
    then (numPagesUsed + 1, 0) else (numPagesUsed, numBytesUsedInPage) in
  (numPagesUsed, numBytesUsedInPage + numBytesToAdd).

Definition track (st : Z * Z) (i : item) : Z * Z :=
  match i with
  | Value bs => updatePagesUsed st (Z.of_nat (length bs))
  | DebuggingInfo text => updatePagesUsed st (8 + Z.of_nat (String.length text))
  end.

Definition getMaxNumPagesForSerialization (s : t) : outcome Z :=
  items ← serializeInternal s;
  let '(numPagesUsed, numBytesUsedInPage) := fold_left track items (0, 0) in
  mret (numPagesUsed + (if 0 <? numBytesUsedInPage then 1 else 0)).

Definition read_range : reader PageRange.t := fun bs =>
  '(start, bs) ← Serializer.deserialize u32_codec bs;
  '(num, bs) ← Serializer.deserialize u32_codec bs;
  mret (PageRange.mk start num, bs).

Fixpoint deserializeEntries (n : nat) (s : t) (bs : bytes) : outcome (t * bytes) :=
  match n with
  | O => mret (s, bs)
  | S n =>
      '(entry, bs) ← read_range bs;
      s ← addFreePages s entry;
      deserializeEntries n s bs
  end.

Definition deserialize (s : t) (bs : bytes) : outcome (t * bytes) :=
  '(numEntries, bs) ← Serializer.deserialize u64_codec bs;
  deserializeEntries (Z.to_nat numEntries) s bs.
End FreeSpaceManager.

Module PageManager.
Record t := mk_pm {
  freeSpaceManager : FreeSpaceManager.t;
  fileHandle : FileHandle.t;
  version : Z;
}.

Definition allocatePageRange (pm : t) (numPages : Z) : outcome (t * PageRange.t) :=
  '(fsm, allocatedFreeChunk) ← FreeSpaceManager.popFreePages (freeSpaceManager pm) numPages;
  match allocatedFreeChunk with
  | Some range => mret (mk_pm fsm (fileHandle pm) (u64 (version pm + 1)), range)
  | None =>
      let '(fh, startPageIdx) := FileHandle.addNewPages (fileHandle pm) numPages in
      _ ← ku_assert (u32 (startPageIdx + numPages) <=? FileHandle.numPages fh);
      mret (mk_pm fsm fh (version pm), PageRange.mk startPageIdx numPages)
  end.

Definition freePageRange (pm : t) (entry : PageRange.t) : t :=
  mk_pm (FreeSpaceManager.addUncheckpointedFreePages (freeSpaceManager pm) entry) (fileHandle pm)
    (u64 (version pm + 1)).

Definition freeImmediatelyRewritablePageRange (pm : t) (entry : PageRange.t) : outcome t :=
  '(fsm, fh) ← FreeSpaceManager.evictAndAddFreePages (freeSpaceManager pm) (fileHandle pm) entry;
  mret (mk_pm fsm fh (u64 (version pm + 1))).

Definition finalizeCheckpoint (pm : t) : outcome t :=
  '(fsm, fh) ← FreeSpaceManager.finalizeCheckpoint (freeSpaceManager pm) (fileHandle pm);
  mret (mk_pm fsm fh (version pm)).

Definition rollbackCheckpoint (pm : t) : t :=
  mk_pm (FreeSpaceManager.rollbackCheckpoint (freeSpaceManager pm)) (fileHandle pm) (version pm).

Definition changedSinceLastCheckpoint (pm : t) : bool := negb (version pm =? 0).
End PageManager.

Module OptimisticAllocator.
(** The page manager is shared; the allocator adds the list of its pages. *)
Definition allocatePageRange (pm : PageManager.t) (pages : list PageRange.t) (numPages : Z)
  : outcome (PageManager.t * list PageRange.t * PageRange.t) :=
  '(pm, range) ← PageManager.allocatePageRange pm numPages;
  mret (pm, if 0 <? numPages then pages ++ [range] else pages, range).

Fixpoint rollback (pm : PageManager.t) (pages : list PageRange.t)
  : outcome (PageManager.t * list PageRange.t) :=
  match pages with
  | [] => mret (pm, [])
  | entry :: pages => pm ← PageManager.freeImmediatelyRewritablePageRange pm entry; rollback pm pages
  end.

Definition commit (pm : PageManager.t) (pages : list PageRange.t) : PageManager.t * list PageRange.t :=
  (pm, []).
End OptimisticAllocator.
