(* ===== verification/FreeSpaceFacts.v ===== *)
(** Facts on [FreeSpaceManager.v]: page ranges as lists of pages, the
    representation invariant of the free lists, and what each operation does to
    the free ranges, as lists up to permutation. *)
From S2P Require Import Prelude Serializer FreeSpaceManager.
From Stdlib Require Import Sorted Permutation.
Import PageRange FreeSpaceManager.
Local Open Scope Z_scope.

Module FreeFacts.
(** ** Ranges as pages *)

Definition pages (r : PageRange.t) : list Z := seqZ (startPageIdx r) (PageRange.numPages r).
Definition all_pages (l : list PageRange.t) : list Z := concat (map pages l).

Definition ok (r : PageRange.t) : Prop :=
  0 < PageRange.numPages r /\ 0 <= startPageIdx r /\ startPageIdx r + PageRange.numPages r < 2 ^ 32.

Definition free (s : FreeSpaceManager.t) : list PageRange.t := concat (freeLists s).

Lemma elem_of_pages p r : p ∈ pages r <-> startPageIdx r <= p < startPageIdx r + PageRange.numPages r.
Proof. unfold pages. rewrite elem_of_seqZ. done. Qed.

Lemma all_pages_app l1 l2 : all_pages (l1 ++ l2) = all_pages l1 ++ all_pages l2.
Proof. unfold all_pages. by rewrite map_app, concat_app. Qed.

Lemma all_pages_cons r l : all_pages (r :: l) = pages r ++ all_pages l.
Proof. done. Qed.

#[global] Instance all_pages_proper : Proper ((≡ₚ) ==> (≡ₚ)) all_pages.
Proof.
  intros l1 l2. unfold all_pages. induction 1; cbn.
  - done.
  - by f_equiv.
  - by rewrite !(assoc (++)), (Permutation_app_comm (pages y)).
  - by etrans.
Qed.

Lemma elem_of_all_pages p l : p ∈ all_pages l <-> exists r, r ∈ l /\ p ∈ pages r.
Proof.
  induction l as [|r l IH]; [split; [by intros ?%not_elem_of_nil|by intros (? & ?%not_elem_of_nil & _)]|].
  rewrite all_pages_cons, elem_of_app, IH. split.
  - intros [?|(r' & ? & ?)]; [exists r; split; [left|done]|exists r'; split; [by right|done]].
  - intros (r' & [->|?]%elem_of_cons & ?); [by left|right; by exists r'].
Qed.

Lemma pages_split start n1 n2 :
  0 <= n1 -> 0 <= n2 ->
  pages (PageRange.mk start (n1 + n2)) =
    pages (PageRange.mk start n1) ++ pages (PageRange.mk (start + n1) n2).
Proof. intros. unfold pages. cbn. by rewrite seqZ_app. Qed.

Lemma start_in_pages r : ok r -> startPageIdx r ∈ pages r.
Proof. intros (? & ? & ?). apply elem_of_pages. lia. Qed.

Lemma endPageIdx_ok r : ok r -> endPageIdx r = startPageIdx r + PageRange.numPages r.
Proof. intros (? & ? & ?). apply wrap_small. lia. Qed.

(** Ranges with disjoint pages, on the file's 32-bit indices, are few. *)
Lemma length_ranges l : Forall ok l -> NoDup (all_pages l) -> Z.of_nat (length l) <= 2 ^ 32.
Proof.
  intros Hok Hnd.
  assert (Z.of_nat (length l) <= Z.of_nat (length (all_pages l))) as Hle.
  { clear Hnd. induction Hok as [|r l (Hr & _) _ IH]; [done|].
    rewrite all_pages_cons, length_app. unfold pages at 1. rewrite length_seqZ. cbn. lia. }
  assert (length (all_pages l) <= length (seqZ 0 (2 ^ 32)))%nat as Hle2.
  { apply submseteq_length, NoDup_submseteq; [done|]. intros p (r & Hr & Hp)%elem_of_all_pages.
    rewrite Forall_forall in Hok. specialize (Hok r Hr) as (? & ? & ?).
    apply elem_of_pages in Hp. apply elem_of_seqZ. lia. }
  rewrite length_seqZ in Hle2. lia.
Qed.

(** ** The order of the sets *)

Definition before (a b : PageRange.t) : Prop := entryCmp a b = true.

Lemma entryCmp_spec a b :
  entryCmp a b = true <->
  PageRange.numPages a < PageRange.numPages b \/
  (PageRange.numPages a = PageRange.numPages b /\ startPageIdx a < startPageIdx b).
Proof.
  unfold entryCmp. destruct (Z.eqb_spec (PageRange.numPages a) (PageRange.numPages b)).
  - rewrite Z.ltb_lt. lia.
  - rewrite Z.ltb_lt. lia.
Qed.

Lemma entryCmp_false a b :
  entryCmp a b = false <->
  PageRange.numPages b < PageRange.numPages a \/
  (PageRange.numPages a = PageRange.numPages b /\ startPageIdx b <= startPageIdx a).
Proof. rewrite <-not_true_iff_false, entryCmp_spec. lia. Qed.

Lemma entryCmp_eq a b : entryCmp a b = false -> entryCmp b a = false -> a = b.
Proof. rewrite !entryCmp_false. destruct a, b. cbn. intros. f_equal; lia. Qed.

Lemma before_trans a b c : before a b -> before b c -> before a c.
Proof. unfold before. rewrite !entryCmp_spec. lia. Qed.

Lemma set_insert_sorted e l : StronglySorted before l -> StronglySorted before (set_insert e l).
Proof.
  induction 1 as [|x l Hl IH Hx]; cbn; [by repeat constructor|].
  destruct (entryCmp e x) eqn:E1; [|destruct (entryCmp x e) eqn:E2].
  - constructor; [by constructor|]. constructor; [done|].
    eapply Forall_impl; [done|]. intros y. by apply before_trans.
  - constructor; [done|]. clear IH. induction l as [|y l IHl]; cbn; [by repeat constructor|].
    apply Forall_cons in Hx as [Hxy Hx]. inversion Hl; subst.
    destruct (entryCmp e y); [by repeat constructor|]. destruct (entryCmp y e); [|by constructor].
    constructor; [done|]. by apply IHl.
  - by constructor.
Qed.

Lemma set_insert_perm e l : set_contains e l = false -> set_insert e l ≡ₚ e :: l.
Proof.
  unfold set_contains. induction l as [|x l IH]; cbn; [done|].
  intros [Hx Hl]%orb_false_elim. destruct (entryCmp e x); [done|].
  destruct (entryCmp x e); [|done]. rewrite IH by done. apply Permutation_swap.
Qed.

Lemma set_contains_false e l : e ∉ l -> set_contains e l = false.
Proof.
  intros Hnot. unfold set_contains. apply not_true_iff_false. intros (x & Hin & Hx)%existsb_exists.
  apply andb_prop in Hx as [H1%negb_true_iff H2%negb_true_iff]. apply Hnot.
  rewrite (entryCmp_eq e x H1 H2). by apply list_elem_of_In.
Qed.

Lemma sorted_lookup (l : list PageRange.t) i j x y :
  StronglySorted before l -> (i < j)%nat -> l !! i = Some x -> l !! j = Some y -> before x y.
Proof.
  intros Hs. revert i j. induction Hs as [|z l _ IH Hz]; intros i j Hij Hi Hj; [done|].
  destruct j as [|j]; [lia|]. destruct i as [|i]; cbn in Hi, Hj.
  - injection Hi as ->. rewrite Forall_forall in Hz. apply Hz. by eapply list_elem_of_lookup_2.
  - apply (IH i j); [lia|done..].
Qed.

Lemma sorted_delete (l : list PageRange.t) i : StronglySorted before l -> StronglySorted before (delete i l).
Proof.
  intros Hs. revert i. induction Hs as [|z l Hl IH Hz]; intros i; [destruct i; constructor|].
  destruct i as [|i]; cbn; [done|]. constructor; [apply IH|].
  rewrite Forall_forall in *. intros x Hx. apply Hz. by eapply list_elem_of_delete_inv.
Qed.

Lemma lower_bound_spec key l :
  match lower_bound key l with
  | None => forall x, x ∈ l -> entryCmp x key = true
  | Some i => (exists e, l !! i = Some e /\ entryCmp e key = false) /\
      forall j x, (j < i)%nat -> l !! j = Some x -> entryCmp x key = true
  end.
Proof.
  induction l as [|x l IH]; cbn; [intros x ?%not_elem_of_nil; done|].
  destruct (entryCmp x key) eqn:E.
  - destruct (lower_bound key l) as [i|]; cbn.
    + destruct IH as [He Hb]. split; [done|]. intros [|j] y Hj Hy; cbn in Hy; [congruence|].
      apply (Hb j); [lia|done].
    + intros y [->|Hy]%elem_of_cons; [done|by apply IH].
  - split; [by exists x|]. intros j y Hj. lia.
Qed.

(** ** Levels *)

Lemma count_trailing_pow k : count_trailing (2 ^ Z.of_nat k) = k.
Proof.
  induction k as [|k IH]; [done|]. rewrite Nat2Z.inj_succ, Z.pow_succ_r by lia.
  pose proof (Z.pow_pos_nonneg 2 (Z.of_nat k) ltac:(lia) ltac:(lia)).
  destruct (2 ^ Z.of_nat k) as [|p|p]; [lia| |lia]. change (2 * Z.pos p) with (Z.pos p~0).
  cbn [count_trailing trailing_zeros] in *. by rewrite IH.
Qed.

Definition level (n : Z) : nat := Z.to_nat (Z.log2 n).

Lemma getLevel_spec n : 0 < n -> getLevel n = Ret (level n).
Proof.
  intros Hn. unfold getLevel, bit_floor. rewrite ku_assert_true by by apply Z.ltb_lt.
  rewrite (proj2 (Z.eqb_neq n 0)) by lia. cbn. f_equal.
  rewrite <-(Z2Nat.id (Z.log2 n)) at 1 by apply Z.log2_nonneg. apply count_trailing_pow.
Qed.

Lemma level_mono a b : a <= b -> (level a <= level b)%nat.
Proof. intros. unfold level. apply Z2Nat.inj_le; [apply Z.log2_nonneg..|]. by apply Z.log2_le_mono. Qed.

(** ** The invariant *)

Record wf (s : FreeSpaceManager.t) : Prop := {
  wf_sorted k l : freeLists s !! k = Some l -> StronglySorted before l;
  wf_level k l e : freeLists s !! k = Some l -> e ∈ l -> level (PageRange.numPages e) = k;
  wf_ok : Forall ok (free s);
  wf_disjoint_pages : NoDup (all_pages (free s));
  wf_count : numEntries s = Z.of_nat (length (free s));
}.

Lemma init_wf_fsm : wf init.
Proof.
  split; [intros k l; by destruct k|intros k l e; by destruct k|constructor|constructor|done].
Qed.

Lemma elem_of_free s k l e : freeLists s !! k = Some l -> e ∈ l -> e ∈ free s.
Proof.
  intros Hk He. unfold free. apply list_elem_of_In, in_concat. exists l.
  split; apply list_elem_of_In; [by eapply list_elem_of_lookup_2|done].
Qed.

Lemma free_elem_of s e : e ∈ free s -> exists k l, freeLists s !! k = Some l /\ e ∈ l.
Proof.
  unfold free. intros He%list_elem_of_In. apply in_concat in He as (l & Hl & He).
  apply list_elem_of_In, list_elem_of_lookup in Hl as [k Hk]. exists k, l. by rewrite list_elem_of_In.
Qed.

Lemma concat_insert {A} (ls : list (list A)) k l l' :
  ls !! k = Some l -> exists rest, concat ls ≡ₚ l ++ rest /\ concat (<[k := l']> ls) ≡ₚ l' ++ rest.
Proof.
  intros Hk. exists (concat (take k ls) ++ concat (drop (S k) ls)). split.
  - rewrite <-(take_drop_middle ls k l) at 1 by done. rewrite concat_app. cbn.
    apply Permutation_app_swap_app.
  - rewrite insert_take_drop by (by eapply lookup_lt_Some). rewrite concat_app. cbn.
    apply Permutation_app_swap_app.
Qed.

Lemma concat_replicate_nil {A} n : concat (replicate n (@nil A)) = [].
Proof. by induction n. Qed.

Lemma concat_getFreeList lists k : concat (getFreeList lists k) = concat lists.
Proof. unfold getFreeList. by rewrite concat_app, concat_replicate_nil, app_nil_r. Qed.

Lemma getFreeList_lookup lists k j :
  getFreeList lists k !! j =
    match lists !! j with
    | Some l => Some l
    | None => if decide (j < S k)%nat then Some [] else None
    end.
Proof.
  unfold getFreeList. destruct (lists !! j) as [l|] eqn:E; [by apply lookup_app_l_Some|].
  apply lookup_ge_None in E. rewrite lookup_app_r by done. destruct (decide (j < S k)%nat).
  - apply lookup_replicate_2. lia.
  - apply lookup_ge_None. rewrite length_replicate. lia.
Qed.

(** ** Adding a range *)

Definition fresh_range (s : FreeSpaceManager.t) (e : PageRange.t) : Prop :=
  NoDup (all_pages (e :: free s)).

Lemma fresh_not_free s e : ok e -> fresh_range s e -> e ∉ free s.
Proof.
  intros Hok Hnd He. unfold fresh_range in Hnd. rewrite all_pages_cons in Hnd.
  apply NoDup_app in Hnd as (_ & Hnd & _). apply (Hnd (startPageIdx e)); [by apply start_in_pages|].
  apply elem_of_all_pages. exists e. split; [done|by apply start_in_pages].
Qed.

Lemma addFreePages_spec s e :
  wf s -> ok e -> fresh_range s e ->
  exists s', addFreePages s e = Ret s' /\ wf s' /\ free s' ≡ₚ e :: free s /\
    uncheckpointedFreePageRanges s' = uncheckpointedFreePageRanges s /\
    needClearEvictedEntries s' = needClearEvictedEntries s.
Proof.
  intros Hwf Hok Hfresh. pose proof Hok as (Hn & _). unfold addFreePages.
  rewrite ku_assert_true by by apply Z.ltb_lt. rewrite getLevel_spec by done. cbn [mbind outcome_bind].
  remember (level (PageRange.numPages e)) as k eqn:Hkdef. set (lists := getFreeList (freeLists s) k).
  assert (concat lists = free s) as Hfree by apply concat_getFreeList.
  assert (exists l, lists !! k = Some l) as [l Hl].
  { unfold lists. rewrite getFreeList_lookup. destruct (freeLists s !! k) as [l|]; [by exists l|].
    rewrite decide_True by lia. by exists []. }
  run_eq (load_Ret _ _ _ Hl).
  assert (Hin : forall x, x ∈ l -> x ∈ free s).
  { intros x Hx. rewrite <-Hfree. apply list_elem_of_In, in_concat. exists l.
    split; apply list_elem_of_In; [by eapply list_elem_of_lookup_2|done]. }
  assert (set_contains e l = false) as Hc.
  { apply set_contains_false. intros He. by apply (fresh_not_free s e), Hin. }
  rewrite ku_assert_true by by rewrite Hc.
  destruct (concat_insert lists k l (set_insert e l) Hl) as (rest & Hold & Hnew).
  assert (concat (<[k := set_insert e l]> lists) ≡ₚ e :: free s) as Hperm.
  { rewrite Hnew, set_insert_perm, <-Hfree, Hold by done. done. }
  eexists. split; [done|]. split_and!; [|done|done|done]. split; cbn.
  - intros j l' Hj. apply list_lookup_insert_Some in Hj as [(-> & <- & _)|(Hne & Hj)].
    + apply set_insert_sorted. unfold lists in Hl. rewrite getFreeList_lookup in Hl.
      destruct (freeLists s !! _) as [l0|] eqn:E; [injection Hl as <-; by eapply wf_sorted|].
      rewrite decide_True in Hl by lia. injection Hl as <-. constructor.
    + unfold lists in Hj. rewrite getFreeList_lookup in Hj.
      destruct (freeLists s !! j) eqn:E; [injection Hj as <-; by eapply wf_sorted|].
      destruct (decide _); [injection Hj as <-; constructor|done].
  - intros j l' x Hj Hx. apply list_lookup_insert_Some in Hj as [(-> & <- & _)|(Hne & Hj)].
    + rewrite set_insert_perm in Hx by done. apply elem_of_cons in Hx as [->|Hx]; [congruence|].
      unfold lists in Hl. rewrite getFreeList_lookup in Hl.
      destruct (freeLists s !! _) as [l0|] eqn:E; [injection Hl as <-; by eapply wf_level|].
      rewrite decide_True in Hl by lia. injection Hl as <-. by apply not_elem_of_nil in Hx.
    + unfold lists in Hj. rewrite getFreeList_lookup in Hj.
      destruct (freeLists s !! j) eqn:E; [injection Hj as <-; by eapply wf_level|].
      destruct (decide _); [injection Hj as <-; by apply not_elem_of_nil in Hx|done].
  - rewrite Hperm. constructor; [done|apply Hwf].
  - change (NoDup (all_pages (concat (<[k:=set_insert e l]> lists)))). by rewrite Hperm.
  - rewrite Hperm, (wf_count _ Hwf). cbn [length].
    assert (Z.of_nat (length (e :: free s)) <= 2 ^ 32) as Hle
      by (apply length_ranges; [constructor; [done|apply Hwf]|done]).
    cbn [length] in Hle. unfold u64. rewrite wrap_small by lia. lia.
Qed.

(** ** Allocating *)

(** The state without a range that was taken out of its list. *)
Lemma delete_free_spec s k l i e :
  wf s -> freeLists s !! k = Some l -> l !! i = Some e ->
  let s' := FreeSpaceManager.mk (<[k := delete i l]> (freeLists s)) (uncheckpointedFreePageRanges s)
              (u64 (numEntries s - 1)) (needClearEvictedEntries s) in
  wf s' /\ free s ≡ₚ e :: free s'.
Proof.
  intros Hwf Hk Hi s'. destruct (concat_insert (freeLists s) k l (delete i l) Hk) as (rest & Hold & Hnew).
  assert (free s ≡ₚ e :: free s') as Hperm.
  { unfold free, s'. cbn. rewrite Hold, Hnew. by rewrite (delete_Permutation l i e Hi) at 1. }
  split; [|done]. pose proof (wf_ok _ Hwf) as Hok. pose proof (wf_disjoint_pages _ Hwf) as Hnd.
  pose proof (wf_count _ Hwf) as Hcount. pose proof (length_ranges _ Hok Hnd) as Hlen.
  rewrite Hperm in Hok, Hnd, Hcount, Hlen. rewrite all_pages_cons in Hnd. split.
  - intros j l' Hj. unfold s' in Hj. cbn in Hj.
    apply list_lookup_insert_Some in Hj as [(-> & <- & _)|(Hne & Hj)]; [|by eapply wf_sorted].
    apply sorted_delete. by eapply wf_sorted.
  - intros j l' x Hj Hx. unfold s' in Hj. cbn in Hj.
    apply list_lookup_insert_Some in Hj as [(-> & <- & _)|(Hne & Hj)]; [|by eapply wf_level].
    eapply wf_level; [done|done|by eapply list_elem_of_delete_inv].
  - by apply Forall_cons in Hok as [_ ?].
  - by apply NoDup_app in Hnd as (_ & _ & ?).
  - change (numEntries s') with (u64 (numEntries s - 1)). rewrite Hcount. cbn [length] in *.
    unfold u64. rewrite wrap_small by lia. lia.
Qed.

(** The range to take: the smallest one with enough pages, and of those the
    first in the file. *)
Definition best_fit (s : FreeSpaceManager.t) (n : Z) (e : PageRange.t) : Prop :=
  e ∈ free s /\ n <= PageRange.numPages e /\
  forall e', e' ∈ free s -> n <= PageRange.numPages e' -> e' = e \/ before e e'.

Lemma splitPageRange_spec s e n :
  wf s -> ok e -> fresh_range s e -> 0 < n <= PageRange.numPages e ->
  exists s', splitPageRange s e n = Ret (s', PageRange.mk (startPageIdx e) n) /\ wf s' /\
    pages (PageRange.mk (startPageIdx e) n) ++ all_pages (free s') ≡ₚ pages e ++ all_pages (free s) /\
    (length (free s') <= S (length (free s)))%nat /\
    uncheckpointedFreePageRanges s' = uncheckpointedFreePageRanges s.
Proof.
  intros Hwf Hok Hfresh [Hn Hle]. unfold splitPageRange. rewrite ku_assert_true by by apply Z.leb_le.
  cbn [mbind outcome_bind]. pose proof Hok as (Hpos & Hstart & Hend).
  destruct (Z.ltb_spec n (PageRange.numPages e)) as [Hlt|Hge].
  - unfold u32. rewrite wrap_small by lia.
    set (r := PageRange.mk (startPageIdx e + n) (PageRange.numPages e - n)).
    assert (pages e = pages (PageRange.mk (startPageIdx e) n) ++ pages r) as Hsplit.
    { destruct e as [st num]. cbn in *. replace num with (n + (num - n)) at 1 by lia.
      by rewrite pages_split by lia. }
    assert (ok r) as Hokr by (split_and!; cbn; lia).
    destruct (addFreePages_spec s r Hwf Hokr) as (s' & -> & Hwf' & Hperm & Hunc & _).
    { unfold fresh_range in *. rewrite all_pages_cons, Hsplit, <-app_assoc in Hfresh.
      by apply NoDup_app in Hfresh as (_ & _ & ?). }
    exists s'. split_and!; [done|done| | |done].
    + rewrite Hperm, all_pages_cons, Hsplit. by rewrite app_assoc.
    + by rewrite Hperm.
  - exists s. assert (n = PageRange.numPages e) as -> by lia. split_and!; [by destruct e|done| |lia|done].
    by destruct e.
Qed.

Lemma searchLevels_spec s n fuel k :
  wf s -> 0 < n -> (fuel = length (freeLists s) - k)%nat ->
  (forall e, e ∈ free s -> n <= PageRange.numPages e -> (k <= level (PageRange.numPages e))%nat) ->
  (exists s' r e, searchLevels s fuel k n = Ret (s', Some r) /\ best_fit s n e /\
     r = PageRange.mk (startPageIdx e) n /\ wf s' /\
     pages r ++ all_pages (free s') ≡ₚ all_pages (free s) /\
     (length (free s') <= length (free s))%nat /\
     uncheckpointedFreePageRanges s' = uncheckpointedFreePageRanges s) \/
  (searchLevels s fuel k n = Ret (s, None) /\ forall e, e ∈ free s -> PageRange.numPages e < n).
Proof.
  intros Hwf Hn. revert k. induction fuel as [|fuel IH]; intros k Hf Hlev; cbn [searchLevels].
  - right. split; [done|]. intros e He.
    destruct (Z.lt_ge_cases (PageRange.numPages e) n) as [|Hge]; [done|].
    pose proof (Hlev e He Hge) as Hk. destruct (free_elem_of s e He) as (j & l & Hj & Hel).
    rewrite (wf_level _ Hwf j l e Hj Hel) in Hk. apply lookup_lt_Some in Hj. lia.
  - destruct (lookup_lt_is_Some_2 (freeLists s) k) as [l Hl]; [lia|]. run_eq (load_Ret _ _ _ Hl).
    pose proof (lower_bound_spec (PageRange.mk 0 n) l) as Hb.
    assert (Hpos : forall e, e ∈ free s -> 0 <= startPageIdx e).
    { intros e He. pose proof (wf_ok _ Hwf) as Hok. rewrite Forall_forall in Hok. by apply (Hok e He). }
    destruct (lower_bound (PageRange.mk 0 n) l) as [i|].
    + left. destruct Hb as [(e & Hi & Hge%entryCmp_false) Hlow]. cbn in Hge. run_eq (load_Ret _ _ _ Hi).
      assert (e ∈ l) as Hel by (by eapply list_elem_of_lookup_2).
      pose proof (elem_of_free s k l e Hl Hel) as He.
      assert (n <= PageRange.numPages e) as Hnum by lia.
      assert (best_fit s n e) as Hbest.
      { split_and!; [done|done|]. intros e' He' Hnum'.
        destruct (free_elem_of s e' He') as (k' & l' & Hk' & Hel').
        pose proof (Hlev e' He' Hnum') as Hkk. rewrite (wf_level _ Hwf k' l' e') in Hkk by done.
        destruct (decide (k' = k)) as [->|Hne].
        - rewrite Hl in Hk'. injection Hk' as <-. apply list_elem_of_lookup in Hel' as [j Hj].
          destruct (decide (j = i)) as [->|Hji]; [left; congruence|].
          destruct (decide (j < i)%nat) as [Hlt|].
          + specialize (Hlow j e' Hlt Hj). apply entryCmp_spec in Hlow. cbn in Hlow.
            specialize (Hpos e' He'). lia.
          + right. apply (sorted_lookup l i j); [by eapply wf_sorted|lia|done..].
        - right. apply entryCmp_spec. left. pose proof (wf_level _ Hwf k l e Hl Hel) as L1.
          pose proof (wf_level _ Hwf k' l' e' Hk' Hel') as L2.
          destruct (Z.lt_ge_cases (PageRange.numPages e) (PageRange.numPages e')) as [|Hge']; [done|].
          apply level_mono in Hge'. lia. }
      destruct (delete_free_spec s k l i e Hwf Hl Hi) as [Hwf1 Hperm1].
      pose proof (wf_ok _ Hwf) as Hok. rewrite Forall_forall in Hok.
      destruct (splitPageRange_spec _ e n Hwf1 (Hok e He)) as (s' & -> & Hwf' & Hp & Hlen & Hunc); [|done|].
      { unfold fresh_range. rewrite <-Hperm1. apply Hwf. }
      exists s', (PageRange.mk (startPageIdx e) n), e. split_and!; [done..| | |done].
      * rewrite Hp, Hperm1. done.
      * rewrite Hperm1. done.
    + destruct (IH (S k)) as [(s' & r & e & H)|[H1 H2]]; [lia| |left; by exists s', r, e|right; done].
      intros e He Hnum. pose proof (Hlev e He Hnum) as Hk.
      destruct (decide (level (PageRange.numPages e) = k)) as [E|]; [|lia].
      destruct (free_elem_of s e He) as (j & l' & Hj & Hel).
      pose proof (wf_level _ Hwf j l' e Hj Hel) as L. assert (j = k) as -> by lia.
      rewrite Hl in Hj. injection Hj as <-. specialize (Hb e Hel). apply entryCmp_spec in Hb. cbn in Hb.
      specialize (Hpos e He). lia.
Qed.

Lemma popFreePages_spec s n :
  wf s -> 0 < n ->
  (exists s' r e, popFreePages s n = Ret (s', Some r) /\ best_fit s n e /\
     r = PageRange.mk (startPageIdx e) n /\ wf s' /\
     pages r ++ all_pages (free s') ≡ₚ all_pages (free s) /\
     (length (free s') <= length (free s))%nat /\
     uncheckpointedFreePageRanges s' = uncheckpointedFreePageRanges s) \/
  (popFreePages s n = Ret (s, None) /\ forall e, e ∈ free s -> PageRange.numPages e < n).
Proof.
  intros Hwf Hn. unfold popFreePages. rewrite (proj2 (Z.ltb_lt _ _)), getLevel_spec by done.
  apply searchLevels_spec; [done..|]. intros e _ He. by apply level_mono.
Qed.

(** ** Merging *)

Definition endOf (r : PageRange.t) : Z := startPageIdx r + PageRange.numPages r.
Definition apart (a b : PageRange.t) : Prop := endOf a <= startPageIdx b.
Definition gap (a b : PageRange.t) : Prop := endOf a < startPageIdx b.

Lemma sort_insert_perm e l : sort_insert e l ≡ₚ e :: l.
Proof.
  induction l as [|x l IH]; cbn; [done|]. destruct (_ <? _); [done|]. rewrite IH. apply Permutation_swap.
Qed.

Lemma sortByStart_perm l : sortByStart l ≡ₚ l.
Proof. induction l as [|x l IH]; cbn; [done|]. by rewrite sort_insert_perm, IH. Qed.

Lemma sortByStart_sorted l : StronglySorted (fun a b => startPageIdx a <= startPageIdx b) (sortByStart l).
Proof.
  unfold sortByStart. induction l as [|e l IH]; cbn; [constructor|].
  induction IH as [|x l0 Hl IH0 Hx]; cbn; [by repeat constructor|].
  destruct (Z.ltb_spec (startPageIdx e) (startPageIdx x)).
  - constructor; [by constructor|]. constructor; [lia|]. eapply Forall_impl; [done|]. cbn. intros. lia.
  - constructor; [done|]. rewrite sort_insert_perm. constructor; [lia|done].
Qed.

Lemma sorted_apart l :
  StronglySorted (fun a b => startPageIdx a <= startPageIdx b) l -> Forall ok l -> NoDup (all_pages l) ->
  StronglySorted apart l.
Proof.
  induction 1 as [|x l Hl IH Hx]; intros Hok Hnd; [constructor|].
  apply Forall_cons in Hok as [Hokx Hok]. rewrite all_pages_cons in Hnd.
  apply NoDup_app in Hnd as (_ & Hdis & Hnd). constructor; [by apply IH|].
  rewrite Forall_forall in *. intros y Hy. unfold apart, endOf.
  destruct (Z.le_gt_cases (startPageIdx x + PageRange.numPages x) (startPageIdx y)) as [|Hgt]; [done|].
  exfalso. apply (Hdis (startPageIdx y)).
  - apply elem_of_pages. specialize (Hx y Hy). lia.
  - apply elem_of_all_pages. exists y. split; [done|]. by apply start_in_pages, Hok.
Qed.

(** What the merge makes of a sorted list: the closed ranges, and the last one. *)
Fixpoint coalesce (prev : PageRange.t) (entries : list PageRange.t) : list PageRange.t * PageRange.t :=
  match entries with
  | [] => ([], prev)
  | e :: entries =>
      if endOf prev =? startPageIdx e
      then coalesce (PageRange.mk (startPageIdx prev) (PageRange.numPages prev + PageRange.numPages e)) entries
      else let '(out, last) := coalesce e entries in (prev :: out, last)
  end.

Definition coalesced (prev : PageRange.t) (entries : list PageRange.t) : list PageRange.t :=
  (coalesce prev entries).1 ++ [(coalesce prev entries).2].

Lemma merged_ok a b : ok a -> ok b -> endOf a = startPageIdx b ->
  ok (PageRange.mk (startPageIdx a) (PageRange.numPages a + PageRange.numPages b)).
Proof. unfold ok, endOf. cbn. lia. Qed.

Lemma merged_pages a b : ok a -> ok b -> endOf a = startPageIdx b ->
  pages (PageRange.mk (startPageIdx a) (PageRange.numPages a + PageRange.numPages b)) = pages a ++ pages b.
Proof.
  unfold ok, endOf. intros ? ? E. rewrite pages_split by lia. rewrite E. by destruct a, b.
Qed.

Lemma merged_apart a b l :
  endOf a = startPageIdx b -> Forall (apart b) l ->
  Forall (apart (PageRange.mk (startPageIdx a) (PageRange.numPages a + PageRange.numPages b))) l.
Proof.
  intros E Hl. eapply Forall_impl; [done|]. unfold apart, endOf in *. cbn. intros x. lia.
Qed.

Lemma coalesced_spec prev entries :
  Forall ok (prev :: entries) -> StronglySorted apart (prev :: entries) ->
  Forall ok (coalesced prev entries) /\
  all_pages (coalesced prev entries) = all_pages (prev :: entries) /\
  StronglySorted gap (coalesced prev entries) /\
  Forall (fun r => startPageIdx prev <= startPageIdx r) (coalesced prev entries) /\
  (length (coalesced prev entries) <= S (length entries))%nat.
Proof.
  unfold coalesced. revert prev.
  induction entries as [|e entries IH]; intros prev Hok Hs; cbn [coalesce].
  - split_and!; [done|done|by repeat constructor|by repeat constructor|done].
  - apply Forall_cons in Hok as [Hokp Hok]. inversion Hs as [|? ? Hs' Hp]; subst.
    pose proof Hok as [Hoke _]%Forall_cons. destruct (Z.eqb_spec (endOf prev) (startPageIdx e)) as [E|E].
    + destruct (IH (PageRange.mk (startPageIdx prev) (PageRange.numPages prev + PageRange.numPages e)))
        as (H1 & H2 & H3 & H4 & H5).
      * apply Forall_cons in Hok as [_ Hok]. constructor; [by apply merged_ok|done].
      * inversion Hs'; subst. constructor; [done|]. by apply merged_apart.
      * split_and!; [done| |done|done|cbn in *; lia]. rewrite H2, !all_pages_cons, merged_pages by done.
        by rewrite app_assoc.
    + destruct (IH e Hok Hs') as (H1 & H2 & H3 & H4 & H5).
      destruct (coalesce e entries) as [out last]. cbn [fst snd app length] in *. apply Forall_cons in Hp as [Hpe Hp].
      split_and!; [by constructor| | | |lia].
      * rewrite !all_pages_cons. by rewrite H2.
      * constructor; [done|]. eapply Forall_impl; [exact H4|]. cbn. unfold gap, apart in *. intros x ?. lia.
      * constructor; [lia|]. eapply Forall_impl; [exact H4|]. cbn. intros x ?.
        unfold apart, endOf in Hpe. destruct Hokp as (? & _). lia.
Qed.

Lemma mergeLoop_spec s prev entries :
  wf s -> Forall ok (prev :: entries) -> StronglySorted apart (prev :: entries) ->
  NoDup (all_pages ((prev :: entries) ++ free s)) ->
  exists s', mergeLoop s prev entries = Ret (s', (coalesce prev entries).2) /\ wf s' /\
    free s' ≡ₚ (coalesce prev entries).1 ++ free s /\
    uncheckpointedFreePageRanges s' = uncheckpointedFreePageRanges s /\
    needClearEvictedEntries s' = needClearEvictedEntries s.
Proof.
  revert s prev. induction entries as [|e entries IH]; intros s prev Hwf Hok Hs Hnd; cbn [mergeLoop coalesce].
  - by exists s.
  - apply Forall_cons in Hok as [Hokp Hok]. inversion Hs as [|? ? Hs' Hp]; subst.
    apply Forall_cons in Hp as [Hpe Hp]. pose proof Hok as [Hoke _]%Forall_cons.
    rewrite endPageIdx_ok by done. fold (endOf prev). rewrite ku_assert_true by by apply Z.leb_le.
    destruct (Z.eqb_spec (endOf prev) (startPageIdx e)) as [E|E].
    + unfold u32. rewrite wrap_small by (unfold ok, endOf in *; lia).
      apply IH; [done| | |].
      * apply Forall_cons in Hok as [_ Hok]. constructor; [by apply merged_ok|done].
      * inversion Hs'; subst. constructor; [done|]. by apply merged_apart.
      * cbn [app] in *. rewrite !all_pages_cons in Hnd. rewrite all_pages_cons, merged_pages by done.
        by rewrite <-app_assoc.
    + destruct (addFreePages_spec s prev Hwf Hokp) as (s1 & -> & Hwf1 & Hperm1 & Hu1 & Hc1).
      { unfold fresh_range. rewrite all_pages_cons.
        change ((prev :: e :: entries) ++ free s) with (prev :: ((e :: entries) ++ free s)) in Hnd.
        rewrite all_pages_cons, all_pages_app in Hnd. apply NoDup_app in Hnd as (Hn1 & Hn2 & Hn3).
        apply NoDup_app in Hn3 as (_ & _ & Hn3). apply NoDup_app. split_and!; [done| |done].
        intros x Hx Hx'. apply (Hn2 x Hx), elem_of_app. by right. }
      cbn [mbind outcome_bind]. destruct (IH s1 e Hwf1 Hok Hs') as (s2 & -> & Hwf2 & Hperm2 & Hu2 & Hc2).
      { rewrite Hperm1. rewrite <-Permutation_middle. done. }
      destruct (coalesce e entries) as [out last]. cbn [fst snd app] in *. exists s2.
      split_and!; [done|done| |congruence|congruence].
      rewrite Hperm2, Hperm1. symmetry. apply Permutation_middle.
Qed.

Lemma gap_not_adjacent l a b :
  Forall ok l -> StronglySorted gap l -> a ∈ l -> b ∈ l -> endOf a <> startPageIdx b.
Proof.
  intros Hok Hs. revert Hok a b. induction Hs as [|x l Hs IH Hx]; intros Hok a b Ha Hb;
    [by apply not_elem_of_nil in Ha|].
  apply Forall_cons in Hok as [Hokx Hok]. rewrite Forall_forall in Hx.
  pose proof Hok as Hok'. rewrite Forall_forall in Hok'. unfold gap, ok, endOf in *.
  apply elem_of_cons in Ha as [->|Ha]; apply elem_of_cons in Hb as [->|Hb].
  - lia.
  - specialize (Hx b Hb). lia.
  - specialize (Hx a Ha). specialize (Hok' a Ha). lia.
  - by apply IH.
Qed.

Lemma evictPages_spec s fh e :
  ok e ->
  exists s', evictPages s fh e = (s', FileHandle.mk (FileHandle.numPages fh)
                                    (rev (pages e) ++ FileHandle.removedFrames fh)) /\
    freeLists s' = freeLists s /\ numEntries s' = numEntries s /\
    uncheckpointedFreePageRanges s' = uncheckpointedFreePageRanges s.
Proof.
  intros Hok. unfold evictPages. eexists. split_and!; [f_equal|done|done|done].
  assert (pages e = (fun i => u32 (startPageIdx e + i)) <$> seqZ 0 (PageRange.numPages e)) as ->.
  { unfold pages. rewrite <-(Z.add_0_r (startPageIdx e)) at 1. rewrite <-fmap_add_seqZ.
    apply list_fmap_ext. intros i x Hx. apply lookup_seqZ in Hx as [-> Hx].
    unfold u32. rewrite wrap_small; [done|]. unfold ok in Hok. lia. }
  generalize (seqZ 0 (PageRange.numPages e)). intros l. revert fh.
  induction l as [|x l IH]; intros [n fr]; [done|]. cbn [fold_left]. rewrite IH.
  cbn. by rewrite <-app_assoc.
Qed.

Lemma evict_all s fh l :
  Forall ok l ->
  exists s', fold_left (fun '(s, fh) entry => evictPages s fh entry) l (s, fh) =
      (s', FileHandle.mk (FileHandle.numPages fh) (rev (all_pages l) ++ FileHandle.removedFrames fh)) /\
    freeLists s' = freeLists s /\ numEntries s' = numEntries s /\
    uncheckpointedFreePageRanges s' = uncheckpointedFreePageRanges s.
Proof.
  intros Hok. revert s fh. induction Hok as [|e l He _ IH]; intros s [n fr]; cbn [fold_left].
  - by exists s.
  - destruct (evictPages_spec s (FileHandle.mk n fr) e He) as (s1 & -> & H1 & H2 & H3).
    cbn [FileHandle.numPages FileHandle.removedFrames].
    destruct (IH s1 (FileHandle.mk n (rev (pages e) ++ fr))) as (s2 & -> & G1 & G2 & G3).
    cbn [FileHandle.numPages FileHandle.removedFrames].
    exists s2. split_and!; [|congruence..]. rewrite all_pages_cons, rev_app_distr, <-app_assoc. done.
Qed.

Lemma wf_same s s' :
  freeLists s' = freeLists s -> numEntries s' = numEntries s -> wf s -> wf s'.
Proof.
  intros E1 E2 Hwf. split.
  - intros k l. rewrite E1. apply Hwf.
  - intros k l e. rewrite E1. apply Hwf.
  - unfold free. rewrite E1. apply Hwf.
  - unfold free. rewrite E1. apply Hwf.
  - unfold free. rewrite E1, E2. apply Hwf.
Qed.

(** The file may be cut where the last free range ends it. *)
Lemma handleLast_spec s fh out last :
  wf s -> free s ≡ₚ out -> ok last -> NoDup (all_pages (out ++ [last])) ->
  Forall (fun r => endOf r < startPageIdx last) out -> endOf last <= FileHandle.numPages fh < 2 ^ 32 ->
  exists s' fh', handleLastPageRange s fh last = Ret (s', fh') /\ wf s' /\
    FileHandle.removedFrames fh' = FileHandle.removedFrames fh /\
    FileHandle.numPages fh' <= FileHandle.numPages fh /\
    all_pages (free s') ++ seqZ (FileHandle.numPages fh') (FileHandle.numPages fh - FileHandle.numPages fh')
      ≡ₚ all_pages (out ++ [last]) /\
    (forall r, r ∈ free s' -> r ∈ out ++ [last] /\ endOf r < FileHandle.numPages fh').
Proof.
  intros Hwf Hperm Hok Hnd Hout Hfile. unfold handleLastPageRange. rewrite endPageIdx_ok by done.
  fold (endOf last). rewrite Forall_forall in Hout.
  assert (startPageIdx last < endOf last) as Hlast by (unfold ok, endOf in *; lia).
  destruct (Z.eqb_spec (endOf last) (FileHandle.numPages fh)) as [E|E].
  - unfold FileHandle.removePageIdxAndTruncateIfNecessary. rewrite (proj2 (Z.leb_gt _ _)) by lia.
    eexists _, _. split_and!; [done|done|done|cbn; lia| |].
    + cbn. rewrite <-E, Hperm, all_pages_app. f_equiv. unfold all_pages. cbn. rewrite app_nil_r.
      unfold pages, endOf. by replace (startPageIdx last + PageRange.numPages last - startPageIdx last)
        with (PageRange.numPages last) by lia.
    + intros r Hr. rewrite Hperm in Hr. cbn. split; [apply elem_of_app; by left|by apply Hout].
  - destruct (addFreePages_spec s last Hwf Hok) as (s' & -> & Hwf' & Hperm' & _).
    { unfold fresh_range. rewrite Permutation_app_comm in Hnd. by rewrite Hperm. }
    eexists _, _. split_and!; [done|done|done|done| |].
    + rewrite Z.sub_diag, app_nil_r, Hperm', Hperm. by rewrite (Permutation_app_comm out).
    + intros r Hr. rewrite Hperm', Hperm in Hr. apply elem_of_cons in Hr as [->|Hr].
      * split; [apply elem_of_app; right; by apply list_elem_of_singleton|lia].
      * split; [apply elem_of_app; by left|]. specialize (Hout r Hr). cbn in Hout. lia.
Qed.

Lemma sorted_app_last {A} (R : A -> A -> Prop) l x :
  StronglySorted R (l ++ [x]) -> Forall (fun y => R y x) l.
Proof.
  induction l as [|y l IH]; intros H; [constructor|]. cbn in H. inversion H as [|? ? Hl Hy]; subst.
  constructor; [|by apply IH]. rewrite Forall_forall in Hy. apply Hy, elem_of_app. right.
  by apply list_elem_of_singleton.
Qed.

Lemma mergePageRanges_spec s fh new :
  wf s -> Forall ok new -> NoDup (all_pages (new ++ free s)) -> FileHandle.numPages fh < 2 ^ 32 ->
  (forall r, r ∈ new ++ free s -> endOf r <= FileHandle.numPages fh) ->
  exists s' fh', mergePageRanges s fh new = Ret (s', fh') /\ wf s' /\
    FileHandle.removedFrames fh' = FileHandle.removedFrames fh /\
    FileHandle.numPages fh' <= FileHandle.numPages fh /\
    all_pages (free s') ++ seqZ (FileHandle.numPages fh') (FileHandle.numPages fh - FileHandle.numPages fh')
      ≡ₚ all_pages (new ++ free s) /\
    (forall r, r ∈ free s' -> endOf r < FileHandle.numPages fh' \/ new ++ free s = []) /\
    (forall a b, a ∈ free s' -> b ∈ free s' -> endOf a <> startPageIdx b).
Proof.
  intros Hwf Hnew Hnd Hfile Hin. unfold mergePageRanges. fold (free s).
  assert (Hsort := sortByStart_perm (new ++ free s)).
  assert (Hsorted := sortByStart_sorted (new ++ free s)).
  destruct (new ++ free s) as [|a l] eqn:Eall.
  { exists s, fh. apply app_eq_nil in Eall as [-> E]. rewrite E.
    split_and!; [done|done|done|done| |by right|by intros ? ? ?%not_elem_of_nil]. by rewrite Z.sub_diag. }
  assert (Forall ok (a :: l)) as Hok by (rewrite <-Eall; apply Forall_app; split; [done|apply Hwf]).
  rewrite <-Hsort in Hok, Hnd.
  assert (Hin' : forall r, r ∈ sortByStart (a :: l) -> endOf r <= FileHandle.numPages fh)
    by (intros r; rewrite Hsort; apply Hin).
  assert (all_pages (a :: l) ≡ₚ all_pages (sortByStart (a :: l))) as Hap by (by rewrite Hsort).
  destruct (sortByStart (a :: l)) as [|prev entries]; [by apply Permutation_nil in Hsort|].
  pose proof (sorted_apart _ Hsorted Hok Hnd) as Happ.
  destruct (mergeLoop_spec (resetFreeLists s) prev entries) as (s1 & -> & Hwf1 & Hperm1 & _);
    [split; [intros k l'; by destruct k|intros k l' e; by destruct k|constructor|constructor|done]
    |done|done|by unfold free; cbn; rewrite app_nil_r|].
  change (free (resetFreeLists s)) with (@nil PageRange.t) in Hperm1. rewrite app_nil_r in Hperm1.
  destruct (coalesced_spec prev entries Hok Happ) as (Hcok & Hcp & Hcs & _). unfold coalesced in *.
  destruct (coalesce prev entries) as [out last]. cbn [fst snd mbind outcome_bind] in *.
  pose proof Hcok as Hcok'. apply Forall_app in Hcok' as [_ Hlast]. apply Forall_cons in Hlast as [Hlast _].
  assert (endOf last <= FileHandle.numPages fh) as Hle.
  { assert (endOf last - 1 ∈ all_pages (prev :: entries)) as Hp.
    { rewrite <-Hcp. apply elem_of_all_pages. exists last. split; [apply elem_of_app; right; by left|].
      apply elem_of_pages. unfold ok, endOf in *. lia. }
    apply elem_of_all_pages in Hp as (r & Hr & Hp%elem_of_pages). specialize (Hin' r Hr).
    unfold endOf in *. lia. }
  destruct (handleLast_spec s1 fh out last Hwf1 Hperm1 Hlast) as (s' & fh' & -> & Hwf' & Hfr & Hn & Hp & Hr);
    [by rewrite Hcp|by apply (sorted_app_last gap)|done|].
  exists s', fh'. split_and!; [done..| | |].
  - by rewrite Hap, Hp, Hcp.
  - intros r Hr'. left. by apply Hr.
  - intros x y Hx Hy. apply (gap_not_adjacent (out ++ [last])); [done|done|by apply Hr|by apply Hr].
Qed.

Lemma finalizeCheckpoint_spec s fh :
  wf s -> Forall ok (uncheckpointedFreePageRanges s) ->
  NoDup (all_pages (uncheckpointedFreePageRanges s ++ free s)) -> FileHandle.numPages fh < 2 ^ 32 ->
  (forall r, r ∈ uncheckpointedFreePageRanges s ++ free s -> endOf r <= FileHandle.numPages fh) ->
  exists s' fh', finalizeCheckpoint s fh = Ret (s', fh') /\ wf s' /\
    uncheckpointedFreePageRanges s' = [] /\
    FileHandle.removedFrames fh' =
      rev (all_pages (uncheckpointedFreePageRanges s)) ++ FileHandle.removedFrames fh /\
    FileHandle.numPages fh' <= FileHandle.numPages fh /\
    all_pages (free s') ++ seqZ (FileHandle.numPages fh') (FileHandle.numPages fh - FileHandle.numPages fh')
      ≡ₚ all_pages (uncheckpointedFreePageRanges s ++ free s) /\
    (forall r, r ∈ free s' -> endOf r < FileHandle.numPages fh' \/ uncheckpointedFreePageRanges s ++ free s = []) /\
    (forall a b, a ∈ free s' -> b ∈ free s' -> endOf a <> startPageIdx b).
Proof.
  intros Hwf Hok Hnd Hfile Hin. unfold finalizeCheckpoint.
  destruct (evict_all s fh _ Hok) as (s1 & -> & H1 & H2 & H3).
  assert (free s1 = free s) as Hfree by (unfold free; by rewrite H1).
  destruct (mergePageRanges_spec s1 (FileHandle.mk (FileHandle.numPages fh)
    (rev (all_pages (uncheckpointedFreePageRanges s)) ++ FileHandle.removedFrames fh))
    (uncheckpointedFreePageRanges s)) as (s2 & fh2 & -> & Hwf2 & Hfr & Hn & Hp & Hr & Hadj);
    rewrite ?Hfree; try done.
  { by apply (wf_same s). }
  eexists _, fh2. split_and!; [done| |done|done|done| |by rewrite Hfree in Hr|done].
  - by apply (wf_same s2).
  - rewrite Hfree in Hp. done.
Qed.

(** ** Iteration *)

(** The entries an iterator has still to visit. *)
Definition remaining (lists : list (list PageRange.t)) (it : Iterator.t) : list PageRange.t :=
  drop (Iterator.position it) (default [] (lists !! Iterator.freeListIdx it)) ++
  concat (drop (S (Iterator.freeListIdx it)) lists).

Definition at_entry (lists : list (list PageRange.t)) (it : Iterator.t) : Prop :=
  forall l, lists !! Iterator.freeListIdx it = Some l -> (Iterator.position it < length l)%nat.

Lemma make_spec lists k :
  remaining lists (Iterator.make lists k) = concat (drop k lists) /\ at_entry lists (Iterator.make lists k).
Proof.
  unfold Iterator.make. remember (length lists - k)%nat as fuel eqn:E. revert k E.
  induction fuel as [|fuel IH]; intros k E; cbn [Iterator.advanceFreeListIdx].
  - assert (lists !! k = None) as Hn by (apply lookup_ge_None; lia).
    unfold remaining, at_entry. cbn -[drop]. rewrite Hn, (drop_ge lists (S k)), (drop_ge lists k) by lia. done.
  - destruct (lookup_lt_is_Some_2 lists k) as [l Hl]; [lia|]. rewrite Hl.
    rewrite (drop_S _ _ _ Hl). cbn [concat]. destruct l as [|e l].
    + apply IH. lia.
    + unfold remaining, at_entry. cbn -[drop]. rewrite Hl. split; [done|].
      intros l' [= <-]. cbn. lia.
Qed.

Lemma next_spec lists it :
  at_entry lists it -> Iterator.done lists it = false ->
  exists e it', Iterator.deref lists it = Ret e /\ Iterator.next lists it = Ret it' /\
    at_entry lists it' /\ remaining lists it = e :: remaining lists it'.
Proof.
  unfold Iterator.done. intros Hat Hd%Nat.leb_gt.
  destruct (lookup_lt_is_Some_2 _ _ Hd) as [l Hl]. specialize (Hat l Hl).
  destruct (lookup_lt_is_Some_2 _ _ Hat) as [e He]. exists e.
  unfold Iterator.deref, Iterator.next. rewrite (load_Ret _ _ _ Hl). cbn [mbind outcome_bind].
  rewrite (load_Ret _ _ _ He). unfold remaining at 1. rewrite Hl. cbn [from_option]; unfold id.
  rewrite (drop_S _ _ _ He).
  destruct (Nat.eqb_spec (S (Iterator.position it)) (length l)) as [E|E].
  - eexists. split_and!; [done|done|by apply make_spec|].
    rewrite (proj1 (make_spec _ _)), E, drop_all. done.
  - eexists. split_and!; [done|done| |].
    + intros l'. cbn. rewrite Hl. intros [= <-]. lia.
    + unfold remaining. cbn -[drop]. by rewrite Hl.
Qed.

Lemma done_remaining lists it : Iterator.done lists it = true -> remaining lists it = [].
Proof.
  unfold Iterator.done, remaining. intros Hd%Nat.leb_le.
  rewrite (lookup_ge_None_2 _ _ Hd), (drop_ge lists) by lia. cbn. by rewrite drop_nil.
Qed.

Lemma collect_spec lists fuel it :
  at_entry lists it -> (length (remaining lists it) <= fuel)%nat ->
  Iterator.collect lists fuel it = Ret (remaining lists it).
Proof.
  revert it. induction fuel as [|fuel IH]; intros it Hat Hf; cbn [Iterator.collect];
    (destruct (Iterator.done lists it) eqn:Hd; [by rewrite done_remaining|]);
    destruct (next_spec _ _ Hat Hd) as (e & it' & Hde & Hn & Hat' & Hr); rewrite Hr in Hf |- *;
    cbn in Hf; [lia|].
  rewrite Hde, Hn. cbn [mbind outcome_bind]. by rewrite IH by (done || lia).
Qed.

Lemma collect_all s :
  Iterator.collect (freeLists s) (length (concat (freeLists s))) (Iterator.make (freeLists s) 0) = Ret (free s).
Proof.
  destruct (make_spec (freeLists s) 0) as [Hr Hat]. rewrite drop_0 in Hr.
  rewrite collect_spec; [by rewrite Hr|done|by rewrite Hr].
Qed.

Lemma not_done_remaining lists it :
  at_entry lists it -> remaining lists it <> [] -> Iterator.done lists it = false.
Proof. intros _ Hr. destruct (Iterator.done lists it) eqn:Hd; [|done]. by apply done_remaining in Hd. Qed.

Lemma drop_cons_inv {A} (l : list A) k x r :
  drop k l = x :: r -> l !! k = Some x /\ drop (S k) l = r.
Proof.
  intros H. assert (l !! k = Some x) as Hx.
  { rewrite <-(Nat.add_0_r k), <-lookup_drop, H. done. }
  split; [done|]. rewrite (drop_S _ _ _ Hx) in H. by injection H.
Qed.

(** [getEntries] is a slice of the entries in iteration order. *)
Lemma getEntries_spec s i j :
  (i <= j <= length (free s))%nat -> getEntries s i j = Ret (take (j - i) (drop i (free s))).
Proof.
  intros Hij. unfold getEntries. rewrite ku_assert_true by (apply Nat.leb_le; lia).
  destruct (make_spec (freeLists s) 0) as [Hr0 Hat0]. rewrite drop_0 in Hr0. fold (free s) in Hr0.
  destruct (for_range_inv (fun k it => at_entry (freeLists s) it /\ remaining (freeLists s) it = drop k (free s))
    0 i (fun _ it => Iterator.next (freeLists s) it) (Iterator.make (freeLists s) 0))
    as (it & Hit & Hat & Hr).
  { by rewrite drop_0. }
  { intros k it Hk [Hat Hr]. destruct (next_spec (freeLists s) it) as (e & it' & _ & -> & Hat' & Hr'); [done| |].
    { apply not_done_remaining; [done|]. rewrite Hr. intros H%(f_equal length). rewrite length_drop in H. cbn in H. lia. }
    exists it'. rewrite Hr in Hr'. apply drop_cons_inv in Hr' as [_ Hr']. done. }
  unfold Iterator.advance. rewrite Hit. cbn [mbind outcome_bind].
  match goal with |- context [for_range 0 (j - i) ?body _] =>
    destruct (for_range_inv (fun k st => st.1 = take k (drop i (free s)) /\ at_entry (freeLists s) st.2 /\
      remaining (freeLists s) st.2 = drop (i + k) (free s)) 0 (j - i) body ([], it))
      as ([ret it'] & -> & Hret & _) end.
  { rewrite Nat.add_0_r. done. }
  { intros k [ret it'] Hk (Hret & Hat' & Hr'). cbn [fst snd] in *.
    assert (remaining (freeLists s) it' <> []) as Hne.
    { rewrite Hr'. intros H%(f_equal length). rewrite length_drop in H. cbn in H. lia. }
    pose proof (not_done_remaining _ _ Hat' Hne) as Hnd.
    destruct (next_spec _ _ Hat' Hnd) as (e & it2 & Hde & Hn & Hat2 & Hr2).
    rewrite Hnd, ku_assert_true, Hde by done. cbn [mbind outcome_bind]. rewrite Hn. cbn [mbind outcome_bind].
    eexists. split; [done|]. cbn [fst snd]. rewrite Hr' in Hr2. apply drop_cons_inv in Hr2 as [He Hr2].
    split_and!; [|done|by rewrite <-Hr2, Nat.add_succ_r].
    rewrite Hret. erewrite take_S_r; [done|]. by rewrite lookup_drop. }
  cbn in Hret |- *. by rewrite Hret.
Qed.

(** ** Serialisation *)

Definition items_bytes (items : list item) : bytes := concat (map item_bytes items).

Lemma items_bytes_app l1 l2 : items_bytes (l1 ++ l2) = items_bytes l1 ++ items_bytes l2.
Proof. unfold items_bytes. by rewrite map_app, concat_app. Qed.

Lemma range_values_read r rest :
  ok r -> read_range (items_bytes (range_values r) ++ rest) = Ret (r, rest).
Proof.
  intros Hok. unfold range_values, read_range, items_bytes. cbn [map concat item_bytes].
  rewrite app_nil_r, <-app_assoc.
  rewrite deserialize_serialize by (unfold ok in *; cbn; lia). cbn [mbind outcome_bind].
  rewrite deserialize_serialize by (unfold ok in *; cbn; lia). by destruct r.
Qed.

Lemma deserializeEntries_spec s es rest :
  wf s -> Forall ok es -> NoDup (all_pages (es ++ free s)) ->
  exists s', deserializeEntries (length es) s (items_bytes (concat (map range_values es)) ++ rest) = Ret (s', rest) /\
    wf s' /\ free s' ≡ₚ es ++ free s /\ uncheckpointedFreePageRanges s' = uncheckpointedFreePageRanges s.
Proof.
  intros Hwf Hok. revert s Hwf. induction Hok as [|e es He Hes IH]; intros s Hwf Hnd; [by exists s|].
  cbn [length map concat deserializeEntries]. rewrite items_bytes_app, <-app_assoc, range_values_read by done.
  cbn [mbind outcome_bind]. cbn [app] in Hnd. rewrite all_pages_cons, all_pages_app in Hnd.
  pose proof Hnd as (Hn1 & Hn2 & (Hn3 & Hn4 & Hn5)%NoDup_app)%NoDup_app.
  destruct (addFreePages_spec s e Hwf He) as (s1 & -> & Hwf1 & Hp1 & Hu1 & _).
  { unfold fresh_range. rewrite all_pages_cons. apply NoDup_app. split_and!; [done| |done].
    intros x Hx Hx'. apply (Hn2 x Hx), elem_of_app. by right. }
  cbn [mbind outcome_bind].
  destruct (IH s1 Hwf1) as (s2 & -> & Hwf2 & Hp2 & Hu2).
  { rewrite Hp1, <-Permutation_middle, all_pages_cons, all_pages_app. done. }
  exists s2. split_and!; [done|done| |congruence]. rewrite Hp2, Hp1. symmetry. apply Permutation_middle.
Qed.

(** The ranges [serialize] writes, in order. *)
Definition written (s : FreeSpaceManager.t) : list PageRange.t := free s ++ uncheckpointedFreePageRanges s.

(** The representation as serialisation needs it. *)
Definition serializable (s : FreeSpaceManager.t) : Prop :=
  wf s /\ Forall ok (uncheckpointedFreePageRanges s) /\ NoDup (all_pages (written s)).

Definition items_of (es : list PageRange.t) : list item :=
  [DebuggingInfo "page_manager"; DebuggingInfo "numEntries";
   Value (Serializer.serialize u64_codec (Z.of_nat (length es))); DebuggingInfo "entries"] ++
  concat (map range_values es).

Lemma serializeInternal_spec s :
  serializable s ->
  serializeInternal s = Ret (items_of (written s)) /\ Z.of_nat (length (written s)) <= 2 ^ 32.
Proof.
  intros (Hwf & Hok & Hnd).
  assert (Z.of_nat (length (written s)) <= 2 ^ 32) as Hlen.
  { apply length_ranges; [|done]. apply Forall_app. split; [apply Hwf|done]. }
  split; [|done]. unfold serializeInternal, written in *. rewrite collect_all. cbn [mbind outcome_bind].
  rewrite length_app in Hlen. rewrite (wf_count _ Hwf). unfold u64.
  rewrite wrap_small by lia.
  rewrite ku_assert_true by (apply Z.eqb_eq; lia). unfold items_of. by rewrite length_app, Nat2Z.inj_add.
Qed.

(** The tracker never splits a value over two pages, so it uses at least as
    many pages as the bytes need. *)
Definition tracked (i : item) : Z :=
  match i with
  | Value bs => Z.of_nat (length bs)
  | DebuggingInfo text => 8 + Z.of_nat (String.length text)
  end.

Lemma track_bound items p b :
  Forall (fun i => tracked i <= PAGE_SIZE) items -> 0 <= p -> 0 <= b <= PAGE_SIZE ->
  exists p' b', fold_left track items (p, b) = (p', b') /\ p <= p' <= p + Z.of_nat (length items) /\ 0 <= b' <= PAGE_SIZE /\
    PAGE_SIZE * p + b + Z.of_nat (length (items_bytes items)) <= PAGE_SIZE * p' + b'.
Proof.
  intros Hl. revert p b. induction Hl as [|i items Hi _ IH]; intros p b Hp Hb.
  - exists p, b. cbn. split_and!; try done; lia.
  - assert (exists p1 b1, track (p, b) i = (p1, b1) /\ p <= p1 <= p + 1 /\ 0 <= b1 <= PAGE_SIZE /\
      PAGE_SIZE * p + b + Z.of_nat (length (item_bytes i)) <= PAGE_SIZE * p1 + b1) as (p1 & b1 & E & ? & ? & ?).
    { unfold track, updatePagesUsed. destruct i as [bs|text]; cbn [tracked item_bytes] in *;
        match goal with |- context [?x <? ?y] => destruct (Z.ltb_spec x y) end;
        eexists _, _; split_and!; try done; cbn [length] in *; lia. }
    cbn [fold_left]. rewrite E. destruct (IH p1 b1) as (p' & b' & -> & ? & ? & Hle); [lia..|].
    exists p', b'. cbn [length]. split_and!; try done; try lia. unfold items_bytes in *. cbn [map concat].
    rewrite length_app. lia.
Qed.

Lemma items_of_small es : Forall (fun i => tracked i <= PAGE_SIZE) (items_of es).
Proof.
  unfold items_of, PAGE_SIZE. apply Forall_app. split.
  - repeat constructor; cbn; lia.
  - induction es as [|e es IH]; [constructor|]. cbn [map concat]. apply Forall_app. split; [|done].
    repeat constructor; cbn; lia.
Qed.

Lemma items_of_length es : Z.of_nat (length (items_bytes (items_of es))) = 8 * (1 + Z.of_nat (length es)).
Proof.
  unfold items_of. rewrite items_bytes_app, length_app. cbn [items_bytes map concat item_bytes].
  assert (Z.of_nat (length (items_bytes (concat (map range_values es)))) = 8 * Z.of_nat (length es)) as Hes.
  { induction es as [|e es IH]; [done|]. cbn [map concat]. rewrite items_bytes_app, length_app.
    cbn [length]. rewrite !Nat2Z.inj_add, IH. cbn. lia. }
  cbn. cbn in Hes. lia.
Qed.

Lemma length_items_of es : Z.of_nat (length (items_of es)) = 4 + 2 * Z.of_nat (length es).
Proof.
  unfold items_of. rewrite length_app. induction es as [|e es IH]; [done|]. cbn [map concat length] in *. rewrite length_app. cbn [length range_values]. lia.
Qed.

Lemma getMaxNumPages_spec s :
  serializable s -> exists n, getMaxNumPagesForSerialization s = Ret n /\ 0 <= n <= 2 * Z.of_nat (length (written s)) + 5 /\
    8 * (1 + Z.of_nat (length (written s))) <= PAGE_SIZE * n.
Proof.
  intros Hs. unfold getMaxNumPagesForSerialization. rewrite (proj1 (serializeInternal_spec s Hs)).
  cbn [mbind outcome_bind].
  destruct (track_bound (items_of (written s)) 0 0) as (p & b & -> & ? & ? & Hle);
    [apply items_of_small|lia|unfold PAGE_SIZE; lia|].
  rewrite items_of_length in Hle. pose proof (length_items_of (written s)). eexists. split; [done|].
  unfold PAGE_SIZE in *. destruct (Z.ltb_spec 0 b); lia.
Qed.

(** Reading what was written gives all its ranges back, checkpointed. *)
Lemma deserialize_spec s rest :
  serializable s ->
  exists s', deserialize init (items_bytes (items_of (written s)) ++ rest) = Ret (s', rest) /\
    wf s' /\ free s' ≡ₚ written s /\ uncheckpointedFreePageRanges s' = [].
Proof.
  intros Hs. destruct (serializeInternal_spec s Hs) as [_ Hlen]. destruct Hs as (Hwf & Hok & Hnd).
  unfold deserialize, items_of. rewrite items_bytes_app. unfold items_bytes at 1. cbn [map concat item_bytes app].
  rewrite app_nil_r, <-app_assoc, deserialize_serialize by (cbn; lia). cbn [mbind outcome_bind].
  rewrite Nat2Z.id. fold (items_bytes (concat (map range_values (written s)))).
  destruct (deserializeEntries_spec init (written s) rest) as (s' & -> & Hwf' & Hp & Hu).
  - apply init_wf_fsm.
  - apply Forall_app. split; [apply Hwf|done].
  - change (free init) with (@nil PageRange.t). by rewrite app_nil_r.
  - exists s'. split_and!; [done|done| |done]. rewrite Hp. change (free init) with (@nil PageRange.t).
    by rewrite app_nil_r.
Qed.
End FreeFacts.
