(* ===== verification/InMemFileWriter.v ===== *)
(** The in-memory writer of metadata ([common/serializer/in_mem_file_writer.cpp]):
    bytes are collected in page-sized buffers, which a checkpoint copies to the
    pages allocated for them. A buffer is uninitialised until it is written:
    its bytes are options. Sizes are 64-bit in the code and never near it. *)
From S2P Require Import Prelude Serializer FreeSpaceManager.

Definition KUZU_PAGE_SIZE : nat := Z.to_nat FreeSpaceManager.PAGE_SIZE.

Lemma KUZU_PAGE_SIZE_Z : Z.of_nat KUZU_PAGE_SIZE = FreeSpaceManager.PAGE_SIZE.
Proof. unfold KUZU_PAGE_SIZE. by rewrite Z2Nat.id. Qed.

Lemma KUZU_PAGE_SIZE_pos : 0 < KUZU_PAGE_SIZE.
Proof. pose proof KUZU_PAGE_SIZE_Z as H. unfold FreeSpaceManager.PAGE_SIZE in H. lia. Qed.

#[global] Opaque KUZU_PAGE_SIZE.

Module InMemFileWriter.
Definition buffer := list (option Z).
Record t := mk { pages : list buffer; pageOffset : nat }.

Definition init : t := mk [] 0.

(** [mm.allocateBuffer(false, KUZU_PAGE_SIZE)]. *)
Definition allocateBuffer : buffer := replicate KUZU_PAGE_SIZE None.

(** [memcpy(pages.back() + offset, data + from, n)]: within both arrays, or undefined. *)
Definition memcpy_back (pages : list buffer) (offset : nat) (data : bytes) (from n : nat)
  : outcome (list buffer) :=
  page ← load pages (length pages - 1);
  _ ← ku_assert (offset + n <=? length page);
  _ ← ku_assert (from + n <=? length data);
  mret (<[length pages - 1 := take offset page ++ map Some (take n (drop from data)) ++
                              drop (offset + n) page]> pages).

Definition needNewBuffer (w : t) (size : nat) : bool :=
  match pages w with [] => true | _ => KUZU_PAGE_SIZE <? pageOffset w + size end.

(** The loop of [write]; [remaining] is unsigned, so taking more than it
    leaves undefined here what the code computes with a wrapped value. *)
Fixpoint write_loop (fuel : nat) (w : t) (data : bytes) (remaining : nat) : outcome t :=
  if 0 <? remaining then
    match fuel with
    | O => Undef
    | S fuel =>
        '(w, remaining) ←
          if needNewBuffer w (length data) then
            '(ps, remaining) ←
              match pages w with
              | [] => mret (pages w, remaining)
              | _ =>
                  let toCopy := Nat.min (length data) (KUZU_PAGE_SIZE - pageOffset w) in
                  ps ← memcpy_back (pages w) (pageOffset w) data (length data - remaining) toCopy;
                  _ ← ku_assert (toCopy <=? remaining);
                  mret (ps, remaining - toCopy)
              end;
            mret (mk (ps ++ [allocateBuffer]) 0, remaining)
          else mret (w, remaining);
        let toCopy := Nat.min remaining (KUZU_PAGE_SIZE - pageOffset w) in
        ps ← memcpy_back (pages w) (pageOffset w) data (length data - remaining) toCopy;
        write_loop fuel (mk ps (pageOffset w + toCopy)) data (remaining - toCopy)
    end
  else mret w.

(** Every round copies a byte at least. *)
Definition write (w : t) (data : bytes) : outcome t := write_loop (length data) w data (length data).

Definition getNumPagesToFlush (w : t) : nat := length (pages w).

Definition getSize (w : t) : nat :=
  (if 1 <? length (pages w) then KUZU_PAGE_SIZE * (length (pages w) - 1) else 0) + pageOffset w.

(** [flush] to pages: the frames of the allocated pages, the extra ones zeroed. *)
Definition flush (w : t) (allocatedPageRange : PageRange.t) : outcome (list (Z * buffer)) :=
  let numPagesToWrite := length (pages w) in
  let start := PageRange.startPageIdx allocatedPageRange in
  let numPages := Z.to_nat (PageRange.numPages allocatedPageRange) in
  _ ← ku_assert (numPagesToWrite <=? numPages);
  mret (imap (fun i page => (u32 (start + Z.of_nat i), page)) (pages w) ++
        map (fun i => (u32 (start + Z.of_nat i), replicate KUZU_PAGE_SIZE (Some 0%Z)))
          (seq numPagesToWrite (numPages - numPagesToWrite))).

(** [flush] to a file writer: the last page only up to the offset. *)
Definition flush_bytes (w : t) : buffer :=
  concat (imap (fun i page =>
    take (if (i =? length (pages w) - 1) then pageOffset w else KUZU_PAGE_SIZE) page) (pages w)).

(** ** What the buffers hold *)

(** [data] fills the pages from the first on; nothing is known of the rest. *)
Definition repr (w : t) (data : bytes) : Prop :=
  match pages w with
  | [] => pageOffset w = 0 /\ data = []
  | _ => exists full used pad,
      pages w = map (map Some) full ++ [map Some used ++ pad] /\
      length used = pageOffset w /\ length used + length pad = KUZU_PAGE_SIZE /\
      Forall (fun p => length p = KUZU_PAGE_SIZE) full /\ data = concat full ++ used
  end.

(** No buffer is taken before it is needed. *)
Definition tight (w : t) : Prop := pages w <> [] -> 0 < pageOffset w.

Lemma repr_init : repr init [] /\ tight init.
Proof. by split; [split|intros []]. Qed.

Lemma repr_snoc w full used pad data :
  pages w = map (map Some) full ++ [map Some used ++ pad] ->
  length used = pageOffset w -> length used + length pad = KUZU_PAGE_SIZE ->
  Forall (fun p => length p = KUZU_PAGE_SIZE) full -> data = concat full ++ used -> repr w data.
Proof.
  intros E H1 H2 H3 H4. unfold repr. destruct (pages w) eqn:Ep; [by destruct full|].
  by exists full, used, pad.
Qed.

Lemma repr_full w data :
  repr w data -> pages w <> [] ->
  exists full used pad, pages w = map (map Some) full ++ [map Some used ++ pad] /\
    length used = pageOffset w /\ length used + length pad = KUZU_PAGE_SIZE /\
    Forall (fun p => length p = KUZU_PAGE_SIZE) full /\ data = concat full ++ used.
Proof. unfold repr. by destruct (pages w). Qed.

Lemma repr_push w data :
  repr w data -> pages w = [] \/ pageOffset w = KUZU_PAGE_SIZE ->
  repr (mk (pages w ++ [allocateBuffer]) 0) data.
Proof.
  intros Hr Hfull. unfold repr in Hr. destruct (pages w) as [|p ps] eqn:Ep.
  - destruct Hr as [_ ->]. by apply (repr_snoc _ [] [] allocateBuffer); try done;
      unfold allocateBuffer; rewrite ?length_replicate.
  - destruct Hfull as [|Hfull]; [done|]. destruct Hr as (full & used & pad & E & H1 & H2 & H3 & ->).
    rewrite E. assert (pad = []) as -> by (apply nil_length_inv; lia).
    apply (repr_snoc _ (full ++ [used]) [] allocateBuffer).
    + cbn. by rewrite map_app, app_nil_r.
    + done.
    + unfold allocateBuffer. by rewrite length_replicate.
    + apply Forall_app. split; [done|]. constructor; [cbn in *; lia|done].
    + rewrite concat_app. cbn. by rewrite !app_nil_r.
Qed.

Lemma memcpy_back_spec w data src from n :
  repr w data -> pages w <> [] -> pageOffset w + n <= KUZU_PAGE_SIZE -> from + n <= length src ->
  exists ps, memcpy_back (pages w) (pageOffset w) src from n = Ret ps /\ ps <> [] /\
    repr (mk ps (pageOffset w + n)) (data ++ take n (drop from src)).
Proof.
  intros Hr Hne Hn Hsrc. destruct (repr_full _ _ Hr Hne) as (full & used & pad & E & H1 & H2 & H3 & ->).
  unfold memcpy_back. rewrite E, length_app, length_map. cbn [length].
  replace (length full + 1 - 1) with (length (map (map Some) full) + 0) by (rewrite length_map; lia).
  rewrite (load_Ret _ _ (map Some used ++ pad)) by (by rewrite lookup_app_r, Nat.add_0_r, Nat.sub_diag by lia).
  cbn [mbind outcome_bind].
  rewrite ku_assert_true by (apply Nat.leb_le; rewrite length_app, length_map; lia).
  rewrite ku_assert_true by (apply Nat.leb_le; lia). eexists. split; [done|].
  rewrite insert_app_r. cbn [insert list_insert]. split; [by destruct (map (map Some) full)|].
  apply (repr_snoc _ full (used ++ take n (drop from src)) (drop n pad)).
  - cbn. f_equal. f_equal. rewrite map_app, <-app_assoc, <-H1. f_equal.
    + by rewrite <-(length_map Some used), take_app_length.
    + f_equal. rewrite <-(length_map Some used). by rewrite drop_app_add.
  - cbn. rewrite length_app, length_take, length_drop. lia.
  - rewrite length_app, length_take, !length_drop. lia.
  - done.
  - by rewrite app_assoc.
Qed.

Lemma repr_offset w data : repr w data -> pageOffset w <= KUZU_PAGE_SIZE.
Proof.
  unfold repr. destruct (pages w); [intros [-> _]; lia|]. intros (? & ? & ? & _ & ? & ? & _). lia.
Qed.

Lemma take_drop_glue {A} (l : list A) k n : k + n <= length l -> take k l ++ take n (drop k l) = take (k + n) l.
Proof. intros _. by rewrite take_take_drop. Qed.

(** One round of the loop: it makes room, then copies. *)
Lemma write_loop_spec fuel w data src remaining :
  repr w (data ++ take (length src - remaining) src) -> tight w ->
  remaining <= length src -> remaining <= fuel ->
  remaining = length src \/ pages w <> [] /\ (pageOffset w = KUZU_PAGE_SIZE \/ remaining = 0) ->
  exists w', write_loop fuel w src remaining = Ret w' /\ repr w' (data ++ src) /\ tight w'.
Proof.
  pose proof KUZU_PAGE_SIZE_pos as Hpos.
  revert w remaining. induction fuel as [|fuel IH]; intros w remaining Hr Ht Hle Hf Hor; cbn [write_loop];
    (destruct (Nat.ltb_spec 0 remaining) as [Hgt|Hz];
      [|exists w; replace remaining with 0 in Hr by lia; rewrite Nat.sub_0_r, firstn_all in Hr; done]); [lia|].
  pose proof (repr_offset _ _ Hr) as Hoff.
  match goal with |- exists w', mbind _ ?m = _ /\ _ =>
    assert (exists w1 r1, m = Ret (w1, r1) /\ repr w1 (data ++ take (length src - r1) src) /\ pages w1 <> [] /\
      0 < r1 <= remaining /\ pageOffset w1 < KUZU_PAGE_SIZE /\
      (r1 <= KUZU_PAGE_SIZE - pageOffset w1 \/ KUZU_PAGE_SIZE - pageOffset w1 <= r1)) as (w1 & r1 & -> & Hr1 & Hne & Hr1p & Ho1 & _)
  end.
  { unfold needNewBuffer. destruct (pages w) as [|p ps] eqn:Ep.
    - cbn [mbind outcome_bind mret outcome_ret]. eexists _, _. split; [done|].
      pose proof (repr_push w _ Hr (or_introl Ep)) as Hp. rewrite Ep in Hp. split; [exact Hp|].
      cbn. split; [done|]. lia.
    - destruct (Nat.ltb_spec KUZU_PAGE_SIZE (pageOffset w + length src)) as [Hnew|Hfits].
      + rewrite <-Ep in *. set (k := Nat.min (length src) (KUZU_PAGE_SIZE - pageOffset w)).
        assert (k <= remaining /\ (k < remaining) /\ pageOffset w + k = KUZU_PAGE_SIZE) as (Hk1 & Hk2 & Hk3) by (unfold k; lia).
        destruct (memcpy_back_spec w _ src (length src - remaining) k Hr) as (ps' & -> & Hps & Hr2);
          [by rewrite Ep|lia|lia|]. cbn [mbind outcome_bind].
        rewrite ku_assert_true by (apply Nat.leb_le; lia). cbn [mbind outcome_bind mret outcome_ret].
        eexists _, _. split; [done|]. split.
        * change ps' with (pages (mk ps' (pageOffset w + k))). apply repr_push; [|by right].
          rewrite <-app_assoc, take_take_drop in Hr2.
          by replace (length src - (remaining - k)) with (length src - remaining + k) by lia.
        * cbn. split; [by destruct ps'|]. lia.
      + cbn [mbind outcome_bind mret outcome_ret]. rewrite <-Ep in *. exists w, remaining.
        split_and!; [done|done|by rewrite Ep|lia|lia| |]; lia. }
  cbn [mbind outcome_bind]. set (k := Nat.min r1 (KUZU_PAGE_SIZE - pageOffset w1)).
  destruct (memcpy_back_spec w1 _ src (length src - r1) k Hr1) as (ps' & -> & Hps & Hr2); [done|lia|lia|].
  cbn [mbind outcome_bind]. rewrite <-app_assoc, take_take_drop in Hr2.
  apply IH; [|intros _; cbn; lia|lia|lia|].
  - by replace (length src - (r1 - k)) with (length src - r1 + k) by lia.
  - right. cbn. split; [done|]. lia.
Qed.

Lemma write_spec w data src :
  repr w data -> tight w ->
  exists w', write w src = Ret w' /\ repr w' (data ++ src) /\ tight w'.
Proof.
  intros Hr Ht. apply write_loop_spec; [|done|done|done|by left].
  by rewrite Nat.sub_diag, app_nil_r.
Qed.

(** ** Sizes *)

Lemma length_concat_pages (l : list bytes) :
  Forall (fun p => length p = KUZU_PAGE_SIZE) l -> length (concat l) = KUZU_PAGE_SIZE * length l.
Proof. induction 1 as [|p l Hp _ IH]; cbn; [lia|]. rewrite length_app, Hp, IH. lia. Qed.

(** The number of pages is the size in pages, rounded up. *)
Lemma repr_pages w data :
  repr w data -> tight w ->
  length data <= KUZU_PAGE_SIZE * getNumPagesToFlush w < length data + KUZU_PAGE_SIZE /\ getSize w = length data.
Proof.
  pose proof KUZU_PAGE_SIZE_pos as Hpos.
  unfold repr, tight, getNumPagesToFlush, getSize. destruct (pages w) as [|p ps] eqn:Ep.
  - intros [-> ->] _. cbn. lia.
  - rewrite <-Ep. intros (full & used & pad & E & H1 & H2 & H3 & ->) Ht. specialize (Ht ltac:(by rewrite Ep)).
    rewrite E. rewrite !length_app, length_map, (length_concat_pages _ H3). cbn [length].
    rewrite Nat.add_sub. unfold bytes, buffer in *. destruct (Nat.ltb_spec 1 (length full + 1)) as [_|Hz].
    + rewrite Nat.mul_add_distr_l, Nat.mul_1_r. lia.
    + assert (length full = 0) as ->%nil_length_inv by lia. cbn [length]. rewrite Nat.mul_0_r. lia.
Qed.

Lemma imap_take_full (full : list bytes) (rest : buffer) n m :
  Forall (fun p => length p = KUZU_PAGE_SIZE) full ->
  concat (imap (fun i page => take (if i =? n + length full then m else KUZU_PAGE_SIZE) page)
    (map (map Some) full ++ [rest])) =
  map Some (concat full) ++ take (if length full =? n + length full then m else KUZU_PAGE_SIZE) rest.
Proof.
  intros Hf. rewrite imap_app, concat_app. cbn [imap concat]. rewrite length_map, Nat.add_0_r, app_nil_r. f_equal.
  rewrite concat_map. f_equal. apply list_eq. intros i. rewrite list_lookup_imap.
  destruct (map (map Some) full !! i) as [p|] eqn:Hp; [|done]. cbn.
  assert (i < length full) as Hi by (apply lookup_lt_Some in Hp; by rewrite length_map in Hp).
  rewrite (proj2 (Nat.eqb_neq _ _)) by lia. f_equal. apply take_ge.
  rewrite list_lookup_fmap in Hp. apply fmap_Some in Hp as (q & Hq & ->). rewrite length_map.
  rewrite Forall_forall in Hf. rewrite (Hf q); [lia|]. by eapply list_elem_of_lookup_2.
Qed.

Lemma flush_bytes_spec w data : repr w data -> flush_bytes w = map Some data.
Proof.
  unfold repr, flush_bytes. destruct (pages w) as [|p ps] eqn:Ep; [by intros [_ ->]|].
  rewrite <-Ep. intros (full & used & pad & E & H1 & H2 & H3 & ->). rewrite E.
  rewrite length_app, length_map. cbn [length]. rewrite Nat.add_sub.
  change (length full) with (0 + length full). rewrite imap_take_full by done. cbn.
  rewrite Nat.eqb_refl, map_app. f_equal. rewrite <-H1, <-(length_map Some used). by rewrite take_app_length.
Qed.
End InMemFileWriter.

(** ** The pages of the metadata ([Checkpointer::serializeMetadata]) *)

Module Checkpointer.
Import FreeSpaceManager.

(** [ValueSerializer] over the writer: markers write nothing. *)
Fixpoint writeItems (w : InMemFileWriter.t) (items : list item) : outcome InMemFileWriter.t :=
  match items with
  | [] => mret w
  | Value bs :: items => w ← InMemFileWriter.write w bs; writeItems w items
  | DebuggingInfo _ :: items => writeItems w items
  end.

(** [metadataWriter] already holds what the storage manager wrote. The pages
    are allocated before the page manager, which records them, is serialised.
    The result has the frames written, with their pages. *)
Definition serializeMetadata (pm : PageManager.t) (metadataWriter : InMemFileWriter.t)
  : outcome (PageManager.t * PageRange.t * InMemFileWriter.t * list (Z * InMemFileWriter.buffer)) :=
  pagesForPageManager ← getMaxNumPagesForSerialization (PageManager.freeSpaceManager pm);
  '(pm, allocatedPages) ← PageManager.allocatePageRange pm
     (Z.of_nat (InMemFileWriter.getNumPagesToFlush metadataWriter) + pagesForPageManager);
  items ← serializeInternal (PageManager.freeSpaceManager pm);
  metadataWriter ← writeItems metadataWriter items;
  frames ← InMemFileWriter.flush metadataWriter allocatedPages;
  mret (pm, allocatedPages, metadataWriter, frames).

Lemma writeItems_spec w data items :
  InMemFileWriter.repr w data -> InMemFileWriter.tight w ->
  exists w', writeItems w items = Ret w' /\
    InMemFileWriter.repr w' (data ++ concat (map item_bytes items)) /\ InMemFileWriter.tight w'.
Proof.
  revert w data. induction items as [|[bs|text] items IH]; intros w data Hr Ht; cbn [writeItems map concat item_bytes].
  - exists w. by rewrite app_nil_r.
  - destruct (InMemFileWriter.write_spec w data bs Hr Ht) as (w1 & -> & Hr1 & Ht1). cbn [mbind outcome_bind].
    destruct (IH w1 _ Hr1 Ht1) as (w2 & -> & Hr2 & Ht2). exists w2. by rewrite app_assoc.
  - by apply IH.
Qed.
End Checkpointer.
