(* ===== verification/FreeSpaceSpec.v ===== *)
(** What page management promises: best-fit allocation, merging at the end of a
    checkpoint, metadata that fits the pages allocated for it and reads back, and
    pages that are never lost and never handed out twice over any history. *)
From S2P Require Import Prelude Serializer FreeSpaceManager FreeSpaceFacts InMemFileWriter.
From Stdlib Require Import Sorted Permutation.
From stdpp Require Import relations.
Import PageRange FreeSpaceManager FreeFacts.
Local Open Scope Z_scope.

(** ** The invariant of a data file *)

Section invariant.
Implicit Types (pm : PageManager.t) (held : list Z).

(** Every page of the file is in exactly one place: a free range, a range that
    becomes free at the next checkpoint, or in use ([held]). *)
Record file_inv pm held : Prop := {
  fi_wf : wf (PageManager.freeSpaceManager pm);
  fi_ok : Forall ok (uncheckpointedFreePageRanges (PageManager.freeSpaceManager pm));
  fi_size : 0 <= FileHandle.numPages (PageManager.fileHandle pm) < 2 ^ 32;
  fi_pages : all_pages (written (PageManager.freeSpaceManager pm)) ++ held ≡ₚ
             seqZ 0 (FileHandle.numPages (PageManager.fileHandle pm));
}.

Lemma all_pages_perm l1 l2 : l1 ≡ₚ l2 -> all_pages l1 ≡ₚ all_pages l2.
Proof. by intros ->. Qed.

Lemma file_NoDup pm held :
  file_inv pm held -> NoDup (all_pages (written (PageManager.freeSpaceManager pm)) ++ held).
Proof. intros H. rewrite (fi_pages _ _ H). apply NoDup_seqZ. Qed.

Lemma file_serializable pm held : file_inv pm held -> serializable (PageManager.freeSpaceManager pm).
Proof.
  intros H. split_and!; [apply H|apply H|]. by apply file_NoDup, NoDup_app in H as (? & _).
Qed.

Lemma held_in_file pm held p :
  file_inv pm held -> p ∈ held -> 0 <= p < FileHandle.numPages (PageManager.fileHandle pm).
Proof.
  intros H Hp. rewrite <-(Z.add_0_l (FileHandle.numPages _)). apply elem_of_seqZ.
  rewrite <-(fi_pages _ _ H). apply elem_of_app. by right.
Qed.

Lemma addNewPages_spec fh n :
  0 <= FileHandle.numPages fh -> 0 <= n -> FileHandle.numPages fh + n < 2 ^ 32 ->
  FileHandle.addNewPages fh n =
    (FileHandle.mk (FileHandle.numPages fh + n) (FileHandle.removedFrames fh), FileHandle.numPages fh).
Proof.
  intros H0 Hn Hmax. unfold FileHandle.addNewPages.
  assert (forall k : nat, FileHandle.numPages fh + Z.of_nat k < 2 ^ 32 ->
    Nat.iter k (fun n => u32 (n + 1)) (FileHandle.numPages fh) = FileHandle.numPages fh + Z.of_nat k) as Hiter.
  { induction k as [|k IH]; intros Hk; [cbn; lia|]. rewrite Nat.iter_succ, IH by lia.
    unfold u32. rewrite wrap_small; lia. }
  by rewrite Hiter, Z2Nat.id by (rewrite ?Z2Nat.id; done).
Qed.

(** Allocation: an exact range, taken from free pages or from the new end of
    the file, whose pages were not in use. *)
Lemma allocatePageRange_spec pm held n :
  file_inv pm held -> 0 <= n -> FileHandle.numPages (PageManager.fileHandle pm) + n < 2 ^ 32 ->
  exists pm' r, PageManager.allocatePageRange pm n = Ret (pm', r) /\ PageRange.numPages r = n /\
    file_inv pm' (pages r ++ held) /\ (0 < n -> ok r) /\
    uncheckpointedFreePageRanges (PageManager.freeSpaceManager pm') =
      uncheckpointedFreePageRanges (PageManager.freeSpaceManager pm) /\
    (length (free (PageManager.freeSpaceManager pm')) <= length (free (PageManager.freeSpaceManager pm)))%nat /\
    FileHandle.numPages (PageManager.fileHandle pm) <= FileHandle.numPages (PageManager.fileHandle pm').
Proof.
  intros [Hwf Hok [Hs0 Hs1] Hp] Hn Hmax. destruct pm as [s fh v]. unfold written in *.
  cbn [PageManager.freeSpaceManager PageManager.fileHandle] in *.
  assert (PageManager.allocatePageRange (PageManager.mk_pm s fh v) n = 
    '(fsm, chunk) ← popFreePages s n;
    match chunk with
    | Some range => mret (PageManager.mk_pm fsm fh (u64 (v + 1)), range)
    | None => mret (PageManager.mk_pm fsm (FileHandle.mk (FileHandle.numPages fh + n) (FileHandle.removedFrames fh)) v,
                PageRange.mk (FileHandle.numPages fh) n)
    end) as ->.
  { unfold PageManager.allocatePageRange. cbn [PageManager.freeSpaceManager PageManager.fileHandle PageManager.version].
    destruct (popFreePages s n) as [[fsm [r|]]| |]; cbn [mbind outcome_bind]; [done| |done..].
    rewrite addNewPages_spec by done. rewrite ku_assert_true; [done|].
    unfold u32. rewrite wrap_small by lia. cbn. lia. }
  assert (forall fsm, free fsm = free s -> wf fsm ->
    uncheckpointedFreePageRanges fsm = uncheckpointedFreePageRanges s ->
    file_inv (PageManager.mk_pm fsm (FileHandle.mk (FileHandle.numPages fh + n) (FileHandle.removedFrames fh)) v)
      (pages (PageRange.mk (FileHandle.numPages fh) n) ++ held)) as Hgrow.
  { intros fsm Hf Hwf' Hu. split; cbn; [done|by rewrite Hu|lia|]. unfold written. rewrite Hf, Hu.
    rewrite seqZ_app, <-Hp, Z.add_0_l by lia. unfold pages. cbn. rewrite (Permutation_app_comm _ held). by rewrite app_assoc. }
  destruct (decide (n = 0)) as [->|Hn0].
  - unfold popFreePages. cbn [Z.ltb Z.compare mbind outcome_bind mret outcome_ret].
    eexists _, _. split_and!; [done|done|by apply Hgrow|lia|done|done|cbn; lia].
  - destruct (popFreePages_spec s n Hwf) as [(s' & r & e & -> & (He & Hfit & _) & -> & Hwf' & Hperm & Hlen & Hu)|[-> _]]; [lia| |].
    + cbn [mbind outcome_bind mret outcome_ret]. eexists _, _.
      split_and!; [done|done| | |done|done|cbn; lia].
      * split; cbn; [done|by rewrite Hu|done|]. unfold written. rewrite Hu, <-Hp, !all_pages_app, <-Hperm. solve_Permutation.
      * intros _. pose proof (wf_ok _ Hwf) as Hall. rewrite Forall_forall in Hall. specialize (Hall e He).
        unfold ok in *. cbn. lia.
    + cbn [mbind outcome_bind mret outcome_ret]. eexists _, _.
      split_and!; [done|done|by apply Hgrow| |done|done|cbn; lia]. intros _. unfold ok. cbn. lia.
Qed.

(** A range in use. *)
Definition owned (r : PageRange.t) held held' : Prop := 0 < PageRange.numPages r /\ held ≡ₚ pages r ++ held'.

Lemma owned_ok pm r held held' : file_inv pm held -> owned r held held' -> ok r.
Proof.
  intros Hinv [Hn Hp]. pose proof (fi_size _ _ Hinv) as Hsize.
  assert (forall p, p ∈ pages r -> 0 <= p < FileHandle.numPages (PageManager.fileHandle pm)) as Hin.
  { intros p Hpr. apply (held_in_file pm held p Hinv). rewrite Hp. apply elem_of_app. by left. }
  pose proof (Hin (startPageIdx r) ltac:(apply elem_of_pages; lia)).
  pose proof (Hin (startPageIdx r + PageRange.numPages r - 1) ltac:(apply elem_of_pages; lia)).
  unfold ok. lia.
Qed.

Lemma written_add s r : written (addUncheckpointedFreePages s r) = written s ++ [r].
Proof. unfold written. by rewrite <-app_assoc. Qed.

Lemma freePageRange_spec pm r held held' :
  file_inv pm held -> owned r held held' -> file_inv (PageManager.freePageRange pm r) held'.
Proof.
  intros Hinv How. pose proof (owned_ok _ _ _ _ Hinv How) as Hok. destruct How as [Hn Hp].
  destruct Hinv as [Hwf Hu Hs Hpg]. split; [by apply (wf_same (PageManager.freeSpaceManager pm))| |done|].
  - apply Forall_app. split; [done|]. by constructor.
  - change (all_pages (written (addUncheckpointedFreePages (PageManager.freeSpaceManager pm) r)) ++ held' ≡ₚ
      seqZ 0 (FileHandle.numPages (PageManager.fileHandle pm))).
    rewrite <-Hpg, written_add, all_pages_app, Hp, (all_pages_cons r []).
    change (all_pages []) with (@nil Z). solve_Permutation.
Qed.

Lemma freeImmediately_spec pm r held held' :
  file_inv pm held -> owned r held held' ->
  exists pm', PageManager.freeImmediatelyRewritablePageRange pm r = Ret pm' /\ file_inv pm' held' /\
    r ∈ free (PageManager.freeSpaceManager pm') /\
    free (PageManager.freeSpaceManager pm') ≡ₚ r :: free (PageManager.freeSpaceManager pm) /\
    FileHandle.numPages (PageManager.fileHandle pm') = FileHandle.numPages (PageManager.fileHandle pm) /\
    FileHandle.removedFrames (PageManager.fileHandle pm') =
      rev (pages r) ++ FileHandle.removedFrames (PageManager.fileHandle pm) /\
    uncheckpointedFreePageRanges (PageManager.freeSpaceManager pm') =
      uncheckpointedFreePageRanges (PageManager.freeSpaceManager pm).
Proof.
  intros Hinv How. pose proof (owned_ok _ _ _ _ Hinv How) as Hok. pose proof (file_NoDup _ _ Hinv) as Hnd.
  destruct How as [Hn Hp]. destruct Hinv as [Hwf Hu Hs Hpg].
  unfold PageManager.freeImmediatelyRewritablePageRange, evictAndAddFreePages.
  destruct (evictPages_spec (PageManager.freeSpaceManager pm) (PageManager.fileHandle pm) r Hok)
    as (s1 & -> & E1 & E2 & E3).
  assert (free s1 = free (PageManager.freeSpaceManager pm)) as Ef by (unfold free; by rewrite E1).
  destruct (addFreePages_spec s1 r (wf_same _ _ E1 E2 Hwf) Hok) as (s2 & -> & Hwf2 & Hp2 & Hu2 & _).
  { unfold fresh_range. rewrite Ef, all_pages_cons.
    assert (all_pages (written (PageManager.freeSpaceManager pm)) ++ held ≡ₚ
      (pages r ++ all_pages (free (PageManager.freeSpaceManager pm))) ++
      (all_pages (uncheckpointedFreePageRanges (PageManager.freeSpaceManager pm)) ++ held')) as Hperm
      by (unfold written; rewrite all_pages_app, Hp; solve_Permutation).
    rewrite Hperm in Hnd. by apply NoDup_app in Hnd as (? & _). }
  cbn [mbind outcome_bind mret outcome_ret]. rewrite Ef in Hp2. eexists.
  split_and!; [done| | |done|done|done|cbn; congruence].
  - split; cbn; [done|by rewrite Hu2, E3|done|]. rewrite <-Hpg. unfold written.
    rewrite Hu2, E3, !all_pages_app, Hp, (all_pages_perm _ _ Hp2), all_pages_cons. solve_Permutation.
  - cbn. rewrite Hp2. by left.
Qed.

Lemma rollbackCheckpoint_spec pm held :
  file_inv pm held ->
  file_inv (PageManager.rollbackCheckpoint pm)
    (all_pages (uncheckpointedFreePageRanges (PageManager.freeSpaceManager pm)) ++ held).
Proof.
  intros [Hwf Hu Hs Hpg]. split; cbn; [by apply (wf_same (PageManager.freeSpaceManager pm))|constructor|done|].
  rewrite <-Hpg. unfold written, free. cbn. rewrite app_nil_r, all_pages_app. solve_Permutation.
Qed.

Lemma pages_within r n : ok r -> (forall p, p ∈ pages r -> p < n) -> endOf r <= n.
Proof.
  intros (Hn & _) Hin. specialize (Hin (endOf r - 1)). unfold endOf in *.
  assert (startPageIdx r + PageRange.numPages r - 1 < n); [|lia]. apply Hin, elem_of_pages. lia.
Qed.

Lemma finalize_file_spec pm held :
  file_inv pm held ->
  exists pm', PageManager.finalizeCheckpoint pm = Ret pm' /\ file_inv pm' held /\
    uncheckpointedFreePageRanges (PageManager.freeSpaceManager pm') = [] /\
    FileHandle.removedFrames (PageManager.fileHandle pm') =
      rev (all_pages (uncheckpointedFreePageRanges (PageManager.freeSpaceManager pm))) ++
      FileHandle.removedFrames (PageManager.fileHandle pm) /\
    FileHandle.numPages (PageManager.fileHandle pm') <= FileHandle.numPages (PageManager.fileHandle pm) /\
    (forall r, r ∈ free (PageManager.freeSpaceManager pm') ->
       endOf r < FileHandle.numPages (PageManager.fileHandle pm')) /\
    (forall a b, a ∈ free (PageManager.freeSpaceManager pm') -> b ∈ free (PageManager.freeSpaceManager pm') ->
       endOf a <> startPageIdx b).
Proof.
  intros Hinv. pose proof (file_NoDup _ _ Hinv) as Hnd. destruct Hinv as [Hwf Hu Hs Hpg].
  unfold PageManager.finalizeCheckpoint, written in *.
  set (s := PageManager.freeSpaceManager pm) in *. set (fh := PageManager.fileHandle pm) in *.
  apply NoDup_app in Hnd as (Hnd & _). rewrite Permutation_app_comm in Hnd.
  assert (all_pages (uncheckpointedFreePageRanges s ++ free s) ++ held ≡ₚ seqZ 0 (FileHandle.numPages fh)) as Hpg'
    by (by rewrite <-Hpg, (Permutation_app_comm (free s))).
  destruct (finalizeCheckpoint_spec s fh) as (s' & fh' & -> & Hwf' & Hu' & Hfr & Hle & Hp' & Hend & Hadj);
    [done|done|done|lia| |].
  { intros r Hr. assert (ok r) as Hok.
    { apply elem_of_app in Hr as [Hr|Hr]; [|pose proof (wf_ok _ Hwf) as Hall];
        rewrite Forall_forall in *; auto. }
    apply pages_within; [done|]. intros p Hpr.
    assert (p ∈ seqZ 0 (FileHandle.numPages fh)) as Hin.
    { rewrite <-Hpg'. apply elem_of_app. left. apply elem_of_all_pages. by exists r. }
    apply elem_of_seqZ in Hin. lia. }
  cbn [mbind outcome_bind mret outcome_ret]. eexists.
  assert (0 <= FileHandle.numPages fh') as H0.
  { destruct (decide (0 <= FileHandle.numPages fh')) as [|Hneg]; [done|exfalso].
    assert (FileHandle.numPages fh' ∈ seqZ 0 (FileHandle.numPages fh)) as Hin; [|apply elem_of_seqZ in Hin; lia].
    rewrite <-Hpg', <-Hp'. apply elem_of_app. left. apply elem_of_app. right. apply elem_of_seqZ. lia. }
  split_and!; [done| |done|done|done| |done].
  - split; cbn; [done|by rewrite Hu'|lia|]. unfold written. rewrite Hu', app_nil_r.
    apply (Permutation_app_inv_r (seqZ (FileHandle.numPages fh') (FileHandle.numPages fh - FileHandle.numPages fh'))).
    replace (FileHandle.numPages fh') with (0 + FileHandle.numPages fh') at 2 by lia.
    rewrite <-seqZ_app by lia. replace (FileHandle.numPages fh' + (FileHandle.numPages fh - FileHandle.numPages fh'))
      with (FileHandle.numPages fh) by lia.
    rewrite <-Hpg', <-Hp'. solve_Permutation.
  - intros r Hr. cbn in *. destruct (Hend r Hr) as [|Hnil]; [done|exfalso].
    rewrite Hnil in Hp'. symmetry in Hp'. apply Permutation_nil in Hp'. apply app_eq_nil in Hp' as [Hp' _].
    assert (ok r) as (Hn & _) by (pose proof (wf_ok _ Hwf') as Hall; rewrite Forall_forall in Hall; by apply Hall).
    assert (startPageIdx r ∈ all_pages (free s')) as Hin by (apply elem_of_all_pages; exists r; split; [done|apply elem_of_pages; lia]).
    rewrite Hp' in Hin. by apply not_elem_of_nil in Hin.
Qed.
End invariant.

(** ** Allocation *)

(** C25. Best fit: asked for a positive number of pages, the free space manager
    never fails an assertion. It returns the first pages of the smallest free
    range that is large enough (of equally large ones, the first in the file) and
    keeps the rest of that range free; or nothing, exactly when no free range is
    large enough, and then nothing has changed. The free pages are conserved, the
    number of free ranges does not grow, and the ranges that wait for a checkpoint
    are not handed out. *)
Theorem popFreePages_best_fit s n :
  wf s -> 0 < n ->
  exists s' r, popFreePages s n = Ret (s', r) /\ wf s' /\
    uncheckpointedFreePageRanges s' = uncheckpointedFreePageRanges s /\
    match r with
    | Some r => exists e, best_fit s n e /\ r = PageRange.mk (startPageIdx e) n /\
        pages r ++ all_pages (free s') ≡ₚ all_pages (free s) /\
        (length (free s') <= length (free s))%nat
    | None => s' = s /\ forall e, e ∈ free s -> PageRange.numPages e < n
    end.
Proof.
  intros Hwf Hn. destruct (popFreePages_spec s n Hwf Hn)
    as [(s' & r & e & -> & Hb & -> & Hwf' & Hp & Hl & Hu)|[-> Hno]].
  - exists s', (Some (PageRange.mk (startPageIdx e) n)). split_and!; [done..|]. exists e. done.
  - by exists s, None.
Qed.

(** ** The end of a checkpoint *)

(** Finalising a checkpoint: it never fails an assertion; the pages whose
    ranges waited for the checkpoint are dropped from the buffer manager and
    become free; afterwards no two free ranges are adjacent, none reaches the end
    of the file (such a tail is cut off the file, and no page in use with it),
    nothing waits any more, and every page of the shorter file is free or in use
    as before. *)
Theorem finalizeCheckpoint_merges pm held :
  file_inv pm held ->
  exists pm', PageManager.finalizeCheckpoint pm = Ret pm' /\ file_inv pm' held /\
    uncheckpointedFreePageRanges (PageManager.freeSpaceManager pm') = [] /\
    FileHandle.removedFrames (PageManager.fileHandle pm') =
      rev (all_pages (uncheckpointedFreePageRanges (PageManager.freeSpaceManager pm))) ++
      FileHandle.removedFrames (PageManager.fileHandle pm) /\
    FileHandle.numPages (PageManager.fileHandle pm') <= FileHandle.numPages (PageManager.fileHandle pm) /\
    (forall p, p ∈ held -> p < FileHandle.numPages (PageManager.fileHandle pm')) /\
    (forall r, r ∈ free (PageManager.freeSpaceManager pm') ->
       startPageIdx r + PageRange.numPages r < FileHandle.numPages (PageManager.fileHandle pm')) /\
    (forall a b, a ∈ free (PageManager.freeSpaceManager pm') -> b ∈ free (PageManager.freeSpaceManager pm') ->
       startPageIdx a + PageRange.numPages a <> startPageIdx b).
Proof.
  intros Hinv. destruct (finalize_file_spec pm held Hinv) as (pm' & -> & Hinv' & Hu & Hf & Hn & He & Ha).
  exists pm'. split_and!; try done. intros p Hp. by apply (held_in_file pm' held p Hinv' Hp).
Qed.

(** ** Metadata *)

Section metadata.
Import InMemFileWriter(buffer, repr, tight, flush, getNumPagesToFlush, repr_full, repr_pages).
Import Checkpointer.

Lemma imap_pages (ps : list buffer) start :
  0 <= start -> start + Z.of_nat (length ps) <= 2 ^ 32 ->
  map fst (imap (fun i page => (u32 (start + Z.of_nat i), page)) ps) = seqZ start (Z.of_nat (length ps)) /\
  map snd (imap (fun i page => (u32 (start + Z.of_nat i), page)) ps) = ps.
Proof.
  intros H0 H1. split; apply list_eq; intros i.
  - rewrite list_lookup_fmap, list_lookup_imap. destruct (ps !! i) as [p|] eqn:Hp; cbn.
    + apply lookup_lt_Some in Hp. unfold u32. rewrite wrap_small by lia. symmetry. apply lookup_seqZ. lia.
    + apply lookup_ge_None in Hp. symmetry. apply lookup_seqZ_ge. lia.
  - rewrite list_lookup_fmap, list_lookup_imap. by destruct (ps !! i).
Qed.

Lemma flush_spec w data r :
  repr w data -> ok r -> Z.of_nat (getNumPagesToFlush w) <= PageRange.numPages r ->
  exists frames pad, flush w r = Ret frames /\ map fst frames = pages r /\
    concat (map snd frames) = map Some data ++ pad /\ Forall (fun e => length e.2 = KUZU_PAGE_SIZE) frames.
Proof.
  intros Hr (Hn & Hs & He) Hle. unfold getNumPagesToFlush in Hle. unfold flush.
  rewrite ku_assert_true by (apply Nat.leb_le; lia).
  destruct (imap_pages (InMemFileWriter.pages w) (startPageIdx r)) as [Hf1 Hf2]; [lia..|].
  assert (exists pad, concat (InMemFileWriter.pages w) = map Some data ++ pad /\ Forall (fun p => length p = KUZU_PAGE_SIZE) (InMemFileWriter.pages w)) as (pad & Hpad & Hlens).
  { destruct (decide (InMemFileWriter.pages w = [])) as [E|E].
    - unfold repr in Hr. rewrite E in Hr |- *. destruct Hr as [_ ->]. exists []. by split; [|constructor].
    - destruct (repr_full _ _ Hr E) as (full & used & pad & -> & H1 & H2 & H3 & ->). exists pad. split.
      + rewrite concat_app, map_app, concat_map. cbn. by rewrite app_nil_r, app_assoc.
      + apply Forall_app. split; [|apply Forall_singleton; rewrite length_app, length_map; lia].
        apply (Forall_fmap (map Some)). eapply Forall_impl; [exact H3|]. intros q Hq. cbn. by rewrite length_map. }
  eexists _, _. split; [done|]. rewrite !map_app, Hf1, Hf2, concat_app, Hpad, <-app_assoc.
  split; [|split; [done|]].
  2: { apply Forall_app. split; [|by apply Forall_forall; intros e (i & -> & _)%list_elem_of_fmap; cbn; rewrite length_replicate].
       apply (Forall_fmap snd (fun p => length p = KUZU_PAGE_SIZE)). change (snd <$> ?l) with (map snd l). by rewrite Hf2. }
  rewrite map_map. cbn.
  set (k := length (InMemFileWriter.pages w)) in *.
  assert (map (fun i => u32 (startPageIdx r + Z.of_nat i)) (seq k (Z.to_nat (PageRange.numPages r) - k)) =
    seqZ (startPageIdx r + Z.of_nat k) (PageRange.numPages r - Z.of_nat k)) as ->.
  { apply list_eq. intros i. rewrite list_lookup_fmap. destruct (decide (i < Z.to_nat (PageRange.numPages r) - k)%nat) as [Hi|Hi].
    - rewrite lookup_seq_lt by done. cbn. unfold u32. rewrite wrap_small by lia. symmetry. apply lookup_seqZ. lia.
    - rewrite lookup_seq_ge by lia. symmetry. apply lookup_seqZ_ge. lia. }
  rewrite <-seqZ_app by lia. unfold FreeFacts.pages. f_equal. lia.
Qed.

(** What [serializeMetadata] allocates and writes. *)
Lemma serializeMetadata_spec pm held w data :
  file_inv pm held -> repr w data -> tight w ->
  exists n, getMaxNumPagesForSerialization (PageManager.freeSpaceManager pm) = Ret n /\
    0 < n <= 2 * Z.of_nat (length (written (PageManager.freeSpaceManager pm))) + 5 /\
    (FileHandle.numPages (PageManager.fileHandle pm) + (Z.of_nat (getNumPagesToFlush w) + n) < 2 ^ 32 ->
     exists pm' r w' frames bs pad, PageManager.allocatePageRange pm (Z.of_nat (getNumPagesToFlush w) + n) = Ret (pm', r) /\
       serializeMetadata pm w = Ret (pm', r, w', frames) /\ file_inv pm' (pages r ++ held) /\
       map fst frames = pages r /\ concat (map snd frames) = map Some (data ++ bs) ++ pad /\ Forall (fun e => length e.2 = KUZU_PAGE_SIZE) frames /\
       FreeSpaceManager.serialize (PageManager.freeSpaceManager pm') = Ret bs /\
       (forall rest, exists s', deserialize init (bs ++ rest) = Ret (s', rest) /\ wf s' /\
          free s' ≡ₚ written (PageManager.freeSpaceManager pm') /\ uncheckpointedFreePageRanges s' = [])).
Proof.
  intros Hinv Hr Ht. destruct (getMaxNumPages_spec _ (file_serializable _ _ Hinv)) as (n & Hest & [Hn0 Hn2] & Hn). exists n. split; [done|].
  assert (0 < n) as Hnpos by (unfold PAGE_SIZE in *; lia). split; [done|]. intros Hmax.
  unfold serializeMetadata. rewrite Hest. cbn [mbind outcome_bind].
  destruct (allocatePageRange_spec pm held (Z.of_nat (getNumPagesToFlush w) + n) Hinv)
    as (pm' & r & -> & Hrn & Hinv' & Hokr & Hu & Hlen & _); [lia|done|]. cbn [mbind outcome_bind].
  pose proof (file_serializable _ _ Hinv') as Hser.
  destruct (serializeInternal_spec _ Hser) as [-> _]. cbn [mbind outcome_bind].
  destruct (writeItems_spec w data (items_of (written (PageManager.freeSpaceManager pm'))) Hr Ht)
    as (w' & -> & Hr' & Ht'). cbn [mbind outcome_bind].
  fold (items_bytes (items_of (written (PageManager.freeSpaceManager pm')))) in Hr'.
  assert (length (written (PageManager.freeSpaceManager pm')) <= length (written (PageManager.freeSpaceManager pm)))%nat
    as Hwl by (unfold written; rewrite !length_app, Hu; lia).
  pose proof (items_of_length (written (PageManager.freeSpaceManager pm'))) as Hil.
  destruct (repr_pages w data Hr Ht) as [[Hd1 Hd2] _].
  destruct (repr_pages w' _ Hr' Ht') as [[Hw1 Hw2] _]. rewrite length_app in Hw1, Hw2.
  pose proof KUZU_PAGE_SIZE_Z as HP. pose proof KUZU_PAGE_SIZE_pos as Hpos.
  destruct (flush_spec w' _ r Hr') as (frames & pad & -> & Hf & Hc & Hfl); [by apply Hokr; lia| |].
  { rewrite Hrn. unfold PAGE_SIZE in *. apply Z.lt_succ_r.
    apply (Zmult_lt_reg_r _ _ (Z.of_nat KUZU_PAGE_SIZE)); [lia|]. nia. }
  eexists pm', r, w', frames, _, pad. split_and!; [done|done|done|done|done|done| |].
  { unfold FreeSpaceManager.serialize. by rewrite (proj1 (serializeInternal_spec _ Hser)). }
  intros rest. by apply deserialize_spec.
Qed.

(** The metadata of a checkpoint fits the pages allocated for it and reads
    back: whatever the metadata writer already holds, the estimate taken before
    the allocation is enough for the state after it, so that no assertion of
    [serializeMetadata] or [flush] fails; the frames written are exactly the pages
    of the allocated range, in order, and hold the earlier metadata followed by
    the page manager's; and deserialising these bytes gives a well-formed free
    space manager whose free ranges are the free ranges of the state written and
    those that were waiting for the checkpoint. *)
Theorem serializeMetadata_fits pm held w data n :
  file_inv pm held -> repr w data -> tight w ->
  getMaxNumPagesForSerialization (PageManager.freeSpaceManager pm) = Ret n ->
  FileHandle.numPages (PageManager.fileHandle pm) + (Z.of_nat (getNumPagesToFlush w) + n) < 2 ^ 32 ->
  exists pm' r w' frames bs pad,
    serializeMetadata pm w = Ret (pm', r, w', frames) /\ file_inv pm' (pages r ++ held) /\
    map fst frames = pages r /\ concat (map snd frames) = map Some (data ++ bs) ++ pad /\
    FreeSpaceManager.serialize (PageManager.freeSpaceManager pm') = Ret bs /\
    (forall rest, exists s', deserialize init (bs ++ rest) = Ret (s', rest) /\ wf s' /\
       free s' ≡ₚ written (PageManager.freeSpaceManager pm') /\ uncheckpointedFreePageRanges s' = []).
Proof.
  intros Hinv Hr Ht Hest Hmax. destruct (serializeMetadata_spec pm held w data Hinv Hr Ht) as (n' & E & _ & Hrun).
  rewrite Hest in E. injection E as <-. destruct (Hrun Hmax) as (pm' & r & w' & frames & bs & pad & _ & ? & ? & ? & ? & _ & ? & ?).
  by exists pm', r, w', frames, bs, pad.
Qed.
End metadata.

(** ** Histories of a data file *)

Section histories.

(** One operation on the pages; [held] are the pages in use. A rollback of a
    checkpoint gives the ranges freed during it back to their users. *)
Inductive step : PageManager.t * list Z -> PageManager.t * list Z -> Prop :=
| step_allocate pm held n pm' r :
    0 <= n -> FileHandle.numPages (PageManager.fileHandle pm) + n < 2 ^ 32 ->
    PageManager.allocatePageRange pm n = Ret (pm', r) -> step (pm, held) (pm', pages r ++ held)
| step_free pm held r held' :
    owned r held held' -> step (pm, held) (PageManager.freePageRange pm r, held')
| step_free_now pm held r held' pm' :
    owned r held held' -> PageManager.freeImmediatelyRewritablePageRange pm r = Ret pm' ->
    step (pm, held) (pm', held')
| step_finalize pm held pm' :
    PageManager.finalizeCheckpoint pm = Ret pm' -> step (pm, held) (pm', held)
| step_rollback pm held :
    step (pm, held) (PageManager.rollbackCheckpoint pm,
      all_pages (uncheckpointedFreePageRanges (PageManager.freeSpaceManager pm)) ++ held).

Lemma step_inv a b : step a b -> file_inv a.1 a.2 -> file_inv b.1 b.2.
Proof.
  intros [pm held n pm' r H0 H1 Hrun|pm held r held' How|pm held r held' pm' How Hrun|pm held pm' Hrun|pm held];
    cbn; intros Hinv.
  - destruct (allocatePageRange_spec pm held n Hinv H0 H1) as (? & ? & E & _ & Hinv' & _).
    rewrite E in Hrun. by injection Hrun as <- <-.
  - by eapply freePageRange_spec.
  - destruct (freeImmediately_spec pm r held held' Hinv How) as (? & E & Hinv' & _).
    rewrite E in Hrun. by injection Hrun as <-.
  - destruct (finalize_file_spec pm held Hinv) as (? & E & Hinv' & _). rewrite E in Hrun. by injection Hrun as <-.
  - by apply rollbackCheckpoint_spec.
Qed.

(** A new file of [n] pages in use: the header, at first. *)
Definition new_file (n : Z) : PageManager.t * list Z :=
  (PageManager.mk_pm init (FileHandle.mk n []) 0, seqZ 0 n).

Lemma new_file_inv n : 0 <= n < 2 ^ 32 -> file_inv (new_file n).1 (new_file n).2.
Proof. intros Hn. split; cbn; [apply init_wf_fsm|constructor|done|done]. Qed.

Lemma reachable_inv n st :
  0 <= n < 2 ^ 32 -> rtc step (new_file n) st -> file_inv st.1 st.2.
Proof.
  intros Hn Hr. pose proof (new_file_inv n Hn) as H. revert H. induction Hr as [|x y z Hxy _ IH]; [done|].
  intros H. apply IH. by eapply step_inv.
Qed.

(** C26. Pages are never lost and never in two places, over every history of
    allocations, frees, immediate frees, checkpoints and rolled back
    checkpoints: the free pages, those waiting for the checkpoint and those in use
    are together exactly the pages of the file, each once. In every reachable state the
    next operation runs without a failing assertion; an allocation gives a range
    of the size asked for, none of whose pages is in use or waiting for the
    checkpoint. *)
Theorem pages_conserved n0 pm held :
  0 <= n0 < 2 ^ 32 -> rtc step (new_file n0) (pm, held) ->
  all_pages (free (PageManager.freeSpaceManager pm)) ++
    all_pages (uncheckpointedFreePageRanges (PageManager.freeSpaceManager pm)) ++ held ≡ₚ
    seqZ 0 (FileHandle.numPages (PageManager.fileHandle pm)) /\
  (forall n, 0 <= n -> FileHandle.numPages (PageManager.fileHandle pm) + n < 2 ^ 32 ->
     exists pm' r, PageManager.allocatePageRange pm n = Ret (pm', r) /\ PageRange.numPages r = n /\
       (forall p, p ∈ pages r -> (p ∉ held) /\
         p ∉ all_pages (uncheckpointedFreePageRanges (PageManager.freeSpaceManager pm)))) /\
  (forall r held', owned r held held' ->
     exists pm', PageManager.freeImmediatelyRewritablePageRange pm r = Ret pm') /\
  (exists pm', PageManager.finalizeCheckpoint pm = Ret pm').
Proof.
  intros Hn Hr. pose proof (reachable_inv n0 (pm, held) Hn Hr) as Hinv. cbn in Hinv. split_and!.
  - rewrite <-(fi_pages _ _ Hinv). unfold written. by rewrite all_pages_app, <-app_assoc.
  - intros n H0 H1. destruct (allocatePageRange_spec pm held n Hinv H0 H1)
      as (pm' & r & -> & Hrn & Hinv' & _ & Hu & _). exists pm', r. split_and!; [done|done|].
    intros p Hp. pose proof (file_NoDup _ _ Hinv') as Hnd. unfold written in Hnd.
    rewrite Hu, all_pages_app, <-app_assoc in Hnd. apply NoDup_app in Hnd as (_ & _ & Hnd).
    apply NoDup_app in Hnd as (_ & Hd1 & Hnd). apply NoDup_app in Hnd as (_ & Hd2 & _).
    split; [by apply Hd2|]. intros Hx. apply (Hd1 p Hx), elem_of_app. by left.
  - intros r held' How. destruct (freeImmediately_spec pm r held held' Hinv How) as (pm' & E & _). by exists pm'.
  - destruct (finalize_file_spec pm held Hinv) as (pm' & E & _). by exists pm'.
Qed.
End histories.

(** ** Optimistic allocation *)

Section optimistic.

(** Allocations of the given sizes through an [OptimisticAllocator]. *)
Fixpoint allocateAll (pm : PageManager.t) (pgs : list PageRange.t) (sizes : list Z)
  : outcome (PageManager.t * list PageRange.t) :=
  match sizes with
  | [] => mret (pm, pgs)
  | n :: sizes => '(pm, pgs, _) ← OptimisticAllocator.allocatePageRange pm pgs n; allocateAll pm pgs sizes
  end.

Definition grown (pm : PageManager.t) (k : Z) : Z := FileHandle.numPages (PageManager.fileHandle pm) + k.

Lemma allocate_growth pm n pm' r :
  0 <= FileHandle.numPages (PageManager.fileHandle pm) -> 0 <= n ->
  FileHandle.numPages (PageManager.fileHandle pm) + n < 2 ^ 32 ->
  PageManager.allocatePageRange pm n = Ret (pm', r) ->
  FileHandle.numPages (PageManager.fileHandle pm') <= FileHandle.numPages (PageManager.fileHandle pm) + n.
Proof.
  intros H0 Hn Hmax. unfold PageManager.allocatePageRange.
  destruct (popFreePages (PageManager.freeSpaceManager pm) n) as [[fsm [x|]]| |]; cbn [mbind outcome_bind]; [| |done..].
  - intros [= <- _]. cbn. lia.
  - rewrite addNewPages_spec by done. destruct (_ <=? _); [|done]. cbn [mbind outcome_bind ku_assert]. intros [= <- _]. cbn. lia.
Qed.

Lemma allocateAll_spec pm pgs held sizes :
  file_inv pm (all_pages pgs ++ held) -> Forall ok pgs -> Forall (fun n => 0 <= n) sizes ->
  grown pm (fold_right Z.add 0 sizes) < 2 ^ 32 ->
  exists pm' new, allocateAll pm pgs sizes = Ret (pm', pgs ++ new) /\
    file_inv pm' (all_pages (pgs ++ new) ++ held) /\ Forall ok (pgs ++ new) /\
    map PageRange.numPages new = List.filter (fun n => 0 <? n) sizes.
Proof.
  intros Hinv Hok Hs. revert pm pgs Hinv Hok.
  induction Hs as [|n sizes Hn Hs IH]; intros pm pgs Hinv Hok Hmax.
  - exists pm, []. by rewrite app_nil_r.
  - unfold grown in *. cbn [fold_right allocateAll] in *.
    assert (0 <= fold_right Z.add 0 sizes) as Hsum by (clear -Hs; induction Hs; cbn; lia).
    unfold OptimisticAllocator.allocatePageRange.
    destruct (allocatePageRange_spec pm _ n Hinv Hn) as (pm1 & r & Hrun & Hrn & Hinv1 & Hokr & _ & _ & Hgrow); [lia|].
    rewrite Hrun. cbn [mbind outcome_bind mret outcome_ret].
    assert (FileHandle.numPages (PageManager.fileHandle pm1) <= FileHandle.numPages (PageManager.fileHandle pm) + n) as Hle
      by (eapply allocate_growth; [apply (fi_size _ _ Hinv)|done|lia|done]).
    destruct (Z.ltb_spec 0 n) as [Hpos|Hz].
    + destruct (IH pm1 (pgs ++ [r])) as (pm2 & new & -> & Hinv2 & Hok2 & Hmap); [| |lia|].
      * rewrite all_pages_app, (all_pages_cons r []). change (all_pages []) with (@nil Z).
        destruct Hinv1 as [A1 A2 A3 A4]. split; [done..|]. rewrite <-A4. solve_Permutation.
      * apply Forall_app. split; [done|]. constructor; [by apply Hokr|done].
      * exists pm2, (r :: new). rewrite <-app_assoc in *. split_and!; [done|done|done|].
        cbn. rewrite (proj2 (Z.ltb_lt _ _) Hpos), Hrn. by rewrite Hmap.
    + destruct (IH pm1 pgs) as (pm2 & new & -> & Hinv2 & Hok2 & Hmap); [|done|lia|].
      * unfold pages in Hinv1. rewrite Hrn, seqZ_nil in Hinv1 by lia. done.
      * exists pm2, new. split_and!; try done. cbn. by rewrite (proj2 (Z.ltb_ge _ _) Hz).
Qed.

Lemma optimistic_rollback_spec pm pgs held :
  file_inv pm (all_pages pgs ++ held) -> Forall ok pgs ->
  exists pm', OptimisticAllocator.rollback pm pgs = Ret (pm', []) /\ file_inv pm' held /\
    free (PageManager.freeSpaceManager pm') ≡ₚ pgs ++ free (PageManager.freeSpaceManager pm) /\
    uncheckpointedFreePageRanges (PageManager.freeSpaceManager pm') =
      uncheckpointedFreePageRanges (PageManager.freeSpaceManager pm) /\
    FileHandle.numPages (PageManager.fileHandle pm') = FileHandle.numPages (PageManager.fileHandle pm).
Proof.
  intros Hinv Hok. revert pm Hinv. induction Hok as [|r pgs Hr Hok IH]; intros pm Hinv.
  - by exists pm.
  - cbn [OptimisticAllocator.rollback].
    destruct (freeImmediately_spec pm r (all_pages (r :: pgs) ++ held) (all_pages pgs ++ held) Hinv)
      as (pm1 & -> & Hinv1 & _ & Hf1 & Hn1 & _ & Hu1).
    { split; [apply Hr|]. by rewrite all_pages_cons, app_assoc. }
    cbn [mbind outcome_bind]. destruct (IH pm1 Hinv1) as (pm2 & -> & Hinv2 & Hf2 & Hu2 & Hn2).
    exists pm2. split_and!; [done|done| |congruence|congruence]. rewrite Hf2, Hf1. solve_Permutation.
Qed.

(** Optimistic allocation: from any state of the file a transaction can
    allocate ranges of any sizes; the allocator remembers exactly the non-empty
    ones. Rolling back gives all of them to the free ranges at once, not at the
    next checkpoint, whatever else is in use stays so, and the file does not grow;
    committing only forgets them. *)
Theorem optimistic_rollback pm held sizes :
  file_inv pm held -> Forall (fun n => 0 <= n) sizes -> grown pm (fold_right Z.add 0 sizes) < 2 ^ 32 ->
  exists pm1 pgs pm2,
    allocateAll pm [] sizes = Ret (pm1, pgs) /\ file_inv pm1 (all_pages pgs ++ held) /\
    map PageRange.numPages pgs = List.filter (fun n => 0 <? n) sizes /\
    OptimisticAllocator.rollback pm1 pgs = Ret (pm2, []) /\ file_inv pm2 held /\
    free (PageManager.freeSpaceManager pm2) ≡ₚ pgs ++ free (PageManager.freeSpaceManager pm1) /\
    FileHandle.numPages (PageManager.fileHandle pm2) = FileHandle.numPages (PageManager.fileHandle pm1) /\
    OptimisticAllocator.commit pm1 pgs = (pm1, []).
Proof.
  intros Hinv Hs Hmax. destruct (allocateAll_spec pm [] held sizes) as (pm1 & new & -> & Hinv1 & Hok & Hmap); [done|constructor|done|done|].
  cbn [app] in *. destruct (optimistic_rollback_spec pm1 new held Hinv1 Hok) as (pm2 & E & Hinv2 & Hf & _ & Hn).
  exists pm1, new, pm2. done.
Qed.
End optimistic.

(** ** Iteration and the metadata writer *)

(** [getEntries] returns, for any range within the number of entries, that
    slice of the free ranges in iteration order (list by list, each from the
    smallest range), crossing empty lists; so consecutive slices cover every
    range exactly once. A range the wrong way round fails the assertion. *)
Theorem getEntries_slice s i j :
  wf s -> ((i <= j <= Z.to_nat (numEntries s))%nat ->
    getEntries s i j = Ret (take (j - i) (drop i (concat (freeLists s)))) ) /\
  ((j < i)%nat -> getEntries s i j = Undef).
Proof.
  intros Hwf. split.
  - rewrite (wf_count _ Hwf), Nat2Z.id. apply getEntries_spec.
  - intros Hji. unfold getEntries. by rewrite (proj2 (Nat.leb_gt _ _) Hji).
Qed.

Definition writeAll (chunks : list bytes) : outcome InMemFileWriter.t :=
  for_range 0 (length chunks) (fun i w => chunk ← load chunks i; InMemFileWriter.write w chunk) InMemFileWriter.init.

(** The in-memory writer: whatever chunks are written, of whatever sizes,
    no copy leaves a buffer; what is flushed to a file writer is exactly their
    concatenation, the size is its length, and the number of pages is its length
    in pages, rounded up. *)
Theorem writer_contents chunks :
  exists w, writeAll chunks = Ret w /\
    InMemFileWriter.flush_bytes w = map Some (concat chunks) /\
    InMemFileWriter.getSize w = length (concat chunks) /\
    Z.of_nat (InMemFileWriter.getNumPagesToFlush w) =
      (Z.of_nat (length (concat chunks)) + PAGE_SIZE - 1) / PAGE_SIZE.
Proof.
  destruct (for_range_inv (fun k w => InMemFileWriter.repr w (concat (take k chunks)) /\ InMemFileWriter.tight w)
    0 (length chunks) (fun i w => chunk ← load chunks i; InMemFileWriter.write w chunk) InMemFileWriter.init)
    as (w & Hrun & Hr & Ht).
  - apply InMemFileWriter.repr_init.
  - intros k w Hk [Hr Ht]. cbn [Nat.add]. destruct (load_lt chunks k Hk) as (c & Hc & ->). cbn [mbind outcome_bind].
    destruct (InMemFileWriter.write_spec w _ c Hr Ht) as (w' & -> & Hr' & Ht'). exists w'. split; [done|].
    erewrite take_S_r by done. rewrite concat_app. cbn. by rewrite app_nil_r.
  - rewrite firstn_all in Hr. destruct (InMemFileWriter.repr_pages w _ Hr Ht) as [[H1 H2] H3].
    exists w. split_and!; [done|by apply InMemFileWriter.flush_bytes_spec|done|].
    pose proof KUZU_PAGE_SIZE_Z as HP. unfold PAGE_SIZE in *.
    apply Z.div_unique with (r := Z.of_nat (length (concat chunks)) + 2 ^ 12 - 1 -
      2 ^ 12 * Z.of_nat (InMemFileWriter.getNumPagesToFlush w)); [left; nia|lia].
Qed.

(** ** Witnesses *)

Definition example_ranges : list PageRange.t := [PageRange.mk 40 1; PageRange.mk 10 3; PageRange.mk 20 5; PageRange.mk 3 7].

(** Ranges of 1, 3, 5 and 7 pages in three lists, and two pages that wait for the checkpoint. *)
Definition example_fsm : FreeSpaceManager.t :=
  FreeSpaceManager.mk
    [[PageRange.mk 40 1]; [PageRange.mk 10 3]; [PageRange.mk 20 5; PageRange.mk 3 7]]
    [PageRange.mk 48 2] 4 false.

Lemma example_fsm_wf : wf example_fsm.
Proof.
  destruct (deserializeEntries_spec init example_ranges []) as (s & Hrun & Hwf & _).
  - apply init_wf_fsm.
  - repeat constructor; cbn; lia.
  - apply (bool_decide_unpack _). vm_compute. exact I.
  - vm_compute in Hrun. injection Hrun as <-. apply (wf_same _ example_fsm) in Hwf; done.
Qed.

Definition example_held : list Z := [0; 1; 2; 13; 14; 15; 16; 17; 18; 19] ++ seqZ 25 15 ++ seqZ 41 7.

Definition example_file : PageManager.t := PageManager.mk_pm example_fsm (FileHandle.mk 50 []) 3.

Lemma example_file_inv : file_inv example_file example_held.
Proof.
  split; [apply example_fsm_wf|repeat constructor; cbn; lia|cbn; lia|].
  apply (bool_decide_unpack _). vm_compute. exact I.
Qed.

(** Two pages are cut from the range of three. *)
Lemma popFreePages_best_fit_witness :
  (0 < 2) /\
  popFreePages example_fsm 2 = Ret (FreeSpaceManager.mk
      [[PageRange.mk 12 1; PageRange.mk 40 1]; []; [PageRange.mk 20 5; PageRange.mk 3 7]]
      [PageRange.mk 48 2] 4 false, Some (PageRange.mk 10 2)) /\
  exists s' r, popFreePages example_fsm 2 = Ret (s', r) /\ wf s'.
Proof.
  split; [lia|]. split; [vm_compute; reflexivity|].
  destruct (popFreePages_best_fit example_fsm 2 example_fsm_wf ltac:(lia)) as (s' & r & H & Hwf & _).
  exists s', r. exact (conj H Hwf).
Defined.

(** The ranges at 3 and 10 are merged; the pages 48 and 49 are cut off the file. *)
Lemma finalizeCheckpoint_merges_witness :
  file_inv example_file example_held /\
  PageManager.finalizeCheckpoint example_file = Ret (PageManager.mk_pm (FreeSpaceManager.mk
      [[PageRange.mk 40 1]; []; [PageRange.mk 20 5]; [PageRange.mk 3 10]] [] 3 true)
      (FileHandle.mk 48 [49; 48]) 3) /\
  exists pm', PageManager.finalizeCheckpoint example_file = Ret pm' /\ file_inv pm' example_held.
Proof.
  split; [apply example_file_inv|]. split; [vm_compute; reflexivity|].
  destruct (finalizeCheckpoint_merges example_file example_held example_file_inv) as (pm' & H & Hinv & _).
  exists pm'. exact (conj H Hinv).
Defined.

(** After three bytes of metadata one page for each is enough. *)
Lemma serializeMetadata_fits_witness :
  getMaxNumPagesForSerialization (PageManager.freeSpaceManager example_file) = Ret 1 /\
  exists w, InMemFileWriter.write InMemFileWriter.init [7; 8; 9] = Ret w /\
  exists pm' r w' frames, Checkpointer.serializeMetadata example_file w = Ret (pm', r, w', frames) /\
    map fst frames = pages r.
Proof.
  split; [vm_compute; reflexivity|].
  destruct InMemFileWriter.repr_init as [Hr Ht].
  destruct (InMemFileWriter.write_spec _ _ [7; 8; 9] Hr Ht) as (w & Hw & Hrw & Htw). exists w. split; [exact Hw|].
  assert (InMemFileWriter.getNumPagesToFlush w = 1)%nat as Hp.
  { apply (f_equal (fun o => match o with Ret w => InMemFileWriter.getNumPagesToFlush w | _ => O end)) in Hw.
    rewrite <-Hw. vm_compute. reflexivity. }
  destruct (serializeMetadata_fits example_file example_held w _ 1 example_file_inv Hrw Htw)
    as (pm' & r & w' & frames & bs & pad & H & _ & Hf & _); [vm_compute; reflexivity|rewrite Hp; cbn; lia|].
  exists pm', r, w', frames. exact (conj H Hf).
Defined.

(** A history: page 2 of a new file of three pages is freed at once, two are allocated. *)
Definition example_history : PageManager.t :=
  PageManager.mk_pm (FreeSpaceManager.mk [[PageRange.mk 2 1]] [] 1 true) (FileHandle.mk 5 [2]) 1.

Lemma example_history_reachable : rtc step (new_file 3) (example_history, [3; 4; 0; 1]).
Proof.
  eapply rtc_l; [|eapply rtc_once].
  - eapply (step_free_now _ [0; 1; 2] (PageRange.mk 2 1) [0; 1]); [|vm_compute; reflexivity].
    split; [done|]. apply (bool_decide_unpack _). vm_compute. exact I.
  - apply (step_allocate _ [0; 1] 2 example_history (PageRange.mk 3 2)); [lia|cbn; lia|vm_compute; reflexivity].
Qed.

Lemma pages_conserved_witness :
  rtc step (new_file 3) (example_history, [3; 4; 0; 1]) /\
  all_pages [PageRange.mk 2 1] ++ [3; 4; 0; 1] ≡ₚ seqZ 0 5.
Proof.
  split; [apply example_history_reachable|].
  apply (pages_conserved 3 example_history [3; 4; 0; 1]); [lia|apply example_history_reachable].
Defined.

Lemma optimistic_rollback_witness :
  exists pm1 pgs pm2, allocateAll example_file [] [2; 0; 9] = Ret (pm1, pgs) /\
    pgs = [PageRange.mk 10 2; PageRange.mk 50 9] /\
    OptimisticAllocator.rollback pm1 pgs = Ret (pm2, []) /\ file_inv pm2 example_held.
Proof.
  destruct (optimistic_rollback example_file example_held [2; 0; 9] example_file_inv)
    as (pm1 & pgs & pm2 & H1 & _ & _ & H2 & H3 & _); [repeat constructor; lia|vm_compute; reflexivity|].
  exists pm1, pgs, pm2. split; [exact H1|]. split; [|exact (conj H2 H3)].
  apply (f_equal (fun o => match o with Ret (_, p) => p | _ => [] end)) in H1.
  rewrite <-H1. vm_compute. reflexivity.
Defined.

Lemma getEntries_slice_witness :
  getEntries example_fsm 1 3 = Ret [PageRange.mk 10 3; PageRange.mk 20 5].
Proof. rewrite (proj1 (getEntries_slice example_fsm 1 3 example_fsm_wf)); [reflexivity|vm_compute; lia]. Defined.
