(* ===== verification/TransactionManager.v ===== *)
(** The transaction manager ([transaction/transaction_manager.cpp]), the parts
    of [Transaction] it runs ([transaction/transaction.cpp]), the decision to
    checkpoint ([storage/checkpointer.cpp]) and the transaction of a connection
    ([transaction/transaction_context.cpp], [main/client_context.cpp],
    [processor/operator/transaction.cpp]). Every public function of the manager
    holds [mtxForSerializingPublicFunctionCalls] to its end, so each is one step
    on the shared state. What the transactions work on is behind the interface
    [Storage]. A [Transaction] pointer is the identifier of a transaction in
    [activeTransactions]; following one that has left it is undefined. *)
From Stdlib Require Import QArith.
From S2P Require Import Prelude Effects VersionInfo Transaction.
Local Open Scope Z_scope.

(** ** The interface to what transactions work on *)

Record Config := mkConfig {
  isInMemory : bool;
  enableMultiWrites : bool;
  autoCheckpoint : bool;
  adaptiveCheckpoint : bool;
  checkpointThreshold : Z;
  checkpointAfterNTransactions : Z;
}.

(** Local storage, undo buffer and local WAL of a transaction, named by its
    identifier, and the shared WAL, catalog, buffer manager and checkpointer. *)
Class Storage (W : Type) := {
  cleanUp : M W unit;
  logBeginTransaction : transaction_t -> M W unit;
  localStorage_commit : transaction_t -> M W unit;
  localStorage_rollback : transaction_t -> M W unit;
  undoBuffer_commit : transaction_t -> transaction_t -> M W unit;
  undoBuffer_rollback : transaction_t -> M W unit;
  localWAL_logCommit : transaction_t -> M W unit;
  wal_logCommittedWAL : transaction_t -> M W unit;
  localWAL_clear : transaction_t -> M W unit;
  catalog_incrementVersion : M W unit;
  localWAL_getSize : W -> transaction_t -> Z;
  wal_getFileSize : W -> Z;
  getUsageRatio : W -> Q;
  getBufferPoolSize : W -> Z;
  writeCheckpoint : M W unit;
  checkpointer_rollback : M W unit;
}.

Module TransactionManager.
Section TransactionManager.
Context {W : Type} `{Storage W} (config : Config).
Import Transaction.

Record t := mk_tm {
  activeTransactions : list Transaction.t;
  lastTransactionID : transaction_t;
  lastTimestamp : transaction_t;
  checkpointWaitTimeoutInMicros : Z;
  numCommittedWriteTxnsSinceCheckpoint : Z;
  world : W;
}.

Definition DEFAULT_CHECKPOINT_WAIT_TIMEOUT_IN_MICROS : Z := 5000000.
Definition THREAD_SLEEP_TIME_WHEN_WAITING_IN_MICROS : Z := 500.

Definition init (w : W) : t := mk_tm [] START_TRANSACTION_ID 1 DEFAULT_CHECKPOINT_WAIT_TIMEOUT_IN_MICROS 0 w.

Definition set_active l (s : t) : t :=
  mk_tm l (lastTransactionID s) (lastTimestamp s) (checkpointWaitTimeoutInMicros s)
    (numCommittedWriteTxnsSinceCheckpoint s) (world s).
Definition set_num n (s : t) : t :=
  mk_tm (activeTransactions s) (lastTransactionID s) (lastTimestamp s) (checkpointWaitTimeoutInMicros s) n (world s).
Definition set_timestamp ts (s : t) : t :=
  mk_tm (activeTransactions s) (lastTransactionID s) ts (checkpointWaitTimeoutInMicros s)
    (numCommittedWriteTxnsSinceCheckpoint s) (world s).
Definition set_lastID id (s : t) : t :=
  mk_tm (activeTransactions s) id (lastTimestamp s) (checkpointWaitTimeoutInMicros s)
    (numCommittedWriteTxnsSinceCheckpoint s) (world s).
Definition set_world w (s : t) : t :=
  mk_tm (activeTransactions s) (lastTransactionID s) (lastTimestamp s) (checkpointWaitTimeoutInMicros s)
    (numCommittedWriteTxnsSinceCheckpoint s) w.

Definition on_world {A} (m : M W A) : M t A := fun s =>
  let '(r, w) := m (world s) in (r, set_world w s).

(** [*transaction]. *)
Definition find_txn (l : list Transaction.t) (id : transaction_t) : option Transaction.t :=
  List.find (fun x => ID x =? id) l.
Definition deref (transaction : transaction_t) : M t Transaction.t := fun s =>
  match find_txn (activeTransactions s) transaction with Some x => (Ret x, s) | None => (Undef, s) end.
Definition update_txn (transaction : transaction_t) (f : Transaction.t -> Transaction.t) : M t unit :=
  modify (fun s => set_active (map (fun x => if ID x =? transaction then f x else x) (activeTransactions s)) s).

(** ** Transactions *)

Definition with_commitTS ts (x : Transaction.t) : Transaction.t :=
  Transaction.mk (type x) (ID x) (startTS x) ts (forceCheckpoint x) (hasCatalogChanges x).
Definition without_catalog_changes (x : Transaction.t) : Transaction.t :=
  Transaction.mk (type x) (ID x) (startTS x) (commitTS x) (forceCheckpoint x) false.

Definition Transaction_commit (transaction : transaction_t) : M t unit :=
  on_world (localStorage_commit transaction);;
  x ← deref transaction;
  on_world (undoBuffer_commit transaction (commitTS x));;
  when (shouldLogToWAL (isInMemory config) x)
    (on_world (localWAL_logCommit transaction);;
     on_world (wal_logCommittedWAL transaction);;
     on_world (localWAL_clear transaction));;
  when (hasCatalogChanges x)
    (on_world catalog_incrementVersion;;
     update_txn transaction without_catalog_changes).

Definition Transaction_rollback (transaction : transaction_t) : M t unit :=
  on_world (localStorage_rollback transaction);;
  on_world (undoBuffer_rollback transaction);;
  update_txn transaction without_catalog_changes.

(** ** Checkpoints *)

(** The doubles nearest to 0.90, 0.75 and 0.60. *)
Definition POOL_EMERGENCY : Q := 8106479329266893 # (2 ^ 53).
Definition POOL_HIGH : Q := 3 # 4.
Definition POOL_MODERATE : Q := 5404319552844595 # (2 ^ 53).
Definition Qgtb (a b : Q) : bool := negb (Qle_bool a b).

Definition canAutoCheckpoint (w : W) (x : Transaction.t) : bool :=
  if isInMemory config then false
  else if negb (autoCheckpoint config) then false
  else if isRecovery x then false
  else
    let walSize := u64 (localWAL_getSize w (ID x) + wal_getFileSize w) in
    if adaptiveCheckpoint config && Qgtb (getUsageRatio w) POOL_EMERGENCY then true
    else if adaptiveCheckpoint config && Qgtb (getUsageRatio w) POOL_HIGH then getBufferPoolSize w / 10 <? walSize
    else if adaptiveCheckpoint config && Qgtb (getUsageRatio w) POOL_MODERATE then getBufferPoolSize w / 4 <? walSize
    else checkpointThreshold config <? walSize.

Definition shouldCheckpointOnTxnCountNoLock (s : t) : bool :=
  if isInMemory config then false
  else if negb (autoCheckpoint config) then false
  else (0 <? checkpointAfterNTransactions config) &&
       (checkpointAfterNTransactions config <=? numCommittedWriteTxnsSinceCheckpoint s).

Definition hasNoActiveTransactions (s : t) : bool :=
  match activeTransactions s with [] => true | _ => false end.
Definition hasActiveWriteTransactionNoLock (s : t) : bool :=
  existsb isWriteTransaction (activeTransactions s).

Definition TIMEOUT_MSG : string :=
  "Timeout waiting for active transactions to leave the system before checkpointing. If you have an open transaction, please close it and try again.".

(** The waiting loop; [fuel] bounds the rounds. Sleeping changes nothing: the
    mutex of the public functions is held. *)
Fixpoint wait_loop (fuel : nat) (numTimesWaited : Z) : M t unit :=
  match fuel with
  | O => undef
  | Datatypes.S fuel =>
      s ← get;
      if hasNoActiveTransactions s then mret tt
      else
        let numTimesWaited := u64 (numTimesWaited + 1) in
        if checkpointWaitTimeoutInMicros s <? u64 (numTimesWaited * THREAD_SLEEP_TIME_WHEN_WAITING_IN_MICROS)
        then throw (TransactionManagerException TIMEOUT_MSG)
        else wait_loop fuel numTimesWaited
  end.

Definition stopNewTransactionsAndWaitUntilAllTransactionsLeave : M t unit :=
  s ← get;
  wait_loop (Z.to_nat (checkpointWaitTimeoutInMicros s / THREAD_SLEEP_TIME_WHEN_WAITING_IN_MICROS) + 2) 0.

Definition checkpointNoLock : M t unit :=
  try_catch stopNewTransactionsAndWaitUntilAllTransactionsLeave
    (fun e => throw (CheckpointException (exn_msg e)));;
  try_catch (on_world writeCheckpoint)
    (fun e => on_world checkpointer_rollback;; throw (CheckpointException (exn_msg e))).

(** ** The public functions *)

Definition clearTransactionNoLock (transactionID : transaction_t) : M t unit :=
  s ← get;
  lift (ku_assert (existsb (fun x => ID x =? transactionID) (activeTransactions s)));;
  modify (set_active (List.filter (fun x => negb (ID x =? transactionID)) (activeTransactions s))).

Definition newTransaction (type : TransactionType) : M t Transaction.t :=
  modify (fun s => set_lastID (u64 (lastTransactionID s + 1)) s);;
  gets (fun s => make type (lastTransactionID s) (lastTimestamp s)).

Definition ONE_WRITER_MSG : string :=
  "Cannot start a new write transaction in the system. Only one write transaction at a time is allowed in the system.".

Definition beginTransaction (type : TransactionType) : M t transaction_t :=
  match type with
  | READ_ONLY =>
      transaction ← newTransaction type;
      modify (fun s => set_active (activeTransactions s ++ [transaction]) s);;
      mret (ID transaction)
  | RECOVERY | WRITE =>
      s ← get;
      if negb (enableMultiWrites config) && hasActiveWriteTransactionNoLock s
      then throw (TransactionManagerException ONE_WRITER_MSG)
      else
        transaction ← newTransaction type;
        when (shouldLogToWAL (isInMemory config) transaction) (on_world (logBeginTransaction (ID transaction)));;
        modify (fun s => set_active (activeTransactions s ++ [transaction]) s);;
        mret (ID transaction)
  | _ => throw (TransactionManagerException "Invalid transaction type to begin transaction.")
  end.

Definition commit (transaction : transaction_t) : M t unit :=
  on_world cleanUp;;
  x ← deref transaction;
  match type x with
  | READ_ONLY => clearTransactionNoLock (ID x)
  | RECOVERY | WRITE =>
      modify (fun s => set_timestamp (u64 (lastTimestamp s + 1)) s);;
      s ← get;
      update_txn transaction (with_commitTS (lastTimestamp s));;
      Transaction_commit transaction;;
      modify (fun s => set_num (u64 (numCommittedWriteTxnsSinceCheckpoint s + 1)) s);;
      s ← get;
      x ← deref transaction;
      let shouldCheckpoint := shouldForceCheckpoint (isInMemory config) x || canAutoCheckpoint (world s) x ||
                              shouldCheckpointOnTxnCountNoLock s in
      clearTransactionNoLock (ID x);;
      when shouldCheckpoint (checkpointNoLock;; modify (set_num 0))
  | _ => throw (TransactionManagerException "Invalid transaction type to commit.")
  end.

Definition rollback (transaction : transaction_t) : M t unit :=
  on_world cleanUp;;
  x ← deref transaction;
  match type x with
  | READ_ONLY => clearTransactionNoLock (ID x)
  | RECOVERY | WRITE =>
      Transaction_rollback transaction;;
      clearTransactionNoLock (ID x)
  | _ => throw (TransactionManagerException "Invalid transaction type to rollback.")
  end.

Definition checkpoint : M t unit :=
  if isInMemory config then mret tt
  else checkpointNoLock;; modify (set_num 0).
End TransactionManager.
Arguments t W : clear implicits.
End TransactionManager.

(** ** The transaction of a connection *)

Module TransactionContext.
Section TransactionContext.
Context {W : Type} `{Storage W} (config : Config).

Inductive TransactionMode := AUTO | MANUAL.
#[global] Instance TransactionMode_eq_dec : EqDecision TransactionMode.
Proof. solve_decision. Defined.

Record t := mk_ctx { mode : TransactionMode; activeTransaction : option transaction_t }.
Definition init : t := mk_ctx AUTO None.

(** The context of a connection, and the manager it shares. *)
Definition St : Type := t * TransactionManager.t W.

Definition on_manager {A} (m : M (TransactionManager.t W) A) : M St A := fun s =>
  let '(r, tm) := m (snd s) in (r, (fst s, tm)).
Definition set_mode (m : TransactionMode) : M St unit :=
  modify (fun s => (mk_ctx m (activeTransaction (fst s)), snd s)).

Definition isAutoTransaction (c : t) : bool := bool_decide (mode c = AUTO).
Definition hasActiveTransaction (c : t) : bool := bool_decide (is_Some (activeTransaction c)).

Definition clearTransaction : M St unit := modify (fun s => (mk_ctx AUTO None, snd s)).

Definition beginTransactionInternal (type : Transaction.TransactionType) : M St unit :=
  s ← get;
  lift (ku_assert (negb (hasActiveTransaction (fst s))));;
  transaction ← on_manager (TransactionManager.beginTransaction config type);
  modify (fun s => (mk_ctx (mode (fst s)) (Some transaction), snd s)).

Definition beginReadTransaction : M St unit :=
  set_mode MANUAL;; beginTransactionInternal Transaction.READ_ONLY.
Definition beginWriteTransaction : M St unit :=
  set_mode MANUAL;; beginTransactionInternal Transaction.WRITE.

Definition beginAutoTransaction (readOnlyStatement : bool) : M St unit :=
  s ← get;
  if hasActiveTransaction (fst s) then
    throw (TransactionManagerException "Cannot start a new transaction while there is an active transaction.")
  else beginTransactionInternal (if readOnlyStatement then Transaction.READ_ONLY else Transaction.WRITE).

Definition commit : M St unit :=
  s ← get;
  match activeTransaction (fst s) with
  | None => mret tt
  | Some transaction => on_manager (TransactionManager.commit config transaction);; clearTransaction
  end.

Definition rollback : M St unit :=
  s ← get;
  match activeTransaction (fst s) with
  | None => mret tt
  | Some transaction => on_manager (TransactionManager.rollback transaction);; clearTransaction
  end.

(** *** Statements *)

Inductive TransactionAction := BEGIN_READ | BEGIN_WRITE | COMMIT | ROLLBACK | CHECKPOINT.

Definition ALREADY_ACTIVE_MSG : string :=
  "Connection already has an active transaction. Cannot start a transaction within another one. For concurrent multiple transactions, please open other connections.".

Definition validateActiveTransaction (action : TransactionAction) (c : t) : outcome unit :=
  match action with
  | BEGIN_READ | BEGIN_WRITE =>
      if hasActiveTransaction c then Throw (TransactionManagerException ALREADY_ACTIVE_MSG) else mret tt
  | COMMIT | ROLLBACK =>
      if hasActiveTransaction c then mret tt
      else Throw (TransactionManagerException "No active transaction for {}.")
  | CHECKPOINT =>
      if hasActiveTransaction c then Throw (TransactionManagerException "Found active transaction for {}.")
      else mret tt
  end.

(** [getNextTuplesInternal] of the operator, run once. *)
Definition runAction (action : TransactionAction) : M St unit :=
  s ← get;
  lift (validateActiveTransaction action (fst s));;
  match action with
  | BEGIN_READ => beginReadTransaction
  | BEGIN_WRITE => beginWriteTransaction
  | COMMIT => commit
  | ROLLBACK => rollback
  | CHECKPOINT => on_manager (TransactionManager.checkpoint config)
  end.

Inductive TransactionCommitAction := COMMIT_IF_NEW | COMMIT_IF_AUTO | COMMIT_NEW_OR_AUTO | NOT_COMMIT.
Definition commitIfNew (a : TransactionCommitAction) : bool :=
  match a with COMMIT_IF_NEW | COMMIT_NEW_OR_AUTO => true | _ => false end.
Definition commitIfAuto (a : TransactionCommitAction) : bool :=
  match a with COMMIT_IF_AUTO | COMMIT_NEW_OR_AUTO => true | _ => false end.

Definition runFuncInTransaction (fn : M St unit) (readOnlyStatement isTransactionStatement : bool)
    (action : TransactionCommitAction) : M St unit :=
  s ← get;
  lift (ku_assert (isAutoTransaction (fst s) || hasActiveTransaction (fst s)));;
  let requireNewTransaction :=
    isAutoTransaction (fst s) && negb (hasActiveTransaction (fst s)) && negb isTransactionStatement in
  when requireNewTransaction (beginAutoTransaction readOnlyStatement);;
  try_catch
    (fn;;
     s ← get;
     when (requireNewTransaction && commitIfNew action || isAutoTransaction (fst s) && commitIfAuto action) commit)
    (fun e => match e with
              | CheckpointException _ => clearTransaction;; throw e
              | _ => rollback;; throw e
              end).
End TransactionContext.
End TransactionContext.
