(* ===== verification/TransactionSpec.v ===== *)
(** What the transaction manager promises: the outcome of every public function
    on every branch, the invariant of its reachable states, snapshots that
    separate earlier from later commits, checkpoints that only run alone, and
    what a statement leaves behind in its connection. *)
From S2P Require Import Prelude Effects VersionInfo Transaction TransactionManager.
From stdpp Require Import relations.
From Stdlib Require Import Permutation QArith.
Import Transaction TransactionManager.
Local Open Scope Z_scope.

Section manager.
Context {W : Type} `{Storage W} (config : Config).
Implicit Types (s : TransactionManager.t W) (x : Transaction.t) (id : transaction_t).

(** ** Steps that keep the transactions *)

(** What identifies a transaction and never changes. *)
Definition key x : TransactionType * transaction_t * transaction_t := (type x, ID x, startTS x).
Definition keys s : list (TransactionType * transaction_t * transaction_t) := map key (activeTransactions s).

Definition same_frame s s' : Prop :=
  keys s' = keys s /\ lastTransactionID s' = lastTransactionID s /\ lastTimestamp s' = lastTimestamp s /\
  checkpointWaitTimeoutInMicros s' = checkpointWaitTimeoutInMicros s.

#[local] Instance same_frame_trans : Transitive same_frame.
Proof. intros a b c (? & ? & ? & ?) (? & ? & ? & ?). unfold same_frame. split_and!; congruence. Qed.
#[local] Instance same_frame_refl : Reflexive same_frame.
Proof. done. Qed.

Definition keeps {A} (m : M (TransactionManager.t W) A) : Prop := forall s, same_frame s (m s).2.

Lemma keeps_ret {A} (a : A) : keeps (mret a).
Proof. done. Qed.
Lemma keeps_throw {A} e : keeps (A := A) (throw e).
Proof. done. Qed.
Lemma keeps_lift {A} (o : outcome A) : keeps (lift o).
Proof. done. Qed.
Lemma keeps_get : keeps get.
Proof. done. Qed.
Lemma keeps_on_world {A} (m : M W A) : keeps (on_world m).
Proof. intros s. unfold on_world. by destruct (m (world s)). Qed.
Lemma keeps_deref id : keeps (deref id).
Proof. intros s. unfold deref. by destruct find_txn. Qed.
Lemma keeps_bind {A B} (m : M (TransactionManager.t W) A) (f : A -> M (TransactionManager.t W) B) :
  keeps m -> (forall a, keeps (f a)) -> keeps (mbind f m).
Proof.
  intros Hm Hf s. specialize (Hm s). unfold mbind, M_bind. destruct (m s) as [[a|e|] s']; cbn in *; [|done..].
  etransitivity; [done|apply Hf].
Qed.
Lemma keeps_when b m : keeps m -> keeps (when b m).
Proof. by destruct b. Qed.
Lemma keeps_catch {A} (m : M (TransactionManager.t W) A) h :
  keeps m -> (forall e, keeps (h e)) -> keeps (try_catch m h).
Proof.
  intros Hm Hh s. specialize (Hm s). unfold try_catch. destruct (m s) as [[a|e|] s']; cbn in *; [done| |done].
  etransitivity; [done|apply Hh].
Qed.
Lemma keeps_update id f : (forall x, key (f x) = key x) -> keeps (update_txn id f).
Proof.
  intros Hf s. unfold update_txn, modify, same_frame, keys. cbn. split_and!; [|done..].
  rewrite map_map. apply map_ext. intros x. destruct (ID x =? id); [apply Hf|done].
Qed.
Lemma keeps_set_num n : keeps (modify (set_num n)).
Proof. done. Qed.
Lemma keeps_incr_num : keeps (modify (fun s => set_num (u64 (numCommittedWriteTxnsSinceCheckpoint s + 1)) s)).
Proof. done. Qed.

#[local] Hint Resolve keeps_ret keeps_throw keeps_lift keeps_get keeps_on_world keeps_deref keeps_when
  keeps_set_num keeps_incr_num : kuzu.

Lemma keeps_Transaction_commit id : keeps (Transaction_commit config id).
Proof.
  unfold Transaction_commit. repeat (apply keeps_bind; intros); eauto with kuzu.
  - apply keeps_when. repeat (apply keeps_bind; intros); eauto with kuzu.
  - apply keeps_when. apply keeps_bind; intros; [eauto with kuzu|]. by apply keeps_update.
Qed.

Lemma keeps_Transaction_rollback id : keeps (Transaction_rollback id).
Proof.
  unfold Transaction_rollback. repeat (apply keeps_bind; intros); eauto with kuzu. by apply keeps_update.
Qed.

Lemma keeps_wait fuel n : keeps (wait_loop fuel n).
Proof.
  revert n. induction fuel as [|fuel IH]; intros n; [done|]. cbn. apply keeps_bind; [done|]. intros s.
  destruct (hasNoActiveTransactions s); [done|]. by destruct (_ <? _).
Qed.

Lemma keeps_checkpointNoLock : keeps checkpointNoLock.
Proof.
  unfold checkpointNoLock. apply keeps_bind; [|intros _]; apply keeps_catch; intros; eauto with kuzu.
  - apply keeps_bind; [done|]. intros s. apply keeps_wait.
  - apply keeps_bind; intros; eauto with kuzu.
Qed.

(** ** Looking transactions up *)

Lemma find_txn_Some l id x : find_txn l id = Some x -> x ∈ l /\ ID x = id.
Proof. intros Hf. apply List.find_some in Hf as [Hin Hid%Z.eqb_eq]. split; [by apply list_elem_of_In|done]. Qed.

Lemma find_txn_key l l' id x :
  map key l = map key l' -> find_txn l id = Some x -> exists x', find_txn l' id = Some x' /\ key x' = key x.
Proof.
  revert l'. induction l as [|y l IH]; intros [|y' l'] Hk Hf; [done..|]. cbn in *.
  injection Hk as E1 E2 E3 Hk. rewrite E2 in Hf. destruct (ID y' =? id).
  - injection Hf as <-. exists y'. split; [done|]. unfold key. congruence.
  - by apply IH.
Qed.

Lemma keys_filter id (l : list Transaction.t) :
  map key (List.filter (fun x => negb (ID x =? id)) l) =
  List.filter (fun k => negb (k.1.2 =? id)) (map key l).
Proof. induction l as [|x l IH]; [done|]. cbn. destruct (ID x =? id); cbn; congruence. Qed.

Lemma find_existsb l id x : find_txn l id = Some x -> existsb (fun x => ID x =? id) l = true.
Proof.
  intros [Hin Hid]%find_txn_Some. apply existsb_exists. exists x.
  split; [by apply list_elem_of_In|by apply Z.eqb_eq].
Qed.

(** [s] without transaction [id]. *)
Definition left_by id s : TransactionManager.t W :=
  set_active (List.filter (fun x => negb (ID x =? id)) (activeTransactions s)) s.

Lemma clear_run s id x :
  find_txn (activeTransactions s) id = Some x -> clearTransactionNoLock id s = (Ret tt, left_by id s).
Proof.
  intros Hf. unfold clearTransactionNoLock, mbind, M_bind, get, lift, ku_assert.
  by rewrite (find_existsb _ _ _ Hf).
Qed.

(** ** Waiting *)

Lemma wait_loop_run fuel n s :
  0 <= n -> checkpointWaitTimeoutInMicros s < 2 ^ 62 ->
  0 <= checkpointWaitTimeoutInMicros s ->
  n * 500 <= checkpointWaitTimeoutInMicros s ->
  checkpointWaitTimeoutInMicros s < (n + Z.of_nat fuel) * 500 ->
  wait_loop fuel n s =
    (if hasNoActiveTransactions s then Ret tt else Throw (TransactionManagerException TIMEOUT_MSG), s).
Proof.
  revert n. induction fuel as [|fuel IH]; intros n Hn Hmax Hmin Hle Hfuel; [lia|].
  cbn [wait_loop]. unfold mbind, M_bind, get. destruct (hasNoActiveTransactions s) eqn:E; [done|].
  unfold u64, THREAD_SLEEP_TIME_WHEN_WAITING_IN_MICROS.
  rewrite (wrap_small 64 (n + 1)) by lia. rewrite wrap_small by lia.
  destruct (Z.ltb_spec (checkpointWaitTimeoutInMicros s) ((n + 1) * 500)); [done|].
  by rewrite IH by lia.
Qed.

Lemma stop_run s :
  0 <= checkpointWaitTimeoutInMicros s < 2 ^ 62 ->
  stopNewTransactionsAndWaitUntilAllTransactionsLeave s =
    (if hasNoActiveTransactions s then Ret tt else Throw (TransactionManagerException TIMEOUT_MSG), s).
Proof.
  intros Ht. unfold stopNewTransactionsAndWaitUntilAllTransactionsLeave, mbind, M_bind, get.
  unfold THREAD_SLEEP_TIME_WHEN_WAITING_IN_MICROS.
  pose proof (Z.div_mod (checkpointWaitTimeoutInMicros s) 500 ltac:(done)) as Hd.
  pose proof (Z.mod_pos_bound (checkpointWaitTimeoutInMicros s) 500 ltac:(done)) as Hm.
  apply wait_loop_run; [done|lia|lia|lia|].
  rewrite Nat2Z.inj_add, Z2Nat.id; lia.
Qed.

(** What a checkpoint amounts to: alone, it writes; otherwise it fails. *)
Definition checkpoint_result s : outcome unit * TransactionManager.t W :=
  if hasNoActiveTransactions s then
    match writeCheckpoint (world s) with
    | (Ret _, w) => (Ret tt, set_world w s)
    | (Throw e, w) =>
        match checkpointer_rollback w with
        | (Ret _, w) => (Throw (CheckpointException (exn_msg e)), set_world w s)
        | (Throw e', w) => (Throw e', set_world w s)
        | (Undef, w) => (Undef, set_world w s)
        end
    | (Undef, w) => (Undef, set_world w s)
    end
  else (Throw (CheckpointException TIMEOUT_MSG), s).

Lemma checkpointNoLock_run s :
  0 <= checkpointWaitTimeoutInMicros s < 2 ^ 62 -> checkpointNoLock s = checkpoint_result s.
Proof.
  intros Ht. unfold checkpointNoLock, checkpoint_result. unfold mbind, M_bind at 1. unfold try_catch.
  rewrite stop_run by done. destruct (hasNoActiveTransactions s); [|done].
  unfold on_world. destruct (writeCheckpoint (world s)) as [[[]|e|] w]; [done| |done].
  unfold mbind, M_bind. cbn. by destruct (checkpointer_rollback w) as [[[]|e'|] w'].
Qed.

(** ** What each public function does to the transactions *)

(** The manager after an identifier has been taken, and a transaction started. *)
Definition new_id s : transaction_t := u64 (lastTransactionID s + 1).
Definition started ty s : Transaction.t := make ty (new_id s) (lastTimestamp s).

Definition joined ty s (w : W) : TransactionManager.t W :=
  set_world w (set_active (activeTransactions s ++ [started ty s]) (set_lastID (new_id s) s)).

Lemma start_run ty s :
  (transaction ← newTransaction ty;
   when (shouldLogToWAL (isInMemory config) transaction) (on_world (logBeginTransaction (ID transaction)));;
   modify (fun s => set_active (activeTransactions s ++ [transaction]) s);;
   mret (ID transaction)) s =
  if shouldLogToWAL (isInMemory config) (started ty s) then
    match logBeginTransaction (new_id s) (world s) with
    | (Ret _, w) => (Ret (new_id s), joined ty s w)
    | (Throw e, w) => (Throw e, set_world w (set_lastID (new_id s) s))
    | (Undef, w) => (Undef, set_world w (set_lastID (new_id s) s))
    end
  else (Ret (new_id s), joined ty s (world s)).
Proof.
  unfold mbind, M_bind at 1.
  change (newTransaction ty s) with (Ret (started ty s), set_lastID (new_id s) s). cbn beta iota.
  destruct (shouldLogToWAL _ _); [|by destruct s]. unfold when, M_bind, on_world. cbn -[shouldLogToWAL].
  destruct (logBeginTransaction _ _) as [[[]|e|] w]; done.
Qed.

Lemma joined_find ty s w : find_txn (activeTransactions (joined ty s w)) (new_id s) <> None.
Proof.
  cbn. induction (activeTransactions s) as [|y l IH]; cbn; [by rewrite Z.eqb_refl|]. by destruct (_ =? _).
Qed.

Lemma joined_keys ty s w : keys (joined ty s w) = keys s ++ [key (started ty s)].
Proof. unfold keys. cbn. by rewrite map_app. Qed.

(** Writers are let in one at a time, if so configured. *)
Definition may_begin ty s : Prop :=
  ty = READ_ONLY \/ (ty = WRITE \/ ty = RECOVERY) /\
    (enableMultiWrites config = true \/ hasActiveWriteTransactionNoLock s = false).

Lemma begin_cases ty s r s' :
  beginTransaction config ty s = (r, s') -> r <> Undef ->
  lastTimestamp s' = lastTimestamp s /\ checkpointWaitTimeoutInMicros s' = checkpointWaitTimeoutInMicros s /\
  ((r = Ret (new_id s) /\ (exists w, s' = joined ty s w) /\ may_begin ty s) \/
   (exists e, r = Throw e /\ keys s' = keys s /\
     (lastTransactionID s' = lastTransactionID s \/ lastTransactionID s' = new_id s))).
Proof.
  intros Hrun Hr.
  assert (r = Ret (new_id s) /\ s' = joined READ_ONLY s (world s) /\ ty = READ_ONLY \/
    ((ty = WRITE \/ ty = RECOVERY) /\ negb (enableMultiWrites config) && hasActiveWriteTransactionNoLock s = false /\
       (if shouldLogToWAL (isInMemory config) (started ty s) then
          match logBeginTransaction (new_id s) (world s) with
          | (Ret _, w) => (Ret (new_id s), joined ty s w)
          | (Throw e, w) => (Throw e, set_world w (set_lastID (new_id s) s))
          | (Undef, w) => (Undef, set_world w (set_lastID (new_id s) s))
          end
        else (Ret (new_id s), joined ty s (world s))) = (r, s')) \/
    exists e, r = Throw e /\ s' = s) as [(-> & -> & ->)|[(Hty & Hm & Hs)|(e & -> & ->)]].
  { destruct ty; cbn [beginTransaction] in Hrun.
    - left. by injection Hrun as <- <-; destruct s.
    - right. unfold mbind, M_bind at 1 in Hrun. unfold get at 1 in Hrun.
      destruct (_ && _); [right; eexists; by injection Hrun as <- <-|left]. rewrite <-Hrun.
      split_and!; [by left|done|symmetry; apply start_run].
    - right; right. eexists. by injection Hrun as <- <-.
    - right; right. eexists. by injection Hrun as <- <-.
    - right. unfold mbind, M_bind at 1 in Hrun. unfold get at 1 in Hrun.
      destruct (_ && _); [right; eexists; by injection Hrun as <- <-|left]. rewrite <-Hrun.
      split_and!; [by right|done|symmetry; apply start_run]. }
  - split_and!; [done..|]. left. split_and!; [done|by eexists|by left].
  - assert (may_begin ty s) as Hmay.
    { right. split; [done|]. destruct (enableMultiWrites config); [by left|by right]. }
    destruct (shouldLogToWAL _ _); [destruct (logBeginTransaction _ _) as [[[]|e|] w]|];
      injection Hs as <- <-; [| |done|]; (split_and!; [done..|]).
    + left. split_and!; [done|by exists w|done].
    + right. exists e. split_and!; [done..|by right].
    + left. split_and!; [done|by eexists|done].
  - split_and!; [done..|]. right. exists e. split_and!; [done..|by left].
Qed.

Definition key_id (k : TransactionType * transaction_t * transaction_t) : transaction_t := k.1.2.
Definition without id (l : list (TransactionType * transaction_t * transaction_t)) :=
  List.filter (fun k => negb (key_id k =? id)) l.

Lemma left_by_keys id s : keys (left_by id s) = without id (keys s).
Proof. unfold keys, left_by. cbn. apply keys_filter. Qed.

Lemma clear_keys s id : (exists x, find_txn (activeTransactions s) id = Some x) ->
  exists s', clearTransactionNoLock id s = (Ret tt, s') /\ keys s' = without id (keys s) /\
    lastTransactionID s' = lastTransactionID s /\ lastTimestamp s' = lastTimestamp s /\
    checkpointWaitTimeoutInMicros s' = checkpointWaitTimeoutInMicros s.
Proof.
  intros [x Hx]. exists (left_by id s). split; [by eapply clear_run|]. split; [apply left_by_keys|done].
Qed.

(** Runs a program that keeps the transactions and goes on with its state. *)
Lemma bind_keeps {A B} (m : M (TransactionManager.t W) A) (f : A -> M (TransactionManager.t W) B) s r s' :
  mbind f m s = (r, s') -> keeps m ->
  (exists a s1, m s = (Ret a, s1) /\ same_frame s s1 /\ f a s1 = (r, s')) \/
  (exists e, m s = (Throw e, s') /\ r = Throw e /\ same_frame s s') \/ (r = Undef).
Proof.
  intros Hrun Hm. specialize (Hm s). unfold mbind, M_bind in Hrun. destruct (m s) as [[a|e|] s1].
  - left. by exists a, s1.
  - right; left. injection Hrun as <- <-. by exists e.
  - right; right. by injection Hrun as <- <-.
Qed.

Definition is_writing (k : TransactionType * transaction_t * transaction_t) : bool :=
  match k.1.1 with WRITE | RECOVERY => true | _ => false end.

(** Either the transaction leaves, or, if something its commit works on fails, it
    stays; only a commit of a writing transaction moves the clock. *)
Lemma commit_cases id s r s' :
  commit config id s = (r, s') -> r <> Undef ->
  lastTransactionID s' = lastTransactionID s /\ checkpointWaitTimeoutInMicros s' = checkpointWaitTimeoutInMicros s /\
  ((exists e, r = Throw e /\ keys s' = keys s /\
      (lastTimestamp s' = lastTimestamp s \/ lastTimestamp s' = u64 (lastTimestamp s + 1))) \/
   (exists x, find_txn (activeTransactions s) id = Some x /\ keys s' = without id (keys s) /\
      ((is_writing (key x) = false /\ lastTimestamp s' = lastTimestamp s) \/
       (is_writing (key x) = true /\ lastTimestamp s' = u64 (lastTimestamp s + 1))))).
Proof.
  intros Hrun Hr. unfold commit in Hrun.
  apply bind_keeps in Hrun as [([] & s1 & _ & (K1 & L1 & T1 & C1) & Hrun)|[(e & _ & -> & K1 & L1 & T1 & C1)| ->]];
    [|split_and!; [done..|]; left; exists e; by split_and!; [| |left]|done|apply keeps_on_world].
  unfold mbind, M_bind at 1 in Hrun. unfold deref in Hrun.
  destruct (find_txn (activeTransactions s1) id) as [x|] eqn:Ex; [|by injection Hrun as <- <-].
  pose proof (find_txn_Some _ _ _ Ex) as [_ Hid].
  destruct (find_txn_key _ (activeTransactions s) id x K1 Ex) as (x0 & Ex0 & Hkey).
  destruct (is_writing (key x)) eqn:Ew.
  2: { destruct (type x) eqn:Ety; unfold is_writing, key in Ew; cbn in Ew; rewrite Ety in Ew; try done.
    - rewrite Hid in Hrun. destruct (clear_keys s1 id) as (s2 & Hc & K2 & L2 & T2 & C2); [by exists x|].
      rewrite Hc in Hrun. injection Hrun as <- <-. rewrite L2, L1, C2, C1. split_and!; [done..|].
      right. exists x0. split_and!; [done|by rewrite K2, K1|]. left. split; [|congruence].
      rewrite Hkey. unfold is_writing, key. cbn. by rewrite Ety.
    - injection Hrun as <- <-. split_and!; [done..|]. left. eexists. by split_and!; [| |left].
    - injection Hrun as <- <-. split_and!; [done..|]. left. eexists. by split_and!; [| |left]. }
  assert (Hrun' : (modify (fun s => set_timestamp (u64 (lastTimestamp s + 1)) s);;
      s ← get;
      update_txn id (with_commitTS (lastTimestamp s));;
      Transaction_commit config id;;
      modify (fun s => set_num (u64 (numCommittedWriteTxnsSinceCheckpoint s + 1)) s);;
      s ← get;
      x ← deref id;
      let shouldCheckpoint := shouldForceCheckpoint (isInMemory config) x || canAutoCheckpoint config (world s) x ||
                              shouldCheckpointOnTxnCountNoLock config s in
      clearTransactionNoLock (ID x);;
      when shouldCheckpoint (checkpointNoLock;; modify (set_num 0))) s1 = (r, s')).
  { destruct (type x) eqn:Ety; unfold is_writing, key in Ew; cbn in Ew; rewrite Ety in Ew; done. }
  clear Hrun. rename Hrun' into Hrun.
  unfold mbind, M_bind at 1 in Hrun. unfold modify at 1 in Hrun.
  set (s2 := set_timestamp (u64 (lastTimestamp s1 + 1)) s1) in Hrun.
  assert (keys s2 = keys s /\ lastTransactionID s2 = lastTransactionID s /\
    lastTimestamp s2 = u64 (lastTimestamp s + 1) /\ checkpointWaitTimeoutInMicros s2 = checkpointWaitTimeoutInMicros s)
    as (K2 & L2 & T2 & C2) by (cbn; rewrite T1; done).
  clearbody s2. unfold M_bind at 1 in Hrun. unfold get at 1 in Hrun.
  apply bind_keeps in Hrun as [([] & s3 & _ & (K3 & L3 & T3 & C3) & Hrun)|[(e & He & -> & _)| ->]];
    [|by unfold update_txn, modify in He|done|by apply keeps_update].
  apply bind_keeps in Hrun as [([] & s4 & _ & (K4 & L4 & T4 & C4) & Hrun)|[(e & _ & -> & K4 & L4 & T4 & C4)| ->]];
    [| |done|apply keeps_Transaction_commit].
  2: { split_and!; [congruence..|]. left. exists e. split_and!; [done|congruence|right; congruence]. }
  apply bind_keeps in Hrun as [([] & s5 & _ & (K5 & L5 & T5 & C5) & Hrun)|[(e & He & -> & _)| ->]];
    [|by unfold modify in He|done|apply keeps_incr_num].
  unfold mbind, M_bind at 1 in Hrun. unfold get at 1 in Hrun.
  unfold M_bind at 1 in Hrun. unfold deref in Hrun.
  destruct (find_txn (activeTransactions s5) id) as [x5|] eqn:Ex5; [|by injection Hrun as <- <-].
  pose proof (find_txn_Some _ _ _ Ex5) as [_ Hid5]. cbv zeta in Hrun.
  unfold M_bind at 1 in Hrun. rewrite Hid5 in Hrun.
  destruct (clear_keys s5 id) as (s6 & Hc & K6 & L6 & T6 & C6); [by exists x5|]. rewrite Hc in Hrun.
  assert (same_frame s6 s') as (K7 & L7 & T7 & C7).
  { match type of Hrun with when ?b ?m s6 = _ => pose proof (keeps_when b m) as Hk end.
    specialize (Hk ltac:(apply keeps_bind; [apply keeps_checkpointNoLock|intros; apply keeps_set_num]) s6).
    by rewrite Hrun in Hk. }
  split_and!; [congruence..|]. right. exists x0. split_and!; [done|congruence|]. right.
  split; [by rewrite Hkey|congruence].
Qed.

Lemma rollback_cases id s r s' :
  rollback id s = (r, s') -> r <> Undef ->
  lastTransactionID s' = lastTransactionID s /\ lastTimestamp s' = lastTimestamp s /\
  checkpointWaitTimeoutInMicros s' = checkpointWaitTimeoutInMicros s /\
  (keys s' = keys s \/ keys s' = without id (keys s)).
Proof.
  intros Hrun Hr. unfold rollback in Hrun.
  apply bind_keeps in Hrun as [([] & s1 & _ & (K1 & L1 & T1 & C1) & Hrun)|[(e & _ & -> & K1 & L1 & T1 & C1)| ->]];
    [|by split_and!; [..|left]|done|apply keeps_on_world].
  unfold mbind, M_bind at 1 in Hrun. unfold deref in Hrun.
  destruct (find_txn (activeTransactions s1) id) as [x|] eqn:Ex; [|by injection Hrun as <- <-].
  pose proof (find_txn_Some _ _ _ Ex) as [_ Hid]. rewrite Hid in Hrun.
  assert (clearTransactionNoLock id s1 = (r, s') \/
    (Transaction_rollback id;; clearTransactionNoLock id) s1 = (r, s') \/ (r, s') = (r, s1) /\ r <> Undef) as [Hc|[Hc|[Hc _]]].
  { destruct (type x); [by left|by right; left|..|by right; left]; right; right; injection Hrun as <- <-; done. }
  - destruct (clear_keys s1 id) as (s2 & Hc2 & K2 & L2 & T2 & C2); [by exists x|]. rewrite Hc2 in Hc.
    injection Hc as <- <-. split_and!; [congruence..|right; congruence].
  - apply bind_keeps in Hc as [([] & s2 & _ & (K2 & L2 & T2 & C2) & Hc)|[(e & _ & -> & K2 & L2 & T2 & C2)| ->]];
      [|split_and!; [congruence..|left; congruence]|done|apply keeps_Transaction_rollback].
    destruct (find_txn_key _ (activeTransactions s2) id x (eq_sym K2) Ex) as (x2 & Ex2 & _).
    destruct (clear_keys s2 id) as (s3 & Hc3 & K3 & L3 & T3 & C3); [by exists x2|]. rewrite Hc3 in Hc.
    injection Hc as <- <-. split_and!; [congruence..|right; congruence].
  - injection Hc as <-. split_and!; [done..|by left].
Qed.

(** ** Histories *)

Inductive event := EBegin (id startTS : transaction_t) | ECommit (id commitTS : transaction_t).

Definition writes s id : bool :=
  match find_txn (activeTransactions s) id with Some x => is_writing (key x) | None => false end.
Definition gone s id : bool :=
  match find_txn (activeTransactions s) id with Some _ => false | None => true end.

(** Calls of the public functions, with whatever outcome, and anything the
    active transactions do in between. The counters are below their limits: IDs
    start at 2^63, timestamps at 1. *)
Inductive step : TransactionManager.t W * list event -> TransactionManager.t W * list event -> Prop :=
| step_begin ty s h id s' x :
    lastTransactionID s + 1 < INVALID_TRANSACTION ->
    beginTransaction config ty s = (Ret id, s') -> find_txn (activeTransactions s') id = Some x ->
    step (s, h) (s', h ++ [EBegin id (startTS x)])
| step_begin_fail ty s h e s' :
    lastTransactionID s + 1 < INVALID_TRANSACTION ->
    beginTransaction config ty s = (Throw e, s') -> step (s, h) (s', h)
| step_commit id s h r s' :
    lastTimestamp s + 1 < START_TRANSACTION_ID ->
    commit config id s = (r, s') -> r <> Undef ->
    step (s, h) (s', h ++ if writes s id && gone s' id then [ECommit id (lastTimestamp s')] else [])
| step_rollback id s h r s' : rollback id s = (r, s') -> r <> Undef -> step (s, h) (s', h)
| step_checkpoint s h r s' : checkpoint config s = (r, s') -> step (s, h) (s', h)
| step_work s h s' : same_frame s s' -> step (s, h) (s', h).

(** Begins and commits of a history, and how far they can have got. *)
Definition bounded (h : list event) (maxID maxTS : transaction_t) : Prop :=
  (forall i id st, h !! i = Some (EBegin id st) -> START_TRANSACTION_ID < id <= maxID /\ 1 <= st <= maxTS) /\
  (forall i id ts, h !! i = Some (ECommit id ts) -> 1 < ts <= maxTS).

Definition separated (h : list event) : Prop :=
  (forall i j id st id' ts, h !! i = Some (EBegin id st) -> h !! j = Some (ECommit id' ts) ->
     ts <= st <-> (j < i)%nat) /\
  (forall i j id ts id' ts', h !! i = Some (ECommit id ts) -> h !! j = Some (ECommit id' ts') ->
     ts < ts' <-> (i < j)%nat) /\
  (forall i j id st st', h !! i = Some (EBegin id st) -> h !! j = Some (EBegin id st') -> i = j).

Record inv s (h : list event) : Prop := {
  inv_lastID : START_TRANSACTION_ID <= lastTransactionID s < INVALID_TRANSACTION;
  inv_lastTS : 1 <= lastTimestamp s < START_TRANSACTION_ID;
  inv_timeout : checkpointWaitTimeoutInMicros s = DEFAULT_CHECKPOINT_WAIT_TIMEOUT_IN_MICROS;
  inv_nodup : NoDup (map key_id (keys s));
  inv_keys : forall k, k ∈ keys s -> START_TRANSACTION_ID < key_id k <= lastTransactionID s /\
    (k.1.1 = READ_ONLY \/ k.1.1 = WRITE \/ k.1.1 = RECOVERY) /\ EBegin (key_id k) k.2 ∈ h;
  inv_one : enableMultiWrites config = false ->
    (length (List.filter (fun k => bool_decide (k.1.1 = WRITE)) (keys s)) <= 1)%nat;
  inv_bounded : bounded h (lastTransactionID s) (lastTimestamp s);
  inv_separated : separated h;
}.

Lemma inv_init w : inv (init w) [].
Proof. split; [done|done|done|constructor|by intros k ?%not_elem_of_nil|cbn; lia|by split|by split_and!]. Qed.

Lemma inv_frame s h s' : same_frame s s' -> inv s h -> inv s' h.
Proof.
  intros (K & L & T & C) [? ? ? ? ? ? ? ?]. split; rewrite ?K, ?L, ?T, ?C; done.
Qed.

Lemma without_sub id l k : k ∈ without id l -> k ∈ l.
Proof. intros Hk. apply list_elem_of_In, List.filter_In in Hk as [Hk _]. by apply list_elem_of_In. Qed.

Lemma without_nodup id l : NoDup (map key_id l) -> NoDup (map key_id (without id l)).
Proof.
  induction l as [|k l IH]; [done|]. cbn. intros [Hk Hl]%NoDup_cons. destruct (negb _); cbn; [|by apply IH].
  apply NoDup_cons. split; [|by apply IH]. intros Hin. apply Hk.
  apply list_elem_of_fmap in Hin as (k' & E & Hin). rewrite E. apply list_elem_of_fmap. exists k'.
  split; [done|by eapply without_sub].
Qed.

Lemma without_filter id l f : (length (List.filter f (without id l)) <= length (List.filter f l))%nat.
Proof. unfold without. induction l as [|k l IH]; [done|]. cbn. destruct (negb _); cbn; destruct (f k); cbn; lia. Qed.

(** Removing a transaction, and moving the clock. *)
Lemma inv_without s h s' id :
  inv s h -> keys s' = keys s \/ keys s' = without id (keys s) ->
  lastTransactionID s' = lastTransactionID s -> lastTimestamp s <= lastTimestamp s' < START_TRANSACTION_ID ->
  checkpointWaitTimeoutInMicros s' = checkpointWaitTimeoutInMicros s -> inv s' h.
Proof.
  intros [I1 I2 I3 I4 I5 I6 [I7 I8] I9] K L T C.
  assert (forall k, k ∈ keys s' -> k ∈ keys s) as Hsub
    by (intros k; destruct K as [-> | ->]; [done|apply without_sub]).
  split; rewrite ?L, ?C; [done|lia|done| |intros k Hk; by apply I5, Hsub| | |done].
  - destruct K as [-> | ->]; [done|by apply without_nodup].
  - intros Hm. destruct K as [-> | ->]; [by apply I6|]. etransitivity; [apply without_filter|by apply I6].
  - split; [intros i x st Hx; specialize (I7 i x st Hx)|intros i x ts Hx; specialize (I8 i x ts Hx)]; lia.
Qed.

Lemma lookup_snoc_cases {A} (l : list A) (z : A) i (y : A) :
  (l ++ [z]) !! i = Some y -> l !! i = Some y /\ (i < length l)%nat \/ i = length l /\ y = z.
Proof.
  intros Hi. apply lookup_app_Some in Hi as [Hi|[Hle Hi]].
  - left. split; [done|by eapply lookup_lt_Some].
  - right. destruct (i - length l)%nat as [|k] eqn:E; [|by destruct k]. injection Hi as ->. split; [lia|done].
Qed.

Lemma separated_begin h id st maxID maxTS :
  bounded h maxID maxTS -> separated h -> maxTS <= st -> maxID < id -> separated (h ++ [EBegin id st]).
Proof.
  intros [B1 B2] (S1 & S2 & S3) Hst Hid. split_and!.
  - intros i j x st' id' ts [[Hi Hil]|[-> Ei]]%lookup_snoc_cases [[Hj Hjl]|[-> Ej]]%lookup_snoc_cases;
      [by eapply S1|done| |done]. injection Ei as -> ->. specialize (B2 _ _ _ Hj). split; lia.
  - intros i j x ts id' ts' [[Hi Hil]|[-> Ei]]%lookup_snoc_cases [[Hj Hjl]|[-> Ej]]%lookup_snoc_cases; try done.
    by eapply S2.
  - intros i j x st1 st2 [[Hi Hil]|[-> Ei]]%lookup_snoc_cases [[Hj Hjl]|[-> Ej]]%lookup_snoc_cases; [by eapply S3| | |done].
    + injection Ej as -> ->. specialize (B1 _ _ _ Hi). lia.
    + injection Ei as -> ->. specialize (B1 _ _ _ Hj). lia.
Qed.

Lemma separated_commit h id ts maxID maxTS :
  bounded h maxID maxTS -> separated h -> maxTS < ts -> separated (h ++ [ECommit id ts]).
Proof.
  intros [B1 B2] (S1 & S2 & S3) Hts. split_and!.
  - intros i j x st id' ts' [[Hi Hil]|[-> Ei]]%lookup_snoc_cases [[Hj Hjl]|[-> Ej]]%lookup_snoc_cases;
      [by eapply S1| |done|done]. injection Ej as -> ->. specialize (B1 _ _ _ Hi). split; lia.
  - intros i j x ts1 id' ts2 [[Hi Hil]|[-> Ei]]%lookup_snoc_cases [[Hj Hjl]|[-> Ej]]%lookup_snoc_cases.
    + by eapply S2.
    + injection Ej as -> ->. specialize (B2 _ _ _ Hi). split; lia.
    + injection Ei as -> ->. specialize (B2 _ _ _ Hj). split; lia.
    + injection Ei as -> ->. injection Ej as -> ->. split; lia.
  - intros i j x st1 st2 [[Hi Hil]|[-> Ei]]%lookup_snoc_cases [[Hj Hjl]|[-> Ej]]%lookup_snoc_cases; try done.
    by eapply S3.
Qed.

Lemma filter_none s :
  hasActiveWriteTransactionNoLock s = false ->
  List.filter (fun k => bool_decide (k.1.1 = WRITE)) (keys s) = [].
Proof.
  unfold hasActiveWriteTransactionNoLock, keys. induction (activeTransactions s) as [|x l IH]; [done|].
  cbn. intros [Hx Hl]%orb_false_elim. unfold isWriteTransaction in Hx. rewrite Hx. by apply IH.
Qed.

Lemma inv_joined ty s h w :
  lastTransactionID s + 1 < INVALID_TRANSACTION -> inv s h -> may_begin ty s ->
  inv (joined ty s w) (h ++ [EBegin (new_id s) (lastTimestamp s)]).
Proof.
  intros Hmax [I1 I2 I3 I4 I5 I6 [I7 I8] I9] Hmay.
  assert (new_id s = lastTransactionID s + 1) as Hid
    by (unfold new_id, u64; apply wrap_small; unfold INVALID_TRANSACTION, START_TRANSACTION_ID in *; lia).
  assert (lastTransactionID (joined ty s w) = new_id s) as HL by done.
  assert (lastTimestamp (joined ty s w) = lastTimestamp s) as HT by done.
  split; rewrite ?HL, ?HT, ?joined_keys; [lia|done|done| | | | |].
  - rewrite map_app. cbn. apply NoDup_app. split_and!; [done| |by apply NoDup_singleton].
    intros k Hk ->%list_elem_of_singleton. apply list_elem_of_fmap in Hk as (k' & E & Hk').
    specialize (I5 k' Hk') as (? & _). unfold key_id, key in *. cbn in *. lia.
  - intros k [Hk| ->%list_elem_of_singleton]%elem_of_app.
    + specialize (I5 k Hk) as (? & ? & ?). split_and!; [lia|lia|done|]. apply elem_of_app. by left.
    + unfold key_id, key. cbn. split_and!; [lia|lia| |apply elem_of_app; right; by apply list_elem_of_singleton].
      destruct Hmay as [->|[[->| ->] _]]; auto.
  - intros Hm. rewrite List.filter_app, length_app. specialize (I6 Hm).
    destruct Hmay as [->|[Hty [Hm'|Hnone]]]; [|congruence|rewrite (filter_none _ Hnone)].
    { etransitivity; [|exact I6]. apply Nat.eq_le_incl, Nat.add_0_r. }
    cbn. destruct (bool_decide _); cbn; lia.
  - split.
    + intros i x st [[Hx _]|[_ Hx]]%lookup_snoc_cases; [specialize (I7 i x st Hx); lia|].
      injection Hx as -> ->. lia.
    + intros i x ts [[Hx _]|[_ Hx]]%lookup_snoc_cases; [by apply (I8 i x ts Hx)|done].
  - eapply separated_begin; [done|done|lia|lia].
Qed.

Lemma joined_start ty s w h x :
  inv s h -> find_txn (activeTransactions (joined ty s w)) (new_id s) = Some x ->
  lastTransactionID s + 1 < INVALID_TRANSACTION -> startTS x = lastTimestamp s.
Proof.
  intros Hinv Hf Hmax. apply find_txn_Some in Hf as [Hin Hid]. cbn in Hin.
  apply elem_of_app in Hin as [Hin| ->%list_elem_of_singleton]; [|done]. exfalso.
  destruct (inv_keys _ _ Hinv (key x)) as ((_ & Hle) & _); [by apply list_elem_of_fmap_2|].
  pose proof (inv_lastID _ _ Hinv). assert (new_id s = lastTransactionID s + 1) as E
    by (unfold new_id, u64; apply wrap_small; unfold INVALID_TRANSACTION, START_TRANSACTION_ID in *; lia).
  unfold key_id, key in Hle. cbn in Hle. lia.
Qed.

Lemma commit_event id s s' h :
  inv s h -> writes s id = true -> gone s' id = true -> keys s' = keys s -> False.
Proof.
  unfold writes, gone. intros _ Hw Hg K.
  destruct (find_txn (activeTransactions s) id) as [x|] eqn:Ex; [|done].
  destruct (find_txn_key _ (activeTransactions s') id x (eq_sym K) Ex) as (x' & Ex' & _). by rewrite Ex' in Hg.
Qed.

Lemma step_preserves a b : step a b -> inv a.1 a.2 -> inv b.1 b.2.
Proof.
  intros [ty s h id s' x Hmax Hrun Hf|ty s h e s' Hmax Hrun|id s h r s' Hmax Hrun Hr|id s h r s' Hrun Hr|s h r s' Hrun|s h s' Hs];
    cbn; intros Hinv.
  - apply begin_cases in Hrun as (_ & _ & [(E & [w ->] & Hmay)|(e & E & _)]); [|done|done]. injection E as ->.
    rewrite (joined_start _ _ _ _ _ Hinv Hf Hmax). by apply inv_joined.
  - apply begin_cases in Hrun as (T & C & [(E & _)|(e' & _ & K & L)]); [done| |done].
    destruct Hinv as [I1 I2 I3 I4 I5 I6 [I7 I8] I9].
    assert (lastTransactionID s <= lastTransactionID s' < INVALID_TRANSACTION) as HL.
    { destruct L as [->| ->]; [lia|]. unfold new_id, u64. rewrite wrap_small;
        unfold INVALID_TRANSACTION, START_TRANSACTION_ID in *; lia. }
    split; rewrite ?K, ?T, ?C; [lia|done|done|done| |done| |done].
    + intros k Hk. specialize (I5 k Hk) as (? & ? & ?). split_and!; [lia|lia|done|done].
    + split; [|done]. intros i x st Hx. specialize (I7 i x st Hx). lia.
  - pose proof (inv_lastTS _ _ Hinv) as Hts.
    assert (u64 (lastTimestamp s + 1) = lastTimestamp s + 1) as Hu
      by (apply wrap_small; unfold START_TRANSACTION_ID in *; lia).
    apply commit_cases in Hrun as (L & C & [(e & -> & K & T)|(x & Ex & K & T)]); [| |done].
    + destruct (writes s id && gone s' id) eqn:Eb.
      { apply andb_prop in Eb as [E1 E2]. destruct (commit_event id s s' h Hinv E1 E2 K). }
      rewrite app_nil_r. eapply (inv_without _ _ _ id); [done|by left|done| |done]. destruct T; lia.
    + assert (lastTimestamp s <= lastTimestamp s' < START_TRANSACTION_ID) as HT
        by (destruct T as [[_ ->]|[_ ->]]; lia).
      assert (inv s' h) as Hinv' by (eapply (inv_without _ _ _ id); eauto).
      destruct (writes s id && gone s' id) eqn:Eb; [|by rewrite app_nil_r].
      apply andb_prop in Eb as [E1 _]. unfold writes in E1. rewrite Ex in E1.
      destruct T as [[T1 _]|[_ T2]]; [congruence|]. rewrite Hu in T2.
      pose proof (inv_bounded _ _ Hinv) as Hb. pose proof (inv_separated _ _ Hinv) as Hsep.
      destruct Hinv' as [I1 I2 I3 I4 I5 I6 [I7 I8] I9]. split; try done.
      * intros k Hk. specialize (I5 k Hk) as (? & ? & ?). split_and!; [lia|lia|done|]. apply elem_of_app. by left.
      * split.
        -- intros i y st [[Hy _]|[_ Hy]]%lookup_snoc_cases; [by apply (I7 i y st)|done].
        -- intros i y ts [[Hy _]|[_ Hy]]%lookup_snoc_cases; [by apply (I8 i y ts)|]. injection Hy as -> ->. lia.
      * eapply separated_commit; [done|done|lia].
  - apply rollback_cases in Hrun as (L & T & C & K); [|done].
    eapply (inv_without _ _ _ id); [done|done|done| |done]. pose proof (inv_lastTS _ _ Hinv). lia.
  - eapply inv_frame; [|done].
    assert (keeps (checkpoint config)) as Hk.
    { unfold checkpoint. destruct (isInMemory config); [apply keeps_ret|].
      apply keeps_bind; [apply keeps_checkpointNoLock|intros; apply keeps_set_num]. }
    specialize (Hk s). by rewrite Hrun in Hk.
  - by eapply inv_frame.
Qed.

Lemma reachable w a : rtc step (init w, []) a -> inv a.1 a.2.
Proof.
  intros Hr. assert (inv (init w, @nil event).1 (init w, @nil event).2) as H0 by apply inv_init. revert H0.
  induction Hr as [|a b c Hab _ IH]; [done|]. intros Ha. apply IH. by eapply step_preserves.
Qed.

(** C9. Snapshots separate earlier from later commits. Over every history of
    begins, commits, rollbacks and checkpoints with any outcome, and whatever the
    storage does: a transaction's start timestamp is at least another's commit
    timestamp exactly when that commit came before it began; commit timestamps
    increase in the order of the commits; no identifier is used twice; every
    timestamp is smaller than every identifier, so that the two can share a
    version field; and each active transaction has the start timestamp of its
    begin. *)
Theorem snapshots_separate_commits w s h :
  rtc step (init w, []) (s, h) ->
  (forall i j id st id' ts, h !! i = Some (EBegin id st) -> h !! j = Some (ECommit id' ts) ->
     ts <= st <-> (j < i)%nat) /\
  (forall i j id ts id' ts', h !! i = Some (ECommit id ts) -> h !! j = Some (ECommit id' ts') ->
     ts < ts' <-> (i < j)%nat) /\
  (forall i j id st st', h !! i = Some (EBegin id st) -> h !! j = Some (EBegin id st') -> i = j) /\
  (forall i id st, h !! i = Some (EBegin id st) -> 1 <= st < START_TRANSACTION_ID /\ START_TRANSACTION_ID < id) /\
  (forall i id ts, h !! i = Some (ECommit id ts) -> 1 < ts < START_TRANSACTION_ID) /\
  (forall x, x ∈ activeTransactions s -> EBegin (ID x) (startTS x) ∈ h).
Proof.
  intros Hr%reachable. cbn in Hr. destruct (inv_separated _ _ Hr) as (S1 & S2 & S3).
  destruct (inv_bounded _ _ Hr) as [B1 B2]. pose proof (inv_lastTS _ _ Hr). split_and!; [done..| | |].
  - intros i id st Hi. specialize (B1 i id st Hi). lia.
  - intros i id ts Hi. specialize (B2 i id ts Hi). lia.
  - intros x Hx. by destruct (inv_keys _ _ Hr (key x)) as (_ & _ & Hin); [by apply list_elem_of_fmap_2|].
Qed.

(** C10. One writer at a time. In every reachable state the active transactions
    have distinct identifiers and only the types a user can begin; unless
    concurrent writers are enabled at most one of them is of type WRITE, and then
    beginning another writing transaction is refused without any effect, while a
    read-only one is always let in and gets the current timestamp. A recovery
    transaction does not count as a writer. *)
Theorem single_writer w s h :
  rtc step (init w, []) (s, h) ->
  NoDup (map ID (activeTransactions s)) /\
  (forall x, x ∈ activeTransactions s -> type x = READ_ONLY \/ type x = WRITE \/ type x = RECOVERY) /\
  (enableMultiWrites config = false ->
     (length (List.filter isWriteTransaction (activeTransactions s)) <= 1)%nat /\
     forall ty, ty = WRITE \/ ty = RECOVERY -> hasActiveWriteTransactionNoLock s = true ->
       beginTransaction config ty s = (Throw (TransactionManagerException ONE_WRITER_MSG), s)) /\
  beginTransaction config READ_ONLY s = (Ret (new_id s), joined READ_ONLY s (world s)).
Proof.
  intros Hr%reachable. cbn in Hr. split_and!.
  - pose proof (inv_nodup _ _ Hr) as Hn. unfold keys in Hn. by rewrite map_map in Hn.
  - intros x Hx. by destruct (inv_keys _ _ Hr (key x)) as (_ & Hk & _); [by apply list_elem_of_fmap_2|].
  - intros Hm. split.
    + pose proof (inv_one _ _ Hr Hm) as H1. unfold keys in H1. clear -H1.
      induction (activeTransactions s) as [|x l IH]; [cbn; lia|]. cbn in *. unfold isWriteTransaction in *.
      destruct (bool_decide (type x = WRITE)); cbn in *; [|by apply IH].
      assert (length (List.filter (fun x => bool_decide (type x = WRITE)) l) =
        length (List.filter (fun k : TransactionType * transaction_t * transaction_t => bool_decide (k.1.1 = WRITE)) (map key l))) as ->; [|done].
      clear. induction l as [|y l IH]; [done|]. cbn. destruct (bool_decide _); cbn; congruence.
    + intros ty [->| ->] Hw; unfold beginTransaction, mbind, M_bind, get; by rewrite Hm, Hw.
  - by destruct s.
Qed.

(** What the storage does for a commit, in order. *)
Definition storage_commit x id ts : M W unit :=
  localStorage_commit id;; undoBuffer_commit id ts;;
  when (shouldLogToWAL (isInMemory config) x)
    (localWAL_logCommit id;; wal_logCommittedWAL id;; localWAL_clear id);;
  when (hasCatalogChanges x) catalog_incrementVersion.

(** [s] after a commit of [id]: it has left, the clock and the count are one on. *)
Definition committed id s (w : W) : TransactionManager.t W :=
  left_by id (mk_tm (activeTransactions s) (lastTransactionID s) (lastTimestamp s + 1)
    (checkpointWaitTimeoutInMicros s) (u64 (numCommittedWriteTxnsSinceCheckpoint s + 1)) w).

Lemma on_world_bind {A B} (m : M W A) (f : A -> M W B) s :
  on_world (mbind f m) s = (a ← on_world m; on_world (f a)) s.
Proof.
  unfold on_world, mbind, M_bind. destruct (m (world s)) as [[a|e|] w]; [|done..].
  cbn. by destruct (f a w).
Qed.

Lemma on_world_run {A} (m : M W A) s r w : m (world s) = (r, w) -> on_world m s = (r, set_world w s).
Proof. intros E. unfold on_world. by rewrite E. Qed.

Definition changed_txn id (f : Transaction.t -> Transaction.t) s : TransactionManager.t W :=
  set_active (map (fun x => if ID x =? id then f x else x) (activeTransactions s)) s.

Lemma Transaction_commit_run id x s :
  find_txn (activeTransactions s) id = Some x ->
  Transaction_commit config id s =
    match storage_commit x id (commitTS x) (world s) with
    | (Ret _, w) => (Ret tt, set_world w (if hasCatalogChanges x then changed_txn id without_catalog_changes s else s))
    | (Throw e, w) => (Throw e, set_world w s)
    | (Undef, w) => (Undef, set_world w s)
    end.
Proof.
  intros Hx. unfold Transaction_commit, storage_commit. unfold mbind, M_bind, on_world.
  destruct (localStorage_commit id (world s)) as [[[]|e|] w1]; [|done..].
  unfold deref. cbn [activeTransactions set_world]. rewrite Hx. cbn [world set_world].
  destruct (undoBuffer_commit id (commitTS x) w1) as [[[]|e|] w2]; [|done..].
  destruct (shouldLogToWAL (isInMemory config) x); cbn [when].
  - cbn [world set_world]. destruct (localWAL_logCommit id w2) as [[[]|e|] w3]; [|done..].
    cbn [world set_world]. destruct (wal_logCommittedWAL id w3) as [[[]|e|] w4]; [|done..].
    cbn [world set_world]. destruct (localWAL_clear id w4) as [[[]|e|] w5]; [|done..].
    destruct (hasCatalogChanges x); cbn [when]; [|done]. cbn [world set_world].
    by destruct (catalog_incrementVersion w5) as [[[]|e|] w6].
  - unfold mret, M_ret. destruct (hasCatalogChanges x); cbn [when]; [|done]. cbn [world set_world].
    by destruct (catalog_incrementVersion w2) as [[[]|e|] w6].
Qed.

Lemma left_changed id f s :
  (forall x, ID (f x) = ID x) -> left_by id (changed_txn id f s) = left_by id s.
Proof.
  intros Hf. unfold left_by, changed_txn, set_active. cbn. f_equal.
  induction (activeTransactions s) as [|x l IH]; [done|]. cbn.
  destruct (ID x =? id) eqn:E; cbn; rewrite ?Hf, E; cbn; [done|by rewrite IH].
Qed.

Lemma find_changed id f s x :
  (forall x, ID (f x) = ID x) -> find_txn (activeTransactions s) id = Some x ->
  find_txn (activeTransactions (changed_txn id f s)) id = Some (f x).
Proof.
  intros Hf. unfold changed_txn, set_active. cbn. induction (activeTransactions s) as [|y l IH]; [done|]. cbn.
  destruct (ID y =? id) eqn:E; cbn; rewrite ?Hf, E; [by intros [= ->]|done].
Qed.

Lemma keys_changed id f s : (forall x, key (f x) = key x) -> keys (changed_txn id f s) = keys s.
Proof. intros Hf. by apply (keeps_update id f Hf s). Qed.

(** [s] when the clock has been moved for the commit of [id]. *)
Definition stamped id s (w : W) : TransactionManager.t W :=
  changed_txn id (with_commitTS (lastTimestamp s + 1))
    (mk_tm (activeTransactions s) (lastTransactionID s) (lastTimestamp s + 1)
       (checkpointWaitTimeoutInMicros s) (numCommittedWriteTxnsSinceCheckpoint s) w).

Lemma commit_writing_run id x s w :
  find_txn (activeTransactions s) id = Some x -> type x = WRITE \/ type x = RECOVERY ->
  0 <= lastTimestamp s -> lastTimestamp s + 1 < 2 ^ 64 -> 0 <= checkpointWaitTimeoutInMicros s < 2 ^ 62 ->
  cleanUp (world s) = (Ret tt, w) ->
  commit config id s =
    match storage_commit x id (lastTimestamp s + 1) w with
    | (Ret _, w1) =>
        if shouldForceCheckpoint (isInMemory config) x || canAutoCheckpoint config w1 x ||
           shouldCheckpointOnTxnCountNoLock config (committed id s w1)
        then match checkpoint_result (committed id s w1) with
             | (Ret _, s2) => (Ret tt, set_num 0 s2)
             | r => r
             end
        else (Ret tt, committed id s w1)
    | (Throw e, w1) => (Throw e, set_world w1 (stamped id s w))
    | (Undef, w1) => (Undef, set_world w1 (stamped id s w))
    end.
Proof.
  intros Hx Hty H0 Hts Hto Hcl. unfold commit.
  unfold mbind, M_bind at 1. rewrite (on_world_run _ _ _ _ Hcl).
  unfold M_bind at 1. unfold deref at 1. cbn [activeTransactions set_world]. rewrite Hx.
  pose proof (find_txn_Some _ _ _ Hx) as [_ Hid].
  set (s2 := stamped id s w).
  assert (find_txn (activeTransactions s2) id = Some (with_commitTS (lastTimestamp s + 1) x)) as Hx2
    by (apply find_changed; done).
  transitivity ((Transaction_commit config id;;
      modify (fun s => set_num (u64 (numCommittedWriteTxnsSinceCheckpoint s + 1)) s);;
      s ← get;
      x ← deref id;
      let shouldCheckpoint := shouldForceCheckpoint (isInMemory config) x || canAutoCheckpoint config (world s) x ||
                              shouldCheckpointOnTxnCountNoLock config s in
      clearTransactionNoLock (ID x);;
      when shouldCheckpoint (checkpointNoLock;; modify (set_num 0))) s2).
  { unfold s2, stamped, changed_txn. cbn [mbind].
    assert (u64 (lastTimestamp s + 1) = lastTimestamp s + 1) as <- by (apply wrap_small; lia).
    destruct Hty as [-> | ->]; reflexivity. }
  unfold mbind, M_bind at 1. rewrite (Transaction_commit_run _ _ _ Hx2).
  change (storage_commit (with_commitTS (lastTimestamp s + 1) x) id) with (storage_commit x id).
  cbn [commitTS with_commitTS hasCatalogChanges]. change (world s2) with w.
  destruct (storage_commit x id (lastTimestamp s + 1) w) as [[[]|e|] w1]; [|done..].
  set (s3 := set_world w1 (if hasCatalogChanges x then changed_txn id without_catalog_changes s2 else s2)).
  assert (exists x3, find_txn (activeTransactions s3) id = Some x3 /\ ID x3 = id /\ type x3 = type x /\
    forceCheckpoint x3 = forceCheckpoint x) as (x3 & Hx3 & Hid3 & Hty3 & Hf3).
  { unfold s3. destruct (hasCatalogChanges x).
    - eexists. split; [cbn [activeTransactions set_world]; by apply find_changed|done].
    - by eexists. }
  assert (left_by id (set_num (u64 (numCommittedWriteTxnsSinceCheckpoint s3 + 1)) s3) = committed id s w1) as Hleft.
  { unfold s3, committed. destruct (hasCatalogChanges x).
    - change (left_by id (changed_txn id without_catalog_changes (set_world w1 (set_num (u64 (numCommittedWriteTxnsSinceCheckpoint s + 1)) s2))) =
        left_by id (mk_tm (activeTransactions s) (lastTransactionID s) (lastTimestamp s + 1)
          (checkpointWaitTimeoutInMicros s) (u64 (numCommittedWriteTxnsSinceCheckpoint s + 1)) w1)).
      rewrite left_changed by done. by apply (left_changed id _ (mk_tm (activeTransactions s) (lastTransactionID s) (lastTimestamp s + 1)
          (checkpointWaitTimeoutInMicros s) (u64 (numCommittedWriteTxnsSinceCheckpoint s + 1)) w1)).
    - by apply (left_changed id (with_commitTS (lastTimestamp s + 1)) (mk_tm (activeTransactions s) (lastTransactionID s) (lastTimestamp s + 1)
          (checkpointWaitTimeoutInMicros s) (u64 (numCommittedWriteTxnsSinceCheckpoint s + 1)) w1)). }
  unfold M_bind at 1. unfold modify at 1. unfold M_bind at 1. unfold get at 1.
  unfold M_bind at 1. unfold deref at 1. cbn [activeTransactions set_num]. rewrite Hx3. cbv zeta.
  unfold M_bind at 1. rewrite Hid3, (clear_run (set_num (u64 (numCommittedWriteTxnsSinceCheckpoint s3 + 1)) s3) _ x3 Hx3), Hleft.
  assert (shouldForceCheckpoint (isInMemory config) x3 = shouldForceCheckpoint (isInMemory config) x) as ->
    by (unfold shouldForceCheckpoint; by rewrite Hf3).
  assert (canAutoCheckpoint config (world (set_num (u64 (numCommittedWriteTxnsSinceCheckpoint s3 + 1)) s3)) x3 =
    canAutoCheckpoint config w1 x) as ->.
  { unfold canAutoCheckpoint, isRecovery. rewrite Hty3, Hid3, Hid. by unfold s3; destruct (hasCatalogChanges x). }
  assert (shouldCheckpointOnTxnCountNoLock config (set_num (u64 (numCommittedWriteTxnsSinceCheckpoint s3 + 1)) s3) =
    shouldCheckpointOnTxnCountNoLock config (committed id s w1)) as -> by (rewrite <-Hleft; done).
  destruct (_ || _); [|done]. unfold when, M_bind. rewrite checkpointNoLock_run by done.
  by destruct (checkpoint_result _) as [[[]|e|] s4].
Qed.

Lemma commit_reading_run id x s w :
  find_txn (activeTransactions s) id = Some x -> type x = READ_ONLY -> cleanUp (world s) = (Ret tt, w) ->
  commit config id s = (Ret tt, left_by id (set_world w s)).
Proof.
  intros Hx Hty Hcl. unfold commit, mbind, M_bind. rewrite (on_world_run _ _ _ _ Hcl).
  unfold deref. cbn [activeTransactions set_world]. rewrite Hx, Hty.
  pose proof (find_txn_Some _ _ _ Hx) as [_ ->]. by apply (clear_run (set_world w s) id x).
Qed.

Definition checkpoint_due id x s (w : W) : bool :=
  shouldForceCheckpoint (isInMemory config) x || canAutoCheckpoint config w x ||
  shouldCheckpointOnTxnCountNoLock config (committed id s w).

(** C11. The outcome of a commit. A read-only transaction just leaves. A writing
    one gets the next timestamp; its local storage, then its undo buffer with that
    timestamp, then (of a WRITE transaction on disk) its log records are
    committed, in this order. If one of them throws, the exception is passed on,
    the transaction is still active and the timestamp is used up. Otherwise it
    has left, whatever follows; if a checkpoint is due then and other transactions
    are active, the commit of this committed transaction reports a failed
    checkpoint; if it is alone the checkpoint is written and the count of commits
    reset, or rolled back and reported. *)
Theorem commit_outcome id x s w :
  find_txn (activeTransactions s) id = Some x ->
  0 <= lastTimestamp s -> lastTimestamp s + 1 < 2 ^ 64 -> 0 <= checkpointWaitTimeoutInMicros s < 2 ^ 62 ->
  cleanUp (world s) = (Ret tt, w) ->
  (type x = READ_ONLY -> commit config id s = (Ret tt, left_by id (set_world w s))) /\
  (type x = WRITE \/ type x = RECOVERY ->
     (forall e w1, storage_commit x id (lastTimestamp s + 1) w = (Throw e, w1) ->
        exists s', commit config id s = (Throw e, s') /\ keys s' = keys s /\ world s' = w1 /\
          lastTimestamp s' = lastTimestamp s + 1) /\
     (forall w1, storage_commit x id (lastTimestamp s + 1) w = (Ret tt, w1) ->
        let s1 := committed id s w1 in
        keys s1 = without id (keys s) /\ lastTimestamp s1 = lastTimestamp s + 1 /\ world s1 = w1 /\
        (checkpoint_due id x s w1 = false -> commit config id s = (Ret tt, s1)) /\
        (checkpoint_due id x s w1 = true ->
           ((exists y, y ∈ activeTransactions s /\ ID y <> id) ->
              commit config id s = (Throw (CheckpointException TIMEOUT_MSG), s1)) /\
           ((forall y, y ∈ activeTransactions s -> ID y = id) ->
              (forall w2, writeCheckpoint w1 = (Ret tt, w2) ->
                 commit config id s = (Ret tt, set_num 0 (set_world w2 s1))) /\
              (forall e w2 w3, writeCheckpoint w1 = (Throw e, w2) -> checkpointer_rollback w2 = (Ret tt, w3) ->
                 commit config id s = (Throw (CheckpointException (exn_msg e)), set_world w3 s1)))))).
Proof.
  intros Hx H0 Hts Hto Hcl. split; [intros Hty; by eapply commit_reading_run|].
  intros Hty. rewrite (commit_writing_run _ _ _ _ Hx Hty H0 Hts Hto Hcl). split.
  - intros e w1 ->. eexists. split; [done|]. split_and!; [|done|done].
    by apply (keys_changed id (with_commitTS (lastTimestamp s + 1)) (set_timestamp (lastTimestamp s + 1) s)).
  - intros w1 ->. cbn zeta. split_and!; [unfold committed; by rewrite left_by_keys|done|done| |].
    + unfold checkpoint_due. by intros ->.
    + unfold checkpoint_due. intros ->. unfold checkpoint_result, hasNoActiveTransactions. split.
      * intros (y & Hy & Hne). cbn.
        destruct (List.filter _ _) as [|z l] eqn:El; [|done]. exfalso.
        assert (y ∈ List.filter (fun x => negb (ID x =? id)) (activeTransactions s)) as Hin.
        { apply list_elem_of_In, List.filter_In. split; [by apply list_elem_of_In|].
          by rewrite (proj2 (Z.eqb_neq _ _) Hne). }
        rewrite El in Hin. by apply not_elem_of_nil in Hin.
      * intros Hall. cbn.
        assert (List.filter (fun x => negb (ID x =? id)) (activeTransactions s) = []) as ->.
        { destruct (List.filter _ _) as [|z l] eqn:El; [done|exfalso].
          assert (z ∈ List.filter (fun x => negb (ID x =? id)) (activeTransactions s)) as Hz by (rewrite El; by left).
          apply list_elem_of_In, List.filter_In in Hz as [Hz Hb]. apply list_elem_of_In in Hz.
          by rewrite (Hall z Hz), Z.eqb_refl in Hb. }
        split; [by intros w2 ->|]. intros e w2 w3 -> ->. done.
Qed.

(** C12. A checkpoint runs alone. The wait for the active transactions always
    ends; as the manager's lock is held meanwhile, none can leave, so with any
    transaction active the checkpoint fails with the timeout and nothing is
    written; with none it is written at once, and the count of commits reset; a
    checkpoint that throws is rolled back and reported. In memory it does nothing. *)
Theorem checkpoint_runs_alone s :
  0 <= checkpointWaitTimeoutInMicros s < 2 ^ 62 ->
  (isInMemory config = true -> checkpoint config s = (Ret tt, s)) /\
  (isInMemory config = false ->
     (activeTransactions s <> [] -> checkpoint config s = (Throw (CheckpointException TIMEOUT_MSG), s)) /\
     (activeTransactions s = [] ->
        (forall w, writeCheckpoint (world s) = (Ret tt, w) ->
           checkpoint config s = (Ret tt, set_num 0 (set_world w s))) /\
        (forall e w w', writeCheckpoint (world s) = (Throw e, w) -> checkpointer_rollback w = (Ret tt, w') ->
           checkpoint config s = (Throw (CheckpointException (exn_msg e)), set_world w' s)))).
Proof.
  intros Hto. unfold checkpoint. split; [by intros ->|]. intros ->. unfold mbind, M_bind.
  rewrite checkpointNoLock_run by done. unfold checkpoint_result, hasNoActiveTransactions. split.
  - by destruct (activeTransactions s).
  - intros ->. split; [by intros w ->|]. intros e w w' -> ->. done.
Qed.
End manager.

(** ** Statements of a connection *)

Section statements.
Import TransactionContext.
Context {W : Type} `{Storage W} (config : Config).
Implicit Types (tm : TransactionManager.t W) (id : transaction_t).

Lemma auto_init : isAutoTransaction TransactionContext.init = true.
Proof. reflexivity. Qed.
Lemma active_init : hasActiveTransaction TransactionContext.init = false.
Proof. reflexivity. Qed.

(** What a rollback runs of the storage. *)
Definition storage_rollback id : M W unit := cleanUp;; localStorage_rollback id;; undoBuffer_rollback id.

Lemma rollback_run id x tm :
  find_txn (activeTransactions tm) id = Some x -> type x = READ_ONLY \/ type x = WRITE \/ type x = RECOVERY ->
  (forall v, exists v', storage_rollback id v = (Ret tt, v')) ->
  exists tm', TransactionManager.rollback id tm = (Ret tt, tm') /\ keys tm' = without id (keys tm).
Proof.
  intros Hx Hty Hok. destruct (Hok (world tm)) as [v' Hv]. unfold storage_rollback, mbind, M_bind in Hv.
  destruct (cleanUp (world tm)) as [[[]|e|] w1] eqn:E1; [|done..].
  destruct (localStorage_rollback id w1) as [[[]|e|] w2] eqn:E2; [|done..].
  pose proof (find_txn_Some _ _ _ Hx) as [_ Hid].
  unfold TransactionManager.rollback, mbind, M_bind. rewrite (on_world_run _ _ _ _ E1).
  unfold deref. cbn [activeTransactions set_world]. rewrite Hx, Hid.
  destruct Hty as [-> |Hty].
  - exists (left_by id (set_world w1 tm)). split; [by apply (clear_run (set_world w1 tm) id x)|].
    by rewrite left_by_keys.
  - assert (Transaction_rollback id (set_world w1 tm) =
      (Ret tt, changed_txn id without_catalog_changes (set_world v' tm))) as Hr.
    { unfold Transaction_rollback, mbind, M_bind. rewrite (on_world_run _ _ (Ret tt) w2) by done.
      by rewrite (on_world_run _ _ (Ret tt) v') by done. }
    exists (left_by id (changed_txn id without_catalog_changes (set_world v' tm))). split.
    + assert (clearTransactionNoLock id (changed_txn id without_catalog_changes (set_world v' tm)) =
        (Ret tt, left_by id (changed_txn id without_catalog_changes (set_world v' tm)))) as Hc
        by (eapply clear_run, find_changed; done).
      destruct Hty as [-> | ->]; by rewrite Hr.
    + by rewrite left_changed, left_by_keys by done.
Qed.

(** A statement's own work: anything but ending transactions. *)
Definition works_inside (fn : M (St (W := W)) unit) : Prop :=
  forall c tm, let '(r, (c', tm')) := fn (c, tm) in
    c' = c /\ same_frame tm tm' /\ forall msg, r <> Throw (CheckpointException msg).

Definition commits_fail_plainly : Prop :=
  forall x id ts v msg v', storage_commit config x id ts v <> (Throw (CheckpointException msg), v').

Lemma find_txn_None (l : list Transaction.t) id : (forall k, k ∈ map key l -> key_id k <> id) -> find_txn l id = None.
Proof.
  induction l as [|x l IH]; intros Hl; [done|]. cbn.
  assert (ID x <> id) as Hne by (apply (Hl (key x)); by left). rewrite (proj2 (Z.eqb_neq _ _) Hne).
  apply IH. intros k Hk. apply Hl. by right.
Qed.

Lemma commit_attempt id x tm r tm' :
  commits_fail_plainly -> (forall v, exists v', cleanUp v = (Ret tt, v')) ->
  find_txn (activeTransactions tm) id = Some x -> type x = READ_ONLY \/ type x = WRITE ->
  0 <= lastTimestamp tm -> lastTimestamp tm + 1 < 2 ^ 64 -> 0 <= checkpointWaitTimeoutInMicros tm < 2 ^ 62 ->
  TransactionManager.commit config id tm = (r, tm') -> r <> Undef ->
  keys tm' = without id (keys tm) \/
  (exists e, r = Throw e /\ (forall msg, e <> CheckpointException msg) /\ keys tm' = keys tm).
Proof.
  intros Hplain Hcl Hx Hty H0 Hts Hto Hrun Hr. destruct (Hcl (world tm)) as [w Hw].
  destruct Hty as [Hty|Hty].
  - rewrite (commit_reading_run _ _ _ _ _ Hx Hty Hw) in Hrun. injection Hrun as <- <-. left. by rewrite left_by_keys.
  - rewrite (commit_writing_run _ _ _ _ _ Hx (or_introl Hty) H0 Hts Hto Hw) in Hrun.
    destruct (storage_commit config x id (lastTimestamp tm + 1) w) as [[[]|e|] w1] eqn:Es.
    + left. assert (keys (committed id tm w1) = without id (keys tm)) as Hk by (unfold committed; by rewrite left_by_keys).
      destruct (_ || _ || _); [|by injection Hrun as <- <-].
      pose proof (keeps_checkpointNoLock (committed id tm w1)) as (Hk' & _).
      rewrite checkpointNoLock_run in Hk' by done.
      destruct (checkpoint_result (committed id tm w1)) as [[[]|e|] s2]; injection Hrun as <- <-; cbn [snd] in Hk';
        [exact (eq_trans Hk' Hk)|exact (eq_trans Hk' Hk)|done].
    + right. injection Hrun as <- <-. exists e. split_and!; [done| |].
      * intros msg ->. by apply (Hplain _ _ _ _ _ _ Es).
      * by apply (keys_changed id (with_commitTS (lastTimestamp tm + 1)) (set_timestamp (lastTimestamp tm + 1) tm)).
    + by injection Hrun as <- <-.
Qed.

Lemma beginAuto_run readOnly tm :
  beginAutoTransaction config readOnly (TransactionContext.init, tm) =
    match beginTransaction config (if readOnly then READ_ONLY else WRITE) tm with
    | (Ret t, tm1) => (Ret tt, (mk_ctx AUTO (Some t), tm1))
    | (Throw e, tm1) => (Throw e, (TransactionContext.init, tm1))
    | (Undef, tm1) => (Undef, (TransactionContext.init, tm1))
    end.
Proof.
  unfold beginAutoTransaction, beginTransactionInternal, mbind, M_bind, get, lift, on_manager. cbn [fst snd].
  rewrite active_init. cbn [ku_assert negb fst snd].
  by destruct (beginTransaction config _ tm) as [[t|e|] tm1].
Qed.

(** Rolling the statement's transaction back, as the exception handler does. *)
Lemma rollback_statement id x tm e :
  (forall v, exists v', storage_rollback id v = (Ret tt, v')) ->
  find_txn (activeTransactions tm) id = Some x -> type x = READ_ONLY \/ type x = WRITE ->
  exists tm', (rollback;; throw (A := unit) e) (mk_ctx AUTO (Some id), tm) = (Throw e, (TransactionContext.init, tm')) /\
    keys tm' = without id (keys tm).
Proof.
  intros Hok Hx Hty. destruct (rollback_run id x tm Hx) as (tm' & Hrb & K); [destruct Hty; auto|done|].
  exists tm'. split; [|done]. unfold rollback, mbind, M_bind, get, on_manager. cbn [fst snd activeTransaction].
  by rewrite Hrb.
Qed.

(** ... which has no meaning once the transaction is gone. *)
Lemma rollback_gone id tm e :
  (forall v, exists v', cleanUp v = (Ret tt, v')) -> find_txn (activeTransactions tm) id = None ->
  ((rollback;; throw (A := unit) e) (mk_ctx AUTO (Some id), tm)).1 = Undef.
Proof.
  intros Hcl Hnone. unfold rollback, mbind, M_bind, get, on_manager. cbn [fst snd activeTransaction].
  unfold TransactionManager.rollback, mbind, M_bind. destruct (Hcl (world tm)) as [w Hw].
  rewrite (on_world_run _ _ _ _ Hw). unfold deref. cbn [activeTransactions set_world]. by rewrite Hnone.
Qed.

Lemma without_new id l k :
  (forall k, k ∈ l -> key_id k <> id) -> key_id k = id -> without id (l ++ [k]) = l.
Proof.
  intros Hl Hk. unfold without. rewrite List.filter_app. cbn. rewrite Hk, Z.eqb_refl. cbn. rewrite app_nil_r.
  induction l as [|k' l IH]; [done|]. cbn. rewrite (proj2 (Z.eqb_neq _ _)) by (apply Hl; by left).
  cbn. rewrite IH; [done|]. intros k'' Hk''. apply Hl. by right.
Qed.

(** The transaction just begun is found as long as the statement keeps it. *)
Lemma find_started ty tm w tm2 :
  (forall x, x ∈ activeTransactions tm -> ID x <> new_id tm) -> keys tm2 = keys (joined ty tm w) ->
  exists x, find_txn (activeTransactions tm2) (new_id tm) = Some x /\ type x = ty.
Proof.
  intros Hfresh K. destruct (find_txn (activeTransactions (joined ty tm w)) (new_id tm)) as [y|] eqn:Ey.
  - destruct (find_txn_key _ (activeTransactions tm2) _ y (eq_sym K) Ey) as (x & Hx & Hkey). exists x. split; [done|].
    pose proof (find_txn_Some _ _ _ Ey) as [Hin Hid]. cbn in Hin.
    assert (y = started ty tm) as ->; [|by injection Hkey].
    apply elem_of_app in Hin as [Hin| ->%list_elem_of_singleton]; [|done]. destruct (Hfresh y Hin). done.
  - by destruct (joined_find ty tm w).
Qed.

(** An auto-commit statement leaves nothing behind: whether its work
    succeeds or throws, and whether its commit succeeds, throws or reports a failed
    checkpoint, the connection is back in mode AUTO without a transaction and the
    manager has the same active transactions as before, so none leaks. The
    hypotheses say that rolling back does not fail, that only the checkpoint code
    throws checkpoint exceptions, and that the new identifier is fresh. *)
Theorem autocommit_leaves_nothing tm fn readOnly action r c' tm' :
  (forall id v, exists v', storage_rollback id v = (Ret tt, v')) -> commits_fail_plainly -> works_inside fn ->
  (forall x, x ∈ activeTransactions tm -> ID x <> new_id tm) ->
  0 <= lastTimestamp tm -> lastTimestamp tm + 1 < 2 ^ 64 -> 0 <= checkpointWaitTimeoutInMicros tm < 2 ^ 62 ->
  commitIfNew action = true ->
  runFuncInTransaction config fn readOnly false action (TransactionContext.init, tm) = (r, (c', tm')) -> r <> Undef ->
  c' = TransactionContext.init /\ keys tm' = keys tm.
Proof.
  intros Hback Hplain Hfn Hfresh H0 Hts Hto Hact Hrun Hr.
  assert (forall v, exists v', cleanUp v = (Ret tt, v')) as Hcl.
  { intros v. destruct (Hback 0 v) as [v' Hv]. unfold storage_rollback, mbind, M_bind in Hv.
    destruct (cleanUp v) as [[[]|e|] w]; [by exists w|done..]. }
  set (ty := if readOnly then READ_ONLY else WRITE). set (id := new_id tm).
  assert (ty = READ_ONLY \/ ty = WRITE) as Hty by (unfold ty; destruct readOnly; auto).
  unfold runFuncInTransaction in Hrun. unfold mbind, M_bind at 1 in Hrun. unfold get at 1 in Hrun.
  unfold M_bind at 1 in Hrun. unfold lift at 1 in Hrun. cbn [fst] in Hrun.
  rewrite auto_init, active_init in Hrun. cbn [ku_assert orb andb negb when] in Hrun.
  unfold M_bind at 1 in Hrun.
  (* the new transaction *)
  assert (forall k, k ∈ keys tm -> key_id k <> id) as Hfresh'.
  { intros k Hk. unfold keys in Hk. apply list_elem_of_fmap in Hk as (x & -> & Hx). by apply Hfresh. }
  rewrite beginAuto_run in Hrun. fold ty in Hrun.
  destruct (beginTransaction config ty tm) as [o tm1] eqn:Eb.
  destruct (decide (o = Undef)) as [->|Ho]; [by injection Hrun as <- <- <-|].
  apply begin_cases in Eb as (T1 & C1 & [(-> & [w0 ->] & _)|(e & -> & K1 & _)]); [| |done].
  2: { by injection Hrun as <- <- <-. }
  fold id in Hrun. set (tm1 := joined ty tm w0) in Hrun, T1, C1.
  assert (keys tm1 = keys tm ++ [key (started ty tm)]) as K1 by apply joined_keys.
  assert (without id (keys tm1) = keys tm) as Hwithout by (rewrite K1; by apply without_new).
  (* the work *)
  unfold try_catch in Hrun. unfold M_bind at 1 in Hrun.
  pose proof (Hfn (mk_ctx AUTO (Some id)) tm1) as Hwork.
  destruct (fn (mk_ctx AUTO (Some id), tm1)) as [o2 [c2 tm2]]. destruct Hwork as (-> & Hframe & Hnochk).
  pose proof Hframe as (K2 & _ & T2 & C2). destruct (find_started ty tm w0 tm2 Hfresh K2) as (x & Hx & Hxt).
  fold id in Hx.
  destruct o2 as [[]|e|]; [| |by injection Hrun as <- <- <-].
  - unfold M_bind at 1 in Hrun. unfold get at 1 in Hrun. rewrite Hact in Hrun. cbn [orb when] in Hrun.
    unfold TransactionContext.commit, mbind in Hrun. unfold M_bind at 1 in Hrun. unfold get at 1 in Hrun.
    cbn [fst activeTransaction] in Hrun. unfold M_bind at 1 in Hrun. unfold on_manager at 1 in Hrun. cbn [fst snd] in Hrun.
    destruct (TransactionManager.commit config id tm2) as [o3 tm3] eqn:Ec.
    destruct (decide (o3 = Undef)) as [->|Ho3]; [by injection Hrun as <- <- <-|].
    destruct (commit_attempt id x tm2 o3 tm3 Hplain Hcl Hx) as [K3|(e & -> & Hne & K3)];
      [by rewrite Hxt|rewrite T2, T1; lia|rewrite T2, T1; lia|rewrite C2, C1; lia|done|done| |].
    + rewrite K2, Hwithout in K3. destruct o3 as [[]|e|]; [by injection Hrun as <- <- <-| |done].
      assert (find_txn (activeTransactions tm3) id = None) as Hnone
        by (apply find_txn_None; intros k Hk; apply Hfresh'; by rewrite <-K3).
      destruct e; try (by injection Hrun as <- <- <-); exfalso; apply Hr;
        match type of Hrun with M_bind _ _ (fun _ => throw ?e') _ _ = _ => pose proof (rollback_gone id tm3 e' Hcl Hnone) as Hgone end;
        unfold mbind in Hgone; by rewrite Hrun in Hgone.
    + destruct (find_txn_key _ (activeTransactions tm3) id x (eq_sym K3) Hx) as (x3 & Hx3 & Hkey3).
      destruct (rollback_statement id x3 tm3 e (Hback id) Hx3) as (tm4 & Hrb4 & K4);
        [injection Hkey3 as -> _ _; by rewrite Hxt|]. unfold mbind in Hrb4. rewrite K3, K2, Hwithout in K4.
      destruct e; try (by destruct (Hne msg)); rewrite Hrb4 in Hrun; by injection Hrun as <- <- <-.
  - destruct (rollback_statement id x tm2 e (Hback id) Hx) as (tm4 & Hrb4 & K4); [by rewrite Hxt|].
    unfold mbind in Hrb4. rewrite K2, Hwithout in K4.
    destruct e; try (by destruct (Hnochk msg)); rewrite Hrb4 in Hrun; by injection Hrun as <- <- <-.
Qed.

(** A BEGIN TRANSACTION that is refused leaves its connection unusable:
    the mode is already MANUAL and stays so without a transaction, and every
    later statement of the connection, a new BEGIN included, fails the assertion
    at the start of [runFuncInTransaction]. *)
Theorem failed_begin_breaks_connection tm readOnly action :
  enableMultiWrites config = false -> hasActiveWriteTransactionNoLock tm = true ->
  runFuncInTransaction config (runAction config BEGIN_WRITE) readOnly true action (TransactionContext.init, tm) =
    (Throw (TransactionManagerException ONE_WRITER_MSG), (mk_ctx MANUAL None, tm)) /\
  forall fn readOnly isTransactionStatement action,
    runFuncInTransaction config fn readOnly isTransactionStatement action (mk_ctx MANUAL None, tm) =
      (Undef, (mk_ctx MANUAL None, tm)).
Proof.
  intros Hm Hw. split; [|done].
  assert (runAction config BEGIN_WRITE (TransactionContext.init, tm) =
    (Throw (TransactionManagerException ONE_WRITER_MSG), (mk_ctx MANUAL None, tm))) as Hrun.
  { unfold runAction, beginWriteTransaction, beginTransactionInternal, on_manager, beginTransaction, mbind, M_bind, get, set_mode, modify, lift.
    cbn. by rewrite Hm, Hw. }
  unfold runFuncInTransaction, mbind, M_bind, get, lift. cbn [fst].
  rewrite auto_init, active_init. cbn [ku_assert orb andb negb when mret M_ret].
  unfold try_catch. by rewrite Hrun.
Qed.
End statements.
(** ** Witnesses *)

(** A storage that only records what it is asked to do; nothing fails. *)
#[local] Instance trace_storage : Storage (list string) := {
  cleanUp := mret tt;
  logBeginTransaction _ := modify (cons "log begin");
  localStorage_commit _ := modify (cons "local storage");
  localStorage_rollback _ := modify (cons "local storage rollback");
  undoBuffer_commit _ _ := modify (cons "undo buffer");
  undoBuffer_rollback _ := modify (cons "undo buffer rollback");
  localWAL_logCommit _ := modify (cons "log commit");
  wal_logCommittedWAL _ := modify (cons "wal");
  localWAL_clear _ := modify (cons "local wal clear");
  catalog_incrementVersion := modify (cons "catalog");
  localWAL_getSize _ _ := 100;
  wal_getFileSize w := Z.of_nat (length w);
  getUsageRatio _ := (1 # 2)%Q;
  getBufferPoolSize _ := 4096;
  writeCheckpoint := modify (cons "checkpoint");
  checkpointer_rollback := modify (cons "checkpoint rollback");
}.

(** On disk, one writer, a checkpoint after every second commit. *)
Definition example_config : Config := mkConfig false false true true 16777216 2.

Definition example_start : TransactionManager.t (list string) := init [].
Definition run {A} (m : M (TransactionManager.t (list string)) A) (s : TransactionManager.t (list string)) :=
  snd (m s).
Definition first_id : transaction_t := START_TRANSACTION_ID + 1.
Definition example_writer : TransactionManager.t (list string) := run (beginTransaction example_config WRITE) example_start.
Definition example_two : TransactionManager.t (list string) := run (beginTransaction example_config READ_ONLY) example_writer.
Definition example_done : TransactionManager.t (list string) := run (commit example_config first_id) example_two.
Definition example_three : TransactionManager.t (list string) := run (beginTransaction example_config WRITE) example_done.

(** A writer and a reader begin, the writer commits at 2, a second writer begins. *)
Definition example_history : list event :=
  [EBegin first_id 1; EBegin (first_id + 1) 1; ECommit first_id 2; EBegin (first_id + 2) 2].

Lemma example_reachable : rtc (step example_config) (example_start, []) (example_three, example_history).
Proof.
  eapply rtc_l.
  { eapply (step_begin example_config WRITE example_start [] first_id example_writer); [done|vm_compute; reflexivity|vm_compute; reflexivity]. }
  eapply rtc_l.
  { eapply (step_begin example_config READ_ONLY example_writer _ (first_id + 1) example_two); [done|vm_compute; reflexivity|vm_compute; reflexivity]. }
  eapply rtc_l.
  { apply (step_commit example_config first_id example_two _ (Ret tt) example_done); [done|vm_compute; reflexivity|done]. }
  eapply rtc_l.
  { eapply (step_begin example_config WRITE example_done _ (first_id + 2) example_three); [done|vm_compute; reflexivity|vm_compute; reflexivity]. }
  match goal with |- rtc _ ?a ?b => replace a with b by (vm_compute; reflexivity) end. apply rtc_refl.
Qed.

Lemma snapshots_separate_commits_witness :
  rtc (step example_config) (example_start, []) (example_three, example_history) /\
  (forall x, x ∈ activeTransactions example_three -> EBegin (ID x) (startTS x) ∈ example_history).
Proof.
  split; [apply example_reachable|].
  apply (snapshots_separate_commits example_config [] example_three example_history example_reachable).
Defined.

Lemma single_writer_witness :
  hasActiveWriteTransactionNoLock example_three = true /\
  beginTransaction example_config WRITE example_three =
    (Throw (TransactionManagerException ONE_WRITER_MSG), example_three).
Proof.
  split; [vm_compute; reflexivity|].
  destruct (single_writer example_config [] example_three example_history example_reachable) as (_ & _ & H & _).
  apply H; [reflexivity|by left|vm_compute; reflexivity].
Defined.

(** The second commit is due for a checkpoint, which the open reader prevents. *)
Lemma commit_outcome_witness :
  commit example_config (first_id + 2) example_three =
    (Throw (CheckpointException TIMEOUT_MSG),
     committed (first_id + 2) example_three
       ["local wal clear"; "wal"; "log commit"; "undo buffer"; "local storage"; "log begin"; "local wal clear"; "wal";
        "log commit"; "undo buffer"; "local storage"; "log begin"]%string).
Proof.
  destruct (commit_outcome example_config (first_id + 2) (make WRITE (first_id + 2) 2) example_three (world example_three))
    as [_ H]; [vm_compute; reflexivity|vm_compute; discriminate|vm_compute; reflexivity
      |split; [vm_compute; discriminate|vm_compute; reflexivity]|vm_compute; reflexivity|].
  destruct (H (or_introl eq_refl)) as [_ H'].
  edestruct H' as (_ & _ & _ & _ & H2); [vm_compute; reflexivity|]. apply H2; [vm_compute; reflexivity|].
  exists (make READ_ONLY (first_id + 1) 1). split; [|vm_compute; discriminate].
  apply (list_elem_of_lookup_2 _ 0). vm_compute. reflexivity.
Defined.

Lemma checkpoint_runs_alone_witness :
  checkpoint example_config example_start = (Ret tt, set_num 0 (set_world ["checkpoint"%string] example_start)) /\
  checkpoint example_config example_three = (Throw (CheckpointException TIMEOUT_MSG), example_three).
Proof.
  split.
  - apply (checkpoint_runs_alone example_config example_start); [split; [discriminate|reflexivity]|reflexivity..].
  - apply (checkpoint_runs_alone example_config example_three);
      [split; [vm_compute; discriminate|vm_compute; reflexivity]|reflexivity|vm_compute; discriminate].
Defined.

(** The work throws. *)
Definition failing_work : M (TransactionContext.St (W := list string)) unit := throw (RuntimeException "out of disk").

Lemma autocommit_leaves_nothing_witness :
  exists r c' tm',
    TransactionContext.runFuncInTransaction example_config failing_work false false TransactionContext.COMMIT_IF_NEW
      (TransactionContext.init, example_done) = (r, (c', tm')) /\
    r = Throw (RuntimeException "out of disk") /\ c' = TransactionContext.init /\ keys tm' = keys example_done.
Proof.
  eexists _, _, _. split; [vm_compute; reflexivity|]. split; [reflexivity|].
  eapply (autocommit_leaves_nothing example_config example_done failing_work false TransactionContext.COMMIT_IF_NEW);
    [intros id v; by eexists| |intros c tm; cbn; split_and!; [done|done|by intros msg]| |vm_compute; discriminate|vm_compute; reflexivity
    |split; [vm_compute; discriminate|vm_compute; reflexivity]|reflexivity|vm_compute; reflexivity|discriminate].
  - intros x id ts v msg v'. unfold storage_commit, when.
    by destruct (shouldLogToWAL _ _), (hasCatalogChanges x).
  - intros x Hx. assert (x = make READ_ONLY (first_id + 1) 1) as ->; [|vm_compute; discriminate].
    apply list_elem_of_singleton. exact Hx.
Defined.

Lemma failed_begin_breaks_connection_witness :
  TransactionContext.runFuncInTransaction example_config
    (TransactionContext.runAction example_config TransactionContext.BEGIN_WRITE) false true TransactionContext.COMMIT_IF_NEW
    (TransactionContext.init, example_three) =
    (Throw (TransactionManagerException ONE_WRITER_MSG),
     (TransactionContext.mk_ctx TransactionContext.MANUAL None, example_three)).
Proof. apply (failed_begin_breaks_connection example_config example_three); vm_compute; reflexivity. Defined.
