(* ===== verification/TransactionDrain.v ===== *)
(** A transaction manager can always be drained: the transactions a reachable
    state has active can be rolled back, in any order, each in a bounded number of
    steps, after which a checkpoint or a new writer, refused until then, goes
    through. *)
From stdpp Require Import relations.
From S2P Require Import Prelude Effects VersionInfo Transaction TransactionManager TransactionSpec.
Local Open Scope Z_scope.
Import Transaction TransactionManager.

(** Rolls the transactions [ids] back, one call of the manager after the other. *)
Fixpoint rollback_all {W} `{Storage W} (ids : list transaction_t) : M (TransactionManager.t W) unit :=
  match ids with
  | [] => mret tt
  | id :: ids => rollback id;; rollback_all ids
  end.

Section drain.
Context {W : Type} `{Storage W} (config : Config).
Implicit Types (s : TransactionManager.t W) (id : transaction_t) (ids : list transaction_t).

Definition other_than id (i : transaction_t) : bool := negb (i =? id).

#[global] Instance filter_other_proper id : Proper ((≡ₚ) ==> (≡ₚ)) (List.filter (other_than id)).
Proof.
  intros l1 l2 Hp. induction Hp as [|x l1 l2 _ IH|x y l|l1 l2 l3 _ IH1 _ IH2]; [done| | |by etransitivity]; cbn.
  - destruct (other_than id x); by rewrite IH.
  - destruct (other_than id x), (other_than id y); try done. constructor.
Qed.

Lemma filter_other_absent id ids : id ∉ ids -> List.filter (other_than id) ids = ids.
Proof.
  induction ids as [|i ids IH]; [done|]. intros [Hne Hids]%not_elem_of_cons. cbn.
  unfold other_than at 1. by rewrite (proj2 (Z.eqb_neq i id)), IH by done.
Qed.

Lemma ids_without id (l : list (TransactionType * transaction_t * transaction_t)) :
  map key_id (without id l) = List.filter (other_than id) (map key_id l).
Proof. unfold without, other_than. induction l as [|k l IH]; [done|]. cbn. destruct (_ =? _); cbn; congruence. Qed.

Lemma ids_of_keys s : map ID (activeTransactions s) = map key_id (keys s).
Proof. unfold keys. rewrite map_map. done. Qed.

Lemma find_active s id : id ∈ map ID (activeTransactions s) -> exists x, find_txn (activeTransactions s) id = Some x.
Proof.
  unfold find_txn. induction (activeTransactions s) as [|x l IH]; [by intros ?%not_elem_of_nil|].
  cbn. intros [->|Hin]%elem_of_cons; [exists x; by rewrite Z.eqb_refl|].
  destruct (_ =? _); [by exists x|by apply IH].
Qed.

Lemma drain ids : (forall id v, exists v' : W, storage_rollback id v = (Ret tt, v')) ->
  forall s h, inv config s h -> ids ≡ₚ map ID (activeTransactions s) ->
  exists s', rollback_all ids s = (Ret tt, s') /\ rtc (step config) (s, h) (s', h) /\ inv config s' h /\
    activeTransactions s' = [] /\ lastTimestamp s' = lastTimestamp s.
Proof.
  intros Hok. induction ids as [|id ids IH]; intros s h Hinv Hp.
  { apply Permutation_nil in Hp. exists s. split_and!; [done|apply rtc_refl|done| |done]. by destruct (activeTransactions s). }
  destruct (find_active s id) as [x Hx]; [rewrite <-Hp; by left|].
  pose proof (find_txn_Some _ _ _ Hx) as [Hin _].
  destruct (inv_keys _ _ _ Hinv (key x)) as (_ & Hty & _); [by apply list_elem_of_fmap_2|].
  destruct (rollback_run id x s Hx Hty (Hok id)) as (s1 & Hrun & K).
  assert (step config (s, h) (s1, h)) as Hstep by (by eapply step_rollback).
  assert (lastTimestamp s1 = lastTimestamp s) as T by (by apply rollback_cases in Hrun as (_ & -> & _)).
  destruct (IH s1 h) as (s' & Hrun' & Hsteps & Hinv' & Hempty & T').
  - by apply (step_preserves config _ _ Hstep).
  - rewrite ids_of_keys, K, ids_without, <-ids_of_keys, <-Hp. cbn.
    unfold other_than at 1. rewrite Z.eqb_refl. cbn. rewrite filter_other_absent; [done|].
    eapply NoDup_cons. rewrite Hp, ids_of_keys. apply (inv_nodup _ _ _ Hinv).
  - exists s'. split_and!; [|by eapply rtc_l|done|done|congruence].
    cbn [rollback_all]. unfold mbind, M_bind. by rewrite Hrun.
Qed.

(** C13. No transaction can keep the others out for ever. From every reachable
    state, provided the storage can roll back, rolling the active transactions
    back in any order succeeds call by call and leaves none active, with the clock
    where it was. Then a checkpoint, which times out as long as one is active, runs
    and completes when the checkpointer does, and a writer, which is refused as
    long as another is active, is let in when its begin record is logged. *)
Theorem transactions_drain w s h ids :
  rtc (step config) (init w, []) (s, h) -> ids ≡ₚ map ID (activeTransactions s) ->
  (forall id v, exists v' : W, storage_rollback id v = (Ret tt, v')) ->
  exists s', rollback_all ids s = (Ret tt, s') /\ rtc (step config) (s, h) (s', h) /\
    activeTransactions s' = [] /\ lastTimestamp s' = lastTimestamp s /\
    (isInMemory config = false -> forall w', writeCheckpoint (world s') = (Ret tt, w') ->
       checkpoint config s' = (Ret tt, set_num 0 (set_world w' s'))) /\
    (forall w', logBeginTransaction (new_id s') (world s') = (Ret tt, w') ->
       exists s'', beginTransaction config WRITE s' = (Ret (new_id s'), s'') /\
         activeTransactions s'' = [make WRITE (new_id s') (lastTimestamp s)]).
Proof.
  intros Hreach%reachable Hp Hok. destruct (drain ids Hok s h Hreach Hp) as (s' & Hrun & Hsteps & Hinv & Hempty & T).
  exists s'. split_and!; [done..| |].
  - intros Hmem w' Hw'. unfold checkpoint, mbind, M_bind. rewrite Hmem, checkpointNoLock_run.
    + unfold checkpoint_result, hasNoActiveTransactions. by rewrite Hempty, Hw'.
    + by rewrite (inv_timeout _ _ _ Hinv).
  - intros w' Hw'. unfold beginTransaction. unfold mbind at 1, M_bind at 1, get at 1.
    assert (hasActiveWriteTransactionNoLock s' = false) as -> by (unfold hasActiveWriteTransactionNoLock; by rewrite Hempty).
    rewrite andb_false_r, start_run. unfold started. rewrite T.
    destruct (shouldLogToWAL _ _); [rewrite Hw'|]; (eexists; split; [done|]);
      cbn; rewrite Hempty; cbn; unfold started; by rewrite T.
Qed.
End drain.

(** ** Witness *)

#[local] Existing Instance trace_storage.

(** A reader and a second writer, rolled back the writer first. *)
Lemma transactions_drain_witness :
  hasActiveWriteTransactionNoLock example_three = true /\
  exists s', rollback_all [first_id + 2; first_id + 1] example_three = (Ret tt, s') /\
    checkpoint example_config s' = (Ret tt, set_num 0 (set_world ("checkpoint"%string :: world s') s')) /\
    exists s'', beginTransaction example_config WRITE s' = (Ret (first_id + 3), s'') /\
      activeTransactions s'' = [make WRITE (first_id + 3) 2].
Proof.
  split; [vm_compute; reflexivity|].
  destruct (transactions_drain example_config [] example_three example_history [first_id + 2; first_id + 1])
    as (s' & Hrun & _ & _ & _ & Hck & Hbegin).
  - apply example_reachable.
  - apply perm_swap.
  - intros id v. by eexists.
  - exists s'. split; [exact Hrun|]. split; [by apply Hck|].
    assert (new_id s' = first_id + 3) as Hid by (vm_compute in Hrun; injection Hrun as <-; vm_compute; reflexivity).
    destruct (Hbegin ("log begin"%string :: world s') eq_refl) as (s'' & Hb & Ha). rewrite Hid in Hb, Ha.
    exists s''. split; [exact Hb|exact Ha].
Defined.
