(* ===== verification/UndoBuffer.v ===== *)
(** The undo buffer of a transaction ([storage/undo_buffer.cpp]): records of what
    the transaction did, appended to memory buffers, replayed forwards with the
    commit timestamp by a commit and backwards by a rollback. A buffer is its
    bytes as typed objects at offsets: reading another type or another offset than
    was written is undefined. What the records refer to is behind the interface
    [UndoTargets]. *)
From stdpp Require Import gmap.
From S2P Require Import Prelude Effects VersionInfo.
Local Open Scope Z_scope.

(** Addresses of the objects a record refers to. *)
Definition pointer := Z.

(** ** The interface to what is undone *)

Class UndoTargets (S : Type) := {
  (* [CatalogEntry] and [CatalogSet] *)
  entry_getNext : pointer -> M S (option pointer);
  entry_movePrev : pointer -> M S (option pointer);
  entry_setPrev : pointer -> option pointer -> M S unit;
  entry_setTimestamp : pointer -> transaction_t -> M S unit;
  entry_getName : pointer -> M S string;
  set_eraseNoLock : pointer -> string -> M S unit;
  set_emplaceNoLock : pointer -> pointer -> M S unit;
  (* [SequenceCatalogEntry] *)
  sequence_rollbackVal : pointer -> Z -> Z -> M S unit;
  (* [VersionRecordHandler]: node group, start row, number of rows *)
  handler_commitInsert : pointer -> Z -> Z -> Z -> transaction_t -> M S unit;
  handler_commitDelete : pointer -> Z -> Z -> Z -> transaction_t -> M S unit;
  handler_rollbackInsert : pointer -> Z -> Z -> Z -> M S unit;
  handler_rollbackDelete : pointer -> Z -> Z -> Z -> M S unit;
  (* [UpdateInfo] and [VectorUpdateInfo] *)
  vectorInfo_setVersion : pointer -> transaction_t -> M S unit;
  updateInfo_getVectorInfo : pointer -> Z -> M S (option pointer);
  vectorInfo_getNext : pointer -> M S (option pointer);
  vectorInfo_movePrev : pointer -> M S (option pointer);
  vectorInfo_relink : pointer -> pointer -> M S unit;
  updateInfo_setVectorInfo : pointer -> Z -> pointer -> M S unit;
  updateInfo_clearVectorInfo : pointer -> Z -> M S unit;
}.

Module UndoBuffer.
Inductive UndoRecordType := CATALOG_ENTRY | SEQUENCE_ENTRY | UPDATE_INFO | INSERT_INFO | DELETE_INFO.

Inductive record :=
| CatalogEntryRecord (catalogSet catalogEntry : pointer)
| SequenceEntryRecord (sequenceEntry : pointer) (usageCount currVal : Z)
| VersionRecord (startRow numRows nodeGroupIdx : Z) (versionRecordHandler : pointer)
| VectorUpdateRecord (updateInfo : pointer) (vectorIdx : Z) (vectorUpdateInfo : pointer).

(** [sizeof] of the structures. *)
Definition sizeof_header : Z := 8.
Definition sizeof (r : record) : Z :=
  match r with
  | CatalogEntryRecord _ _ => 16
  | SequenceEntryRecord _ _ _ => 24
  | VersionRecord _ _ _ _ => 32
  | VectorUpdateRecord _ _ _ => 24
  end.

Inductive object :=
| Header (recordType : UndoRecordType) (recordSize : Z)
| Payload (r : record).

Record UndoMemoryBuffer := mk_buffer { data : gmap Z object; capacity : Z; currentPosition : Z }.

Definition UNDO_MEMORY_BUFFER_INIT_CAPACITY : Z := 2 ^ 12.
Definition canFit (b : UndoMemoryBuffer) (size : Z) : bool := currentPosition b + size <=? capacity b.
Definition moveCurrentPosition (b : UndoMemoryBuffer) (offset : Z) : outcome UndoMemoryBuffer :=
  _ ← ku_assert (currentPosition b + offset <=? capacity b);
  mret (mk_buffer (data b) (capacity b) (currentPosition b + offset)).

Definition t := list UndoMemoryBuffer.

(** [while (size > capacity) capacity *= 2]. *)
Fixpoint grow (fuel : nat) (capacity size : Z) : outcome Z :=
  if size <=? capacity then mret capacity
  else match fuel with O => Undef | S fuel => grow fuel (u64 (capacity * 2)) size end.

(** The place of a new record: a buffer and an offset in it. *)
Definition createUndoRecord (u : t) (size : Z) : outcome (t * (nat * Z)) :=
  u ← match last u with
      | Some b => if canFit b size then mret u
                  else c ← grow 52 UNDO_MEMORY_BUFFER_INIT_CAPACITY size; mret (u ++ [mk_buffer ∅ c 0])
      | None => c ← grow 52 UNDO_MEMORY_BUFFER_INIT_CAPACITY size; mret (u ++ [mk_buffer ∅ c 0])
      end;
  let i := (length u - 1)%nat in
  b ← load u i;
  b' ← moveCurrentPosition b size;
  mret (<[i := b']> u, (i, currentPosition b)).

(** [*reinterpret_cast<T*>(buffer) = value]. *)
Definition write (u : t) (p : nat * Z) (o : object) : outcome t :=
  b ← load u p.1;
  mret (<[p.1 := mk_buffer (<[p.2 := o]> (data b)) (capacity b) (currentPosition b)]> u).

Definition createRecord (u : t) (recordType : UndoRecordType) (r : record) : outcome t :=
  '(u, p) ← createUndoRecord u (sizeof_header + sizeof r);
  u ← write u p (Header recordType (sizeof r));
  write u (p.1, p.2 + sizeof_header) (Payload r).

Definition createCatalogEntry (u : t) (catalogSet catalogEntry : pointer) : outcome t :=
  createRecord u CATALOG_ENTRY (CatalogEntryRecord catalogSet catalogEntry).
Definition createSequenceChange (u : t) (sequenceEntry : pointer) (usageCount currVal : Z) : outcome t :=
  createRecord u SEQUENCE_ENTRY (SequenceEntryRecord sequenceEntry usageCount currVal).
Definition createVersionInfo (u : t) (recordType : UndoRecordType) (startRow numRows : Z)
    (versionRecordHandler : option pointer) (nodeGroupIdx : Z) : outcome t :=
  match versionRecordHandler with
  | None => Undef
  | Some h => createRecord u recordType (VersionRecord startRow numRows nodeGroupIdx h)
  end.
Definition createInsertInfo (u : t) (nodeGroupIdx startRow numRows : Z) (h : option pointer) : outcome t :=
  createVersionInfo u INSERT_INFO startRow numRows h nodeGroupIdx.
Definition createDeleteInfo (u : t) (nodeGroupIdx startRow numRows : Z) (h : option pointer) : outcome t :=
  createVersionInfo u DELETE_INFO startRow numRows h nodeGroupIdx.
Definition createVectorUpdateInfo (u : t) (updateInfo : pointer) (vectorIdx : Z) (vectorUpdateInfo : pointer) : outcome t :=
  createRecord u UPDATE_INFO (VectorUpdateRecord updateInfo vectorIdx vectorUpdateInfo).

(** ** Iteration *)

Definition read_header (b : UndoMemoryBuffer) (current : Z) : outcome (UndoRecordType * Z) :=
  match data b !! current with Some (Header ty size) => mret (ty, size) | _ => Undef end.
Definition read_record (b : UndoMemoryBuffer) (current : Z) : outcome record :=
  match data b !! current with Some (Payload r) => mret r | _ => Undef end.

Section replay.
Context {S : Type}.

(** A callback gets the type and the address of the record. *)
Definition callback := UndoRecordType -> UndoMemoryBuffer -> Z -> M S unit.

Fixpoint iterate_buffer (fuel : nat) (b : UndoMemoryBuffer) (current : Z) (f : callback) : M S unit :=
  if current <? currentPosition b then
    match fuel with
    | O => undef
    | Datatypes.S fuel =>
        '(recordType, recordSize) ← lift (read_header b current);
        let current := current + sizeof_header in
        f recordType b current;;
        iterate_buffer fuel b (current + recordSize) f
    end
  else mret tt.

(** Every record has at least eight bytes. *)
Definition fuel_of (b : UndoMemoryBuffer) : nat := Z.to_nat (currentPosition b / sizeof_header).

Fixpoint iterate (u : t) (f : callback) : M S unit :=
  match u with
  | [] => mret tt
  | currentBuffer :: u => iterate_buffer (fuel_of currentBuffer) currentBuffer 0 f;; iterate u f
  end.

(** The first loop of [reverseIterate]: the entries of a buffer. *)
Fixpoint collect_entries (fuel : nat) (b : UndoMemoryBuffer) (current : Z)
  : outcome (list (UndoRecordType * Z)) :=
  if current <? currentPosition b then
    match fuel with
    | O => Undef
    | Datatypes.S fuel =>
        '(recordType, recordSize) ← read_header b current;
        let current := current + sizeof_header in
        entries ← collect_entries fuel b (current + recordSize);
        mret ((recordType, current) :: entries)
    end
  else mret [].

Fixpoint call_all (b : UndoMemoryBuffer) (entries : list (UndoRecordType * Z)) (f : callback) : M S unit :=
  match entries with
  | [] => mret tt
  | (recordType, entry) :: entries => f recordType b entry;; call_all b entries f
  end.

Definition reverseIterate (u : t) (f : callback) : M S unit :=
  fold_right (fun currentBuffer next =>
    next;; (* the later buffers first *)
    entries ← lift (collect_entries (fuel_of currentBuffer) currentBuffer 0);
    call_all currentBuffer (rev entries) f) (mret tt) u.
End replay.

(** ** Commit and rollback *)

Section records.
Context {S : Type} `{UndoTargets S}.

Definition assert_some {A} (o : option A) : M S A :=
  match o with Some a => mret a | None => undef end.

Definition commitCatalogEntryRecord (catalogEntry : pointer) (commitTS : transaction_t) : M S unit :=
  next ← entry_getNext catalogEntry;
  newCatalogEntry ← assert_some next;
  entry_setTimestamp newCatalogEntry commitTS.

Definition commitRecord (commitTS : transaction_t) (recordType : UndoRecordType) (r : record) : M S unit :=
  match recordType, r with
  | CATALOG_ENTRY, CatalogEntryRecord _ catalogEntry => commitCatalogEntryRecord catalogEntry commitTS
  | SEQUENCE_ENTRY, SequenceEntryRecord _ _ _ => mret tt
  | INSERT_INFO, VersionRecord startRow numRows nodeGroupIdx h =>
      handler_commitInsert h nodeGroupIdx startRow numRows commitTS
  | DELETE_INFO, VersionRecord startRow numRows nodeGroupIdx h =>
      handler_commitDelete h nodeGroupIdx startRow numRows commitTS
  | UPDATE_INFO, VectorUpdateRecord _ _ vectorUpdateInfo => vectorInfo_setVersion vectorUpdateInfo commitTS
  | _, _ => undef
  end.

Definition rollbackCatalogEntryRecord (catalogSet catalogEntry : pointer) : M S unit :=
  next ← entry_getNext catalogEntry;
  entryToRollback ← assert_some next;
  newer ← entry_getNext entryToRollback;
  match newer with
  | Some newerEntry =>
      prev ← entry_movePrev entryToRollback;
      entry_setPrev newerEntry prev
  | None =>
      olderEntry ← entry_movePrev entryToRollback;
      name ← entry_getName catalogEntry;
      set_eraseNoLock catalogSet name;;
      match olderEntry with
      | Some olderEntry => set_emplaceNoLock catalogSet olderEntry
      | None => mret tt
      end
  end.

Definition rollbackVectorUpdateInfo (updateInfo : pointer) (vectorIdx : Z) (vectorUpdateInfo : pointer) : M S unit :=
  current ← updateInfo_getVectorInfo updateInfo vectorIdx;
  if negb (bool_decide (current = Some vectorUpdateInfo)) then mret tt
  else
    newer ← vectorInfo_getNext vectorUpdateInfo;
    match newer with
    | Some newerVersion =>
        prev ← vectorInfo_movePrev vectorUpdateInfo;
        prevVersion ← assert_some prev;
        vectorInfo_relink prevVersion newerVersion
    | None =>
        prev ← vectorInfo_movePrev vectorUpdateInfo;
        match prev with
        | Some prevVersion => updateInfo_setVectorInfo updateInfo vectorIdx prevVersion
        | None => updateInfo_clearVectorInfo updateInfo vectorIdx
        end
    end.

Definition rollbackRecord (recordType : UndoRecordType) (r : record) : M S unit :=
  match recordType, r with
  | CATALOG_ENTRY, CatalogEntryRecord catalogSet catalogEntry => rollbackCatalogEntryRecord catalogSet catalogEntry
  | SEQUENCE_ENTRY, SequenceEntryRecord sequenceEntry usageCount currVal =>
      sequence_rollbackVal sequenceEntry usageCount currVal
  | INSERT_INFO, VersionRecord startRow numRows nodeGroupIdx h => handler_rollbackInsert h nodeGroupIdx startRow numRows
  | DELETE_INFO, VersionRecord startRow numRows nodeGroupIdx h => handler_rollbackDelete h nodeGroupIdx startRow numRows
  | UPDATE_INFO, VectorUpdateRecord updateInfo vectorIdx vectorUpdateInfo =>
      rollbackVectorUpdateInfo updateInfo vectorIdx vectorUpdateInfo
  | _, _ => undef
  end.

Definition commit (u : t) (commitTS : transaction_t) : M S unit :=
  iterate u (fun recordType b entry => r ← lift (read_record b entry); commitRecord commitTS recordType r).

Definition rollback (u : t) : M S unit :=
  reverseIterate u (fun recordType b entry => r ← lift (read_record b entry); rollbackRecord recordType r).
End records.
End UndoBuffer.
