(* ===== verification/UndoBufferSpec.v ===== *)
(** What the undo buffer promises: every record is replayed exactly once, in
    order by a commit and in the opposite order by a rollback, however the records
    are spread over memory buffers. *)
From stdpp Require Import gmap.
From S2P Require Import Prelude Effects VersionInfo UndoBuffer.
Import UndoBuffer.
Local Open Scope Z_scope.

(** ** Layout *)

Definition entry : Type := UndoRecordType * record.

Fixpoint total (rs : list entry) : Z :=
  match rs with [] => 0 | e :: rs => sizeof_header + sizeof e.2 + total rs end.

(** The records [rs] lie in [m] from [off] on. *)
Fixpoint laid (m : gmap Z object) (off : Z) (rs : list entry) : Prop :=
  match rs with
  | [] => True
  | (ty, r) :: rs =>
      m !! off = Some (Header ty (sizeof r)) /\ m !! (off + sizeof_header) = Some (Payload r) /\
      laid m (off + sizeof_header + sizeof r) rs
  end.

Definition buffer_holds (b : UndoMemoryBuffer) (rs : list entry) : Prop :=
  laid (data b) 0 rs /\ currentPosition b = total rs /\ total rs <= capacity b.

Definition holds (u : UndoBuffer.t) (rs : list entry) : Prop :=
  exists rss, Forall2 buffer_holds u rss /\ concat rss = rs.

Lemma sizeof_pos r : 8 <= sizeof r <= 32.
Proof. destruct r; cbn; lia. Qed.

Lemma total_bound rs : 16 * Z.of_nat (length rs) <= total rs.
Proof.
  induction rs as [|[ty r] rs IH]; cbn [total length]; [lia|]. pose proof (sizeof_pos r). unfold sizeof_header. cbn. lia.
Qed.

Lemma total_app rs1 rs2 : total (rs1 ++ rs2) = total rs1 + total rs2.
Proof. induction rs1 as [|e rs1 IH]; cbn [total app]; [done|]. rewrite IH. lia. Qed.

Lemma laid_insert m off rs p o : off + total rs <= p -> laid m off rs -> laid (<[p := o]> m) off rs.
Proof.
  revert off. induction rs as [|[ty r] rs IH]; intros off Hp; [done|]. cbn [laid total] in *. cbn in Hp.
  pose proof (sizeof_pos r). pose proof (total_bound rs). unfold sizeof_header in *. intros (H1 & H2 & H3).
  rewrite !lookup_insert_ne by lia. split_and!; [done..|]. apply IH; [lia|done].
Qed.

Lemma laid_app m off rs1 rs2 : laid m off (rs1 ++ rs2) <-> laid m off rs1 /\ laid m (off + total rs1) rs2.
Proof.
  revert off. induction rs1 as [|[ty r] rs1 IH]; intros off; cbn [laid total app].
  - rewrite Z.add_0_r. tauto.
  - rewrite IH. cbn. rewrite !Z.add_assoc. tauto.
Qed.

(** ** Creating records *)

Lemma grow_fits fuel size : size <= UNDO_MEMORY_BUFFER_INIT_CAPACITY ->
  grow fuel UNDO_MEMORY_BUFFER_INIT_CAPACITY size = Ret UNDO_MEMORY_BUFFER_INIT_CAPACITY.
Proof. intros Hs. destruct fuel; cbn [grow]; by rewrite (proj2 (Z.leb_le _ _) Hs). Qed.

(** The last buffer takes the record, or a new one. *)
Lemma room u rs size :
  holds u rs -> 0 < size <= UNDO_MEMORY_BUFFER_INIT_CAPACITY ->
  exists us b rss brs, createUndoRecord u size =
      Ret (us ++ [mk_buffer (data b) (capacity b) (currentPosition b + size)], (length us, currentPosition b)) /\
    Forall2 buffer_holds us rss /\ buffer_holds b brs /\ concat rss ++ brs = rs /\
    currentPosition b + size <= capacity b.
Proof.
  intros (rss & Hu & Hrs) [Hpos Hfit]. unfold createUndoRecord.
  assert (forall us b, currentPosition b + size <= capacity b ->
    (let i := (length (us ++ [b]) - 1)%nat in
     b1 ← load (us ++ [b]) i; b' ← moveCurrentPosition b1 size;
     mret (<[i := b']> (us ++ [b]), (i, currentPosition b1))) =
    Ret (us ++ [mk_buffer (data b) (capacity b) (currentPosition b + size)], (length us, currentPosition b))) as Hrun.
  { intros us b Hc. cbv zeta. rewrite length_app. cbn [length].
    replace (length us + 1 - 1)%nat with (length us + 0)%nat by lia.
    rewrite (load_Ret _ _ b) by (by rewrite lookup_app_r, Nat.add_0_r, Nat.sub_diag by lia).
    unfold moveCurrentPosition. cbn [mbind outcome_bind]. rewrite ku_assert_true by by apply Z.leb_le.
    cbn [mbind outcome_bind mret outcome_ret]. rewrite insert_app_r. by rewrite Nat.add_0_r. }
  assert (forall us rss', Forall2 buffer_holds us rss' -> concat rss' = rs ->
    exists us' b rss brs, (c ← grow 52 UNDO_MEMORY_BUFFER_INIT_CAPACITY size;
       u ← mret (us ++ [mk_buffer ∅ c 0]);
       let i := (length u - 1)%nat in
       b ← load u i; b' ← moveCurrentPosition b size; mret (<[i := b']> u, (i, currentPosition b))) =
      Ret (us' ++ [mk_buffer (data b) (capacity b) (currentPosition b + size)], (length us', currentPosition b)) /\
      Forall2 buffer_holds us' rss /\ buffer_holds b brs /\ concat rss ++ brs = rs /\
      currentPosition b + size <= capacity b) as Hnew.
  { intros us rss' Hus Hcat. exists us, (mk_buffer ∅ UNDO_MEMORY_BUFFER_INIT_CAPACITY 0), rss', [].
    rewrite grow_fits by done. split_and!; [|done|done|by rewrite app_nil_r|cbn; lia].
    pose proof (Hrun us (mk_buffer ∅ UNDO_MEMORY_BUFFER_INIT_CAPACITY 0)) as Hr. cbn [capacity currentPosition] in Hr.
    exact (Hr ltac:(lia)). }
  destruct (last u) as [b|] eqn:El.
  - apply last_Some in El as [us ->]. apply Forall2_app_inv_l in Hu as (rss1 & rss2 & Hus & Hb & ->).
    apply Forall2_cons_inv_l in Hb as (brs & ? & Hb & ->%Forall2_nil_inv_l & ->).
    destruct (canFit b size) eqn:Ec.
    + apply Z.leb_le in Ec. exists us, b, rss1, brs. cbn [mbind outcome_bind mret outcome_ret].
      split_and!; [by apply Hrun|done|done| |done]. rewrite <-Hrs, concat_app. cbn. by rewrite app_nil_r.
    + destruct (Hnew (us ++ [b]) (rss1 ++ [brs])) as (us' & b' & rss & brs' & Hr & ?); [apply Forall2_app; [done|constructor; [done|constructor]]|done|].
      exists us', b', rss, brs'. split; [|done]. rewrite <-Hr. rewrite grow_fits by done. done.
  - apply last_None in El as ->. destruct (Hnew [] rss) as (us' & b' & rss' & brs' & Hr & ?); [done|done|].
    exists us', b', rss', brs'. split; [|done]. rewrite <-Hr. rewrite grow_fits by done. done.
Qed.

Lemma write_last us b p o :
  write (us ++ [b]) (length us, p) o = Ret (us ++ [mk_buffer (<[p := o]> (data b)) (capacity b) (currentPosition b)]).
Proof.
  unfold write. cbn [fst snd]. rewrite <-(Nat.add_0_r (length us)).
  rewrite (load_Ret _ _ b) by (by rewrite lookup_app_r, Nat.add_0_r, Nat.sub_diag by lia).
  cbn [mbind outcome_bind mret outcome_ret]. f_equal. exact (insert_app_r us [b] 0 _).
Qed.

Lemma createRecord_holds u rs ty r :
  holds u rs -> exists u', createRecord u ty r = Ret u' /\ holds u' (rs ++ [(ty, r)]).
Proof.
  intros Hu. pose proof (sizeof_pos r) as Hsz. unfold createRecord.
  destruct (room u rs (sizeof_header + sizeof r) Hu) as (us & b & rss & brs & -> & Hus & (Hl & Hc & Hcap) & Hrs & Hfit).
  { unfold sizeof_header, UNDO_MEMORY_BUFFER_INIT_CAPACITY. lia. }
  cbn [mbind outcome_bind]. rewrite write_last. cbn [mbind outcome_bind]. cbn [fst snd].
  rewrite write_last. eexists. split; [done|]. exists (rss ++ [brs ++ [(ty, r)]]). split.
  - apply Forall2_app; [done|]. constructor; [|constructor]. unfold buffer_holds. cbn [data capacity currentPosition].
    rewrite total_app. cbn [total snd]. split_and!; [|rewrite Hc; lia|rewrite <-Hc; lia].
    apply laid_app. split.
    + apply laid_insert; [rewrite Hc; unfold sizeof_header; lia|]. apply laid_insert; [lia|done].
    + rewrite Z.add_0_l. cbn [laid]. rewrite Hc.
      rewrite lookup_insert_ne by (unfold sizeof_header; lia). rewrite !lookup_insert_eq. done.
  - rewrite concat_app. cbn. by rewrite app_nil_r, app_assoc, Hrs.
Qed.

(** ** Replaying *)

Section replay.
Context {S : Type}.
Implicit Types (g : UndoRecordType -> record -> M S unit) (s : S).

Fixpoint run_all (ms : list (M S unit)) : M S unit :=
  match ms with [] => mret tt | m :: ms => m;; run_all ms end.

Lemma run_all_app ms1 ms2 s : run_all (ms1 ++ ms2) s = (run_all ms1;; run_all ms2) s.
Proof.
  revert s. induction ms1 as [|m ms1 IH]; intros s; [done|]. cbn [run_all app]. unfold mbind, M_bind.
  destruct (m s) as [[[]|e|] s']; [|done..]. apply IH.
Qed.

Definition reading g : callback := fun ty b p => r ← lift (read_record b p); g ty r.

Definition actions g (rs : list entry) : list (M S unit) := map (fun e => g e.1 e.2) rs.

Lemma iterate_buffer_run g fuel b off rs s :
  laid (data b) off rs -> off + total rs = currentPosition b -> (length rs <= fuel)%nat ->
  iterate_buffer fuel b off (reading g) s = run_all (actions g rs) s.
Proof.
  revert off rs s. induction fuel as [|fuel IH]; intros off [|[ty r] rs] s Hl Ht Hf; cbn [iterate_buffer].
  - rewrite (proj2 (Z.ltb_ge _ _)) by (cbn in Ht; lia). done.
  - cbn in Hf. lia.
  - rewrite (proj2 (Z.ltb_ge _ _)) by (cbn in Ht; lia). done.
  - destruct Hl as (H1 & H2 & H3). cbn [total snd] in Ht. pose proof (sizeof_pos r). pose proof (total_bound rs).
    rewrite (proj2 (Z.ltb_lt _ _)) by (unfold sizeof_header in *; lia).
    unfold read_header. rewrite H1. cbn [actions map run_all]. unfold mbind, M_bind, lift at 1. cbn [mret outcome_ret].
    unfold reading at 1, mbind, M_bind, lift, read_record. rewrite H2. cbn [mret outcome_ret fst snd].
    destruct (g ty r s) as [[[]|e|] s']; [|done..]. apply IH; [done|unfold sizeof_header in *; lia|cbn in Hf; lia].
Qed.

Lemma fuel_enough b rs : currentPosition b = total rs -> (length rs <= fuel_of b)%nat.
Proof.
  intros E. unfold fuel_of. rewrite E. pose proof (total_bound rs). unfold sizeof_header.
  assert (Z.of_nat (length rs) <= total rs / 8) by (apply Z.div_le_lower_bound; lia). lia.
Qed.

Lemma iterate_run g u rs s : holds u rs -> iterate u (reading g) s = run_all (actions g rs) s.
Proof.
  intros (rss & Hu & <-). revert s. induction Hu as [|b brs u rss (Hl & Hc & _) Hu IH]; intros s; [done|].
  cbn [iterate concat]. unfold actions. rewrite map_app, run_all_app. unfold mbind, M_bind.
  rewrite (iterate_buffer_run g _ b 0 brs) by (done || lia || by apply fuel_enough).
  unfold actions. destruct (run_all _ s) as [[[]|e|] s']; [|done..]. apply IH.
Qed.

(** The addresses of the records. *)
Fixpoint addresses (off : Z) (rs : list entry) : list (UndoRecordType * Z) :=
  match rs with
  | [] => []
  | (ty, r) :: rs => (ty, off + sizeof_header) :: addresses (off + sizeof_header + sizeof r) rs
  end.

Lemma collect_run fuel b off rs :
  laid (data b) off rs -> off + total rs = currentPosition b -> (length rs <= fuel)%nat ->
  collect_entries fuel b off = Ret (addresses off rs).
Proof.
  revert off rs. induction fuel as [|fuel IH]; intros off [|[ty r] rs] Hl Ht Hf; cbn [collect_entries].
  - by rewrite (proj2 (Z.ltb_ge _ _)) by (cbn in Ht; lia).
  - cbn in Hf. lia.
  - by rewrite (proj2 (Z.ltb_ge _ _)) by (cbn in Ht; lia).
  - destruct Hl as (H1 & H2 & H3). cbn [total snd] in Ht. pose proof (sizeof_pos r). pose proof (total_bound rs).
    rewrite (proj2 (Z.ltb_lt _ _)) by (unfold sizeof_header in *; lia).
    unfold read_header. rewrite H1. cbn [mbind outcome_bind mret outcome_ret].
    rewrite (IH _ rs) by (done || (unfold sizeof_header in *; lia) || (cbn in Hf; lia)). done.
Qed.

Lemma call_all_app b l1 l2 (f : callback (S := S)) s : call_all b (l1 ++ l2) f s = (call_all b l1 f;; call_all b l2 f) s.
Proof.
  revert s. induction l1 as [|[ty p] l1 IH]; intros s; [done|]. cbn [call_all app]. unfold mbind, M_bind.
  destruct (f ty b p s) as [[[]|e|] s']; [|done..]. apply IH.
Qed.

Lemma call_back_run g b off rs s :
  laid (data b) off rs -> call_all b (rev (addresses off rs)) (reading g) s = run_all (actions g (rev rs)) s.
Proof.
  revert off s. induction rs as [|[ty r] rs IH]; intros off s Hl; [done|]. destruct Hl as (H1 & H2 & H3).
  cbn [addresses rev]. unfold actions. rewrite call_all_app, map_app, run_all_app. unfold mbind, M_bind.
  rewrite (IH _ s H3). unfold actions. destruct (run_all _ s) as [[[]|e|] s']; [|done..].
  cbn [call_all map run_all fst snd]. unfold reading, mbind, M_bind, lift, read_record. rewrite H2. done.
Qed.

Lemma reverseIterate_run g u rs s : holds u rs -> reverseIterate u (reading g) s = run_all (actions g (rev rs)) s.
Proof.
  intros (rss & Hu & <-). revert s. induction Hu as [|b brs u rss (Hl & Hc & _) Hu IH]; intros s; [done|].
  unfold reverseIterate in *. cbn [fold_right concat]. rewrite rev_app_distr. unfold actions.
  rewrite map_app, run_all_app. apply bind_ext; [exact IH|]. intros [] s'.
  unfold mbind, M_bind, lift. rewrite (collect_run _ b 0 brs) by (done || lia || by apply fuel_enough).
  by apply call_back_run.
Qed.
End replay.

(** ** The operations *)

Inductive operation :=
| op_catalogEntry (catalogSet catalogEntry : pointer)
| op_sequenceChange (sequenceEntry : pointer) (usageCount currVal : Z)
| op_insertInfo (nodeGroupIdx startRow numRows : Z) (h : pointer)
| op_deleteInfo (nodeGroupIdx startRow numRows : Z) (h : pointer)
| op_vectorUpdateInfo (updateInfo : pointer) (vectorIdx : Z) (vectorUpdateInfo : pointer).

Definition create (u : UndoBuffer.t) (o : operation) : outcome UndoBuffer.t :=
  match o with
  | op_catalogEntry c e => createCatalogEntry u c e
  | op_sequenceChange e n v => createSequenceChange u e n v
  | op_insertInfo g i n h => createInsertInfo u g i n (Some h)
  | op_deleteInfo g i n h => createDeleteInfo u g i n (Some h)
  | op_vectorUpdateInfo i n v => createVectorUpdateInfo u i n v
  end.

Fixpoint createAll (u : UndoBuffer.t) (ops : list operation) : outcome UndoBuffer.t :=
  match ops with [] => mret u | o :: ops => u ← create u o; createAll u ops end.

Section operations.
Context {S : Type} `{UndoTargets S}.

(** What each operation does when the transaction ends. *)
Definition on_commit (ts : transaction_t) (o : operation) : M S unit :=
  match o with
  | op_catalogEntry _ e => commitCatalogEntryRecord e ts
  | op_sequenceChange _ _ _ => mret tt
  | op_insertInfo g i n h => handler_commitInsert h g i n ts
  | op_deleteInfo g i n h => handler_commitDelete h g i n ts
  | op_vectorUpdateInfo _ _ v => vectorInfo_setVersion v ts
  end.

Definition on_rollback (o : operation) : M S unit :=
  match o with
  | op_catalogEntry c e => rollbackCatalogEntryRecord c e
  | op_sequenceChange e n v => sequence_rollbackVal e n v
  | op_insertInfo g i n h => handler_rollbackInsert h g i n
  | op_deleteInfo g i n h => handler_rollbackDelete h g i n
  | op_vectorUpdateInfo i n v => rollbackVectorUpdateInfo i n v
  end.

Definition entry_of (o : operation) : entry :=
  match o with
  | op_catalogEntry c e => (CATALOG_ENTRY, CatalogEntryRecord c e)
  | op_sequenceChange e n v => (SEQUENCE_ENTRY, SequenceEntryRecord e n v)
  | op_insertInfo g i n h => (INSERT_INFO, VersionRecord i n g h)
  | op_deleteInfo g i n h => (DELETE_INFO, VersionRecord i n g h)
  | op_vectorUpdateInfo i n v => (UPDATE_INFO, VectorUpdateRecord i n v)
  end.

Lemma createAll_holds u rs ops :
  holds u rs -> exists u', createAll u ops = Ret u' /\ holds u' (rs ++ map entry_of ops).
Proof.
  revert u rs. induction ops as [|o ops IH]; intros u rs Hu.
  - exists u. by rewrite app_nil_r.
  - cbn [createAll map].
    assert (exists u1, create u o = Ret u1 /\ holds u1 (rs ++ [entry_of o])) as (u1 & -> & H1)
      by (destruct o; by apply createRecord_holds).
    cbn [mbind outcome_bind]. destruct (IH u1 _ H1) as (u2 & -> & H2). exists u2. by rewrite <-app_assoc in H2.
Qed.

(** C24. The undo buffer replays exactly what was recorded: after any sequence
    of recorded operations, of any length and over any number of memory buffers,
    no record was lost or overwritten and no read leaves the type or the place of
    what was written; a commit runs each operation's commit action once, in the
    order of the operations, a rollback each one's rollback action once, in the
    opposite order, and both stop at the first action that throws. *)
Theorem undo_replays ops :
  exists u, createAll [] ops = Ret u /\
    (forall ts s, commit u ts s = run_all (map (on_commit ts) ops) s) /\
    (forall s, rollback u s = run_all (map on_rollback (rev ops)) s).
Proof.
  destruct (createAll_holds [] [] ops) as (u & Hu & Hh); [by exists []|]. exists u. split; [done|]. cbn in Hh. split.
  - intros ts s. change (commit u ts) with (iterate u (reading (commitRecord ts))).
    rewrite (iterate_run _ _ _ _ Hh). unfold actions. rewrite map_map. f_equal. apply map_ext. by intros [].
  - intros s. change (rollback u) with (reverseIterate u (reading rollbackRecord)).
    rewrite (reverseIterate_run _ _ _ _ Hh). unfold actions. rewrite <-map_rev, map_map.
    f_equal. apply map_ext. by intros [].
Qed.
End operations.
