(* ===== verification/Sequence.v ===== *)
(** Sequences ([catalog/catalog_entry/sequence_catalog_entry.cpp]): the next
    value with bounds, cycles and overflow, batches with their undo record, and
    serialisation. Values are [int64_t]; the usage count is [uint64_t]. *)
From S2P Require Import Prelude Effects Serializer UndoBuffer.
Local Open Scope Z_scope.

Definition INT64_MIN : Z := - 2 ^ 63.
Definition INT64_MAX : Z := 2 ^ 63 - 1.
Definition is_int64 (z : Z) : bool := (INT64_MIN <=? z) && (z <=? INT64_MAX).

(** [function::Add::operation] on [int64_t]. *)
Definition add_int64 (left right : Z) : outcome Z :=
  if is_int64 (left + right) then mret (left + right)
  else Throw (OverflowException "Value {} is not within INT64 range.").

Module Sequence.
Record SequenceData := mk {
  usageCount : Z;
  currVal : Z;
  increment : Z;
  startValue : Z;
  minValue : Z;
  maxValue : Z;
  cycle : bool;
}.

(** From the bound CREATE SEQUENCE statement. *)
Definition make (startWith increment minValue maxValue : Z) (cycle : bool) : SequenceData :=
  mk 0 startWith increment startWith minValue maxValue cycle.

(** A number of the statement, as [CastString::tryCast] reads it. *)
Inductive literal := Omitted | OutOfBounds | Literal (value : Z).

Definition cast_literal (l : literal) (default : Z) : outcome Z :=
  match l with
  | Omitted => mret default
  | OutOfBounds => Throw (BinderException "Out of bounds: SEQUENCE accepts integers within INT64.")
  | Literal z => mret z
  end.

(** [Binder::bindCreateSequence], without the lookup of the name. *)
Definition bindCreateSequence (startWith increment minValue maxValue : literal) (cycle : bool)
  : outcome SequenceData :=
  increment ← cast_literal increment 0;
  if increment =? 0 then Throw (BinderException "INCREMENT must be non-zero.") else
  minValue ← cast_literal minValue (if 0 <? increment then 1 else INT64_MIN);
  maxValue ← cast_literal maxValue (if 0 <? increment then INT64_MAX else - 1);
  startWith ← cast_literal startWith (if 0 <? increment then minValue else maxValue);
  if maxValue <? minValue
  then Throw (BinderException "SEQUENCE MAXVALUE should be greater than or equal to MINVALUE.") else
  if (startWith <? minValue) || (maxValue <? startWith)
  then Throw (BinderException "SEQUENCE START value should be between MINVALUE and MAXVALUE.") else
  mret (make startWith increment minValue maxValue cycle).

Definition with_values (d : SequenceData) (usageCount currVal : Z) : SequenceData :=
  mk usageCount currVal (increment d) (startValue d) (minValue d) (maxValue d) (cycle d).

Definition MIN_MSG : string := "nextval: reached minimum value of sequence".
Definition MAX_MSG : string := "nextval: reached maximum value of sequence".

Definition nextValNoLock : M SequenceData unit :=
  d ← get;
  if usageCount d =? 0 then modify (fun d => with_values d (u64 (usageCount d + 1)) (currVal d))
  else
    let '(overflow, next) :=
      match add_int64 (currVal d) (increment d) with
      | Ret next => (false, next)
      | _ => (true, currVal d)
      end in
    next ←
      if cycle d then
        mret (if overflow : bool then (if increment d <? 0 then maxValue d else minValue d)
              else if next <? minValue d then maxValue d
              else if maxValue d <? next then minValue d
              else next)
      else
        let minError := if overflow then increment d <? 0 else next <? minValue d in
        let maxError := if overflow then 0 <? increment d else maxValue d <? next in
        if minError then throw (CatalogException MIN_MSG)
        else if maxError then throw (CatalogException MAX_MSG)
        else mret next;
    modify (fun d => with_values d (u64 (usageCount d + 1)) next).

(** [for (i = 0; i < count; i++) { nextValNoLock(); resultVector[i] = currVal; }]. *)
Fixpoint nextVals (count : nat) : M SequenceData (list Z) :=
  match count with
  | O => mret []
  | S count =>
      nextValNoLock;;
      v ← gets currVal;
      vs ← nextVals count;
      mret (v :: vs)
  end.

(** The sequence and the undo buffer of the transaction; the record is pushed
    when the batch is done. *)
Definition nextKVal (self : pointer) (count : nat) : M (SequenceData * UndoBuffer.t) (list Z) := fun s =>
  let '(d, undo) := s in
  match ku_assert (0 <? Z.of_nat count) with
  | Ret _ =>
      match nextVals count d with
      | (Ret vs, d') =>
          match UndoBuffer.createSequenceChange undo self (usageCount d) (currVal d) with
          | Ret undo' => (Ret vs, (d', undo'))
          | Throw e => (Throw e, (d', undo))
          | Undef => (Undef, (d', undo))
          end
      | (Throw e, d') => (Throw e, (d', undo))
      | (Undef, d') => (Undef, (d', undo))
      end
  | _ => (Undef, s)
  end.

Definition rollbackVal (d : SequenceData) (usageCount currVal : Z) : SequenceData := with_values d usageCount currVal.

(** The fields after those of [CatalogEntry::serialize]. *)
Definition serialize (d : SequenceData) : bytes :=
  Serializer.serialize u64_codec (usageCount d) ++ Serializer.serialize i64_codec (currVal d) ++
  Serializer.serialize i64_codec (increment d) ++ Serializer.serialize i64_codec (startValue d) ++
  Serializer.serialize i64_codec (minValue d) ++ Serializer.serialize i64_codec (maxValue d) ++
  Serializer.serialize bool_codec (cycle d).

Definition deserialize : reader SequenceData := fun bs =>
  '(usageCount, bs) ← Serializer.deserialize u64_codec bs;
  '(currVal, bs) ← Serializer.deserialize i64_codec bs;
  '(increment, bs) ← Serializer.deserialize i64_codec bs;
  '(startValue, bs) ← Serializer.deserialize i64_codec bs;
  '(minValue, bs) ← Serializer.deserialize i64_codec bs;
  '(maxValue, bs) ← Serializer.deserialize i64_codec bs;
  '(cycle, bs) ← Serializer.deserialize bool_codec bs;
  mret (mk usageCount currVal increment startValue minValue maxValue cycle, bs).
End Sequence.
