(* ===== verification/SequenceSpec.v ===== *)
(** What sequences promise: the values between the bounds and in order, the
    state before a transaction back after its rollback, and a serialisation that
    reads back. *)
From stdpp Require Import gmap.
From S2P Require Import Prelude Effects Serializer UndoBuffer UndoBufferSpec Sequence.
Import Sequence.
Local Open Scope Z_scope.

Definition literal_ok (l : literal) : Prop := match l with Literal z => is_int64 z = true | _ => True end.

(** What [bindCreateSequence] establishes and every operation keeps. *)
Definition wf (d : SequenceData) : Prop :=
  INT64_MIN <= minValue d <= currVal d /\ currVal d <= maxValue d <= INT64_MAX /\
  increment d <> 0 /\ is_int64 (increment d) = true /\ is_int64 (startValue d) = true /\
  0 <= usageCount d < 2 ^ 64 - 1.

(** The next value over the mathematical integers. *)
Definition next_value (d : SequenceData) : outcome Z :=
  if usageCount d =? 0 then Ret (currVal d)
  else
    let n := currVal d + increment d in
    if (minValue d <=? n) && (n <=? maxValue d) then Ret n
    else if cycle d then Ret (if 0 <? increment d then minValue d else maxValue d)
    else Throw (CatalogException (if 0 <? increment d then MAX_MSG else MIN_MSG)).

Lemma add_in l r : is_int64 (l + r) = true -> add_int64 l r = Ret (l + r).
Proof. unfold add_int64. by intros ->. Qed.

Ltac sequence_cases :=
  repeat match goal with
  | |- context [?x <? ?y] => destruct (Z.ltb_spec x y); cbn [andb negb]; try lia
  | |- context [?x <=? ?y] => destruct (Z.leb_spec x y); cbn [andb negb]; try lia
  end.

Lemma nextValNoLock_run d : wf d ->
  nextValNoLock d = match next_value d with
                    | Ret v => (Ret tt, with_values d (usageCount d + 1) v)
                    | Throw e => (Throw e, d)
                    | Undef => (Undef, d)
                    end.
Proof.
  intros (Hmin & Hmax & Hinc & _ & _ & Hu). unfold nextValNoLock, next_value, mbind, M_bind, get, modify, u64.
  cbv beta. destruct (Z.eqb_spec (usageCount d) 0) as [E|E]; [by rewrite wrap_small by lia|].
  unfold add_int64, is_int64, throw, mret, outcome_ret, M_ret. cbn zeta.
  destruct (cycle d); sequence_cases; cbn [orb]; try done; rewrite wrap_small by lia; f_equal; f_equal; lia.
Qed.

(** ** Bounds *)

Lemma bind_wf startWith increment minValue maxValue cycle d :
  literal_ok startWith -> literal_ok increment -> literal_ok minValue -> literal_ok maxValue ->
  bindCreateSequence startWith increment minValue maxValue cycle = Ret d -> wf d /\ usageCount d = 0.
Proof.
  intros Hs Hi Hmi Hma. unfold bindCreateSequence.
  assert (forall l z z', literal_ok l -> is_int64 z = true -> cast_literal l z = Ret z' -> is_int64 z' = true) as Hlit.
  { intros [| |z] z0 z' Hl Hz; cbn; intros [= <-]; done. }
  assert (is_int64 1 = true /\ is_int64 (-1) = true /\ is_int64 0 = true /\
          is_int64 INT64_MIN = true /\ is_int64 INT64_MAX = true) as (C1 & C2 & C3 & C4 & C5) by done.
  intros Hb. apply outcome_bind_Ret_inv in Hb as (inc & Einc & Hb). apply Hlit in Einc; [|done..].
  destruct (Z.eqb_spec inc 0) as [|Hne]; [done|].
  apply outcome_bind_Ret_inv in Hb as (mi & Emi & Hb). apply Hlit in Emi; [|done|by destruct (0 <? inc)].
  apply outcome_bind_Ret_inv in Hb as (ma & Ema & Hb). apply Hlit in Ema; [|done|by destruct (0 <? inc)].
  apply outcome_bind_Ret_inv in Hb as (st & Est & Hb). apply Hlit in Est; [|done|by destruct (0 <? inc)].
  destruct (Z.ltb_spec ma mi); [done|]. destruct (Z.ltb_spec st mi); [done|]. destruct (Z.ltb_spec ma st); [done|].
  injection Hb as <-. unfold wf, is_int64, make in *. cbn. bool_to_prop. repeat split; try lia; by apply andb_true_iff; rewrite !Z.leb_le.
Qed.

Lemma wf_with_values d n v :
  wf d -> 0 <= n < 2 ^ 64 - 1 -> minValue d <= v <= maxValue d -> wf (with_values d n v).
Proof. unfold wf. cbn [with_values minValue maxValue currVal increment startValue usageCount]. intros (? & ? & ? & ? & ? & ?) ? ?. split_and!; done || lia. Qed.

Lemma next_value_bounds d v : wf d -> next_value d = Ret v -> minValue d <= v <= maxValue d.
Proof.
  intros (Hmin & Hmax & Hinc & _). unfold next_value.
  destruct (Z.eqb_spec (usageCount d) 0); [intros [= <-]; lia|]. cbn zeta.
  destruct (Z.leb_spec (minValue d) (currVal d + increment d)), (Z.leb_spec (currVal d + increment d) (maxValue d));
    cbn [andb]; try (intros [= <-]; lia); destruct (cycle d); try done; destruct (0 <? increment d); intros [= <-]; lia.
Qed.

(** The state after [k] calls, whether they returned or threw. *)
Definition after_calls (k : nat) (d : SequenceData) : SequenceData :=
  Nat.iter k (fun d => (nextValNoLock d).2) d.

Lemma after_calls_wf k d : wf d -> usageCount d + Z.of_nat k < 2 ^ 64 - 1 ->
  wf (after_calls k d) /\ 0 <= usageCount (after_calls k d) <= usageCount d + Z.of_nat k.
Proof.
  intros Hd. induction k as [|k IH]; intros Hk; [cbn; unfold wf in Hd; split; [done|lia]|].
  destruct IH as (Hw & Hu); [lia|]. change (after_calls (S k) d) with (nextValNoLock (after_calls k d)).2.
  rewrite nextValNoLock_run by done. destruct (next_value _) as [v| |] eqn:E; cbn [snd]; [|split; [done|lia]..].
  apply next_value_bounds in E; [|done]. split; [apply wf_with_values; [done|lia|done]|cbn; lia].
Qed.

(** C28. A sequence never leaves its bounds: whatever CREATE SEQUENCE is accepted
    and however often it is called, including the calls that threw, the current
    value lies between the minimum and the maximum, and the next call does what it
    means over the integers: the first one keeps the start value, the others add
    the increment; past the bound (also when the sum leaves [int64_t]) a cycling
    sequence goes on at the opposite bound, and any other throws the message of
    the bound it hit and changes nothing. *)
Theorem sequence_next startWith inc minV maxV cyc d k :
  literal_ok startWith -> literal_ok inc -> literal_ok minV -> literal_ok maxV ->
  bindCreateSequence startWith inc minV maxV cyc = Ret d -> Z.of_nat k < 2 ^ 64 - 1 ->
  let d' := after_calls k d in
  minValue d' <= currVal d' <= maxValue d' /\
  nextValNoLock d' = match next_value d' with
                     | Ret v => (Ret tt, with_values d' (usageCount d' + 1) v)
                     | Throw e => (Throw e, d')
                     | Undef => (Undef, d')
                     end.
Proof.
  intros Hs Hi Hmi Hma Hb Hk. apply bind_wf in Hb as (Hw & Hu); [|done..].
  destruct (after_calls_wf k d Hw) as (Hw' & _); [lia|]. cbn zeta. split; [unfold wf in Hw'; lia|].
  by apply nextValNoLock_run.
Qed.

(** A sequence that is nearly at the end of its type. *)
Definition example_data : SequenceData := mk 0 (INT64_MAX - 1) 3 (INT64_MAX - 1) (-5) INT64_MAX true.

Lemma sequence_next_witness :
  bindCreateSequence (Literal (INT64_MAX - 1)) (Literal 3) (Literal (-5)) Omitted true = Ret example_data /\
  nextValNoLock (after_calls 1 example_data) = (Ret tt, with_values example_data 2 (-5)).
Proof.
  split; [reflexivity|].
  assert (bindCreateSequence (Literal (INT64_MAX - 1)) (Literal 3) (Literal (-5)) Omitted true = Ret example_data) as Hb
    by reflexivity.
  destruct (sequence_next (Literal (INT64_MAX - 1)) (Literal 3) (Literal (-5)) Omitted true example_data 1
    ltac:(vm_compute; reflexivity) ltac:(vm_compute; reflexivity) ltac:(vm_compute; reflexivity) I Hb ltac:(lia)) as (_ & E).
  rewrite E. reflexivity.
Defined.

(** ** Batches *)

(** The value the next call gives when it stays in the bounds. *)
Definition first_value (d : SequenceData) : Z :=
  if usageCount d =? 0 then currVal d else currVal d + increment d.

Definition nth_value (d : SequenceData) (i : Z) : Z := first_value d + i * increment d.
Definition value_ok (d : SequenceData) (i : Z) : Prop := minValue d <= nth_value d i <= maxValue d.

(** After [n] values. *)
Definition advance (d : SequenceData) (n : nat) : SequenceData :=
  match n with
  | O => d
  | S m => with_values d (usageCount d + Z.of_nat n) (nth_value d (Z.of_nat m))
  end.

Definition values (d : SequenceData) (n : nat) : list Z := map (fun i => nth_value d (Z.of_nat i)) (seq 0 n).

Lemma next_value_first d : wf d -> cycle d = false ->
  next_value d = if (minValue d <=? first_value d) && (first_value d <=? maxValue d) then Ret (first_value d)
                 else Throw (CatalogException (if 0 <? increment d then MAX_MSG else MIN_MSG)).
Proof.
  intros (Hmin & Hmax & _) Hc. unfold next_value, first_value. rewrite Hc.
  destruct (usageCount d =? 0); [|done].
  by rewrite (proj2 (Z.leb_le _ _)), (proj2 (Z.leb_le _ _)) by lia.
Qed.

Lemma nth_value_S d i : usageCount d >= 0 -> nth_value (advance d 1) (Z.of_nat i) = nth_value d (Z.of_nat (S i)).
Proof.
  intros Hu. unfold nth_value at 1, first_value. cbn [advance with_values usageCount currVal increment].
  rewrite (proj2 (Z.eqb_neq _ _)) by lia. unfold nth_value. rewrite Nat2Z.inj_succ. change (Z.of_nat 0) with 0. lia.
Qed.

Lemma advance_advance d n : usageCount d >= 0 -> advance (advance d 1) n = advance d (S n).
Proof.
  intros Hu. destruct n as [|n]; [done|]. pose proof (nth_value_S d n Hu) as E. cbn [advance] in *. rewrite E.
  unfold with_values. cbn [usageCount currVal increment startValue minValue maxValue cycle]. f_equal. lia.
Qed.

Lemma values_S d n : usageCount d >= 0 -> values d (S n) = first_value d :: values (advance d 1) n.
Proof.
  intros Hu. unfold values. cbn [seq map]. f_equal; [unfold nth_value; lia|].
  rewrite <-seq_shift, map_map. apply map_ext. intros i. symmetry. by apply nth_value_S.
Qed.

(** Either all values of the batch are in the bounds, or the first one outside
    ends it. *)
Lemma nextVals_run n more d :
  wf d -> cycle d = false -> usageCount d + Z.of_nat n < 2 ^ 64 - 1 ->
  (forall i, (i < n)%nat -> value_ok d (Z.of_nat i)) -> (more = O \/ ~ value_ok d (Z.of_nat n)) ->
  nextVals (n + more) d =
    (match more with
     | O => Ret (values d n)
     | S _ => Throw (CatalogException (if 0 <? increment d then MAX_MSG else MIN_MSG))
     end, advance d n).
Proof.
  revert d. induction n as [|n IH]; intros d Hd Hc Hu Hok Hmore.
  - destruct more as [|more]; [done|]. destruct Hmore as [|Hbad]; [done|]. cbn [Nat.add nextVals advance].
    unfold mbind, M_bind. rewrite nextValNoLock_run, next_value_first by done.
    unfold value_ok, nth_value in Hbad. change (Z.of_nat 0) with 0 in Hbad. rewrite Z.mul_0_l, Z.add_0_r in Hbad.
    destruct (Z.leb_spec (minValue d) (first_value d)), (Z.leb_spec (first_value d) (maxValue d)); cbn [andb]; done || lia.
  - pose proof (Hok 0%nat ltac:(lia)) as H0. unfold value_ok, nth_value in H0.
    change (Z.of_nat 0) with 0 in H0. rewrite Z.mul_0_l, Z.add_0_r in H0. pose proof Hd as (_ & _ & _ & _ & _ & Hr).
    cbn [Nat.add nextVals]. unfold mbind, M_bind. rewrite nextValNoLock_run, next_value_first by done.
    rewrite (proj2 (Z.leb_le _ _)), (proj2 (Z.leb_le _ _)) by lia. cbn [andb gets].
    assert (with_values d (usageCount d + 1) (first_value d) = advance d 1) as ->.
    { cbn [advance]. f_equal. unfold nth_value. lia. }
    rewrite IH.
    + rewrite advance_advance by lia. rewrite values_S by lia.
      assert (currVal (advance d 1) = first_value d) as -> by (cbn; unfold nth_value; lia). by destruct more.
    + apply wf_with_values; [done|lia|]. apply (Hok 0%nat). lia.
    + done.
    + cbn [advance with_values usageCount]. lia.
    + intros i Hi. pose proof (Hok (S i) ltac:(lia)) as Hv. unfold value_ok in *. by rewrite nth_value_S by lia.
    + destruct Hmore as [|Hbad]; [by left|right]. unfold value_ok in *. by rewrite nth_value_S by lia.
Qed.

(** What a batch of [nextval] calls of a statement gives, for a sequence
    without cycle: the values of the arithmetic progression, if all are in the
    bounds, with one undo record that holds the state before the batch; a batch
    that runs past the bound throws, but the values before the bound stay consumed
    and the undo buffer has no record of them, so that rolling back the failed
    statement does not give them back. *)
Theorem batch_outcome self d u rs n :
  wf d -> cycle d = false -> usageCount d + Z.of_nat n < 2 ^ 64 - 1 -> holds u rs ->
  (forall i, (i < n)%nat -> value_ok d (Z.of_nat i)) ->
  ((0 < n)%nat -> exists u', nextKVal self n (d, u) = (Ret (values d n), (advance d n, u')) /\
     holds u' (rs ++ [(UndoBuffer.SEQUENCE_ENTRY, UndoBuffer.SequenceEntryRecord self (usageCount d) (currVal d))])) /\
  (~ value_ok d (Z.of_nat n) -> forall more, (0 < more)%nat ->
     nextKVal self (n + more) (d, u) =
       (Throw (CatalogException (if 0 <? increment d then MAX_MSG else MIN_MSG)), (advance d n, u))).
Proof.
  intros Hd Hc Hu Hh Hok. unfold nextKVal. split.
  - intros Hn. rewrite (proj2 (Z.ltb_lt _ _)) by lia. cbn [ku_assert].
    pose proof (nextVals_run n 0 d Hd Hc Hu Hok (or_introl eq_refl)) as Hrun. rewrite Nat.add_0_r in Hrun. rewrite Hrun.
    destruct (createRecord_holds u rs UndoBuffer.SEQUENCE_ENTRY
      (UndoBuffer.SequenceEntryRecord self (usageCount d) (currVal d)) Hh) as (u' & E & Hh').
    unfold UndoBuffer.createSequenceChange. rewrite E. by exists u'.
  - intros Hbad more Hm. rewrite (proj2 (Z.ltb_lt _ _)) by lia. cbn [ku_assert].
    rewrite (nextVals_run n more d Hd Hc Hu Hok (or_intror Hbad)). destruct more; [lia|done].
Qed.

(** Three values left, five asked for. *)
Definition short_data : SequenceData := mk 1 (INT64_MAX - 7) 2 0 0 INT64_MAX false.

Lemma batch_outcome_witness :
  nextKVal 7 5 (short_data, []) = (Throw (CatalogException MAX_MSG), (mk 4 (INT64_MAX - 1) 2 0 0 INT64_MAX false, [])).
Proof.
  assert (wf short_data) as Hw by (unfold wf; cbn; repeat split; discriminate || reflexivity).
  refine (proj2 (batch_outcome 7 short_data [] [] 3 Hw eq_refl ltac:(vm_compute; reflexivity) _ _) _ 2%nat ltac:(lia)).
  - exists []. split; [constructor|reflexivity].
  - intros i Hi. do 3 (destruct i as [|i]; [vm_compute; split; discriminate|]). lia.
  - vm_compute. intros [_ H]. by apply H.
Defined.

(** ** Rollback *)

(** The sequences of a database, and no other object of the undo buffer. *)
Abbreviation sequences := (gmap pointer SequenceData).

#[export] Instance sequence_targets : UndoTargets sequences := {
  sequence_rollbackVal p n v := fun st =>
    match st !! p with Some d => (Ret tt, <[p := rollbackVal d n v]> st) | None => (Undef, st) end;
  entry_getNext _ := undef; entry_movePrev _ := undef; entry_setPrev _ _ := undef;
  entry_setTimestamp _ _ := undef; entry_getName _ := undef;
  set_eraseNoLock _ _ := undef; set_emplaceNoLock _ _ := undef;
  handler_commitInsert _ _ _ _ _ := undef; handler_commitDelete _ _ _ _ _ := undef;
  handler_rollbackInsert _ _ _ _ := undef; handler_rollbackDelete _ _ _ _ := undef;
  vectorInfo_setVersion _ _ := undef; updateInfo_getVectorInfo _ _ := undef;
  vectorInfo_getNext _ := undef; vectorInfo_movePrev _ := undef; vectorInfo_relink _ _ := undef;
  updateInfo_setVectorInfo _ _ _ := undef; updateInfo_clearVectorInfo _ _ := undef;
}.

(** A transaction's batches, on any of the sequences. *)
Fixpoint run_batches (bs : list (pointer * nat)) (st : sequences) (u : UndoBuffer.t)
  : outcome (sequences * UndoBuffer.t) :=
  match bs with
  | [] => mret (st, u)
  | (p, n) :: bs =>
      match st !! p with
      | Some d =>
          match nextKVal p n (d, u) with
          | (Ret _, (d', u')) => run_batches bs (<[p := d']> st) u'
          | (Throw e, _) => Throw e
          | (Undef, _) => Undef
          end
      | None => Undef
      end
  end.

(** Only the two fields a rollback restores ever change. *)
Definition same_sequence (d d' : SequenceData) : Prop := forall n v, with_values d n v = with_values d' n v.

Lemma nextValNoLock_same d : same_sequence (nextValNoLock d).2 d.
Proof.
  intros n v. unfold nextValNoLock, mbind, M_bind, get, modify, mret, outcome_ret, M_ret, throw.
  destruct (usageCount d =? 0); [done|]. cbv zeta. destruct (add_int64 _ _) as [z|e|]; destruct (cycle d); cbn [fst snd];
    try done; repeat (case_match; cbn [fst snd]; try done; simplify_eq; try done).
Qed.

Lemma nextVals_same n d : same_sequence (nextVals n d).2 d.
Proof.
  revert d. induction n as [|n IH]; intros d; [done|]. cbn [nextVals]. unfold mbind, M_bind.
  pose proof (nextValNoLock_same d) as Hs. destruct (nextValNoLock d) as [[[]|e|] d1]; [|exact Hs..].
  cbn [gets]. pose proof (IH d1) as Hs1. destruct (nextVals n d1) as [[vs|e|] d2]; cbn [snd] in *;
    intros m v; unfold M_ret; cbn; by rewrite Hs1, Hs.
Qed.

Lemma rollback_same d d' : same_sequence d' d -> rollbackVal d' (usageCount d) (currVal d) = d.
Proof. intros Hs. unfold rollbackVal. rewrite Hs. by destruct d. Qed.

(** The undo buffer [u] takes the sequences back to [st0]. *)
Definition undoes (rs : list entry) (st st0 : sequences) : Prop :=
  run_all (actions UndoBuffer.rollbackRecord (rev rs)) st = (Ret tt, st0) /\
  forall ts st1, run_all (actions (UndoBuffer.commitRecord ts) rs) st1 = (Ret tt, st1).

Lemma undoes_batch rs st st0 p d d' :
  undoes rs st st0 -> st !! p = Some d -> same_sequence d' d ->
  undoes (rs ++ [(UndoBuffer.SEQUENCE_ENTRY, UndoBuffer.SequenceEntryRecord p (usageCount d) (currVal d))])
    (<[p := d']> st) st0.
Proof.
  intros [Hr Hc] Hp Hs. split.
  - unfold actions in *. rewrite rev_app_distr. cbn [rev app map fst snd run_all].
    unfold mbind, M_bind. cbn [UndoBuffer.rollbackRecord sequence_rollbackVal sequence_targets].
    rewrite lookup_insert_eq, rollback_same, insert_insert_eq, insert_id by done. exact Hr.
  - intros ts st1. unfold actions in *. rewrite map_app, run_all_app. unfold mbind, M_bind. by rewrite Hc.
Qed.

Lemma run_batches_undo bs st u st' u' rs st0 :
  run_batches bs st u = Ret (st', u') -> holds u rs -> undoes rs st st0 ->
  exists rs', holds u' rs' /\ undoes rs' st' st0.
Proof.
  revert st u rs. induction bs as [|[p n] bs IH]; intros st u rs Hrun Hh Hu; cbn [run_batches] in Hrun.
  - injection Hrun as <- <-. by exists rs.
  - destruct (st !! p) as [d|] eqn:Hp; [|done]. unfold nextKVal in Hrun.
    destruct (ku_assert _) as [[]| |]; [|done..]. pose proof (nextVals_same n d) as Hs.
    destruct (nextVals n d) as [[vs|e|] d']; [|done..].
    destruct (createRecord_holds u rs UndoBuffer.SEQUENCE_ENTRY
      (UndoBuffer.SequenceEntryRecord p (usageCount d) (currVal d)) Hh) as (u1 & E & Hh1).
    unfold UndoBuffer.createSequenceChange in Hrun. rewrite E in Hrun.
    apply (IH _ _ _ Hrun Hh1). by apply undoes_batch.
Qed.

(** A rollback gives back every value a transaction took: after any number
    of batches on any sequences, however their calls interleave and whether they
    cycled, replaying the transaction's undo buffer restores every sequence
    exactly; a commit leaves the sequences as they are. *)
Theorem sequences_rolled_back bs st st' u :
  run_batches bs st [] = Ret (st', u) ->
  UndoBuffer.rollback u st' = (Ret tt, st) /\ forall ts, UndoBuffer.commit u ts st' = (Ret tt, st').
Proof.
  intros Hrun.
  destruct (run_batches_undo bs st [] st' u [] st Hrun) as (rs & Hh & Hr & Hc); [by exists []|done|]. split.
  - change (UndoBuffer.rollback u) with (UndoBuffer.reverseIterate u (reading UndoBuffer.rollbackRecord)).
    by rewrite (reverseIterate_run _ _ _ _ Hh).
  - intros ts. change (UndoBuffer.commit u ts) with (UndoBuffer.iterate u (reading (UndoBuffer.commitRecord ts))).
    by rewrite (iterate_run _ _ _ _ Hh).
Qed.

(** Three batches over two sequences, one of which cycles. *)
Definition example_sequences : sequences := {[ 1 := example_data; 2 := make 1 1 1 100 false ]}.
Definition example_batches : list (pointer * nat) := [(1, 3%nat); (2, 4%nat); (1, 1%nat)].

Lemma sequences_rolled_back_witness :
  exists st' u, run_batches example_batches example_sequences [] = Ret (st', u) /\
    currVal <$> st' !! 2 = Some 4 /\ UndoBuffer.rollback u st' = (Ret tt, example_sequences).
Proof.
  destruct (run_batches example_batches example_sequences []) as [[st' u]|e|] eqn:E;
    [|vm_compute in E; discriminate..].
  exists st', u. split; [reflexivity|]. split; [|exact (proj1 (sequences_rolled_back _ _ _ _ E))].
  vm_compute in E. injection E as <- _. reflexivity.
Defined.

(** ** Serialisation *)

(** A serialised sequence reads back: whatever follows it in the file,
    [deserialize] returns the same fields, negative values and the bounds of
    [int64_t] included, and leaves exactly what followed. *)
Theorem sequence_roundtrip d rest :
  wf d -> Sequence.deserialize (Sequence.serialize d ++ rest) = Ret (d, rest).
Proof.
  intros (? & ? & _ & Hi & Hs & ?). unfold is_int64, INT64_MIN, INT64_MAX in *. bool_to_prop.
  unfold Sequence.deserialize, Sequence.serialize. rewrite <-!app_assoc.
  repeat (rewrite deserialize_serialize by (cbn [serializable u64_codec uint_codec i64_codec bool_codec];
    first [exact I | change (256 ^ Z.of_nat 8) with (2 ^ 64); lia | lia]); cbn [mbind outcome_bind]).
  by destruct d.
Qed.

Lemma sequence_roundtrip_witness :
  Sequence.deserialize (Sequence.serialize example_data ++ [1; 2]) = Ret (example_data, [1; 2]).
Proof.
  apply sequence_roundtrip. unfold wf. cbn. repeat split; discriminate || reflexivity.
Defined.
