(* ===== verification/CatalogSet.v ===== *)
(** Catalog sets ([catalog/catalog_set.cpp], [catalog/catalog_entry/]): versioned
    entries by name. The entries are objects on a heap, linked to the older version
    ([prev], owned) and to the newer one ([next]); a set maps each name, without
    its case, to the newest version. An entry that is destroyed stays on the heap,
    unreachable. What an ALTER does to the columns of a table is the parameter
    [table_alter]. *)
From stdpp Require Import gmap.
From S2P Require Import Prelude Effects VersionInfo Transaction UndoBuffer.
Local Open Scope Z_scope.

(** The key of the [case_insensitive_map_t]: [asciiToLowerCaseMap] on every byte. *)
Definition lower_ascii (a : Ascii.ascii) : Ascii.ascii :=
  let n := Ascii.N_of_ascii a in
  if (65 <=? n)%N && (n <=? 90)%N then Ascii.ascii_of_N (n + 32) else a.
Fixpoint lower (s : string) : string :=
  match s with EmptyString => EmptyString | String a s => String (lower_ascii a) (lower s) end.

Definition caseInsensitiveEquals (left right : string) : bool := bool_decide (lower left = lower right).

Inductive CatalogEntryType :=
| NODE_TABLE_ENTRY | REL_GROUP_ENTRY | FOREIGN_TABLE_ENTRY | SCALAR_MACRO_ENTRY | AGGREGATE_FUNCTION_ENTRY
| SCALAR_FUNCTION_ENTRY | REWRITE_FUNCTION_ENTRY | TABLE_FUNCTION_ENTRY | COPY_FUNCTION_ENTRY
| STANDALONE_TABLE_FUNCTION_ENTRY | SEQUENCE_ENTRY | TYPE_ENTRY | INDEX_ENTRY | DUMMY_ENTRY.
#[export] Instance CatalogEntryType_eq_dec : EqDecision CatalogEntryType.
Proof. solve_decision. Defined.

Inductive AlterType :=
| RENAME | ADD_PROPERTY | DROP_PROPERTY | RENAME_PROPERTY | COMMENT | ADD_FROM_TO_CONNECTION | DROP_FROM_TO_CONNECTION
| INVALID.
#[export] Instance AlterType_eq_dec : EqDecision AlterType.
Proof. solve_decision. Defined.

(** [P] is what the class of the entry adds, [I] the extra information of an ALTER. *)
Record CatalogEntry (P : Type) := mkEntry {
  type : CatalogEntryType;
  name : string;
  oid : Z;
  timestamp : transaction_t;
  deleted : bool;
  hasParent : bool;
  payload : option P;
  prev : option pointer;
  next : option pointer;
}.
Arguments mkEntry {P}. Arguments type {P}. Arguments name {P}. Arguments oid {P}. Arguments timestamp {P}.
Arguments deleted {P}. Arguments hasParent {P}. Arguments payload {P}. Arguments prev {P}. Arguments next {P}.

Record BoundAlterInfo (I : Type) := mkAlter {
  alterType : AlterType; tableName : string; newName : string; extraInfo : I }.
Arguments mkAlter {I}. Arguments alterType {I}. Arguments tableName {I}. Arguments newName {I}. Arguments extraInfo {I}.

Module CatalogSet.
Record t := mkSet { nextOID : Z; entries : gmap string pointer }.

Definition INTERNAL_CATALOG_SET_START_OID : Z := 2 ^ 63.
Definition make (isInternal : bool) : t := mkSet (if isInternal then INTERNAL_CATALOG_SET_START_OID else 0) ∅.
Definition isInternal (s : t) : bool := INTERNAL_CATALOG_SET_START_OID <=? nextOID s.

(** The entries, the sets, and the address of the next allocation. *)
Record Catalog (P : Type) := mkCatalog {
  heap : gmap pointer (CatalogEntry P); sets : gmap pointer t; allocated : pointer }.
Arguments mkCatalog {P}. Arguments heap {P}. Arguments sets {P}. Arguments allocated {P}.

Section ops.
Context {P I : Type}.
Abbreviation CatalogEntry := (CatalogEntry P).
Abbreviation Catalog := (Catalog P).
Implicit Types (e : CatalogEntry) (self p : pointer).

(** ** Objects *)

Definition deref p : M Catalog CatalogEntry := fun c =>
  match heap c !! p with Some e => (Ret e, c) | None => (Undef, c) end.
Definition assign p e : M Catalog unit := fun c =>
  (Ret tt, mkCatalog (<[p := e]> (heap c)) (sets c) (allocated c)).
Definition new e : M Catalog pointer := fun c =>
  (Ret (allocated c), mkCatalog (<[allocated c := e]> (heap c)) (sets c) (allocated c + 1)).
Definition get_set self : M Catalog t := fun c =>
  match sets c !! self with Some s => (Ret s, c) | None => (Undef, c) end.
Definition put_set self (s : t) : M Catalog unit := fun c =>
  (Ret tt, mkCatalog (heap c) (<[self := s]> (sets c)) (allocated c)).

Definition with_timestamp e (ts : transaction_t) : CatalogEntry :=
  mkEntry (type e) (name e) (oid e) ts (deleted e) (hasParent e) (payload e) (prev e) (next e).
Definition with_oid e (oid : Z) : CatalogEntry :=
  mkEntry (type e) (name e) oid (timestamp e) (deleted e) (hasParent e) (payload e) (prev e) (next e).
Definition with_prev e (prev : option pointer) : CatalogEntry :=
  mkEntry (type e) (name e) (oid e) (timestamp e) (deleted e) (hasParent e) (payload e) prev (next e).
Definition with_next e (next : option pointer) : CatalogEntry :=
  mkEntry (type e) (name e) (oid e) (timestamp e) (deleted e) (hasParent e) (payload e) (prev e) next.

Definition setTimestamp p (ts : transaction_t) : M Catalog unit := e ← deref p; assign p (with_timestamp e ts).
Definition getNext p : M Catalog (option pointer) := e ← deref p; mret (next e).
Definition getName p : M Catalog string := e ← deref p; mret (name e).
(** [KU_ASSERT(prev)]. *)
Definition getPrev p : M Catalog pointer :=
  e ← deref p; match prev e with Some q => mret q | None => undef end.
Definition setNext p (next : option pointer) : M Catalog unit := e ← deref p; assign p (with_next e next).

Definition movePrev p : M Catalog (option pointer) :=
  e ← deref p;
  match prev e with
  | Some q => setNext q None
  | None => mret tt
  end;;
  e ← deref p;
  assign p (with_prev e None);;
  mret (prev e).

Definition setPrev p (prev_ : option pointer) : M Catalog unit :=
  e ← deref p;
  assign p (with_prev e prev_);;
  match prev_ with
  | Some q => setNext q (Some p)
  | None => mret tt
  end.

Definition createDummyEntryNoLock (name : string) (oid : Z) : M Catalog pointer :=
  new (mkEntry DUMMY_ENTRY name oid 0 true false None None None).

(** ** Reading *)

Definition checkWWConflict (x : Transaction.t) e : bool :=
  ((START_TRANSACTION_ID <=? timestamp e) && negb (timestamp e =? Transaction.ID x)) ||
  ((timestamp e <? START_TRANSACTION_ID) && (Transaction.startTS x <? timestamp e)).

(** [while (currentEntry)]; [getPrev] never returns null. *)
Fixpoint traverse (fuel : nat) (x : Transaction.t) (currentEntry : pointer) : M Catalog pointer :=
  e ← deref currentEntry;
  if timestamp e =? Transaction.ID x then mret currentEntry
  else if timestamp e <=? Transaction.startTS x then mret currentEntry
  else match fuel with
       | O => undef
       | S fuel => prev ← getPrev currentEntry; traverse fuel x prev
       end.

(** A chain is not longer than the heap. *)
Definition traverseVersionChainsForTransactionNoLock (x : Transaction.t) (currentEntry : pointer) : M Catalog pointer :=
  fun c => traverse (size (heap c)) x currentEntry c.

Definition containsEntryNoLock (x : Transaction.t) self (name : string) : M Catalog bool :=
  s ← get_set self;
  match entries s !! lower name with
  | None => mret false
  | Some head =>
      entry ← traverseVersionChainsForTransactionNoLock x head;
      e ← deref entry;
      mret (negb (deleted e))
  end.

Definition validateExistNoLock (x : Transaction.t) self (name : string) : M Catalog unit :=
  b ← containsEntryNoLock x self name;
  if b : bool then mret tt else throw (CatalogException "{} does not exist in catalog.").

Definition validateNotExistNoLock (x : Transaction.t) self (name : string) : M Catalog unit :=
  b ← containsEntryNoLock x self name;
  if b : bool then throw (CatalogException "{} already exists in catalog.") else mret tt.

Definition getEntryNoLock (x : Transaction.t) self (name : string) : M Catalog pointer :=
  validateExistNoLock x self name;;
  s ← get_set self;
  match entries s !! lower name with
  | None => undef
  | Some head =>
      entry ← traverseVersionChainsForTransactionNoLock x head;
      e ← deref entry;
      if deleted e then undef else mret entry
  end.

(** ** Writing *)

Definition emplaceNoLock self (entry : pointer) : M Catalog unit :=
  name ← getName entry;
  s ← get_set self;
  match entries s !! lower name with
  | Some head =>
      setPrev entry (Some head);;
      put_set self (mkSet (nextOID s) (<[lower name := entry]> (delete (lower name) (entries s))))
  | None => put_set self (mkSet (nextOID s) (<[lower name := entry]> (entries s)))
  end.

Definition eraseNoLock self (name : string) : M Catalog unit :=
  s ← get_set self; put_set self (mkSet (nextOID s) (delete (lower name) (entries s))).

Definition getNextOIDNoLock self : M Catalog Z :=
  s ← get_set self; put_set self (mkSet (u64 (nextOID s + 1)) (entries s));; mret (nextOID s).

(** [entries.emplace] keeps an entry that is there; the dummy is then destroyed. *)
Definition createEntryNoLock (x : Transaction.t) self (entry : pointer) : M Catalog pointer :=
  name ← getName entry;
  validateNotExistNoLock x self name;;
  setTimestamp entry (Transaction.ID x);;
  s ← get_set self;
  match entries s !! lower name with
  | Some existingEntry =>
      e ← deref existingEntry;
      if checkWWConflict x e then throw (CatalogException "Write-write conflict on creating catalog entry with name {}.")
      else if negb (deleted e) then throw (CatalogException "Catalog entry with name {} already exists.")
      else mret tt
  | None => mret tt
  end;;
  e ← deref entry;
  dummyEntry ← createDummyEntryNoLock name (oid e);
  s ← get_set self;
  match entries s !! lower name with
  | Some _ => mret tt
  | None => put_set self (mkSet (nextOID s) (<[lower name := dummyEntry]> (entries s)))
  end;;
  emplaceNoLock self entry;;
  getPrev entry.

Definition dropEntryNoLock (x : Transaction.t) self (name : string) (oid : Z) : M Catalog pointer :=
  validateExistNoLock x self name;;
  tombstone ← createDummyEntryNoLock name oid;
  setTimestamp tombstone (Transaction.ID x);;
  emplaceNoLock self tombstone;;
  getPrev tombstone.

(** [TableCatalogEntry::alter]: a copy with another name or other columns. *)
Context (table_alter : AlterType -> I -> option Z -> P -> outcome P).

Definition alter (ts : transaction_t) (info : BoundAlterInfo I) (tables : pointer) (tableEntry : pointer) : M Catalog pointer :=
  e ← deref tableEntry;
  if deleted e then undef else
  columns ← match payload e with Some columns => mret columns | None => undef end;
  let copy := mkEntry (type e) (if decide (alterType info = RENAME) then newName info else name e) (oid e) ts
                (deleted e) (hasParent e) in
  columns' ←
    match alterType info with
    | RENAME => mret columns
    | ADD_FROM_TO_CONNECTION =>
        oid ← getNextOIDNoLock tables;
        lift (table_alter (alterType info) (extraInfo info) (Some oid) columns)
    | INVALID => undef
    | _ => lift (table_alter (alterType info) (extraInfo info) None columns)
    end;
  new (copy (Some columns') None None).

(** ** What a transaction records *)

Inductive WALRecord :=
| CreateCatalogEntryRecord (catalogEntry : CatalogEntry) (isInternal : bool)
| DropCatalogEntryRecord (entryID : Z) (entryType : CatalogEntryType)
| AlterTableEntryRecord (alterInfo : BoundAlterInfo I).

(** The catalog and the parts of the transaction it writes. *)
Record State := mkState {
  catalog : Catalog; undoBuffer : UndoBuffer.t; hasCatalogChanges : bool; localWAL : list WALRecord }.

Definition on_catalog {A} (m : M Catalog A) : M State A := fun s =>
  let '(r, c) := m (catalog s) in (r, mkState c (undoBuffer s) (hasCatalogChanges s) (localWAL s)).

Definition push_undo self (entry : pointer) : M State unit := fun s =>
  match UndoBuffer.createCatalogEntry (undoBuffer s) self entry with
  | Ret u => (Ret tt, mkState (catalog s) u true (localWAL s))
  | Throw e => (Throw e, s)
  | Undef => (Undef, s)
  end.
Definition log (r : WALRecord) : M State unit := fun s =>
  (Ret tt, mkState (catalog s) (undoBuffer s) (hasCatalogChanges s) (localWAL s ++ [r])).

Definition assert (b : bool) : M State unit := if b then mret tt else undef.

Definition pushCreateDropCatalogEntry (isInMemory : bool) (x : Transaction.t) self (catalogEntry : pointer)
    (isInternal skipLoggingToWAL : bool) : M State unit :=
  push_undo self catalogEntry;;
  if negb (Transaction.shouldLogToWAL isInMemory x) || skipLoggingToWAL then mret tt
  else
    entry ← on_catalog (deref catalogEntry);
    next ← on_catalog (getNext catalogEntry);
    match next with
    | None => undef
    | Some newCatalogEntry =>
        newEntry ← on_catalog (deref newCatalogEntry);
        match type newEntry with
        | INDEX_ENTRY | NODE_TABLE_ENTRY | REL_GROUP_ENTRY =>
            if decide (type entry = DUMMY_ENTRY)
            then assert (deleted entry);; log (CreateCatalogEntryRecord newEntry isInternal)
            else throw (RuntimeException "This shouldn't happen. Alter table is not supported.")
        | SEQUENCE_ENTRY =>
            assert (bool_decide (type entry = DUMMY_ENTRY) && deleted entry);;
            if hasParent newEntry then mret tt else log (CreateCatalogEntryRecord newEntry isInternal)
        | SCALAR_MACRO_ENTRY | TYPE_ENTRY =>
            assert (bool_decide (type entry = DUMMY_ENTRY) && deleted entry);;
            log (CreateCatalogEntryRecord newEntry isInternal)
        | DUMMY_ENTRY =>
            assert (deleted newEntry);;
            if hasParent entry then mret tt
            else
              match type entry with
              | INDEX_ENTRY | NODE_TABLE_ENTRY | REL_GROUP_ENTRY | SEQUENCE_ENTRY =>
                  log (DropCatalogEntryRecord (oid entry) (type entry))
              | SCALAR_FUNCTION_ENTRY | TABLE_FUNCTION_ENTRY | STANDALONE_TABLE_FUNCTION_ENTRY => mret tt
              | _ => throw (RuntimeException "Not supported catalog entry type {} yet.")
              end
        | SCALAR_FUNCTION_ENTRY | TABLE_FUNCTION_ENTRY | STANDALONE_TABLE_FUNCTION_ENTRY => mret tt
        | _ => throw (RuntimeException "Not supported catalog entry type {} yet.")
        end
    end.

Definition pushAlterCatalogEntry (isInMemory : bool) (x : Transaction.t) self (catalogEntry : pointer)
    (alterInfo : BoundAlterInfo I) : M State unit :=
  push_undo self catalogEntry;;
  if Transaction.shouldLogToWAL isInMemory x then log (AlterTableEntryRecord alterInfo) else mret tt.

(** ** The public operations *)

Definition createEntry (isInMemory : bool) (x : Transaction.t) self (entry : CatalogEntry) : M State Z :=
  oid ← on_catalog (getNextOIDNoLock self);
  entryPtr ← on_catalog (new (with_oid entry oid));
  prev ← on_catalog (createEntryNoLock x self entryPtr);
  s ← on_catalog (get_set self);
  when (Transaction.shouldAppendToUndoBuffer x)
    (pushCreateDropCatalogEntry isInMemory x self prev (isInternal s) false);;
  mret oid.

Definition dropEntry (isInMemory : bool) (x : Transaction.t) self (name : string) (oid : Z) : M State unit :=
  prev ← on_catalog (dropEntryNoLock x self name oid);
  s ← on_catalog (get_set self);
  when (Transaction.shouldAppendToUndoBuffer x)
    (pushCreateDropCatalogEntry isInMemory x self prev (isInternal s) false).

Definition is_table (ty : CatalogEntryType) : bool :=
  bool_decide (ty = NODE_TABLE_ENTRY) || bool_decide (ty = REL_GROUP_ENTRY).

Definition alterTableEntry (isInMemory : bool) (x : Transaction.t) self (alterInfo : BoundAlterInfo I) : M State unit :=
  on_catalog (validateExistNoLock x self (tableName alterInfo));;
  entry ← on_catalog (getEntryNoLock x self (tableName alterInfo));
  e ← on_catalog (deref entry);
  assert (is_table (type e));;
  newEntry ← on_catalog (alter (Transaction.ID x) alterInfo self entry);
  match alterType alterInfo with
  | RENAME =>
      on_catalog (dropEntryNoLock x self (tableName alterInfo) (oid e));;
      createdEntry ← on_catalog (createEntryNoLock x self newEntry);
      s ← on_catalog (get_set self);
      when (Transaction.shouldAppendToUndoBuffer x)
        (pushAlterCatalogEntry isInMemory x self entry alterInfo;;
         pushCreateDropCatalogEntry isInMemory x self createdEntry (isInternal s) true)
  | _ =>
      on_catalog (emplaceNoLock self newEntry);;
      when (Transaction.shouldAppendToUndoBuffer x) (pushAlterCatalogEntry isInMemory x self entry alterInfo)
  end.

(** [Catalog::containsTable], and [Alter]'s check before a rename
    ([processor/operator/ddl/alter.cpp]). *)
Definition containsTable (x : Transaction.t) (tables internalTables : pointer) (tableName : string) (useInternal : bool)
  : M Catalog bool :=
  b ← containsEntryNoLock x tables tableName;
  if b : bool then mret true
  else if useInternal then containsEntryNoLock x internalTables tableName else mret false.

Definition checkRenameTableConflicts (x : Transaction.t) (tables internalTables : pointer) (newName : string)
  : M Catalog unit :=
  b ← containsTable x tables internalTables newName true;
  if b : bool then throw (BinderException "Table {} already exists.") else mret tt.

(** [Catalog::getTableCatalogEntry]. *)
Definition getTableCatalogEntry (x : Transaction.t) (tables internalTables : pointer) (tableName : string) (useInternal : bool)
  : M Catalog pointer :=
  b ← containsEntryNoLock x tables tableName;
  if negb b then
    if useInternal then getEntryNoLock x internalTables tableName
    else throw (CatalogException "{} does not exist in catalog.")
  else getEntryNoLock x tables tableName.

(** The checks of [Alter] on the columns and the connections of the table: whether
    the statement is skipped. *)
Context (checkConflicts : BoundAlterInfo I -> CatalogEntry -> Catalog -> outcome bool).

(** [Alter::alterTable], up to the change of the storage; its messages are dropped. *)
Definition alterTable (isInMemory : bool) (x : Transaction.t) (tables internalTables : pointer) (entry : CatalogEntry)
    (alterInfo : BoundAlterInfo I) : M State unit :=
  skip ←
    match alterType alterInfo with
    | RENAME => on_catalog (checkRenameTableConflicts x tables internalTables (newName alterInfo));; mret false
    | COMMENT => mret false
    | INVALID => undef
    | _ => c ← gets catalog; lift (checkConflicts alterInfo entry c)
    end;
  if skip : bool then mret tt else alterTableEntry isInMemory x tables alterInfo.

(** [Alter::executeInternal]. *)
Definition executeAlter (isInMemory : bool) (x : Transaction.t) (tables internalTables : pointer)
    (alterInfo : BoundAlterInfo I) : M State unit :=
  b ← on_catalog (containsTable x tables internalTables (tableName alterInfo) true);
  if b : bool then
    p ← on_catalog (getTableCatalogEntry x tables internalTables (tableName alterInfo) true);
    entry ← on_catalog (deref p);
    alterTable isInMemory x tables internalTables entry alterInfo
  else throw (BinderException "Table {} does not exist.").

(** The catalog as the undo buffer sees it. *)
#[export] Instance catalog_targets : UndoTargets Catalog := {
  entry_getNext := getNext; entry_movePrev := movePrev; entry_setPrev := setPrev;
  entry_setTimestamp := setTimestamp; entry_getName := getName;
  set_eraseNoLock := eraseNoLock; set_emplaceNoLock := emplaceNoLock;
  sequence_rollbackVal _ _ _ := undef;
  handler_commitInsert _ _ _ _ _ := undef; handler_commitDelete _ _ _ _ _ := undef;
  handler_rollbackInsert _ _ _ _ := undef; handler_rollbackDelete _ _ _ _ := undef;
  vectorInfo_setVersion _ _ := undef; updateInfo_getVectorInfo _ _ := undef;
  vectorInfo_getNext _ := undef; vectorInfo_movePrev _ := undef; vectorInfo_relink _ _ := undef;
  updateInfo_setVectorInfo _ _ _ := undef; updateInfo_clearVectorInfo _ _ := undef;
}.
End ops.
End CatalogSet.
