(* ===== verification/CatalogFacts.v ===== *)
(** Version chains on the heap: the list of the entries of a name, newest first, and what
    each operation of a catalog set does to it; then the DDL of one transaction over the
    catalog it began with. *)
From stdpp Require Import gmap.
From S2P Require Import Prelude Effects VersionInfo Transaction UndoBuffer UndoBufferSpec CatalogSet.
Import CatalogSet.
Local Open Scope Z_scope.

Section facts.
Context {P I : Type}.
Abbreviation CatalogEntry := (CatalogEntry P).
Abbreviation Catalog := (Catalog P).
Implicit Types (e : CatalogEntry) (c : Catalog) (h : gmap pointer CatalogEntry) (self p q : pointer).
Implicit Types (x y : Transaction.t) (ps : list pointer) (k : string) (chains : gmap string (list pointer)).

(** ** Runs *)

Definition with_heap c h : Catalog := mkCatalog h (sets c) (allocated c).
Definition with_entries c self (s : t) (m : gmap string pointer) : Catalog :=
  mkCatalog (heap c) (<[self := mkSet (nextOID s) m]> (sets c)) (allocated c).

Lemma deref_run p c e : heap c !! p = Some e -> deref p c = (Ret e, c).
Proof. unfold deref. by intros ->. Qed.

Lemma get_set_run self c s : sets c !! self = Some s -> get_set self c = (Ret s, c).
Proof. unfold get_set. by intros ->. Qed.

Lemma update_run p c e (f : CatalogEntry -> CatalogEntry) :
  heap c !! p = Some e -> (e ← deref p; assign p (f e)) c = (Ret tt, with_heap c (<[p := f e]> (heap c))).
Proof. intros H. unfold mbind, M_bind. by rewrite (deref_run _ _ _ H). Qed.

Lemma getNext_run p c e : heap c !! p = Some e -> getNext p c = (Ret (next e), c).
Proof. intros H. unfold getNext, mbind, M_bind. by rewrite (deref_run _ _ _ H). Qed.

Lemma getName_run p c e : heap c !! p = Some e -> getName p c = (Ret (name e), c).
Proof. intros H. unfold getName, mbind, M_bind. by rewrite (deref_run _ _ _ H). Qed.

Lemma setPrev_run p q c e e' :
  heap c !! p = Some e -> heap c !! q = Some e' -> p <> q ->
  setPrev p (Some q) c =
    (Ret tt, with_heap c (<[q := with_next e' (Some p)]> (<[p := with_prev e (Some q)]> (heap c)))).
Proof.
  intros Hp Hq Hpq. unfold setPrev, mbind at 1, M_bind at 1. rewrite (deref_run _ _ _ Hp). unfold mbind, M_bind. cbn [assign].
  unfold setNext. apply (update_run q (with_heap c _) e'). cbn. by rewrite lookup_insert_ne.
Qed.

Lemma movePrev_run p q c e e' :
  heap c !! p = Some e -> heap c !! q = Some e' -> p <> q -> prev e = Some q ->
  movePrev p c = (Ret (Some q), with_heap c (<[p := with_prev e None]> (<[q := with_next e' None]> (heap c)))).
Proof.
  intros Hp Hq Hpq Hprev. unfold movePrev, mbind at 1, M_bind at 1. rewrite (deref_run _ _ _ Hp), Hprev.
  unfold mbind at 1, M_bind at 1. unfold setNext. rewrite (update_run q c e' _ Hq).
  unfold mbind, M_bind. rewrite (deref_run _ _ e) by (cbn; by rewrite lookup_insert_ne). cbn. by rewrite Hprev.
Qed.

(** ** Chains *)

(** The entry without its links. *)
Definition content e : CatalogEntry := with_next (with_prev e None) None.
Definition cont h p : option CatalogEntry := content <$> h !! p.

Fixpoint linked h (newer : option pointer) ps : Prop :=
  match ps with
  | [] => True
  | p :: ps => exists e, h !! p = Some e /\ next e = newer /\ prev e = head ps /\ linked h (Some p) ps
  end.

(** The entries of the name [k]; the oldest one is visible to everyone. *)
Record chain_ok h k ps : Prop := {
  chain_linked : linked h None ps;
  chain_nodup : NoDup ps;
  chain_names : Forall (fun p => exists e, cont h p = Some e /\ lower (name e) = k) ps;
  chain_bottom : exists b e, last ps = Some b /\ cont h b = Some e /\ timestamp e = 0;
}.

Record wf c self chains : Prop := {
  wf_set : exists s, sets c !! self = Some s /\ forall k, entries s !! k = chains !! k ≫= head;
  wf_chain k ps : chains !! k = Some ps -> chain_ok (heap c) k ps;
  wf_fresh p e : heap c !! p = Some e -> p < allocated c;
}.

Lemma linked_frame h h' o ps : (forall p, p ∈ ps -> h' !! p = h !! p) -> linked h o ps -> linked h' o ps.
Proof.
  revert o. induction ps as [|p ps IH]; intros o Heq; [done|]. intros (e & He & Hn & Hp & Hl). exists e.
  rewrite Heq by left. split_and!; [done..|]. apply IH; [|done]. intros q Hq. apply Heq. by right.
Qed.

Lemma chain_ok_frame h h' k ps :
  (forall p, p ∈ ps -> h' !! p = h !! p) -> chain_ok h k ps -> chain_ok h' k ps.
Proof.
  intros Heq [Hl Hn Hk (b & e & Hb & He & Ht)].
  assert (forall p, p ∈ ps -> cont h' p = cont h p) as Hc by (intros p Hp; unfold cont; by rewrite Heq).
  split; [|done| |].
  - by apply (linked_frame h).
  - apply Forall_forall. intros p Hp. rewrite Hc by done. by apply (proj1 (Forall_forall _ _) Hk).
  - exists b, e. rewrite Hc by by apply last_Some_elem_of. done.
Qed.

Lemma chain_entry h k ps p : chain_ok h k ps -> p ∈ ps -> exists e, h !! p = Some e /\ lower (name e) = k.
Proof.
  intros [_ _ Hk _] Hp. apply (proj1 (Forall_forall _ _) Hk) in Hp as (e & He & Hn). unfold cont in He.
  destruct (h !! p) as [e'|]; [|done]. injection He as <-. by exists e'.
Qed.

(** Chains of different names share no entry. *)
Lemma chain_disjoint c self chains k k' ps ps' p :
  wf c self chains -> chains !! k = Some ps -> chains !! k' = Some ps' -> p ∈ ps -> p ∈ ps' -> k = k'.
Proof.
  intros Hw H1 H2 Hp Hp'. destruct (chain_entry _ _ _ _ (wf_chain _ _ _ Hw _ _ H1) Hp) as (e & He & <-).
  destruct (chain_entry _ _ _ _ (wf_chain _ _ _ Hw _ _ H2) Hp') as (e' & He' & <-). by simplify_eq.
Qed.

(** ** A new head *)

Lemma linked_cons h p q qs e e' :
  h !! p = Some e -> h !! q = Some e' -> NoDup (p :: q :: qs) -> linked h None (q :: qs) ->
  linked (<[q := with_next e' (Some p)]> (<[p := with_next (with_prev e (Some q)) None]> h)) None (p :: q :: qs).
Proof.
  intros Hp Hq Hnd (e'' & He'' & Hnext & Hprev & Hl). simplify_eq.
  apply NoDup_cons in Hnd as [Hpn Hnd]. apply NoDup_cons in Hnd as [Hqn _].
  assert (p <> q) by (intros ->; apply Hpn; by left). exists (with_next (with_prev e (Some q)) None).
  rewrite lookup_insert_ne, lookup_insert_eq by done. split_and!; [done..|].
  exists (with_next e' (Some p)). rewrite lookup_insert_eq. split_and!; [done..|].
  apply (linked_frame h); [|done]. intros r Hr. destruct (decide (r = q)) as [->|]; [done|].
  destruct (decide (r = p)) as [->|]; [by destruct Hpn; right|]. by rewrite !lookup_insert_ne.
Qed.

Lemma cont_insert h p e e' r : h !! p = Some e -> content e' = content e -> cont (<[p := e']> h) r = cont h r.
Proof.
  intros Hp He. unfold cont. destruct (decide (p = r)) as [->|Hne].
  - rewrite lookup_insert_eq, Hp. cbn. by rewrite He.
  - by rewrite lookup_insert_ne.
Qed.

Lemma chain_ok_cont h h' k ps :
  (forall p, p ∈ ps -> cont h' p = cont h p) -> linked h' None ps -> chain_ok h k ps -> chain_ok h' k ps.
Proof.
  intros Hc Hl [_ Hn Hk (b & e & Hb & He & Ht)]. split; [done|done| |].
  - apply Forall_forall. intros p Hp. rewrite Hc by done. by apply (proj1 (Forall_forall _ _) Hk).
  - exists b, e. rewrite Hc by by apply last_Some_elem_of. done.
Qed.

Lemma emplace_run c self chains k p q qs e :
  wf c self chains -> chains !! k = Some (q :: qs) ->
  heap c !! p = Some e -> next e = None -> lower (name e) = k ->
  (forall k' ps, chains !! k' = Some ps -> p ∉ ps) ->
  exists c', emplaceNoLock self p c = (Ret tt, c') /\ getPrev p c' = (Ret q, c') /\
    wf c' self (<[k := p :: q :: qs]> chains) /\ (forall r, cont (heap c') r = cont (heap c) r) /\
    (forall r, r <> p -> r <> q -> heap c' !! r = heap c !! r).
Proof.
  intros Hw Hk Hp Hnext Hname Hfree. pose proof Hw as [(s & Hs & Hent) Hch Hfresh].
  pose proof (Hch _ _ Hk) as Hok. pose proof (Hfree _ _ Hk) as Hpn.
  destruct (chain_entry _ _ _ q Hok ltac:(by left)) as (e' & Hq & Hqn).
  assert (p <> q) as Hpq by (intros ->; apply Hpn; by left).
  set (h' := <[q := with_next e' (Some p)]> (<[p := with_prev e (Some q)]> (heap c))).
  exists (with_entries (with_heap c h') self s (<[k := p]> (delete k (entries s)))).
  assert (forall r, cont h' r = cont (heap c) r) as Hcont.
  { intros r. unfold h'. rewrite (cont_insert _ q e') by (done || by rewrite lookup_insert_ne). by apply (cont_insert _ p e). }
  split_and!; [| | |exact Hcont|by intros r ? ?; cbn; unfold h'; rewrite !lookup_insert_ne].
  - unfold emplaceNoLock, mbind, M_bind. rewrite (getName_run _ _ _ Hp), (get_set_run _ _ _ Hs), Hname, Hent, Hk.
    cbn [mbind option_bind head]. by rewrite (setPrev_run p q c e e' Hp Hq Hpq).
  - unfold getPrev, mbind, M_bind. rewrite (deref_run p _ (with_prev e (Some q))); [done|].
    cbn. unfold h'. by rewrite lookup_insert_ne, lookup_insert_eq.
  - split.
    + eexists. cbn [sets with_entries]. rewrite lookup_insert_eq. split; [done|]. intros k'. cbn [entries].
      destruct (decide (k' = k)) as [->|Hne]; [by rewrite !lookup_insert_eq|].
      rewrite !lookup_insert_ne, lookup_delete_ne by done. apply Hent.
    + cbn [heap with_entries with_heap]. intros k' ps Hps. destruct (decide (k' = k)) as [->|Hne].
      * rewrite lookup_insert_eq in Hps. injection Hps as <-.
        assert (with_prev e (Some q) = with_next (with_prev e (Some q)) None) as Heq by (destruct e; cbn in *; by subst).
        assert (NoDup (p :: q :: qs)) as Hnd by (apply NoDup_cons; split; [done|apply Hok]).
        destruct Hok as [Hl Hnd' Hkn Hb]. split; [|done| |].
        -- unfold h'. rewrite Heq. by apply linked_cons.
        -- apply Forall_cons. split; [|by eapply Forall_impl; [exact Hkn|]; intros r; cbn beta; rewrite Hcont].
           exists (content e). rewrite Hcont. unfold cont. by rewrite Hp.
        -- destruct Hb as (b & eb & Hb & Heb & Ht). exists b, eb. by rewrite Hcont.
      * rewrite lookup_insert_ne in Hps by done. pose proof (Hch _ _ Hps) as Hok'.
        apply (chain_ok_frame (heap c)); [|done]. intros r Hr. unfold h'.
        assert (q <> r). { intros ->. apply Hne. by apply (chain_disjoint c self chains k' k ps (r :: qs) r); [done..|left]. }
        assert (p <> r) by (intros ->; by apply (Hfree _ _ Hps)). by rewrite !lookup_insert_ne.
    + cbn [heap with_entries with_heap allocated]. intros r er Hr. unfold h' in Hr.
      apply lookup_insert_Some in Hr as [[<- _]|[_ Hr]]; [by eapply Hfresh|].
      apply lookup_insert_Some in Hr as [[<- _]|[_ Hr]]; by eapply Hfresh.
Qed.

(** ** Taking the head back *)

Lemma chain_two h k p q qs e e' :
  chain_ok h k (p :: q :: qs) -> h !! p = Some e -> h !! q = Some e' ->
  p <> q /\ prev e = Some q /\ next e = None /\ next e' = Some p /\ prev e' = head qs.
Proof.
  intros [Hl Hnd _ _] Hp Hq. apply NoDup_cons in Hnd as [Hpn _].
  split; [intros ->; apply Hpn; by left|].
  destruct Hl as (e1 & H1 & Hn1 & Hp1 & e2 & H2 & Hn2 & Hp2 & _). simplify_eq. done.
Qed.

Lemma chain_ok_tail h k p q qs e' :
  chain_ok h k (p :: q :: qs) -> h !! q = Some e' -> chain_ok (<[q := with_next e' None]> h) k (q :: qs).
Proof.
  intros Hok Hq. pose proof Hok as [Hl Hnd Hkn Hb]. apply NoDup_cons in Hnd as [Hpn Hnd].
  pose proof (fun r => cont_insert h q e' (with_next e' None) r Hq eq_refl) as Hcont. split; [|done| |].
  - destruct Hl as (e1 & H1 & Hn1 & Hp1 & e2 & H2 & Hn2 & Hp2 & Hl). rewrite Hq in H2. injection H2 as <-.
    exists (with_next e' None). rewrite lookup_insert_eq. split_and!; [done..|].
    apply NoDup_cons in Hnd as [Hqn _]. apply (linked_frame h); [|done]. intros r Hr.
    by destruct (decide (q = r)) as [->|]; [|rewrite lookup_insert_ne].
  - apply Forall_cons in Hkn as [_ Hkn]. eapply Forall_impl; [exact Hkn|]. intros r. cbn beta. by rewrite Hcont.
  - destruct Hb as (b & eb & Hb & Heb & Ht). exists b, eb. by rewrite Hcont.
Qed.

(** [rollbackCatalogEntryRecord] of the newest version. *)
Lemma pop_run c self chains k p q qs :
  wf c self chains -> chains !! k = Some (p :: q :: qs) ->
  exists c', UndoBuffer.rollbackCatalogEntryRecord self q c = (Ret tt, c') /\
    wf c' self (<[k := q :: qs]> chains) /\ (forall r, cont (heap c') r = cont (heap c) r).
Proof.
  intros Hw Hk. pose proof Hw as [(s & Hs & Hent) Hch Hfresh]. pose proof (Hch _ _ Hk) as Hok.
  destruct (chain_entry _ _ _ p Hok ltac:(by left)) as (e & Hp & Hpk).
  destruct (chain_entry _ _ _ q Hok ltac:(right; by left)) as (e' & Hq & Hqk).
  destruct (chain_two _ _ _ _ _ _ _ Hok Hp Hq) as (Hpq & Hprev & Hnext & Hnext' & Hprev').
  set (h1 := <[p := with_prev e None]> (<[q := with_next e' None]> (heap c))).
  assert (forall r, cont h1 r = cont (heap c) r) as Hcont.
  { intros r. unfold h1. rewrite (cont_insert _ p e) by (done || by rewrite lookup_insert_ne). by apply (cont_insert _ q e'). }
  set (s1 := mkSet (nextOID s) (delete k (entries s))).
  exists (with_entries (with_entries (with_heap c h1) self s (delete k (entries s))) self s1 (<[k := q]> (delete k (entries s)))).
  split_and!; [| |exact Hcont].
  - unfold UndoBuffer.rollbackCatalogEntryRecord. cbn [entry_getNext entry_movePrev entry_getName set_eraseNoLock set_emplaceNoLock catalog_targets].
    unfold mbind at 1, M_bind at 1. rewrite (getNext_run _ _ _ Hq), Hnext'. cbn [UndoBuffer.assert_some].
    unfold mbind at 1, M_bind at 1. cbn [mret M_ret]. unfold mbind at 1, M_bind at 1.
    rewrite (getNext_run _ _ _ Hp), Hnext. unfold mbind at 1, M_bind at 1. rewrite (movePrev_run p q c e e' Hp Hq Hpq Hprev).
    fold h1. assert (heap (with_heap c h1) !! q = Some (with_next e' None)) as Hq1.
    { cbn. unfold h1. by rewrite lookup_insert_ne, lookup_insert_eq. }
    unfold mbind at 1, M_bind at 1. rewrite (getName_run _ _ _ Hq1). unfold eraseNoLock, mbind at 1, M_bind at 1.
    unfold mbind at 1, M_bind at 1. rewrite (get_set_run self (with_heap c h1) s Hs). cbn [put_set].
    cbn [name with_next]. rewrite Hqk. fold s1.
    unfold emplaceNoLock, mbind, M_bind. erewrite getName_run by exact Hq1.
    rewrite (get_set_run _ _ s1) by (cbn; by rewrite lookup_insert_eq). cbn [name with_next]. rewrite Hqk.
    cbn [entries s1]. rewrite lookup_delete_eq. unfold put_set, with_entries. by cbn.
  - split.
    + eexists. cbn [sets with_entries]. rewrite lookup_insert_eq. split; [done|]. intros k'. cbn [entries].
      destruct (decide (k' = k)) as [->|Hne]; [by rewrite !lookup_insert_eq|].
      rewrite !lookup_insert_ne, lookup_delete_ne by done. apply Hent.
    + cbn [heap with_entries with_heap]. intros k' ps Hps. destruct (decide (k' = k)) as [->|Hne].
      * rewrite lookup_insert_eq in Hps. injection Hps as <-.
        apply (chain_ok_frame (<[q := with_next e' None]> (heap c))); [|by apply (chain_ok_tail _ _ p)].
        intros r Hr. unfold h1. rewrite lookup_insert_ne; [done|]. intros ->.
        destruct Hok as [_ Hnd _ _]. by apply NoDup_cons in Hnd as [Hn _].
      * rewrite lookup_insert_ne in Hps by done. pose proof (Hch _ _ Hps) as Hok'.
        apply (chain_ok_frame (heap c)); [|done]. intros r Hr. unfold h1.
        assert (q <> r). { intros ->. apply Hne. apply (chain_disjoint c self chains k' k ps _ r Hw Hps Hk Hr). right. by left. }
        assert (p <> r). { intros ->. apply Hne. apply (chain_disjoint c self chains k' k ps _ r Hw Hps Hk Hr). by left. }
        by rewrite !lookup_insert_ne.
    + cbn [heap with_entries with_heap allocated]. intros r er Hr. unfold h1 in Hr.
      apply lookup_insert_Some in Hr as [[<- _]|[_ Hr]]; [by eapply Hfresh|].
      apply lookup_insert_Some in Hr as [[<- _]|[_ Hr]]; by eapply Hfresh.
Qed.

(** ** What a transaction sees *)

Definition visible x e : bool := (timestamp e =? Transaction.ID x) || (timestamp e <=? Transaction.startTS x).

Fixpoint seen (f : pointer -> option CatalogEntry) x ps : option (pointer * CatalogEntry) :=
  match ps with
  | [] => None
  | p :: ps => match f p with Some e => if visible x e then Some (p, e) else seen f x ps | None => None end
  end.

Definition present (r : option (pointer * CatalogEntry)) : option (pointer * CatalogEntry) :=
  match r with Some (p, e) => if deleted e then None else Some (p, e) | None => None end.

(** The entry of a name, through [containsEntry] and [getEntry]. *)
Definition observe x self (name : string) : M Catalog (option CatalogEntry) :=
  b ← containsEntryNoLock x self name;
  if b : bool then entry ← getEntryNoLock x self name; e ← deref entry; mret (Some (content e)) else mret None.

Lemma chain_fits_heap h k ps : chain_ok h k ps -> (length ps <= size h)%nat.
Proof.
  intros Hok. rewrite <-(size_dom (D := gset pointer)).
  rewrite <-(size_list_to_set (C := gset pointer) ps) by apply Hok. apply subseteq_size. intros p Hp.
  apply elem_of_list_to_set in Hp. apply elem_of_dom. destruct (chain_entry _ _ _ _ Hok Hp) as (e & He & _). by exists e.
Qed.

Lemma seen_total h k x ps : chain_ok h k ps -> 0 <= Transaction.startTS x ->
  exists p e, seen (cont h) x ps = Some (p, e) /\ p ∈ ps /\ cont h p = Some e /\ visible x e = true.
Proof.
  intros [_ _ Hk (b & eb & Hb & Heb & Ht)] Hx. clear -Hk Hb Heb Ht Hx.
  induction ps as [|p ps IH]; [done|]. apply Forall_cons in Hk as [(e & He & _) Hk]. cbn [seen]. rewrite He.
  destruct (visible x e) eqn:Ev; [exists p, e; split_and!; [done|left|done..]|].
  destruct ps as [|q ps].
  - injection Hb as ->. unfold visible in Ev. bool_to_prop. simplify_eq. lia.
  - destruct IH as (r & er & Hr & Hin & ?); [done|by rewrite last_cons_cons in Hb|]. exists r, er.
    split; [done|]. split; [by right|done].
Qed.

Lemma traverse_run x c fuel ps p o :
  linked (heap c) o ps -> head ps = Some p -> (length ps <= S fuel)%nat ->
  (exists r e, seen (cont (heap c)) x ps = Some (r, e)) ->
  exists r e, seen (cont (heap c)) x ps = Some (r, e) /\ traverse fuel x p c = (Ret r, c).
Proof.
  revert ps p o. induction fuel as [|fuel IH]; intros [|p' ps] p o Hl Hh Hlen Hs; try done;
    injection Hh as ->; destruct Hl as (e & He & _ & Hprev & Hl); cbn [seen traverse] in *;
    unfold mbind at 1, M_bind at 1; rewrite (deref_run _ _ _ He);
    assert (cont (heap c) p = Some (content e)) as Hc by (unfold cont; by rewrite He);
    rewrite Hc in *; unfold visible in *; cbn [timestamp content with_next with_prev] in *;
    destruct (timestamp e =? Transaction.ID x), (timestamp e <=? Transaction.startTS x); cbn [orb] in *;
    try (exists p, (content e); by split).
  - destruct ps; [by destruct Hs as (? & ? & ?)|cbn in Hlen; lia].
  - unfold getPrev. unfold mbind at 1, M_bind at 1. unfold mbind at 1, M_bind at 1. rewrite (deref_run _ _ _ He).
    destruct ps as [|q ps]; [by destruct Hs as (? & ? & ?)|]. rewrite Hprev. cbn [head mret M_ret].
    apply (IH (q :: ps) q (Some p)); [done|done|cbn in *; lia|done].
Qed.

Lemma seen_run c self chains k ps x head :
  wf c self chains -> chains !! k = Some ps -> hd_error ps = Some head -> 0 <= Transaction.startTS x ->
  exists p e, seen (cont (heap c)) x ps = Some (p, content e) /\ p ∈ ps /\ heap c !! p = Some e /\
    traverseVersionChainsForTransactionNoLock x head c = (Ret p, c).
Proof.
  intros Hw Hk Hh Hx. pose proof (wf_chain _ _ _ Hw _ _ Hk) as Hok.
  destruct (seen_total _ _ x _ Hok Hx) as (p & e & Hs & Hin & Hp & _).
  destruct (traverse_run x c (size (heap c)) ps head None) as (r & e' & Hs' & Hr);
    [apply Hok|by destruct ps|pose proof (chain_fits_heap _ _ _ Hok); lia|by exists p, e|].
  rewrite Hs in Hs'. injection Hs' as <- <-. unfold cont in Hp. destruct (heap c !! p) as [ep|] eqn:Ep; [|done].
  injection Hp as <-. by exists p, ep.
Qed.

Definition view (f : pointer -> option CatalogEntry) chains x k : option (pointer * CatalogEntry) :=
  present (chains !! k ≫= seen f x).

Lemma view_run c self chains x n :
  wf c self chains -> 0 <= Transaction.startTS x ->
  match view (cont (heap c)) chains x (lower n) with
  | Some (p, e) => exists e', e = content e' /\ heap c !! p = Some e' /\
      containsEntryNoLock x self n c = (Ret true, c) /\ getEntryNoLock x self n c = (Ret p, c)
  | None => containsEntryNoLock x self n c = (Ret false, c)
  end.
Proof.
  intros Hw Hx. pose proof Hw as [(s & Hs & Hent) Hch _]. unfold view.
  destruct (chains !! lower n) as [ps|] eqn:Ek.
  2: { cbn. unfold containsEntryNoLock, mbind, M_bind. by rewrite (get_set_run _ _ _ Hs), Hent, Ek. }
  destruct ps as [|p0 ps]; [by destruct (Hch _ _ Ek) as [_ _ _ (? & ? & ? & _)]|].
  destruct (seen_run c self chains _ _ x p0 Hw Ek eq_refl Hx) as (p & e & Hsn & _ & Hp & Ht).
  assert (containsEntryNoLock x self n c = (Ret (negb (deleted e)), c)) as Hc.
  { unfold containsEntryNoLock, mbind, M_bind. rewrite (get_set_run _ _ _ Hs), Hent, Ek. cbn [head option_bind mbind].
    by rewrite Ht, (deref_run _ _ _ Hp). }
  cbn [mbind option_bind]. rewrite Hsn. cbn [present]. change (deleted (content e)) with (deleted e).
  destruct (deleted e) eqn:Ed; cbn [negb] in Hc; [done|]. exists e. split_and!; [done..|].
  unfold getEntryNoLock, validateExistNoLock, mbind, M_bind. rewrite Hc. cbn [mret M_ret].
  rewrite (get_set_run _ _ _ Hs), Hent, Ek. cbn [head option_bind mbind]. by rewrite Ht, (deref_run _ _ _ Hp), Ed.
Qed.

Lemma observe_run c self chains x n :
  wf c self chains -> 0 <= Transaction.startTS x ->
  observe x self n c = (Ret (snd <$> view (cont (heap c)) chains x (lower n)), c).
Proof.
  intros Hw Hx. pose proof (view_run c self chains x n Hw Hx) as Hv. unfold observe, mbind, M_bind.
  destruct (view _ _ _ _) as [[p e]|]; [|by rewrite Hv].
  destruct Hv as (e' & -> & Hp & -> & ->). by rewrite (deref_run _ _ _ Hp).
Qed.

(** What was there keeps its content. *)
Definition extends c c' : Prop := forall r e, cont (heap c) r = Some e -> cont (heap c') r = Some e.

Lemma extends_trans c1 c2 c3 : extends c1 c2 -> extends c2 c3 -> extends c1 c3.
Proof. unfold extends. eauto. Qed.

Lemma seen_ext f f' x ps :
  (forall p, p ∈ ps -> exists e, f p = Some e /\ f' p = Some e) -> seen f' x ps = seen f x ps.
Proof.
  induction ps as [|p ps IH]; intros Heq; [done|]. cbn [seen].
  destruct (Heq p ltac:(left)) as (e & -> & ->). destruct (visible x e); [done|]. apply IH. intros q Hq. apply Heq. by right.
Qed.

Lemma new_run c self chains e : wf c self chains ->
  exists c', new e c = (Ret (allocated c), c') /\ wf c' self chains /\ heap c' !! allocated c = Some e /\
    (forall r er, heap c !! r = Some er -> heap c' !! r = Some er /\ r <> allocated c) /\
    (forall k ps, chains !! k = Some ps -> allocated c ∉ ps) /\ sets c' = sets c.
Proof.
  intros [Hs Hch Hfresh]. eexists. split; [done|]. cbn [heap].
  assert (forall r er, heap c !! r = Some er ->
    <[allocated c := e]> (heap c) !! r = Some er /\ r <> allocated c) as Hold.
  { intros r er Hr. pose proof (Hfresh _ _ Hr). assert (r <> allocated c) by lia. split; [|done]. by rewrite lookup_insert_ne. }
  split_and!; [|by rewrite lookup_insert_eq|exact Hold| |done].
  - split; [done| |].
    + cbn [heap]. intros k ps Hk. pose proof (Hch _ _ Hk) as Hok. apply (chain_ok_frame (heap c)); [|done].
      intros p Hp. destruct (chain_entry _ _ _ _ Hok Hp) as (ep & Hep & _). rewrite Hep. by apply Hold.
    + cbn [heap allocated]. intros r er Hr. apply lookup_insert_Some in Hr as [[<- _]|[_ Hr]]; [lia|].
      pose proof (Hfresh _ _ Hr). lia.
  - intros k ps Hk Hin. destruct (chain_entry _ _ _ _ (Hch _ _ Hk) Hin) as (ep & Hep & _). pose proof (Hfresh _ _ Hep). lia.
Qed.

(** ** The operations of one writer *)

(** The writer sees every newest version: no one else has committed or written
    since it began. *)
Definition owns c chains x : Prop :=
  forall k p ps, chains !! k = Some (p :: ps) -> exists e, cont (heap c) p = Some e /\ visible x e = true.

Definition writer x : Prop :=
  Transaction.type x = Transaction.WRITE /\ START_TRANSACTION_ID <= Transaction.ID x /\
  0 <= Transaction.startTS x < START_TRANSACTION_ID.

(** A chain that holds only a dummy stands for a name without entry. *)
Definition dummy e : Prop := deleted e = true /\ timestamp e = 0.
Definition grown (f : pointer -> option CatalogEntry) chains chains' : Prop :=
  forall k, chains' !! k = chains !! k \/
    (chains !! k = None /\ exists d e, chains' !! k = Some [d] /\ f d = Some e /\ dummy e).

(** A first use of the name [k]. *)
Definition grown_at (f : pointer -> option CatalogEntry) k chains chains' : Prop :=
  chains' = chains \/ (chains !! k = None /\ exists d e, chains' = <[k := [d]]> chains /\ f d = Some e /\ dummy e).

Lemma view_own c self chains x k p ps e :
  wf c self chains -> owns c chains x -> chains !! k = Some (p :: ps) -> cont (heap c) p = Some e ->
  view (cont (heap c)) chains x k = present (Some (p, e)).
Proof.
  intros Hw Ho Hk He. unfold view. rewrite Hk. cbn [mbind option_bind seen]. rewrite He.
  destruct (Ho _ _ _ Hk) as (e' & He' & Hv). rewrite He in He'. injection He' as <-. by rewrite Hv.
Qed.

Lemma with_entries_wf c self s chains k d e :
  wf c self chains -> sets c !! self = Some s -> chains !! k = None -> heap c !! d = Some e ->
  lower (name e) = k -> timestamp e = 0 -> next e = None -> prev e = None ->
  wf (with_entries c self s (<[k := d]> (entries s))) self (<[k := [d]]> chains).
Proof.
  intros [(s' & Hs' & Hent) Hch Hfresh] Hs Hk Hd Hn Ht Hnext Hprev. simplify_eq. split.
  - eexists. cbn [sets with_entries]. rewrite lookup_insert_eq. split; [done|]. intros k'. cbn [entries].
    destruct (decide (k' = lower (name e))) as [->|Hne]; [by rewrite !lookup_insert_eq|]. by rewrite !lookup_insert_ne.
  - intros k' ps. cbn [heap with_entries]. destruct (decide (k' = lower (name e))) as [->|Hne].
    + rewrite lookup_insert_eq. intros [= <-]. assert (cont (heap c) d = Some (content e)) as Hc by (unfold cont; by rewrite Hd).
      split; [by exists e|by apply NoDup_singleton| |by exists d, (content e)].
      apply Forall_cons. split; [by exists (content e)|done].
    + rewrite lookup_insert_ne by done. apply Hch.
  - apply Hfresh.
Qed.

Lemma visible_no_conflict x e : writer x -> visible x e = true -> checkWWConflict x e = false.
Proof.
  intros (_ & Hid & Hts). unfold visible, checkWWConflict.
  destruct (Z.eqb_spec (timestamp e) (Transaction.ID x)), (Z.leb_spec (timestamp e) (Transaction.startTS x)),
    (Z.leb_spec START_TRANSACTION_ID (timestamp e)), (Z.ltb_spec (timestamp e) START_TRANSACTION_ID),
    (Z.ltb_spec (Transaction.startTS x) (timestamp e)); cbn; done || lia.
Qed.

Lemma wf_cont_same c c' self chains :
  wf c self chains -> sets c' = sets c -> allocated c <= allocated c' ->
  (forall k ps p, chains !! k = Some ps -> p ∈ ps -> heap c' !! p = heap c !! p) ->
  (forall p e, heap c' !! p = Some e -> p < allocated c') -> wf c' self chains.
Proof.
  intros [(s & Hs & Hent) Hch _] Hsets _ Heq Hfresh. split; [exists s; by rewrite Hsets| |done].
  intros k ps Hk. apply (chain_ok_frame (heap c)); [|by apply Hch]. intros p Hp. by eapply Heq.
Qed.

(** The second half of [createEntryNoLock]: the dummy of a new name, then the head. *)
Lemma create_tail_run c self chains p e :
  let k := lower (name e) in
  wf c self chains -> heap c !! p = Some e -> next e = None ->
  (forall k ps, chains !! k = Some ps -> p ∉ ps) ->
  exists c' q qs chains1,
    (e0 ← deref p;
     dummyEntry ← createDummyEntryNoLock (name e) (oid e0);
     s ← get_set self;
     match entries s !! lower (name e) with
     | Some _ => mret tt
     | None => put_set self (mkSet (nextOID s) (<[lower (name e) := dummyEntry]> (entries s)))
     end;;
     emplaceNoLock self p;;
     getPrev p) c = (Ret q, c') /\
    grown_at (cont (heap c')) k chains chains1 /\ chains1 !! k = Some (q :: qs) /\
    wf c' self (<[k := p :: q :: qs]> chains1) /\ extends c c'.
Proof.
  intros k Hw Hp Hnext Hfree. pose proof (wf_fresh _ _ _ Hw _ _ Hp) as Hpa.
  set (d := mkEntry (P := P) DUMMY_ENTRY (name e) (oid e) 0 true false None None None).
  destruct (new_run c self chains d Hw) as (c2 & Hnew & Hw2 & Hd & Hold & Hfd & Hsets).
  pose proof Hw2 as [(s & Hs & Hent) Hch2 Hfr2].
  assert (extends c c2) as Hext2.
  { intros r er Hr. unfold cont in *. destruct (heap c !! r) as [er'|] eqn:Er; [|done]. by rewrite (proj1 (Hold _ _ Er)). }
  unfold mbind at 1, M_bind at 1. rewrite (deref_run _ _ _ Hp). unfold mbind at 1, M_bind at 1.
  unfold createDummyEntryNoLock. fold d. rewrite Hnew. unfold mbind at 1, M_bind at 1. rewrite (get_set_run _ _ _ Hs).
  rewrite Hent. fold k. unfold mbind at 1, M_bind at 1.
  assert (exists c3 q qs chains1, (match chains !! k ≫= head with
      | Some _ => mret ()
      | None => put_set self (mkSet (nextOID s) (<[k := allocated c]> (entries s))) end) c2 = (Ret tt, c3) /\
      heap c3 = heap c2 /\ grown_at (cont (heap c3)) k chains chains1 /\ chains1 !! k = Some (q :: qs) /\
      wf c3 self chains1 /\ forall k' ps, chains1 !! k' = Some ps -> p ∉ ps) as (c3 & q & qs & ch1 & -> & Hh & Hg & Hk & Hw3 & Hf3).
  { destruct (chains !! k) as [[|q qs]|] eqn:Ek; cbn [mbind option_bind head].
    - by destruct (Hch2 _ _ Ek) as [_ _ _ (? & ? & ? & _)].
    - exists c2, q, qs, chains. split_and!; [done|done|by left|done|done|done].
    - exists (with_entries c2 self s (<[k := allocated c]> (entries s))), (allocated c), [], (<[k := [allocated c]]> chains).
      split_and!; [done|done| |by rewrite lookup_insert_eq| |].
      + right. split; [done|]. exists (allocated c), (content d). split; [done|]. split; [|done].
        cbn. unfold cont. by rewrite Hd.
      + by apply (with_entries_wf _ _ _ _ _ _ d).
      + intros k' ps. destruct (decide (k' = k)) as [->|Hne]; [rewrite lookup_insert_eq|rewrite lookup_insert_ne by done; apply Hfree].
        intros [= <-] Hin. apply list_elem_of_singleton in Hin. subst p. lia. }
  destruct (emplace_run c3 self ch1 k p q qs e Hw3 Hk) as (c' & He & Hgp & Hw' & Hcont' & _);
    [rewrite Hh; by apply Hold|done|done|done|].
  exists c', q, qs, ch1. unfold mbind, M_bind. rewrite He, Hgp. split_and!; [done| |done|done|].
  - destruct Hg as [?|(? & d' & e' & ? & ? & ?)]; [by left|right]. split; [done|]. exists d', e'. by rewrite Hcont'.
  - intros r er Hr. rewrite Hcont', Hh. by apply Hext2.
Qed.

Lemma createEntryNoLock_run c self chains x p e :
  let k := lower (name e) in
  wf c self chains -> owns c chains x -> writer x -> heap c !! p = Some e -> next e = None ->
  (forall k ps, chains !! k = Some ps -> p ∉ ps) ->
  match view (cont (heap c)) chains x k with
  | Some _ => createEntryNoLock x self p c = (Throw (CatalogException "{} already exists in catalog."), c)
  | None => exists c' q qs chains1, createEntryNoLock x self p c = (Ret q, c') /\
      grown_at (cont (heap c')) k chains chains1 /\ chains1 !! k = Some (q :: qs) /\
      wf c' self (<[k := p :: q :: qs]> chains1) /\
      cont (heap c') p = Some (content (with_timestamp e (Transaction.ID x))) /\
      forall r er, r <> p -> cont (heap c) r = Some er -> cont (heap c') r = Some er
  end.
Proof.
  intros k Hw Ho Hx Hp Hnext Hfree. pose proof Hx as (_ & _ & Hts).
  pose proof (view_run c self chains x (name e) Hw ltac:(lia)) as Hv. fold k in Hv.
  unfold createEntryNoLock, validateNotExistNoLock. destruct (view _ _ _ k) as [[r er]|] eqn:Ev.
  { unfold mbind, M_bind. rewrite (getName_run _ _ _ Hp). by destruct Hv as (? & _ & _ & -> & _). }
  unfold mbind at 1, M_bind at 1. rewrite (getName_run _ _ _ Hp).
  unfold mbind at 1, M_bind at 1. unfold mbind at 1, M_bind at 1. rewrite Hv. cbn [mret M_ret].
  set (e1 := with_timestamp e (Transaction.ID x)). set (c1 := with_heap c (<[p := e1]> (heap c))).
  assert (Hw1 : wf c1 self chains).
  { apply (wf_cont_same c); [done|done|cbn; lia| |].
    - intros k' ps r Hk' Hr. cbn. rewrite lookup_insert_ne; [done|]. intros ->. by apply (Hfree _ _ Hk').
    - cbn. intros r er Hr. apply lookup_insert_Some in Hr as [[<- _]|[_ Hr]]; by eapply (wf_fresh _ _ _ Hw). }
  unfold mbind at 1, M_bind at 1. unfold setTimestamp. rewrite (update_run p c e _ Hp). fold e1 c1.
  destruct (wf_set _ _ _ Hw1) as (s & Hs & Hent). unfold mbind at 1, M_bind at 1. rewrite (get_set_run _ _ _ Hs).
  rewrite Hent. fold k. unfold mbind at 1, M_bind at 1.
  match goal with |- context [match ?m c1 with _ => _ end] => assert (m c1 = (Ret tt, c1)) as -> end.
  { destruct (chains !! k) as [[|q qs]|] eqn:Ek; [done| |done]. cbn [mbind option_bind head].
    destruct (Ho _ _ _ Ek) as (eq & Heq & Hvis). rewrite (view_own _ _ _ _ _ _ _ _ Hw Ho Ek Heq) in Ev.
    unfold cont in Heq. destruct (heap c !! q) as [eq'|] eqn:Eq; [|done]. injection Heq as <-.
    assert (q <> p) by (intros ->; apply (Hfree _ _ Ek); left).
    unfold mbind, M_bind. rewrite (deref_run q c1 eq') by (cbn; by rewrite lookup_insert_ne).
    rewrite (visible_no_conflict x eq' Hx Hvis). cbn in Ev. by destruct (deleted eq'). }
  destruct (create_tail_run c1 self chains p e1) as (c' & q & qs & ch1 & Hrun & Hg & Hk & Hw' & Hext);
    [done|cbn; by rewrite lookup_insert_eq|done|done|].
  exists c', q, qs, ch1. split; [exact Hrun|]. split_and!; [done|done|done| |].
  - apply Hext. cbn. unfold cont. by rewrite lookup_insert_eq.
  - intros r er Hr Her. apply Hext. cbn. unfold cont. rewrite lookup_insert_ne by done. exact Her.
Qed.
End facts.

(** The DDL of one transaction: the versions it pushed, newest first, over the
    catalog it began with, and the undo records that take them back. *)

Section history.
Context {P I : Type} (table_alter : AlterType -> I -> option Z -> P -> outcome P).
Abbreviation CatalogEntry := (CatalogEntry P).
Abbreviation Catalog := (Catalog P).
Implicit Types (e : CatalogEntry) (c : Catalog) (h : gmap pointer CatalogEntry) (self p q : pointer).
Implicit Types (x y : Transaction.t) (ps : list pointer) (k n : string) (chains ch base : gmap string (list pointer)).

(** ** Runs of the two functions that push a version *)

Lemma extends_new c c' p : (forall r er, heap c !! r = Some er -> heap c' !! r = Some er /\ r <> p) -> extends c c'.
Proof.
  intros Hold r er Hr. unfold cont in *. destruct (heap c !! r) as [e'|] eqn:Er; [|done]. by rewrite (proj1 (Hold _ _ Er)).
Qed.

Lemma dropEntryNoLock_run c self chains x n oid :
  let k := lower n in
  wf c self chains -> owns c chains x -> writer x ->
  match view (cont (heap c)) chains x k with
  | None => dropEntryNoLock x self n oid c = (Throw (CatalogException "{} does not exist in catalog."), c)
  | Some (q, _) => exists c' p qs, dropEntryNoLock x self n oid c = (Ret q, c') /\
      chains !! k = Some (q :: qs) /\ wf c' self (<[k := p :: q :: qs]> chains) /\ extends c c' /\
      cont (heap c') p = Some (mkEntry DUMMY_ENTRY n oid (Transaction.ID x) true false None None None) /\
      heap c !! p = None /\
      (forall r er, r <> q -> heap c !! r = Some er -> heap c' !! r = Some er)
  end.
Proof.
  intros k Hw Ho Hx. pose proof Hx as (_ & _ & Hts).
  pose proof (view_run c self chains x n Hw ltac:(lia)) as Hv. fold k in Hv.
  unfold dropEntryNoLock, validateExistNoLock. destruct (view _ _ _ k) as [[q eq]|] eqn:Ev.
  2: { unfold mbind, M_bind. by rewrite Hv. }
  destruct Hv as (eq' & -> & Hq & Hc & _).
  assert (exists qs, chains !! k = Some (q :: qs)) as (qs & Hk).
  { unfold view in Ev. destruct (chains !! k) as [[|r qs]|] eqn:Ek; [done| |done]. destruct (Ho _ _ _ Ek) as (er & Her & Hvis).
    cbn in Ev. rewrite Her, Hvis in Ev. cbn in Ev. destruct (deleted er); [done|]. injection Ev as -> _. by exists qs. }
  set (d := mkEntry (P := P) DUMMY_ENTRY n oid 0 true false None None None).
  destruct (new_run c self chains d Hw) as (c1 & Hnew & Hw1 & Hd & Hold & Hfd & Hsets).
  set (c2 := with_heap c1 (<[allocated c := with_timestamp d (Transaction.ID x)]> (heap c1))).
  assert (Hw2 : wf c2 self chains).
  { apply (wf_cont_same c1); [done|done|cbn; lia| |].
    - intros k' ps r Hk' Hr. cbn. rewrite lookup_insert_ne; [done|]. intros <-. by apply (Hfd _ _ Hk').
    - cbn. intros r er Hr. apply lookup_insert_Some in Hr as [[<- _]|[_ Hr]]; by eapply (wf_fresh _ _ _ Hw1). }
  destruct (emplace_run c2 self chains k (allocated c) q qs (with_timestamp d (Transaction.ID x)) Hw2 Hk) as
    (c' & He & Hg & Hw' & Hcont & Hrest); [cbn; by rewrite lookup_insert_eq|done|done|done|].
  exists c', (allocated c), qs. split_and!; [|done|done| | | |].
  - unfold mbind, M_bind. rewrite Hc. cbn [mret M_ret]. unfold createDummyEntryNoLock. fold d. rewrite Hnew.
    unfold setTimestamp. rewrite (update_run _ c1 d _ Hd). fold c2. by rewrite He, Hg.
  - intros r er Hr. rewrite Hcont. unfold cont, c2 in *. cbn. destruct (heap c !! r) as [er'|] eqn:Er; [|done].
    destruct (Hold _ _ Er) as [Hr1 Hne]. by rewrite lookup_insert_ne, Hr1.
  - rewrite Hcont. unfold cont, c2. cbn. by rewrite lookup_insert_eq.
  - apply eq_None_not_Some. intros (er & Her). by apply (Hold _ _ Her).
  - intros r er Hr Her. destruct (Hold _ _ Her) as [Hr1 Hne]. rewrite Hrest by done. cbn. by rewrite lookup_insert_ne.
Qed.

(** ** The history *)

(** A version, its name and the version below it. *)
Definition push : Type := string * pointer * pointer.

Fixpoint pops (log : list push) ch base : Prop :=
  match log with
  | [] => ch = base
  | (k, p, q) :: log => exists qs, ch !! k = Some (p :: q :: qs) /\ pops log (<[k := q :: qs]> ch) base
  end.

Record hist c0 chains0 self x base (log : list push) ch c : Prop := {
  hist_wf : wf c self ch;
  hist_base : grown (cont (heap c)) chains0 base;
  hist_pops : pops log ch base;
  hist_ext : extends c0 c;
  hist_log k p q : (k, p, q) ∈ log -> exists e, cont (heap c) p = Some e /\ timestamp e = Transaction.ID x;
}.

(** Everything committed before the transaction began, and no one else writes. *)
Definition settled c chains x : Prop :=
  forall k ps p, chains !! k = Some ps -> p ∈ ps ->
    exists e, cont (heap c) p = Some e /\ 0 <= timestamp e <= Transaction.startTS x.

Lemma pops_cases log ch base k ps : pops log ch base -> ch !! k = Some ps ->
  exists news bs, ps = news ++ bs /\ base !! k = Some bs /\ forall p, p ∈ news -> exists q, (k, p, q) ∈ log.
Proof.
  revert ch k ps. induction log as [|[[k' p] q] log IH]; intros ch k ps; cbn [pops].
  - intros -> Hk. exists [], ps. split_and!; [done|done|]. intros p Hp. by apply elem_of_nil in Hp.
  - intros (qs & Hk' & Hpops) Hk. destruct (decide (k = k')) as [->|Hne].
    + rewrite Hk in Hk'. injection Hk' as ->.
      destruct (IH _ k' (q :: qs) Hpops) as (news & bs & Heq & Hb & Hin); [by rewrite lookup_insert_eq|].
      exists (p :: news), bs. split_and!; [by rewrite Heq|done|]. intros r [->|Hr]%elem_of_cons; [exists q; left|].
      destruct (Hin _ Hr) as (q' & ?). exists q'. by right.
    + destruct (IH _ k ps Hpops) as (news & bs & Heq & Hb & Hin); [by rewrite lookup_insert_ne|].
      exists news, bs. split_and!; [done|done|]. intros r Hr. destruct (Hin _ Hr) as (q' & ?). exists q'. by right.
Qed.

Lemma pops_none log ch base k : pops log ch base -> ch !! k = None -> base !! k = None.
Proof.
  revert ch. induction log as [|[[k' p] q] log IH]; intros ch; cbn [pops]; [by intros ->|].
  intros (qs & Hk' & Hpops) Hk. apply (IH _ Hpops). rewrite lookup_insert_ne; [done|]. intros ->. congruence.
Qed.

Lemma pops_new log ch base k ps : pops log ch base -> ch !! k = None -> pops log (<[k := ps]> ch) (<[k := ps]> base).
Proof.
  revert ch. induction log as [|[[k' p] q] log IH]; intros ch; cbn [pops]; [by intros ->|].
  intros (qs & Hk' & Hpops) Hk. assert (k <> k') by (intros ->; congruence). exists qs.
  rewrite lookup_insert_ne by done. split; [done|]. rewrite insert_insert_ne by done.
  apply IH; [done|]. by rewrite lookup_insert_ne.
Qed.

Section one_writer.
Context c0 chains0 self x (Hw0 : wf c0 self chains0) (Hs0 : settled c0 chains0 x) (Hx : writer x).
Abbreviation hist := (hist c0 chains0 self x).

Lemma grown_extends c c' chains chains' :
  extends c c' -> grown (cont (heap c)) chains chains' -> grown (cont (heap c')) chains chains'.
Proof.
  intros He Hg k. destruct (Hg k) as [?|(? & d & e & ? & ? & ?)]; [by left|right].
  split; [done|]. exists d, e. split; [done|]. split; [by apply He|done].
Qed.

Lemma hist_start : hist chains0 [] chains0 c0.
Proof. split; [done|by intros k; left|done|by intros r e|]. intros k p q Hin. by apply elem_of_nil in Hin. Qed.

Lemma hist_same base log ch c c' : hist base log ch c -> wf c' self ch -> extends c c' -> hist base log ch c'.
Proof.
  intros [_ Hb Hp He Hl] Hw Hext. split; [done|by apply (grown_extends c)|done|by eapply extends_trans|].
  intros k p q Hin. destruct (Hl _ _ _ Hin) as (e & ? & ?). exists e. split; [by apply Hext|done].
Qed.

Lemma hist_push base log ch c c' ch1 k p q qs e :
  hist base log ch c -> grown_at (cont (heap c')) k ch ch1 -> ch1 !! k = Some (q :: qs) ->
  wf c' self (<[k := p :: q :: qs]> ch1) -> extends c c' ->
  cont (heap c') p = Some e -> timestamp e = Transaction.ID x ->
  exists base', hist base' ((k, p, q) :: log) (<[k := p :: q :: qs]> ch1) c'.
Proof.
  intros [_ Hb Hp He Hl] Hg Hk Hw Hext Hpe Hte.
  assert (exists base', pops log ch1 base' /\ grown (cont (heap c')) chains0 base') as (base' & Hp' & Hb').
  { apply (grown_extends c c') in Hb; [|done]. destruct Hg as [->|(Hn & d & ed & -> & Hd & Hdum)]; [by exists base|].
    exists (<[k := [d]]> base). split; [by apply pops_new|]. intros k'.
    destruct (decide (k' = k)) as [->|Hne]; [|by rewrite lookup_insert_ne].
    right. pose proof (pops_none _ _ _ _ Hp Hn) as Hbn. destruct (Hb k) as [E|(? & ? & ? & ? & _)]; [|congruence].
    split; [congruence|]. exists d, ed. by rewrite lookup_insert_eq. }
  exists base'. split; [done|done| |by eapply extends_trans|].
  - exists qs. rewrite lookup_insert_eq. split; [done|]. rewrite insert_insert_eq. by rewrite insert_id.
  - intros k' p' q' [[= -> -> ->]|Hin]%elem_of_cons; [by exists e|].
    destruct (Hl _ _ _ Hin) as (e' & ? & ?). exists e'. split; [by apply Hext|done].
Qed.

Lemma hist_owns base log ch c : hist base log ch c -> owns c ch x.
Proof.
  intros [Hw Hb Hp He Hl] k p ps Hk.
  destruct (pops_cases _ _ _ _ _ Hp Hk) as (news & bs & Heq & Hbk & Hnews). destruct Hx as (_ & _ & Hts).
  destruct news as [|r news].
  - cbn in Heq. subst bs. destruct (Hb k) as [E|(_ & d & e & E & Hd & Hdel & Ht)].
    + rewrite Hbk in E. symmetry in E. destruct (Hs0 k _ p E ltac:(left)) as (e & Hpe & Hte). exists e.
      split; [by apply He|]. unfold visible. rewrite (proj2 (Z.leb_le _ _)) by lia. by rewrite orb_true_r.
    + rewrite Hbk in E. injection E as -> ->. exists e. split; [done|]. unfold visible.
      rewrite Ht, (proj2 (Z.leb_le _ _)) by lia. by rewrite orb_true_r.
  - injection Heq as <- ->. destruct (Hnews p ltac:(left)) as (q & Hin). destruct (Hl _ _ _ Hin) as (e & Hpe & Hte).
    exists e. split; [done|]. unfold visible. by rewrite Hte, Z.eqb_refl.
Qed.
End one_writer.
End history.
