(* ===== verification/CatalogRun.v ===== *)
(** The DDL operations of a writer, whole: what each leaves in the catalog and in
    the undo buffer, on every way it can end. *)
From stdpp Require Import gmap.
From S2P Require Import Prelude Effects VersionInfo Transaction UndoBuffer UndoBufferSpec CatalogSet CatalogFacts.
Import CatalogSet.
Local Open Scope Z_scope.

(** What holds after a return and what holds after an exception; a run that is
    undefined promises nothing. *)
Definition triple {S A} (m : M S A) (s : S) (Q : A -> S -> Prop) (E : S -> Prop) : Prop :=
  match m s with (Ret a, s') => Q a s' | (Throw _, s') => E s' | (Undef, _) => True end.

Section triple.
Context {S : Type}.

Lemma triple_bind {A B} (m : M S A) (f : A -> M S B) s Q E :
  triple m s (fun a s' => triple (f a) s' Q E) E -> triple (mbind f m) s Q E.
Proof. unfold triple, mbind, M_bind. by destruct (m s) as [[a|e|] s']. Qed.

Lemma triple_mono {A} (m : M S A) s (Q Q' : A -> S -> Prop) (E E' : S -> Prop) :
  triple m s Q E -> (forall a s', Q a s' -> Q' a s') -> (forall s', E s' -> E' s') -> triple m s Q' E'.
Proof. unfold triple. destruct (m s) as [[a|e|] s']; auto. Qed.

Lemma triple_ret {A} (a : A) s (Q : A -> S -> Prop) E : Q a s -> triple (mret a) s Q E.
Proof. done. Qed.
Lemma triple_throw {A} e s (Q : A -> S -> Prop) (E : S -> Prop) : E s -> triple (throw e) s Q E.
Proof. done. Qed.
Lemma triple_undef {A} s (Q : A -> S -> Prop) E : triple undef s Q E.
Proof. done. Qed.
Lemma triple_eq {A} (m : M S A) s r s' Q E :
  m s = (r, s') -> match r with Ret a => Q a s' | Throw _ => E s' | Undef => True end -> triple m s Q E.
Proof. unfold triple. intros ->. by destruct r. Qed.
End triple.

Section run.
Context {P I : Type} (table_alter : AlterType -> I -> option Z -> P -> outcome P).
Abbreviation CatalogEntry := (CatalogEntry P).
Abbreviation Catalog := (Catalog P).
Abbreviation State := (State (P := P) (I := I)).
Implicit Types (e : CatalogEntry) (c : Catalog) (self p q : pointer) (s : State).
Implicit Types (x y : Transaction.t) (ps : list pointer) (k n : string) (chains ch base : gmap string (list pointer)).

Definition same_but_wal s s' : Prop := catalog s' = catalog s /\ undoBuffer s' = undoBuffer s.

Lemma triple_catalog {A} (m : M Catalog A) s (Q : A -> State -> Prop) E r c' :
  m (catalog s) = (r, c') ->
  (match r with
   | Ret a => Q a (mkState c' (undoBuffer s) (hasCatalogChanges s) (localWAL s))
   | Throw _ => E (mkState c' (undoBuffer s) (hasCatalogChanges s) (localWAL s))
   | Undef => True
   end) -> triple (on_catalog m) s Q E.
Proof. unfold triple, on_catalog. intros ->. by destruct r. Qed.

Lemma triple_deref p s (Q : CatalogEntry -> State -> Prop) E :
  (forall e, heap (catalog s) !! p = Some e -> Q e s) -> triple (on_catalog (deref p)) s Q E.
Proof.
  intros HQ. unfold triple, on_catalog, deref. destruct (heap (catalog s) !! p) as [e|] eqn:Ep; [|done].
  replace (mkState (catalog s) (undoBuffer s) (hasCatalogChanges s) (localWAL s)) with s by by destruct s. by apply HQ.
Qed.

Lemma triple_log r s (E : State -> Prop) : triple (log r) s (fun _ s' => same_but_wal s s') E.
Proof. done. Qed.
Lemma triple_assert b s (E : State -> Prop) : triple (assert b) s (fun _ s' => s' = s) E.
Proof. by destruct b. Qed.

(** The undo record of the version pushed on [q]. *)
Definition record_of self (r : push) : entry :=
  (UndoBuffer.CATALOG_ENTRY, UndoBuffer.CatalogEntryRecord self r.2).

Definition recorded s self rs q s' : Prop :=
  catalog s' = catalog s /\
  holds (undoBuffer s') (rs ++ [(UndoBuffer.CATALOG_ENTRY, UndoBuffer.CatalogEntryRecord self q)]).

Lemma triple_push_undo self q s rs (E : State -> Prop) :
  holds (undoBuffer s) rs -> triple (push_undo self q) s (fun _ s' => recorded s self rs q s') E.
Proof.
  intros Hh. unfold triple, push_undo, UndoBuffer.createCatalogEntry.
  destruct (createRecord_holds _ _ UndoBuffer.CATALOG_ENTRY (UndoBuffer.CatalogEntryRecord self q) Hh) as (u' & -> & Hu'). done.
Qed.

Ltac wal_step :=
  match goal with
  | |- triple (mbind _ _) _ _ _ => apply triple_bind
  | |- triple (on_catalog (deref _)) _ _ _ => apply triple_deref; intros ? ?
  | |- triple (mret _) _ _ _ => apply triple_ret
  | |- triple (throw _) _ _ _ => apply triple_throw
  | |- triple undef _ _ _ => apply triple_undef
  | |- triple (assert _) _ _ _ => eapply triple_mono; [apply triple_assert|cbn beta; intros ? ? ->|done]
  | |- triple (log _) _ _ _ => eapply triple_mono; [apply triple_log|cbn beta; intros ? ? [? ?]|done]
  | |- triple (match ?b with _ => _ end) _ _ _ => destruct b
  end.

Lemma triple_pushCreateDrop isInMemory x self q isInternal skip s rs :
  holds (undoBuffer s) rs ->
  triple (pushCreateDropCatalogEntry isInMemory x self q isInternal skip) s
    (fun _ s' => recorded s self rs q s') (fun s' => recorded s self rs q s').
Proof.
  intros Hh. unfold pushCreateDropCatalogEntry. apply triple_bind.
  eapply triple_mono; [by apply (triple_push_undo self q s rs)| |done]. intros _ s1 [Hc Hu].
  assert (recorded s self rs q s1) as Hr by by split.
  assert (forall s2, same_but_wal s1 s2 -> recorded s self rs q s2) as Hsame.
  { intros s2 [H1 H2]. split; [congruence|]. by rewrite H2. }
  wal_step; [by apply triple_ret|]. wal_step. wal_step. wal_step.
  eapply (triple_catalog _ _ _ _ (Ret (next e))); [by apply getNext_run|]. cbn beta iota.
  replace (mkState (catalog s1) (undoBuffer s1) (hasCatalogChanges s1) (localWAL s1)) with s1 by by destruct s1.
  wal_step; [|done]. repeat (wal_step; try done). all: by apply Hsame.
Qed.

Lemma triple_pushAlter isInMemory x self q info s rs (E : State -> Prop) :
  holds (undoBuffer s) rs ->
  triple (pushAlterCatalogEntry isInMemory x self q info) s (fun _ s' => recorded s self rs q s') E.
Proof.
  intros Hh. unfold pushAlterCatalogEntry. apply triple_bind.
  eapply triple_mono; [by apply (triple_push_undo self q s rs (fun _ => False))| |done]. intros _ s1 [Hc Hu].
  wal_step; [|by split]. wal_step. split; [congruence|]. match goal with H : undoBuffer _ = _ |- _ => by rewrite H end.
Qed.

Lemma getNextOID_run c self chains : wf c self chains ->
  exists (st : t) c', sets c !! self = Some st /\ getNextOIDNoLock self c = (Ret (nextOID st), c') /\ wf c' self chains /\
    heap c' = heap c.
Proof.
  intros [(st & Hs & Hent) Hch Hfr]. exists st. eexists. split; [done|]. split.
  - unfold getNextOIDNoLock, mbind, M_bind. rewrite (get_set_run _ _ _ Hs). reflexivity.
  - split; [|done]. split; cbn [heap sets allocated]; [|done..].
    eexists. rewrite lookup_insert_eq. split; [done|]. exact Hent.
Qed.

Section one_writer.
Context (c0 : Catalog) chains0 self x (Hw0 : wf c0 self chains0) (Hs0 : settled c0 chains0 x) (Hx : writer x).
Context (isInMemory : bool).
Abbreviation hist := (hist c0 chains0 self x).

Definition records (log : list push) : list entry := map (record_of self) (rev log).

Lemma records_cons k p q log :
  records ((k, p, q) :: log) = records log ++ [(UndoBuffer.CATALOG_ENTRY, UndoBuffer.CatalogEntryRecord self q)].
Proof. unfold records. cbn [rev]. by rewrite map_app. Qed.

(** What the transaction has done so far, and that the undo buffer knows. *)
Record tracks base log ch s : Prop := {
  tracks_hist : hist base log ch (catalog s);
  tracks_undo : holds (undoBuffer s) (records log);
}.

(** One version [e] was pushed under the name [k]. *)
Definition pushed s base log ch k (e : CatalogEntry) s' : Prop :=
  exists base' ch1 p q qs, tracks base' ((k, p, q) :: log) (<[k := p :: q :: qs]> ch1) s' /\
    grown_at (cont (heap (catalog s'))) k ch ch1 /\ extends (catalog s) (catalog s') /\
    cont (heap (catalog s')) p = Some e.

Definition kept s base log ch s' : Prop := tracks base log ch s' /\ extends (catalog s) (catalog s').

Lemma recorded_pushed s s1 s2 base base1 log ch ch1 k p q qs e :
  hist base1 ((k, p, q) :: log) (<[k := p :: q :: qs]> ch1) (catalog s1) ->
  grown_at (cont (heap (catalog s1))) k ch ch1 -> extends (catalog s) (catalog s1) ->
  cont (heap (catalog s1)) p = Some e -> recorded s1 self (records log) q s2 -> pushed s base log ch k e s2.
Proof.
  intros Hh Hg He Hp [Hc Hu]. exists base1, ch1, p, q, qs. rewrite Hc. split_and!; [|done..].
  split; [by rewrite Hc|by rewrite records_cons].
Qed.

Lemma extends_heap c c' : heap c' = heap c -> extends c c'.
Proof. intros E r e. by rewrite E. Qed.

Lemma createEntry_op s base log ch e :
  tracks base log ch s -> next e = None ->
  exists st, sets (catalog s) !! self = Some st /\
  match view (cont (heap (catalog s))) ch x (lower (name e)) with
  | Some _ => exists s', createEntry (I := I) isInMemory x self e s = (Throw (CatalogException "{} already exists in catalog."), s') /\
      kept s base log ch s'
  | None =>
      let pe := content (with_timestamp (with_oid e (nextOID st)) (Transaction.ID x)) in
      triple (createEntry isInMemory x self e) s
        (fun oid s' => oid = nextOID st /\ pushed s base log ch (lower (name e)) pe s')
        (fun s' => pushed s base log ch (lower (name e)) pe s')
  end.
Proof.
  intros [Hh Hu] Hnext. pose proof (hist_wf _ _ _ _ _ _ _ _ Hh) as Hw.
  destruct (getNextOID_run _ _ _ Hw) as (st & c1 & Hst & Hoid & Hw1 & Hheap). exists st. split; [done|].
  destruct (new_run c1 self ch (with_oid e (nextOID st)) Hw1) as (c2 & Hnew & Hw2 & Hp & Hold & Hfree & _).
  assert (extends (catalog s) c2) as Hext.
  { eapply extends_trans; [by apply extends_heap|]. by eapply extends_new. }
  pose proof (hist_same _ _ _ _ _ _ _ _ _ Hh Hw2 Hext) as Hh2.
  pose proof (hist_owns _ _ _ _ Hs0 Hx _ _ _ _ Hh2) as Ho2.
  assert (view (cont (heap c2)) ch x (lower (name e)) = view (cont (heap (catalog s))) ch x (lower (name e))) as Hview.
  { unfold view. destruct (ch !! lower (name e)) as [ps|] eqn:Ek; [|done]. cbn. f_equal. apply seen_ext. intros r Hr.
    destruct (chain_entry _ _ _ _ (wf_chain _ _ _ Hw _ _ Ek) Hr) as (er & Her & _).
    assert (cont (heap (catalog s)) r = Some (content er)) as Hcr by (unfold cont; by rewrite Her).
    exists (content er). split; [done|by apply Hext]. }
  pose proof (createEntryNoLock_run c2 self ch x _ _ Hw2 Ho2 Hx Hp Hnext Hfree) as Hrun.
  change (name (with_oid e (nextOID st))) with (name e) in Hrun. rewrite Hview in Hrun.
  destruct (view (cont (heap (catalog s))) ch x (lower (name e))) as [[r er]|].
  - eexists. unfold createEntry, on_catalog, mbind, M_bind. rewrite Hoid. cbn [catalog]. rewrite Hnew. cbn [catalog].
    rewrite Hrun. split; [done|]. split; [by split|exact Hext].
  - intros pe. destruct Hrun as (c3 & q & qs & ch1 & Hrun & Hg & Hk & Hw3 & Hpe & Hext3).
    assert (extends (catalog s) c3) as Hext'.
    { intros r er Hr. apply Hext3; [|by apply Hext]. intros ->. unfold cont in Hr. rewrite <-Hheap in Hr.
      destruct (heap c1 !! allocated c1) as [er'|] eqn:E; [|done]. by destruct (Hold _ _ E). }
    unfold createEntry. apply triple_bind. eapply triple_catalog; [exact Hoid|]. cbn beta iota.
    apply triple_bind. eapply triple_catalog; [exact Hnew|]. cbn beta iota.
    apply triple_bind. eapply triple_catalog; [exact Hrun|]. cbn beta iota.
    destruct (hist_push _ _ _ _ _ _ _ (catalog s) c3 ch1 _ _ _ _ _ Hh Hg Hk Hw3 Hext' Hpe eq_refl) as (base1 & Hh3).
    destruct (wf_set _ _ _ Hw3) as (s3 & Hs3 & _).
    apply triple_bind. eapply triple_catalog; [apply (get_set_run _ _ _ Hs3)|]. cbn beta iota.
    apply triple_bind. unfold when, Transaction.shouldAppendToUndoBuffer, Transaction.isWriteTransaction.
    rewrite bool_decide_true by apply Hx. cbn [orb].
    eapply triple_mono; [apply (triple_pushCreateDrop isInMemory x self q (isInternal s3) false _ (records log)); exact Hu| |].
    + intros [] s' Hr. apply triple_ret. split; [done|]. eapply recorded_pushed; [| | | |exact Hr]; done.
    + intros s' Hr. eapply recorded_pushed; [| | | |exact Hr]; done.
Qed.

(** ** What the writer sees *)

Definition upd (V : string -> option CatalogEntry) k v : string -> option CatalogEntry :=
  fun k' => if decide (k' = k) then v else V k'.
Definition live e : option CatalogEntry := if deleted e then None else Some e.

Definition views c ch k : option CatalogEntry := snd <$> view (cont (heap c)) ch x k.
Definition sees s (V : string -> option CatalogEntry) : Prop :=
  exists base log ch, tracks base log ch s /\ forall k, views (catalog s) ch k = V k.

Lemma view_ext c c' ch k : wf c self ch -> extends c c' -> view (cont (heap c')) ch x k = view (cont (heap c)) ch x k.
Proof.
  intros Hw He. unfold view. destruct (ch !! k) as [ps|] eqn:Ek; [|done]. cbn. f_equal. apply seen_ext. intros r Hr.
  destruct (chain_entry _ _ _ _ (wf_chain _ _ _ Hw _ _ Ek) Hr) as (er & Her & _).
  assert (cont (heap c) r = Some (content er)) as Hcr by (unfold cont; by rewrite Her).
  exists (content er). split; [done|by apply He].
Qed.

Lemma views_push c c' ch ch1 k p ps e :
  wf c self ch -> extends c c' -> grown_at (cont (heap c')) k ch ch1 ->
  cont (heap c') p = Some e -> timestamp e = Transaction.ID x ->
  forall k', views c' (<[k := p :: ps]> ch1) k' = upd (views c ch) k (live e) k'.
Proof.
  intros Hw He Hg Hp Ht k'. unfold views, upd. destruct (decide (k' = k)) as [->|Hne].
  - unfold view. rewrite lookup_insert_eq. cbn. rewrite Hp. unfold visible. rewrite Ht, Z.eqb_refl. cbn.
    unfold live. by destruct (deleted e).
  - rewrite <-(view_ext c c' ch k' Hw He). unfold view. rewrite lookup_insert_ne by done.
    destruct Hg as [->|(_ & d & ed & -> & _)]; [done|]. by rewrite lookup_insert_ne.
Qed.

Lemma pushed_sees s base log ch k e s' :
  tracks base log ch s -> pushed s base log ch k e s' -> timestamp e = Transaction.ID x ->
  sees s' (upd (views (catalog s) ch) k (live e)).
Proof.
  intros [Hh _] (base' & ch1 & p & q & qs & Ht & Hg & He & Hp) Hts.
  eexists _, _, _. split; [exact Ht|]. by apply views_push; [apply Hh|..].
Qed.

Lemma kept_sees s base log ch s' : tracks base log ch s -> kept s base log ch s' -> sees s' (views (catalog s) ch).
Proof.
  intros [Hh _] [Ht He]. eexists _, _, _. split; [exact Ht|]. intros k. unfold views. by rewrite (view_ext _ _ _ _ (hist_wf _ _ _ _ _ _ _ _ Hh) He).
Qed.

Lemma view_views c ch k : match view (cont (heap c)) ch x k with Some (_, e) => views c ch k = Some e | None => views c ch k = None end.
Proof. unfold views. by destruct (view _ _ _ _) as [[p e]|]. Qed.

(** A name the writer sees has its visible entry at the head. *)
Lemma view_head c ch k p e : wf c self ch -> owns c ch x -> view (cont (heap c)) ch x k = Some (p, e) ->
  exists ps, ch !! k = Some (p :: ps) /\ cont (heap c) p = Some e /\ deleted e = false.
Proof.
  intros Hw Ho Hv. unfold view in Hv. destruct (ch !! k) as [[|r qs]|] eqn:Ek; [done| |done].
  destruct (Ho _ _ _ Ek) as (er & Her & Hvis). cbn in Hv. rewrite Her, Hvis in Hv. cbn in Hv.
  destruct (deleted er) eqn:Ed; [done|]. injection Hv as -> <-. by exists qs.
Qed.

Lemma dropEntry_op s V n oid :
  sees s V ->
  match V (lower n) with
  | None => exists s', dropEntry (I := I) isInMemory x self n oid s = (Throw (CatalogException "{} does not exist in catalog."), s') /\ sees s' V
  | Some _ => triple (dropEntry isInMemory x self n oid) s
                (fun _ s' => sees s' (upd V (lower n) None)) (fun s' => sees s' (upd V (lower n) None))
  end.
Proof.
  intros (base & log & ch & Ht & HV). pose proof Ht as [Hh Hu]. pose proof (hist_wf _ _ _ _ _ _ _ _ Hh) as Hw.
  pose proof (hist_owns _ _ _ _ Hs0 Hx _ _ _ _ Hh) as Ho.
  pose proof (dropEntryNoLock_run (catalog s) self ch x n oid Hw Ho Hx) as Hrun. rewrite <-HV.
  pose proof (view_views (catalog s) ch (lower n)) as Hvv.
  destruct (view (cont (heap (catalog s))) ch x (lower n)) as [[q eq]|] eqn:Ev; rewrite Hvv.
  - destruct Hrun as (c1 & p & qs & Hrun & Hk & Hw1 & Hext & Hp & _ & _).
    set (tomb := mkEntry DUMMY_ENTRY n oid (Transaction.ID x) true false None None None) in Hp.
    unfold dropEntry. apply triple_bind. eapply triple_catalog; [exact Hrun|]. cbn beta iota.
    destruct (wf_set _ _ _ Hw1) as (s1 & Hs1 & _).
    apply triple_bind. eapply triple_catalog; [apply (get_set_run _ _ _ Hs1)|]. cbn beta iota.
    destruct (hist_push _ _ _ _ _ _ _ _ c1 ch _ _ _ _ _ Hh (or_introl eq_refl) Hk Hw1 Hext Hp eq_refl) as (base1 & Hh1).
    unfold when, Transaction.shouldAppendToUndoBuffer, Transaction.isWriteTransaction.
    rewrite bool_decide_true by apply Hx. cbn [orb].
    assert (forall s', recorded (mkState c1 (undoBuffer s) (hasCatalogChanges s) (localWAL s)) self (records log) q s' ->
      sees s' (upd V (lower n) None)) as Hdone.
    { intros s' Hr. destruct (pushed_sees s base log ch (lower n) tomb s' Ht) as (b & l & c' & Ht' & Hv');
        [eapply recorded_pushed; [| | | |exact Hr]; [exact Hh1|by left|exact Hext|exact Hp]|done|].
      exists b, l, c'. split; [done|]. intros k. rewrite Hv'. unfold upd. destruct (decide _); [done|apply HV]. }
    eapply triple_mono; [apply (triple_pushCreateDrop isInMemory x self q (isInternal s1) false _ (records log)); exact Hu| |].
    + intros [] s' Hr. by apply Hdone.
    + intros s' Hr. by apply Hdone.
  - exists s. unfold dropEntry, on_catalog, mbind, M_bind. rewrite Hrun. split; [by destruct s|]. by exists base, log, ch.
Qed.

(** ** ALTER *)

Definition altered e (info : BoundAlterInfo I) (columns : P) : CatalogEntry :=
  mkEntry (type e) (if decide (alterType info = RENAME) then newName info else name e) (oid e) (Transaction.ID x)
    false (hasParent e) (Some columns) None None.

(** The columns an ALTER may give a table: those of [table_alter]; a rename keeps them. *)
Definition altered_columns e (info : BoundAlterInfo I) (columns' : P) : Prop :=
  exists columns, payload e = Some columns /\
    if decide (alterType info = RENAME) then columns' = columns
    else exists oid, table_alter (alterType info) (extraInfo info) oid columns = Ret columns'.

Lemma triple_on_catalog {A} (m : M Catalog A) s (Q : A -> State -> Prop) (E : State -> Prop) :
  triple m (catalog s) (fun a c' => Q a (mkState c' (undoBuffer s) (hasCatalogChanges s) (localWAL s)))
    (fun c' => E (mkState c' (undoBuffer s) (hasCatalogChanges s) (localWAL s))) -> triple (on_catalog m) s Q E.
Proof. unfold triple, on_catalog. by destruct (m (catalog s)) as [[a|e|] c']. Qed.

Lemma triple_lift {A} (o : outcome A) c (Q : A -> Catalog -> Prop) (E : Catalog -> Prop) :
  (forall a, o = Ret a -> Q a c) -> E c -> triple (lift o) c Q E.
Proof. unfold triple, lift. destruct o; auto. Qed.

Lemma triple_alter c ch info p e :
  wf c self ch -> heap c !! p = Some e -> deleted e = false ->
  triple (alter table_alter (Transaction.ID x) info self p) c
    (fun t c' => exists columns, altered_columns e info columns /\ wf c' self ch /\ extends c c' /\
       heap c' !! t = Some (altered e info columns) /\ (forall k ps, ch !! k = Some ps -> t ∉ ps) /\ cont (heap c) t = None)
    (fun c' => wf c' self ch /\ extends c c').
Proof.
  intros Hw Hp Hdel. unfold alter. apply triple_bind. eapply triple_eq; [by apply deref_run|]. cbn beta iota. rewrite Hdel.
  apply triple_bind. destruct (payload e) as [columns|] eqn:Epay; [|done]. apply triple_ret. cbn zeta.
  assert (forall c1 columns', wf c1 self ch -> heap c1 = heap c -> altered_columns e info columns' ->
    triple (new (altered e info columns')) c1
      (fun t c' => exists columns, altered_columns e info columns /\ wf c' self ch /\ extends c c' /\
       heap c' !! t = Some (altered e info columns) /\ (forall k ps, ch !! k = Some ps -> t ∉ ps) /\ cont (heap c) t = None)
      (fun c' => wf c' self ch /\ extends c c')) as Hnew.
  { intros c1 columns' Hw1 Hh Hcols. destruct (new_run c1 self ch (altered e info columns') Hw1) as (c2 & Hrun & Hw2 & Ht & Hold & Hf & _).
    eapply triple_eq; [exact Hrun|]. cbn beta iota. exists columns'. split_and!; [done|done| |done|done|].
    - intros r er Hr. rewrite <-Hh in Hr. by apply (extends_new c1 c2 (allocated c1)).
    - unfold cont. rewrite <-Hh. destruct (heap c1 !! allocated c1) as [er|] eqn:E; [|done]. by destruct (Hold _ _ E). }
  apply triple_bind. eapply (triple_mono _ _ (fun columns' c1 => wf c1 self ch /\ heap c1 = heap c /\ altered_columns e info columns')).
  2: { intros columns' c1 (Hw1 & Hh & Hcols). by apply Hnew. }
  2: { intros c1 H1. exact H1. }
  unfold altered_columns. rewrite Epay. destruct (decide (alterType info = RENAME)) as [Er|Er].
  { rewrite Er. apply triple_ret. split_and!; [done..|]. by exists columns. }
  assert (forall oid c1, wf c1 self ch -> heap c1 = heap c ->
    triple (lift (table_alter (alterType info) (extraInfo info) oid columns)) c1
      (fun columns' c1 => wf c1 self ch /\ heap c1 = heap c /\ exists columns0, Some columns = Some columns0 /\
         exists oid, table_alter (alterType info) (extraInfo info) oid columns0 = Ret columns')
      (fun c1 => wf c1 self ch /\ extends c c1)) as Hlift.
  { intros oid c1 Hw1 Hh. apply triple_lift; [|split; [done|by apply extends_heap]]. intros columns' Hc.
    split_and!; [done..|]. exists columns. eauto. }
  destruct (alterType info); [done|by apply Hlift..| |by apply Hlift|done].
  destruct (getNextOID_run _ _ _ Hw) as (st & c1 & _ & Hoid & Hw1 & Hh).
  apply triple_bind. eapply triple_eq; [exact Hoid|]. cbn beta iota. by apply Hlift.
Qed.

Lemma state_eta s : mkState (catalog s) (undoBuffer s) (hasCatalogChanges s) (localWAL s) = s.
Proof. by destruct s. Qed.

Lemma sees_upd s V V' k v : (forall k', V k' = V' k') -> sees s (upd V k v) -> sees s (upd V' k v).
Proof.
  intros HV (b & l & ch & Ht & Hv). exists b, l, ch. split; [done|]. intros k'. rewrite Hv. unfold upd.
  by destruct (decide _).
Qed.

Lemma getEntry_missing c ch n : wf c self ch -> view (cont (heap c)) ch x (lower n) = None ->
  validateExistNoLock x self n c = (Throw (CatalogException "{} does not exist in catalog."), c).
Proof.
  intros Hw Hv. pose proof Hx as (_ & _ & Hts). pose proof (view_run c self ch x n Hw ltac:(lia)) as Hr. rewrite Hv in Hr.
  unfold validateExistNoLock, mbind, M_bind. by rewrite Hr.
Qed.

Lemma getEntry_found c ch n p e : wf c self ch -> view (cont (heap c)) ch x (lower n) = Some (p, e) ->
  exists e', e = content e' /\ heap c !! p = Some e' /\ validateExistNoLock x self n c = (Ret tt, c) /\
    getEntryNoLock x self n c = (Ret p, c).
Proof.
  intros Hw Hv. pose proof Hx as (_ & _ & Hts). pose proof (view_run c self ch x n Hw ltac:(lia)) as Hr. rewrite Hv in Hr.
  destruct Hr as (e' & -> & Hp & Hc & Hg). exists e'. split_and!; [done..| |done].
  unfold validateExistNoLock, mbind, M_bind. by rewrite Hc.
Qed.

(** The new version of a table that keeps its name. *)
Lemma alter_columns_op s V base log ch info p e c1 t columns :
  tracks base log ch s -> (forall k, views (catalog s) ch k = V k) ->
  view (cont (heap (catalog s))) ch x (lower (tableName info)) = Some (p, content e) ->
  heap (catalog s) !! p = Some e -> alterType info <> RENAME ->
  wf c1 self ch -> extends (catalog s) c1 -> heap c1 !! t = Some (altered e info columns) ->
  (forall k ps, ch !! k = Some ps -> t ∉ ps) ->
  triple (on_catalog (emplaceNoLock self t);;
          when (Transaction.shouldAppendToUndoBuffer x) (pushAlterCatalogEntry isInMemory x self p info))
    (mkState c1 (undoBuffer s) (hasCatalogChanges s) (localWAL s))
    (fun _ s' => sees s' (upd V (lower (tableName info)) (Some (altered e info columns)))) (fun _ => False).
Proof.
  intros Ht HV Hv Hp Hty Hw1 Hext Ht1 Hfree. pose proof Ht as [Hh Hu]. pose proof (hist_wf _ _ _ _ _ _ _ _ Hh) as Hw.
  pose proof (hist_owns _ _ _ _ Hs0 Hx _ _ _ _ Hh) as Ho.
  destruct (view_head _ _ _ _ _ Hw Ho Hv) as (ps & Hk & _ & Hdel).
  destruct (chain_entry _ _ _ p (wf_chain _ _ _ Hw _ _ Hk) ltac:(left)) as (e2 & Hp2 & Hn). rewrite Hp in Hp2. injection Hp2 as <-.
  destruct (emplace_run c1 self ch _ t p ps _ Hw1 Hk Ht1) as (c2 & He & _ & Hw2 & Hcont & _);
    [done|cbn; by rewrite decide_False|done|].
  assert (extends (catalog s) c2) as Hext2 by (intros r er Hr; rewrite Hcont; by apply Hext).
  assert (cont (heap c2) t = Some (altered e info columns)) as Ht2 by (rewrite Hcont; unfold cont; by rewrite Ht1).
  destruct (hist_push _ _ _ _ _ _ _ _ c2 ch _ _ _ _ _ Hh (or_introl eq_refl) Hk Hw2 Hext2 Ht2 eq_refl) as (base1 & Hh1).
  apply triple_bind. eapply triple_catalog; [exact He|]. cbn beta iota.
  unfold when, Transaction.shouldAppendToUndoBuffer, Transaction.isWriteTransaction. rewrite bool_decide_true by apply Hx. cbn [orb].
  eapply triple_mono; [apply (triple_pushAlter isInMemory x self p info _ (records log)); exact Hu| |exact (fun s' H => H)].
  intros [] s' Hr. apply (sees_upd _ _ _ _ _ HV). apply (pushed_sees s base log ch _ (altered e info columns)); [done| |done].
  eapply recorded_pushed; [| | | |exact Hr]; [exact Hh1|by left|exact Hext2|exact Ht2].
Qed.

(** A rename drops the old name and creates the new one. *)
Lemma rename_op s V base log ch info p e c1 t columns :
  tracks base log ch s -> (forall k, views (catalog s) ch k = V k) ->
  view (cont (heap (catalog s))) ch x (lower (tableName info)) = Some (p, content e) ->
  alterType info = RENAME -> V (lower (newName info)) = None ->
  wf c1 self ch -> extends (catalog s) c1 -> heap c1 !! t = Some (altered e info columns) ->
  (forall k ps, ch !! k = Some ps -> t ∉ ps) ->
  triple (on_catalog (dropEntryNoLock x self (tableName info) (oid e));;
          createdEntry ← on_catalog (createEntryNoLock x self t);
          s ← on_catalog (get_set self);
          when (Transaction.shouldAppendToUndoBuffer x)
            (pushAlterCatalogEntry isInMemory x self p info;;
             pushCreateDropCatalogEntry isInMemory x self createdEntry (isInternal s) true))
    (mkState c1 (undoBuffer s) (hasCatalogChanges s) (localWAL s))
    (fun _ s' => sees s' (upd (upd V (lower (tableName info)) None) (lower (newName info)) (Some (altered e info columns))))
    (fun _ => False).
Proof.
  intros Ht HV Hv Hty Hnew Hw1 Hext Ht1 Hfree. pose proof Ht as [Hh Hu].
  pose proof (hist_same _ _ _ _ _ _ _ _ _ Hh Hw1 Hext) as Hh1. pose proof (hist_owns _ _ _ _ Hs0 Hx _ _ _ _ Hh1) as Ho1.
  pose proof (dropEntryNoLock_run c1 self ch x (tableName info) (oid e) Hw1 Ho1 Hx) as Hdrop.
  rewrite (view_ext _ _ _ _ (hist_wf _ _ _ _ _ _ _ _ Hh) Hext), Hv in Hdrop.
  destruct Hdrop as (c2 & d & qs & Hdrop & Hk & Hw2 & Hext2 & Hd & Hdn & Hrest).
  destruct (hist_push _ _ _ _ _ _ _ _ c2 ch _ _ _ _ _ Hh1 (or_introl eq_refl) Hk Hw2 Hext2 Hd eq_refl) as (base2 & Hh2).
  pose proof (hist_owns _ _ _ _ Hs0 Hx _ _ _ _ Hh2) as Ho2.
  assert (t <> p) as Htp by (intros ->; apply (Hfree _ _ Hk); left).
  assert (forall k ps, (<[lower (tableName info) := d :: p :: qs]> ch) !! k = Some ps -> t ∉ ps) as Hfree2.
  { intros k ps. destruct (decide (k = lower (tableName info))) as [->|Hne]; [|rewrite lookup_insert_ne by done; apply Hfree].
    rewrite lookup_insert_eq. intros [= <-] [->|Hin]%elem_of_cons; [congruence|]. by apply (Hfree _ _ Hk). }
  pose proof (views_push c1 c2 ch ch (lower (tableName info)) d (p :: qs) _ Hw1 Hext2 (or_introl eq_refl) Hd eq_refl) as Hv2.
  assert (forall k, views c2 (<[lower (tableName info) := d :: p :: qs]> ch) k = upd V (lower (tableName info)) None k) as Hv2'.
  { intros k. rewrite Hv2. unfold upd. destruct (decide _); [done|]. unfold views.
    rewrite (view_ext _ _ _ _ (hist_wf _ _ _ _ _ _ _ _ Hh) Hext). apply HV. }
  pose proof (createEntryNoLock_run c2 self _ x t _ Hw2 Ho2 Hx (Hrest _ _ Htp Ht1) eq_refl Hfree2) as Hcreate.
  change (name (altered e info columns)) with (if decide (alterType info = RENAME) then newName info else name e) in Hcreate.
  rewrite decide_True in Hcreate by done.
  assert (view (cont (heap c2)) (<[lower (tableName info) := d :: p :: qs]> ch) x (lower (newName info)) = None) as Hvn.
  { pose proof (view_views c2 (<[lower (tableName info) := d :: p :: qs]> ch) (lower (newName info))) as H.
    rewrite Hv2' in H. unfold upd in H. rewrite Hnew in H.
    destruct (view (cont (heap c2)) _ x (lower (newName info))) as [[r er]|]; [|done]. by destruct (decide _). }
  rewrite Hvn in Hcreate. destruct Hcreate as (c3 & q & qs3 & ch3 & Hcreate & Hg3 & Hk3 & Hw3 & Ht3 & Hext3).
  assert (extends c2 c3) as Hext3'.
  { intros r er Hr. destruct (decide (r = t)) as [->|Hne]; [|by apply Hext3]. unfold cont in Hr.
    rewrite (Hrest _ _ Htp Ht1) in Hr. injection Hr as <-. exact Ht3. }
  destruct (hist_push _ _ _ _ _ _ _ _ c3 ch3 _ _ _ _ _ Hh2 Hg3 Hk3 Hw3 Hext3' Ht3 eq_refl) as (base3 & Hh3).
  destruct (wf_set _ _ _ Hw3) as (s3 & Hs3 & _).
  apply triple_bind. eapply triple_catalog; [exact Hdrop|]. cbn beta iota.
  apply triple_bind. eapply triple_catalog; [exact Hcreate|]. cbn beta iota.
  apply triple_bind. eapply triple_catalog; [apply (get_set_run _ _ _ Hs3)|]. cbn beta iota.
  unfold when, Transaction.shouldAppendToUndoBuffer, Transaction.isWriteTransaction. rewrite bool_decide_true by apply Hx. cbn [orb].
  apply triple_bind. eapply triple_mono; [by apply triple_pushAlter| |exact (fun s' H => H)].
  intros [] s4 [Hc4 Hu4]. unfold pushCreateDropCatalogEntry. apply triple_bind.
  eapply triple_mono; [by apply triple_push_undo| |exact (fun s' H => H)]. intros [] s5 [Hc5 Hu5].
  rewrite orb_true_r. apply triple_ret.
  eexists base3, _, _. split.
  - split; [rewrite Hc5, Hc4; exact Hh3|]. rewrite !records_cons. exact Hu5.
  - rewrite Hc5, Hc4. cbn [catalog]. intros k. rewrite (views_push c2 c3 _ ch3 _ t _ _ Hw2 Hext3' Hg3 Ht3 eq_refl).
    unfold upd at 1 2. destruct (decide _); [done|apply Hv2'].
Qed.

Definition alter_view V (info : BoundAlterInfo I) e : string -> option CatalogEntry :=
  if decide (alterType info = RENAME) then upd (upd V (lower (tableName info)) None) (lower (newName info)) (Some e)
  else upd V (lower (tableName info)) (Some e).

Lemma alterTableEntry_op s V info :
  sees s V -> (alterType info = RENAME -> V (lower (newName info)) = None) ->
  triple (alterTableEntry table_alter isInMemory x self info) s
    (fun _ s' => exists e columns, V (lower (tableName info)) = Some e /\ altered_columns e info columns /\
       sees s' (alter_view V info (altered e info columns)))
    (fun s' => sees s' V).
Proof.
  intros (base & log & ch & Ht & HV) Hnew. pose proof Ht as [Hh Hu]. pose proof (hist_wf _ _ _ _ _ _ _ _ Hh) as Hw.
  pose proof (hist_owns _ _ _ _ Hs0 Hx _ _ _ _ Hh) as Ho.
  assert (forall c1, wf c1 self ch -> extends (catalog s) c1 ->
    sees (mkState c1 (undoBuffer s) (hasCatalogChanges s) (localWAL s)) V) as Hkept.
  { intros c1 Hw1 Hext. exists base, log, ch. split; [split; [by apply (hist_same _ _ _ _ _ _ _ (catalog s))|done]|].
    intros k. cbn. unfold views. rewrite (view_ext _ _ _ _ Hw Hext). apply HV. }
  pose proof (view_views (catalog s) ch (lower (tableName info))) as Hvv. rewrite HV in Hvv. unfold alterTableEntry. apply triple_bind.
  destruct (view (cont (heap (catalog s))) ch x (lower (tableName info))) as [[p pe]|] eqn:Ev.
  2: { eapply triple_catalog; [exact (getEntry_missing _ _ _ Hw Ev)|]. apply Hkept; [done|by intros r er]. }
  destruct (getEntry_found _ _ _ _ _ Hw Ev) as (e & -> & Hp & Hval & Hget).
  destruct (view_head _ _ _ _ _ Hw Ho Ev) as (ps & _ & _ & Hdel).
  eapply triple_catalog; [exact Hval|]. cbn beta iota. rewrite state_eta.
  apply triple_bind. eapply triple_catalog; [exact Hget|]. cbn beta iota. rewrite state_eta.
  apply triple_bind, triple_deref. intros e' Hp'. rewrite Hp in Hp'. injection Hp' as <-.
  apply triple_bind. eapply triple_mono; [apply triple_assert| |exact (fun s' H => H)]. intros [] s1 ->.
  apply triple_bind, triple_on_catalog. eapply triple_mono; [by apply (triple_alter _ ch _ _ e)| |].
  2: { intros c1 [Hw1 Hext]. by apply Hkept. }
  intros t c1 (columns & Hcols & Hw1 & Hext & Ht1 & Hfree & _).
  assert (altered (content e) info columns = altered e info columns) as Hae by done.
  assert (altered_columns (content e) info columns) as Hcols' by exact Hcols.
  destruct (decide (alterType info = RENAME)) as [Er|Er].
  - rewrite Er. eapply triple_mono; [apply (rename_op s V base log ch info p e c1 t columns); try done; by apply Hnew| |done].
    intros [] s' Hs'. exists (content e), columns. split; [done|]. split; [done|]. unfold alter_view. by rewrite decide_True.
  - assert (triple (on_catalog (emplaceNoLock self t);;
          when (Transaction.shouldAppendToUndoBuffer x) (pushAlterCatalogEntry isInMemory x self p info))
      (mkState c1 (undoBuffer s) (hasCatalogChanges s) (localWAL s))
      (fun _ s' => exists e columns, V (lower (tableName info)) = Some e /\ altered_columns e info columns /\
         sees s' (alter_view V info (altered e info columns))) (fun s' => sees s' V)) as Hcol.
    { eapply triple_mono; [by apply (alter_columns_op s V base log ch info p e c1 t columns)| |done].
      intros [] s' Hs'. exists (content e), columns. split; [done|]. split; [done|]. unfold alter_view. by rewrite decide_False. }
    destruct (alterType info); [done|exact Hcol..].
Qed.

(** ** Programs of DDL *)

Definition read_only {A} (m : M Catalog A) : Prop := forall c, (m c).2 = c.

Lemma read_only_bind {A B} (m : M Catalog A) (f : A -> M Catalog B) :
  read_only m -> (forall a, read_only (f a)) -> read_only (mbind f m).
Proof.
  intros Hm Hf c. unfold mbind, M_bind. pose proof (Hm c) as Hc. destruct (m c) as [[a|e|] c']; cbn in Hc; subst; [apply Hf|done..].
Qed.

Lemma deref_read p : read_only (deref p).
Proof. intros c. unfold deref. by destruct (heap c !! p). Qed.

Lemma traverse_read fuel y p : read_only (traverse fuel y p).
Proof.
  revert p. induction fuel as [|fuel IH]; intros p; cbn [traverse]; apply read_only_bind; try apply deref_read; intros e;
    do 2 (case_match; [done|]); try done.
  apply read_only_bind; [|apply IH]. unfold getPrev. apply read_only_bind; [apply deref_read|]. intros e'. by destruct (prev e').
Qed.

Lemma contains_read y set n : read_only (containsEntryNoLock y set n).
Proof.
  apply read_only_bind; [intros c; unfold get_set; by destruct (sets c !! set)|]. intros st.
  destruct (entries st !! lower n) as [head|]; [|done].
  apply read_only_bind; [intros c; apply traverse_read|]. intros p. apply read_only_bind; [apply deref_read|done].
Qed.

Lemma getEntry_read y set n : read_only (getEntryNoLock y set n).
Proof.
  apply read_only_bind; [|intros []].
  - apply read_only_bind; [apply contains_read|]. by intros [].
  - apply read_only_bind; [intros c; unfold get_set; by destruct (sets c !! set)|]. intros st.
    destruct (entries st !! lower n) as [head|]; [|done].
    apply read_only_bind; [intros c; apply traverse_read|]. intros p. apply read_only_bind; [apply deref_read|].
    intros e. by destruct (deleted e).
Qed.

Lemma triple_read {A} (m : M Catalog A) s (Q : A -> State -> Prop) (E : State -> Prop) :
  read_only m -> (forall a, m (catalog s) = (Ret a, catalog s) -> Q a s) -> E s -> triple (on_catalog m) s Q E.
Proof.
  intros Hm HQ HE. unfold triple, on_catalog. pose proof (Hm (catalog s)) as Hc.
  destruct (m (catalog s)) as [[a|e|] c']; cbn in Hc; subst; rewrite ?state_eta; auto.
Qed.

Context (internal : pointer).

Context (checkConflicts : BoundAlterInfo I -> CatalogEntry -> Catalog -> outcome bool).

(** What a statement that returned did. *)
Definition alter_done s' V (info : BoundAlterInfo I) : Prop :=
  (alterType info <> RENAME /\ sees s' V) \/
  exists e columns, V (lower (tableName info)) = Some e /\ (alterType info = RENAME -> V (lower (newName info)) = None) /\
    altered_columns e info columns /\ sees s' (alter_view V info (altered e info columns)).

Lemma alterTableEntry_done s V info :
  sees s V -> (alterType info = RENAME -> V (lower (newName info)) = None) ->
  triple (alterTableEntry table_alter isInMemory x self info) s (fun _ s' => alter_done s' V info) (fun s' => sees s' V).
Proof.
  intros Hs Hnew. eapply triple_mono; [by apply alterTableEntry_op| |done]. intros [] s' (e & columns & ? & ? & ?).
  right. by exists e, columns.
Qed.

Lemma triple_contains s V name (Q : bool -> State -> Prop) (E : State -> Prop) :
  sees s V -> (forall b, (b = false -> V (lower name) = None) -> Q b s) -> E s ->
  triple (on_catalog (containsTable x self internal name true)) s Q E.
Proof.
  intros (base & log & ch & [Hh _] & HV) HQ HE. pose proof (hist_wf _ _ _ _ _ _ _ _ Hh) as Hw.
  apply triple_read; [apply read_only_bind; [apply contains_read|intros []; [done|apply contains_read]]| |done].
  intros b Hrun. apply HQ. intros ->.
  pose proof Hx as (_ & _ & Hts). pose proof (view_run _ _ _ x name Hw ltac:(lia)) as Hv.
  pose proof (view_views (catalog s) ch (lower name)) as Hvv. rewrite HV in Hvv.
  destruct (view _ _ _ _) as [[p e]|]; [|done]. destruct Hv as (e' & _ & _ & Hc & _).
  unfold containsTable, mbind, M_bind in Hrun. by rewrite Hc in Hrun.
Qed.

(** The check of [Alter] makes the precondition of a rename true. *)
Lemma alterTable_op s V entry info :
  sees s V ->
  triple (alterTable table_alter checkConflicts isInMemory x self internal entry info) s
    (fun _ s' => alter_done s' V info) (fun s' => sees s' V).
Proof.
  intros Hs. unfold alterTable. apply triple_bind. destruct (decide (alterType info = RENAME)) as [Er|Er].
  - rewrite Er. apply triple_bind. unfold checkRenameTableConflicts. apply triple_on_catalog, triple_bind.
    assert (triple (on_catalog (containsTable x self internal (newName info) true)) s
      (fun b s' => s' = s /\ (b = false -> V (lower (newName info)) = None)) (fun s' => sees s' V)) as Hc
      by by eapply triple_contains.
    unfold triple, on_catalog in Hc |- *. destruct (containsTable _ _ _ _ _ _) as [[b|e|] c1]; [|done..].
    destruct Hc as [Hc Hb]. destruct b; cbn; [by rewrite Hc|]. rewrite Hc.
    apply alterTableEntry_done; [done|]. intros _. by apply Hb.
  - assert (forall b, triple (if b : bool then mret tt else alterTableEntry table_alter isInMemory x self info) s
      (fun _ s' => alter_done s' V info) (fun s' => sees s' V)) as Hskip.
    { intros [|]; [apply triple_ret; by left|]. by apply alterTableEntry_done. }
    assert (triple (c ← gets catalog; lift (checkConflicts info entry c)) s
      (fun b s' => triple (if b : bool then mret tt else alterTableEntry table_alter isInMemory x self info) s'
         (fun _ s'' => alter_done s'' V info) (fun s'' => sees s'' V)) (fun s' => sees s' V)) as Hcheck.
    { unfold triple at 1, mbind, M_bind, gets, lift. destruct (checkConflicts _ _ _) as [b|e|]; [apply Hskip|exact Hs|done]. }
    destruct (alterType info); [done|exact Hcheck..|apply triple_ret, (Hskip false)|exact Hcheck|exact Hcheck|done].
Qed.

Lemma executeAlter_op s V info :
  sees s V ->
  triple (executeAlter table_alter checkConflicts isInMemory x self internal info) s
    (fun _ s' => alter_done s' V info) (fun s' => sees s' V).
Proof.
  intros Hs. unfold executeAlter. apply triple_bind. eapply triple_contains; [exact Hs| |done]. intros [|] _; [|by apply triple_throw].
  apply triple_bind. apply triple_read; [| |done].
  - apply read_only_bind; [apply contains_read|]. intros []; cbn [negb]; apply getEntry_read.
  - intros p _. apply triple_bind, triple_deref. intros e _. by apply alterTable_op.
Qed.

Inductive ddl :=
| CreateEntry (e : CatalogEntry)
| DropEntry (name : string) (oid : Z)
| AlterTable (info : BoundAlterInfo I).

(** A new object has no links. *)
Definition run_op (op : ddl) : M State unit :=
  match op with
  | CreateEntry e => createEntry isInMemory x self (content e);; mret tt
  | DropEntry name oid => dropEntry isInMemory x self name oid
  | AlterTable info => executeAlter table_alter checkConflicts isInMemory x self internal info
  end.

(** The statements of a transaction, some of which may fail; [None] if one is
    undefined. *)
Fixpoint run_ops (ops : list ddl) s : option State :=
  match ops with
  | [] => Some s
  | op :: ops => match run_op op s with (Undef, _) => None | (_, s') => run_ops ops s' end
  end.

Definition begin c : State := mkState c [] false [].

Lemma run_op_sees op s V : sees s V -> triple (run_op op) s (fun _ s' => exists V', sees s' V') (fun s' => exists V', sees s' V').
Proof.
  intros Hs. destruct op as [e|n oid|info]; cbn [run_op].
  - pose proof Hs as (base & log & ch & Ht & HV). apply triple_bind.
    destruct (createEntry_op s base log ch (content e) Ht eq_refl) as (st & Hst & Hop).
    destruct (view _ _ _ _) as [[p ep]|].
    + destruct Hop as (s' & Hrun & Hk). eapply triple_eq; [exact Hrun|]. cbn. eexists. by eapply kept_sees.
    + eapply triple_mono; [exact Hop| |]; [intros oid s' [_ Hp]; apply triple_ret|intros s' Hp];
        eexists; eapply pushed_sees; [exact Ht|exact Hp|done|exact Ht|exact Hp|done].
  - pose proof (dropEntry_op s V n oid Hs) as Hop. destruct (V (lower n)).
    + eapply triple_mono; [exact Hop| |]; [intros [] s' Hp|intros s' Hp]; eexists; exact Hp.
    + destruct Hop as (s' & Hrun & Hk). eapply triple_eq; [exact Hrun|]. eexists; exact Hk.
  - eapply triple_mono; [by apply executeAlter_op| |]; [intros [] s' [[_ Hp]|(e & columns & _ & _ & _ & Hp)]|intros s' Hp]; eexists; exact Hp.
Qed.

Lemma run_ops_sees ops s V s' : sees s V -> run_ops ops s = Some s' -> exists V', sees s' V'.
Proof.
  revert s V. induction ops as [|op ops IH]; intros s V Hs; cbn [run_ops]; [intros [= <-]; by exists V|].
  pose proof (run_op_sees op s V Hs) as Hop. unfold triple in Hop.
  destruct (run_op op s) as [[[]|e|] s1]; [..|done]; destruct Hop as (V1 & H1); by apply (IH _ V1).
Qed.

Lemma begin_sees : sees (begin c0) (views c0 chains0).
Proof. exists chains0, [], chains0. split; [|done]. split; [by apply hist_start|by exists []]. Qed.
End one_writer.
End run.
