(* ===== verification/CatalogSpec.v ===== *)
(** What the catalog promises a transaction that changes it: its own view is a
    map it reads and writes, no one else sees the changes before the commit, all
    of them appear with the commit timestamp, and a rollback leaves no trace. *)
From stdpp Require Import gmap.
From S2P Require Import Prelude Effects VersionInfo Transaction UndoBuffer UndoBufferSpec CatalogSet CatalogFacts CatalogRun.
Import CatalogSet.
Local Open Scope Z_scope.

Section spec.
Context {P I : Type} (table_alter : AlterType -> I -> option Z -> P -> outcome P).
Abbreviation CatalogEntry := (CatalogEntry P).
Abbreviation Catalog := (Catalog P).
Abbreviation State := (State (P := P) (I := I)).
Implicit Types (e : CatalogEntry) (c : Catalog) (self internal p q : pointer) (s : State).
Implicit Types (x y : Transaction.t) (ps : list pointer) (k n : string) (chains ch base : gmap string (list pointer)).

(** The names [x] finds in the catalog, by the code's own lookup. *)
Definition shows x self s (V : string -> option CatalogEntry) : Prop :=
  forall n, observe x self n (catalog s) = (Ret (V (lower n)), catalog s).

Lemma sees_shows c0 chains0 self x s V : writer x -> sees c0 chains0 self x s V -> shows x self s V.
Proof.
  intros (_ & _ & Hx) (base & log & ch & [Hh _] & HV) n. rewrite (observe_run _ _ ch) by (apply Hh || lia).
  by rewrite <-HV.
Qed.

(** ** Other transactions *)

Definition reader y : Prop := START_TRANSACTION_ID <= Transaction.ID y /\ 0 <= Transaction.startTS y < START_TRANSACTION_ID.

Lemma seen_skip (f : pointer -> option CatalogEntry) y news bs :
  (forall p, p ∈ news -> exists e, f p = Some e /\ visible y e = false) -> seen f y (news ++ bs) = seen f y bs.
Proof.
  induction news as [|p news IH]; intros Hn; [done|]. cbn [seen app]. destruct (Hn p ltac:(left)) as (e & -> & ->).
  apply IH. intros q Hq. apply Hn. by right.
Qed.

(** A base chain shows what the chain it grew from showed. *)
Lemma view_grown c0 c' self chains0 base y k :
  wf c0 self chains0 -> grown (cont (heap c')) chains0 base ->
  (forall k ps p, chains0 !! k = Some ps -> p ∈ ps -> cont (heap c') p = cont (heap c0) p) ->
  snd <$> view (cont (heap c')) base y k = snd <$> view (cont (heap c0)) chains0 y k.
Proof.
  intros Hw Hg Hc. unfold view. destruct (Hg k) as [->|(-> & d & e & -> & Hd & Hdel & _)].
  - destruct (chains0 !! k) as [ps|] eqn:Ek; [|done]. cbn. f_equal. f_equal. apply seen_ext. intros p Hp.
    destruct (chain_entry _ _ _ _ (wf_chain _ _ _ Hw _ _ Ek) Hp) as (e & He & _). exists (content e).
    rewrite (Hc _ _ _ Ek Hp). unfold cont. by rewrite He.
  - cbn. rewrite Hd. destruct (visible y e); [|done]. cbn. by rewrite Hdel.
Qed.

Lemma hist_contents c0 chains0 self x base log ch c :
  wf c0 self chains0 -> hist c0 chains0 self x base log ch c ->
  forall k ps p, chains0 !! k = Some ps -> p ∈ ps -> cont (heap c) p = cont (heap c0) p.
Proof.
  intros Hw Hh k ps p Hk Hp. destruct (chain_entry _ _ _ _ (wf_chain _ _ _ Hw _ _ Hk) Hp) as (e & He & _).
  assert (cont (heap c0) p = Some (content e)) as Hc by (unfold cont; by rewrite He).
  rewrite Hc. by apply (hist_ext _ _ _ _ _ _ _ _ Hh).
Qed.

Lemma hist_hidden c0 chains0 self x base log ch c y k :
  wf c0 self chains0 -> hist c0 chains0 self x base log ch c -> writer x -> reader y -> Transaction.ID y <> Transaction.ID x ->
  snd <$> view (cont (heap c)) ch y k = snd <$> view (cont (heap c0)) chains0 y k.
Proof.
  intros Hw Hh (_ & Hid & _) (_ & Hy) Hne. pose proof Hh as [_ Hb Hp _ Hl].
  rewrite <-(view_grown c0 c self chains0 base y k Hw Hb) by by eapply hist_contents.
  unfold view. destruct (ch !! k) as [ps|] eqn:Ek.
  - destruct (pops_cases _ _ _ _ _ Hp Ek) as (news & bs & -> & -> & Hnews). cbn. rewrite seen_skip; [done|].
    intros p Hp'. destruct (Hnews _ Hp') as (q & Hin). destruct (Hl _ _ _ Hin) as (e & He & Ht). exists e. split; [done|].
    unfold visible. rewrite Ht. by rewrite (proj2 (Z.eqb_neq _ _)), (proj2 (Z.leb_gt _ _)) by (congruence || lia).
  - by rewrite (pops_none _ _ _ _ Hp Ek).
Qed.

(** ** Rollback *)

Lemma pushes_rolled_back c self log ch base :
  wf c self ch -> pops log ch base ->
  exists c', run_all (actions UndoBuffer.rollbackRecord (map (record_of self) log)) c = (Ret tt, c') /\
    wf c' self base /\ forall r, cont (heap c') r = cont (heap c) r.
Proof.
  revert c ch. induction log as [|[[k p] q] log IH]; intros c ch Hw Hp; cbn [pops] in Hp.
  - subst. by exists c.
  - destruct Hp as (qs & Hk & Hp). destruct (pop_run c self ch k p q qs Hw Hk) as (c1 & Hrun & Hw1 & Hc1).
    destruct (IH c1 _ Hw1 Hp) as (c2 & Hrun2 & Hw2 & Hc2). exists c2. split_and!; [|done|intros r; by rewrite Hc2].
    cbn [map actions run_all record_of snd fst]. unfold mbind, M_bind. cbn [UndoBuffer.rollbackRecord]. by rewrite Hrun.
Qed.

(** ** Commit *)

Lemma linked_adjacent h o pre p q post :
  linked h o (pre ++ p :: q :: post) -> exists e, h !! q = Some e /\ next e = Some p.
Proof.
  revert o. induction pre as [|r pre IH]; intros o; cbn [app linked].
  - intros (e & _ & _ & _ & e' & ? & ? & _). by exists e'.
  - intros (e & _ & _ & _ & Hl). by apply (IH (Some r)).
Qed.

Lemma pops_adjacent log ch base k p q :
  pops log ch base -> (k, p, q) ∈ log -> exists pre post, ch !! k = Some (pre ++ p :: q :: post).
Proof.
  revert ch. induction log as [|[[k' p'] q'] log IH]; intros ch; [intros _ H; by apply elem_of_nil in H|].
  cbn [pops]. intros (qs & Hk & Hp) [[= -> -> ->]|Hin]%elem_of_cons; [by exists [], qs|].
  destruct (IH _ Hp Hin) as (pre & post & Hpre). destruct (decide (k = k')) as [->|Hne].
  - rewrite lookup_insert_eq in Hpre. injection Hpre as Hpre. exists (p' :: pre), post. by rewrite Hk, Hpre.
  - rewrite lookup_insert_ne in Hpre by done. by exists pre, post.
Qed.

Lemma timestamp_wf c self ch p e ts :
  wf c self ch -> heap c !! p = Some e -> (forall k ps, ch !! k = Some ps -> last ps <> Some p) ->
  wf (with_heap c (<[p := with_timestamp e ts]> (heap c))) self ch.
Proof.
  intros [Hs Hch Hfr] Hp Hlast. split; [done| |].
  - intros k ps Hk. cbn [heap with_heap]. pose proof (Hch _ _ Hk) as [Hl Hnd Hn (b & eb & Hb & Heb & Ht)]. split; [|done| |].
    + revert Hl. generalize (@None pointer). clear -Hp. induction ps as [|r ps IH]; intros o; [done|].
      intros (er & Her & ? & ? & Hl). destruct (decide (p = r)) as [->|Hne].
      * exists (with_timestamp e ts). rewrite lookup_insert_eq. simplify_eq. split_and!; [done..|]. by apply IH.
      * exists er. rewrite lookup_insert_ne by done. split_and!; [done..|]. by apply IH.
    + eapply Forall_impl; [exact Hn|]. intros r (er & Her & Hlow). unfold cont in *. destruct (decide (p = r)) as [->|Hne].
      * rewrite lookup_insert_eq. rewrite Hp in Her. injection Her as <-. by exists (content (with_timestamp e ts)).
      * rewrite lookup_insert_ne by done. by exists er.
    + exists b, eb. split_and!; [done| |done]. unfold cont in *. rewrite lookup_insert_ne; [done|]. intros ->. by apply (Hlast _ _ Hk).
  - cbn. intros r er Hr. apply lookup_insert_Some in Hr as [[<- _]|[_ Hr]]; by eapply Hfr.
Qed.

Lemma elem_of_rev {A} (a : A) l : a ∈ rev l <-> a ∈ l.
Proof. rewrite !list_elem_of_In. symmetry. apply in_rev. Qed.

Definition pushed_versions (l : list push) : list pointer := map (fun r : push => r.1.2) l.

Lemma not_bottom c self ch base log k p q :
  wf c self ch -> pops log ch base -> (k, p, q) ∈ log -> forall k' ps, ch !! k' = Some ps -> last ps <> Some p.
Proof.
  intros Hw Hp Hin k' ps Hk' Hlast. destruct (pops_adjacent _ _ _ _ _ _ Hp Hin) as (pre & post & Hk).
  assert (k' = k) as -> by (eapply (chain_disjoint c self ch k' k ps _ p); [done..|by apply last_Some_elem_of|set_solver]).
  rewrite Hk in Hk'. injection Hk' as <-. pose proof (chain_nodup _ _ _ (wf_chain _ _ _ Hw _ _ Hk)) as Hnd.
  replace (pre ++ p :: q :: post) with ((pre ++ [p]) ++ q :: post) in * by by rewrite <-app_assoc.
  rewrite last_app in Hlast. apply NoDup_app in Hnd as (_ & Hnd & _). apply (Hnd p); [apply elem_of_app; right; by left|].
  destruct (last (q :: post)) as [r|] eqn:El; [injection Hlast as ->; by apply last_Some_elem_of|by apply last_None in El].
Qed.

Lemma commit_run c self ch base log ts l :
  wf c self ch -> pops log ch base -> (forall r, r ∈ l -> r ∈ log) ->
  exists c', run_all (actions (UndoBuffer.commitRecord ts) (map (record_of self) l)) c = (Ret tt, c') /\ wf c' self ch /\
    forall r, cont (heap c') r =
      if decide (r ∈ pushed_versions l) then (fun e => with_timestamp e ts) <$> cont (heap c) r else cont (heap c) r.
Proof.
  revert c. induction l as [|[[k p] q] l IH]; intros c Hw Hp Hl.
  - exists c. split_and!; [done|done|]. intros r. by rewrite decide_False by apply not_elem_of_nil.
  - pose proof (Hl _ ltac:(left)) as Hin. destruct (pops_adjacent _ _ _ _ _ _ Hp Hin) as (pre & post & Hk).
    pose proof (wf_chain _ _ _ Hw _ _ Hk) as Hok.
    destruct (linked_adjacent _ _ _ _ _ _ (chain_linked _ _ _ Hok)) as (eq & Hq & Hnext).
    destruct (chain_entry _ _ _ p Hok ltac:(set_solver)) as (e & He & _).
    set (c1 := with_heap c (<[p := with_timestamp e ts]> (heap c))).
    assert (wf c1 self ch) as Hw1 by (apply timestamp_wf; [done|done|by eapply not_bottom]).
    destruct (IH c1 Hw1 Hp) as (c2 & Hrun & Hw2 & Hc2); [intros r Hr; apply Hl; by right|].
    exists c2. split_and!; [|done|].
    + cbn [map actions run_all record_of snd fst]. unfold mbind at 1, M_bind at 1.
      cbn [UndoBuffer.commitRecord]. unfold UndoBuffer.commitCatalogEntryRecord.
      cbn [entry_getNext entry_setTimestamp catalog_targets]. unfold mbind at 1, M_bind at 1.
      rewrite (getNext_run _ _ _ Hq), Hnext. unfold mbind, M_bind. cbn [UndoBuffer.assert_some mret M_ret].
      unfold setTimestamp. rewrite (update_run p c e _ He). exact Hrun.
    + intros r. rewrite Hc2. cbn [pushed_versions map fst snd]. change (map (fun r0 : push => r0.1.2) l) with (pushed_versions l).
      assert (cont (heap c1) r = if decide (r = p) then (fun e => with_timestamp e ts) <$> cont (heap c) r else cont (heap c) r) as ->.
      { unfold cont, c1. cbn. destruct (decide (r = p)) as [->|Hne]; [by rewrite lookup_insert_eq, He|by rewrite lookup_insert_ne]. }
      destruct (decide (r = p)) as [->|Hne].
      * rewrite (decide_True (P := p ∈ p :: _)) by left. destruct (decide _); [|done]. by destruct (cont (heap c) p).
      * destruct (decide (r ∈ pushed_versions l)) as [Hr|Hr]; [rewrite decide_True by by right|rewrite decide_False by by intros [?|?]%elem_of_cons]; done.
Qed.

(** Equal up to the timestamp. *)
Definition same_entry (o o' : option CatalogEntry) : Prop :=
  (fun e => with_timestamp e 0) <$> o = (fun e => with_timestamp e 0) <$> o'.

Section committed.
Context c0 chains0 self x base log ch c c' ts y k
  (Hw0 : wf c0 self chains0) (Hs0 : settled c0 chains0 x) (Hx : writer x) (Hy : reader y)
  (Hh : hist c0 chains0 self x base log ch c) (Hts : Transaction.startTS x < ts < START_TRANSACTION_ID)
  (Hc' : forall r, cont (heap c') r =
      if decide (r ∈ pushed_versions log) then (fun e => with_timestamp e ts) <$> cont (heap c) r else cont (heap c) r).

Lemma in_pushed k' p q : (k', p, q) ∈ log -> p ∈ pushed_versions log.
Proof. intros Hin. apply list_elem_of_fmap. by exists (k', p, q). Qed.

Lemma pushed_content p : p ∈ pushed_versions log -> exists e, cont (heap c) p = Some e /\ timestamp e = Transaction.ID x.
Proof.
  intros Hp. apply list_elem_of_fmap in Hp as ([[k' p'] q] & -> & Hin). by apply (hist_log _ _ _ _ _ _ _ _ Hh k' p' q).
Qed.

Lemma old_content p e : cont (heap c) p = Some e -> timestamp e <> Transaction.ID x -> cont (heap c') p = Some e.
Proof.
  intros He Hne. rewrite Hc'. destruct (decide _) as [Hin|]; [|done].
  apply pushed_content in Hin as (e' & He' & ?). congruence.
Qed.

Lemma base_content bs p : base !! k = Some bs -> p ∈ bs ->
  exists e, cont (heap c) p = Some e /\ cont (heap c') p = Some e /\ 0 <= timestamp e <= Transaction.startTS x.
Proof.
  intros Hb Hp. pose proof Hx as (_ & Hid & Hst).
  assert (exists e, cont (heap c) p = Some e /\ 0 <= timestamp e <= Transaction.startTS x) as (e & He & Ht).
  { destruct (hist_base _ _ _ _ _ _ _ _ Hh k) as [E|(_ & d & e & E & He & _ & Ht)]; rewrite Hb in E.
    - symmetry in E. destruct (Hs0 _ _ _ E Hp) as (e & He & ?). exists e. split; [|done]. by apply (hist_ext _ _ _ _ _ _ _ _ Hh).
    - injection E as ->. apply list_elem_of_singleton in Hp as ->. exists e. split; [done|lia]. }
  exists e. split_and!; [done| |lia..]. apply old_content; [done|lia].
Qed.

Lemma committed_hidden : Transaction.startTS y < ts ->
  snd <$> view (cont (heap c')) ch y k = snd <$> view (cont (heap c0)) chains0 y k.
Proof.
  intros Hlt. pose proof Hh as [_ Hb Hp _ Hl]. pose proof Hx as (_ & Hid & Hst). destruct Hy as (Hidy & _).
  rewrite <-(view_grown c0 c' self chains0 base y k Hw0).
  2: { intros k'. destruct (Hb k') as [?|(? & d & e & ? & Hd & Hdel & Ht)]; [by left|right]. split; [done|].
       exists d, e. split; [done|]. split; [|done]. apply old_content; [done|lia]. }
  2: { intros k' ps p Hk' Hp'. rewrite <-(hist_contents _ _ _ _ _ _ _ _ Hw0 Hh _ _ _ Hk' Hp').
       destruct (Hs0 _ _ _ Hk' Hp') as (e & He & ?).
       pose proof (hist_ext _ _ _ _ _ _ _ _ Hh _ _ He) as He1. rewrite He1. apply old_content; [done|lia]. }
  unfold view. destruct (ch !! k) as [ps|] eqn:Ek; [|by rewrite (pops_none _ _ _ _ Hp Ek)].
  destruct (pops_cases _ _ _ _ _ Hp Ek) as (news & bs & -> & -> & Hnews). cbn. rewrite seen_skip; [done|].
  intros p Hp'. destruct (Hnews _ Hp') as (q & Hin). destruct (Hl _ _ _ Hin) as (e & He & Ht).
  exists (with_timestamp e ts). rewrite Hc', decide_True, He by by eapply in_pushed. split; [done|].
  unfold visible. cbn. by rewrite (proj2 (Z.eqb_neq _ _)), (proj2 (Z.leb_gt _ _)) by lia.
Qed.

Lemma committed_shown : ts <= Transaction.startTS y ->
  same_entry (snd <$> view (cont (heap c')) ch y k) (snd <$> view (cont (heap c)) ch x k).
Proof.
  intros Hle. pose proof (hist_owns _ _ _ _ Hs0 Hx _ _ _ _ Hh) as Ho. unfold view.
  destruct (ch !! k) as [[|p ps]|] eqn:Ek; [done| |done]. cbn [mbind option_bind seen].
  destruct (Ho _ _ _ Ek) as (e & He & Hv). rewrite He, Hv.
  assert (exists e', cont (heap c') p = Some e' /\ visible y e' = true /\ with_timestamp e' 0 = with_timestamp e 0 /\
            deleted e' = deleted e) as (e' & -> & -> & Hee & Hdd).
  { destruct (pops_cases _ _ _ _ _ (hist_pops _ _ _ _ _ _ _ _ Hh) Ek) as ([|r news] & bs & Heq & Hb & Hnews).
    - cbn in Heq. subst bs. destruct (base_content _ p Hb ltac:(left)) as (e' & He1 & He' & Ht). exists e'. rewrite He in He1.
      injection He1 as <-. split_and!; [done| |done..]. unfold visible. rewrite (proj2 (Z.leb_le _ _)) by lia. by rewrite orb_true_r.
    - injection Heq as <- ->. destruct (Hnews p ltac:(left)) as (q & Hin). exists (with_timestamp e ts).
      rewrite Hc', decide_True, He by by eapply in_pushed. split_and!; [done| |done..].
      unfold visible. cbn. rewrite (proj2 (Z.leb_le _ _)) by lia. by rewrite orb_true_r. }
  cbn [present]. rewrite Hdd. destruct (deleted e); [done|]. unfold same_entry. cbn. by rewrite Hee.
Qed.
End committed.

(** ** The properties *)

Section properties.
Context (checkConflicts : BoundAlterInfo I -> CatalogEntry -> Catalog -> outcome bool).
Context (c0 : Catalog) (chains0 : gmap string (list pointer)) self internal x (isInMemory : bool).
Context (Hw0 : wf c0 self chains0) (Hs0 : settled c0 chains0 x) (Hx : writer x).
Abbreviation run_ops := (run_ops table_alter self x isInMemory internal checkConflicts).
Abbreviation shows := (shows x self).


(** C15. DDL is atomic and isolated: after any statements of a writing
    transaction, some of which may have failed, every other transaction finds
    exactly the entries it found before. Replaying the undo buffer backwards gives
    everyone these entries back. Replaying it forwards with a commit timestamp
    shows every change to the transactions that start at that timestamp or later,
    up to the timestamps of the entries, and none to those that started before. *)
Theorem ddl_atomic ops s :
  run_ops ops (begin c0) = Some s ->
  (forall y n, reader y -> Transaction.ID y <> Transaction.ID x ->
     (observe y self n (catalog s)).1 = (observe y self n c0).1) /\
  (exists c', UndoBuffer.rollback (undoBuffer s) (catalog s) = (Ret tt, c') /\
     forall y n, reader y -> (observe y self n c').1 = (observe y self n c0).1) /\
  (forall ts, Transaction.startTS x < ts < START_TRANSACTION_ID ->
     exists c', UndoBuffer.commit (undoBuffer s) ts (catalog s) = (Ret tt, c') /\
     forall y n, reader y ->
       (Transaction.startTS y < ts -> (observe y self n c').1 = (observe y self n c0).1) /\
       (ts <= Transaction.startTS y -> exists o o', (observe y self n c').1 = Ret o /\
          (observe x self n (catalog s)).1 = Ret o' /\ same_entry o o')).
Proof.
  intros Hrun.
  destruct (run_ops_sees table_alter c0 chains0 self x Hs0 Hx isInMemory internal checkConflicts _ _ _ _ (begin_sees c0 chains0 self x Hw0) Hrun)
    as (V & base & log & ch & [Hh Hu] & _).
  pose proof (hist_wf _ _ _ _ _ _ _ _ Hh) as Hw. pose proof (hist_pops _ _ _ _ _ _ _ _ Hh) as Hp. split; [|split].
  - intros y n Hy Hne. pose proof Hy as (_ & Hst).
    rewrite (observe_run _ _ ch), (observe_run c0 _ chains0) by (done || lia). cbn. f_equal. by eapply hist_hidden.
  - destruct (pushes_rolled_back (catalog s) self log ch base Hw Hp) as (c' & Hr & Hw' & Hc'). exists c'. split.
    + change (UndoBuffer.rollback (undoBuffer s)) with (UndoBuffer.reverseIterate (undoBuffer s) (reading UndoBuffer.rollbackRecord (S := Catalog))).
      rewrite (reverseIterate_run _ _ _ _ Hu). unfold records. by rewrite <-map_rev, rev_involutive.
    + intros y n (_ & Hst). rewrite (observe_run c' _ base), (observe_run c0 _ chains0) by (done || lia). cbn. f_equal.
      apply (view_grown c0 c' self); [done| |].
      * intros k. destruct (hist_base _ _ _ _ _ _ _ _ Hh k) as [?|(? & d & e & ? & ? & ?)]; [by left|right].
        split; [done|]. exists d, e. by rewrite Hc'.
      * intros k ps p Hk Hin. rewrite Hc'. by eapply hist_contents.
  - intros ts Hts. destruct (commit_run (catalog s) self ch base log ts (rev log) Hw Hp) as (c' & Hr & Hw' & Hc').
    { intros r Hr. by apply elem_of_rev. }
    assert (forall r, cont (heap c') r = if decide (r ∈ pushed_versions log) then (fun e => with_timestamp e ts) <$> cont (heap (catalog s)) r
        else cont (heap (catalog s)) r) as Hc.
    { intros r. rewrite Hc'. apply decide_ext. unfold pushed_versions. rewrite map_rev. apply elem_of_rev. }
    exists c'. split.
    + change (UndoBuffer.commit (undoBuffer s) ts) with (UndoBuffer.iterate (undoBuffer s) (reading (UndoBuffer.commitRecord ts) (S := Catalog))).
      by rewrite (iterate_run _ _ _ _ Hu).
    + intros y n Hy. pose proof Hy as (_ & Hst). pose proof Hx as (_ & _ & Hxt). rewrite (observe_run c' _ ch) by (done || lia). cbn [fst]. split.
      * intros Hlt. rewrite (observe_run c0 _ chains0) by (done || lia). cbn. f_equal. by eapply committed_hidden.
      * intros Hle. rewrite (observe_run _ _ ch x) by (done || lia). eexists _, _. split; [done|]. split; [done|]. by eapply committed_shown.
Qed.
End properties.
End spec.

(** ** A transaction on a reloaded catalog *)

Definition append_columns (ty : AlterType) (extra : string) (oid : option Z) (columns : string) : outcome string :=
  if decide (ty = DROP_PROPERTY) then Throw (RuntimeException "no such property") else Ret (columns ++ extra)%string.

(** [IF NOT EXISTS] on a column that is there. *)
Definition skip_known (info : BoundAlterInfo string) (e : CatalogEntry string) (c : Catalog string) : outcome bool :=
  Ret (bool_decide (extraInfo info = "known"%string)).

Definition city : CatalogEntry string := mkEntry NODE_TABLE_ENTRY "City" 0 0 false false (Some "name") None None.
Definition person : CatalogEntry string := mkEntry NODE_TABLE_ENTRY "Person" 0 0 false false (Some "id") None None.
Definition reloaded : Catalog string := mkCatalog {[ 50 := city ]} {[ 1 := mkSet 1 {[ "city" := 50 ]}; 2 := make true ]} 100.
Definition reloaded_chains : gmap string (list pointer) := {[ "city" := [50] ]}.

Definition ddl_writer : Transaction.t := Transaction.make Transaction.WRITE (START_TRANSACTION_ID + 1) 5.
Definition early_reader : Transaction.t := Transaction.make Transaction.READ_ONLY (START_TRANSACTION_ID + 2) 6.
Definition late_reader : Transaction.t := Transaction.make Transaction.READ_ONLY (START_TRANSACTION_ID + 3) 7.

Definition example_ddl : list (ddl (P := string) (I := string)) :=
  [CreateEntry person; CreateEntry person; AlterTable (mkAlter ADD_PROPERTY "PERSON" "" ", age");
   AlterTable (mkAlter RENAME "person" "Human" ""); AlterTable (mkAlter RENAME "city" "human" "");
   AlterTable (mkAlter ADD_PROPERTY "human" "" "known"); AlterTable (mkAlter DROP_PROPERTY "city" "" ""); DropEntry "CITY" 0].

Lemma reloaded_wf : wf reloaded 1 reloaded_chains.
Proof.
  split.
  - eexists. split; [done|]. intros k. unfold reloaded_chains. cbn [entries].
    destruct (decide ("city" = k)%string) as [<-|Hne]; [by rewrite !lookup_singleton_eq|by rewrite !lookup_singleton_ne].
  - intros k ps H. unfold reloaded_chains in H. apply lookup_singleton_Some in H as [<- <-]. split; [by exists city| |repeat constructor; by exists city|by exists 50, city].
    apply NoDup_singleton.
  - intros p e H. unfold reloaded in H. cbn in H. apply lookup_singleton_Some in H as [<- _]. done.
Qed.

Lemma reloaded_settled : settled reloaded reloaded_chains ddl_writer.
Proof.
  intros k ps p H Hp. unfold reloaded_chains in H. apply lookup_singleton_Some in H as [<- <-].
  apply list_elem_of_singleton in Hp as ->. by exists city.
Qed.

Lemma ddl_writer_writer : writer ddl_writer.
Proof. repeat split; done. Qed.


Lemma ddl_atomic_witness :
  exists s c' c'', run_ops append_columns 1 ddl_writer false 2 skip_known example_ddl (begin reloaded) = Some s /\
    (observe early_reader 1 "City" (catalog s)).1 = Ret (Some city) /\
    UndoBuffer.rollback (undoBuffer s) (catalog s) = (Ret tt, c') /\ (observe late_reader 1 "City" c').1 = Ret (Some city) /\
    UndoBuffer.commit (undoBuffer s) 7 (catalog s) = (Ret tt, c'') /\
    (observe early_reader 1 "City" c'').1 = Ret (Some city) /\
    exists o, (observe late_reader 1 "City" c'').1 = Ret o /\ same_entry o None.
Proof.
  destruct (run_ops append_columns 1 ddl_writer false 2 skip_known example_ddl (begin reloaded)) as [s|] eqn:E; [|vm_compute in E; discriminate].
  destruct (ddl_atomic append_columns skip_known reloaded reloaded_chains 1 2 ddl_writer false
    reloaded_wf reloaded_settled ddl_writer_writer example_ddl s E) as (Hother & (c' & Hr & Hback) & Hcommit).
  destruct (Hcommit 7) as (c'' & Hc & Hafter); [by split|]. exists s, c', c''.
  assert (forall y, (observe y 1 "City" reloaded).1 = Ret (Some city) \/ Transaction.startTS y < 0) as Hcity.
  { intros y. destruct (Z.le_gt_cases 0 (Transaction.startTS y)) as [Hle|]; [left|by right].
    assert (visible y city = true) as Hvis.
    { unfold visible. change (timestamp city) with 0. by rewrite (proj2 (Z.leb_le _ _) Hle), orb_true_r. }
    rewrite (observe_run _ _ _ _ _ reloaded_wf Hle). unfold view. change (reloaded_chains !! lower "City") with (Some [50]).
    cbn [mbind option_bind seen]. change (cont (heap reloaded) 50) with (Some city). cbv beta iota. by rewrite Hvis. }
  assert (reader early_reader /\ reader late_reader) as [He Hl] by (repeat split; done).
  split; [done|]. split; [rewrite Hother by done; by destruct (Hcity early_reader)|].
  split; [done|]. split; [rewrite Hback by done; by destruct (Hcity late_reader)|].
  split; [done|]. split; [rewrite (proj1 (Hafter early_reader _ He)) by done; by destruct (Hcity early_reader)|].
  destruct (proj2 (Hafter late_reader "City"%string Hl) ltac:(done)) as (o & o' & Ho & Ho' & Heq). exists o. split; [done|].
  replace o' with (@None (CatalogEntry string)) in Heq; [done|].
  assert (Some s = run_ops append_columns 1 ddl_writer false 2 skip_known example_ddl (begin reloaded)) as Es by by rewrite E.
  vm_compute in Es. injection Es as ->. vm_compute in Ho'. by injection Ho' as <-.
Defined.

(** ** Two writers *)

(** With [enableMultiWrites], an ALTER over the uncommitted ALTER of another
    transaction is accepted, and its undo record leads to the other's version: the
    commit of the second stamps the version of the first, and the rollback of the
    first then removes it, so that the committed ALTER is seen by no one. *)
Definition first_writer : Transaction.t := ddl_writer.
Definition second_writer : Transaction.t := Transaction.make Transaction.WRITE (START_TRANSACTION_ID + 4) 5.
Definition alter_city (x : Transaction.t) (extra : string) : M (State (P := string) (I := string)) unit :=
  executeAlter append_columns skip_known false x 1 2 (mkAlter ADD_PROPERTY "city" "" extra).

Example alter_over_alter_is_lost :
  exists s1 s2 c3 c4, alter_city first_writer ", a" (begin reloaded) = (Ret tt, s1) /\
    alter_city second_writer ", b" (begin (catalog s1)) = (Ret tt, s2) /\
    UndoBuffer.commit (undoBuffer s2) 7 (catalog s2) = (Ret tt, c3) /\
    UndoBuffer.rollback (undoBuffer s1) c3 = (Ret tt, c4) /\
    (observe late_reader 1 "city" c4).1 = Ret (Some city).
Proof.
  do 4 eexists. split; [vm_compute; reflexivity|]. split; [vm_compute; reflexivity|].
  split; [vm_compute; reflexivity|]. split; vm_compute; reflexivity.
Qed.
