(* ===== verification/NullMask.v ===== *)
(** Null masks ([common/null_mask.cpp], [null_mask.h]): one bit per value in 64-bit
    entries, set, copied between arbitrary bit offsets and summarised a word at a
    time. The byte access of the aligned copy is that of a little-endian machine;
    the source of a copy and its destination do not overlap. *)
From S2P Require Import Prelude.
Local Open Scope Z_scope.

Definition words := list Z.

Definition not64 (z : Z) : Z := Z.lxor z (Z.ones 64).
Definition shl64 (z n : Z) : Z := u64 (Z.shiftl z n).

(** [nullEntries[pos]]. *)
Definition at_ (l : words) (pos : Z) : outcome Z := load l (Z.to_nat pos).
Definition set_at (l : words) (pos v : Z) : outcome words := store l (Z.to_nat pos) v.

Module NullMask.
Definition NO_NULL_ENTRY : Z := 0.
Definition ALL_NULL_ENTRY : Z := not64 NO_NULL_ENTRY.
Definition NUM_BITS_PER_NULL_ENTRY_LOG2 : Z := 6.
Definition NUM_BITS_PER_NULL_ENTRY : Z := Z.shiftl 1 NUM_BITS_PER_NULL_ENTRY_LOG2.

(** The tables of masks. *)
Definition SINGLE_ONE (i : Z) : Z := Z.shiftl 1 i.
Definition SINGLE_ZERO (i : Z) : Z := not64 (Z.shiftl 1 i).
Definition LOWER_MASKS (i : Z) : Z := Z.ones i.
Definition HIGH_MASKS (i : Z) : Z := shl64 (Z.ones i) (64 - i).

Definition getNullEntryAndBitPos (pos : Z) : Z * Z :=
  let nullEntryPos := Z.shiftr pos NUM_BITS_PER_NULL_ENTRY_LOG2 in
  (nullEntryPos, pos - Z.shiftl nullEntryPos NUM_BITS_PER_NULL_ENTRY_LOG2).

(** The position is a [uint32_t]. *)
Definition isNull (nullEntries : words) (pos : Z) : outcome bool :=
  let '(entryPos, bitPosInEntry) := getNullEntryAndBitPos (u32 pos) in
  e ← at_ nullEntries entryPos;
  mret (negb (Z.land e (SINGLE_ONE bitPosInEntry) =? 0)).

Definition setNull (nullEntries : words) (pos : Z) (isNull : bool) : outcome words :=
  let '(entryPos, bitPosInEntry) := getNullEntryAndBitPos (u32 pos) in
  e ← at_ nullEntries entryPos;
  set_at nullEntries entryPos
    (if isNull then Z.lor e (SINGLE_ONE bitPosInEntry) else Z.land e (SINGLE_ZERO bitPosInEntry)).

(** ** Ranges *)

(** [std::fill(first, last, value)]. *)
Definition fill_entries (nullEntries : words) (first last value : Z) : outcome words :=
  fill nullEntries (Z.to_nat first) (Z.to_nat (last - first)) value.

Definition setNullRange (nullEntries : words) (offset numBitsToSet : Z) (isNull : bool) : outcome words :=
  if numBitsToSet =? 0 then mret nullEntries
  else
    let '(firstEntryPos, firstBitPos) := getNullEntryAndBitPos offset in
    let '(lastEntryPos, lastBitPos) := getNullEntryAndBitPos (offset + numBitsToSet) in
    nullEntries ←
      if firstEntryPos + 1 <? lastEntryPos
      then fill_entries nullEntries (firstEntryPos + 1) lastEntryPos (if isNull then ALL_NULL_ENTRY else NO_NULL_ENTRY)
      else mret nullEntries;
    first ← at_ nullEntries firstEntryPos;
    if firstEntryPos =? lastEntryPos then
      set_at nullEntries firstEntryPos
        (if isNull then Z.lor first (Z.land (not64 (LOWER_MASKS firstBitPos)) (not64 (HIGH_MASKS (NUM_BITS_PER_NULL_ENTRY - lastBitPos))))
         else Z.land first (Z.lor (LOWER_MASKS firstBitPos) (HIGH_MASKS (NUM_BITS_PER_NULL_ENTRY - lastBitPos))))
    else
      nullEntries ← set_at nullEntries firstEntryPos
        (if isNull then Z.lor first (not64 (LOWER_MASKS firstBitPos)) else Z.land first (LOWER_MASKS firstBitPos));
      if 0 <? lastBitPos then
        last ← at_ nullEntries lastEntryPos;
        set_at nullEntries lastEntryPos
          (if isNull then Z.lor last (LOWER_MASKS lastBitPos) else Z.land last (not64 (LOWER_MASKS lastBitPos)))
      else mret nullEntries.

(** The central entries of [getMinMax]. *)
Fixpoint all_equal (nullEntries : words) (start : Z) (n : nat) (baseline : Z) : outcome bool :=
  match n with
  | O => mret true
  | S n => e ← at_ nullEntries start; if e =? baseline then all_equal nullEntries (start + 1) n baseline else mret false
  end.

Definition getMinMax (nullEntries : words) (offset numValues : Z) : outcome (bool * bool) :=
  let start := offset / NUM_BITS_PER_NULL_ENTRY in
  let offset := offset mod NUM_BITS_PER_NULL_ENTRY in
  if offset + numValues <=? NUM_BITS_PER_NULL_ENTRY then
    let mask := Z.land (HIGH_MASKS (NUM_BITS_PER_NULL_ENTRY - offset)) (LOWER_MASKS (offset + numValues)) in
    e ← at_ nullEntries start;
    let masked := Z.land e mask in
    mret (if masked =? 0 then (false, false) else if masked =? mask then (true, true) else (false, true))
  else
    first ←
      if 0 <? offset then
        let mask := HIGH_MASKS (NUM_BITS_PER_NULL_ENTRY - offset) in
        e ← at_ nullEntries start;
        let masked := Z.land e mask in
        if masked =? 0 then mret (Some (false, start + 1, numValues - (NUM_BITS_PER_NULL_ENTRY - offset)))
        else if masked =? mask then mret (Some (true, start + 1, numValues - (NUM_BITS_PER_NULL_ENTRY - offset)))
        else mret None
      else
        b ← isNull (drop (Z.to_nat start) nullEntries) 0;
        mret (Some (b, start, numValues));
    match first with
    | None => mret (false, true)
    | Some (min, start, numValues) =>
        let max := min in
        let baseline := if (min : bool) then not64 0 else 0 in
        b ← all_equal nullEntries start (Z.to_nat (numValues / NUM_BITS_PER_NULL_ENTRY)) baseline;
        if negb b then mret (false, true)
        else
          let start := start + numValues / NUM_BITS_PER_NULL_ENTRY in
          let numValues := numValues mod NUM_BITS_PER_NULL_ENTRY in
          if 0 <? numValues then
            let mask := LOWER_MASKS numValues in
            e ← at_ nullEntries start;
            let masked := Z.land e mask in
            mret (if masked =? 0 then (false, max) else if masked =? mask then (min, true) else (false, true))
          else mret (min, max)
    end.

(** ** Copies *)

(** The loop of [copyUnaligned]. *)
Fixpoint copy_loop (fuel : nat) (src : words) (srcNullEntryPos srcNullBitPos : Z) (dst : words)
    (dstNullEntryPos dstNullBitPos : Z) (bitPos numBitsToCopy : Z) (invert hasNull : bool) : outcome (bool * words) :=
  if bitPos <? numBitsToCopy then
    match fuel with
    | O => Undef
    | S fuel =>
        e ← at_ src srcNullEntryPos;
        let srcNullMaskEntry := if invert then not64 e else e in
        let '(numBits, srcNullMaskEntry, (srcEntry', srcBit'), (dstEntry', dstBit')) :=
          if dstNullBitPos <? srcNullBitPos then
            let numBits := Z.min (NUM_BITS_PER_NULL_ENTRY - srcNullBitPos) (numBitsToCopy - bitPos) in
            let m := Z.land srcNullMaskEntry (not64 (HIGH_MASKS (NUM_BITS_PER_NULL_ENTRY - (srcNullBitPos + numBits)))) in
            let m := Z.shiftr m (srcNullBitPos - dstNullBitPos) in
            let m := Z.land m (not64 (LOWER_MASKS dstNullBitPos)) in
            (numBits, m, (srcNullEntryPos + 1, 0), (dstNullEntryPos, dstNullBitPos + numBits))
          else if srcNullBitPos <? dstNullBitPos then
            let numBits := Z.min (NUM_BITS_PER_NULL_ENTRY - dstNullBitPos) (numBitsToCopy - bitPos) in
            let m := Z.land srcNullMaskEntry (not64 (LOWER_MASKS srcNullBitPos)) in
            let m := shl64 m (dstNullBitPos - srcNullBitPos) in
            let m := Z.land m (not64 (HIGH_MASKS (NUM_BITS_PER_NULL_ENTRY - (dstNullBitPos + numBits)))) in
            (numBits, m, (srcNullEntryPos, srcNullBitPos + numBits), (dstNullEntryPos + 1, 0))
          else
            let numBits := Z.min (NUM_BITS_PER_NULL_ENTRY - dstNullBitPos) (numBitsToCopy - bitPos) in
            let m := Z.land srcNullMaskEntry (not64 (LOWER_MASKS srcNullBitPos)) in
            let m := Z.land m (not64 (HIGH_MASKS (NUM_BITS_PER_NULL_ENTRY - (dstNullBitPos + numBits)))) in
            (numBits, m, (srcNullEntryPos + 1, 0), (dstNullEntryPos + 1, 0)) in
        d ← at_ dst dstNullEntryPos;
        let d := Z.land d (not64 (shl64 (LOWER_MASKS numBits) dstNullBitPos)) in
        let nonzero := negb (srcNullMaskEntry =? 0) in
        let d := if nonzero then Z.lor d srcNullMaskEntry else d in
        dst ← set_at dst dstNullEntryPos d;
        copy_loop fuel src srcEntry' srcBit' dst dstEntry' dstBit' (bitPos + numBits) numBitsToCopy invert (hasNull || nonzero)
    end
  else mret (hasNull, dst).

(** Every iteration copies a bit. *)
Definition copyUnaligned (src : words) (srcOffset : Z) (dst : words) (dstOffset numBitsToCopy : Z) (invert : bool)
  : outcome (bool * words) :=
  let '(srcEntry, srcBit) := getNullEntryAndBitPos srcOffset in
  let '(dstEntry, dstBit) := getNullEntryAndBitPos dstOffset in
  copy_loop (Z.to_nat numBitsToCopy) src srcEntry srcBit dst dstEntry dstBit 0 numBitsToCopy invert false.

(** The bytes of the entries. *)
Definition get_byte (l : words) (i : Z) : outcome Z :=
  e ← at_ l (i / 8); mret (Z.land (Z.shiftr e (8 * (i mod 8))) (Z.ones 8)).
Definition set_byte (l : words) (i v : Z) : outcome words :=
  e ← at_ l (i / 8);
  set_at l (i / 8) (Z.lor (Z.land e (not64 (Z.shiftl (Z.ones 8) (8 * (i mod 8))))) (Z.shiftl v (8 * (i mod 8)))).

(** [memcpy(dst, src, n)], with whether [std::any_of] finds a byte that is not zero. *)
Fixpoint copy_bytes (src : words) (srcByte : Z) (dst : words) (dstByte : Z) (n : nat) : outcome (bool * words) :=
  match n with
  | O => mret (false, dst)
  | S n =>
      v ← get_byte src srcByte;
      dst ← set_byte dst dstByte v;
      '(any, dst) ← copy_bytes src (srcByte + 1) dst (dstByte + 1) n;
      mret (negb (v =? 0) || any, dst)
  end.

(** The loop for up to three bits. *)
Fixpoint copy_bits (src : words) (srcOffset : Z) (dst : words) (dstOffset : Z) (n : nat) (invert : bool) : outcome (bool * words) :=
  match n with
  | O => mret (false, dst)
  | S n =>
      isNull ← isNull src srcOffset;
      dst ← setNull dst dstOffset (xorb isNull invert);
      '(any, dst) ← copy_bits src (srcOffset + 1) dst (dstOffset + 1) n invert;
      mret (isNull || any, dst)
  end.

Definition copyNullMask (src : words) (srcOffset : Z) (dst : words) (dstOffset numBitsToCopy : Z) (invert : bool)
  : outcome (bool * words) :=
  if numBitsToCopy <=? 3 then copy_bits src srcOffset dst dstOffset (Z.to_nat numBitsToCopy) invert
  else if negb invert && (srcOffset mod 8 =? dstOffset mod 8) && (8 <=? numBitsToCopy) && (8 <=? u64 (numBitsToCopy - srcOffset mod 8)) then
    let numBitsInFirstByte := if srcOffset =? 0 then 0 else 8 - srcOffset mod 8 in
    '(has1, dst) ← if srcOffset =? 0 then mret (false, dst) else copyUnaligned src srcOffset dst dstOffset numBitsInFirstByte false;
    let numBytesForAlignedCopy := (numBitsToCopy - numBitsInFirstByte) / 8 in
    '(has2, dst) ← copy_bytes src ((srcOffset + numBitsInFirstByte) / 8) dst ((dstOffset + numBitsInFirstByte) / 8)
                     (Z.to_nat numBytesForAlignedCopy);
    let lastByteStart := numBitsInFirstByte + numBytesForAlignedCopy * 8 in
    let numBitsInLastByte := numBitsToCopy - numBitsInFirstByte - numBytesForAlignedCopy * 8 in
    if 0 <? numBitsInLastByte then
      '(has3, dst) ← copyUnaligned src (srcOffset + lastByteStart) dst (dstOffset + lastByteStart) numBitsInLastByte false;
      mret (has3 || (has1 || has2), dst)
    else mret (has1 || has2, dst)
  else copyUnaligned src srcOffset dst dstOffset numBitsToCopy invert.

(** ** The object *)

Record t := mk { data : words; mayContainNulls : bool }.

Definition getNumNullBits (data : words) : Z := Z.of_nat (length data) * NUM_BITS_PER_NULL_ENTRY.

Definition make (capacity : Z) : t :=
  let numNullEntries := (capacity + NUM_BITS_PER_NULL_ENTRY - 1) / NUM_BITS_PER_NULL_ENTRY in
  mk (replicate (Z.to_nat numNullEntries) NO_NULL_ENTRY) false.

Definition setAllNonNull (m : t) : t :=
  if negb (mayContainNulls m) then m else mk (map (fun _ => NO_NULL_ENTRY) (data m)) false.
Definition setAllNull (m : t) : t := mk (map (fun _ => ALL_NULL_ENTRY) (data m)) true.
Definition hasNoNullsGuarantee (m : t) : bool := negb (mayContainNulls m).

Definition set (m : t) (pos : Z) (isNull : bool) : outcome t :=
  _ ← ku_assert (pos <? getNumNullBits (data m));
  data' ← setNull (data m) pos isNull;
  mret (mk data' (mayContainNulls m || isNull)).

Definition setNullFromRange (m : t) (offset numBitsToSet : Z) (isNull : bool) : outcome t :=
  _ ← ku_assert (offset + numBitsToSet <=? getNumNullBits (data m));
  data' ← setNullRange (data m) offset numBitsToSet isNull;
  mret (mk data' (mayContainNulls m || isNull)).

Definition copyFromNullBits (m : t) (src : words) (srcOffset dstOffset numBitsToCopy : Z) (invert : bool) : outcome (bool * t) :=
  _ ← ku_assert (dstOffset + numBitsToCopy <=? getNumNullBits (data m));
  '(any, data') ← copyNullMask src srcOffset (data m) dstOffset numBitsToCopy invert;
  mret (if any : bool then (true, mk data' true) else (false, mk data' (mayContainNulls m))).

Definition copyFrom (m nullMask : t) (srcOffset dstOffset numBitsToCopy : Z) (invert : bool) : outcome (bool * t) :=
  if hasNoNullsGuarantee nullMask then
    m' ← setNullFromRange m dstOffset numBitsToCopy invert;
    mret (invert, m')
  else copyFromNullBits m (data nullMask) srcOffset dstOffset numBitsToCopy invert.

(** [memcpy] of the old entries into zeroed ones: no room is undefined. *)
Definition resize (m : t) (capacity : Z) : outcome t :=
  let numNullEntries := Z.to_nat ((capacity + NUM_BITS_PER_NULL_ENTRY - 1) / NUM_BITS_PER_NULL_ENTRY) in
  if decide (length (data m) <= numNullEntries)%nat
  then mret (mk (data m ++ replicate (numNullEntries - length (data m)) 0) (mayContainNulls m)) else Undef.

(** [operator|=]. *)
Definition or_assign (m other : t) : outcome t :=
  _ ← ku_assert (Nat.eqb (length (data other)) (length (data m)));
  mret (mk (zip_with Z.lor (data m) (data other)) (mayContainNulls m)).

Definition getNumNullEntries (numNullBits : Z) : Z :=
  Z.shiftr numNullBits NUM_BITS_PER_NULL_ENTRY_LOG2 +
  (if u64 (numNullBits - shl64 numNullBits NUM_BITS_PER_NULL_ENTRY_LOG2) =? 0 then 0 else 1).

(** [std::popcount]. *)
Definition popcount (entry : Z) : Z :=
  Z.of_nat (length (filter (fun j => Z.testbit entry (Z.of_nat j) = true) (seq 0 64))).
Definition countNulls (m : t) : Z := foldl (fun sum entry => u64 (sum + popcount entry)) 0 (data m).
End NullMask.
