(* ===== verification/NullMaskFacts.v ===== *)
(** The bits of a null mask, and what each word operation does to them. *)
From S2P Require Import Prelude NullMask.
Import NullMask.
Local Open Scope Z_scope.

Definition word_ok (w : Z) : Prop := 0 <= w < 2 ^ 64.
Definition words_ok (l : words) : Prop := Forall word_ok l.
Definition get (l : words) (pos : Z) : Z := nth (Z.to_nat pos) l 0.
Definition bit (l : words) (i : Z) : bool := Z.testbit (get l (i / 64)) (i mod 64).
Definition num_bits (l : words) : Z := 64 * Z.of_nat (length l).

Lemma testbit_u64 z j : 0 <= j -> Z.testbit (u64 z) j = (j <? 64) && Z.testbit z j.
Proof.
  intros Hj. unfold u64, wrap. destruct (Z.ltb_spec j 64); [by rewrite Z.mod_pow2_bits_low by lia|by rewrite Z.mod_pow2_bits_high by lia].
Qed.

Lemma testbit_not64 z j : 0 <= j -> Z.testbit (not64 z) j = xorb (Z.testbit z j) (j <? 64).
Proof. intros Hj. unfold not64. by rewrite Z.lxor_spec, Z.testbit_ones_nonneg by lia. Qed.

Lemma testbit_word w j : word_ok w -> 64 <= j -> Z.testbit w j = false.
Proof. intros Hw Hj. rewrite <-(Z.mod_small w (2 ^ 64)) by exact Hw. by apply Z.mod_pow2_bits_high. Qed.

Lemma word_ok_bits w : 0 <= w -> (forall j, 64 <= j -> Z.testbit w j = false) -> word_ok w.
Proof.
  intros H0 Hb. split; [done|]. assert (w = w mod 2 ^ 64) as ->; [|by apply Z.mod_pos_bound].
  apply Z.bits_inj'. intros j Hj. destruct (Z.lt_ge_cases j 64).
  - by rewrite Z.mod_pow2_bits_low.
  - rewrite Z.mod_pow2_bits_high by done. by apply Hb.
Qed.

Ltac bits :=
  repeat first
    [ rewrite Z.land_spec | rewrite Z.lor_spec | rewrite testbit_not64 by lia | rewrite testbit_u64 by lia
    | rewrite Z.testbit_ones by lia | rewrite Z.shiftl_spec by lia | rewrite Z.shiftr_spec by lia ].

Ltac bool_cases :=
  repeat match goal with
  | |- context [?a <? ?b] => destruct (Z.ltb_spec a b); try lia
  | |- context [?a <=? ?b] => destruct (Z.leb_spec a b); try lia
  end.

(** The bits of a shifted and masked word. *)
Definition moved (s m sb db n : Z) : Prop :=
  word_ok m /\ forall j, 0 <= j < 64 -> Z.testbit m j = (db <=? j) && (j <? db + n) && Z.testbit s (sb + j - db).

Lemma moved_right s sb db n :
  word_ok s -> 0 <= db < sb -> 0 < n -> sb + n <= 64 ->
  moved s (Z.land (Z.shiftr (Z.land s (not64 (HIGH_MASKS (64 - (sb + n))))) (sb - db)) (not64 (LOWER_MASKS db))) sb db n.
Proof.
  intros Hs Hdb Hn Hle. unfold HIGH_MASKS, LOWER_MASKS, shl64. split.
  - apply word_ok_bits.
    + apply Z.land_nonneg. left. apply Z.shiftr_nonneg, Z.land_nonneg. left. apply Hs.
    + intros j Hj. bits. rewrite (testbit_word s) by (done || lia). done.
  - intros j Hj. bits. replace (j + (sb - db)) with (sb + j - db) by lia.
    destruct (Z.testbit s (sb + j - db)) eqn:Es; bool_cases; cbn; try done.
Qed.

Lemma moved_left s sb db n :
  word_ok s -> 0 <= sb < db -> 0 < n -> db + n <= 64 ->
  moved s (Z.land (shl64 (Z.land s (not64 (LOWER_MASKS sb))) (db - sb)) (not64 (HIGH_MASKS (64 - (db + n))))) sb db n.
Proof.
  intros Hs Hdb Hn Hle. unfold HIGH_MASKS, LOWER_MASKS, shl64. split.
  - apply word_ok_bits; [apply Z.land_nonneg; left; by apply Z.mod_pos_bound|].
    intros j Hj. bits. by rewrite (proj2 (Z.ltb_ge _ _)) by lia.
  - intros j Hj. bits. replace (j - (db - sb)) with (sb + j - db) by lia.
    destruct (Z.lt_ge_cases (sb + j - db) 0); [rewrite !(Z.testbit_neg_r _ (sb + j - db)) by lia; cbn; by rewrite !andb_false_r|].
    bits. destruct (Z.testbit s (sb + j - db)) eqn:Es; bool_cases; cbn; try done.
Qed.

Lemma moved_aligned s db n :
  word_ok s -> 0 <= db -> 0 < n -> db + n <= 64 ->
  moved s (Z.land (Z.land s (not64 (LOWER_MASKS db))) (not64 (HIGH_MASKS (64 - (db + n))))) db db n.
Proof.
  intros Hs Hdb Hn Hle. unfold HIGH_MASKS, LOWER_MASKS, shl64. split.
  - apply word_ok_bits; [apply Z.land_nonneg; left; apply Z.land_nonneg; left; apply Hs|].
    intros j Hj. bits. by rewrite (testbit_word s) by done.
  - intros j Hj. bits. replace (db + j - db) with j by lia.
    destruct (Z.testbit s j) eqn:Es; bool_cases; cbn; try done.
Qed.

(** The word that is written. *)
Definition merged (d m n db : Z) : Z :=
  let d := Z.land d (not64 (shl64 (LOWER_MASKS n) db)) in
  if negb (m =? 0) then Z.lor d m else d.

Lemma merged_spec d s m sb db n :
  word_ok d -> moved s m sb db n -> 0 <= db -> 0 < n -> db + n <= 64 ->
  word_ok (merged d m n db) /\
  (forall j, 0 <= j < 64 -> Z.testbit (merged d m n db) j =
     if (db <=? j) && (j <? db + n) then Z.testbit s (sb + j - db) else Z.testbit d j) /\
  ((m =? 0) = false <-> exists i, 0 <= i < n /\ Z.testbit s (sb + i) = true).
Proof.
  intros Hd [Hm Hbits] Hdb Hn Hle.
  assert (merged d m n db = Z.lor (Z.land d (not64 (shl64 (LOWER_MASKS n) db))) m) as ->.
  { unfold merged. destruct (Z.eqb_spec m 0) as [->|]; cbn [negb]; [by rewrite Z.lor_0_r|done]. }
  unfold LOWER_MASKS, shl64. split_and!.
  - apply word_ok_bits.
    + apply Z.lor_nonneg. split; [apply Z.land_nonneg; left; apply Hd|apply Hm].
    + intros j Hj. bits. by rewrite (testbit_word d), (testbit_word m) by done.
  - intros j Hj. bits. rewrite Hbits by done. destruct (Z.testbit d j), (Z.testbit s (sb + j - db)); bool_cases; done.
  - rewrite Z.eqb_neq. split.
    + intros Hne. assert (exists j, 0 <= j < 64 /\ Z.testbit m j = true) as (j & Hj & Hb).
      { exists (Z.log2 m). pose proof Hm as [H0 H1]. split; [|apply Z.bit_log2; lia]. split; [apply Z.log2_nonneg|].
        apply Z.log2_lt_pow2; lia. }
      rewrite Hbits in Hb by done. bool_to_prop. exists (j - db). split; [lia|]. by replace (sb + (j - db)) with (sb + j - db) by lia.
    + intros (i & Hi & Hb) ->. specialize (Hbits (db + i) ltac:(lia)). rewrite Z.testbit_0_l in Hbits.
      replace (sb + (db + i) - db) with (sb + i) in Hbits by lia. rewrite Hb in Hbits. by rewrite (proj2 (Z.leb_le _ _)), (proj2 (Z.ltb_lt _ _)) in Hbits by lia.
Qed.

(** ** Entries *)

Lemma getNullEntryAndBitPos_eq pos : getNullEntryAndBitPos pos = (pos / 64, pos mod 64).
Proof.
  unfold getNullEntryAndBitPos, NUM_BITS_PER_NULL_ENTRY_LOG2. rewrite Z.shiftr_div_pow2, Z.shiftl_mul_pow2 by lia.
  change (2 ^ 6) with 64. f_equal. pose proof (Z.div_mod pos 64). lia.
Qed.

Lemma get_lookup l pos : 0 <= pos < Z.of_nat (length l) -> l !! Z.to_nat pos = Some (get l pos).
Proof.
  intros Hp. destruct (lookup_lt_is_Some_2 l (Z.to_nat pos) ltac:(lia)) as [w Hw]. unfold get.
  rewrite Hw. f_equal. symmetry. by apply nth_lookup_Some.
Qed.

Lemma at_get l pos : 0 <= pos < Z.of_nat (length l) -> at_ l pos = Ret (get l pos).
Proof. intros Hp. unfold at_. by apply load_Ret, get_lookup. Qed.

Lemma get_ok l pos : words_ok l -> word_ok (get l pos).
Proof.
  intros Hl. unfold get. destruct (l !! Z.to_nat pos) as [w|] eqn:E.
  - rewrite (nth_lookup_Some _ _ _ _ E). by eapply Forall_lookup_1.
  - apply lookup_ge_None in E. rewrite nth_overflow by done. by split.
Qed.

Lemma bit_word l e j : 0 <= j < 64 -> bit l (64 * e + j) = Z.testbit (get l e) j.
Proof.
  intros Hj. unfold bit. replace (64 * e + j) with (j + e * 64) by lia.
  by rewrite Z.div_add, Z.mod_add, Z.div_small, Z.mod_small by lia.
Qed.

Lemma bit_split l i : bit l i = bit l (64 * (i / 64) + i mod 64).
Proof. f_equal. pose proof (Z.div_mod i 64). lia. Qed.

(** Writing an entry. *)
Lemma set_at_run l pos v :
  0 <= pos < Z.of_nat (length l) -> words_ok l -> word_ok v ->
  exists l', set_at l pos v = Ret l' /\ words_ok l' /\ length l' = length l /\
    (forall e, 0 <= e -> get l' e = if e =? pos then v else get l e) /\
    (forall i, 0 <= i -> bit l' i = if i / 64 =? pos then Z.testbit v (i mod 64) else bit l i).
Proof.
  intros Hp Hl Hv. exists (<[Z.to_nat pos := v]> l). split; [unfold set_at; apply store_Ret; lia|].
  assert (forall e, 0 <= e -> get (<[Z.to_nat pos := v]> l) e = if e =? pos then v else get l e) as Hget.
  { intros e He. unfold get. rewrite !nth_lookup. destruct (Z.eqb_spec e pos) as [->|Hne].
    - by rewrite list_lookup_insert_eq by lia.
    - by rewrite list_lookup_insert_ne by lia. }
  split_and!; [by apply Forall_insert|by rewrite length_insert|done|].
  intros i Hi. unfold bit. rewrite Hget by (apply Z.div_pos; lia). by destruct (i / 64 =? pos).
Qed.

(** ** The unaligned copy *)

Definition same_range (src dst dst' : words) (so dO lo hi : Z) (invert : bool) : Prop :=
  forall i, 0 <= i -> bit dst' i = if (dO + lo <=? i) && (i <? dO + hi) then xorb (bit src (so + i - dO)) invert else bit dst i.

Lemma testbit_inverted (e : Z) (invert : bool) j : 0 <= j < 64 ->
  Z.testbit (if invert then not64 e else e) j = xorb (Z.testbit e j) invert.
Proof.
  intros Hj. destruct invert; [|by rewrite xorb_false_r].
  rewrite testbit_not64 by lia. by rewrite (proj2 (Z.ltb_lt _ _)) by lia.
Qed.

Lemma inverted_ok e (invert : bool) : word_ok e -> word_ok (if invert then not64 e else e).
Proof.
  intros He. destruct invert; [|done]. apply word_ok_bits.
  - apply Z.lxor_nonneg. split; [intros _; done|intros _; apply He].
  - intros j Hj. rewrite testbit_not64 by lia. rewrite (testbit_word e) by done. by rewrite (proj2 (Z.ltb_ge _ _)) by lia.
Qed.

(** One iteration: the entry of the destination after the bits that fit. *)
Lemma copy_step src dst se sb de db so dO bitPos n nb m d' (invert : bool) :
  words_ok src -> words_ok dst -> 0 <= bitPos -> 0 < nb -> bitPos + nb <= n ->
  64 * se + sb = so + bitPos -> 64 * de + db = dO + bitPos -> 0 <= sb -> 0 <= db -> sb + nb <= 64 -> db + nb <= 64 ->
  0 <= se -> 0 <= de < Z.of_nat (length dst) ->
  moved (if invert then not64 (get src se) else get src se) m sb db nb ->
  d' = merged (get dst de) m nb db ->
  exists dst', set_at dst de d' = Ret dst' /\ words_ok dst' /\ length dst' = length dst /\
    same_range src dst dst' so dO bitPos (bitPos + nb) invert /\
    (negb (m =? 0) = true <-> exists i, bitPos <= i < bitPos + nb /\ xorb (bit src (so + i)) invert = true).
Proof.
  intros Hsrc Hdst Hb Hnb Hle Hs Hd Hsb Hdb Hsn Hdn Hse Hde Hm ->.
  destruct (merged_spec _ _ _ _ _ _ (get_ok dst de Hdst) Hm Hdb Hnb Hdn) as (Hok & Hbits & Hzero).
  assert (forall i, 0 <= i < nb -> Z.testbit (if invert then not64 (get src se) else get src se) (sb + i) =
    xorb (bit src (so + bitPos + i)) invert) as Hsrcbit.
  { intros i Hi. rewrite testbit_inverted by lia. f_equal. rewrite <-bit_word by lia. f_equal. lia. }
  destruct (set_at_run dst de _ Hde Hdst Hok) as (dst' & Hset & Hok' & Hlen & _ & Hbit).
  exists dst'. split_and!; [done|done|done| |].
  - intros i Hi. rewrite Hbit by done. pose proof (Z.div_mod i 64). pose proof (Z.mod_pos_bound i 64).
    destruct (Z.eqb_spec (i / 64) de) as [Heq|Hne].
    + rewrite Hbits by lia. destruct (Z.leb_spec db (i mod 64)), (Z.ltb_spec (i mod 64) (db + nb)),
        (Z.leb_spec (dO + bitPos) i), (Z.ltb_spec i (dO + (bitPos + nb))); cbn [andb]; try lia.
      1: { replace (sb + i mod 64 - db) with (sb + (i mod 64 - db)) by lia. rewrite Hsrcbit by lia. do 2 f_equal. lia. }
      all: rewrite (bit_split dst i), Heq, bit_word by lia; done.
    + destruct (Z.leb_spec (dO + bitPos) i), (Z.ltb_spec i (dO + (bitPos + nb))); cbn [andb]; try done.
      exfalso. apply Hne. symmetry. apply Z.div_unique with (i - 64 * de); lia.
  - rewrite negb_true_iff, Hzero. split.
    + intros (i & Hi & Hx). rewrite Hsrcbit in Hx by done. exists (bitPos + i). split; [lia|].
      by replace (so + (bitPos + i)) with (so + bitPos + i) by lia.
    + intros (i & Hi & Hx). exists (i - bitPos). split; [lia|]. rewrite Hsrcbit by lia.
      by replace (so + bitPos + (i - bitPos)) with (so + i) by lia.
Qed.

Lemma same_range_trans src dst dst1 dst2 so dO lo mid hi invert :
  lo <= mid <= hi -> same_range src dst dst1 so dO lo mid invert -> same_range src dst1 dst2 so dO mid hi invert ->
  same_range src dst dst2 so dO lo hi invert.
Proof.
  intros Hle H1 H2 i Hi. rewrite H2, H1 by done.
  destruct (Z.leb_spec (dO + mid) i), (Z.ltb_spec i (dO + hi)), (Z.leb_spec (dO + lo) i), (Z.ltb_spec i (dO + mid)); cbn [andb]; done || lia.
Qed.

Lemma same_range_empty src dst so dO lo hi invert : hi <= lo -> same_range src dst dst so dO lo hi invert.
Proof. intros Hle i Hi. destruct (Z.leb_spec (dO + lo) i), (Z.ltb_spec i (dO + hi)); cbn [andb]; done || lia. Qed.

(** The bits are copied and nothing else changes; the flag tells whether a one was. *)
Definition copied src dst so dO lo hi (invert : bool) (r : outcome (bool * words)) (has : bool) : Prop :=
  exists has' dst', r = Ret (has', dst') /\ words_ok dst' /\ length dst' = length dst /\
    same_range src dst dst' so dO lo hi invert /\
    (has' = true <-> has = true \/ exists i, lo <= i < hi /\ xorb (bit src (so + i)) invert = true).

Lemma copy_loop_run fuel src se sb dst de db so dO bitPos n invert has :
  words_ok src -> words_ok dst -> 0 <= bitPos <= n -> n - bitPos <= Z.of_nat fuel -> 0 <= so -> 0 <= dO ->
  so + n <= num_bits src -> dO + n <= num_bits dst ->
  (bitPos < n -> 64 * se + sb = so + bitPos /\ 64 * de + db = dO + bitPos /\ 0 <= sb < 64 /\ 0 <= db < 64) ->
  copied src dst so dO bitPos n invert (copy_loop fuel src se sb dst de db bitPos n invert has) has.
Proof.
  revert se sb dst de db bitPos has. induction fuel as [|fuel IH]; intros se sb dst de db bitPos has Hsrc Hdst Hb Hf Hso HdO Hsn Hdn Hpos;
    cbn [copy_loop].
  1,2: destruct (Z.ltb_spec bitPos n) as [Hlt|Hge].
  1: lia.
  1,3: exists has, dst; split_and!; [done|done|done|by apply same_range_empty|split; [by left|intros [?|(i & Hi & _)]; [done|lia]]].
  destruct (Hpos Hlt) as (Hs & Hd & Hsb & Hdb). unfold num_bits in *. clear Hpos.
  rewrite (at_get src se) by lia. cbn [mbind outcome_bind]. unfold NUM_BITS_PER_NULL_ENTRY, NUM_BITS_PER_NULL_ENTRY_LOG2. change (Z.shiftl 1 6) with 64.
  set (s := if invert then not64 (get src se) else get src se).
  pose proof (inverted_ok (get src se) invert (get_ok src se Hsrc)) as Hsok. fold s in Hsok.
  assert (forall nb m se' sb' de' db', 0 < nb -> bitPos + nb <= n -> sb + nb <= 64 -> db + nb <= 64 -> moved s m sb db nb ->
    (bitPos + nb < n -> 64 * se' + sb' = so + (bitPos + nb) /\ 64 * de' + db' = dO + (bitPos + nb) /\ 0 <= sb' < 64 /\ 0 <= db' < 64) ->
    copied src dst so dO bitPos n invert
      (d ← at_ dst de;
       let d := Z.land d (not64 (shl64 (LOWER_MASKS nb) db)) in
       let nonzero := negb (m =? 0) in
       let d := if nonzero then Z.lor d m else d in
       dst ← set_at dst de d;
       copy_loop fuel src se' sb' dst de' db' (bitPos + nb) n invert (has || nonzero)) has) as Hstep.
  { intros nb m se' sb' de' db' Hnb Hle Hsn' Hdn' Hm Hpos'. rewrite at_get by lia. cbn [mbind outcome_bind]. cbv zeta.
    destruct (copy_step src dst se sb de db so dO bitPos n nb m _ invert Hsrc Hdst ltac:(lia) Hnb Hle Hs Hd ltac:(lia) ltac:(lia) Hsn' Hdn'
      ltac:(lia) ltac:(lia) Hm eq_refl) as (dst1 & Hset & Hok1 & Hlen1 & Hr1 & Hany1).
    unfold merged in Hset. rewrite Hset. cbn [mbind outcome_bind].
    destruct (IH se' sb' dst1 de' db' (bitPos + nb) (has || negb (m =? 0))) as (has' & dst' & Hrun & Hok' & Hlen' & Hr' & Hany');
      [done|done|lia|lia|done|done|unfold num_bits; lia|unfold num_bits; rewrite Hlen1; lia|done|].
    exists has', dst'. split_and!; [done|done|congruence|by apply (same_range_trans _ _ dst1 _ _ _ _ (bitPos + nb)); [lia|..]|].
    rewrite Hany', orb_true_iff, Hany1. split.
    - intros [[?|(i & Hi & ?)]|(i & Hi & ?)]; [by left|right; exists i..]; (split; [lia|done]).
    - intros [?|(i & Hi & ?)]; [by left; left|]. destruct (Z.lt_ge_cases i (bitPos + nb)).
      + left. right. exists i. split; [lia|done].
      + right. exists i. split; [lia|done]. }
  cbv zeta in Hstep. destruct (Z.ltb_spec db sb); [|destruct (Z.ltb_spec sb db)]; cbv beta iota zeta.
  - apply Hstep; [lia..|apply moved_right; done || lia|intros; lia].
  - apply Hstep; [lia..|apply moved_left; done || lia|intros; lia].
  - assert (sb = db) by lia. subst sb.
    apply Hstep; [lia..|apply moved_aligned; done || lia|intros; lia].
Qed.

Lemma copyUnaligned_run src so dst dO n invert :
  words_ok src -> words_ok dst -> 0 <= n -> 0 <= so -> 0 <= dO -> so + n <= num_bits src -> dO + n <= num_bits dst ->
  copied src dst so dO 0 n invert (copyUnaligned src so dst dO n invert) false.
Proof.
  intros Hsrc Hdst Hn Hso HdO Hsn Hdn. unfold copyUnaligned. rewrite !getNullEntryAndBitPos_eq.
  apply copy_loop_run; [done|done|lia|lia|done..|]. intros _.
  pose proof (Z.div_mod so 64). pose proof (Z.div_mod dO 64). pose proof (Z.mod_pos_bound so 64). pose proof (Z.mod_pos_bound dO 64). lia.
Qed.

(** ** Single bits *)

Lemma testbit_single k j : 0 <= k -> 0 <= j -> Z.testbit (Z.shiftl 1 k) j = (j =? k).
Proof.
  intros Hk Hj. change 1 with (Z.ones 1). rewrite Z.shiftl_spec, Z.testbit_ones by lia.
  destruct (Z.eqb_spec j k), (Z.leb_spec 0 (j - k)), (Z.ltb_spec (j - k) 1); done || lia.
Qed.

Lemma land_single e k : 0 <= k -> negb (Z.land e (SINGLE_ONE k) =? 0) = Z.testbit e k.
Proof.
  intros Hk. unfold SINGLE_ONE. destruct (Z.testbit e k) eqn:E.
  - apply negb_true_iff, Z.eqb_neq. intros H. assert (Z.testbit (Z.land e (Z.shiftl 1 k)) k = false) as Hf by by rewrite H, Z.testbit_0_l.
    by rewrite Z.land_spec, E, testbit_single, Z.eqb_refl in Hf by lia.
  - apply negb_false_iff, Z.eqb_eq, Z.bits_inj'. intros j Hj. rewrite Z.land_spec, testbit_single, Z.testbit_0_l by lia.
    destruct (Z.eqb_spec j k) as [->|]; [by rewrite E|by rewrite andb_false_r].
Qed.

Lemma pos_ok l pos : 0 <= pos < num_bits l -> 0 <= pos / 64 < Z.of_nat (length l).
Proof. intros Hp. unfold num_bits in Hp. split; [apply Z.div_pos; lia|apply Z.div_lt_upper_bound; lia]. Qed.

Lemma isNull_run l pos : 0 <= pos < num_bits l -> pos < 2 ^ 32 -> isNull l pos = Ret (bit l pos).
Proof.
  intros Hp H32. unfold isNull, u32. rewrite wrap_small by lia. rewrite getNullEntryAndBitPos_eq.
  rewrite at_get by by apply pos_ok. cbn [mbind outcome_bind]. by rewrite land_single by (apply Z.mod_pos_bound; lia).
Qed.

Definition with_bit (l l' : words) (pos : Z) (b : bool) : Prop :=
  words_ok l' /\ length l' = length l /\ forall i, 0 <= i -> bit l' i = if i =? pos then b else bit l i.

Lemma single_ok k : 0 <= k < 64 -> word_ok (Z.shiftl 1 k).
Proof.
  intros Hk. apply word_ok_bits; [by apply Z.shiftl_nonneg|]. intros j Hj. rewrite testbit_single by lia. by apply Z.eqb_neq; lia.
Qed.

Lemma setNull_run l pos b : words_ok l -> 0 <= pos < num_bits l -> pos < 2 ^ 32 ->
  exists l', setNull l pos b = Ret l' /\ with_bit l l' pos b.
Proof.
  intros Hl Hp H32. unfold setNull, u32. rewrite wrap_small by lia. rewrite getNullEntryAndBitPos_eq.
  rewrite at_get by by apply pos_ok. cbn [mbind outcome_bind]. pose proof (Z.mod_pos_bound pos 64 ltac:(lia)) as Hm.
  pose proof (get_ok l (pos / 64) Hl) as Hw. set (v := if b then _ else _).
  assert (forall j, 0 <= j -> Z.testbit v j = if (j =? pos mod 64) then b else Z.testbit (get l (pos / 64)) j) as Hv.
  { intros j Hj. unfold v, SINGLE_ONE, SINGLE_ZERO. destruct b.
    - rewrite Z.lor_spec, testbit_single by lia. destruct (j =? pos mod 64); [by rewrite orb_true_r|by rewrite orb_false_r].
    - rewrite Z.land_spec, testbit_not64, testbit_single by lia. destruct (Z.eqb_spec j (pos mod 64)).
      + rewrite (proj2 (Z.ltb_lt _ _)) by lia. by rewrite andb_false_r.
      + destruct (Z.ltb_spec j 64); [by rewrite andb_true_r|]. by rewrite (testbit_word _ j) by done. }
  assert (word_ok v) as Hvok.
  { apply word_ok_bits.
    - unfold v. destruct b; [apply Z.lor_nonneg; split; [apply Hw|by apply Z.shiftl_nonneg]|apply Z.land_nonneg; left; apply Hw].
    - intros j Hj. rewrite Hv by lia. rewrite (proj2 (Z.eqb_neq _ _)) by lia. by apply testbit_word. }
  destruct (set_at_run l (pos / 64) v (pos_ok _ _ Hp) Hl Hvok) as (l' & Hset & Hok & Hlen & _ & Hbit).
  exists l'. split; [done|]. split_and!; [done|done|]. intros i Hi. rewrite Hbit, Hv by (done || (apply Z.mod_pos_bound; lia)).
  pose proof (Z.div_mod i 64). pose proof (Z.div_mod pos 64).
  destruct (Z.eqb_spec i pos) as [->|Hne]; [by rewrite !Z.eqb_refl|]. destruct (Z.eqb_spec (i / 64) (pos / 64)) as [Heq|]; [|done].
  rewrite (proj2 (Z.eqb_neq _ _)) by lia. by rewrite <-Heq.
Qed.
