(* ===== verification/NullMaskSpec.v ===== *)
(** What null masks promise: copies and ranges act on exactly the bits they name,
    the summary is that of the bits, and a mask that claims to hold no null holds
    none, but for two operations. *)
From S2P Require Import Prelude NullMask NullMaskFacts.
Import NullMask.
Local Open Scope Z_scope.

(** The loop of the short copy; its flag is about the source. *)
Lemma copy_bits_run src so dst dO n invert :
  words_ok dst -> 0 <= so -> 0 <= dO -> so + Z.of_nat n <= num_bits src -> dO + Z.of_nat n <= num_bits dst ->
  so + Z.of_nat n <= 2 ^ 32 -> dO + Z.of_nat n <= 2 ^ 32 ->
  exists has' dst', copy_bits src so dst dO n invert = Ret (has', dst') /\ words_ok dst' /\ length dst' = length dst /\
    same_range src dst dst' so dO 0 (Z.of_nat n) invert /\
    (has' = true <-> exists i, 0 <= i < Z.of_nat n /\ bit src (so + i) = true).
Proof.
  revert so dst dO. induction n as [|n IH]; intros so dst dO Hdst Hso HdO Hsn Hdn Hs32 Hd32; cbn [copy_bits].
  - exists false, dst. split_and!; [done|done|done|by apply same_range_empty|split; [done|intros (i & Hi & _); lia]].
  - rewrite isNull_run by lia. cbn [mbind outcome_bind].
    destruct (setNull_run dst dO (xorb (bit src so) invert) Hdst) as (dst1 & Hset & Hok1 & Hlen1 & Hbit1); [lia..|].
    rewrite Hset. cbn [mbind outcome_bind].
    destruct (IH (so + 1) dst1 (dO + 1)) as (has' & dst' & Hrun & Hok' & Hlen' & Hr' & Hany); [done|unfold num_bits in *; lia..|].
    rewrite Hrun. cbn [mbind outcome_bind]. exists (bit src so || has'), dst'. split_and!; [done|done|congruence| |].
    + intros i Hi. rewrite Hr', Hbit1 by done. destruct (Z.eqb_spec i dO) as [->|Hne].
      * rewrite ?Z.eqb_refl. bool_cases. cbn [andb]. do 2 f_equal. lia.
      * destruct (Z.leb_spec (dO + 1 + 0) i), (Z.ltb_spec i (dO + 1 + Z.of_nat n)), (Z.leb_spec (dO + 0) i), (Z.ltb_spec i (dO + Z.of_nat (S n)));
          cbn [andb]; try lia; try done. do 2 f_equal. lia.
    + rewrite orb_true_iff, Hany. split.
      * intros [Hb|(i & Hi & Hb)]; [exists 0; split; [lia|by rewrite Z.add_0_r]|exists (i + 1); split; [lia|]].
        by replace (so + (i + 1)) with (so + 1 + i) by lia.
      * intros (i & Hi & Hb). destruct (Z.eq_dec i 0) as [->|]; [left; by rewrite Z.add_0_r in Hb|right].
        exists (i - 1). split; [lia|]. by replace (so + 1 + (i - 1)) with (so + i) by lia.
Qed.

(** ** Bytes *)

Definition byte_of (l : words) (i v : Z) : Prop :=
  0 <= v /\ forall j, 0 <= j -> Z.testbit v j = (j <? 8) && bit l (8 * i + j).

Lemma byte_pos l i : 0 <= i -> 8 * i + 8 <= num_bits l ->
  0 <= i / 8 < Z.of_nat (length l) /\ 0 <= i mod 8 < 8 /\ i = 8 * (i / 8) + i mod 8.
Proof.
  intros Hi Hn. unfold num_bits in Hn. pose proof (Z.mod_pos_bound i 8 ltac:(lia)). pose proof (Z.div_mod i 8 ltac:(lia)). lia.
Qed.

Lemma get_byte_run l i : words_ok l -> 0 <= i -> 8 * i + 8 <= num_bits l ->
  exists v, get_byte l i = Ret v /\ byte_of l i v.
Proof.
  intros Hl Hi Hn. destruct (byte_pos l i Hi Hn) as (Hp & Hm & Heq). unfold get_byte. rewrite at_get by done. cbn [mbind outcome_bind].
  eexists. split; [done|]. split; [apply Z.land_nonneg; right; done|].
  intros j Hj. rewrite Z.land_spec, Z.shiftr_spec, Z.testbit_ones by lia. rewrite (proj2 (Z.leb_le _ _)) by lia. cbn [andb].
  destruct (Z.ltb_spec j 8); cbn [andb]; [|by rewrite andb_false_r]. rewrite andb_true_r, <-bit_word by lia. f_equal. lia.
Qed.

Lemma set_byte_run src si l i v : words_ok l -> 0 <= i -> 8 * i + 8 <= num_bits l -> byte_of src si v ->
  exists l', set_byte l i v = Ret l' /\ words_ok l' /\ length l' = length l /\
    same_range src l l' (8 * si) (8 * i) 0 8 false.
Proof.
  intros Hl Hi Hn [Hv0 Hv]. destruct (byte_pos l i Hi Hn) as (Hp & Hm & Heq). unfold set_byte. rewrite at_get by done. cbn [mbind outcome_bind].
  pose proof (get_ok l (i / 8) Hl) as Hw. set (w := Z.lor _ _).
  assert (forall j, 0 <= j < 64 -> Z.testbit w j = if (8 * (i mod 8) <=? j) && (j <? 8 * (i mod 8) + 8)
      then bit src (8 * si + (j - 8 * (i mod 8))) else Z.testbit (get l (i / 8)) j) as Hbits.
  { intros j Hj. unfold w. bits. destruct (Z.lt_ge_cases j (8 * (i mod 8))).
    - rewrite (Z.testbit_neg_r v) by lia. destruct (Z.testbit (get l (i / 8)) j); bool_cases; done.
    - rewrite Hv by lia. destruct (Z.testbit (get l (i / 8)) j), (bit src (8 * si + (j - 8 * (i mod 8)))); bool_cases; done. }
  assert (word_ok w) as Hwok.
  { apply word_ok_bits.
    - unfold w. apply Z.lor_nonneg. split; [apply Z.land_nonneg; left; apply Hw|by apply Z.shiftl_nonneg].
    - intros j Hj. unfold w. bits. rewrite (testbit_word (get l (i / 8))), Hv by (done || lia).
      by rewrite (proj2 (Z.ltb_ge (j - 8 * (i mod 8)) 8)) by lia. }
  destruct (set_at_run l (i / 8) w Hp Hl Hwok) as (l' & Hset & Hok & Hlen & _ & Hbit).
  exists l'. split_and!; [done|done|done|]. intros k Hk. rewrite Hbit by done.
  pose proof (Z.div_mod k 64 ltac:(lia)). pose proof (Z.mod_pos_bound k 64 ltac:(lia)). rewrite xorb_false_r.
  destruct (Z.eqb_spec (k / 64) (i / 8)) as [Hq|Hne].
  - rewrite Hbits by done. rewrite (bit_split l k), Hq, bit_word by done. bool_cases; cbn [andb]; try done. f_equal. lia.
  - destruct (Z.leb_spec (8 * i + 0) k), (Z.ltb_spec k (8 * i + 8)); cbn [andb]; try done.
    exfalso. apply Hne. symmetry. apply Z.div_unique with (k - 64 * (i / 8)); lia.
Qed.

Lemma copied_shift src dst dst1 so dO lo n : 0 <= lo ->
  same_range src dst dst1 (so + lo) (dO + lo) 0 n false -> same_range src dst dst1 so dO lo (lo + n) false.
Proof.
  intros Hlo H i Hi. rewrite H by done. replace (dO + lo + 0) with (dO + lo) by lia.
  replace (dO + (lo + n)) with (dO + lo + n) by lia. destruct (_ && _); [|done]. do 2 f_equal. lia.
Qed.

Lemma copy_bytes_run src sb dst db n : words_ok src -> words_ok dst -> 0 <= sb -> 0 <= db ->
  8 * (sb + Z.of_nat n) <= num_bits src -> 8 * (db + Z.of_nat n) <= num_bits dst ->
  copied src dst (8 * sb) (8 * db) 0 (8 * Z.of_nat n) false (copy_bytes src sb dst db n) false.
Proof.
  intros Hsrc. revert sb dst db. induction n as [|n IH]; intros sb dst db Hdst Hsb Hdb Hsn Hdn; cbn [copy_bytes].
  - exists false, dst. split_and!; [done|done|done|by apply same_range_empty|split; [by left|intros [?|(i & Hi & _)]; [done|lia]]].
  - destruct (get_byte_run src sb Hsrc Hsb) as (v & Hget & Hv0 & Hv); [lia|]. rewrite Hget. cbn [mbind outcome_bind].
    destruct (set_byte_run src sb dst db v Hdst Hdb) as (dst1 & Hset & Hok1 & Hlen1 & Hr1); [lia|by split|].
    rewrite Hset. cbn [mbind outcome_bind].
    destruct (IH (sb + 1) dst1 (db + 1)) as (has' & dst' & Hrun & Hok' & Hlen' & Hr' & Hany); [done|unfold num_bits in *; lia..|].
    rewrite Hrun. cbn [mbind outcome_bind]. exists (negb (v =? 0) || has'), dst'. split_and!; [done|done|congruence| |].
    + apply (same_range_trans _ _ dst1 _ _ _ _ 8); [lia|exact Hr1|].
      replace (8 * Z.of_nat (S n)) with (8 + 8 * Z.of_nat n) by lia. apply copied_shift; [lia|].
      replace (8 * sb + 8) with (8 * (sb + 1)) by lia. by replace (8 * db + 8) with (8 * (db + 1)) by lia.
    + assert (negb (v =? 0) = true <-> exists j, 0 <= j < 8 /\ bit src (8 * sb + j) = true) as Hz.
      { rewrite negb_true_iff, Z.eqb_neq. split.
        - intros Hne. exists (Z.log2 v). pose proof (Z.log2_nonneg v). pose proof (Z.bit_log2 v ltac:(lia)) as Hb. rewrite Hv in Hb by done.
          bool_to_prop. split; [lia|done].
        - intros (j & Hj & Hb) ->. specialize (Hv j ltac:(lia)). rewrite Z.testbit_0_l, Hb in Hv.
          by rewrite (proj2 (Z.ltb_lt _ _)) in Hv by lia. }
      rewrite orb_true_iff, Hz, Hany. split.
      * intros [(j & Hj & Hb)|[?|(i & Hi & Hb)]]; [|done|]; right.
        -- exists j. rewrite xorb_false_r. split; [lia|done].
        -- exists (i + 8). split; [lia|]. by replace (8 * sb + (i + 8)) with (8 * (sb + 1) + i) by lia.
      * intros [?|(i & Hi & Hb)]; [done|]. destruct (Z.lt_ge_cases i 8).
        -- left. exists i. rewrite xorb_false_r in Hb. split; [lia|done].
        -- right. right. exists (i - 8). split; [lia|]. by replace (8 * (sb + 1) + (i - 8)) with (8 * sb + i) by lia.
Qed.

(** ** Copies *)

(** A copied prefix followed by a copy of the rest. *)
Lemma copied_then src dst dst1 so dO a b has1 r :
  words_ok dst1 -> length dst1 = length dst -> 0 <= a -> 0 <= b -> same_range src dst dst1 so dO 0 a false ->
  (has1 = true <-> exists i, 0 <= i < a /\ bit src (so + i) = true) ->
  copied src dst1 (so + a) (dO + a) 0 b false r false ->
  exists has2 dst2, r = Ret (has2, dst2) /\ words_ok dst2 /\ length dst2 = length dst /\
    same_range src dst dst2 so dO 0 (a + b) false /\
    (has1 || has2 = true <-> exists i, 0 <= i < a + b /\ bit src (so + i) = true).
Proof.
  intros Hok1 Hlen1 Ha Hb Hr1 Hh1 (has2 & dst2 & -> & Hok2 & Hlen2 & Hr2 & Hh2). exists has2, dst2.
  split_and!; [done|done|congruence| |].
  - apply (same_range_trans _ _ dst1 _ _ _ _ a); [lia|done|by apply copied_shift].
  - rewrite orb_true_iff, Hh1, Hh2. split.
    + intros [(i & Hi & ?)|[?|(i & Hi & Hx)]]; [exists i; split; [lia|done]|done|].
      exists (a + i). split; [lia|]. rewrite xorb_false_r in Hx. by rewrite Z.add_assoc.
    + intros (i & Hi & Hx). destruct (Z.lt_ge_cases i a); [left; exists i; split; [lia|done]|right; right].
      exists (i - a). split; [lia|]. rewrite xorb_false_r. by replace (so + a + (i - a)) with (so + i) by lia.
Qed.

Lemma copied_done src dst so dO n r : copied src dst so dO 0 n false r false ->
  exists has dst', r = Ret (has, dst') /\ words_ok dst' /\ length dst' = length dst /\ same_range src dst dst' so dO 0 n false /\
    (has = true <-> exists i, 0 <= i < n /\ bit src (so + i) = true).
Proof.
  intros (has & dst' & -> & ? & ? & ? & Hh). exists has, dst'. split_and!; [done..|]. rewrite Hh. setoid_rewrite xorb_false_r.
  split; [intros [?|?]; done|by right].
Qed.

Lemma aligned_run src so dst dO n :
  words_ok src -> words_ok dst -> 8 <= n -> 0 <= so -> 0 <= dO -> so + n <= num_bits src -> dO + n <= num_bits dst ->
  so mod 8 = dO mod 8 ->
  let first := if so =? 0 then 0 else 8 - so mod 8 in
  let bytes := (n - first) / 8 in
  let rest := n - first - bytes * 8 in
  exists has dst',
    ('(has1, dst) ← if so =? 0 then mret (false, dst) else copyUnaligned src so dst dO first false;
     '(has2, dst) ← copy_bytes src ((so + first) / 8) dst ((dO + first) / 8) (Z.to_nat bytes);
     if 0 <? rest then
       '(has3, dst) ← copyUnaligned src (so + (first + bytes * 8)) dst (dO + (first + bytes * 8)) rest false;
       mret (has3 || (has1 || has2), dst)
     else mret (has1 || has2, dst)) = Ret (has, dst') /\
    words_ok dst' /\ length dst' = length dst /\ same_range src dst dst' so dO 0 n false /\
    (has = true <-> exists i, 0 <= i < n /\ bit src (so + i) = true).
Proof.
  intros Hsrc Hdst Hn Hso HdO Hsn Hdn Hal first bytes rest.
  assert (0 <= first <= 8 /\ (so + first) mod 8 = 0 /\ (dO + first) mod 8 = 0) as (Hf & Hsf & Hdf).
  { unfold first. destruct (Z.eqb_spec so 0) as [->|]; [rewrite Z.mod_0_l in Hal by lia; rewrite !Z.add_0_r, <-Hal; by rewrite Z.mod_0_l|].
    pose proof (Z.mod_pos_bound so 8 ltac:(lia)). pose proof (Z.div_mod so 8 ltac:(lia)). pose proof (Z.div_mod dO 8 ltac:(lia)). split; [lia|].
    split; symmetry; [apply Z.mod_unique with (so / 8 + 1)|apply Z.mod_unique with (dO / 8 + 1)]; lia. }
  pose proof (Z.div_mod (so + first) 8 ltac:(lia)). pose proof (Z.div_mod (dO + first) 8 ltac:(lia)).
  pose proof (Z.div_mod (n - first) 8 ltac:(lia)). pose proof (Z.mod_pos_bound (n - first) 8 ltac:(lia)).
  pose proof (Z.div_pos (n - first) 8 ltac:(lia) ltac:(lia)). pose proof (Z.div_pos (so + first) 8 ltac:(lia) ltac:(lia)).
  pose proof (Z.div_pos (dO + first) 8 ltac:(lia) ltac:(lia)).
  assert (copied src dst so dO 0 first false (if so =? 0 then mret (false, dst) else copyUnaligned src so dst dO first false) false) as Hc1.
  { destruct (Z.eqb_spec so 0) as [E|].
    - exists false, dst. assert (first = 0) as -> by done. split_and!; [done|done|done|by apply same_range_empty|split; [by left|intros [?|(i & Hi & _)]; [done|lia]]].
    - apply copyUnaligned_run; done || lia. }
  apply copied_done in Hc1 as (has1 & dst1 & -> & Hok1 & Hlen1 & Hr1 & Hh1). cbn [mbind outcome_bind].
  assert (copied src dst1 (so + first) (dO + first) 0 (8 * bytes) false
    (copy_bytes src ((so + first) / 8) dst1 ((dO + first) / 8) (Z.to_nat bytes)) false) as Hc2.
  { pose proof (copy_bytes_run src ((so + first) / 8) dst1 ((dO + first) / 8) (Z.to_nat bytes) Hsrc Hok1) as Hc.
    rewrite Z2Nat.id in Hc by done. replace (8 * ((so + first) / 8)) with (so + first) in Hc by lia.
    replace (8 * ((dO + first) / 8)) with (dO + first) in Hc by lia.
    apply Hc; [done|done|unfold bytes in *; lia|]. unfold num_bits in *. rewrite Hlen1. unfold bytes in *. lia. }
  destruct (copied_then _ _ _ _ _ first (8 * bytes) has1 _ Hok1 Hlen1 ltac:(lia) ltac:(unfold bytes in *; lia) Hr1 Hh1 Hc2)
    as (has2 & dst2 & -> & Hok2 & Hlen2 & Hr2 & Hh2). cbn [mbind outcome_bind].
  destruct (Z.ltb_spec 0 rest) as [Hrest|Hrest].
  - assert (copied src dst2 (so + (first + 8 * bytes)) (dO + (first + 8 * bytes)) 0 rest false
      (copyUnaligned src (so + (first + bytes * 8)) dst2 (dO + (first + bytes * 8)) rest false) false) as Hc3.
    { rewrite (Z.mul_comm bytes 8). apply copyUnaligned_run; [done|done|lia|unfold bytes in *; lia..|unfold rest, bytes in *; lia|].
      unfold num_bits in *. rewrite Hlen2. unfold rest, bytes in *. lia. }
    destruct (copied_then _ _ _ _ _ (first + 8 * bytes) rest (has1 || has2) _ Hok2 Hlen2 ltac:(unfold bytes in *; lia) ltac:(lia) Hr2 Hh2 Hc3)
      as (has3 & dst3 & -> & Hok3 & Hlen3 & Hr3 & Hh3). cbn [mbind outcome_bind].
    exists (has3 || (has1 || has2)), dst3. replace (first + 8 * bytes + rest) with n in * by (unfold rest; lia).
    split_and!; [done..|]. by rewrite orb_comm.
  - exists (has1 || has2), dst2. replace (first + 8 * bytes) with n in * by (unfold rest, bytes in *; lia). done.
Qed.

Lemma copyNullMask_run src so dst dO n invert :
  words_ok src -> words_ok dst -> 0 <= n -> 0 <= so -> 0 <= dO -> so + n <= num_bits src -> dO + n <= num_bits dst ->
  (n <= 3 -> so + n <= 2 ^ 32 /\ dO + n <= 2 ^ 32) ->
  exists has dst', copyNullMask src so dst dO n invert = Ret (has, dst') /\ words_ok dst' /\ length dst' = length dst /\
    same_range src dst dst' so dO 0 n invert /\
    (has = true <-> exists i, 0 <= i < n /\ (if n <=? 3 then bit src (so + i) else xorb (bit src (so + i)) invert) = true).
Proof.
  intros Hsrc Hdst Hn Hso HdO Hsn Hdn H32. unfold copyNullMask. destruct (Z.leb_spec n 3) as [H3|H3].
  - destruct (copy_bits_run src so dst dO (Z.to_nat n) invert) as (has & dst' & Hrun & ? & ? & ? & ?); [done|rewrite ?Z2Nat.id by lia; lia..|].
    rewrite Z2Nat.id in * by lia. by exists has, dst'.
  - destruct (negb invert && _ && _ && _) eqn:E.
    + bool_to_prop. destruct invert; [done|]. setoid_rewrite xorb_false_r. by apply aligned_run.
    + destruct (copyUnaligned_run src so dst dO n invert) as (has & dst' & Hrun & ? & ? & ? & Hh); [done..|].
      exists has, dst'. split_and!; [done..|]. rewrite Hh. split; [intros [?|?]; done|by right].
Qed.



(** ** Ranges *)

Definition filled (l l' : words) (lo hi : Z) (b : bool) : Prop :=
  words_ok l' /\ length l' = length l /\ forall i, 0 <= i -> bit l' i = if (lo <=? i) && (i <? hi) then b else bit l i.

(** Writing a word that differs in the bits from [a] to [b]. *)
Lemma set_at_filled l e a b v (x : bool) :
  words_ok l -> 0 <= e < Z.of_nat (length l) -> 0 <= a -> b <= 64 -> 0 <= v ->
  (forall j, 0 <= j -> Z.testbit v j = if (a <=? j) && (j <? b) then x else Z.testbit (get l e) j) ->
  exists l', set_at l e v = Ret l' /\ filled l l' (64 * e + a) (64 * e + b) x.
Proof.
  intros Hl He Ha Hb Hv0 Hv.
  assert (word_ok v) as Hok.
  { apply word_ok_bits; [done|]. intros j Hj. rewrite Hv by lia. rewrite (proj2 (Z.ltb_ge j b)) by lia. rewrite andb_false_r.
    apply testbit_word; [by apply get_ok|done]. }
  destruct (set_at_run l e v He Hl Hok) as (l' & Hset & Hok' & Hlen & _ & Hbit). exists l'. split; [done|]. split_and!; [done|done|].
  intros i Hi. rewrite Hbit by done. pose proof (Z.div_mod i 64 ltac:(lia)). pose proof (Z.mod_pos_bound i 64 ltac:(lia)).
  destruct (Z.eqb_spec (i / 64) e) as [Hq|Hne].
  - rewrite Hv by lia. rewrite (bit_split l i), Hq, bit_word by done. bool_cases; done.
  - destruct (Z.leb_spec (64 * e + a) i), (Z.ltb_spec i (64 * e + b)); cbn [andb]; try done.
    exfalso. apply Hne. symmetry. apply Z.div_unique with (i - 64 * e); lia.
Qed.

Lemma filled_trans l l1 l2 lo mid hi b : lo <= mid <= hi -> filled l l1 lo mid b -> filled l1 l2 mid hi b -> filled l l2 lo hi b.
Proof.
  intros Hle (Ho1 & Hl1 & H1) (Ho2 & Hl2 & H2). split_and!; [done|congruence|]. intros i Hi. rewrite H2, H1 by done. bool_cases; done.
Qed.

Lemma filled_comm l l1 l2 lo mid hi b : lo <= mid <= hi -> filled l l1 mid hi b -> filled l1 l2 lo mid b -> filled l l2 lo hi b.
Proof.
  intros Hle (Ho1 & Hl1 & H1) (Ho2 & Hl2 & H2). split_and!; [done|congruence|]. intros i Hi. rewrite H2, H1 by done. bool_cases; done.
Qed.

Lemma filled_empty l lo hi b : words_ok l -> hi <= lo -> filled l l lo hi b.
Proof. intros Hl Hle. split_and!; [done|done|]. intros i Hi. bool_cases; done. Qed.

(** The entries between the first and the last. *)
Lemma fill_entries_filled l first last (b : bool) : words_ok l -> 0 <= first <= last -> last <= Z.of_nat (length l) ->
  exists l', fill_entries l first last (if b then ALL_NULL_ENTRY else NO_NULL_ENTRY) = Ret l' /\ filled l l' (64 * first) (64 * last) b.
Proof.
  intros Hl Hf Hlast. destruct (fill_Ret l (Z.to_nat first) (Z.to_nat (last - first)) (if b then ALL_NULL_ENTRY else NO_NULL_ENTRY))
    as (l' & Hrun & Hlen & Hlook); [lia|].
  assert (forall e, 0 <= e -> get l' e = if (first <=? e) && (e <? last) then (if b then ALL_NULL_ENTRY else NO_NULL_ENTRY) else get l e) as Hget.
  { intros e He. unfold get. rewrite !nth_lookup, Hlook. case_bool_decide.
    - rewrite (proj2 (Z.leb_le first e)), (proj2 (Z.ltb_lt e last)) by lia. done.
    - destruct (Z.leb_spec first e), (Z.ltb_spec e last); cbn [andb]; done || lia. }
  exists l'. split; [done|]. split_and!; [|done|].
  - apply Forall_lookup_2. intros i w Hw. pose proof (lookup_lt_Some _ _ _ Hw). assert (w = get l' (Z.of_nat i)) as ->.
    { unfold get. rewrite Nat2Z.id. symmetry. by apply nth_lookup_Some. }
    rewrite Hget by lia. destruct (_ && _); [|by apply get_ok]. by destruct b.
  - intros i Hi. unfold bit. rewrite Hget by (apply Z.div_pos; lia). pose proof (Z.div_mod i 64 ltac:(lia)). pose proof (Z.mod_pos_bound i 64 ltac:(lia)).
    assert ((first <=? i / 64) && (i / 64 <? last) = (64 * first <=? i) && (i <? 64 * last)) as -> by (bool_cases; done).
    destruct (_ && _); [|done]. destruct b; [|apply Z.testbit_0_l].
    unfold ALL_NULL_ENTRY, NO_NULL_ENTRY. rewrite testbit_not64, Z.testbit_0_l by lia. by rewrite (proj2 (Z.ltb_lt _ _)) by lia.
Qed.

Lemma ones_nonneg a : 0 <= a -> 0 <= Z.ones a.
Proof. intros Ha. rewrite Z.ones_equiv. pose proof (Z.pow_pos_nonneg 2 a). lia. Qed.

(** The words that [setNullRange] writes. *)
Lemma bits_between w a c (b : bool) : word_ok w -> 0 <= a < c -> c <= 64 ->
  let v := if b then Z.lor w (Z.land (not64 (LOWER_MASKS a)) (not64 (HIGH_MASKS (64 - c))))
           else Z.land w (Z.lor (LOWER_MASKS a) (HIGH_MASKS (64 - c))) in
  0 <= v /\ forall j, 0 <= j -> Z.testbit v j = if (a <=? j) && (j <? c) then b else Z.testbit w j.
Proof.
  intros Hw Ha Hc v. unfold v, LOWER_MASKS, HIGH_MASKS, shl64. split.
  - destruct b; [|apply Z.land_nonneg; left; apply Hw]. apply Z.lor_nonneg. split; [apply Hw|].
    apply Z.land_nonneg. left. apply Z.lxor_nonneg. split; intros _; [done|apply ones_nonneg; lia].
  - intros j Hj. destruct (Z.lt_ge_cases j 64).
    + destruct b; bits; destruct (Z.testbit w j); bool_cases; done.
    + pose proof (testbit_word w j Hw ltac:(lia)) as E. destruct b; bits; rewrite E; bool_cases; done.
Qed.

Lemma bits_from w a (b : bool) : word_ok w -> 0 <= a < 64 ->
  let v := if b then Z.lor w (not64 (LOWER_MASKS a)) else Z.land w (LOWER_MASKS a) in
  0 <= v /\ forall j, 0 <= j -> Z.testbit v j = if (a <=? j) && (j <? 64) then b else Z.testbit w j.
Proof.
  intros Hw Ha v. unfold v, LOWER_MASKS. split.
  - destruct b; [|apply Z.land_nonneg; left; apply Hw]. apply Z.lor_nonneg. split; [apply Hw|].
    apply Z.lxor_nonneg. split; intros _; [done|apply ones_nonneg; lia].
  - intros j Hj. destruct (Z.lt_ge_cases j 64).
    + destruct b; bits; destruct (Z.testbit w j); bool_cases; done.
    + pose proof (testbit_word w j Hw ltac:(lia)) as E. destruct b; bits; rewrite E; bool_cases; done.
Qed.

Lemma bits_upto w c (b : bool) : word_ok w -> 0 <= c <= 64 ->
  let v := if b then Z.lor w (LOWER_MASKS c) else Z.land w (not64 (LOWER_MASKS c)) in
  0 <= v /\ forall j, 0 <= j -> Z.testbit v j = if (0 <=? j) && (j <? c) then b else Z.testbit w j.
Proof.
  intros Hw Hc v. unfold v, LOWER_MASKS. split.
  - destruct b; [|apply Z.land_nonneg; left; apply Hw]. apply Z.lor_nonneg. split; [apply Hw|apply ones_nonneg; lia].
  - intros j Hj. destruct (Z.lt_ge_cases j 64).
    + destruct b; bits; destruct (Z.testbit w j); bool_cases; done.
    + pose proof (testbit_word w j Hw ltac:(lia)) as E. destruct b; bits; rewrite E; bool_cases; done.
Qed.

(** [setNullRange] sets exactly the bits it is given: afterwards the bits of
    the range have the value, those outside are what they were, and no entry out of
    the array is touched, even when the range ends with the last entry. *)
Theorem range_is_filled l off n b :
  words_ok l -> 0 <= off -> 0 <= n -> off + n <= num_bits l ->
  exists l', setNullRange l off n b = Ret l' /\ filled l l' off (off + n) b.
Proof.
  intros Hl Hoff Hn Hle. unfold setNullRange, num_bits in *.
  destruct (Z.eqb_spec n 0) as [->|Hne]; [exists l; split; [done|apply filled_empty; [done|lia]]|].
  rewrite !getNullEntryAndBitPos_eq. change NUM_BITS_PER_NULL_ENTRY with 64.
  pose proof (Z.div_mod off 64 ltac:(lia)) as Ho. pose proof (Z.mod_pos_bound off 64 ltac:(lia)) as Hob.
  pose proof (Z.div_mod (off + n) 64 ltac:(lia)) as He. pose proof (Z.mod_pos_bound (off + n) 64 ltac:(lia)) as Heb.
  set (fe := off / 64) in *. set (fb := off mod 64) in *. set (le := (off + n) / 64) in *. set (lb := (off + n) mod 64) in *.
  assert (0 <= fe <= le) as Hfl by (split; [apply Z.div_pos; lia|apply Z.div_le_mono; lia]).
  assert (exists l1, (if fe + 1 <? le then fill_entries l (fe + 1) le (if b then ALL_NULL_ENTRY else NO_NULL_ENTRY) else mret l) = Ret l1 /\
    filled l l1 (64 * (fe + 1)) (64 * Z.max (fe + 1) le) b) as (l1 & -> & Hf1).
  { destruct (Z.ltb_spec (fe + 1) le).
    - rewrite Z.max_r by lia. apply fill_entries_filled; [done|lia..].
    - exists l. split; [done|]. apply filled_empty; [done|lia]. }
  cbn [mbind outcome_bind]. pose proof Hf1 as (Hok1 & Hlen1 & _). rewrite at_get by (rewrite Hlen1; lia). cbn [mbind outcome_bind].
  pose proof (get_ok l1 fe Hok1) as Hw1. destruct (Z.eqb_spec fe le) as [Heq|Hneq].
  - destruct (bits_between (get l1 fe) fb lb b Hw1 ltac:(lia) ltac:(lia)) as [Hv0 Hv].
    destruct (set_at_filled l1 fe fb lb _ b Hok1 ltac:(rewrite Hlen1; lia) ltac:(lia) ltac:(lia) Hv0 Hv) as (l2 & Hset & Hf2).
    exists l2. split; [done|]. replace off with (64 * fe + fb) by lia. replace (64 * fe + fb + n) with (64 * fe + lb) by lia.
    destruct Hf1 as (_ & _ & Hb1), Hf2 as (? & ? & Hb2). split_and!; [done|congruence|]. intros i Hi. rewrite Hb2, Hb1 by done.
    bool_cases; done.
  - destruct (bits_from (get l1 fe) fb b Hw1 ltac:(lia)) as [Hv0 Hv].
    destruct (set_at_filled l1 fe fb 64 _ b Hok1 ltac:(rewrite Hlen1; lia) ltac:(lia) ltac:(lia) Hv0 Hv) as (l2 & Hset & Hf2).
    rewrite Hset. cbn [mbind outcome_bind]. rewrite Z.max_r in Hf1 by lia.
    assert (filled l l2 off (64 * le) b) as Hf12.
    { replace off with (64 * fe + fb) by lia. apply (filled_comm l l1 l2 _ (64 * (fe + 1))); [lia|done|].
      by replace (64 * (fe + 1)) with (64 * fe + 64) by lia. }
    pose proof Hf12 as (Hok2 & Hlen2 & _). destruct (Z.ltb_spec 0 lb) as [Hlb|Hlb].
    + rewrite at_get by (rewrite Hlen2; lia). cbn [mbind outcome_bind].
      destruct (bits_upto (get l2 le) lb b (get_ok _ _ Hok2) ltac:(lia)) as [Hv0' Hv'].
      destruct (set_at_filled l2 le 0 lb _ b Hok2 ltac:(rewrite Hlen2; lia) ltac:(lia) ltac:(lia) Hv0' Hv') as (l3 & Hset3 & Hf3).
      exists l3. split; [done|]. apply (filled_trans l l2 l3 _ (64 * le)); [lia|done|].
      replace (off + n) with (64 * le + lb) by lia. by replace (64 * le) with (64 * le + 0) at 1 by lia.
    + exists l2. split; [done|]. by replace (off + n) with (64 * le) by lia.
Qed.

(** A range over three entries that ends with the last one. *)
Lemma range_is_filled_witness : exists l', setNullRange [0; 5; 0] 60 132 true = Ret l' /\ bit l' 59 = false /\ bit l' 60 = true /\ bit l' 191 = true.
Proof.
  destruct (range_is_filled [0; 5; 0] 60 132 true) as (l' & Hrun & _ & _ & Hb); [repeat constructor; done|done..|].
  exists l'. split; [exact Hrun|]. split_and!; [exact (Hb 59 ltac:(done))|exact (Hb 60 ltac:(done))|exact (Hb 191 ltac:(done))].
Defined.

(** ** The summary of a range *)

Definition all_bits (l : words) (lo hi : Z) (v : bool) : Prop := forall i, lo <= i < hi -> bit l i = v.

(** The first component tells that all are null, the second that one is. *)
Definition summary (l : words) (lo hi : Z) (s : bool * bool) : Prop :=
  (s.1 = true <-> all_bits l lo hi true) /\ (s.2 = true <-> ~ all_bits l lo hi false).

Lemma summary_all l lo hi v : lo < hi -> all_bits l lo hi v -> summary l lo hi (v, v).
Proof.
  intros Hlt Hv. split; cbn; destruct v; split; try done.
  - intros Ht. specialize (Ht lo). specialize (Hv lo). rewrite Hv in Ht by lia. by specialize (Ht ltac:(lia)).
  - intros _ Hf. specialize (Hf lo). rewrite Hv in Hf by lia. by specialize (Hf ltac:(lia)).
Qed.

Lemma summary_mixed l lo hi : ~ all_bits l lo hi true -> ~ all_bits l lo hi false -> summary l lo hi (false, true).
Proof. intros Ht Hf. split; cbn; split; done. Qed.

Lemma all_bits_app l lo mid hi v : lo <= mid <= hi -> all_bits l lo hi v <-> all_bits l lo mid v /\ all_bits l mid hi v.
Proof.
  intros Hle. split.
  - intros H. split; intros i Hi; apply H; lia.
  - intros [H1 H2] i Hi. destruct (Z.lt_ge_cases i mid); [apply H1|apply H2]; lia.
Qed.

Lemma all_bits_not l lo hi v : lo < hi -> all_bits l lo hi v -> ~ all_bits l lo hi (negb v).
Proof. intros Hlt Hv Hn. specialize (Hv lo). specialize (Hn lo). rewrite Hv in Hn by lia. specialize (Hn ltac:(lia)). by destruct v. Qed.

(** A word under a mask of consecutive bits. *)
Definition mask_of (m a b : Z) : Prop := forall j, 0 <= j -> Z.testbit m j = (a <=? j) && (j <? b).

Lemma masked_zero l e m a b : 0 <= a -> b <= 64 -> mask_of m a b ->
  (Z.land (get l e) m =? 0) = true <-> all_bits l (64 * e + a) (64 * e + b) false.
Proof.
  intros Ha Hb Hm. rewrite Z.eqb_eq. split.
  - intros H i Hi. replace i with (64 * e + (i - 64 * e)) by lia. rewrite bit_word by lia.
    assert (Z.testbit (Z.land (get l e) m) (i - 64 * e) = false) as Ht by by rewrite H, Z.testbit_0_l.
    rewrite Z.land_spec, Hm in Ht by lia. revert Ht. bool_cases. cbn [andb]. by rewrite andb_true_r.
  - intros H. apply Z.bits_inj'. intros j Hj. rewrite Z.land_spec, Hm, Z.testbit_0_l by lia.
    destruct (Z.leb_spec a j), (Z.ltb_spec j b); cbn [andb]; try by rewrite andb_false_r.
    rewrite <-bit_word by lia. rewrite H by lia. done.
Qed.

Lemma masked_full l e m a b : 0 <= a -> b <= 64 -> mask_of m a b ->
  (Z.land (get l e) m =? m) = true <-> all_bits l (64 * e + a) (64 * e + b) true.
Proof.
  intros Ha Hb Hm. rewrite Z.eqb_eq. split.
  - intros H i Hi. replace i with (64 * e + (i - 64 * e)) by lia. rewrite bit_word by lia.
    assert (Z.testbit (Z.land (get l e) m) (i - 64 * e) = true) as Ht.
    { rewrite H, Hm by lia. bool_cases; done. }
    rewrite Z.land_spec in Ht. by apply andb_true_iff in Ht as [Ht _].
  - intros H. apply Z.bits_inj'. intros j Hj. rewrite Z.land_spec, Hm by lia.
    destruct (Z.leb_spec a j), (Z.ltb_spec j b); cbn [andb]; try by rewrite andb_false_r.
    rewrite <-bit_word by lia. rewrite H by lia. done.
Qed.

Lemma mask_low c : 0 <= c -> mask_of (LOWER_MASKS c) 0 c.
Proof. intros Hc j Hj. unfold LOWER_MASKS. bits. bool_cases; done. Qed.

Lemma mask_high a : 0 <= a <= 64 -> mask_of (HIGH_MASKS (64 - a)) a 64.
Proof. intros Ha j Hj. unfold HIGH_MASKS, shl64. bits. bool_cases; done. Qed.

Lemma mask_between a c : 0 <= a <= c -> c <= 64 -> mask_of (Z.land (HIGH_MASKS (64 - a)) (LOWER_MASKS c)) a c.
Proof.
  intros Ha Hc j Hj. unfold HIGH_MASKS, LOWER_MASKS, shl64. bits. bool_cases; done.
Qed.

(** The verdict on a last word, when the bits before it all are [v]. *)
Lemma summary_last l lo mid e c m v : lo <= mid -> mid = 64 * e + 0 -> 0 < c <= 64 -> mask_of m 0 c -> (lo < mid) -> all_bits l lo mid v ->
  summary l lo (mid + c)
    (if Z.land (get l e) m =? 0 then (false, v) else if Z.land (get l e) m =? m then (v, true) else (false, true)).
Proof.
  intros Hle Hmid Hc Hm Hlt Hv.
  pose proof (masked_zero l e m 0 c ltac:(lia) ltac:(lia) Hm) as Hz. pose proof (masked_full l e m 0 c ltac:(lia) ltac:(lia) Hm) as Hf.
  replace (64 * e + c) with (mid + c) in * by lia. rewrite <-Hmid in *.
  assert (forall w, all_bits l lo (mid + c) w <-> all_bits l lo mid w /\ all_bits l mid (mid + c) w) as Happ by (intros; apply all_bits_app; lia).
  pose proof (all_bits_not _ _ _ _ Hlt Hv) as Hnv.
  destruct (Z.land (get l e) m =? 0) eqn:E0; [|destruct (Z.land (get l e) m =? m) eqn:E1].
  - apply proj1 in Hz. specialize (Hz eq_refl). destruct v.
    + apply summary_mixed; rewrite Happ; [|tauto]. intros [_ H]. by apply (all_bits_not l mid (mid + c) false) in H; [|lia|].
    + apply summary_all; [lia|]. by apply Happ.
  - apply proj1 in Hf. specialize (Hf eq_refl). destruct v.
    + apply summary_all; [lia|]. by apply Happ.
    + apply summary_mixed; rewrite Happ; [tauto|]. intros [_ H]. by apply (all_bits_not l mid (mid + c) true) in H; [|lia|].
  - apply summary_mixed; rewrite Happ; intros [_ H]; [by apply Hf in H|by apply Hz in H].
Qed.

Lemma summary_word l e m a c : 0 <= a < c -> c <= 64 -> mask_of m a c ->
  summary l (64 * e + a) (64 * e + c)
    (if Z.land (get l e) m =? 0 then (false, false) else if Z.land (get l e) m =? m then (true, true) else (false, true)).
Proof.
  intros Ha Hc Hm. pose proof (masked_zero l e m a c ltac:(lia) ltac:(lia) Hm) as Hz.
  pose proof (masked_full l e m a c ltac:(lia) ltac:(lia) Hm) as Hf.
  destruct (Z.land (get l e) m =? 0) eqn:E0; [|destruct (Z.land (get l e) m =? m) eqn:E1].
  - apply summary_all; [lia|]. by apply Hz.
  - apply summary_all; [lia|]. by apply Hf.
  - apply summary_mixed; intros H; [by apply Hf in H|by apply Hz in H].
Qed.

Lemma all_equal_run l s n (v : bool) : words_ok l -> 0 <= s -> s + Z.of_nat n <= Z.of_nat (length l) ->
  exists b, all_equal l s n (if v then not64 0 else 0) = Ret b /\ (b = true <-> all_bits l (64 * s) (64 * (s + Z.of_nat n)) v).
Proof.
  intros Hl. revert s. induction n as [|n IH]; intros s Hs Hle; cbn [all_equal].
  - exists true. split; [done|]. split; [|done]. intros _ i Hi. lia.
  - rewrite at_get by lia. cbn [mbind outcome_bind].
    assert ((get l s =? (if v then not64 0 else 0)) = true <-> all_bits l (64 * s) (64 * s + 64) v) as Hw.
    { rewrite Z.eqb_eq. split.
      - intros H i Hi. replace i with (64 * s + (i - 64 * s)) by lia. rewrite bit_word, H by lia. destruct v; [|apply Z.testbit_0_l].
        rewrite testbit_not64, Z.testbit_0_l by lia. by rewrite (proj2 (Z.ltb_lt _ _)) by lia.
      - intros H. apply Z.bits_inj'. intros j Hj. destruct (Z.lt_ge_cases j 64).
        + rewrite <-bit_word, H by lia. destruct v; [|by rewrite Z.testbit_0_l].
          rewrite testbit_not64, Z.testbit_0_l by lia. by rewrite (proj2 (Z.ltb_lt _ _)) by lia.
        + rewrite testbit_word by (done || by apply get_ok). destruct v; [|by rewrite Z.testbit_0_l].
          rewrite testbit_not64, Z.testbit_0_l by lia. by rewrite (proj2 (Z.ltb_ge _ _)) by lia. }
    pose proof (all_bits_app l (64 * s) (64 * s + 64) (64 * (s + Z.of_nat (S n))) v ltac:(lia)) as Happ. setoid_rewrite Happ. destruct (get l s =? _).
    + destruct (IH (s + 1)) as (b & Hrun & Hb); [lia|lia|]. exists b. split; [done|]. rewrite Hb.
      replace (64 * (s + 1 + Z.of_nat n)) with (64 * (s + Z.of_nat (S n))) by lia. replace (64 * (s + 1)) with (64 * s + 64) by lia.
      split; [intros ?; split; [by apply Hw|done]|tauto].
    + exists false. split; [done|]. split; [done|]. intros [H _]. by apply Hw.
Qed.

(** The middle and the end of [getMinMax], once the bits before [start] are all [v]
    (or, with none before, [v] is the first bit). *)
Lemma summary_tail l lo start n (v : bool) :
  words_ok l -> 0 <= lo <= 64 * start -> 0 < n -> 64 * start + n <= num_bits l -> bit l lo = v -> all_bits l lo (64 * start) v ->
  exists r,
    (b ← all_equal l start (Z.to_nat (n / 64)) (if v then not64 0 else 0);
     if negb b then mret (false, true)
     else
       let start := start + n / 64 in
       let numValues := n mod 64 in
       if 0 <? numValues then
         let mask := LOWER_MASKS numValues in
         e ← at_ l start;
         let masked := Z.land e mask in
         mret (if masked =? 0 then (false, v) else if masked =? mask then (v, true) else (false, true))
       else mret (v, v)) = Ret r /\ summary l lo (64 * start + n) r.
Proof.
  intros Hl Hlo Hn Hle Hfirst Hv. unfold num_bits in Hle.
  pose proof (Z.div_mod n 64 ltac:(lia)). pose proof (Z.mod_pos_bound n 64 ltac:(lia)). pose proof (Z.div_pos n 64 ltac:(lia) ltac:(lia)).
  set (q := n / 64) in *. set (r := n mod 64) in *.
  destruct (all_equal_run l start (Z.to_nat q) v Hl) as (b & Hrun & Hb); [lia|lia|]. rewrite Hrun. cbn [mbind outcome_bind].
  rewrite Z2Nat.id in Hb by lia.
  assert (all_bits l lo (64 * (start + q)) v <-> b = true) as Hupto by (rewrite Hb, (all_bits_app l lo (64 * start)) by lia; tauto).
  assert (forall hi, lo < hi -> ~ all_bits l lo hi (negb v)) as Hnot.
  { intros hi Hhi Hall. specialize (Hall lo ltac:(lia)). rewrite Hfirst in Hall. by destruct v. }
  destruct b; cbn [negb].
  - destruct (Z.ltb_spec 0 r) as [Hr|Hr].
    + cbv zeta. rewrite at_get by lia. cbn [mbind outcome_bind]. eexists. split; [done|].
      replace (64 * start + n) with (64 * (start + q) + r) by lia.
      destruct (Z.eq_dec lo (64 * (start + q))) as [Heq|Hne].
      * assert (n = r) by lia. subst lo. pose proof (summary_word l (start + q) (LOWER_MASKS r) 0 r ltac:(lia) ltac:(lia) (mask_low r ltac:(lia))) as Hsum.
        rewrite Z.add_0_r in Hsum. revert Hsum.
        pose proof (masked_zero l (start + q) (LOWER_MASKS r) 0 r ltac:(lia) ltac:(lia) (mask_low r ltac:(lia))) as Hz.
        pose proof (masked_full l (start + q) (LOWER_MASKS r) 0 r ltac:(lia) ltac:(lia) (mask_low r ltac:(lia))) as Hf.
        rewrite Z.add_0_r in Hz, Hf.
        destruct (_ =? 0) eqn:E0; [|destruct (_ =? LOWER_MASKS r) eqn:E1; [|done]].
        -- apply proj1 in Hz. specialize (Hz eq_refl (64 * (start + q)) ltac:(lia)). by rewrite <-Hfirst, Hz.
        -- apply proj1 in Hf. specialize (Hf eq_refl (64 * (start + q)) ltac:(lia)). by rewrite <-Hfirst, Hf.
      * apply summary_last; [lia|lia|lia|apply mask_low; lia|lia|by apply Hupto].
    + exists (v, v). split; [done|]. replace (64 * start + n) with (64 * (start + q)) by lia. apply summary_all; [lia|by apply Hupto].
  - exists (false, true). split; [done|].
    assert (~ all_bits l lo (64 * start + n) v) as Hnv.
    { intros Hall. apply (all_bits_app l lo (64 * (start + q))) in Hall as [H' _]; [|lia]. by apply Hupto in H'. }
    specialize (Hnot (64 * start + n) ltac:(lia)). destruct v; cbn [negb] in Hnot; by apply summary_mixed.
Qed.

(** [getMinMax] summarises a range that is not empty: the first component is
    true exactly when all its bits are set and the second exactly when one is,
    although the words between the ends are compared whole. *)
Theorem getMinMax_summarises l off n :
  words_ok l -> 0 <= off -> 0 < n -> off + n <= num_bits l ->
  exists r, getMinMax l off n = Ret r /\ summary l off (off + n) r.
Proof.
  intros Hl Hoff Hn Hle. unfold getMinMax. change NUM_BITS_PER_NULL_ENTRY with 64. cbv zeta.
  pose proof (Z.div_mod off 64 ltac:(lia)) as Ho. pose proof (Z.mod_pos_bound off 64 ltac:(lia)) as Hob.
  pose proof (Z.div_pos off 64 ltac:(lia) ltac:(lia)) as Hs0.
  set (s := off / 64) in *. set (o := off mod 64) in *.
  assert (at_ l s = Ret (get l s)) as Hat by (apply at_get; unfold num_bits in Hle; lia).
  destruct (Z.leb_spec (o + n) 64) as [Hin|Hout].
  - rewrite Hat. cbn [mbind outcome_bind]. eexists. split; [done|].
    replace off with (64 * s + o) by lia. replace (64 * s + o + n) with (64 * s + (o + n)) by lia.
    apply summary_word; [lia|lia|apply mask_between; lia].
  - destruct (Z.ltb_spec 0 o) as [Ho0|Ho0].
    + rewrite Hat. cbn [mbind outcome_bind].
      pose proof (masked_zero l s (HIGH_MASKS (64 - o)) o 64 ltac:(lia) ltac:(lia) (mask_high o ltac:(lia))) as Hz.
      pose proof (masked_full l s (HIGH_MASKS (64 - o)) o 64 ltac:(lia) ltac:(lia) (mask_high o ltac:(lia))) as Hf.
      rewrite <-Ho in Hz, Hf. replace (64 * s + 64) with (64 * (s + 1)) in * by lia.
      assert (forall v, all_bits l off (64 * (s + 1)) v -> exists r,
        (b ← all_equal l (s + 1) (Z.to_nat ((n - (64 - o)) / 64)) (if v then not64 0 else 0);
         if negb b then mret (false, true)
         else
           let start := s + 1 + (n - (64 - o)) / 64 in
           let numValues := (n - (64 - o)) mod 64 in
           if 0 <? numValues then
             let mask := LOWER_MASKS numValues in
             e ← at_ l start;
             let masked := Z.land e mask in
             mret (if masked =? 0 then (false, v) else if masked =? mask then (v, true) else (false, true))
           else mret (v, v)) = Ret r /\ summary l off (off + n) r) as Htail.
      { intros v Hv. replace (off + n) with (64 * (s + 1) + (n - (64 - o))) by lia. apply summary_tail; [done|lia|lia|lia|apply Hv; lia|done]. }
      destruct (_ =? 0) eqn:E0; [|destruct (_ =? HIGH_MASKS (64 - o)) eqn:E1]; cbn [mbind outcome_bind mret outcome_ret].
      * apply (Htail false). by apply Hz.
      * apply (Htail true). by apply Hf.
      * exists (false, true). split; [done|].
        apply summary_mixed; intros H; apply (all_bits_app l off (64 * (s + 1))) in H as [H _]; [by apply Hf in H|lia|by apply Hz in H|lia].
    + assert (o = 0) by lia. assert (isNull (drop (Z.to_nat s) l) 0 = Ret (bit l off)) as ->.
      { assert (num_bits (drop (Z.to_nat s) l) = num_bits l - 64 * s) as Hd by (unfold num_bits in *; rewrite length_drop; lia).
        rewrite isNull_run by (rewrite ?Hd; lia). f_equal. rewrite (bit_split l off). fold s. fold o.
        replace (bit (drop (Z.to_nat s) l) 0) with (Z.testbit (get (drop (Z.to_nat s) l) 0) 0) by done.
        replace o with 0 by lia. rewrite bit_word by lia. unfold get. by rewrite !nth_lookup, lookup_drop, Nat.add_0_r. }
      cbn [mbind outcome_bind mret outcome_ret]. replace (off + n) with (64 * s + n) by lia.
      apply summary_tail; [done|lia|lia|lia|done|]. intros i Hi. lia.
Qed.

(** All null but the last bit of a range over three entries. *)
Lemma getMinMax_summarises_witness :
  getMinMax [2 ^ 64 - 1; 2 ^ 64 - 1; 7] 10 122 = Ret (false, true) /\ ~ all_bits [2 ^ 64 - 1; 2 ^ 64 - 1; 7] 10 132 true.
Proof.
  destruct (getMinMax_summarises [2 ^ 64 - 1; 2 ^ 64 - 1; 7] 10 122) as (r & Hrun & Hmin & _); [repeat constructor; done|done..|].
  vm_compute in Hrun. injection Hrun as <-. split; [reflexivity|]. intros H. by apply Hmin in H.
Defined.

(** ** The guarantee that there is no null *)

(** A mask that was made and then changed by its operations. Sources are masks with
    the same promise, or bits; the indices fit their types. *)
Inductive reachable : t -> Prop :=
| r_make capacity : 0 <= capacity -> reachable (make capacity)
| r_setAllNonNull m : reachable m -> reachable (setAllNonNull m)
| r_setAllNull m : reachable m -> reachable (setAllNull m)
| r_set m pos isNull m' : reachable m -> 0 <= pos < 2 ^ 32 -> set m pos isNull = Ret m' -> reachable m'
| r_setNullFromRange m off n isNull m' :
    reachable m -> 0 <= off -> 0 <= n -> setNullFromRange m off n isNull = Ret m' -> reachable m'
| r_copyFromNullBits m src so dO n invert any m' :
    reachable m -> words_ok src -> 0 <= so -> 0 <= dO -> 0 <= n -> so + n <= num_bits src ->
    (n <= 3 -> so + n <= 2 ^ 32 /\ dO + n <= 2 ^ 32 /\ invert = false) ->
    copyFromNullBits m src so dO n invert = Ret (any, m') -> reachable m'
| r_copyFrom m other so dO n invert any m' :
    reachable m -> reachable other -> 0 <= so -> 0 <= dO -> 0 <= n -> so + n <= num_bits (data other) ->
    (n <= 3 -> so + n <= 2 ^ 32 /\ dO + n <= 2 ^ 32 /\ invert = false) ->
    copyFrom m other so dO n invert = Ret (any, m') -> reachable m'
| r_resize m capacity m' : reachable m -> 0 <= capacity -> resize m capacity = Ret m' -> reachable m'.

Definition sound (m : t) : Prop :=
  words_ok (data m) /\ (hasNoNullsGuarantee m = true -> all_bits (data m) 0 (num_bits (data m)) false).

Lemma getNumNullBits_eq l : getNumNullBits l = num_bits l.
Proof. unfold getNumNullBits, num_bits. change NUM_BITS_PER_NULL_ENTRY with 64. lia. Qed.

Lemma bit_zeros l : Forall (fun w => w = 0) l -> all_bits l 0 (num_bits l) false.
Proof.
  intros Hl i Hi. unfold bit. pose proof (get_lookup l (i / 64) (pos_ok l i ltac:(lia))) as E.
  apply (Forall_lookup_1 _ _ _ _ Hl) in E. rewrite E. apply Z.testbit_0_l.
Qed.

Lemma const_ok {A} (l : list A) w : word_ok w -> words_ok (map (fun _ => w) l).
Proof. intros Hw. unfold words_ok. rewrite Forall_map. by apply Forall_true. Qed.

Lemma sound_set_range m off n isNull m' : sound m -> 0 <= off -> 0 <= n ->
  setNullFromRange m off n isNull = Ret m' -> sound m' /\ num_bits (data m') = num_bits (data m).
Proof.
  intros [Hok Hno] Hoff Hn Hrun. unfold setNullFromRange in Hrun. rewrite getNumNullBits_eq in Hrun.
  destruct (Z.leb_spec (off + n) (num_bits (data m))); [|done]. cbn [ku_assert mbind outcome_bind] in Hrun.
  destruct (range_is_filled (data m) off n isNull) as (l' & Hset & Hok' & Hlen & Hbit); [done..|].
  rewrite Hset in Hrun. cbn [mbind outcome_bind] in Hrun. injection Hrun as <-. unfold num_bits. cbn [data]. rewrite Hlen. split; [|done].
  split; [done|]. unfold hasNoNullsGuarantee, num_bits. cbn [data mayContainNulls]. rewrite negb_true_iff, orb_false_iff, Hlen.
  intros [Hm ->] i Hi. rewrite Hbit by lia. destruct (_ && _); [done|]. apply Hno; [unfold hasNoNullsGuarantee; by rewrite Hm|done].
Qed.

Lemma sound_set m pos isNull m' : sound m -> 0 <= pos < 2 ^ 32 -> set m pos isNull = Ret m' -> sound m'.
Proof.
  intros [Hok Hno] Hp Hrun. unfold set in Hrun. rewrite getNumNullBits_eq in Hrun.
  destruct (Z.ltb_spec pos (num_bits (data m))); [|done]. cbn [ku_assert mbind outcome_bind] in Hrun.
  destruct (setNull_run (data m) pos isNull Hok) as (l' & Hset & Hok' & Hlen & Hbit); [lia..|].
  rewrite Hset in Hrun. cbn [mbind outcome_bind] in Hrun. injection Hrun as <-. split; [done|].
  unfold hasNoNullsGuarantee, num_bits. cbn [data mayContainNulls]. rewrite negb_true_iff, orb_false_iff, Hlen.
  intros [Hm ->] i Hi. rewrite Hbit by lia. destruct (_ =? _); [done|]. apply Hno; [unfold hasNoNullsGuarantee; by rewrite Hm|done].
Qed.

Lemma sound_copy_bits m src so dO n invert any m' : sound m -> words_ok src -> 0 <= so -> 0 <= dO -> 0 <= n -> so + n <= num_bits src ->
  (n <= 3 -> so + n <= 2 ^ 32 /\ dO + n <= 2 ^ 32 /\ invert = false) ->
  copyFromNullBits m src so dO n invert = Ret (any, m') -> sound m'.
Proof.
  intros [Hok Hno] Hsrc Hso HdO Hn Hle H3 Hrun. unfold copyFromNullBits in Hrun. rewrite getNumNullBits_eq in Hrun.
  destruct (Z.leb_spec (dO + n) (num_bits (data m))); [|done]. cbn [ku_assert mbind outcome_bind] in Hrun.
  destruct (copyNullMask_run src so (data m) dO n invert) as (has & l' & Hcopy & Hok' & Hlen & Hbit & Hhas);
    [done..|intros ?; split; by apply H3|].
  rewrite Hcopy in Hrun. cbn [mbind outcome_bind] in Hrun. destruct has; injection Hrun as <- <-; split; try done.
  unfold num_bits. cbn [data]. rewrite Hlen. intros Hm i Hi. rewrite Hbit by lia.
  destruct ((dO + 0 <=? i) && (i <? dO + n)) eqn:E; [|by apply Hno]. bool_to_prop.
  apply not_true_is_false. intros Hx. apply proj2 in Hhas. discriminate Hhas. exists (i - dO). split; [lia|].
  replace (so + (i - dO)) with (so + i - dO) by lia. destruct (Z.leb_spec n 3) as [Hn3|]; [|done].
  destruct (H3 Hn3) as (_ & _ & ->). by rewrite xorb_false_r in Hx.
Qed.

Lemma sound_resize m capacity m' : sound m -> 0 <= capacity -> resize m capacity = Ret m' -> sound m'.
Proof.
  intros [Hok Hno] Hcap Hrun. unfold resize in Hrun. case_decide as Hle; [|done]. injection Hrun as <-. split.
  - cbn [data]. apply Forall_app. split; [exact Hok|]. apply Forall_replicate. by split.
  - unfold hasNoNullsGuarantee. cbn [data mayContainNulls]. intros Hm i Hi. unfold bit, get.
    destruct (Z.lt_ge_cases i (num_bits (data m))).
    + rewrite app_nth1 by (pose proof (pos_ok (data m) i ltac:(lia)); lia). exact (Hno Hm i (conj (proj1 Hi) H)).
    + rewrite app_nth2 by (unfold num_bits in *; pose proof (Z.div_le_lower_bound i 64 (Z.of_nat (length (data m))) ltac:(lia)); lia).
      rewrite nth_lookup. destruct (_ !! _) eqn:E; [apply lookup_replicate in E as [-> _]|]; apply Z.testbit_0_l.
Qed.



(** Outside of that the guarantee can be wrong: two of three values that are not
    null become null under an inverting copy, and a union brings nulls, and the masks
    still promise that there are none. *)
Example inverted_copy_loses_nulls :
  copyFrom (make 40) (mk [4] true) 0 0 2 true = Ret (false, mk [3] false).
Proof. reflexivity. Qed.

Example union_loses_nulls : or_assign (make 40) (mk [4] true) = Ret (mk [4] false).
Proof. reflexivity. Qed.

(** The unused bits of the last entry are counted too, and sixty-four bits ask for
    two entries. *)
Example unused_bits_are_counted : countNulls (setAllNull (make 10)) = 64.
Proof. reflexivity. Qed.

Example one_entry_too_many : getNumNullEntries 64 = 2.
Proof. reflexivity. Qed.
