(* ===== verification/Decoder.v ===== *)
(** Deserialisers ([common/serializer/deserializer.h], [deserializer.cpp]) as
    programs of their calls of [Reader::read], so that what they do can be told for
    every reader: on a string of bytes, on a buffered file, and on one that ends
    too early. A [wire] is the way a type is written, with the program that reads
    it back. *)
From S2P Require Import Prelude Serializer.
Local Open Scope Z_scope.

(** [Read n k] is [reader->read(data, n)] with what is done with the bytes;
    [Fail] throws, [Stuck] is [KU_UNREACHABLE]. *)
Inductive decoder (A : Type) : Type :=
| Done (a : A)
| Read (n : Z) (k : bytes -> decoder A)
| Fail (e : exn)
| Stuck.
Arguments Done {A} a.
Arguments Read {A} n k.
Arguments Fail {A} e.
Arguments Stuck {A}.

Fixpoint decoder_bind_ {A B} (f : A -> decoder B) (d : decoder A) : decoder B :=
  match d with
  | Done a => f a
  | Read n k => Read n (fun bs => decoder_bind_ f (k bs))
  | Fail e => Fail e
  | Stuck => Stuck
  end.

#[global] Instance decoder_ret : MRet decoder := @Done.
#[global] Instance decoder_bind : MBind decoder := fun A B f d => decoder_bind_ f d.

(** ** On a string of bytes *)

(** What the deserialiser makes of the bytes, and the bytes it left; nothing when
    it asks for more than there are. *)
Fixpoint parse {A} (d : decoder A) (bs : bytes) : option (outcome A * bytes) :=
  match d with
  | Done a => Some (Ret a, bs)
  | Read n k =>
      if n <? 0 then Some (Undef, bs)
      else if n <=? Z.of_nat (length bs) then parse (k (take (Z.to_nat n) bs)) (drop (Z.to_nat n) bs) else None
  | Fail e => Some (Throw e, bs)
  | Stuck => Some (Undef, bs)
  end.

Lemma parse_extend {A} (d : decoder A) bs more r rest :
  parse d bs = Some (r, rest) -> parse d (bs ++ more) = Some (r, rest ++ more).
Proof.
  revert bs. induction d as [a|n k IH|e|]; intros bs; cbn [parse]; [by intros [= <- <-]| |by intros [= <- <-]..].
  destruct (Z.ltb_spec n 0); [by intros [= <- <-]|].
  destruct (Z.leb_spec n (Z.of_nat (length bs))) as [Hle|]; [|done].
  rewrite (proj2 (Z.leb_le _ _)) by (rewrite length_app; lia). intros Hp.
  rewrite take_app_le, drop_app_le by lia. by apply IH.
Qed.

(** A deserialiser that needs all of its bytes needs more than any part of them. *)
Lemma parse_prefix {A} (d : decoder A) bs more r : parse d (bs ++ more) = Some (r, []) -> more <> [] -> parse d bs = None.
Proof.
  intros H Hne. destruct (parse d bs) as [[r' rest]|] eqn:E; [|done].
  apply (parse_extend _ _ more) in E. rewrite E in H. injection H as _ H. by apply app_eq_nil in H as [_ ->].
Qed.

Lemma parse_bind {A B} (d : decoder A) (f : A -> decoder B) bs :
  parse (mbind f d) bs =
    match parse d bs with
    | Some (Ret a, rest) => parse (f a) rest
    | Some (Throw e, rest) => Some (Throw e, rest)
    | Some (Undef, rest) => Some (Undef, rest)
    | None => None
    end.
Proof.
  revert bs. induction d as [a|n k IH|e|]; intros bs; cbn; [done| |done..].
  destruct (n <? 0); [done|]. destruct (n <=? _); [|done]. apply IH.
Qed.

(** What is left is the end of the bytes. *)
Lemma parse_suffix {A} (d : decoder A) bs r rest : parse d bs = Some (r, rest) -> exists used, bs = used ++ rest.
Proof.
  revert bs. induction d as [a|n k IH|e|]; intros bs; cbn [parse]; [intros [= <- <-]; by exists []| |intros [= <- <-]; by exists []..].
  destruct (n <? 0); [intros [= <- <-]; by exists []|]. destruct (n <=? _); [|done]. intros H. apply IH in H as [used E].
  exists (take (Z.to_nat n) bs ++ used). rewrite <-app_assoc, <-E. by rewrite take_drop.
Qed.

(** On these bytes no read asks for more than [limit]. *)
Fixpoint small {A} (limit : Z) (d : decoder A) (bs : bytes) : bool :=
  match d with
  | Read n k =>
      (0 <=? n) && (n <=? limit) &&
      (if n <=? Z.of_nat (length bs) then small limit (k (take (Z.to_nat n) bs)) (drop (Z.to_nat n) bs) else true)
  | _ => true
  end.

Lemma small_extend {A} limit (d : decoder A) bs more r : parse d bs = Some r -> small limit d (bs ++ more) = small limit d bs.
Proof.
  revert bs. induction d as [a|n k IH|e|]; intros bs; cbn [parse small]; [done| |done..].
  destruct (Z.ltb_spec n 0) as [Hn|]; [by rewrite (proj2 (Z.leb_gt 0 n))|].
  destruct (Z.leb_spec n (Z.of_nat (length bs))) as [Hle|]; [|done]. intros Hp.
  rewrite (proj2 (Z.leb_le n (Z.of_nat (length (bs ++ more))))) by (rewrite length_app; lia).
  rewrite take_app_le, drop_app_le by lia. by rewrite (IH _ _ Hp).
Qed.

Lemma small_bind {A B} limit (d : decoder A) (f : A -> decoder B) bs :
  small limit (mbind f d) bs =
    small limit d bs && match parse d bs with Some (Ret a, rest) => small limit (f a) rest | _ => true end.
Proof.
  revert bs. induction d as [a|n k IH|e|]; intros bs; cbn; [done| |done..].
  destruct (Z.ltb_spec n 0) as [Hn|Hn]; [by rewrite (proj2 (Z.leb_gt 0 n))|].
  destruct (n <=? Z.of_nat (length bs)); [by rewrite <-!andb_assoc, IH|by rewrite !andb_true_r].
Qed.

(** ** Values *)

Record wire (A : Type) := mk_wire {
  write : A -> bytes;
  decode : decoder A;
  writable : A -> Prop;
  decode_write a rest : writable a -> parse decode (write a ++ rest) = Some (Ret a, rest);
}.
Arguments write {A} w a.
Arguments decode {A} w.
Arguments writable {A} w a.
Arguments decode_write {A} w a rest.

(** [deserializeValue] of an unsigned integer of [n] bytes. *)
Definition decode_uint (n : Z) : decoder Z := Read n (fun bs => Done (le_value bs)).

Lemma parse_uint n z rest : 0 <= z < 256 ^ Z.of_nat n ->
  parse (decode_uint (Z.of_nat n)) (le_bytes n z ++ rest) = Some (Ret z, rest).
Proof.
  intros Hz. cbn [parse decode_uint]. rewrite (proj2 (Z.ltb_ge _ _)) by lia. rewrite (proj2 (Z.leb_le _ _)) by (rewrite length_app, length_le_bytes; lia).
  rewrite Nat2Z.id. cbn [parse]. rewrite take_app_length', drop_app_length' by (by rewrite length_le_bytes).
  by rewrite le_value_bytes, Z.mod_small.
Qed.

Definition uint_wire (n : nat) : wire Z := mk_wire _ (le_bytes n) (decode_uint (Z.of_nat n)) (fun z => 0 <= z < 256 ^ Z.of_nat n) (parse_uint n).

Abbreviation u8_wire := (uint_wire 1).
Abbreviation u32_wire := (uint_wire 4).
Abbreviation u64_wire := (uint_wire 8).

(** [deserializeValue(std::string)]: the length, then the characters. *)
Definition decode_string : decoder string :=
  n ← decode u64_wire; Read n (fun bs => Done (bytes_string bs)).

Lemma parse_string s rest : Z.of_nat (length (string_bytes s)) < 2 ^ 64 ->
  parse decode_string (write_string s ++ rest) = Some (Ret s, rest).
Proof.
  intros Hs. unfold decode_string, write_string. rewrite parse_bind, <-app_assoc.
  change (serialize u64_codec (Z.of_nat (length (string_bytes s)))) with (write u64_wire (Z.of_nat (length (string_bytes s)))).
  rewrite (decode_write u64_wire) by (cbn; lia). cbn [parse].
  rewrite (proj2 (Z.ltb_ge _ _)) by lia. rewrite (proj2 (Z.leb_le _ _)) by (rewrite length_app; lia). rewrite Nat2Z.id.
  by rewrite take_app_length, drop_app_length, bytes_string_bytes.
Qed.

Definition string_wire : wire string := mk_wire _ write_string decode_string (fun s => Z.of_nat (length (string_bytes s)) < 2 ^ 64) parse_string.

(** A [bool] is a byte, written as 0 or 1. *)
Definition decode_bool : decoder bool := z ← decode u8_wire; mret (negb (z =? 0)).

Lemma parse_bool (b : bool) rest : True -> parse decode_bool (le_bytes 1 (if b then 1 else 0) ++ rest) = Some (Ret b, rest).
Proof. intros _. unfold decode_bool. rewrite parse_bind. change (le_bytes 1 (if b then 1 else 0)) with (write u8_wire (if b then 1 else 0)). rewrite (decode_write u8_wire) by (cbn; destruct b; lia). by destruct b. Qed.

Definition bool_wire : wire bool := mk_wire _ (fun b : bool => le_bytes 1 (if b then 1 else 0)) decode_bool (fun _ => True) parse_bool.

(** [n] values one after the other. *)
Fixpoint decode_n {A} (w : wire A) (n : nat) : decoder (list A) :=
  match n with
  | O => mret []
  | S n => x ← decode w; xs ← decode_n w n; mret (x :: xs)
  end.

Lemma parse_n {A} (w : wire A) xs rest : Forall (writable w) xs ->
  parse (decode_n w (length xs)) (concat (map (write w) xs) ++ rest) = Some (Ret xs, rest).
Proof.
  induction 1 as [|x xs Hx _ IH]; [done|]. cbn [decode_n length map concat].
  rewrite parse_bind, <-app_assoc, decode_write by done. cbn. rewrite parse_bind, IH. done.
Qed.

(** Runs a deserialiser on what was written. *)
Ltac run_parse :=
  repeat first
    [ rewrite parse_bind | rewrite <-app_assoc
    | rewrite decode_write by (cbn; first [lia|done]) | rewrite parse_n by done
    | progress cbn [parse mret decoder_ret] ].
