(* ===== verification/BufferedFile.v ===== *)
(** Buffered files ([common/serializer/buffered_file.cpp], [buffered_file.h]): the
    writer collects bytes in a page before it writes them, the reader reads a page
    ahead. A file is its bytes, of which a prefix is known to have reached the disk.
    Offsets are 64-bit in the code and stay below the size of a file; only the
    reader's difference that can wrap is written out. *)
From S2P Require Import Prelude Serializer Decoder.
Local Open Scope Z_scope.

Definition BUFFER_SIZE : Z := 2 ^ 12.

(** ** Memory and files *)

Definition size (bs : bytes) : Z := Z.of_nat (length bs).

(** [memcpy(data, &buffer[offset], n)] and [memcpy(&buffer[offset], data, n)]. *)
Definition slice (buffer : bytes) (offset n : Z) : outcome bytes :=
  if (0 <=? offset) && (0 <=? n) && (offset + n <=? size buffer)
  then mret (take (Z.to_nat n) (drop (Z.to_nat offset) buffer)) else Undef.
Definition blit (buffer : bytes) (offset : Z) (data : bytes) : outcome bytes :=
  if (0 <=? offset) && (offset + size data <=? size buffer)
  then mret (take (Z.to_nat offset) buffer ++ data ++ drop (Z.to_nat (offset + size data)) buffer) else Undef.

Record FileInfo := mk_file { content : bytes; synced : Z }.

(** [pwrite]: a hole is filled with zeros; what is overwritten is not on disk any more. *)
Definition writeFile (f : FileInfo) (data : bytes) (offset : Z) : FileInfo :=
  let padded := take (Z.to_nat offset) (content f) ++ replicate (Z.to_nat (offset - size (content f))) 0 in
  mk_file (padded ++ data ++ drop (Z.to_nat (offset + size data)) (content f)) (Z.min (synced f) offset).
Definition readFromFile (f : FileInfo) (numBytes position : Z) : outcome bytes :=
  _ ← ku_assert (position + numBytes <=? size (content f));
  slice (content f) position numBytes.
Definition truncate (f : FileInfo) (n : Z) : FileInfo :=
  mk_file (take (Z.to_nat n) (content f) ++ replicate (Z.to_nat (n - size (content f))) 0) (Z.min (synced f) n).
Definition syncFile (f : FileInfo) : FileInfo := mk_file (content f) (size (content f)).

(** ** The writer *)

Module BufferedFileWriter.
Record t := mk { buffer : bytes; fileOffset : Z; bufferOffset : Z; fileInfo : FileInfo }.

Definition make (f : FileInfo) : t := mk (replicate (Z.to_nat BUFFER_SIZE) 0) 0 0 f.

Definition flush (w : t) : outcome t :=
  if bufferOffset w =? 0 then mret w
  else
    data ← slice (buffer w) 0 (bufferOffset w);
    mret (mk (replicate (Z.to_nat BUFFER_SIZE) 0) (fileOffset w + bufferOffset w) 0
            (writeFile (fileInfo w) data (fileOffset w))).

Definition write (w : t) (data : bytes) : outcome t :=
  if BUFFER_SIZE <? size data then
    w ← flush w;
    mret (mk (buffer w) (fileOffset w + size data) (bufferOffset w) (writeFile (fileInfo w) data (fileOffset w)))
  else if bufferOffset w + size data <=? BUFFER_SIZE then
    b ← blit (buffer w) (bufferOffset w) data;
    mret (mk b (fileOffset w) (bufferOffset w + size data) (fileInfo w))
  else
    let toCopy := BUFFER_SIZE - bufferOffset w in
    first ← slice data 0 toCopy;
    b ← blit (buffer w) (bufferOffset w) first;
    w ← flush (mk b (fileOffset w) (bufferOffset w + toCopy) (fileInfo w));
    let remaining := size data - toCopy in
    rest ← slice data toCopy remaining;
    b ← blit (buffer w) 0 rest;
    mret (mk b (fileOffset w) (bufferOffset w + remaining) (fileInfo w)).

Definition sync (w : t) : t := mk (buffer w) (fileOffset w) (bufferOffset w) (syncFile (fileInfo w)).
Definition setFileOffset (w : t) (offset : Z) : t := mk (buffer w) offset (bufferOffset w) (fileInfo w).
Definition resetOffsets (w : t) : t := mk (buffer w) 0 0 (fileInfo w).
Definition clear (w : t) : t := resetOffsets (mk (buffer w) (fileOffset w) (bufferOffset w) (truncate (fileInfo w) 0)).
Definition getSize (w : t) : Z := size (content (fileInfo w)) + bufferOffset w.
End BufferedFileWriter.

(** ** The reader *)

Module BufferedFileReader.
Record t := mk { buffer : bytes; fileOffset : Z; bufferOffset : Z; fileInfo : FileInfo; fileSize : Z; bufferSize : Z }.

Definition readNextPage (r : t) : outcome t :=
  if fileSize r <=? fileOffset r then Throw (RuntimeException "Reading past the end of the file {} with size {} at offset {}")
  else
    let bufferSize := Z.min (fileSize r - fileOffset r) BUFFER_SIZE in
    data ← readFromFile (fileInfo r) bufferSize (fileOffset r);
    b ← blit (buffer r) 0 data;
    mret (mk b (fileOffset r + bufferSize) 0 (fileInfo r) (fileSize r) bufferSize).

Definition make (f : FileInfo) : outcome t :=
  readNextPage (mk (replicate (Z.to_nat BUFFER_SIZE) 0) 0 0 f (size (content f)) 0).

Definition read (r : t) (n : Z) : outcome (bytes * t) :=
  if BUFFER_SIZE <? n then
    let offset := fileOffset r - bufferSize r + bufferOffset r in
    data ← readFromFile (fileInfo r) n offset;
    mret (data, mk (buffer r) (offset + n) (bufferSize r) (fileInfo r) (fileSize r) (bufferSize r))
  else if bufferOffset r + n <=? bufferSize r then
    data ← slice (buffer r) (bufferOffset r) n;
    mret (data, mk (buffer r) (fileOffset r) (bufferOffset r + n) (fileInfo r) (fileSize r) (bufferSize r))
  else
    let toCopy := u64 (bufferSize r - bufferOffset r) in
    first ← slice (buffer r) (bufferOffset r) toCopy;
    r ← readNextPage (mk (buffer r) (fileOffset r) (bufferOffset r + toCopy) (fileInfo r) (fileSize r) (bufferSize r));
    let remaining := n - toCopy in
    rest ← slice (buffer r) 0 remaining;
    mret (first ++ rest, mk (buffer r) (fileOffset r) (bufferOffset r + remaining) (fileInfo r) (fileSize r) (bufferSize r)).

Definition finished (r : t) : bool := (bufferSize r <=? bufferOffset r) && (fileSize r <=? fileOffset r).
Definition getReadOffset (r : t) : Z := fileOffset r - bufferSize r + bufferOffset r.
Definition resetReadOffset (r : t) (offset : Z) : t := mk (buffer r) offset 0 (fileInfo r) (fileSize r) 0.

(** A deserialiser over the reader. *)
Fixpoint exec {A} (d : decoder A) (r : t) : outcome (A * t) :=
  match d with
  | Done a => mret (a, r)
  | Read n k => '(data, r) ← read r n; exec (k data) r
  | Fail e => Throw e
  | Stuck => Undef
  end.
End BufferedFileReader.
