(* ===== verification/BufferedFileFacts.v ===== *)
(** Facts on buffered files: what was written through the buffer is at the end of
    the file in order, what is read is what is in the file, and what happens to a
    deserialiser that reaches the end of the file. *)
From S2P Require Import Prelude Serializer Decoder BufferedFile.
Local Open Scope Z_scope.

(** ** Memory *)

Lemma size_app a b : size (a ++ b) = size a + size b.
Proof. unfold size. rewrite length_app. lia. Qed.

Lemma size_nonneg a : 0 <= size a.
Proof. unfold size. lia. Qed.

Lemma size_take n bs : 0 <= n <= size bs -> size (take (Z.to_nat n) bs) = n.
Proof. unfold size. intros Hn. rewrite length_take. lia. Qed.

Lemma size_drop n bs : 0 <= n <= size bs -> size (drop (Z.to_nat n) bs) = size bs - n.
Proof. unfold size. intros Hn. rewrite length_drop. lia. Qed.

Lemma slice_run b o n : 0 <= o -> 0 <= n -> o + n <= size b -> slice b o n = Ret (take (Z.to_nat n) (drop (Z.to_nat o) b)).
Proof.
  intros Ho Hn Hle. unfold slice. by rewrite (proj2 (Z.leb_le 0 o)), (proj2 (Z.leb_le 0 n)), (proj2 (Z.leb_le _ _)) by lia.
Qed.

Lemma slice_all b n : n = size b -> slice b 0 n = Ret b.
Proof.
  intros ->. rewrite slice_run by (pose proof (size_nonneg b); lia). f_equal. cbn. unfold size. rewrite Nat2Z.id. apply firstn_all.
Qed.

Lemma blit_run b o d : 0 <= o -> o + size d <= size b ->
  exists b', blit b o d = Ret b' /\ size b' = size b /\ take (Z.to_nat (o + size d)) b' = take (Z.to_nat o) b ++ d.
Proof.
  intros Ho Hle. unfold blit. rewrite (proj2 (Z.leb_le 0 o)), (proj2 (Z.leb_le _ _)) by lia. cbn [andb].
  eexists. split; [done|]. unfold size in *. split.
  - rewrite !length_app, length_take, length_drop. lia.
  - rewrite app_assoc, take_app_length'; [done|]. rewrite length_app, length_take. lia.
Qed.

Lemma writeFile_end f d : writeFile f d (size (content f)) = mk_file (content f ++ d) (Z.min (synced f) (size (content f))).
Proof.
  unfold writeFile. f_equal. unfold size. rewrite Z.sub_diag, Nat2Z.id, firstn_all. cbn. rewrite app_nil_r.
  rewrite drop_ge by lia. by rewrite app_nil_r.
Qed.

(** ** The writer *)

Module WriterFacts.
Import BufferedFileWriter.

(** The file with the pending bytes is [data], of which [disk] bytes are safe. *)
Definition holds (w : t) (data : bytes) (disk : Z) : Prop :=
  size (buffer w) = BUFFER_SIZE /\ 0 <= bufferOffset w <= BUFFER_SIZE /\
  fileOffset w = size (content (fileInfo w)) /\ synced (fileInfo w) = disk /\ 0 <= disk <= size (content (fileInfo w)) /\
  data = content (fileInfo w) ++ take (Z.to_nat (bufferOffset w)) (buffer w).

Lemma make_holds f : 0 <= synced f <= size (content f) ->
  holds (setFileOffset (make f) (size (content f))) (content f) (synced f).
Proof.
  intros Hs. unfold holds, make, setFileOffset. cbn [buffer bufferOffset fileOffset fileInfo]. split_and!; try done; try lia.
  by rewrite app_nil_r.
Qed.

Lemma flush_run w data disk : holds w data disk ->
  exists w', flush w = Ret w' /\ holds w' data disk /\ content (fileInfo w') = data /\ bufferOffset w' = 0.
Proof.
  intros (Hb & Ho & Hf & Hs & Hd & ->). unfold flush. destruct (Z.eqb_spec (bufferOffset w) 0) as [E|Hne].
  - exists w. split; [done|]. assert (content (fileInfo w) ++ take (Z.to_nat (bufferOffset w)) (buffer w) = content (fileInfo w)) as ->.
    { by rewrite E, app_nil_r. }
    unfold holds. rewrite E. split_and!; try done; try lia. by rewrite app_nil_r.
  - rewrite slice_run by lia. cbn [mbind outcome_bind]. eexists. split; [done|]. unfold holds.
    cbn [buffer bufferOffset fileOffset fileInfo]. rewrite Hf, writeFile_end. cbn [content synced].
    change (drop (Z.to_nat 0) (buffer w)) with (buffer w).
    split_and!; try done; try (rewrite size_app, size_take by lia; lia); try lia. by rewrite app_nil_r.
Qed.

Lemma write_run w data disk bs : holds w data disk -> exists w', write w bs = Ret w' /\ holds w' (data ++ bs) disk.
Proof.
  intros Hh. pose proof Hh as (Hb & Ho & Hf & Hs & Hd & Hdata). unfold write. destruct (Z.ltb_spec BUFFER_SIZE (size bs)) as [Hbig|Hsmall].
  - destruct (flush_run w data disk Hh) as (w1 & -> & (Hb1 & Ho1 & Hf1 & Hs1 & Hd1 & Hdata1) & Hc1 & Hz). cbn [mbind outcome_bind].
    eexists. split; [done|]. unfold holds. cbn [buffer bufferOffset fileOffset fileInfo]. rewrite Hf1, writeFile_end. cbn [content synced].
    rewrite Hc1, Hz in *. pose proof (size_nonneg bs). split_and!; try done; try (rewrite size_app; lia); try lia.
    by rewrite app_nil_r.
  - destruct (Z.leb_spec (bufferOffset w + size bs) BUFFER_SIZE) as [Hfit|Hover].
    + destruct (blit_run (buffer w) (bufferOffset w) bs) as (b & -> & Hsz & Htake); [lia|lia|]. cbn [mbind outcome_bind].
      eexists. split; [done|]. unfold holds. cbn [buffer bufferOffset fileOffset fileInfo]. pose proof (size_nonneg bs).
      split_and!; try done; try lia. by rewrite Htake, app_assoc, Hdata.
    + set (k := BUFFER_SIZE - bufferOffset w). rewrite (slice_run bs 0 k), (slice_run bs k (size bs - k)) by (unfold k; lia). cbn [mbind outcome_bind].
      change (drop (Z.to_nat 0) bs) with bs.
      assert (size (take (Z.to_nat k) bs) = k) as Hk by (apply size_take; unfold k; lia).
      destruct (blit_run (buffer w) (bufferOffset w) (take (Z.to_nat k) bs)) as (b & -> & Hsz & Htake); [lia|unfold k in *; lia|]. cbn [mbind outcome_bind].
      destruct (flush_run (mk b (fileOffset w) (bufferOffset w + k) (fileInfo w)) (data ++ take (Z.to_nat k) bs) disk)
        as (w1 & -> & (Hb1 & Ho1 & Hf1 & Hs1 & Hd1 & Hdata1) & Hc1 & Hz).
      { unfold holds. cbn [buffer bufferOffset fileOffset fileInfo]. unfold k in *. split_and!; try done; try lia.
        rewrite Hk in Htake. by rewrite Htake, app_assoc, Hdata. }
      cbn [mbind outcome_bind].
      assert (take (Z.to_nat (size bs - k)) (drop (Z.to_nat k) bs) = drop (Z.to_nat k) bs) as ->.
      { apply take_ge. rewrite length_drop. unfold size. lia. }
      assert (size (drop (Z.to_nat k) bs) = size bs - k) as Hrest by (apply size_drop; unfold k; lia).
      destruct (blit_run (buffer w1) 0 (drop (Z.to_nat k) bs)) as (b2 & -> & Hsz2 & Htake2); [lia|unfold k in *; lia|]. cbn [mbind outcome_bind].
      eexists. split; [done|]. unfold holds. cbn [buffer bufferOffset fileOffset fileInfo]. rewrite Hz. unfold k in *.
      split_and!; try done; try lia. rewrite Hc1. rewrite Hrest in Htake2. rewrite Htake2.
      change (take (Z.to_nat 0) (buffer w1)) with (@nil Z). by rewrite <-app_assoc, app_nil_l, take_drop.
Qed.

Lemma sync_holds w data disk : holds w data disk -> bufferOffset w = 0 -> holds (sync w) data (size data).
Proof.
  intros (Hb & Ho & Hf & Hs & Hd & ->) Hz. unfold holds, sync, syncFile. cbn [buffer bufferOffset fileOffset fileInfo content synced].
  rewrite Hz. change (take (Z.to_nat 0) (buffer w)) with (@nil Z). rewrite app_nil_r. pose proof (size_nonneg (content (fileInfo w))).
  split_and!; try done; lia.
Qed.

Lemma getSize_holds w data disk : holds w data disk -> getSize w = size data.
Proof. intros (Hb & Ho & Hf & Hs & Hd & ->). unfold getSize. rewrite size_app, size_take by lia. done. Qed.
End WriterFacts.

(** ** The reader *)

Module ReaderFacts.
Import BufferedFileReader.

(** The reader is at [pos]: what is left in the buffer is what the file has there. *)
Definition reads (F : bytes) (r : t) (pos : Z) : Prop :=
  content (fileInfo r) = F /\ fileSize r = size F /\ size (buffer r) = BUFFER_SIZE /\
  0 <= bufferOffset r <= bufferSize r /\ bufferSize r <= BUFFER_SIZE /\ fileOffset r <= size F /\ 0 <= pos /\
  pos = fileOffset r - bufferSize r + bufferOffset r /\
  take (Z.to_nat (bufferSize r - bufferOffset r)) (drop (Z.to_nat (bufferOffset r)) (buffer r)) =
  take (Z.to_nat (bufferSize r - bufferOffset r)) (drop (Z.to_nat pos) F).

Lemma getReadOffset_reads F r pos : reads F r pos -> getReadOffset r = pos.
Proof. unfold reads, getReadOffset. lia. Qed.

Lemma finished_reads F r pos : reads F r pos -> finished r = (size F <=? pos).
Proof.
  unfold reads, finished. intros (_ & -> & _ & Ho & _ & Hf & _ & -> & _). destruct (Z.leb_spec (bufferSize r) (bufferOffset r)); cbn [andb].
  - f_equal. lia.
  - symmetry. apply Z.leb_gt. lia.
Qed.

Lemma readFromFile_run f n pos : 0 <= pos -> 0 <= n -> pos + n <= size (content f) ->
  readFromFile f n pos = Ret (take (Z.to_nat n) (drop (Z.to_nat pos) (content f))).
Proof. intros Hp Hn Hle. unfold readFromFile. rewrite ku_assert_true by (by apply Z.leb_le). by apply slice_run. Qed.

(** The next page, whatever is left of the last one. *)
Lemma readNextPage_run F r :
  content (fileInfo r) = F -> fileSize r = size F -> size (buffer r) = BUFFER_SIZE -> 0 <= fileOffset r < size F ->
  exists r', readNextPage r = Ret r' /\ reads F r' (fileOffset r) /\ bufferOffset r' = 0 /\
    bufferSize r' = Z.min (size F - fileOffset r) BUFFER_SIZE /\ fileOffset r' = fileOffset r + bufferSize r' /\
    fileInfo r' = fileInfo r /\ fileSize r' = fileSize r.
Proof.
  intros Hc Hs Hb Hf. unfold readNextPage. rewrite Hs, (proj2 (Z.leb_gt _ _)) by lia.
  set (n := Z.min (size F - fileOffset r) BUFFER_SIZE). assert (0 < n <= BUFFER_SIZE) as Hn by (unfold n, BUFFER_SIZE; lia).
  rewrite readFromFile_run by (rewrite ?Hc; unfold n; lia). cbn [mbind outcome_bind]. rewrite Hc.
  assert (size (take (Z.to_nat n) (drop (Z.to_nat (fileOffset r)) F)) = n) as Hsz.
  { apply size_take. rewrite size_drop by lia. unfold n. lia. }
  destruct (blit_run (buffer r) 0 (take (Z.to_nat n) (drop (Z.to_nat (fileOffset r)) F))) as (b & -> & Hb' & Htake); [lia|lia|].
  cbn [mbind outcome_bind]. eexists. split; [done|]. unfold reads. cbn [buffer fileOffset bufferOffset fileInfo fileSize bufferSize].
  rewrite Hsz in Htake. rewrite Z.sub_0_r. change (drop (Z.to_nat 0) b) with b. split_and!; try done; try lia.
Qed.

(** Reading bytes that are there. *)
Lemma read_run F r pos n : reads F r pos -> 0 <= n -> pos + n <= size F ->
  exists r', read r n = Ret (take (Z.to_nat n) (drop (Z.to_nat pos) F), r') /\ reads F r' (pos + n).
Proof.
  intros (Hc & Hs & Hb & Ho & Hbs & Hf & Hp & Hpos & Hbuf) Hn Hle. unfold read. destruct (Z.ltb_spec BUFFER_SIZE n) as [Hbig|Hsmall].
  - rewrite <-Hpos, readFromFile_run by (rewrite ?Hc; lia). cbn [mbind outcome_bind]. rewrite Hc.
    eexists. split; [done|]. unfold reads. cbn [buffer fileOffset bufferOffset fileInfo fileSize bufferSize].
    rewrite Z.sub_diag. split_and!; try done; try lia.
  - destruct (Z.leb_spec (bufferOffset r + n) (bufferSize r)) as [Hfit|Hover].
    + rewrite slice_run by lia. cbn [mbind outcome_bind].
      assert (take (Z.to_nat n) (drop (Z.to_nat (bufferOffset r)) (buffer r)) = take (Z.to_nat n) (drop (Z.to_nat pos) F)) as ->.
      { apply (f_equal (take (Z.to_nat n))) in Hbuf. rewrite !take_take in Hbuf. by rewrite !Nat.min_l in Hbuf by lia. }
      eexists. split; [done|].
      unfold reads. cbn [buffer fileOffset bufferOffset fileInfo fileSize bufferSize]. split_and!; try done; try lia.
      apply (f_equal (drop (Z.to_nat n))) in Hbuf. rewrite !skipn_firstn_comm, !drop_drop in Hbuf.
      rewrite !Z2Nat.inj_add by lia. replace (Z.to_nat (bufferSize r - (bufferOffset r + n)))
        with (Z.to_nat (bufferSize r - bufferOffset r) - Z.to_nat n)%nat by lia. exact Hbuf.
    + unfold u64. rewrite wrap_small by (unfold BUFFER_SIZE in *; lia). set (k := bufferSize r - bufferOffset r) in *.
      rewrite slice_run by (unfold k; lia). cbn [mbind outcome_bind].
      destruct (readNextPage_run F (mk (buffer r) (fileOffset r) (bufferOffset r + k) (fileInfo r) (fileSize r) (bufferSize r)))
        as (r' & -> & (Hc' & Hs' & Hb' & Ho' & Hbs' & Hf' & Hp' & Hpos' & Hbuf') & Hz & Hsz & Hfo & Hfi & Hfs);
        [done|done|done|cbn [fileOffset]; unfold k in *; lia|].
      cbn [fileOffset bufferOffset bufferSize buffer] in *. cbn [mbind outcome_bind].
      rewrite Hz, Z.sub_0_r in Hbuf'. change (drop (Z.to_nat 0) (buffer r')) with (buffer r') in Hbuf'.
      assert (n - k <= bufferSize r') as Hrest by (rewrite Hsz; unfold k in *; lia).
      rewrite slice_run by (unfold k in *; lia). cbn [mbind outcome_bind]. change (drop (Z.to_nat 0) (buffer r')) with (buffer r').
      apply (f_equal (take (Z.to_nat (n - k)))) in Hbuf' as Hrd. rewrite !take_take, !Nat.min_l in Hrd by lia.
      assert (fileOffset r = pos + k) as Hfp by (unfold k; lia).
      assert (take (Z.to_nat k) (drop (Z.to_nat (bufferOffset r)) (buffer r)) ++ take (Z.to_nat (n - k)) (buffer r') =
        take (Z.to_nat n) (drop (Z.to_nat pos) F)) as ->.
      { rewrite Hbuf, Hrd, Hfp. rewrite Z2Nat.inj_add by (unfold k; lia). rewrite <-drop_drop.
        rewrite take_take_drop. f_equal. unfold k in *. lia. }
      eexists. split; [done|].
      { unfold reads. cbn [buffer fileOffset bufferOffset fileInfo fileSize bufferSize]. rewrite Hz, Z.add_0_l.
        split_and!; try done; try (unfold k in *; lia).
        apply (f_equal (drop (Z.to_nat (n - k)))) in Hbuf'. rewrite !skipn_firstn_comm, !drop_drop in Hbuf'.
        replace (Z.to_nat (bufferSize r' - (n - k))) with (Z.to_nat (bufferSize r') - Z.to_nat (n - k))%nat by (unfold k in *; lia).
        replace (Z.to_nat (pos + n)) with (Z.to_nat (fileOffset r) + Z.to_nat (n - k))%nat by (unfold k in *; lia). exact Hbuf'. }
Qed.

(** A deserialiser that stays within the file does on the reader what it does on
    the bytes. *)
Lemma exec_run {A} (d : decoder A) F r pos res rest : reads F r pos -> parse d (drop (Z.to_nat pos) F) = Some (res, rest) ->
  match res with
  | Ret a => exists r', exec d r = Ret (a, r') /\ reads F r' (size F - size rest)
  | Throw e => exec d r = Throw e
  | Undef => exec d r = Undef
  end.
Proof.
  revert r pos. induction d as [a|n k IH|e|]; intros r pos Hr; cbn [parse exec].
  - intros [= <- <-]. exists r. split; [done|]. pose proof Hr as (_ & _ & _ & ? & ? & ? & ? & ? & _).
    rewrite size_drop by lia. by replace (size F - (size F - pos)) with pos by lia.
  - pose proof Hr as (_ & _ & Hb & ? & ? & ? & ? & ? & _). destruct (Z.ltb_spec n 0) as [Hneg|Hn].
    + intros [= <- <-]. unfold read. rewrite (proj2 (Z.ltb_ge _ _)) by (unfold BUFFER_SIZE; lia). rewrite (proj2 (Z.leb_le _ _)) by lia.
      unfold slice. by rewrite (proj2 (Z.leb_gt 0 n)), andb_false_r by lia.
    + destruct (Z.leb_spec n (Z.of_nat (length (drop (Z.to_nat pos) F)))) as [Hle|]; [|done].
      change (n <= size (drop (Z.to_nat pos) F)) in Hle. rewrite size_drop in Hle by lia.
      destruct (read_run F r pos n Hr Hn) as (r' & -> & Hr'); [lia|]. cbn [mbind outcome_bind].
      rewrite drop_drop, <-Z2Nat.inj_add by lia. by apply IH.
  - by intros [= <- <-].
  - by intros [= <- <-].
Qed.

(** ** Past the end *)

(** The reader believes it has read more than the page holds. *)
Definition overrun (r : t) : Prop :=
  fileSize r = size (content (fileInfo r)) /\ fileSize r <= fileOffset r /\ size (buffer r) = BUFFER_SIZE /\
  0 <= bufferSize r < bufferOffset r /\ bufferOffset r <= BUFFER_SIZE.

Lemma exec_overrun {A} (d : decoder A) r a r' : overrun r -> exec d r = Ret (a, r') -> r' = r.
Proof.
  intros (Hs & Hf & Hb & Hbs & Ho). destruct d as [x|n k|e|]; cbn [exec]; [by intros [= _ <-]| |done..].
  intros Hrun. apply outcome_bind_Ret_inv in Hrun as ((data & r1) & Hread & _). exfalso. revert Hread. unfold read.
  destruct (Z.ltb_spec BUFFER_SIZE n).
  - unfold readFromFile. by rewrite (proj2 (Z.leb_gt _ _)) by lia.
  - destruct (Z.leb_spec (bufferOffset r + n) (bufferSize r)); unfold slice.
    + by rewrite (proj2 (Z.leb_gt 0 n)), andb_false_r by lia.
    + assert (bufferOffset r + u64 (bufferSize r - bufferOffset r) = 2 ^ 64 + bufferSize r) as ->.
      { unfold u64, wrap. rewrite <-(Z.mod_add _ 1), Z.mod_small by (unfold BUFFER_SIZE in *; lia). lia. }
      rewrite (proj2 (Z.leb_gt (2 ^ 64 + _) _)) by (rewrite Hb; unfold BUFFER_SIZE; lia). by rewrite andb_false_r.
Qed.

(** A deserialiser that wants more than there is returns only with bytes made up,
    as its last read. *)
Lemma exec_past {A} (d : decoder A) F r pos a r' :
  reads F r pos -> parse d (drop (Z.to_nat pos) F) = None -> exec d r = Ret (a, r') -> overrun r'.
Proof.
  revert r pos. induction d as [x|n k IH|e|]; intros r pos Hr; cbn [parse exec]; [done| |done..].
  destruct (Z.ltb_spec n 0) as [|Hn]; [done|]. pose proof Hr as (Hc & Hs & Hb & Ho & Hbs & Hf & Hp & Hpos & Hbuf).
  destruct (Z.leb_spec n (Z.of_nat (length (drop (Z.to_nat pos) F)))) as [Hle|Hgt].
  - change (n <= size (drop (Z.to_nat pos) F)) in Hle. rewrite size_drop in Hle by lia. intros Hpar Hrun.
    destruct (read_run F r pos n Hr Hn) as (r1 & Hread & Hr1); [lia|]. rewrite Hread in Hrun. cbn [mbind outcome_bind] in Hrun.
    rewrite drop_drop, <-Z2Nat.inj_add in Hpar by lia. by apply (IH _ _ _ Hr1 Hpar).
  - change (size (drop (Z.to_nat pos) F) < n) in Hgt. rewrite size_drop in Hgt by lia. intros _ Hrun.
    apply outcome_bind_Ret_inv in Hrun as ((data & r1) & Hread & Hrun). unfold read in Hread.
    destruct (Z.ltb_spec BUFFER_SIZE n).
    { unfold readFromFile in Hread. by rewrite Hc, (proj2 (Z.leb_gt _ _)) in Hread by lia. }
    rewrite (proj2 (Z.leb_gt _ _)) in Hread by lia. unfold u64 in Hread.
    rewrite wrap_small in Hread by (unfold BUFFER_SIZE in *; lia). rewrite slice_run in Hread by lia. cbn [mbind outcome_bind] in Hread.
    apply outcome_bind_Ret_inv in Hread as (r2 & Hpage & Hread).
    destruct (Z.lt_ge_cases (fileOffset r) (size F)) as [Hlt|Hge];
      [|unfold readNextPage in Hpage; cbn [fileSize fileOffset] in Hpage; by rewrite Hs, (proj2 (Z.leb_le _ _)) in Hpage by lia].
    destruct (readNextPage_run F (mk (buffer r) (fileOffset r) (bufferOffset r + (bufferSize r - bufferOffset r)) (fileInfo r) (fileSize r) (bufferSize r)))
      as (r3 & Hpage' & (Hc' & Hs' & Hb' & Ho' & Hbs' & Hf' & Hp' & Hpos' & Hbuf') & Hz & Hsz & Hfo & Hfi & Hfs);
      [done|done|done|cbn [fileOffset]; lia|].
    rewrite Hpage' in Hpage. injection Hpage as <-. cbn [fileOffset] in *.
    apply outcome_bind_Ret_inv in Hread as (rest & _ & Hread). injection Hread as _ <-.
    assert (overrun (mk (buffer r3) (fileOffset r3) (bufferOffset r3 + (n - (bufferSize r - bufferOffset r))) (fileInfo r3) (fileSize r3) (bufferSize r3))) as Hov.
    { unfold overrun. cbn [buffer fileOffset bufferOffset fileInfo fileSize bufferSize]. rewrite Hc', Hs'. split_and!; try done; lia. }
    by apply exec_overrun in Hrun as ->.
Qed.

(** ** The last page *)

(** The buffer holds a page of the file, as far as it goes. *)
Definition paged (r : t) : Prop :=
  exists q, 0 <= q /\ fileOffset r - bufferSize r = BUFFER_SIZE * q /\ fileOffset r = Z.min (fileSize r) (BUFFER_SIZE * (q + 1)).

Lemma make_run f : content f <> [] -> exists r, make f = Ret r /\ reads (content f) r 0 /\ paged r.
Proof.
  intros Hne. unfold make. assert (0 < size (content f)) by (unfold size; destruct (content f); [done|cbn; lia]).
  destruct (readNextPage_run (content f) (mk (replicate (Z.to_nat BUFFER_SIZE) 0) 0 0 f (size (content f)) 0))
    as (r & Hrun & Hr & Hz & Hsz & Hfo & Hfi & Hfs); [done|done|done|cbn [fileOffset]; lia|].
  exists r. split; [done|]. cbn [fileOffset fileSize] in *. split; [done|]. exists 0. rewrite Hfs, Hfo, Hsz. split_and!; lia.
Qed.

Lemma read_paged F r pos n data r' : reads F r pos -> paged r -> 0 <= n <= BUFFER_SIZE -> pos + n <= size F ->
  read r n = Ret (data, r') -> paged r'.
Proof.
  intros (Hc & Hs & Hb & Ho & Hbs & Hf & Hp & Hpos & Hbuf) (q & Hq & Hlo & Hhi) Hn Hle. unfold read.
  rewrite (proj2 (Z.ltb_ge _ _)) by lia. destruct (Z.leb_spec (bufferOffset r + n) (bufferSize r)).
  - intros Hrun. apply outcome_bind_Ret_inv in Hrun as (d & _ & Hrun). injection Hrun as _ <-. by exists q.
  - intros Hrun. apply outcome_bind_Ret_inv in Hrun as (d & _ & Hrun).
    apply outcome_bind_Ret_inv in Hrun as (r1 & Hpage & Hrun). apply outcome_bind_Ret_inv in Hrun as (d' & _ & Hrun). injection Hrun as _ <-.
    destruct (readNextPage_run F (mk (buffer r) (fileOffset r) (bufferOffset r + u64 (bufferSize r - bufferOffset r)) (fileInfo r) (fileSize r) (bufferSize r)))
      as (r3 & Hpage' & _ & _ & Hsz & Hfo & _ & Hfs); [done|done|done|cbn [fileOffset]; lia|].
    rewrite Hpage' in Hpage. injection Hpage as <-. cbn [fileOffset fileSize] in *.
    exists (q + 1). unfold paged. cbn [fileOffset bufferSize fileSize]. split_and!; lia.
Qed.

Lemma exec_paged {A} (d : decoder A) F r pos a rest r' : reads F r pos -> paged r -> small BUFFER_SIZE d (drop (Z.to_nat pos) F) = true ->
  parse d (drop (Z.to_nat pos) F) = Some (Ret a, rest) -> exec d r = Ret (a, r') -> paged r'.
Proof.
  revert r pos. induction d as [x|n k IH|e|]; intros r pos Hr Hpg; cbn [parse exec small]; [by intros _ _ [= _ <-]| |done..].
  pose proof Hr as (_ & _ & _ & Ho & _ & Hf & Hp & Hpos & _).
  destruct (Z.ltb_spec n 0) as [|Hn]; [by rewrite (proj2 (Z.leb_gt 0 n))|]. rewrite (proj2 (Z.leb_le 0 n)) by done. cbn [andb].
  destruct (Z.leb_spec n BUFFER_SIZE) as [Hsm|]; [|done]. cbn [andb].
  destruct (Z.leb_spec n (Z.of_nat (length (drop (Z.to_nat pos) F)))) as [Hle|]; [|done].
  change (n <= size (drop (Z.to_nat pos) F)) in Hle. rewrite size_drop in Hle by lia.
  intros Hsmall Hpar Hrun. destruct (read_run F r pos n Hr Hn) as (r1 & Hread & Hr1); [lia|]. rewrite Hread in Hrun. cbn [mbind outcome_bind] in Hrun.
  rewrite drop_drop, <-Z2Nat.inj_add in Hpar, Hsmall by lia. refine (IH _ _ _ Hr1 _ Hsmall Hpar Hrun).
  by apply (read_paged F r pos n (take (Z.to_nat n) (drop (Z.to_nat pos) F))); [| |lia|lia|].
Qed.

Definition EOF : exn := RuntimeException "Reading past the end of the file {} with size {} at offset {}".

(** With the last page in the buffer, running out of bytes is an exception. *)
Lemma exec_eof {A} (d : decoder A) F r pos : reads F r pos -> fileOffset r = size F -> small BUFFER_SIZE d (drop (Z.to_nat pos) F) = true ->
  parse d (drop (Z.to_nat pos) F) = None -> exec d r = Throw EOF.
Proof.
  revert r pos. induction d as [x|n k IH|e|]; intros r pos Hr Hlast; cbn [parse exec small]; [done| |done..].
  pose proof Hr as (Hc & Hs & Hb & Ho & Hbs & Hf & Hp & Hpos & _).
  destruct (Z.ltb_spec n 0) as [|Hn]; [by rewrite (proj2 (Z.leb_gt 0 n))|]. rewrite (proj2 (Z.leb_le 0 n)) by done. cbn [andb].
  destruct (Z.leb_spec n BUFFER_SIZE) as [Hsm|]; [|done]. cbn [andb].
  destruct (Z.leb_spec n (Z.of_nat (length (drop (Z.to_nat pos) F)))) as [Hle|Hgt].
  - change (n <= size (drop (Z.to_nat pos) F)) in Hle. rewrite size_drop in Hle by lia.
    intros Hsmall Hpar. destruct (read_run F r pos n Hr Hn) as (r1 & Hread & Hr1); [lia|]. rewrite Hread. cbn [mbind outcome_bind].
    rewrite drop_drop, <-Z2Nat.inj_add in Hpar, Hsmall by lia. refine (IH _ _ _ Hr1 _ Hsmall Hpar).
    revert Hread. unfold read. rewrite (proj2 (Z.ltb_ge _ _)), (proj2 (Z.leb_le _ _)) by lia. intros Hrun.
    apply outcome_bind_Ret_inv in Hrun as (? & _ & Hrun). by injection Hrun as _ <-.
  - change (size (drop (Z.to_nat pos) F) < n) in Hgt. rewrite size_drop in Hgt by lia. intros _ _.
    unfold read. rewrite (proj2 (Z.ltb_ge _ _)), (proj2 (Z.leb_gt _ _)) by lia. unfold u64.
    rewrite wrap_small by (unfold BUFFER_SIZE in *; lia). rewrite slice_run by lia. cbn [mbind outcome_bind].
    unfold readNextPage. cbn [fileSize fileOffset]. by rewrite Hs, Hlast, Z.leb_refl.
Qed.

(** After a read that began in the page of the end of the file, that page is loaded. *)
Lemma paged_last F r pos start : reads F r pos -> paged r -> 0 <= start < pos -> BUFFER_SIZE * ((size F - 1) / BUFFER_SIZE) <= start ->
  fileOffset r = size F.
Proof.
  intros (Hc & Hs & Hb & Ho & Hbs & Hf & Hp & Hpos & _) (q & Hq & Hlo & Hhi) Hst Hpage.
  rewrite Hs in Hhi. destruct (Z.le_gt_cases (size F) (BUFFER_SIZE * (q + 1))); [lia|].
  exfalso. assert (q + 1 <= (size F - 1) / BUFFER_SIZE) as Hdiv; [apply Z.div_le_lower_bound; [done|lia]|].
  unfold BUFFER_SIZE in *. nia.
Qed.
End ReaderFacts.
