(* ===== verification/WALRecord.v ===== *)
(** The records of the write-ahead log ([storage/wal/wal_record.cpp],
    [wal_record.h]): their fields, how they are written and read back. Catalog
    entries, property definitions and value vectors are written by code that is not
    modelled: each is a parameter with its [wire]. *)
From S2P Require Import Prelude Serializer Decoder.
Local Open Scope Z_scope.

Module WALRecord.
Section WALRecord.
(** [CatalogEntry], [PropertyDefinition] and [ValueVector]. *)
Context {E P V : Type} (entry : wire E) (property : wire P) (vector : wire V).

(** [BoundAlterInfo] with the extra information of its type. *)
Inductive ExtraInfo :=
| RENAME (newName : string)
| ADD_PROPERTY (propertyDefinition : P)
| DROP_PROPERTY (propertyName : string)
| RENAME_PROPERTY (newName oldName : string)
| ADD_FROM_TO_CONNECTION (fromTableID toTableID : Z)
| DROP_FROM_TO_CONNECTION (fromTableID toTableID : Z)
| COMMENT (comment : string).

Record BoundAlterInfo := mkAlter { tableName : string; extraInfo : ExtraInfo }.

(** [entryType], [tableType] and [direction] are enumerations of one byte that
    are read without a check: they are kept as that byte. *)
Inductive t :=
| BeginTransactionRecord
| CommitRecord
| CheckpointRecord
| CopyTableRecord (tableID : Z)
| CreateCatalogEntryRecord (catalogEntry : E) (isInternal : bool)
| DropCatalogEntryRecord (entryID entryType : Z)
| AlterTableEntryRecord (alterInfo : BoundAlterInfo)
| UpdateSequenceRecord (sequenceID kCount : Z)
| TableInsertionRecord (tableID tableType numRows : Z) (vectors : list V)
| NodeDeletionRecord (tableID nodeOffset : Z) (pkVector : V)
| NodeUpdateRecord (tableID columnID nodeOffset : Z) (propertyVector : V)
| RelDeletionRecord (tableID : Z) (srcNodeIDVector dstNodeIDVector relIDVector : V)
| RelDetachDeleteRecord (tableID direction : Z) (srcNodeIDVector : V)
| RelUpdateRecord (tableID columnID : Z) (srcNodeIDVector dstNodeIDVector relIDVector propertyVector : V)
| LoadExtensionRecord (path : string).

(** [WALRecordType]. *)
Definition type (r : t) : Z :=
  match r with
  | BeginTransactionRecord => 1
  | CommitRecord => 2
  | CopyTableRecord _ => 13
  | CreateCatalogEntryRecord _ _ => 14
  | DropCatalogEntryRecord _ _ => 16
  | AlterTableEntryRecord _ => 17
  | UpdateSequenceRecord _ _ => 18
  | TableInsertionRecord _ _ _ _ => 30
  | NodeDeletionRecord _ _ _ => 31
  | NodeUpdateRecord _ _ _ _ => 32
  | RelDeletionRecord _ _ _ _ => 33
  | RelDetachDeleteRecord _ _ _ => 34
  | RelUpdateRecord _ _ _ _ _ _ => 35
  | LoadExtensionRecord _ => 100
  | CheckpointRecord => 254
  end.

(** [AlterType]. *)
Definition alterType (i : ExtraInfo) : Z :=
  match i with
  | RENAME _ => 0
  | ADD_PROPERTY _ => 10
  | DROP_PROPERTY _ => 11
  | RENAME_PROPERTY _ _ => 12
  | ADD_FROM_TO_CONNECTION _ _ => 13
  | DROP_FROM_TO_CONNECTION _ _ => 14
  | COMMENT _ => 201
  end.

(** ** Writing *)

Definition u8 : Z -> bytes := write u8_wire.
Definition u32 : Z -> bytes := write u32_wire.
Definition u64 : Z -> bytes := write u64_wire.
Definition str : string -> bytes := write string_wire.

Definition serializeAlterExtraInfo (a : BoundAlterInfo) : bytes :=
  u8 (alterType (extraInfo a)) ++ str (tableName a) ++
  match extraInfo a with
  | RENAME newName => str newName
  | ADD_PROPERTY propertyDefinition => write property propertyDefinition
  | DROP_PROPERTY propertyName => str propertyName
  | RENAME_PROPERTY newName oldName => str newName ++ str oldName
  | ADD_FROM_TO_CONNECTION fromTableID toTableID | DROP_FROM_TO_CONNECTION fromTableID toTableID =>
      u64 fromTableID ++ u64 toTableID
  | COMMENT comment => str comment
  end.

(** [WALRecord::serialize], which each of the others calls first. *)
Definition WALRecord_serialize (type : Z) : bytes := u8 type.

Definition CreateCatalogEntryRecord_serialize (catalogEntry : E) (isInternal : bool) : bytes :=
  WALRecord_serialize 14 ++ write entry catalogEntry ++ write bool_wire isInternal.
Definition CopyTableRecord_serialize (tableID : Z) : bytes :=
  WALRecord_serialize 13 ++ u64 tableID.
Definition DropCatalogEntryRecord_serialize (entryID entryType : Z) : bytes :=
  WALRecord_serialize 16 ++ u64 entryID ++ u8 entryType.
Definition AlterTableEntryRecord_serialize (alterInfo : BoundAlterInfo) : bytes :=
  WALRecord_serialize 17 ++ serializeAlterExtraInfo alterInfo.
Definition UpdateSequenceRecord_serialize (sequenceID kCount : Z) : bytes :=
  WALRecord_serialize 18 ++ u64 sequenceID ++ u64 kCount.
Definition TableInsertionRecord_serialize (tableID tableType numRows : Z) (vectors : list V) : bytes :=
  WALRecord_serialize 30 ++ u64 tableID ++ u8 tableType ++ u64 numRows ++ u32 (Z.of_nat (length vectors)) ++ concat (map (write vector) vectors).
Definition NodeDeletionRecord_serialize (tableID nodeOffset : Z) (pkVector : V) : bytes :=
  WALRecord_serialize 31 ++ u64 tableID ++ u64 nodeOffset ++ write vector pkVector.
Definition NodeUpdateRecord_serialize (tableID columnID nodeOffset : Z) (propertyVector : V) : bytes :=
  WALRecord_serialize 32 ++ u64 tableID ++ u32 columnID ++ u64 nodeOffset ++ write vector propertyVector.
Definition RelDeletionRecord_serialize (tableID : Z) (src dst relID : V) : bytes :=
  WALRecord_serialize 33 ++ u64 tableID ++ write vector src ++ write vector dst ++ write vector relID.
Definition RelDetachDeleteRecord_serialize (tableID direction : Z) (src : V) : bytes :=
  WALRecord_serialize 34 ++ u64 tableID ++ u8 direction ++ write vector src.
Definition RelUpdateRecord_serialize (tableID columnID : Z) (src dst relID propertyVector : V) : bytes :=
  WALRecord_serialize 35 ++ u64 tableID ++ u32 columnID ++ write vector src ++ write vector dst ++ write vector relID ++ write vector propertyVector.
Definition LoadExtensionRecord_serialize (path : string) : bytes :=
  WALRecord_serialize 100 ++ str path.

(** The virtual call. *)
Definition serialize (r : t) : bytes :=
  match r with
  | BeginTransactionRecord => WALRecord_serialize 1
  | CommitRecord => WALRecord_serialize 2
  | CheckpointRecord => WALRecord_serialize 254
  | CreateCatalogEntryRecord catalogEntry isInternal => CreateCatalogEntryRecord_serialize catalogEntry isInternal
  | CopyTableRecord tableID => CopyTableRecord_serialize tableID
  | DropCatalogEntryRecord entryID entryType => DropCatalogEntryRecord_serialize entryID entryType
  | AlterTableEntryRecord alterInfo => AlterTableEntryRecord_serialize alterInfo
  | UpdateSequenceRecord sequenceID kCount => UpdateSequenceRecord_serialize sequenceID kCount
  | TableInsertionRecord tableID tableType numRows vectors => TableInsertionRecord_serialize tableID tableType numRows vectors
  | NodeDeletionRecord tableID nodeOffset pkVector => NodeDeletionRecord_serialize tableID nodeOffset pkVector
  | NodeUpdateRecord tableID columnID nodeOffset propertyVector => NodeUpdateRecord_serialize tableID columnID nodeOffset propertyVector
  | RelDeletionRecord tableID src dst relID => RelDeletionRecord_serialize tableID src dst relID
  | RelDetachDeleteRecord tableID direction src => RelDetachDeleteRecord_serialize tableID direction src
  | RelUpdateRecord tableID columnID src dst relID propertyVector => RelUpdateRecord_serialize tableID columnID src dst relID propertyVector
  | LoadExtensionRecord path => LoadExtensionRecord_serialize path
  end.

(** ** Reading *)

Definition deserializeAlterRecord : decoder BoundAlterInfo :=
  alterType ← decode u8_wire;
  tableName ← decode string_wire;
  extraInfo ←
    match alterType with
    | 10 => d ← decode property; mret (ADD_PROPERTY d)
    | 11 => propertyName ← decode string_wire; mret (DROP_PROPERTY propertyName)
    | 12 => newName ← decode string_wire; oldName ← decode string_wire; mret (RENAME_PROPERTY newName oldName)
    | 201 => comment ← decode string_wire; mret (COMMENT comment)
    | 0 => newName ← decode string_wire; mret (RENAME newName)
    | 13 => f ← decode u64_wire; t ← decode u64_wire; mret (ADD_FROM_TO_CONNECTION f t)
    | 14 => f ← decode u64_wire; t ← decode u64_wire; mret (DROP_FROM_TO_CONNECTION f t)
    | _ => Stuck
    end;
  mret (mkAlter tableName extraInfo).

Definition CreateCatalogEntryRecord_deserialize : decoder t :=
  catalogEntry ← decode entry; isInternal ← decode bool_wire; mret (CreateCatalogEntryRecord catalogEntry isInternal).
Definition CopyTableRecord_deserialize : decoder t :=
  tableID ← decode u64_wire; mret (CopyTableRecord tableID).
Definition DropCatalogEntryRecord_deserialize : decoder t :=
  entryID ← decode u64_wire; entryType ← decode u8_wire; mret (DropCatalogEntryRecord entryID entryType).
Definition AlterTableEntryRecord_deserialize : decoder t :=
  alterInfo ← deserializeAlterRecord; mret (AlterTableEntryRecord alterInfo).
Definition UpdateSequenceRecord_deserialize : decoder t :=
  sequenceID ← decode u64_wire; kCount ← decode u64_wire; mret (UpdateSequenceRecord sequenceID kCount).
Definition TableInsertionRecord_deserialize : decoder t :=
  tableID ← decode u64_wire; tableType ← decode u8_wire; numRows ← decode u64_wire; numVectors ← decode u32_wire;
  vectors ← decode_n vector (Z.to_nat numVectors);
  mret (TableInsertionRecord tableID tableType numRows vectors).
Definition NodeDeletionRecord_deserialize : decoder t :=
  tableID ← decode u64_wire; nodeOffset ← decode u64_wire; pkVector ← decode vector;
  mret (NodeDeletionRecord tableID nodeOffset pkVector).
Definition NodeUpdateRecord_deserialize : decoder t :=
  tableID ← decode u64_wire; columnID ← decode u32_wire; nodeOffset ← decode u64_wire; propertyVector ← decode vector;
  mret (NodeUpdateRecord tableID columnID nodeOffset propertyVector).
Definition RelDeletionRecord_deserialize : decoder t :=
  tableID ← decode u64_wire; src ← decode vector; dst ← decode vector; relID ← decode vector;
  mret (RelDeletionRecord tableID src dst relID).
Definition RelDetachDeleteRecord_deserialize : decoder t :=
  tableID ← decode u64_wire; direction ← decode u8_wire; src ← decode vector; mret (RelDetachDeleteRecord tableID direction src).
Definition RelUpdateRecord_deserialize : decoder t :=
  tableID ← decode u64_wire; columnID ← decode u32_wire;
  src ← decode vector; dst ← decode vector; relID ← decode vector; propertyVector ← decode vector;
  mret (RelUpdateRecord tableID columnID src dst relID propertyVector).
Definition LoadExtensionRecord_deserialize : decoder t :=
  path ← decode string_wire; mret (LoadExtensionRecord path).

(** The fields after the type. *)
Definition deserializeFields (type : Z) : decoder t :=
  match type with
  | 1 => mret BeginTransactionRecord
  | 2 => mret CommitRecord
  | 14 => CreateCatalogEntryRecord_deserialize
  | 16 => DropCatalogEntryRecord_deserialize
  | 17 => AlterTableEntryRecord_deserialize
  | 30 => TableInsertionRecord_deserialize
  | 31 => NodeDeletionRecord_deserialize
  | 32 => NodeUpdateRecord_deserialize
  | 33 => RelDeletionRecord_deserialize
  | 34 => RelDetachDeleteRecord_deserialize
  | 35 => RelUpdateRecord_deserialize
  | 13 => CopyTableRecord_deserialize
  | 254 => mret CheckpointRecord
  | 18 => UpdateSequenceRecord_deserialize
  | 100 => LoadExtensionRecord_deserialize
  | 0 => Fail (RuntimeException "Corrupted wal file. Read out invalid WAL record type.")
  | _ => Stuck
  end.

Definition deserialize : decoder t := type ← decode u8_wire; deserializeFields type.

(** ** What can be written *)

Abbreviation is_u8 := (writable u8_wire).
Abbreviation is_u32 := (writable u32_wire).
Abbreviation is_u64 := (writable u64_wire).

Definition extra_ok (i : ExtraInfo) : Prop :=
  match i with
  | RENAME s | DROP_PROPERTY s | COMMENT s => writable string_wire s
  | ADD_PROPERTY d => writable property d
  | RENAME_PROPERTY s s' => writable string_wire s /\ writable string_wire s'
  | ADD_FROM_TO_CONNECTION f t | DROP_FROM_TO_CONNECTION f t => is_u64 f /\ is_u64 t
  end.

Definition record_ok (r : t) : Prop :=
  match r with
  | BeginTransactionRecord | CommitRecord | CheckpointRecord => True
  | CopyTableRecord tableID => is_u64 tableID
  | CreateCatalogEntryRecord e _ => writable entry e
  | DropCatalogEntryRecord entryID entryType => is_u64 entryID /\ is_u8 entryType
  | AlterTableEntryRecord a => writable string_wire (tableName a) /\ extra_ok (extraInfo a)
  | UpdateSequenceRecord sequenceID kCount => is_u64 sequenceID /\ is_u64 kCount
  | TableInsertionRecord tableID tableType numRows vectors =>
      is_u64 tableID /\ is_u8 tableType /\ is_u64 numRows /\ is_u32 (Z.of_nat (length vectors)) /\ Forall (writable vector) vectors
  | NodeDeletionRecord tableID nodeOffset v => is_u64 tableID /\ is_u64 nodeOffset /\ writable vector v
  | NodeUpdateRecord tableID columnID nodeOffset v => is_u64 tableID /\ is_u32 columnID /\ is_u64 nodeOffset /\ writable vector v
  | RelDeletionRecord tableID a b c => is_u64 tableID /\ writable vector a /\ writable vector b /\ writable vector c
  | RelDetachDeleteRecord tableID direction a => is_u64 tableID /\ is_u8 direction /\ writable vector a
  | RelUpdateRecord tableID columnID a b c d =>
      is_u64 tableID /\ is_u32 columnID /\ writable vector a /\ writable vector b /\ writable vector c /\ writable vector d
  | LoadExtensionRecord path => writable string_wire path
  end.

(** ** Reading back what was written *)

Ltac unfold_record :=
  unfold deserializeFields, CreateCatalogEntryRecord_deserialize, CopyTableRecord_deserialize, DropCatalogEntryRecord_deserialize, AlterTableEntryRecord_deserialize, UpdateSequenceRecord_deserialize, TableInsertionRecord_deserialize, NodeDeletionRecord_deserialize, NodeUpdateRecord_deserialize, RelDeletionRecord_deserialize, RelDetachDeleteRecord_deserialize, RelUpdateRecord_deserialize, LoadExtensionRecord_deserialize,
    WALRecord_serialize, CreateCatalogEntryRecord_serialize, CopyTableRecord_serialize, DropCatalogEntryRecord_serialize, AlterTableEntryRecord_serialize, UpdateSequenceRecord_serialize, TableInsertionRecord_serialize, NodeDeletionRecord_serialize, NodeUpdateRecord_serialize, RelDeletionRecord_serialize, RelDetachDeleteRecord_serialize, RelUpdateRecord_serialize, LoadExtensionRecord_serialize.

Ltac read_back := repeat (rewrite ?parse_bind, <-?app_assoc; first [rewrite decode_write by done | rewrite parse_n by done]; cbn [mret decoder_ret]).

Lemma parse_alter a rest : writable string_wire (tableName a) -> extra_ok (extraInfo a) ->
  parse deserializeAlterRecord (serializeAlterExtraInfo a ++ rest) = Some (Ret a, rest).
Proof.
  intros Ht Hx. destruct a as [name i]. cbn [tableName extraInfo] in *. unfold deserializeAlterRecord, serializeAlterExtraInfo, u8, u64, str.
  cbn [tableName extraInfo]. rewrite parse_bind, <-!app_assoc, decode_write by (destruct i; cbn; lia).
  rewrite parse_bind, decode_write by done. rewrite parse_bind.
  destruct i; cbn [alterType extra_ok] in *; destruct_and?; by read_back.
Qed.

Lemma serialize_type r : exists fields, serialize r = u8 (type r) ++ fields.
Proof. destruct r; cbn [serialize type]; unfold_record; eexists; first [reflexivity|by rewrite app_nil_r]. Qed.

Theorem parse_record r rest : record_ok r -> parse deserialize (serialize r ++ rest) = Some (Ret r, rest).
Proof.
  intros Hr. unfold deserialize.
  destruct r; cbn [serialize record_ok] in *; destruct_and?; unfold_record; unfold u8, u32, u64, str; rewrite parse_bind, <-?app_assoc, decode_write by (cbn; lia);
    unfold deserializeFields; unfold_record; cbn [app]; try by read_back.
  - by rewrite parse_bind, parse_alter.
  - do 4 (rewrite parse_bind, <-?app_assoc, decode_write by done). rewrite parse_bind, Nat2Z.id, parse_n by done. done.
Qed.

Lemma serialize_cons r : exists bs, serialize r = type r :: bs.
Proof.
  destruct (serialize_type r) as [fields ->]. unfold u8. cbn [write uint_wire le_bytes]. rewrite Z.mod_small by (destruct r; cbn; lia). by eexists.
Qed.
End WALRecord.
Arguments t E P V : clear implicits.
End WALRecord.
