(* ===== verification/WAL.v ===== *)
(** The write-ahead log ([storage/wal/wal.cpp], [wal.h]) and the log of a transaction
    ([storage/wal/local_wal.cpp], [local_wal.h]): records are collected in memory,
    appended to the file by the commit, or earlier when they grow too large. Opening
    and writing a file succeed; the locks are held by whoever calls. *)
From S2P Require Import Prelude Serializer FreeSpaceManager InMemFileWriter Decoder BufferedFile WALRecord.
Local Open Scope Z_scope.

(** [InMemFileWriter::flush(BufferedFileWriter&)]: a page at a time, the last one
    as far as it was written. *)
Definition initialised (b : InMemFileWriter.buffer) : outcome bytes :=
  match mapM id b with Some bs => mret bs | None => Undef end.

Fixpoint flushPages (i : nat) (ps : list InMemFileWriter.buffer) (numPages pageOffset : nat) (f : BufferedFileWriter.t)
  : outcome BufferedFileWriter.t :=
  match ps with
  | [] => mret f
  | page :: ps =>
      data ← initialised (take (if (i =? numPages - 1)%nat then pageOffset else KUZU_PAGE_SIZE) page);
      f ← BufferedFileWriter.write f data;
      flushPages (S i) ps numPages pageOffset f
  end.

Definition flushTo (w : InMemFileWriter.t) (f : BufferedFileWriter.t) : outcome BufferedFileWriter.t :=
  flushPages 0 (InMemFileWriter.pages w) (length (InMemFileWriter.pages w)) (InMemFileWriter.pageOffset w) f.

(** [InMemFileWriter::clear]. *)
Definition clearWriter (w : InMemFileWriter.t) : InMemFileWriter.t := InMemFileWriter.mk [] 0.

Module WAL.
(** [walFile] is the file at the path of the log while no writer has it open; the
    writer has the file it writes. *)
Record t := mk { inMemory : bool; readOnly : bool; walFile : option FileInfo; writer : option BufferedFileWriter.t }.

Definition make (inMemory readOnly : bool) (walFile : option FileInfo) : t := mk inMemory readOnly walFile None.

(** The file at the path of the log. *)
Definition file (w : t) : option FileInfo :=
  match writer w with Some b => Some (BufferedFileWriter.fileInfo b) | None => walFile w end.

Definition initWriter (w : t) : t * BufferedFileWriter.t :=
  match writer w with
  | Some b => (w, b)
  | None =>
      let f := match walFile w with Some f => f | None => mk_file [] 0 end in
      let b := BufferedFileWriter.setFileOffset (BufferedFileWriter.make f) (size (content f)) in
      (mk (inMemory w) (readOnly w) None (Some b), b)
  end.

Definition set_writer (w : t) (b : BufferedFileWriter.t) : t := mk (inMemory w) (readOnly w) (walFile w) (Some b).

Definition flushAndSyncNoLock (b : BufferedFileWriter.t) : outcome BufferedFileWriter.t :=
  b ← BufferedFileWriter.flush b; mret (BufferedFileWriter.sync b).

(** [localWAL] is the in-memory writer of the transaction's log. *)
Definition logCommittedWAL (w : t) (localWAL : InMemFileWriter.t) : outcome t :=
  _ ← ku_assert (negb (readOnly w));
  if inMemory w || (Z.of_nat (InMemFileWriter.getSize localWAL) =? 0) then mret w
  else
    let '(w, b) := initWriter w in
    b ← flushTo localWAL b;
    b ← flushAndSyncNoLock b;
    mret (set_writer w b).

Definition flushLocalWALNoCommit (w : t) (localWAL : InMemFileWriter.t) : outcome t :=
  _ ← ku_assert (negb (readOnly w));
  if inMemory w || (Z.of_nat (InMemFileWriter.getSize localWAL) =? 0) then mret w
  else
    let '(w, b) := initWriter w in
    b ← flushTo localWAL b;
    b ← flushAndSyncNoLock b;
    mret (set_writer w b).

(** The checkpoint record is its type, one byte. *)
Definition addNewWALRecordNoLock (w : t) (b : BufferedFileWriter.t) (record : bytes) : outcome BufferedFileWriter.t :=
  _ ← ku_assert (negb (inMemory w));
  BufferedFileWriter.write b record.

Definition logAndFlushCheckpoint (w : t) : outcome t :=
  let '(w, b) := initWriter w in
  b ← addNewWALRecordNoLock w b (WALRecord.u8 254);
  b ← flushAndSyncNoLock b;
  mret (set_writer w b).

Definition clear (w : t) : outcome t :=
  match writer w with Some b => mret (set_writer w (BufferedFileWriter.clear b)) | None => Undef end.

(** The writer flushes when it is destroyed, after the file it writes to. *)
Definition reset (w : t) : outcome t :=
  match writer w with
  | Some b =>
      if BufferedFileWriter.bufferOffset b =? 0 then mret (mk (inMemory w) (readOnly w) None None) else Undef
  | None => mret (mk (inMemory w) (readOnly w) None None)
  end.

Definition getFileSize (w : t) : outcome Z :=
  match writer w with Some b => mret (BufferedFileWriter.getSize b) | None => Undef end.
End WAL.

Module LocalWAL.
Section LocalWAL.
Context {E P V : Type}.
Abbreviation record := (WALRecord.t E P V).

(** The calls of [Writer::write] in which a record is written. *)
Context (chunks : record -> list bytes).

(** [flushThreshold]: of the flush context, if one is set. *)
Record t := mk { writer : InMemFileWriter.t; flushThreshold : option Z }.

Definition DEFAULT_WAL_FLUSH_THRESHOLD : Z := 32 * 1024 * 1024.

Definition make : t := mk InMemFileWriter.init None.
Definition setFlushContext (l : t) (threshold : Z) : t := mk (writer l) (Some threshold).

Definition clear (l : t) : t := mk (clearWriter (writer l)) (flushThreshold l).
Definition getSize (l : t) : Z := Z.of_nat (InMemFileWriter.getSize (writer l)).

Definition flushIfNeededNoLock (globalWAL : WAL.t) (l : t) : outcome (WAL.t * t) :=
  match flushThreshold l with
  | None => mret (globalWAL, l)
  | Some walFlushThreshold =>
      if walFlushThreshold <=? getSize l then
        globalWAL ← WAL.flushLocalWALNoCommit globalWAL (writer l);
        mret (globalWAL, clear l)
      else mret (globalWAL, l)
  end.

Fixpoint writeChunks (w : InMemFileWriter.t) (cs : list bytes) : outcome InMemFileWriter.t :=
  match cs with
  | [] => mret w
  | c :: cs => w ← InMemFileWriter.write w c; writeChunks w cs
  end.

Definition addNewWALRecord (globalWAL : WAL.t) (l : t) (walRecord : record) : outcome (WAL.t * t) :=
  w ← writeChunks (writer l) (chunks walRecord);
  flushIfNeededNoLock globalWAL (mk w (flushThreshold l)).

Definition logBeginTransaction (globalWAL : WAL.t) (l : t) : outcome (WAL.t * t) :=
  addNewWALRecord globalWAL l WALRecord.BeginTransactionRecord.
Definition logCommit (globalWAL : WAL.t) (l : t) : outcome (WAL.t * t) :=
  addNewWALRecord globalWAL l WALRecord.CommitRecord.

Definition logCreateCatalogEntryRecord (globalWAL : WAL.t) (l : t) (catalogEntry : E) (isInternal : bool) : outcome (WAL.t * t) :=
  addNewWALRecord globalWAL l (WALRecord.CreateCatalogEntryRecord catalogEntry isInternal).
Definition logDropCatalogEntryRecord (globalWAL : WAL.t) (l : t) (tableID type : Z) : outcome (WAL.t * t) :=
  addNewWALRecord globalWAL l (WALRecord.DropCatalogEntryRecord tableID type).
Definition logAlterCatalogEntryRecord (globalWAL : WAL.t) (l : t) (alterInfo : @WALRecord.BoundAlterInfo P) : outcome (WAL.t * t) :=
  addNewWALRecord globalWAL l (WALRecord.AlterTableEntryRecord alterInfo).
Definition logTableInsertion (globalWAL : WAL.t) (l : t) (tableID tableType numRows : Z) (vectors : list V) : outcome (WAL.t * t) :=
  addNewWALRecord globalWAL l (WALRecord.TableInsertionRecord tableID tableType numRows vectors).
Definition logNodeDeletion (globalWAL : WAL.t) (l : t) (tableID nodeOffset : Z) (pkVector : V) : outcome (WAL.t * t) :=
  addNewWALRecord globalWAL l (WALRecord.NodeDeletionRecord tableID nodeOffset pkVector).
Definition logNodeUpdate (globalWAL : WAL.t) (l : t) (tableID columnID nodeOffset : Z) (propertyVector : V) : outcome (WAL.t * t) :=
  addNewWALRecord globalWAL l (WALRecord.NodeUpdateRecord tableID columnID nodeOffset propertyVector).
Definition logRelDelete (globalWAL : WAL.t) (l : t) (tableID : Z) (srcNodeVector dstNodeVector relIDVector : V) : outcome (WAL.t * t) :=
  addNewWALRecord globalWAL l (WALRecord.RelDeletionRecord tableID srcNodeVector dstNodeVector relIDVector).
Definition logRelDetachDelete (globalWAL : WAL.t) (l : t) (tableID direction : Z) (srcNodeVector : V) : outcome (WAL.t * t) :=
  addNewWALRecord globalWAL l (WALRecord.RelDetachDeleteRecord tableID direction srcNodeVector).
Definition logRelUpdate (globalWAL : WAL.t) (l : t) (tableID columnID : Z) (srcNodeVector dstNodeVector relIDVector propertyVector : V)
  : outcome (WAL.t * t) :=
  addNewWALRecord globalWAL l (WALRecord.RelUpdateRecord tableID columnID srcNodeVector dstNodeVector relIDVector propertyVector).
Definition logUpdateSequenceRecord (globalWAL : WAL.t) (l : t) (sequenceID kCount : Z) : outcome (WAL.t * t) :=
  addNewWALRecord globalWAL l (WALRecord.UpdateSequenceRecord sequenceID kCount).
Definition logLoadExtension (globalWAL : WAL.t) (l : t) (path : string) : outcome (WAL.t * t) :=
  addNewWALRecord globalWAL l (WALRecord.LoadExtensionRecord path).

(** The function that logs a record of the body of a transaction. *)
Definition log (globalWAL : WAL.t) (l : t) (walRecord : record) : outcome (WAL.t * t) :=
  match walRecord with
  | WALRecord.BeginTransactionRecord => logBeginTransaction globalWAL l
  | WALRecord.CommitRecord => logCommit globalWAL l
  | WALRecord.CheckpointRecord | WALRecord.CopyTableRecord _ => Undef
  | WALRecord.CreateCatalogEntryRecord catalogEntry isInternal => logCreateCatalogEntryRecord globalWAL l catalogEntry isInternal
  | WALRecord.DropCatalogEntryRecord entryID entryType => logDropCatalogEntryRecord globalWAL l entryID entryType
  | WALRecord.AlterTableEntryRecord alterInfo => logAlterCatalogEntryRecord globalWAL l alterInfo
  | WALRecord.UpdateSequenceRecord sequenceID kCount => logUpdateSequenceRecord globalWAL l sequenceID kCount
  | WALRecord.TableInsertionRecord tableID tableType numRows vectors => logTableInsertion globalWAL l tableID tableType numRows vectors
  | WALRecord.NodeDeletionRecord tableID nodeOffset pkVector => logNodeDeletion globalWAL l tableID nodeOffset pkVector
  | WALRecord.NodeUpdateRecord tableID columnID nodeOffset v => logNodeUpdate globalWAL l tableID columnID nodeOffset v
  | WALRecord.RelDeletionRecord tableID src dst rel => logRelDelete globalWAL l tableID src dst rel
  | WALRecord.RelDetachDeleteRecord tableID direction src => logRelDetachDelete globalWAL l tableID direction src
  | WALRecord.RelUpdateRecord tableID columnID src dst rel v => logRelUpdate globalWAL l tableID columnID src dst rel v
  | WALRecord.LoadExtensionRecord path => logLoadExtension globalWAL l path
  end.

(** The log in [Transaction::Transaction] and [TransactionManager::beginTransaction],
    and its part of [Transaction::commit], for a transaction that writes to disk. *)
Definition beginTransaction (threshold : Z) (wal : WAL.t) : outcome (WAL.t * t) :=
  logBeginTransaction wal (setFlushContext make threshold).

Definition commit (wal : WAL.t) (l : t) : outcome (WAL.t * t) :=
  '(wal, l) ← logCommit wal l;
  wal ← WAL.logCommittedWAL wal (writer l);
  mret (wal, clear l).
End LocalWAL.
End LocalWAL.
