(* ===== verification/WALFacts.v ===== *)
(** Facts on the write-ahead log: what a transaction's log holds, what is appended
    to the file, and what is safe on disk. *)
From S2P Require Import Prelude Serializer FreeSpaceManager InMemFileWriter Decoder BufferedFile BufferedFileFacts WALRecord WAL.
Import WriterFacts.
Local Open Scope Z_scope.

(** ** Flushing the pages of a log *)

Lemma mapM_map_Some (bs : bytes) : mapM id (map Some bs) = Some bs.
Proof. apply mapM_Some, Forall2_fmap_l, Forall_Forall2_diag. by apply Forall_true. Qed.

Lemma map_Some_inj (a b : bytes) : map Some a = map Some b -> a = b.
Proof. intros H. apply (f_equal (mapM id)) in H. rewrite !mapM_map_Some in H. by injection H. Qed.

Lemma flushPages_run ps i n off f d data disk :
  holds f d disk ->
  concat (imap (fun j page => take (if (i + j =? n - 1)%nat then off else KUZU_PAGE_SIZE) page) ps) = map Some data ->
  exists f', flushPages i ps n off f = Ret f' /\ holds f' (d ++ data) disk.
Proof.
  revert i f d data. induction ps as [|page ps IH]; intros i f d data Hh Hc; cbn [flushPages imap concat] in *.
  - exists f. split; [done|]. destruct data; [|done]. by rewrite app_nil_r.
  - rewrite Nat.add_0_r in Hc. set (m := if (i =? n - 1)%nat then off else KUZU_PAGE_SIZE) in *.
    symmetry in Hc. apply map_eq_app in Hc as (d1 & d2 & -> & H1 & H2).
    unfold initialised. rewrite <-H1, mapM_map_Some. cbn [mbind outcome_bind mret outcome_ret].
    destruct (write_run f d disk d1 Hh) as (f1 & -> & Hh1). cbn [mbind outcome_bind].
    destruct (IH (S i) f1 (d ++ d1) d2 Hh1) as (f2 & -> & Hh2).
    + rewrite H2. f_equal. apply imap_ext. intros j page' _. cbn. by rewrite Nat.add_succ_r.
    + exists f2. split; [done|]. by rewrite app_assoc.
Qed.

Lemma flushTo_run w f d data disk : InMemFileWriter.repr w data -> holds f d disk ->
  exists f', flushTo w f = Ret f' /\ holds f' (d ++ data) disk.
Proof. intros Hr Hh. apply (flushPages_run _ 0); [done|]. by apply InMemFileWriter.flush_bytes_spec in Hr. Qed.

(** ** The file of the log *)

(** The writer, if there is one, holds [data] at the end of the file, all of it safe;
    without one, the file that is there has it. *)
Definition logged (w : WAL.t) (data : bytes) : Prop :=
  match WAL.writer w with
  | Some b => holds b data (size data) /\ BufferedFileWriter.bufferOffset b = 0
  | None => match WAL.walFile w with Some f => content f = data /\ synced f = size data | None => data = [] end
  end.

Lemma logged_file w data f : logged w data -> WAL.file w = Some f -> content f = data /\ synced f = size data.
Proof.
  unfold logged, WAL.file. destruct (WAL.writer w) as [b|].
  - intros [(Hb & Ho & Hf & Hs & Hd & Hdata) Hz] [= <-]. rewrite Hz in Hdata.
    change (take (Z.to_nat 0) (BufferedFileWriter.buffer b)) with (@nil Z) in Hdata. rewrite app_nil_r in Hdata. done.
  - by intros H E; rewrite E in H.
Qed.

Lemma initWriter_run w data : logged w data -> exists w' b, WAL.initWriter w = (w', b) /\ holds b data (size data) /\
  WAL.inMemory w' = WAL.inMemory w /\ WAL.readOnly w' = WAL.readOnly w.
Proof.
  unfold logged, WAL.initWriter. destruct (WAL.writer w) as [b|].
  - intros [Hh _]. by exists w, b.
  - intros Hf. eexists _, _. split; [done|]. split; [|done]. destruct (WAL.walFile w) as [f|].
    + destruct Hf as [<- Hs]. pose proof (size_nonneg (content f)). pose proof (make_holds f ltac:(lia)) as Hm. by rewrite Hs in Hm.
    + subst data. exact (make_holds (mk_file [] 0) ltac:(done)).
Qed.

Lemma flushAndSync_run b data disk : holds b data disk ->
  exists b', WAL.flushAndSyncNoLock b = Ret b' /\ holds b' data (size data) /\ BufferedFileWriter.bufferOffset b' = 0.
Proof.
  intros Hh. unfold WAL.flushAndSyncNoLock. destruct (flush_run b data disk Hh) as (b1 & -> & Hh1 & _ & Hz). cbn [mbind outcome_bind].
  eexists. split; [done|]. split; [by eapply sync_holds|done].
Qed.

(** Appending a transaction's log to the file of a log on disk. *)
Definition on_disk (w : WAL.t) : Prop := WAL.inMemory w = false /\ WAL.readOnly w = false.

Lemma append_run w data local more :
  on_disk w -> logged w data -> InMemFileWriter.repr local more -> InMemFileWriter.tight local ->
  exists w', WAL.logCommittedWAL w local = Ret w' /\ logged w' (data ++ more) /\ on_disk w' /\ (more = [] -> w' = w).
Proof.
  intros [Hm Ho] Hl Hr Ht. unfold WAL.logCommittedWAL. rewrite Hm, Ho. cbn [negb ku_assert mbind outcome_bind orb].
  destruct (InMemFileWriter.repr_pages _ _ Hr Ht) as [_ Hsz]. destruct (Z.eqb_spec (Z.of_nat (InMemFileWriter.getSize local)) 0) as [E|Hne].
  - destruct more; [|rewrite Hsz in E; cbn in E; lia]. exists w. by rewrite app_nil_r.
  - destruct (initWriter_run w data Hl) as (w1 & b & -> & Hb & Hm1 & Ho1).
    destruct (flushTo_run local b data more (size data) Hr Hb) as (b1 & -> & Hb1). cbn [mbind outcome_bind].
    destruct (flushAndSync_run b1 _ _ Hb1) as (b2 & -> & Hb2 & Hz). cbn [mbind outcome_bind].
    eexists. split; [done|]. split_and!; [by split|split; cbn; congruence|]. intros ->. by rewrite Hsz in Hne.
Qed.

Lemma flush_is_append w local : WAL.flushLocalWALNoCommit w local = WAL.logCommittedWAL w local.
Proof. done. Qed.

(** ** The log of a transaction *)

Section local.
Context {E P V : Type} (entry : wire E) (property : wire P) (vector : wire V).
Abbreviation record := (WALRecord.t E P V).
Context (chunks : record -> list bytes).
Abbreviation ser := (WALRecord.serialize entry property vector).
Hypothesis chunks_serialize : forall r, concat (chunks r) = ser r.

(** The log in memory holds [more]. *)
Definition holds_local (l : LocalWAL.t) (more : bytes) : Prop :=
  InMemFileWriter.repr (LocalWAL.writer l) more /\ InMemFileWriter.tight (LocalWAL.writer l).

Lemma writeChunks_run w data cs : InMemFileWriter.repr w data -> InMemFileWriter.tight w ->
  exists w', LocalWAL.writeChunks w cs = Ret w' /\ InMemFileWriter.repr w' (data ++ concat cs) /\ InMemFileWriter.tight w'.
Proof.
  revert w data. induction cs as [|c cs IH]; intros w data Hr Ht; cbn [LocalWAL.writeChunks concat].
  - exists w. by rewrite app_nil_r.
  - destruct (InMemFileWriter.write_spec w data c Hr Ht) as (w1 & -> & Hr1 & Ht1). cbn [mbind outcome_bind].
    destruct (IH w1 _ Hr1 Ht1) as (w2 & -> & Hr2 & Ht2). exists w2. by rewrite app_assoc.
Qed.

Lemma clear_local l : holds_local (LocalWAL.clear l) [].
Proof. unfold holds_local, LocalWAL.clear, clearWriter. cbn. apply InMemFileWriter.repr_init. Qed.

(** A record goes to the log in memory, which is moved to the file when it has
    grown to the threshold. *)
Lemma addNewWALRecord_run w l data more r th :
  on_disk w -> logged w data -> holds_local l more -> LocalWAL.flushThreshold l = Some th ->
  exists w' l', LocalWAL.addNewWALRecord chunks w l r = Ret (w', l') /\ on_disk w' /\ LocalWAL.flushThreshold l' = Some th /\
    if th <=? size (more ++ ser r) then logged w' (data ++ more ++ ser r) /\ holds_local l' []
    else w' = w /\ holds_local l' (more ++ ser r).
Proof.
  intros Hd Hl [Hr Ht] Hth. unfold LocalWAL.addNewWALRecord.
  destruct (writeChunks_run (LocalWAL.writer l) more (chunks r) Hr Ht) as (b & -> & Hr1 & Ht1). cbn [mbind outcome_bind].
  rewrite chunks_serialize in Hr1. unfold LocalWAL.flushIfNeededNoLock. cbn [LocalWAL.flushThreshold LocalWAL.writer]. rewrite Hth.
  destruct (InMemFileWriter.repr_pages _ _ Hr1 Ht1) as [_ Hsz].
  assert (LocalWAL.getSize (LocalWAL.mk b (Some th)) = size (more ++ ser r)) as ->
    by (unfold LocalWAL.getSize, size; cbn [LocalWAL.writer]; by rewrite Hsz).
  destruct (th <=? size (more ++ ser r)).
  - rewrite flush_is_append. destruct (append_run w data b (more ++ ser r) Hd Hl Hr1 Ht1) as (w1 & -> & Hl1 & Hd1 & _).
    cbn [mbind outcome_bind]. eexists _, _. split; [done|]. split_and!; [done|done|done|apply clear_local].
  - by exists w, (LocalWAL.mk b (Some th)).
Qed.

(** The commit of a transaction: all of its log is in the file, and safe. *)
Lemma local_commit_run w l data more th :
  on_disk w -> logged w data -> holds_local l more -> LocalWAL.flushThreshold l = Some th ->
  exists w' l', LocalWAL.commit chunks w l = Ret (w', l') /\ on_disk w' /\ logged w' (data ++ more ++ ser WALRecord.CommitRecord).
Proof.
  intros Hd Hl Hh Hth. unfold LocalWAL.commit, LocalWAL.logCommit.
  destruct (addNewWALRecord_run w l data more WALRecord.CommitRecord th Hd Hl Hh Hth) as (w1 & l1 & -> & Hd1 & _ & Hcase).
  cbn [mbind outcome_bind]. destruct (th <=? _).
  - destruct Hcase as [Hl1 [Hr1 Ht1]]. destruct (append_run w1 _ (LocalWAL.writer l1) [] Hd1 Hl1 Hr1 Ht1) as (w2 & -> & Hl2 & Hd2 & _).
    cbn [mbind outcome_bind]. eexists _, _. split; [done|]. rewrite app_nil_r in Hl2. by split.
  - destruct Hcase as [-> [Hr1 Ht1]]. destruct (append_run w data (LocalWAL.writer l1) _ Hd Hl Hr1 Ht1) as (w2 & -> & Hl2 & Hd2 & _).
    cbn [mbind outcome_bind]. eexists _, _. split; [done|]. by split.
Qed.
End local.

(** A checkpoint record is appended to the file; the file is then emptied and
    removed. *)
Lemma logAndFlushCheckpoint_run w data : on_disk w -> logged w data ->
  exists w' b, WAL.logAndFlushCheckpoint w = Ret w' /\ on_disk w' /\ WAL.writer w' = Some b /\ logged w' (data ++ [254]).
Proof.
  intros [Hm Ho] Hl. unfold WAL.logAndFlushCheckpoint. destruct (initWriter_run w data Hl) as (w1 & b & -> & Hb & Hm1 & Ho1).
  unfold WAL.addNewWALRecordNoLock. rewrite Hm1, Hm. cbn [negb ku_assert mbind outcome_bind].
  destruct (write_run b data _ (WALRecord.u8 254) Hb) as (b1 & -> & Hb1). cbn [mbind outcome_bind].
  destruct (flushAndSync_run b1 _ _ Hb1) as (b2 & -> & Hb2 & Hz). cbn [mbind outcome_bind].
  eexists _, b2. split; [done|]. split_and!; [split; cbn; congruence|done|by split].
Qed.
