(* ===== verification/WALReplayer.v ===== *)
(** Recovery ([storage/wal/wal_replayer.cpp], [wal_replayer.h]): the log is read once
    to find its last commit or checkpoint, and once more to do again what it says up
    to there. What the records do to the database is behind the interface
    [Recovery]. *)
From S2P Require Import Prelude Effects Serializer Decoder BufferedFile WALRecord.
Local Open Scope Z_scope.

(** The database as recovery sees it: the checkpointed state, the transaction of the
    recovering connection, and a handler for each record. *)
Class Recovery (E P V W : Type) := {
  readCheckpoint : M W unit;
  replayShadowPageRecords : M W unit;
  hasActiveTransaction : W -> bool;
  beginRecoveryTransaction : M W unit;
  commitTransaction : M W unit;
  rollbackTransaction : M W unit;
  writeRecoveryCheckpoint : M W unit;
  reconcileAfterRecovery : M W unit;
  replayCreateCatalogEntryRecord : E -> bool -> M W unit;
  replayDropCatalogEntryRecord : Z -> Z -> M W unit;
  replayAlterTableEntryRecord : @WALRecord.BoundAlterInfo P -> M W unit;
  replayUpdateSequenceRecord : Z -> Z -> M W unit;
  replayNodeTableInsertRecord : Z -> Z -> list V -> M W unit;
  replayRelTableInsertRecord : Z -> Z -> list V -> M W unit;
  replayNodeDeletionRecord : Z -> Z -> V -> M W unit;
  replayNodeUpdateRecord : Z -> Z -> Z -> V -> M W unit;
  replayRelDeletionRecord : Z -> V -> V -> V -> M W unit;
  replayRelDetachDeletionRecord : Z -> Z -> V -> M W unit;
  replayRelUpdateRecord : Z -> Z -> V -> V -> V -> V -> M W unit;
  replayLoadExtensionRecord : string -> M W unit;
}.

Module WALReplayer.
Section WALReplayer.
Context {E P V W : Type} `{Recovery E P V W} (entry : wire E) (property : wire P) (vector : wire V).
(** Of the database configuration. *)
Context (isInMemory isReadOnly : bool).
Abbreviation record := (WALRecord.t E P V).
Abbreviation deserialize := (WALRecord.deserialize entry property vector).

Record t := mk { walFile : option FileInfo; shadowFile : bool; world : W }.

Definition on_world {A} (m : M W A) : M t A := fun s =>
  let '(r, w) := m (world s) in (r, mk (walFile s) (shadowFile s) w).

(** ** Finding the last commit *)

(** The loop reads one record at least in every round; an exception ends it. *)
Fixpoint dryLoop (fuel : nat) (reader : BufferedFileReader.t) (offsetDeserialized : Z) : outcome (Z * bool) :=
  match fuel with
  | O => Undef
  | S fuel =>
      match BufferedFileReader.exec deserialize reader with
      | Ret (walRecord, reader) =>
          let finishedDeserializing := BufferedFileReader.finished reader in
          match walRecord with
          | WALRecord.CheckpointRecord =>
              _ ← ku_assert finishedDeserializing;
              mret (BufferedFileReader.getReadOffset reader, true)
          | WALRecord.CommitRecord =>
              let offsetDeserialized := BufferedFileReader.getReadOffset reader in
              if finishedDeserializing then mret (offsetDeserialized, false) else dryLoop fuel reader offsetDeserialized
          | _ => if finishedDeserializing then mret (offsetDeserialized, false) else dryLoop fuel reader offsetDeserialized
          end
      | Throw _ => mret (offsetDeserialized, false)
      | Undef => Undef
      end
  end.

(** The offset to replay to, and whether a checkpoint is the last record. *)
Definition dryReplay (fileInfo : FileInfo) : outcome (Z * bool) :=
  match BufferedFileReader.make fileInfo with
  | Ret reader =>
      if BufferedFileReader.finished reader then mret (0, false) else dryLoop (length (content fileInfo)) reader 0
  | Throw _ => mret (0, false)
  | Undef => Undef
  end.

(** ** Doing it again *)

Definition performRecoveryCheckpoint : M W unit :=
  if isInMemory then mret tt
  else try_catch writeRecoveryCheckpoint (fun _ => mret tt).

Definition replayTableInsertionRecord (tableID tableType numRows : Z) (vectors : list V) : M W unit :=
  match tableType with
  | 1 => replayNodeTableInsertRecord tableID numRows vectors
  | 2 => replayRelTableInsertRecord tableID numRows vectors
  | _ => throw (RuntimeException "Invalid table type for insertion replay in WAL record.")
  end.

Definition replayWALRecord (walRecord : record) : M W unit :=
  match walRecord with
  | WALRecord.BeginTransactionRecord => beginRecoveryTransaction
  | WALRecord.CommitRecord => commitTransaction;; performRecoveryCheckpoint
  | WALRecord.CreateCatalogEntryRecord catalogEntry isInternal => replayCreateCatalogEntryRecord catalogEntry isInternal
  | WALRecord.DropCatalogEntryRecord entryID entryType => replayDropCatalogEntryRecord entryID entryType
  | WALRecord.AlterTableEntryRecord alterInfo => replayAlterTableEntryRecord alterInfo
  | WALRecord.TableInsertionRecord tableID tableType numRows vectors => replayTableInsertionRecord tableID tableType numRows vectors
  | WALRecord.NodeDeletionRecord tableID nodeOffset pk => replayNodeDeletionRecord tableID nodeOffset pk
  | WALRecord.NodeUpdateRecord tableID columnID nodeOffset v => replayNodeUpdateRecord tableID columnID nodeOffset v
  | WALRecord.RelDeletionRecord tableID src dst rel => replayRelDeletionRecord tableID src dst rel
  | WALRecord.RelDetachDeleteRecord tableID direction src => replayRelDetachDeletionRecord tableID direction src
  | WALRecord.RelUpdateRecord tableID columnID src dst rel v => replayRelUpdateRecord tableID columnID src dst rel v
  | WALRecord.CopyTableRecord _ => mret tt
  | WALRecord.UpdateSequenceRecord sequenceID kCount => replayUpdateSequenceRecord sequenceID kCount
  | WALRecord.LoadExtensionRecord path => replayLoadExtensionRecord path
  | WALRecord.CheckpointRecord => undef
  end.

Fixpoint replayLoop (fuel : nat) (reader : BufferedFileReader.t) (offsetDeserialized : Z) : M W unit :=
  if BufferedFileReader.getReadOffset reader <? offsetDeserialized then
    match fuel with
    | O => undef
    | S fuel =>
        lift (ku_assert (negb (BufferedFileReader.finished reader)));;
        '(walRecord, reader) ← lift (BufferedFileReader.exec deserialize reader);
        replayWALRecord walRecord;;
        replayLoop fuel reader offsetDeserialized
    end
  else mret tt.

(** ** Files *)

Definition removeWAL : M t unit := when (negb isReadOnly) (modify (fun s => mk None (shadowFile s) (world s))).
Definition removeShadow : M t unit := when (negb isReadOnly) (modify (fun s => mk (walFile s) false (world s))).
Definition removeWALAndShadowFiles : M t unit := removeShadow;; removeWAL.

Definition syncWALFile : M t unit :=
  when (negb isReadOnly) (modify (fun s => mk (syncFile <$> walFile s) (shadowFile s) (world s))).

Definition truncateWALFile (n : Z) : M t unit :=
  when (negb isReadOnly)
    (modify (fun s => mk ((fun f => if n <? size (content f) then syncFile (truncate f n) else f) <$> walFile s) (shadowFile s) (world s))).

(** The replay within its [try]. *)
Definition replayFile (fileInfo : FileInfo) : M t unit :=
  '(offsetDeserialized, isLastRecordCheckpoint) ← lift (dryReplay fileInfo);
  if isLastRecordCheckpoint : bool then
    on_world replayShadowPageRecords;;
    removeWALAndShadowFiles;;
    on_world readCheckpoint
  else
    removeShadow;;
    on_world readCheckpoint;;
    reader ← lift (BufferedFileReader.make fileInfo);
    on_world (replayLoop (length (content fileInfo)) reader offsetDeserialized);;
    on_world reconcileAfterRecovery;;
    truncateWALFile offsetDeserialized.

Definition replay : M t unit :=
  s ← get;
  match walFile s with
  | None => removeShadow;; on_world readCheckpoint
  | Some fileInfo =>
      if size (content fileInfo) =? 0 then removeWALAndShadowFiles;; on_world readCheckpoint
      else
        syncWALFile;;
        try_catch (replayFile fileInfo)
          (fun _ =>
             s ← get;
             when (hasActiveTransaction (world s)) (on_world rollbackTransaction);;
             removeWALAndShadowFiles;;
             on_world readCheckpoint)
  end.
End WALReplayer.
Arguments t W : clear implicits.
End WALReplayer.
