(* ===== verification/WALReplayerFacts.v ===== *)
(** Facts on recovery: what the two passes make of a log of whole records, and of
    one whose end is torn. *)
From S2P Require Import Prelude Effects Serializer Decoder BufferedFile BufferedFileFacts WALRecord WALReplayer.
Import BufferedFileReader ReaderFacts WALReplayer.
Local Open Scope Z_scope.

(** ** What a deserialiser can return *)

Fixpoint returns {A} (Q : A -> Prop) (d : decoder A) : Prop :=
  match d with Done a => Q a | Read _ k => forall bs, returns Q (k bs) | _ => True end.

Lemma returns_bind {A B} (Q : B -> Prop) (d : decoder A) (f : A -> decoder B) : (forall a, returns Q (f a)) -> returns Q (mbind f d).
Proof. intros Hf. induction d as [a|n k IH|e|]; cbn; [apply Hf|apply IH|done..]. Qed.

Lemma exec_returns {A} (Q : A -> Prop) (d : decoder A) r a r' : returns Q d -> exec d r = Ret (a, r') -> Q a.
Proof.
  revert r. induction d as [x|n k IH|e|]; intros r; cbn [returns exec]; [by intros ? [= <- _]| |done..].
  intros Hq Hrun. apply outcome_bind_Ret_inv in Hrun as ((data & r1) & _ & Hrun). by apply (IH data r1).
Qed.

Section records.
Context {E P V : Type} (entry : wire E) (property : wire P) (vector : wire V).
Abbreviation record := (WALRecord.t E P V).
Abbreviation ser := (WALRecord.serialize entry property vector).
Abbreviation deserialize := (WALRecord.deserialize entry property vector).
Abbreviation record_ok := (WALRecord.record_ok entry property vector).

Definition ser_all (rs : list record) : bytes := concat (map ser rs).

Lemma ser_all_app rs rs' : ser_all (rs ++ rs') = ser_all rs ++ ser_all rs'.
Proof. unfold ser_all. by rewrite map_app, concat_app. Qed.

Lemma ser_pos r : 0 < size (ser r).
Proof. destruct (WALRecord.serialize_cons entry property vector r) as [bs ->]. unfold size. cbn [length]. lia. Qed.

Lemma returns_type (r : record) : returns (fun r' => WALRecord.type r' = WALRecord.type r) (WALRecord.deserializeFields entry property vector (WALRecord.type r)).
Proof.
  destruct r; cbn [WALRecord.type WALRecord.deserializeFields]; try done; repeat (apply returns_bind; intros ?); done.
Qed.

(** Reading a whole record. *)
Lemma exec_record F rd pos r rest : reads F rd pos -> record_ok r -> drop (Z.to_nat pos) F = ser r ++ rest ->
  exists rd', exec deserialize rd = Ret (r, rd') /\ reads F rd' (pos + size (ser r)).
Proof.
  intros Hr Hok Hd. pose proof (exec_run deserialize F rd pos (Ret r) rest Hr) as Hrun. rewrite Hd in Hrun.
  destruct (Hrun (WALRecord.parse_record entry property vector r rest Hok)) as (rd' & He & Hr'). exists rd'. split; [done|].
  pose proof Hr as (_ & _ & _ & ? & ? & ? & ? & ? & _). assert (size (drop (Z.to_nat pos) F) = size F - pos) as Hs by (apply size_drop; lia).
  rewrite Hd, size_app in Hs. by replace (pos + size (ser r)) with (size F - size rest) by lia.
Qed.

(** ** A torn record *)

Definition torn (tail : bytes) : Prop := exists r more, record_ok r /\ more <> [] /\ tail ++ more = ser r.

Lemma torn_parse tail : torn tail -> parse deserialize tail = None.
Proof.
  intros (r & more & Hok & Hne & Heq). apply (parse_prefix _ _ more (Ret r)); [|done]. rewrite Heq.
  pose proof (WALRecord.parse_record entry property vector r [] Hok) as Hp. by rewrite app_nil_r in Hp.
Qed.

(** If reading it returns at all, the reader is past the end and the record is none
    that ends a replay. *)
Lemma torn_exec F rd pos tail r rd' : reads F rd pos -> drop (Z.to_nat pos) F = tail -> tail <> [] -> torn tail ->
  exec deserialize rd = Ret (r, rd') -> finished rd' = true /\ r <> WALRecord.CommitRecord /\ r <> WALRecord.CheckpointRecord.
Proof.
  intros Hr Hd Hne Ht Hrun. pose proof (torn_parse tail Ht) as Hpar. rewrite <-Hd in Hpar.
  pose proof (exec_past _ _ _ _ _ _ Hr Hpar Hrun) as (_ & Hf & _ & Hb & _). split.
  { unfold finished. by rewrite (proj2 (Z.leb_le _ _)), (proj2 (Z.leb_le _ _)) by lia. }
  destruct Ht as (r0 & more & Hok & Hm & Heq). destruct (WALRecord.serialize_cons entry property vector r0) as [bs Hser].
  destruct tail as [|b tail]; [done|]. rewrite Hser in Heq. injection Heq as -> Heq.
  assert (WALRecord.type r = WALRecord.type r0) as Hty.
  { pose proof Hr as (_ & _ & _ & ? & ? & ? & ? & ? & _). assert (size (drop (Z.to_nat pos) F) = size F - pos) as Hs by (apply size_drop; lia).
    rewrite Hd in Hs. unfold size in Hs at 1. cbn [length] in Hs.
    destruct (read_run F rd pos 1 Hr ltac:(lia) ltac:(lia)) as (rd1 & Hread & Hr1).
    change (exec (Read 1 (fun bs => WALRecord.deserializeFields entry property vector (le_value bs))) rd = Ret (r, rd')) in Hrun.
    cbn [exec] in Hrun. rewrite Hread, Hd in Hrun. cbn [mbind outcome_bind] in Hrun.
    change (take (Z.to_nat 1) (WALRecord.type r0 :: tail)) with [WALRecord.type r0] in Hrun. cbn [le_value] in Hrun.
    rewrite Z.mul_0_r, Z.add_0_r in Hrun. exact (exec_returns _ _ _ _ _ (returns_type r0) Hrun). }
  assert (WALRecord.type r0 <> 2 /\ WALRecord.type r0 <> 254) as [H2 H254].
  { destruct r0; cbn [WALRecord.type]; try (split; congruence); cbn in Hser; injection Hser as <-; by apply app_eq_nil in Heq as [_ ->]. }
  split; intros ->; cbn [WALRecord.type] in Hty; congruence.
Qed.

(** With the page of its start in the buffer, and reads of at most a page, it ends
    with an exception. *)
Definition in_last_page (fileSize start : Z) : Prop := BUFFER_SIZE * ((fileSize - 1) / BUFFER_SIZE) <= start.

Lemma torn_eof F rd pos tail : reads F rd pos -> paged rd -> drop (Z.to_nat pos) F = tail -> tail <> [] -> torn tail ->
  small BUFFER_SIZE deserialize tail = true -> in_last_page (size F) pos -> exec deserialize rd = Throw EOF.
Proof.
  intros Hr Hpg Hd Hne Ht Hs Hl. pose proof (torn_parse tail Ht) as Hpar. destruct tail as [|b tail]; [done|].
  set (k := fun bs => WALRecord.deserializeFields entry property vector (le_value bs)).
  change deserialize with (Read 1 k) in *. cbn [parse small exec] in *.
  pose proof Hr as (_ & _ & _ & ? & ? & ? & ? & ? & _). assert (size (drop (Z.to_nat pos) F) = size F - pos) as Hsz by (apply size_drop; lia).
  rewrite Hd in Hsz. unfold size in Hsz at 1. cbn [length] in Hsz, Hpar, Hs.
  change (1 <=? BUFFER_SIZE) with true in Hs. change (1 <? 0) with false in Hpar. change (0 <=? 1) with true in Hs.
  rewrite (proj2 (Z.leb_le 1 (Z.of_nat _))) in Hs, Hpar by lia. cbn [andb] in Hs, Hpar.
  change (take (Z.to_nat 1) (b :: tail)) with [b] in *. change (drop (Z.to_nat 1) (b :: tail)) with tail in *.
  destruct (read_run F rd pos 1 Hr ltac:(lia) ltac:(lia)) as (rd1 & Hread & Hr1). rewrite Hread, Hd. cbn [mbind outcome_bind].
  assert (drop (Z.to_nat (pos + 1)) F = tail) as Hd1.
  { rewrite Z2Nat.inj_add by lia. rewrite <-drop_drop, Hd. done. }
  apply (exec_eof _ F rd1 (pos + 1)); rewrite ?Hd1; try done.
  apply (paged_last F rd1 (pos + 1) pos); try done; [|lia].
  by apply (read_paged F rd pos 1 (take (Z.to_nat 1) (drop (Z.to_nat pos) F))); [| |unfold BUFFER_SIZE; lia|lia|].
Qed.

(** ** The dry run *)

Definition is_commit (r : record) : bool := match r with WALRecord.CommitRecord => true | _ => false end.
Definition is_checkpoint (r : record) : bool := match r with WALRecord.CheckpointRecord => true | _ => false end.

(** The records up to the last commit. *)
Fixpoint committed (rs : list record) : list record :=
  match rs with
  | [] => []
  | r :: rs' => match committed rs' with [] => if is_commit r then [r] else [] | l => r :: l end
  end.

Definition commit_offset (pos off : Z) (rs : list record) : Z :=
  match committed rs with [] => off | l => pos + size (ser_all l) end.

Lemma commit_offset_cons pos off r rs :
  commit_offset pos off (r :: rs) = commit_offset (pos + size (ser r)) (if is_commit r then pos + size (ser r) else off) rs.
Proof.
  unfold commit_offset. cbn [committed]. destruct (committed rs) as [|r' l].
  - destruct (is_commit r); [|done]. unfold ser_all. cbn [map concat]. rewrite app_nil_r. done.
  - unfold ser_all. cbn [map concat]. rewrite !size_app. lia.
Qed.

Lemma commit_offset_zero rs : commit_offset 0 0 rs = size (ser_all (committed rs)).
Proof. unfold commit_offset. by destruct (committed rs). Qed.

(** Over whole records, of which none is a checkpoint. *)
Lemma dry_records F rs tail fuel rd pos off :
  reads F rd pos -> Forall record_ok rs -> forallb (fun r => negb (is_checkpoint r)) rs = true ->
  drop (Z.to_nat pos) F = ser_all rs ++ tail -> (rs <> [] \/ tail <> []) ->
  (tail = [] -> dryLoop entry property vector (length rs + fuel) rd off = Ret (commit_offset pos off rs, false)) /\
  (tail <> [] -> exists rd', reads F rd' (pos + size (ser_all rs)) /\
     dryLoop entry property vector (length rs + fuel) rd off = dryLoop entry property vector fuel rd' (commit_offset pos off rs) /\
     (paged rd -> forallb (fun r => small BUFFER_SIZE deserialize (ser r)) rs = true -> paged rd')).
Proof.
  revert rd pos off. induction rs as [|r rs IH]; intros rd pos off Hr Hok Hck Hd Hne.
  - split; [by intros ->; destruct Hne|]. intros Ht. exists rd. split; [|done].
    change (size (ser_all [])) with 0. by rewrite Z.add_0_r.
  - apply Forall_cons in Hok as [Hok1 Hok]. cbn [forallb] in Hck. apply andb_true_iff in Hck as [Hck1 Hck].
    change (ser_all (r :: rs)) with (ser r ++ ser_all rs) in *. rewrite <-app_assoc in Hd.
    destruct (exec_record F rd pos r _ Hr Hok1 Hd) as (rd1 & He & Hr1).
    assert (drop (Z.to_nat (pos + size (ser r))) F = ser_all rs ++ tail) as Hd1.
    { pose proof Hr as (_ & _ & _ & ? & ? & ? & ? & ? & _). pose proof (ser_pos r). rewrite Z2Nat.inj_add by lia.
      rewrite <-drop_drop, Hd. apply drop_app_length'. unfold size. lia. }
    assert (size F = pos + size (ser r) + size (ser_all rs ++ tail)) as HF.
    { pose proof Hr as (_ & _ & _ & ? & ? & ? & ? & ? & _). apply (f_equal size) in Hd. rewrite size_drop, size_app in Hd by lia. lia. }
    set (off1 := if is_commit r then pos + size (ser r) else off).
    assert (dryLoop entry property vector (length (r :: rs) + fuel) rd off =
      if size F <=? pos + size (ser r) then Ret (off1, false) else dryLoop entry property vector (length rs + fuel) rd1 off1) as Hstep.
    { cbn [length Nat.add dryLoop]. rewrite He, (finished_reads F _ _ Hr1), (getReadOffset_reads F _ _ Hr1).
      destruct r; try done; by destruct (_ <=? _). }
    rewrite Hstep, commit_offset_cons. fold off1. pose proof (size_nonneg (ser_all rs ++ tail)).
    destruct (Z.leb_spec (size F) (pos + size (ser r))) as [Hend|Hmore].
    + assert (ser_all rs ++ tail = []) as Hnil by (destruct (ser_all rs ++ tail); [done|unfold size in *; cbn in *; lia]).
      apply app_eq_nil in Hnil as [Hrs ->]. destruct rs as [|r' rs]; [by split|].
      pose proof (ser_pos r'). change (ser_all (r' :: rs)) with (ser r' ++ ser_all rs) in Hrs. apply app_eq_nil in Hrs as [Hr' _].
      rewrite Hr' in *. done.
    + assert (rs <> [] \/ tail <> []) as Hne1.
      { destruct rs; [|by left]. right. intros ->. change (size (ser_all [] ++ [])) with 0 in HF. lia. }
      destruct (IH rd1 _ off1 Hr1 Hok Hck Hd1 Hne1) as [Hwhole Htail]. split; [done|]. intros Ht.
      destruct (Htail Ht) as (rd' & Hr' & Hrun & Hpg). exists rd'. split; [|split; [done|]].
      * by rewrite size_app, Z.add_assoc.
      * cbn [forallb]. intros Hp [Hs1 Hs]%andb_true_iff. apply Hpg; [|done].
        pose proof (WALRecord.parse_record entry property vector r (ser_all rs ++ tail) Hok1) as Hpar.
        apply (exec_paged deserialize F rd pos r (ser_all rs ++ tail)); [done|done| |by rewrite Hd|done].
        rewrite Hd. pose proof (WALRecord.parse_record entry property vector r [] Hok1) as Hpar0. rewrite app_nil_r in Hpar0.
        by rewrite (small_extend _ _ _ _ _ Hpar0).
Qed.

Lemma length_ser_all rs : Z.of_nat (length rs) <= size (ser_all rs).
Proof.
  induction rs as [|r rs IH]; [done|]. change (ser_all (r :: rs)) with (ser r ++ ser_all rs). rewrite size_app.
  pose proof (ser_pos r). cbn [length]. lia.
Qed.

(** What the dry run is given: whole records, of which none is a checkpoint, and
    perhaps a part of one more. *)
Definition log_of (f : FileInfo) (rs : list record) (tail : bytes) : Prop :=
  content f = ser_all rs ++ tail /\ Forall record_ok rs /\ forallb (fun r => negb (is_checkpoint r)) rs = true /\
  (tail = [] \/ torn tail).

(** Its reads stay within a page, and the part of a record starts in the last page
    of the file. *)
Definition readable (f : FileInfo) (rs : list record) (tail : bytes) : Prop :=
  forallb (fun r => small BUFFER_SIZE deserialize (ser r)) rs = true /\ small BUFFER_SIZE deserialize tail = true /\
  in_last_page (size (content f)) (size (ser_all rs)).

Lemma dry_start f rs tail : log_of f rs tail -> content f <> [] ->
  exists rd fuel, dryReplay entry property vector f = dryLoop entry property vector (length rs + S fuel) rd 0 /\
    reads (content f) rd 0 /\ paged rd /\ (rs <> [] \/ tail <> []).
Proof.
  intros (Hf & Hok & Hck & Ht) Hne. destruct (make_run f Hne) as (rd & Hmake & Hr & Hpg).
  exists rd, (length (content f) - length rs - 1)%nat. unfold dryReplay. rewrite Hmake, (finished_reads _ _ _ Hr).
  assert (0 < size (content f)) by (unfold size; destruct (content f); [done|cbn; lia]).
  rewrite (proj2 (Z.leb_gt _ _)) by lia.
  assert (rs <> [] \/ tail <> []) as Hne'.
  { destruct rs; [|by left]. right. intros ->. by rewrite Hf in Hne. }
  assert (length rs + S (length (content f) - length rs - 1) = length (content f) \/ tail = [] /\ length (content f) = length rs)%nat as [->|[-> Hl]].
  { pose proof (length_ser_all rs) as Hl. apply (f_equal length) in Hf. unfold size in Hl. rewrite length_app in Hf.
    destruct tail as [|b tail]; cbn [length] in Hf; [|left; lia]. destruct (decide (length (content f) = length rs)); [by right|left; lia]. }
  - done.
  - (* one more round than there are records changes nothing *)
    rewrite Hl, Nat.sub_diag. split; [|done]. cbn [Nat.sub]. rewrite app_nil_r in Hf.
    destruct (dry_records (content f) rs [] 0 rd 0 0 Hr Hok Hck) as [H0 _]; [by rewrite Hf, app_nil_r|done|].
    destruct (dry_records (content f) rs [] 1 rd 0 0 Hr Hok Hck) as [H1 _]; [by rewrite Hf, app_nil_r|done|].
    rewrite H1 by done. rewrite Nat.add_0_r in H0. by rewrite H0.
Qed.

Lemma dryReplay_run f rs tail : log_of f rs tail -> content f <> [] ->
  (forall x, dryReplay entry property vector f = Ret x -> x = (size (ser_all (committed rs)), false)) /\
  (tail = [] \/ readable f rs tail -> dryReplay entry property vector f = Ret (size (ser_all (committed rs)), false)).
Proof.
  intros Hlog Hne. destruct (dry_start f rs tail Hlog Hne) as (rd & fuel & -> & Hr & Hpg & Hne'). destruct Hlog as (Hf & Hok & Hck & Ht).
  rewrite <-commit_offset_zero.
  destruct (dry_records (content f) rs tail (S fuel) rd 0 0 Hr Hok Hck Hf Hne') as [Hwhole Htail].
  destruct (decide (tail = [])) as [Hnil|Htne]; [rewrite Hwhole by done; split; [congruence|done]|].
  destruct Ht as [|Ht]; [done|]. destruct (Htail Htne) as (rd' & Hr' & -> & Hpg'). rewrite Z.add_0_l in Hr'.
  assert (drop (Z.to_nat (size (ser_all rs))) (content f) = tail) as Hd.
  { rewrite Hf. apply drop_app_length'. unfold size. lia. }
  split.
  - intros x. cbn [dryLoop]. destruct (exec deserialize rd') as [[r rd1]|e|] eqn:He; [|by intros [= <-]|done].
    destruct (torn_exec _ _ _ tail r rd1 Hr' Hd Htne Ht He) as (Hfin & Hnc & Hnk). rewrite Hfin.
    destruct r; first [by destruct Hnc | by destruct Hnk | by intros [= <-]].
  - intros [|(Hs & Hst & Hlast)]; [done|]. cbn [dryLoop].
    by rewrite (torn_eof _ _ _ tail Hr' (Hpg' Hpg Hs) Hd Htne Ht Hst Hlast).
Qed.

(** A checkpoint record at the end is found. *)
Lemma dryReplay_checkpoint f rs : content f = ser_all rs ++ ser WALRecord.CheckpointRecord ->
  Forall record_ok rs -> forallb (fun r => negb (is_checkpoint r)) rs = true ->
  dryReplay entry property vector f = Ret (size (content f), true).
Proof.
  intros Hf Hok Hck.
  assert (ser WALRecord.CheckpointRecord <> []) as Hcne by (intros Hn; pose proof (ser_pos WALRecord.CheckpointRecord) as Hp; by rewrite Hn in Hp).
  assert (content f <> []) as Hne by (rewrite Hf; intros [_ Hn]%app_eq_nil; done).
  destruct (make_run f Hne) as (rd & Hmake & Hr & Hpg). unfold dryReplay. rewrite Hmake, (finished_reads _ _ _ Hr).
  assert (0 < size (content f)) by (unfold size; destruct (content f); [done|cbn; lia]).
  rewrite (proj2 (Z.leb_gt _ _)) by lia.
  destruct (dry_records (content f) rs _ (S (length (content f) - length rs - 1)) rd 0 0 Hr Hok Hck Hf (or_intror Hcne)) as [_ Htail].
  destruct (Htail Hcne) as (rd' & Hr' & Hrun & _). rewrite Z.add_0_l in Hr'.
  assert (length rs + S (length (content f) - length rs - 1) = length (content f))%nat as Hfuel.
  { pose proof (length_ser_all rs) as Hle. pose proof (ser_pos WALRecord.CheckpointRecord) as Hp. unfold size in *.
    rewrite Hf, length_app. lia. }
  rewrite Hfuel in Hrun. rewrite Hrun. cbn [dryLoop].
  assert (drop (Z.to_nat (size (ser_all rs))) (content f) = ser WALRecord.CheckpointRecord ++ []) as Hd.
  { rewrite Hf, app_nil_r. apply drop_app_length'. unfold size. lia. }
  destruct (exec_record _ _ _ WALRecord.CheckpointRecord _ Hr' I Hd) as (rd1 & -> & Hr1).
  rewrite (finished_reads _ _ _ Hr1), (getReadOffset_reads _ _ _ Hr1).
  assert (size (content f) = size (ser_all rs) + size (ser WALRecord.CheckpointRecord)) as Hsz by (by rewrite Hf, size_app).
  by rewrite ku_assert_true, Hsz by (apply Z.leb_le; lia).
Qed.

(** ** Doing it again *)

Context {W : Type} `{!Recovery E P V W} (isInMemory : bool).

Fixpoint run_records (rs : list record) : M W unit :=
  match rs with
  | [] => mret tt
  | r :: rs => replayWALRecord isInMemory r;; run_records rs
  end.

Lemma replayLoop_run F rs rest fuel rd pos w :
  reads F rd pos -> Forall record_ok rs -> drop (Z.to_nat pos) F = ser_all rs ++ rest -> (length rs <= fuel)%nat ->
  replayLoop entry property vector isInMemory fuel rd (pos + size (ser_all rs)) w = run_records rs w.
Proof.
  revert fuel rd pos w. induction rs as [|r rs IH]; intros fuel rd pos w Hr Hok Hd Hfuel.
  - change (size (ser_all [])) with 0. destruct fuel; cbn [replayLoop run_records]; rewrite (getReadOffset_reads _ _ _ Hr), Z.add_0_r, Z.ltb_irrefl; done.
  - apply Forall_cons in Hok as [Hok1 Hok]. change (ser_all (r :: rs)) with (ser r ++ ser_all rs) in *. rewrite <-app_assoc in Hd.
    destruct fuel as [|fuel]; [cbn in Hfuel; lia|]. cbn [length] in Hfuel. cbn [replayLoop run_records].
    pose proof Hr as (_ & _ & _ & ? & ? & ? & ? & ? & _). pose proof (ser_pos r). pose proof (size_nonneg (ser_all rs)). pose proof (size_nonneg rest).
    rewrite (getReadOffset_reads _ _ _ Hr), size_app. rewrite (proj2 (Z.ltb_lt _ _)) by lia.
    assert (size F - pos = size (ser r) + (size (ser_all rs) + size rest)) as HF.
    { apply (f_equal size) in Hd. rewrite size_drop, !size_app in Hd by lia. lia. }
    rewrite (finished_reads _ _ _ Hr), (proj2 (Z.leb_gt _ _)) by lia.
    destruct (exec_record F rd pos r _ Hr Hok1 Hd) as (rd1 & He & Hr1).
    unfold mbind at 1, M_bind at 1, lift at 1. cbn [negb ku_assert].
    unfold mbind at 1, M_bind at 1, lift at 1. rewrite He. cbn beta iota.
    apply bind_ext; [done|]. intros _ w1.
    rewrite Z.add_assoc. apply IH; [done|done| |lia].
    rewrite Z2Nat.inj_add by lia. rewrite <-drop_drop, Hd. apply drop_app_length'. unfold size. lia.
Qed.

(** A dry run does not throw. *)
Lemma dryReplay_no_throw f e : dryReplay entry property vector f <> Throw e.
Proof.
  assert (forall fuel rd off, dryLoop entry property vector fuel rd off <> Throw e) as Hloop.
  { induction fuel as [|fuel IH]; intros rd off; [done|]. cbn [dryLoop].
    destruct (exec deserialize rd) as [[r rd']|e'|]; [|done..]. destruct r; by destruct (finished rd'). }
  unfold dryReplay. destruct (make f) as [rd|e'|]; [|done..]. by destruct (finished rd).
Qed.

Lemma committed_prefix rs : exists rest, rs = committed rs ++ rest.
Proof.
  induction rs as [|r rs [rest IH]]; [by exists []|]. cbn [committed]. destruct (committed rs) as [|r' l].
  - destruct (is_commit r); [by exists rs|by exists (r :: rs)].
  - exists rest. cbn [app] in *. by rewrite IH at 1.
Qed.

(** What recovery does to the database, of a log of these records. *)
Definition redo (rs : list record) : M W unit := readCheckpoint;; run_records rs;; reconcileAfterRecovery.

Lemma truncate_committed f rs tail : log_of f rs tail ->
  (if size (ser_all (committed rs)) <? size (content (syncFile f))
   then syncFile (truncate (syncFile f) (size (ser_all (committed rs)))) else syncFile f) =
  mk_file (ser_all (committed rs)) (size (ser_all (committed rs))).
Proof.
  intros (Hf & _). destruct (committed_prefix rs) as [rest Hrest].
  assert (content f = ser_all (committed rs) ++ (ser_all rest ++ tail)) as Hc by (rewrite Hf, (f_equal ser_all Hrest), ser_all_app; by rewrite <-app_assoc).
  unfold syncFile, truncate. cbn [content]. rewrite Hc. pose proof (size_nonneg (ser_all rest ++ tail)).
  destruct (Z.ltb_spec (size (ser_all (committed rs))) (size (ser_all (committed rs) ++ ser_all rest ++ tail))) as [Hlt|Hge]; rewrite size_app in *.
  - rewrite take_app_length' by (unfold size; lia). replace (Z.to_nat _) with 0%nat by lia. by rewrite app_nil_r.
  - destruct (ser_all rest ++ tail) as [|b l]; [by rewrite app_nil_r, Z.add_0_r|]. unfold size in *. cbn [length] in *. lia.
Qed.

Lemma replay_run f rs tail sh w : log_of f rs tail -> content f <> [] -> dryReplay entry property vector f <> Undef ->
  replay entry property vector isInMemory false (mk (Some f) sh w) =
    match redo (committed rs) w with
    | (Ret _, w') => (Ret tt, mk (Some (mk_file (ser_all (committed rs)) (size (ser_all (committed rs))))) false w')
    | (Throw e, w') =>
        (when (hasActiveTransaction w') (on_world rollbackTransaction);; removeWALAndShadowFiles false;; on_world readCheckpoint)
          (mk (Some (syncFile f)) false w')
    | (Undef, w') => (Undef, mk (Some (syncFile f)) false w')
    end.
Proof.
  intros Hlog Hne Hun. destruct (dryReplay_run f rs tail Hlog Hne) as [Hres _]. pose proof (truncate_committed f rs tail Hlog) as Htr.
  destruct (dryReplay entry property vector f) as [x|e|] eqn:Hdry; [|by destruct (dryReplay_no_throw f e)|done].
  rewrite (Hres x eq_refl) in Hdry. destruct Hlog as (Hf & Hok & _). destruct (make_run f Hne) as (rd & Hmake & Hr & _).
  destruct (committed_prefix rs) as [rest Hrest]. pose proof (eq_trans (f_equal ser_all Hrest) (ser_all_app _ _)) as Hser.
  assert (forall w1, replayLoop entry property vector isInMemory (length (content f)) rd (size (ser_all (committed rs))) w1 = run_records (committed rs) w1) as Hloop.
  { intros w1. rewrite <-(Z.add_0_l (size _)). apply (replayLoop_run (content f) _ (ser_all rest ++ tail)); [done| | |].
    - rewrite Hrest in Hok. by apply Forall_app in Hok as [Hok _].
    - change (drop (Z.to_nat 0) (content f)) with (content f). by rewrite Hf, Hser, <-app_assoc.
    - pose proof (length_ser_all (committed rs)) as Hl. rewrite Hf, Hser, !length_app. unfold size in Hl. lia. }
  assert (0 < size (content f)) by (unfold size; destruct (content f); [done|cbn; lia]).
  unfold replay, replayFile, redo, syncWALFile, removeShadow, truncateWALFile. cbv beta delta [get modify when try_catch lift on_world]. unfold mbind, M_bind, mret, M_ret.
  cbn [walFile shadowFile world negb]. rewrite (proj2 (Z.eqb_neq _ _)) by lia. cbn [walFile shadowFile world fmap option_fmap option_map].
  rewrite Hdry. cbn [walFile shadowFile world]. destruct (readCheckpoint w) as [[[]|e|] w1]; [|done..].
  cbn [walFile shadowFile world]. rewrite Hmake. cbn [walFile shadowFile world]. rewrite Hloop. destruct (run_records (committed rs) w1) as [[[]|e|] w2]; [|done..].
  cbn [walFile shadowFile world]. destruct (reconcileAfterRecovery w2) as [[[]|e|] w3]; [|done..].
  cbn [walFile shadowFile world fmap option_fmap option_map]. by rewrite Htr.
Qed.

Lemma replay_checkpoint f sh w w' : dryReplay entry property vector f = Ret (size (content f), true) -> content f <> [] ->
  (replayShadowPageRecords;; readCheckpoint) w = (Ret tt, w') ->
  replay entry property vector isInMemory false (mk (Some f) sh w) = (Ret tt, mk None false w').
Proof.
  intros Hdry Hne Hw. assert (0 < size (content f)) by (unfold size; destruct (content f); [done|cbn; lia]). revert Hw.
  unfold replay, replayFile, removeWALAndShadowFiles, syncWALFile, removeShadow, removeWAL. cbv beta delta [get modify when try_catch lift on_world]. unfold mbind, M_bind, mret, M_ret.
  cbn [walFile shadowFile world negb]. rewrite (proj2 (Z.eqb_neq _ _)) by lia. cbn [walFile shadowFile world fmap option_fmap option_map].
  rewrite Hdry. cbn [walFile shadowFile world]. destruct (replayShadowPageRecords w) as [[[]|e|] w1]; [|done..].
  cbn [walFile shadowFile world]. by intros ->.
Qed.
End records.
