(* ===== verification/WALHistory.v ===== *)
(** Histories of the write-ahead log: what the transactions of a database do to it,
    first with the functions of [WAL.v], then as a list of committed transactions
    with the records of the active ones, and that the second describes the file of
    the first. *)
From stdpp Require Import gmap.
From S2P Require Import Prelude Serializer FreeSpaceManager InMemFileWriter Decoder BufferedFile BufferedFileFacts WALRecord WAL WALFacts Effects.
From S2P Require Import WALReplayer WALReplayerFacts.
Local Open Scope Z_scope.

Section history.
Context {E P V : Type} (entry : wire E) (property : wire P) (vector : wire V).
Abbreviation record := (WALRecord.t E P V).
Context (chunks : record -> list bytes).
Abbreviation ser := (WALRecord.serialize entry property vector).
Abbreviation ser_all := (ser_all entry property vector).
Abbreviation record_ok := (WALRecord.record_ok entry property vector).
(** [walFlushThreshold] of the configuration. *)
Context (threshold : Z).

(** ** The log and the logs of the active transactions *)

Inductive op :=
| Begin (id : Z)
| Log (id : Z) (r : record)
| Commit (id : Z)
| Rollback (id : Z)
| Checkpoint.

Record logs := mk_logs { wal : WAL.t; locals : gmap Z LocalWAL.t }.

(** What a checkpoint does to the log, around the shadow pages. *)
Definition checkpoint (w : WAL.t) : outcome WAL.t :=
  w ← WAL.logAndFlushCheckpoint w;
  w ← WAL.clear w;
  WAL.reset w.

Definition do_op (o : op) (s : logs) : outcome logs :=
  match o with
  | Begin id =>
      match locals s !! id with
      | Some _ => Undef
      | None => '(w, l) ← LocalWAL.beginTransaction chunks threshold (wal s); mret (mk_logs w (<[id := l]> (locals s)))
      end
  | Log id r =>
      match locals s !! id with
      | Some l => '(w, l) ← LocalWAL.log chunks (wal s) l r; mret (mk_logs w (<[id := l]> (locals s)))
      | None => Undef
      end
  | Commit id =>
      match locals s !! id with
      | Some l => '(w, _) ← LocalWAL.commit chunks (wal s) l; mret (mk_logs w (delete id (locals s)))
      | None => Undef
      end
  | Rollback id =>
      match locals s !! id with
      | Some l => mret (mk_logs (wal s) (delete id (locals s)))
      | None => Undef
      end
  | Checkpoint => w ← checkpoint (wal s); mret (mk_logs w (locals s))
  end.

Fixpoint do_ops (os : list op) (s : logs) : outcome logs :=
  match os with [] => mret s | o :: os => s ← do_op o s; do_ops os s end.

(** A new log on disk, or the one a recovery has left. *)
Definition new_logs (walFile : option FileInfo) : logs := mk_logs (WAL.make false false walFile) ∅.

(** ** The history *)

(** Of the active transactions, one at most has records in the file already:
    [flushed]. *)
Record history := mk_history {
  transactions : list (list record);
  flushed : option (Z * list record);
  active : gmap Z (list record);
}.

(** A record of the body of a transaction; nothing logs a [CopyTableRecord]. *)
Definition plain (r : record) : bool :=
  match r with WALRecord.BeginTransactionRecord | WALRecord.CommitRecord | WALRecord.CheckpointRecord | WALRecord.CopyTableRecord _ => false | _ => true end.

Definition flushed_of (id : Z) (h : history) : list record :=
  match flushed h with Some (i, rs) => if i =? id then rs else [] | None => [] end.
Definition flushed_any (h : history) : list record := match flushed h with Some (_, rs) => rs | None => [] end.
Definition has_flushed (id : Z) (h : history) : bool := match flushed h with Some (i, _) => i =? id | None => false end.
Definition others_flushed (id : Z) (h : history) : bool := match flushed h with Some (i, _) => negb (i =? id) | None => false end.

(** The history has no step for what breaks the log: a transaction whose records
    come between those of another one in the file, and a rollback of one that has
    records there. *)
Definition add_record (id : Z) (kept : list record) (r : record) (h : history) : option history :=
  let rs := kept ++ [r] in
  if threshold <=? size (ser_all rs) then
    if others_flushed id h then None
    else Some (mk_history (transactions h) (Some (id, flushed_of id h ++ rs)) (<[id := []]> (active h)))
  else Some (mk_history (transactions h) (flushed h) (<[id := rs]> (active h))).

Definition history_op (o : op) (h : history) : option history :=
  match o with
  | Begin id => match active h !! id with Some _ => None | None => add_record id [] WALRecord.BeginTransactionRecord h end
  | Log id r =>
      match active h !! id with
      | Some kept => if plain r then add_record id kept r h else None
      | None => None
      end
  | Commit id =>
      match active h !! id with
      | Some kept =>
          if others_flushed id h then None
          else Some (mk_history (transactions h ++ [flushed_of id h ++ kept ++ [WALRecord.CommitRecord]]) None (delete id (active h)))
      | None => None
      end
  | Rollback id =>
      match active h !! id with
      | Some kept => if has_flushed id h then None else Some (mk_history (transactions h) (flushed h) (delete id (active h)))
      | None => None
      end
  | Checkpoint => if decide (active h = ∅) then Some (mk_history [] None ∅) else None
  end.

Fixpoint history_ops (os : list op) (h : history) : option history :=
  match os with [] => Some h | o :: os => h ← history_op o h; history_ops os h end.

(** The records in the file. *)
Definition log_records (h : history) : list record := concat (transactions h) ++ flushed_any h.

(** ** The file has what the history says *)

Hypothesis chunks_serialize : forall r, concat (chunks r) = ser r.

Definition tracks (h : history) (s : logs) : Prop :=
  on_disk (wal s) /\ logged (wal s) (ser_all (log_records h)) /\
  forall id, match locals s !! id, active h !! id with
             | Some l, Some kept => holds_local l (ser_all kept) /\ LocalWAL.flushThreshold l = Some threshold
             | None, None => True
             | _, _ => False
             end.

Lemma tracks_insert h s id l kept ts f w :
  tracks h s -> on_disk w -> logged w (ser_all (concat ts ++ match f with Some (_, rs) => rs | None => [] end)) ->
  holds_local l (ser_all kept) -> LocalWAL.flushThreshold l = Some threshold ->
  tracks (mk_history ts f (<[id := kept]> (active h))) (mk_logs w (<[id := l]> (locals s))).
Proof.
  intros (_ & _ & Hloc) Hd Hl Hh Hth. split_and!; [done|done|]. intros i. cbn [locals active].
  destruct (decide (id = i)) as [->|Hne]; [rewrite !lookup_insert_eq; by split|rewrite !lookup_insert_ne by done; apply Hloc].
Qed.

Lemma tracks_delete h s id ts f w :
  tracks h s -> on_disk w -> logged w (ser_all (concat ts ++ match f with Some (_, rs) => rs | None => [] end)) ->
  tracks (mk_history ts f (delete id (active h))) (mk_logs w (delete id (locals s))).
Proof.
  intros (_ & _ & Hloc) Hd Hl. split_and!; [done|done|]. intros i. cbn [locals active].
  destruct (decide (id = i)) as [->|Hne]; [by rewrite !lookup_delete_eq|rewrite !lookup_delete_ne by done; apply Hloc].
Qed.

Lemma ser_all_snoc rs r : ser_all (rs ++ [r]) = ser_all rs ++ ser r.
Proof. rewrite (ser_all_app entry property vector). unfold WALReplayerFacts.ser_all at 2. cbn. by rewrite app_nil_r. Qed.

Lemma flushed_of_any id h : others_flushed id h = false -> flushed_of id h = flushed_any h.
Proof. unfold others_flushed, flushed_of, flushed_any. destruct (flushed h) as [[i rs]|]; [|done]. by destruct (i =? id). Qed.

Lemma add_record_run id kept r h h' s l :
  tracks h s -> add_record id kept r h = Some h' -> holds_local l (ser_all kept) -> LocalWAL.flushThreshold l = Some threshold ->
  exists w l', LocalWAL.addNewWALRecord chunks (wal s) l r = Ret (w, l') /\ tracks h' (mk_logs w (<[id := l']> (locals s))).
Proof.
  intros Ht Ha Hl Hth. pose proof Ht as (Hd & Hlog & _). unfold add_record in Ha.
  destruct (addNewWALRecord_run entry property vector chunks chunks_serialize (wal s) l _ _ r threshold Hd Hlog Hl Hth) as (w & l' & Hrun & Hd' & Hth' & Hcase).
  exists w, l'. split; [done|]. rewrite <-ser_all_snoc in Hcase. destruct (threshold <=? _).
  - destruct (others_flushed id h) eqn:Ho; [done|]. injection Ha as <-. destruct Hcase as [Hlog' Hl'].
    apply tracks_insert; try done. rewrite flushed_of_any by done. unfold log_records in Hlog'.
    by rewrite app_assoc, (ser_all_app _ _ _ (_ ++ _)).
  - injection Ha as <-. destruct Hcase as [-> Hl']. by apply tracks_insert.
Qed.

Lemma checkpoint_run w data : on_disk w -> logged w data ->
  exists w', checkpoint w = Ret w' /\ on_disk w' /\ logged w' [].
Proof.
  intros Hd Hl. unfold checkpoint. destruct (logAndFlushCheckpoint_run w data Hd Hl) as (w1 & b & -> & Hd1 & Hb & _). cbn [mbind outcome_bind].
  unfold WAL.clear. rewrite Hb. cbn. eexists. split; [done|]. split; [|done]. destruct Hd1. by split.
Qed.

(** Every step the history has is made, and keeps them together. *)
Lemma op_tracks o h h' s : tracks h s -> history_op o h = Some h' -> exists s', do_op o s = Ret s' /\ tracks h' s'.
Proof.
  intros Ht Ho. pose proof Ht as (Hd & Hlog & Hloc). destruct o as [id|id r|id|id|]; cbn [do_op history_op] in *.
  - specialize (Hloc id). destruct (locals s !! id), (active h !! id); try done.
    destruct (add_record_run id [] _ h h' s (LocalWAL.setFlushContext LocalWAL.make threshold) Ht Ho) as (w & l & Hrun & Ht'); [apply InMemFileWriter.repr_init|done|].
    unfold LocalWAL.beginTransaction, LocalWAL.logBeginTransaction. rewrite Hrun. cbn [mbind outcome_bind]. eauto.
  - specialize (Hloc id). destruct (locals s !! id) as [l|], (active h !! id) as [kept|]; try done. destruct Hloc as [Hl Hth].
    destruct (plain r) eqn:Hp; [|done]. destruct (add_record_run id kept r h h' s l Ht Ho Hl Hth) as (w & l' & Hrun & Ht').
    assert (LocalWAL.log chunks (wal s) l r = LocalWAL.addNewWALRecord chunks (wal s) l r) as -> by (by destruct r). rewrite Hrun. cbn [mbind outcome_bind]. eauto.
  - specialize (Hloc id). destruct (locals s !! id) as [l|], (active h !! id) as [kept|]; try done. destruct Hloc as [Hl Hth].
    destruct (others_flushed id h) eqn:Hoth; [done|]. injection Ho as <-.
    destruct (local_commit_run entry property vector chunks chunks_serialize (wal s) l _ _ threshold Hd Hlog Hl Hth) as (w & l' & -> & Hd' & Hlog'). cbn [mbind outcome_bind].
    eexists. split; [done|]. apply tracks_delete; [done|done|]. rewrite concat_app. cbn [concat]. rewrite !app_nil_r.
    rewrite <-ser_all_snoc, <-(ser_all_app _ _ _ (log_records h)) in Hlog'. unfold log_records in Hlog'. rewrite flushed_of_any by done. by rewrite app_assoc.
  - specialize (Hloc id). destruct (locals s !! id) as [l|], (active h !! id) as [kept|]; try done.
    destruct (has_flushed id h); [done|]. injection Ho as <-. eexists. split; [done|]. by apply tracks_delete.
  - destruct (decide (active h = ∅)) as [Hemp|]; [|done]. injection Ho as <-.
    destruct (checkpoint_run (wal s) _ Hd Hlog) as (w & -> & Hd' & Hlog'). cbn [mbind outcome_bind]. eexists. split; [done|].
    split_and!; [done|done|]. intros i. specialize (Hloc i). cbn [locals active]. rewrite Hemp, !lookup_empty in *. by destruct (locals s !! i).
Qed.

Lemma ops_track os h h' s : tracks h s -> history_ops os h = Some h' -> exists s', do_ops os s = Ret s' /\ tracks h' s'.
Proof.
  revert h s. induction os as [|o os IH]; intros h s Ht; cbn [history_ops do_ops].
  - intros [= <-]. eauto.
  - intros Hops. destruct (history_op o h) as [h1|] eqn:Ho; [|done]. cbn in Hops.
    destruct (op_tracks o h h1 s Ht Ho) as (s1 & -> & Ht1). cbn [mbind outcome_bind]. by apply (IH h1).
Qed.

(** ** Where a history starts *)

Definition good (r : record) : Prop := plain r = true /\ record_ok r.

(** The records of a committed transaction. *)
Definition framed (rs : list record) : Prop :=
  exists body, rs = WALRecord.BeginTransactionRecord :: body ++ [WALRecord.CommitRecord] /\ Forall good body.

(** No file, or one of committed transactions that is safe on disk. *)
Definition starts (walFile : option FileInfo) (ts : list (list record)) : Prop :=
  Forall framed ts /\
  match walFile with
  | Some f => content f = ser_all (concat ts) /\ synced f = size (content f)
  | None => ts = []
  end.

Definition first_history (ts : list (list record)) : history := mk_history ts None ∅.

Lemma starts_tracks f ts : starts f ts -> tracks (first_history ts) (new_logs f).
Proof.
  intros [_ Hf]. split_and!; [done| |intros i; cbn [locals active new_logs first_history]; by rewrite !lookup_empty].
  unfold logged, log_records. cbn. rewrite app_nil_r. destruct f as [f|]; [destruct Hf as [-> ->]; done|by subst ts].
Qed.

(** ** What a history has *)

Definition well_formed (h : history) : Prop :=
  Forall framed (transactions h) /\
  match flushed h with Some (id, _) => is_Some (active h !! id) | None => True end /\
  forall id kept, active h !! id = Some kept ->
    exists body, flushed_of id h ++ kept = WALRecord.BeginTransactionRecord :: body /\ Forall good body.

Definition op_ok (o : op) : Prop := match o with Log _ r => record_ok r | _ => True end.

Lemma first_well_formed f ts : starts f ts -> well_formed (first_history ts).
Proof. intros [Hts _]. split_and!; [done|done|]. intros id kept. cbn [first_history active]. by rewrite lookup_empty. Qed.

Lemma flushed_of_same id ts f m : flushed_of id (mk_history ts (Some (id, f)) m) = f.
Proof. unfold flushed_of. cbn [flushed]. by rewrite Z.eqb_refl. Qed.

Lemma add_record_well_formed id kept r h h' body :
  well_formed h -> add_record id kept r h = Some h' ->
  flushed_of id h ++ kept ++ [r] = WALRecord.BeginTransactionRecord :: body -> Forall good body -> well_formed h'.
Proof.
  intros (Hts & Hfl & Hact) Ha Hb Hg. unfold add_record in Ha. destruct (threshold <=? _).
  - destruct (others_flushed id h) eqn:Ho; [done|]. injection Ha as <-. split_and!; [done|cbn [flushed active]; by rewrite lookup_insert_eq; eauto|].
    intros i kept' Hi. cbn [active] in Hi. destruct (decide (id = i)) as [->|Hne].
    + rewrite lookup_insert_eq in Hi. injection Hi as <-. rewrite flushed_of_same, app_nil_r. eauto.
    + rewrite lookup_insert_ne in Hi by done. destruct (Hact i kept' Hi) as (b & Hb' & Hg'). exists b. split; [|done].
      unfold flushed_of in *. cbn [flushed]. unfold others_flushed in Ho. rewrite (proj2 (Z.eqb_neq id i)) by done.
      destruct (flushed h) as [[j rs]|]; [|done]. apply negb_false_iff, Z.eqb_eq in Ho as ->. by rewrite (proj2 (Z.eqb_neq id i)) in Hb'.
  - injection Ha as <-. split_and!; [done| |].
    + cbn [flushed active]. destruct (flushed h) as [[j rs]|]; [|done]. destruct (decide (id = j)) as [->|Hne];
        [rewrite lookup_insert_eq; eauto|by rewrite lookup_insert_ne].
    + intros i kept' Hi. cbn [active] in Hi. destruct (decide (id = i)) as [->|Hne]; [rewrite lookup_insert_eq in Hi; injection Hi as <-; eauto|].
      rewrite lookup_insert_ne in Hi by done. by apply Hact.
Qed.

Lemma op_well_formed o h h' : well_formed h -> op_ok o -> history_op o h = Some h' -> well_formed h'.
Proof.
  intros Hwf Hok Ho. pose proof Hwf as (Hts & Hfl & Hact). destruct o as [id|id r|id|id|]; cbn [history_op op_ok] in *.
  - destruct (active h !! id) eqn:Hid; [done|]. apply (add_record_well_formed id [] WALRecord.BeginTransactionRecord h h' []); try done.
    unfold flushed_of. destruct (flushed h) as [[j rs]|]; [|done]. destruct (Z.eqb_spec j id) as [->|]; [|done]. rewrite Hid in Hfl. by destruct Hfl.
  - destruct (active h !! id) as [kept|] eqn:Hid; [|done]. destruct (plain r) eqn:Hp; [|done].
    destruct (Hact id kept Hid) as (body & Hb & Hg). apply (add_record_well_formed id kept r h h' (body ++ [r])); [done|done| |].
    + by rewrite app_assoc, Hb.
    + apply Forall_app. split; [done|]. by constructor.
  - destruct (active h !! id) as [kept|] eqn:Hid; [|done]. destruct (others_flushed id h) eqn:Hoth; [done|]. injection Ho as <-.
    destruct (Hact id kept Hid) as (body & Hb & Hg). split_and!; [|done|].
    + cbn [transactions]. apply Forall_app. split; [done|]. constructor; [|done]. exists body. by rewrite app_assoc, Hb.
    + intros i kept' Hi. cbn [active] in Hi. apply lookup_delete_Some in Hi as [Hne Hi]. destruct (Hact i kept' Hi) as (b & Hb' & Hg').
      exists b. split; [|done]. unfold others_flushed in Hoth. unfold flushed_of in *. destruct (flushed h) as [[j rs]|]; [|done].
      apply negb_false_iff, Z.eqb_eq in Hoth as ->. by rewrite (proj2 (Z.eqb_neq id i)) in Hb'.
  - destruct (active h !! id) as [kept|] eqn:Hid; [|done]. destruct (has_flushed id h) eqn:Hf; [done|]. injection Ho as <-.
    split_and!; [done| |].
    + cbn [flushed active]. unfold has_flushed in Hf. destruct (flushed h) as [[j rs]|]; [|done].
      rewrite lookup_delete_ne; [done|]. intros ->. by rewrite Z.eqb_refl in Hf.
    + intros i kept' Hi. cbn [active] in Hi. apply lookup_delete_Some in Hi as [Hne Hi]. by apply Hact.
  - destruct (decide (active h = ∅)); [|done]. injection Ho as <-. split_and!; [done|done|]. intros i kept. cbn [active]. by rewrite lookup_empty.
Qed.

Lemma ops_well_formed os h h' : well_formed h -> Forall op_ok os -> history_ops os h = Some h' -> well_formed h'.
Proof.
  revert h. induction os as [|o os IH]; intros h Hwf Hok; cbn [history_ops]; [by intros [= <-]|].
  apply Forall_cons in Hok as [Hok1 Hok]. destruct (history_op o h) as [h1|] eqn:Ho; [|done]. cbn.
  apply IH; [by eapply op_well_formed|done].
Qed.

(** ** The records of the file *)

Abbreviation committed := (@committed E P V).
Abbreviation is_commit := (@is_commit E P V).
Abbreviation is_checkpoint := (@is_checkpoint E P V).

Lemma committed_app_none rs more : forallb (fun r => negb (is_commit r)) more = true -> committed (rs ++ more) = committed rs.
Proof.
  intros Hm. induction rs as [|r rs IH]; cbn [app WALReplayerFacts.committed]; [|by rewrite IH].
  induction more as [|r more IH]; [done|]. cbn [forallb] in Hm. apply andb_true_iff in Hm as [Hr Hm]. cbn [WALReplayerFacts.committed].
  rewrite IH by done. by destruct (is_commit r).
Qed.

Lemma committed_snoc rs : committed (rs ++ [WALRecord.CommitRecord]) = rs ++ [WALRecord.CommitRecord].
Proof. induction rs as [|r rs IH]; [done|]. cbn [app WALReplayerFacts.committed]. rewrite IH. by destruct rs. Qed.

Lemma committed_framed ts : Forall framed ts -> committed (concat ts) = concat ts.
Proof.
  destruct ts as [|t ts _] using rev_ind; [done|]. rewrite Forall_app, Forall_singleton. intros [_ (body & -> & _)].
  rewrite concat_app. cbn [concat]. rewrite app_nil_r, app_comm_cons, app_assoc. apply committed_snoc.
Qed.

Lemma good_records rs : Forall good rs ->
  forallb (fun r => negb (is_commit r)) rs = true /\ forallb (fun r => negb (is_checkpoint r)) rs = true /\ Forall record_ok rs.
Proof.
  induction 1 as [|r rs [Hp Hr] _ (H1 & H2 & H3)]; [done|]. cbn [forallb]. rewrite H1, H2. split_and!; [by destruct r..|by constructor].
Qed.

Lemma framed_records ts : Forall framed ts -> forallb (fun r => negb (is_checkpoint r)) (concat ts) = true /\ Forall record_ok (concat ts).
Proof.
  induction 1 as [|t ts (body & -> & Hg) _ [H1 H2]]; [done|]. destruct (good_records body Hg) as (_ & H3 & H4). cbn [concat].
  split.
  - rewrite !forallb_app. cbn [forallb app]. by rewrite forallb_app, H3, H1.
  - repeat (apply Forall_app; split); try done. constructor; [done|]. apply Forall_app. split; [done|by repeat constructor].
Qed.

(** Nothing but a commit ends a transaction. *)
Definition pending (rs : list record) : Prop :=
  forallb (fun r => negb (is_commit r)) rs = true /\ forallb (fun r => negb (is_checkpoint r)) rs = true /\ Forall record_ok rs.

Lemma pending_app a b : pending (a ++ b) <-> pending a /\ pending b.
Proof. unfold pending. rewrite !forallb_app, !andb_true_iff, Forall_app. tauto. Qed.

Lemma pending_active h id kept : well_formed h -> active h !! id = Some kept -> pending (flushed_of id h ++ kept).
Proof.
  intros (_ & _ & Hact) Hid. destruct (Hact id kept Hid) as (body & -> & Hg). destruct (good_records body Hg) as (H1 & H2 & H3).
  split_and!; [done|done|by constructor].
Qed.

Lemma pending_flushed h : well_formed h -> pending (flushed_any h).
Proof.
  intros Hwf. pose proof Hwf as (_ & Hfl & _). unfold flushed_any. destruct (flushed h) as [[id rs]|] eqn:Hf; [|done].
  destruct Hfl as [kept Hid]. pose proof (pending_active h id kept Hwf Hid) as Hp. apply pending_app in Hp as [Hp _].
  unfold flushed_of in Hp. by rewrite Hf, Z.eqb_refl in Hp.
Qed.

Lemma add_record_appends id kept r h h' : pending (kept ++ [r]) -> add_record id kept r h = Some h' ->
  transactions h' = transactions h /\ exists more, log_records h' = log_records h ++ more /\ pending more.
Proof.
  intros Hp Ha. unfold add_record in Ha. destruct (threshold <=? _).
  - destruct (others_flushed id h) eqn:Ho; [done|]. injection Ha as <-. split; [done|]. exists (kept ++ [r]). split; [|done].
    unfold log_records. cbn [transactions flushed_any flushed]. unfold flushed_any at 1. cbn [flushed]. by rewrite flushed_of_any, app_assoc.
  - injection Ha as <-. split; [done|]. exists []. by rewrite app_nil_r.
Qed.

(** A step but a checkpoint appends to the file; a commit record is the last that it
    appends. *)
Lemma op_appends o h h' : well_formed h -> op_ok o -> o <> Checkpoint -> history_op o h = Some h' ->
  exists more, log_records h' = log_records h ++ more /\
    ((pending more /\ transactions h' = transactions h) \/
     (exists init, more = init ++ [WALRecord.CommitRecord] /\ pending init /\ flushed h' = None)).
Proof.
  intros Hwf Hok Hne Ho. destruct o as [id|id r|id|id|]; cbn [history_op op_ok] in *; [..|done].
  - destruct (active h !! id); [done|]. destruct (add_record_appends id [] WALRecord.BeginTransactionRecord h h') as (Ht & more & Hl & Hp); [by split_and!; repeat constructor|done|eauto].
  - destruct (active h !! id) as [kept|] eqn:Hid; [|done]. destruct (plain r) eqn:Hpl; [|done].
    pose proof (pending_active h id kept Hwf Hid) as [_ Hk]%pending_app.
    destruct (add_record_appends id kept r h h') as (Ht & more & Hl & Hp); [|done|by eauto].
    apply pending_app. split; [done|]. split_and!; [by destruct r..|by repeat constructor].
  - destruct (active h !! id) as [kept|] eqn:Hid; [|done]. destruct (others_flushed id h) eqn:Hoth; [done|]. injection Ho as <-.
    exists (kept ++ [WALRecord.CommitRecord]). split.
    + unfold log_records. cbn [transactions]. unfold flushed_any at 1. cbn [flushed]. rewrite concat_app. cbn [concat].
      rewrite !app_nil_r, flushed_of_any by done. by rewrite <-app_assoc.
    + right. exists kept. pose proof (pending_active h id kept Hwf Hid) as [_ Hk]%pending_app. done.
  - destruct (active h !! id) as [kept|]; [|done]. destruct (has_flushed id h); [done|]. injection Ho as <-.
    exists []. rewrite app_nil_r. split; [done|]. left. done.
Qed.

Lemma log_committed h : well_formed h -> committed (log_records h) = concat (transactions h).
Proof.
  intros Hwf. pose proof Hwf as (Hts & _). destruct (pending_flushed h Hwf) as (Hc & _). unfold log_records.
  by rewrite committed_app_none, committed_framed.
Qed.

Lemma log_ok h : well_formed h -> forallb (fun r => negb (is_checkpoint r)) (log_records h) = true /\ Forall record_ok (log_records h).
Proof.
  intros Hwf. pose proof Hwf as (Hts & _). destruct (pending_flushed h Hwf) as (_ & Hk & Hr). destruct (framed_records _ Hts) as [H1 H2].
  unfold log_records. rewrite forallb_app, H1, Hk. split; [done|]. by apply Forall_app.
Qed.

(** ** Crashes *)

(** A part of the bytes of records is some of them, and a part of one more. *)
Lemma ser_all_prefix n rs : Forall record_ok rs -> 0 <= n <= size (ser_all rs) ->
  exists rs1 rs2 tail, rs = rs1 ++ rs2 /\ take (Z.to_nat n) (ser_all rs) = ser_all rs1 ++ tail /\
    (tail = [] \/ torn entry property vector tail) /\ (n = size (ser_all rs) -> rs2 = [] /\ tail = []) /\ (rs2 = [] -> n = size (ser_all rs)).
Proof.
  revert n. induction rs as [|r rs IH]; intros n Hok Hn.
  - exists [], [], []. change (size (ser_all [])) with 0 in *. split_and!; try done; [by destruct (Z.to_nat n)|by left|lia].
  - apply Forall_cons in Hok as [Hr Hok]. change (ser_all (r :: rs)) with (ser r ++ ser_all rs) in *. rewrite size_app in *.
    pose proof (size_nonneg (ser_all rs)). pose proof (ser_pos entry property vector r). destruct (Z.lt_ge_cases n (size (ser r))) as [Hlt|Hge].
    + exists [], (r :: rs), (take (Z.to_nat n) (ser r)). rewrite take_app_le by (unfold size in *; lia).
      split_and!; [done|done| |lia|done]. right. exists r, (drop (Z.to_nat n) (ser r)). split_and!; [done| |by rewrite take_drop].
      intros Hd. apply (f_equal size) in Hd. rewrite size_drop in Hd by lia. change (size []) with 0 in Hd. lia.
    + destruct (IH (n - size (ser r)) Hok ltac:(lia)) as (rs1 & rs2 & tail & -> & Ht & Htorn & Hend & Hend'). exists (r :: rs1), rs2, tail.
      split_and!; [done| |done|intros ->; apply Hend; lia|intros Hnil; specialize (Hend' Hnil); lia].
      change (ser_all (r :: rs1)) with (ser r ++ ser_all rs1). rewrite <-app_assoc, <-Ht. unfold size in *. rewrite take_app_ge by lia.
      do 2 f_equal. lia.
Qed.

(** The log after a crash: what was safe before the step is there, and some of what
    the step has written. *)
Definition crashed (before after : option FileInfo) (f : FileInfo) : Prop :=
  exists n, match before with Some f => synced f | None => 0 end <= n /\
    match after with
    | Some g => n <= size (content g) /\ f = mk_file (take (Z.to_nat n) (content g)) n
    | None => False
    end.

Lemma tracks_file h s : tracks h s ->
  match WAL.file (wal s) with Some f => synced f | None => 0 end = size (ser_all (log_records h)) /\
  match WAL.file (wal s) with Some f => content f | None => [] end = ser_all (log_records h).
Proof.
  intros (_ & Hl & _). destruct (WAL.file (wal s)) as [f|] eqn:Hf; [by destruct (logged_file _ _ _ Hl Hf) as [-> ->]|].
  unfold logged, WAL.file in *. destruct (WAL.writer (wal s)); [done|]. rewrite Hf in Hl. by rewrite Hl.
Qed.

(** The records in a file after a crash, and which of them are committed. *)
Lemma crashed_log o h h' s s' f : well_formed h -> well_formed h' -> op_ok o -> o <> Checkpoint -> history_op o h = Some h' ->
  tracks h s -> tracks h' s' -> crashed (WAL.file (wal s)) (WAL.file (wal s')) f ->
  exists rs tail ts, log_of entry property vector f rs tail /\ committed rs = concat ts /\
    (ts = transactions h \/ ts = transactions h') /\ (content f = ser_all (log_records h') -> ts = transactions h').
Proof.
  intros Hwf Hwf' Hok Hne Ho Ht Ht' (n & Hn & Hf). destruct (tracks_file h s Ht) as [Hs _]. destruct (tracks_file h' s' Ht') as [_ Hc].
  rewrite Hs in Hn. destruct (WAL.file (wal s')) as [g|]; [|done]. destruct Hf as [Hn' ->]. rewrite Hc in *. clear Hs Hc g.
  destruct (op_appends o h h' Hwf Hok Hne Ho) as (more & Hmore & Hcase). destruct (log_ok h' Hwf') as [Hck Hrok].
  destruct (log_ok h Hwf) as [Hck0 Hrok0]. pose proof (log_committed h Hwf) as Hcom. pose proof (log_committed h' Hwf') as Hcom'.
  set (m := n - size (ser_all (log_records h))). pose proof (size_nonneg (ser_all (log_records h))).
  rewrite Hmore in Hck, Hrok, Hn', Hcom' |- *. rewrite (ser_all_app entry property vector), size_app in *.
  rewrite forallb_app, Hck0 in Hck. apply Forall_app in Hrok as [_ Hrok].
  destruct (ser_all_prefix m more Hrok ltac:(unfold m; lia)) as (rs1 & rs2 & tail & -> & Htake & Htorn & Hend & Hend').
  assert (take (Z.to_nat n) (ser_all (log_records h) ++ ser_all (rs1 ++ rs2)) = ser_all (log_records h ++ rs1) ++ tail) as Hbytes.
  { rewrite take_app_ge by (unfold size in *; lia). rewrite (ser_all_app entry property vector (log_records h) rs1), <-app_assoc, <-Htake. do 2 f_equal. unfold m, size in *. lia. }
  assert (log_of entry property vector (mk_file (take (Z.to_nat n) (ser_all (log_records h) ++ ser_all (rs1 ++ rs2))) n) (log_records h ++ rs1) tail) as Hlog.
  { cbn [andb] in Hck. rewrite forallb_app in Hck. apply andb_true_iff in Hck as [Hck1 _]. apply Forall_app in Hrok as [Hrok1 _].
    split_and!; [done| |by rewrite forallb_app, Hck0, Hck1|done]. by apply Forall_app. }
  cbn [content]. destruct (decide (rs2 = [])) as [->|Hrs2].
  - rewrite app_nil_r in *. exists (log_records h ++ rs1), tail, (transactions h'). split_and!; [done|done|by right|done].
  - exists (log_records h ++ rs1), tail, (transactions h). split; [done|]. split; [|split; [by left|]].
    + rewrite committed_app_none; [done|]. destruct Hcase as [[[Hc _] _]|(init & Hinit & [Hc _] & _)].
      * rewrite forallb_app in Hc. by apply andb_true_iff in Hc as [Hc _].
      * destruct rs2 as [|r rs2 _] using rev_ind; [done|]. rewrite app_assoc in Hinit. apply app_inj_tail in Hinit as [<- _].
        rewrite forallb_app in Hc. by apply andb_true_iff in Hc as [Hc _].
    + intros Hall. exfalso. apply (f_equal size) in Hall. rewrite size_take, size_app in Hall by (rewrite size_app; lia).
      assert (m = size (ser_all (rs1 ++ rs2))) as Hm by (unfold m; lia). by destruct (Hend Hm) as [-> _].
Qed.
End history.
