(* ===== verification/WALSpec.v ===== *)
(** What the write-ahead log promises: the file is the history of the committed
    transactions, a crash loses at most the transaction that was about to commit,
    and recovery does again exactly what was committed; and where the log of a
    transaction that was rolled back, or a record that was torn, breaks that. *)
From stdpp Require Import gmap.
From S2P Require Import Prelude Serializer FreeSpaceManager InMemFileWriter Decoder BufferedFile BufferedFileFacts WALRecord WAL WALFacts Effects.
From S2P Require Import WALReplayer WALReplayerFacts WALHistory.
Local Open Scope Z_scope.

(** ** An instance *)

(** Catalog entries, definitions and vectors of one byte; each record is written in
    one call; the database is the list of what was done to it. *)
Definition byte_record : Type := WALRecord.t Z Z Z.
Definition byte_serialize : byte_record -> bytes := WALRecord.serialize u8_wire u8_wire u8_wire.
Definition byte_chunks (r : byte_record) : list bytes := [byte_serialize r].

Lemma byte_chunks_serialize r : concat (byte_chunks r) = byte_serialize r.
Proof. apply app_nil_r. Qed.

Definition event (z : Z) : M (list Z) unit := modify (fun w => w ++ [z]).

#[local] Instance event_recovery : Recovery Z Z Z (list Z) := {
  readCheckpoint := modify (fun _ => []);
  replayShadowPageRecords := event 254;
  hasActiveTransaction w := match last w with Some 1 => true | _ => false end;
  beginRecoveryTransaction := event 1;
  commitTransaction := event 2;
  rollbackTransaction := event 3;
  writeRecoveryCheckpoint := mret tt;
  reconcileAfterRecovery := event 255;
  replayCreateCatalogEntryRecord e _ := event e;
  replayDropCatalogEntryRecord id _ := event id;
  replayAlterTableEntryRecord _ := event 17;
  replayUpdateSequenceRecord _ k := event k;
  replayNodeTableInsertRecord id _ _ := event id;
  replayRelTableInsertRecord id _ _ := event id;
  replayNodeDeletionRecord id _ _ := event id;
  replayNodeUpdateRecord id _ _ _ := event id;
  replayRelDeletionRecord id _ _ _ := event id;
  replayRelDetachDeletionRecord id _ _ := event id;
  replayRelUpdateRecord id _ _ _ _ _ := event id;
  replayLoadExtensionRecord _ := event 100;
}.

(** ** Records and files *)

Section spec.
Context {E P V : Type} (entry : wire E) (property : wire P) (vector : wire V).
Abbreviation record := (WALRecord.t E P V).
Abbreviation ser_all := (ser_all entry property vector).
Abbreviation record_ok := (WALRecord.record_ok entry property vector).
Abbreviation deserialize := (WALRecord.deserialize entry property vector).

Fixpoint write_all (w : BufferedFileWriter.t) (cs : list bytes) : outcome BufferedFileWriter.t :=
  match cs with [] => mret w | c :: cs => w ← BufferedFileWriter.write w c; write_all w cs end.

Fixpoint decode_records (n : nat) : decoder (list record) :=
  match n with O => mret [] | S n => r ← deserialize; rs ← decode_records n; mret (r :: rs) end.

Lemma write_all_run w data disk cs : WriterFacts.holds w data disk ->
  exists w', write_all w cs = Ret w' /\ WriterFacts.holds w' (data ++ concat cs) disk.
Proof.
  revert w data. induction cs as [|c cs IH]; intros w data Hw; cbn [write_all concat].
  - exists w. by rewrite app_nil_r.
  - destruct (WriterFacts.write_run w data disk c Hw) as (w1 & -> & Hw1). cbn [mbind outcome_bind].
    destruct (IH w1 _ Hw1) as (w2 & -> & Hw2). exists w2. by rewrite app_assoc.
Qed.

Lemma parse_records rs rest : Forall record_ok rs -> parse (decode_records (length rs)) (ser_all rs ++ rest) = Some (Ret rs, rest).
Proof.
  induction 1 as [|r rs Hr _ IH]; [done|]. cbn [decode_records length].
  change (ser_all (r :: rs)) with (WALRecord.serialize entry property vector r ++ ser_all rs).
  rewrite <-app_assoc, parse_bind, WALRecord.parse_record by done. by rewrite parse_bind, IH.
Qed.

(** C5. What is written to the log reads back: records of every kind, written
    through the buffered writer in whatever pieces the serialiser writes them, are
    given back in order by the buffered reader, across the pages of both buffers,
    and the reader is then at the end of the file. *)
Theorem records_read_back (chunks : record -> list bytes) rs :
  (forall r, concat (chunks r) = WALRecord.serialize entry property vector r) -> Forall record_ok rs -> rs <> [] ->
  exists w w' rd rd',
    write_all (BufferedFileWriter.make (mk_file [] 0)) (concat (map chunks rs)) = Ret w /\
    BufferedFileWriter.flush w = Ret w' /\
    BufferedFileReader.make (BufferedFileWriter.fileInfo w') = Ret rd /\
    BufferedFileReader.exec (decode_records (length rs)) rd = Ret (rs, rd') /\
    BufferedFileReader.finished rd' = true.
Proof.
  intros Hc Hok Hne. destruct (write_all_run _ _ _ (concat (map chunks rs)) (WriterFacts.make_holds (mk_file [] 0) ltac:(done))) as (w & Hw & Hh).
  destruct (WriterFacts.flush_run _ _ _ Hh) as (w' & Hf & _ & Hdata & _). cbn [content app] in *.
  assert (concat (concat (map chunks rs)) = ser_all rs) as Hser.
  { clear - Hc. induction rs as [|r rs IH]; [done|]. cbn [map concat]. by rewrite concat_app, Hc, IH. }
  rewrite Hser in Hdata. destruct (ReaderFacts.make_run (BufferedFileWriter.fileInfo w')) as (rd & Hmake & Hr & _).
  { rewrite Hdata. intros Hnil. pose proof (length_ser_all entry property vector rs) as Hl. rewrite Hnil in Hl. destruct rs; [done|unfold size in Hl; cbn [length] in Hl; lia]. }
  pose proof (ReaderFacts.exec_run (decode_records (length rs)) _ rd 0 (Ret rs) [] Hr) as Hrun.
  change (drop (Z.to_nat 0) ?l) with l in Hrun. rewrite Hdata in Hrun.
  destruct Hrun as (rd' & Hexec & Hr'); [rewrite <-(app_nil_r (ser_all rs)); by apply parse_records|].
  exists w, w', rd, rd'. split_and!; try done. rewrite (ReaderFacts.finished_reads _ _ _ Hr'). apply Z.leb_le. change (size []) with 0. lia.
Qed.
(** ** Histories *)

Section log.
Context (chunks : record -> list bytes) (threshold : Z).
Abbreviation history_ops := (history_ops entry property vector threshold).
Abbreviation history_op := (history_op entry property vector threshold).
Abbreviation do_ops := (do_ops chunks threshold).
Abbreviation do_op := (do_op chunks threshold).
Abbreviation starts := (starts entry property vector).
Abbreviation op_ok := (op_ok entry property vector).

(** The file has these bytes, and all of them are safe. *)
Definition safe_file (file : option FileInfo) (data : bytes) : Prop :=
  match file with Some f => content f = data /\ synced f = size data | None => data = [] end.


(** ** Recovery *)

(** The dry run finds the last commit: on a log of whole records, with or
    without a torn one at its end, it returns, if it does, the offset after the last
    commit record, and says that the last record is no checkpoint; it does return
    when nothing is torn, or when the reads are no larger than a page and the torn
    record starts in the last page of the file; and when a checkpoint record ends the
    log it says so. *)
Theorem last_commit_found f rs tail : log_of entry property vector f rs tail -> content f <> [] ->
  (forall x, WALReplayer.dryReplay entry property vector f = Ret x -> x = (size (ser_all (committed rs)), false)) /\
  (tail = [] \/ readable entry property vector f rs tail ->
     WALReplayer.dryReplay entry property vector f = Ret (size (ser_all (committed rs)), false)) /\
  (forall g, content g = ser_all rs ++ WALRecord.serialize entry property vector WALRecord.CheckpointRecord ->
     WALReplayer.dryReplay entry property vector g = Ret (size (content g), true)).
Proof.
  intros Hlog Hne. destruct (dryReplay_run entry property vector f rs tail Hlog Hne) as [H1 H2]. destruct Hlog as (_ & Hok & Hck & _).
  split_and!; [done|done|]. intros g Hg. by apply (dryReplay_checkpoint entry property vector g rs).
Qed.

Context {W : Type} `{!Recovery E P V W} (isInMemory : bool).
Abbreviation replay := (WALReplayer.replay entry property vector isInMemory false).


(** What the next history starts from. *)
Lemma starts_recovered ts : Forall (framed entry property vector) ts ->
  starts (Some (mk_file (ser_all (concat ts)) (size (ser_all (concat ts))))) ts.
Proof. by split. Qed.


(** The record of a checkpoint decides it: when the database dies while it is
    written, the log still has every transaction and recovery replays them, or it ends
    with the record, and recovery applies the shadow pages, removes both files and
    reads the new checkpoint; the log is emptied only afterwards. *)
Theorem checkpoint_record_decides f0 ts os h :
  (forall r, concat (chunks r) = WALRecord.serialize entry property vector r) ->
  starts f0 ts -> Forall op_ok os -> history_ops os (first_history ts) = Some h -> active h = ∅ ->
  exists s wal1 wal2, do_ops os (new_logs f0) = Ret s /\
    WAL.logAndFlushCheckpoint (wal s) = Ret wal1 /\ WAL.clear wal1 = Ret wal2 /\ safe_file (WAL.file wal2) [] /\
    forall f shadow w, crashed (WAL.file (wal s)) (WAL.file wal1) f -> content f <> [] ->
      (forall w', (readCheckpoint;; run_records isInMemory (concat (transactions h));; reconcileAfterRecovery) w = (Ret tt, w') ->
         exists f', replay (WALReplayer.mk (Some f) shadow w) = (Ret tt, WALReplayer.mk (Some f') false w') /\ starts (Some f') (transactions h)) \/
      (Some (content f) = content <$> WAL.file wal1 /\
       forall w', (replayShadowPageRecords;; readCheckpoint) w = (Ret tt, w') ->
         replay (WALReplayer.mk (Some f) shadow w) = (Ret tt, WALReplayer.mk None false w')).
Proof.
  intros Hc Hs Hok Hh Hemp.
  destruct (ops_track entry property vector chunks threshold Hc os _ h _ (starts_tracks entry property vector threshold f0 ts Hs) Hh) as (s & Hrun & Ht).
  pose proof (ops_well_formed entry property vector threshold os _ h (first_well_formed entry property vector f0 ts Hs) Hok Hh) as Hwf.
  assert (log_records h = concat (transactions h)) as Hlr.
  { unfold log_records, flushed_any. destruct Hwf as (_ & Hfl & _). destruct (flushed h) as [[id rs]|]; [|apply app_nil_r].
    rewrite Hemp, lookup_empty in Hfl. by destruct Hfl. }
  destruct (tracks_file entry property vector threshold h s Ht) as [Hsync _]. pose proof Ht as (Hd & Hl & _). rewrite Hlr in *.
  destruct (logAndFlushCheckpoint_run (wal s) _ Hd Hl) as (wal1 & b & Hck & Hd1 & Hb & Hl1).
  assert (WAL.file wal1 = Some (BufferedFileWriter.fileInfo b)) as Hfile by (unfold WAL.file; by rewrite Hb).
  destruct (logged_file wal1 _ _ Hl1 Hfile) as [Hcont Hsync1].
  exists s, wal1, (WAL.set_writer wal1 (BufferedFileWriter.clear b)). split_and!; [done|done|unfold WAL.clear; by rewrite Hb| |].
  { unfold safe_file, WAL.file, WAL.set_writer, BufferedFileWriter.clear, BufferedFileWriter.resetOffsets, truncate.
    cbn [WAL.writer BufferedFileWriter.fileInfo content synced]. rewrite Hcont, Hsync1.
    pose proof (size_nonneg (ser_all (concat (transactions h)) ++ [254])) as Hsz. split; [|by apply Z.min_r].
    replace (Z.to_nat (0 - _)) with 0%nat by lia. done. }
  destruct (framed_records entry property vector (transactions h)) as [Hnck Hrok]; [by destruct Hwf|].
  pose proof (committed_framed entry property vector (transactions h) ltac:(by destruct Hwf)) as Hcom.
  intros f shadow w (n & Hn & Hf) Hne. rewrite Hsync in Hn. rewrite Hfile in Hf. destruct Hf as [Hn' ->]. rewrite Hcont in *. cbn [content] in *.
  rewrite size_app in Hn'. change (size [254]) with 1 in Hn'. assert (n = size (ser_all (concat (transactions h))) \/ n = size (ser_all (concat (transactions h)) ++ [254])) as [->| ->].
  { rewrite size_app. change (size [254]) with 1. lia. }
  - left. assert (take (Z.to_nat (size (ser_all (concat (transactions h))))) (ser_all (concat (transactions h)) ++ [254]) = ser_all (concat (transactions h))) as Htake.
    { apply take_app_length'. unfold size. lia. }
    rewrite Htake in *. intros w' Hredo.
    assert (log_of entry property vector (mk_file (ser_all (concat (transactions h))) (size (ser_all (concat (transactions h))))) (concat (transactions h)) []) as Hlog.
    { split_and!; [by rewrite app_nil_r|done|done|by left]. }
    destruct (dryReplay_run entry property vector _ _ _ Hlog Hne) as [_ Hdry].
    rewrite (replay_run entry property vector isInMemory _ _ _ shadow w Hlog Hne) by (rewrite Hdry by (by left); done).
    unfold redo. rewrite Hcom, Hredo. eexists. split; [done|]. apply starts_recovered. by destruct Hwf.
  - right. assert (take (Z.to_nat (size (ser_all (concat (transactions h)) ++ [254]))) (ser_all (concat (transactions h)) ++ [254]) = ser_all (concat (transactions h)) ++ [254]) as Htake.
    { apply take_ge. unfold size. lia. }
    rewrite Htake in *. split; [by rewrite Hfile; cbn; rewrite Hcont|]. intros w' Hshadow.
    set (g := mk_file (ser_all (concat (transactions h)) ++ [254]) (size (ser_all (concat (transactions h)) ++ [254]))).
    apply replay_checkpoint; [|done|done]. apply (dryReplay_checkpoint entry property vector g (concat (transactions h))); [reflexivity|done|done].
Qed.
End log.
End spec.

(** ** Witnesses *)

Abbreviation Update k := (@WALRecord.UpdateSequenceRecord Z Z Z 7 k).
Abbreviation BeginT := (@WALRecord.BeginTransactionRecord Z Z Z).
Abbreviation CommitT := (@WALRecord.CommitRecord Z Z Z).

(** Two transactions at once, one rolled back, and one larger than the threshold of
    30 bytes. *)
Definition example_ops : list (op (E := Z) (P := Z) (V := Z)) :=
  [Begin 1; Log 1 (Update 5); Begin 2; Log 2 (WALRecord.DropCatalogEntryRecord 9 1); Commit 2; Rollback 1;
   Begin 3; Log 3 (Update 8); Log 3 (WALRecord.NodeDeletionRecord 4 2 99)].
Definition example_transactions : list (list byte_record) := [[BeginT; WALRecord.DropCatalogEntryRecord 9 1; CommitT]].
Definition example_flushed : list byte_record := [BeginT; Update 8; WALRecord.NodeDeletionRecord 4 2 99].
Definition example_history : history := mk_history example_transactions (Some (3, example_flushed)) {[3 := []]}.

Lemma example_starts : starts u8_wire u8_wire u8_wire None [].
Proof. by split. Qed.

Lemma records_read_back_witness : exists w w' rd rd',
  write_all (BufferedFileWriter.make (mk_file [] 0)) (concat (map byte_chunks [BeginT; WALRecord.LoadExtensionRecord "httpfs"; CommitT])) = Ret w /\
  BufferedFileWriter.flush w = Ret w' /\ BufferedFileReader.make (BufferedFileWriter.fileInfo w') = Ret rd /\
  BufferedFileReader.exec (decode_records u8_wire u8_wire u8_wire 3) rd = Ret ([BeginT; WALRecord.LoadExtensionRecord "httpfs"; CommitT], rd') /\
  BufferedFileReader.finished rd' = true.
Proof. apply records_read_back; [apply byte_chunks_serialize|repeat constructor|done]. Defined.


(** A commit, a record of the next transaction, and a part of one more. *)
Definition example_records : list byte_record := [BeginT; Update 5; CommitT; BeginT; Update 8].
Definition example_tail : bytes := take 5 (byte_serialize (Update 9)).
Definition example_file : FileInfo := mk_file (ser_all u8_wire u8_wire u8_wire example_records ++ example_tail) 0.

Lemma example_log : log_of u8_wire u8_wire u8_wire example_file example_records example_tail.
Proof.
  split_and!; [done|repeat (constructor; [cbn; lia || done|]); constructor|done|]. right. exists (Update 9), (drop 5 (byte_serialize (Update 9))).
  split_and!; [cbn; lia|done|reflexivity].
Qed.

Lemma last_commit_found_witness : WALReplayer.dryReplay u8_wire u8_wire u8_wire example_file = Ret (19, false).
Proof.
  refine (eq_trans (proj1 (proj2 (last_commit_found u8_wire u8_wire u8_wire example_file example_records example_tail example_log _)) _) _);
    [done|right; by split_and!|reflexivity].
Defined.



Lemma checkpoint_record_decides_witness : exists s wal1 wal2,
  do_ops byte_chunks 30 (example_ops ++ [Commit 3]) (new_logs None) = Ret s /\
  WAL.logAndFlushCheckpoint (wal s) = Ret wal1 /\ WAL.clear wal1 = Ret wal2 /\ safe_file (WAL.file wal2) [] /\
  forall f, crashed (WAL.file (wal s)) (WAL.file wal1) f -> content f <> [] ->
    (exists f', WALReplayer.replay u8_wire u8_wire u8_wire false false (WALReplayer.mk (Some f) true []) = (Ret tt, WALReplayer.mk (Some f') false [1; 9; 2; 1; 8; 4; 2; 255])) \/
    WALReplayer.replay u8_wire u8_wire u8_wire false false (WALReplayer.mk (Some f) true []) = (Ret tt, WALReplayer.mk None false []).
Proof.
  destruct (checkpoint_record_decides u8_wire u8_wire u8_wire byte_chunks 30 false None [] (example_ops ++ [Commit 3])
    (mk_history (example_transactions ++ [example_flushed ++ [CommitT]]) None ∅) byte_chunks_serialize example_starts) as (s & w1 & w2 & H1 & H2 & H3 & H4 & H5);
    [repeat (constructor; [cbn; lia || done|]); constructor|by vm_compute|done|].
  exists s, w1, w2. split_and!; [done..|]. intros f Hc Hne. destruct (H5 f true [] Hc Hne) as [Hr|[_ Hr]].
  - left. destruct (Hr [1; 9; 2; 1; 8; 4; 2; 255] eq_refl) as (f' & Hf & _). by exists f'.
  - right. by apply Hr.
Defined.

(** ** Where the log breaks *)

(** A transaction that has flushed records and is rolled back leaves them in the
    file; recovery begins it, and begins the next one without having ended it. *)
Example rolled_back_records_replayed :
  (s ← do_ops byte_chunks 18 [Begin 1; Log 1 (Update 5); Rollback 1; Begin 2; Commit 2] (new_logs None); mret (content <$> WAL.file (wal s))) =
    Ret (Some (ser_all u8_wire u8_wire u8_wire [BeginT; Update 5; BeginT; CommitT])) /\
  WALReplayer.replay u8_wire u8_wire u8_wire false false
    (WALReplayer.mk (Some (mk_file (ser_all u8_wire u8_wire u8_wire [BeginT; Update 5; BeginT; CommitT]) 20)) false []) =
    (Ret tt, WALReplayer.mk (Some (mk_file (ser_all u8_wire u8_wire u8_wire [BeginT; Update 5; BeginT; CommitT]) 20)) false [1; 5; 1; 2; 255]).
Proof. split; by vm_compute. Qed.

(** A record torn within a field that starts on one page and whose end is missing
    from the next: the reader takes the missing bytes from what the buffer held
    before, and the number of bytes it copies next wraps around. *)
Definition page_of_records : list byte_record := [BeginT; CommitT; WALRecord.LoadExtensionRecord (bytes_string (replicate 4079 97)); Update 5].

Example torn_across_pages :
  WALReplayer.dryReplay u8_wire u8_wire u8_wire (mk_file (take 4097 (ser_all u8_wire u8_wire u8_wire page_of_records)) 4097) = Undef.
Proof. by vm_compute. Qed.

(** The checkpoints of a recovery reach the data file while the log keeps its
    records: with the committed values on disk and in memory as the database, two
    recoveries in a row apply a transaction twice. *)
Definition in_memory (f : list Z -> list Z) : M (list Z * list Z) unit := modify (fun w => (w.1, f w.2)).

Definition stored_recovery : Recovery Z Z Z (list Z * list Z) := {|
  readCheckpoint := modify (fun w => (w.1, w.1));
  replayShadowPageRecords := mret tt;
  hasActiveTransaction _ := false;
  beginRecoveryTransaction := mret tt;
  commitTransaction := mret tt;
  rollbackTransaction := mret tt;
  writeRecoveryCheckpoint := modify (fun w => (w.2, w.2));
  reconcileAfterRecovery := mret tt;
  replayCreateCatalogEntryRecord _ _ := mret tt;
  replayDropCatalogEntryRecord _ _ := mret tt;
  replayAlterTableEntryRecord _ := mret tt;
  replayUpdateSequenceRecord _ _ := mret tt;
  replayNodeTableInsertRecord _ _ vs := in_memory (fun m => m ++ vs);
  replayRelTableInsertRecord _ _ vs := in_memory (fun m => m ++ vs);
  replayNodeDeletionRecord _ _ _ := mret tt;
  replayNodeUpdateRecord _ _ _ _ := mret tt;
  replayRelDeletionRecord _ _ _ _ := mret tt;
  replayRelDetachDeletionRecord _ _ _ := mret tt;
  replayRelUpdateRecord _ _ _ _ _ _ := mret tt;
  replayLoadExtensionRecord _ := mret tt;
|}.

Example recovery_applied_twice :
  let recover := @WALReplayer.replay Z Z Z _ stored_recovery u8_wire u8_wire u8_wire false false in
  (recover;; recover)
    (WALReplayer.mk (Some (mk_file (ser_all u8_wire u8_wire u8_wire [BeginT; WALRecord.TableInsertionRecord 0 1 1 [42]; CommitT]) 0)) false ([], [])) =
  (Ret tt,
   WALReplayer.mk (Some (mk_file (ser_all u8_wire u8_wire u8_wire [BeginT; WALRecord.TableInsertionRecord 0 1 1 [42]; CommitT]) 25)) false ([42; 42], [42; 42])).
Proof. by vm_compute. Qed.
