(* ===== verification/ShadowFile.v ===== *)
(** The shadow file ([storage/shadow_file.cpp], [shadow_utils.cpp]): a checkpoint
    writes copies of the pages it changes to a file of their own, which is applied to
    the data file once the checkpoint is logged. The frames of the buffer manager are
    those of a [FileHandle] ([storage/file_handle.cpp]): a page is in a frame, dirty or
    not, or only in the file. Databases on disk only; calls of the operating system
    succeed. *)
From stdpp Require Import gmap.
From S2P Require Import Prelude Effects Serializer Decoder BufferedFile.
Local Open Scope Z_scope.

Definition PAGE : Z := 2 ^ 12.

(** The bytes of a page of a file. *)
Definition page_at (c : bytes) (pageIdx : Z) : bytes := take (Z.to_nat PAGE) (drop (Z.to_nat (pageIdx * PAGE)) c).

Inductive PageReadPolicy := READ_PAGE | DONT_READ_PAGE.

(** ** Pages of a file in frames *)

Module FileHandle.
(** A frame has the bytes of a page and whether they are dirty. *)
Record t := mk { fileIndex : Z; numPages : Z; frames : gmap Z (bytes * bool); fileInfo : FileInfo }.

Definition set_frame (fh : t) (pageIdx : Z) (frame : bytes) (dirty : bool) : t :=
  mk (fileIndex fh) (numPages fh) (<[pageIdx := (frame, dirty)]> (frames fh)) (fileInfo fh).

Definition make (fileIndex : Z) (f : FileInfo) : t := mk fileIndex ((size (content f) + PAGE - 1) / PAGE) ∅ f.

Definition addNewPage (fh : t) : t * Z := (mk (fileIndex fh) (u32 (numPages fh + 1)) (frames fh) (fileInfo fh), numPages fh).

(** The pages one by one; the first of them. *)
Definition addNewPages (fh : t) (numNewPages : Z) : t * Z :=
  (Nat.iter (Z.to_nat numNewPages) (fun fh => (addNewPage fh).1) fh, numPages fh).

(** [fresh] is what an unread frame has. *)
Definition pinPage (fresh : bytes) (fh : t) (pageIdx : Z) (readPolicy : PageReadPolicy) : outcome (t * bytes) :=
  _ ← ku_assert (pageIdx <? numPages fh);
  match frames fh !! pageIdx with
  | Some (frame, _) => mret (fh, frame)
  | None =>
      frame ← match readPolicy with
              | READ_PAGE => readFromFile (fileInfo fh) PAGE (pageIdx * PAGE)
              | DONT_READ_PAGE => mret fresh
              end;
      mret (set_frame fh pageIdx frame false, frame)
  end.

Definition setLockedPageDirty (fh : t) (pageIdx : Z) : outcome t :=
  _ ← ku_assert (pageIdx <? numPages fh);
  match frames fh !! pageIdx with Some (frame, _) => mret (set_frame fh pageIdx frame true) | None => Undef end.

Definition flushPageIfDirtyWithoutLock (fh : t) (pageIdx : Z) : t :=
  match frames fh !! pageIdx with
  | Some (frame, true) =>
      set_frame (mk (fileIndex fh) (numPages fh) (frames fh) (writeFile (fileInfo fh) frame (pageIdx * PAGE))) pageIdx frame false
  | _ => fh
  end.

Definition flushAllDirtyPagesInFrames (fh : t) : t :=
  foldl flushPageIfDirtyWithoutLock fh (seqZ 0 (numPages fh)).

(** What the buffer manager does to make room, at any time: the page is written if it
    is dirty, and its frame given up. *)
Definition evict (fh : t) (pageIdx : Z) : t :=
  let fh := flushPageIfDirtyWithoutLock fh pageIdx in
  mk (fileIndex fh) (numPages fh) (delete pageIdx (frames fh)) (fileInfo fh).

Definition readPageFromDisk (fh : t) (pageIdx : Z) : outcome bytes :=
  _ ← ku_assert (pageIdx <? numPages fh);
  readFromFile (fileInfo fh) PAGE (pageIdx * PAGE).

Definition writePageToFile (fh : t) (buffer : bytes) (pageIdx : Z) : outcome t :=
  _ ← ku_assert (pageIdx <? numPages fh);
  mret (mk (fileIndex fh) (numPages fh) (frames fh) (writeFile (fileInfo fh) buffer (pageIdx * PAGE))).

(** Without the frames of the file, which the caller has removed. *)
Definition resetToZeroPagesAndPageCapacity (fh : t) : t :=
  mk (fileIndex fh) 0 (frames fh) (truncate (fileInfo fh) 0).

(** [BufferManager::removeFilePagesFromFrames] and
    [updateFrameIfPageIsInFrameWithoutLock]. *)
Definition removeFilePagesFromFrames (fh : t) : t := mk (fileIndex fh) (numPages fh) ∅ (fileInfo fh).
Definition updateFrameIfPageIsInFrameWithoutLock (fh : t) (newPage : bytes) (pageIdx : Z) : t :=
  match frames fh !! pageIdx with Some (_, dirty) => set_frame fh pageIdx newPage dirty | None => fh end.

Definition set_fileInfo (fh : t) (f : FileInfo) : t := mk (fileIndex fh) (numPages fh) (frames fh) f.
End FileHandle.

(** ** The records *)

Record ShadowPageRecord := mk_record { originalFileIdx : Z; originalPageIdx : Z }.

Definition serialize_record (r : ShadowPageRecord) : bytes :=
  write u32_wire (originalFileIdx r) ++ write u32_wire (originalPageIdx r).
Definition deserialize_record : decoder ShadowPageRecord :=
  f ← decode u32_wire; p ← decode u32_wire; mret (mk_record f p).

(** [serializeVector] and [deserializeVector] of records. *)
Definition serialize_records (rs : list ShadowPageRecord) : bytes :=
  write u64_wire (Z.of_nat (length rs)) ++ concat (map serialize_record rs).
Fixpoint deserialize_n (n : nat) : decoder (list ShadowPageRecord) :=
  match n with O => mret [] | S n => r ← deserialize_record; rs ← deserialize_n n; mret (r :: rs) end.
Definition deserialize_records : decoder (list ShadowPageRecord) :=
  n ← decode u64_wire; deserialize_n (Z.to_nat n).

(** [ShadowFileHeader], in a page of zeros. *)
Definition header_page (numShadowPages : Z) : bytes :=
  write u32_wire (u32 numShadowPages) ++ replicate (Z.to_nat (PAGE - 4)) 0.

(** ** The shadow file *)

Module ShadowFile.
(** [shadowFile] is the file at the path of the shadow file while no handle has it
    open. *)
Record t := mk {
  shadowingFH : option FileHandle.t;
  shadowFile : option FileInfo;
  shadowPagesMap : gmap Z (gmap Z Z);
  shadowPageRecords : list ShadowPageRecord;
}.

Definition make (shadowFile : option FileInfo) : t := mk None shadowFile ∅ [].

(** The file index that the buffer manager gives to the shadow file. *)
Definition SHADOW_FILE_IDX : Z := 1.

Definition set_handle (s : t) (fh : FileHandle.t) : t :=
  mk (Some fh) (shadowFile s) (shadowPagesMap s) (shadowPageRecords s).

Definition hasShadowPage (s : t) (originalFile originalPage : Z) : bool :=
  match shadowPagesMap s !! originalFile with
  | Some pages => match pages !! originalPage with Some _ => true | None => false end
  | None => false
  end.

Definition clearShadowPage (s : t) (originalFile originalPage : Z) : t :=
  if hasShadowPage s originalFile originalPage then
    let pages := delete originalPage (default ∅ (shadowPagesMap s !! originalFile)) in
    mk (shadowingFH s) (shadowFile s)
      (if decide (pages = ∅) then delete originalFile (shadowPagesMap s) else <[originalFile := pages]> (shadowPagesMap s))
      (shadowPageRecords s)
  else s.

Definition getShadowPage (s : t) (originalFile originalPage : Z) : outcome Z :=
  match shadowPagesMap s !! originalFile with
  | Some pages => match pages !! originalPage with Some p => mret p | None => Undef end
  | None => Undef
  end.

Definition getOrCreateShadowingFH (s : t) : t * FileHandle.t :=
  match shadowingFH s with
  | Some fh => (s, fh)
  | None =>
      let fh := FileHandle.make SHADOW_FILE_IDX (match shadowFile s with Some f => f | None => mk_file [] 0 end) in
      let fh := if FileHandle.numPages fh =? 0 then (FileHandle.addNewPage fh).1 else fh in
      (mk (Some fh) None (shadowPagesMap s) (shadowPageRecords s), fh)
  end.

Definition getOrCreateShadowPage (s : t) (originalFile originalPage : Z) : outcome (t * Z) :=
  if hasShadowPage s originalFile originalPage then
    p ← getShadowPage s originalFile originalPage; mret (s, p)
  else
    let '(s, fh) := getOrCreateShadowingFH s in
    let '(fh, shadowPageIdx) := FileHandle.addNewPage fh in
    mret (mk (Some fh) (shadowFile s)
            (<[originalFile := <[originalPage := shadowPageIdx]> (default ∅ (shadowPagesMap s !! originalFile))]> (shadowPagesMap s))
            (shadowPageRecords s ++ [mk_record originalFile originalPage]), shadowPageIdx).

(** The loop over the records, from a page of the shadow file on. *)
Fixpoint applyRecords (fh : FileHandle.t) (shadowPageIdx : Z) (rs : list ShadowPageRecord) (dataFH : FileHandle.t) : outcome FileHandle.t :=
  match rs with
  | [] => mret dataFH
  | record :: rs =>
      pageBuffer ← FileHandle.readPageFromDisk fh shadowPageIdx;
      let dataFH := FileHandle.set_fileInfo dataFH (writeFile (FileHandle.fileInfo dataFH) pageBuffer (originalPageIdx record * PAGE)) in
      let dataFH := FileHandle.updateFrameIfPageIsInFrameWithoutLock dataFH pageBuffer (originalPageIdx record) in
      applyRecords fh (shadowPageIdx + 1) rs dataFH
  end.

Definition applyShadowPages (s : t) (dataFH : FileHandle.t) : outcome FileHandle.t :=
  match shadowingFH s with
  | Some fh =>
      dataFH ← applyRecords fh 1 (shadowPageRecords s) dataFH;
      mret (FileHandle.set_fileInfo dataFH (syncFile (FileHandle.fileInfo dataFH)))
  | None => Undef
  end.

Fixpoint replayRecords (shadowFileInfo : FileInfo) (shadowPageIdx : Z) (rs : list ShadowPageRecord) (dataFile : FileInfo) : outcome FileInfo :=
  match rs with
  | [] => mret dataFile
  | record :: rs =>
      pageBuffer ← readFromFile shadowFileInfo PAGE (shadowPageIdx * PAGE);
      replayRecords shadowFileInfo (shadowPageIdx + 1) rs (writeFile dataFile pageBuffer (originalPageIdx record * PAGE))
  end.

Definition replayShadowPageRecords (readOnly : bool) (shadowFileInfo dataFile : FileInfo) : outcome FileInfo :=
  if readOnly then Throw (RuntimeException "Couldn't replay shadow pages under read-only mode. Please re-open the database with read-write mode to replay shadow pages.")
  else
    headerBuffer ← readFromFile shadowFileInfo PAGE 0;
    let numShadowPages := le_value (take 4 headerBuffer) in
    reader ← BufferedFileReader.make shadowFileInfo;
    let reader := BufferedFileReader.resetReadOffset reader (u32 (numShadowPages + 1) * PAGE) in
    '(shadowPageRecords, _) ← BufferedFileReader.exec deserialize_records reader;
    replayRecords shadowFileInfo 1 shadowPageRecords dataFile.

(** The records go to the file in the writes of the serialiser: the length, then the
    two numbers of each. *)
Fixpoint writeRecords (w : BufferedFileWriter.t) (rs : list ShadowPageRecord) : outcome BufferedFileWriter.t :=
  match rs with
  | [] => mret w
  | record :: rs =>
      w ← BufferedFileWriter.write w (write u32_wire (originalFileIdx record));
      w ← BufferedFileWriter.write w (write u32_wire (originalPageIdx record));
      writeRecords w rs
  end.

Definition flushAll (s : t) : outcome t :=
  match shadowingFH s with
  | Some fh =>
      fh ← FileHandle.writePageToFile fh (header_page (Z.of_nat (length (shadowPageRecords s)))) 0;
      let fh := FileHandle.flushAllDirtyPagesInFrames fh in
      let writer := BufferedFileWriter.setFileOffset (BufferedFileWriter.make (FileHandle.fileInfo fh)) (FileHandle.numPages fh * PAGE) in
      _ ← ku_assert (Z.of_nat (length (shadowPageRecords s)) + 1 =? FileHandle.numPages fh);
      writer ← BufferedFileWriter.write writer (write u64_wire (Z.of_nat (length (shadowPageRecords s))));
      writer ← writeRecords writer (shadowPageRecords s);
      writer ← BufferedFileWriter.flush writer;
      mret (set_handle s (FileHandle.set_fileInfo fh (BufferedFileWriter.fileInfo (BufferedFileWriter.sync writer))))
  | None => Undef
  end.

Definition clear (s : t) : outcome t :=
  match shadowingFH s with
  | Some fh =>
      let fh := FileHandle.resetToZeroPagesAndPageCapacity (FileHandle.removeFilePagesFromFrames fh) in
      mret (mk (Some (FileHandle.addNewPage fh).1) (shadowFile s) ∅ [])
  | None => Undef
  end.

Definition reset (s : t) : outcome t :=
  match shadowingFH s with
  | Some _ => mret (mk None None (shadowPagesMap s) (shadowPageRecords s))
  | None => Undef
  end.
End ShadowFile.

(** ** Pages of a checkpoint *)

Module ShadowUtils.
Import ShadowFile.
Section ShadowUtils.
Context (fresh : bytes).

(** The data file and the shadow file. *)
Record files := mk_files { dataFH : FileHandle.t; shadow : ShadowFile.t }.

Definition lift_shadow (f : ShadowFile.t -> outcome ShadowFile.t) (s : files) : outcome files :=
  sh ← f (shadow s); mret (mk_files (dataFH s) sh).

(** The page of the shadow file, with what its frame has. *)
Definition createShadowVersionIfNecessaryAndPinPage (originalPage : Z) (skipReadingOriginalPage : bool) (s : files)
  : outcome (files * Z * bytes) :=
  let had := hasShadowPage (shadow s) (FileHandle.fileIndex (dataFH s)) originalPage in
  '(sh, shadowPage) ← getOrCreateShadowPage (shadow s) (FileHandle.fileIndex (dataFH s)) originalPage;
  match shadowingFH sh with
  | None => Undef
  | Some fh =>
      '(data, fh, frame) ←
        (if had then
           '(fh, frame) ← FileHandle.pinPage fresh fh shadowPage READ_PAGE; mret (dataFH s, fh, frame)
         else
           '(fh, frame) ← FileHandle.pinPage fresh fh shadowPage DONT_READ_PAGE;
           if skipReadingOriginalPage then mret (dataFH s, fh, frame)
           else
             '(data, original) ← FileHandle.pinPage fresh (dataFH s) originalPage READ_PAGE;
             mret (data, FileHandle.set_frame fh shadowPage original false, original));
      fh ← FileHandle.setLockedPageDirty fh shadowPage;
      mret (mk_files data (set_handle sh fh), shadowPage, frame)
  end.

(** [updateOp] changes the frame and may throw; the frame stays as it left it. *)
Definition updatePage (originalPageIdx : Z) (skipReadingOriginalPage : bool) (updateOp : M bytes unit) : M files unit := fun s =>
  match createShadowVersionIfNecessaryAndPinPage originalPageIdx skipReadingOriginalPage s with
  | Ret (s, shadowPage, frame) =>
      let '(r, frame) := updateOp frame in
      (r, mk_files (dataFH s)
            (match shadowingFH (shadow s) with
             | Some fh => set_handle (shadow s) (FileHandle.set_frame fh shadowPage frame true)
             | None => shadow s
             end))
  | Throw e => (Throw e, s)
  | Undef => (Undef, s)
  end.

(** Which file and page a checkpoint, or another transaction, reads: [true] is the
    shadow file. *)
Definition getFileHandleAndPhysicalPageIdxToPin (s : files) (pageIdx : Z) (isCheckpoint : bool) : outcome (bool * Z) :=
  if isCheckpoint && hasShadowPage (shadow s) (FileHandle.fileIndex (dataFH s)) pageIdx then
    p ← getShadowPage (shadow s) (FileHandle.fileIndex (dataFH s)) pageIdx; mret (true, p)
  else mret (false, pageIdx).

Definition readShadowVersionOfPage (s : files) (originalPageIdx : Z) : outcome (files * bytes) :=
  _ ← ku_assert (hasShadowPage (shadow s) (FileHandle.fileIndex (dataFH s)) originalPageIdx);
  p ← getShadowPage (shadow s) (FileHandle.fileIndex (dataFH s)) originalPageIdx;
  match shadowingFH (shadow s) with
  | Some fh => '(fh, frame) ← FileHandle.pinPage fresh fh p READ_PAGE; mret (mk_files (dataFH s) (set_handle (shadow s) fh), frame)
  | None => Undef
  end.
End ShadowUtils.
End ShadowUtils.
