(* ===== verification/ShadowFacts.v ===== *)
(** Facts on the shadow file: what files hold after page writes, byte by byte; frames that
    agree with their file; then the pages of a checkpoint, which it finds in the shadow
    file, and what an update of one does to all. *)
From stdpp Require Import gmap.
From S2P Require Import Prelude Effects Serializer Decoder BufferedFile BufferedFileFacts ShadowFile.
Local Open Scope Z_scope.

(** ** Bytes of files *)

(** A byte of a file; past its end, what a hole would have. *)
Definition byte (c : list Z) (i : Z) : Z := default 0 (c !! Z.to_nat i).

Lemma byte_ext c c' : size c = size c' -> (forall i, 0 <= i < size c -> byte c i = byte c' i) -> c = c'.
Proof.
  intros Hs Hb. apply list_eq_same_length with (n := length c); [unfold size in Hs; lia|done|].
  intros i x y Hi Hx Hy. specialize (Hb (Z.of_nat i) ltac:(unfold size; lia)). unfold byte in Hb. rewrite !Nat2Z.id in Hb. by rewrite Hx, Hy in Hb.
Qed.

Lemma byte_past c i : size c <= i -> byte c i = 0.
Proof. intros Hi. unfold byte, size in *. by rewrite lookup_ge_None_2 by lia. Qed.

Lemma byte_app a b i : 0 <= i -> byte (a ++ b) i = if i <? size a then byte a i else byte b (i - size a).
Proof.
  intros Hi. unfold byte, size. destruct (Z.ltb_spec i (Z.of_nat (length a))).
  - by rewrite lookup_app_l by lia.
  - rewrite lookup_app_r by lia. do 2 f_equal. lia.
Qed.

Lemma byte_take c n i : 0 <= i < n -> byte (take (Z.to_nat n) c) i = byte c i.
Proof. intros Hi. unfold byte. by rewrite lookup_take_lt by lia. Qed.

Lemma byte_drop c n i : 0 <= n -> 0 <= i -> byte (drop (Z.to_nat n) c) i = byte c (n + i).
Proof. intros Hn Hi. unfold byte. rewrite lookup_drop. do 2 f_equal. lia. Qed.

Lemma size_replicate n x : 0 <= n -> size (replicate (Z.to_nat n) x) = n.
Proof. intros Hn. unfold size. rewrite length_replicate. lia. Qed.

Lemma byte_zeros n i : byte (replicate n 0) i = 0.
Proof. unfold byte. destruct (replicate n 0 !! Z.to_nat i) as [x|] eqn:E; [|done]. by apply lookup_replicate in E as [-> _]. Qed.

Lemma write_size f d o : 0 <= o -> size (content (writeFile f d o)) = Z.max (size (content f)) (o + size d).
Proof.
  intros Ho. unfold writeFile. cbn [content]. unfold size. rewrite !length_app, length_take, length_replicate, length_drop. lia.
Qed.

Lemma write_byte f d o i : 0 <= o -> 0 <= i ->
  byte (content (writeFile f d o)) i = if (o <=? i) && (i <? o + size d) then byte d (i - o) else byte (content f) i.
Proof.
  intros Ho Hi. unfold writeFile. cbn [content]. set (c := content f). pose proof (size_nonneg d).
  assert (size (take (Z.to_nat o) c ++ replicate (Z.to_nat (o - size c)) 0) = o) as Hp.
  { unfold size. rewrite length_app, length_take, length_replicate. lia. }
  rewrite byte_app, Hp by lia. destruct (Z.ltb_spec i o) as [Hlt|Hge].
  - rewrite (proj2 (Z.leb_gt o i)) by lia. cbn [andb]. rewrite byte_app by lia.
    destruct (Z.lt_ge_cases (size c) o) as [Hc|Hc].
    + rewrite take_ge by (unfold size in Hc; lia). destruct (Z.ltb_spec i (size c)); [done|]. by rewrite byte_zeros, byte_past.
    + rewrite (size_take o c) by lia. rewrite (proj2 (Z.ltb_lt i o)) by lia. by apply byte_take.
  - rewrite (proj2 (Z.leb_le o i)) by lia. cbn [andb]. rewrite byte_app by lia.
    destruct (Z.ltb_spec i (o + size d)), (Z.ltb_spec (i - o) (size d)); try lia.
    rewrite byte_drop by lia. f_equal. lia.
Qed.

(** ** Page writes *)

Definition write_pages (ws : list (Z * bytes)) (c : bytes) : bytes :=
  foldl (fun c w => content (writeFile (mk_file c 0) w.2 (w.1 * PAGE))) c ws.

Lemma write_pages_cons w ws c : write_pages (w :: ws) c = write_pages ws (content (writeFile (mk_file c 0) w.2 (w.1 * PAGE))).
Proof. done. Qed.

(** What was written to a page last. *)
Fixpoint last_write (ws : list (Z * bytes)) (p : Z) : option bytes :=
  match ws with
  | [] => None
  | (q, d) :: ws => match last_write ws p with Some d' => Some d' | None => if q =? p then Some d else None end
  end.

Definition pages_ok (ws : list (Z * bytes)) : Prop := Forall (fun w => 0 <= w.1 /\ size w.2 = PAGE) ws.

Lemma write_pages_byte ws c i : pages_ok ws -> 0 <= i ->
  byte (write_pages ws c) i = match last_write ws (i / PAGE) with Some d => byte d (i mod PAGE) | None => byte c i end.
Proof.
  intros Hws Hi. revert c. induction Hws as [|[q d] ws [Hq Hd] _ IH]; intros c; [done|]. cbn [fst snd] in *.
  rewrite write_pages_cons, IH. cbn [last_write fst snd]. destruct (last_write ws (i / PAGE)); [done|].
  unfold PAGE in *. rewrite write_byte by lia. cbn [content]. rewrite Hd. destruct (Z.eqb_spec q (i / 2 ^ 12)) as [->|Hne].
  - assert (i / 2 ^ 12 * 2 ^ 12 <= i < i / 2 ^ 12 * 2 ^ 12 + 2 ^ 12) as Hin by (pose proof (Z.div_mod i (2 ^ 12)); pose proof (Z.mod_pos_bound i (2 ^ 12)); lia).
    rewrite (proj2 (Z.leb_le _ _)), (proj2 (Z.ltb_lt _ _)) by lia. cbn [andb]. f_equal. rewrite Z.mod_eq by lia. lia.
  - destruct (Z.leb_spec (q * 2 ^ 12) i), (Z.ltb_spec i (q * 2 ^ 12 + 2 ^ 12)); cbn [andb]; try done. exfalso. apply Hne.
    apply Z.div_unique with (r := i - q * 2 ^ 12); lia.
Qed.

Lemma write_pages_size ws c : pages_ok ws ->
  size (write_pages ws c) = foldr (fun w n => Z.max n (w.1 * PAGE + PAGE)) (size c) ws.
Proof.
  intros Hws. revert c. induction Hws as [|[q d] ws [Hq Hd] _ IH]; intros c; [done|]. cbn [fst snd] in *.
  rewrite write_pages_cons, IH. cbn [foldr fst snd]. rewrite write_size, Hd by (unfold PAGE; lia). cbn [content].
  clear. induction ws as [|w ws IH]; cbn; lia.
Qed.

Lemma foldr_max_le (n n' : Z) (ws : list (Z * bytes)) : n <= n' ->
  n' <= foldr (fun w n => Z.max n (w.1 * PAGE + PAGE)) n ws ->
  foldr (fun w n => Z.max n (w.1 * PAGE + PAGE)) n' ws = foldr (fun w n => Z.max n (w.1 * PAGE + PAGE)) n ws.
Proof.
  intros Hle. assert (forall m, foldr (fun w n => Z.max n (w.1 * PAGE + PAGE)) m ws = Z.max m (foldr (fun w n => Z.max n (w.1 * PAGE + PAGE)) n ws) \/ m <= n) as H.
  { intros m. destruct (Z.le_gt_cases m n) as [|Hm]; [by right|left]. induction ws as [|w ws IH]; cbn; lia. }
  intros Hm. destruct (H n') as [->|]; [lia|]. by replace n' with n by lia.
Qed.

(** Writing pages again over a file that has some of the writes, or parts of them,
    gives what writing them at first would have: nothing else may have changed. *)
Lemma write_pages_again ws c c' : pages_ok ws ->
  (forall i, 0 <= i -> last_write ws (i / PAGE) = None -> byte c' i = byte c i) ->
  size c <= size c' <= size (write_pages ws c) -> write_pages ws c' = write_pages ws c.
Proof.
  intros Hws Hout Hsz. apply byte_ext.
  - rewrite !write_pages_size in * by done. apply foldr_max_le; lia.
  - intros i [Hi _]. rewrite !write_pages_byte by done. destruct (last_write ws (i / PAGE)) eqn:E; [done|]. by apply Hout.
Qed.

Lemma size_page_at c p : 0 <= p -> (p + 1) * PAGE <= size c -> size (page_at c p) = PAGE.
Proof. intros Hp Hs. unfold page_at. apply size_take. rewrite size_drop by (unfold PAGE in *; lia). unfold PAGE in *. lia. Qed.

Lemma page_at_byte c p i : 0 <= p -> 0 <= i < PAGE -> byte (page_at c p) i = byte c (p * PAGE + i).
Proof. intros Hp Hi. unfold page_at. rewrite byte_take, byte_drop by (unfold PAGE in *; lia). done. Qed.

Lemma written_size ws c p d : pages_ok ws -> last_write ws p = Some d -> size d = PAGE /\ (p + 1) * PAGE <= size (write_pages ws c).
Proof.
  intros Hws Hl. rewrite write_pages_size by done. induction Hws as [|[q d'] ws [Hq Hd] _ IH]; [done|]. cbn [last_write foldr fst snd] in *.
  destruct (last_write ws p) as [x|]; [injection Hl as ->; destruct (IH eq_refl); split; [done|lia]|].
  destruct (Z.eqb_spec q p) as [->|]; [|done]. injection Hl as <-. split; [done|lia].
Qed.

Lemma write_pages_grows ws c : pages_ok ws -> size c <= size (write_pages ws c).
Proof. intros Hws. rewrite write_pages_size by done. clear. induction ws as [|w ws IH]; cbn; lia. Qed.

(** A written page is there afterwards; the others are as they were. *)
Lemma page_at_written ws c p d : pages_ok ws -> 0 <= p -> last_write ws p = Some d -> page_at (write_pages ws c) p = d.
Proof.
  intros Hws Hp Hl. destruct (written_size ws c p d Hws Hl) as [Hd Hs].
  apply byte_ext; rewrite size_page_at by done; [done|]. intros i Hi. rewrite page_at_byte by done.
  rewrite write_pages_byte by (try done; unfold PAGE in *; lia).
  assert ((p * PAGE + i) / PAGE = p) as -> by (rewrite Z.div_add_l, Z.div_small by (unfold PAGE in *; lia); lia).
  rewrite Hl. f_equal. rewrite Z.add_comm, Z.mod_add, Z.mod_small by (unfold PAGE in *; lia). done.
Qed.

Lemma page_at_kept ws c p : pages_ok ws -> 0 <= p -> (p + 1) * PAGE <= size c -> last_write ws p = None -> page_at (write_pages ws c) p = page_at c p.
Proof.
  intros Hws Hp Hs Hl. pose proof (write_pages_grows ws c Hws) as Hle.
  apply byte_ext; rewrite !size_page_at by (try done; lia); [done|]. intros i Hi. rewrite !page_at_byte by done.
  rewrite write_pages_byte by (try done; unfold PAGE in *; lia).
  assert ((p * PAGE + i) / PAGE = p) as -> by (rewrite Z.div_add_l, Z.div_small by (unfold PAGE in *; lia); lia).
  by rewrite Hl.
Qed.

(** ** Frames *)

Module HandleFacts.
Import FileHandle.

(** What a reader of a page gets. *)
Definition page (fh : t) (p : Z) : bytes :=
  match frames fh !! p with Some (frame, _) => frame | None => page_at (content (fileInfo fh)) p end.

Definition in_file (fh : t) (p : Z) : Prop := (p + 1) * PAGE <= size (content (fileInfo fh)).
Definition stored (fh : t) (p : Z) : Prop := is_Some (frames fh !! p) \/ in_file fh p.
Definition clean (fh : t) (p : Z) : Prop := in_file fh p /\ page_at (content (fileInfo fh)) p = page fh p.

(** Of the shadow file, [whole] says that nothing follows its pages; the data file can
    have pages that were given up. *)
Definition fh_ok (whole : bool) (fh : t) : Prop :=
  0 <= numPages fh < 2 ^ 32 /\ (whole = true -> size (content (fileInfo fh)) <= numPages fh * PAGE) /\
  0 <= synced (fileInfo fh) <= size (content (fileInfo fh)) /\
  forall p frame dirty, frames fh !! p = Some (frame, dirty) ->
    0 <= p < numPages fh /\ size frame = PAGE /\ (dirty = false -> clean fh p).

Lemma clean_stored fh p : clean fh p -> stored fh p.
Proof. by intros [H _]; right. Qed.

Lemma size_page {whole} fh p : fh_ok whole fh -> 0 <= p -> stored fh p -> size (page fh p) = PAGE.
Proof.
  intros (_ & _ & _ & Hf) Hp Hs. unfold page. destruct (frames fh !! p) as [[frame d]|] eqn:E; [by destruct (Hf p frame d E) as (_ & ? & _)|].
  destruct Hs as [[? Hs]|Hs]; [by rewrite E in Hs|]. by apply size_page_at.
Qed.

Lemma written_at f d p q : 0 <= p -> 0 <= q -> size d = PAGE ->
  size (content (writeFile f d (p * PAGE))) = Z.max (size (content f)) ((p + 1) * PAGE) /\
  ((q + 1) * PAGE <= size (content f) \/ q = p ->
   page_at (content (writeFile f d (p * PAGE))) q = if q =? p then d else page_at (content f) q).
Proof.
  intros Hp Hq Hd. assert (pages_ok [(p, d)]) as Hws by (by constructor). split.
  - rewrite write_size by (unfold PAGE; lia). rewrite Hd. unfold PAGE. lia.
  - intros Hin. assert (content (writeFile f d (p * PAGE)) = write_pages [(p, d)] (content f)) as -> by (by destruct f).
    destruct (Z.eqb_spec q p) as [->|Hne].
    + apply page_at_written; [done|done|]. cbn. by rewrite Z.eqb_refl.
    + apply page_at_kept; [done|done|lia|]. cbn. by rewrite (proj2 (Z.eqb_neq p q)) by lia.
Qed.

(** Writing a dirty page changes no page that is stored. *)
Lemma flush_page {whole} fh p : fh_ok whole fh -> 0 <= p ->
  let fh' := flushPageIfDirtyWithoutLock fh p in
  fh_ok whole fh' /\ numPages fh' = numPages fh /\ fileIndex fh' = fileIndex fh /\
  (forall q, 0 <= q -> stored fh q -> stored fh' q /\ page fh' q = page fh q /\ (clean fh q \/ q = p -> clean fh' q)).
Proof.
  intros Hok Hp. pose proof Hok as (Hn & Hs & Hsy & Hf). cbn zeta. unfold flushPageIfDirtyWithoutLock.
  assert (forall fh', fh' = fh -> (forall q, 0 <= q -> stored fh q -> q = p -> clean fh q) ->
    fh_ok whole fh' /\ numPages fh' = numPages fh /\ fileIndex fh' = fileIndex fh /\
    (forall q, 0 <= q -> stored fh q -> stored fh' q /\ page fh' q = page fh q /\ (clean fh q \/ q = p -> clean fh' q))) as Hsame.
  { intros fh' -> Hc. split_and!; try done. intros q Hq Hst. split_and!; [done|done|]. intros [?|?]; [done|by apply Hc]. }
  destruct (frames fh !! p) as [[frame []]|] eqn:E.
  - destruct (Hf p frame true E) as (Hpn & Hsz & _).
    set (fh' := set_frame _ p frame false).
    assert (frames fh' = <[p := (frame, false)]> (frames fh)) as Hfr by done.
    assert (content (fileInfo fh') = content (writeFile (fileInfo fh) frame (p * PAGE))) as Hco by done.
    assert (forall q, 0 <= q -> (q + 1) * PAGE <= size (content (fileInfo fh)) \/ q = p ->
      page_at (content (fileInfo fh')) q = if q =? p then frame else page_at (content (fileInfo fh)) q) as Hpage.
    { intros q Hq. rewrite Hco. by apply (written_at (fileInfo fh) frame p q). }
    assert (size (content (fileInfo fh')) = Z.max (size (content (fileInfo fh))) ((p + 1) * PAGE)) as Hsize.
    { rewrite Hco. by apply (written_at (fileInfo fh) frame p p). }
    assert (forall q, 0 <= q -> stored fh q -> stored fh' q /\ page fh' q = page fh q /\ (clean fh q \/ q = p -> clean fh' q)) as Hall.
    { intros q Hq Hst. assert (page fh' q = page fh q) as Hpq.
      { unfold page. rewrite Hfr. destruct (Z.eq_dec q p) as [->|Hne]; [by rewrite lookup_insert_eq, E|rewrite lookup_insert_ne by done].
        destruct (frames fh !! q) as [[c d]|] eqn:Eq; [done|]. destruct Hst as [[? Hst]|Hst]; [by rewrite Eq in Hst|].
        rewrite Hpage by (try done; by left). by rewrite (proj2 (Z.eqb_neq q p)). }
      split_and!; [|done|].
      - destruct Hst as [Hst|Hst]; [left; rewrite Hfr; by apply lookup_insert_is_Some'; right|right; unfold in_file in *; lia].
      - intros Hc. unfold clean, in_file. rewrite Hpq, Hsize. destruct (Z.eq_dec q p) as [->|Hne].
        + split; [lia|]. rewrite Hpage by (try done; by right). rewrite Z.eqb_refl. unfold page. by rewrite E.
        + destruct Hc as [[Hin Hat]|]; [|done]. split; [unfold in_file in Hin; lia|]. rewrite Hpage by (try done; by left).
          by rewrite (proj2 (Z.eqb_neq q p)). }
    split; [split; [exact Hn|split; [|split]]|by split].
    + intros Hw. specialize (Hs Hw). rewrite Hsize. change (numPages fh') with (numPages fh). unfold PAGE in *. nia.
    + rewrite Hsize. change (synced (fileInfo fh')) with (Z.min (synced (fileInfo fh)) (p * PAGE)). unfold PAGE in *. lia.
    + intros q c d Hq. rewrite Hfr in Hq. change (numPages fh') with (numPages fh). destruct (Z.eq_dec q p) as [->|Hne].
      * rewrite lookup_insert_eq in Hq. injection Hq as <- <-. split_and!; [lia|lia|done|]. intros _. apply Hall; [done|by left; rewrite E|by right].
      * rewrite lookup_insert_ne in Hq by done. destruct (Hf q c d Hq) as (Hqn & Hsq & Hcl). split_and!; [lia|lia|done|].
        intros Hd. apply Hall; [lia|by left; rewrite Hq|left; by apply Hcl].
  - apply Hsame; [done|]. intros q Hq _ ->. by apply (Hf p frame false E).
  - apply Hsame; [done|]. intros q Hq [[? Hst]|Hst] ->; [by rewrite E in Hst|]. split; [done|]. unfold page. by rewrite E.
Qed.

(** Neither does giving up a frame. *)
Lemma evict_page {whole} fh p : fh_ok whole fh -> 0 <= p -> fh_ok whole (evict fh p) /\ numPages (evict fh p) = numPages fh /\ fileIndex (evict fh p) = fileIndex fh /\
  forall q, 0 <= q -> stored fh q -> stored (evict fh p) q /\ page (evict fh p) q = page fh q.
Proof.
  intros Hok Hp. destruct (flush_page fh p Hok Hp) as (Hok1 & Hn1 & Hi1 & Hall). unfold evict. set (fh1 := flushPageIfDirtyWithoutLock fh p) in *.
  set (fh2 := mk (fileIndex fh1) (numPages fh1) (delete p (frames fh1)) (fileInfo fh1)).
  assert (forall q, 0 <= q -> stored fh q -> stored fh2 q /\ page fh2 q = page fh q) as Hpages.
  { intros q Hq Hst. destruct (Hall q Hq Hst) as (Hst1 & <- & Hcl). unfold stored, page. change (frames fh2) with (delete p (frames fh1)). destruct (Z.eq_dec q p) as [->|Hne].
    - destruct (Hcl (or_intror eq_refl)) as [Hin Hat]. rewrite lookup_delete_eq. split; [by right|exact Hat].
    - rewrite lookup_delete_ne by done. by split. }
  split; [|by split]. destruct Hok1 as (Hn & Hs & Hsy & Hf). split; [exact Hn|split; [exact Hs|split; [exact Hsy|]]]. intros q c d Hq.
  change (frames fh2) with (delete p (frames fh1)) in Hq. apply lookup_delete_Some in Hq as [Hne Hq]. destruct (Hf q c d Hq) as (Hqn & Hsq & Hcl). split; [exact Hqn|split; [done|]].
  intros Hd. destruct (Hcl Hd) as [Hin Hat]. split; [done|]. change (content (fileInfo fh2)) with (content (fileInfo fh1)).
  rewrite Hat. unfold page. change (frames fh2) with (delete p (frames fh1)). by rewrite lookup_delete_ne.
Qed.

(** After all dirty pages are written the file has every page that is stored. *)
Lemma flush_all {whole} fh : fh_ok whole fh -> let fh' := flushAllDirtyPagesInFrames fh in
  fh_ok whole fh' /\ numPages fh' = numPages fh /\ fileIndex fh' = fileIndex fh /\
  forall q, 0 <= q < numPages fh -> stored fh q -> clean fh' q /\ page fh' q = page fh q.
Proof.
  intros Hok. cbn zeta. unfold flushAllDirtyPagesInFrames.
  assert (forall l fh, fh_ok whole fh -> Forall (fun p => 0 <= p) l -> let fh' := foldl flushPageIfDirtyWithoutLock fh l in
    fh_ok whole fh' /\ numPages fh' = numPages fh /\ fileIndex fh' = fileIndex fh /\
    forall q, 0 <= q -> stored fh q -> page fh' q = page fh q /\ (clean fh q \/ q ∈ l -> clean fh' q)) as Hfold.
  { clear. intros l. induction l as [|p l IH]; intros fh Hok Hl; cbn zeta; cbn [foldl].
    - split_and!; try done. intros q Hq Hst. split; [done|]. intros [?|Hin]; [done|by apply not_elem_of_nil in Hin].
    - apply Forall_cons in Hl as [Hp Hl]. destruct (flush_page fh p Hok Hp) as (Hok1 & Hn1 & Hi1 & Hall).
      destruct (IH _ Hok1 Hl) as (Hok2 & Hn2 & Hi2 & Hall2). split_and!; [done|congruence|congruence|].
      intros q Hq Hst. destruct (Hall q Hq Hst) as (Hst1 & Hpg1 & Hcl1). destruct (Hall2 q Hq Hst1) as [Hpg2 Hcl2].
      split; [congruence|]. intros Hc. apply Hcl2. rewrite elem_of_cons in Hc. destruct Hc as [Hc|[Hc|Hc]]; [left; apply Hcl1; by left|left; apply Hcl1; by right|by right]. }
  destruct (Hfold (seqZ 0 (numPages fh)) fh Hok) as (Hok' & Hn & Hi & Hall).
  { apply Forall_forall. intros p Hp. apply elem_of_seqZ in Hp. lia. }
  split_and!; try done. intros q Hq Hst. destruct (Hall q (proj1 Hq) Hst) as [Hpg Hcl]. split; [|done]. apply Hcl. right. apply elem_of_seqZ. lia.
Qed.

Lemma readPageFromDisk_run fh p : 0 <= p < numPages fh -> clean fh p -> readPageFromDisk fh p = Ret (page fh p).
Proof.
  intros Hp [Hin Hat]. unfold readPageFromDisk. rewrite ku_assert_true by (apply Z.ltb_lt; lia). cbn [mbind outcome_bind].
  unfold in_file in Hin. rewrite ReaderFacts.readFromFile_run by (unfold PAGE in *; lia). f_equal. exact Hat.
Qed.

(** A page that is in no frame is written. *)
Lemma writePage_run {whole} fh p d : fh_ok whole fh -> 0 <= p < numPages fh -> frames fh !! p = None -> size d = PAGE ->
  exists fh', writePageToFile fh d p = Ret fh' /\ fh_ok whole fh' /\ numPages fh' = numPages fh /\ fileIndex fh' = fileIndex fh /\
    clean fh' p /\ page fh' p = d /\
    forall q, 0 <= q -> q <> p -> stored fh q -> stored fh' q /\ page fh' q = page fh q.
Proof.
  intros Hok Hp Hno Hd. pose proof Hok as (Hn & Hs & Hsy & Hf). unfold writePageToFile. rewrite ku_assert_true by (apply Z.ltb_lt; lia). cbn [mbind outcome_bind].
  set (fh' := mk _ _ _ _). exists fh'. split; [done|].
  pose proof (fun q Hq => written_at (fileInfo fh) d p q (proj1 Hp) Hq Hd) as Hw.
  change (writeFile (fileInfo fh) d (p * PAGE)) with (fileInfo fh') in Hw.
  destruct (Hw p (proj1 Hp)) as [Hsize Hat]. specialize (Hat (or_intror eq_refl)). rewrite Z.eqb_refl in Hat.
  assert (page fh' p = d) as Hpd by (unfold page; change (frames fh') with (frames fh); by rewrite Hno).
  assert (clean fh' p) as Hcl by (split; [unfold in_file; lia|exact (eq_trans Hat (eq_sym Hpd))]).
  assert (forall q, 0 <= q -> q <> p -> stored fh q -> stored fh' q /\ page fh' q = page fh q) as Hother.
  { intros q Hq Hne Hst. unfold stored, page, in_file in *. change (frames fh') with (frames fh). split; [destruct Hst; [by left|right; lia]|].
    destruct (frames fh !! q) as [[c e]|] eqn:E; [done|]. destruct Hst as [[? Hst]|Hst]; [done|].
    destruct (Hw q Hq) as [_ ->]; [by rewrite (proj2 (Z.eqb_neq q p))|by left]. }
  split_and!; try done. split; [exact Hn|split; [|split]].
  - intros Hwh. specialize (Hs Hwh). rewrite Hsize. change (numPages fh') with (numPages fh). unfold PAGE in *. nia.
  - rewrite Hsize. change (synced (fileInfo fh')) with (Z.min (synced (fileInfo fh)) (p * PAGE)). unfold PAGE in *. lia.
  - intros q c e Hq. change (frames fh') with (frames fh) in Hq. destruct (Hf q c e Hq) as (Hqn & Hsq & Hcq). split_and!; [lia|exact (proj2 Hqn)|done|].
    intros He. destruct (Hcq He) as [Hin Hatq]. assert (q <> p) as Hne by (intros ->; congruence).
    split; [unfold in_file in *; lia|]. destruct (Hw q (proj1 Hqn)) as [_ ->]; [|by left]. rewrite (proj2 (Z.eqb_neq q p)) by done.
    rewrite Hatq. unfold page. change (frames fh') with (frames fh). by rewrite Hq.
Qed.
End HandleFacts.

(** The pages of a checkpoint: which it finds in the shadow file, and what an update
    of one does to all. *)
Import ShadowFile ShadowUtils HandleFacts.

(** ** The pages of a checkpoint *)

Definition index_of (sh : ShadowFile.t) (d p : Z) : option Z := pages ← shadowPagesMap sh !! d; pages !! p.

(** The shadow file of the data file with index [d]: its records name different
    pages, page [i] of it is that of the [i]-th record, and the map finds it. *)
Definition shadow_ok (d : Z) (sh : ShadowFile.t) : Prop :=
  0 <= d < 2 ^ 32 /\
  (forall p i, index_of sh d p = Some i <-> 1 <= i /\ shadowPageRecords sh !! Z.to_nat (i - 1) = Some (mk_record d p)) /\
  Forall (fun r => originalFileIdx r = d /\ 0 <= originalPageIdx r < 2 ^ 32) (shadowPageRecords sh) /\
  match shadowingFH sh with
  | None => shadowFile sh = None /\ shadowPageRecords sh = []
  | Some fh =>
      fh_ok true fh /\ FileHandle.numPages fh = 1 + Z.of_nat (length (shadowPageRecords sh)) /\ FileHandle.frames fh !! 0 = None /\
      forall i, 1 <= i < FileHandle.numPages fh -> stored fh i
  end.

Definition files_ok (s : files) : Prop := fh_ok false (dataFH s) /\ shadow_ok (FileHandle.fileIndex (dataFH s)) (shadow s).

(** What the checkpoint has in a page. *)
Definition view (s : files) (p : Z) : bytes :=
  match index_of (shadow s) (FileHandle.fileIndex (dataFH s)) p, shadowingFH (shadow s) with
  | Some i, Some fh => page fh i
  | _, _ => page (dataFH s) p
  end.

(** How it reads the page, in the code: where to pin, and the frame that is pinned. *)
Definition read_page (fresh : bytes) (s : files) (p : Z) (isCheckpoint : bool) : outcome bytes :=
  where_ ← getFileHandleAndPhysicalPageIdxToPin s p isCheckpoint;
  match (if where_.1 : bool then shadowingFH (shadow s) else Some (dataFH s)) with
  | Some fh => '(_, frame) ← FileHandle.pinPage fresh fh where_.2 READ_PAGE; mret frame
  | None => Undef
  end.

Lemma hasShadowPage_index sh d p : hasShadowPage sh d p = match index_of sh d p with Some _ => true | None => false end.
Proof. unfold hasShadowPage, index_of. destruct (shadowPagesMap sh !! d) as [m|]; cbn; [by destruct (m !! p)|done]. Qed.

Lemma getShadowPage_index sh d p i : index_of sh d p = Some i -> getShadowPage sh d p = Ret i.
Proof. unfold getShadowPage, index_of. destruct (shadowPagesMap sh !! d) as [m|]; cbn; [by intros ->|done]. Qed.

(** A file of which a page is only read keeps its pages, its other frames, and gets no
    dirty ones. *)
Definition all_clean (fh : FileHandle.t) : Prop := forall p frame dirty, FileHandle.frames fh !! p = Some (frame, dirty) -> dirty = false.
Definition only_read (p : Z) (a b : FileHandle.t) : Prop :=
  FileHandle.fileIndex b = FileHandle.fileIndex a /\ FileHandle.fileInfo b = FileHandle.fileInfo a /\
  FileHandle.numPages b = FileHandle.numPages a /\ (forall q, page b q = page a q) /\ (all_clean a -> all_clean b) /\
  (forall q, q <> p -> FileHandle.frames b !! q = FileHandle.frames a !! q).

Lemma pin_read {whole} fresh fh p : fh_ok whole fh -> 0 <= p < FileHandle.numPages fh -> stored fh p ->
  exists fh', FileHandle.pinPage fresh fh p READ_PAGE = Ret (fh', page fh p) /\ fh_ok whole fh' /\
    FileHandle.numPages fh' = FileHandle.numPages fh /\ FileHandle.fileIndex fh' = FileHandle.fileIndex fh /\
    FileHandle.fileInfo fh' = FileHandle.fileInfo fh /\ is_Some (FileHandle.frames fh' !! p) /\
    (forall q, q <> p -> FileHandle.frames fh' !! q = FileHandle.frames fh !! q) /\
    (forall q, page fh' q = page fh q) /\ (forall q, stored fh q -> stored fh' q) /\ (all_clean fh -> all_clean fh').
Proof.
  intros Hok Hp Hst. pose proof Hok as (Hn & Hs & Hsy & Hf). unfold FileHandle.pinPage. rewrite ku_assert_true by (apply Z.ltb_lt; lia). cbn [mbind outcome_bind].
  unfold page at 1. destruct (FileHandle.frames fh !! p) as [[c e]|] eqn:E.
  - exists fh. split_and!; try done.
  - destruct Hst as [[? Hst]|Hin]; [by rewrite E in Hst|]. unfold in_file in Hin.
    rewrite ReaderFacts.readFromFile_run by (unfold PAGE in *; lia). cbn [mbind outcome_bind].
    change (take (Z.to_nat PAGE) (drop (Z.to_nat (p * PAGE)) (content (FileHandle.fileInfo fh)))) with (page_at (content (FileHandle.fileInfo fh)) p).
    set (fh' := FileHandle.set_frame fh p _ false).
    assert (FileHandle.frames fh' = <[p := (page_at (content (FileHandle.fileInfo fh)) p, false)]> (FileHandle.frames fh)) as Hfr by done.
    assert (forall q, page fh' q = page fh q) as Hpage.
    { intros q. unfold page. rewrite Hfr. destruct (decide (q = p)) as [->|Hne]; [by rewrite lookup_insert_eq, E|by rewrite lookup_insert_ne by done]. }
    exists fh'. split_and!; try done.
    + split; [exact Hn|split; [exact Hs|split; [exact Hsy|]]]. intros q c e Hq. rewrite Hfr in Hq. destruct (decide (q = p)) as [->|Hne].
      * rewrite lookup_insert_eq in Hq. injection Hq as <- <-. split_and!; [lia|exact (proj2 Hp)|apply size_page_at; [lia|exact Hin]|]. intros _. split; [exact Hin|].
        rewrite Hpage. unfold page. by rewrite E.
      * rewrite lookup_insert_ne in Hq by done. destruct (Hf q c e Hq) as (Hqn & Hsq & Hc). split_and!; [lia|exact (proj2 Hqn)|done|]. intros He.
        destruct (Hc He) as [H1 H2]. split; [exact H1|by rewrite Hpage].
    + rewrite Hfr, lookup_insert_eq. by eexists.
    + intros q Hne. by rewrite Hfr, lookup_insert_ne by done.
    + intros q [Hst|Hst]; [left|by right]. rewrite Hfr. apply lookup_insert_is_Some'. by right.
    + intros Hc q c e. rewrite Hfr. destruct (decide (q = p)) as [->|Hne]; [rewrite lookup_insert_eq; by intros [= _ <-]|].
      rewrite lookup_insert_ne by done. apply Hc.
Qed.

Lemma set_frame_ok {whole} fh p c : fh_ok whole fh -> 0 <= p < FileHandle.numPages fh -> size c = PAGE ->
  fh_ok whole (FileHandle.set_frame fh p c true) /\
  (forall q, page (FileHandle.set_frame fh p c true) q = if q =? p then c else page fh q) /\
  (forall q, stored fh q \/ q = p -> stored (FileHandle.set_frame fh p c true) q).
Proof.
  intros Hok Hp Hc. pose proof Hok as (Hn & Hs & Hsy & Hf). set (fh' := FileHandle.set_frame fh p c true).
  assert (FileHandle.frames fh' = <[p := (c, true)]> (FileHandle.frames fh)) as Hfr by done.
  assert (forall q, page fh' q = if q =? p then c else page fh q) as Hpage.
  { intros q. unfold page. rewrite Hfr. destruct (Z.eqb_spec q p) as [->|Hne]; [by rewrite lookup_insert_eq|by rewrite lookup_insert_ne by done]. }
  split_and!; [|exact Hpage|].
  - split; [exact Hn|split; [exact Hs|split; [exact Hsy|]]]. intros q b e Hq. rewrite Hfr in Hq. destruct (decide (q = p)) as [->|Hne].
    + rewrite lookup_insert_eq in Hq. injection Hq as <- <-. split_and!; [lia|exact (proj2 Hp)|done|done].
    + rewrite lookup_insert_ne in Hq by done. destruct (Hf q b e Hq) as (Hqn & Hsq & Hcl). split_and!; [lia|exact (proj2 Hqn)|done|]. intros He.
      destruct (Hcl He) as [H1 H2]. split; [exact H1|]. rewrite Hpage. by rewrite (proj2 (Z.eqb_neq q p)).
  - intros q [[Hst|Hst]| ->]; [left; rewrite Hfr; apply lookup_insert_is_Some'; by right|by right|left; rewrite Hfr, lookup_insert_eq; by eexists].
Qed.

(** A page is added at the end, in a dirty frame. *)
Lemma add_page_ok {whole} fh c : fh_ok whole fh -> FileHandle.numPages fh + 1 < 2 ^ 32 -> size c = PAGE ->
  let fh' := FileHandle.set_frame (FileHandle.addNewPage fh).1 (FileHandle.numPages fh) c true in
  fh_ok whole fh' /\ FileHandle.numPages fh' = FileHandle.numPages fh + 1 /\
  (forall q, page fh' q = if q =? FileHandle.numPages fh then c else page fh q) /\
  (forall q, stored fh q \/ q = FileHandle.numPages fh -> stored fh' q).
Proof.
  intros Hok Hb Hc. pose proof Hok as (Hn & Hs & Hsy & Hf). cbn zeta.
  assert (FileHandle.numPages (FileHandle.addNewPage fh).1 = FileHandle.numPages fh + 1) as Hnp by (cbn; unfold u32; by rewrite wrap_small by lia).
  destruct (set_frame_ok (whole := whole) (FileHandle.addNewPage fh).1 (FileHandle.numPages fh) c) as (Hok' & Hpage & Hst).
  - split; [rewrite Hnp; lia|split; [intros Hw; specialize (Hs Hw); rewrite Hnp; cbn; unfold PAGE in *; lia|split; [exact Hsy|]]]. intros q b e Hq. rewrite Hnp.
    destruct (Hf q b e Hq) as (Hqn & Hsq & Hcl). split_and!; [lia|lia|done|exact Hcl].
  - rewrite Hnp. lia.
  - done.
  - split_and!; [done|done|exact Hpage|exact Hst].
Qed.

Lemma handle_run d sh : shadow_ok d sh -> exists sh1 fh, getOrCreateShadowingFH sh = (sh1, fh) /\ shadowingFH sh1 = Some fh /\ shadow_ok d sh1 /\
  shadowPagesMap sh1 = shadowPagesMap sh /\ shadowPageRecords sh1 = shadowPageRecords sh /\
  (forall fh0, shadowingFH sh = Some fh0 -> fh = fh0) .
Proof.
  intros Hok. pose proof Hok as (Hd & Hidx & Hrs & Hfh). unfold getOrCreateShadowingFH. destruct (shadowingFH sh) as [fh|] eqn:E.
  - exists sh, fh. split_and!; try done. by intros ? [= ->].
  - destruct Hfh as [Hfile Hnil]. rewrite Hfile.
    exists (mk (Some (FileHandle.mk SHADOW_FILE_IDX 1 ∅ (mk_file [] 0))) None (shadowPagesMap sh) (shadowPageRecords sh)), (FileHandle.mk SHADOW_FILE_IDX 1 ∅ (mk_file [] 0)).
    split; [reflexivity|]. split; [done|]. split; [|by split_and!].
    split; [exact Hd|]. split; [exact Hidx|]. split; [exact Hrs|]. cbn [shadowingFH shadowPageRecords]. rewrite Hnil.
    split; [|split; [done|split; [done|intros i Hi; cbn in Hi; lia]]].
    split; [done|]. split; [done|]. split; [done|]. intros p frame dirty Hp. cbn in Hp. by rewrite lookup_empty in Hp.
Qed.

Lemma index_insert d p i sh fh f rs q :
  index_of (mk fh f (<[d := <[p := i]> (default ∅ (shadowPagesMap sh !! d))]> (shadowPagesMap sh)) rs) d q =
  if q =? p then Some i else index_of sh d q.
Proof.
  unfold index_of. cbn [shadowPagesMap]. rewrite lookup_insert_eq. cbn. destruct (Z.eqb_spec q p) as [->|Hne]; [by rewrite lookup_insert_eq|].
  rewrite lookup_insert_ne by done. destruct (shadowPagesMap sh !! d) as [m|]; cbn; [done|]. apply lookup_empty.
Qed.

Lemma index_handle d sh p i : shadow_ok d sh -> index_of sh d p = Some i -> exists fh, shadowingFH sh = Some fh /\ 1 <= i < FileHandle.numPages fh /\
  fh_ok true fh /\ stored fh i.
Proof.
  intros (Hd & Hidx & Hrs & Hfh) Hi. apply Hidx in Hi as [Hi Hr]. apply lookup_lt_Some in Hr as Hlt.
  destruct (shadowingFH sh) as [fh|]; [|destruct Hfh as [_ Hnil]; rewrite Hnil in Hlt; cbn in Hlt; lia].
  destruct Hfh as (Hok & Hn & _ & Hst). exists fh. split_and!; try done; try lia. apply Hst. lia.
Qed.

Section update.
Context (fresh : bytes) (fresh_size : size fresh = PAGE).

(** A page that is in the shadow file already. *)
Lemma create_again s p i skip : files_ok s -> index_of (shadow s) (FileHandle.fileIndex (dataFH s)) p = Some i ->
  exists s' fh, createShadowVersionIfNecessaryAndPinPage fresh p skip s = Ret (s', i, view s p) /\ files_ok s' /\
    dataFH s' = dataFH s /\ shadowingFH (shadow s') = Some fh /\ 0 <= i < FileHandle.numPages fh /\
    shadowPageRecords (shadow s') = shadowPageRecords (shadow s) /\
    (forall q, index_of (shadow s') (FileHandle.fileIndex (dataFH s)) q = index_of (shadow s) (FileHandle.fileIndex (dataFH s)) q) /\
    (forall q, view s' q = view s q).
Proof.
  intros [Hdata Hsh] Hi. set (d := FileHandle.fileIndex (dataFH s)) in *. destruct (index_handle d (shadow s) p i Hsh Hi) as (fh & Hfh & Hin & Hok & Hst).
  unfold createShadowVersionIfNecessaryAndPinPage, getOrCreateShadowPage. fold d. rewrite hasShadowPage_index, Hi.
  rewrite (getShadowPage_index _ _ _ i Hi). cbn [mbind outcome_bind mret outcome_ret]. rewrite Hfh.
  destruct (pin_read fresh fh i Hok ltac:(lia) Hst) as (fh1 & -> & Hok1 & Hn1 & Hi1 & Hf1 & Hfr1 & Hother & Hpg1 & Hst1 & _). cbn [mbind outcome_bind mret outcome_ret].
  unfold FileHandle.setLockedPageDirty. rewrite ku_assert_true by (apply Z.ltb_lt; lia). cbn [mbind outcome_bind].
  destruct Hfr1 as [[c e] Hfr1]. rewrite Hfr1. cbn [mbind outcome_bind mret outcome_ret].
  assert (c = page fh i) as ->. { rewrite <-Hpg1. unfold page. by rewrite Hfr1. }
  assert (size (page fh i) = PAGE) as Hsz by (eapply size_page; [done|lia|done]).
  destruct (set_frame_ok fh1 i (page fh i) Hok1 ltac:(lia) Hsz) as (Hok2 & Hpg2 & Hst2).
  assert (view s p = page fh i) as Hv by (unfold view; fold d; by rewrite Hi, Hfh).
  eexists _, _. rewrite Hv. split; [done|]. destruct Hsh as (Hd & Hidx & Hrs & Hrest). rewrite Hfh in Hrest. destruct Hrest as (_ & Hnum & H0 & Hall).
  split_and!; try done.
  - split; [exact Hdata|]. split; [exact Hd|]. split; [exact Hidx|]. split; [exact Hrs|]. cbn [shadow set_handle shadowingFH shadowPageRecords].
    split_and!; [exact Hok2|cbn; lia| |].
    + cbn. rewrite lookup_insert_ne by lia. rewrite Hother by lia. exact H0.
    + intros j Hj. cbn in Hj. apply Hst2. left. apply Hst1, Hall. lia.
  - lia.
  - cbn. lia.
  - intros q. unfold view. cbn [dataFH shadow set_handle shadowingFH]. fold d. change (index_of (set_handle (shadow s) (FileHandle.set_frame fh1 i (page fh i) true)) d q) with (index_of (shadow s) d q).
    rewrite Hfh. destruct (index_of (shadow s) d q) as [j|]; [|done]. rewrite Hpg2, Hpg1. destruct (Z.eqb_spec j i) as [->|]; done.
Qed.

(** A page that gets its shadow now. *)
Lemma create_new s p (skip : bool) : files_ok s -> 0 <= p < 2 ^ 32 -> Z.of_nat (length (shadowPageRecords (shadow s))) + 2 < 2 ^ 32 ->
  index_of (shadow s) (FileHandle.fileIndex (dataFH s)) p = None ->
  skip = true \/ p < FileHandle.numPages (dataFH s) /\ stored (dataFH s) p ->
  exists s' fh i, createShadowVersionIfNecessaryAndPinPage fresh p skip s = Ret (s', i, if skip then fresh else view s p) /\ files_ok s' /\
    only_read p (dataFH s) (dataFH s') /\
    shadowingFH (shadow s') = Some fh /\ 0 <= i < FileHandle.numPages fh /\
    length (shadowPageRecords (shadow s')) = S (length (shadowPageRecords (shadow s))) /\
    (forall q, index_of (shadow s') (FileHandle.fileIndex (dataFH s)) q = if q =? p then Some i else index_of (shadow s) (FileHandle.fileIndex (dataFH s)) q) /\
    (forall q, q <> p -> view s' q = view s q).
Proof.
  intros [Hdata Hsh] Hp Hb Hno Hold. set (d := FileHandle.fileIndex (dataFH s)) in *.
  destruct (handle_run d (shadow s) Hsh) as (sh1 & fh & Hget & Hfh1 & Hsh1 & Hmap1 & Hrs1 & Hsame).
  pose proof Hsh1 as (Hd & Hidx & Hrs & Hrest). rewrite Hfh1 in Hrest. destruct Hrest as (Hok & Hnum & H0 & Hall).
  rewrite Hrs1 in Hidx, Hnum, Hrs. set (rs := shadowPageRecords (shadow s)) in *.
  assert (forall q, index_of sh1 d q = index_of (shadow s) d q) as Hsame1 by (intros q; unfold index_of; by rewrite Hmap1).
  set (i := FileHandle.numPages fh).
  assert (FileHandle.frames fh !! i = None) as Hfri.
  { destruct (FileHandle.frames fh !! i) as [[c e]|] eqn:E; [|done]. destruct Hok as (_ & _ & _ & Hf). destruct (Hf i c e E) as (Hlt & _). unfold i in Hlt. lia. }
  (* the original page, if it is read *)
  assert (exists data frame, frame = (if skip then fresh else view s p) /\ size frame = PAGE /\ fh_ok false data /\ only_read p (dataFH s) data /\
    (if skip then data = dataFH s else FileHandle.pinPage fresh (dataFH s) p READ_PAGE = Ret (data, frame))) as (data & frame & Hframe & Hsz & Hdok & Hread & Hpin).
  { destruct skip; [by exists (dataFH s), fresh|]. destruct Hold as [|[Hlt Hst]]; [done|].
    destruct (pin_read fresh (dataFH s) p Hdata ltac:(lia) Hst) as (data & Hrun & Hdok & Hdn & Hdi & Hdf & _ & Hdfr & Hdp & _ & Hdc).
    exists data, (page (dataFH s) p). split_and!; try done; [unfold view; fold d; by rewrite Hno|]. eapply size_page; [done|lia|done]. }
  pose proof Hread as (Hdi & Hdf & Hdn & Hdp & Hdc & _). fold d in Hdi.
  destruct (add_page_ok fh frame Hok ltac:(lia) Hsz) as (Hok2 & Hn2 & Hpg2 & Hst2). fold i in Hok2, Hn2, Hpg2, Hst2.
  set (fh2 := FileHandle.set_frame (FileHandle.addNewPage fh).1 i frame true) in *.
  set (sh2 := mk (Some fh2) (shadowFile sh1) (<[d := <[p := i]> (default ∅ (shadowPagesMap sh1 !! d))]> (shadowPagesMap sh1)) (shadowPageRecords sh1 ++ [mk_record d p])).
  assert (createShadowVersionIfNecessaryAndPinPage fresh p skip s = Ret (mk_files data sh2, i, frame)) as Hrun.
  { unfold createShadowVersionIfNecessaryAndPinPage, getOrCreateShadowPage. fold d. rewrite hasShadowPage_index, Hno, Hget.
    change (FileHandle.addNewPage fh) with ((FileHandle.addNewPage fh).1, i). cbn [mbind outcome_bind mret outcome_ret shadowingFH].
    assert (FileHandle.numPages (FileHandle.addNewPage fh).1 = i + 1) as Hnp by (exact Hn2).
    assert (FileHandle.pinPage fresh (FileHandle.addNewPage fh).1 i DONT_READ_PAGE =
      Ret (FileHandle.set_frame (FileHandle.addNewPage fh).1 i fresh false, fresh)) as ->.
    { unfold FileHandle.pinPage. rewrite ku_assert_true by (apply Z.ltb_lt; lia). cbn [mbind outcome_bind].
      change (FileHandle.frames (FileHandle.addNewPage fh).1) with (FileHandle.frames fh). by rewrite Hfri. }
    cbn [mbind outcome_bind mret outcome_ret].
    assert (forall c, FileHandle.setLockedPageDirty (FileHandle.set_frame (FileHandle.addNewPage fh).1 i c false) i = Ret (FileHandle.set_frame (FileHandle.addNewPage fh).1 i c true)) as Hdirty.
    { intros c. unfold FileHandle.setLockedPageDirty. rewrite ku_assert_true by (apply Z.ltb_lt; cbn in *; lia). cbn [mbind outcome_bind].
      unfold FileHandle.set_frame at 1 2. cbn [FileHandle.frames FileHandle.fileIndex FileHandle.numPages FileHandle.fileInfo]. rewrite lookup_insert_eq.
      unfold FileHandle.set_frame. cbn [FileHandle.frames FileHandle.fileIndex FileHandle.numPages FileHandle.fileInfo]. by rewrite insert_insert_eq. }
    destruct skip.
    - cbn [mbind outcome_bind mret outcome_ret]. rewrite Hdirty. cbn [mbind outcome_bind mret outcome_ret]. unfold sh2, fh2. by rewrite Hpin, Hframe.
    - rewrite Hpin. cbn [mbind outcome_bind mret outcome_ret].
      assert (FileHandle.set_frame (FileHandle.set_frame (FileHandle.addNewPage fh).1 i fresh false) i frame false = FileHandle.set_frame (FileHandle.addNewPage fh).1 i frame false) as ->.
      { unfold FileHandle.set_frame. cbn [FileHandle.frames FileHandle.fileIndex FileHandle.numPages FileHandle.fileInfo]. by rewrite insert_insert_eq. }
      rewrite Hdirty. done. }
  assert (forall q, index_of sh2 d q = if q =? p then Some i else index_of (shadow s) d q) as Hidx2.
  { intros q. unfold sh2. rewrite index_insert. by rewrite Hsame1. }
  exists (mk_files data sh2), fh2, i. rewrite <-Hframe. split; [done|]. cbn [dataFH shadow].
  split; [|split; [done|split; [done|split; [unfold i in *; pose proof Hok as (? & _); lia|split; [|split]]]]].
  - split; [exact Hdok|]. cbn [dataFH shadow]. rewrite Hdi. split; [exact Hd|split; [|split]].
    + intros q j. rewrite Hidx2. cbn [shadowPageRecords sh2]. rewrite Hrs1. fold rs. destruct (Z.eqb_spec q p) as [->|Hne].
      * split; [intros [= <-]; split; [unfold i; lia|]; apply list_lookup_middle; unfold i; lia|].
        intros [Hj Hr]. apply lookup_app_Some in Hr as [Hr|[Hge Hr]].
        -- assert (index_of (shadow s) d p = Some j) as Hsome by (rewrite <-Hsame1; by apply Hidx). by rewrite Hno in Hsome.
        -- apply list_lookup_singleton_Some in Hr as [Hr _]. f_equal. unfold i. lia.
      * rewrite <-Hsame1, Hidx. fold rs. split; intros [Hj Hr]; (split; [done|]).
        -- by apply lookup_app_l_Some.
        -- apply lookup_app_Some in Hr as [Hr|[Hge Hr]]; [done|]. apply list_lookup_singleton_Some in Hr as [_ [= ->]]. done.
    + cbn [shadowPageRecords sh2]. rewrite Hrs1. apply Forall_app. split; [exact Hrs|]. by constructor.
    + cbn [shadowingFH shadowPageRecords sh2]. rewrite Hrs1, length_app. split; [exact Hok2|split; [rewrite Hn2; unfold i; cbn; lia|split]].
      * unfold fh2, FileHandle.set_frame. cbn [FileHandle.frames]. rewrite lookup_insert_ne by (unfold i; lia). exact H0.
      * intros j Hj. apply Hst2. destruct (decide (j = i)); [by right|left]. apply Hall. rewrite Hn2 in Hj. unfold i in *. lia.
  - cbn [shadowPageRecords sh2]. rewrite length_app, Hrs1. cbn. lia.
  - exact Hidx2.
  - intros q Hne. unfold view. cbn [dataFH shadow shadowingFH sh2]. rewrite Hdi. fold d. rewrite Hidx2, (proj2 (Z.eqb_neq q p)), Hdp by done.
    destruct (index_of (shadow s) d q) as [j|] eqn:Ej; [|done]. destruct (index_handle d (shadow s) q j Hsh Ej) as (fh0 & Hfh0 & Hj & _ & _).
    rewrite Hfh0, Hpg2. rewrite <-(Hsame fh0 Hfh0) in *. rewrite (proj2 (Z.eqb_neq j i)) by (unfold i; lia). done.
Qed.

(** What an update finds in its frame. *)
Definition found (s : files) (p : Z) (skip : bool) : bytes :=
  if hasShadowPage (shadow s) (FileHandle.fileIndex (dataFH s)) p then view s p else if skip then fresh else view s p.

(** The frame is written while it is pinned. *)
Lemma set_view s fh p i c : files_ok s -> shadowingFH (shadow s) = Some fh -> 0 <= i < FileHandle.numPages fh ->
  index_of (shadow s) (FileHandle.fileIndex (dataFH s)) p = Some i -> size c = PAGE ->
  let s' := mk_files (dataFH s) (set_handle (shadow s) (FileHandle.set_frame fh i c true)) in
  files_ok s' /\ forall q, view s' q = if q =? p then c else view s q.
Proof.
  intros [Hdata Hsh] Hfh Hi Hidx Hc. cbn zeta. pose proof Hsh as (Hd & Hmap & Hrs & Hrest). rewrite Hfh in Hrest. destruct Hrest as (Hok & Hnum & H0 & Hall).
  set (d := FileHandle.fileIndex (dataFH s)) in *. destruct (set_frame_ok fh i c Hok Hi Hc) as (Hok2 & Hpg2 & Hst2).
  pose proof (proj1 (Hmap p i) Hidx) as [Hi1 _]. split.
  - split; [exact Hdata|]. split; [exact Hd|split; [exact Hmap|split; [exact Hrs|]]]. cbn [shadow set_handle shadowingFH shadowPageRecords].
    split; [exact Hok2|split; [exact Hnum|split]]; [unfold FileHandle.set_frame; cbn [FileHandle.frames]; by rewrite lookup_insert_ne by lia|].
    intros j Hj. apply Hst2. left. by apply Hall.
  - intros q. unfold view. cbn [dataFH shadow set_handle shadowingFH]. fold d.
    change (index_of (mk _ (shadowFile (shadow s)) _ _) d q) with (index_of (shadow s) d q).
    change (index_of (set_handle (shadow s) (FileHandle.set_frame fh i c true)) d q) with (index_of (shadow s) d q). rewrite Hfh.
    destruct (index_of (shadow s) d q) as [j|] eqn:Ej.
    + rewrite Hpg2. destruct (Z.eqb_spec q p) as [->|Hne]; [rewrite Hidx in Ej; injection Ej as <-; by rewrite Z.eqb_refl|].
      destruct (Z.eqb_spec j i) as [->|]; [|done]. exfalso. apply Hne. apply Hmap in Ej as [_ Ej]. apply Hmap in Hidx as [_ Hidx]. rewrite Ej in Hidx. by injection Hidx.
    + destruct (Z.eqb_spec q p) as [->|]; [by rewrite Hidx in Ej|done].
Qed.

Lemma updatePage_run s p skip (op : M bytes unit) r c : files_ok s -> 0 <= p < 2 ^ 32 -> Z.of_nat (length (shadowPageRecords (shadow s))) + 2 < 2 ^ 32 ->
  hasShadowPage (shadow s) (FileHandle.fileIndex (dataFH s)) p = true \/ skip = true \/ p < FileHandle.numPages (dataFH s) /\ stored (dataFH s) p ->
  op (found s p skip) = (r, c) -> size c = PAGE ->
  exists s', updatePage fresh p skip op s = (r, s') /\ files_ok s' /\
    only_read p (dataFH s) (dataFH s') /\
    (forall q, hasShadowPage (shadow s') (FileHandle.fileIndex (dataFH s)) q = (q =? p) || hasShadowPage (shadow s) (FileHandle.fileIndex (dataFH s)) q) /\
    (length (shadowPageRecords (shadow s')) <= S (length (shadowPageRecords (shadow s))))%nat /\
    (forall q, view s' q = if q =? p then c else view s q).
Proof.
  intros Hok Hp Hb Hold Hop Hc. unfold found in Hop. rewrite hasShadowPage_index in Hold, Hop.
  destruct (index_of (shadow s) (FileHandle.fileIndex (dataFH s)) p) as [i|] eqn:Ei.
  - destruct (create_again s p i skip Hok Ei) as (s1 & fh & Hrun & Hok1 & Hd1 & Hfh & Hi & Hrs & Hidx & Hv).
    assert (index_of (shadow s1) (FileHandle.fileIndex (dataFH s1)) p = Some i) as Hidx1 by (by rewrite Hd1, Hidx).
    destruct (set_view s1 fh p i c Hok1 Hfh Hi Hidx1 Hc) as [Hok2 Hv2].
    unfold updatePage. rewrite Hrun, Hop, Hfh.
    exists (mk_files (dataFH s1) (set_handle (shadow s1) (FileHandle.set_frame fh i c true))). split; [done|]. split; [done|]. cbn [dataFH shadow]. rewrite Hd1. split_and!; try done.
    + intros q. rewrite !hasShadowPage_index. change (index_of (set_handle _ _) ?d q) with (index_of (shadow s1) d q). rewrite Hidx.
      destruct (Z.eqb_spec q p) as [->|]; [by rewrite Ei|done].
    + change (shadowPageRecords (set_handle _ _)) with (shadowPageRecords (shadow s1)). rewrite Hrs. lia.
    + intros q. rewrite <-Hd1, Hv2. by rewrite Hv.
  - assert (skip = true \/ p < FileHandle.numPages (dataFH s) /\ stored (dataFH s) p) as Hold' by (destruct Hold as [|]; done).
    destruct (create_new s p skip Hok Hp Hb Ei Hold') as (s1 & fh & i & Hrun & Hok1 & Hread & Hfh & Hi & Hrs & Hidx & Hv).
    pose proof Hread as (Hd1 & _).
    assert (index_of (shadow s1) (FileHandle.fileIndex (dataFH s1)) p = Some i) as Hidx1 by (by rewrite Hd1, Hidx, Z.eqb_refl).
    destruct (set_view s1 fh p i c Hok1 Hfh Hi Hidx1 Hc) as [Hok2 Hv2].
    unfold updatePage. rewrite Hrun, Hop, Hfh.
    exists (mk_files (dataFH s1) (set_handle (shadow s1) (FileHandle.set_frame fh i c true))). split; [done|]. split; [done|]. cbn [dataFH shadow]. split_and!; try done.
    + intros q. rewrite !hasShadowPage_index. change (index_of (set_handle _ _) ?d q) with (index_of (shadow s1) d q). rewrite Hidx.
      by destruct (q =? p).
    + change (shadowPageRecords (set_handle _ _)) with (shadowPageRecords (shadow s1)). rewrite Hrs. lia.
    + intros q. rewrite Hv2. destruct (Z.eqb_spec q p); [done|by apply Hv].
Qed.
End update.

(** ** Flushing and applying *)

(** The pages that the records name, with what the shadow file has for them. *)
Fixpoint shadow_writes (fh : FileHandle.t) (j : Z) (rs : list ShadowPageRecord) : list (Z * bytes) :=
  match rs with
  | [] => []
  | r :: rs => (originalPageIdx r, page fh j) :: shadow_writes fh (j + 1) rs
  end.

Lemma shadow_writes_ext fh fh' j rs : (forall i, j <= i < j + Z.of_nat (length rs) -> page fh' i = page fh i) -> shadow_writes fh' j rs = shadow_writes fh j rs.
Proof.
  revert j. induction rs as [|r rs IH]; intros j Hp; [done|]. cbn [shadow_writes length] in *. rewrite Hp by lia. f_equal. apply IH. intros i Hi. apply Hp. lia.
Qed.

Lemma shadow_writes_ok fh j rs : 0 <= j -> fh_ok true fh -> Forall (fun r => 0 <= originalPageIdx r) rs ->
  (forall i, j <= i < j + Z.of_nat (length rs) -> stored fh i) -> pages_ok (shadow_writes fh j rs).
Proof.
  intros Hj Hok Hrs. revert j Hj. induction Hrs as [|r rs Hr _ IH]; intros j Hj Hst; [constructor|]. cbn [shadow_writes length] in *. constructor.
  - split; [exact Hr|]. cbn [snd]. eapply size_page; [done|done|apply Hst; lia].
  - apply IH; [lia|]. intros i Hi. apply Hst. lia.
Qed.

(** Of records that name different pages the last write to a page is the only one. *)
Lemma last_write_none fh j rs p : Forall (fun r => originalPageIdx r <> p) rs -> last_write (shadow_writes fh j rs) p = None.
Proof.
  intros H. revert j. induction H as [|r rs Hr _ IH]; intros j; [done|]. cbn [shadow_writes last_write]. rewrite IH. by rewrite (proj2 (Z.eqb_neq _ _)).
Qed.

Lemma last_write_some fh j rs p k r : rs !! k = Some r -> originalPageIdx r = p ->
  (forall k' r', rs !! k' = Some r' -> originalPageIdx r' = p -> k' = k) -> last_write (shadow_writes fh j rs) p = Some (page fh (j + Z.of_nat k)).
Proof.
  revert j k. induction rs as [|r0 rs IH]; intros j k Hk Hp Huniq; [done|]. cbn [shadow_writes last_write]. destruct k as [|k].
  - injection Hk as ->. rewrite last_write_none; [by rewrite Hp, Z.eqb_refl, Z.add_0_r|].
    apply Forall_lookup. intros k' r' Hk' Hp'. by specialize (Huniq (S k') r' Hk' Hp').
  - cbn in Hk. rewrite (IH (j + 1) k Hk Hp); [do 2 f_equal; lia|]. intros k' r' Hk' Hp'. specialize (Huniq (S k') r' Hk' Hp'). lia.
Qed.

Lemma index_writes d sh fh p : shadow_ok d sh -> shadowingFH sh = Some fh ->
  last_write (shadow_writes fh 1 (shadowPageRecords sh)) p = match index_of sh d p with Some i => Some (page fh i) | None => None end.
Proof.
  intros (Hd & Hidx & Hrs & _) Hfh.
  assert (forall k r, shadowPageRecords sh !! k = Some r -> originalPageIdx r = p -> index_of sh d p = Some (1 + Z.of_nat k)) as Hof.
  { intros k [f q] Hk Hq. cbn in Hq. subst q. apply Hidx. split; [lia|]. replace (Z.to_nat (1 + Z.of_nat k - 1)) with k by lia. rewrite Hk.
    pose proof (Forall_lookup_1 _ _ _ _ Hrs Hk) as [Hf _]. cbn in Hf. by subst f. }
  destruct (index_of sh d p) as [i|] eqn:Ei.
  - apply Hidx in Ei as [Hi Hr]. rewrite (last_write_some fh 1 _ p (Z.to_nat (i - 1)) _ Hr eq_refl); [do 2 f_equal; lia|].
    intros k' r' Hk' Hp'. specialize (Hof k' r' Hk' Hp'). injection Hof as Hof. lia.
  - apply last_write_none, Forall_lookup. intros k r Hk Hp. by specialize (Hof k r Hk Hp).
Qed.

(** The records go to the file after its pages. *)
Lemma writeRecords_run w data disk rs : WriterFacts.holds w data disk ->
  exists w', writeRecords w rs = Ret w' /\ WriterFacts.holds w' (data ++ concat (map serialize_record rs)) disk.
Proof.
  revert w data. induction rs as [|r rs IH]; intros w data Hw; cbn [writeRecords map concat].
  - exists w. by rewrite app_nil_r.
  - destruct (WriterFacts.write_run w data disk (write u32_wire (originalFileIdx r)) Hw) as (w1 & -> & Hw1). cbn [mbind outcome_bind].
    destruct (WriterFacts.write_run w1 _ disk (write u32_wire (originalPageIdx r)) Hw1) as (w2 & -> & Hw2). cbn [mbind outcome_bind].
    destruct (IH w2 _ Hw2) as (w3 & -> & Hw3). exists w3. split; [done|]. unfold serialize_record at 1. by rewrite !app_assoc in *.
Qed.

Lemma page_at_app c more i : 0 <= i -> (i + 1) * PAGE <= size c -> page_at (c ++ more) i = page_at c i.
Proof.
  intros Hi Hin. pose proof (size_nonneg more). assert (size (c ++ more) = size c + size more) as Hs by apply size_app.
  apply byte_ext; [rewrite !size_page_at by lia; done|]. intros k Hk. rewrite size_page_at in Hk by lia. rewrite !page_at_byte by lia.
  rewrite byte_app by (unfold PAGE in *; lia). by rewrite (proj2 (Z.ltb_lt _ _)) by (unfold PAGE in *; lia).
Qed.

Lemma size_header n : size (header_page n) = PAGE.
Proof. unfold header_page. rewrite size_app, size_replicate by (unfold PAGE; lia). cbn [write uint_wire]. unfold size. rewrite length_le_bytes. unfold PAGE. lia. Qed.

(** What the shadow file is after it is flushed: the header, the pages, and the
    records; all of it on disk. *)
Lemma flushAll_run d sh fh : shadow_ok d sh -> shadowingFH sh = Some fh ->
  exists fh', flushAll sh = Ret (set_handle sh fh') /\
    let F := content (FileHandle.fileInfo fh') in let n := Z.of_nat (length (shadowPageRecords sh)) in
    synced (FileHandle.fileInfo fh') = size F /\ FileHandle.numPages fh' = 1 + n /\
    page_at F 0 = header_page n /\ drop (Z.to_nat ((n + 1) * PAGE)) F = serialize_records (shadowPageRecords sh) /\ (n + 1) * PAGE <= size F /\
    (forall i, 1 <= i <= n -> page_at F i = page fh i).
Proof.
  intros (Hd & Hidx & Hrs & Hrest) Hfh. rewrite Hfh in Hrest. destruct Hrest as (Hok & Hnum & H0 & Hall).
  set (n := Z.of_nat (length (shadowPageRecords sh))) in *. unfold flushAll. rewrite Hfh. fold n.
  destruct (writePage_run fh 0 (header_page n) Hok ltac:(lia) H0 (size_header n)) as (fh1 & -> & Hok1 & Hn1 & _ & Hcl1 & Hpg1 & Hother1). cbn [mbind outcome_bind].
  destruct (flush_all fh1 Hok1) as (Hok2 & Hn2 & _ & Hall2). set (fh2 := FileHandle.flushAllDirtyPagesInFrames fh1) in *.
  assert (forall i, 0 <= i <= n -> clean fh2 i /\ page fh2 i = if i =? 0 then header_page n else page fh i) as Hpages.
  { intros i Hi. destruct (Z.eqb_spec i 0) as [->|Hne].
    - destruct (Hall2 0 ltac:(lia) (clean_stored _ _ Hcl1)) as [Hc ->]. by split.
    - destruct (Hother1 i ltac:(lia) Hne (Hall i ltac:(lia))) as [Hst Hpg]. destruct (Hall2 i ltac:(lia) Hst) as [Hc ->]. by split. }
  assert (size (content (FileHandle.fileInfo fh2)) = (n + 1) * PAGE) as Hsize.
  { destruct (Hpages n ltac:(lia)) as [[Hin _] _]. unfold in_file in Hin. destruct Hok2 as (_ & Hle & _). specialize (Hle eq_refl). rewrite Hn2, Hn1, Hnum in Hle. unfold PAGE in *. lia. }
  assert (FileHandle.numPages fh2 * PAGE = size (content (FileHandle.fileInfo fh2))) as Hoff by (rewrite Hn2, Hn1, Hnum, Hsize; unfold PAGE; lia).
  rewrite Hoff, ku_assert_true by (apply Z.eqb_eq; lia). cbn [mbind outcome_bind].
  destruct (WriterFacts.write_run _ _ _ (write u64_wire n) (WriterFacts.make_holds (FileHandle.fileInfo fh2) (proj1 (proj2 (proj2 Hok2))))) as (w1 & -> & Hw1). cbn [mbind outcome_bind].
  destruct (writeRecords_run w1 _ _ (shadowPageRecords sh) Hw1) as (w2 & -> & Hw2). cbn [mbind outcome_bind].
  destruct (WriterFacts.flush_run w2 _ _ Hw2) as (w3 & -> & Hw3 & Hc3 & _). cbn [mbind outcome_bind mret outcome_ret].
  eexists. split; [done|]. cbn [FileHandle.fileInfo FileHandle.set_fileInfo BufferedFileWriter.sync BufferedFileWriter.fileInfo syncFile content synced FileHandle.numPages].
  rewrite Hc3, <-app_assoc. fold (serialize_records (shadowPageRecords sh)).
  assert (forall i, 0 <= i <= n -> page_at (content (FileHandle.fileInfo fh2) ++ (write u64_wire n ++ concat (map serialize_record (shadowPageRecords sh)))) i = page fh2 i) as Hat.
  { intros i Hi. destruct (Hpages i Hi) as [[Hin <-] _]. apply page_at_app; [lia|exact Hin]. }
  split_and!.
  - done.
  - lia.
  - rewrite Hat by lia. destruct (Hpages 0 ltac:(lia)) as [_ ->]. done.
  - apply drop_app_length'. unfold size in Hsize. lia.
  - rewrite size_app. pose proof (size_nonneg (write u64_wire n ++ concat (map serialize_record (shadowPageRecords sh)))). lia.
  - intros i Hi. rewrite Hat by lia. destruct (Hpages i ltac:(lia)) as [_ ->]. by rewrite (proj2 (Z.eqb_neq i 0)) by lia.
Qed.

Lemma content_writeFile f d o c : content f = c -> content (writeFile f d o) = content (writeFile (mk_file c 0) d o).
Proof. by intros <-. Qed.

(** The loops over the records write the pages, to the file and to the frames. *)
Lemma replayRecords_run f fh j rs D : 0 <= j -> (forall i, j <= i < j + Z.of_nat (length rs) -> (i + 1) * PAGE <= size (content f) /\ page_at (content f) i = page fh i) ->
  exists D', replayRecords f j rs D = Ret D' /\ content D' = write_pages (shadow_writes fh j rs) (content D).
Proof.
  revert j D. induction rs as [|r rs IH]; intros j D Hj Hp; [by exists D|]. cbn [replayRecords shadow_writes length] in *.
  destruct (Hp j ltac:(lia)) as [Hin Hat]. rewrite ReaderFacts.readFromFile_run by (unfold PAGE in *; lia). cbn [mbind outcome_bind].
  change (take (Z.to_nat PAGE) (drop (Z.to_nat (j * PAGE)) (content f))) with (page_at (content f) j). rewrite Hat.
  destruct (IH (j + 1) (writeFile D (page fh j) (originalPageIdx r * PAGE)) ltac:(lia)) as (D' & HD & Hc); [intros i Hi; apply Hp; lia|].
  exists D'. split; [exact HD|]. rewrite Hc, write_pages_cons. cbn [fst snd]. by rewrite (content_writeFile D _ _ _ eq_refl).
Qed.

Lemma applyRecords_run fh fh' j rs data : 0 <= j -> Forall (fun r => 0 <= originalPageIdx r) rs ->
  (forall i, j <= i < j + Z.of_nat (length rs) -> 0 <= i < FileHandle.numPages fh' /\ (i + 1) * PAGE <= size (content (FileHandle.fileInfo fh')) /\ page_at (content (FileHandle.fileInfo fh')) i = page fh i) ->
  exists data', applyRecords fh' j rs data = Ret data' /\
    content (FileHandle.fileInfo data') = write_pages (shadow_writes fh j rs) (content (FileHandle.fileInfo data)) /\
    FileHandle.fileIndex data' = FileHandle.fileIndex data /\ FileHandle.numPages data' = FileHandle.numPages data /\
    forall p, FileHandle.frames data' !! p =
      (fun fr => match last_write (shadow_writes fh j rs) p with Some c => (c, fr.2) | None => fr end) <$> FileHandle.frames data !! p.
Proof.
  revert j data. induction rs as [|r rs IH]; intros j data Hj Hrs Hp.
  { exists data. do 4 (split; [done|]). intros p. cbn. by destruct (FileHandle.frames data !! p). }
  apply Forall_cons in Hrs as [Hr Hrs]. cbn [applyRecords shadow_writes length] in *.
  destruct (Hp j ltac:(lia)) as (Hj' & Hin & Hat). unfold FileHandle.readPageFromDisk. rewrite ku_assert_true by (apply Z.ltb_lt; lia). cbn [mbind outcome_bind].
  rewrite ReaderFacts.readFromFile_run by (unfold PAGE in *; lia). cbn [mbind outcome_bind].
  change (take (Z.to_nat PAGE) (drop (Z.to_nat (j * PAGE)) (content (FileHandle.fileInfo fh')))) with (page_at (content (FileHandle.fileInfo fh')) j). rewrite Hat.
  set (data1 := FileHandle.set_fileInfo data _).
  assert (content (FileHandle.fileInfo (FileHandle.updateFrameIfPageIsInFrameWithoutLock data1 (page fh j) (originalPageIdx r))) = content (FileHandle.fileInfo data1)) as Hcont.
  { unfold FileHandle.updateFrameIfPageIsInFrameWithoutLock. by destruct (FileHandle.frames data1 !! originalPageIdx r) as [[? ?]|]. }
  destruct (IH (j + 1) (FileHandle.updateFrameIfPageIsInFrameWithoutLock data1 (page fh j) (originalPageIdx r)) ltac:(lia) Hrs) as (data' & Hrun & Hc & Hi' & Hn' & Hfr); [intros i Hi; apply Hp; lia|].
  exists data'. split; [exact Hrun|]. split; [|split; [|split]].
  - rewrite Hc, Hcont, write_pages_cons. cbn [fst snd]. unfold data1, FileHandle.set_fileInfo. cbn [FileHandle.fileInfo]. by rewrite (content_writeFile _ _ _ _ eq_refl).
  - rewrite Hi'. unfold FileHandle.updateFrameIfPageIsInFrameWithoutLock. by destruct (FileHandle.frames data1 !! originalPageIdx r) as [[? ?]|].
  - rewrite Hn'. unfold FileHandle.updateFrameIfPageIsInFrameWithoutLock. by destruct (FileHandle.frames data1 !! originalPageIdx r) as [[? ?]|].
  - intros p. rewrite Hfr. cbn [last_write]. unfold FileHandle.updateFrameIfPageIsInFrameWithoutLock. change (FileHandle.frames data1) with (FileHandle.frames data).
    destruct (Z.eqb_spec (originalPageIdx r) p) as [->|Hne].
    + destruct (FileHandle.frames data !! p) as [[c e]|] eqn:E.
      * unfold FileHandle.set_frame. cbn [FileHandle.frames]. rewrite lookup_insert_eq. cbn. by destruct (last_write _ p).
      * change (FileHandle.frames data1) with (FileHandle.frames data). by rewrite E.
    + assert (FileHandle.frames match FileHandle.frames data !! originalPageIdx r with Some (_, dirty) => FileHandle.set_frame data1 (originalPageIdx r) (page fh j) dirty | None => data1 end !! p = FileHandle.frames data !! p) as ->.
      { destruct (FileHandle.frames data !! originalPageIdx r) as [[c e]|]; [|done]. unfold FileHandle.set_frame. cbn [FileHandle.frames].
        by rewrite lookup_insert_ne. }
      destruct (FileHandle.frames data !! p) as [fr|]; cbn; [|done]. by destruct (last_write _ p).
Qed.

(** The records read back. *)
Lemma parse_shadow_record r rest : 0 <= originalFileIdx r < 2 ^ 32 -> 0 <= originalPageIdx r < 2 ^ 32 ->
  parse deserialize_record (serialize_record r ++ rest) = Some (Ret r, rest).
Proof.
  intros Hf Hp. unfold deserialize_record, serialize_record. rewrite parse_bind, <-app_assoc, decode_write by done.
  rewrite parse_bind, decode_write by done. by destruct r.
Qed.

Lemma parse_shadow_records rs rest : Z.of_nat (length rs) < 2 ^ 64 -> Forall (fun r => 0 <= originalFileIdx r < 2 ^ 32 /\ 0 <= originalPageIdx r < 2 ^ 32) rs ->
  parse deserialize_records (serialize_records rs ++ rest) = Some (Ret rs, rest).
Proof.
  intros Hn Hrs. unfold deserialize_records, serialize_records. rewrite parse_bind, <-app_assoc, decode_write by (cbn; lia). rewrite Nat2Z.id. clear Hn.
  induction Hrs as [|r rs [Hf Hp] _ IH]; [done|]. cbn [length deserialize_n map concat]. rewrite <-app_assoc, parse_bind, parse_shadow_record by done.
  by rewrite parse_bind, IH.
Qed.

Lemma reset_reads F r pos off : ReaderFacts.reads F r pos -> 0 <= off <= size F -> ReaderFacts.reads F (BufferedFileReader.resetReadOffset r off) off.
Proof.
  intros (Hc & Hs & Hb & _) Ho. unfold ReaderFacts.reads, BufferedFileReader.resetReadOffset.
  cbn [BufferedFileReader.buffer BufferedFileReader.fileOffset BufferedFileReader.bufferOffset BufferedFileReader.fileInfo BufferedFileReader.fileSize BufferedFileReader.bufferSize].
  unfold BUFFER_SIZE. split_and!; done || lia.
Qed.

Lemma header_value n : 0 <= n < 2 ^ 32 -> le_value (take 4 (header_page n)) = n.
Proof.
  intros Hn. unfold header_page, u32. rewrite wrap_small by lia. rewrite take_app_length' by (cbn [write uint_wire]; by rewrite length_le_bytes).
  cbn [write uint_wire]. by rewrite le_value_bytes, Z.mod_small.
Qed.

(** The replay of a flushed shadow file. *)
Lemma shadow_replay_run d sh fh fh' D : shadow_ok d sh -> shadowingFH sh = Some fh -> flushAll sh = Ret (set_handle sh fh') ->
  exists D', replayShadowPageRecords false (FileHandle.fileInfo fh') D = Ret D' /\
    content D' = write_pages (shadow_writes fh 1 (shadowPageRecords sh)) (content D).
Proof.
  intros Hsh Hfh Hflush. destruct (flushAll_run d sh fh Hsh Hfh) as (fh0 & Hflush0 & Hsync & Hnum & Hhead & Hrecs & Hsize & Hpages).
  rewrite Hflush0 in Hflush. assert (fh0 = fh') as -> by (injection Hflush; by intros [= ->]). clear Hflush Hflush0.
  pose proof Hsh as (Hd & _ & Hrs & Hrest). rewrite Hfh in Hrest. destruct Hrest as ((Hnp & _) & Hn1 & _).
  set (n := Z.of_nat (length (shadowPageRecords sh))) in *. set (f := FileHandle.fileInfo fh') in *.
  assert (0 <= n /\ n + 1 < 2 ^ 32) as Hn by lia.
  unfold replayShadowPageRecords. rewrite ReaderFacts.readFromFile_run by (unfold PAGE in *; lia). cbn [mbind outcome_bind].
  change (take (Z.to_nat PAGE) (drop (Z.to_nat 0) (content f))) with (page_at (content f) 0). rewrite Hhead, header_value by lia.
  assert (content f <> []) as Hne by (intros E; rewrite E in Hsize; change (size []) with 0 in Hsize; unfold PAGE in *; lia).
  destruct (ReaderFacts.make_run f Hne) as (rd & -> & Hr & _). cbn [mbind outcome_bind].
  unfold u32. rewrite wrap_small by lia. pose proof (reset_reads _ _ _ ((n + 1) * PAGE) Hr ltac:(unfold PAGE in *; lia)) as Hr1.
  pose proof (ReaderFacts.exec_run deserialize_records (content f) _ _ (Ret (shadowPageRecords sh)) [] Hr1) as Hexec. rewrite Hrecs in Hexec.
  destruct Hexec as (rd' & -> & _).
  { rewrite <-(app_nil_r (serialize_records _)). apply parse_shadow_records; [fold n; lia|]. eapply Forall_impl; [exact Hrs|]. intros r [-> ?]. split; [lia|done]. }
  cbn [mbind outcome_bind]. apply replayRecords_run; [lia|]. intros i Hi. split; [unfold PAGE in *; lia|]. apply Hpages. lia.
Qed.
