(* ===== verification/ShadowHistory.v ===== *)
(** What a checkpoint does to pages, and the buffer manager meanwhile, as lists of
    steps of the functions of [ShadowFile.v]; an overlay says which pages the
    checkpoint has changed, and the files follow it. *)
From stdpp Require Import gmap.
From S2P Require Import Prelude Effects Serializer Decoder BufferedFile BufferedFileFacts ShadowFile ShadowFacts.
Import ShadowFile ShadowUtils HandleFacts.
Local Open Scope Z_scope.

Section history.
Context (fresh : bytes) (fresh_size : size fresh = PAGE).

(** ** Steps *)

(** A page is updated, read by the checkpoint or by another transaction, added to the
    data file, or written there straight away; or a frame is given up. *)
Inductive op :=
| Update (p : Z) (skipReadingOriginalPage : bool) (f : bytes -> bytes)
| ReadPage (p : Z) (isCheckpoint : bool)
| AddPages (n : Z)
| WritePage (p : Z) (data : bytes)
| EvictShadow (i : Z)
| EvictData (p : Z).

Definition set_data (s : files) (fh : FileHandle.t) : files := mk_files fh (shadow s).

(** The read of a page, and what it leaves in frames. *)
Definition pin_for (s : files) (p : Z) (isCheckpoint : bool) : outcome (files * bytes) :=
  '(isShadow, i) ← getFileHandleAndPhysicalPageIdxToPin s p isCheckpoint;
  if isShadow : bool then
    match shadowingFH (shadow s) with
    | Some fh => '(fh, frame) ← FileHandle.pinPage fresh fh i READ_PAGE; mret (mk_files (dataFH s) (set_handle (shadow s) fh), frame)
    | None => Undef
    end
  else '(fh, frame) ← FileHandle.pinPage fresh (dataFH s) i READ_PAGE; mret (set_data s fh, frame).

Definition do_op (o : op) (s : files) : outcome files :=
  match o with
  | Update p skip f => match updatePage fresh p skip (modify f) s with (Ret _, s') => Ret s' | (Throw e, _) => Throw e | (Undef, _) => Undef end
  | ReadPage p isCheckpoint => fst <$> pin_for s p isCheckpoint
  | AddPages n => mret (set_data s (FileHandle.addNewPages (dataFH s) n).1)
  | WritePage p data => fh ← FileHandle.writePageToFile (dataFH s) data p; mret (set_data s fh)
  | EvictShadow i =>
      mret (match shadowingFH (shadow s) with
            | Some fh => mk_files (dataFH s) (set_handle (shadow s) (FileHandle.evict fh i))
            | None => s
            end)
  | EvictData p => mret (set_data s (FileHandle.evict (dataFH s) p))
  end.

Fixpoint do_ops (os : list op) (s : files) : outcome files :=
  match os with [] => mret s | o :: os => s ← do_op o s; do_ops os s end.

(** ** The overlay *)

(** The pages that are the checkpoint's own, the bytes and the number of pages of the
    data file, and which of its pages may be in frames. *)
Record overlay := mk_overlay { own : Z -> option bytes; disk : bytes; count : Z; cached : Z -> bool }.

(** A page as the checkpoint has it. *)
Definition at_page (v : overlay) (p : Z) : bytes := default (page_at (disk v) p) (own v p).
Definition mine (v : overlay) (p : Z) : bool := match own v p with Some _ => true | None => false end.

Definition upd {A} (f : Z -> A) (p : Z) (a : A) : Z -> A := fun q => if q =? p then a else f q.

Definition overlay_op (o : op) (v : overlay) : overlay :=
  match o with
  | Update p skip f =>
      mk_overlay (upd (own v) p (Some (f (if mine v p || negb skip then at_page v p else fresh)))) (disk v) (count v) (upd (cached v) p true)
  | ReadPage p _ => mk_overlay (own v) (disk v) (count v) (upd (cached v) p true)
  | AddPages n => mk_overlay (own v) (disk v) (count v + n) (cached v)
  | WritePage p data => mk_overlay (own v) (content (writeFile (mk_file (disk v) 0) data (p * PAGE))) (count v) (cached v)
  | EvictShadow _ => v
  | EvictData p => mk_overlay (own v) (disk v) (count v) (upd (cached v) p false)
  end.

Definition overlay_ops (os : list op) (v : overlay) : overlay := foldl (fun v o => overlay_op o v) v os.

Definition readable (v : overlay) (p : Z) : Prop := p < count v /\ (p + 1) * PAGE <= size (disk v).

(** Updates keep the size of a page, only pages that there are are read, and a page
    that is written straight away is in no frame and not the checkpoint's own. *)
Definition op_ok (v : overlay) (o : op) : Prop :=
  match o with
  | Update p skip f => 0 <= p < 2 ^ 32 /\ (forall c, size c = PAGE -> size (f c) = PAGE) /\ (mine v p = true \/ skip = true \/ readable v p)
  | ReadPage p isCheckpoint => 0 <= p /\ (isCheckpoint && mine v p = true \/ readable v p)
  | AddPages n => 0 <= n /\ count v + n < 2 ^ 32
  | WritePage p data => 0 <= p < count v /\ size data = PAGE /\ cached v p = false /\ mine v p = false
  | EvictShadow i => 0 <= i
  | EvictData p => 0 <= p
  end.

Fixpoint ops_ok (v : overlay) (os : list op) : Prop :=
  match os with [] => True | o :: os => op_ok v o /\ ops_ok (overlay_op o v) os end.

(** ** The files follow the overlay *)

Definition holds (v : overlay) (s : files) : Prop :=
  files_ok s /\ all_clean (dataFH s) /\ content (FileHandle.fileInfo (dataFH s)) = disk v /\
  FileHandle.numPages (dataFH s) = count v /\
  (forall q, is_Some (FileHandle.frames (dataFH s) !! q) -> cached v q = true) /\
  (forall q, hasShadowPage (shadow s) (FileHandle.fileIndex (dataFH s)) q = mine v q) /\
  (forall q c, own v q = Some c -> view s q = c).

(** Nothing of the data file is only in a frame. *)
Lemma clean_page fh p : fh_ok false fh -> all_clean fh -> page fh p = page_at (content (FileHandle.fileInfo fh)) p.
Proof.
  intros (_ & _ & _ & Hf) Hc. unfold page. destruct (FileHandle.frames fh !! p) as [[c e]|] eqn:E; [|done].
  destruct (Hf p c e E) as (_ & _ & Hcl). destruct (Hcl (Hc p c e E)) as [_ ->]. unfold page. by rewrite E.
Qed.

Lemma holds_view v s q : holds v s -> view s q = at_page v q.
Proof.
  intros (Hok & Hcl & Hd & Hn & Hc & Hm & Hv). unfold at_page. specialize (Hm q). unfold mine in Hm. destruct (own v q) as [c|] eqn:E; [by apply Hv|]. cbn.
  rewrite hasShadowPage_index in Hm. unfold view. destruct (index_of (shadow s) _ q); [done|]. destruct Hok as [Hok _]. by rewrite clean_page, Hd.
Qed.

Lemma holds_readable v s p : holds v s -> readable v p -> p < FileHandle.numPages (dataFH s) /\ stored (dataFH s) p.
Proof. intros (_ & _ & Hd & Hn & _) [H1 H2]. rewrite Hn. split; [done|]. right. unfold in_file. by rewrite Hd. Qed.

(** A step that only reads page [p] of the data file. *)
Lemma read_holds v s s' p : holds v s -> files_ok s' -> only_read p (dataFH s) (dataFH s') ->
  (forall q, hasShadowPage (shadow s') (FileHandle.fileIndex (dataFH s)) q = mine v q) -> (forall q c, own v q = Some c -> view s' q = c) ->
  holds (mk_overlay (own v) (disk v) (count v) (upd (cached v) p true)) s'.
Proof.
  intros (_ & Hcl & Hd & Hn & Hc & _) Hok (Hi & Hf & Hn' & Hp & Hcl' & Hfr) Hm Hv.
  split_and!; [done|by apply Hcl'|by rewrite Hf|by rewrite Hn'| |by rewrite Hi|done].
  intros q Hq. cbn [cached]. unfold upd. destruct (Z.eqb_spec q p) as [|Hne]; [done|]. apply Hc. by rewrite <-Hfr.
Qed.

Lemma update_holds v s p skip f : holds v s -> op_ok v (Update p skip f) -> Z.of_nat (length (shadowPageRecords (shadow s))) + 2 < 2 ^ 32 ->
  exists s', updatePage fresh p skip (modify f) s = (Ret tt, s') /\ holds (overlay_op (Update p skip f) v) s' /\
    (length (shadowPageRecords (shadow s')) <= S (length (shadowPageRecords (shadow s))))%nat.
Proof.
  intros Hh (Hrange & Hsz & Hcase) Hb. pose proof Hh as (Hok & Hcl & Hd & Hn & Hc & Hm & Hv).
  assert (found fresh s p skip = if mine v p || negb skip then at_page v p else fresh) as Hfound.
  { unfold found. rewrite Hm, (holds_view v s p Hh). by destruct (mine v p), skip. }
  assert (size (found fresh s p skip) = PAGE) as Hfs.
  { rewrite Hfound, <-(holds_view v s p Hh). destruct (mine v p) eqn:Emp.
    - destruct Hok as [Hdata Hsh]. specialize (Hm p). rewrite Emp, hasShadowPage_index in Hm. cbn. unfold view.
      destruct (index_of (shadow s) _ p) as [j|] eqn:Ej; [|done]. destruct (index_handle _ _ _ _ Hsh Ej) as (fh & -> & Hj & Hfok & Hst).
      eapply size_page; [done|lia|done].
    - destruct skip; [done|]. destruct Hcase as [|[|Hr]]; [done|done|]. cbn. rewrite (holds_view v s p Hh). unfold at_page, mine in *.
      destruct (own v p); [done|]. destruct Hr as [_ Hin]. apply size_page_at; [lia|done]. }
  destruct (updatePage_run fresh fresh_size s p skip (modify f) (Ret tt) (f (found fresh s p skip)) Hok Hrange Hb) as (s' & Hrun & Hok' & Hread' & Hm' & Hlen & Hv').
  - rewrite Hm. destruct Hcase as [?|[?|?]]; [by left|by right; left|right; right; by apply (holds_readable v)].
  - done.
  - by apply Hsz.
  - exists s'. split; [done|]. split; [|done]. destruct Hread' as (Hi' & Hf' & Hn' & Hp' & Hcl' & Hfr').
    split_and!; [done|by apply Hcl'|by rewrite Hf'|by rewrite Hn'| | |].
    + intros q Hq. cbn [overlay_op cached]. unfold upd. destruct (Z.eqb_spec q p) as [|Hne]; [done|]. apply Hc. by rewrite <-Hfr'.
    + intros q. rewrite Hi', Hm', Hm. unfold mine. cbn [overlay_op own]. unfold upd. by destruct (q =? p).
    + intros q c. rewrite Hv'. cbn [overlay_op own]. unfold upd. destruct (q =? p); [by rewrite Hfound; intros [= <-]|apply Hv].
Qed.

Lemma pin_holds v s p isCheckpoint : holds v s -> op_ok v (ReadPage p isCheckpoint) ->
  exists s', pin_for s p isCheckpoint = Ret (s', if isCheckpoint then at_page v p else page_at (disk v) p) /\
    holds (overlay_op (ReadPage p isCheckpoint) v) s' /\ shadowPageRecords (shadow s') = shadowPageRecords (shadow s).
Proof.
  intros Hh [Hp Hcase]. pose proof Hh as ((Hdata & Hsh) & Hcl & Hd & Hn & Hc & Hm & Hv). unfold pin_for, getFileHandleAndPhysicalPageIdxToPin. rewrite Hm.
  destruct (isCheckpoint && mine v p) eqn:Em.
  - apply andb_true_iff in Em as [-> Em]. pose proof (Hm p) as Hmp. rewrite Em, hasShadowPage_index in Hmp.
    destruct (index_of (shadow s) _ p) as [i|] eqn:Ei; [|done]. rewrite (getShadowPage_index _ _ _ i Ei). cbn [mbind outcome_bind mret outcome_ret].
    destruct (index_handle _ _ _ _ Hsh Ei) as (fh & Hfh & Hi & Hfok & Hst). rewrite Hfh.
    destruct (pin_read fresh fh i Hfok ltac:(lia) Hst) as (fh' & -> & Hok' & Hn' & _ & _ & _ & Hfr' & Hpg' & Hst' & _). cbn [mbind outcome_bind mret outcome_ret].
    eexists. split; [rewrite <-(holds_view v s p Hh); unfold view; by rewrite Ei, Hfh|]. split; [|done].
    destruct Hsh as (Hd0 & Hidx & Hrs & Hrest). rewrite Hfh in Hrest. destruct Hrest as (_ & Hnum & H0 & Hall).
    apply (read_holds v s); [done| |by split_and!|done|].
    + split; [exact Hdata|split; [exact Hd0|split; [exact Hidx|split; [exact Hrs|]]]]. cbn [shadowingFH set_handle shadowPageRecords shadow].
      split; [exact Hok'|split; [by rewrite Hn'|split; [by rewrite Hfr' by lia|]]]. intros j Hj. apply Hst', Hall. lia.
    + intros q c Hq. rewrite <-(Hv q c Hq). unfold view. cbn [dataFH shadow set_handle shadowingFH]. rewrite Hfh.
      change (index_of (set_handle (shadow s) fh') ?d q) with (index_of (shadow s) d q). destruct (index_of (shadow s) _ q); [by rewrite Hpg'|done].
  - destruct Hcase as [|Hr]; [done|]. cbn [mbind outcome_bind mret outcome_ret]. destruct (holds_readable v s p Hh Hr) as [Hlt Hst].
    destruct (pin_read fresh (dataFH s) p Hdata ltac:(lia) Hst) as (fh' & -> & Hok' & Hn' & Hi' & Hf' & _ & Hfr' & Hpg' & Hst' & Hcl'). cbn [mbind outcome_bind mret outcome_ret].
    eexists. split.
    { rewrite clean_page by done. rewrite Hd. destruct isCheckpoint; [|done]. unfold at_page, mine in *. cbn in Em. by destruct (own v p). }
    split; [|done]. apply (read_holds v s); [done| |by split_and!|done|].
    + split; [exact Hok'|]. cbn [dataFH shadow set_data]. by rewrite Hi'.
    + intros q c Hq. rewrite <-(Hv q c Hq). unfold view. cbn [dataFH shadow set_data]. rewrite Hi'. by destruct (index_of _ _ q), (shadowingFH (shadow s)); rewrite ?Hpg'.
Qed.

Lemma addNewPages_run fh n : 0 <= n -> 0 <= FileHandle.numPages fh -> FileHandle.numPages fh + n < 2 ^ 32 ->
  (FileHandle.addNewPages fh n).1 = FileHandle.mk (FileHandle.fileIndex fh) (FileHandle.numPages fh + n) (FileHandle.frames fh) (FileHandle.fileInfo fh).
Proof.
  intros Hn H0 Hb. unfold FileHandle.addNewPages. cbn [fst]. destruct (Z_of_nat_complete n Hn) as [k ->]. rewrite Nat2Z.id. clear Hn.
  induction k as [|k IH]; [change (Z.of_nat 0) with 0; rewrite Z.add_0_r; by destruct fh|].
  rewrite Nat.iter_succ, IH by lia. unfold FileHandle.addNewPage. cbn [fst FileHandle.fileIndex FileHandle.numPages FileHandle.frames FileHandle.fileInfo].
  unfold u32. rewrite wrap_small by lia. f_equal. lia.
Qed.

Lemma add_holds v s n : holds v s -> op_ok v (AddPages n) -> holds (overlay_op (AddPages n) v) (set_data s (FileHandle.addNewPages (dataFH s) n).1).
Proof.
  intros ((Hdata & Hsh) & Hcl & Hd & Hn & Hc & Hm & Hv) [Hn0 Hb]. pose proof Hdata as (Hnum & _ & Hsy & Hf). rewrite <-Hn in Hb.
  rewrite addNewPages_run by lia. split_and!; [|done|done|cbn; by rewrite Hn|done|done|done].
  split; [|exact Hsh]. split; [cbn; lia|split; [done|split; [exact Hsy|]]]. intros p c e Hp. destruct (Hf p c e Hp) as (H1 & H2 & H3). cbn. split; [lia|by split].
Qed.

(** The pages of a file after one is written, whose frames did not have it. *)
Lemma write_holds v s p data : holds v s -> op_ok v (WritePage p data) ->
  exists fh, FileHandle.writePageToFile (dataFH s) data p = Ret fh /\ holds (overlay_op (WritePage p data) v) (set_data s fh).
Proof.
  intros ((Hdata & Hsh) & Hcl & Hd & Hn & Hc & Hm & Hv) (Hp & Hsz & Hno & Hown). pose proof Hdata as (Hnum & _ & Hsy & Hf).
  assert (FileHandle.frames (dataFH s) !! p = None) as Hfr.
  { destruct (FileHandle.frames (dataFH s) !! p) eqn:E; [|done]. assert (cached v p = true) as Hcp by (apply Hc; by rewrite E). by rewrite Hcp in Hno. }
  destruct (writePage_run (dataFH s) p data Hdata ltac:(lia) Hfr Hsz) as (fh & Hrun & Hok & Hn' & Hi' & Hclp & Hpp & _). exists fh. split; [done|].
  unfold FileHandle.writePageToFile in Hrun. rewrite ku_assert_true in Hrun by (apply Z.ltb_lt; lia). injection Hrun as <-.
  split_and!; [by split|done| |done|done|done|].
  - cbn. by rewrite Hd.
  - intros q c Hq. cbn [overlay_op own] in Hq. rewrite <-(Hv q c Hq). unfold view. cbn [dataFH shadow set_data FileHandle.fileIndex].
    specialize (Hm q). unfold mine in Hm. rewrite Hq, hasShadowPage_index in Hm. destruct (index_of (shadow s) _ q) as [i|] eqn:Ei; [|done].
    by destruct (index_handle _ _ _ _ Hsh Ei) as (fh0 & -> & _).
Qed.

Lemma evict_clean fh p : fh_ok false fh -> 0 <= p -> all_clean fh ->
  FileHandle.evict fh p = FileHandle.mk (FileHandle.fileIndex fh) (FileHandle.numPages fh) (delete p (FileHandle.frames fh)) (FileHandle.fileInfo fh).
Proof.
  intros _ _ Hc. unfold FileHandle.evict, FileHandle.flushPageIfDirtyWithoutLock.
  destruct (FileHandle.frames fh !! p) as [[c []]|] eqn:E; [by apply Hc in E|done..].
Qed.

Lemma evict_data_holds v s p : holds v s -> 0 <= p -> holds (overlay_op (EvictData p) v) (set_data s (FileHandle.evict (dataFH s) p)).
Proof.
  intros Hh Hp. pose proof Hh as ((Hdata & Hsh) & Hcl & Hd & Hn & Hc & Hm & Hv). destruct (evict_page (dataFH s) p Hdata Hp) as (Hok' & _).
  rewrite evict_clean in * by done. split_and!; [by split| |done|done| |done|].
  - intros q c e. cbn [FileHandle.frames dataFH set_data]. intros Hq. apply lookup_delete_Some in Hq as [_ Hq]. by apply (Hcl q c e).
  - cbn [FileHandle.frames dataFH set_data overlay_op cached]. intros q [x Hq]. apply lookup_delete_Some in Hq as [Hne Hq]. unfold upd.
    rewrite (proj2 (Z.eqb_neq q p)) by done. apply Hc. by rewrite Hq.
  - intros q c Hq. cbn [overlay_op own] in Hq. rewrite <-(Hv q c Hq). specialize (Hm q). unfold mine in Hm. rewrite Hq, hasShadowPage_index in Hm. unfold view. cbn [dataFH set_data FileHandle.fileIndex shadow].
    destruct (index_of (shadow s) _ q) as [i|] eqn:Ei; [|done]. by destruct (index_handle _ _ _ _ Hsh Ei) as (fh0 & -> & _).
Qed.

Lemma evict_shadow d sh fh i : shadow_ok d sh -> shadowingFH sh = Some fh -> 0 <= i ->
  shadow_ok d (set_handle sh (FileHandle.evict fh i)) /\
  forall j, 1 <= j < FileHandle.numPages fh -> page (FileHandle.evict fh i) j = page fh j.
Proof.
  intros (Hd & Hidx & Hrs & Hrest) Hfh Hi. rewrite Hfh in Hrest. destruct Hrest as (Hok & Hnum & H0 & Hall).
  destruct (evict_page fh i Hok Hi) as (Hok' & Hn' & _ & Hpages). split.
  - split; [exact Hd|split; [exact Hidx|split; [exact Hrs|]]]. cbn [shadowingFH set_handle shadowPageRecords]. rewrite Hn'.
    split; [exact Hok'|split; [exact Hnum|split]].
    + unfold FileHandle.evict, FileHandle.flushPageIfDirtyWithoutLock. cbn [FileHandle.frames].
      destruct (decide (i = 0)) as [->|Hne]; [by rewrite lookup_delete_eq|]. rewrite lookup_delete_ne by done.
      destruct (FileHandle.frames fh !! i) as [[c []]|]; [|done..]. unfold FileHandle.set_frame. cbn [FileHandle.frames]. by rewrite lookup_insert_ne by done.
    + intros j Hj. apply Hpages; [lia|by apply Hall].
  - intros j Hj. apply Hpages; [lia|by apply Hall].
Qed.

Lemma evict_shadow_holds v s fh i : holds v s -> shadowingFH (shadow s) = Some fh -> 0 <= i ->
  holds v (mk_files (dataFH s) (set_handle (shadow s) (FileHandle.evict fh i))).
Proof.
  intros Hh Hfh Hi. pose proof Hh as ((Hdata & Hsh) & Hcl & Hd & Hn & Hc & Hm & Hv). destruct (evict_shadow _ _ fh i Hsh Hfh Hi) as [Hsh' Hpages].
  split_and!; try done. intros q c Hq. rewrite <-(Hv q c Hq). unfold view. cbn [dataFH shadow shadowingFH set_handle]. rewrite Hfh.
  change (index_of (mk _ (shadowFile (shadow s)) _ _) ?d q) with (index_of (shadow s) d q).
  change (index_of (set_handle (shadow s) (FileHandle.evict fh i)) ?d q) with (index_of (shadow s) d q).
  destruct (index_of (shadow s) (FileHandle.fileIndex (dataFH s)) q) as [j|] eqn:Ej; [|done].
  destruct (index_handle _ _ _ _ Hsh Ej) as (fh0 & Hfh0 & Hj & _). rewrite Hfh in Hfh0. injection Hfh0 as <-. apply Hpages. lia.
Qed.

Lemma op_holds v s o : holds v s -> op_ok v o -> Z.of_nat (length (shadowPageRecords (shadow s))) + 2 < 2 ^ 32 ->
  exists s', do_op o s = Ret s' /\ holds (overlay_op o v) s' /\
    (length (shadowPageRecords (shadow s')) <= S (length (shadowPageRecords (shadow s))))%nat.
Proof.
  intros Hh Ho Hb. destruct o as [p skip f|p c|n|p data|i|p]; cbn [do_op].
  - destruct (update_holds v s p skip f Hh Ho Hb) as (s' & -> & ? & ?). eauto.
  - destruct (pin_holds v s p c Hh Ho) as (s' & -> & ? & Hrs). exists s'. rewrite Hrs. split_and!; [done|done|lia].
  - eexists. split; [done|]. split; [by apply add_holds|]. cbn. lia.
  - destruct (write_holds v s p data Hh Ho) as (fh & -> & ?). eexists. split; [done|]. split; [done|]. cbn. lia.
  - eexists. split; [done|]. destruct (shadowingFH (shadow s)) as [fh|] eqn:Hfh; (split; [|cbn; lia]); [by apply evict_shadow_holds|done].
  - eexists. split; [done|]. split; [by apply evict_data_holds|]. cbn. lia.
Qed.

Lemma ops_hold v s os : holds v s -> ops_ok v os -> Z.of_nat (length (shadowPageRecords (shadow s))) + Z.of_nat (length os) + 2 < 2 ^ 32 ->
  exists s', do_ops os s = Ret s' /\ holds (overlay_ops os v) s' /\
    (length (shadowPageRecords (shadow s')) <= length (shadowPageRecords (shadow s)) + length os)%nat.
Proof.
  revert v s. induction os as [|o os IH]; intros v s Ht Hok Hb; cbn [do_ops ops_ok overlay_ops foldl length] in *.
  { exists s. split; [done|]. split; [done|]. lia. }
  destruct Hok as [Ho Hok]. destruct (op_holds v s o Ht Ho ltac:(lia)) as (s1 & -> & Ht1 & Hlen). cbn [mbind outcome_bind].
  destruct (IH (overlay_op o v) s1 Ht1 Hok ltac:(lia)) as (s' & ? & ? & ?). exists s'. split; [done|]. split; [done|]. lia.
Qed.

(** The records name different pages, so there are no more of them than pages. *)
Lemma records_bound v s : holds v s -> (forall p, mine v p = true -> 0 <= p < count v) ->
  Z.of_nat (length (shadowPageRecords (shadow s))) <= Z.max 0 (count v).
Proof.
  intros ((Hdata & Hd & Hidx & Hrs & _) & _ & _ & _ & _ & Hm & _) Hin. set (rs := shadowPageRecords (shadow s)) in *.
  assert (forall k r, rs !! k = Some r -> index_of (shadow s) (FileHandle.fileIndex (dataFH s)) (originalPageIdx r) = Some (Z.of_nat k + 1)) as Hof.
  { intros k [f p] Hk. apply Hidx. split; [lia|]. replace (Z.to_nat (Z.of_nat k + 1 - 1)) with k by lia. rewrite Hk.
    pose proof (Forall_lookup_1 _ _ _ _ Hrs Hk) as [Hf _]. cbn in *. by subst f. }
  assert (NoDup (map originalPageIdx rs)) as Hnd.
  { apply NoDup_alt. intros i j p Hi Hj. rewrite list_lookup_fmap in Hi, Hj. apply fmap_Some in Hi as (r & Hi & ->). apply fmap_Some in Hj as (r' & Hj & E).
    apply Hof in Hi. apply Hof in Hj. rewrite E, Hj in Hi. injection Hi. lia. }
  assert (map originalPageIdx rs ⊆ seqZ 0 (count v)) as Hsub.
  { intros p Hp. apply list_elem_of_In, in_map_iff in Hp as (r & <- & Hr). apply list_elem_of_In, list_elem_of_lookup_1 in Hr as [k Hk]. apply elem_of_seqZ.
    apply Hof in Hk. specialize (Hm (originalPageIdx r)). rewrite hasShadowPage_index, Hk in Hm. specialize (Hin (originalPageIdx r) (eq_sym Hm)). lia. }
  apply NoDup_submseteq in Hsub; [|done]. apply submseteq_length in Hsub. rewrite length_map, length_seqZ in Hsub. lia.
Qed.

(** ** Where a checkpoint starts *)

(** No shadow file, and no dirty frames of the data file. *)
Definition start (data : FileHandle.t) : files := mk_files data (ShadowFile.make None).
Definition data_ok (data : FileHandle.t) : Prop := fh_ok false data /\ all_clean data /\ 0 <= FileHandle.fileIndex data < 2 ^ 32.
Definition before (data : FileHandle.t) : overlay :=
  mk_overlay (fun _ => None) (content (FileHandle.fileInfo data)) (FileHandle.numPages data)
    (fun q => match FileHandle.frames data !! q with Some _ => true | None => false end).

Lemma start_holds data : data_ok data -> holds (before data) (start data).
Proof.
  intros (Hok & Hcl & Hd). split_and!; try done.
  - split; [exact Hok|]. split; [exact Hd|split; [|by split]]. intros p i. cbn. split; [done|]. by intros [_ ?].
  - intros q [x Hq]. cbn in *. by rewrite Hq.
Qed.

(** ** Where it ends *)

(** The pages that the flushed shadow file writes to the data file. *)
Definition own_writes (s : files) : list (Z * bytes) :=
  match shadowingFH (shadow s) with Some fh => shadow_writes fh 1 (shadowPageRecords (shadow s)) | None => [] end.

Lemma own_writes_ok v s : holds v s -> pages_ok (own_writes s).
Proof.
  intros ((Hdata & Hd & Hidx & Hrs & Hrest) & _). unfold own_writes. destruct (shadowingFH (shadow s)) as [fh|]; [|constructor].
  destruct Hrest as (Hok & Hnum & _ & Hall). apply shadow_writes_ok; [lia|done| |intros i Hi; apply Hall; lia].
  eapply Forall_impl; [exact Hrs|]. intros r [_ [? _]]. done.
Qed.

Lemma own_writes_last v s p : holds v s -> last_write (own_writes s) p = own v p.
Proof.
  intros ((Hdata & Hsh) & Hcl & Hd & Hn & Hc & Hm & Hv). specialize (Hm p). rewrite hasShadowPage_index in Hm. unfold own_writes.
  destruct (shadowingFH (shadow s)) as [fh|] eqn:Hfh.
  - rewrite (index_writes _ _ _ p Hsh Hfh). unfold mine in Hm. destruct (own v p) as [c|] eqn:Eo.
    + rewrite <-(Hv p c Eo). unfold view. rewrite Hfh. by destruct (index_of (shadow s) _ p).
    + by destruct (index_of (shadow s) _ p).
  - destruct (index_of (shadow s) _ p) as [i|] eqn:Ei; [destruct (index_handle _ _ _ _ Hsh Ei) as (? & ? & _); congruence|].
    unfold mine in Hm. by destruct (own v p).
Qed.

(** The shadow file is flushed, with all of it on disk, and applied; its replay writes
    the same pages. *)
Lemma flushed_run v s q : holds v s -> mine v q = true ->
  exists fh, flushAll (shadow s) = Ret (set_handle (shadow s) fh) /\
    synced (FileHandle.fileInfo fh) = size (content (FileHandle.fileInfo fh)) /\
    (exists data, applyShadowPages (set_handle (shadow s) fh) (dataFH s) = Ret data /\
       content (FileHandle.fileInfo data) = write_pages (own_writes s) (disk v) /\ synced (FileHandle.fileInfo data) = size (content (FileHandle.fileInfo data)) /\
       FileHandle.fileIndex data = FileHandle.fileIndex (dataFH s) /\ FileHandle.numPages data = FileHandle.numPages (dataFH s) /\
       forall p, FileHandle.frames data !! p = (fun fr => (default fr.1 (own v p), fr.2)) <$> FileHandle.frames (dataFH s) !! p) /\
    forall D, exists D', replayShadowPageRecords false (FileHandle.fileInfo fh) D = Ret D' /\ content D' = write_pages (own_writes s) (content D).
Proof.
  intros Hh Hq. pose proof Hh as ((Hdata & Hsh) & Hcl & Hf & Hn & Hc & Hm & Hv).
  assert (exists fh0, shadowingFH (shadow s) = Some fh0) as [fh0 Hfh0].
  { rewrite <-Hm, hasShadowPage_index in Hq. destruct (index_of _ _ q) as [i|] eqn:Ei; [|done]. destruct (index_handle _ _ _ _ Hsh Ei) as (fh & ? & _). by exists fh. }
  pose proof Hsh as (Hd0 & _ & Hrs & Hrest). rewrite Hfh0 in Hrest. destruct Hrest as (Hok0 & Hnum0 & _ & Hall0).
  destruct (flushAll_run _ _ fh0 Hsh Hfh0) as (fh & Hflush & Hsync & Hnum & Hhead & Hrecs & Hsize & Hpages).
  pose proof (own_writes_ok v s Hh) as Hws. pose proof (fun p => own_writes_last v s p Hh) as Hlast. unfold own_writes in *. rewrite Hfh0 in *.
  set (rs := shadowPageRecords (shadow s)) in *. set (ws := shadow_writes fh0 1 rs) in *.
  exists fh. split; [exact Hflush|]. split; [exact Hsync|]. split.
  - destruct (applyRecords_run fh0 fh 1 rs (dataFH s) ltac:(lia)) as (data1 & Happly & Hcont & Hidx & Hnp & Hfr).
    { eapply Forall_impl; [exact Hrs|]. intros r [_ [? _]]. done. }
    { intros i Hi. split; [lia|]. split; [unfold PAGE in *; lia|]. apply Hpages. lia. }
    fold ws in Hcont, Hfr. rewrite Hf in Hcont. exists (FileHandle.set_fileInfo data1 (syncFile (FileHandle.fileInfo data1))). split_and!.
    + unfold applyShadowPages. cbn [shadowingFH set_handle shadowPageRecords]. fold rs. by rewrite Happly.
    + exact Hcont.
    + done.
    + exact Hidx.
    + exact Hnp.
    + intros p. cbn [FileHandle.frames FileHandle.set_fileInfo]. rewrite Hfr, Hlast. destruct (FileHandle.frames (dataFH s) !! p) as [[c e]|]; cbn; [|done]. by destruct (own v p).
  - intros D. destruct (shadow_replay_run _ _ fh0 fh D Hsh Hfh0 Hflush) as (D' & Hrep & Hcont). by exists D'.
Qed.

(** What the data file has then. *)
Lemma own_page v s p c : holds v s -> 0 <= p -> own v p = Some c -> page_at (write_pages (own_writes s) (disk v)) p = c.
Proof. intros Hh Hp Ho. apply page_at_written; [by eapply own_writes_ok|done|]. by rewrite (own_writes_last v s p Hh). Qed.

Lemma other_page v s p : holds v s -> 0 <= p -> own v p = None -> (p + 1) * PAGE <= size (disk v) ->
  page_at (write_pages (own_writes s) (disk v)) p = page_at (disk v) p.
Proof. intros Hh Hp Ho Hin. apply page_at_kept; [by eapply own_writes_ok|done|done|]. by rewrite (own_writes_last v s p Hh). Qed.

Lemma own_size v s p c : holds v s -> 0 <= p -> own v p = Some c -> size c = PAGE /\ (p + 1) * PAGE <= size (write_pages (own_writes s) (disk v)).
Proof.
  intros Hh Hp Ho. apply written_size; [by eapply own_writes_ok|]. by rewrite (own_writes_last v s p Hh).
Qed.
End history.
