(* ===== verification/ShadowSpec.v ===== *)
(** What the shadow file promises: a checkpoint reads back what it wrote and nobody
    else sees it; and once the shadow file is flushed, its pages reach the data file
    whatever part of them a crash had left there. *)
From stdpp Require Import gmap.
From S2P Require Import Prelude Effects Serializer Decoder BufferedFile BufferedFileFacts ShadowFile ShadowFacts ShadowHistory.
Import ShadowFile ShadowUtils HandleFacts.
Local Open Scope Z_scope.

Section spec.
Context (fresh : bytes) (fresh_size : size fresh = PAGE).
Abbreviation overlay_ops := (overlay_ops fresh).
Abbreviation do_ops := (do_ops fresh).
Abbreviation ops_ok := (ops_ok fresh).
Abbreviation pin_for := (pin_for fresh).

(** C27. A checkpoint reads what it wrote, and nobody else does: after any steps of a
    checkpoint, with frames of either file given up by the buffer manager in between,
    every page reads, for the checkpoint, as its last update of it left it, or as the
    data file has it when there was none, and for any other transaction as the data
    file has it; the updates have not changed the data file, only what was written
    straight to it has. *)
Theorem checkpoint_reads_its_pages data os : data_ok data -> ops_ok (before data) os -> Z.of_nat (length os) + 2 < 2 ^ 32 ->
  let v := overlay_ops os (before data) in
  exists s, do_ops os (start data) = Ret s /\ content (FileHandle.fileInfo (dataFH s)) = disk v /\
    forall p, 0 <= p ->
      (mine v p = true \/ readable v p -> snd <$> pin_for s p true = Ret (at_page v p)) /\
      (readable v p -> snd <$> pin_for s p false = Ret (page_at (disk v) p)).
Proof.
  intros Hdata Hok Hb. cbn zeta. destruct (ops_hold fresh fresh_size (before data) (start data) os (start_holds data Hdata) Hok ltac:(cbn; lia)) as (s & Hrun & Hh & _).
  exists s. split; [exact Hrun|]. split; [apply Hh|]. intros p Hp. split.
  - intros Hcase. by destruct (pin_holds fresh _ s p true Hh) as (s' & -> & _).
  - intros Hr. destruct (pin_holds fresh _ s p false Hh) as (s' & -> & _); [by split; [|right]|done].
Qed.

(** A checkpoint is atomic: once the shadow file is flushed, which leaves all of it
    on disk, applying it gives the data file, on disk and in the frames, the pages as
    the checkpoint had them and leaves every other page alone; and whatever a crash
    makes of that, any of the pages written, partly or not at all, replaying the
    shadow file afterwards gives exactly the same data file. *)
Theorem checkpoint_survives_crash data os q : data_ok data -> ops_ok (before data) os -> Z.of_nat (length os) + 2 < 2 ^ 32 ->
  let v := overlay_ops os (before data) in mine v q = true ->
  exists s sh fh data', do_ops os (start data) = Ret s /\ flushAll (shadow s) = Ret sh /\ shadowingFH sh = Some fh /\
    synced (FileHandle.fileInfo fh) = size (content (FileHandle.fileInfo fh)) /\
    applyShadowPages sh (dataFH s) = Ret data' /\ synced (FileHandle.fileInfo data') = size (content (FileHandle.fileInfo data')) /\
    (forall p c, 0 <= p -> own v p = Some c -> page_at (content (FileHandle.fileInfo data')) p = c /\ page data' p = c) /\
    (forall p, 0 <= p -> own v p = None -> (p + 1) * PAGE <= size (disk v) ->
       page_at (content (FileHandle.fileInfo data')) p = page_at (disk v) p) /\
    forall D, size (disk v) <= size (content D) <= size (content (FileHandle.fileInfo data')) ->
      (forall i, 0 <= i -> mine v (i / PAGE) = false -> byte (content D) i = byte (disk v) i) ->
      exists D', replayShadowPageRecords false (FileHandle.fileInfo fh) D = Ret D' /\ content D' = content (FileHandle.fileInfo data').
Proof.
  intros Hdata Hok Hb. cbn zeta. intros Hq. destruct (ops_hold fresh fresh_size (before data) (start data) os (start_holds data Hdata) Hok ltac:(cbn; lia)) as (s & Hrun & Hh & _).
  destruct (flushed_run _ s q Hh Hq) as (fh & Hflush & Hsync & (data' & Happly & Hcont & Hsync' & _ & _ & Hfr) & Hreplay).
  exists s, (set_handle (shadow s) fh), fh, data'. do 6 (split; [done|]). rewrite Hcont. split; [|split].
  - intros p c Hp Ho. pose proof (own_page _ s p c Hh Hp Ho) as Hat. split; [exact Hat|]. unfold page.
    rewrite Hfr, Ho. destruct (FileHandle.frames (dataFH s) !! p) as [[? ?]|]; [done|]. by rewrite <-Hcont in Hat.
  - intros p Hp Ho Hin. by apply other_page.
  - intros D HD Hout. destruct (Hreplay D) as (D' & Hrep & HD'). exists D'. split; [exact Hrep|]. rewrite HD'.
    apply write_pages_again; [by eapply own_writes_ok| |exact HD]. intros i Hi Hl. apply Hout; [done|].
    rewrite (own_writes_last _ s _ Hh) in Hl. unfold mine. by rewrite Hl.
Qed.
End spec.

(** ** Instances *)

(** A data file of three pages, the first of which a frame has; and a checkpoint that
    updates two of them, reads one, adds a page and writes that one straight away. *)
Definition blank (b : Z) : bytes := replicate (Z.to_nat PAGE) b.
Definition three_pages : FileHandle.t :=
  FileHandle.mk 0 3 {[0 := (blank 10, false)]} (mk_file (blank 10 ++ blank 11 ++ blank 12) (3 * PAGE)).
Definition set_first (b : Z) (c : bytes) : bytes := b :: drop 1 c.
Definition some_steps : list op :=
  [Update 2 false (set_first 7); EvictShadow 1; EvictData 0; Update 0 true (set_first 8); ReadPage 1 false; AddPages 1; WritePage 3 (blank 13);
   ReadPage 2 true; Update 2 false (set_first 9)].

Lemma size_set_first b c : size c = PAGE -> size (set_first b c) = PAGE.
Proof. unfold size, set_first, PAGE. cbn [length]. rewrite length_drop. lia. Qed.

Lemma three_pages_ok : data_ok three_pages.
Proof.
  assert (forall p c d, FileHandle.frames three_pages !! p = Some (c, d) -> p = 0 /\ c = blank 10 /\ d = false) as Hf.
  { intros p c d H. unfold three_pages in H. cbn [FileHandle.frames] in H. apply lookup_singleton_Some in H as [<- [= <- <-]]. done. }
  split; [|split; [by intros p c d H; apply Hf in H as (_ & _ & ->)|done]].
  split; [done|]. split; [intros _; by vm_compute|]. split; [by vm_compute|]. intros p c d H. apply Hf in H as (-> & -> & ->).
  split; [done|]. split; [by vm_compute|]. split; by vm_compute.
Qed.

Lemma some_steps_ok : ops_ok (blank 0) (before three_pages) some_steps.
Proof.
  assert (forall b c, size c = PAGE -> size (set_first b c) = PAGE) as Hs by exact size_set_first.
  repeat split; try (apply Hs); try (by vm_compute); try (by left); try (by right; left); right; try right; by split; vm_compute.
Qed.

Lemma checkpoint_reads_its_pages_witness :
  exists s, do_ops (blank 0) some_steps (start three_pages) = Ret s /\
    snd <$> pin_for (blank 0) s 2 true = Ret (set_first 9 (blank 12)) /\ snd <$> pin_for (blank 0) s 0 true = Ret (set_first 8 (blank 0)) /\
    snd <$> pin_for (blank 0) s 3 true = Ret (blank 13) /\ snd <$> pin_for (blank 0) s 2 false = Ret (blank 12).
Proof.
  destruct (checkpoint_reads_its_pages (blank 0) (eq_refl (size (blank 0))) three_pages some_steps three_pages_ok some_steps_ok eq_refl) as (s & Hrun & _ & Hr).
  assert (readable (overlay_ops (blank 0) some_steps (before three_pages)) 3) as H3 by by split; vm_compute.
  assert (readable (overlay_ops (blank 0) some_steps (before three_pages)) 2) as H2 by by split; vm_compute.
  exists s. split; [exact Hrun|]. split; [|split; [|split]].
  - rewrite (proj1 (Hr 2 ltac:(done)) (or_introl eq_refl)). by vm_compute.
  - rewrite (proj1 (Hr 0 ltac:(done)) (or_introl eq_refl)). by vm_compute.
  - rewrite (proj1 (Hr 3 ltac:(done)) (or_intror H3)). by vm_compute.
  - rewrite (proj2 (Hr 2 ltac:(done)) H2). by vm_compute.
Defined.

(** The same checkpoint, whose application a crash cut short: the first page was
    written, and half of the third. *)
Definition half_applied : FileInfo :=
  mk_file (set_first 8 (blank 0) ++ blank 11 ++ (take 2048 (set_first 9 (blank 12)) ++ drop 2048 (blank 12)) ++ blank 13) 0.

Lemma half_applied_outside i : 0 <= i -> mine (overlay_ops (blank 0) some_steps (before three_pages)) (i / PAGE) = false ->
  byte (content half_applied) i = byte (disk (overlay_ops (blank 0) some_steps (before three_pages))) i.
Proof.
  intros Hi Hm. assert (i / PAGE <> 0 /\ i / PAGE <> 2) as [Hn0 Hn2] by (split; intros E; rewrite E in Hm; done). clear Hm. unfold byte.
  assert (disk (overlay_ops (blank 0) some_steps (before three_pages)) = blank 10 ++ blank 11 ++ blank 12 ++ blank 13) as -> by by vm_compute.
  assert (4096 <= i < 8192 \/ 12288 <= i) as [Hr|Hr].
  { unfold PAGE in *. change (2 ^ 12) with 4096 in *. pose proof (Z.div_mod i 4096 ltac:(lia)). pose proof (Z.mod_pos_bound i 4096 ltac:(lia)). nia. }
  all: unfold half_applied, content.
  all: assert (Z.of_nat (length (set_first 8 (blank 0))) = 4096 /\ Z.of_nat (length (blank 10)) = 4096 /\ Z.of_nat (length (blank 11)) = 4096 /\
    Z.of_nat (length (take 2048 (set_first 9 (blank 12)) ++ drop 2048 (blank 12))) = 4096 /\ Z.of_nat (length (blank 12)) = 4096) as (E1 & E2 & E3 & E4 & E5) by by vm_compute.
  - rewrite !(lookup_app_r _ _ (Z.to_nat i)), !lookup_app_l by lia. f_equal; f_equal; lia.
  - rewrite !(lookup_app_r _ _ (Z.to_nat i)) by lia. rewrite !(lookup_app_r (blank 11)) by lia.
    rewrite (lookup_app_r (blank 12)), (lookup_app_r (take 2048 _ ++ _)) by lia. f_equal; f_equal; lia.
Qed.

Lemma checkpoint_survives_crash_witness :
  exists s sh fh D', do_ops (blank 0) some_steps (start three_pages) = Ret s /\ flushAll (shadow s) = Ret sh /\ shadowingFH sh = Some fh /\
    replayShadowPageRecords false (FileHandle.fileInfo fh) half_applied = Ret D' /\
    page_at (content D') 2 = set_first 9 (blank 12) /\ page_at (content D') 0 = set_first 8 (blank 0) /\ page_at (content D') 1 = blank 11.
Proof.
  destruct (checkpoint_survives_crash (blank 0) (eq_refl (size (blank 0))) three_pages some_steps 2 three_pages_ok some_steps_ok eq_refl eq_refl)
    as (s & sh & fh & data' & Hrun & Hflush & Hfh & _ & _ & _ & Hmine & Hothers & Hcrash).
  destruct (Hmine 0 (set_first 8 (blank 0)) ltac:(done) eq_refl) as [H0 _]. destruct (Hmine 2 (set_first 9 (blank 12)) ltac:(done) eq_refl) as [H2 _].
  pose proof (Hothers 1 ltac:(done) eq_refl ltac:(by vm_compute)) as H1. pose proof (Hothers 3 ltac:(done) eq_refl ltac:(by vm_compute)) as H3.
  destruct (Hcrash half_applied) as (D' & Hrep & Hc); [|exact half_applied_outside|].
  - assert (size (content half_applied) = 16384) as -> by by vm_compute. split; [by vm_compute|].
    assert (size (page_at (content (FileHandle.fileInfo data')) 3) = 4096) as Hs by (rewrite H3; by vm_compute).
    unfold size, page_at in *. rewrite length_take, length_drop in Hs. change (Z.to_nat (3 * PAGE)) with (Z.to_nat 12288) in Hs. lia.
  - exists s, sh, fh, D'. split; [exact Hrun|]. split; [exact Hflush|]. split; [exact Hfh|]. split; [exact Hrep|]. rewrite Hc, H2, H0, H1.
    split; [by vm_compute|]. split; by vm_compute.
Defined.

(** ** Where the shadow file falls short *)

(** The replay leaves pages that are not known to be on disk, and the files that it
    could be repeated from are removed next; the first application syncs. *)
Example replay_does_not_sync :
  (s ← do_ops (blank 0) [Update 0 true (set_first 8); Update 2 false (set_first 9)] (start three_pages); sh ← flushAll (shadow s);
   match shadowingFH sh with
   | Some fh =>
       applied ← applyShadowPages sh (dataFH s);
       replayed ← replayShadowPageRecords false (FileHandle.fileInfo fh) (FileHandle.fileInfo three_pages);
       mret (synced (FileHandle.fileInfo applied), synced replayed)
   | None => Undef
   end) = Ret (3 * PAGE, 0).
Proof. by vm_compute. Qed.

(** A shadow page that is cleared is not found any more, but its record stays: it is
    applied with the others. *)
Example cleared_page_is_applied :
  (s ← do_ops (blank 0) [Update 2 false (set_first 7)] (start three_pages);
   let sh := clearShadowPage (shadow s) 0 2 in
   sh' ← flushAll sh; applied ← applyShadowPages sh' (dataFH s);
   mret (hasShadowPage sh 0 2, take 2 (page_at (content (FileHandle.fileInfo applied)) 2))) = Ret (false, [7; 12]).
Proof. by vm_compute. Qed.

(** A checkpoint that fails after it has updated a page leaves the shadow page: the
    next checkpoint, which updates another page, applies both, over what was written
    to the data file in between. *)
Example failed_checkpoint_is_applied :
  (s ← do_ops (blank 0) [Update 2 false (set_first 7)] (start three_pages);
   let data := FileHandle.set_fileInfo (dataFH s) (writeFile (FileHandle.fileInfo (dataFH s)) (blank 20) (2 * PAGE)) in
   s ← do_ops (blank 0) [Update 1 false (set_first 9)] (mk_files data (shadow s));
   sh ← flushAll (shadow s); applied ← applyShadowPages sh (dataFH s);
   mret (take 2 (page_at (content (FileHandle.fileInfo applied)) 1), take 2 (page_at (content (FileHandle.fileInfo applied)) 2))) = Ret ([9; 11], [7; 12]).
Proof. by vm_compute. Qed.
