(* ===== verification/Checkpointer.v ===== *)
(** Checkpoints ([storage/checkpointer.cpp], [checkpointer.h], and the checkpoints of a
    recovery in [storage/wal/wal_replayer.cpp]): the tables write their changes to
    shadow pages, the catalog and the metadata to pages allocated for them, the
    header says where these are, and the shadow file, the log and the data file are
    written in the order that makes this one step. Catalog and tables are
    parameters: how they are written and read, and a program of the calls that the
    tables make in a checkpoint. *)
From stdpp Require Import gmap.
From S2P Require Import Prelude Effects Serializer FreeSpaceManager InMemFileWriter Decoder BufferedFile WALRecord WAL ShadowFile.
Import ShadowFile.
Local Open Scope Z_scope.

(** ** The version of the storage ([storage_version_info.h]) *)

Module StorageVersionInfo.
Definition getStorageVersionInfo : list (string * Z) :=
  [("0.11.3", 39); ("0.11.2", 39); ("0.11.1", 39); ("0.11.0", 39); ("0.10.0", 38); ("0.9.0", 37); ("0.8.0", 36); ("0.7.1.1", 35);
   ("0.7.0", 34); ("0.6.0.6", 33); ("0.6.0.5", 32); ("0.6.0.2", 31); ("0.6.0.1", 31); ("0.6.0", 28); ("0.5.0", 28); ("0.4.2", 27);
   ("0.4.1", 27); ("0.4.0", 27); ("0.3.2", 26); ("0.3.1", 26); ("0.3.0", 26); ("0.2.1", 25); ("0.2.0", 25); ("0.1.0", 24);
   ("0.0.12.3", 24); ("0.0.12.2", 24); ("0.0.12.1", 24); ("0.0.12", 23); ("0.0.11", 23); ("0.0.10", 23); ("0.0.9", 23);
   ("0.0.8", 17); ("0.0.7", 15); ("0.0.6", 9); ("0.0.5", 8); ("0.0.4", 7); ("0.0.3", 1)]%string.

(** [version] is the [KUZU_CMAKE_VERSION] of the build. *)
Definition getStorageVersion (version : string) : Z :=
  match find (fun e => String.eqb e.1 version) getStorageVersionInfo with
  | Some (_, versionNumber) => versionNumber
  | None => foldl (fun maxVersion e => Z.max maxVersion e.2) 0 getStorageVersionInfo
  end.

Definition MAGIC_BYTES : bytes := [75; 85; 90; 85].
End StorageVersionInfo.

(** ** The header of the data file *)

Definition INVALID_PAGE_IDX : Z := 2 ^ 32 - 1.
Definition no_range : PageRange.t := PageRange.mk INVALID_PAGE_IDX 0.

Module DatabaseHeader.
Import StorageVersionInfo.

Record t := mk { catalogPageRange : PageRange.t; metadataPageRange : PageRange.t }.

Definition defaultHeader : t := mk no_range no_range.

Definition updateCatalogPageRange (h : t) (pm : PageManager.t) (newPageRange : PageRange.t) : t * PageManager.t :=
  (mk newPageRange (metadataPageRange h),
   if PageRange.startPageIdx (catalogPageRange h) =? INVALID_PAGE_IDX then pm
   else PageManager.freePageRange pm (catalogPageRange h)).

Definition freeMetadataPageRange (h : t) (pm : PageManager.t) : PageManager.t :=
  if PageRange.startPageIdx (metadataPageRange h) =? INVALID_PAGE_IDX then pm
  else PageManager.freePageRange pm (metadataPageRange h).

Section version.
Context (version : string).

Definition writeMagicBytes : list bytes := map (fun b => write u8_wire b) MAGIC_BYTES.

(** The values that are written, one after the other. *)
Definition serialize (h : t) : list bytes :=
  writeMagicBytes ++
  [write u64_wire (getStorageVersion version);
   write u32_wire (PageRange.startPageIdx (catalogPageRange h)); write u32_wire (PageRange.numPages (catalogPageRange h));
   write u32_wire (PageRange.startPageIdx (metadataPageRange h)); write u32_wire (PageRange.numPages (metadataPageRange h))].

Definition validateMagicBytes : decoder unit :=
  magicBytes ← decode_n u8_wire (length MAGIC_BYTES);
  if decide (magicBytes = MAGIC_BYTES) then mret tt
  else Fail (RuntimeException "Unable to open database. The file is not a valid Kuzu database file!").

Definition validateStorageVersion : decoder unit :=
  savedStorageVersion ← decode u64_wire;
  if savedStorageVersion =? getStorageVersion version then mret tt
  else Fail (RuntimeException "Trying to read a database file with a different version. Database file version: {}, Current build storage version: {}").

Definition readDatabaseHeader : decoder t :=
  validateMagicBytes ≫= fun _ =>
  validateStorageVersion ≫= fun _ =>
  catalogStart ← decode u32_wire; catalogNum ← decode u32_wire;
  metaStart ← decode u32_wire; metaNum ← decode u32_wire;
  mret (mk (PageRange.mk catalogStart catalogNum) (PageRange.mk metaStart metaNum)).
End version.
End DatabaseHeader.

(** ** What the tables do in a checkpoint *)

(** The calls that [Table::checkpoint] and what it uses make of the modelled parts:
    pages updated through the shadow file, read, written straight to the data file,
    and ranges allocated and freed. *)
Inductive action (A : Type) : Type :=
| Done (a : A)
| Fail (e : exn)
| UpdatePage (p : Z) (skipReadingOriginalPage : bool) (updateOp : bytes -> bytes) (k : action A)
| ReadPage (p : Z) (isCheckpoint : bool) (k : bytes -> action A)
| WritePage (p : Z) (data : bytes) (k : action A)
| AllocatePageRange (n : Z) (k : PageRange.t -> action A)
| FreePageRange (r : PageRange.t) (k : action A).
Arguments Done {A} a.
Arguments Fail {A} e.
Arguments UpdatePage {A} p skipReadingOriginalPage updateOp k.
Arguments ReadPage {A} p isCheckpoint k.
Arguments WritePage {A} p data k.
Arguments AllocatePageRange {A} n k.
Arguments FreePageRange {A} r k.

(** ** The database on disk *)

(** [fsm] and [pmVersion] are the page manager's, whose file handle is that of the data
    file; [catalogVersion] is zero when the catalog has not changed since the last
    checkpoint. *)
Record db (Cat St : Type) := mk_db {
  files : ShadowUtils.files;
  fsm : FreeSpaceManager.t;
  pmVersion : Z;
  wal : WAL.t;
  catalog : Cat;
  catalogVersion : Z;
  tables : St;
}.
Arguments mk_db {Cat St}.
Arguments files {Cat St}.
Arguments fsm {Cat St}.
Arguments pmVersion {Cat St}.
Arguments wal {Cat St}.
Arguments catalog {Cat St}.
Arguments catalogVersion {Cat St}.
Arguments tables {Cat St}.

Section db.
Context {Cat St : Type}.
Abbreviation db := (db Cat St).

Definition dataFH (s : db) : FileHandle.t := ShadowUtils.dataFH (files s).
Definition shadow (s : db) : ShadowFile.t := ShadowUtils.shadow (files s).

Definition set_files (s : db) (fs : ShadowUtils.files) : db :=
  mk_db fs (fsm s) (pmVersion s) (wal s) (catalog s) (catalogVersion s) (tables s).
Definition set_wal (s : db) (w : WAL.t) : db :=
  mk_db (files s) (fsm s) (pmVersion s) w (catalog s) (catalogVersion s) (tables s).
Definition set_contents (s : db) (c : Cat) (t : St) : db :=
  mk_db (files s) (fsm s) (pmVersion s) (wal s) c (catalogVersion s) t.
Definition set_versions (s : db) (v : Z) : db :=
  mk_db (files s) (fsm s) v (wal s) (catalog s) v (tables s).

(** The page manager of [FreeSpaceManager.v] on the file handle of the data file: what
    it does to the number of pages, and the frames it has removed. *)
Definition pageManager (s : db) : PageManager.t :=
  PageManager.mk_pm (fsm s) (FreeSpaceManager.FileHandle.mk (FileHandle.numPages (dataFH s)) []) (pmVersion s).

Definition removeFrames (fh : FileHandle.t) (removed : list Z) : gmap Z (bytes * bool) :=
  foldr (fun p frames => if p <? FileHandle.numPages fh then delete p frames else frames) (FileHandle.frames fh) removed.

Definition set_pageManager (s : db) (pm : PageManager.t) : db :=
  let fh := PageManager.fileHandle pm in
  mk_db
    (ShadowUtils.mk_files
       (FileHandle.mk (FileHandle.fileIndex (dataFH s)) (FreeSpaceManager.FileHandle.numPages fh)
          (removeFrames (dataFH s) (FreeSpaceManager.FileHandle.removedFrames fh)) (FileHandle.fileInfo (dataFH s)))
       (shadow s))
    (PageManager.freeSpaceManager pm) (PageManager.version pm) (wal s) (catalog s) (catalogVersion s) (tables s).

Definition on_files {A} (m : M ShadowUtils.files A) : M db A := fun s => let '(r, fs) := m (files s) in (r, set_files s fs).
Definition on_pm {A} (f : PageManager.t -> outcome (PageManager.t * A)) : M db A := fun s =>
  match f (pageManager s) with
  | Ret (pm, a) => (Ret a, set_pageManager s pm)
  | Throw e => (Throw e, s)
  | Undef => (Undef, s)
  end.
Definition on_shadow (f : ShadowFile.t -> outcome ShadowFile.t) : M db unit := fun s =>
  match f (shadow s) with
  | Ret sh => (Ret tt, set_files s (ShadowUtils.mk_files (dataFH s) sh))
  | Throw e => (Throw e, s)
  | Undef => (Undef, s)
  end.
Definition on_wal (f : WAL.t -> outcome WAL.t) : M db unit := fun s =>
  match f (wal s) with
  | Ret w => (Ret tt, set_wal s w)
  | Throw e => (Throw e, s)
  | Undef => (Undef, s)
  end.
Definition on_data (f : FileHandle.t -> outcome FileHandle.t) : M db unit := fun s =>
  match f (dataFH s) with
  | Ret fh => (Ret tt, set_files s (ShadowUtils.mk_files fh (shadow s)))
  | Throw e => (Throw e, s)
  | Undef => (Undef, s)
  end.
End db.

(** ** Checkpoints *)

Module Checkpointer.
Section Checkpointer.
Context {Cat St : Type}.
Abbreviation db := (db Cat St).
(** What an unread frame and a byte of an uninitialised buffer have; the version of the
    build. *)
Context (fresh : bytes) (junk : Z) (version : string).
(** The catalog and the tables, as [Catalog::serialize] and [StorageManager::serialize]
    write them in pieces; and the checkpoint of the tables, which says whether they
    had changes, and may change the columns in the catalog. *)
Context (catalogChunks : Cat -> list bytes) (tablesChunks : Cat -> St -> list bytes).
Context (checkpointTables : Cat -> St -> action (bool * Cat * St)) (rollbackTables : St -> St).
Context (isInMemory : bool).

(** *** Pages of the checkpoint *)

(** The calls of [createShadowVersionIfNecessaryAndPinPage] that are followed by a copy
    over the whole frame. *)
Definition overwritePage (p : Z) (data : bytes) : M db unit :=
  on_files (ShadowUtils.updatePage fresh p true (modify (fun _ => data))).

(** Of the checkpoint's transaction ([OverflowFile::readFromDisk]), or straight from the
    data file ([ColumnReadWriter::readFromPage]). *)
Definition readPage (p : Z) (isCheckpoint : bool) : M db bytes := fun s =>
  match ShadowUtils.getFileHandleAndPhysicalPageIdxToPin (files s) p isCheckpoint with
  | Ret (isShadow, i) =>
      match (if isShadow : bool then shadowingFH (shadow s) else Some (dataFH s)) with
      | Some fh =>
          match FileHandle.pinPage fresh fh i READ_PAGE with
          | Ret (fh, frame) =>
              (Ret frame, set_files s (if isShadow then ShadowUtils.mk_files (dataFH s) (set_handle (shadow s) fh) else ShadowUtils.mk_files fh (shadow s)))
          | Throw e => (Throw e, s)
          | Undef => (Undef, s)
          end
      | None => (Undef, s)
      end
  | Throw e => (Throw e, s)
  | Undef => (Undef, s)
  end.

Fixpoint run {A} (a : action A) : M db A :=
  match a with
  | Done a => mret a
  | Fail e => throw e
  | UpdatePage p skip updateOp k => on_files (ShadowUtils.updatePage fresh p skip (modify updateOp));; run k
  | ReadPage p isCheckpoint k => frame ← readPage p isCheckpoint; run (k frame)
  | WritePage p data k => on_data (fun fh => FileHandle.writePageToFile fh data p);; run k
  | AllocatePageRange n k => r ← on_pm (fun pm => PageManager.allocatePageRange pm n); run (k r)
  | FreePageRange r k => on_pm (fun pm => mret (PageManager.freePageRange pm r, tt));; run k
  end.

Fixpoint overwriteAll (frames : list (Z * InMemFileWriter.buffer)) : M db unit :=
  match frames with
  | [] => mret tt
  | (p, page) :: frames => overwritePage p (map (default junk) page);; overwriteAll frames
  end.

Fixpoint writeChunks (w : InMemFileWriter.t) (chunks : list bytes) : outcome InMemFileWriter.t :=
  match chunks with [] => mret w | c :: chunks => w ← InMemFileWriter.write w c; writeChunks w chunks end.

(** *** Catalog, metadata and header *)

(** With [InMemFileWriter::flush] to pages it allocates. *)
Definition serializeCatalog : M db PageRange.t :=
  s ← get;
  catalogWriter ← lift (writeChunks InMemFileWriter.init (catalogChunks (catalog s)));
  pageRange ← on_pm (fun pm => PageManager.allocatePageRange pm (Z.of_nat (InMemFileWriter.getNumPagesToFlush catalogWriter)));
  frames ← lift (InMemFileWriter.flush catalogWriter pageRange);
  overwriteAll frames;;
  mret pageRange.

Definition serializeMetadata : M db PageRange.t :=
  s ← get;
  metadataWriter ← lift (writeChunks InMemFileWriter.init (tablesChunks (catalog s) (tables s)));
  '(allocatedPages, frames) ← on_pm (fun pm =>
     '(pm, allocatedPages, _, frames) ← InMemFileWriter.Checkpointer.serializeMetadata pm metadataWriter;
     mret (pm, (allocatedPages, frames)));
  overwriteAll frames;;
  mret allocatedPages.

Definition getCurrentDatabaseHeader (dataFileInfo : FileInfo) : outcome DatabaseHeader.t :=
  if size (content dataFileInfo) <? PAGE then mret DatabaseHeader.defaultHeader
  else
    reader ← BufferedFileReader.make dataFileInfo;
    match BufferedFileReader.exec (DatabaseHeader.readDatabaseHeader version) reader with
    | Ret (header, _) => mret header
    | Throw (RuntimeException _) => mret DatabaseHeader.defaultHeader
    | Throw e => Throw e
    | Undef => Undef
    end.

Definition checkpointStorage : M db bool :=
  s ← get;
  '(hasChanges, c, t) ← run (checkpointTables (catalog s) (tables s));
  modify (fun s => set_contents s c t);;
  mret hasChanges.

Definition serializeCatalogAndMetadata (databaseHeader : DatabaseHeader.t) (hasStorageChanges : bool) : M db DatabaseHeader.t :=
  s ← get;
  databaseHeader ←
    (if (PageRange.startPageIdx (DatabaseHeader.catalogPageRange databaseHeader) =? INVALID_PAGE_IDX) || negb (catalogVersion s =? 0) then
       pageRange ← serializeCatalog;
       on_pm (fun pm => let '(h, pm) := DatabaseHeader.updateCatalogPageRange databaseHeader pm pageRange in mret (pm, h))
     else mret databaseHeader);
  s ← get;
  if (PageRange.startPageIdx (DatabaseHeader.metadataPageRange databaseHeader) =? INVALID_PAGE_IDX) || hasStorageChanges ||
     negb (catalogVersion s =? 0) || PageManager.changedSinceLastCheckpoint (pageManager s) then
    on_pm (fun pm => mret (DatabaseHeader.freeMetadataPageRange databaseHeader pm, tt));;
    pageRange ← serializeMetadata;
    mret (DatabaseHeader.mk (DatabaseHeader.catalogPageRange databaseHeader) pageRange)
  else mret databaseHeader.

(** The first page of a writer that has the header. *)
Definition headerPage (header : DatabaseHeader.t) : outcome bytes :=
  headerWriter ← writeChunks InMemFileWriter.init (DatabaseHeader.serialize version header);
  page ← load (InMemFileWriter.pages headerWriter) 0;
  mret (map (default junk) page).

Definition DB_HEADER_PAGE_IDX : Z := 0.

Definition writeDatabaseHeader (header : DatabaseHeader.t) : M db unit :=
  page ← lift (headerPage header);
  overwritePage DB_HEADER_PAGE_IDX page.

(** *** The order of the writes *)

Definition logCheckpointAndApplyShadowPages : M db unit :=
  on_shadow flushAll;;
  on_wal WAL.logAndFlushCheckpoint;;
  s ← get;
  on_data (applyShadowPages (shadow s));;
  on_wal WAL.clear;;
  on_shadow clear.

Definition finalizeCheckpoint : M db unit :=
  on_pm (fun pm => pm ← PageManager.finalizeCheckpoint pm; mret (pm, tt)).

(** All that comes before the shadow file is flushed. *)
Definition prepareCheckpoint : M db unit :=
  s ← get;
  databaseHeader ← lift (getCurrentDatabaseHeader (FileHandle.fileInfo (dataFH s)));
  hasStorageChanges ← checkpointStorage;
  databaseHeader ← serializeCatalogAndMetadata databaseHeader hasStorageChanges;
  writeDatabaseHeader databaseHeader.

Definition writeCheckpoint : M db unit :=
  if isInMemory then mret tt
  else
    prepareCheckpoint;;
    logCheckpointAndApplyShadowPages;;
    finalizeCheckpoint;;
    modify (fun s => set_versions s 0);;
    on_wal WAL.reset;;
    on_shadow reset.

Definition rollback : M db unit :=
  if isInMemory then mret tt
  else
    modify (fun s => set_contents s (catalog s) (rollbackTables (tables s)));;
    on_pm (fun pm => mret (PageManager.rollbackCheckpoint pm, tt)).

(** *** Of a recovery ([RecoveryCheckpointer] of [wal_replayer.cpp]) *)

(** [FileHandle::refreshNumPagesFromDisk]. *)
Definition refreshNumPagesFromDisk (fh : FileHandle.t) : FileHandle.t :=
  let newNumPages := (size (content (FileHandle.fileInfo fh)) + PAGE - 1) / PAGE in
  if newNumPages <=? FileHandle.numPages fh then fh
  else FileHandle.mk (FileHandle.fileIndex fh) newNumPages (FileHandle.frames fh) (FileHandle.fileInfo fh).

Definition applyShadowPagesWithoutLog : M db unit :=
  on_shadow flushAll;;
  s ← get;
  on_data (applyShadowPages (shadow s));;
  on_data (fun fh => mret (refreshNumPagesFromDisk fh));;
  on_shadow clear.

Definition writeRecoveryCheckpoint : M db unit :=
  if isInMemory then mret tt
  else
    prepareCheckpoint;;
    applyShadowPagesWithoutLog;;
    finalizeCheckpoint;;
    modify (fun s => set_versions s 0).

(** *** Reading a checkpoint *)

Definition of_outcome {A} (o : outcome A) : decoder A :=
  match o with Ret a => Decoder.Done a | Throw e => Decoder.Fail e | Undef => Stuck end.

(** [FreeSpaceManager::deserialize]. *)
Fixpoint readEntries (n : nat) (s : FreeSpaceManager.t) : decoder FreeSpaceManager.t :=
  match n with
  | O => mret s
  | S n =>
      start ← decode u32_wire; num ← decode u32_wire;
      s ← of_outcome (FreeSpaceManager.addFreePages s (PageRange.mk start num));
      readEntries n s
  end.
Definition readPageManager : decoder FreeSpaceManager.t :=
  numEntries ← decode u64_wire; readEntries (Z.to_nat numEntries) FreeSpaceManager.init.

(** [Catalog::deserialize] and [StorageManager::deserialize]; what there is before. *)
Context (readCatalog : decoder Cat) (readTables : Cat -> decoder St) (emptyCatalog : Cat) (noTables : St).

(** [StorageManager::initDataFileHandle], of a file that may be new. *)
Definition initDataFileHandle (isReadOnly : bool) (fileIndex : Z) (dataFile : FileInfo) : outcome (FileHandle.t * FreeSpaceManager.t) :=
  let fh := FileHandle.make fileIndex dataFile in
  if (FileHandle.numPages fh =? 0) && negb isReadOnly then
    '(pm, _) ← PageManager.allocatePageRange
       (PageManager.mk_pm FreeSpaceManager.init (FreeSpaceManager.FileHandle.mk (FileHandle.numPages fh) []) 0) 1;
    page ← headerPage DatabaseHeader.defaultHeader;
    mret (FileHandle.mk fileIndex (FreeSpaceManager.FileHandle.numPages (PageManager.fileHandle pm)) ∅
            (syncFile (writeFile dataFile page DB_HEADER_PAGE_IDX)), PageManager.freeSpaceManager pm)
  else mret (fh, FreeSpaceManager.init).

(** One reader, set to where the header says. *)
Definition readContents (dataFile : FileInfo) (fsm : FreeSpaceManager.t) : outcome (Cat * St * FreeSpaceManager.t) :=
  reader ← BufferedFileReader.make dataFile;
  '(currentHeader, reader) ← BufferedFileReader.exec (DatabaseHeader.readDatabaseHeader version) reader;
  if PageRange.startPageIdx (DatabaseHeader.catalogPageRange currentHeader) =? INVALID_PAGE_IDX then mret (emptyCatalog, noTables, fsm)
  else
    let reader := BufferedFileReader.resetReadOffset reader (PageRange.startPageIdx (DatabaseHeader.catalogPageRange currentHeader) * PAGE) in
    '(c, reader) ← BufferedFileReader.exec readCatalog reader;
    let reader := BufferedFileReader.resetReadOffset reader (PageRange.startPageIdx (DatabaseHeader.metadataPageRange currentHeader) * PAGE) in
    '(t, reader) ← BufferedFileReader.exec (readTables c) reader;
    '(fsm, _) ← BufferedFileReader.exec readPageManager reader;
    mret (c, t, fsm).

(** A database on disk is opened; [walFile] is the log that is there. *)
Definition readCheckpoint (isReadOnly : bool) (fileIndex : Z) (dataFile : FileInfo) (shadowFile walFile : option FileInfo) : outcome db :=
  '(fh, fsm) ← initDataFileHandle isReadOnly fileIndex dataFile;
  '(c, t, fsm) ←
    (if 0 <? FileHandle.numPages fh then readContents (FileHandle.fileInfo fh) fsm
     else mret (emptyCatalog, noTables, fsm));
  mret (mk_db (ShadowUtils.mk_files fh (ShadowFile.make shadowFile)) fsm 0 (WAL.make false isReadOnly walFile) c 0 t).
End Checkpointer.
End Checkpointer.
