(* ===== verification/CheckpointerRun.v ===== *)
(** Checkpoints, call by call: the header and the page manager read back, and what a file
    has in a range of pages; then what each call does to the pages of the database. *)
From stdpp Require Import gmap.
From S2P Require Import Prelude Effects Serializer FreeSpaceManager FreeSpaceFacts InMemFileWriter FreeSpaceSpec Decoder BufferedFile BufferedFileFacts.
From S2P Require Import WALRecord WAL WALFacts ShadowFile ShadowFacts ShadowHistory Checkpointer.
Local Open Scope Z_scope.

(** ** The header *)

Section header.
Context (version : string).

Definition header_bytes (h : DatabaseHeader.t) : bytes := concat (DatabaseHeader.serialize version h).

Definition range_ok (r : PageRange.t) : Prop := 0 <= PageRange.startPageIdx r < 2 ^ 32 /\ 0 <= PageRange.numPages r < 2 ^ 32.
Definition header_ok (h : DatabaseHeader.t) : Prop := range_ok (DatabaseHeader.catalogPageRange h) /\ range_ok (DatabaseHeader.metadataPageRange h).

Lemma version_range : 0 <= StorageVersionInfo.getStorageVersion version < 2 ^ 64.
Proof.
  unfold StorageVersionInfo.getStorageVersion. destruct (find _ _) as [[v n]|] eqn:E; [|by vm_compute].
  apply find_some in E as [Hin _]. revert Hin. unfold StorageVersionInfo.getStorageVersionInfo. cbn [In].
  intros Hin. repeat (destruct Hin as [[= _ <-]|Hin]; [lia|]). done.
Qed.

Lemma header_bytes_cons h : header_bytes h = StorageVersionInfo.MAGIC_BYTES ++ write u64_wire (StorageVersionInfo.getStorageVersion version) ++
  write u32_wire (PageRange.startPageIdx (DatabaseHeader.catalogPageRange h)) ++ write u32_wire (PageRange.numPages (DatabaseHeader.catalogPageRange h)) ++
  write u32_wire (PageRange.startPageIdx (DatabaseHeader.metadataPageRange h)) ++ write u32_wire (PageRange.numPages (DatabaseHeader.metadataPageRange h)).
Proof. unfold header_bytes, DatabaseHeader.serialize. rewrite concat_app. cbn [concat]. by rewrite app_nil_r. Qed.

Lemma size_header_bytes h : size (header_bytes h) = 28.
Proof. rewrite header_bytes_cons. unfold size. rewrite !length_app. cbn [write uint_wire]. rewrite !length_le_bytes. done. Qed.

Lemma parse_magic magic rest : length magic = 4%nat -> Forall (fun b => 0 <= b < 256) magic ->
  parse DatabaseHeader.validateMagicBytes (magic ++ rest) =
    Some (if decide (magic = StorageVersionInfo.MAGIC_BYTES) then Ret tt
          else Throw (RuntimeException "Unable to open database. The file is not a valid Kuzu database file!"), rest).
Proof.
  intros Hl Hb. unfold DatabaseHeader.validateMagicBytes. rewrite parse_bind.
  assert (magic = concat (map (write u8_wire) magic)) as Hm.
  { clear Hl. induction Hb as [|b bs Hb _ IH]; [done|]. cbn [map concat]. rewrite <-IH. cbn. by rewrite Z.mod_small. }
  assert (parse (decode_n u8_wire 4) (magic ++ rest) = Some (Ret magic, rest)) as Hp.
  { rewrite <-Hl. rewrite Hm at 2. apply parse_n. eapply Forall_impl; [exact Hb|]. intros b Hbb. exact Hbb. }
  match goal with |- context [@parse ?A ?d ?l] => replace (@parse A d l) with (Some (@Ret A magic, rest)) by (symmetry; exact Hp) end. by destruct (decide _).
Qed.

Lemma parse_version v rest : 0 <= v < 2 ^ 64 ->
  parse (DatabaseHeader.validateStorageVersion version) (write u64_wire v ++ rest) =
    Some (if v =? StorageVersionInfo.getStorageVersion version then Ret tt
          else Throw (RuntimeException "Trying to read a database file with a different version. Database file version: {}, Current build storage version: {}"), rest).
Proof. intros Hv. unfold DatabaseHeader.validateStorageVersion. rewrite parse_bind, decode_write by (cbn; lia). by destruct (_ =? _). Qed.

Lemma parse_header h rest : header_ok h -> parse (DatabaseHeader.readDatabaseHeader version) (header_bytes h ++ rest) = Some (Ret h, rest).
Proof.
  intros [[Hc1 Hc2] [Hm1 Hm2]]. unfold DatabaseHeader.readDatabaseHeader. rewrite header_bytes_cons, <-!app_assoc.
  assert (Forall (fun b => 0 <= b < 256) StorageVersionInfo.MAGIC_BYTES) as Hmagic.
  { unfold StorageVersionInfo.MAGIC_BYTES. repeat (apply Forall_cons; split; [lia|]). by apply Forall_nil. }
  rewrite parse_bind, parse_magic, decide_True by done.
  rewrite parse_bind, parse_version by apply version_range. rewrite Z.eqb_refl. run_parse. by destruct h as [[] []].
Qed.
End header.

(** ** Writers in memory *)

Lemma writeChunks_mem w data cs : InMemFileWriter.repr w data -> InMemFileWriter.tight w ->
  exists w', Checkpointer.writeChunks w cs = Ret w' /\ InMemFileWriter.repr w' (data ++ concat cs) /\ InMemFileWriter.tight w'.
Proof.
  revert w data. induction cs as [|c cs IH]; intros w data Hr Ht; cbn [Checkpointer.writeChunks concat].
  - exists w. by rewrite app_nil_r.
  - destruct (InMemFileWriter.write_spec w data c Hr Ht) as (w1 & -> & Hr1 & Ht1). cbn [mbind outcome_bind].
    destruct (IH w1 _ Hr1 Ht1) as (w2 & -> & Hr2 & Ht2). exists w2. by rewrite app_assoc.
Qed.

Lemma KUZU_PAGE : Z.of_nat KUZU_PAGE_SIZE = PAGE.
Proof. exact KUZU_PAGE_SIZE_Z. Qed.

Lemma map_default_Some junk (bs : bytes) : map (default junk) (map Some bs) = bs.
Proof. rewrite map_map. cbn. apply map_id. Qed.

(** The header, and whatever the rest of the page has. *)
Lemma headerPage_run junk version h : exists pad, Checkpointer.headerPage junk version h = Ret (header_bytes version h ++ pad) /\ size (header_bytes version h ++ pad) = PAGE.
Proof.
  destruct (InMemFileWriter.repr_init) as [Hr0 Ht0]. destruct (writeChunks_mem _ _ (DatabaseHeader.serialize version h) Hr0 Ht0) as (w & Hw & Hr & Ht).
  unfold Checkpointer.headerPage. rewrite Hw. cbn [mbind outcome_bind]. cbn [app] in Hr. fold (header_bytes version h) in Hr.
  destruct (InMemFileWriter.repr_pages w _ Hr Ht) as [[Hd1 Hd2] _]. pose proof (size_header_bytes version h) as Hsz. unfold size in Hsz. pose proof KUZU_PAGE as HP. unfold PAGE in HP.
  assert (InMemFileWriter.pages w <> []) as Hne by (intros E; unfold InMemFileWriter.getNumPagesToFlush in *; rewrite E in *; cbn in *; lia).
  destruct (InMemFileWriter.repr_full w _ Hr Hne) as (full & used & pad & E & H1 & H2 & H3 & Hdata).
  assert (full = []) as ->.
  { apply nil_length_inv. unfold InMemFileWriter.getNumPagesToFlush in *. rewrite E, length_app, length_map in Hd2. cbn [length] in Hd2. nia. }
  cbn [map app concat] in E, Hdata. subst used. rewrite E. cbn [load lookup list_lookup].
  unfold load. cbn [lookup list_lookup mbind outcome_bind mret outcome_ret]. rewrite map_app, map_default_Some. eexists. split; [done|].
  unfold size, PAGE. rewrite length_app, length_map. lia.
Qed.

(** ** The page manager *)

Lemma readEntries_parse n s bs s' rest : FreeSpaceManager.deserializeEntries n s bs = Ret (s', rest) ->
  parse (Checkpointer.readEntries n s) bs = Some (Ret s', rest).
Proof.
  assert (forall bs z rest, Serializer.deserialize u32_codec bs = Ret (z, rest) -> parse (decode u32_wire) bs = Some (Ret z, rest)) as Hu32.
  { clear. intros bs z rest. cbn [Serializer.deserialize u32_codec uint_codec]. unfold read_uint. destruct (decide _) as [Hl|]; [|done]. intros [= <- <-].
    cbn [decode uint_wire decode_uint parse]. rewrite (proj2 (Z.ltb_ge _ _)), (proj2 (Z.leb_le _ _)) by lia. by rewrite Nat2Z.id. }
  revert s bs. induction n as [|n IH]; intros s bs; cbn [FreeSpaceManager.deserializeEntries Checkpointer.readEntries]; [by intros [= <- <-]|].
  unfold FreeSpaceManager.read_range. intros H. apply outcome_bind_Ret_inv in H as ((e & bs1) & Hr & H).
  apply outcome_bind_Ret_inv in Hr as ((start & bs2) & H1 & Hr). apply outcome_bind_Ret_inv in Hr as ((num & bs3) & H2 & [= <- <-]).
  apply outcome_bind_Ret_inv in H as (s1 & Ha & H).
  rewrite parse_bind, (Hu32 _ _ _ H1), parse_bind, (Hu32 _ _ _ H2), parse_bind, Ha. cbn [Checkpointer.of_outcome parse]. by apply IH.
Qed.

Lemma readPageManager_parse bs s' rest : FreeSpaceManager.deserialize FreeSpaceManager.init bs = Ret (s', rest) ->
  parse Checkpointer.readPageManager bs = Some (Ret s', rest).
Proof.
  unfold FreeSpaceManager.deserialize, Checkpointer.readPageManager. intros H. apply outcome_bind_Ret_inv in H as ((n & bs1) & Hn & H).
  rewrite parse_bind. cbn [Serializer.deserialize u64_codec uint_codec] in Hn. unfold read_uint in Hn. destruct (decide _) as [Hl|]; [|done]. injection Hn as <- <-.
  cbn [decode uint_wire decode_uint parse]. rewrite (proj2 (Z.ltb_ge _ _)), (proj2 (Z.leb_le _ _)) by lia. rewrite Nat2Z.id. cbn [parse].
  by apply readEntries_parse.
Qed.

(** ** Ranges of a file *)

(** What the pages of a range have, and that it begins with these bytes. *)
Definition range_bytes (F : bytes) (r : PageRange.t) : bytes := concat (map (page_at F) (FreeFacts.pages r)).
Definition stored (F : bytes) (r : PageRange.t) (bs : bytes) : Prop := exists pad, range_bytes F r = bs ++ pad.

Lemma pages_concat F s (n : nat) : 0 <= s -> concat (map (page_at F) (seqZ s (Z.of_nat n))) = take (Z.to_nat (Z.of_nat n * PAGE)) (drop (Z.to_nat (s * PAGE)) F).
Proof.
  revert s. induction n as [|n IH]; intros s Hs; [done|]. rewrite seqZ_cons by lia. cbn [map concat].
  replace (Z.pred (Z.of_nat (S n))) with (Z.of_nat n) by lia. rewrite IH by lia. unfold page_at.
  replace (Z.to_nat (Z.succ s * PAGE)) with (Z.to_nat (s * PAGE) + Z.to_nat PAGE)%nat by (unfold PAGE; lia).
  replace (Z.to_nat (Z.of_nat (S n) * PAGE)) with (Z.to_nat PAGE + Z.to_nat (Z.of_nat n * PAGE))%nat by (unfold PAGE; lia).
  by rewrite <-drop_drop, take_take_drop.
Qed.

Lemma stored_drop F r bs : 0 <= PageRange.startPageIdx r -> stored F r bs -> exists rest, drop (Z.to_nat (PageRange.startPageIdx r * PAGE)) F = bs ++ rest.
Proof.
  intros Hs [pad Hp]. unfold range_bytes, FreeFacts.pages in Hp. destruct (Z.le_gt_cases 0 (PageRange.numPages r)) as [Hn|Hn].
  - destruct (Z_of_nat_complete _ Hn) as [n En]. rewrite En, pages_concat in Hp by done.
    exists (pad ++ drop (Z.to_nat (Z.of_nat n * PAGE)) (drop (Z.to_nat (PageRange.startPageIdx r * PAGE)) F)).
    by rewrite app_assoc, <-Hp, take_drop.
  - rewrite seqZ_nil in Hp by lia. symmetry in Hp. apply app_eq_nil in Hp as [-> _]. by eexists.
Qed.

Lemma stored_ext F F' r bs : (forall p, p ∈ FreeFacts.pages r -> page_at F' p = page_at F p) -> stored F r bs -> stored F' r bs.
Proof.
  intros He [pad Hp]. exists pad. rewrite <-Hp. unfold range_bytes. f_equal. apply map_ext_in. intros p Hin. apply He. by apply list_elem_of_In.
Qed.

(** ** Reading a checkpoint *)

Section reading.
Context {Cat St : Type} (version : string) (readCatalog : decoder Cat) (readTables : Cat -> decoder St) (emptyCatalog : Cat) (noTables : St).

Definition valid (r : PageRange.t) : bool := negb (PageRange.startPageIdx r =? INVALID_PAGE_IDX).

(** A file whose header says [h], with these bytes where it points; a new file has only
    the header. *)
Definition image (F : bytes) (h : DatabaseHeader.t) (cb mb : bytes) : Prop :=
  header_ok h /\ (exists pad, page_at F 0 = header_bytes version h ++ pad) /\
  if valid (DatabaseHeader.catalogPageRange h) then
    valid (DatabaseHeader.metadataPageRange h) = true /\
    stored F (DatabaseHeader.catalogPageRange h) cb /\ stored F (DatabaseHeader.metadataPageRange h) mb /\ cb <> [] /\ mb <> []
  else h = DatabaseHeader.defaultHeader.

Lemma image_header F h cb mb : image F h cb mb -> exists rest, F = header_bytes version h ++ rest.
Proof.
  intros (_ & [pad Hp] & _). unfold page_at in Hp. change (drop (Z.to_nat (0 * PAGE)) F) with F in Hp.
  exists (pad ++ drop (Z.to_nat PAGE) F). by rewrite app_assoc, <-Hp, take_drop.
Qed.

Lemma exec_at {A} (d : decoder A) F rd pos off bs rest a : ReaderFacts.reads F rd pos -> 0 <= off -> bs <> [] -> drop (Z.to_nat off) F = bs ++ rest ->
  (forall more, parse d (bs ++ more) = Some (Ret a, more)) ->
  exists rd', BufferedFileReader.exec d (BufferedFileReader.resetReadOffset rd off) = Ret (a, rd') /\ ReaderFacts.reads F rd' (off + size bs) /\
    drop (Z.to_nat (off + size bs)) F = rest.
Proof.
  intros Hr Ho Hne Hd Hp. assert (off + size bs <= size F) as Hle.
  { assert (length (drop (Z.to_nat off) F) = length (bs ++ rest)) as Hl by (by rewrite Hd). rewrite length_drop, length_app in Hl. unfold size. destruct bs; [done|cbn [length] in *; lia]. }
  pose proof (size_nonneg bs). pose proof (reset_reads F rd pos off Hr ltac:(lia)) as Hr1.
  destruct (ReaderFacts.exec_run d F _ off (Ret a) rest Hr1) as (rd' & Hrun & Hr'); [by rewrite Hd, Hp|]. exists rd'. split; [done|].
  assert (size F - size rest = off + size bs) as Hpos.
  { assert (size (drop (Z.to_nat off) F) = size bs + size rest) as Hs by (by rewrite Hd, size_app). rewrite size_drop in Hs by lia. lia. }
  rewrite Hpos in Hr'. split; [done|]. rewrite Z2Nat.inj_add, <-drop_drop, Hd by lia. apply drop_app_length'. unfold size. lia.
Qed.

Lemma header_read F h cb mb n : image F h cb mb -> exists rd rd', BufferedFileReader.make (mk_file F n) = Ret rd /\
  BufferedFileReader.exec (DatabaseHeader.readDatabaseHeader version) rd = Ret (h, rd') /\ ReaderFacts.reads F rd' 28.
Proof.
  intros Hi. destruct (image_header _ _ _ _ Hi) as [rest HF]. pose proof Hi as (Hok & _). pose proof (size_header_bytes version h) as Hsz.
  destruct (ReaderFacts.make_run (mk_file F n)) as (rd & Hmake & Hr & _).
  { cbn. rewrite HF. destruct (header_bytes version h); [done|done]. }
  destruct (ReaderFacts.exec_run (DatabaseHeader.readDatabaseHeader version) F rd 0 (Ret h) rest Hr) as (rd' & Hrun & Hr').
  { change (drop (Z.to_nat 0) F) with F. rewrite HF. by apply parse_header. }
  exists rd, rd'. split_and!; [done|done|]. replace (size F - size rest) with 28 in Hr'; [done|]. rewrite HF, size_app. lia.
Qed.

Lemma current_header F h cb mb n : image F h cb mb -> PAGE <= size F ->
  Checkpointer.getCurrentDatabaseHeader version (mk_file F n) = Ret h.
Proof.
  intros Hi Hs. unfold Checkpointer.getCurrentDatabaseHeader. cbn [content]. rewrite (proj2 (Z.ltb_ge _ _)) by done.
  destruct (header_read F h cb mb n Hi) as (rd & rd' & -> & Hrun & _). cbn [mbind outcome_bind]. by rewrite Hrun.
Qed.

Lemma contents_read F h cb tb pb n c t s fsm : image F h cb (tb ++ pb) ->
  (valid (DatabaseHeader.catalogPageRange h) = true ->
     (forall more, parse readCatalog (cb ++ more) = Some (Ret c, more)) /\ (forall more, parse (readTables c) (tb ++ more) = Some (Ret t, more)) /\
     (forall more, parse Checkpointer.readPageManager (pb ++ more) = Some (Ret s, more))) ->
  Checkpointer.readContents version readCatalog readTables emptyCatalog noTables (mk_file F n) fsm =
    Ret (if valid (DatabaseHeader.catalogPageRange h) then (c, t, s) else (emptyCatalog, noTables, fsm)).
Proof.
  intros Hi Hparse. pose proof Hi as ([[Hc1 _] [Hm1 _]] & _ & Hv). unfold Checkpointer.readContents.
  destruct (header_read F h _ _ n Hi) as (rd & rd1 & -> & Hrun & Hr1). cbn [mbind outcome_bind]. rewrite Hrun. cbn [mbind outcome_bind].
  unfold valid in *. destruct (PageRange.startPageIdx (DatabaseHeader.catalogPageRange h) =? INVALID_PAGE_IDX); [done|]. cbn [negb] in *.
  destruct (Hparse eq_refl) as (Hc & Ht & Hs). destruct Hv as (_ & Hsc & Hsm & Hcne & Hmne).
  destruct (stored_drop F _ _ (proj1 Hc1) Hsc) as [rest1 Hd1].
  assert (0 <= PageRange.startPageIdx (DatabaseHeader.catalogPageRange h) * PAGE) as Hoc by (unfold PAGE; lia).
  destruct (exec_at readCatalog F rd1 28 _ cb rest1 c Hr1 Hoc Hcne Hd1 Hc) as (rd2 & -> & Hr2 & _). cbn [mbind outcome_bind].
  destruct (stored_drop F _ _ (proj1 Hm1) Hsm) as [rest2 Hd2]. set (off := PageRange.startPageIdx (DatabaseHeader.metadataPageRange h) * PAGE) in *.
  assert (0 <= off) as Hoff by (unfold off, PAGE; lia).
  assert (off + size (tb ++ pb) <= size F) as Hle.
  { assert (length (drop (Z.to_nat off) F) = length ((tb ++ pb) ++ rest2)) as Hl by (by rewrite Hd2). rewrite length_drop, length_app in Hl. unfold size.
    destruct (tb ++ pb); [done|cbn [length] in *; lia]. }
  rewrite size_app in Hle. pose proof (size_nonneg tb). pose proof (size_nonneg pb). rewrite <-app_assoc in Hd2.
  pose proof (reset_reads F rd2 _ off Hr2 ltac:(lia)) as Hr2'.
  destruct (ReaderFacts.exec_run (readTables c) F _ off (Ret t) (pb ++ rest2) Hr2') as (rd3 & -> & Hr3); [by rewrite Hd2, Ht|]. cbn [mbind outcome_bind].
  assert (size F - size (pb ++ rest2) = off + size tb) as Hpos.
  { assert (size (drop (Z.to_nat off) F) = size tb + size (pb ++ rest2)) as Hsz by (by rewrite Hd2, size_app). rewrite size_drop in Hsz by lia. lia. }
  rewrite Hpos in Hr3.
  destruct (ReaderFacts.exec_run Checkpointer.readPageManager F rd3 _ (Ret s) rest2 Hr3) as (rd4 & -> & _); [|done].
  rewrite Z2Nat.inj_add, <-drop_drop, Hd2 by lia. rewrite drop_app_length' by (unfold size; lia). apply Hs.
Qed.
End reading.

(** What a checkpoint does, step by step, to the pages of the database: which it has
    changed, which are in use, and that those of the last checkpoint are still there. *)
Import FreeFacts ShadowFile HandleFacts.

(** Pages of a file: four terabytes of them. *)
Definition LIMIT : Z := 2 ^ 30.

(** The overlay of [ShadowHistory.v], the pages in use by the tables, and those that the
    checkpoint has allocated. *)
Record ghost := mk_ghost { ov : overlay; tp : list Z; added : list Z }.

Section run.
Context {Cat St : Type}.
Abbreviation db := (db Cat St).
Context (fresh : bytes) (fresh_size : size fresh = PAGE) (junk : Z) (version : string).

(** The data file and the pages in use when the checkpoint began. *)
Context (base : list Z) (disk0 : bytes).

Abbreviation unfreed s := (FreeSpaceManager.uncheckpointedFreePageRanges (fsm s)).

(** A page is the checkpoint's own, or in the file. *)
Definition present (v : overlay) (p : Z) : Prop := mine v p = true \/ (p + 1) * PAGE <= size (disk v).

(** [sys] are the pages of the header, the catalog and the metadata, with what they
    have. *)
Record inv (sys : list (Z * bytes)) (g : ghost) (s : db) : Prop := {
  i_holds : holds (ov g) (files s);
  i_pages : file_inv (pageManager s) (map fst sys ++ tp g);
  i_sys : forall p c, (p, c) ∈ sys -> at_page (ov g) p = c /\ present (ov g) p;
  i_mine : forall p, mine (ov g) p = true \/ cached (ov g) p = true -> 0 <= p < count (ov g) /\ p ∉ all_pages (free (fsm s));
  i_added : forall p, p ∈ added g -> p ∉ base;
  i_base : forall p, p ∈ base -> p ∈ map fst sys ++ tp g \/ p ∈ all_pages (unfreed s);
  i_limit : count (ov g) < LIMIT;
  i_size : size disk0 <= size (disk (ov g));
  i_disk : forall p, p ∈ base -> 0 <= p -> (p + 1) * PAGE <= size disk0 -> page_at (disk (ov g)) p = page_at disk0 p;
}.

Lemma i_count sys g s : inv sys g s -> FileHandle.numPages (dataFH s) = count (ov g).
Proof. intros [(_ & _ & _ & Hn & _)]. exact Hn. Qed.

Lemma file_inv_perm pm held held' : held ≡ₚ held' -> file_inv pm held -> file_inv pm held'.
Proof. intros Hp [H1 H2 H3 H4]. split; try done. by rewrite <-Hp. Qed.

(** The pages in use in another order, or some of them moved. *)
Lemma inv_moved sys sys' g s tp' : inv sys g s -> map fst sys ++ tp g ≡ₚ map fst sys' ++ tp' ->
  (forall p c, (p, c) ∈ sys' -> at_page (ov g) p = c /\ present (ov g) p) -> inv sys' (mk_ghost (ov g) tp' (added g)) s.
Proof.
  intros [H1 H2 H3 H4 H5 H6 H7 H8 H9] Hp Hsys. split; try done; [by eapply file_inv_perm|].
  intros p Hb. destruct (H6 p Hb) as [Hin|Hin]; [left; cbn [tp]; by rewrite <-Hp|by right].
Qed.

(** A page in use is in the file, and not free. *)
Lemma held_page sys g s p : inv sys g s -> p ∈ map fst sys ++ tp g -> 0 <= p < count (ov g) /\ p ∉ all_pages (free (fsm s)).
Proof.
  intros Hi Hp. pose proof (held_in_file _ _ p (i_pages _ _ _ Hi) Hp) as Hr. pose proof (file_NoDup _ _ (i_pages _ _ _ Hi)) as Hnd.
  pose proof (i_count _ _ _ Hi) as Hc. unfold pageManager in *. cbn [PageManager.fileHandle PageManager.freeSpaceManager FreeSpaceManager.FileHandle.numPages] in *.
  split; [lia|]. intros Hf. apply NoDup_app in Hnd as (_ & Hd & _). apply (Hd p); [|done]. unfold written. rewrite all_pages_app. apply elem_of_app. by left.
Qed.

Lemma table_page sys g s p : inv sys g s -> p ∈ tp g -> p ∈ map fst sys ++ tp g /\ forall q c, (q, c) ∈ sys -> q <> p.
Proof.
  intros Hi Hp. split; [apply elem_of_app; by right|]. intros q c Hq ->. pose proof (file_NoDup _ _ (i_pages _ _ _ Hi)) as Hnd.
  apply NoDup_app in Hnd as (_ & _ & (_ & Hd & _)%NoDup_app). apply (Hd p); [|done]. apply list_elem_of_In, (in_map fst sys (p, c)). by apply list_elem_of_In.
Qed.

Lemma elem_of_cached v p q b : cached (mk_overlay (own v) (disk v) (count v) (upd (cached v) p b)) q = true -> q = p \/ cached v q = true.
Proof. cbn. unfold upd. destruct (Z.eqb_spec q p); auto. Qed.

(** The files have changed, and nothing else has. *)
Lemma files_inv sys g s fs v : inv sys g s -> holds v fs -> FileHandle.numPages (ShadowUtils.dataFH fs) = FileHandle.numPages (dataFH s) ->
  (forall p, mine v p = true \/ cached v p = true -> (mine (ov g) p = true \/ cached (ov g) p = true) \/ p ∈ map fst sys ++ tp g) ->
  (forall p c, (p, c) ∈ sys -> at_page v p = at_page (ov g) p /\ (present (ov g) p -> present v p)) ->
  size disk0 <= size (disk v) -> (forall p, p ∈ base -> 0 <= p -> (p + 1) * PAGE <= size disk0 -> page_at (disk v) p = page_at disk0 p) ->
  inv sys (mk_ghost v (tp g) (added g)) (set_files s fs).
Proof.
  intros Hi Hh Hn Hm Hsys Hs Hd. pose proof (i_count _ _ _ Hi) as Hc. assert (count v = count (ov g)) as Hcv by (destruct Hh as (_ & _ & _ & <- & _); lia).
  pose proof Hi as [H1 H2 H3 H4 H5 H6 H7 H8 H9]. split; cbn [ov tp added]; try done.
  - assert (pageManager (set_files s fs) = pageManager s) as -> by (unfold pageManager, dataFH in *; cbn [files set_files fsm pmVersion]; by rewrite Hn). done.
  - intros p c Hp. destruct (H3 p c Hp) as [Ha Hpr]. destruct (Hsys p c Hp) as [-> Hpr']. auto.
  - intros p Hp. rewrite Hcv. destruct (Hm p Hp) as [Ho|Hin]; [by apply H4|]. by apply (held_page sys g s).
  - by rewrite Hcv.
Qed.

Lemma update_step sys g s p skip f : inv sys g s -> p ∈ tp g -> (forall c, size c = PAGE -> size (f c) = PAGE) ->
  mine (ov g) p = true \/ skip = true \/ readable (ov g) p ->
  exists fs, on_files (ShadowUtils.updatePage fresh p skip (modify f)) s = (Ret tt, set_files s fs) /\
    inv sys (mk_ghost (overlay_op fresh (Update p skip f) (ov g)) (tp g) (added g)) (set_files s fs).
Proof.
  intros Hi Hp Hsz Hcase. destruct (table_page _ _ _ p Hi Hp) as [Hp' Hns]. destruct (held_page _ _ _ p Hi Hp') as [Hr _]. pose proof (i_limit _ _ _ Hi) as Hl. unfold LIMIT in Hl.
  pose proof (records_bound _ _ (i_holds _ _ _ Hi) (fun q Hq => proj1 (i_mine _ _ _ Hi q (or_introl Hq)))) as Hb.
  destruct (update_holds fresh fresh_size (ov g) (files s) p skip f (i_holds _ _ _ Hi)) as (fs & Hrun & Hh & _); [split_and!; [lia|lia|done|done]|lia|].
  exists fs. unfold on_files. rewrite Hrun. split; [done|]. apply files_inv; [done|done| | | |apply Hi|apply Hi].
  - destruct Hh as (_ & _ & _ & -> & _). cbn. by rewrite (i_count _ _ _ Hi).
  - intros q. cbn [overlay_op]. unfold mine. cbn [own cached]. unfold upd. destruct (Z.eqb_spec q p) as [->|]; [by right|by left].
  - intros q c Hq. apply Hns in Hq. unfold at_page, present, mine. cbn [overlay_op own disk]. unfold upd. by rewrite (proj2 (Z.eqb_neq q p)).
Qed.

Lemma read_step sys g s p b : inv sys g s -> p ∈ tp g -> b && mine (ov g) p = true \/ readable (ov g) p ->
  exists fs, Checkpointer.readPage fresh p b s = (Ret (if b then at_page (ov g) p else page_at (disk (ov g)) p), set_files s fs) /\
    inv sys (mk_ghost (overlay_op fresh (ShadowHistory.ReadPage p b) (ov g)) (tp g) (added g)) (set_files s fs).
Proof.
  intros Hi Hp Hcase. destruct (table_page _ _ _ p Hi Hp) as [Hp' Hns]. destruct (held_page _ _ _ p Hi Hp') as [Hr _].
  destruct (pin_holds fresh (ov g) (files s) p b (i_holds _ _ _ Hi)) as (fs & Hrun & Hh & _); [by split; [lia|]|].
  exists fs. split.
  - unfold Checkpointer.readPage. unfold pin_for in Hrun.
    destruct (ShadowUtils.getFileHandleAndPhysicalPageIdxToPin (files s) p b) as [[[] i]| |]; [| |done..]; cbn [mbind outcome_bind] in Hrun; unfold shadow, dataFH.
    + destruct (shadowingFH (ShadowUtils.shadow (files s))) as [fh|]; [|done].
      destruct (FileHandle.pinPage fresh fh i READ_PAGE) as [[fh' frame]| |]; [|done..]. by injection Hrun as <- <-.
    + destruct (FileHandle.pinPage fresh (ShadowUtils.dataFH (files s)) i READ_PAGE) as [[fh' frame]| |]; [|done..]. by injection Hrun as <- <-.
  - apply files_inv; [done|done| | |by split|apply Hi|apply Hi].
    + destruct Hh as (_ & _ & _ & -> & _). cbn. by rewrite (i_count _ _ _ Hi).
    + intros q. cbn [overlay_op]. unfold mine. cbn [own cached]. unfold upd. destruct (Z.eqb_spec q p) as [->|]; [by right|by left].
Qed.

(** A page that was allocated in this checkpoint is written straight away. *)
Lemma write_step sys g s p data : inv sys g s -> p ∈ tp g -> p ∈ added g -> size data = PAGE -> cached (ov g) p = false -> mine (ov g) p = false ->
  exists fs, on_data (fun fh => FileHandle.writePageToFile fh data p) s = (Ret tt, set_files s fs) /\
    inv sys (mk_ghost (overlay_op fresh (ShadowHistory.WritePage p data) (ov g)) (tp g) (added g)) (set_files s fs).
Proof.
  intros Hi Hp Ha Hsz Hc Hm. destruct (table_page _ _ _ p Hi Hp) as [Hp' Hns]. destruct (held_page _ _ _ p Hi Hp') as [Hr _].
  destruct (write_holds fresh (ov g) (files s) p data (i_holds _ _ _ Hi)) as (fh & Hrun & Hh); [by split_and!; try lia|].
  exists (set_data (files s) fh). unfold on_data. change (dataFH s) with (ShadowUtils.dataFH (files s)). rewrite Hrun. split; [done|].
  assert (forall q, 0 <= q -> q <> p -> (q + 1) * PAGE <= size (disk (ov g)) -> page_at (content (writeFile (mk_file (disk (ov g)) 0) data (p * PAGE))) q = page_at (disk (ov g)) q) as Hother.
  { intros q Hq0 Hne Hin. destruct (written_at (mk_file (disk (ov g)) 0) data p q (proj1 Hr) Hq0 Hsz) as [_ ->]; [|by left]. by rewrite (proj2 (Z.eqb_neq q p)). }
  destruct (written_at (mk_file (disk (ov g)) 0) data p p (proj1 Hr) (proj1 Hr) Hsz) as [Hws _]. cbn [content] in Hws. pose proof (i_size _ _ _ Hi) as Hs0.
  apply files_inv; [done|done| | | | |].
  - destruct Hh as (_ & _ & _ & -> & _). cbn. by rewrite (i_count _ _ _ Hi).
  - intros q Hq. by left.
  - intros q c Hq. destruct (held_page _ _ _ q Hi) as [Hq0 _]; [apply elem_of_app; left; apply list_elem_of_In, (in_map fst sys (q, c)); by apply list_elem_of_In|].
    destruct (i_sys _ _ _ Hi q c Hq) as [_ Hpr]. unfold at_page, present, mine in *. cbn [overlay_op own disk]. split; [|intros [?|?]; [by left|right; rewrite Hws; lia]].
    destruct (own (ov g) q); [done|]. cbn. destruct Hpr as [|Hpr]; [done|]. apply Hother; [lia|by apply (Hns q c)|done].
  - cbn [overlay_op disk]. lia.
  - intros q Hq Hq0 Hin. cbn [overlay_op disk]. assert (q <> p) as Hne by (intros ->; by apply (i_added _ _ _ Hi p)).
    rewrite Hother; [by apply (i_disk _ _ _ Hi)|lia..].
Qed.

(** *** The page manager *)

(** Nothing but the page manager, and the number of pages of the data file. *)
Definition same_db (s s' : db) : Prop :=
  wal s' = wal s /\ catalog s' = catalog s /\ catalogVersion s' = catalogVersion s /\ tables s' = tables s.

Definition with_count (v : overlay) (n : Z) : overlay := mk_overlay (own v) (disk v) n (cached v).

(** The page manager has allocated: more pages, perhaps, in the file. *)
Lemma grown_holds v (s : db) pm : holds v (files s) -> FreeSpaceManager.FileHandle.removedFrames (PageManager.fileHandle pm) = [] ->
  count v <= FreeSpaceManager.FileHandle.numPages (PageManager.fileHandle pm) < 2 ^ 32 ->
  holds (with_count v (FreeSpaceManager.FileHandle.numPages (PageManager.fileHandle pm))) (files (set_pageManager s pm)).
Proof.
  intros Hh Hr Hn. set (n := FreeSpaceManager.FileHandle.numPages (PageManager.fileHandle pm)) in *. pose proof Hh as ((Hok & _) & _ & _ & Hc & _). destruct Hok as (Hnum & _).
  pose proof (add_holds fresh v (files s) (n - count v) Hh ltac:(cbn; lia)) as Ha. rewrite addNewPages_run in Ha by lia.
  unfold set_pageManager. fold n. rewrite Hr. unfold removeFrames, set_data, dataFH in *. cbn [foldr files]. cbn [overlay_op] in Ha. rewrite Hc in Ha.
  by replace (count v + (n - count v)) with n in Ha by lia.
Qed.

(** Where a page is that is in the file and not free. *)
Lemma not_free pm held p : file_inv pm held -> 0 <= p < FreeSpaceManager.FileHandle.numPages (PageManager.fileHandle pm) ->
  p ∉ all_pages (free (PageManager.freeSpaceManager pm)) ->
  p ∈ all_pages (FreeSpaceManager.uncheckpointedFreePageRanges (PageManager.freeSpaceManager pm)) \/ p ∈ held.
Proof.
  intros Hf Hp Hn. assert (p ∈ seqZ 0 (FreeSpaceManager.FileHandle.numPages (PageManager.fileHandle pm))) as Hin by (apply elem_of_seqZ; lia).
  rewrite <-(fi_pages _ _ Hf) in Hin. unfold written in Hin. rewrite all_pages_app, !elem_of_app in Hin. destruct Hin as [[Hin|Hin]|Hin]; [done|by left|by right].
Qed.

Lemma free_apart pm held p : file_inv pm held -> p ∈ all_pages (free (PageManager.freeSpaceManager pm)) ->
  p ∉ all_pages (FreeSpaceManager.uncheckpointedFreePageRanges (PageManager.freeSpaceManager pm)) /\ p ∉ held.
Proof.
  intros Hf Hp. pose proof (file_NoDup _ _ Hf) as Hnd. unfold written in Hnd. rewrite all_pages_app in Hnd.
  apply NoDup_app in Hnd as ((_ & Hd & _)%NoDup_app & Hd' & _). split; [by apply Hd|]. apply Hd'. apply elem_of_app. by left.
Qed.

Lemma allocated_apart pm r held p : file_inv pm (pages r ++ held) -> p ∈ pages r ->
  p ∉ all_pages (FreeSpaceManager.uncheckpointedFreePageRanges (PageManager.freeSpaceManager pm)) /\ p ∉ held.
Proof.
  intros Hf Hp. pose proof (file_NoDup _ _ Hf) as Hnd. unfold written in Hnd. rewrite all_pages_app in Hnd.
  apply NoDup_app in Hnd as (_ & Hd & (_ & Hd' & _)%NoDup_app). split; [|by apply Hd'].
  intros Hu. apply (Hd p); [apply elem_of_app; by right|apply elem_of_app; by left].
Qed.

(** What an allocation of the page manager means for the database. *)
Lemma allocated_inv sys g s pm r : inv sys g s -> file_inv pm (pages r ++ (map fst sys ++ tp g)) ->
  FreeSpaceManager.FileHandle.removedFrames (PageManager.fileHandle pm) = [] ->
  FreeSpaceManager.uncheckpointedFreePageRanges (PageManager.freeSpaceManager pm) = unfreed s ->
  count (ov g) <= FreeSpaceManager.FileHandle.numPages (PageManager.fileHandle pm) < LIMIT ->
  let n := FreeSpaceManager.FileHandle.numPages (PageManager.fileHandle pm) in
  inv sys (mk_ghost (with_count (ov g) n) (pages r ++ tp g) (pages r ++ added g)) (set_pageManager s pm) /\
  forall p, p ∈ pages r -> mine (ov g) p = false /\ cached (ov g) p = false /\ p ∉ base /\ p ∉ map fst sys ++ tp g.
Proof.
  intros Hi Hf Hr Hu Hn n. pose proof Hi as [H1 H2 Hsys H3 H4 H5 H6 H7 H8].
  assert (forall p, mine (ov g) p = true \/ cached (ov g) p = true -> p ∈ all_pages (unfreed s) \/ p ∈ map fst sys ++ tp g) as Hwhere.
  { intros p Hp. destruct (H3 p Hp) as [Hrange Hnf]. apply (not_free _ _ p H2); [|done]. unfold pageManager. cbn. rewrite (i_count _ _ _ Hi). lia. }
  assert (forall p, p ∈ pages r -> p ∉ all_pages (unfreed s) /\ p ∉ map fst sys ++ tp g) as Hnew.
  { intros p Hp. destruct (allocated_apart _ _ _ p Hf Hp) as [Ha Hb]. by rewrite Hu in Ha. }
  assert (forall p, p ∈ base -> p ∉ pages r) as Hbase.
  { intros p Hb Hp. destruct (Hnew p Hp) as [Ha Hh]. by destruct (H5 p Hb). }
  split.
  - split; cbn [ov tp added].
    + apply grown_holds; [done|done|]. unfold LIMIT in *. lia.
    + assert (pageManager (set_pageManager s pm) = pm) as ->.
      { unfold pageManager, set_pageManager, dataFH. cbn. destruct pm as [f [] v]. cbn in *. by rewrite Hr. }
      eapply file_inv_perm; [|exact Hf]. by rewrite !app_assoc, (Permutation_app_comm (pages r)).
    + exact Hsys.
    + intros p Hp. change (mine (with_count (ov g) n) p) with (mine (ov g) p) in Hp. cbn [with_count cached count] in *. destruct (H3 p Hp) as [Hrange _]. split; [lia|].
      change (fsm (set_pageManager s pm)) with (PageManager.freeSpaceManager pm). intros Hin. destruct (free_apart _ _ p Hf Hin) as [Ha Hb]. rewrite Hu in Ha.
      destruct (Hwhere p Hp) as [|Hh]; [done|]. apply Hb. apply elem_of_app. by right.
    + intros p [Hp|Hp]%elem_of_app; [|by apply H4]. intros Hb. by apply (Hbase p Hb).
    + change (unfreed (set_pageManager s pm)) with (FreeSpaceManager.uncheckpointedFreePageRanges (PageManager.freeSpaceManager pm)). rewrite Hu.
      intros p Hb. destruct (H5 p Hb) as [Hin|]; [left|by right]. rewrite !elem_of_app in *. tauto.
    + cbn. lia.
    + done.
    + done.
  - intros p Hp. destruct (Hnew p Hp) as [Ha Hh]. split_and!.
    + destruct (mine (ov g) p) eqn:E; [|done]. by destruct (Hwhere p (or_introl E)).
    + destruct (cached (ov g) p) eqn:E; [|done]. by destruct (Hwhere p (or_intror E)).
    + intros Hb. by apply (Hbase p Hb).
    + done.
Qed.

Lemma allocated_facts sys g s n pm r : inv sys g s -> 0 <= n -> count (ov g) + n < LIMIT -> PageManager.allocatePageRange (pageManager s) n = Ret (pm, r) ->
  let s' := set_pageManager s pm in
  same_db s s' /\ unfreed s' = unfreed s /\ PageRange.numPages r = n /\ (0 < n -> ok r) /\
  exists c, count (ov g) <= c <= count (ov g) + n /\ inv sys (mk_ghost (with_count (ov g) c) (pages r ++ tp g) (pages r ++ added g)) s' /\
    forall p, p ∈ pages r -> mine (ov g) p = false /\ cached (ov g) p = false /\ p ∉ base /\ p ∉ map fst sys ++ tp g.
Proof.
  intros Hi Hn Hl Hrun. pose proof (i_count _ _ _ Hi) as Hc. unfold LIMIT in Hl. pose proof (fi_size _ _ (i_pages _ _ _ Hi)) as [Hc0 _]. cbn in Hc0.
  destruct (allocatePageRange_spec (pageManager s) (map fst sys ++ tp g) n (i_pages _ _ _ Hi) Hn) as (pm' & r' & Hrun' & Hrn & Hf & Hok & Hu & _ & Hge); [cbn; lia|].
  rewrite Hrun in Hrun'. injection Hrun' as <- <-.
  assert (FreeSpaceManager.FileHandle.removedFrames (PageManager.fileHandle pm) = [] /\
    FreeSpaceManager.FileHandle.numPages (PageManager.fileHandle pm) <= count (ov g) + n) as [Hr Hle].
  { revert Hrun. unfold PageManager.allocatePageRange. destruct (FreeSpaceManager.popFreePages _ n) as [[f [r'|]]| |]; cbn [mbind outcome_bind]; [| |done..].
    - intros [= <- _]. cbn. split; [done|lia].
    - rewrite FreeSpaceSpec.addNewPages_spec by (cbn; lia). destruct (ku_assert _); cbn [mbind outcome_bind mret outcome_ret]; [|done..]. intros [= <- _]. cbn. split; [done|lia]. }
  cbn in Hge. destruct (allocated_inv sys g s pm r Hi Hf Hr Hu ltac:(unfold LIMIT; lia)) as [Hi' Hnew].
  split; [done|]. split; [exact Hu|]. split; [done|]. split; [done|]. eexists. split; [|by split]. lia.
Qed.

Lemma allocate_step sys g s n : inv sys g s -> 0 <= n -> count (ov g) + n < LIMIT ->
  exists r s' c, on_pm (fun pm => PageManager.allocatePageRange pm n) s = (Ret r, s') /\ same_db s s' /\ unfreed s' = unfreed s /\
    PageRange.numPages r = n /\ (0 < n -> ok r) /\ count (ov g) <= c <= count (ov g) + n /\
    inv sys (mk_ghost (with_count (ov g) c) (pages r ++ tp g) (pages r ++ added g)) s' /\
    forall p, p ∈ pages r -> mine (ov g) p = false /\ cached (ov g) p = false /\ p ∉ base /\ p ∉ map fst sys ++ tp g.
Proof.
  intros Hi Hn Hl. pose proof (i_count _ _ _ Hi) as Hc.
  destruct (allocatePageRange_spec (pageManager s) (map fst sys ++ tp g) n (i_pages _ _ _ Hi) Hn) as (pm & r & Hrun & _); [cbn; unfold LIMIT in Hl; lia|].
  destruct (allocated_facts sys g s n pm r Hi Hn Hl Hrun) as (? & ? & ? & ? & c & ? & ? & ?).
  exists r, (set_pageManager s pm), c. split; [|done]. unfold on_pm. by rewrite Hrun.
Qed.

Lemma free_step sys g s r tp' : inv sys g s -> 0 < PageRange.numPages r -> tp g ≡ₚ pages r ++ tp' ->
  exists s', on_pm (fun pm => mret (PageManager.freePageRange pm r, tt)) s = (Ret tt, s') /\ same_db s s' /\ unfreed s' = unfreed s ++ [r] /\
    inv sys (mk_ghost (ov g) tp' (added g)) s'.
Proof.
  intros Hi Hn Hp. pose proof Hi as [H1 H2 Hsys H3 H4 H5 H6 H7 H8].
  assert (file_inv (PageManager.freePageRange (pageManager s) r) (map fst sys ++ tp')) as Hf.
  { apply (freePageRange_spec _ r (map fst sys ++ tp g)); [done|]. split; [done|]. rewrite Hp. by rewrite !app_assoc, (Permutation_app_comm (map fst sys)). }
  eexists. split; [reflexivity|]. split; [done|]. split; [done|]. split; cbn [ov tp added]; try done.
  intros p Hb. change (unfreed (set_pageManager s (PageManager.freePageRange (pageManager s) r))) with (unfreed s ++ [r]). rewrite all_pages_app, elem_of_app, (all_pages_cons r []), elem_of_app.
  destruct (H5 p Hb) as [Hin|Hin]; [|by right; left]. assert (p ∈ map fst sys ++ pages r ++ tp') as Hin' by by rewrite <-Hp.
  rewrite !elem_of_app in *. tauto.
Qed.
End run.
