(* ===== verification/CheckpointerState.v ===== *)
(** What comes before the shadow file is flushed: the checkpoint of the tables, by a
    predicate transformer over their calls, and the pages of the catalog, the metadata
    and the header; then the database between checkpoints. *)
From stdpp Require Import gmap.
From S2P Require Import Prelude Effects Serializer FreeSpaceManager FreeSpaceFacts InMemFileWriter FreeSpaceSpec Decoder BufferedFile BufferedFileFacts.
From S2P Require Import WALRecord WAL WALFacts ShadowFile ShadowFacts ShadowHistory Checkpointer CheckpointerRun.
Import FreeFacts ShadowFile HandleFacts.
Local Open Scope Z_scope.

Section prepare.
Context {Cat St : Type}.
Abbreviation db := (db Cat St).
Context (fresh : bytes) (fresh_size : size fresh = PAGE) (junk : Z) (version : string).
Context (base : list Z) (disk0 : bytes).
Abbreviation inv := (@inv Cat St base disk0).
Abbreviation unfreed s := (FreeSpaceManager.uncheckpointedFreePageRanges (fsm s)).

(** ** The tables *)

(** The calls that tables may make, and what is true when they return: only pages in
    use by tables are touched, a page is read when it is there, and what is written
    straight away is a page allocated in this checkpoint that nobody has read. *)
Fixpoint wp {A} (a : action A) (g : ghost) (post : A -> ghost -> Prop) : Prop :=
  match a with
  | Done a => post a g
  | Fail _ => True
  | UpdatePage p skip f k =>
      p ∈ tp g /\ (forall c, size c = PAGE -> size (f c) = PAGE) /\ (mine (ov g) p = true \/ skip = true \/ readable (ov g) p) /\
      wp k (mk_ghost (overlay_op fresh (Update p skip f) (ov g)) (tp g) (added g)) post
  | ReadPage p b k =>
      p ∈ tp g /\ (b && mine (ov g) p = true \/ readable (ov g) p) /\
      wp (k (if b then at_page (ov g) p else page_at (disk (ov g)) p)) (mk_ghost (overlay_op fresh (ShadowHistory.ReadPage p b) (ov g)) (tp g) (added g)) post
  | WritePage p data k =>
      p ∈ tp g /\ p ∈ added g /\ size data = PAGE /\ cached (ov g) p = false /\ mine (ov g) p = false /\
      wp k (mk_ghost (overlay_op fresh (ShadowHistory.WritePage p data) (ov g)) (tp g) (added g)) post
  | AllocatePageRange n k =>
      0 < n /\ count (ov g) + n < LIMIT /\
      forall r c, PageRange.numPages r = n -> ok r -> count (ov g) <= c <= count (ov g) + n ->
        (forall p, p ∈ pages r -> 0 <= p < c /\ mine (ov g) p = false /\ cached (ov g) p = false /\ p ∉ tp g) ->
        wp (k r) (mk_ghost (with_count (ov g) c) (pages r ++ tp g) (pages r ++ added g)) post
  | FreePageRange r k =>
      0 < PageRange.numPages r /\ exists tp', tp g ≡ₚ pages r ++ tp' /\ wp k (mk_ghost (ov g) tp' (added g)) post
  end.

Lemma same_db_trans s1 s2 s3 : same_db (s1 : db) s2 -> same_db s2 s3 -> same_db s1 s3.
Proof. intros (? & ? & ? & ?) (? & ? & ? & ?). split_and!; congruence. Qed.

Lemma run_wp {A} (a : action A) sys g (s : db) post : inv sys g s -> wp a g post ->
  ends (Checkpointer.run fresh a) s
    (fun x s' => exists g', post x g' /\ inv sys g' s' /\ same_db s s')
    (fun s' => exists g', inv sys g' s' /\ same_db s s').
Proof.
  revert g s. induction a as [x|e|p skip f k IH|p b k IH|p data k IH|n k IH|r k IH]; intros g s Hi Hw; cbn [wp Checkpointer.run] in *.
  - exists g. done.
  - exists g. done.
  - destruct Hw as (Hp & Hsz & Hc & Hw). destruct (update_step fresh fresh_size base disk0 sys g s p skip f Hi Hp Hsz Hc) as (fs & Hrun & Hi').
    apply ends_bind. eapply ends_run; [exact Hrun|]. eapply ends_weaken; [by apply (IH _ _ Hi' Hw)|done|done].
  - destruct Hw as (Hp & Hc & Hw). destruct (read_step fresh base disk0 sys g s p b Hi Hp Hc) as (fs & Hrun & Hi').
    apply ends_bind. eapply ends_run; [exact Hrun|]. eapply ends_weaken; [by apply (IH _ _ _ Hi' Hw)|done|done].
  - destruct Hw as (Hp & Ha & Hsz & Hc & Hm & Hw). destruct (write_step fresh base disk0 sys g s p data Hi Hp Ha Hsz Hc Hm) as (fs & Hrun & Hi').
    apply ends_bind. eapply ends_run; [exact Hrun|]. eapply ends_weaken; [by apply (IH _ _ Hi' Hw)|done|done].
  - destruct Hw as (Hn & Hl & Hw). destruct (allocate_step fresh base disk0 sys g s n Hi ltac:(lia) Hl) as (r & s' & c & Hrun & Hsame & _ & Hrn & Hok & Hc & Hi' & Hnew).
    assert (forall p, p ∈ pages r -> 0 <= p < c /\ mine (ov g) p = false /\ cached (ov g) p = false /\ p ∉ tp g) as Hfresh.
    { intros p Hp. destruct (Hnew p Hp) as (Hm & Hca & _ & Hnot). rewrite elem_of_app in Hnot.
      assert (p ∈ map fst sys ++ pages r ++ tp g) as Hin by (rewrite !elem_of_app; auto). destruct (held_page base disk0 _ _ _ p Hi' Hin) as [Hr _].
      split_and!; [apply Hr|apply Hr|done|done|tauto]. }
    apply ends_bind. eapply ends_run; [exact Hrun|]. eapply ends_weaken; [apply (IH r _ _ Hi' (Hw r c Hrn (Hok Hn) Hc Hfresh))| |].
    + intros x s2 (g' & ? & ? & ?). exists g'. split_and!; [done|done|by eapply same_db_trans].
    + intros s2 (g' & ? & ?). exists g'. split; [done|by eapply same_db_trans].
  - destruct Hw as (Hn & tp' & Hp & Hw). destruct (free_step base disk0 sys g s r tp' Hi Hn Hp) as (s' & Hrun & Hsame & _ & Hi').
    apply ends_bind. eapply ends_run; [exact Hrun|]. eapply ends_weaken; [apply (IH _ _ Hi' Hw)| |].
    + intros x s2 (g' & ? & ? & ?). exists g'. split_and!; [done|done|by eapply same_db_trans].
    + intros s2 (g' & ? & ?). exists g'. split; [done|by eapply same_db_trans].
Qed.

(** ** Pages written whole *)

Lemma overwritePage_run sys g (s : db) p data tp' : inv sys g s -> tp g ≡ₚ p :: tp' -> size data = PAGE ->
  exists fs v, Checkpointer.overwritePage fresh p data s = (Ret tt, set_files s fs) /\ count v = count (ov g) /\ mine v p = true /\
    inv ((p, data) :: sys) (mk_ghost v tp' (added g)) (set_files s fs).
Proof.
  intros Hi Hp Hsz. destruct (update_step fresh fresh_size base disk0 sys g s p true (fun _ => data) Hi) as (fs & Hrun & Hi'); [rewrite Hp; left|done|by right; left|].
  exists fs, (overlay_op fresh (Update p true (fun _ => data)) (ov g)). split; [exact Hrun|]. split; [done|]. split; [|eapply (inv_moved _ _ _ _ _ _ tp' Hi')].
  - unfold mine. cbn [overlay_op own]. unfold upd. by rewrite Z.eqb_refl.
  - cbn [map tp]. rewrite Hp. cbn. by rewrite Permutation_middle.
  - intros q c [[= -> ->]|Hq]%elem_of_cons; [|by apply (i_sys _ _ _ _ _ Hi')]. cbn [ov overlay_op].
    unfold at_page, present, mine. cbn [own]. unfold upd. rewrite Z.eqb_refl. by split; [|left].
Qed.

Definition filled (frames : list (Z * InMemFileWriter.buffer)) : list (Z * bytes) := map (fun e => (e.1, map (default junk) e.2)) frames.

Lemma map_fst_filled frames : map fst (filled frames) = map fst frames.
Proof. unfold filled. by rewrite map_map. Qed.

Lemma overwriteAll_run frames sys g (s : db) tp' : inv sys g s -> tp g ≡ₚ map fst frames ++ tp' -> Forall (fun e => length e.2 = KUZU_PAGE_SIZE) frames ->
  exists fs v, Checkpointer.overwriteAll fresh junk frames s = (Ret tt, set_files s fs) /\ count v = count (ov g) /\
    inv (filled frames ++ sys) (mk_ghost v tp' (added g)) (set_files s fs).
Proof.
  intros Hi Hp Hl. revert sys g s Hi Hp. induction Hl as [|[p page] frames Hpage _ IH]; intros sys g s Hi Hp; cbn [map app Checkpointer.overwriteAll] in *.
  - exists (files s), (ov g). split; [by destruct s|]. split; [done|]. destruct s. by apply (inv_moved _ _ _ sys g _ tp' Hi); [rewrite Hp|apply Hi].
  - cbn [fst snd] in *. assert (size (map (default junk) page) = PAGE) as Hsz by (unfold size; rewrite length_map, Hpage; apply KUZU_PAGE_SIZE_Z).
    destruct (overwritePage_run sys g s p _ (map fst frames ++ tp') Hi Hp Hsz) as (fs & v & Hrun & Hc & _ & Hi1).
    destruct (IH _ _ _ Hi1 (Permutation_refl _)) as (fs' & v' & Hrun' & Hc' & Hi2). exists fs', v'. split; [|split].
    + unfold mbind, M_bind. rewrite Hrun. exact Hrun'.
    + by rewrite Hc'.
    + eapply (inv_moved _ _ _ _ _ _ tp' Hi2).
      * cbn [filled map app tp fst]. rewrite !map_app. cbn [map fst app]. solve_Permutation.
      * intros q c Hq. apply (i_sys _ _ _ _ _ Hi2). cbn [filled map app fst snd] in Hq. rewrite elem_of_app, elem_of_cons. apply elem_of_cons in Hq as [Hq|Hq]; [auto|].
        apply elem_of_app in Hq. tauto.
Qed.

(** ** Pages of the catalog and the metadata *)

Definition pagesOf (data : bytes) : Z := (size data + PAGE - 1) / PAGE.

Lemma writer_pages w data : InMemFileWriter.repr w data -> InMemFileWriter.tight w -> Z.of_nat (InMemFileWriter.getNumPagesToFlush w) = pagesOf data.
Proof.
  intros Hr Ht. destruct (InMemFileWriter.repr_pages w data Hr Ht) as [[H1 H2] _]. unfold pagesOf, size. pose proof KUZU_PAGE as HP. unfold PAGE in *.
  apply (Z.div_unique _ _ _ (Z.of_nat (length data) + 2 ^ 12 - 1 - 2 ^ 12 * Z.of_nat (InMemFileWriter.getNumPagesToFlush w))); [left|]; nia.
Qed.

Lemma pagesOf_pos data : data <> [] -> 0 < pagesOf data.
Proof. intros Hne. unfold pagesOf, PAGE. apply Z.div_str_pos. unfold size. destruct data; [done|cbn [length]; lia]. Qed.

Lemma pagesOf_nonneg data : 0 <= pagesOf data.
Proof. unfold pagesOf, PAGE. apply Z.div_pos; [pose proof (size_nonneg data)|]; lia. Qed.

(** These pages are the range, and have these bytes. *)
Definition written_to (new : list (Z * bytes)) (r : PageRange.t) (data : bytes) : Prop :=
  ok r /\ map fst new = pages r /\ exists pad, concat (map snd new) = data ++ pad.

Lemma concat_filled frames data pad : concat (map snd frames) = map Some data ++ pad ->
  concat (map snd (filled frames)) = data ++ map (default junk) pad.
Proof.
  intros Hc. unfold filled. rewrite map_map. cbn [snd]. transitivity (map (default junk) (concat (map snd frames))).
  - by rewrite concat_map, map_map.
  - by rewrite Hc, map_app, map_default_Some.
Qed.

(** Frames of an allocated range are written, and are not pages of the tables. *)
Lemma overwriteRange_run frames sys g (s : db) r data pad tpages c : inv sys (mk_ghost c (pages r ++ tpages) g) s -> ok r -> map fst frames = pages r ->
  concat (map snd frames) = map Some data ++ pad -> Forall (fun e => length e.2 = KUZU_PAGE_SIZE) frames ->
  exists fs v, Checkpointer.overwriteAll fresh junk frames s = (Ret tt, set_files s fs) /\ count v = count c /\
    inv (filled frames ++ sys) (mk_ghost v tpages g) (set_files s fs) /\ written_to (filled frames) r data.
Proof.
  intros Hi Hok Hf Hc Hl. destruct (overwriteAll_run frames sys _ s tpages Hi) as (fs & v & Hrun & Hcv & Hi'); [by rewrite Hf|done|].
  exists fs, v. split_and!; [done|done|done|]. split; [done|]. split; [by rewrite map_fst_filled|]. eexists. by apply concat_filled.
Qed.

Context (catalogChunks : Cat -> list bytes) (tablesChunks : Cat -> St -> list bytes).

Lemma serializeCatalog_run sys g (s : db) data : inv sys g s -> data = concat (catalogChunks (catalog s)) -> data <> [] -> count (ov g) + pagesOf data < LIMIT ->
  exists r s' v new, Checkpointer.serializeCatalog fresh junk catalogChunks s = (Ret r, s') /\ same_db s s' /\ unfreed s' = unfreed s /\
    count (ov g) <= count v <= count (ov g) + pagesOf data /\ written_to new r data /\ inv (new ++ sys) (mk_ghost v (tp g) (pages r ++ added g)) s'.
Proof.
  intros Hi Hdata Hne Hl. destruct (InMemFileWriter.repr_init) as [Hr0 Ht0]. destruct (writeChunks_mem _ _ (catalogChunks (catalog s)) Hr0 Ht0) as (w & Hw & Hr & Ht).
  cbn [app] in Hr. rewrite <-Hdata in Hr. pose proof (writer_pages w data Hr Ht) as Hn. pose proof (pagesOf_pos data Hne) as Hpos.
  destruct (allocate_step fresh base disk0 sys g s (pagesOf data) Hi ltac:(lia) Hl) as (r & s1 & c & Halloc & Hsame & Hu & Hrn & Hok & Hc & Hi1 & _).
  destruct (flush_spec w data r Hr (Hok Hpos)) as (frames & pad & Hflush & Hf & Hcat & Hfl); [lia|].
  destruct (overwriteRange_run frames sys _ s1 r data pad (tp g) _ Hi1 (Hok Hpos) Hf Hcat Hfl) as (fs & v & Hrun & Hcv & Hi2 & Hwr).
  exists r, (set_files s1 fs), v, (filled frames). split_and!; try done.
  - unfold Checkpointer.serializeCatalog. erewrite bind_run by done. erewrite bind_run by (unfold lift; by rewrite Hw).
    erewrite bind_run by (by rewrite Hn). erewrite bind_run by (unfold lift; by rewrite Hflush). by erewrite bind_run by exact Hrun.
  - rewrite Hcv. cbn. lia.
  - rewrite Hcv. cbn. lia.
Qed.

(** There are no more ranges than pages. *)
Lemma ranges_bound sys g (s : db) : inv sys g s -> Z.of_nat (length (written (fsm s))) <= count (ov g).
Proof.
  intros Hi. pose proof (i_pages _ _ _ _ _ Hi) as Hf. pose proof (i_count _ _ _ _ _ Hi) as Hc. destruct Hf as [Hwf Hok [H0 _] Hp]. cbn in *.
  assert (Forall ok (written (fsm s))) as Hall by (apply Forall_app; split; [apply Hwf|done]).
  assert (length (written (fsm s)) <= length (all_pages (written (fsm s))))%nat as Hle.
  { clear - Hall. induction Hall as [|r l (Hr & _) _ IH]; [done|]. rewrite all_pages_cons, length_app. unfold pages. rewrite length_seqZ. cbn [length]. lia. }
  apply Permutation_length in Hp. rewrite length_app, length_seqZ in Hp. lia.
Qed.

(** The bytes of a page manager. *)
Definition reads_fsm (pb : bytes) (f : FreeSpaceManager.t) : Prop := forall more, parse Checkpointer.readPageManager (pb ++ more) = Some (Ret f, more).

Lemma serializeMetadata_run sys g (s : db) data : inv sys g s -> data = concat (tablesChunks (catalog s) (tables s)) ->
  3 * count (ov g) + pagesOf data + 5 < LIMIT ->
  exists r s' v new pb f, Checkpointer.serializeMetadata fresh junk tablesChunks s = (Ret r, s') /\ same_db s s' /\ unfreed s' = unfreed s /\
    count (ov g) <= count v < LIMIT /\ written_to new r (data ++ pb) /\ inv (new ++ sys) (mk_ghost v (tp g) (pages r ++ added g)) s' /\
    reads_fsm pb f /\ pb <> [] /\ wf f /\ free f ≡ₚ written (fsm s') /\ FreeSpaceManager.uncheckpointedFreePageRanges f = [].
Proof.
  intros Hi Hdata Hl. destruct (InMemFileWriter.repr_init) as [Hr0 Ht0]. destruct (writeChunks_mem _ _ (tablesChunks (catalog s) (tables s)) Hr0 Ht0) as (w & Hw & Hr & Ht).
  cbn [app] in Hr. rewrite <-Hdata in Hr. pose proof (writer_pages w data Hr Ht) as Hn. pose proof (pagesOf_nonneg data) as Hpos. pose proof (ranges_bound sys g s Hi) as Hranges.
  pose proof (i_count _ _ _ _ _ Hi) as Hc0. unfold LIMIT in *.
  destruct (serializeMetadata_spec (pageManager s) (map fst sys ++ tp g) w data (i_pages _ _ _ _ _ Hi) Hr Ht) as (n & _ & Hnb & Hrun).
  change (PageManager.freeSpaceManager (pageManager s)) with (fsm s) in Hnb. change (FreeSpaceManager.FileHandle.numPages (PageManager.fileHandle (pageManager s))) with (FileHandle.numPages (dataFH s)) in Hrun.
  destruct Hrun as (pm & r & w' & frames & pb & pad & Halloc & Hser & Hfile & Hf & Hcat & Hfl & Hpb & Hread); [lia|].
  rewrite Hn in Halloc. destruct (allocated_facts fresh base disk0 sys g s (pagesOf data + n) pm r Hi ltac:(lia) ltac:(unfold LIMIT; lia) Halloc) as (Hsame & Hu & Hrn & Hok & c & Hc & Hi1 & _).
  specialize (Hok ltac:(lia)).
  destruct (overwriteRange_run frames sys _ _ r (data ++ pb) pad (tp g) _ Hi1 Hok Hf Hcat Hfl) as (fs & v & Hover & Hcv & Hi2 & Hwr).
  destruct (Hread []) as (f & Hdes & Hwf & Hfree & Hun).
  exists r, (set_files (set_pageManager s pm) fs), v, (filled frames), pb, f. split_and!; try done.
  - unfold Checkpointer.serializeMetadata. erewrite bind_run by done. erewrite bind_run by (unfold lift; by rewrite Hw).
    erewrite bind_run by (unfold on_pm; by rewrite Hser). cbv beta iota. by erewrite bind_run by exact Hover.
  - rewrite Hcv. cbn. lia.
  - rewrite Hcv. cbn. lia.
  - intros more. apply readPageManager_parse in Hdes. rewrite app_nil_r in Hdes. by apply (parse_extend _ _ more) in Hdes.
  - intros ->. apply readPageManager_parse in Hdes. done.
Qed.
End prepare.

(** The database between checkpoints, and that a checkpoint which starts there gets as
    far as the flush of the shadow file with the header, the catalog and the metadata
    written, or throws with the last checkpoint as it was. *)

(** ** Pages that the header names *)

Definition rpages (r : PageRange.t) : list Z := if valid r then pages r else [].
Definition sys_pages (h : DatabaseHeader.t) : list Z := 0 :: rpages (DatabaseHeader.catalogPageRange h) ++ rpages (DatabaseHeader.metadataPageRange h).

Definition contents (F : bytes) (ps : list Z) : list (Z * bytes) := map (fun p => (p, page_at F p)) ps.

Lemma map_fst_contents F ps : map fst (contents F ps) = ps.
Proof. unfold contents. rewrite map_map. apply map_id. Qed.

Lemma contents_app F a b : contents F (a ++ b) = contents F a ++ contents F b.
Proof. apply map_app. Qed.

Lemma written_valid new r data : written_to new r data -> valid r = true.
Proof. intros ((Hn & Hs & He) & _). unfold valid, INVALID_PAGE_IDX. apply negb_true_iff, Z.eqb_neq. lia. Qed.

Section state.
Context {Cat St : Type}.
Abbreviation db := (db Cat St).
Context (fresh : bytes) (fresh_size : size fresh = PAGE) (junk : Z) (version : string).
Abbreviation unfreed s := (FreeSpaceManager.uncheckpointedFreePageRanges (fsm s)).
Abbreviation data_bytes s := (content (FileHandle.fileInfo (dataFH s))).

(** What is on disk of the page manager gives every page of a file of [n] pages to the
    free ranges or to these. *)
Definition reopens (pb : bytes) (held : list Z) : Prop :=
  exists f n, reads_fsm pb f /\ FreeSpaceManager.uncheckpointedFreePageRanges f = [] /\
    file_inv (PageManager.mk_pm f (FreeSpaceManager.FileHandle.mk n []) 0) held.

Definition usable (r : PageRange.t) : Prop := valid r = true -> ok r.

(** Between checkpoints: no shadow file, no dirty frames and none of free pages; the
    header of the data file is [h] and what it points to has the bytes of a catalog,
    of the tables and of a page manager; the tables have the pages [tp]. *)
Record at_rest (h : DatabaseHeader.t) (cb tb pb : bytes) (tp : list Z) (s : db) : Prop := {
  a_shadow : shadow s = ShadowFile.make None;
  a_data : data_ok (dataFH s);
  a_limit : FileHandle.numPages (dataFH s) < LIMIT;
  a_image : image version (data_bytes s) h cb (tb ++ pb);
  a_size : forall p, p ∈ sys_pages h -> (p + 1) * PAGE <= size (data_bytes s);
  a_ranges : usable (DatabaseHeader.catalogPageRange h) /\ usable (DatabaseHeader.metadataPageRange h);
  a_pages : file_inv (pageManager s) (sys_pages h ++ tp);
  a_frames : forall p, is_Some (FileHandle.frames (dataFH s) !! p) -> p ∉ all_pages (free (fsm s));
  a_reopens : valid (DatabaseHeader.metadataPageRange h) = true -> pb <> [] /\ reopens pb (sys_pages h ++ tp);
}.

(** The pages that were in use, or waited for a checkpoint, when this one began. *)
Definition base_of (h : DatabaseHeader.t) (tp : list Z) (s : db) : list Z := sys_pages h ++ tp ++ all_pages (unfreed s).
Definition ghost_of (tp : list Z) (s : db) : ghost := mk_ghost (ShadowHistory.before (dataFH s)) tp [].

Lemma start_inv h cb tb pb tp s : at_rest h cb tb pb tp s ->
  inv (base_of h tp s) (data_bytes s) (contents (data_bytes s) (sys_pages h)) (ghost_of tp s) s.
Proof.
  intros [Hsh Hdata Hlim Himg Hsize _ Hp Hfr _]. split; cbn [ghost_of ov CheckpointerRun.tp added].
  - assert (files s = start (dataFH s)) as ->; [|by apply start_holds]. unfold start, dataFH, shadow in *. destruct (files s). cbn in *. by subst.
  - by rewrite map_fst_contents.
  - intros p c Hin. apply list_elem_of_fmap in Hin as (q & [= -> ->] & Hq). split; [done|]. right. by apply Hsize.
  - intros p [Hm|Hc]; [done|]. cbn [ShadowHistory.before cached] in Hc. destruct (FileHandle.frames (dataFH s) !! p) as [[c d]|] eqn:E; [|done].
    destruct Hdata as ((_ & _ & _ & Hf) & _). destruct (Hf p c d E) as (Hr & _). split; [done|]. apply Hfr. by rewrite E.
  - intros p Hin. by apply not_elem_of_nil in Hin.
  - intros p Hin. unfold base_of in Hin. rewrite map_fst_contents. rewrite !elem_of_app in *. tauto.
  - done.
  - done.
  - done.
Qed.

(** ** Ranges that are given up *)

Lemma set_pageManager_id (s : db) : set_pageManager s (pageManager s) = s.
Proof. by destruct s as [[[] ?] ? ? ? ? ? ?]. Qed.

Lemma release_run {A} (a : A) base disk0 r X sys g (s : db) : inv base disk0 (X ++ sys) g s -> map fst X = rpages r -> usable r ->
  exists s', on_pm (fun pm => mret (if PageRange.startPageIdx r =? INVALID_PAGE_IDX then pm else PageManager.freePageRange pm r, a)) s = (Ret a, s') /\
    same_db s s' /\ inv base disk0 sys g s'.
Proof.
  intros Hi HX Hok. unfold rpages, usable, valid in *. destruct (_ =? INVALID_PAGE_IDX); cbn [negb] in *.
  - destruct X; [|done]. exists s. split; [|done]. unfold on_pm. cbn [mret outcome_ret]. by rewrite set_pageManager_id.
  - assert (inv base disk0 sys (mk_ghost (ov g) (pages r ++ tp g) (added g)) s) as Hi1.
    { apply (inv_moved _ _ (X ++ sys)); [done| |].
      - rewrite map_app, HX. solve_Permutation.
      - intros p c Hin. apply (i_sys _ _ _ _ _ Hi). apply elem_of_app. by right. }
    destruct (free_step _ _ _ _ s r (tp g) Hi1 (proj1 (Hok eq_refl)) (Permutation_refl _)) as (s' & Hrun & Hsame & _ & Hi'). exists s'.
    split; [|split; [done|by destruct g]]. unfold on_pm in *. cbn [mret outcome_ret] in *. by injection Hrun as ->.
Qed.

(** ** The catalog and the metadata *)

Local Ltac solve_pages := cbn [CheckpointerRun.tp]; repeat first [rewrite map_app | progress cbn [map fst]]; solve_Permutation.

Context (catalogChunks : Cat -> list bytes) (tablesChunks : Cat -> St -> list bytes).
Abbreviation catalog_bytes c := (concat (catalogChunks c)).
Abbreviation tables_bytes c t := (concat (tablesChunks c t)).

Lemma catalog_part base disk0 h C Mt p0 g (s : db) b : inv base disk0 ((0, p0) :: C ++ Mt) g s ->
  b = (PageRange.startPageIdx (DatabaseHeader.catalogPageRange h) =? INVALID_PAGE_IDX) || negb (catalogVersion s =? 0) ->
  map fst C = rpages (DatabaseHeader.catalogPageRange h) -> usable (DatabaseHeader.catalogPageRange h) ->
  catalog_bytes (catalog s) <> [] -> count (ov g) + pagesOf (catalog_bytes (catalog s)) < LIMIT ->
  (b = false -> written_to C (DatabaseHeader.catalogPageRange h) (catalog_bytes (catalog s))) ->
  exists r s' g' C',
    (if b then
       pageRange ← Checkpointer.serializeCatalog fresh junk catalogChunks;
       on_pm (fun pm => let '(h', pm') := DatabaseHeader.updateCatalogPageRange h pm pageRange in mret (pm', h'))
     else mret h) s = (Ret (DatabaseHeader.mk r (DatabaseHeader.metadataPageRange h)), s') /\
    same_db s s' /\ inv base disk0 ((0, p0) :: C' ++ Mt) g' s' /\ written_to C' r (catalog_bytes (catalog s)) /\ tp g' = tp g /\
    count (ov g) <= count (ov g') <= count (ov g) + pagesOf (catalog_bytes (catalog s)) /\ (b = false -> r = DatabaseHeader.catalogPageRange h).
Proof.
  intros Hi Hb HC Hok Hne Hl Hkept. pose proof (pagesOf_nonneg (catalog_bytes (catalog s))). destruct b.
  - destruct (serializeCatalog_run fresh fresh_size junk base disk0 catalogChunks _ g s _ Hi eq_refl Hne Hl)
      as (r & s1 & v & new & Hrun & Hsame & _ & Hc & Hw & Hi1).
    assert (inv base disk0 (C ++ (0, p0) :: new ++ Mt) (mk_ghost v (tp g) (pages r ++ added g)) s1) as Hi2.
    { apply (inv_moved _ _ _ _ _ _ (tp g) Hi1).
      - solve_pages.
      - intros p c Hin. apply (i_sys _ _ _ _ _ Hi1). rewrite !elem_of_app, !elem_of_cons, !elem_of_app in *. tauto. }
    destruct (release_run (DatabaseHeader.mk r (DatabaseHeader.metadataPageRange h)) base disk0 _ C _ _ s1 Hi2 HC Hok) as (s2 & Hrun2 & Hsame2 & Hi3).
    exists r, s2, (mk_ghost v (tp g) (pages r ++ added g)), new. split; [|split; [by eapply same_db_trans|split_and!; try done; cbn [ov]; try lia]].
    erewrite bind_run by exact Hrun. rewrite <-Hrun2. unfold on_pm. cbn [DatabaseHeader.updateCatalogPageRange].
    by destruct (_ =? INVALID_PAGE_IDX).
  - exists (DatabaseHeader.catalogPageRange h), s, g, C. split; [by destruct h|]. do 2 (split; [done|]). split; [by apply Hkept|]. split_and!; try done; lia.
Qed.

Lemma meta_part base disk0 h C Mt p0 g (s : db) b pb : inv base disk0 ((0, p0) :: C ++ Mt) g s ->
  (PageRange.startPageIdx (DatabaseHeader.metadataPageRange h) =? INVALID_PAGE_IDX = true -> b = true) ->
  map fst C = rpages (DatabaseHeader.catalogPageRange h) -> valid (DatabaseHeader.catalogPageRange h) = true ->
  map fst Mt = rpages (DatabaseHeader.metadataPageRange h) -> usable (DatabaseHeader.metadataPageRange h) ->
  3 * count (ov g) + pagesOf (tables_bytes (catalog s) (tables s)) + 5 < LIMIT ->
  (b = false -> written_to Mt (DatabaseHeader.metadataPageRange h) (tables_bytes (catalog s) (tables s) ++ pb) /\ pb <> [] /\ reopens pb (sys_pages h ++ tp g)) ->
  exists r s' g' Mt' pb',
    (if b then
       on_pm (fun pm => mret (DatabaseHeader.freeMetadataPageRange h pm, tt));;
       pageRange ← Checkpointer.serializeMetadata fresh junk tablesChunks;
       mret (DatabaseHeader.mk (DatabaseHeader.catalogPageRange h) pageRange)
     else mret h) s = (Ret (DatabaseHeader.mk (DatabaseHeader.catalogPageRange h) r), s') /\
    same_db s s' /\ inv base disk0 ((0, p0) :: C ++ Mt') g' s' /\ written_to Mt' r (tables_bytes (catalog s) (tables s) ++ pb') /\ tp g' = tp g /\
    pb' <> [] /\ reopens pb' (sys_pages (DatabaseHeader.mk (DatabaseHeader.catalogPageRange h) r) ++ tp g').
Proof.
  intros Hi Hb HC Hvc HM Hok Hl Hkept. destruct b.
  - assert (inv base disk0 (Mt ++ (0, p0) :: C) g s) as Hi1.
    { destruct g. apply (inv_moved _ _ _ _ _ _ _ Hi).
      - solve_pages.
      - intros p c Hin. apply (i_sys _ _ _ _ _ Hi). rewrite !elem_of_app, !elem_of_cons, !elem_of_app in *. tauto. }
    destruct (release_run tt base disk0 _ Mt _ _ s Hi1 HM Hok) as (s1 & Hrun1 & Hsame1 & Hi2).
    pose proof Hsame1 as (_ & Hcat & _ & Htab). rewrite <-Hcat, <-Htab in *.
    destruct (serializeMetadata_run fresh fresh_size junk base disk0 tablesChunks _ g s1 _ Hi2 eq_refl Hl)
      as (r & s2 & v & new & pb' & f & Hrun2 & Hsame2 & _ & _ & Hw & Hi3 & Hreads & Hne & Hwf & Hfree & Hun).
    assert (inv base disk0 ((0, p0) :: C ++ new) (mk_ghost v (tp g) (pages r ++ added g)) s2) as Hi4.
    { apply (inv_moved _ _ _ _ _ _ (tp g) Hi3).
      - solve_pages.
      - intros p c Hin. apply (i_sys _ _ _ _ _ Hi3). rewrite !elem_of_app, !elem_of_cons, !elem_of_app in *. tauto. }
    exists r, s2, (mk_ghost v (tp g) (pages r ++ added g)), new, pb'. split; [|split; [by eapply same_db_trans|do 4 (split; [done|])]].
    + unfold DatabaseHeader.freeMetadataPageRange in *. erewrite bind_run by exact Hrun1. by erewrite bind_run by exact Hrun2.
    + exists f, (FreeSpaceManager.FileHandle.numPages (PageManager.fileHandle (pageManager s2))). split; [done|]. split; [done|].
      destruct (i_pages _ _ _ _ _ Hi4) as [_ _ Hsz Hp]. split; cbn [PageManager.freeSpaceManager PageManager.fileHandle FreeSpaceManager.FileHandle.numPages];
        [done|by rewrite Hun|done|]. unfold written at 1. rewrite Hun, app_nil_r, Hfree.
      unfold sys_pages. cbn [DatabaseHeader.catalogPageRange DatabaseHeader.metadataPageRange CheckpointerRun.tp]. rewrite <-HC.
      assert (rpages r = map fst new) as ->.
      { pose proof Hw as (_ & -> & _). unfold rpages. by rewrite (written_valid _ _ _ Hw). }
      cbn [map fst] in Hp. rewrite map_app in Hp. exact Hp.
  - exists (DatabaseHeader.metadataPageRange h), s, g, Mt, pb. destruct (Hkept eq_refl) as (? & ? & ?). split_and!; try done; by destruct h.
Qed.

(** ** Until the shadow file is flushed *)

Context (checkpointTables : Cat -> St -> action (bool * Cat * St)) (writable : Cat -> St -> Prop).

(** What the checkpoint of the tables promises: the calls of [wp], from the pages they
    have; they can be written; and when neither they nor the catalog have changed, the
    catalog and the tables are as the last checkpoint wrote them. The pages of the file and the bytes
    are within the limit. *)
Definition tables_ok (h : DatabaseHeader.t) (cb tb : bytes) (tp : list Z) (s : db) : Prop :=
  wp fresh (checkpointTables (catalog s) (tables s)) (ghost_of tp s) (fun '(hasChanges, c, t) g =>
    writable c t /\ catalog_bytes c <> [] /\ 3 * (count (ov g) + pagesOf (catalog_bytes c)) + pagesOf (tables_bytes c t) + 5 < LIMIT /\
    (catalogVersion s = 0 -> valid (DatabaseHeader.catalogPageRange h) = true -> catalog_bytes c = cb) /\
    (hasChanges = false -> catalogVersion s = 0 -> valid (DatabaseHeader.metadataPageRange h) = true -> tables_bytes c t = tb /\ CheckpointerRun.tp g = tp)).

(** The header page, the pages of the catalog and those of the metadata. *)
Record prepared base disk0 (h : DatabaseHeader.t) (g : ghost) (hp : bytes) (C Mt : list (Z * bytes)) (pb : bytes) (s : db) : Prop := {
  p_inv : inv base disk0 ((0, hp) :: C ++ Mt) g s;
  p_mine : mine (ov g) 0 = true;
  p_header : header_ok h /\ exists pad, hp = header_bytes version h ++ pad;
  p_catalog : written_to C (DatabaseHeader.catalogPageRange h) (catalog_bytes (catalog s));
  p_meta : written_to Mt (DatabaseHeader.metadataPageRange h) (tables_bytes (catalog s) (tables s) ++ pb);
  p_bytes : catalog_bytes (catalog s) <> [] /\ pb <> [];
  p_reopens : reopens pb (sys_pages h ++ tp g);
}.

Lemma set_contents_inv base disk0 sys g (s : db) c t : inv base disk0 sys g s -> inv base disk0 sys g (set_contents s c t).
Proof. intros [H1 H2 H3 H4 H5 H6 H7 H8 H9]. by split. Qed.

Lemma written_ok new r data : written_to new r data -> CheckpointerRun.range_ok r.
Proof. intros ((Hn & Hs & He) & _). split; lia. Qed.

Lemma header_part base disk0 h p0 C Mt g (s : db) pb :
  inv base disk0 ((0, p0) :: C ++ Mt) g s -> written_to C (DatabaseHeader.catalogPageRange h) (catalog_bytes (catalog s)) ->
  written_to Mt (DatabaseHeader.metadataPageRange h) (tables_bytes (catalog s) (tables s) ++ pb) -> catalog_bytes (catalog s) <> [] -> pb <> [] ->
  reopens pb (sys_pages h ++ tp g) ->
  exists s' g' hp, Checkpointer.writeDatabaseHeader fresh junk version h s = (Ret tt, s') /\ same_db s s' /\ prepared base disk0 h g' hp C Mt pb s'.
Proof.
  intros Hi HC HM Hne1 Hne2 Hre. destruct (headerPage_run junk version h) as (pad & Hpage & Hsz).
  assert (inv base disk0 (C ++ Mt) (mk_ghost (ov g) (0 :: tp g) (added g)) s) as Hi1.
  { apply (inv_moved _ _ _ _ _ _ (0 :: tp g) Hi); [apply Permutation_middle|]. intros p c Hin. apply (i_sys _ _ _ _ _ Hi). by right. }
  assert (Checkpointer.writeDatabaseHeader fresh junk version h s = Checkpointer.overwritePage fresh 0 (header_bytes version h ++ pad) s) as Hwrite.
  { unfold Checkpointer.writeDatabaseHeader. by erewrite bind_run by (unfold lift; by rewrite Hpage). }
  destruct (overwritePage_run fresh fresh_size base disk0 _ _ s 0 _ (tp g) Hi1 (Permutation_refl _) Hsz) as (fs & v & Hrun & Hc & Hm & Hi2).
  exists (set_files s fs), (mk_ghost v (tp g) (added g)), (header_bytes version h ++ pad). split; [by rewrite Hwrite|]. clear Hrun Hwrite Hsz Hpage. split; [by repeat split|].
  split; [exact Hi2|exact Hm| |exact HC|exact HM|by split|exact Hre]. split; [|by eexists]. by split; eapply written_ok.
Qed.

Lemma stored_written F r bs : valid r = true -> usable r -> CheckpointerRun.stored F r bs -> written_to (contents F (rpages r)) r bs.
Proof.
  intros Hv Hok [pad Hs]. split; [by apply Hok|]. split; [rewrite map_fst_contents; unfold rpages; by rewrite Hv|]. exists pad.
  unfold rpages. rewrite Hv, <-Hs. unfold contents, range_bytes. by rewrite map_map.
Qed.

Lemma parts_run h cb tb pb tp0 base disk0 F g (s : db) hasChanges :
  image version F h cb (tb ++ pb) -> usable (DatabaseHeader.catalogPageRange h) -> usable (DatabaseHeader.metadataPageRange h) ->
  (valid (DatabaseHeader.metadataPageRange h) = true -> pb <> [] /\ reopens pb (sys_pages h ++ tp0)) ->
  inv base disk0 (contents F (sys_pages h)) g s -> catalog_bytes (catalog s) <> [] ->
  3 * (count (ov g) + pagesOf (catalog_bytes (catalog s))) + pagesOf (tables_bytes (catalog s) (tables s)) + 5 < LIMIT ->
  (catalogVersion s = 0 -> valid (DatabaseHeader.catalogPageRange h) = true -> catalog_bytes (catalog s) = cb) ->
  (hasChanges = false -> catalogVersion s = 0 -> valid (DatabaseHeader.metadataPageRange h) = true -> tables_bytes (catalog s) (tables s) = tb /\ tp g = tp0) ->
  exists h' s' g' C Mt pb', Checkpointer.serializeCatalogAndMetadata fresh junk catalogChunks tablesChunks h hasChanges s = (Ret h', s') /\ same_db s s' /\
    inv base disk0 ((0, page_at F 0) :: C ++ Mt) g' s' /\ written_to C (DatabaseHeader.catalogPageRange h') (catalog_bytes (catalog s)) /\
    written_to Mt (DatabaseHeader.metadataPageRange h') (tables_bytes (catalog s) (tables s) ++ pb') /\ pb' <> [] /\ reopens pb' (sys_pages h' ++ tp g').
Proof.
  intros (_ & _ & Himg) Hoc Hom Hre Hi Hne Hl Hcat Htab. pose proof (pagesOf_nonneg (catalog_bytes (catalog s))). pose proof (pagesOf_nonneg (tables_bytes (catalog s) (tables s))).
  pose proof (fi_size _ _ (i_pages _ _ _ _ _ Hi)) as [Hc0 _]. pose proof (i_count _ _ _ _ _ Hi) as Hcc. cbn in Hc0. unfold LIMIT in *.
  set (C0 := contents F (rpages (DatabaseHeader.catalogPageRange h))). set (M0 := contents F (rpages (DatabaseHeader.metadataPageRange h))).
  assert (contents F (sys_pages h) = (0, page_at F 0) :: C0 ++ M0) as Hsys by (unfold C0, M0; by rewrite <-contents_app). rewrite Hsys in Hi.
  destruct (catalog_part base disk0 h C0 M0 (page_at F 0) g s _ Hi eq_refl (map_fst_contents _ _) Hoc Hne ltac:(unfold LIMIT; lia))
    as (r & s1 & g1 & C & Hrun1 & Hsame1 & Hi1 & HC & Htp1 & Hc1 & Hr).
  { intros [Hv Hz]%orb_false_iff. rewrite (Hcat ltac:(lia)) by (unfold valid; by rewrite Hv). unfold valid in Himg. rewrite Hv in Himg. cbn in Himg.
    apply stored_written; [unfold valid; by rewrite Hv|done|apply Himg]. }
  pose proof Hsame1 as (_ & Ec & Ev & Et). rewrite <-Ec, <-Et in *.
  set (b := (PageRange.startPageIdx (DatabaseHeader.metadataPageRange h) =? INVALID_PAGE_IDX) || hasChanges || negb (catalogVersion s1 =? 0) ||
     PageManager.changedSinceLastCheckpoint (pageManager s1)).
  destruct (meta_part base disk0 (DatabaseHeader.mk r (DatabaseHeader.metadataPageRange h)) C M0 (page_at F 0) g1 s1 b pb Hi1)
    as (rm & s2 & g2 & Mt & pb' & Hrun2 & Hsame2 & Hi2 & HM & Htp2 & Hne2 & Hre2).
  - intros Hv. cbn in Hv. unfold b. by rewrite Hv.
  - cbn. pose proof HC as (_ & -> & _). unfold rpages. by rewrite (written_valid _ _ _ HC).
  - cbn. by eapply written_valid.
  - apply map_fst_contents.
  - done.
  - unfold LIMIT. lia.
  - unfold b. intros [[[Hv Hch]%orb_false_iff Hz]%orb_false_iff _]%orb_false_iff. rewrite Ev in Hz. cbn [DatabaseHeader.metadataPageRange].
    assert (valid (DatabaseHeader.metadataPageRange h) = true) as Hvm by (unfold valid; by rewrite Hv). destruct (Htab Hch ltac:(lia) Hvm) as [-> Htp0].
    destruct (valid (DatabaseHeader.catalogPageRange h)) eqn:Hvc; [|by rewrite Himg in Hvm]. destruct Himg as (_ & _ & Hst & _).
    destruct (Hre Hvm) as [Hpb Hre0]. split; [by apply stored_written|]. split; [done|]. rewrite Htp1, Htp0, Hr.
    + by destruct h.
    + unfold valid in Hvc. apply negb_true_iff in Hvc. by rewrite Hvc, Hz.
  - exists (DatabaseHeader.mk r rm), s2, g2, C, Mt, pb'. split; [|split; [by eapply same_db_trans|by split_and!]].
    unfold Checkpointer.serializeCatalogAndMetadata. erewrite bind_run by done. erewrite bind_run by exact Hrun1. erewrite bind_run by done.
    cbn [DatabaseHeader.metadataPageRange DatabaseHeader.catalogPageRange]. exact Hrun2.
Qed.

(** The checkpoint fails exactly when that of the tables does. *)
Lemma prepare_run h cb tb pb tp s : at_rest h cb tb pb tp s -> tables_ok h cb tb tp s ->
  match Checkpointer.run fresh (checkpointTables (catalog s) (tables s)) s with
  | (Ret (_, c, t), _) => exists s', Checkpointer.prepareCheckpoint fresh junk version catalogChunks tablesChunks checkpointTables s = (Ret tt, s') /\
      wal s' = wal s /\ catalog s' = c /\ tables s' = t /\ writable c t /\ exists h' g hp C Mt pb', prepared (base_of h tp s) (data_bytes s) h' g hp C Mt pb' s'
  | (Throw e, _) => exists s', Checkpointer.prepareCheckpoint fresh junk version catalogChunks tablesChunks checkpointTables s = (Throw e, s') /\
      wal s' = wal s /\ exists sys g, inv (base_of h tp s) (data_bytes s) sys g s'
  | (Undef, _) => False
  end.
Proof.
  intros Hrest Htabs. pose proof (start_inv _ _ _ _ _ _ Hrest) as Hi. destruct Hrest as [_ _ _ Himg Hsize [Hoc Hom] _ _ Hre].
  assert (Checkpointer.getCurrentDatabaseHeader version (FileHandle.fileInfo (dataFH s)) = Ret h) as Hheader.
  { destruct (FileHandle.fileInfo (dataFH s)) as [F n] eqn:EF. cbn [content] in *. eapply current_header; [done|]. apply (Hsize 0). by left. }
  pose proof (run_wp fresh fresh_size _ _ _ _ _ s _ Hi Htabs) as Hrun0. unfold ends in Hrun0.
  destruct (Checkpointer.run fresh (checkpointTables (catalog s) (tables s)) s) as [[[[hasChanges c] t]|e|] s1] eqn:Hrun; [| |done].
  - destruct Hrun0 as (g1 & (Hwt & Hne & Hl & Hcat & Htab) & Hi1 & Hw & _ & Hv & _).
    destruct (parts_run h cb tb pb tp (base_of h tp s) (data_bytes s) (data_bytes s) g1 (set_contents s1 c t) hasChanges Himg Hoc Hom Hre (set_contents_inv _ _ _ _ _ c t Hi1) Hne Hl)
      as (h' & s2 & g2 & C & Mt & pb' & Hrun2 & (Hw2 & Hc2 & _ & Ht2) & Hi2 & HC & HM & Hpb & Hre2); [cbn; by rewrite Hv..|].
    cbn [catalog tables set_contents wal] in *.
    destruct (header_part _ _ h' _ C Mt g2 s2 pb' Hi2) as (s3 & g3 & hp & Hrun3 & (Hw3 & Hc3 & _ & Ht3) & Hp); [by rewrite Hc2|by rewrite Hc2, Ht2|by rewrite Hc2|done|done|].
    exists s3. split; [|split; [by rewrite Hw3, Hw2|split; [by rewrite Hc3|split; [by rewrite Ht3|split; [done|by eexists h', g3, hp, C, Mt, pb']]]]].
    unfold Checkpointer.prepareCheckpoint. erewrite bind_run by done. erewrite bind_run by (unfold lift; by rewrite Hheader).
    erewrite bind_run by (unfold Checkpointer.checkpointStorage; erewrite bind_run by done; by erewrite bind_run by exact Hrun).
    by erewrite bind_run by exact Hrun2.
  - destruct Hrun0 as (g & Hg & Hw & _). exists s1. split; [|split; [done|by eexists _, g]].
    unfold Checkpointer.prepareCheckpoint. erewrite bind_run by done. erewrite bind_run by (unfold lift; by rewrite Hheader).
    erewrite bind_throw; [done|]. unfold Checkpointer.checkpointStorage. erewrite bind_run by done. by erewrite bind_throw by exact Hrun.
Qed.
End state.
