(* ===== verification/CheckpointerRecovery.v ===== *)
(** What comes after: the shadow file is flushed, logged and applied, the page manager
    merges its free pages, and the database is between checkpoints again; then a database
    that is opened. *)
From stdpp Require Import gmap.
From S2P Require Import Prelude Effects Serializer FreeSpaceManager FreeSpaceFacts InMemFileWriter FreeSpaceSpec Decoder BufferedFile BufferedFileFacts.
From S2P Require Import WALRecord WAL WALFacts WALReplayer WALReplayerFacts ShadowFile ShadowFacts ShadowHistory Checkpointer CheckpointerRun.
From S2P Require Import CheckpointerState.
Import FreeFacts ShadowFile HandleFacts.
Local Open Scope Z_scope.

(** ** The data file once the shadow pages are applied *)

Section applied.
Context {Cat St : Type}.
Abbreviation db := (db Cat St).
Context (base : list Z) (disk0 : bytes).

Abbreviation image_of g s := (write_pages (own_writes (files s)) (disk (ov g))).

Lemma applied_page sys g (s : db) p c : inv base disk0 sys g s -> (p, c) ∈ sys ->
  page_at (image_of g s) p = c /\ (p + 1) * PAGE <= size (image_of g s).
Proof.
  intros Hi Hin. pose proof (i_holds _ _ _ _ _ Hi) as Hh. destruct (i_sys _ _ _ _ _ Hi p c Hin) as [Ha Hp].
  destruct (held_page _ _ _ _ _ p Hi) as [[Hp0 _] _]; [apply elem_of_app; left; apply list_elem_of_In, (in_map fst sys (p, c)); by apply list_elem_of_In|].
  unfold at_page, present, mine in *. destruct (own (ov g) p) as [d|] eqn:Eo.
  - cbn in Ha. subst d. split; [by eapply own_page|by eapply own_size].
  - destruct Hp as [|Hp]; [done|]. cbn in Ha. rewrite (other_page _ _ p Hh Hp0 Eo Hp). split; [done|].
    pose proof (write_pages_grows (own_writes (files s)) (disk (ov g)) (own_writes_ok _ _ Hh)). lia.
Qed.

End applied.

Lemma removeFrames_lookup fh removed p x : removeFrames fh removed !! p = Some x ->
  FileHandle.frames fh !! p = Some x /\ (p < FileHandle.numPages fh -> p ∉ removed).
Proof.
  unfold removeFrames. induction removed as [|q removed IH]; cbn [foldr]; [intros H; split; [done|intros _; apply not_elem_of_nil]|].
  destruct (Z.ltb_spec q (FileHandle.numPages fh)) as [Hq|Hq].
  - intros [Hne H]%lookup_delete_Some. destruct (IH H) as [H1 H2]. split; [done|]. intros Hp [->|Hin]%elem_of_cons; [done|]. by apply H2.
  - intros H. destruct (IH H) as [H1 H2]. split; [done|]. intros Hp [->|Hin]%elem_of_cons; [lia|]. by apply H2.
Qed.

(** ** The end of a checkpoint *)

Section commit.
Context {Cat St : Type}.
Abbreviation db := (db Cat St).
Context (fresh : bytes) (fresh_size : size fresh = PAGE) (junk : Z) (version : string).
Context (catalogChunks : Cat -> list bytes) (tablesChunks : Cat -> St -> list bytes).
Context (base : list Z) (disk0 : bytes).
Abbreviation unfreed s := (FreeSpaceManager.uncheckpointedFreePageRanges (fsm s)).
Abbreviation image_of g s := (write_pages (own_writes (files s)) (disk (ov g))).
Abbreviation prepared := (@prepared Cat St version catalogChunks tablesChunks base disk0).
Abbreviation catalog_bytes c := (concat (catalogChunks c)).
Abbreviation tables_bytes c t := (concat (tablesChunks c t)).

Lemma prepared_pages h g hp C Mt pb s : prepared h g hp C Mt pb s -> map fst ((0, hp) :: C ++ Mt) = sys_pages h.
Proof.
  intros Hp. pose proof (p_catalog _ _ _ _ _ _ _ _ _ _ _ _ Hp) as HC. pose proof (p_meta _ _ _ _ _ _ _ _ _ _ _ _ Hp) as HM.
  unfold sys_pages, rpages. rewrite (written_valid _ _ _ HC), (written_valid _ _ _ HM). destruct HC as (_ & <- & _), HM as (_ & <- & _). cbn. by rewrite map_app.
Qed.

(** Any file that has the pages of the header, the catalog and the metadata. *)
Lemma prepared_image F h g hp C Mt pb s : prepared h g hp C Mt pb s -> (forall p c, (p, c) ∈ (0, hp) :: C ++ Mt -> page_at F p = c) ->
  image version F h (catalog_bytes (catalog s)) (tables_bytes (catalog s) (tables s) ++ pb).
Proof.
  intros [Hi _ [Hok [pad Hhp]] HC HM [Hne1 Hne2] _] HF.
  assert (forall new r data, (forall e, e ∈ new -> e ∈ (0, hp) :: C ++ Mt) -> written_to new r data -> CheckpointerRun.stored F r data) as Hst.
  { intros new r data Hin (_ & Hf & pad' & Hc). exists pad'. rewrite <-Hc. unfold range_bytes. rewrite <-Hf. f_equal. rewrite map_map. apply map_ext_in.
    intros [p c] He. apply list_elem_of_In in He. by apply HF, Hin. }
  split; [done|]. split; [exists pad; rewrite <-Hhp; apply HF; by left|]. rewrite (written_valid _ _ _ HC). split; [by eapply written_valid|].
  split; [|split; [|split; [done|]]].
  - apply (Hst C); [|done]. intros e He. right. apply elem_of_app. by left.
  - apply (Hst Mt); [|done]. intros e He. right. apply elem_of_app. by right.
  - intros Hn. by apply app_eq_nil in Hn as [_ ->].
Qed.

(** *** The data file *)

(** Its frames have what is on disk, and there are none of the pages that were freed. *)
Lemma finalized_data sys g (s : db) data pm : inv base disk0 sys g s ->
  content (FileHandle.fileInfo data) = image_of g s -> synced (FileHandle.fileInfo data) = size (content (FileHandle.fileInfo data)) ->
  FileHandle.fileIndex data = FileHandle.fileIndex (dataFH s) -> FileHandle.numPages data = FileHandle.numPages (dataFH s) ->
  (forall p, FileHandle.frames data !! p = (fun fr => (default fr.1 (own (ov g) p), fr.2)) <$> FileHandle.frames (dataFH s) !! p) ->
  file_inv pm (map fst sys ++ tp g) ->
  FreeSpaceManager.FileHandle.removedFrames (PageManager.fileHandle pm) = rev (all_pages (unfreed s)) ++ [] ->
  FreeSpaceManager.FileHandle.numPages (PageManager.fileHandle pm) <= FileHandle.numPages (dataFH s) ->
  let fh := FileHandle.mk (FileHandle.fileIndex data) (FreeSpaceManager.FileHandle.numPages (PageManager.fileHandle pm))
              (removeFrames data (FreeSpaceManager.FileHandle.removedFrames (PageManager.fileHandle pm))) (FileHandle.fileInfo data) in
  data_ok fh /\ forall p, is_Some (FileHandle.frames fh !! p) -> p ∉ all_pages (free (PageManager.freeSpaceManager pm)).
Proof.
  intros Hi Hc Hsy Hidx Hn Hfr Hf Hrem Hle fh. pose proof (i_holds _ _ _ _ _ Hi) as Hh. pose proof Hh as ((Hdata & Hd & _) & Hcl & Hdisk & Hnum & Hca & _).
  change (ShadowUtils.dataFH (files s)) with (dataFH s) in *. pose proof (fi_size _ _ Hf) as Hsz. pose proof (i_count _ _ _ _ _ Hi) as Hcount.
  assert (forall p c d, FileHandle.frames fh !! p = Some (c, d) -> p ∈ map fst sys ++ tp g /\
    exists c0, FileHandle.frames (dataFH s) !! p = Some (c0, d) /\ c = default c0 (own (ov g) p)) as Hframe.
  { intros p c d Hp. cbn [fh FileHandle.frames] in Hp. apply removeFrames_lookup in Hp as [Hp Hnot]. rewrite Hfr in Hp.
    apply fmap_Some in Hp as ([c0 d0] & Hp & [= -> ->]). split; [|by exists c0].
    destruct (i_mine _ _ _ _ _ Hi p) as [Hr Hnf]; [right; apply Hca; by eexists|].
    destruct (not_free (pageManager s) _ p (i_pages _ _ _ _ _ Hi)) as [Hun|Hin]; [cbn; lia|done| |done].
    exfalso. apply Hnot; [lia|]. rewrite Hrem, app_nil_r. apply list_elem_of_In. rewrite <-in_rev. by apply list_elem_of_In. }
  split.
  - split; [|split; [|cbn [fh FileHandle.fileIndex]; rewrite Hidx; exact Hd]].
    + split; [cbn; lia|]. split; [done|]. split; [cbn [fh FileHandle.fileInfo]; rewrite Hsy; pose proof (size_nonneg (content (FileHandle.fileInfo data))); lia|].
      intros p c d Hp. destruct (Hframe p c d Hp) as (Hin & c0 & H0 & ->). pose proof (held_in_file _ _ p Hf Hin) as Hr.
      destruct Hdata as (_ & _ & _ & Hfok). destruct (Hfok p c0 d H0) as (_ & Hc0 & Hclean). destruct (Hclean (Hcl p c0 d H0)) as [Hinf Hat].
      destruct (own (ov g) p) as [o|] eqn:Eo; cbn [default from_option id].
      * destruct (own_size _ _ p o Hh (proj1 Hr) Eo) as [Hos Hoin]. split; [cbn; lia|]. split; [done|]. intros _.
        split; [unfold in_file; cbn [fh FileHandle.fileInfo]; by rewrite Hc|]. unfold page. rewrite Hp. cbn [fh FileHandle.fileInfo]. rewrite Hc. exact (own_page _ _ p o Hh (proj1 Hr) Eo).
      * split; [cbn; lia|]. split; [done|]. intros _. unfold in_file in Hinf. rewrite Hdisk in Hinf, Hat.
        split; [|unfold page in *; rewrite Hp; rewrite H0 in Hat; cbn [fh FileHandle.fileInfo]; rewrite Hc, <-Hat; exact (other_page _ _ p Hh (proj1 Hr) Eo Hinf)].
        unfold in_file. cbn [fh FileHandle.fileInfo]. rewrite Hc. pose proof (write_pages_grows (own_writes (files s)) (disk (ov g)) (own_writes_ok _ _ Hh)). lia.
    + intros p c d Hp. destruct (Hframe p c d Hp) as (_ & c0 & H0 & _). by apply (Hcl p c0 d).
  - intros p [[c d] Hp] Hfree. destruct (Hframe p c d Hp) as [Hin _]. by apply (free_apart _ _ p Hf) in Hfree as [_ ?].
Qed.

(** *** The steps *)

Definition commitCheckpoint : M db unit :=
  Checkpointer.logCheckpointAndApplyShadowPages;;
  Checkpointer.finalizeCheckpoint;;
  modify (fun s => set_versions s 0);;
  on_wal WAL.reset;;
  on_shadow reset.

(** The shadow file is on disk before the record is, the record before anything of the
    shadow file is applied; and the database is between checkpoints afterwards. *)
Lemma commitCheckpoint_run h g hp C Mt pb (s : db) log : prepared h g hp C Mt pb s -> on_disk (wal s) -> logged (wal s) log ->
  exists fh w s', flushAll (shadow s) = Ret (set_handle (shadow s) fh) /\
    synced (FileHandle.fileInfo fh) = size (content (FileHandle.fileInfo fh)) /\
    (forall D, exists D', replayShadowPageRecords false (FileHandle.fileInfo fh) D = Ret D' /\ content D' = write_pages (own_writes (files s)) (content D)) /\
    WAL.logAndFlushCheckpoint (wal s) = Ret w /\ logged w (log ++ [254]) /\
    commitCheckpoint s = (Ret tt, s') /\ content (FileHandle.fileInfo (dataFH s')) = image_of g s /\
    at_rest version h (catalog_bytes (catalog s)) (tables_bytes (catalog s) (tables s)) pb (tp g) s' /\
    catalog s' = catalog s /\ tables s' = tables s /\ catalogVersion s' = 0 /\ pmVersion s' = 0 /\ unfreed s' = [] /\
    WAL.file (wal s') = None /\ on_disk (wal s') /\ logged (wal s') [].
Proof.
  intros Hp Hd Hl. pose proof (prepared_pages _ _ _ _ _ _ _ Hp) as Hsys. pose proof (prepared_image (image_of g s) _ _ _ _ _ _ _ Hp) as Himg.
  pose proof Hp as [Hi Hmine _ HC HM [_ Hpb] Hre]. pose proof (i_holds _ _ _ _ _ Hi) as Hh.
  destruct (flushed_run _ _ _ Hh Hmine) as (fh & Hflush & Hsync & (data & Happly & Hcont & Hsync' & Hidx & Hn & Hfr) & Hreplay).
  destruct (logAndFlushCheckpoint_run (wal s) log Hd Hl) as (w & b & Hlog & [Hm Ho] & Hwr & Hl').
  exists fh, w. destruct (finalize_file_spec (pageManager s) _ (i_pages _ _ _ _ _ Hi)) as (pm & Hfin & Hf & Hun & Hrem & Hle & _).
  change (ShadowUtils.dataFH (files s)) with (dataFH s) in *. change (FreeSpaceManager.FileHandle.numPages (PageManager.fileHandle (pageManager s))) with (FileHandle.numPages (dataFH s)) in Hle.
  set (fh' := FileHandle.mk (FileHandle.fileIndex data) (FreeSpaceManager.FileHandle.numPages (PageManager.fileHandle pm))
              (removeFrames data (FreeSpaceManager.FileHandle.removedFrames (PageManager.fileHandle pm))) (FileHandle.fileInfo data)).
  destruct (finalized_data _ g s data pm Hi Hcont Hsync' Hidx Hn Hfr Hf Hrem Hle) as [Hdok Hframes]. fold fh' in Hdok, Hframes.
  exists (mk_db (ShadowUtils.mk_files fh' (ShadowFile.make None)) (PageManager.freeSpaceManager pm) 0 (WAL.mk (WAL.inMemory w) (WAL.readOnly w) None None) (catalog s) 0 (tables s)).
  split; [exact Hflush|]. split; [exact Hsync|]. split; [exact Hreplay|]. split; [exact Hlog|]. split; [exact Hl'|]. split; [|split; [exact Hcont|split; [|by split_and!]]].
  - unfold commitCheckpoint. erewrite bind_run.
    2: { unfold Checkpointer.logCheckpointAndApplyShadowPages. erewrite bind_run by (unfold on_shadow, shadow; by rewrite Hflush).
         erewrite bind_run by (unfold on_wal; cbn [set_files wal]; by rewrite Hlog). erewrite bind_run by done.
         erewrite bind_run by (unfold on_data, dataFH, shadow; cbn [set_files set_wal files ShadowUtils.dataFH ShadowUtils.shadow]; unfold dataFH in Happly; by rewrite Happly).
         erewrite bind_run by (unfold on_wal, WAL.clear; cbn [set_files set_wal wal]; by rewrite Hwr). done. }
    erewrite bind_run.
    2: { unfold Checkpointer.finalizeCheckpoint, on_pm.
         match goal with |- context [pageManager ?s1] => replace (pageManager s1) with (pageManager s); [by rewrite Hfin|] end.
         unfold pageManager. cbn. by rewrite Hn. }
    done.
  - split.
    + done.
    + exact Hdok.
    + pose proof (i_limit _ _ _ _ _ Hi). pose proof (i_count _ _ _ _ _ Hi). cbn. lia.
    + cbn. rewrite Hcont. apply Himg. intros p c Hin. by apply (applied_page _ _ _ _ _ p c Hi).
    + intros p Hin. rewrite <-Hsys in Hin. apply list_elem_of_In, in_map_iff in Hin as ([q c] & <- & Hin%list_elem_of_In). cbn. rewrite Hcont.
      by apply (applied_page _ _ _ _ _ q c Hi).
    + split; intros _; [apply HC|apply HM].
    + rewrite <-Hsys. destruct Hf as [H1 H2 H3 H4]. by split.
    + exact Hframes.
    + done.
Qed.
End commit.

(** A database that is opened, from what its data file has; and the interface of
    recovery ([WALReplayer.v]) with the checkpoint and the shadow file of this model. *)

(** ** Opening *)

Section opening.
Context {Cat St : Type}.
Abbreviation db := (db Cat St).
Context (junk : Z) (version : string).
(** How the catalog and the tables are written and read. *)
Context (catalogW : wire Cat) (tablesW : Cat -> wire St) (emptyCatalog : Cat) (noTables : St).

Definition open (isReadOnly : bool) (fileIndex : Z) (dataFile : FileInfo) (shadowFile walFile : option FileInfo) : outcome db :=
  Checkpointer.readCheckpoint junk version (decode catalogW) (fun c => decode (tablesW c)) emptyCatalog noTables isReadOnly fileIndex dataFile shadowFile walFile.

(** The database of this file, opened: with the free pages [f]. *)
Definition opened (isReadOnly : bool) (fileIndex : Z) (dataFile : FileInfo) (shadowFile walFile : option FileInfo) (c : Cat) (t : St) (f : FreeSpaceManager.t) : db :=
  mk_db (ShadowUtils.mk_files (FileHandle.make fileIndex dataFile) (ShadowFile.make shadowFile)) f 0 (WAL.make false isReadOnly walFile) c 0 t.

Definition opens_as (D : FileInfo) (c : Cat) (t : St) (f : FreeSpaceManager.t) : Prop :=
  forall isReadOnly fileIndex shadowFile walFile, open isReadOnly fileIndex D shadowFile walFile = Ret (opened isReadOnly fileIndex D shadowFile walFile c t f).

(** What a header points to has the catalog and the tables, which can be read back, and
    the free pages; or it points to nothing yet. *)
Definition saved (h : DatabaseHeader.t) (pb : bytes) (c : Cat) (t : St) (f : FreeSpaceManager.t) : Prop :=
  if valid (DatabaseHeader.catalogPageRange h) then writable catalogW c /\ writable (tablesW c) t /\ reads_fsm pb f
  else c = emptyCatalog /\ t = noTables /\ f = FreeSpaceManager.init.

Lemma image_opens D h pb c t f : image version (content D) h (write catalogW c) (write (tablesW c) t ++ pb) -> PAGE <= size (content D) ->
  saved h pb c t f -> opens_as D c t f.
Proof.
  intros Hi Hs Hsv isReadOnly fileIndex sh wf. unfold open, Checkpointer.readCheckpoint, Checkpointer.initDataFileHandle.
  assert (0 < (size (content D) + PAGE - 1) / PAGE) as Hpos by (apply Z.div_str_pos; unfold PAGE in *; lia).
  unfold FileHandle.make at 1 2. cbn [FileHandle.numPages]. rewrite (proj2 (Z.eqb_neq _ _)) by lia. cbn [andb mbind outcome_bind mret outcome_ret].
  unfold FileHandle.make at 1 2. cbn [FileHandle.numPages FileHandle.fileInfo]. rewrite (proj2 (Z.ltb_lt _ _)) by done. destruct D as [F n].
  erewrite (contents_read version _ _ _ _ F h _ _ pb n c t f); [|exact Hi|].
  - unfold saved in Hsv. destruct (valid _); [done|]. by destruct Hsv as (-> & -> & ->).
  - intros Hv. unfold saved in Hsv. rewrite Hv in Hsv. destruct Hsv as (? & ? & ?). split_and!; [by intros more; apply decode_write..|done].
Qed.

Lemma image_ext F F' h cb mb : image version F h cb mb -> (forall p, p ∈ sys_pages h -> page_at F' p = page_at F p) -> image version F' h cb mb.
Proof.
  intros (Hok & Hh & Hv) Hp. split; [done|]. split; [rewrite Hp; [done|by left]|].
  destruct (valid (DatabaseHeader.catalogPageRange h)) eqn:Hvc; [|done]. destruct Hv as (Hvm & H1 & H2 & Hne). split; [done|].
  unfold sys_pages, rpages in Hp. rewrite Hvc, Hvm in Hp.
  split; [|split; [|done]]; (eapply stored_ext; [|done]; intros p Hin; apply Hp; right; apply elem_of_app; auto).
Qed.
End opening.

(** ** Recovery *)

(** The data file and the shadow file on disk, and the database once it is opened. *)
Record world (Cat St : Type) := mk_world { dataFile : FileInfo; shadowFile : option FileInfo; database : option (db Cat St) }.
Arguments mk_world {Cat St}.
Arguments dataFile {Cat St}.
Arguments shadowFile {Cat St}.
Arguments database {Cat St}.

Section recovery.
Context {Cat St E P V : Type}.
Abbreviation world := (world Cat St).
Context (junk : Z) (version : string) (catalogW : wire Cat) (tablesW : Cat -> wire St) (emptyCatalog : Cat) (noTables : St).
(** Of the database configuration, and the handlers of the records, on an open database. *)
Context (isReadOnly : bool) (handlers : Recovery E P V (db Cat St)).

Definition on_db (m : M (db Cat St) unit) : M world unit := fun w =>
  match database w with
  | Some s => let '(r, s) := m s in (r, mk_world (FileHandle.fileInfo (dataFH s)) (shadowFile w) (Some s))
  | None => (Undef, w)
  end.

Definition disk_recovery : Recovery E P V world := {|
  readCheckpoint w :=
    match open junk version catalogW tablesW emptyCatalog noTables isReadOnly 0 (dataFile w) None None with
    | Ret s => (Ret tt, mk_world (dataFile w) (shadowFile w) (Some s))
    | Throw e => (Throw e, w)
    | Undef => (Undef, w)
    end;
  WALReplayer.replayShadowPageRecords w :=
    match shadowFile w with
    | Some f =>
        match ShadowFile.replayShadowPageRecords isReadOnly f (dataFile w) with
        | Ret D => (Ret tt, mk_world D (shadowFile w) (database w))
        | Throw e => (Throw e, w)
        | Undef => (Undef, w)
        end
    | None => (Throw (RuntimeException "Cannot open file"), w)
    end;
  hasActiveTransaction w := match database w with Some s => hasActiveTransaction s | None => false end;
  beginRecoveryTransaction := on_db beginRecoveryTransaction;
  commitTransaction := on_db commitTransaction;
  rollbackTransaction := on_db rollbackTransaction;
  writeRecoveryCheckpoint := on_db writeRecoveryCheckpoint;
  reconcileAfterRecovery := on_db reconcileAfterRecovery;
  replayCreateCatalogEntryRecord e i := on_db (replayCreateCatalogEntryRecord e i);
  replayDropCatalogEntryRecord i t := on_db (replayDropCatalogEntryRecord i t);
  replayAlterTableEntryRecord a := on_db (replayAlterTableEntryRecord a);
  replayUpdateSequenceRecord i k := on_db (replayUpdateSequenceRecord i k);
  replayNodeTableInsertRecord i n vs := on_db (replayNodeTableInsertRecord i n vs);
  replayRelTableInsertRecord i n vs := on_db (replayRelTableInsertRecord i n vs);
  replayNodeDeletionRecord i n v := on_db (replayNodeDeletionRecord i n v);
  replayNodeUpdateRecord i c n v := on_db (replayNodeUpdateRecord i c n v);
  replayRelDeletionRecord i a b c := on_db (replayRelDeletionRecord i a b c);
  replayRelDetachDeletionRecord i d v := on_db (replayRelDetachDeletionRecord i d v);
  replayRelUpdateRecord i p a b c v := on_db (replayRelUpdateRecord i p a b c v);
  replayLoadExtensionRecord p := on_db (replayLoadExtensionRecord p);
|}.
End recovery.
