(* ===== verification/CheckpointerSpec.v ===== *)
(** What a checkpoint promises: the file reads back what was written, or what was there
    before when the tables fail; and whatever a crash leaves, recovery ends with the
    last checkpoint and the log, or with this one. *)
From stdpp Require Import gmap.
From S2P Require Import Prelude Effects Serializer FreeSpaceManager FreeSpaceFacts InMemFileWriter FreeSpaceSpec Decoder BufferedFile BufferedFileFacts.
From S2P Require Import WALRecord WAL WALFacts WALReplayer WALReplayerFacts ShadowFile ShadowFacts ShadowHistory Checkpointer CheckpointerRun.
From S2P Require Import CheckpointerState CheckpointerRecovery.
Import FreeFacts.
Local Open Scope Z_scope.

Section spec.
Context {Cat St : Type}.
Abbreviation db := (db Cat St).
Context (fresh : bytes) (fresh_size : size fresh = PAGE) (junk : Z) (version : string).
Context (catalogW : wire Cat) (tablesW : Cat -> wire St) (emptyCatalog : Cat) (noTables : St).
Context (catalogChunks : Cat -> list bytes) (tablesChunks : Cat -> St -> list bytes).
Context (catalogChunks_bytes : forall c, concat (catalogChunks c) = write catalogW c).
Context (tablesChunks_bytes : forall c t, concat (tablesChunks c t) = write (tablesW c) t).
Context (checkpointTables : Cat -> St -> action (bool * Cat * St)).
Abbreviation unfreed s := (FreeSpaceManager.uncheckpointedFreePageRanges (fsm s)).
Abbreviation dataFile s := (FileHandle.fileInfo (dataFH s)).
Abbreviation writeCheckpoint := (Checkpointer.writeCheckpoint fresh junk version catalogChunks tablesChunks checkpointTables false).
Abbreviation prepareCheckpoint := (Checkpointer.prepareCheckpoint fresh junk version catalogChunks tablesChunks checkpointTables).
Abbreviation opens_as := (opens_as junk version catalogW tablesW emptyCatalog noTables).

(** The database between checkpoints: the last one has the catalog [c], the tables [t]
    and the free pages [f]; the log has [log]. *)
Definition ready (h : DatabaseHeader.t) (tp : list Z) (c : Cat) (t : St) (f : FreeSpaceManager.t) (log : bytes) (s : db) : Prop :=
  (exists pb, at_rest version h (write catalogW c) (write (tablesW c) t) pb tp s /\ saved catalogW tablesW emptyCatalog noTables h pb c t f) /\
  on_disk (wal s) /\ logged (wal s) log.

(** What the checkpoint of the tables promises. *)
Definition tables_promise (h : DatabaseHeader.t) (tp : list Z) (c : Cat) (t : St) (s : db) : Prop :=
  tables_ok fresh catalogChunks tablesChunks checkpointTables (fun c t => writable catalogW c /\ writable (tablesW c) t)
    h (write catalogW c) (write (tablesW c) t) tp s.

(** Pages that were not free, as the data file of [s] has them. *)
Definition keeps (h : DatabaseHeader.t) (tp : list Z) (s : db) (F : bytes) : Prop :=
  forall p, p ∈ base_of h tp s -> 0 <= p -> (p + 1) * PAGE <= size (content (dataFile s)) -> page_at F p = page_at (content (dataFile s)) p.

Lemma kept_opens h tp c t f log s D : ready h tp c t f log s -> keeps h tp s (content D) -> PAGE <= size (content D) -> opens_as D c t f.
Proof.
  intros [(pb & Hrest & Hsv) _] Hk Hs. eapply image_opens; [|done|exact Hsv]. eapply image_ext; [by apply Hrest|].
  intros p Hp. apply Hk; [unfold base_of; apply elem_of_app; by left| |by apply (a_size _ _ _ _ _ _ _ Hrest)].
  assert (p ∈ sys_pages h ++ tp) as Hin by (apply elem_of_app; by left). by apply (held_in_file _ _ p (a_pages _ _ _ _ _ _ _ Hrest)) in Hin as [? _].
Qed.

Lemma inv_keeps h tp sys g (s s' : db) : inv (base_of h tp s) (content (dataFile s)) sys g s' -> keeps h tp s (content (dataFile s')).
Proof.
  intros Hi p Hp H0 Hin. pose proof (i_holds _ _ _ _ _ Hi) as (_ & _ & Hd & _). change (ShadowUtils.dataFH (files s')) with (dataFH s') in Hd. rewrite Hd.
  by apply (i_disk _ _ _ _ _ Hi).
Qed.

(** ** Steps of a checkpoint *)

(** The shadow file is on disk, and the record of the checkpoint after it. *)
Lemma prepared_commit base disk0 h g hp C Mt pb (s : db) log :
  prepared version catalogChunks tablesChunks base disk0 h g hp C Mt pb s -> writable catalogW (catalog s) -> writable (tablesW (catalog s)) (tables s) ->
  on_disk (wal s) -> logged (wal s) log ->
  exists fh w s' f n, ShadowFile.flushAll (shadow s) = Ret (ShadowFile.set_handle (shadow s) fh) /\
    synced (FileHandle.fileInfo fh) = size (content (FileHandle.fileInfo fh)) /\
    (forall D, exists D', ShadowFile.replayShadowPageRecords false (FileHandle.fileInfo fh) D = Ret D' /\ content D' = write_pages (own_writes (files s)) (content D)) /\
    WAL.logAndFlushCheckpoint (wal s) = Ret w /\ logged w (log ++ [254]) /\
    commitCheckpoint s = (Ret tt, s') /\ content (dataFile s') = write_pages (own_writes (files s)) (disk (ov g)) /\
    catalog s' = catalog s /\ tables s' = tables s /\ catalogVersion s' = 0 /\ pmVersion s' = 0 /\ unfreed s' = [] /\ WAL.file (wal s') = None /\
    ready h (tp g) (catalog s) (tables s) f [] s' /\ all_pages (free f) ++ sys_pages h ++ tp g ≡ₚ seqZ 0 n /\
    forall D, content D = content (dataFile s') -> opens_as D (catalog s) (tables s) f.
Proof.
  intros Hp Hwc Hwt Hd Hl. destruct (commitCheckpoint_run version catalogChunks tablesChunks base disk0 h g hp C Mt pb s log Hp Hd Hl)
    as (fh & w & s' & H1 & H2 & H3 & H4 & H5 & H6 & H7 & Hrest & H8 & H9 & H10 & H11 & H12 & H13 & H14 & H15).
  rewrite catalogChunks_bytes, tablesChunks_bytes in Hrest. destruct (p_reopens _ _ _ _ _ _ _ _ _ _ _ _ Hp) as (f & n & Hreads & Hun & Hf).
  assert (saved catalogW tablesW emptyCatalog noTables h pb (catalog s) (tables s) f) as Hsv.
  { unfold saved. by rewrite (written_valid _ _ _ (p_catalog _ _ _ _ _ _ _ _ _ _ _ _ Hp)). }
  exists fh, w, s', f, n. do 13 (split; [done|]). split; [by split; [exists pb|]|]. split.
  - pose proof (fi_pages _ _ Hf) as Hpg. unfold written in Hpg. cbn [PageManager.freeSpaceManager] in Hpg. by rewrite Hun, app_nil_r in Hpg.
  - intros D HD. eapply image_opens; rewrite ?HD; [by apply Hrest| |exact Hsv]. apply (a_size _ _ _ _ _ _ _ Hrest 0). by left.
Qed.

Lemma writeCheckpoint_run h tp c t f log s hasChanges c' t' s0 : ready h tp c t f log s -> tables_promise h tp c t s ->
  Checkpointer.run fresh (checkpointTables (catalog s) (tables s)) s = (Ret (hasChanges, c', t'), s0) ->
  exists s' h' tp' f' n, writeCheckpoint s = (Ret tt, s') /\
    opens_as (dataFile s') c' t' f' /\ all_pages (free f') ++ sys_pages h' ++ tp' ≡ₚ seqZ 0 n /\
    shadow s' = ShadowFile.make None /\ WAL.file (wal s') = None /\
    catalog s' = c' /\ tables s' = t' /\ catalogVersion s' = 0 /\ pmVersion s' = 0 /\ unfreed s' = [] /\ ready h' tp' c' t' f' [] s'.
Proof.
  intros [(pb & Hrest & _) [Hd Hl]] Htabs Hrun0.
  pose proof (prepare_run fresh fresh_size junk version catalogChunks tablesChunks checkpointTables _ h _ _ pb tp s Hrest Htabs) as Hprep. rewrite Hrun0 in Hprep.
  destruct Hprep as (s1 & Hrun & Hw & <- & <- & [Hwc Hwt] & h' & g & hp & C & Mt & pb' & Hp). rewrite <-Hw in *.
  destruct (prepared_commit _ _ h' g hp C Mt pb' s1 log Hp Hwc Hwt Hd Hl)
    as (fh & w & s' & f' & n & _ & _ & _ & _ & _ & Hcommit & _ & Hc & Ht & Hcv & Hpv & Hun & Hwal & Hr & Hpages & Hopen).
  exists s', h', (CheckpointerRun.tp g), f', n. split; [|split_and!; try done].
  - unfold Checkpointer.writeCheckpoint. erewrite bind_run by exact Hrun. exact Hcommit.
  - by apply Hopen.
  - destruct Hr as [(? & Hr & _) _]. apply Hr.
Qed.


(** ** Crashes *)

Section crash.
Context {E P V : Type} (entry : wire E) (property : wire P) (vector : wire V) (handlers : Recovery E P V (db)).
Abbreviation ser_all := (ser_all entry property vector).
Abbreviation record_ok := (WALRecord.record_ok entry property vector).
Abbreviation world := (world Cat St).
#[local] Instance on_disk_recovery : Recovery E P V world := disk_recovery junk version catalogW tablesW emptyCatalog noTables false handlers.

(** The recovery of a database whose data file, shadow file and log are these. *)
Definition recover (log : option FileInfo) (D : FileInfo) (sh : option FileInfo) : outcome unit * WALReplayer.t world :=
  WALReplayer.replay entry property vector false false (WALReplayer.mk log true (mk_world D sh None)).

Abbreviation open_world D sh c t f := (mk_world D sh (Some (opened false 0 D None None c t f))).

Lemma read_opens D sh d c t f : opens_as D c t f ->
  WALReplayer.readCheckpoint (mk_world D sh d) = (Ret tt, open_world D sh c t f).
Proof. intros Ho. cbn. unfold CheckpointerRecovery.opens_as in Ho. by rewrite Ho. Qed.

Lemma recover_nothing D sh c t f : opens_as D c t f -> recover None D sh = (Ret tt, WALReplayer.mk None false (open_world D sh c t f)).
Proof.
  intros Ho. unfold recover, WALReplayer.replay. erewrite bind_run by done. cbn [WALReplayer.walFile]. erewrite bind_run by done.
  unfold WALReplayer.on_world. cbn [WALReplayer.world]. by rewrite (read_opens D sh None c t f Ho).
Qed.

Lemma recover_torn D sh lf rs tail c t f w : opens_as D c t f -> log_of entry property vector lf rs tail -> content lf <> [] ->
  WALReplayer.dryReplay entry property vector lf <> Undef ->
  (run_records false (committed rs);; reconcileAfterRecovery) (open_world D sh c t f) = (Ret tt, w) ->
  recover (Some lf) D sh = (Ret tt, WALReplayer.mk (Some (mk_file (ser_all (committed rs)) (size (ser_all (committed rs))))) false w).
Proof.
  intros Ho Hlog Hne Hdry Hrun. unfold recover. rewrite (replay_run entry property vector false lf rs tail true _ Hlog Hne Hdry).
  unfold redo. erewrite bind_run by (by apply read_opens). by rewrite Hrun.
Qed.

Lemma recover_log D sh lf rs c t f w : opens_as D c t f -> content lf = ser_all rs -> rs <> [] -> Forall record_ok rs ->
  forallb (fun r => negb (is_checkpoint r)) rs = true ->
  (run_records false (committed rs);; reconcileAfterRecovery) (open_world D sh c t f) = (Ret tt, w) ->
  recover (Some lf) D sh = (Ret tt, WALReplayer.mk (Some (mk_file (ser_all (committed rs)) (size (ser_all (committed rs))))) false w).
Proof.
  intros Ho Hlf Hne Hok Hck Hrun. assert (log_of entry property vector lf rs []) as Hlog by (split; [by rewrite app_nil_r|]; by split_and!; [| |left]).
  assert (content lf <> []) as Hlne.
  { rewrite Hlf. intros Hn. pose proof (length_ser_all entry property vector rs) as Hl. rewrite Hn in Hl. destruct rs; [done|]. change (size []) with 0 in Hl. cbn [length] in Hl. lia. }
  destruct (dryReplay_run entry property vector lf rs [] Hlog Hlne) as [_ Hdry]. apply (recover_torn D sh lf rs [] c t f w); [done..|by rewrite Hdry by by left|done].
Qed.

Lemma recover_checkpoint D D' F lf rs c t f : ShadowFile.replayShadowPageRecords false F D = Ret D' -> opens_as D' c t f ->
  content lf = ser_all rs ++ [254] -> Forall record_ok rs -> forallb (fun r => negb (is_checkpoint r)) rs = true ->
  recover (Some lf) D (Some F) = (Ret tt, WALReplayer.mk None false (open_world D' (Some F) c t f)).
Proof.
  intros HD Ho Hlf Hok Hck. unfold recover. apply replay_checkpoint.
  - by apply (dryReplay_checkpoint entry property vector lf rs).
  - rewrite Hlf. by destruct (ser_all rs).
  - erewrite bind_run; [by apply read_opens|]. unfold WALReplayer.replayShadowPageRecords, on_disk_recovery, disk_recovery.
    cbn [CheckpointerRecovery.dataFile CheckpointerRecovery.shadowFile CheckpointerRecovery.database]. by rewrite HD.
Qed.

End crash.
End spec.

(** ** Instances *)

(** A new database, whose catalog is a flag that has been set, and whose table has a
    page that a checkpoint allocates, writes straight away and then changes. *)
Definition zeros : bytes := replicate (Z.to_nat PAGE) 0.
Definition build : string := "0.11.3".
Definition flagChunks (c : bool) : list bytes := [write bool_wire c].
Definition pageChunks (c : bool) (t : Z) : list bytes := [write u32_wire t].
Definition firstCheckpoint (c : bool) (t : Z) : action (bool * bool * Z) :=
  AllocatePageRange 1 (fun r => WritePage (PageRange.startPageIdx r) (replicate (Z.to_nat PAGE) 7)
    (UpdatePage (PageRange.startPageIdx r) false (fun c => 9 :: drop 1 c) (Done (true, c, PageRange.startPageIdx r)))).

Definition new_page : bytes := match Checkpointer.headerPage 0 build DatabaseHeader.defaultHeader with Ret page => page | _ => [] end.
Definition new_db (log : bytes) : db bool Z :=
  mk_db (ShadowUtils.mk_files (FileHandle.mk 0 1 ∅ (mk_file new_page 4096)) (ShadowFile.make None)) FreeSpaceManager.init 0
    (WAL.make false false (Some (mk_file log (size log)))) true 1 0.
Abbreviation new_ready h log := (ready build bool_wire (fun _ => u32_wire) false 0 h [] false 0 FreeSpaceManager.init log (new_db log)).

Lemma new_page_header : exists pad, new_page = header_bytes build DatabaseHeader.defaultHeader ++ pad /\ size new_page = PAGE.
Proof. destruct (headerPage_run 0 build DatabaseHeader.defaultHeader) as (pad & Hp & Hs). exists pad. unfold new_page. rewrite Hp. split; [reflexivity|exact Hs]. Qed.

#[local] Opaque new_page.

Lemma new_page_at : page_at new_page 0 = new_page.
Proof.
  destruct new_page_header as (pad & _ & Hsz). unfold page_at. change (drop (Z.to_nat (0 * PAGE)) new_page) with new_page. apply take_ge.
  unfold size in Hsz. rewrite <-Hsz, Nat2Z.id. apply Nat.le_refl.
Qed.

Lemma new_page_size : size new_page = PAGE.
Proof. destruct new_page_header as (pad & _ & Hsz). exact Hsz. Qed.

Lemma new_db_image : image build new_page DatabaseHeader.defaultHeader (write bool_wire false) (write u32_wire 0 ++ []).
Proof.
  split; [by repeat split|]. split; [|reflexivity]. destruct new_page_header as (pad & Hpage & _). exists pad. rewrite new_page_at. exact Hpage.
Qed.

Lemma new_db_ready log : new_ready DatabaseHeader.defaultHeader log.
Proof.
  split; [|by split]. exists []. split; [|by split]. split.
  - reflexivity.
  - split; [|split; [by intros p c d|done]]. split; [done|]. split; [done|]. split; [|by intros p c d].
    change (0 <= 4096 <= size new_page). rewrite new_page_size. done.
  - done.
  - exact new_db_image.
  - intros p Hp. assert (p = 0) as -> by (by apply list_elem_of_singleton in Hp). change ((0 + 1) * PAGE <= size new_page). rewrite new_page_size. done.
  - by split.
  - split; [apply init_wf_fsm|constructor|done|done].
  - intros p [x Hx]. done.
  - done.
Qed.

Lemma firstCheckpoint_ok log : tables_promise zeros bool_wire (fun _ => u32_wire) flagChunks pageChunks firstCheckpoint DatabaseHeader.defaultHeader [] false 0 (new_db log).
Proof.
  unfold tables_promise, tables_ok. cbn [firstCheckpoint wp]. split; [done|]. split; [done|]. intros r c Hn (H1 & H2 & H3) Hc Hnew.
  assert (PageRange.startPageIdx r ∈ pages r) as Hin by (apply elem_of_pages; lia). destruct (Hnew _ Hin) as (Hr & Hm & Hca & Hno).
  cbn [ghost_of ov tp added app] in *. change (count (ShadowHistory.before (dataFH (new_db log)))) with 1 in *.
  rewrite app_nil_r. split; [done|]. split; [done|]. split; [by vm_compute|]. split; [done|]. split; [done|]. split; [done|].
  split; [intros b Hb; unfold size in *; cbn [length]; rewrite length_drop; unfold PAGE in *; lia|]. split.
  - right. right. split; [apply Hr|]. cbn [overlay_op disk]. rewrite write_size by (unfold PAGE; lia). change (size (replicate (Z.to_nat PAGE) 7)) with 4096. unfold PAGE. lia.
  - split; [split; [done|]|].
    + cbn [writable uint_wire]. change (256 ^ Z.of_nat 4) with (2 ^ 32). lia.
    + split; [done|]. split; [|done]. cbn [overlay_op count with_count CheckpointerRun.ov]. unfold pagesOf. cbn [flagChunks pageChunks concat app write bool_wire uint_wire].
      unfold size. rewrite !length_app, !length_le_bytes. cbn [length Nat.add]. unfold PAGE, LIMIT.
      change ((Z.of_nat 1 + 2 ^ 12 - 1) / 2 ^ 12) with 1. change ((Z.of_nat 4 + 2 ^ 12 - 1) / 2 ^ 12) with 1. lia.
Qed.

Lemma firstCheckpoint_run log : (Checkpointer.run zeros (firstCheckpoint true 0) (new_db log)).1 = Ret (true, true, 1).
Proof. reflexivity. Qed.


(** A log with an empty transaction, whose records do nothing. *)
#[local] Instance no_handlers : Recovery Z Z Z (db bool Z) := {|
  WALReplayer.readCheckpoint := mret tt; replayShadowPageRecords := mret tt; hasActiveTransaction _ := false;
  beginRecoveryTransaction := mret tt; commitTransaction := mret tt; rollbackTransaction := mret tt;
  writeRecoveryCheckpoint := mret tt; reconcileAfterRecovery := mret tt;
  replayCreateCatalogEntryRecord _ _ := mret tt; replayDropCatalogEntryRecord _ _ := mret tt; replayAlterTableEntryRecord _ := mret tt;
  replayUpdateSequenceRecord _ _ := mret tt; replayNodeTableInsertRecord _ _ _ := mret tt; replayRelTableInsertRecord _ _ _ := mret tt;
  replayNodeDeletionRecord _ _ _ := mret tt; replayNodeUpdateRecord _ _ _ _ := mret tt; replayRelDeletionRecord _ _ _ _ := mret tt;
  replayRelDetachDeletionRecord _ _ _ := mret tt; replayRelUpdateRecord _ _ _ _ _ _ := mret tt; replayLoadExtensionRecord _ := mret tt;
|}.
Definition empty_transaction : list (WALRecord.t Z Z Z) := [WALRecord.BeginTransactionRecord; WALRecord.CommitRecord].
Abbreviation transaction_log := (ser_all u8_wire u8_wire u8_wire empty_transaction).
Abbreviation new_recover := (recover 0 build bool_wire (fun _ => u32_wire) false 0 u8_wire u8_wire u8_wire no_handlers).


(** ** Where checkpoints fall short *)

(** *** Pages written straight to the data file *)

(** The record of a checkpoint says that all that was written is on disk; but the data
    file has not been synchronised since the tables wrote a page straight to it. *)
Definition straight (c : bool) (t : Z) : action (bool * bool * Z) :=
  AllocatePageRange 1 (fun r => WritePage (PageRange.startPageIdx r) (replicate (Z.to_nat PAGE) 7) (Done (true, c, PageRange.startPageIdx r))).
Definition until_the_record : outcome unit * db bool Z :=
  (Checkpointer.prepareCheckpoint zeros 0 build flagChunks pageChunks straight;; on_shadow ShadowFile.flushAll;; on_wal WAL.logAndFlushCheckpoint) (new_db []).

Example record_before_pages :
  let s := until_the_record.2 in let data := FileHandle.fileInfo (dataFH s) in
  ((fun f => (synced f, size (content f))) <$> WAL.file (wal s), (synced data, size (content data))) = (Some (1, 1), (4096, 8192)).
Proof. by vm_compute. Qed.

(** A crash that loses the page, which was not synchronised: recovery replays the shadow
    file, and the table has a page of zeros. *)
Example straight_page_lost :
  let s := until_the_record.2 in
  match WAL.file (wal s), ShadowFile.shadowingFH (shadow s) with
  | Some log, Some fh =>
      let D := mk_file (take 4096 (content (FileHandle.fileInfo (dataFH s))) ++ zeros) 4096 in
      let '(r, w) := new_recover (Some log) D (Some (FileHandle.fileInfo fh)) in
      (r, tables <$> database (WALReplayer.world w), take 2 (page_at (content (dataFile (WALReplayer.world w))) 1))
  | _, _ => (Undef, None, [])
  end = (Ret tt, Some 1, [0; 0]).
Proof. by vm_compute. Qed.

(** *** The checkpoints of a recovery *)

(** Nothing in the log says that a recovery applies a shadow file. When a crash comes
    after the header reached the data file and before the pages that it points to did,
    the next recovery removes the shadow file and the log, and cannot open the
    database. *)
Definition shadow_of_recovery : outcome unit * db bool Z :=
  (Checkpointer.prepareCheckpoint zeros 0 build flagChunks pageChunks firstCheckpoint;; on_shadow ShadowFile.flushAll) (new_db transaction_log).

Example recovery_checkpoint_torn :
  let '(r, s) := shadow_of_recovery in
  match ShadowFile.shadowingFH (shadow s), ShadowFile.applyShadowPages (shadow s) (dataFH s) with
  | Some fh, Ret applied =>
      let D := mk_file (take 4096 (content (FileHandle.fileInfo applied)) ++ zeros) 4096 in
      let '(r, w) := new_recover (Some (mk_file transaction_log 18)) D (Some (FileHandle.fileInfo fh)) in
      (match r with Throw _ => true | _ => false end, WALReplayer.walFile w, WALReplayer.shadowFile w)
  | _, _ => (false, None, true)
  end = (true, None, false).
Proof. by vm_compute. Qed.

(** *** Opened read-only *)

(** A crash came after the record: opened to be read only, the shadow file cannot be
    replayed, which is caught, and the database opens as before both the log and the
    checkpoint; opened to be written, it has the checkpoint. *)
Example read_only_opens_the_past :
  let s := ((Checkpointer.prepareCheckpoint zeros 0 build flagChunks pageChunks firstCheckpoint;; on_shadow ShadowFile.flushAll;; on_wal WAL.logAndFlushCheckpoint)
              (new_db transaction_log)).2 in
  let opens isReadOnly :=
    match WAL.file (wal s), ShadowFile.shadowingFH (shadow s) with
    | Some log, Some fh =>
        let '(r, w) := @WALReplayer.replay Z Z Z _ (disk_recovery 0 build bool_wire (fun _ => u32_wire) false 0 isReadOnly no_handlers) u8_wire u8_wire u8_wire false isReadOnly
          (WALReplayer.mk (Some log) true (mk_world (FileHandle.fileInfo (dataFH s)) (Some (FileHandle.fileInfo fh)) None)) in
        (r, (fun d => (catalog d, tables d)) <$> database (WALReplayer.world w))
    | _, _ => (Undef, None)
    end in
  (opens true, opens false) = ((Ret tt, Some (false, 0)), (Ret tt, Some (true, 1))).
Proof. by vm_compute. Qed.

(** *** The end of the file *)

(** Four checkpoints: a table takes ten pages, gives them up, and changes twice. The
    second and third leave pages at the end of the file that are free, which the page
    manager cuts off and the file keeps. The fourth does not write them down: when the
    database is opened, the file has sixteen pages, of which 14 and 15 are neither free
    nor in use. *)
Definition takes (c : bool) (t : Z) : action (bool * bool * Z) :=
  AllocatePageRange 10 (fun r => WritePage (PageRange.startPageIdx r + 9) zeros (Done (true, c, PageRange.startPageIdx r))).
Definition gives (c : bool) (t : Z) : action (bool * bool * Z) := FreePageRange (PageRange.mk t 10) (Done (true, c, 0)).
Definition changes (c : bool) (t : Z) : action (bool * bool * Z) := Done (true, c, t).
Definition checkpoint_of (a : bool -> Z -> action (bool * bool * Z)) : M (db bool Z) unit :=
  Checkpointer.writeCheckpoint zeros 0 build flagChunks pageChunks a false.

Example tail_pages_leak :
  let '(r, s) := (checkpoint_of takes;; checkpoint_of gives;; checkpoint_of changes;; checkpoint_of changes) (new_db []) in
  let D := FileHandle.fileInfo (dataFH s) in
  (r, FileHandle.numPages (dataFH s), Checkpointer.getCurrentDatabaseHeader build D,
   (d ← open 0 build bool_wire (fun _ => u32_wire) false 0 false 0 D None None; mret (FileHandle.numPages (dataFH d), concat (FreeSpaceManager.freeLists (fsm d))))) =
  (Ret tt, 12, Ret (DatabaseHeader.mk (PageRange.mk 11 1) (PageRange.mk 1 2)), Ret (16, [PageRange.mk 12 2; PageRange.mk 3 8])).
Proof. by vm_compute. Qed.
