(* ===== verification/DurableStorage.v ===== *)
(** The storage of a database on disk, as the transaction manager sees it: an instance of
    [Storage] whose logs are those of [WAL.v] and whose checkpoints are those of
    [Checkpointer.v]. What the local storage and the undo buffer of a transaction do to
    the database is the class [Engine]; what they promise is [EngineLaws]. *)
From stdpp Require Import gmap.
From Stdlib Require Import QArith.
From S2P Require Import Prelude Effects Serializer VersionInfo Transaction FreeSpaceManager InMemFileWriter TransactionManager TransactionSpec Decoder.
From S2P Require Import BufferedFile BufferedFileFacts WALRecord WAL WALFacts WALReplayer WALReplayerFacts WALHistory ShadowFile Checkpointer.
From S2P Require Import CheckpointerState CheckpointerRecovery CheckpointerSpec.
Local Open Scope Z_scope.

(** ** The parts that are not modelled *)

Class Engine (Cat St : Type) := {
  engine_cleanUp : M (db Cat St) unit;
  engine_localStorage_commit : transaction_t -> M (db Cat St) unit;
  engine_localStorage_rollback : transaction_t -> M (db Cat St) unit;
  engine_undoBuffer_commit : transaction_t -> transaction_t -> M (db Cat St) unit;
  engine_undoBuffer_rollback : transaction_t -> M (db Cat St) unit;
  engine_getUsageRatio : db Cat St -> Q;
  engine_getBufferPoolSize : db Cat St -> Z;
}.

(** ** The instance *)

(** The database, and the log of each transaction. *)
Record store (Cat St : Type) := mk_store { stored : db Cat St; localWALs : gmap transaction_t LocalWAL.t }.
Arguments mk_store {Cat St}.
Arguments stored {Cat St}.
Arguments localWALs {Cat St}.

Section storage.
Context {Cat St E P V : Type} `{Engine Cat St}.
Abbreviation db := (db Cat St).
Abbreviation store := (store Cat St).
Abbreviation record := (WALRecord.t E P V).
Context (chunks : record -> list bytes) (threshold : Z).
Context (fresh : bytes) (junk : Z) (version : string) (catalogChunks : Cat -> list bytes) (tablesChunks : Cat -> St -> list bytes).
Context (checkpointTables : Cat -> St -> action (bool * Cat * St)) (rollbackTables : St -> St).

Definition set_store (w : store) (d : db) : store := mk_store d (localWALs w).

Definition on_store {A} (m : M db A) : M store A := fun w => let '(r, d) := m (stored w) in (r, set_store w d).

(** The log of the database and that of a transaction change. *)
Definition on_logs (id : transaction_t) (f : WAL.t -> LocalWAL.t -> outcome (WAL.t * LocalWAL.t)) : M store unit := fun w =>
  match localWALs w !! id with
  | Some l =>
      match f (wal (stored w)) l with
      | Ret (wal', l') => (Ret tt, mk_store (set_wal (stored w) wal') (<[id := l']> (localWALs w)))
      | Throw e => (Throw e, w)
      | Undef => (Undef, w)
      end
  | None => (Undef, w)
  end.

(** [Transaction::Transaction] makes the log of the transaction. *)
Definition newLocalWAL (id : transaction_t) : M store unit :=
  modify (fun w => mk_store (stored w) (<[id := LocalWAL.setFlushContext LocalWAL.make threshold]> (localWALs w))).

(** What the statements of a transaction log. *)
Definition logRecord (id : transaction_t) (r : record) : M store unit := on_logs id (fun g l => LocalWAL.log chunks g l r).

(** [version++]. *)
Definition incrementVersion : M db unit :=
  modify (fun s => mk_db (files s) (fsm s) (pmVersion s) (wal s) (catalog s) (u64 (catalogVersion s + 1)) (tables s)).

Definition durable_storage : Storage store := {|
  cleanUp := on_store engine_cleanUp;
  logBeginTransaction id := newLocalWAL id;; on_logs id (LocalWAL.logBeginTransaction chunks);
  localStorage_commit id := on_store (engine_localStorage_commit id);
  localStorage_rollback id := on_store (engine_localStorage_rollback id);
  undoBuffer_commit id ts := on_store (engine_undoBuffer_commit id ts);
  undoBuffer_rollback id := on_store (engine_undoBuffer_rollback id);
  localWAL_logCommit id := on_logs id (LocalWAL.logCommit chunks);
  wal_logCommittedWAL id := on_logs id (fun g l => g ← WAL.logCommittedWAL g (LocalWAL.writer l); mret (g, l));
  localWAL_clear id := on_logs id (fun g l => mret (g, LocalWAL.clear l));
  catalog_incrementVersion := on_store incrementVersion;
  localWAL_getSize w id := match localWALs w !! id with Some l => LocalWAL.getSize l | None => 0 end;
  wal_getFileSize w := match WAL.getFileSize (wal (stored w)) with Ret n => n | _ => 0 end;
  getUsageRatio w := engine_getUsageRatio (stored w);
  getBufferPoolSize w := engine_getBufferPoolSize (stored w);
  writeCheckpoint := on_store (Checkpointer.writeCheckpoint fresh junk version catalogChunks tablesChunks checkpointTables false);
  checkpointer_rollback := on_store (Checkpointer.rollback rollbackTables false);
|}.
End storage.

(** What each operation of the storage of [DurableStorage.v] does to the log and to the
    last checkpoint, given what the parts that are not modelled promise. *)

(** A record and a commit go to the log of the transaction; what the statements of a
    transaction log is good. *)
Section facts.
Context {Cat St E P V : Type} `{!Engine Cat St}.
Abbreviation db := (db Cat St).
Abbreviation store := (store Cat St).
Abbreviation record := (WALRecord.t E P V).
Context (entry : wire E) (property : wire P) (vector : wire V).
Context (chunks : record -> list bytes) (threshold : Z).
Context (fresh : bytes) (junk : Z) (version : string) (catalogW : wire Cat) (tablesW : Cat -> wire St) (emptyCatalog : Cat) (noTables : St).
Context (catalogChunks : Cat -> list bytes) (tablesChunks : Cat -> St -> list bytes).
Context (checkpointTables : Cat -> St -> action (bool * Cat * St)) (rollbackTables : St -> St).
Abbreviation ser := (WALRecord.serialize entry property vector).
Abbreviation ser_all := (ser_all entry property vector).
Abbreviation ready := (ready version catalogW tablesW emptyCatalog noTables).
Abbreviation tables_promise := (tables_promise fresh catalogW tablesW catalogChunks tablesChunks checkpointTables).
Implicit Types (d : db) (w : store) (id : transaction_t).

(** ** What the engine promises *)

(** Between checkpoints, of which the last has [c], [t] and [f], with this log; and
    what the engine knows of its pages. *)
Definition resting_with (know : DatabaseHeader.t -> list Z -> Cat -> St -> db -> Prop) c t f log d : Prop :=
  exists h tp, ready h tp c t f log d /\ know h tp c t d.

(** Leaves the log and what the last checkpoint has on disk alone. *)
Definition quiet_with (know : DatabaseHeader.t -> list Z -> Cat -> St -> db -> Prop) (m : M db unit) : Prop :=
  forall c t f log d r d', m d = (r, d') -> resting_with know c t f log d ->
    wal d' = wal d /\ catalogVersion d' = catalogVersion d /\ resting_with know c t f log d'.

Definition bumped d : db := mk_db (files d) (fsm d) (pmVersion d) (wal d) (catalog d) (u64 (catalogVersion d + 1)) (tables d).

(** [knows] is kept whatever the log, and when the version of the catalog grows; with
    it, and room in the file, a checkpoint of the tables returns and keeps its promise,
    and after it the tables know theirs again. *)
Class EngineLaws := {
  knows : DatabaseHeader.t -> list Z -> Cat -> St -> db -> Prop;
  room : db -> Prop;
  law_cleanUp : quiet_with knows engine_cleanUp;
  law_localStorage_commit id : quiet_with knows (engine_localStorage_commit id);
  law_localStorage_rollback id : quiet_with knows (engine_localStorage_rollback id);
  law_undoBuffer_commit id ts : quiet_with knows (engine_undoBuffer_commit id ts);
  law_undoBuffer_rollback id : quiet_with knows (engine_undoBuffer_rollback id);
  law_wal h tp c t d g : knows h tp c t d -> knows h tp c t (set_wal d g);
  law_version h tp c t d : knows h tp c t d -> u64 (catalogVersion d + 1) <> 0 -> knows h tp c t (bumped d);
  law_checkpoint h tp c t f log d : ready h tp c t f log d -> knows h tp c t d -> room d ->
    tables_promise h tp c t d /\ exists x d0, Checkpointer.run fresh (checkpointTables (catalog d) (tables d)) d = (Ret x, d0);
  law_checkpointed h tp f d : ready h tp (catalog d) (tables d) f [] d -> catalogVersion d = 0 -> knows h tp (catalog d) (tables d) d;
}.
Context `{!EngineLaws}.

Abbreviation resting := (resting_with knows).
Abbreviation quiet := (quiet_with knows).

(** ** The database between checkpoints *)

Lemma ready_changed h tp c t f log log' d d' : ready h tp c t f log d ->
  files d' = files d -> fsm d' = fsm d -> pmVersion d' = pmVersion d -> on_disk (wal d') -> logged (wal d') log' -> ready h tp c t f log' d'.
Proof.
  intros [(pb & [H1 H2 H3 H4 H5 H6 H7 H8 H9] & Hs) _] Hf Hm Hp Hd Hl. destruct d, d'. cbn in *. subst. split; [|done]. exists pb. by split.
Qed.

Lemma resting_wal c t f log log' d g : resting c t f log d -> on_disk g -> logged g log' -> resting c t f log' (set_wal d g).
Proof. intros (h & tp & Hr & Hk) Hd Hl. exists h, tp. split; [by eapply ready_changed|by apply law_wal]. Qed.

Lemma resting_bumped c t f log d : resting c t f log d -> u64 (catalogVersion d + 1) <> 0 -> resting c t f log (bumped d).
Proof. intros (h & tp & Hr & Hk) Hv. pose proof Hr as (_ & Hd & Hl). exists h, tp. split; [by eapply ready_changed|by apply law_version]. Qed.

Lemma resting_log c t f log d : resting c t f log d -> on_disk (wal d) /\ logged (wal d) log.
Proof. by intros (h & tp & (_ & Hd & Hl) & _). Qed.

Lemma set_wal_id d : set_wal d (wal d) = d.
Proof. by destruct d. Qed.

(** ** The logs *)

Section logs.
Hypothesis chunks_serialize : forall r, concat (chunks r) = ser r.

(** The log of [id] has these records. *)
Definition local_has id (rs : list record) w : Prop :=
  exists l, localWALs w !! id = Some l /\ holds_local l (ser_all rs) /\ LocalWAL.flushThreshold l = Some threshold.

Lemma local_has_other id i rs w d l : i <> id -> local_has i rs w -> local_has i rs (mk_store d (<[id := l]> (localWALs w))).
Proof. intros Hne (l0 & Hl & Hh). exists l0. split; [|done]. cbn. by rewrite lookup_insert_ne. Qed.

(** Records that stay below the threshold only go to the log of the transaction. *)
Lemma add_run id rs r w data : on_disk (wal (stored w)) -> logged (wal (stored w)) data -> local_has id rs w -> size (ser_all (rs ++ [r])) < threshold ->
  exists w', on_logs id (fun g l => LocalWAL.addNewWALRecord chunks g l r) w = (Ret tt, w') /\ stored w' = stored w /\ local_has id (rs ++ [r]) w' /\
    forall i, i <> id -> forall rs', local_has i rs' w -> local_has i rs' w'.
Proof.
  intros Hd Hl (l & Hid & Hh & Hth) Hsz.
  destruct (addNewWALRecord_run entry property vector chunks chunks_serialize (wal (stored w)) l data _ r threshold Hd Hl Hh Hth) as (g & l' & Hrun & _ & Hth' & Hcase).
  rewrite <-ser_all_snoc in Hcase. rewrite (proj2 (Z.leb_gt _ _) Hsz) in Hcase. destruct Hcase as [-> Hh'].
  unfold on_logs. rewrite Hid, Hrun, set_wal_id. eexists. split; [done|]. split; [done|]. split.
  - exists l'. cbn. by rewrite lookup_insert_eq.
  - intros i Hne rs' Hi. by apply local_has_other.
Qed.

Lemma begin_logged id w data : on_disk (wal (stored w)) -> logged (wal (stored w)) data -> size (ser WALRecord.BeginTransactionRecord) < threshold ->
  exists w', (newLocalWAL threshold id;; on_logs id (LocalWAL.logBeginTransaction chunks)) w = (Ret tt, w') /\ stored w' = stored w /\
    local_has id [WALRecord.BeginTransactionRecord] w' /\ forall i, i <> id -> forall rs, local_has i rs w -> local_has i rs w'.
Proof.
  intros Hd Hl Hsz. set (l := LocalWAL.setFlushContext LocalWAL.make threshold). set (w1 := mk_store (stored w) (<[id := l]> (localWALs w))).
  destruct (add_run id [] WALRecord.BeginTransactionRecord w1 data Hd Hl) as (w' & Hrun & Hs & Hl' & Ho).
  - exists l. cbn. rewrite lookup_insert_eq. split; [done|]. split; [apply InMemFileWriter.repr_init|done].
  - change (size (ser_all ([] ++ [WALRecord.BeginTransactionRecord])) < threshold). unfold WALReplayerFacts.ser_all. cbn [app map concat]. by rewrite app_nil_r.
  - exists w'. split; [exact Hrun|]. split; [done|]. split; [done|]. intros i Hne rs Hi. apply Ho; [done|]. by apply local_has_other.
Qed.

(** The records of a body are logged by the function of each. *)
Lemma log_logged id rs r w data : plain r = true -> on_disk (wal (stored w)) -> logged (wal (stored w)) data -> local_has id rs w ->
  size (ser_all (rs ++ [r])) < threshold ->
  exists w', logRecord chunks id r w = (Ret tt, w') /\ stored w' = stored w /\ local_has id (rs ++ [r]) w' /\
    forall i, i <> id -> forall rs', local_has i rs' w -> local_has i rs' w'.
Proof.
  intros Hp Hd Hl Hh Hsz. destruct (add_run id rs r w data Hd Hl Hh Hsz) as (w' & Hrun & Hrest). exists w'. split; [|done]. rewrite <-Hrun.
  unfold logRecord, on_logs. by destruct r.
Qed.

(** A commit appends the records to the file, safe on disk. *)
Lemma commit_logged id rs w data : on_disk (wal (stored w)) -> logged (wal (stored w)) data -> local_has id rs w ->
  exists g l, (on_logs id (LocalWAL.logCommit chunks);; on_logs id (fun g l => g ← WAL.logCommittedWAL g (LocalWAL.writer l); mret (g, l));;
      on_logs id (fun g l => mret (g, LocalWAL.clear l))) w = (Ret tt, mk_store (set_wal (stored w) g) (<[id := l]> (localWALs w))) /\
    on_disk g /\ logged g (data ++ ser_all (rs ++ [WALRecord.CommitRecord])).
Proof.
  intros Hd Hl (l & Hid & Hh & Hth). rewrite ser_all_snoc.
  destruct (local_commit_run entry property vector chunks chunks_serialize (wal (stored w)) l data _ threshold Hd Hl Hh Hth) as (g & l' & Hrun & Hd' & Hl').
  unfold LocalWAL.commit in Hrun. destruct (LocalWAL.logCommit chunks (wal (stored w)) l) as [[g1 l1]| |] eqn:E1; cbn [mbind outcome_bind] in Hrun; [|done..].
  destruct (WAL.logCommittedWAL g1 (LocalWAL.writer l1)) as [g2| |] eqn:E2; cbn [mbind outcome_bind] in Hrun; [|done..]. injection Hrun as <- <-.
  exists g2, (LocalWAL.clear l1). split; [|done].
  erewrite bind_run by (unfold on_logs; rewrite Hid, E1; reflexivity).
  erewrite bind_run by (unfold on_logs; cbn [stored localWALs set_wal wal]; rewrite lookup_insert_eq, E2; reflexivity).
  unfold on_logs. cbn [stored localWALs set_wal wal]. rewrite lookup_insert_eq. cbn [mret outcome_ret]. by rewrite !insert_insert_eq.
Qed.

(** ** The operations of the storage *)

Hypothesis fresh_size : size fresh = PAGE.
Hypothesis catalogChunks_bytes : forall c, concat (catalogChunks c) = write catalogW c.
Hypothesis tablesChunks_bytes : forall c t, concat (tablesChunks c t) = write (tablesW c) t.

#[local] Instance storage : Storage store :=
  durable_storage chunks threshold fresh junk version catalogChunks tablesChunks checkpointTables rollbackTables.

Lemma quiet_run m w r w' c t f log : quiet m -> on_store m w = (r, w') -> resting c t f log (stored w) ->
  resting c t f log (stored w') /\ localWALs w' = localWALs w /\ catalogVersion (stored w') = catalogVersion (stored w).
Proof.
  intros Hq. unfold on_store. destruct (m (stored w)) as [o d'] eqn:Em. intros [= <- <-] Hr. by destruct (Hq c t f log _ _ _ Em Hr) as (_ & ? & ?).
Qed.

Lemma local_has_same id rs w w' : localWALs w' = localWALs w -> local_has id rs w -> local_has id rs w'.
Proof. intros El (l & Hl & Hh). exists l. by rewrite El. Qed.

(** A commit fails before it logs, or puts the transaction at the end of the log. *)
Lemma storage_commit_run config id x ts w rs c t f log r w1 :
  isInMemory config = false -> Transaction.type x = Transaction.WRITE -> resting c t f log (stored w) -> local_has id rs w ->
  u64 (catalogVersion (stored w) + 1) <> 0 -> storage_commit config x id ts w = (r, w1) -> r <> Undef ->
  (exists e, r = Throw e /\ resting c t f log (stored w1) /\ localWALs w1 = localWALs w) \/
  (r = Ret tt /\ resting c t f (log ++ ser_all (rs ++ [WALRecord.CommitRecord])) (stored w1) /\ exists l, localWALs w1 = <[id := l]> (localWALs w)).
Proof.
  intros Hmem Hty Hr Hl Hv Hrun Hu. unfold storage_commit in Hrun. unfold mbind, M_bind at 1 in Hrun.
  destruct (localStorage_commit id w) as [o1 v1] eqn:E1. destruct (quiet_run _ _ _ _ _ _ _ _ (law_localStorage_commit id) E1 Hr) as (Hr1 & L1 & V1).
  destruct o1 as [[]|e|]; [|left; injection Hrun as <- <-; by exists e|by injection Hrun as <- <-]. unfold M_bind at 1 in Hrun.
  destruct (undoBuffer_commit id ts v1) as [o2 v2] eqn:E2. destruct (quiet_run _ _ _ _ _ _ _ _ (law_undoBuffer_commit id ts) E2 Hr1) as (Hr2 & L2 & V2).
  destruct o2 as [[]|e|]; [|left; injection Hrun as <- <-; exists e; by rewrite L2, L1|by injection Hrun as <- <-].
  rewrite L1 in L2. rewrite V1 in V2. pose proof (resting_log _ _ _ _ _ Hr2) as [Hd2 Hl2].
  destruct (commit_logged id rs v2 log Hd2 Hl2 (local_has_same _ _ _ _ L2 Hl)) as (g & l & Hlog & Hdg & Hlg).
  assert (Transaction.shouldLogToWAL (isInMemory config) x = true) as Hlogs
    by (unfold Transaction.shouldLogToWAL, Transaction.isWriteTransaction; by rewrite Hmem, Hty).
  rewrite Hlogs in Hrun. cbn [when] in Hrun. unfold M_bind at 1 in Hrun.
  assert ((localWAL_logCommit id;; wal_logCommittedWAL id;; localWAL_clear id) v2 = (Ret tt, mk_store (set_wal (stored v2) g) (<[id := l]> (localWALs v2)))) as Hlog' by exact Hlog.
  unfold mbind in Hlog'. rewrite Hlog' in Hrun. right. pose proof (resting_wal _ _ _ _ _ _ g Hr2 Hdg Hlg) as Hr3.
  destruct (Transaction.hasCatalogChanges x); cbn [when] in Hrun; injection Hrun as <- <-; (split; [done|]); (split; [|exists l; cbn; by rewrite L2]).
  - apply (resting_bumped _ _ _ _ _ Hr3). cbn. by rewrite V2.
  - exact Hr3.
Qed.

(** A checkpoint is written, and leaves no log. *)
Lemma checkpoint_written w c t f log : resting c t f log (stored w) -> room (stored w) ->
  exists w' f', writeCheckpoint w = (Ret tt, w') /\ resting (catalog (stored w')) (tables (stored w')) f' [] (stored w') /\
    localWALs w' = localWALs w /\ WAL.file (wal (stored w')) = None.
Proof.
  intros (h & tp & Hr & Hk) Hroom. destruct (law_checkpoint h tp c t f log _ Hr Hk Hroom) as (Hp & [[hc c'] t'] & d0 & Hrun).
  destruct (writeCheckpoint_run fresh fresh_size junk version catalogW tablesW emptyCatalog noTables catalogChunks tablesChunks
    catalogChunks_bytes tablesChunks_bytes checkpointTables h tp c t f log _ hc c' t' d0 Hr Hp Hrun)
    as (d' & h' & tp' & f' & n & Hw & _ & _ & _ & Hf & Hc & Ht & Hv & _ & _ & Hr').
  exists (mk_store d' (localWALs w)), f'. split; [|split; [|by split]].
  - unfold writeCheckpoint, storage, durable_storage, on_store. by rewrite Hw.
  - cbn [stored]. subst c' t'. exists h', tp'. split; [done|]. by eapply law_checkpointed.
Qed.
End logs.
End facts.
Arguments knows {Cat St _ fresh version catalogW tablesW emptyCatalog noTables catalogChunks tablesChunks checkpointTables _}.
Arguments room {Cat St _ fresh version catalogW tablesW emptyCatalog noTables catalogChunks tablesChunks checkpointTables _}.
Arguments law_cleanUp {Cat St _ fresh version catalogW tablesW emptyCatalog noTables catalogChunks tablesChunks checkpointTables _}.
Arguments law_localStorage_commit {Cat St _ fresh version catalogW tablesW emptyCatalog noTables catalogChunks tablesChunks checkpointTables _}.
Arguments law_localStorage_rollback {Cat St _ fresh version catalogW tablesW emptyCatalog noTables catalogChunks tablesChunks checkpointTables _}.
Arguments law_undoBuffer_commit {Cat St _ fresh version catalogW tablesW emptyCatalog noTables catalogChunks tablesChunks checkpointTables _}.
Arguments law_undoBuffer_rollback {Cat St _ fresh version catalogW tablesW emptyCatalog noTables catalogChunks tablesChunks checkpointTables _}.
