(* ===== verification/DurableHistory.v ===== *)
(** Histories of a database: what the connections do through the transaction manager to
    the storage of [DurableStorage.v], the events of that, and that at any time the log
    on disk is what the events say. *)
From stdpp Require Import gmap relations.
From S2P Require Import Prelude Effects Serializer VersionInfo Transaction FreeSpaceManager InMemFileWriter TransactionManager TransactionSpec Decoder.
From S2P Require Import BufferedFile BufferedFileFacts WALRecord WAL WALFacts WALReplayer WALReplayerFacts WALHistory ShadowFile Checkpointer.
From S2P Require Import CheckpointerState CheckpointerRecovery CheckpointerSpec DurableStorage.
Import Transaction TransactionManager.
Local Open Scope Z_scope.

(** ** Events *)

Section events.
Context {Cat St E P V : Type}.
Abbreviation record := (WALRecord.t E P V).

Inductive event :=
| EBegin (id startTS : transaction_t)
| ELog (id : transaction_t) (r : record)
| ECommit (id commitTS : transaction_t)
| ECheckpoint (c : Cat) (t : St).

(** What transaction [id] has logged. *)
Definition body (id : transaction_t) (evs : list event) : list record :=
  flat_map (fun e => match e with ELog i r => if i =? id then [r] else [] | _ => [] end) evs.

Definition transaction_of (id : transaction_t) (evs : list event) : list record :=
  WALRecord.BeginTransactionRecord :: body id evs ++ [WALRecord.CommitRecord].

(** The transactions that have committed since the last checkpoint, in the order of
    their commits, each with what it had logged until then; before the events they were
    [ts]. *)
Fixpoint committed_since (ts : list (list record)) (past evs : list event) : list (list record) :=
  match evs with
  | [] => ts
  | e :: evs =>
      let ts := match e with ECommit id _ => ts ++ [transaction_of id past] | ECheckpoint _ _ => [] | _ => ts end in
      committed_since ts (past ++ [e]) evs
  end.
Definition durable_transactions (ts : list (list record)) (evs : list event) : list (list record) := committed_since ts [] evs.

(** What the last checkpoint has written. *)
Definition last_checkpoint (c : Cat) (t : St) (evs : list event) : Cat * St :=
  foldl (fun p e => match e with ECheckpoint c t => (c, t) | _ => p end) (c, t) evs.

(** The events of the transaction manager ([TransactionSpec.v]). *)
Definition manager_events (evs : list event) : list TransactionSpec.event :=
  flat_map (fun e => match e with EBegin id st => [TransactionSpec.EBegin id st] | ECommit id ts => [TransactionSpec.ECommit id ts] | _ => [] end) evs.

Lemma body_snoc id evs e : body id (evs ++ [e]) = body id evs ++ match e with ELog i r => if i =? id then [r] else [] | _ => [] end.
Proof. unfold body. rewrite flat_map_app. cbn. by rewrite app_nil_r. Qed.

Lemma committed_since_snoc ts past evs e : committed_since ts past (evs ++ [e]) =
  match e with ECommit id _ => committed_since ts past evs ++ [transaction_of id (past ++ evs)] | ECheckpoint _ _ => [] | _ => committed_since ts past evs end.
Proof.
  revert ts past. induction evs as [|e' evs IH]; intros ts past; cbn [app committed_since].
  - rewrite app_nil_r. by destruct e.
  - rewrite IH. by rewrite <-app_assoc.
Qed.

Lemma durable_snoc ts evs e : durable_transactions ts (evs ++ [e]) =
  match e with ECommit id _ => durable_transactions ts evs ++ [transaction_of id evs] | ECheckpoint _ _ => [] | _ => durable_transactions ts evs end.
Proof. unfold durable_transactions. rewrite committed_since_snoc. done. Qed.

Lemma last_checkpoint_snoc c t evs e : last_checkpoint c t (evs ++ [e]) = match e with ECheckpoint c t => (c, t) | _ => last_checkpoint c t evs end.
Proof. unfold last_checkpoint. rewrite foldl_app. done. Qed.

Lemma manager_events_app a b : manager_events (a ++ b) = manager_events a ++ manager_events b.
Proof. apply flat_map_app. Qed.

Lemma body_fresh id evs : (forall i r, ELog i r ∈ evs -> i <> id) -> body id evs = [].
Proof.
  induction evs as [|e evs IH]; intros Hne; [done|]. unfold body in *. cbn [flat_map]. rewrite IH by (intros i r Hin; apply (Hne i r); by right).
  destruct e as [|i r| |]; try done. rewrite (proj2 (Z.eqb_neq i id)); [done|]. apply (Hne i r). by left.
Qed.
End events.
Arguments event : clear implicits.

(** ** Steps *)

Section history.
Context {Cat St E P V : Type} `{!Engine Cat St}.
Abbreviation db := (db Cat St).
Abbreviation store := (store Cat St).
Abbreviation record := (WALRecord.t E P V).
Abbreviation event := (event Cat St E P V).
Context (entry : wire E) (property : wire P) (vector : wire V).
Context (chunks : record -> list bytes) (threshold : Z).
Context (fresh : bytes) (junk : Z) (version : string) (catalogW : wire Cat) (tablesW : Cat -> wire St) (emptyCatalog : Cat) (noTables : St).
Context (catalogChunks : Cat -> list bytes) (tablesChunks : Cat -> St -> list bytes).
Context (checkpointTables : Cat -> St -> action (bool * Cat * St)) (rollbackTables : St -> St).
Context `{!EngineLaws fresh version catalogW tablesW emptyCatalog noTables catalogChunks tablesChunks checkpointTables}.
Context (config : Config).
Abbreviation ser := (WALRecord.serialize entry property vector).
Abbreviation ser_all := (ser_all entry property vector).
Abbreviation good := (good entry property vector).
Abbreviation framed := (framed entry property vector).
Abbreviation resting := (resting_with version catalogW tablesW emptyCatalog noTables knows).
Abbreviation quiet := (quiet_with version catalogW tablesW emptyCatalog noTables knows).
Abbreviation local_has := (local_has entry property vector threshold).
Abbreviation manager := (TransactionManager.t store).
#[local] Instance storage : Storage store :=
  durable_storage chunks threshold fresh junk version catalogChunks tablesChunks checkpointTables rollbackTables.
Implicit Types (s : manager) (evs : list event) (id : transaction_t).

Abbreviation db_of s := (stored (world s)).

Definition checkpoint_event s : event := ECheckpoint (catalog (db_of s)) (tables (db_of s)).

(** When a commit checkpoints, the tables find room. *)
Definition commits_in_room id s : Prop := forall x w w1, find_txn (activeTransactions s) id = Some x -> cleanUp (world s) = (Ret tt, w) ->
  storage_commit config x id (lastTimestamp s + 1) w = (Ret tt, w1) -> room (stored w1).

(** What the connections do: the functions of the manager with any outcome, records of
    active writers that stay below the threshold of an early flush, whatever else the
    engine does, and marks on a transaction. Below the limits of the counters. *)
Inductive dstep : manager * list event -> manager * list event -> Prop :=
| d_begin ty s evs id s' x :
    ty = READ_ONLY \/ ty = WRITE -> lastTransactionID s + 1 < INVALID_TRANSACTION ->
    beginTransaction config ty s = (Ret id, s') -> find_txn (activeTransactions s') id = Some x ->
    dstep (s, evs) (s', evs ++ [EBegin id (startTS x)])
| d_refused ty s evs e s' :
    ty = READ_ONLY \/ ty = WRITE -> lastTransactionID s + 1 < INVALID_TRANSACTION ->
    beginTransaction config ty s = (Throw e, s') -> dstep (s, evs) (s', evs)
| d_log id r x s evs s' :
    find_txn (activeTransactions s) id = Some x -> type x = WRITE -> good r ->
    size (ser_all (WALRecord.BeginTransactionRecord :: body id evs ++ [r])) < threshold ->
    on_world (logRecord chunks id r) s = (Ret tt, s') -> dstep (s, evs) (s', evs ++ [ELog id r])
| d_engine m s evs r s' : quiet m -> on_world (on_store m) s = (r, s') -> dstep (s, evs) (s', evs)
| d_mark id f s evs : (forall x, key (f x) = key x) -> dstep (s, evs) (changed_txn id f s, evs)
| d_commit id s evs r s' :
    lastTimestamp s + 1 < START_TRANSACTION_ID -> u64 (catalogVersion (db_of s) + 1) <> 0 -> commits_in_room id s ->
    commit config id s = (r, s') -> r <> Undef ->
    dstep (s, evs) (s', evs ++ if writes s id && gone s' id then
      ECommit id (lastTimestamp s') :: match WAL.file (wal (db_of s')) with None => [checkpoint_event s'] | Some _ => [] end else [])
| d_rollback id s evs r s' : rollback id s = (r, s') -> r <> Undef -> dstep (s, evs) (s', evs)
| d_checkpoint s evs r s' : room (db_of s) -> checkpoint config s = (r, s') ->
    dstep (s, evs) (s', evs ++ match r with Ret _ => [checkpoint_event s'] | _ => [] end).

(** ** The invariant *)

Context (c0 : Cat) (t0 : St) (ts0 : list (list record)).
Abbreviation ckpt evs := (last_checkpoint c0 t0 evs).
Abbreviation durable evs := (durable_transactions ts0 evs).

Definition at_rest_with evs (d : db) : Prop := exists f, resting (ckpt evs).1 (ckpt evs).2 f (ser_all (concat (durable evs))) d.

(** The active writers have logged their events. *)
Definition locals_ok evs (ks : list (TransactionType * transaction_t * transaction_t)) (w : store) : Prop :=
  forall k, k ∈ ks -> k.1.1 = WRITE -> local_has (key_id k) (WALRecord.BeginTransactionRecord :: body (key_id k) evs) w.

Record dinv s evs : Prop := {
  di_manager : inv config s (manager_events evs);
  di_types : forall k, k ∈ keys s -> k.1.1 <> RECOVERY;
  di_rest : at_rest_with evs (db_of s);
  di_locals : locals_ok evs (keys s) (world s);
  di_good : forall id r, ELog id r ∈ evs -> good r /\ id <= lastTransactionID s;
  di_framed : Forall framed (durable evs);
}.

Lemma dinv_init f0 d0 : resting c0 t0 f0 (ser_all (concat ts0)) d0 -> Forall framed ts0 -> dinv (init (mk_store d0 ∅)) [].
Proof.
  intros Hr Hf. split; [apply inv_init|by intros k ?%not_elem_of_nil|by exists f0|by intros k ?%not_elem_of_nil|by intros id r ?%not_elem_of_nil|done].
Qed.

(** Transactions may leave, and the database change without the log. *)
Lemma dinv_quiet s s' evs : dinv s evs -> inv config s' (manager_events evs) -> (forall k, k ∈ keys s' -> k ∈ keys s) ->
  lastTransactionID s <= lastTransactionID s' -> at_rest_with evs (db_of s') -> localWALs (world s') = localWALs (world s) -> dinv s' evs.
Proof.
  intros [H1 H2 H3 H4 H5 H6] Hi Hk Hl Hr Hw. split; [done| |done| | |done].
  - intros k Hin. by apply H2, Hk.
  - intros k Hin Hty. eapply local_has_same; [exact Hw|]. by apply H4; [apply Hk|].
  - intros id r Hin. destruct (H5 id r Hin). split; [done|lia].
Qed.

(** The same after an event that is neither a record nor the end of a transaction. *)
Lemma active_key s x : x ∈ activeTransactions s -> key x ∈ keys s.
Proof. apply list_elem_of_fmap_2. Qed.

Lemma find_key s id x : find_txn (activeTransactions s) id = Some x -> key x ∈ keys s /\ key_id (key x) = id.
Proof. intros [Hin Hid]%find_txn_Some. by split; [apply active_key|]. Qed.

Lemma body_good id s evs : dinv s evs -> Forall good (body id evs).
Proof.
  intros Hd. assert (forall id r, ELog id r ∈ evs -> good r) as Hg by (intros i r Hin; by apply (di_good _ _ Hd i r)). clear Hd.
  induction evs as [|e evs IH]; [done|]. unfold body in *. cbn [flat_map].
  assert (Forall good (flat_map (fun e => match e with ELog i r => if i =? id then [r] else [] | _ => [] end) evs)) as Hrest
    by (apply IH; intros i r Hin; apply (Hg i r); by right).
  destruct e as [|i r| |]; try done. destruct (i =? id); [|done]. constructor; [apply (Hg i r); by left|done].
Qed.

Lemma transaction_framed id s evs : dinv s evs -> framed (transaction_of id evs).
Proof. intros Hd. exists (body id evs). split; [done|by eapply body_good]. Qed.

(** ** Its steps keep it *)

Section steps.
Hypothesis chunks_serialize : forall r, concat (chunks r) = ser r.
Hypothesis fresh_size : size fresh = PAGE.
Hypothesis catalogChunks_bytes : forall c, concat (catalogChunks c) = write catalogW c.
Hypothesis tablesChunks_bytes : forall c t, concat (tablesChunks c t) = write (tablesW c) t.
Hypothesis config_on_disk : isInMemory config = false.
Hypothesis threshold_begin : size (ser WALRecord.BeginTransactionRecord) < threshold.

(** Every step is one of the manager. *)
Lemma dstep_step a b : dstep a b -> step config (a.1, manager_events a.2) (b.1, manager_events b.2).
Proof.
  intros [ty s evs id s' x Hty Hmax Hrun Hf|ty s evs e s' Hty Hmax Hrun|id r x s evs s' Hx Hty Hg Hsz Hrun|m s evs r s' Hq Hrun|id f s evs Hf
    |id s evs r s' Hts Hv Hroom Hrun Hr|id s evs r s' Hrun Hr|s evs r s' Hroom Hrun]; cbn [fst snd]; rewrite ?manager_events_app.
  - by eapply step_begin.
  - by eapply step_begin_fail.
  - cbn. rewrite app_nil_r. apply step_work. pose proof (keeps_on_world (logRecord chunks id r) s) as Hk. by rewrite Hrun in Hk.
  - apply step_work. pose proof (keeps_on_world (on_store m) s) as Hk. by rewrite Hrun in Hk.
  - apply step_work. by apply (keeps_update id f).
  - match goal with |- step _ _ (_, _ ++ ?x) => replace x with (if writes s id && gone s' id then [TransactionSpec.ECommit id (lastTimestamp s')] else []) end;
      [by eapply step_commit|]. by destruct (writes s id && gone s' id), (WAL.file (wal (db_of s'))).
  - by eapply step_rollback.
  - match goal with |- step _ _ (_, _ ++ ?x) => replace x with (@nil TransactionSpec.event) by (by destruct r) end. rewrite app_nil_r. by eapply step_checkpoint.
Qed.

Lemma begin_run ty s evs o s' : dinv s evs -> ty = READ_ONLY \/ ty = WRITE -> beginTransaction config ty s = (o, s') ->
  (exists e, o = Throw e /\ s' = s) \/
  (o = Ret (new_id s) /\ exists w', s' = joined ty s w' /\ stored w' = db_of s /\
     (ty = WRITE -> local_has (new_id s) [WALRecord.BeginTransactionRecord] w') /\ forall i, i <> new_id s -> forall rs, local_has i rs (world s) -> local_has i rs w').
Proof.
  intros Hd Hty Hrun. destruct (di_rest _ _ Hd) as [f Hr]. destruct (resting_log _ _ _ _ _ _ _ _ _ _ _ _ _ _ Hr) as [Hdisk Hlog].
  destruct Hty as [-> | ->]; cbn [beginTransaction] in Hrun.
  - right. injection Hrun as <- <-. split; [done|]. exists (world s). by destruct s.
  - unfold mbind, M_bind at 1 in Hrun. unfold get at 1 in Hrun. destruct (_ && _); [left; injection Hrun as <- <-; by eexists|].
    pose proof (eq_trans (eq_sym (start_run config WRITE s)) Hrun) as Hrun'. clear Hrun. rename Hrun' into Hrun. unfold shouldLogToWAL, isWriteTransaction in Hrun. rewrite config_on_disk in Hrun. cbn in Hrun.
    destruct (begin_logged entry property vector chunks threshold chunks_serialize (new_id s) (world s) _ Hdisk Hlog threshold_begin) as (w' & Hb & Hs & Hl & Ho).
    right. rewrite Hb in Hrun. injection Hrun as <- <-. split; [done|]. by exists w'.
Qed.

Lemma left_gone id s : gone (left_by id s) id = true.
Proof.
  unfold gone, left_by. cbn. induction (activeTransactions s) as [|x l IH]; [done|]. cbn.
  destruct (ID x =? id) eqn:Hx; cbn; [done|]. by rewrite Hx.
Qed.

Lemma without_other id l k : k ∈ without id l -> k ∈ l /\ key_id k <> id.
Proof.
  intros Hin. split; [by eapply without_sub|]. apply list_elem_of_In, List.filter_In in Hin as [_ Hne]. by apply Z.eqb_neq, negb_true_iff.
Qed.

(** A checkpoint of the manager times out, or is written and leaves no log. *)
Lemma checkpoint_effect s c t f log r s' : resting c t f log (db_of s) -> room (db_of s) -> checkpoint_result s = (r, s') ->
  (s' = s /\ exists e, r = Throw e) \/
  (r = Ret tt /\ activeTransactions s' = activeTransactions s /\ localWALs (world s') = localWALs (world s) /\ WAL.file (wal (db_of s')) = None /\
     exists f', resting (catalog (db_of s')) (tables (db_of s')) f' [] (db_of s')).
Proof.
  intros Hr Hroom. unfold checkpoint_result. destruct (hasNoActiveTransactions s); [|intros [= <- <-]; left; eauto].
  destruct (checkpoint_written chunks threshold fresh junk version catalogW tablesW emptyCatalog noTables catalogChunks tablesChunks checkpointTables rollbackTables
    fresh_size catalogChunks_bytes tablesChunks_bytes (world s) c t f log Hr Hroom) as (w' & f' & Hw & Hr' & Hl & Hf).
  change (DurableStorage.storage chunks threshold fresh junk version catalogChunks tablesChunks checkpointTables rollbackTables) with storage in Hw. rewrite Hw.
  intros [= <- <-]. right. do 4 (split; [done|]). by exists f'.
Qed.

Lemma file_some c t f log (d : db) : resting c t f log d -> log <> [] -> is_Some (WAL.file (wal d)).
Proof.
  intros Hr Hne. destruct (resting_log _ _ _ _ _ _ _ _ _ _ _ _ _ _ Hr) as [_ Hl]. unfold logged, WAL.file in *.
  destruct (WAL.writer (wal d)); [by eexists|]. by destruct (WAL.walFile (wal d)); [eexists|].
Qed.

(** What a commit has done that ended the transaction [id]. *)
Definition commit_done id s evs s' : Prop :=
  writes s id && gone s' id = true /\ (forall k, k ∈ keys s' -> k ∈ keys s /\ key_id k <> id) /\
  (exists l, localWALs (world s') = <[id := l]> (localWALs (world s))) /\
  match WAL.file (wal (db_of s')) with
  | None => exists f, resting (catalog (db_of s')) (tables (db_of s')) f [] (db_of s')
  | Some _ => exists f, resting (ckpt evs).1 (ckpt evs).2 f (ser_all (concat (durable evs ++ [transaction_of id evs]))) (db_of s')
  end.

(** The records are in the log; a checkpoint may follow. *)
Lemma ended_effect id x s evs w1 f l (due : bool) r s' : find_txn (activeTransactions s) id = Some x -> type x = WRITE ->
  resting (ckpt evs).1 (ckpt evs).2 f (ser_all (concat (durable evs ++ [transaction_of id evs]))) (stored w1) ->
  localWALs w1 = <[id := l]> (localWALs (world s)) -> room (stored w1) ->
  (if due then match checkpoint_result (TransactionSpec.committed id s w1) with (Ret _, s2) => (Ret tt, set_num 0 s2) | r => r end
   else (Ret tt, TransactionSpec.committed id s w1)) = (r, s') -> commit_done id s evs s'.
Proof.
  intros Hx Hty Hr1 L1 Hroom Hrun. assert (writes s id = true) as Hw by (unfold writes; rewrite Hx; unfold is_writing; cbn; by rewrite Hty).
  assert (forall s2, activeTransactions s2 = activeTransactions (TransactionSpec.committed id s w1) ->
    writes s id && gone s2 id = true /\ forall k, k ∈ keys s2 -> k ∈ keys s /\ key_id k <> id) as Hleft.
  { intros s2 Ha. assert (gone s2 id = gone (TransactionSpec.committed id s w1) id) as -> by (unfold gone; by rewrite Ha).
    unfold TransactionSpec.committed. rewrite left_gone, Hw. split; [done|].
    assert (keys s2 = without id (keys s)) as -> by (unfold keys at 1; rewrite Ha; exact (left_by_keys id s)). intros k. apply without_other. }
  assert (is_Some (WAL.file (wal (stored w1)))) as [fl Hfl].
  { apply (file_some _ _ _ _ _ Hr1). rewrite concat_app, (ser_all_app entry property vector). intros [_ Hn]%app_eq_nil. done. }
  assert (s' = TransactionSpec.committed id s w1 -> commit_done id s evs s') as Hstays.
  { intros ->. destruct (Hleft _ eq_refl) as [H1 H2]. split; [done|]. split; [done|]. split; [by exists l|].
    change (db_of (TransactionSpec.committed id s w1)) with (stored w1). rewrite Hfl. by exists f. }
  destruct due; [|injection Hrun as <- <-; by apply Hstays].
  destruct (checkpoint_result (TransactionSpec.committed id s w1)) as [r2 s2] eqn:Ec.
  destruct (checkpoint_effect (TransactionSpec.committed id s w1) _ _ _ _ _ _ Hr1 Hroom Ec) as [(-> & e & ->)|(-> & Ha & L2 & Hf & f' & Hr2)];
    injection Hrun as <- <-; [by apply Hstays|].
  destruct (Hleft (set_num 0 s2) Ha) as [H1 H2]. split; [done|]. split; [done|]. split; [exists l; cbn; by rewrite L2|].
  change (db_of (set_num 0 s2)) with (db_of s2). rewrite Hf. by exists f'.
Qed.

(** What a commit does, to a transaction that it ends and to the others. *)
Lemma commit_effect id s evs r s' : dinv s evs -> lastTimestamp s + 1 < START_TRANSACTION_ID -> u64 (catalogVersion (db_of s) + 1) <> 0 ->
  commits_in_room id s -> commit config id s = (r, s') -> r <> Undef ->
  (writes s id && gone s' id = false /\ at_rest_with evs (db_of s') /\ localWALs (world s') = localWALs (world s)) \/
  commit_done id s evs s'.
Proof.
  intros Hd Hts Hv Hroom Hrun Hr. destruct (di_rest _ _ Hd) as [f Hrest]. pose proof (di_manager _ _ Hd) as Hinv.
  destruct (cleanUp (world s)) as [o w] eqn:Ecl. edestruct quiet_run as (Hrw & Lw & Vw); [apply law_cleanUp|exact Ecl|exact Hrest|].
  assert (forall s1, keys s1 = keys s -> writes s id && gone s1 id = false) as Hstay.
  { intros s1 Hk. destruct (writes s id && gone s1 id) eqn:Eb; [|done]. apply andb_prop in Eb as [E1 E2].
    destruct (commit_event config id s s1 _ Hinv E1 E2 Hk). }
  pose proof Hrun as Hrun0. unfold commit in Hrun0. unfold mbind, M_bind at 1 in Hrun0. rewrite (on_world_run _ _ _ _ Ecl) in Hrun0.
  destruct o as [[]|e|]; [|left; injection Hrun0 as <- <-; split; [by apply Hstay|split; [by exists f|done]]|by injection Hrun0 as <- <-].
  unfold M_bind at 1 in Hrun0. unfold deref in Hrun0. cbn [activeTransactions set_world] in Hrun0.
  destruct (find_txn (activeTransactions s) id) as [x|] eqn:Hx; [clear Hrun0|by injection Hrun0 as <- <-].
  destruct (find_key s id x Hx) as [Hk Hid]. destruct (inv_keys _ _ _ Hinv _ Hk) as (_ & [Hty|[Hty|Hty]] & _); [| |by destruct (di_types _ _ Hd _ Hk)].
  - rewrite (commit_reading_run config id x s w Hx Hty Ecl) in Hrun. injection Hrun as <- <-. left. split; [|split; [by exists f|done]].
    unfold writes. rewrite Hx. unfold is_writing. by rewrite Hty.
  - pose proof (inv_lastTS _ _ _ Hinv). pose proof (inv_timeout _ _ _ Hinv) as Hto.
    rewrite (commit_writing_run config id x s w Hx (or_introl Hty)) in Hrun;
      [|lia|unfold START_TRANSACTION_ID in *; lia|rewrite Hto; unfold DEFAULT_CHECKPOINT_WAIT_TIMEOUT_IN_MICROS; lia|done].
    pose proof (di_locals _ _ Hd _ Hk Hty) as Hl. rewrite Hid in Hl.
    destruct (storage_commit config x id (lastTimestamp s + 1) w) as [o w1] eqn:Esc.
    assert (o <> Undef) as Ho by (intros ->; by injection Hrun as <- <-).
    apply (local_has_same entry property vector threshold _ _ _ _ Lw) in Hl.
    destruct (storage_commit_run entry property vector chunks threshold fresh junk version catalogW tablesW emptyCatalog noTables catalogChunks tablesChunks
      checkpointTables rollbackTables chunks_serialize config id x _ w _ _ _ f _ o w1 config_on_disk Hty Hrw Hl ltac:(by rewrite Vw) Esc Ho)
      as [(e & -> & Hr1 & L1)|(-> & Hr1 & l & L1)].
    + left. injection Hrun as <- <-. split; [|split; [by exists f|by rewrite <-Lw]]. apply Hstay.
      by apply (keys_changed id (with_commitTS (lastTimestamp s + 1)) (set_timestamp (lastTimestamp s + 1) s)).
    + right. rewrite <-(ser_all_app entry property vector) in Hr1.
      assert (concat (durable evs) ++ (WALRecord.BeginTransactionRecord :: body id evs) ++ [WALRecord.CommitRecord] =
        concat (durable evs ++ [transaction_of id evs])) as Hts' by (rewrite concat_app; cbn; by rewrite app_nil_r). rewrite Hts' in Hr1.
      eapply ended_effect; [exact Hx|exact Hty|exact Hr1|by rewrite L1, Lw|by eapply Hroom|exact Hrun].
Qed.

(** Programs that change the database only as the engine does. *)
Definition calm {A} (m : M manager A) : Prop := forall s c t f log, resting c t f log (db_of s) ->
  resting c t f log (db_of (m s).2) /\ localWALs (world (m s).2) = localWALs (world s).

Lemma calm_same {A} (m : M manager A) : (forall s, world (m s).2 = world s) -> calm m.
Proof. intros Hm s c t f log. by rewrite Hm. Qed.

Lemma calm_quiet m : quiet m -> calm (on_world (on_store m)).
Proof.
  intros Hq s c t f log Hr. unfold on_world. destruct (on_store m (world s)) as [r w] eqn:Em.
  edestruct quiet_run as (Hr' & Hl & _); [exact Hq|exact Em|exact Hr|]. by split.
Qed.

Lemma calm_bind {A B} (m : M manager A) (k : A -> M manager B) : calm m -> (forall a, calm (k a)) -> calm (mbind k m).
Proof.
  intros Hm Hk s c t f log Hr. destruct (Hm s c t f log Hr) as [Hr' Hl]. unfold mbind, M_bind. destruct (m s) as [[a|e|] s']; [|done..].
  cbn in *. destruct (Hk a s' c t f log Hr') as [? ->]. by rewrite <-Hl.
Qed.

Lemma calm_rollback id : calm (rollback id).
Proof.
  assert (forall i, calm (clearTransactionNoLock i)) as Hclear.
  { intros i. apply calm_same. intros s. unfold clearTransactionNoLock, mbind, M_bind, get, lift, modify. by destruct (existsb _ _). }
  unfold rollback. apply calm_bind; [apply calm_quiet, law_cleanUp|intros _]. apply calm_bind; [apply calm_same; intros s; unfold deref; by destruct find_txn|intros x].
  assert (calm (Transaction_rollback id;; clearTransactionNoLock (ID x))) as Hwrite.
  { apply calm_bind; [|intros _; apply Hclear]. unfold Transaction_rollback. apply calm_bind; [apply calm_quiet, law_localStorage_rollback|intros _].
    apply calm_bind; [apply calm_quiet, law_undoBuffer_rollback|intros _]. by apply calm_same. }
  destruct (type x); [apply Hclear|exact Hwrite| | |exact Hwrite]; by apply calm_same.
Qed.

(** An event that ends no transaction and is no checkpoint. *)
Definition goes_on (e : event) : Prop := match e with EBegin _ _ | ELog _ _ => True | _ => False end.

Lemma rest_goes_on evs e d : goes_on e -> at_rest_with evs d -> at_rest_with (evs ++ [e]) d.
Proof. unfold at_rest_with. rewrite last_checkpoint_snoc, durable_snoc. by destruct e. Qed.

Lemma framed_goes_on evs e : goes_on e -> Forall framed (durable evs) -> Forall framed (durable (evs ++ [e])).
Proof. rewrite durable_snoc. by destruct e. Qed.

Lemma begin_preserves ty s evs id s' x : dinv s evs -> ty = READ_ONLY \/ ty = WRITE -> lastTransactionID s + 1 < INVALID_TRANSACTION ->
  beginTransaction config ty s = (Ret id, s') -> inv config s' (manager_events (evs ++ [EBegin id (startTS x)])) -> dinv s' (evs ++ [EBegin id (startTS x)]).
Proof.
  intros Hd Hty Hmax Hrun Hinv'. pose proof (di_manager _ _ Hd) as Hinv. pose proof (inv_lastID _ _ _ Hinv) as HL.
  destruct (begin_run ty s evs _ s' Hd Hty Hrun) as [(e & He & _)|(Heq & w' & -> & Hs & Hl & Ho)]; [done|]. injection Heq as ->.
  assert (new_id s = lastTransactionID s + 1) as Hid
    by (unfold new_id, u64; apply wrap_small; unfold INVALID_TRANSACTION, START_TRANSACTION_ID in *; lia).
  split; [done| | | | |by apply framed_goes_on, Hd].
  - rewrite joined_keys. intros k [Hk| ->%list_elem_of_singleton]%elem_of_app; [by apply (di_types _ _ Hd)|]. by destruct Hty as [-> | ->].
  - apply rest_goes_on; [done|]. change (db_of (joined ty s w')) with (stored w'). rewrite Hs. apply Hd.
  - intros k Hk Hkty. change (world (joined ty s w')) with w'. rewrite body_snoc, app_nil_r. rewrite joined_keys in Hk. apply elem_of_app in Hk as [Hk| ->%list_elem_of_singleton].
    + apply Ho; [|by apply (di_locals _ _ Hd)]. destruct (inv_keys _ _ _ Hinv k Hk) as (? & _). lia.
    + change (key_id (key (started ty s))) with (new_id s). rewrite body_fresh; [by apply Hl|]. intros i r Hin ->.
      destruct (di_good _ _ Hd _ _ Hin). lia.
  - intros i r [Hin|Hin%list_elem_of_singleton]%elem_of_app; [|done]. destruct (di_good _ _ Hd i r Hin). split; [done|]. cbn. lia.
Qed.

Lemma log_preserves id r x s evs s' : dinv s evs -> find_txn (activeTransactions s) id = Some x -> type x = WRITE -> good r ->
  size (ser_all (WALRecord.BeginTransactionRecord :: body id evs ++ [r])) < threshold -> on_world (logRecord chunks id r) s = (Ret tt, s') ->
  inv config s' (manager_events (evs ++ [ELog id r])) -> dinv s' (evs ++ [ELog id r]).
Proof.
  intros Hd Hx Hty Hg Hsz Hrun Hinv'. destruct (find_key s id x Hx) as [Hk Hid].
  pose proof (di_locals _ _ Hd _ Hk Hty) as Hl. rewrite Hid in Hl. destruct (di_rest _ _ Hd) as [f Hr].
  destruct (resting_log _ _ _ _ _ _ _ _ _ _ _ _ _ _ Hr) as [Hdisk Hlog].
  destruct (log_logged entry property vector chunks threshold chunks_serialize id _ r (world s) _ (proj1 Hg) Hdisk Hlog Hl Hsz) as (w' & Hw & Hs & Hl' & Ho).
  unfold on_world in Hrun. rewrite Hw in Hrun. injection Hrun as <-. split; [done|apply Hd| | | |by apply framed_goes_on, Hd].
  - apply rest_goes_on; [done|]. change (db_of (set_world w' s)) with (stored w'). rewrite Hs. by exists f.
  - intros k Hin Hkty. change (world (set_world w' s)) with w'. rewrite body_snoc. destruct (Z.eqb_spec id (key_id k)) as [<-|Hne]; [exact Hl'|].
    rewrite app_nil_r. apply Ho; [congruence|]. by apply (di_locals _ _ Hd).
  - intros i r' [Hin|[= -> ->]%list_elem_of_singleton]%elem_of_app; [by apply (di_good _ _ Hd)|]. split; [done|].
    destruct (inv_keys _ _ _ (di_manager _ _ Hd) _ Hk) as (? & _). change (lastTransactionID (set_world w' s)) with (lastTransactionID s). lia.
Qed.

(** A transaction has committed, and perhaps a checkpoint been written. *)
Lemma commit_preserves id s evs r s' : dinv s evs -> lastTimestamp s + 1 < START_TRANSACTION_ID -> u64 (catalogVersion (db_of s) + 1) <> 0 ->
  commits_in_room id s -> commit config id s = (r, s') -> r <> Undef ->
  let evs' := evs ++ if writes s id && gone s' id then
    ECommit id (lastTimestamp s') :: match WAL.file (wal (db_of s')) with None => [checkpoint_event s'] | Some _ => [] end else [] in
  inv config s' (manager_events evs') -> dinv s' evs'.
Proof.
  intros Hd Hts Hv Hroom Hrun Hr evs' Hinv'. destruct (commit_cases _ _ _ _ _ Hrun Hr) as (HL & _ & Hkeys).
  destruct (commit_effect id s evs r s' Hd Hts Hv Hroom Hrun Hr) as [(Hb & Hrest & Hl)|(Hb & Hk & [l Hl] & Hrest)]; unfold evs' in *; rewrite Hb in *; clear Hb evs'.
  - rewrite app_nil_r in *. apply (dinv_quiet s); [done|done| |lia|done|done].
    intros k. destruct Hkeys as [(_ & _ & -> & _)|(x & _ & -> & _)]; [done|apply without_sub].
  - set (e := ECommit id (lastTimestamp s')) in *. set (more := match WAL.file (wal (db_of s')) with None => [checkpoint_event s'] | Some _ => [] end) in *.
    assert (forall i, body i (evs ++ e :: more) = body i evs) as Hbody.
    { intros i. unfold body. rewrite flat_map_app. unfold more. destruct (WAL.file _); cbn; by rewrite app_nil_r. }
    split; [done| | | | |].
    + intros k Hin. apply (di_types _ _ Hd). by apply Hk.
    + rewrite cons_middle, app_assoc. unfold at_rest_with, more. destruct (WAL.file (wal (db_of s'))).
      * rewrite app_nil_r, last_checkpoint_snoc, durable_snoc. exact Hrest.
      * rewrite last_checkpoint_snoc, durable_snoc. exact Hrest.
    + intros k Hin Hty. destruct (Hk k Hin) as [Hin0 Hne]. rewrite Hbody. destruct (di_locals _ _ Hd k Hin0 Hty) as (l0 & Hl0 & Hh).
      exists l0. split; [|done]. rewrite Hl. by rewrite lookup_insert_ne.
    + intros i r' [Hin|Hin]%elem_of_app; [destruct (di_good _ _ Hd i r' Hin); split; [done|lia]|].
      unfold more in Hin. apply elem_of_cons in Hin as [Hin|Hin]; [done|]. destruct (WAL.file _); [by apply not_elem_of_nil in Hin|by apply list_elem_of_singleton in Hin].
    + rewrite cons_middle, app_assoc. unfold more. destruct (WAL.file _); rewrite ?app_nil_r, durable_snoc; [|by rewrite ?durable_snoc].
      apply Forall_app. split; [apply Hd|]. apply Forall_singleton. by eapply transaction_framed.
Qed.

Lemma checkpoint_preserves s evs r s' : dinv s evs -> room (db_of s) -> checkpoint config s = (r, s') ->
  let evs' := evs ++ match r with Ret _ => [checkpoint_event s'] | _ => [] end in inv config s' (manager_events evs') -> dinv s' evs'.
Proof.
  intros Hd Hroom Hrun evs' Hinv'. unfold checkpoint in Hrun. rewrite config_on_disk in Hrun. unfold mbind, M_bind in Hrun.
  rewrite checkpointNoLock_run in Hrun by (rewrite (inv_timeout _ _ _ (di_manager _ _ Hd)); unfold DEFAULT_CHECKPOINT_WAIT_TIMEOUT_IN_MICROS; lia).
  destruct (di_rest _ _ Hd) as [f Hr]. destruct (checkpoint_result s) as [o s1] eqn:Ec.
  destruct (checkpoint_effect s _ _ _ _ _ _ Hr Hroom Ec) as [(-> & e & ->)|(-> & Ha & Hl & _ & Hrest)]; injection Hrun as <- <-; unfold evs' in *; clear evs'.
  - rewrite app_nil_r in *. by apply (dinv_quiet s); [| | |apply Z.le_refl|exists f|].
  - assert (keys (set_num 0 s1) = keys s) as Hk by (unfold keys; cbn; by rewrite Ha).
    assert (lastTransactionID (set_num 0 s1) = lastTransactionID s) as HL.
    { revert Ec. unfold checkpoint_result. destruct (hasNoActiveTransactions s); [|by intros [= <-]].
      destruct (writeCheckpoint (world s)) as [[[]|e|] w]; [by intros [= <-]| |done]. destruct (checkpointer_rollback w) as [[[]|e'|] w']; done. }
    split; [done| | | | |].
    + rewrite Hk. apply Hd.
    + unfold at_rest_with. rewrite last_checkpoint_snoc, durable_snoc. exact Hrest.
    + rewrite Hk. intros k Hin Hty. rewrite body_snoc, app_nil_r. eapply local_has_same; [exact Hl|]. by apply (di_locals _ _ Hd).
    + intros i r' [Hin|Hin%list_elem_of_singleton]%elem_of_app; [|done]. rewrite HL. by apply (di_good _ _ Hd).
    + by rewrite durable_snoc.
Qed.

Lemma dstep_preserves a b : dstep a b -> dinv a.1 a.2 -> dinv b.1 b.2.
Proof.
  intros Hstep Hd. pose proof (step_preserves config _ _ (dstep_step _ _ Hstep) (di_manager _ _ Hd)) as Hinv'. cbn [fst snd] in Hinv'.
  destruct Hstep as [ty s evs id s' x Hty Hmax Hrun Hf|ty s evs e s' Hty Hmax Hrun|id r x s evs s' Hx Hty Hg Hsz Hrun|m s evs r s' Hq Hrun|id f s evs Hf
    |id s evs r s' Hts Hv Hroom Hrun Hr|id s evs r s' Hrun Hr|s evs r s' Hroom Hrun]; cbn [fst snd] in *.
  - by eapply begin_preserves.
  - by destruct (begin_run ty s evs _ s' Hd Hty Hrun) as [(e' & _ & ->)|(? & _)].
  - by eapply log_preserves.
  - unfold on_world in Hrun. destruct (on_store m (world s)) as [o w] eqn:Em. injection Hrun as <- <-. destruct (di_rest _ _ Hd) as [f Hr].
    edestruct quiet_run as (Hr' & Hl & _); [exact Hq|exact Em|exact Hr|]. by apply (dinv_quiet s); [| | |apply Z.le_refl|exists f|].
  - apply (dinv_quiet s); [done|done| |apply Z.le_refl|apply Hd|done]. by rewrite (keys_changed id f s).
  - by eapply commit_preserves.
  - destruct (di_rest _ _ Hd) as [f Hrest]. destruct (calm_rollback id s _ _ _ _ Hrest) as [Hr' Hl]. rewrite Hrun in Hr', Hl.
    apply rollback_cases in Hrun as (HL & _ & _ & Hk); [|done]. apply (dinv_quiet s); [done|done| |lia|by exists f|done].
    intros k. destruct Hk as [-> | ->]; [done|apply without_sub].
  - by eapply checkpoint_preserves.
Qed.

Lemma dreachable f0 d0 s evs : resting c0 t0 f0 (ser_all (concat ts0)) d0 -> Forall framed ts0 ->
  rtc dstep (init (mk_store d0 ∅), []) (s, evs) -> dinv s evs.
Proof.
  intros Hr Hf Hsteps. assert (dinv (init (mk_store d0 ∅), @nil event).1 (init (mk_store d0 ∅), @nil event).2) as H0 by (by eapply dinv_init).
  change (dinv (s, evs).1 (s, evs).2). induction Hsteps as [|a b c Hab _ IH]; [done|]. apply IH. by eapply dstep_preserves.
Qed.
End steps.
End history.
