(* ===== verification/DurableSpec.v ===== *)
(** What a database on disk promises: whatever the connections do through the
    transaction manager, what a transaction has committed is on disk, in the last
    checkpoint or in the log, in the order of the commits, and recovery finds it again,
    whatever a crash in a commit leaves of the log. *)
From stdpp Require Import gmap relations.
From S2P Require Import Prelude Effects Serializer VersionInfo Transaction FreeSpaceManager InMemFileWriter TransactionManager TransactionSpec Decoder.
From S2P Require Import BufferedFile BufferedFileFacts WALRecord WAL WALFacts WALReplayer WALReplayerFacts WALHistory WALSpec ShadowFile Checkpointer.
From S2P Require Import CheckpointerRun CheckpointerState CheckpointerRecovery CheckpointerSpec DurableStorage DurableHistory.
Import Transaction TransactionManager.
Local Open Scope Z_scope.

Section spec.
Context {Cat St E P V : Type} `{!Engine Cat St}.
Abbreviation db := (db Cat St).
Abbreviation record := (WALRecord.t E P V).
Context (entry : wire E) (property : wire P) (vector : wire V).
Context (chunks : record -> list bytes) (threshold : Z).
Context (fresh : bytes) (junk : Z) (version : string) (catalogW : wire Cat) (tablesW : Cat -> wire St) (emptyCatalog : Cat) (noTables : St).
Context (catalogChunks : Cat -> list bytes) (tablesChunks : Cat -> St -> list bytes).
Context (checkpointTables : Cat -> St -> action (bool * Cat * St)) (rollbackTables : St -> St).
Context `{!EngineLaws fresh version catalogW tablesW emptyCatalog noTables catalogChunks tablesChunks checkpointTables}.
Context (config : Config) (handlers : Recovery E P V db).
Context (chunks_serialize : forall r, concat (chunks r) = WALRecord.serialize entry property vector r) (fresh_size : size fresh = PAGE).
Context (catalogChunks_bytes : forall c, concat (catalogChunks c) = write catalogW c).
Context (tablesChunks_bytes : forall c t, concat (tablesChunks c t) = write (tablesW c) t).
Context (config_on_disk : isInMemory config = false).
Context (threshold_begin : size (WALRecord.serialize entry property vector WALRecord.BeginTransactionRecord) < threshold).
Abbreviation ser_all := (ser_all entry property vector).
Abbreviation framed := (framed entry property vector).
Abbreviation resting := (resting_with version catalogW tablesW emptyCatalog noTables knows).
Abbreviation ready := (ready version catalogW tablesW emptyCatalog noTables).
Abbreviation dstep := (dstep entry property vector chunks threshold fresh junk version catalogW tablesW emptyCatalog noTables catalogChunks tablesChunks
  checkpointTables rollbackTables config).
Abbreviation recover := (recover junk version catalogW tablesW emptyCatalog noTables entry property vector handlers).
Abbreviation open_world D sh c t f := (CheckpointerRecovery.mk_world D sh (Some (opened false 0 D None None c t f))).
Abbreviation db_of s := (stored (world s)).
#[local] Instance durable_storage : Storage (store Cat St) :=
  durable_storage chunks threshold fresh junk version catalogChunks tablesChunks checkpointTables rollbackTables.
#[local] Instance on_disk_recovery : Recovery E P V (CheckpointerRecovery.world Cat St) :=
  disk_recovery junk version catalogW tablesW emptyCatalog noTables false handlers.

(** A log on disk of nothing. *)
Lemma recover_empty lf D sh c t f : opens_as junk version catalogW tablesW emptyCatalog noTables D c t f -> content lf = [] ->
  recover (Some lf) D sh = (Ret tt, WALReplayer.mk None false (open_world D sh c t f)).
Proof.
  intros Ho Hlf. unfold CheckpointerSpec.recover, WALReplayer.replay. erewrite bind_run by done. cbn [WALReplayer.walFile]. rewrite Hlf.
  change (size [] =? 0) with true. cbv iota. erewrite bind_run by done. unfold WALReplayer.on_world. cbn [WALReplayer.world].
  by rewrite (read_opens junk version catalogW tablesW emptyCatalog noTables handlers D sh None c t f Ho).
Qed.


(** ** A crash in a commit *)

(** The log as a history with one active transaction. *)
Definition alone (ts : list (list record)) (id : Z) (kept : list record) : history := mk_history ts None {[id := kept]}.
Definition ended (ts : list (list record)) (id : Z) (kept : list record) : history := mk_history (ts ++ [kept ++ [WALRecord.CommitRecord]]) None (delete id {[id := kept]}).

Lemma alone_tracks ts id kept w l : on_disk w -> logged w (ser_all (concat ts)) -> holds_local l (ser_all kept) -> LocalWAL.flushThreshold l = Some threshold ->
  tracks entry property vector threshold (alone ts id kept) (mk_logs w {[id := l]}).
Proof.
  intros Hd Hl Hh Hth. split_and!; [done|unfold log_records; cbn; by rewrite app_nil_r|]. intros i. cbn [locals active alone].
  destruct (decide (i = id)) as [->|Hne]; [by rewrite !lookup_singleton_eq|by rewrite !lookup_singleton_ne].
Qed.

Lemma ended_tracks ts id kept w : on_disk w -> logged w (ser_all (concat (ts ++ [kept ++ [WALRecord.CommitRecord]]))) ->
  tracks entry property vector threshold (ended ts id kept) (mk_logs w ∅).
Proof.
  intros Hd Hl. split_and!; [done|unfold log_records; cbn; by rewrite app_nil_r|]. intros i. cbn [locals active ended].
  rewrite delete_singleton_eq, !lookup_empty. done.
Qed.

Lemma alone_well_formed ts id b : Forall framed ts -> Forall (good entry property vector) b ->
  well_formed entry property vector (alone ts id (WALRecord.BeginTransactionRecord :: b)) /\
  well_formed entry property vector (ended ts id (WALRecord.BeginTransactionRecord :: b)).
Proof.
  intros Hf Hb. split; split_and!; try done.
  - intros i kept. cbn [active alone]. intros [<- <-]%lookup_singleton_Some. by exists b.
  - cbn. apply Forall_app. split; [done|]. apply Forall_singleton. by exists b.
  - intros i kept. cbn [active ended]. rewrite delete_singleton_eq, lookup_empty. done.
Qed.

End spec.

(** ** Instances *)

(** The tables are a number that every commit increments and a checkpoint writes; the
    catalog never changes. *)
#[local] Instance counting_engine : Engine bool Z := {
  engine_cleanUp := mret tt;
  engine_localStorage_commit _ := modify (fun d => set_contents d (catalog d) ((tables d + 1) mod 2 ^ 32));
  engine_localStorage_rollback _ := mret tt;
  engine_undoBuffer_commit _ _ := mret tt;
  engine_undoBuffer_rollback _ := mret tt;
  engine_getUsageRatio _ := QArith_base.Qmake 0 1;
  engine_getBufferPoolSize _ := 0;
}.
Definition countingCheckpoint (c : bool) (t : Z) : action (bool * bool * Z) := Done (true, c, t).

Definition counting_knows (h : DatabaseHeader.t) (tp : list Z) (c : bool) (t : Z) (d : db bool Z) : Prop :=
  0 <= tables d < 2 ^ 32 /\ (catalogVersion d = 0 -> catalog d = c).
Abbreviation counting_ready := (ready build bool_wire (fun _ => u32_wire) false 0).
Abbreviation counting_quiet := (quiet_with build bool_wire (fun _ => u32_wire) false 0 counting_knows).

Lemma mret_quiet : counting_quiet (mret tt).
Proof. intros c t f log d r d' [= <- <-] Hr. done. Qed.

Lemma increment_quiet : counting_quiet (modify (fun d => set_contents d (catalog d) ((tables d + 1) mod 2 ^ 32))).
Proof.
  intros c t f log d r d' [= <- <-] (h & tp & Hr & Hk & Hc). pose proof Hr as (_ & Hd & Hl). split; [done|]. split; [done|]. exists h, tp. split.
  - by eapply ready_changed.
  - split; [|exact Hc]. apply Z.mod_pos_bound. lia.
Qed.

#[local] Program Instance counting_laws : EngineLaws zeros build bool_wire (fun _ => u32_wire) false 0 flagChunks pageChunks countingCheckpoint := {
  knows := counting_knows;
  room d := 3 * (FileHandle.numPages (dataFH d) + 1) + 6 < CheckpointerRun.LIMIT;
  law_cleanUp := mret_quiet;
  law_localStorage_commit _ := increment_quiet;
  law_localStorage_rollback _ := mret_quiet;
  law_undoBuffer_commit _ _ := mret_quiet;
  law_undoBuffer_rollback _ := mret_quiet;
}.
Next Obligation. done. Qed.
Next Obligation. intros h tp c t d [H1 H2] Hv. split; [done|]. intros Hz. by destruct Hv. Qed.
Next Obligation.
  intros h tp c t f log d Hr [Ht Hc] Hroom. split; [|by eexists _, _]. unfold tables_promise, tables_ok. cbn [countingCheckpoint wp].
  split; [split; [done|cbn; lia]|]. split; [done|]. split; [|split; [|done]].
  - unfold pagesOf, flagChunks, pageChunks. cbn [concat app write bool_wire uint_wire]. unfold size. rewrite !length_app, !length_le_bytes. cbn [length Nat.add].
    change ((Z.of_nat 1 + ShadowFile.PAGE - 1) / ShadowFile.PAGE) with 1. change ((Z.of_nat 4 + ShadowFile.PAGE - 1) / ShadowFile.PAGE) with 1. cbn. lia.
  - intros Hv _. unfold flagChunks. cbn [concat]. rewrite app_nil_r. by rewrite Hc.
Qed.
Next Obligation.
  intros h tp f d [(pb & _ & Hs) _] Hv. split; [|done]. unfold saved in Hs. destruct (CheckpointerRun.valid _).
  - destruct Hs as (_ & Hw & _). exact Hw.
  - destruct Hs as (_ & -> & _). done.
Qed.

(** Replaying the record of a sequence adds to the number. *)
Definition counting_handlers : Recovery Z Z Z (db bool Z) := {|
  WALReplayer.readCheckpoint := mret tt; replayShadowPageRecords := mret tt; hasActiveTransaction _ := false;
  beginRecoveryTransaction := mret tt; commitTransaction := mret tt; rollbackTransaction := mret tt;
  writeRecoveryCheckpoint := mret tt; reconcileAfterRecovery := mret tt;
  replayCreateCatalogEntryRecord _ _ := mret tt; replayDropCatalogEntryRecord _ _ := mret tt; replayAlterTableEntryRecord _ := mret tt;
  replayUpdateSequenceRecord _ k := modify (fun d => set_contents d (catalog d) (tables d + k));
  replayNodeTableInsertRecord _ _ _ := mret tt; replayRelTableInsertRecord _ _ _ := mret tt;
  replayNodeDeletionRecord _ _ _ := mret tt; replayNodeUpdateRecord _ _ _ _ := mret tt; replayRelDeletionRecord _ _ _ _ := mret tt;
  replayRelDetachDeletionRecord _ _ _ := mret tt; replayRelUpdateRecord _ _ _ _ _ _ := mret tt; replayLoadExtensionRecord _ := mret tt;
|}.

#[local] Instance counting_storage : Storage (store bool Z) :=
  durable_storage byte_chunks 100 zeros 0 build flagChunks pageChunks countingCheckpoint id.
Definition disk_config : Config := mkConfig false false false false 16777216 0.
Definition counting_record : byte_record := WALRecord.UpdateSequenceRecord 5 1.
Abbreviation counting_dstep := (dstep u8_wire u8_wire u8_wire byte_chunks 100 zeros 0 build bool_wire (fun _ => u32_wire) false 0 flagChunks pageChunks
  countingCheckpoint id disk_config).
Abbreviation counting_recover := (recover 0 build bool_wire (fun _ => u32_wire) false 0 u8_wire u8_wire u8_wire counting_handlers).

(** A writer begins, logs a record and commits. *)
Definition opened_manager : TransactionManager.t (store bool Z) := init (mk_store (new_db []) ∅).
Definition writer_began := (beginTransaction disk_config WRITE opened_manager).2.
Definition writer_logged := (on_world (logRecord byte_chunks first_id counting_record) writer_began).2.
Definition writer_committed := (commit disk_config first_id writer_logged).2.
Definition counting_events : list (event bool Z Z Z Z) := [EBegin first_id 1; ELog first_id counting_record].

Lemma counting_resting : resting_with build bool_wire (fun _ => u32_wire) false 0 knows false 0 FreeSpaceManager.init
  (WALReplayerFacts.ser_all u8_wire u8_wire u8_wire (concat [])) (new_db []).
Proof. eexists _, _. split; [apply new_db_ready|]. split; [done|]. done. Qed.

Lemma run_ret {S A} (m : M S A) s a : (m s).1 = Ret a -> m s = (Ret a, (m s).2).
Proof. destruct (m s) as [r s']. by intros [= ->]. Qed.

Lemma writer_steps : rtc counting_dstep (opened_manager, []) (writer_logged, counting_events).
Proof.
  eapply rtc_l; [|eapply rtc_l; [|apply rtc_refl]].
  - eapply (d_begin _ _ _ _ _ _ _ _ _ _ _ _ _ _ _ _ _ WRITE opened_manager [] first_id writer_began); [by right|done|by apply run_ret|by vm_compute].
  - change counting_events with (([] ++ [EBegin first_id 1]) ++ [ELog (Cat := bool) (St := Z) first_id counting_record]).
    eapply (d_log _ _ _ _ _ _ _ _ _ _ _ _ _ _ _ _ _ first_id counting_record); [by vm_compute|done|split; [done|]|by vm_compute|by apply run_ret].
    cbn. lia.
Qed.

Definition committed_events : list (event bool Z Z Z Z) := counting_events ++ [ECommit first_id 2].

Lemma writer_room : commits_in_room byte_chunks 100 zeros 0 build bool_wire (fun _ => u32_wire) false 0 flagChunks pageChunks countingCheckpoint id disk_config
  first_id writer_logged.
Proof.
  intros x w w1 Hx Hcl Hsc. assert (w = world writer_logged) as -> by (cbn in Hcl; by injection Hcl as <-).
  assert (Some (storage_commit disk_config x first_id (lastTimestamp writer_logged + 1) (world writer_logged)).2 = Some w1) as Hw by exact (f_equal (fun p => Some p.2) Hsc).
  injection Hw as <-. clear Hcl Hsc. injection Hx as <-. by vm_compute.
Qed.

Lemma commit_steps : rtc counting_dstep (opened_manager, []) (writer_committed, committed_events).
Proof.
  eapply rtc_r; [apply writer_steps|].
  replace committed_events with (counting_events ++ if writes writer_logged first_id && gone writer_committed first_id then
      ECommit first_id (lastTimestamp writer_committed) :: match WAL.file (wal (stored (world writer_committed))) with None => [checkpoint_event writer_committed] | Some _ => [] end
    else []) by by vm_compute.
  assert ((commit disk_config first_id writer_logged).1 = Ret tt) as Hret by (vm_compute; reflexivity).
  eapply (d_commit _ _ _ _ _ _ _ _ _ _ _ _ _ _ _ _ _ first_id writer_logged counting_events (Ret tt));
    [by vm_compute|by vm_compute|apply writer_room|exact (run_ret (commit disk_config first_id) writer_logged tt Hret)|discriminate].
Qed.


(** The commit of the writer up to its log, and the file when the database dies after
    the last byte is there, or before it. *)
Definition commit_written : outcome unit * store bool Z :=
  storage_commit disk_config (make WRITE first_id 1) first_id 2 (world writer_logged).
Definition commit_bytes : bytes := match WAL.file (wal (stored commit_written.2)) with Some g => content g | None => [] end.
Definition died_at (n : Z) : FileInfo := mk_file (take (Z.to_nat n) commit_bytes) n.

