(* ===== verification/Bitpacking.v ===== *)
(** The compression of integer columns ([storage/compression/compression.cpp], the
    class [IntegerBitpacking], and [bitpacking_utils.cpp], [sign_extend.h]): the values
    of a page are kept with as many bits as the largest of them needs, after an offset
    has been subtracted from all of them. A page is its bytes; the fields of 8 or 32 bits
    of [BitpackingUtils] are read from and written to it on a little-endian machine. The
    types are those of 8 to 64 bits: [int128_t] has its own packing. Arithmetic of the
    signed types wraps, as the machine does. *)
From S2P Require Import Prelude Serializer NullMask.
Local Open Scope Z_scope.

(** The template parameter [T], and [U], the unsigned type of its width. *)
Record int_type := IntType { bits : Z; is_signed : bool }.
Definition INT8 := IntType 8 true.
Definition INT16 := IntType 16 true.
Definition INT32 := IntType 32 true.
Definition INT64 := IntType 64 true.
Definition UINT8 := IntType 8 false.
Definition UINT16 := IntType 16 false.
Definition UINT32 := IntType 32 false.
Definition UINT64 := IntType 64 false.

Definition MIN (t : int_type) : Z := if is_signed t then - 2 ^ (bits t - 1) else 0.
Definition MAX (t : int_type) : Z := if is_signed t then 2 ^ (bits t - 1) - 1 else 2 ^ bits t - 1.

(** [static_cast<T>] and [static_cast<U>]. *)
Definition cast (t : int_type) (z : Z) : Z :=
  if is_signed t then wrap (bits t) (z + 2 ^ (bits t - 1)) - 2 ^ (bits t - 1) else wrap (bits t) z.
Definition castU (t : int_type) (z : Z) : Z := wrap (bits t) z.

(** [std::bit_width]. *)
Definition bit_width (z : Z) : Z := if z =? 0 then 0 else Z.log2 z + 1.

(** ** Metadata *)

Inductive CompressionType := UNCOMPRESSED | INTEGER_BITPACKING | BOOLEAN_BITPACKING | CONSTANT | ALP.

(** The union [StorageValue]: its bits, of which a value of a type fills the lower half. *)
Definition StorageValue := Z.
Definition StorageValue_of (value : Z) : StorageValue := wrap 64 value.
Definition StorageValue_get (t : int_type) (v : StorageValue) : Z := cast t (wrap 64 v).

Record CompressionMetadata := mkMetadata { meta_min : StorageValue; meta_max : StorageValue; compression : CompressionType }.

Record BitpackInfo := mkInfo { bitWidth : Z; hasNegative : bool; offset : Z }.

#[global] Instance CompressionType_eq_dec : EqDecision CompressionType.
Proof. solve_decision. Defined.
#[global] Instance BitpackInfo_eq_dec : EqDecision BitpackInfo.
Proof. solve_decision. Defined.

Definition abs_T (t : int_type) (value : Z) : Z := if is_signed t then cast t (Z.abs value) else value.

Definition getPackingInfo (t : int_type) (metadata : CompressionMetadata) : BitpackInfo :=
  let max := StorageValue_get t (meta_max metadata) in
  let min := StorageValue_get t (meta_min metadata) in
  if (0 <? min) && (0 <? max) && (bit_width (castU t (max - min)) <? bit_width (castU t max)) then
    mkInfo (bit_width (castU t (max - min))) false min
  else if (min <? 0) && (max <? 0) && (bit_width (castU t (min - max)) <? bit_width (castU t max)) then
    mkInfo (bit_width (castU t (min - max)) + 1) true (cast t (castU t max))
  else if min <? 0 then
    mkInfo (bit_width (castU t (Z.max (abs_T t min) (abs_T t max))) + 1) true 0
  else
    mkInfo (bit_width (castU t (Z.max (abs_T t min) (abs_T t max)))) false 0.

Definition UINT64_MAX : Z := 2 ^ 64 - 1.

Definition numValues (dataSize : Z) (info : BitpackInfo) : Z :=
  if bitWidth info =? 0 then UINT64_MAX else u64 (dataSize * 8) / bitWidth info.

(** ** Minimum and maximum of the values that are not null *)

Definition isNull_at (nullMask : option NullMask.t) (i : Z) : outcome bool :=
  match nullMask with Some m => NullMask.isNull (NullMask.data m) i | None => mret false end.

Fixpoint minmax_from (nullMask : option NullMask.t) (data : list Z) (i : Z) (min max : option Z) : outcome (option Z * option Z) :=
  match data with
  | [] => mret (min, max)
  | v :: data =>
      null ← isNull_at nullMask i;
      if null : bool then minmax_from nullMask data (i + 1) min max
      else
        let min := match min with Some m => if v <? m then Some v else min | None => Some v end in
        let max := match max with Some m => if m <? v then Some v else max | None => Some v end in
        minmax_from nullMask data (i + 1) min max
  end.

(** Both branches ([std::minmax_element] when the mask promises no nulls). *)
Definition getTypedMinMax (data : list Z) (nullMask : option NullMask.t) (nullMaskOffset : Z) : outcome (option Z * option Z) :=
  _ ← ku_assert (Nat.ltb 0 (length data));
  match nullMask with
  | Some m => if NullMask.hasNoNullsGuarantee m then minmax_from None data 0 None None else minmax_from nullMask data nullMaskOffset None None
  | None => minmax_from None data 0 None None
  end.

Definition canUpdateInPlace (t : int_type) (values : list Z) (metadata : CompressionMetadata) (nullMask : option NullMask.t) (nullMaskOffset : Z)
  : outcome bool :=
  let info := getPackingInfo t metadata in
  '(min, max) ← getTypedMinMax values nullMask nullMaskOffset;
  match min, max with
  | None, None => mret true
  | Some min, Some max =>
      let newMetadata := mkMetadata (StorageValue_of (Z.min (StorageValue_get t (meta_min metadata)) min))
                                    (StorageValue_of (Z.max (StorageValue_get t (meta_max metadata)) max)) (compression metadata) in
      let newInfo := getPackingInfo t newMetadata in
      mret (if negb (bitWidth info =? bitWidth newInfo) || xorb (hasNegative info) (hasNegative newInfo) || negb (offset info =? offset newInfo)
            then false else true)
  | _, _ => Undef
  end.

(** ** Fields of a page *)

(** [sizeof(CompressedType)]. *)
Definition sizeOfCompressedType (t : int_type) : Z := if 32 <=? bits t then 4 else 1.
Definition sizeOfCompressedTypeBits (t : int_type) : Z := sizeOfCompressedType t * 8.

(** [in[k]] and [out[k] = v] for a pointer to the byte [p] of the page. *)
Definition load_field (t : int_type) (page : bytes) (p k : Z) : outcome Z :=
  let n := sizeOfCompressedType t in
  if (0 <=? p + n * k) && (p + n * k + n <=? Z.of_nat (length page))
  then Ret (le_value (take (Z.to_nat n) (drop (Z.to_nat (p + n * k)) page))) else Undef.
Definition store_field (t : int_type) (page : bytes) (p k v : Z) : outcome bytes :=
  let n := sizeOfCompressedType t in
  if (0 <=? p + n * k) && (p + n * k + n <=? Z.of_nat (length page))
  then Ret (take (Z.to_nat (p + n * k)) page ++ le_bytes (Z.to_nat n) v ++ drop (Z.to_nat (p + n * k + n)) page) else Undef.

Definition all1sMaskForLeastSignificantBits (t : int_type) (numBits : Z) : Z :=
  if numBits =? bits t then Z.ones (bits t) else castU t (Z.shiftl 1 numBits - 1).

(** The index of the last field that a value of [delta] bits after [shift] touches. *)
Definition last_field (t : int_type) (delta shift : Z) : nat :=
  let F := sizeOfCompressedTypeBits t in
  if delta + shift <=? F then 0%nat else if delta + shift <=? 2 * F then 1%nat
  else if delta + shift <=? 3 * F then 2%nat else if delta + shift <=? 4 * F then 3%nat else 4%nat.

Fixpoint unpackSingleField (t : int_type) (compressed_field : nat) (page : bytes) (p shiftRight : Z) : outcome Z :=
  match compressed_field with
  | O => e ← load_field t page p 0; mret (Z.shiftr e shiftRight)
  | S f =>
      out ← unpackSingleField t f page p shiftRight;
      let s := Z.of_nat compressed_field * sizeOfCompressedTypeBits t - shiftRight in
      _ ← ku_assert (s <? bits t);
      e ← load_field t page p (Z.of_nat compressed_field);
      mret (Z.lor out (castU t (Z.shiftl e s)))
  end.

Definition unpackSingleValueInPlace (t : int_type) (page : bytes) (p delta shiftRight : Z) : outcome Z :=
  out ← unpackSingleField t (last_field t delta shiftRight) page p shiftRight;
  mret (Z.land out (all1sMaskForLeastSignificantBits t delta)).

Definition unpackSingle (t : int_type) (page : bytes) (p bitWidth srcOffset : Z) : outcome Z :=
  let srcBufferOffset := srcOffset * bitWidth / sizeOfCompressedTypeBits t in
  let shiftRight := srcOffset * bitWidth mod sizeOfCompressedTypeBits t in
  unpackSingleValueInPlace t page (p + sizeOfCompressedType t * srcBufferOffset) bitWidth shiftRight.

(** [setValueForBitsMatchingMask]; [cast] to [CompressedType] is by its width. *)
Definition setValueForBitsMatchingMask (t : int_type) (shiftRight : bool) (out unshiftedValue unshiftedMask shift : Z) : Z :=
  let F := sizeOfCompressedTypeBits t in
  let valueToSet := wrap F (if shiftRight then Z.shiftr (Z.land unshiftedValue unshiftedMask) shift
                            else Z.shiftl (Z.land unshiftedValue unshiftedMask) shift) in
  let mask := wrap F (if shiftRight then Z.shiftr unshiftedMask shift else Z.shiftl unshiftedMask shift) in
  let bitsToSet := Z.land valueToSet mask in
  let bitsToClear := wrap F (Z.lor (Z.lnot mask) valueToSet) in
  Z.land (Z.lor out bitsToSet) bitsToClear.

Fixpoint packSingleField (t : int_type) (compressed_field : nat) (src : Z) (page : bytes) (p shiftLeft mask : Z) : outcome bytes :=
  match compressed_field with
  | O => e ← load_field t page p 0; store_field t page p 0 (setValueForBitsMatchingMask t false e src mask shiftLeft)
  | S f =>
      page ← packSingleField t f src page p shiftLeft mask;
      let s := Z.of_nat compressed_field * sizeOfCompressedTypeBits t - shiftLeft in
      _ ← ku_assert (s <? bits t);
      e ← load_field t page p (Z.of_nat compressed_field);
      store_field t page p (Z.of_nat compressed_field) (setValueForBitsMatchingMask t true e src mask s)
  end.

Definition packSingleImpl (t : int_type) (src : Z) (page : bytes) (p delta shiftLeft mask : Z) : outcome bytes :=
  packSingleField t (last_field t delta shiftLeft) src page p shiftLeft mask.

Definition packSingle (t : int_type) (src : Z) (page : bytes) (p bitWidth dstOffset : Z) : outcome bytes :=
  let dstBufferOffset := dstOffset * bitWidth / sizeOfCompressedTypeBits t in
  let shiftLeft := dstOffset * bitWidth mod sizeOfCompressedTypeBits t in
  packSingleImpl t src page (p + sizeOfCompressedType t * dstBufferOffset) bitWidth shiftLeft (all1sMaskForLeastSignificantBits t bitWidth).

(** [SignExtend<T, U, 1>]: the value as a [T]. *)
Definition SignExtend (t : int_type) (value width : Z) : outcome Z :=
  _ ← ku_assert (width <? bits t);
  let mask := cast t (castU t (Z.shiftl 1 (width - 1))) in
  let andMask := all1sMaskForLeastSignificantBits t width in
  let value := cast t (Z.land (castU t value) andMask) in
  mret (cast t (Z.lxor value mask - mask)).

(** ** Whole chunks *)

Definition CHUNK_SIZE : Z := 32.

(** FastPFor: packs 32 values from a byte of the page on, and unpacks them. *)
Class FastPFor := {
  fastpack : int_type -> list Z -> bytes -> Z -> Z -> outcome bytes;
  fastunpack : int_type -> bytes -> Z -> Z -> outcome (list Z);
}.

Section IntegerBitpacking.
Context `{FastPFor}.
Context (t : int_type).

(** [copyValuesToTempChunkWithOffset] of values of the type [T]. *)
Definition copyValuesToTempChunkWithOffset (srcBuffer : list Z) (info : BitpackInfo) : list Z :=
  map (fun v => castU t (v - offset info)) srcBuffer.

Definition packPartialChunk (srcBuffer : list Z) (dstBuffer : bytes) (p posInDst : Z) (info : BitpackInfo) (numValuesToPack : Z) : outcome bytes :=
  for_range 0 (Z.to_nat numValuesToPack) (fun i dstBuffer =>
    v ← load srcBuffer i;
    packSingle t v dstBuffer p (bitWidth info) (Z.of_nat i + posInDst)) dstBuffer.

(** [n] values of an array, from an index on. *)
Definition array_slice (buffer : list Z) (pos n : Z) : outcome (list Z) :=
  if (0 <=? pos) && (0 <=? n) && (pos + n <=? Z.of_nat (length buffer)) then Ret (take (Z.to_nat n) (drop (Z.to_nat pos) buffer)) else Undef.

Definition setPartialChunkInPlace (srcBuffer : list Z) (posInSrc : Z) (dstBuffer : bytes) (posInDst numValues : Z) (header : BitpackInfo)
  : outcome bytes :=
  values ← array_slice srcBuffer posInSrc numValues;
  packPartialChunk (copyValuesToTempChunkWithOffset values header) dstBuffer 0 posInDst header numValues.

(** The loop over the chunks of the destination; every round sets 32 values. *)
Fixpoint set_chunks (fuel : nat) (srcBuffer : list Z) (posInSrc : Z) (dstBuffer : bytes) (posInDst numValues dstIndex : Z) (header : BitpackInfo)
  : outcome (bytes * Z) :=
  if dstIndex + CHUNK_SIZE <=? posInDst + numValues then
    match fuel with
    | O => Undef
    | S fuel =>
        values ← array_slice srcBuffer (posInSrc + dstIndex - posInDst) CHUNK_SIZE;
        dstBuffer ← fastpack t (copyValuesToTempChunkWithOffset values header) dstBuffer (dstIndex * bitWidth header / 8) (bitWidth header);
        set_chunks fuel srcBuffer posInSrc dstBuffer posInDst numValues (dstIndex + CHUNK_SIZE) header
    end
  else mret (dstBuffer, dstIndex).

(** The assertion: every value is null or fits. *)
Definition all_fit (srcBuffer : list Z) (posInSrc numValues : Z) (metadata : CompressionMetadata) (nullMask : option NullMask.t) : outcome unit :=
  for_range 0 (Z.to_nat numValues) (fun i _ =>
    v ← load srcBuffer (Z.to_nat posInSrc + i);
    null ← isNull_at nullMask (posInSrc + Z.of_nat i);
    if null : bool then mret tt else fits ← canUpdateInPlace t [v] metadata None 0; ku_assert fits) tt.

Definition setValuesFromUncompressed (srcBuffer : list Z) (posInSrc : Z) (dstBuffer : bytes) (posInDst numValues : Z)
    (metadata : CompressionMetadata) (nullMask : option NullMask.t) : outcome bytes :=
  let header := getPackingInfo t metadata in
  _ ← all_fit srcBuffer posInSrc numValues metadata nullMask;
  let valuesInFirstChunk := Z.min (CHUNK_SIZE - posInDst mod CHUNK_SIZE) numValues in
  '(dstBuffer, dstIndex) ←
    if valuesInFirstChunk <? CHUNK_SIZE then
      dstBuffer ← setPartialChunkInPlace srcBuffer posInSrc dstBuffer posInDst valuesInFirstChunk header;
      mret (dstBuffer, posInDst + valuesInFirstChunk)
    else mret (dstBuffer, posInDst);
  '(dstBuffer, dstIndex) ← set_chunks (Z.to_nat numValues) srcBuffer posInSrc dstBuffer posInDst numValues dstIndex header;
  let lastChunkIndexOffset := dstIndex - posInDst in
  let unalignedValuesToPack := numValues - lastChunkIndexOffset in
  if 0 <? unalignedValuesToPack
  then setPartialChunkInPlace srcBuffer (posInSrc + lastChunkIndexOffset) dstBuffer (posInDst + lastChunkIndexOffset) unalignedValuesToPack header
  else mret dstBuffer.

(** A value that was unpacked, as a [T]. *)
Definition restore_value (out : Z) (header : BitpackInfo) : outcome Z :=
  out ← if hasNegative header && (0 <? bitWidth header) then SignExtend t out (bitWidth header) else mret (cast t out);
  mret (if negb (offset header =? 0) then cast t (out + offset header) else out).

(** [dst] is the array, [dstIndex] where the values go. *)
Definition getValues (page : bytes) (chunkStart pos : Z) (dst : list Z) (dstIndex numValuesToRead : Z) (header : BitpackInfo) : outcome (list Z) :=
  _ ← ku_assert (pos + numValuesToRead <=? CHUNK_SIZE);
  for_range 0 (Z.to_nat numValuesToRead) (fun i dst =>
    out ← unpackSingle t page chunkStart (bitWidth header) (pos + Z.of_nat i);
    v ← restore_value out header;
    store dst (Z.to_nat dstIndex + i) v) dst.

Definition getChunkStart (pos bitWidth : Z) : Z := pos / CHUNK_SIZE * bitWidth * CHUNK_SIZE / 8.

(** One whole chunk, unpacked and restored in place. *)
Definition get_chunk (page : bytes) (srcCursor : Z) (dst : list Z) (dstIndex : Z) (header : BitpackInfo) : outcome (list Z) :=
  values ← fastunpack t page srcCursor (bitWidth header);
  for_range 0 (Z.to_nat CHUNK_SIZE) (fun i dst =>
    out ← load values i;
    v ← restore_value out header;
    store dst (Z.to_nat dstIndex + i) v) dst.

Fixpoint get_chunks (fuel : nat) (page : bytes) (srcCursor : Z) (dst : list Z) (dstOffset numValues dstIndex : Z) (header : BitpackInfo)
  : outcome (list Z * Z * Z) :=
  if dstIndex + CHUNK_SIZE <=? dstOffset + numValues then
    match fuel with
    | O => Undef
    | S fuel =>
        dst ← get_chunk page srcCursor dst dstIndex header;
        get_chunks fuel page (srcCursor + CHUNK_SIZE / 8 * bitWidth header) dst dstOffset numValues (dstIndex + CHUNK_SIZE) header
    end
  else mret (dst, srcCursor, dstIndex).

Definition decompressFromPage (page : bytes) (srcOffset : Z) (dst : list Z) (dstOffset numValues : Z) (metadata : CompressionMetadata)
  : outcome (list Z) :=
  let info := getPackingInfo t metadata in
  let srcCursor := getChunkStart srcOffset (bitWidth info) in
  let valuesInFirstChunk := Z.min (CHUNK_SIZE - srcOffset mod CHUNK_SIZE) numValues in
  let bytesPerChunk := CHUNK_SIZE / 8 * bitWidth info in
  first ←
    if valuesInFirstChunk <? CHUNK_SIZE then
      dst ← getValues page srcCursor (srcOffset mod CHUNK_SIZE) dst dstOffset valuesInFirstChunk info;
      mret (if numValues =? valuesInFirstChunk then inl dst else inr (dst, srcCursor + bytesPerChunk, dstOffset + valuesInFirstChunk))
    else mret (inr (dst, srcCursor, dstOffset));
  match first with
  | inl dst => mret dst
  | inr (dst, srcCursor, dstIndex) =>
      '(dst, srcCursor, dstIndex) ← get_chunks (Z.to_nat numValues) page srcCursor dst dstOffset numValues dstIndex info;
      if dstIndex <? dstOffset + numValues
      then getValues page srcCursor 0 dst dstIndex (dstOffset + numValues - dstIndex) info
      else mret dst
  end.

(** [compressNextPage] when the metadata says [INTEGER_BITPACKING]: the loop over the
    full chunks, with and without an offset, and the rest of the values. *)
Fixpoint compress_chunks (fuel : nat) (srcBuffer : list Z) (dstBuffer : bytes) (i lastFullChunkEnd : Z) (info : BitpackInfo) : outcome bytes :=
  if i <? lastFullChunkEnd then
    match fuel with
    | O => Undef
    | S fuel =>
        values ← array_slice srcBuffer i CHUNK_SIZE;
        let tmp := if offset info =? 0 then map (castU t) values else copyValuesToTempChunkWithOffset values info in
        dstBuffer ← fastpack t tmp dstBuffer (i * bitWidth info / 8) (bitWidth info);
        compress_chunks fuel srcBuffer dstBuffer (i + CHUNK_SIZE) lastFullChunkEnd info
    end
  else mret dstBuffer.

(** The page, how many values of the source were compressed, and the bytes written. *)
Definition compressNextPage (srcBuffer : list Z) (numValuesRemaining : Z) (dstBuffer : bytes) (metadata : CompressionMetadata)
  : outcome (bytes * Z * Z) :=
  _ ← ku_assert (bool_decide (compression metadata = INTEGER_BITPACKING));
  let info := getPackingInfo t metadata in
  let dstBufferSize := Z.of_nat (length dstBuffer) in
  if bitWidth info =? 0 then mret (dstBuffer, 0, 0)
  else
    let numValuesToCompress := Z.min numValuesRemaining (numValues dstBufferSize info) in
    let sizeToCompress := numValuesToCompress * bitWidth info / 8 + (if numValuesToCompress * bitWidth info mod 8 =? 0 then 0 else 1) in
    _ ← ku_assert (CHUNK_SIZE <=? dstBufferSize);
    _ ← ku_assert (sizeToCompress <=? dstBufferSize);
    let lastFullChunkEnd := numValuesToCompress - numValuesToCompress mod CHUNK_SIZE in
    dstBuffer ← compress_chunks (Z.to_nat numValuesToCompress) srcBuffer dstBuffer 0 lastFullChunkEnd info;
    let remainingValues := numValuesToCompress mod CHUNK_SIZE in
    dstBuffer ←
      if 0 <? remainingValues then
        values ← array_slice srcBuffer lastFullChunkEnd remainingValues;
        let tmp := if offset info =? 0 then map (castU t) values else copyValuesToTempChunkWithOffset values info in
        packPartialChunk tmp dstBuffer (lastFullChunkEnd * bitWidth info / 8) 0 info remainingValues
      else mret dstBuffer;
    mret (dstBuffer, numValuesToCompress, sizeToCompress).
End IntegerBitpacking.
