(* ===== verification/BitpackingFacts.v ===== *)
(** The bits of a page: a page is the number that its bytes are the digits of, and what
    the field operations of [Bitpacking.v] read and change are ranges of its bits; then
    what its loops do to a page. *)
From S2P Require Import Prelude Serializer NullMask Bitpacking.
Local Open Scope Z_scope.

Definition bytes_ok (page : bytes) : Prop := Forall (fun b => 0 <= b < 256) page.
Definition bit (page : bytes) (i : Z) : bool := Z.testbit (le_value page) i.
Definition size (page : bytes) : Z := Z.of_nat (length page).

Lemma pow256 n : 0 <= n -> 256 ^ n = 2 ^ (8 * n).
Proof. intros. by rewrite Z.pow_mul_r by lia. Qed.

Lemma le_value_range page : bytes_ok page -> 0 <= le_value page < 2 ^ (8 * size page).
Proof.
  unfold size. induction 1 as [|b page Hb _ IH]; [done|]. cbn [le_value length].
  replace (8 * Z.of_nat (S (length page))) with (8 + 8 * Z.of_nat (length page)) by lia.
  rewrite Z.pow_add_r by lia. lia.
Qed.

Lemma le_value_app l1 l2 : le_value (l1 ++ l2) = le_value l1 + 2 ^ (8 * size l1) * le_value l2.
Proof.
  unfold size. induction l1 as [|b l1 IH]; cbn [le_value length app]; [lia|]. rewrite IH.
  replace (8 * Z.of_nat (S (length l1))) with (8 + 8 * Z.of_nat (length l1)) by lia.
  rewrite Z.pow_add_r by lia. lia.
Qed.

Lemma bit_app l1 l2 i : bytes_ok l1 -> 0 <= i ->
  bit (l1 ++ l2) i = if i <? 8 * size l1 then bit l1 i else bit l2 (i - 8 * size l1).
Proof.
  intros Hok Hi. unfold bit. rewrite le_value_app. pose proof (le_value_range l1 Hok). assert (0 <= size l1) by (unfold size; lia).
  rewrite Z.mul_comm. destruct (Z.ltb_spec i (8 * size l1)).
  - rewrite <-(Z.mod_pow2_bits_low _ (8 * size l1)) by lia. rewrite Z.mod_add by lia. by rewrite Z.mod_small.
  - replace i with (i - 8 * size l1 + 8 * size l1) at 1 by lia. rewrite <-Z.div_pow2_bits by lia.
    rewrite Z.div_add by lia. rewrite Z.div_small by done. done.
Qed.

Lemma bit_high page i : bytes_ok page -> 8 * size page <= i -> bit page i = false.
Proof.
  intros Hok Hi. unfold bit. pose proof (le_value_range page Hok). unfold size in *. rewrite <-(Z.mod_small (le_value page) (2 ^ (8 * Z.of_nat (length page)))) by done.
  apply Z.mod_pow2_bits_high. lia.
Qed.

Lemma bit_take_drop page n m i : bytes_ok page -> 0 <= i < 8 * Z.of_nat m -> (n + m <= length page)%nat ->
  bit (take m (drop n page)) i = bit page (8 * Z.of_nat n + i).
Proof.
  intros Hok Hi Hle.
  rewrite <-(take_drop n page) at 2. rewrite <-(take_drop m (drop n page)) at 2. unfold size in *.
  assert (Hn : Z.of_nat (length (take n page)) = Z.of_nat n) by (rewrite length_take; lia).
  assert (Hm : Z.of_nat (length (take m (drop n page))) = Z.of_nat m) by (rewrite length_take, length_drop; lia).
  rewrite bit_app by (try lia; by apply Forall_take). unfold size. rewrite Hn.
  destruct (Z.ltb_spec (8 * Z.of_nat n + i) (8 * Z.of_nat n)); [lia|].
  replace (8 * Z.of_nat n + i - 8 * Z.of_nat n) with i by lia.
  rewrite bit_app by (try lia; by apply Forall_take, Forall_drop). unfold size. rewrite Hm. by rewrite (proj2 (Z.ltb_lt _ _)) by lia.
Qed.

Lemma le_bytes_ok n z : bytes_ok (le_bytes n z).
Proof. revert z. induction n as [|n IH]; intros z; cbn [le_bytes]; constructor; [by apply Z.mod_pos_bound|apply IH]. Qed.

Lemma bit_le_bytes n z i : 0 <= i -> bit (le_bytes n z) i = (i <? 8 * Z.of_nat n) && Z.testbit z i.
Proof.
  intros Hi. unfold bit. rewrite le_value_bytes, pow256 by lia. destruct (Z.ltb_spec i (8 * Z.of_nat n)).
  - by rewrite Z.mod_pow2_bits_low.
  - by rewrite Z.mod_pow2_bits_high by lia.
Qed.

(** ** Types *)

(** The widths for which the templates are instantiated. *)
Class width_ok (t : int_type) : Prop := width_is : bits t = 8 \/ bits t = 16 \/ bits t = 32 \/ bits t = 64.

#[export] Hint Extern 0 (width_ok _) => (by left + (right; by left) + (right; right; by left) + (right; right; by right)) : typeclass_instances.

Lemma field_sizes t : width_ok t ->
  (sizeOfCompressedType t = 1 \/ sizeOfCompressedType t = 4) /\ sizeOfCompressedTypeBits t = 8 * sizeOfCompressedType t /\
  sizeOfCompressedTypeBits t <= bits t <= 4 * sizeOfCompressedTypeBits t.
Proof. unfold sizeOfCompressedTypeBits, sizeOfCompressedType. intros [->|[->|[->| ->]]]; cbn; lia. Qed.

(** [p] points to a field, and so does the end of the page. *)
Definition aligned (t : int_type) (page : bytes) (p : Z) : Prop :=
  0 <= p /\ p mod sizeOfCompressedType t = 0 /\ size page mod sizeOfCompressedType t = 0.

(** ** Reading and writing a field *)

Section fields.
Context (t : int_type) {Hw : width_ok t}.
Abbreviation n := (sizeOfCompressedType t).
Abbreviation F := (sizeOfCompressedTypeBits t).

Lemma load_field_run page p k : bytes_ok page -> 0 <= p -> 0 <= k -> p + n * k + n <= size page ->
  exists e, load_field t page p k = Ret e /\ forall j, 0 <= j -> Z.testbit e j = (j <? F) && bit page (8 * p + F * k + j).
Proof.
  intros Hok Hp Hk Hle. pose proof (field_sizes t Hw) as (Hn & HF & _). unfold load_field, size in *.
  assert (Hnk : 0 <= n * k) by nia.
  rewrite (proj2 (Z.leb_le _ _)), (proj2 (Z.leb_le _ _)) by lia. eexists. split; [done|]. intros j Hj.
  destruct (Z.ltb_spec j F); cbn [andb].
  - etrans; [apply bit_take_drop; [done|lia|lia]|]. f_equal. lia.
  - apply bit_high; [by apply Forall_take, Forall_drop|]. unfold size. rewrite length_take. lia.
Qed.

(** A range of bits has been replaced. *)
Definition bits_set (page page' : bytes) (lo hi : Z) (f : Z -> bool) : Prop :=
  bytes_ok page' /\ size page' = size page /\
  forall i, 0 <= i -> bit page' i = if (lo <=? i) && (i <? hi) then f i else bit page i.

Lemma store_field_run page p k v : bytes_ok page -> 0 <= p -> 0 <= k -> p + n * k + n <= size page ->
  exists page', store_field t page p k v = Ret page' /\
    bits_set page page' (8 * p + F * k) (8 * p + F * k + F) (fun i => Z.testbit v (i - (8 * p + F * k))).
Proof.
  intros Hok Hp Hk Hle. pose proof (field_sizes t Hw) as (Hn & HF & _). unfold store_field. assert (0 <= n * k) by nia. fold (size page).
  rewrite (proj2 (Z.leb_le _ _)), (proj2 (Z.leb_le _ _)) by lia. eexists. split; [done|].
  set (a := Z.to_nat (p + n * k)). set (c := Z.to_nat (p + n * k + n)). unfold size in *.
  assert (Ha : length (take a page) = a) by (rewrite length_take; lia).
  assert (Hsz : length (take a page ++ le_bytes (Z.to_nat n) v ++ drop c page) = length page)
    by (rewrite !length_app, length_le_bytes, length_drop, Ha; lia).
  split_and!.
  - apply Forall_app; split; [by apply Forall_take|]. apply Forall_app; split; [apply le_bytes_ok|by apply Forall_drop].
  - unfold size. lia.
  - intros i Hi. rewrite bit_app by (done || by apply Forall_take). unfold size. rewrite Ha.
    destruct (Z.ltb_spec i (8 * Z.of_nat a)).
    { rewrite (proj2 (Z.leb_gt _ _)) by lia. cbn. rewrite <-(take_drop a page) at 2. rewrite bit_app by (done || by apply Forall_take).
      unfold size. rewrite Ha. by rewrite (proj2 (Z.ltb_lt _ _)) by lia. }
    rewrite (proj2 (Z.leb_le _ _)) by lia. cbn [andb]. rewrite bit_app by (lia || apply le_bytes_ok). unfold size. rewrite length_le_bytes.
    destruct (Z.ltb_spec i (8 * p + F * k + F)).
    + rewrite (proj2 (Z.ltb_lt _ _)) by lia. rewrite bit_le_bytes by lia. rewrite (proj2 (Z.ltb_lt _ _)) by lia. cbn. f_equal. lia.
    + rewrite (proj2 (Z.ltb_ge _ _)) by lia. rewrite <-(take_drop c page) at 2. rewrite bit_app by (done || by apply Forall_take).
      unfold size. rewrite length_take, Nat.min_l by lia. rewrite (proj2 (Z.ltb_ge _ _)) by lia. f_equal. lia.
Qed.

(** ** Unpacking one value *)

Lemma all1s_ones delta : 0 <= delta <= bits t -> all1sMaskForLeastSignificantBits t delta = Z.ones delta.
Proof.
  intros Hd. unfold all1sMaskForLeastSignificantBits, castU. destruct (Z.eqb_spec delta (bits t)) as [->|Hne]; [done|].
  rewrite Z.shiftl_1_l, Z.ones_equiv, <-Z.sub_1_r. apply wrap_small. assert (1 <= 2 ^ delta) by (apply (Z.pow_le_mono_r 2 0); lia).
  pose proof (Z.pow_le_mono_r 2 delta (bits t)). lia.
Qed.

Lemma testbit_wrap w z j : 0 <= w -> 0 <= j -> Z.testbit (wrap w z) j = (j <? w) && Z.testbit z j.
Proof.
  intros Hw0 Hj. unfold wrap. destruct (Z.ltb_spec j w); [by rewrite Z.mod_pow2_bits_low by lia|by rewrite Z.mod_pow2_bits_high by lia].
Qed.

Lemma unpackSingleField_run f page p s : bytes_ok page -> 0 <= p -> 0 <= s < F ->
  p + n * Z.of_nat f + n <= size page -> Z.of_nat f * F - s < bits t ->
  exists out, unpackSingleField t f page p s = Ret out /\
    forall j, 0 <= j -> Z.testbit out j = (j <? bits t) && (j <? (Z.of_nat f + 1) * F - s) && bit page (8 * p + s + j).
Proof.
  pose proof (field_sizes t Hw) as (Hn & HF & HW). intros Hok Hp Hs. induction f as [|f IH]; intros Hle Hlt.
  - destruct (load_field_run page p 0 Hok Hp) as (e & He & Hbits); [lia|lia|]. cbn [unpackSingleField]. run_eq He.
    eexists. split; [done|]. intros j Hj. rewrite Z.shiftr_spec, Hbits by lia.
    destruct (Z.ltb_spec (j + s) F), (Z.ltb_spec j ((Z.of_nat 0 + 1) * F - s)), (Z.ltb_spec j (bits t)); cbn; try lia; [|done..]. f_equal. lia.
  - destruct IH as (out & Hout & Hb); [nia|nia|]. cbn [unpackSingleField]. run_eq Hout.
    set (k := Z.of_nat (S f)) in *. rewrite (proj2 (Z.ltb_lt _ _)) by lia. cbn [ku_assert mbind outcome_bind].
    destruct (load_field_run page p k Hok Hp) as (e & He & Hbits); [lia|lia|]. run_eq He. eexists. split; [done|].
    intros j Hj. unfold castU. rewrite Z.lor_spec, Hb, testbit_wrap, Z.shiftl_spec by lia.
    replace ((Z.of_nat f + 1) * F) with (k * F) by lia. destruct (Z.ltb_spec j (bits t)); [|done]. cbn [andb].
    destruct (Z.ltb_spec j (k * F - s)).
    + rewrite (Z.testbit_neg_r e) by lia. rewrite orb_false_r. rewrite (proj2 (Z.ltb_lt _ _)) by nia. done.
    + rewrite Hbits by lia. replace (8 * p + F * k + (j - (k * F - s))) with (8 * p + s + j) by lia. cbn.
      destruct (Z.ltb_spec (j - (k * F - s)) F), (Z.ltb_spec j ((k + 1) * F - s)); cbn; try done; lia.
Qed.

Lemma last_field_spec delta s : 0 <= s < F -> 0 < delta <= bits t ->
  Z.of_nat (last_field t delta s) * F < delta + s <= (Z.of_nat (last_field t delta s) + 1) * F.
Proof.
  pose proof (field_sizes t Hw) as (Hn & HF & HW). intros Hs Hd. unfold last_field.
  repeat match goal with |- context [?a <=? ?b] => destruct (Z.leb_spec a b) end; cbn; lia.
Qed.

Lemma aligned_fits page p f delta s : aligned t page p -> f * F < delta + s -> 8 * p + s + delta <= 8 * size page -> p + n * f + n <= size page.
Proof.
  pose proof (field_sizes t Hw) as (Hn & HF & _). intros (Hp & Hpm & Hsm) Hf Hle.
  pose proof (Z.div_mod p n ltac:(lia)) as Hp1. pose proof (Z.div_mod (size page) n ltac:(lia)) as Hs1.
  rewrite Hpm in Hp1. rewrite Hsm in Hs1. assert (p + n * f < size page) by lia.
  assert (p / n + f < size page / n) by (apply (Z.mul_lt_mono_pos_l n); lia).
  assert (n * (p / n + f + 1) <= n * (size page / n)) by (apply Z.mul_le_mono_nonneg_l; lia). lia.
Qed.

(** The number that some bits of the page make. *)
Definition raw (page : bytes) (start delta : Z) : Z := Z.land (Z.shiftr (le_value page) start) (Z.ones delta).

Lemma testbit_raw page start delta j : 0 <= start -> 0 <= delta -> 0 <= j -> Z.testbit (raw page start delta) j = (j <? delta) && bit page (start + j).
Proof.
  intros Hs Hd Hj. unfold raw, bit. rewrite Z.land_spec, Z.shiftr_spec, Z.testbit_ones_nonneg by done. rewrite andb_comm. f_equal. f_equal. lia.
Qed.

Lemma raw_range page start delta : 0 <= delta -> 0 <= raw page start delta < 2 ^ delta.
Proof. intros Hd. unfold raw. rewrite Z.land_ones by done. apply Z.mod_pos_bound. lia. Qed.

Lemma pointer page p i delta : aligned t page p -> 0 <= i -> 0 <= delta ->
  aligned t page (p + n * (i * delta / F)) /\ 0 <= i * delta mod F < F /\
  8 * (p + n * (i * delta / F)) + i * delta mod F = 8 * p + i * delta.
Proof.
  pose proof (field_sizes t Hw) as (Hn & HF & _). assert (Hpos : 0 < n) by lia. clear Hn.
  intros (Hp & Hpm & Hsm) Hi Hd. assert (0 <= i * delta) as Hid by (apply Z.mul_nonneg_nonneg; done).
  assert (0 <= i * delta / F) as Hq by (apply Z.div_pos; lia).
  pose proof (Z.div_mod (i * delta) F ltac:(lia)) as Hdiv. pose proof (Z.mod_pos_bound (i * delta) F ltac:(lia)) as Hr.
  split; [|split; [done|]].
  - split_and!; [apply Z.add_nonneg_nonneg, Z.mul_nonneg_nonneg; lia| |done].
    rewrite (Z.mul_comm n), Z.mod_add by lia. done.
  - rewrite Hdiv at 3. rewrite HF. lia.
Qed.

Lemma unpackSingle_run page p i delta : bytes_ok page -> aligned t page p -> 0 <= i -> 0 < delta <= bits t ->
  8 * p + i * delta + delta <= 8 * size page -> unpackSingle t page p delta i = Ret (raw page (8 * p + i * delta) delta).
Proof.
  intros Hok Hal Hi Hd Hle. pose proof (field_sizes t Hw) as (Hn & HF & HW).
  destruct (pointer page p i delta) as (Hal' & Hs & Heq); [done|done|lia|]. unfold unpackSingle, unpackSingleValueInPlace.
  set (p' := p + n * (i * delta / F)) in *. set (s := i * delta mod F) in *. pose proof (last_field_spec delta s Hs Hd) as Hlast.
  destruct (unpackSingleField_run (last_field t delta s) page p' s) as (out & -> & Hbits); [done|apply Hal'|done| |lia|].
  { eapply aligned_fits; [done|apply Hlast|lia]. }
  cbn. f_equal. rewrite all1s_ones by lia. apply Z.bits_inj'. intros j Hj.
  assert (0 <= p) by apply Hal. rewrite Z.land_spec, Hbits, testbit_raw, Z.testbit_ones_nonneg by nia.
  replace (8 * p' + s + j) with (8 * p + i * delta + j) by lia.
  destruct (Z.ltb_spec j delta); [|by rewrite andb_false_r]. rewrite (proj2 (Z.ltb_lt _ _)), (proj2 (Z.ltb_lt _ _)) by lia. by rewrite andb_true_r.
Qed.

(** ** Packing one value *)

Lemma setValue_bits right out v delta s j : 0 <= s -> 0 <= delta -> 0 <= j < F ->
  let k := if right : bool then j + s else j - s in
  Z.testbit (setValueForBitsMatchingMask t right out v (Z.ones delta) s) j =
    if (0 <=? k) && (k <? delta) then Z.testbit v k else Z.testbit out j.
Proof.
  intros Hs Hd Hj. unfold setValueForBitsMatchingMask. cbn zeta.
  assert (Hm : forall z, Z.testbit (if right then Z.shiftr z s else Z.shiftl z s) j = (0 <=? (if right then j + s else j - s)) && Z.testbit z (if right then j + s else j - s)).
  { intros z. destruct right; [rewrite Z.shiftr_spec by lia; by rewrite (proj2 (Z.leb_le _ _)) by lia|].
    rewrite Z.shiftl_spec by lia. destruct (Z.leb_spec 0 (j - s)); [done|by rewrite Z.testbit_neg_r]. }
  set (k := if right then j + s else j - s) in *.
  rewrite Z.land_spec, Z.lor_spec, Z.land_spec, !testbit_wrap, !Z.lor_spec, Z.lnot_spec, !testbit_wrap by lia.
  rewrite !Hm, !Z.land_spec. rewrite (proj2 (Z.ltb_lt j F)) by lia. cbn [andb].
  destruct (Z.leb_spec 0 k); cbn [andb].
  - rewrite Z.testbit_ones_nonneg by lia. destruct (Z.ltb_spec k delta), (Z.testbit v k), (Z.testbit out j); done.
  - destruct (Z.testbit out j); done.
Qed.

Lemma packSingleField_run f page p s v delta : bytes_ok page -> 0 <= p -> 0 <= s < F -> 0 < delta -> 
  p + n * Z.of_nat f + n <= size page -> Z.of_nat f * F - s < bits t ->
  exists page', packSingleField t f v page p s (Z.ones delta) = Ret page' /\
    bits_set page page' (8 * p + s) (8 * p + Z.min (s + delta) ((Z.of_nat f + 1) * F)) (fun i => Z.testbit v (i - (8 * p + s))).
Proof.
  pose proof (field_sizes t Hw) as (Hn & HF & HW). intros Hok Hp Hs Hd. induction f as [|f IH]; intros Hle Hlt.
  - destruct (load_field_run page p 0 Hok Hp) as (e & He & Hbits); [lia|lia|]. cbn [packSingleField]. run_eq He.
    destruct (store_field_run page p 0 (setValueForBitsMatchingMask t false e v (Z.ones delta) s) Hok Hp) as (page' & -> & Hok' & Hsz & Hb); [lia|lia|].
    exists page'. split; [done|]. split_and!; [done..|]. intros i Hi. rewrite Hb by done.
    replace (8 * p + F * 0) with (8 * p) by lia. destruct (Z.leb_spec (8 * p) i), (Z.ltb_spec i (8 * p + F)); cbn [andb].
    2-4: case_match eqn:Hc; [apply andb_prop in Hc as [Hc1%Z.leb_le Hc2%Z.ltb_lt]; lia|done].
    rewrite setValue_bits by lia. rewrite Hbits by lia. replace (i - 8 * p - s) with (i - (8 * p + s)) by lia.
    replace (8 * p + F * 0 + (i - 8 * p)) with i by lia.
    destruct (Z.leb_spec 0 (i - (8 * p + s))), (Z.ltb_spec (i - (8 * p + s)) delta), (Z.leb_spec (8 * p + s) i), (Z.ltb_spec i (8 * p + Z.min (s + delta) ((Z.of_nat 0 + 1) * F)));
      cbn; try lia; try done; by rewrite (proj2 (Z.ltb_lt _ _)) by lia.
  - destruct IH as (page1 & Hpack & Hok1 & Hsz1 & Hb1); [nia|nia|]. cbn [packSingleField]. run_eq Hpack.
    set (k := Z.of_nat (S f)) in *. rewrite (proj2 (Z.ltb_lt _ _)) by lia. cbn [ku_assert mbind outcome_bind].
    destruct (load_field_run page1 p k Hok1 Hp) as (e & He & Hbits); [lia|lia|]. run_eq He.
    destruct (store_field_run page1 p k (setValueForBitsMatchingMask t true e v (Z.ones delta) (k * F - s)) Hok1 Hp) as (page' & -> & Hok' & Hsz & Hb); [lia|lia|].
    exists page'. split; [done|]. split_and!; [done|lia|]. intros i Hi. rewrite Hb by done.
    replace ((Z.of_nat f + 1) * F) with (k * F) in Hb1 by lia. assert (Hkf : F * k = k * F) by lia.
    destruct (Z.leb_spec (8 * p + F * k) i), (Z.ltb_spec i (8 * p + F * k + F)); cbn [andb].
    2-4: rewrite Hb1 by done; destruct (Z.leb_spec (8 * p + s) i), (Z.ltb_spec i (8 * p + Z.min (s + delta) (k * F))),
      (Z.ltb_spec i (8 * p + Z.min (s + delta) ((k + 1) * F))); cbn; try lia; try done.
    rewrite setValue_bits by lia. rewrite Hbits by lia. replace (8 * p + F * k + (i - (8 * p + F * k))) with i by lia.
    replace (i - (8 * p + F * k) + (k * F - s)) with (i - (8 * p + s)) by lia. rewrite (proj2 (Z.ltb_lt (i - _) F)) by lia. cbn [andb].
    rewrite Hb1 by done.
    destruct (Z.leb_spec 0 (i - (8 * p + s))), (Z.ltb_spec (i - (8 * p + s)) delta), (Z.leb_spec (8 * p + s) i), (Z.ltb_spec i (8 * p + Z.min (s + delta) ((k + 1) * F))), (Z.ltb_spec i (8 * p + Z.min (s + delta) (k * F)));
      cbn; try lia; done.
Qed.

Lemma packSingle_run v page p i delta : bytes_ok page -> aligned t page p -> 0 <= i -> 0 < delta <= bits t ->
  8 * p + i * delta + delta <= 8 * size page ->
  exists page', packSingle t v page p delta i = Ret page' /\
    bits_set page page' (8 * p + i * delta) (8 * p + i * delta + delta) (fun b => Z.testbit v (b - (8 * p + i * delta))).
Proof.
  intros Hok Hal Hi Hd Hle. pose proof (field_sizes t Hw) as (Hn & HF & HW).
  destruct (pointer page p i delta) as (Hal' & Hs & Heq); [done|done|lia|]. unfold packSingle, packSingleImpl. rewrite all1s_ones by lia.
  set (p' := p + n * (i * delta / F)) in *. set (s := i * delta mod F) in *. pose proof (last_field_spec delta s Hs Hd) as Hlast.
  destruct (packSingleField_run (last_field t delta s) page p' s v delta) as (page' & -> & Hset); [done|apply Hal'|done|lia| |lia|].
  { eapply aligned_fits; [done|apply Hlast|lia]. }
  exists page'. split; [done|]. rewrite Heq in Hset. by replace (8 * p + i * delta + delta) with (8 * p' + Z.min (s + delta) ((Z.of_nat (last_field t delta s) + 1) * F)) by lia.
Qed.
End fields.

(** What the loops of [Bitpacking.v] do to a page, for every packing of whole chunks
    that keeps [FastPForLaws]; packing the values one at a time is one. *)

(** The values at the indices from [lo] to [hi] of the page have been replaced. *)
Definition packed (page page' : bytes) (bw lo hi : Z) (enc : Z -> Z) : Prop :=
  bits_set page page' (lo * bw) (hi * bw) (fun b => Z.testbit (enc (b / bw)) (b mod bw)).

(** FastPFor packs 32 values one after the other, in the low bits first, masks them to
    the width, and reads them back the same way. *)
Class FastPForLaws `{FastPFor} : Prop := {
  fastpack_packs t (Hw : width_ok t) (values : list Z) page p bw :
    bytes_ok page -> aligned t page p -> 0 < bw <= bits t -> length values = 32%nat -> p + 4 * bw <= size page ->
    exists page', fastpack t values page p bw = Ret page' /\
      bits_set page page' (8 * p) (8 * p + 32 * bw) (fun b => Z.testbit (nth (Z.to_nat ((b - 8 * p) / bw)) values 0) ((b - 8 * p) mod bw));
  fastunpack_unpacks t (Hw : width_ok t) page p bw :
    bytes_ok page -> aligned t page p -> 0 < bw <= bits t -> p + 4 * bw <= size page ->
    fastunpack t page p bw = Ret (map (fun i => raw page (8 * p + Z.of_nat i * bw) bw) (seq 0 32));
}.

(** ** Replaced ranges *)

Lemma bits_set_trans page page1 page2 lo mid hi f : lo <= mid <= hi ->
  bits_set page page1 lo mid f -> bits_set page1 page2 mid hi f -> bits_set page page2 lo hi f.
Proof.
  intros Hle (_ & Hs1 & Hb1) (Hok2 & Hs2 & Hb2). split_and!; [done|congruence|]. intros i Hi. rewrite Hb2, Hb1 by done.
  destruct (Z.leb_spec lo i), (Z.ltb_spec i mid), (Z.leb_spec mid i), (Z.ltb_spec i hi); cbn; done || lia.
Qed.

Lemma bits_set_refl page lo f : bytes_ok page -> bits_set page page lo lo f.
Proof. intros Hok. split_and!; [done..|]. intros i Hi. destruct (Z.leb_spec lo i), (Z.ltb_spec i lo); cbn; done || lia. Qed.

Lemma bits_set_ext page page' lo hi f g : (forall i, lo <= i < hi -> f i = g i) -> bits_set page page' lo hi f -> bits_set page page' lo hi g.
Proof.
  intros Hfg (Hok & Hs & Hb). split_and!; [done..|]. intros i Hi. rewrite Hb by done.
  destruct (Z.leb_spec lo i), (Z.ltb_spec i hi); cbn; [by apply Hfg|done..].
Qed.

Lemma bit_index bw lo b : 0 < bw -> lo * bw <= b < (lo + 1) * bw -> b / bw = lo /\ b mod bw = b - lo * bw.
Proof.
  intros Hbw Hb. assert (Hq : b / bw = lo) by (symmetry; apply Z.div_unique with (r := b - lo * bw); [left; lia|lia]).
  split; [done|]. pose proof (Z.div_mod b bw ltac:(lia)) as Hdm. rewrite Hq in Hdm. lia.
Qed.

Lemma packed_trans page page1 page2 bw lo mid hi enc : 0 <= bw -> lo <= mid <= hi ->
  packed page page1 bw lo mid enc -> packed page1 page2 bw mid hi enc -> packed page page2 bw lo hi enc.
Proof. intros Hbw Hle. apply bits_set_trans. nia. Qed.

Lemma packed_refl page bw lo enc : bytes_ok page -> packed page page bw lo lo enc.
Proof. apply bits_set_refl. Qed.

Lemma packed_page page page' bw lo hi enc : packed page page' bw lo hi enc -> bytes_ok page' /\ size page' = size page.
Proof. by intros (Hok & Hs & _). Qed.

Lemma packed_aligned t page page' bw lo hi enc p : packed page page' bw lo hi enc -> aligned t page p -> aligned t page' p.
Proof. intros (_ & Hs & _) (Hp & Hpm & Hsm). by rewrite <-Hs in Hsm. Qed.

(** What is read at an index afterwards. *)
Lemma packed_raw page page' bw lo hi enc i : 0 < bw -> 0 <= lo -> 0 <= i -> packed page page' bw lo hi enc ->
  raw page' (i * bw) bw = if (lo <=? i) && (i <? hi) then Z.land (enc i) (Z.ones bw) else raw page (i * bw) bw.
Proof.
  intros Hbw Hlo Hi (_ & _ & Hb). assert (0 <= i * bw) by nia. apply Z.bits_inj'. intros j Hj. rewrite testbit_raw by lia.
  assert (Hrange : j < bw -> (lo * bw <=? i * bw + j) && (i * bw + j <? hi * bw) = (lo <=? i) && (i <? hi)).
  { intros Hlt. destruct (Z.leb_spec lo i), (Z.ltb_spec i hi), (Z.leb_spec (lo * bw) (i * bw + j)), (Z.ltb_spec (i * bw + j) (hi * bw)); cbn; try done; nia. }
  case_match eqn:Hc.
  - rewrite Z.land_spec, Z.testbit_ones_nonneg by lia. destruct (Z.ltb_spec j bw); [|by rewrite andb_false_r].
    rewrite Hb, Hrange by lia. destruct (bit_index bw i (i * bw + j)) as [-> ->]; [done|nia|]. cbn. rewrite andb_true_r. f_equal. lia.
  - rewrite testbit_raw by lia. destruct (Z.ltb_spec j bw); [|done]. by rewrite Hb, Hrange by lia.
Qed.

(** ** Values of the source *)

Lemma array_slice_run buffer pos n : 0 <= pos -> 0 <= n -> pos + n <= Z.of_nat (length buffer) ->
  exists values, array_slice buffer pos n = Ret values /\ length values = Z.to_nat n /\
    forall i, 0 <= i < n -> nth (Z.to_nat i) values 0 = nth (Z.to_nat (pos + i)) buffer 0.
Proof.
  intros Hp Hn Hle. unfold array_slice. rewrite !(proj2 (Z.leb_le _ _)) by lia. eexists. split; [done|]. split.
  - rewrite length_take, length_drop. lia.
  - intros i Hi. rewrite !nth_lookup, lookup_take, lookup_drop. rewrite decide_True by lia.
    do 2 f_equal. lia.
Qed.

Lemma nth_map_in {A} (f : A -> Z) (l : list A) (i : nat) d : (i < length l)%nat -> nth i (map f l) 0 = f (nth i l d).
Proof. intros Hi. rewrite (nth_indep _ 0 (f d)) by (by rewrite length_map). apply map_nth. Qed.

Lemma for_range_ext {St} (f g : nat -> St -> outcome St) lo n s : (forall i s, f i s = g i s) -> for_range lo n f s = for_range lo n g s.
Proof.
  intros Hfg. revert lo s. induction n as [|n IH]; intros lo s; [done|]. cbn [for_range]. rewrite Hfg. by destruct (g lo s); cbn.
Qed.

Section pages.
Context `{FastPForLaws} (t : int_type) {Hw : width_ok t}.

(** The number kept for the index [j], when the source from [posInSrc] on goes to
    the page from [posInDst] on. *)
Definition encoded (info : BitpackInfo) (src : list Z) (posInSrc posInDst j : Z) : Z :=
  castU t (nth (Z.to_nat (j - posInDst + posInSrc)) src 0 - offset info).

Lemma nth_encoded info (values src : list Z) posInSrc posInDst n j : length values = Z.to_nat n -> 0 <= j < n ->
  (forall i, 0 <= i < n -> nth (Z.to_nat i) values 0 = nth (Z.to_nat (posInSrc + i)) src 0) ->
  nth (Z.to_nat j) (copyValuesToTempChunkWithOffset t values info) 0 = encoded info src posInSrc posInDst (posInDst + j).
Proof.
  intros Hlen Hj Hv. unfold copyValuesToTempChunkWithOffset, encoded. rewrite (nth_map_in _ _ _ 0) by lia. rewrite Hv by done. do 3 f_equal. lia.
Qed.

Lemma packPartialChunk_run values page p base posInDst n info enc :
  let bw := bitWidth info in
  bytes_ok page -> aligned t page p -> 8 * p = base * bw -> 0 <= posInDst -> 0 <= base -> 0 <= n -> 0 < bw <= bits t ->
  length values = Z.to_nat n -> (base + posInDst + n) * bw <= 8 * size page ->
  (forall i, 0 <= i < n -> nth (Z.to_nat i) values 0 = enc (base + posInDst + i)) ->
  exists page', packPartialChunk t values page p posInDst info n = Ret page' /\
    packed page page' bw (base + posInDst) (base + posInDst + n) enc.
Proof.
  intros bw Hok Hal Hp Hpos Hbase Hn Hbw Hlen Hle Henc. unfold packPartialChunk.
  destruct (for_range_inv (fun k page' => packed page page' bw (base + posInDst) (base + posInDst + Z.of_nat k) enc)
              0 (Z.to_nat n) (fun i dstBuffer => v ← load values i; packSingle t v dstBuffer p (bitWidth info) (Z.of_nat i + posInDst)) page)
    as (page' & Hrun & Hpacked).
  - rewrite Z.add_0_r. by apply packed_refl.
  - intros k page1 Hk Hpk. cbn [Nat.add]. pose proof (packed_page _ _ _ _ _ _ Hpk) as [Hok1 Hs1].
    destruct (load_lt values k ltac:(lia)) as (v & Hv & ->). cbn [mbind outcome_bind].
    assert (Hev : v = enc (base + posInDst + Z.of_nat k)).
    { rewrite <-Henc by lia. rewrite Nat2Z.id. by rewrite nth_lookup, Hv. }
    assert (Hstart : 8 * p + (Z.of_nat k + posInDst) * bw = (base + posInDst + Z.of_nat k) * bw) by lia.
    fold bw. destruct (packSingle_run t v page1 p (Z.of_nat k + posInDst) bw) as (page2 & -> & Hset); [done|by eapply packed_aligned|lia|done| |].
    { rewrite Hs1. nia. }
    exists page2. split; [done|]. eapply packed_trans; [lia| |exact Hpk|]; [lia|].
    rewrite Hstart in Hset. unfold packed. replace ((base + posInDst + Z.of_nat (S k)) * bw) with ((base + posInDst + Z.of_nat k) * bw + bw) by lia.
    eapply bits_set_ext; [|exact Hset]. intros b Hb. cbn beta.
    destruct (bit_index bw (base + posInDst + Z.of_nat k) b) as [-> ->]; [lia|lia|]. by rewrite Hev.
  - exists page'. split; [done|]. by rewrite Z2Nat.id in Hpacked by lia.
Qed.

Lemma setPartialChunkInPlace_run src posInSrc page pos posInDst n info :
  bytes_ok page -> aligned t page 0 -> 0 <= posInSrc -> 0 <= pos -> 0 <= n -> 0 < bitWidth info <= bits t ->
  0 <= posInDst <= pos -> posInSrc + (pos - posInDst) + n <= Z.of_nat (length src) -> (pos + n) * bitWidth info <= 8 * size page ->
  exists page', setPartialChunkInPlace t src (posInSrc + (pos - posInDst)) page pos n info = Ret page' /\
    packed page page' (bitWidth info) pos (pos + n) (encoded info src posInSrc posInDst).
Proof.
  intros Hok Hal Hsrc Hpos Hn Hbw Hdst Hlen Hle. unfold setPartialChunkInPlace.
  destruct (array_slice_run src (posInSrc + (pos - posInDst)) n) as (values & -> & Hlv & Hv); [lia..|]. cbn [mbind outcome_bind].
  destruct (packPartialChunk_run (copyValuesToTempChunkWithOffset t values info) page 0 0 pos n info (encoded info src posInSrc posInDst))
    as (page' & Hrun & Hp); try done; try lia.
  - unfold copyValuesToTempChunkWithOffset. by rewrite length_map.
  - intros i Hi. rewrite (nth_encoded info values src (posInSrc + (pos - posInDst)) pos n i Hlv Hi Hv). unfold encoded. do 3 f_equal. lia.
  - exists page'. split; [done|]. by rewrite Z.add_0_l in Hp.
Qed.

(** ** Whole chunks *)

Lemma chunk_pointer page lo bw : aligned t page 0 -> 0 <= lo -> lo mod 32 = 0 -> 0 < bw ->
  lo * bw / 8 = 4 * bw * (lo / 32) /\ 8 * (lo * bw / 8) = lo * bw /\ aligned t page (lo * bw / 8).
Proof.
  intros (_ & _ & Hsm) Hlo Hm Hbw. pose proof (Z.div_mod lo 32 ltac:(lia)) as Hdm. rewrite Hm in Hdm. set (q := lo / 32) in *.
  assert (Heq : lo * bw / 8 = 4 * bw * q) by (symmetry; apply Z.div_unique with (r := 0); lia).
  split; [done|]. split; [lia|]. split; [|split; [|done]].
  - rewrite Heq. assert (0 <= q) by (by apply Z.div_pos). nia.
  - rewrite Heq. destruct (field_sizes t Hw) as ([->| ->] & _); [by rewrite Z.mod_1_r|].
    replace (4 * bw * q) with (bw * q * 4) by lia. by apply Z.mod_mul.
Qed.

Lemma fastpack_run values page lo info enc :
  let bw := bitWidth info in
  bytes_ok page -> aligned t page 0 -> 0 <= lo -> lo mod 32 = 0 -> 0 < bw <= bits t -> length values = 32%nat ->
  (lo + 32) * bw <= 8 * size page -> (forall i, 0 <= i < 32 -> nth (Z.to_nat i) values 0 = enc (lo + i)) ->
  exists page', fastpack t values page (lo * bw / 8) bw = Ret page' /\ packed page page' bw lo (lo + 32) enc.
Proof.
  intros bw Hok Hal Hlo Hm Hbw Hlen Hle Henc. destruct (chunk_pointer page lo bw Hal Hlo Hm) as (Hp & Hp8 & Hal'); [lia|].
  destruct (fastpack_packs t Hw values page (lo * bw / 8) bw) as (page' & -> & Hset); try done; [lia|].
  exists page'. split; [done|]. rewrite Hp8 in Hset. unfold packed. replace ((lo + 32) * bw) with (lo * bw + 32 * bw) by lia.
  eapply bits_set_ext; [|exact Hset]. intros b Hb. cbn beta.
  assert (Hq : 0 <= (b - lo * bw) / bw < 32) by (split; [apply Z.div_pos; lia|apply Z.div_lt_upper_bound; lia]).
  rewrite Henc by done. replace b with (b - lo * bw + lo * bw) at 3 4 by lia. rewrite Z.div_add, Z.mod_add by lia. do 2 f_equal. lia.
Qed.

Lemma set_chunks_run fuel src posInSrc page posInDst n dstIndex info : (Z.to_nat (posInDst + n - dstIndex) <= fuel)%nat ->
  bytes_ok page -> aligned t page 0 -> 0 <= posInSrc -> 0 <= posInDst <= dstIndex -> dstIndex <= posInDst + n -> 
  (posInDst + n - dstIndex < 32 \/ dstIndex mod 32 = 0) -> 0 < bitWidth info <= bits t ->
  posInSrc + n <= Z.of_nat (length src) -> (posInDst + n) * bitWidth info <= 8 * size page ->
  exists page' last, set_chunks t fuel src posInSrc page posInDst n dstIndex info = Ret (page', last) /\
    dstIndex <= last /\ posInDst + n - 32 < last <= posInDst + n /\
    packed page page' (bitWidth info) dstIndex last (encoded info src posInSrc posInDst).
Proof.
  revert page dstIndex. induction fuel as [|fuel IH]; intros page dstIndex Hf Hok Hal Hsrc Hpos Hhi Hm Hbw Hlen Hle; cbn [set_chunks];
    unfold CHUNK_SIZE; destruct (Z.leb_spec (dstIndex + 32) (posInDst + n)).
  2,4: exists page, dstIndex; split; [done|]; split_and!; [lia..|by apply packed_refl].
  - lia.
  - destruct (array_slice_run src (posInSrc + dstIndex - posInDst) 32) as (values & -> & Hlv & Hv); [lia..|]. cbn [mbind outcome_bind].
    destruct Hm as [Hm|Hm]; [lia|].
    destruct (fastpack_run (copyValuesToTempChunkWithOffset t values info) page dstIndex info (encoded info src posInSrc posInDst))
      as (page1 & -> & Hp1); try done; try lia.
    { unfold copyValuesToTempChunkWithOffset. by rewrite length_map. }
    { nia. }
    { intros i Hi. rewrite (nth_encoded info values src (posInSrc + dstIndex - posInDst) dstIndex 32 i Hlv Hi Hv). unfold encoded. do 3 f_equal. lia. }
    cbn [mbind outcome_bind]. pose proof (packed_page _ _ _ _ _ _ Hp1) as [Hok1 Hs1].
    destruct (IH page1 (dstIndex + 32)) as (page' & last & -> & Hlast & Hrange & Hp2); try done; try lia.
    { by eapply packed_aligned. }
    { right. replace (dstIndex + 32) with (dstIndex + 1 * 32) by lia. by rewrite Z.mod_add by lia. }
    exists page', last. split_and!; [done|lia..|]. eapply packed_trans; [lia| |exact Hp1|exact Hp2]. lia.
Qed.

Lemma setValues_run src posInSrc page posInDst n metadata nullMask :
  let info := getPackingInfo t metadata in
  all_fit t src posInSrc n metadata nullMask = Ret tt ->
  bytes_ok page -> aligned t page 0 -> 0 <= posInSrc -> 0 <= posInDst -> 0 <= n -> 0 < bitWidth info <= bits t ->
  posInSrc + n <= Z.of_nat (length src) -> (posInDst + n) * bitWidth info <= 8 * size page ->
  exists page', setValuesFromUncompressed t src posInSrc page posInDst n metadata nullMask = Ret page' /\
    packed page page' (bitWidth info) posInDst (posInDst + n) (encoded info src posInSrc posInDst).
Proof.
  intros info Hfit Hok Hal Hsrc Hpos Hn Hbw Hlen Hle. unfold setValuesFromUncompressed. run_eq Hfit. fold info. unfold CHUNK_SIZE.
  pose proof (Z.mod_pos_bound posInDst 32 ltac:(lia)) as Hmod. pose proof (Z.div_mod posInDst 32 ltac:(lia)) as Hdm.
  set (first := Z.min (32 - posInDst mod 32) n).
  assert (exists page1 dstIndex, (if first <? 32
      then dstBuffer ← setPartialChunkInPlace t src posInSrc page posInDst first info; mret (dstBuffer, posInDst + first)
      else mret (page, posInDst)) = Ret (page1, dstIndex) /\ posInDst <= dstIndex <= posInDst + n /\
      (posInDst + n - dstIndex < 32 \/ dstIndex mod 32 = 0) /\
      packed page page1 (bitWidth info) posInDst dstIndex (encoded info src posInSrc posInDst)) as (page1 & dstIndex & -> & Hd & Hm & Hp1).
  { destruct (Z.ltb_spec first 32).
    - destruct (setPartialChunkInPlace_run src posInSrc page posInDst posInDst first info) as (page1 & Hrun & Hp); try done; try lia; [nia|].
      rewrite Z.sub_diag, Z.add_0_r in Hrun. run_eq Hrun. exists page1, (posInDst + first). split_and!; [done|lia..| |done].
      destruct (Z.le_gt_cases n (32 - posInDst mod 32)); [left; lia|right].
      replace (posInDst + first) with ((posInDst / 32 + 1) * 32) by lia. by apply Z.mod_mul.
    - exists page, posInDst. split_and!; [done|lia|lia|right; lia|by apply packed_refl]. }
  pose proof (packed_page _ _ _ _ _ _ Hp1) as [Hok1 Hs1]. cbn [mbind outcome_bind].
  destruct (set_chunks_run (Z.to_nat n) src posInSrc page1 posInDst n dstIndex info) as (page2 & last & -> & Hl1 & Hl2 & Hp2); try done; try lia.
  { by eapply packed_aligned. }
  cbn [mbind outcome_bind]. pose proof (packed_page _ _ _ _ _ _ Hp2) as [Hok2 Hs2].
  assert (Hp12 : packed page page2 (bitWidth info) posInDst last (encoded info src posInSrc posInDst)).
  { eapply packed_trans; [lia| |exact Hp1|exact Hp2]. lia. }
  destruct (Z.ltb_spec 0 (n - (last - posInDst))).
  - replace (posInDst + (last - posInDst)) with last by lia.
    destruct (setPartialChunkInPlace_run src posInSrc page2 last posInDst (n - (last - posInDst)) info) as (page3 & -> & Hp3); try done; try lia.
    { by eapply packed_aligned. }
    exists page3. split; [done|]. replace (last + (n - (last - posInDst))) with (posInDst + n) in Hp3 by lia.
    eapply packed_trans; [lia| |exact Hp12|exact Hp3]. lia.
  - exists page2. split; [done|]. by replace (posInDst + n) with last by lia.
Qed.

(** ** Reading *)

(** A value kept as the number [out], as a [T]. *)
Definition decoded (info : BitpackInfo) (out : Z) : Z :=
  let out := if hasNegative info && (0 <? bitWidth info) then cast t (Z.lxor out (2 ^ (bitWidth info - 1)) - 2 ^ (bitWidth info - 1)) else cast t out in
  if negb (offset info =? 0) then cast t (out + offset info) else out.

(** The width at which sign extension is defined. *)
Definition extensible (info : BitpackInfo) : Prop := hasNegative info = true -> bitWidth info < bits t.

Lemma cast_id z : MIN t <= z <= MAX t -> cast t z = z.
Proof.
  unfold MIN, MAX, cast. intros Hz.
  assert (2 ^ bits t = 2 * 2 ^ (bits t - 1)) by (rewrite <-Z.pow_succ_r by (destruct Hw as [->|[->|[->| ->]]]; lia); f_equal; lia).
  destruct (is_signed t); rewrite wrap_small by lia; lia.
Qed.

Lemma restore_run info out : 0 < bitWidth info <= bits t -> extensible info -> 0 <= out < 2 ^ bitWidth info ->
  restore_value t out info = Ret (decoded info out).
Proof.
  intros Hbw Hext Hout. unfold restore_value, decoded. set (bw := bitWidth info) in *. rewrite (proj2 (Z.ltb_lt 0 bw)) by lia.
  destruct (hasNegative info) eqn:En; cbn [andb]; [|by destruct (negb (offset info =? 0))].
  specialize (Hext En). unfold SignExtend. rewrite (proj2 (Z.ltb_lt bw (bits t))) by lia. cbn [ku_assert mbind outcome_bind].
  assert (Hpow : 2 ^ bw = 2 * 2 ^ (bw - 1)) by (rewrite <-Z.pow_succ_r by lia; f_equal; lia).
  assert (Hle : 2 ^ bw <= 2 ^ (bits t - 1)) by (apply Z.pow_le_mono_r; lia).
  assert (HW : 2 ^ bits t = 2 * 2 ^ (bits t - 1)) by (rewrite <-Z.pow_succ_r by lia; f_equal; lia).
  assert (Hpos : 0 < 2 ^ (bw - 1)) by (apply Z.pow_pos_nonneg; lia).
  assert (Hsmall : forall z, 0 <= z < 2 ^ bw -> cast t z = z).
  { intros z Hz. apply cast_id. unfold MIN, MAX. destruct (is_signed t); lia. }
  rewrite Z.shiftl_1_l. unfold castU. rewrite all1s_ones by lia. rewrite (wrap_small (bits t) (2 ^ (bw - 1))) by lia.
  rewrite (wrap_small (bits t) out) by lia. rewrite Z.land_ones, (Z.mod_small out) by lia. rewrite (Hsmall (2 ^ (bw - 1))), (Hsmall out) by lia. done.
Qed.

(** The elements from [lo] to [hi] of an array have been replaced. *)
Definition replaced (dst dst' : list Z) (lo hi : Z) (f : Z -> Z) : Prop :=
  length dst' = length dst /\
  forall i, dst' !! i = if (lo <=? Z.of_nat i) && (Z.of_nat i <? hi) then Some (f (Z.of_nat i)) else dst !! i.

Lemma replaced_refl dst lo f : replaced dst dst lo lo f.
Proof. split; [done|]. intros i. destruct (Z.leb_spec lo (Z.of_nat i)), (Z.ltb_spec (Z.of_nat i) lo); cbn; done || lia. Qed.

Lemma replaced_trans dst dst1 dst2 lo mid hi f : lo <= mid <= hi -> replaced dst dst1 lo mid f -> replaced dst1 dst2 mid hi f -> replaced dst dst2 lo hi f.
Proof.
  intros Hle [Hl1 H1] [Hl2 H2]. split; [congruence|]. intros i. rewrite H2, H1.
  destruct (Z.leb_spec lo (Z.of_nat i)), (Z.ltb_spec (Z.of_nat i) mid), (Z.leb_spec mid (Z.of_nat i)), (Z.ltb_spec (Z.of_nat i) hi); cbn; done || lia.
Qed.

Lemma replaced_ext dst dst' lo hi f g : (forall i, lo <= i < hi -> f i = g i) -> replaced dst dst' lo hi f -> replaced dst dst' lo hi g.
Proof.
  intros Hfg [Hl Hd]. split; [done|]. intros i. rewrite Hd. case_match eqn:Hc; [|done]. apply andb_prop in Hc as [Hc1%Z.leb_le Hc2%Z.ltb_lt].
  by rewrite Hfg by lia.
Qed.

(** The loop that both ways of unpacking end in. *)
Lemma store_loop (get : nat -> outcome Z) dst dstIndex n f : 0 <= dstIndex -> dstIndex + Z.of_nat n <= Z.of_nat (length dst) ->
  (forall i, (i < n)%nat -> get i = Ret (f (dstIndex + Z.of_nat i))) ->
  exists dst', for_range 0 n (fun i dst => v ← get i; store dst (Z.to_nat dstIndex + i) v) dst = Ret dst' /\
    replaced dst dst' dstIndex (dstIndex + Z.of_nat n) f.
Proof.
  intros Hi Hle Hget.
  apply (for_range_inv (fun k dst' => replaced dst dst' dstIndex (dstIndex + Z.of_nat k) f)).
  - rewrite Z.add_0_r. apply replaced_refl.
  - intros k dst1 Hk Hrep. cbn [Nat.add]. rewrite Hget by done. cbn [mbind outcome_bind]. pose proof Hrep as [Hl1 _].
    rewrite store_Ret by lia. eexists. split; [done|]. eapply replaced_trans; [|exact Hrep|]; [lia|]. split; [by rewrite length_insert|].
    intros i. destruct (decide (i = (Z.to_nat dstIndex + k)%nat)) as [->|Hne].
    + rewrite list_lookup_insert_eq by lia. rewrite (proj2 (Z.leb_le _ _)), (proj2 (Z.ltb_lt _ _)) by lia. cbn. do 2 f_equal. lia.
    + rewrite list_lookup_insert_ne by done.
      destruct (Z.leb_spec (dstIndex + Z.of_nat k) (Z.of_nat i)), (Z.ltb_spec (Z.of_nat i) (dstIndex + Z.of_nat (S k))); cbn; done || lia.
Qed.

(** The value at an index of a page. *)
Definition value_at (info : BitpackInfo) (page : bytes) (i : Z) : Z := decoded info (raw page (i * bitWidth info) (bitWidth info)).

Lemma getValues_run page chunk pos dst dstIndex n info :
  bytes_ok page -> aligned t page 0 -> 0 < bitWidth info <= bits t -> extensible info ->
  0 <= chunk -> chunk mod 32 = 0 -> 0 <= pos -> 0 <= n -> pos + n <= 32 -> 0 <= dstIndex -> dstIndex + n <= Z.of_nat (length dst) ->
  (chunk + pos + n) * bitWidth info <= 8 * size page ->
  exists dst', getValues t page (chunk * bitWidth info / 8) pos dst dstIndex n info = Ret dst' /\
    replaced dst dst' dstIndex (dstIndex + n) (fun i => value_at info page (chunk + pos + (i - dstIndex))).
Proof.
  intros Hok Hal Hbw Hext Hc Hm Hpos Hn H32 Hd Hlen Hle. unfold getValues, CHUNK_SIZE. rewrite (proj2 (Z.leb_le _ _)) by lia. cbn [ku_assert mbind outcome_bind].
  destruct (chunk_pointer page chunk (bitWidth info) Hal Hc Hm) as (_ & Hp8 & Hal'); [lia|].
  destruct (store_loop (fun i => out ← unpackSingle t page (chunk * bitWidth info / 8) (bitWidth info) (pos + Z.of_nat i); restore_value t out info)
    dst dstIndex (Z.to_nat n) (fun i => value_at info page (chunk + pos + (i - dstIndex)))) as (dst' & Hrun & Hrep); [done|lia| |].
  { intros i Hi. rewrite unpackSingle_run by (done || lia || nia). cbn [mbind outcome_bind].
    rewrite restore_run by (done || (apply raw_range; lia)). unfold value_at. do 3 f_equal. lia. }
  exists dst'. rewrite Z2Nat.id in Hrep by lia. split; [|done]. rewrite <-Hrun. apply for_range_ext. intros i l. by rewrite outcome_bind_assoc.
Qed.

Lemma get_chunk_run page lo dst dstIndex info :
  bytes_ok page -> aligned t page 0 -> 0 < bitWidth info <= bits t -> extensible info -> 0 <= lo -> lo mod 32 = 0 ->
  0 <= dstIndex -> dstIndex + 32 <= Z.of_nat (length dst) -> (lo + 32) * bitWidth info <= 8 * size page ->
  exists dst', get_chunk t page (lo * bitWidth info / 8) dst dstIndex info = Ret dst' /\
    replaced dst dst' dstIndex (dstIndex + 32) (fun i => value_at info page (lo + (i - dstIndex))).
Proof.
  intros Hok Hal Hbw Hext Hlo Hm Hd Hlen Hle. destruct (chunk_pointer page lo (bitWidth info) Hal Hlo Hm) as (_ & Hp8 & Hal'); [lia|].
  unfold get_chunk. rewrite (fastunpack_unpacks t Hw) by (done || lia). cbn [mbind outcome_bind].
  set (values := map _ _).
  destruct (store_loop (fun i => out ← load values i; restore_value t out info) dst dstIndex 32 (fun i => value_at info page (lo + (i - dstIndex))))
    as (dst' & Hrun & Hrep); [done|lia| |].
  { intros i Hi. assert (Hv : values !! i = Some (raw page ((lo + Z.of_nat i) * bitWidth info) (bitWidth info))).
    { unfold values. rewrite list_lookup_fmap, lookup_seq_lt by done. cbn. do 2 f_equal. lia. }
    rewrite (load_Ret _ _ _ Hv). cbn [mbind outcome_bind]. rewrite restore_run by (done || (apply raw_range; lia)). unfold value_at. do 3 f_equal. lia. }
  exists dst'. split; [|done]. rewrite <-Hrun. apply for_range_ext. intros i l. by rewrite outcome_bind_assoc.
Qed.
End pages.
