(* ===== verification/BitpackingPages.v ===== *)
(** Pages as arrays of values: what is decompressed from a page, what compressing into it
    and setting values in it leave, and packing one value at a time as an instance of
    [FastPFor]; then how many bits the values need. *)
From S2P Require Import Prelude Serializer NullMask Bitpacking BitpackingFacts.
Local Open Scope Z_scope.

Section pages.
Context `{FastPForLaws} (t : int_type) {Hw : width_ok t}.

Lemma get_chunks_run fuel page srcIndex dst dstOffset n dstIndex info : (Z.to_nat (dstOffset + n - dstIndex) <= fuel)%nat ->
  bytes_ok page -> aligned t page 0 -> 0 < bitWidth info <= bits t -> extensible t info -> 0 <= srcIndex ->
  0 <= dstOffset <= dstIndex -> dstIndex <= dstOffset + n -> (dstOffset + n - dstIndex < 32 \/ srcIndex mod 32 = 0) ->
  dstOffset + n <= Z.of_nat (length dst) -> (srcIndex + (dstOffset + n - dstIndex)) * bitWidth info <= 8 * size page ->
  exists dst' k, get_chunks t fuel page (srcIndex * bitWidth info / 8) dst dstOffset n dstIndex info =
      Ret (dst', (srcIndex + 32 * k) * bitWidth info / 8, dstIndex + 32 * k) /\
    0 <= k /\ dstOffset + n - 32 < dstIndex + 32 * k <= dstOffset + n /\ ((srcIndex + 32 * k) mod 32 = 0 \/ k = 0) /\
    replaced dst dst' dstIndex (dstIndex + 32 * k) (fun i => value_at t info page (srcIndex + (i - dstIndex))).
Proof.
  revert dst srcIndex dstIndex. induction fuel as [|fuel IH]; intros dst srcIndex dstIndex Hf Hok Hal Hbw Hext Hsrc Hoff Hhi Hm Hlen Hle; cbn [get_chunks];
    unfold CHUNK_SIZE; destruct (Z.leb_spec (dstIndex + 32) (dstOffset + n)).
  2,4: exists dst, 0; rewrite !Z.mul_0_r, !Z.add_0_r; split; [done|]; split_and!; [lia..|by right|apply replaced_refl].
  - lia.
  - destruct Hm as [Hm|Hm]; [lia|].
    destruct (get_chunk_run t page srcIndex dst dstIndex info) as (dst1 & -> & Hr1); try done; try lia; [nia|].
    cbn [mbind outcome_bind]. pose proof (proj1 Hr1) as Hl1.
    assert (Hcur : srcIndex * bitWidth info / 8 + 32 / 8 * bitWidth info = (srcIndex + 32) * bitWidth info / 8).
    { replace ((srcIndex + 32) * bitWidth info) with (srcIndex * bitWidth info + (4 * bitWidth info) * 8) by lia. rewrite Z.div_add by lia.
      change (32 / 8) with 4. lia. }
    rewrite Hcur. destruct (IH dst1 (srcIndex + 32) (dstIndex + 32)) as (dst' & k & -> & Hk & Hend & Hmk & Hr2); try done; try lia.
    { right. replace (srcIndex + 32) with (srcIndex + 1 * 32) by lia. by rewrite Z.mod_add by lia. }
    exists dst', (k + 1). replace (srcIndex + 32 + 32 * k) with (srcIndex + 32 * (k + 1)) by lia.
    replace (dstIndex + 32 + 32 * k) with (dstIndex + 32 * (k + 1)) by lia. split; [done|]. split_and!; [lia..| |].
    + left. replace (srcIndex + 32 * (k + 1)) with (srcIndex + (k + 1) * 32) by lia. by rewrite Z.mod_add by lia.
    + replace (dstIndex + 32 * (k + 1)) with (dstIndex + 32 + 32 * k) by lia. eapply replaced_trans; [|exact Hr1|]; [lia|].
      eapply replaced_ext; [|exact Hr2]. intros i _. cbn beta. f_equal. lia.
Qed.

(** A page is read like an array. *)
Lemma decompressFromPage_run page srcOffset dst dstOffset n metadata :
  let info := getPackingInfo t metadata in
  bytes_ok page -> aligned t page 0 -> 0 < bitWidth info <= bits t -> extensible t info ->
  0 <= srcOffset -> 0 <= dstOffset -> 0 <= n -> dstOffset + n <= Z.of_nat (length dst) -> (srcOffset + n) * bitWidth info <= 8 * size page ->
  exists dst', decompressFromPage t page srcOffset dst dstOffset n metadata = Ret dst' /\
    replaced dst dst' dstOffset (dstOffset + n) (fun i => value_at t info page (srcOffset + (i - dstOffset))).
Proof.
  intros info Hok Hal Hbw Hext Hsrc Hdst Hn Hlen Hle. unfold decompressFromPage. fold info.
  pose proof (Z.div_mod srcOffset 32 ltac:(lia)) as Hdm. pose proof (Z.mod_pos_bound srcOffset 32 ltac:(lia)) as Hmod.
  assert (0 <= srcOffset / 32) as Hq by (by apply Z.div_pos). set (c := 32 * (srcOffset / 32)) in *.
  assert (Hc : c mod 32 = 0) by (unfold c; rewrite Z.mul_comm; by apply Z.mod_mul).
  assert (Hcur : getChunkStart srcOffset (bitWidth info) = c * bitWidth info / 8).
  { unfold getChunkStart, CHUNK_SIZE, c. f_equal. lia. }
  rewrite Hcur. unfold CHUNK_SIZE. set (first := Z.min (32 - srcOffset mod 32) n).
  destruct (Z.ltb_spec first 32).
  - destruct (getValues_run t page c (srcOffset mod 32) dst dstOffset first info) as (dst1 & -> & Hr1); try done; try lia; [nia|].
    cbn [mbind outcome_bind]. replace (c + srcOffset mod 32) with srcOffset in Hr1 by lia.
    destruct (Z.eqb_spec n first) as [Heq|Hne]; cbn [mret outcome_ret mbind outcome_bind].
    { exists dst1. split; [done|]. by rewrite Heq. }
    assert (Hfirst : first = 32 - srcOffset mod 32) by lia.
    assert (Hcur2 : c * bitWidth info / 8 + 32 / 8 * bitWidth info = (c + 32) * bitWidth info / 8).
    { replace ((c + 32) * bitWidth info) with (c * bitWidth info + (4 * bitWidth info) * 8) by lia. rewrite Z.div_add by lia. change (32 / 8) with 4. lia. }
    rewrite Hcur2. pose proof (proj1 Hr1) as Hl1.
    destruct (get_chunks_run (Z.to_nat n) page (c + 32) dst1 dstOffset n (dstOffset + first) info) as (dst2 & k & -> & Hk & Hend & Hmk & Hr2); try done; try lia.
    { right. replace (c + 32) with (c + 1 * 32) by lia. by rewrite Z.mod_add by lia. }
    cbn [mbind outcome_bind]. pose proof (proj1 Hr2) as Hl2.
    assert (Hr12 : replaced dst dst2 dstOffset (dstOffset + first + 32 * k) (fun i => value_at t info page (srcOffset + (i - dstOffset)))).
    { eapply replaced_trans; [|exact Hr1|]; [lia|]. eapply replaced_ext; [|exact Hr2]. intros i _. cbn beta. f_equal. lia. }
    destruct (Z.ltb_spec (dstOffset + first + 32 * k) (dstOffset + n)).
    + destruct (getValues_run t page (c + 32 + 32 * k) 0 dst2 (dstOffset + first + 32 * k) (dstOffset + n - (dstOffset + first + 32 * k)) info)
        as (dst3 & -> & Hr3); try done; try lia.
      { replace (c + 32 + 32 * k) with (c + (1 + k) * 32) by lia. by rewrite Z.mod_add by lia. }
      exists dst3. split; [done|]. eapply replaced_trans; [|exact Hr12|]; [lia|].
      replace (dstOffset + n) with (dstOffset + first + 32 * k + (dstOffset + n - (dstOffset + first + 32 * k))) by lia.
      eapply replaced_ext; [|exact Hr3]. intros i _. cbn beta. f_equal. lia.
    + exists dst2. split; [done|]. by replace (dstOffset + n) with (dstOffset + first + 32 * k) by lia.
  - cbn [mret outcome_ret mbind outcome_bind]. replace c with srcOffset in * by lia.
    destruct (get_chunks_run (Z.to_nat n) page srcOffset dst dstOffset n dstOffset info) as (dst2 & k & -> & Hk & Hend & Hmk & Hr2); try done; try lia.
    cbn [mbind outcome_bind]. pose proof (proj1 Hr2) as Hl2.
    destruct (Z.ltb_spec (dstOffset + 32 * k) (dstOffset + n)).
    + destruct (getValues_run t page (srcOffset + 32 * k) 0 dst2 (dstOffset + 32 * k) (dstOffset + n - (dstOffset + 32 * k)) info)
        as (dst3 & -> & Hr3); try done; try lia.
      exists dst3. split; [done|]. eapply replaced_trans; [|exact Hr2|]; [lia|].
      replace (dstOffset + n) with (dstOffset + 32 * k + (dstOffset + n - (dstOffset + 32 * k))) by lia.
      eapply replaced_ext; [|exact Hr3]. intros i _. cbn beta. f_equal. lia.
    + exists dst2. split; [done|]. by replace (dstOffset + n) with (dstOffset + 32 * k) by lia.
Qed.

(** The temporary chunk of [compressNextPage], with and without an offset. *)
Lemma nth_compressed info (values src : list Z) lo n j : length values = Z.to_nat n -> 0 <= j < n ->
  (forall i, 0 <= i < n -> nth (Z.to_nat i) values 0 = nth (Z.to_nat (lo + i)) src 0) ->
  nth (Z.to_nat j) (if offset info =? 0 then map (castU t) values else copyValuesToTempChunkWithOffset t values info) 0 = encoded t info src 0 0 (lo + j).
Proof.
  intros Hlen Hj Hv. destruct (Z.eqb_spec (offset info) 0) as [E|E].
  - rewrite (nth_map_in _ _ _ 0) by lia. rewrite Hv by done. unfold encoded. rewrite E, Z.sub_0_r. do 3 f_equal. lia.
  - rewrite (nth_encoded t info values src lo lo n j Hlen Hj Hv). unfold encoded. do 3 f_equal. lia.
Qed.

Lemma length_compressed info (values : list Z) :
  length (if offset info =? 0 then map (castU t) values else copyValuesToTempChunkWithOffset t values info) = length values.
Proof. unfold copyValuesToTempChunkWithOffset. destruct (offset info =? 0); by rewrite length_map. Qed.

Lemma compress_chunks_run fuel src page lo hi info : (Z.to_nat (hi - lo) <= fuel)%nat ->
  bytes_ok page -> aligned t page 0 -> 0 < bitWidth info <= bits t -> 0 <= lo <= hi -> lo mod 32 = 0 -> hi mod 32 = 0 ->
  hi <= Z.of_nat (length src) -> hi * bitWidth info <= 8 * size page ->
  exists page', compress_chunks t fuel src page lo hi info = Ret page' /\ packed page page' (bitWidth info) lo hi (encoded t info src 0 0).
Proof.
  revert page lo. induction fuel as [|fuel IH]; intros page lo Hf Hok Hal Hbw Hle Hml Hmh Hlen Hsize; cbn [compress_chunks];
    destruct (Z.ltb_spec lo hi).
  2,4: exists page; split; [done|]; replace hi with lo by lia; by apply packed_refl.
  - lia.
  - assert (Hnext : lo + 32 <= hi).
    { pose proof (Z.div_mod lo 32 ltac:(lia)). pose proof (Z.div_mod hi 32 ltac:(lia)). lia. }
    unfold CHUNK_SIZE. destruct (array_slice_run src lo 32) as (values & -> & Hlv & Hv); [lia..|]. cbn [mbind outcome_bind].
    destruct (fastpack_run t (if offset info =? 0 then map (castU t) values else copyValuesToTempChunkWithOffset t values info) page lo info (encoded t info src 0 0))
      as (page1 & -> & Hp1); try done; try lia.
    { by rewrite length_compressed. }
    { assert ((lo + 32) * bitWidth info <= hi * bitWidth info) by (apply Z.mul_le_mono_nonneg_r; lia). lia. }
    { intros i Hi. by apply (nth_compressed info values src lo 32). }
    cbn [mbind outcome_bind]. pose proof (packed_page _ _ _ _ _ _ Hp1) as [Hok1 Hs1].
    destruct (IH page1 (lo + 32)) as (page' & -> & Hp2); try done; try lia.
    { by eapply packed_aligned. }
    { replace (lo + 32) with (lo + 1 * 32) by lia. by rewrite Z.mod_add by lia. }
    exists page'. split; [done|]. eapply packed_trans; [lia| |exact Hp1|exact Hp2]. lia.
Qed.

Lemma compressNextPage_run src remaining page metadata :
  let info := getPackingInfo t metadata in
  let n := Z.min remaining (numValues (size page) info) in
  compression metadata = INTEGER_BITPACKING -> bytes_ok page -> aligned t page 0 -> 32 <= size page < 2 ^ 60 ->
  0 < bitWidth info <= bits t -> 0 <= remaining <= Z.of_nat (length src) ->
  exists page' bytes, compressNextPage t src remaining page metadata = Ret (page', n, bytes) /\
    n * bitWidth info <= 8 * bytes < n * bitWidth info + 8 /\ bytes <= size page /\
    packed page page' (bitWidth info) 0 n (encoded t info src 0 0).
Proof.
  intros info n Hcomp Hok Hal Hsize Hbw Hrem. unfold compressNextPage. rewrite Hcomp, bool_decide_true by done. cbn [ku_assert mbind outcome_bind].
  fold info (size page). rewrite (proj2 (Z.eqb_neq (bitWidth info) 0)) by lia. fold n. set (bw := bitWidth info) in *.
  assert (Hn : 0 <= n /\ n <= remaining /\ n * bw <= 8 * size page).
  { unfold n, numValues, u64. fold bw. rewrite (proj2 (Z.eqb_neq bw 0)) by lia. rewrite wrap_small by lia.
    pose proof (Z.mul_div_le (size page * 8) bw ltac:(lia)). assert (0 <= size page * 8 / bw) by (apply Z.div_pos; lia).
    split_and!; [lia..|]. transitivity (size page * 8 / bw * bw); [apply Z.mul_le_mono_nonneg_r; lia|lia]. }
  destruct Hn as (Hn & Hnr & Hns). set (bytes := n * bw / 8 + _).
  assert (Hb : n * bw <= 8 * bytes < n * bw + 8).
  { unfold bytes. pose proof (Z.div_mod (n * bw) 8 ltac:(lia)). pose proof (Z.mod_pos_bound (n * bw) 8 ltac:(lia)).
    destruct (Z.eqb_spec (n * bw mod 8) 0); lia. }
  unfold CHUNK_SIZE. rewrite !(proj2 (Z.leb_le _ _)) by lia. cbn [ku_assert mbind outcome_bind].
  pose proof (Z.mod_pos_bound n 32 ltac:(lia)) as Hmod. pose proof (Z.div_mod n 32 ltac:(lia)) as Hdm. set (full := n - n mod 32) in *.
  assert (Hfull : 0 <= full <= n /\ full mod 32 = 0).
  { assert (0 <= n / 32) by (by apply Z.div_pos). split; [lia|]. replace full with (n / 32 * 32) by lia. by apply Z.mod_mul. }
  destruct Hfull as [Hf Hfm]. assert (full * bw <= n * bw) by (apply Z.mul_le_mono_nonneg_r; lia).
  destruct (compress_chunks_run (Z.to_nat n) src page 0 full info) as (page1 & -> & Hp1); try done; try lia.
  cbn [mbind outcome_bind]. pose proof (packed_page _ _ _ _ _ _ Hp1) as [Hok1 Hs1].
  destruct (Z.ltb_spec 0 (n mod 32)).
  - destruct (array_slice_run src full (n mod 32)) as (values & -> & Hlv & Hv); [lia..|]. cbn [mbind outcome_bind].
    destruct (chunk_pointer t page full bw Hal) as (_ & Hp8 & Hal'); [lia|done|lia|].
    destruct (packPartialChunk_run t (if offset info =? 0 then map (castU t) values else copyValuesToTempChunkWithOffset t values info)
      page1 (full * bw / 8) full 0 (n mod 32) info (encoded t info src 0 0)) as (page2 & -> & Hp2); try done; try lia.
    { eapply packed_aligned; [exact Hp1|done]. }
    { rewrite length_compressed. done. }
    { intros i Hi. rewrite Z.add_0_r. by apply (nth_compressed info values src full (n mod 32)). }
    exists page2, bytes. split; [done|]. split; [done|]. split; [lia|]. rewrite Z.add_0_r in Hp2. replace (full + n mod 32) with n in Hp2 by lia.
    eapply packed_trans; [lia| |exact Hp1|exact Hp2]. lia.
  - exists page1, bytes. split; [done|]. split; [done|]. split; [lia|]. by replace n with full by lia.
Qed.
End pages.

(** ** One value at a time *)

Section reference.

Definition fastpack_ref (t : int_type) (values : list Z) (page : bytes) (p bw : Z) : outcome bytes :=
  for_range 0 32 (fun i page => v ← load values i; packSingle t v page p bw (Z.of_nat i)) page.
Definition fastunpack_ref (t : int_type) (page : bytes) (p bw : Z) : outcome (list Z) :=
  foldr (fun i acc => v ← unpackSingle t page p bw (Z.of_nat i); l ← acc; mret (v :: l)) (mret []) (seq 0 32).

#[local] Instance one_by_one : FastPFor := { fastpack := fastpack_ref; fastunpack := fastunpack_ref }.

#[local] Instance one_by_one_laws : FastPForLaws.
Proof.
  constructor.
  - intros t Hw values page p bw Hok Hal Hbw Hlen Hle. cbn [fastpack one_by_one]. unfold fastpack_ref.
    set (f := fun b => Z.testbit (nth (Z.to_nat ((b - 8 * p) / bw)) values 0) ((b - 8 * p) mod bw)).
    destruct (for_range_inv (fun k page' => bits_set page page' (8 * p) (8 * p + Z.of_nat k * bw) f)
      0 32 (fun i page => v ← load values i; packSingle t v page p bw (Z.of_nat i)) page) as (page' & Hrun & Hset).
    + rewrite Z.add_0_r. by apply bits_set_refl.
    + intros k page1 Hk Hset. cbn [Nat.add]. pose proof Hset as (Hok1 & Hs1 & _).
      destruct (load_lt values k ltac:(lia)) as (v & Hv & ->). cbn [mbind outcome_bind].
      assert (0 <= Z.of_nat k * bw) by lia.
      destruct (packSingle_run t v page1 p (Z.of_nat k) bw) as (page2 & -> & Hset2); try done; try lia.
      { destruct Hal as (Hp & Hpm & Hsm). split_and!; [done..|]. by rewrite Hs1. }
      { rewrite Hs1. nia. }
      exists page2. split; [done|]. eapply bits_set_trans; [|exact Hset|]; [lia|].
      replace (8 * p + Z.of_nat (S k) * bw) with (8 * p + Z.of_nat k * bw + bw) by lia.
      eapply bits_set_ext; [|exact Hset2]. intros b Hb. unfold f.
      destruct (bit_index bw (Z.of_nat k) (b - 8 * p)) as [-> ->]; [lia|lia|]. rewrite Nat2Z.id, nth_lookup, Hv. cbn. f_equal. lia.
    + exists page'. by split.
  - intros t Hw page p bw Hok Hal Hbw Hle. cbn [fastunpack one_by_one]. unfold fastunpack_ref.
    assert (Hall : forall i, i ∈ seq 0 32 -> unpackSingle t page p bw (Z.of_nat i) = Ret (raw page (8 * p + Z.of_nat i * bw) bw)).
    { intros i Hi%elem_of_seq. apply unpackSingle_run; try done; [lia|nia]. }
    revert Hall. generalize (seq 0 32). intros l. induction l as [|i l IH]; intros Hall; [done|]. cbn [foldr map].
    rewrite Hall by left. cbn [mbind outcome_bind]. rewrite IH by (intros; apply Hall; by right). done.
Qed.
End reference.

(** How many bits the values of a page need: what [getPackingInfo] chooses is enough for
    every value between the bounds, and when an update can keep it. *)

(** ** Widths *)

Lemma bit_width_nonneg z : 0 <= bit_width z.
Proof. unfold bit_width. destruct (z =? 0); [done|]. pose proof (Z.log2_nonneg z). lia. Qed.

Lemma bit_width_le z k : 0 <= z -> 0 <= k -> bit_width z <= k <-> z < 2 ^ k.
Proof.
  intros Hz Hk. unfold bit_width. destruct (Z.eqb_spec z 0) as [->|Hne].
  - assert (0 < 2 ^ k) by (apply Z.pow_pos_nonneg; lia). lia.
  - rewrite Z.log2_lt_pow2 by lia. lia.
Qed.

Lemma bit_width_mono a b : 0 <= a <= b -> bit_width a <= bit_width b.
Proof.
  intros Hab. apply bit_width_le; [lia|apply bit_width_nonneg|].
  assert (b < 2 ^ bit_width b) by (apply bit_width_le; [lia|apply bit_width_nonneg|lia]). lia.
Qed.

Lemma bit_width_lt z : 0 <= z -> z < 2 ^ bit_width z.
Proof. intros Hz. by apply bit_width_le; [|apply bit_width_nonneg|]. Qed.

(** Sign extension is the inverse of truncation. *)
Lemma lxor_disjoint u k : 0 <= u < 2 ^ k -> 0 <= k -> Z.lxor u (2 ^ k) = u + 2 ^ k.
Proof.
  intros Hu Hk. symmetry. apply Z.add_nocarry_lxor. apply Z.bits_inj'. intros j Hj. rewrite Z.land_spec, Z.testbit_0_l.
  rewrite Z.pow2_bits_eqb by done. destruct (Z.eqb_spec k j) as [->|]; [|by rewrite andb_false_r]. rewrite andb_true_r.
  rewrite <-(Z.mod_small u (2 ^ j)) by done. by apply Z.mod_pow2_bits_high.
Qed.

Lemma sign_extension v k : 0 <= k -> - 2 ^ k <= v < 2 ^ k -> Z.lxor (v mod 2 ^ (k + 1)) (2 ^ k) - 2 ^ k = v.
Proof.
  intros Hk Hv. assert (Hpow : 2 ^ (k + 1) = 2 * 2 ^ k) by (rewrite Z.add_1_r, Z.pow_succ_r by done; done).
  destruct (Z.lt_ge_cases v 0).
  - replace (v mod 2 ^ (k + 1)) with (v + 2 ^ k + 2 ^ k).
    + rewrite <-lxor_disjoint by lia. rewrite Z.lxor_assoc, Z.lxor_nilpotent, Z.lxor_0_r. lia.
    + apply Z.mod_unique with (q := -1); [left; lia|lia].
  - rewrite Z.mod_small by lia. rewrite lxor_disjoint by lia. lia.
Qed.

Section info.
Context (t : int_type) {Hw : width_ok t}.

Lemma bits_pos : 0 < bits t.
Proof. destruct Hw as [->|[->|[->| ->]]]; lia. Qed.

Lemma pow_bits : 2 ^ bits t = 2 * 2 ^ (bits t - 1).
Proof. pose proof bits_pos. rewrite <-Z.pow_succ_r by lia. f_equal. lia. Qed.

(** The values that a type can compress: all but the least one of a signed type. *)
Definition compressible (v : Z) : Prop := MIN t <= v <= MAX t /\ (is_signed t = true -> MIN t < v).

Lemma compressible_range v : compressible v -> - 2 ^ (bits t - 1) < v < 2 ^ bits t /\ (v < 0 -> is_signed t = true) /\ (is_signed t = true -> v < 2 ^ (bits t - 1)).
Proof.
  unfold compressible, MIN, MAX. pose proof pow_bits. assert (0 < 2 ^ (bits t - 1)) by (apply Z.pow_pos_nonneg; pose proof bits_pos; lia).
  destruct (is_signed t); intros [Hv Hs]; split_and!; try done; try lia.
Qed.

Lemma castU_small z : 0 <= z < 2 ^ bits t -> castU t z = z.
Proof. apply wrap_small. Qed.

Lemma castU_neg z : - 2 ^ bits t <= z < 0 -> castU t z = z + 2 ^ bits t.
Proof. intros Hz. unfold castU, wrap. symmetry. apply Z.mod_unique with (q := -1); [left; lia|lia]. Qed.

Lemma bit_width_negative z : - 2 ^ (bits t - 1) <= z < 0 -> bit_width (castU t z) = bits t.
Proof.
  intros Hz. pose proof pow_bits. pose proof bits_pos. rewrite castU_neg by lia.
  assert (bit_width (z + 2 ^ bits t) <= bits t) by (apply bit_width_le; lia).
  assert (~ bit_width (z + 2 ^ bits t) <= bits t - 1) by (rewrite bit_width_le; lia). lia.
Qed.

Lemma cast_wrap w z : bits t <= w -> cast t (wrap w z) = cast t z.
Proof.
  intros Hle. pose proof bits_pos. unfold cast, wrap.
  assert (Hdiv : (2 ^ bits t | 2 ^ w)) by (exists (2 ^ (w - bits t)); rewrite <-Z.pow_add_r by lia; f_equal; lia).
  destruct (is_signed t); [|by apply Z.mod_mod_divide]. f_equal. rewrite <-Z.add_mod_idemp_l by lia.
  rewrite Z.mod_mod_divide by done. by rewrite Z.add_mod_idemp_l by lia.
Qed.

(** A value of the type survives its [StorageValue]. *)
Lemma StorageValue_get_of v : MIN t <= v <= MAX t -> StorageValue_get t (StorageValue_of v) = v.
Proof.
  intros Hv. unfold StorageValue_get, StorageValue_of. assert (bits t <= 64) by (destruct Hw as [->|[->|[->| ->]]]; lia).
  rewrite !cast_wrap by done. by apply cast_id.
Qed.

(** ** The choice of the width *)

Definition saves (min max : Z) : Prop := 0 < min /\ bit_width (max - min) < bit_width max.

(** What [getPackingInfo] returns for values from [min] to [max]. *)
Inductive packing (min max : Z) : BitpackInfo -> Prop :=
| packing_offset : saves min max -> packing min max (mkInfo (bit_width (max - min)) false min)
| packing_one : min < 0 -> min = max -> packing min max (mkInfo 1 true max)
| packing_signed : min < 0 -> min < max -> packing min max (mkInfo (bit_width (Z.max (- min) max) + 1) true 0)
| packing_plain : 0 <= min -> ~ saves min max -> packing min max (mkInfo (bit_width max) false 0).

Definition meta_lo (metadata : CompressionMetadata) : Z := StorageValue_get t (meta_min metadata).
Definition meta_hi (metadata : CompressionMetadata) : Z := StorageValue_get t (meta_max metadata).

Lemma abs_T_compressible v : compressible v -> abs_T t v = Z.abs v.
Proof.
  intros [Hv Hs]. unfold abs_T. pose proof (cast_id t (Z.abs v)) as Hc. unfold MIN, MAX in *.
  destruct (is_signed t); [specialize (Hs eq_refl); apply Hc|]; lia.
Qed.

Lemma getPackingInfo_packing metadata : compressible (meta_lo metadata) -> compressible (meta_hi metadata) -> meta_lo metadata <= meta_hi metadata ->
  packing (meta_lo metadata) (meta_hi metadata) (getPackingInfo t metadata).
Proof.
  intros Hmin Hmax Hle. unfold getPackingInfo. fold (meta_lo metadata) (meta_hi metadata). set (min := meta_lo metadata) in *. set (max := meta_hi metadata) in *.
  rewrite !abs_T_compressible by done. destruct (compressible_range _ Hmin) as (Hr1 & Hs1 & Hp1). destruct (compressible_range _ Hmax) as (Hr2 & Hs2 & Hp2).
  pose proof pow_bits as Hpow. assert (Hpos : 0 < 2 ^ (bits t - 1)) by (apply Z.pow_pos_nonneg; pose proof bits_pos; lia).
  destruct (Z.ltb_spec 0 min).
  - rewrite (proj2 (Z.ltb_lt 0 max)), (castU_small (max - min)), (castU_small max) by lia. cbn [andb].
    destruct (Z.ltb_spec (bit_width (max - min)) (bit_width max)); [by constructor|].
    rewrite (proj2 (Z.ltb_ge min 0)) by lia. cbn [andb]. rewrite castU_small by lia. replace (Z.max (Z.abs min) (Z.abs max)) with max by lia.
    constructor; [lia|]. intros [_ Hsv]. lia.
  - cbn [andb]. destruct (Z.ltb_spec min 0).
    + specialize (Hs1 ltac:(done)). specialize (Hp2 Hs1). destruct (Z.eq_dec min max) as [Heq|Hne].
      * rewrite (proj2 (Z.ltb_lt max 0)) by lia. cbn [andb]. rewrite Heq, Z.sub_diag, (castU_small 0), bit_width_negative by lia.
        rewrite (proj2 (Z.ltb_lt _ _)) by (apply bits_pos). cbn. unfold castU. rewrite cast_wrap by lia. rewrite (cast_id t max (proj1 Hmax)). constructor; lia.
      * cbn [andb]. assert ((max <? 0) && (bit_width (castU t (min - max)) <? bit_width (castU t max)) = false) as ->.
        { destruct (Z.ltb_spec max 0); [|done]. rewrite !bit_width_negative by lia. by rewrite Z.ltb_irrefl. }
        rewrite castU_small by lia. replace (Z.max (Z.abs min) (Z.abs max)) with (Z.max (- min) max) by lia. constructor; lia.
    + cbn [andb]. rewrite castU_small by lia. replace (Z.max (Z.abs min) (Z.abs max)) with max by lia.
      constructor; [lia|]. intros [? _]. lia.
Qed.

(** ** The width is enough *)

(** What is read back of a value that was kept. *)
Definition kept (info : BitpackInfo) (v : Z) : Z := decoded t info (Z.land (castU t (v - offset info)) (Z.ones (bitWidth info))).

Lemma land_castU z k : 0 <= k <= bits t -> Z.land (castU t z) (Z.ones k) = z mod 2 ^ k.
Proof.
  intros Hk. rewrite Z.land_ones by lia. apply Z.mod_mod_divide. exists (2 ^ (bits t - k)). rewrite <-Z.pow_add_r by lia. f_equal. lia.
Qed.

Lemma zero_in_type : MIN t <= 0 <= MAX t.
Proof.
  pose proof pow_bits. assert (0 < 2 ^ (bits t - 1)) by (apply Z.pow_pos_nonneg; pose proof bits_pos; lia).
  unfold MIN, MAX. destruct (is_signed t); lia.
Qed.

Lemma packing_keeps min max info v : packing min max info -> compressible min -> compressible max -> min <= v <= max -> bitWidth info <= bits t ->
  kept info v = v.
Proof.
  intros Hpack Hmin Hmax Hv Hbw.
  assert (Hc : forall z, MIN t <= z <= MAX t -> cast t z = z) by (intros; by apply cast_id).
  assert (Hrv : MIN t <= v <= MAX t) by (destruct Hmin, Hmax; lia).
  pose proof zero_in_type as Hmin0.
  unfold kept, decoded. destruct Hpack as [[Hpos Hsv]|Hneg ->|Hneg Hlt|Hnn Hns]; cbn [bitWidth hasNegative offset] in *.
  - rewrite land_castU by (split; [apply bit_width_nonneg|done]). pose proof (bit_width_lt (max - min) ltac:(lia)).
    cbn [andb]. rewrite Z.mod_small by lia. rewrite (proj2 (Z.eqb_neq _ _)) by lia. cbn [negb]. rewrite (Hc (v - min)) by lia.
    replace (v - min + min) with v by lia. by apply Hc.
  - pose proof bits_pos. replace (v - max) with 0 by lia. rewrite land_castU by lia. rewrite (proj2 (Z.eqb_neq max 0)) by lia. change (0 <? 1) with true. cbn [andb negb].
    change (Z.lxor (0 mod 2 ^ 1) (2 ^ (1 - 1)) - 2 ^ (1 - 1)) with 0. rewrite (Hc 0) by lia. rewrite Z.add_0_l, Hc by lia. lia.
  - rewrite Z.sub_0_r, land_castU by (split; [pose proof (bit_width_nonneg (Z.max (- min) max)); lia|done]).
    set (k := bit_width (Z.max (- min) max)) in *. assert (0 <= k) by apply bit_width_nonneg.
    rewrite (proj2 (Z.ltb_lt 0 (k + 1))) by lia. cbn. replace (k + 1 - 1) with k by lia.
    pose proof (bit_width_lt (Z.max (- min) max) ltac:(lia)) as Hk. fold k in Hk. rewrite sign_extension by lia. by apply Hc.
  - rewrite Z.sub_0_r, land_castU by (split; [apply bit_width_nonneg|done]). pose proof (bit_width_lt max ltac:(lia)).
    cbn. rewrite Z.mod_small by lia. by apply Hc.
Qed.

(** ** Updates *)

Lemma packing_fun min max info info' : packing min max info -> packing min max info' -> info = info'.
Proof. intros H1 H2. destruct H1, H2; unfold saves in *; try done; try lia; tauto. Qed.

(** Names the width of the packing in the goal. *)
Ltac width w := match goal with |- packing _ _ (mkInfo ?w' _ _) => replace w' with w by lia end.

(** Between bounds with the same packing everything has it. *)
Lemma packing_between min max min1 max1 min2 max2 info :
  packing min max info -> packing min2 max2 info -> min2 <= min1 <= min -> max <= max1 <= max2 -> min <= max ->
  packing min1 max1 info.
Proof.
  intros H0 H2 Hmin Hmax Hle.
  destruct H0 as [[Hpos Hsv]|Hneg Heq|Hneg Hlt|Hnn Hns]; inversion H2 as [[Hpos2 Hsv2]|Hneg2 Heq2|Hneg2 Hlt2|Hnn2 Hns2]; clear H2; subst; try lia.
  - assert (min1 = min) as -> by lia.
    pose proof (bit_width_mono (max - min) (max1 - min) ltac:(lia)). pose proof (bit_width_mono (max1 - min) (max2 - min) ltac:(lia)).
    pose proof (bit_width_mono max max1 ltac:(lia)). width (bit_width (max1 - min)).
    constructor. split; lia.
  - match goal with |- packing ?a ?b (mkInfo _ _ ?o) => replace a with o by lia; replace b with o by lia end. by constructor.
  - pose proof (bit_width_mono (Z.max (- min) max) (Z.max (- min1) max1) ltac:(lia)).
    pose proof (bit_width_mono (Z.max (- min1) max1) (Z.max (- min2) max2) ltac:(lia)).
    width (bit_width (Z.max (- min1) max1) + 1). constructor; lia.
  - pose proof (bit_width_mono max max1 ltac:(lia)). pose proof (bit_width_mono max1 max2 ltac:(lia)).
    width (bit_width max1). constructor; [lia|]. intros [Hp1 Hs1].
    apply Hns. split; [lia|]. pose proof (bit_width_mono (max - min) (max1 - min1) ltac:(lia)). lia.
Qed.
End info.
