(* ===== verification/Compression.v ===== *)
(** The choice and the dispatch of compression for columns of integers and of internal
    IDs ([storage/compression/compression.cpp], [storage/table/column_chunk_metadata.cpp]):
    constant, uncompressed and bit-packed pages. A type other than these has algorithms
    that are not modelled ([int128_t], booleans, floats). *)
From S2P Require Import Prelude Serializer NullMask FreeSpaceManager Bitpacking.
Local Open Scope Z_scope.

Abbreviation PAGE_SIZE := FreeSpaceManager.PAGE_SIZE.

Inductive PhysicalTypeID := T_INT64 | T_INT32 | T_INT16 | T_INT8 | T_UINT64 | T_UINT32 | T_UINT16 | T_UINT8 | T_INTERNAL_ID.

#[global] Instance PhysicalTypeID_eq_dec : EqDecision PhysicalTypeID.
Proof. solve_decision. Defined.

(** The type that [TypeUtils::visit] calls the lambdas with: an internal ID is its
    offset. *)
Definition visit (physicalType : PhysicalTypeID) : int_type :=
  match physicalType with
  | T_INT64 => INT64 | T_INT32 => INT32 | T_INT16 => INT16 | T_INT8 => INT8
  | T_UINT64 | T_INTERNAL_ID => UINT64 | T_UINT32 => UINT32 | T_UINT16 => UINT16 | T_UINT8 => UINT8
  end.

Definition getDataTypeSizeInChunk (dataType : PhysicalTypeID) : Z := bits (visit dataType) / 8.

(** ** Uncompressed pages *)

Module Uncompressed.
Definition numValues (dataSize : Z) (physicalType : PhysicalTypeID) : Z :=
  let numBytesPerValue := getDataTypeSizeInChunk physicalType in
  if numBytesPerValue =? 0 then UINT64_MAX else dataSize / numBytesPerValue.

(** The values as they are in memory. *)
Definition bytes_of (numBytesPerValue : Z) (values : list Z) : bytes := concat (map (le_bytes (Z.to_nat numBytesPerValue)) values).

(** [memcpy(page + at, bs, n)]. *)
Definition write_bytes (page : bytes) (at_ : Z) (bs : bytes) : outcome bytes :=
  if (0 <=? at_) && (at_ + Z.of_nat (length bs) <=? Z.of_nat (length page))
  then Ret (take (Z.to_nat at_) page ++ bs ++ drop (Z.to_nat at_ + length bs) page) else Undef.

Definition setValuesFromUncompressed (numBytesPerValue : Z) (srcBuffer : list Z) (srcOffset : Z) (dstBuffer : bytes) (dstOffset numValues : Z)
  : outcome bytes :=
  values ← array_slice srcBuffer srcOffset numValues;
  write_bytes dstBuffer (dstOffset * numBytesPerValue) (bytes_of numBytesPerValue values).

Definition compressNextPage (numBytesPerValue : Z) (srcBuffer : list Z) (numValuesRemaining : Z) (dstBuffer : bytes)
  : outcome (bytes * Z * Z) :=
  if numBytesPerValue =? 0 then mret (dstBuffer, 0, 0)
  else
    let numValues := Z.min numValuesRemaining (Z.of_nat (length dstBuffer) / numBytesPerValue) in
    let sizeToCopy := numValues * numBytesPerValue in
    _ ← ku_assert (sizeToCopy <=? Z.of_nat (length dstBuffer));
    values ← array_slice srcBuffer 0 numValues;
    dstBuffer ← write_bytes dstBuffer 0 (bytes_of numBytesPerValue values);
    mret (dstBuffer, numValues, sizeToCopy).

(** The value at an index of a page, as a [T]. *)
Definition load_value (t : int_type) (numBytesPerValue : Z) (page : bytes) (i : Z) : outcome Z :=
  if (0 <=? i * numBytesPerValue) && (i * numBytesPerValue + numBytesPerValue <=? Z.of_nat (length page))
  then Ret (cast t (le_value (take (Z.to_nat numBytesPerValue) (drop (Z.to_nat (i * numBytesPerValue)) page)))) else Undef.

(** [memcpy], a value at a time. *)
Definition decompressFromPage (t : int_type) (numBytesPerValue : Z) (srcBuffer : bytes) (srcOffset : Z) (dst : list Z) (dstOffset numValues : Z)
  : outcome (list Z) :=
  for_range 0 (Z.to_nat numValues) (fun i dst =>
    v ← load_value t numBytesPerValue srcBuffer (srcOffset + Z.of_nat i);
    store dst (Z.to_nat dstOffset + i) v) dst.
End Uncompressed.

(** ** Constant pages *)

Module ConstantCompression.
(** [std::fill] of the range with [metadata.min]. *)
Definition decompressValues (t : int_type) (dst : list Z) (dstOffset numValues : Z) (metadata : CompressionMetadata) : outcome (list Z) :=
  for_range 0 (Z.to_nat numValues) (fun i dst => store dst (Z.to_nat dstOffset + i) (StorageValue_get t (meta_min metadata))) dst.
End ConstantCompression.

(** ** Metadata *)

Definition canAlwaysUpdateInPlace (metadata : CompressionMetadata) : bool :=
  match compression metadata with
  | BOOLEAN_BITPACKING | UNCOMPRESSED => true
  | CONSTANT | ALP | INTEGER_BITPACKING => false
  end.

(** The loop of the constant case: [memcmp] of the bytes of a value with those of the
    minimum. *)
Fixpoint equal_to_constant (t : int_type) (data : list Z) (i : Z) (n : nat) (min : StorageValue) (nullMask : option NullMask.t) : outcome bool :=
  match n with
  | O => mret true
  | S n =>
      null ← isNull_at nullMask i;
      if null : bool then equal_to_constant t data (i + 1) n min nullMask
      else
        v ← load data (Z.to_nat i);
        if castU t v =? castU t min then equal_to_constant t data (i + 1) n min nullMask else mret false
  end.

(** [getMinMaxStorageValue] of a range of an array. *)
Definition getMinMaxStorageValue (data : list Z) (offset numValues : Z) (nullMask : option NullMask.t) : outcome (option StorageValue * option StorageValue) :=
  if 0 <? numValues then
    typedData ← array_slice data offset numValues;
    '(min, max) ← getTypedMinMax typedData nullMask offset;
    mret (option_map StorageValue_of min, option_map StorageValue_of max)
  else mret (None, None).

Definition float_of_integers : exn :=
  StorageException "Attempted to read from a column chunk which uses float compression but does not have a supported physical type: ".

(** [CompressionMetadata::canUpdateInPlace]. *)
Definition Metadata_canUpdateInPlace (metadata : CompressionMetadata) (data : list Z) (pos numValues : Z) (physicalType : PhysicalTypeID)
    (nullMask : option NullMask.t) : outcome bool :=
  if canAlwaysUpdateInPlace metadata then mret true
  else match compression metadata with
  | CONSTANT => equal_to_constant (visit physicalType) data pos (Z.to_nat numValues) (meta_min metadata) nullMask
  | BOOLEAN_BITPACKING | UNCOMPRESSED => mret true
  | ALP => Throw float_of_integers
  | INTEGER_BITPACKING =>
      values ← array_slice data pos numValues;
      canUpdateInPlace (visit physicalType) values metadata nullMask 0
  end.

(** [CompressionMetadata::numValues]. *)
Definition Metadata_numValues (metadata : CompressionMetadata) (pageSize : Z) (dataType : PhysicalTypeID) : outcome Z :=
  match compression metadata with
  | CONSTANT => mret UINT64_MAX
  | UNCOMPRESSED => mret (Uncompressed.numValues pageSize dataType)
  | INTEGER_BITPACKING => mret (numValues pageSize (getPackingInfo (visit dataType) metadata))
  | ALP => Throw float_of_integers
  | BOOLEAN_BITPACKING => mret (pageSize * 8)
  end.

(** [ColumnChunkMetadata], with its page range. *)
Record ColumnChunkMetadata := mkChunkMetadata { startPageIdx : Z; numPages : Z; numValuesInChunk : Z; compMeta : CompressionMetadata }.

Definition INVALID_PAGE_IDX : Z := 2 ^ 32 - 1.

(** [alg->getCompressionType()] of [getCompression]. *)
Definition getCompressionType (enableCompression : bool) : CompressionType := if enableCompression then INTEGER_BITPACKING else UNCOMPRESSED.

Definition GetBitpackingMetadata (enableCompression : bool) (dataType : PhysicalTypeID) (capacity numValues : Z) (min max : StorageValue)
  : outcome ColumnChunkMetadata :=
  let compMeta := mkMetadata min max (getCompressionType enableCompression) in
  let compMeta :=
    if bool_decide (getCompressionType enableCompression = INTEGER_BITPACKING) && negb (bool_decide (dataType = T_INTERNAL_ID)) &&
       (bits (visit dataType) <=? bitWidth (getPackingInfo (visit dataType) compMeta))
    then mkMetadata min max UNCOMPRESSED else compMeta in
  numValuesPerPage ← Metadata_numValues compMeta PAGE_SIZE dataType;
  let numPages := if numValuesPerPage =? UINT64_MAX then 0
                  else capacity / numValuesPerPage + (if capacity mod numValuesPerPage =? 0 then 0 else 1) in
  mret (mkChunkMetadata INVALID_PAGE_IDX (u32 numPages) numValues compMeta).

Definition GetCompressionMetadata (enableCompression : bool) (dataType : PhysicalTypeID) (capacity numValues : Z) (min max : StorageValue)
  : outcome ColumnChunkMetadata :=
  if min =? max then mret (mkChunkMetadata INVALID_PAGE_IDX 0 numValues (mkMetadata min max CONSTANT))
  else GetBitpackingMetadata enableCompression dataType capacity numValues min max.

(** ** Dispatch *)

Section dispatch.
Context `{FastPFor}.

Definition float_not_implemented : exn := NotImplementedException "Float Compression is not implemented for type ".

(** [ReadCompressedValuesFromPageToVector]: the array is the data of the vector. The
    values of a boolean page in an array of integers are left undefined. *)
Definition ReadCompressedValuesFromPageToVector (physicalType : PhysicalTypeID) (frame : bytes) (elemPosInPage : Z) (resultVector : list Z)
    (posInVector numValuesToRead : Z) (metadata : CompressionMetadata) : outcome (list Z) :=
  match compression metadata with
  | CONSTANT => ConstantCompression.decompressValues (visit physicalType) resultVector posInVector numValuesToRead metadata
  | UNCOMPRESSED =>
      Uncompressed.decompressFromPage (visit physicalType) (getDataTypeSizeInChunk physicalType) frame elemPosInPage resultVector posInVector numValuesToRead
  | ALP => Throw float_not_implemented
  | INTEGER_BITPACKING => decompressFromPage (visit physicalType) frame elemPosInPage resultVector posInVector numValuesToRead metadata
  | BOOLEAN_BITPACKING => Undef
  end.

(** The type that [ReadCompressedValuesFromPage] unpacks with: not [uint8_t]. *)
Definition page_read_type (physicalType : PhysicalTypeID) : int_type :=
  match physicalType with
  | T_INT64 => INT64 | T_INT32 => INT32 | T_INT16 => INT16 | T_INT8 => INT8
  | T_INTERNAL_ID | T_UINT64 => UINT64 | T_UINT32 => UINT32 | T_UINT16 => UINT16 | T_UINT8 => INT8
  end.

(** The same array as one of another type of the width. *)
Definition reinterpret (t : int_type) (values : list Z) : list Z := map (cast t) values.

Definition ReadCompressedValuesFromPage (physicalType : PhysicalTypeID) (frame : bytes) (elemPosInPage : Z) (result : list Z)
    (startPosInResult numValuesToRead : Z) (metadata : CompressionMetadata) : outcome (list Z) :=
  match compression metadata with
  | CONSTANT => ConstantCompression.decompressValues (visit physicalType) result startPosInResult numValuesToRead metadata
  | UNCOMPRESSED =>
      Uncompressed.decompressFromPage (visit physicalType) (getDataTypeSizeInChunk physicalType) frame elemPosInPage result startPosInResult numValuesToRead
  | ALP => Throw float_not_implemented
  | INTEGER_BITPACKING =>
      result ← decompressFromPage (page_read_type physicalType) frame elemPosInPage (reinterpret (page_read_type physicalType) result)
                 startPosInResult numValuesToRead metadata;
      mret (reinterpret (visit physicalType) result)
  | BOOLEAN_BITPACKING => Undef
  end.

(** [WriteCompressedValuesToPage] from a buffer. *)
Definition WriteCompressedValuesToPage (physicalType : PhysicalTypeID) (frame : bytes) (posInFrame : Z) (data : list Z) (dataOffset numValues : Z)
    (metadata : CompressionMetadata) (nullMask : option NullMask.t) : outcome bytes :=
  match compression metadata with
  | CONSTANT => mret frame
  | UNCOMPRESSED => Uncompressed.setValuesFromUncompressed (getDataTypeSizeInChunk physicalType) data dataOffset frame posInFrame numValues
  | INTEGER_BITPACKING => setValuesFromUncompressed (visit physicalType) data dataOffset frame posInFrame numValues metadata nullMask
  | ALP => Throw (NotImplementedException "FLOAT_COMPRESSION is not implemented for type ")
  | BOOLEAN_BITPACKING => Undef
  end.

(** [alg->compressNextPage] of [IntegerBitpacking<T>] and of [Uncompressed]. *)
Definition Alg_compressNextPage (enableCompression : bool) (physicalType : PhysicalTypeID) (srcBuffer : list Z) (numValuesRemaining : Z)
    (dstBuffer : bytes) (metadata : CompressionMetadata) : outcome (bytes * Z * Z) :=
  if enableCompression then
    if bool_decide (compression metadata = UNCOMPRESSED)
    then Uncompressed.compressNextPage (bits (visit physicalType) / 8) srcBuffer numValuesRemaining dstBuffer
    else compressNextPage (visit physicalType) srcBuffer numValuesRemaining dstBuffer metadata
  else Uncompressed.compressNextPage (getDataTypeSizeInChunk physicalType) srcBuffer numValuesRemaining dstBuffer.
End dispatch.
