(* ===== verification/ColumnPages.v ===== *)
(** Columns of integers and internal IDs on their pages ([storage/table/column.cpp],
    [column_reader_writer.cpp], [compression_flush_buffer.cpp]): the values of a column
    chunk are spread over the pages of its range, as many on each as fit. The data file
    is the list of its pages as the checkpoint sees them: what [ShadowUtils::updatePage]
    makes of an update is in [ShadowFile.v]. Scans are those without a filter. *)
From S2P Require Import Prelude Serializer NullMask FreeSpaceManager Bitpacking Compression.
Local Open Scope Z_scope.

Definition file := list bytes.

Record PageCursor := mkCursor { pageIdx : Z; elemPosInPage : Z }.

Definition nextPage (cursor : PageCursor) : PageCursor := mkCursor (u32 (pageIdx cursor + 1)) 0.

Definition getPageCursorForPos (elementPos numElementsPerPage : Z) : outcome PageCursor :=
  let numElementsPerPage := u32 numElementsPerPage in
  _ ← ku_assert (negb (numElementsPerPage =? 0));
  _ ← ku_assert (elementPos / numElementsPerPage <? 2 ^ 32 - 1);
  mret (mkCursor (u32 (elementPos / numElementsPerPage)) (u32 (elementPos mod numElementsPerPage))).

Definition getPageCursorForOffsetInGroup (offsetInChunk groupPageIdx numValuesPerPage : Z) : outcome PageCursor :=
  cursor ← getPageCursorForPos offsetInChunk numValuesPerPage;
  mret (mkCursor (u32 (pageIdx cursor + groupPageIdx)) (elemPosInPage cursor)).

(** The fields of [ChunkState] that are used here. *)
Record ChunkState := mkState { metadata : ColumnChunkMetadata; numValuesPerPage : Z }.

Definition isConstant (m : CompressionMetadata) : bool := bool_decide (compression m = CONSTANT).

Definition isPageIdxValid (pageIdx : Z) (metadata : ColumnChunkMetadata) : bool :=
  ((startPageIdx metadata <=? pageIdx) && (pageIdx <? startPageIdx metadata + numPages metadata)) ||
  ((pageIdx =? INVALID_PAGE_IDX) && isConstant (compMeta metadata)).

(** A null page is given to the function when there is none on disk. *)
Definition readFromPage {A} (dataFH : file) (pageIdx : Z) (readFunc : bytes -> outcome A) : outcome A :=
  if pageIdx =? INVALID_PAGE_IDX then readFunc []
  else frame ← load dataFH (Z.to_nat pageIdx); readFunc frame.

Definition updatePageWithCursor (dataFH : file) (cursor : PageCursor) (writeOp : bytes -> Z -> outcome bytes) : outcome file :=
  if pageIdx cursor =? INVALID_PAGE_IDX then _ ← writeOp [] (elemPosInPage cursor); mret dataFH
  else
    _ ← ku_assert (pageIdx cursor <? Z.of_nat (length dataFH));
    frame ← load dataFH (Z.to_nat (pageIdx cursor));
    frame ← writeOp frame (elemPosInPage cursor);
    store dataFH (Z.to_nat (pageIdx cursor)) frame.

(** ** [DefaultColumnReadWriter] *)

Section read_write.
Context `{FastPFor}.

Definition read_values_func := bytes -> Z -> list Z -> Z -> Z -> CompressionMetadata -> outcome (list Z).

(** The loop of [readCompressedValues]; every round reads a value. *)
Fixpoint read_pages (fuel : nat) (dataFH : file) (state : ChunkState) (result : list Z) (startOffsetInResult numValuesScanned numValuesToScan : Z)
    (pageCursor : PageCursor) (readFunc : read_values_func) : outcome (list Z) :=
  if numValuesScanned <? numValuesToScan then
    match fuel with
    | O => Undef
    | S fuel =>
        let numValuesToScanInPage := Z.min (u64 (numValuesPerPage state - elemPosInPage pageCursor)) (numValuesToScan - numValuesScanned) in
        _ ← ku_assert (isPageIdxValid (pageIdx pageCursor) (metadata state));
        result ← readFromPage dataFH (pageIdx pageCursor) (fun frame =>
          readFunc frame (elemPosInPage pageCursor) result (numValuesScanned + startOffsetInResult) numValuesToScanInPage (compMeta (metadata state)));
        read_pages fuel dataFH state result startOffsetInResult (numValuesScanned + numValuesToScanInPage) numValuesToScan (nextPage pageCursor) readFunc
    end
  else mret result.

Definition readCompressedValues (dataFH : file) (state : ChunkState) (result : list Z) (startOffsetInResult startNodeOffset endNodeOffset : Z)
    (readFunc : read_values_func) : outcome (list Z) :=
  let numValuesToScan := u64 (endNodeOffset - startNodeOffset) in
  if numValuesToScan =? 0 then mret result
  else
    pageCursor ← getPageCursorForOffsetInGroup startNodeOffset (startPageIdx (metadata state)) (numValuesPerPage state);
    _ ← ku_assert (isPageIdxValid (pageIdx pageCursor) (metadata state));
    read_pages (Z.to_nat numValuesToScan) dataFH state result startOffsetInResult 0 numValuesToScan pageCursor readFunc.

(** The loop of [writeValuesToPage]. *)
Fixpoint write_pages (fuel : nat) (dataFH : file) (state : ChunkState) (data : list Z) (srcOffset numValuesWritten numValues : Z)
    (cursor : PageCursor) (physicalType : PhysicalTypeID) (nullMask : option NullMask.t) : outcome file :=
  if numValuesWritten <? numValues then
    match fuel with
    | O => Undef
    | S fuel =>
        _ ← ku_assert ((pageIdx cursor =? INVALID_PAGE_IDX) || (pageIdx cursor <? startPageIdx (metadata state) + numPages (metadata state)));
        let numValuesToWriteInPage := Z.min (numValues - numValuesWritten) (u64 (numValuesPerPage state - elemPosInPage cursor)) in
        dataFH ← updatePageWithCursor dataFH cursor (fun frame offsetInPage =>
          WriteCompressedValuesToPage physicalType frame offsetInPage data (srcOffset + numValuesWritten) numValuesToWriteInPage (compMeta (metadata state)) nullMask);
        write_pages fuel dataFH state data srcOffset (numValuesWritten + numValuesToWriteInPage) numValues (nextPage cursor) physicalType nullMask
    end
  else mret dataFH.

Definition writeValuesToPage (dataFH : file) (state : ChunkState) (dstOffset : Z) (data : list Z) (srcOffset numValues : Z)
    (physicalType : PhysicalTypeID) (nullMask : option NullMask.t) : outcome file :=
  cursor ← getPageCursorForOffsetInGroup dstOffset (startPageIdx (metadata state)) (numValuesPerPage state);
  write_pages (Z.to_nat numValues) dataFH state data srcOffset 0 numValues cursor physicalType nullMask.

(** ** The flush of a chunk ([CompressedFlushBuffer]) *)

(** [memset(buffer + from, 0, size - from)]. *)
Definition zero_rest (buffer : bytes) (from : Z) : bytes := take (Z.to_nat from) buffer ++ replicate (length buffer - Z.to_nat from) 0.

Fixpoint flush_pages (fuel : nat) (enableCompression : bool) (dataType : PhysicalTypeID) (compressedBuffer : bytes) (src : list Z)
    (valuesRemaining numValuesPerPage : Z) (dataFH : file) (start count page : Z) (m : CompressionMetadata) : outcome (file * Z) :=
  if 0 <? valuesRemaining then
    match fuel with
    | O => Undef
    | S fuel =>
        '(compressedBuffer, taken, compressedSize) ← Alg_compressNextPage enableCompression dataType src valuesRemaining compressedBuffer m;
        let valuesRemaining := if valuesRemaining <? numValuesPerPage then 0 else valuesRemaining - numValuesPerPage in
        let compressedBuffer := if compressedSize <? PAGE_SIZE then zero_rest compressedBuffer compressedSize else compressedBuffer in
        _ ← ku_assert (page <? count);
        _ ← ku_assert (start + page <=? Z.of_nat (length dataFH));
        dataFH ← store dataFH (Z.to_nat (start + page)) compressedBuffer;
        flush_pages fuel enableCompression dataType compressedBuffer (drop (Z.to_nat taken) src) valuesRemaining numValuesPerPage
          dataFH start count (page + 1) m
    end
  else mret (dataFH, page).

(** The pages of the range that are left. *)
Definition zero_pages (dataFH : file) (start page count : Z) : outcome file :=
  for_range 0 (Z.to_nat (count - page)) (fun i dataFH => store dataFH (Z.to_nat (start + page) + i) (replicate (Z.to_nat PAGE_SIZE) 0)) dataFH.

Definition CompressedFlushBuffer (enableCompression : bool) (dataType : PhysicalTypeID) (buffer : list Z) (dataFH : file) (start count : Z)
    (chunk : ColumnChunkMetadata) : outcome (file * ColumnChunkMetadata) :=
  let valuesRemaining := numValuesInChunk chunk in
  numValuesPerPage ← Metadata_numValues (compMeta chunk) PAGE_SIZE dataType;
  _ ← ku_assert (numValuesInChunk chunk <=? u64 (numValuesPerPage * count));
  '(dataFH, page) ← flush_pages (Z.to_nat valuesRemaining) enableCompression dataType (replicate (Z.to_nat PAGE_SIZE) 0) buffer
                      valuesRemaining numValuesPerPage dataFH start count 0 (compMeta chunk);
  dataFH ← zero_pages dataFH start page count;
  mret (dataFH, mkChunkMetadata start count (numValuesInChunk chunk) (compMeta chunk)).

(** [ColumnChunkData::getMetadataToFlush] and [flushBuffer]: the chunk of [capacity]
    values of which [numValues] are used, on a range of pages that was allocated. *)
Definition getMetadataToFlush (enableCompression : bool) (dataType : PhysicalTypeID) (data : list Z) (capacity numValues : Z) (nullMask : option NullMask.t)
  : outcome ColumnChunkMetadata :=
  _ ← ku_assert (numValues <=? capacity);
  '(minValue, maxValue) ←
    if 0 <? capacity then
      '(min, max) ← getMinMaxStorageValue data 0 numValues nullMask;
      mret (default 0 min, default 0 max)
    else mret (0, 0);
  GetCompressionMetadata enableCompression dataType capacity numValues minValue maxValue.

Definition flushBuffer (enableCompression : bool) (dataType : PhysicalTypeID) (data : list Z) (capacity : Z) (dataFH : file) (start count : Z)
    (chunk : ColumnChunkMetadata) : outcome (file * ColumnChunkMetadata) :=
  if negb (isConstant (compMeta chunk)) && negb (getDataTypeSizeInChunk dataType * capacity =? 0)
  then CompressedFlushBuffer enableCompression dataType data dataFH start count chunk
  else _ ← ku_assert (numPages chunk =? 0); mret (dataFH, chunk).

(** ** [Column] *)

Definition initializeScanState (dataType : PhysicalTypeID) (chunk : ColumnChunkMetadata) : outcome ChunkState :=
  n ← Metadata_numValues (compMeta chunk) PAGE_SIZE dataType;
  mret (mkState chunk n).

(** [std::bit_ceil]. *)
Definition bit_ceil (n : Z) : Z := 2 ^ Z.log2_up n.

(** [Column::scan] into a column chunk, with room for the values. *)
Definition scan (dataFH : file) (dataType : PhysicalTypeID) (state : ChunkState) (columnChunk : list Z) (startOffset endOffset : Z) : outcome (list Z) :=
  let startOffset := Z.min startOffset (numValuesInChunk (metadata state)) in
  let endOffset := Z.min endOffset (numValuesInChunk (metadata state)) in
  _ ← ku_assert (startOffset <=? endOffset);
  let numValuesToScan := endOffset - startOffset in
  let columnChunk := if Z.of_nat (length columnChunk) <? numValuesToScan then replicate (Z.to_nat (bit_ceil numValuesToScan)) 0 else columnChunk in
  readCompressedValues dataFH state columnChunk 0 startOffset endOffset (ReadCompressedValuesFromPage dataType).

(** [Column::scanInternal] without a filter, into a value vector. *)
Definition scanInternal (dataFH : file) (dataType : PhysicalTypeID) (state : ChunkState) (startOffsetInChunk numValuesToScan : Z) (resultVector : list Z)
  : outcome (list Z) :=
  readCompressedValues dataFH state resultVector 0 startOffsetInChunk (startOffsetInChunk + numValuesToScan) (ReadCompressedValuesFromPageToVector dataType).

(** The lookup of a row by the offset of its node. *)
Definition NODE_GROUP_SIZE_LOG2 : Z := 17.

Definition getNodeGroupIdxAndOffsetInChunk (nodeOffset : Z) : Z * Z :=
  let nodeGroupIdx := Z.shiftr nodeOffset NODE_GROUP_SIZE_LOG2 in
  (nodeGroupIdx, nodeOffset - Z.shiftl nodeGroupIdx NODE_GROUP_SIZE_LOG2).

Definition getOffsetAndCursor (nodeOffset : Z) (state : ChunkState) : outcome (Z * PageCursor) :=
  let '(_, offsetInChunk) := getNodeGroupIdxAndOffsetInChunk nodeOffset in
  cursor ← getPageCursorForOffsetInGroup offsetInChunk (startPageIdx (metadata state)) (numValuesPerPage state);
  _ ← ku_assert (isPageIdxValid (pageIdx cursor) (metadata state));
  mret (offsetInChunk, cursor).

Definition lookupInternal (dataFH : file) (dataType : PhysicalTypeID) (state : ChunkState) (nodeOffset : Z) (resultVector : list Z) (posInVector : Z)
  : outcome (list Z) :=
  '(_, cursor) ← getOffsetAndCursor nodeOffset state;
  readFromPage dataFH (pageIdx cursor) (fun frame =>
    ReadCompressedValuesFromPageToVector dataType frame (elemPosInPage cursor) resultVector posInVector 1 (compMeta (metadata state))).

(** [StorageValue::gt]; the lower half of the union as the type of the comparison. *)
Definition StorageValue_gt (v other : StorageValue) (type : PhysicalTypeID) : bool :=
  if is_signed (visit type) then StorageValue_get INT64 other <? StorageValue_get INT64 v
  else StorageValue_get UINT64 other <? StorageValue_get UINT64 v.

Definition updateStatistics (dataType : PhysicalTypeID) (chunk : ColumnChunkMetadata) (maxIndex : Z) (min max : option StorageValue) : outcome ColumnChunkMetadata :=
  let numValues := if numValuesInChunk chunk <=? maxIndex then maxIndex + 1 else numValuesInChunk chunk in
  let m := compMeta chunk in
  match min, max with
  | Some min, Some max =>
      let m :=
        if StorageValue_gt max (meta_max m) dataType then mkMetadata (meta_min m) max (compression m)
        else if StorageValue_gt (meta_min m) min dataType then mkMetadata min (meta_max m) (compression m)
        else m in
      mret (mkChunkMetadata (startPageIdx chunk) (numPages chunk) numValues m)
  | None, None => mret (mkChunkMetadata (startPageIdx chunk) (numPages chunk) numValues m)
  | _, _ => Undef
  end.

(** [Column::write]: the file and the metadata of the chunk. *)
Definition write (dataFH : file) (dataType : PhysicalTypeID) (persistentChunk : ColumnChunkMetadata) (state : ChunkState) (dstOffset : Z)
    (data : list Z) (nullMask : option NullMask.t) (srcOffset numValues : Z) : outcome (file * ColumnChunkMetadata) :=
  dataFH ← writeValuesToPage dataFH state dstOffset data srcOffset numValues dataType nullMask;
  '(min, max) ← getMinMaxStorageValue data srcOffset numValues nullMask;
  persistentChunk ← updateStatistics dataType persistentChunk (u64 (dstOffset + numValues - 1)) min max;
  mret (dataFH, persistentChunk).

(** [Column::appendValues]: also the offset of the first value. *)
Definition appendValues (dataFH : file) (dataType : PhysicalTypeID) (persistentChunk : ColumnChunkMetadata) (state : ChunkState)
    (data : list Z) (nullMask : option NullMask.t) (numValues : Z) : outcome (file * ColumnChunkMetadata * Z) :=
  let startOffset := numValuesInChunk persistentChunk in
  dataFH ← writeValuesToPage dataFH state startOffset data 0 numValues dataType nullMask;
  '(min, max) ← getMinMaxStorageValue data 0 numValues nullMask;
  persistentChunk ← updateStatistics dataType persistentChunk (u64 (startOffset + numValues - 1)) min max;
  mret (dataFH, persistentChunk, startOffset).

Definition isEndOffsetOutOfPagesCapacity (dataType : PhysicalTypeID) (chunk : ColumnChunkMetadata) (endOffset : Z) : outcome bool :=
  if isConstant (compMeta chunk) then mret false
  else n ← Metadata_numValues (compMeta chunk) PAGE_SIZE dataType; mret (u64 (n * numPages chunk) <=? endOffset).

(** The updates of a checkpoint: [ChunkCheckpointState]. *)
Record ChunkCheckpointState := mkCheckpointState { chunkData : list Z; chunkNulls : option NullMask.t; startRow : Z; numRows : Z }.

Fixpoint all_in_place (state : ChunkState) (dataType : PhysicalTypeID) (chunks : list ChunkCheckpointState) : outcome bool :=
  match chunks with
  | [] => mret true
  | c :: chunks =>
      let numValues := Z.of_nat (length (chunkData c)) in
      _ ← ku_assert (numValues =? numRows c);
      ok ← if negb (numValues =? 0) then Metadata_canUpdateInPlace (compMeta (metadata state)) (chunkData c) 0 numValues dataType (chunkNulls c) else mret true;
      if ok : bool then all_in_place state dataType chunks else mret false
  end.

Definition canCheckpointInPlace (dataType : PhysicalTypeID) (chunk : ColumnChunkMetadata) (state : ChunkState) (endRowIdxToWrite : Z)
    (chunks : list ChunkCheckpointState) : outcome bool :=
  out ← isEndOffsetOutOfPagesCapacity dataType chunk endRowIdxToWrite;
  if out : bool then mret false
  else if canAlwaysUpdateInPlace (compMeta chunk) then mret true
  else all_in_place state dataType chunks.

(** [checkpointColumnChunkInPlace], for the values. *)
Fixpoint checkpointColumnChunkInPlace (dataFH : file) (dataType : PhysicalTypeID) (persistentChunk : ColumnChunkMetadata) (state : ChunkState)
    (chunks : list ChunkCheckpointState) : outcome (file * ColumnChunkMetadata) :=
  match chunks with
  | [] => mret (dataFH, persistentChunk)
  | c :: chunks =>
      _ ← ku_assert (0 <? numRows c);
      '(dataFH, persistentChunk) ← write dataFH dataType persistentChunk state (startRow c) (chunkData c) (chunkNulls c) 0 (numRows c);
      checkpointColumnChunkInPlace dataFH dataType persistentChunk state chunks
  end.
End read_write.
