(* ===== verification/CompressionFacts.v ===== *)
(** Pages of a column of integers as arrays of values, whatever their compression: an
    uncompressed page is a page packed with all the bits of the type; then updates in
    place. *)
From S2P Require Import Prelude Serializer FreeSpaceManager NullMask Bitpacking BitpackingFacts BitpackingPages Compression.
Local Open Scope Z_scope.

#[export] Instance visit_width dt : width_ok (visit dt).
Proof. destruct dt; apply _. Qed.

(** How a page keeps its values. *)
Definition page_info (dt : PhysicalTypeID) (m : CompressionMetadata) : BitpackInfo :=
  match compression m with UNCOMPRESSED => mkInfo (bits (visit dt)) false 0 | _ => getPackingInfo (visit dt) m end.

Definition page_value (dt : PhysicalTypeID) (m : CompressionMetadata) (page : bytes) (i : Z) : Z := value_at (visit dt) (page_info dt m) page i.

(** The pages whose values can be read and written. *)
Definition paged (dt : PhysicalTypeID) (m : CompressionMetadata) : Prop :=
  (compression m = UNCOMPRESSED \/ compression m = INTEGER_BITPACKING) /\
  0 < bitWidth (page_info dt m) <= bits (visit dt) /\ extensible (visit dt) (page_info dt m).

Definition page_ok (page : bytes) : Prop := bytes_ok page /\ size page = PAGE_SIZE.

Definition per_page (dt : PhysicalTypeID) (m : CompressionMetadata) : Z := 8 * PAGE_SIZE / bitWidth (page_info dt m).

Lemma page_size_is : PAGE_SIZE = 4096.
Proof. done. Qed.

Lemma type_size dt : let n := getDataTypeSizeInChunk dt in 1 <= n <= 8 /\ bits (visit dt) = 8 * n /\ 8 <= bits (visit dt) <= 64.
Proof. destruct dt; cbn; split_and!; done. Qed.

Lemma page_aligned dt page : page_ok page -> aligned (visit dt) page 0.
Proof. intros [_ Hs]. unfold aligned. rewrite Hs. by destruct dt. Qed.

Lemma per_page_range dt m : paged dt m -> 512 <= per_page dt m <= 32768 /\ per_page dt m * bitWidth (page_info dt m) <= 8 * PAGE_SIZE.
Proof.
  intros (_ & Hbw & _). unfold per_page. pose proof (type_size dt) as (_ & _ & Hb). set (bw := bitWidth _) in *.
  change (8 * PAGE_SIZE) with 32768. pose proof (Z.mul_div_le 32768 bw ltac:(lia)). split; [split|lia].
  - apply Z.div_le_lower_bound; lia.
  - apply Z.div_le_upper_bound; lia.
Qed.

(** The code computes the number of values of a page this way. *)
Lemma Metadata_numValues_paged dt m : paged dt m -> Metadata_numValues m PAGE_SIZE dt = Ret (per_page dt m).
Proof.
  intros ([E|E] & Hbw & _); unfold Metadata_numValues, per_page; unfold page_info in *; rewrite E in *; cbn [mret outcome_ret bitWidth] in *.
  - f_equal. unfold Uncompressed.numValues. destruct dt; done.
  - f_equal. unfold numValues. rewrite (proj2 (Z.eqb_neq _ _)) by lia. unfold u64. rewrite wrap_small by done. done.
Qed.

(** ** Uncompressed values are bits too *)

Lemma bytes_of_ok n values : bytes_ok (Uncompressed.bytes_of n values).
Proof.
  unfold Uncompressed.bytes_of, bytes_ok. induction values as [|v values IH]; [done|]. cbn [map concat].
  apply Forall_app; split; [apply le_bytes_ok|done].
Qed.

Lemma size_bytes_of n values : 0 <= n -> size (Uncompressed.bytes_of n values) = n * Z.of_nat (length values).
Proof.
  intros Hn. unfold size, Uncompressed.bytes_of. induction values as [|v values IH]; cbn [map concat length]; [lia|].
  rewrite length_app, length_le_bytes. lia.
Qed.

Lemma bit_bytes_of n values i : 0 < n -> 0 <= i < 8 * n * Z.of_nat (length values) ->
  bit (Uncompressed.bytes_of n values) i = Z.testbit (nth (Z.to_nat (i / (8 * n))) values 0) (i mod (8 * n)).
Proof.
  intros Hn. revert i. induction values as [|v values IH]; intros i Hi; cbn [length] in Hi; [lia|].
  unfold Uncompressed.bytes_of. cbn [map concat]. fold (Uncompressed.bytes_of n values). rewrite bit_app by (lia || apply le_bytes_ok).
  unfold size. rewrite length_le_bytes. rewrite Z2Nat.id by lia. destruct (Z.ltb_spec i (8 * n)).
  - rewrite bit_le_bytes by lia. rewrite (proj2 (Z.ltb_lt _ _)) by lia. rewrite (Z.div_small i), (Z.mod_small i) by lia. done.
  - rewrite IH by lia. replace i with (i - 8 * n + 1 * (8 * n)) at 3 4 by lia. rewrite Z.div_add, Z.mod_add by lia.
    assert (0 <= (i - 8 * n) / (8 * n)) by (apply Z.div_pos; lia).
    rewrite Z2Nat.inj_add, Nat.add_comm by lia. done.
Qed.

Lemma write_bytes_run page at_ bs : bytes_ok page -> bytes_ok bs -> 0 <= at_ -> at_ + size bs <= size page ->
  exists page', Uncompressed.write_bytes page at_ bs = Ret page' /\
    bits_set page page' (8 * at_) (8 * (at_ + size bs)) (fun i => bit bs (i - 8 * at_)).
Proof.
  intros Hok Hbs Hat Hle. unfold Uncompressed.write_bytes. fold (size bs) (size page). rewrite !(proj2 (Z.leb_le _ _)) by lia.
  eexists. split; [done|]. unfold size in *. set (a := Z.to_nat at_).
  assert (Ha : length (take a page) = a) by (rewrite length_take; lia).
  split_and!.
  - apply Forall_app; split; [by apply Forall_take|]. apply Forall_app; split; [done|by apply Forall_drop].
  - unfold size. rewrite !length_app, length_drop, Ha. lia.
  - intros i Hi. rewrite bit_app by (done || by apply Forall_take). unfold size. rewrite Ha.
    destruct (Z.ltb_spec i (8 * Z.of_nat a)).
    { rewrite (proj2 (Z.leb_gt _ _)) by lia. cbn [andb]. rewrite <-(take_drop a page) at 2. rewrite bit_app by (done || by apply Forall_take).
      unfold size. rewrite Ha. by rewrite (proj2 (Z.ltb_lt _ _)) by lia. }
    rewrite (proj2 (Z.leb_le _ _)) by lia. cbn [andb]. rewrite bit_app by (done || lia). unfold size.
    destruct (Z.ltb_spec i (8 * (at_ + Z.of_nat (length bs)))).
    + rewrite (proj2 (Z.ltb_lt _ _)) by lia. f_equal. lia.
    + rewrite (proj2 (Z.ltb_ge _ _)) by lia. rewrite <-(take_drop (a + length bs) page) at 2. rewrite bit_app by (done || by apply Forall_take).
      unfold size. rewrite length_take, Nat.min_l by lia. rewrite (proj2 (Z.ltb_ge _ _)) by lia. f_equal. lia.
Qed.

(** ** Nulls and bounds *)

(** A mask can be asked about the first [n] values, and is sound when it promises that
    none is null. *)
Definition mask_ok (nullMask : option NullMask.t) (n : Z) : Prop :=
  forall i, 0 <= i < n -> exists b, isNull_at nullMask i = Ret b /\
    (forall m, nullMask = Some m -> NullMask.hasNoNullsGuarantee m = true -> b = false).

(** [P] holds of the values that are not null. *)
Definition non_null (nullMask : option NullMask.t) (data : list Z) (lo n : Z) (P : Z -> Prop) : Prop :=
  forall i v, lo <= i < lo + n -> isNull_at nullMask i = Ret false -> data !! Z.to_nat i = Some v -> P v.

(** The bounds that were found: of all values that count, and values themselves, or given
    before. *)
Lemma minmax_from_run nullMask data i mn mx (P : Z -> Prop) :
  (forall k, (k < length data)%nat -> exists b, isNull_at nullMask (i + Z.of_nat k) = Ret b) ->
  (forall k v, data !! k = Some v -> isNull_at nullMask (i + Z.of_nat k) = Ret false -> P v) ->
  (is_Some mn <-> is_Some mx) -> (forall a, mn = Some a -> P a) -> (forall b, mx = Some b -> P b) ->
  (forall a b, mn = Some a -> mx = Some b -> a <= b) ->
  exists mn' mx', minmax_from nullMask data i mn mx = Ret (mn', mx') /\
    (is_Some mn' <-> is_Some mx') /\ (forall a, mn' = Some a -> P a) /\ (forall b, mx' = Some b -> P b) /\
    (forall a, mn = Some a -> exists a', mn' = Some a' /\ a' <= a) /\ (forall b, mx = Some b -> exists b', mx' = Some b' /\ b <= b') /\
    (forall a b, mn' = Some a -> mx' = Some b -> a <= b) /\
    (forall k v, data !! k = Some v -> isNull_at nullMask (i + Z.of_nat k) = Ret false -> exists a b, mn' = Some a /\ mx' = Some b /\ a <= v <= b).
Proof.
  revert i mn mx. induction data as [|v data IH]; intros i mn mx Hnull Hdata Hsome Hmn Hmx Hle; cbn [minmax_from].
  { exists mn, mx. split; [done|]. split_and!; try done; [intros; eexists; split; [done|lia]..]. }
  destruct (Hnull 0%nat) as [b Hb]; [cbn; lia|]. rewrite Z.add_0_r in Hb. rewrite Hb. cbn [mbind outcome_bind].
  assert (Hnull' : forall k, (k < length data)%nat -> exists b, isNull_at nullMask (i + 1 + Z.of_nat k) = Ret b).
  { intros k Hk. destruct (Hnull (S k)) as [b' Hb']; [cbn; lia|]. exists b'. by replace (i + 1 + Z.of_nat k) with (i + Z.of_nat (S k)) by lia. }
  assert (Hdata' : forall k v, data !! k = Some v -> isNull_at nullMask (i + 1 + Z.of_nat k) = Ret false -> P v).
  { intros k w Hk Hn. apply (Hdata (S k) w Hk). by replace (i + Z.of_nat (S k)) with (i + 1 + Z.of_nat k) by lia. }
  assert (Hshift : forall k, i + Z.of_nat (S k) = i + 1 + Z.of_nat k) by lia.
  destruct b.
  - destruct (IH (i + 1) mn mx) as (mn' & mx' & Hrun & H1 & H2 & H3 & H4 & H5 & H6 & H7); try done.
    exists mn', mx'. split_and!; try done. intros [|k] w Hk Hn; [rewrite Z.add_0_r in Hn; congruence|]. rewrite Hshift in Hn. by apply (H7 k).
  - assert (Hv : P v) by (apply (Hdata 0%nat v); [done|by rewrite Z.add_0_r]).
    set (mn1 := match mn with Some m => if v <? m then Some v else mn | None => Some v end).
    set (mx1 := match mx with Some m => if m <? v then Some v else mx | None => Some v end).
    assert (exists a, mn1 = Some a /\ P a /\ a <= v /\ (forall a0, mn = Some a0 -> a <= a0)) as (a & Ha & HPa & Hav & Ham).
    { unfold mn1. destruct mn as [m|]; [|exists v; split_and!; [done|done|lia|done]].
      destruct (Z.ltb_spec v m); [exists v|exists m]; split_and!; auto; try lia; intros ? [= <-]; lia. }
    assert (exists b, mx1 = Some b /\ P b /\ v <= b /\ (forall b0, mx = Some b0 -> b0 <= b)) as (b & Hb' & HPb & Hvb & Hbm).
    { unfold mx1. destruct mx as [m|]; [|exists v; split_and!; [done|done|lia|done]].
      destruct (Z.ltb_spec m v); [exists v|exists m]; split_and!; auto; try lia; intros ? [= <-]; lia. }
    clearbody mn1 mx1. subst mn1 mx1.
    destruct (IH (i + 1) (Some a) (Some b)) as (mn' & mx' & Hrun & H1 & H2 & H3 & H4 & H5 & H6 & H7); try done; try (by intros ? [= <-]).
    { by intros ?? [= <-] [= <-]; lia. }
    destruct (H4 a eq_refl) as (a' & Ha' & Hle1). destruct (H5 b eq_refl) as (b' & Hb2 & Hle2).
    exists mn', mx'. split_and!; try done.
    + intros a0 Ha0. exists a'. split; [done|]. specialize (Ham a0 Ha0). lia.
    + intros b0 Hb0. exists b'. split; [done|]. specialize (Hbm b0 Hb0). lia.
    + intros [|k] w Hk Hn; [|rewrite Hshift in Hn; by apply (H7 k)]. injection Hk as <-. exists a', b'. split_and!; [done..|lia|lia].
Qed.

(** The bounds of a part of the data. *)
Lemma getTypedMinMax_run nullMask data lo n values (P : Z -> Prop) :
  mask_ok nullMask (lo + n) -> 0 <= lo -> 0 < n -> lo + n <= Z.of_nat (length data) -> array_slice data lo n = Ret values ->
  non_null nullMask data lo n P ->
  exists mn mx, getTypedMinMax values nullMask lo = Ret (mn, mx) /\ (is_Some mn <-> is_Some mx) /\
    (forall a, mn = Some a -> P a) /\ (forall b, mx = Some b -> P b) /\ (forall a b, mn = Some a -> mx = Some b -> a <= b) /\
    non_null nullMask data lo n (fun v => exists a b, mn = Some a /\ mx = Some b /\ a <= v <= b).
Proof.
  intros Hmask Hlo Hn Hlen Hslice HP.
  assert (Hvalues : length values = Z.to_nat n /\ forall k, (k < Z.to_nat n)%nat -> values !! k = data !! (Z.to_nat lo + k)%nat).
  { unfold array_slice in Hslice. rewrite !(proj2 (Z.leb_le _ _)) in Hslice by lia. injection Hslice as <-.
    split; [rewrite length_take, length_drop; lia|]. intros k Hk. rewrite lookup_take, decide_True by done. apply lookup_drop. }
  destruct Hvalues as [Hl Hv]. unfold getTypedMinMax. rewrite (proj2 (Nat.ltb_lt _ _)) by lia. cbn [ku_assert mbind outcome_bind].
  assert (Hidx : forall k, (k < Z.to_nat n)%nat -> Z.to_nat (lo + Z.of_nat k) = (Z.to_nat lo + k)%nat) by lia.
  assert (Hgen : forall mask i0, (forall k, (k < length values)%nat -> exists b, isNull_at mask (i0 + Z.of_nat k) = Ret b) ->
    (forall k, (k < length values)%nat -> isNull_at mask (i0 + Z.of_nat k) = Ret false <-> isNull_at nullMask (lo + Z.of_nat k) = Ret false) ->
    exists mn mx, minmax_from mask values i0 None None = Ret (mn, mx) /\ (is_Some mn <-> is_Some mx) /\
    (forall a, mn = Some a -> P a) /\ (forall b, mx = Some b -> P b) /\ (forall a b, mn = Some a -> mx = Some b -> a <= b) /\
    non_null nullMask data lo n (fun v => exists a b, mn = Some a /\ mx = Some b /\ a <= v <= b)).
  { intros mask i0 Hdef Hsame.
    destruct (minmax_from_run mask values i0 None None P) as (mn & mx & Hrun & H1 & H2 & H3 & _ & _ & H6 & H7); try done.
    { intros k v Hk Hnn. pose proof (lookup_lt_Some _ _ _ Hk). rewrite Hsame in Hnn by done. rewrite Hv in Hk by lia.
      apply (HP (lo + Z.of_nat k) v); [lia|done|]. by rewrite Hidx by lia. }
    exists mn, mx. split_and!; try done. intros i v Hi Hnn Hd. apply (H7 (Z.to_nat (i - lo)) v).
    - rewrite Hv by lia. by replace (Z.to_nat lo + Z.to_nat (i - lo))%nat with (Z.to_nat i) by lia.
    - apply Hsame; [lia|]. by replace (lo + Z.of_nat (Z.to_nat (i - lo))) with i by lia. }
  assert (Hdefined : forall k, (k < length values)%nat -> exists b, isNull_at nullMask (lo + Z.of_nat k) = Ret b).
  { intros k Hk. destruct (Hmask (lo + Z.of_nat k) ltac:(lia)) as (b & Hb & _). by exists b. }
  destruct nullMask as [m|]; [destruct (NullMask.hasNoNullsGuarantee m) eqn:Eg|]; apply Hgen; try done.
  - intros k Hk. by exists false.
  - intros k Hk. destruct (Hmask (lo + Z.of_nat k) ltac:(lia)) as (b & Hb & Hg). rewrite (Hg m eq_refl Eg) in Hb. by rewrite Hb.
Qed.

Lemma getMinMaxStorageValue_run nullMask data lo n (P : Z -> Prop) :
  mask_ok nullMask (lo + n) -> 0 <= lo -> 0 < n -> lo + n <= Z.of_nat (length data) -> non_null nullMask data lo n P ->
  exists mn mx, getMinMaxStorageValue data lo n nullMask = Ret (StorageValue_of <$> mn, StorageValue_of <$> mx) /\ (is_Some mn <-> is_Some mx) /\
    (forall a, mn = Some a -> P a) /\ (forall b, mx = Some b -> P b) /\ (forall a b, mn = Some a -> mx = Some b -> a <= b) /\
    non_null nullMask data lo n (fun v => exists a b, mn = Some a /\ mx = Some b /\ a <= v <= b).
Proof.
  intros Hmask Hlo Hn Hlen HP. unfold getMinMaxStorageValue. rewrite (proj2 (Z.ltb_lt 0 n)) by done.
  destruct (array_slice_run data lo n) as (values & Hsl & _); [lia..|]. rewrite Hsl. cbn [mbind outcome_bind].
  destruct (getTypedMinMax_run nullMask data lo n values P) as (mn & mx & Hrun & Hrest); try done. rewrite Hrun. by exists mn, mx.
Qed.

(** Updates in place: the values that [canUpdateInPlace] accepts can be written to a page,
    and reading and writing a page is reading and writing an array. *)

(** The bounds in the metadata are values that can be compressed. *)
Record bounds_ok (t : int_type) (m : CompressionMetadata) : Prop := {
  lo_ok : compressible t (meta_lo t m);
  hi_ok : compressible t (meta_hi t m);
  lo_hi : meta_lo t m <= meta_hi t m;
  min_is : meta_min m = StorageValue_of (meta_lo t m);
  max_is : meta_max m = StorageValue_of (meta_hi t m);
}.

(** With values from [mn] to [mx] the packing stays the same. *)
Definition settled (t : int_type) (m : CompressionMetadata) (mn mx : Z) : Prop :=
  compressible t mn /\ compressible t mx /\ mn <= mx /\ packing (Z.min (meta_lo t m) mn) (Z.max (meta_hi t m) mx) (getPackingInfo t m).

Section updates.
Context (t : int_type) {Hw : width_ok t}.

Lemma getPackingInfo_of m mn mx c : compressible t mn -> compressible t mx -> mn <= mx ->
  packing mn mx (getPackingInfo t (mkMetadata (StorageValue_of mn) (StorageValue_of mx) c)) /\
  meta_lo t (mkMetadata (StorageValue_of mn) (StorageValue_of mx) m) = mn /\ meta_hi t (mkMetadata (StorageValue_of mn) (StorageValue_of mx) m) = mx.
Proof.
  intros Hmn Hmx Hle.
  assert (Hlo : forall c, meta_lo t (mkMetadata (StorageValue_of mn) (StorageValue_of mx) c) = mn) by (intros; apply (StorageValue_get_of t); apply Hmn).
  assert (Hhi : forall c, meta_hi t (mkMetadata (StorageValue_of mn) (StorageValue_of mx) c) = mx) by (intros; apply (StorageValue_get_of t); apply Hmx).
  split_and!; [|apply Hlo|apply Hhi].
  rewrite <-(Hlo c) at 1. rewrite <-(Hhi c) at 2. apply getPackingInfo_packing; rewrite ?Hlo, ?Hhi; done.
Qed.

Lemma compressible_between a b v : compressible t a -> compressible t b -> a <= v <= b -> compressible t v.
Proof. intros [Ha1 Ha2] [Hb _] Hv. split; [lia|]. intros Hs. specialize (Ha2 Hs). lia. Qed.

Lemma compressible_min a b : compressible t a -> compressible t b -> compressible t (Z.min a b).
Proof. destruct (Z.min_spec a b) as [[_ ->]|[_ ->]]; done. Qed.

Lemma compressible_max a b : compressible t a -> compressible t b -> compressible t (Z.max a b).
Proof. destruct (Z.max_spec a b) as [[_ ->]|[_ ->]]; done. Qed.

Lemma info_eqb a b : (if negb (bitWidth a =? bitWidth b) || xorb (hasNegative a) (hasNegative b) || negb (offset a =? offset b) then false else true) = true <-> a = b.
Proof.
  destruct a as [w1 n1 o1], b as [w2 n2 o2]; cbn. split.
  - destruct (Z.eqb_spec w1 w2), (Z.eqb_spec o1 o2), n1, n2; cbn; congruence.
  - intros [= -> -> ->]. rewrite !Z.eqb_refl, xorb_nilpotent. done.
Qed.

(** The test of [canUpdateInPlace], on bounds that were found. *)
Lemma update_test m mn mx : bounds_ok t m -> compressible t mn -> compressible t mx -> mn <= mx ->
  let info := getPackingInfo t m in
  let newInfo := getPackingInfo t (mkMetadata (StorageValue_of (Z.min (StorageValue_get t (meta_min m)) mn))
                                     (StorageValue_of (Z.max (StorageValue_get t (meta_max m)) mx)) (compression m)) in
  (if negb (bitWidth info =? bitWidth newInfo) || xorb (hasNegative info) (hasNegative newInfo) || negb (offset info =? offset newInfo)
   then false else true) = true <-> settled t m mn mx.
Proof.
  intros Hok Hmn Hmx Hle info newInfo. rewrite info_eqb. fold (meta_lo t m) (meta_hi t m) in newInfo. destruct Hok as [Hlo Hhi Hlh _ _].
  destruct (getPackingInfo_of UNCOMPRESSED (Z.min (meta_lo t m) mn) (Z.max (meta_hi t m) mx) (compression m)) as (Hp & _);
    [by apply compressible_min|by apply compressible_max|lia|]. fold newInfo in Hp.
  unfold settled. fold info. split.
  - intros ->. done.
  - intros (_ & _ & _ & Hp'). by apply (packing_fun _ _ _ _ Hp' Hp).
Qed.

Lemma update_one m mn mx v : bounds_ok t m -> settled t m mn mx -> mn <= v <= mx -> canUpdateInPlace t [v] m None 0 = Ret true.
Proof.
  intros Hok (Hmn & Hmx & Hle & Hp) Hv. unfold canUpdateInPlace. cbn [getTypedMinMax length Nat.ltb Nat.leb ku_assert mbind outcome_bind minmax_from isNull_at mret outcome_ret].
  f_equal. assert (Hcv : compressible t v) by by apply (compressible_between mn mx). apply update_test; [done..|lia|].
  split_and!; [done..|lia|]. destruct Hok as [Hlo Hhi Hlh _ _].
  eapply packing_between; [by apply getPackingInfo_packing|exact Hp|lia..].
Qed.

(** What a settled value is read back as. *)
Lemma settled_keeps m mn mx v : bounds_ok t m -> settled t m mn mx -> mn <= v <= mx -> bitWidth (getPackingInfo t m) <= bits t -> kept t (getPackingInfo t m) v = v.
Proof.
  intros Hok (Hmn & Hmx & Hle & Hp) Hv Hbw. destruct Hok as [Hlo Hhi Hlh _ _].
  eapply (packing_keeps t); [exact Hp|by apply compressible_min|by apply compressible_max|lia|done].
Qed.

(** Two updates that each keep the packing keep it together. *)
Lemma packing_cross l0 h0 l1 h1 l2 h2 info : packing l0 h0 info -> packing l1 h1 info -> packing l2 h2 info ->
  l1 <= l2 <= l0 -> l0 <= h0 -> h0 <= h1 <= h2 -> packing l1 h2 info.
Proof.
  intros H0 H1 H2 Hl Hle Hh.
  destruct H0 as [[Hpos Hsv]|Hneg Heq|Hneg Hlt|Hnn Hns].
  - assert (l1 = l0) by (inversion H1; lia). assert (l2 = l0) by lia. by subst l1 l2.
  - inversion H1; subst; try lia. inversion H2; subst; try lia.
    match goal with |- packing ?a ?b (mkInfo _ _ ?o) => by constructor; lia end.
  - assert (bit_width (Z.max (- l1) h1) = bit_width (Z.max (- l0) h0)) as E1 by (inversion H1; lia).
    assert (bit_width (Z.max (- l2) h2) = bit_width (Z.max (- l0) h0)) as E2 by (inversion H2; lia).
    assert (bit_width (Z.max (- l1) h2) = bit_width (Z.max (- l0) h0)) as E3.
    { destruct (Z.le_ge_cases (- l1) h2).
      - replace (Z.max (- l1) h2) with (Z.max (- l2) h2) by lia. done.
      - pose proof (bit_width_mono (Z.max (- l0) h0) (Z.max (- l1) h2) ltac:(lia)).
        pose proof (bit_width_mono (Z.max (- l1) h2) (Z.max (- l1) h1) ltac:(lia)). lia. }
    rewrite <-E3. constructor; lia.
  - assert (bit_width h2 = bit_width h0 /\ ~ saves l2 h2) as [E2 Hn2]
      by (inversion H2 as [[Hp2 _]| | |]; [lia|split; [lia|done]]).
    rewrite <-E2. constructor; [inversion H1 as [[Hp1 _]| | |]; lia|]. intros [Hp1 Hs1]. apply Hns. split; [lia|].
    pose proof (bit_width_mono (h0 - l0) (h2 - l1) ltac:(lia)). lia.
Qed.

Lemma packing_union l0 h0 l1 h1 l2 h2 info : packing l0 h0 info -> packing l1 h1 info -> packing l2 h2 info -> l0 <= h0 ->
  l1 <= l0 -> l2 <= l0 -> h0 <= h1 -> h0 <= h2 -> packing (Z.min l1 l2) (Z.max h1 h2) info.
Proof.
  intros H0 H1 H2 Hle Hl1 Hl2 Hh1 Hh2.
  destruct (Z.le_ge_cases l1 l2), (Z.le_ge_cases h1 h2);
    rewrite ?(Z.min_l l1 l2), ?(Z.min_r l1 l2), ?(Z.max_l h1 h2), ?(Z.max_r h1 h2) by done; try done.
  - by apply (packing_cross l0 h0 l1 h1 l2 h2).
  - by apply (packing_cross l0 h0 l2 h2 l1 h1).
Qed.
End updates.

(** ** Writing to a page *)

(** What can be written in place to a column with this metadata. *)
Definition writable (dt : PhysicalTypeID) (m : CompressionMetadata) (nullMask : option NullMask.t) (data : list Z) (lo n : Z) : Prop :=
  let t := visit dt in
  non_null nullMask data lo n (fun v => MIN t <= v <= MAX t) /\
  match compression m with
  | CONSTANT => non_null nullMask data lo n (fun v => v = StorageValue_get t (meta_min m))
  | UNCOMPRESSED => True
  | INTEGER_BITPACKING => bounds_ok t m /\ non_null nullMask data lo n (fun v => exists mn mx, settled t m mn mx /\ mn <= v <= mx)
  | ALP | BOOLEAN_BITPACKING => False
  end.

Lemma mask_ok_weaken nullMask n n' : n' <= n -> mask_ok nullMask n -> mask_ok nullMask n'.
Proof. intros Hle Hm i Hi. apply Hm. lia. Qed.

Lemma non_null_part nullMask data lo n lo' n' P : lo <= lo' -> lo' + n' <= lo + n -> non_null nullMask data lo n P -> non_null nullMask data lo' n' P.
Proof. intros H1 H2 Hn i v Hi. apply Hn. lia. Qed.

Lemma writable_part dt m nullMask data lo n lo' n' : lo <= lo' -> lo' + n' <= lo + n -> writable dt m nullMask data lo n -> writable dt m nullMask data lo' n'.
Proof.
  intros H1 H2 [Ht Hc]. split; [by eapply non_null_part|]. destruct (compression m); try done.
  - destruct Hc as [Hb Hc]. split; [done|by eapply non_null_part].
  - by eapply non_null_part.
Qed.

Lemma all_fit_run t {Hw : width_ok t} m nullMask data lo n : mask_ok nullMask (lo + n) -> 0 <= lo -> 0 <= n -> lo + n <= Z.of_nat (length data) ->
  bounds_ok t m -> non_null nullMask data lo n (fun v => exists mn mx, settled t m mn mx /\ mn <= v <= mx) ->
  all_fit t data lo n m nullMask = Ret tt.
Proof.
  intros Hmask Hlo Hn Hlen Hok Hset. unfold all_fit.
  match goal with |- for_range _ _ ?body _ = _ => destruct (for_range_inv (fun _ _ => True) 0 (Z.to_nat n) body tt) as ([] & Hrun & _) end; [done| |done].
  intros k [] Hk _. exists tt. split; [|done]. cbn [Nat.add].
  destruct (load_lt data (Z.to_nat lo + k) ltac:(lia)) as (v & Hv & ->). cbn [mbind outcome_bind].
  destruct (Hmask (lo + Z.of_nat k) ltac:(lia)) as (b & Hb & _). rewrite Hb. cbn [mbind outcome_bind]. destruct b; [done|].
  destruct (Hset (lo + Z.of_nat k) v) as (mn & mx & Hs & Hr); [lia|done| |].
  { by replace (Z.to_nat (lo + Z.of_nat k)) with (Z.to_nat lo + k)%nat by lia. }
  rewrite (update_one t m mn mx v) by done. done.
Qed.

Lemma decoded_plain t w v : 0 < w <= bits t -> w = bits t -> width_ok t -> MIN t <= v <= MAX t ->
  decoded t (mkInfo w false 0) (Z.land (castU t (v - 0)) (Z.ones w)) = v.
Proof.
  intros Hbw -> Hw Hv. unfold decoded. cbn [hasNegative andb offset bitWidth]. rewrite Z.eqb_refl. cbn [negb].
  rewrite Z.sub_0_r. rewrite land_castU by lia. change (v mod 2 ^ bits t) with (wrap (bits t) v). rewrite cast_wrap by (done || lia). by apply cast_id.
Qed.

Lemma cast_range t z : width_ok t -> MIN t <= cast t z <= MAX t.
Proof.
  intros Hw. pose proof (pow_bits t). pose proof (bits_pos t). unfold MIN, MAX, cast.
  destruct (is_signed t).
  - pose proof (wrap_range (bits t) (z + 2 ^ (bits t - 1)) ltac:(lia)). lia.
  - pose proof (wrap_range (bits t) z ltac:(lia)). lia.
Qed.

Lemma decoded_in_type t info out : width_ok t -> MIN t <= decoded t info out <= MAX t.
Proof. intros Hw. unfold decoded. destruct (negb _), (_ && _); by apply cast_range. Qed.

Section pages.
Context `{FastPForLaws} (dt : PhysicalTypeID) (m : CompressionMetadata).
Abbreviation t := (visit dt).
Abbreviation info := (page_info dt m).

(** The number that is kept of a value that can be written decodes to it. *)
Lemma written_value nullMask data lo n i v : paged dt m -> writable dt m nullMask data lo n ->
  lo <= i < lo + n -> isNull_at nullMask i = Ret false -> data !! Z.to_nat i = Some v -> kept t info v = v.
Proof.
  intros ([E|E] & Hbw & _) [Ht Hc] Hi Hn Hv; unfold page_info in *; rewrite E in *.
  - apply (decoded_plain t); [done|done|apply _|by apply (Ht i)].
  - destruct Hc as [Hok Hc]. destruct (Hc i v Hi Hn Hv) as (mn & mx & Hs & Hr). apply (settled_keeps t m mn mx v Hok Hs Hr). lia.
Qed.

(** A page with the values of a part of the data. *)
Definition holds_part (page page' : bytes) (pos n : Z) (data : list Z) (lo : Z) (nullMask : option NullMask.t) : Prop :=
  page_ok page' /\
  (forall i, 0 <= i -> ~ pos <= i < pos + n -> page_value dt m page' i = page_value dt m page i) /\
  (forall i v, pos <= i < pos + n -> isNull_at nullMask (lo + (i - pos)) = Ret false -> data !! Z.to_nat (lo + (i - pos)) = Some v ->
    page_value dt m page' i = v).

(** The values of a page that was packed. *)
Lemma packed_value page page' pos n values i : paged dt m -> 0 <= pos -> 0 <= i -> packed page page' (bitWidth info) pos (pos + n) values ->
  page_value dt m page' i = if (pos <=? i) && (i <? pos + n) then decoded t info (Z.land (values i) (Z.ones (bitWidth info))) else page_value dt m page i.
Proof. intros (_ & Hbw & _) Hpos Hi Hp. unfold page_value, value_at. rewrite (packed_raw _ _ _ _ _ _ i (proj1 Hbw) Hpos Hi Hp). by case_match. Qed.

Lemma packed_holds page page' pos n data lo nullMask : paged dt m -> page_ok page -> 0 <= pos -> 0 <= lo ->
  (forall i v, lo <= i < lo + n -> isNull_at nullMask i = Ret false -> data !! Z.to_nat i = Some v -> kept t info v = v) ->
  packed page page' (bitWidth info) pos (pos + n) (encoded t info data lo pos) -> holds_part page page' pos n data lo nullMask.
Proof.
  intros Hpg [Hok Hs] Hpos Hlo Hkeep Hp. pose proof (packed_page _ _ _ _ _ _ Hp) as [Hok' Hs'].
  pose proof (fun i Hi => packed_value _ _ _ _ _ i Hpg Hpos Hi Hp) as Hval.
  split; [by split; [|congruence]|]. split.
  - intros i Hi Hout. rewrite Hval by done. destruct (Z.leb_spec pos i), (Z.ltb_spec i (pos + n)); cbn; done || lia.
  - intros i v Hi Hn Hv. rewrite Hval by lia. rewrite (proj2 (Z.leb_le _ _)), (proj2 (Z.ltb_lt _ _)) by lia. cbn [andb].
    unfold encoded. replace (i - pos + lo) with (lo + (i - pos)) by lia. rewrite nth_lookup, Hv. cbn. by apply (Hkeep (lo + (i - pos)) v); [lia|..].
Qed.

(** A part of the data as it lies in memory is packed with all bits. *)
Lemma uncompressed_packed page at_ pos n data lo values : compression m = UNCOMPRESSED -> bytes_ok page -> 0 <= pos -> 0 <= n ->
  at_ = pos * getDataTypeSizeInChunk dt -> (pos + n) * bits t <= 8 * size page -> length values = Z.to_nat n ->
  (forall i, 0 <= i < n -> nth (Z.to_nat i) values 0 = nth (Z.to_nat (lo + i)) data 0) ->
  exists page', Uncompressed.write_bytes page at_ (Uncompressed.bytes_of (getDataTypeSizeInChunk dt) values) = Ret page' /\
    packed page page' (bitWidth info) pos (pos + n) (encoded t info data lo pos).
Proof.
  intros E Hok Hpos Hn -> Hle Hlen Hv. pose proof (type_size dt) as (Hsz & Hb & Hb8). set (w := getDataTypeSizeInChunk dt) in *.
  unfold page_info. rewrite E. cbn [bitWidth]. pose proof (size_bytes_of w values ltac:(lia)) as Hsb. rewrite Hlen, Z2Nat.id in Hsb by lia.
  destruct (write_bytes_run page (pos * w) (Uncompressed.bytes_of w values)) as (page' & -> & Hset); [done|apply bytes_of_ok|nia|rewrite Hsb; nia|].
  exists page'. split; [done|]. unfold packed. rewrite Hsb in Hset. rewrite Hb.
  replace (pos * (8 * w)) with (8 * (pos * w)) by lia. replace ((pos + n) * (8 * w)) with (8 * (pos * w + w * n)) by lia.
  eapply bits_set_ext; [|exact Hset]. intros b Hbr. cbn beta.
  rewrite bit_bytes_of by (rewrite ?Hlen; lia). unfold encoded. cbn [offset]. rewrite Z.sub_0_r. unfold castU.
  assert (Hq : 0 <= (b - 8 * (pos * w)) / (8 * w) < n) by (split; [apply Z.div_pos; lia|apply Z.div_lt_upper_bound; lia]).
  replace b with (b - 8 * (pos * w) + pos * (8 * w)) at 3 4 by lia. rewrite Z.div_add, Z.mod_add by lia.
  pose proof (Z.mod_pos_bound (b - 8 * (pos * w)) (8 * w) ltac:(lia)).
  rewrite testbit_wrap by lia. rewrite (proj2 (Z.ltb_lt _ _)) by lia. cbn [andb]. rewrite Hv by done. do 3 f_equal. lia.
Qed.

Lemma write_page page pos data lo n nullMask : paged dt m -> page_ok page -> 0 <= pos -> 0 <= n -> pos + n <= per_page dt m ->
  0 <= lo -> lo + n <= Z.of_nat (length data) -> mask_ok nullMask (lo + n) -> writable dt m nullMask data lo n ->
  exists page', WriteCompressedValuesToPage dt page pos data lo n m nullMask = Ret page' /\ holds_part page page' pos n data lo nullMask.
Proof.
  intros Hpg Hpok Hpos Hn Hper Hlo Hlen Hmask Hwr. pose proof (per_page_range dt m Hpg) as [_ Hcap]. pose proof Hpg as ([E|E] & Hbw & _);
    pose proof Hpok as [Hok Hs]; pose proof (written_value nullMask data lo n) as Hkeep;
    assert ((pos + n) * bitWidth info <= 8 * size page) as Hle by (rewrite Hs; transitivity (per_page dt m * bitWidth info); [apply Z.mul_le_mono_nonneg_r; lia|done]).
  - unfold WriteCompressedValuesToPage. rewrite E. unfold Uncompressed.setValuesFromUncompressed.
    destruct (array_slice_run data lo n) as (values & -> & Hlv & Hv); [lia..|]. cbn [mbind outcome_bind].
    destruct (uncompressed_packed page (pos * getDataTypeSizeInChunk dt) pos n data lo values) as (page' & -> & Hp); try done.
    { unfold page_info in Hle. by rewrite E in Hle. }
    exists page'. split; [done|]. apply packed_holds; try done. intros i v Hi Hnn Hd. by apply (Hkeep i v).
  - unfold WriteCompressedValuesToPage. rewrite E. pose proof Hwr as [_ Hc]. rewrite E in Hc. destruct Hc as [Hb Hc].
    assert (Hinfo : info = getPackingInfo t m) by (unfold page_info; by rewrite E). rewrite Hinfo in Hbw, Hle.
    destruct (setValues_run t data lo page pos n m nullMask) as (page' & -> & Hp); try done; try lia.
    { apply (all_fit_run t m nullMask data lo n); done. }
    { by apply page_aligned. }
    exists page'. split; [done|]. rewrite <-Hinfo in Hp. apply packed_holds; try done. intros i v Hi Hnn Hd. by apply (Hkeep i v).
Qed.

(** ** Reading from a page *)

Lemma load_value_run page i : compression m = UNCOMPRESSED -> page_ok page -> 0 <= i < per_page dt m ->
  Uncompressed.load_value t (getDataTypeSizeInChunk dt) page i = Ret (page_value dt m page i).
Proof.
  intros E [Hok Hs] Hi. pose proof (type_size dt) as (Hsz & Hb & Hb8). unfold per_page, page_info in Hi. rewrite E in Hi. cbn [bitWidth] in Hi.
  set (w := getDataTypeSizeInChunk dt) in *. assert (Hle : (i + 1) * w <= size page).
  { rewrite Hs. assert (i + 1 <= 8 * PAGE_SIZE / bits t) as Hi1 by lia. pose proof (Z.mul_div_le (8 * PAGE_SIZE) (bits t) ltac:(lia)) as Hd.
    rewrite Hb in *. nia. }
  unfold Uncompressed.load_value. fold (size page). rewrite !(proj2 (Z.leb_le _ _)) by lia. f_equal.
  unfold page_value, value_at, page_info, decoded. rewrite E. cbn [hasNegative andb offset bitWidth]. rewrite Z.eqb_refl. cbn [negb]. f_equal.
  apply Z.bits_inj'. intros j Hj. rewrite testbit_raw by nia. unfold size in *. destruct (Z.ltb_spec j (bits t)); cbn [andb].
  - etrans; [apply bit_take_drop; [done|lia|lia]|]. f_equal. lia.
  - apply bit_high; [by apply Forall_take, Forall_drop|]. unfold size. rewrite length_take. lia.
Qed.

Lemma read_uncompressed page pos dst at_ n : compression m = UNCOMPRESSED -> page_ok page -> 0 <= pos -> 0 <= n -> pos + n <= per_page dt m ->
  0 <= at_ -> at_ + n <= Z.of_nat (length dst) ->
  exists dst', Uncompressed.decompressFromPage t (getDataTypeSizeInChunk dt) page pos dst at_ n = Ret dst' /\
    replaced dst dst' at_ (at_ + n) (fun i => page_value dt m page (pos + (i - at_))).
Proof.
  intros E Hok Hpos Hn Hper Hat Hlen. unfold Uncompressed.decompressFromPage.
  destruct (store_loop (fun i => Uncompressed.load_value t (getDataTypeSizeInChunk dt) page (pos + Z.of_nat i)) dst at_ (Z.to_nat n)
    (fun i => page_value dt m page (pos + (i - at_)))) as (dst' & Hrun & Hrep); [done|lia| |].
  { intros i Hi. rewrite load_value_run by (done || lia). do 2 f_equal. lia. }
  exists dst'. rewrite Z2Nat.id in Hrep by lia. by split.
Qed.

(** Into a value vector. *)
Lemma read_page_vector page pos dst at_ n : paged dt m -> page_ok page -> 0 <= pos -> 0 <= n -> pos + n <= per_page dt m ->
  0 <= at_ -> at_ + n <= Z.of_nat (length dst) ->
  exists dst', ReadCompressedValuesFromPageToVector dt page pos dst at_ n m = Ret dst' /\
    replaced dst dst' at_ (at_ + n) (fun i => page_value dt m page (pos + (i - at_))).
Proof.
  intros Hpg Hok Hpos Hn Hper Hat Hlen. unfold ReadCompressedValuesFromPageToVector. pose proof Hpg as ([E|E] & Hbw & Hext); rewrite E.
  - by apply read_uncompressed.
  - pose proof (per_page_range dt m Hpg) as [_ Hcap]. unfold page_value, page_info in *. rewrite E in *.
    apply (decompressFromPage_run t); try done; [apply Hok|by apply page_aligned|].
    destruct Hok as [_ Hs]. rewrite Hs. transitivity (per_page dt m * bitWidth (getPackingInfo t m)); [apply Z.mul_le_mono_nonneg_r; lia|done].
Qed.

(** Into a column chunk, for all types but [uint8_t]. *)
Lemma read_page_chunk page pos dst at_ n : dt <> T_UINT8 -> Forall (fun v => MIN t <= v <= MAX t) dst -> paged dt m -> page_ok page ->
  0 <= pos -> 0 <= n -> pos + n <= per_page dt m -> 0 <= at_ -> at_ + n <= Z.of_nat (length dst) ->
  ReadCompressedValuesFromPage dt page pos dst at_ n m = ReadCompressedValuesFromPageToVector dt page pos dst at_ n m.
Proof.
  intros Hdt Hdst Hpg Hok Hpos Hn Hper Hat Hlen.
  destruct (read_page_vector page pos dst at_ n) as (dst' & Hrun & Hrep); try done. rewrite Hrun.
  unfold ReadCompressedValuesFromPage, ReadCompressedValuesFromPageToVector in *.
  assert (Ht : page_read_type dt = t) by by destruct dt.
  assert (Hid : forall l, Forall (fun v => MIN t <= v <= MAX t) l -> reinterpret t l = l).
  { intros l Hl. unfold reinterpret. induction Hl as [|v l Hv _ IH]; [done|]. cbn. rewrite IH. f_equal. by apply (cast_id t). }
  pose proof Hpg as ([E|E] & Hbw & Hext); rewrite E in *; [done|]. rewrite Ht, Hid, Hrun by done. cbn. f_equal. apply Hid.
  apply Forall_lookup. intros i v Hv. destruct Hrep as [_ Hrep]. rewrite Hrep in Hv. case_match.
  - injection Hv as <-. unfold page_value, value_at. apply (decoded_in_type t); apply _.
  - by apply (proj1 (Forall_lookup _ _) Hdst i v).
Qed.
End pages.
