(* ===== verification/ColumnPagesFacts.v ===== *)
(** Column chunks on their pages as arrays: one step of each loop of [ColumnPages.v], and
    what the loops do to the values of a chunk; then the flush of a chunk. *)
From S2P Require Import Prelude Serializer FreeSpaceManager NullMask Bitpacking BitpackingFacts BitpackingPages Compression ColumnPages.
From S2P Require Import CompressionFacts.
Local Open Scope Z_scope.

Section compress.
Context `{FastPForLaws} (dt : PhysicalTypeID) (m : CompressionMetadata).
Abbreviation t := (visit dt).
Abbreviation info := (page_info dt m).

(** The next page of a flush. *)
Lemma compress_page enable src remaining page : paged dt m -> (enable = true \/ compression m = UNCOMPRESSED) -> page_ok page ->
  0 <= remaining <= Z.of_nat (length src) ->
  let n := Z.min remaining (per_page dt m) in
  exists page' sz, Alg_compressNextPage enable dt src remaining page m = Ret (page', n, sz) /\
    n * bitWidth info <= 8 * sz /\ 0 <= sz <= PAGE_SIZE /\ packed page page' (bitWidth info) 0 n (encoded t info src 0 0).
Proof.
  intros Hpg Hen Hpok Hrem n. pose proof Hpok as [Hok Hs]. pose proof (per_page_range dt m Hpg) as [Hper Hcap]. pose proof (type_size dt) as (Hsz & Hb & Hb8).
  destruct (decide (compression m = UNCOMPRESSED)) as [E|E].
  - assert (Halg : Alg_compressNextPage enable dt src remaining page m = Uncompressed.compressNextPage (getDataTypeSizeInChunk dt) src remaining page).
    { unfold Alg_compressNextPage. destruct enable; [|done]. by rewrite bool_decide_true. }
    rewrite Halg. unfold Uncompressed.compressNextPage. fold (size page). rewrite Hs. rewrite (proj2 (Z.eqb_neq _ _)) by lia.
    assert (Hn : PAGE_SIZE / getDataTypeSizeInChunk dt = per_page dt m) by (unfold per_page, page_info; rewrite E; by destruct dt).
    rewrite Hn. fold n. assert (Hle : n * (8 * getDataTypeSizeInChunk dt) <= 8 * PAGE_SIZE).
    { unfold page_info in Hcap. rewrite E in Hcap. cbn [bitWidth] in Hcap. rewrite Hb in Hcap. nia. }
    rewrite (proj2 (Z.leb_le _ _)) by lia. cbn [ku_assert mbind outcome_bind].
    destruct (array_slice_run src 0 n) as (values & -> & Hlv & Hv); [lia..|]. cbn [mbind outcome_bind].
    destruct (uncompressed_packed dt m page 0 0 n src 0 values) as (page' & -> & Hp); try done; try lia.
    exists page', (n * getDataTypeSizeInChunk dt). split; [done|]. split_and!; [|nia|lia|done].
    unfold page_info. rewrite E. cbn [bitWidth]. lia.
  - assert (enable = true) as -> by (destruct Hen; done). pose proof Hpg as ([E'|E'] & Hbw & _); [done|].
    unfold Alg_compressNextPage. rewrite bool_decide_false by done. assert (Hinfo : info = getPackingInfo t m) by (unfold page_info; by rewrite E').
    destruct (compressNextPage_run t src remaining page m) as (page' & sz & Hrun & Hsize & Hle & Hp); try done; try lia.
    { by apply page_aligned. }
    { rewrite Hs. split; [done|]. by vm_compute. }
    { by rewrite <-Hinfo. }
    assert (Hn : numValues (size page) (getPackingInfo t m) = per_page dt m).
    { pose proof (Metadata_numValues_paged dt m Hpg) as Hm. unfold Metadata_numValues in Hm. rewrite E' in Hm. injection Hm as Hm. by rewrite Hs. }
    rewrite Hn in Hrun, Hsize, Hp. fold n in Hrun, Hsize, Hp. rewrite <-Hinfo in Hsize, Hp. exists page', sz. split_and!; try done; lia.
Qed.

(** Clearing the rest of a page keeps the values before it. *)
Lemma zero_rest_keeps page sz n i : paged dt m -> page_ok page -> 0 <= sz <= PAGE_SIZE -> n * bitWidth info <= 8 * sz -> 0 <= i < n ->
  page_ok (zero_rest page sz) /\ page_value dt m (zero_rest page sz) i = page_value dt m page i.
Proof.
  intros (_ & Hbw & _) [Hok Hs] Hsz Hle Hi. unfold zero_rest. split.
  - split.
    + apply Forall_app; split; [by apply Forall_take|]. apply Forall_replicate. lia.
    + rewrite <-Hs. unfold size in *. rewrite length_app, length_take, length_replicate. lia.
  - unfold page_value, value_at. f_equal. apply Z.bits_inj'. intros j Hj. rewrite !testbit_raw by nia.
    destruct (Z.ltb_spec j (bitWidth info)); [|done]. cbn [andb].
    assert (Hpos : 0 <= i * bitWidth info + j < 8 * sz) by nia.
    rewrite bit_app by (lia || by apply Forall_take). unfold size in *. rewrite length_take, Nat.min_l by lia.
    rewrite (proj2 (Z.ltb_lt _ _)) by lia. symmetry. rewrite <-(take_drop (Z.to_nat sz) page) at 1. rewrite bit_app by (lia || by apply Forall_take).
    unfold size. rewrite length_take, Nat.min_l by lia. by rewrite (proj2 (Z.ltb_lt _ _)) by lia.
Qed.
End compress.

(** ** Chunks *)

(** The value at an index of a chunk. *)
Definition chunk_value (dt : PhysicalTypeID) (dataFH : file) (chunk : ColumnChunkMetadata) (i : Z) : Z :=
  let m := compMeta chunk in
  match compression m with
  | CONSTANT => StorageValue_get (visit dt) (meta_min m)
  | _ => page_value dt m (nth (Z.to_nat (startPageIdx chunk + i / per_page dt m)) dataFH []) (i mod per_page dt m)
  end.

(** Chunks that are on pages. *)
Record paged_chunk (dt : PhysicalTypeID) (dataFH : file) (chunk : ColumnChunkMetadata) : Prop := {
  chunk_paged : paged dt (compMeta chunk);
  chunk_bounds : compression (compMeta chunk) = INTEGER_BITPACKING -> bounds_ok (visit dt) (compMeta chunk);
  chunk_range : 0 <= startPageIdx chunk /\ 0 <= numPages chunk /\ startPageIdx chunk + numPages chunk <= Z.of_nat (length dataFH);
  chunk_file : Z.of_nat (length dataFH) < 2 ^ 32 - 1;
  chunk_pages : forall k, startPageIdx chunk <= k < startPageIdx chunk + numPages chunk -> page_ok (nth (Z.to_nat k) dataFH []);
  chunk_room : 0 <= numValuesInChunk chunk <= per_page dt (compMeta chunk) * numPages chunk;
}.

Record constant_chunk (dt : PhysicalTypeID) (chunk : ColumnChunkMetadata) : Prop := {
  constant_is : compression (compMeta chunk) = CONSTANT;
  constant_pages : startPageIdx chunk = INVALID_PAGE_IDX /\ numPages chunk = 0;
  constant_count : 0 <= numValuesInChunk chunk <= 2 ^ 32 - 1;
  constant_min : meta_min (compMeta chunk) = StorageValue_of (StorageValue_get (visit dt) (meta_min (compMeta chunk)));
  constant_max : meta_max (compMeta chunk) = meta_min (compMeta chunk);
}.

Definition chunk_ok (dt : PhysicalTypeID) (dataFH : file) (chunk : ColumnChunkMetadata) : Prop := paged_chunk dt dataFH chunk \/ constant_chunk dt chunk.

Section chunks.
Context `{FastPForLaws} (dt : PhysicalTypeID).
Abbreviation t := (visit dt).

Lemma paged_value dataFH chunk i : paged dt (compMeta chunk) ->
  chunk_value dt dataFH chunk i = page_value dt (compMeta chunk) (nth (Z.to_nat (startPageIdx chunk + i / per_page dt (compMeta chunk))) dataFH []) (i mod per_page dt (compMeta chunk)).
Proof. intros ([E|E] & _). all: unfold chunk_value; by rewrite E. Qed.

(** The cursor of an index. *)
Definition cursor_at (chunk : ColumnChunkMetadata) (i : Z) : PageCursor :=
  mkCursor (startPageIdx chunk + i / per_page dt (compMeta chunk)) (i mod per_page dt (compMeta chunk)).

Lemma index_in_pages dataFH chunk i : paged_chunk dt dataFH chunk -> 0 <= i < per_page dt (compMeta chunk) * numPages chunk ->
  let q := i / per_page dt (compMeta chunk) in
  0 <= q < numPages chunk /\ 0 <= i mod per_page dt (compMeta chunk) < per_page dt (compMeta chunk) /\ i = per_page dt (compMeta chunk) * q + i mod per_page dt (compMeta chunk).
Proof.
  intros Hc Hi q. pose proof (per_page_range dt _ (chunk_paged _ _ _ Hc)) as [Hper _]. set (npp := per_page dt (compMeta chunk)) in *.
  split_and!; [apply Z.div_pos; lia|apply Z.div_lt_upper_bound; lia|apply Z.mod_pos_bound; lia..|apply Z.div_mod; lia].
Qed.

Lemma getPageCursor_run dataFH chunk i : paged_chunk dt dataFH chunk -> 0 <= i < per_page dt (compMeta chunk) * numPages chunk ->
  getPageCursorForOffsetInGroup i (startPageIdx chunk) (per_page dt (compMeta chunk)) = Ret (cursor_at chunk i).
Proof.
  intros Hc Hi. destruct (index_in_pages dataFH chunk i Hc Hi) as (Hq & Hr & Heq). pose proof (per_page_range dt _ (chunk_paged _ _ _ Hc)) as [Hper _].
  destruct (chunk_range _ _ _ Hc) as (Hs & Hn & Hle). pose proof (chunk_file _ _ _ Hc).
  unfold getPageCursorForOffsetInGroup, getPageCursorForPos, u32, cursor_at. set (npp := per_page dt (compMeta chunk)) in *.
  rewrite (wrap_small 32 npp) by lia. rewrite (proj2 (Z.eqb_neq npp 0)) by lia. cbn [negb ku_assert mbind outcome_bind].
  rewrite (proj2 (Z.ltb_lt _ _)) by lia. cbn. rewrite !wrap_small by (rewrite ?wrap_small; lia). do 2 f_equal. lia.
Qed.

(** The rest of the page of an index, or the rest of the values. *)
Lemma next_cursor dataFH chunk i k : paged_chunk dt dataFH chunk -> 0 <= i < per_page dt (compMeta chunk) * numPages chunk ->
  k = per_page dt (compMeta chunk) - i mod per_page dt (compMeta chunk) -> nextPage (cursor_at chunk i) = cursor_at chunk (i + k).
Proof.
  intros Hc Hi ->. destruct (index_in_pages dataFH chunk i Hc Hi) as (Hq & Hr & Heq). pose proof (per_page_range dt _ (chunk_paged _ _ _ Hc)) as [Hper _].
  destruct (chunk_range _ _ _ Hc) as (Hs & Hn & Hle). pose proof (chunk_file _ _ _ Hc).
  unfold nextPage, cursor_at. cbn [pageIdx]. set (npp := per_page dt (compMeta chunk)) in *. set (q := i / npp) in *.
  replace (i + (npp - i mod npp)) with ((q + 1) * npp) by lia. rewrite Z.div_mul, Z.mod_mul by lia. unfold u32. rewrite wrap_small by lia. f_equal. lia.
Qed.

(** ** Scans *)

(** A function that reads pages, into arrays for which [Q] holds. *)
Definition reads (m : CompressionMetadata) (Q : list Z -> Prop) (readFunc : read_values_func) : Prop :=
  forall page pos dst at_ n, Q dst -> page_ok page -> 0 <= pos -> 0 <= n -> pos + n <= per_page dt m -> 0 <= at_ -> at_ + n <= Z.of_nat (length dst) ->
  exists dst', readFunc page pos dst at_ n m = Ret dst' /\ replaced dst dst' at_ (at_ + n) (fun i => page_value dt m page (pos + (i - at_))) /\ Q dst'.

Lemma read_pages_run fuel dataFH chunk readFunc Q dst at_ from done n : (Z.to_nat (n - done) <= fuel)%nat ->
  paged_chunk dt dataFH chunk -> reads (compMeta chunk) Q readFunc -> Q dst -> 0 <= from -> 0 <= done <= n ->
  from + n <= per_page dt (compMeta chunk) * numPages chunk -> 0 <= at_ -> at_ + n <= Z.of_nat (length dst) ->
  exists dst', (forall cursor, (done < n -> cursor = cursor_at chunk (from + done)) ->
      read_pages fuel dataFH (mkState chunk (per_page dt (compMeta chunk))) dst at_ done n cursor readFunc = Ret dst') /\
    replaced dst dst' (at_ + done) (at_ + n) (fun i => chunk_value dt dataFH chunk (from + (i - at_))) /\ Q dst'.
Proof.
  revert dst done. induction fuel as [|fuel IH]; intros dst done_ Hf Hc Hreads HQ Hfrom Hdone Hroom Hat Hlen; cbn [read_pages];
    destruct (Z.ltb_spec done_ n).
  2,4: exists dst; split; [done|]; split; [|done]; replace done_ with n by lia; apply replaced_refl.
  - lia.
  - set (i := from + done_). destruct (index_in_pages dataFH chunk i Hc ltac:(lia)) as (Hq & Hr & Heq).
    pose proof (per_page_range dt _ (chunk_paged _ _ _ Hc)) as [Hper _]. destruct (chunk_range _ _ _ Hc) as (Hs & Hn & Hle). pose proof (chunk_file _ _ _ Hc) as Hfile.
    set (npp := per_page dt (compMeta chunk)) in *. set (q := i / npp) in *. set (r := i mod npp) in *.
    set (k := Z.min (npp - r) (n - done_)).
    assert (Hpok : page_ok (nth (Z.to_nat (startPageIdx chunk + q)) dataFH [])) by (apply (chunk_pages _ _ _ Hc); lia).
    destruct (Hreads (nth (Z.to_nat (startPageIdx chunk + q)) dataFH []) r dst (done_ + at_) k) as (dst1 & Hrun1 & Hrep1 & HQ1); try done; try lia.
    pose proof (proj1 Hrep1) as Hl1.
    destruct (IH dst1 (done_ + k)) as (dst2 & Hrun2 & Hrep2 & HQ2); try done; try lia.
    exists dst2. split; [|split; [|done]].
    + intros cursor Hcur. rewrite Hcur by done. fold i. cbn [cursor_at pageIdx elemPosInPage numValuesPerPage metadata]. fold npp q r.
      unfold u64. rewrite (wrap_small 64 (npp - r)) by lia. fold k. unfold isPageIdxValid. cbn [metadata].
      rewrite (proj2 (Z.leb_le _ _)), (proj2 (Z.ltb_lt _ _)) by lia. cbn [andb orb ku_assert mbind outcome_bind].
      unfold readFromPage. rewrite (proj2 (Z.eqb_neq _ _)) by (unfold INVALID_PAGE_IDX; lia).
      destruct (load_lt dataFH (Z.to_nat (startPageIdx chunk + q)) ltac:(lia)) as (page & Hpage & ->). cbn [mbind outcome_bind].
      rewrite nth_lookup, Hpage in Hrun1. cbn [from_option id] in Hrun1. rewrite Hrun1. cbn [mbind outcome_bind]. apply Hrun2.
      intros Hlt. rewrite (next_cursor dataFH chunk i k); [f_equal; unfold i; lia|done|lia|fold npp r; lia].
    + rewrite (Z.add_comm at_ done_). eapply (replaced_trans _ dst1 _ _ (done_ + at_ + k)); [lia| |].
      * eapply replaced_ext; [|exact Hrep1]. intros j Hj. cbn beta. rewrite (paged_value _ _ _ (chunk_paged _ _ _ Hc)). fold npp.
        destruct (bit_index npp q (from + (j - at_))) as [-> Hm]; [lia|lia|]. rewrite Hm. f_equal. lia.
      * replace (done_ + at_ + k) with (at_ + (done_ + k)) by lia. exact Hrep2.
Qed.

Lemma read_constant_run dst at_ n m : 0 <= at_ -> 0 <= n -> at_ + n <= Z.of_nat (length dst) ->
  exists dst', ConstantCompression.decompressValues t dst at_ n m = Ret dst' /\ replaced dst dst' at_ (at_ + n) (fun _ => StorageValue_get t (meta_min m)).
Proof.
  intros Hat Hn Hlen. unfold ConstantCompression.decompressValues.
  destruct (store_loop (fun _ => Ret (StorageValue_get t (meta_min m))) dst at_ (Z.to_nat n) (fun _ => StorageValue_get t (meta_min m))) as (dst' & Hrun & Hrep);
    [done|lia|done|]. exists dst'. rewrite Z2Nat.id in Hrep by lia. by split.
Qed.

Lemma constant_cursor i : 0 <= i < 2 ^ 32 - 1 -> getPageCursorForOffsetInGroup i INVALID_PAGE_IDX UINT64_MAX = Ret (mkCursor INVALID_PAGE_IDX i).
Proof.
  intros Hi. unfold getPageCursorForOffsetInGroup, getPageCursorForPos. change (u32 UINT64_MAX) with (2 ^ 32 - 1). rewrite (proj2 (Z.eqb_neq _ 0)) by lia.
  rewrite (Z.div_small i), (Z.mod_small i) by lia. unfold u32. by rewrite (wrap_small 32 i) by lia.
Qed.

(** A function that reads constant chunks too. *)
Definition reads_chunks (readFunc : read_values_func) (Q : list Z -> Prop) (m : CompressionMetadata) : Prop :=
  (paged dt m -> reads m Q readFunc) /\
  (compression m = CONSTANT -> forall page pos dst at_ n, readFunc page pos dst at_ n m = ConstantCompression.decompressValues t dst at_ n m).

Lemma readCompressedValues_run dataFH chunk state readFunc Q dst at_ lo hi : chunk_ok dt dataFH chunk -> initializeScanState dt chunk = Ret state ->
  reads_chunks readFunc Q (compMeta chunk) -> Q dst -> 0 <= lo <= hi -> hi <= numValuesInChunk chunk -> 0 <= at_ -> at_ + (hi - lo) <= Z.of_nat (length dst) ->
  exists dst', readCompressedValues dataFH state dst at_ lo hi readFunc = Ret dst' /\
    replaced dst dst' at_ (at_ + (hi - lo)) (fun i => chunk_value dt dataFH chunk (lo + (i - at_))).
Proof.
  intros Hok Hst [Hpaged Hconst] HQ Hlo Hhi Hat Hlen. unfold readCompressedValues, initializeScanState in *.
  destruct Hok as [Hc|Hc].
  - pose proof (chunk_paged _ _ _ Hc) as Hpg. pose proof (chunk_room _ _ _ Hc) as Hroom. rewrite (Metadata_numValues_paged dt _ Hpg) in Hst. injection Hst as <-.
    pose proof (per_page_range dt _ Hpg) as [Hper _]. destruct (chunk_range _ _ _ Hc) as (Hs & Hn & Hle). pose proof (chunk_file _ _ _ Hc) as Hfile.
    assert (per_page dt (compMeta chunk) * numPages chunk <= 32768 * 2 ^ 32) by (apply Z.mul_le_mono_nonneg; lia).
    unfold u64. rewrite (wrap_small 64 (hi - lo)) by lia. cbn [metadata numValuesPerPage]. destruct (Z.eqb_spec (hi - lo) 0) as [Hz|Hz].
    { exists dst. split; [done|]. replace (at_ + (hi - lo)) with at_ by lia. apply replaced_refl. }
    rewrite (getPageCursor_run dataFH chunk lo Hc) by lia. cbn [mbind outcome_bind].
    destruct (index_in_pages dataFH chunk lo Hc ltac:(lia)) as (Hq & Hr & Heq).
    unfold isPageIdxValid. cbn [cursor_at pageIdx]. rewrite (proj2 (Z.leb_le _ _)), (proj2 (Z.ltb_lt _ _)) by lia. cbn [andb orb ku_assert mbind outcome_bind].
    destruct (read_pages_run (Z.to_nat (hi - lo)) dataFH chunk readFunc Q dst at_ lo 0 (hi - lo)) as (dst' & Hrun & Hrep & _); try done; try lia.
    { by apply Hpaged. }
    exists dst'. rewrite Z.add_0_r in Hrep. split; [|done]. apply Hrun. intros _. by rewrite Z.add_0_r.
  - destruct Hc as [E [Hs Hn] Hcnt _ _]. unfold Metadata_numValues in Hst. rewrite E in Hst. injection Hst as <-.
    unfold u64. rewrite (wrap_small 64 (hi - lo)) by lia. cbn [metadata numValuesPerPage]. destruct (Z.eqb_spec (hi - lo) 0) as [Hz|Hz].
    { exists dst. split; [done|]. replace (at_ + (hi - lo)) with at_ by lia. apply replaced_refl. }
    destruct (read_constant_run dst at_ (hi - lo) (compMeta chunk)) as (dst' & Hrun & Hrep); [done|lia|done|].
    rewrite Hs, constant_cursor by lia. cbn [mbind outcome_bind pageIdx]. unfold isPageIdxValid. cbn [pageIdx]. rewrite Z.eqb_refl. unfold isConstant. rewrite E, bool_decide_true by done.
    rewrite orb_true_r. cbn [ku_assert mbind outcome_bind]. destruct (Z.to_nat (hi - lo)) as [|fuel] eqn:Ef; [lia|]. cbn [read_pages].
    rewrite (proj2 (Z.ltb_lt 0 (hi - lo))) by lia. cbn [numValuesPerPage elemPosInPage pageIdx metadata]. unfold isPageIdxValid. cbn [metadata]. rewrite Z.eqb_refl.
    unfold isConstant. rewrite E, bool_decide_true by done. rewrite orb_true_r. cbn [ku_assert mbind outcome_bind]. unfold readFromPage. rewrite Z.eqb_refl.
    unfold u64, UINT64_MAX. rewrite (wrap_small 64 (2 ^ 64 - 1 - lo)), Z.min_r by lia. replace (hi - lo - 0) with (hi - lo) by lia. rewrite (Hconst E). change (0 + at_) with at_. rewrite Hrun. cbn [mbind outcome_bind].
    exists dst'. split.
    + destruct fuel; cbn [read_pages]; by rewrite (proj2 (Z.ltb_ge _ _)) by lia.
    + eapply replaced_ext; [|exact Hrep]. intros i _. unfold chunk_value. by rewrite E.
Qed.

(** ** Lookups *)

Lemma offset_in_chunk nodeOffset : 0 <= nodeOffset -> getNodeGroupIdxAndOffsetInChunk nodeOffset = (nodeOffset / 2 ^ 17, nodeOffset mod 2 ^ 17).
Proof.
  intros Hn. unfold getNodeGroupIdxAndOffsetInChunk, NODE_GROUP_SIZE_LOG2. rewrite Z.shiftr_div_pow2, Z.shiftl_mul_pow2 by lia. f_equal.
  rewrite Z.mod_eq by done. lia.
Qed.

Lemma lookupInternal_run dataFH chunk state nodeOffset dst pos : chunk_ok dt dataFH chunk -> initializeScanState dt chunk = Ret state ->
  0 <= nodeOffset -> nodeOffset mod 2 ^ 17 < numValuesInChunk chunk -> 0 <= pos < Z.of_nat (length dst) ->
  exists dst', lookupInternal dataFH dt state nodeOffset dst pos = Ret dst' /\
    replaced dst dst' pos (pos + 1) (fun _ => chunk_value dt dataFH chunk (nodeOffset mod 2 ^ 17)).
Proof.
  intros Hok Hst Hn Hi Hpos. unfold lookupInternal, getOffsetAndCursor, initializeScanState in *. rewrite offset_in_chunk by done.
  pose proof (Z.mod_pos_bound nodeOffset (2 ^ 17) ltac:(done)) as Hm. set (i := nodeOffset mod 2 ^ 17) in *. destruct Hok as [Hc|Hc].
  - pose proof (chunk_paged _ _ _ Hc) as Hpg. pose proof (chunk_room _ _ _ Hc) as Hroom. rewrite (Metadata_numValues_paged dt _ Hpg) in Hst. injection Hst as <-.
    destruct (chunk_range _ _ _ Hc) as (Hs & Hnp & Hle). pose proof (chunk_file _ _ _ Hc) as Hfile. cbn [metadata numValuesPerPage].
    rewrite (getPageCursor_run dataFH chunk i Hc) by lia. cbn [mbind outcome_bind]. destruct (index_in_pages dataFH chunk i Hc ltac:(lia)) as (Hq & Hr & Heq).
    unfold isPageIdxValid. cbn [cursor_at pageIdx elemPosInPage]. rewrite (proj2 (Z.leb_le _ _)), (proj2 (Z.ltb_lt _ _)) by lia. cbn [andb orb ku_assert mbind outcome_bind mret outcome_ret].
    unfold readFromPage. cbn [cursor_at pageIdx elemPosInPage]. rewrite (proj2 (Z.eqb_neq _ _)) by (unfold INVALID_PAGE_IDX; lia). pose proof (chunk_pages _ _ _ Hc (startPageIdx chunk + i / per_page dt (compMeta chunk)) ltac:(lia)) as Hpok.
    destruct (load_lt dataFH (Z.to_nat (startPageIdx chunk + i / per_page dt (compMeta chunk))) ltac:(lia)) as (page & Hpage & ->). cbn [mbind outcome_bind].
    rewrite nth_lookup, Hpage in Hpok. cbn [default from_option id] in Hpok.
    destruct (read_page_vector dt (compMeta chunk) page (i mod per_page dt (compMeta chunk)) dst pos 1) as (dst' & Hrun & Hrep); try done; try lia.
    exists dst'. split; [done|]. eapply replaced_ext; [|exact Hrep]. intros j Hj. cbn beta. rewrite paged_value, nth_lookup, Hpage by done. cbn [default from_option id].
    f_equal. lia.
  - destruct Hc as [E [Hs Hnp] Hcnt _ _]. unfold Metadata_numValues in Hst. rewrite E in Hst. injection Hst as <-. cbn [metadata numValuesPerPage].
    rewrite Hs, constant_cursor by lia. cbn [mbind outcome_bind]. unfold isPageIdxValid. cbn [pageIdx elemPosInPage]. rewrite Z.eqb_refl. unfold isConstant.
    rewrite bool_decide_true by done. rewrite orb_true_r. cbn [ku_assert mbind outcome_bind mret outcome_ret]. unfold readFromPage. cbn [pageIdx]. rewrite Z.eqb_refl.
    unfold ReadCompressedValuesFromPageToVector. rewrite E. destruct (read_constant_run dst pos 1 (compMeta chunk)) as (dst' & Hrun & Hrep); [lia..|].
    exists dst'. split; [done|]. eapply replaced_ext; [|exact Hrep]. intros j _. unfold chunk_value. by rewrite E.
Qed.
End chunks.

(** The flush of a column chunk: the compression that is chosen for the values, and the
    pages that are written. *)

(** ** The choice *)

Section choice.
Context (dt : PhysicalTypeID) (enable : bool) (mn mx : Z).
Abbreviation t := (visit dt).
Hypothesis mn_in : MIN t <= mn <= MAX t /\ (enable = true -> compressible t mn).
Hypothesis mx_in : MIN t <= mx <= MAX t /\ (enable = true -> compressible t mx).
Hypothesis mn_mx : mn <= mx.

Lemma StorageValue_of_inj : (StorageValue_of mn =? StorageValue_of mx) = (mn =? mx).
Proof.
  destruct (Z.eqb_spec mn mx) as [->|Hne]; [apply Z.eqb_refl|]. apply Z.eqb_neq. intros E. apply Hne.
  rewrite <-(StorageValue_get_of t mn (proj1 mn_in)), <-(StorageValue_get_of t mx (proj1 mx_in)). by rewrite E.
Qed.

Lemma packing_width_pos info : packing mn mx info -> mn < mx -> 0 < bitWidth info.
Proof.
  intros Hp Hlt. assert (Hpos : forall z, 0 < z -> 0 < bit_width z).
  { intros z Hz. unfold bit_width. rewrite (proj2 (Z.eqb_neq _ _)) by lia. pose proof (Z.log2_nonneg z). lia. }
  destruct Hp as [[? ?]| | |]; cbn; [apply Hpos; lia|lia| |apply Hpos; lia]. pose proof (bit_width_nonneg (Z.max (- mn) mx)). lia.
Qed.

(** A type without negative values needs no more bits than it has. *)
Lemma packing_unsigned info : is_signed t = false -> packing mn mx info -> bitWidth info <= bits t /\ hasNegative info = false.
Proof.
  intros Hs Hp. pose proof (bits_pos t). destruct mn_in as [Hmn _], mx_in as [Hmx _]. unfold MIN, MAX in *. rewrite Hs in *.
  destruct Hp as [[? Hsv]|?|?|? ?]; try lia; (split; [|done]); cbn [bitWidth].
  - apply bit_width_le; lia.
  - apply bit_width_le; lia.
Qed.

(** The metadata of values that are not all the same. *)
Definition chosen (m : CompressionMetadata) : Prop :=
  paged dt m /\ (enable = true \/ compression m = UNCOMPRESSED) /\ (compression m = INTEGER_BITPACKING -> bounds_ok t m) /\
  forall v, mn <= v <= mx -> kept t (page_info dt m) v = v.

Lemma chosen_uncompressed : chosen (mkMetadata (StorageValue_of mn) (StorageValue_of mx) UNCOMPRESSED).
Proof.
  pose proof (bits_pos t). split_and!; [split; [by left|split; [cbn; lia|done]]|by right|done|]. intros v Hv. apply (decoded_plain t); [cbn; lia|done|apply _|].
  destruct mn_in, mx_in. lia.
Qed.

Lemma chosen_packed : enable = true -> mn < mx ->
  let m := mkMetadata (StorageValue_of mn) (StorageValue_of mx) INTEGER_BITPACKING in
  (dt = T_INTERNAL_ID \/ bitWidth (getPackingInfo t m) < bits t) -> chosen m.
Proof.
  intros En Hlt m Hfit. pose proof (proj2 mn_in En) as Cmn. pose proof (proj2 mx_in En) as Cmx.
  destruct (getPackingInfo_of t INTEGER_BITPACKING mn mx INTEGER_BITPACKING Cmn Cmx mn_mx) as (Hp & Hlo & Hhi). fold m in Hp, Hlo, Hhi.
  pose proof (packing_width_pos _ Hp Hlt) as Hpos.
  assert (Hw : bitWidth (getPackingInfo t m) <= bits t /\ extensible t (getPackingInfo t m)).
  { destruct Hfit as [Hdt|Hfit]; [|split; [lia|by intros _]].
    destruct (packing_unsigned (getPackingInfo t m)) as [Hle Hneg]; [by rewrite Hdt|done|]. split; [done|]. intros Hn. congruence. }
  split_and!.
  - split_and!; [by right|done|apply Hw|apply Hw].
  - by left.
  - intros _. split; rewrite ?Hlo, ?Hhi; done.
  - intros v Hv. apply (packing_keeps t mn mx); [apply Hp|done..|apply Hw].
Qed.

(** How many pages hold [capacity] values. *)
Lemma page_count m capacity : paged dt m -> 0 <= capacity <= 2 ^ 32 ->
  let count := capacity / per_page dt m + (if capacity mod per_page dt m =? 0 then 0 else 1) in
  capacity <= per_page dt m * count /\ u32 count = count /\ 0 <= count.
Proof.
  intros Hpg Hcap count. pose proof (per_page_range dt m Hpg) as [Hper _]. unfold count. clear count. set (npp := per_page dt m) in *.
  pose proof (Z.div_mod capacity npp ltac:(lia)) as Hdm. pose proof (Z.mod_pos_bound capacity npp ltac:(lia)) as Hmod.
  assert (0 <= capacity / npp) by (apply Z.div_pos; lia). assert (capacity / npp <= 2 ^ 32 / 512).
  { transitivity (capacity / 512); [apply Z.div_le_compat_l; lia|apply Z.div_le_mono; lia]. }
  change (2 ^ 32 / 512) with (2 ^ 23) in *. destruct (Z.eqb_spec (capacity mod npp) 0).
  - split_and!; [nia| |lia]. apply wrap_small. lia.
  - split_and!; [nia| |lia]. apply wrap_small. lia.
Qed.

Lemma GetCompressionMetadata_run capacity numValues : 0 <= capacity <= 2 ^ 32 ->
  exists chunk, GetCompressionMetadata enable dt capacity numValues (StorageValue_of mn) (StorageValue_of mx) = Ret chunk /\
    numValuesInChunk chunk = numValues /\ startPageIdx chunk = INVALID_PAGE_IDX /\
    meta_min (compMeta chunk) = StorageValue_of mn /\ meta_max (compMeta chunk) = StorageValue_of mx /\
    (mn = mx /\ numPages chunk = 0 /\ compMeta chunk = mkMetadata (StorageValue_of mn) (StorageValue_of mn) CONSTANT \/
     chosen (compMeta chunk) /\ 0 <= numPages chunk /\ capacity <= per_page dt (compMeta chunk) * numPages chunk).
Proof.
  intros Hcap. unfold GetCompressionMetadata. rewrite StorageValue_of_inj. destruct (Z.eqb_spec mn mx) as [<-|Hne].
  { eexists. split; [done|]. split_and!; [done..|by left]. }
  unfold GetBitpackingMetadata.
  match goal with |- context [Metadata_numValues ?m _ _] => assert (Hch : chosen m) end.
  { destruct (bool_decide_reflect (getCompressionType enable = INTEGER_BITPACKING)) as [E|E]; cbn [andb].
    - assert (enable = true) as En by (unfold getCompressionType in E; by destruct enable).
      destruct (bool_decide_reflect (dt = T_INTERNAL_ID)) as [Ei|Ei]; cbn [negb andb]; [rewrite E; apply chosen_packed; [done|lia|by left]|].
      destruct (Z.leb_spec (bits t) (bitWidth (getPackingInfo t (mkMetadata (StorageValue_of mn) (StorageValue_of mx) (getCompressionType enable)))));
        [apply chosen_uncompressed|rewrite E in *; apply chosen_packed; [done|lia|by right]].
    - assert (getCompressionType enable = UNCOMPRESSED) as -> by (unfold getCompressionType in *; by destruct enable). apply chosen_uncompressed. }
  match goal with |- context [Metadata_numValues ?m' _ _] => set (m := m') in * end. pose proof Hch as (Hpg & _).
  rewrite (Metadata_numValues_paged dt m Hpg). cbn [mbind outcome_bind]. pose proof (per_page_range dt m Hpg) as [Hper _].
  rewrite (proj2 (Z.eqb_neq _ _)) by (unfold UINT64_MAX; lia). destruct (page_count m capacity Hpg Hcap) as (Hc & Hu & Hp).
  eexists. split; [done|]. cbn [compMeta numPages numValuesInChunk startPageIdx]. split_and!; try done; [unfold m; match goal with |- context [if ?b then _ else _] => by destruct b end..|].
  right. rewrite Hu. by split_and!.
Qed.
End choice.

(** ** The pages *)

Section flush.
Context `{FastPForLaws} (dt : PhysicalTypeID).
Abbreviation t := (visit dt).

(** Pages of a range that hold the values of the data from an index on. *)
Definition holds (m : CompressionMetadata) (dataFH : file) (start from total : Z) (data : list Z) (nullMask : option NullMask.t) : Prop :=
  forall i v, from <= i < total -> isNull_at nullMask i = Ret false -> data !! Z.to_nat i = Some v ->
  page_value dt m (nth (Z.to_nat (start + i / per_page dt m)) dataFH []) (i mod per_page dt m) = v.

(** The page that one round of the loop makes. *)
Lemma flush_next_page enable buffer data nullMask total p m : paged dt m -> (enable = true \/ compression m = UNCOMPRESSED) -> page_ok buffer ->
  let npp := per_page dt m in 0 <= p -> p * npp < total -> total <= Z.of_nat (length data) ->
  (forall i v, 0 <= i < total -> isNull_at nullMask i = Ret false -> data !! Z.to_nat i = Some v -> kept t (page_info dt m) v = v) ->
  exists buffer' sz page, Alg_compressNextPage enable dt (drop (Z.to_nat (p * npp)) data) (total - p * npp) buffer m = Ret (buffer', Z.min (total - p * npp) npp, sz) /\
    page = (if sz <? PAGE_SIZE then zero_rest buffer' sz else buffer') /\ page_ok page /\
    forall i v, p * npp <= i < Z.min total ((p + 1) * npp) -> isNull_at nullMask i = Ret false -> data !! Z.to_nat i = Some v -> page_value dt m page (i mod npp) = v.
Proof.
  intros Hpg Hen Hbuf npp Hp Hlt Hlen Hkeep. pose proof (per_page_range dt m Hpg) as [Hper _]. fold npp in Hper.
  assert (Hpos : 0 <= p * npp) by (apply Z.mul_nonneg_nonneg; lia).
  destruct (compress_page dt m enable (drop (Z.to_nat (p * npp)) data) (total - p * npp) buffer Hpg Hen Hbuf) as (buffer' & sz & Hrun & Hsz & Hsr & Hpk).
  { rewrite length_drop. lia. }
  fold npp in Hrun, Hsz, Hpk. set (n := Z.min (total - p * npp) npp) in *.
  eexists buffer', sz, _. split; [done|]. split; [done|].
  assert (Hbuf' : page_ok buffer') by (destruct (packed_page _ _ _ _ _ _ Hpk), Hbuf; split; [done|congruence]).
  assert (Hz : forall i, 0 <= i < n -> page_ok (if sz <? PAGE_SIZE then zero_rest buffer' sz else buffer') /\
    page_value dt m (if sz <? PAGE_SIZE then zero_rest buffer' sz else buffer') i = page_value dt m buffer' i).
  { intros i Hi. destruct (Z.ltb_spec sz PAGE_SIZE); [|done]. by apply (zero_rest_keeps dt m buffer' sz n i). }
  split; [by apply (Hz 0); lia|].
  intros i v Hi Hn Hv. destruct (bit_index npp p i) as [_ Hm]; [lia|lia|].
  rewrite (proj2 (Hz (i mod npp) ltac:(lia))).
  rewrite (packed_value dt m buffer buffer' 0 n (encoded t (page_info dt m) (drop (Z.to_nat (p * npp)) data) 0 0) (i mod npp) Hpg) by (done || lia).
  rewrite (proj2 (Z.leb_le _ _)), (proj2 (Z.ltb_lt _ _)) by lia. cbn [andb]. unfold encoded.
  replace (nth (Z.to_nat (i mod npp - 0 + 0)) (drop (Z.to_nat (p * npp)) data) 0) with v; [by apply (Hkeep i v); [lia|..]|].
  rewrite nth_lookup, lookup_drop. replace (Z.to_nat (p * npp) + Z.to_nat (i mod npp - 0 + 0))%nat with (Z.to_nat i) by lia. by rewrite Hv.
Qed.

Lemma flush_pages_run fuel enable buffer src data nullMask total dataFH start count p m : paged dt m -> (enable = true \/ compression m = UNCOMPRESSED) ->
  let npp := per_page dt m in
  page_ok buffer -> 0 <= p -> (p * npp < total -> src = drop (Z.to_nat (p * npp)) data) -> total <= Z.of_nat (length data) -> total <= npp * count ->
  (Z.to_nat (total - p * npp) <= fuel)%nat -> 0 <= start -> start + count <= Z.of_nat (length dataFH) -> p <= count ->
  (forall i v, 0 <= i < total -> isNull_at nullMask i = Ret false -> data !! Z.to_nat i = Some v -> kept t (page_info dt m) v = v) ->
  exists dataFH' p', flush_pages fuel enable dt buffer src (Z.max 0 (total - p * npp)) npp dataFH start count p m = Ret (dataFH', p') /\
    length dataFH' = length dataFH /\ (forall k, ~ start + p <= Z.of_nat k < start + p' -> dataFH' !! k = dataFH !! k) /\
    p <= p' <= count /\ total <= npp * p' /\ (forall k, start + p <= k < start + p' -> page_ok (nth (Z.to_nat k) dataFH' [])) /\
    holds m dataFH' start (p * npp) total data nullMask.
Proof.
  intros Hpg Hen npp. pose proof (per_page_range dt m Hpg) as [Hper _]. fold npp in Hper.
  revert buffer src dataFH p. induction fuel as [|fuel IH]; intros buffer src dataFH p Hbuf Hp Hsrc Hlen Hcount Hf Hs Hroom Hpc Hkeep;
    cbn [flush_pages]; destruct (Z.ltb_spec 0 (Z.max 0 (total - p * npp))) as [Hlt|Hge].
  2,4: exists dataFH, p; split_and!; try done; try lia; intros i v Hi; lia.
  - lia.
  - assert (Hpos : 0 <= p * npp) by (apply Z.mul_nonneg_nonneg; lia). assert (Hpcount : p < count) by (apply (Z.mul_lt_mono_pos_r npp); lia).
    rewrite Hsrc by lia. replace (Z.max 0 (total - p * npp)) with (total - p * npp) by lia.
    destruct (flush_next_page enable buffer data nullMask total p m Hpg Hen Hbuf) as (buffer' & sz & page & Hrun & Hpage & Hpok & Hvals); try done; [fold npp; lia|].
    fold npp in Hrun, Hvals. rewrite Hrun. cbn [mbind outcome_bind]. rewrite <-Hpage.
    rewrite (proj2 (Z.ltb_lt p count)), (proj2 (Z.leb_le (start + p) (Z.of_nat (length dataFH)))) by lia. cbn [ku_assert mbind outcome_bind].
    unfold store. rewrite decide_True by lia. cbn [mbind outcome_bind].
    replace (if total - p * npp <? npp then 0 else total - p * npp - npp) with (Z.max 0 (total - (p + 1) * npp)) by (destruct (Z.ltb_spec (total - p * npp) npp); lia).
    destruct (IH page (drop (Z.to_nat (Z.min (total - p * npp) npp)) (drop (Z.to_nat (p * npp)) data)) (<[Z.to_nat (start + p) := page]> (dataFH : list bytes)) (p + 1))
      as (F' & p' & Hrun' & Hl' & Ho' & Hp' & Ht' & Hok' & Hh'); try done; try lia.
    { intros Hlt'. rewrite drop_drop. f_equal. lia. }
    { by rewrite length_insert. }
    exists F', p'. split; [done|]. rewrite length_insert in Hl'.
    assert (Hthis : nth (Z.to_nat (start + p)) F' [] = page) by (rewrite nth_lookup; etrans; [apply f_equal, Ho'; lia|by rewrite list_lookup_insert_eq by lia]).
    split_and!; try done; try lia.
    + intros k Hk. rewrite Ho' by lia. apply list_lookup_insert_ne. lia.
    + intros k Hk. destruct (decide (k = start + p)) as [->|Hne]; [by rewrite Hthis|apply Hok'; lia].
    + intros i v Hi Hn Hv. destruct (Z.lt_ge_cases i ((p + 1) * npp)) as [Hin|Hout]; [|by apply Hh'; [lia|..]].
      fold npp. destruct (bit_index npp p i) as [Hd _]; [lia|lia|]. rewrite Hd, Hthis. apply Hvals; [lia|done..].
Qed.

(** The pages that are left are cleared. *)
Lemma zero_pages_run dataFH start page count : 0 <= start + page -> page <= count -> start + count <= Z.of_nat (length dataFH) ->
  exists dataFH', zero_pages dataFH start page count = Ret dataFH' /\ length dataFH' = length dataFH /\
    (forall k, ~ start + page <= Z.of_nat k < start + count -> dataFH' !! k = dataFH !! k) /\
    (forall k, start + page <= k < start + count -> page_ok (nth (Z.to_nat k) dataFH' [])).
Proof.
  intros Hs Hle Hroom. unfold zero_pages.
  match goal with |- context [for_range _ _ ?body _] => destruct (for_range_inv (fun i F => length F = length dataFH /\
    (forall k, ~ start + page <= Z.of_nat k < start + page + Z.of_nat i -> F !! k = dataFH !! k) /\
    (forall k, start + page <= k < start + page + Z.of_nat i -> page_ok (nth (Z.to_nat k) F []))) 0 (Z.to_nat (count - page)) body dataFH) as (F' & Hrun & Hl & Ho & Hok) end.
  - split_and!; try done. lia.
  - intros i F Hi (Hl & Ho & Hok). unfold store. rewrite decide_True by lia. eexists. split; [done|]. split_and!.
    + by rewrite length_insert.
    + intros k Hk. rewrite list_lookup_insert_ne by lia. apply Ho. lia.
    + intros k Hk. rewrite nth_lookup. destruct (decide (Z.to_nat (start + page) + i = Z.to_nat k)%nat) as [<-|Hne].
      * rewrite list_lookup_insert_eq by lia. cbn [default from_option id]. split; [apply Forall_replicate; lia|]. unfold size. by rewrite length_replicate.
      * rewrite list_lookup_insert_ne by done. rewrite <-nth_lookup. apply Hok. lia.
  - exists F'. split; [done|]. split_and!; [done|intros k Hk; apply Ho; lia|intros k Hk; apply Hok; lia].
Qed.

(** The values that a column can be made of. *)
Definition storable (enable : bool) (v : Z) : Prop := MIN t <= v <= MAX t /\ (enable = true -> compressible t v).

Lemma storable_zero enable : storable enable 0.
Proof.
  pose proof (zero_in_type t) as Hz. split; [done|]. intros _. split; [done|]. unfold MIN, MAX in *. intros Hs. rewrite Hs in *.
  pose proof (bits_pos t). assert (0 < 2 ^ (bits t - 1)) by (apply Z.pow_pos_nonneg; lia). lia.
Qed.

Lemma getMetadataToFlush_run enable data capacity numValues nullMask : 0 <= numValues <= capacity -> capacity <= 2 ^ 32 -> capacity <= Z.of_nat (length data) ->
  mask_ok nullMask numValues -> non_null nullMask data 0 numValues (storable enable) ->
  exists chunk mn mx, getMetadataToFlush enable dt data capacity numValues nullMask = Ret chunk /\
    storable enable mn /\ storable enable mx /\ non_null nullMask data 0 numValues (fun v => mn <= v <= mx) /\
    numValuesInChunk chunk = numValues /\ startPageIdx chunk = INVALID_PAGE_IDX /\
    meta_min (compMeta chunk) = StorageValue_of mn /\ meta_max (compMeta chunk) = StorageValue_of mx /\
    (mn = mx /\ numPages chunk = 0 /\ compMeta chunk = mkMetadata (StorageValue_of mn) (StorageValue_of mn) CONSTANT \/
     chosen dt enable mn mx (compMeta chunk) /\ 0 <= numPages chunk /\ capacity <= per_page dt (compMeta chunk) * numPages chunk).
Proof.
  intros Hn Hcap Hlen Hmask Hst. unfold getMetadataToFlush. rewrite (proj2 (Z.leb_le _ _)) by lia. cbn [ku_assert mbind outcome_bind].
  match goal with |- context [mbind _ ?e] => assert (Hmm : exists mn mx, e = Ret (StorageValue_of mn, StorageValue_of mx) /\
    storable enable mn /\ storable enable mx /\ mn <= mx /\ non_null nullMask data 0 numValues (fun v => mn <= v <= mx)) end.
  { destruct (Z.ltb_spec 0 capacity), (Z.ltb_spec 0 numValues); try lia.
    2,3: exists 0, 0; unfold getMinMaxStorageValue; rewrite ?(proj2 (Z.ltb_ge 0 numValues)) by lia; split_and!; try done; try apply storable_zero; intros i v Hi; lia.
    destruct (getMinMaxStorageValue_run nullMask data 0 numValues (storable enable)) as (o & o' & -> & Hsome & Ho & Ho' & Hle & Hall); try done; try lia.
    cbn [mbind outcome_bind]. destruct o as [a|], o' as [b|].
    - exists a, b. split_and!; auto. intros i v Hi Hnn Hv. by destruct (Hall i v Hi Hnn Hv) as (? & ? & [= <-] & [= <-] & Hr).
    - by destruct (proj1 Hsome (mk_is_Some _ a eq_refl)).
    - by destruct (proj2 Hsome (mk_is_Some _ b eq_refl)).
    - exists 0, 0. split_and!; try done; try apply storable_zero. intros i v Hi Hnn Hv. by destruct (Hall i v Hi Hnn Hv) as (? & ? & ? & _). }
  destruct Hmm as (mn & mx & -> & Hmn & Hmx & Hle & Hall). cbn [mbind outcome_bind].
  destruct (GetCompressionMetadata_run dt enable mn mx Hmn Hmx Hle capacity numValues) as (chunk & Hrun & Hc); [lia|].
  exists chunk, mn, mx. destruct Hc as (Hc1 & Hc2 & Hc3 & Hc4 & Hc5). by split_and!.
Qed.

(** The flush of a chunk that is not constant, on a range of pages. *)
Lemma CompressedFlushBuffer_run enable data dataFH start chunk nullMask : paged dt (compMeta chunk) -> (enable = true \/ compression (compMeta chunk) = UNCOMPRESSED) ->
  (compression (compMeta chunk) = INTEGER_BITPACKING -> bounds_ok t (compMeta chunk)) ->
  non_null nullMask data 0 (numValuesInChunk chunk) (fun v => kept t (page_info dt (compMeta chunk)) v = v) ->
  0 <= numValuesInChunk chunk <= Z.of_nat (length data) -> 0 <= numPages chunk -> numValuesInChunk chunk <= per_page dt (compMeta chunk) * numPages chunk ->
  0 <= start -> start + numPages chunk <= Z.of_nat (length dataFH) -> Z.of_nat (length dataFH) < 2 ^ 32 - 1 ->
  let chunk' := mkChunkMetadata start (numPages chunk) (numValuesInChunk chunk) (compMeta chunk) in
  exists dataFH', CompressedFlushBuffer enable dt data dataFH start (numPages chunk) chunk = Ret (dataFH', chunk') /\
    length dataFH' = length dataFH /\ (forall k, ~ start <= Z.of_nat k < start + numPages chunk -> dataFH' !! k = dataFH !! k) /\
    paged_chunk dt dataFH' chunk' /\ holds (compMeta chunk) dataFH' start 0 (numValuesInChunk chunk) data nullMask.
Proof.
  intros Hpg Hen Hb Hkeep Hn Hnp Hroom Hs Hfit Hfile chunk'. pose proof (per_page_range dt _ Hpg) as [Hper _]. unfold CompressedFlushBuffer.
  rewrite (Metadata_numValues_paged dt _ Hpg). cbn [mbind outcome_bind]. set (npp := per_page dt (compMeta chunk)) in *. set (n := numValuesInChunk chunk) in *.
  assert (npp * numPages chunk <= 32768 * 2 ^ 32) by (apply Z.mul_le_mono_nonneg; lia). unfold u64. rewrite wrap_small by lia.
  rewrite (proj2 (Z.leb_le _ _)) by lia. cbn [ku_assert mbind outcome_bind].
  destruct (flush_pages_run (Z.to_nat n) enable (replicate (Z.to_nat PAGE_SIZE) 0) data data nullMask n dataFH start (numPages chunk) 0 (compMeta chunk))
    as (F1 & p & Hrun & Hl1 & Ho1 & Hp & Ht & Hok1 & Hh1); try done; try lia.
  { split; [apply Forall_replicate; lia|]. unfold size. by rewrite length_replicate. }
  rewrite Z.sub_0_r, Z.max_r in Hrun by lia. fold npp in Hrun, Ht. rewrite Hrun. cbn [mbind outcome_bind].
  destruct (zero_pages_run F1 start p (numPages chunk)) as (F2 & -> & Hl2 & Ho2 & Hok2); [lia..|]. cbn [mbind outcome_bind].
  exists F2. split; [done|]. split; [congruence|]. split; [intros k Hk; rewrite Ho2, Ho1 by lia; done|].
  assert (Hsame : forall k, start <= k < start + p -> nth (Z.to_nat k) F2 [] = nth (Z.to_nat k) F1 []) by (intros k Hk; rewrite !nth_lookup, Ho2 by lia; done).
  split.
  - split; cbn [chunk' compMeta startPageIdx numPages numValuesInChunk]; try done; try lia.
    + intros k Hk. destruct (Z.lt_ge_cases k (start + p)); [rewrite Hsame by lia; apply Hok1|apply Hok2]; lia.
  - intros i v Hi Hnn Hv. fold npp. assert (0 <= i / npp < p) by (split; [apply Z.div_pos; lia|apply Z.div_lt_upper_bound; lia]).
    rewrite Hsame by lia. apply Hh1; [lia|done..].
Qed.
End flush.
