(* ===== verification/ColumnPagesUpdate.v ===== *)
(** Writes to a column chunk in place, as writes to an array: the loop of
    [writeValuesToPage], what the statistics become, and when [canUpdateInPlace] lets the
    values in; then checkpoints in place. *)
From S2P Require Import Prelude Serializer FreeSpaceManager NullMask Bitpacking BitpackingFacts BitpackingPages Compression ColumnPages.
From S2P Require Import CompressionFacts ColumnPagesFacts.
Local Open Scope Z_scope.

Section writes.
Context `{FastPForLaws} (dt : PhysicalTypeID).
Abbreviation t := (visit dt).

(** The file with new values in a range of a chunk: the value at an index is the one of
    the data at the index [shift] further, unless that is null. *)
Record written (dataFH dataFH' : file) (chunk : ColumnChunkMetadata) (lo hi shift : Z) (data : list Z) (nullMask : option NullMask.t) : Prop := {
  written_length : length dataFH' = length dataFH;
  written_outside : forall k, ~ startPageIdx chunk <= Z.of_nat k < startPageIdx chunk + numPages chunk -> dataFH' !! k = dataFH !! k;
  written_pages : paged_chunk dt dataFH chunk -> paged_chunk dt dataFH' chunk;
  written_others : forall i, 0 <= i -> ~ lo <= i < hi -> chunk_value dt dataFH' chunk i = chunk_value dt dataFH chunk i;
  written_values : forall i v, lo <= i < hi -> isNull_at nullMask (i + shift) = Ret false -> data !! Z.to_nat (i + shift) = Some v ->
    chunk_value dt dataFH' chunk i = v;
}.

Lemma written_refl dataFH chunk lo shift data nullMask : written dataFH dataFH chunk lo lo shift data nullMask.
Proof. split; try done. lia. Qed.

Lemma written_trans F0 F1 F2 chunk lo mid hi shift data nullMask : 0 <= lo <= mid /\ mid <= hi ->
  written F0 F1 chunk lo mid shift data nullMask -> written F1 F2 chunk mid hi shift data nullMask -> written F0 F2 chunk lo hi shift data nullMask.
Proof.
  intros Hle [L1 O1 P1 K1 V1] [L2 O2 P2 K2 V2]. split.
  - congruence.
  - intros k Hk. rewrite O2, O1 by done. done.
  - auto.
  - intros i Hi Hout. rewrite K2, K1 by lia. done.
  - intros i v Hi Hn Hv. destruct (Z.lt_ge_cases i mid); [rewrite K2 by lia; by apply V1; [lia|..]|by apply V2; [lia|..]].
Qed.

(** The update of a page. *)
Lemma write_one_page dataFH chunk i k lo data nullMask : paged_chunk dt dataFH chunk -> 0 <= i < per_page dt (compMeta chunk) * numPages chunk ->
  0 <= k -> i mod per_page dt (compMeta chunk) + k <= per_page dt (compMeta chunk) -> 0 <= lo -> lo + k <= Z.of_nat (length data) ->
  mask_ok nullMask (lo + k) -> writable dt (compMeta chunk) nullMask data lo k ->
  exists dataFH', updatePageWithCursor dataFH (cursor_at dt chunk i) (fun frame offsetInPage =>
      WriteCompressedValuesToPage dt frame offsetInPage data lo k (compMeta chunk) nullMask) = Ret dataFH' /\
    written dataFH dataFH' chunk i (i + k) (lo - i) data nullMask.
Proof.
  intros Hc Hi Hk Hfit Hlo Hlen Hmask Hwr. destruct (index_in_pages dt dataFH chunk i Hc Hi) as (Hq & Hr & Heq).
  pose proof (chunk_paged _ _ _ Hc) as Hpg. pose proof (per_page_range dt _ Hpg) as [Hper _]. destruct (chunk_range _ _ _ Hc) as (Hs & Hn & Hle).
  pose proof (chunk_file _ _ _ Hc) as Hfile. unfold updatePageWithCursor, cursor_at. cbn [pageIdx elemPosInPage].
  set (npp := per_page dt (compMeta chunk)) in *. set (q := i / npp) in *. set (r := i mod npp) in *. set (p := startPageIdx chunk + q).
  rewrite (proj2 (Z.eqb_neq _ _)), (proj2 (Z.ltb_lt _ _)) by (unfold INVALID_PAGE_IDX; lia). cbn [ku_assert mbind outcome_bind].
  destruct (load_lt dataFH (Z.to_nat p) ltac:(lia)) as (page & Hpage & ->). cbn [mbind outcome_bind].
  assert (Hpok : page_ok page) by (pose proof (chunk_pages _ _ _ Hc p ltac:(lia)) as Hp; by rewrite nth_lookup, Hpage in Hp).
  destruct (write_page dt (compMeta chunk) page r data lo k nullMask) as (page' & -> & Hpok' & Hothers & Hvalues); try done; try lia.
  cbn [mbind outcome_bind]. unfold store. rewrite decide_True by lia. eexists. split; [done|].
  assert (Hnth : forall j, nth (Z.to_nat (startPageIdx chunk + j / npp)) (<[Z.to_nat p := page']> (dataFH : list bytes)) [] =
      if bool_decide (Z.to_nat (startPageIdx chunk + j / npp) = Z.to_nat p) then page' else nth (Z.to_nat (startPageIdx chunk + j / npp)) dataFH []).
  { intros j. rewrite !nth_lookup. case_bool_decide as Ej; [rewrite Ej, list_lookup_insert_eq by lia|rewrite list_lookup_insert_ne by congruence]; done. }
  assert (Hold : nth (Z.to_nat p) dataFH [] = page) by (by rewrite nth_lookup, Hpage).
  assert (Hsame : forall j, 0 <= j -> Z.to_nat (startPageIdx chunk + j / npp) = Z.to_nat p -> j = npp * q + j mod npp /\ 0 <= j mod npp < npp).
  { intros j Hj Ej. assert (0 <= j / npp) by (apply Z.div_pos; lia). assert (j / npp = q) as <- by lia.
    split; [apply Z.div_mod|apply Z.mod_pos_bound]; lia. }
  split.
  - by rewrite length_insert.
  - intros j Hj. apply list_lookup_insert_ne. lia.
  - intros _. destruct Hc as [C1 C2 C3 C4 C5 C6]. split; rewrite ?length_insert; try done.
    intros j Hj. destruct (decide (Z.to_nat j = Z.to_nat p)) as [Ej|Ej]; rewrite nth_lookup.
    + by rewrite Ej, list_lookup_insert_eq by lia.
    + rewrite list_lookup_insert_ne by congruence. rewrite <-nth_lookup. by apply C5.
  - intros j Hj Hout. rewrite !paged_value by done. fold npp. rewrite Hnth. case_bool_decide as Ej; [|done].
    destruct (Hsame j Hj Ej) as [Hdm Hm]. rewrite Ej, Hold. apply Hothers; lia.
  - intros j v Hj Hnull Hv. rewrite paged_value by done. fold npp. rewrite Hnth.
    destruct (bit_index npp q j) as [Ed Em]; [lia|lia|]. rewrite Ed, bool_decide_true by done. apply Hvalues; [lia|..].
    + by replace (lo + (j mod npp - r)) with (j + (lo - i)) by lia.
    + by replace (lo + (j mod npp - r)) with (j + (lo - i)) by lia.
Qed.

Lemma write_pages_run fuel dataFH chunk dst lo done n data nullMask : (Z.to_nat (n - done) <= fuel)%nat ->
  paged_chunk dt dataFH chunk -> 0 <= dst -> 0 <= done <= n -> dst + n <= per_page dt (compMeta chunk) * numPages chunk ->
  0 <= lo -> lo + n <= Z.of_nat (length data) -> mask_ok nullMask (lo + n) -> writable dt (compMeta chunk) nullMask data lo n ->
  exists dataFH', (forall cursor, (done < n -> cursor = cursor_at dt chunk (dst + done)) ->
      write_pages fuel dataFH (mkState chunk (per_page dt (compMeta chunk))) data lo done n cursor dt nullMask = Ret dataFH') /\
    written dataFH dataFH' chunk (dst + done) (dst + n) (lo - dst) data nullMask.
Proof.
  revert dataFH done. induction fuel as [|fuel IH]; intros dataFH done_ Hf Hc Hdst Hdone Hroom Hlo Hlen Hmask Hwr; cbn [write_pages];
    destruct (Z.ltb_spec done_ n).
  2,4: exists dataFH; split; [done|]; replace done_ with n by lia; apply written_refl.
  - lia.
  - set (i := dst + done_). destruct (index_in_pages dt dataFH chunk i Hc ltac:(lia)) as (Hq & Hr & Heq).
    pose proof (per_page_range dt _ (chunk_paged _ _ _ Hc)) as [Hper _]. destruct (chunk_range _ _ _ Hc) as (Hs & Hn & Hle).
    set (k := Z.min (n - done_) (per_page dt (compMeta chunk) - i mod per_page dt (compMeta chunk))).
    destruct (write_one_page dataFH chunk i k (lo + done_) data nullMask) as (F1 & Hrun1 & Hw1); try done; try lia.
    { eapply mask_ok_weaken; [|done]. lia. }
    { eapply writable_part; [| |done]; lia. }
    destruct (IH F1 (done_ + k)) as (F2 & Hrun2 & Hw2); try done; try lia.
    { by apply (written_pages _ _ _ _ _ _ _ _ Hw1). }
    exists F2. split.
    + intros cursor Hcur. rewrite Hcur by done. fold i.
      assert (Hv : pageIdx (cursor_at dt chunk i) < startPageIdx chunk + numPages chunk) by (cbn [cursor_at pageIdx]; lia).
      cbn [numValuesPerPage metadata]. rewrite (proj2 (Z.ltb_lt _ _) Hv), orb_true_r. cbn [ku_assert mbind outcome_bind].
      change (elemPosInPage (cursor_at dt chunk i)) with (i mod per_page dt (compMeta chunk)). unfold u64. rewrite (wrap_small 64) by lia. fold k.
      rewrite Hrun1. cbn [mbind outcome_bind]. apply Hrun2. intros Hlt.
      rewrite (next_cursor dt dataFH chunk i k); [f_equal; unfold i; lia|done|lia|lia].
    + apply (written_trans dataFH F1 F2 chunk i (i + k)); [lia| |].
      * by replace (lo - dst) with (lo + done_ - i) by lia.
      * by replace (i + k) with (dst + (done_ + k)) by lia.
Qed.

(** How many values there is room for. *)
Definition room (chunk : ColumnChunkMetadata) : Z :=
  if bool_decide (compression (compMeta chunk) = CONSTANT) then 2 ^ 32 - 1 else per_page dt (compMeta chunk) * numPages chunk.

Lemma paged_room dataFH chunk : paged_chunk dt dataFH chunk -> room chunk = per_page dt (compMeta chunk) * numPages chunk.
Proof. intros Hc. unfold room. rewrite bool_decide_false; [done|]. by destruct (chunk_paged _ _ _ Hc) as ([->| ->] & _). Qed.

Lemma constant_written dataFH chunk lo hi shift data nullMask : compression (compMeta chunk) = CONSTANT -> 0 <= lo -> 0 <= lo + shift ->
  non_null nullMask data (lo + shift) (hi - lo) (fun v => v = StorageValue_get t (meta_min (compMeta chunk))) ->
  written dataFH dataFH chunk lo hi shift data nullMask.
Proof.
  intros E Hlo Hsh Hv. split; try done. intros i v Hi Hn Hd. unfold chunk_value. rewrite E. symmetry. by apply (Hv (i + shift) v); [lia|..].
Qed.

Lemma write_constant_run fuel dataFH chunk data lo n nullMask dst : compression (compMeta chunk) = CONSTANT -> 0 < n -> (Z.to_nat n <= fuel)%nat ->
  0 <= dst -> dst + n <= 2 ^ 32 - 1 ->
  write_pages fuel dataFH (mkState chunk UINT64_MAX) data lo 0 n (mkCursor INVALID_PAGE_IDX dst) dt nullMask = Ret dataFH.
Proof.
  intros E Hn Hf Hdst Hle. destruct fuel as [|fuel]; [lia|]. cbn [write_pages]. rewrite (proj2 (Z.ltb_lt 0 n)) by done.
  cbn [pageIdx numValuesPerPage elemPosInPage metadata]. rewrite Z.eqb_refl. cbn [orb ku_assert mbind outcome_bind].
  unfold u64, UINT64_MAX. rewrite (wrap_small 64), Z.min_l by lia. unfold updatePageWithCursor. cbn [pageIdx elemPosInPage]. rewrite Z.eqb_refl.
  unfold WriteCompressedValuesToPage. rewrite E. cbn [mbind outcome_bind mret outcome_ret].
  destruct fuel; cbn [write_pages]; by rewrite (proj2 (Z.ltb_ge _ _)) by lia.
Qed.

Lemma writeValuesToPage_run dataFH chunk state dst data lo n nullMask : chunk_ok dt dataFH chunk -> initializeScanState dt chunk = Ret state ->
  0 <= dst -> 0 < n -> dst + n <= room chunk -> 0 <= lo -> lo + n <= Z.of_nat (length data) -> mask_ok nullMask (lo + n) ->
  writable dt (compMeta chunk) nullMask data lo n ->
  exists dataFH', writeValuesToPage dataFH state dst data lo n dt nullMask = Ret dataFH' /\
    written dataFH dataFH' chunk dst (dst + n) (lo - dst) data nullMask.
Proof.
  intros Hok Hst Hdst Hn Hroom Hlo Hlen Hmask Hwr. unfold writeValuesToPage, initializeScanState in *. destruct Hok as [Hc|Hc].
  - pose proof (chunk_paged _ _ _ Hc) as Hpg. rewrite (Metadata_numValues_paged dt _ Hpg) in Hst. injection Hst as <-.
    rewrite (paged_room dataFH chunk Hc) in Hroom. cbn [metadata numValuesPerPage].
    rewrite (getPageCursor_run dt dataFH chunk dst Hc) by lia. cbn [mbind outcome_bind].
    destruct (write_pages_run (Z.to_nat n) dataFH chunk dst lo 0 n data nullMask) as (F' & Hrun & Hw); try done; try lia.
    rewrite Z.add_0_r in Hw, Hrun. exists F'. split; [by apply Hrun|done].
  - destruct Hc as [E [Hs Hnp] _ _ _]. unfold Metadata_numValues in Hst. rewrite E in Hst. injection Hst as <-.
    unfold room in Hroom. rewrite bool_decide_true in Hroom by done. cbn [metadata numValuesPerPage]. rewrite Hs, constant_cursor by lia.
    cbn [mbind outcome_bind]. rewrite write_constant_run by (done || lia). exists dataFH. split; [done|].
    apply constant_written; [done|lia|lia|]. destruct Hwr as [_ Hwr]. rewrite E in Hwr.
    eapply non_null_part; [| |exact Hwr]; lia.
Qed.
End writes.

(** Checkpoints in place: the values that [canUpdateInPlace] accepts can be written, and
    the statistics that follow from a write leave the values as they are. *)

(** ** The test *)

Section accepted.
Context (dt : PhysicalTypeID) (m : CompressionMetadata).
Abbreviation t := (visit dt).

Lemma equal_to_constant_spec data i n nullMask : equal_to_constant t data i n (meta_min m) nullMask = Ret true -> 0 <= i ->
  non_null nullMask data i (Z.of_nat n) (fun v => castU t v = castU t (meta_min m)).
Proof.
  revert i. induction n as [|n IH]; intros i Hrun Hi j v Hj Hn Hv; [lia|]. cbn [equal_to_constant] in Hrun.
  destruct (isNull_at nullMask i) as [null| |] eqn:En; try discriminate Hrun. cbn [mbind outcome_bind] in Hrun.
  assert (Hrest : equal_to_constant t data (i + 1) n (meta_min m) nullMask = Ret true -> j <> i -> castU t v = castU t (meta_min m)).
  { intros Hr Hne. apply (IH (i + 1) Hr ltac:(lia) j v); [lia|done..]. }
  destruct null; [apply Hrest; [done|]; congruence|]. destruct (load data (Z.to_nat i)) as [w| |] eqn:El; try discriminate Hrun.
  cbn [mbind outcome_bind] in Hrun. destruct (Z.eqb_spec (castU t w) (castU t (meta_min m))) as [Heq|]; [|discriminate Hrun].
  destruct (decide (j = i)) as [->|Hne]; [|by apply Hrest]. unfold load in El. rewrite Hv in El. by injection El as ->.
Qed.

(** A value of the type whose bytes are those of the constant is the constant. *)
Lemma constant_bytes v : MIN t <= v <= MAX t -> castU t v = castU t (meta_min m) -> v = StorageValue_get t (meta_min m).
Proof.
  intros Hv Heq. rewrite <-(cast_id t v Hv). unfold StorageValue_get. pose proof (type_size dt) as (_ & _ & Hb).
  rewrite (cast_wrap t) by lia. rewrite <-(cast_wrap t (bits t) v), <-(cast_wrap t (bits t) (meta_min m)) by lia. unfold castU in Heq. by rewrite Heq.
Qed.

(** The values that are not null, and not the least of a signed type where they are to be
    packed. *)
Definition typed (nullMask : option NullMask.t) (data : list Z) (lo n : Z) : Prop :=
  non_null nullMask data lo n (fun v => MIN t <= v <= MAX t /\ (compression m = INTEGER_BITPACKING -> compressible t v)).

Lemma canUpdate_writable nullMask data n : compression m <> BOOLEAN_BITPACKING -> (compression m = INTEGER_BITPACKING -> bounds_ok t m) -> 0 < n -> n <= Z.of_nat (length data) ->
  mask_ok nullMask n -> typed nullMask data 0 n -> Metadata_canUpdateInPlace m data 0 n dt nullMask = Ret true -> writable dt m nullMask data 0 n.
Proof.
  intros Hbool Hb Hn Hlen Hmask Hty Hrun. split; [intros i v Hi Hnn Hv; by apply (proj1 (Hty i v Hi Hnn Hv))|]. unfold Metadata_canUpdateInPlace, canAlwaysUpdateInPlace in Hrun.
  unfold typed in Hty. destruct (compression m) eqn:E; try done.
  - specialize (Hb eq_refl). split; [done|]. destruct (array_slice data 0 n) as [values| |] eqn:Hsl; try discriminate Hrun. cbn [mbind outcome_bind] in Hrun.
    destruct (getTypedMinMax_run nullMask data 0 n values (compressible t)) as (mn & mx & Hmm & Hsome & Hmn & Hmx & Hle & Hall); try done.
    { intros i v Hi Hnn Hv. by apply (proj2 (Hty i v Hi Hnn Hv)). }
    unfold canUpdateInPlace in Hrun. rewrite Hmm in Hrun. cbn [mbind outcome_bind] in Hrun.
    intros i v Hi Hnn Hv. destruct (Hall i v Hi Hnn Hv) as (a & b & -> & -> & Hr). exists a, b. split; [|done].
    injection Hrun as Hrun. apply (update_test t m a b); auto.
  - intros i v Hi Hnn Hv. apply constant_bytes; [by apply (proj1 (Hty i v Hi Hnn Hv))|].
    apply (equal_to_constant_spec data 0 (Z.to_nat n) nullMask Hrun ltac:(lia) i v); [lia|done..].
Qed.
End accepted.

(** ** Statistics *)

(** Metadata after updates: the bounds may have moved, the packing has not. *)
Definition evolved (dt : PhysicalTypeID) (m0 m : CompressionMetadata) : Prop :=
  compression m = compression m0 /\
  match compression m0 with
  | INTEGER_BITPACKING => bounds_ok (visit dt) m /\ meta_lo (visit dt) m <= meta_lo (visit dt) m0 /\ meta_hi (visit dt) m0 <= meta_hi (visit dt) m /\
      getPackingInfo (visit dt) m = getPackingInfo (visit dt) m0
  | CONSTANT => m = m0
  | _ => True
  end.

Section statistics.
Context (dt : PhysicalTypeID) (m0 : CompressionMetadata).
Abbreviation t := (visit dt).

Lemma evolved_refl m : (compression m = INTEGER_BITPACKING -> bounds_ok t m) -> evolved dt m m.
Proof. intros Hb. split; [done|]. destruct (compression m); try done. split_and!; try done; [by apply Hb|lia..]. Qed.

Lemma evolved_info m : paged dt m0 -> evolved dt m0 m -> page_info dt m = page_info dt m0.
Proof. intros ([E0|E0] & _) [E Hm]; rewrite E0 in *; unfold page_info; rewrite E, E0; [done|]. by destruct Hm as (_ & _ & _ & Hi). Qed.

(** Two updates that can each be made are one. *)
Lemma settled_join a1 b1 a2 b2 u w : bounds_ok t m0 -> settled t m0 a1 b1 -> settled t m0 a2 b2 -> a1 <= u <= b1 -> a2 <= w <= b2 -> u <= w -> settled t m0 u w.
Proof.
  intros [Hlo Hhi Hlh _ _] (H1 & H2 & H3 & P1) (H4 & H5 & H6 & P2) Hu Hw Hle. pose proof (getPackingInfo_packing t m0 Hlo Hhi Hlh) as P0.
  split_and!; [by apply (compressible_between t a1 b1)|by apply (compressible_between t a2 b2)|done|].
  pose proof (packing_union _ _ _ _ _ _ _ P0 P1 P2 Hlh ltac:(lia) ltac:(lia) ltac:(lia) ltac:(lia)) as P.
  eapply packing_between; [exact P0|exact P|lia..].
Qed.

(** The comparison of two values of the type. *)
Lemma StorageValue_gt_of a b : MIN t <= a <= MAX t -> MIN t <= b <= MAX t -> StorageValue_gt (StorageValue_of a) (StorageValue_of b) dt = (b <? a).
Proof.
  intros Ha Hb. unfold StorageValue_gt. destruct (is_signed t) eqn:Es.
  - assert (forall v, MIN t <= v <= MAX t -> StorageValue_get INT64 (StorageValue_of v) = v) as Hv; [|by rewrite !Hv].
    assert (MIN INT64 <= MIN t /\ MAX t <= MAX INT64) by (destruct dt; try discriminate Es; split; vm_compute; discriminate).
    intros v Hv. apply (StorageValue_get_of INT64). lia.
  - assert (forall v, MIN t <= v <= MAX t -> StorageValue_get UINT64 (StorageValue_of v) = v) as Hv; [|by rewrite !Hv].
    assert (MIN UINT64 <= MIN t /\ MAX t <= MAX UINT64) by (destruct dt; try discriminate Es; split; vm_compute; discriminate).
    intros v Hv. apply (StorageValue_get_of UINT64). lia.
Qed.

(** The bounds of what was written. *)
Definition acceptable (a b : Z) : Prop :=
  match compression m0 with
  | INTEGER_BITPACKING => bounds_ok t m0 /\ settled t m0 a b
  | CONSTANT => a = StorageValue_get t (meta_min m0) /\ b = a /\ meta_min m0 = StorageValue_of a /\ meta_max m0 = meta_min m0
  | _ => True
  end.

(** Bounds that take in one side of an update. *)
Lemma evolved_bounds m a b lo hi : compression m0 = INTEGER_BITPACKING -> bounds_ok t m0 -> evolved dt m0 m -> settled t m0 a b ->
  Z.min (meta_lo t m) a <= lo <= meta_lo t m -> meta_hi t m <= hi <= Z.max (meta_hi t m) b ->
  evolved dt m0 (mkMetadata (StorageValue_of lo) (StorageValue_of hi) (compression m)).
Proof.
  intros E0 Hb0 [E Hm] (Ha & Hb & Hab & Pab) Hlo Hhi. rewrite E0 in Hm. destruct Hm as (Hbm & Hl & Hh & Hi).
  pose proof (getPackingInfo_packing t m0 (lo_ok _ _ Hb0) (hi_ok _ _ Hb0) (lo_hi _ _ Hb0)) as P0.
  pose proof (getPackingInfo_packing t m (lo_ok _ _ Hbm) (hi_ok _ _ Hbm) (lo_hi _ _ Hbm)) as Pm. rewrite Hi in Pm.
  pose proof (packing_union _ _ _ _ _ _ _ P0 Pm Pab (lo_hi _ _ Hb0) ltac:(lia) ltac:(lia) ltac:(lia) ltac:(lia)) as P.
  pose proof (lo_hi _ _ Hbm) as Hlh.
  assert (Pn : packing lo hi (getPackingInfo t m0)) by (eapply packing_between; [exact Pm|exact P|lia..]).
  assert (Clo : compressible t lo).
  { apply (compressible_between t (Z.min (meta_lo t m) a) (meta_lo t m)); [apply compressible_min; [apply Hbm|done]|apply Hbm|lia]. }
  assert (Chi : compressible t hi).
  { apply (compressible_between t (meta_hi t m) (Z.max (meta_hi t m) b)); [apply Hbm|apply compressible_max; [apply Hbm|done]|lia]. }
  destruct (getPackingInfo_of t (compression m) lo hi (compression m) Clo Chi ltac:(lia)) as (Pg & Hl' & Hh').
  split; [done|]. rewrite E0. split_and!; [|rewrite Hl'; lia|rewrite Hh'; lia|by eapply packing_fun].
  split; rewrite ?Hl', ?Hh'; try done. lia.
Qed.

Lemma updateStatistics_run chunk maxIndex mn mx : 0 <= maxIndex -> (is_Some mn <-> is_Some mx) -> (forall a b, mn = Some a -> mx = Some b -> acceptable a b) ->
  evolved dt m0 (compMeta chunk) ->
  exists m', updateStatistics dt chunk maxIndex (StorageValue_of <$> mn) (StorageValue_of <$> mx) =
      Ret (mkChunkMetadata (startPageIdx chunk) (numPages chunk) (Z.max (numValuesInChunk chunk) (maxIndex + 1)) m') /\ evolved dt m0 m'.
Proof.
  intros Hidx Hsome Hacc Hev. unfold updateStatistics.
  assert (Hmax : (if numValuesInChunk chunk <=? maxIndex then maxIndex + 1 else numValuesInChunk chunk) = Z.max (numValuesInChunk chunk) (maxIndex + 1)).
  { destruct (Z.leb_spec (numValuesInChunk chunk) maxIndex); lia. }
  rewrite Hmax. set (m := compMeta chunk) in *.
  destruct mn as [a|], mx as [b|]; cbn [fmap option_fmap option_map].
  4: by exists m.
  2: by destruct (proj1 Hsome (mk_is_Some _ a eq_refl)).
  2: by destruct (proj2 Hsome (mk_is_Some _ b eq_refl)).
  eexists. split; [done|]. specialize (Hacc a b eq_refl eq_refl). unfold acceptable in Hacc. destruct Hev as [E Hm].
  destruct (compression m0) eqn:E0.
  - unfold evolved. rewrite E0. repeat case_match; by split.
  - destruct Hacc as [Hb0 Hset]. pose proof Hset as (Ha & Hb & Hab & _). pose proof Hm as (Hbm & Hl & Hh & Hi).
    pose proof (proj1 (lo_ok _ _ Hbm)). pose proof (proj1 (hi_ok _ _ Hbm)). pose proof (lo_hi _ _ Hbm).
    assert (Hev0 : evolved dt m0 m) by (split; [congruence|by rewrite E0]).
    rewrite (max_is _ _ Hbm), (min_is _ _ Hbm), !StorageValue_gt_of by (done || apply Ha || apply Hb).
    destruct (Z.ltb_spec (meta_hi t m) b); [|destruct (Z.ltb_spec a (meta_lo t m)); [|done]].
    + apply (evolved_bounds m a b); auto; lia.
    + apply (evolved_bounds m a b); auto; lia.
  - unfold evolved. rewrite E0. repeat case_match; by split.
  - destruct Hacc as (Ha & -> & Hmin & Hmx). rewrite Hm. rewrite Hmx, Hmin.
    assert (MIN t <= a <= MAX t) by (rewrite Ha; unfold StorageValue_get; apply cast_range; apply _).
    rewrite !StorageValue_gt_of by done. rewrite Z.ltb_irrefl. split; [congruence|]. by rewrite E0.
  - unfold evolved. rewrite E0. repeat case_match; by split.
Qed.
End statistics.

(** ** Writes of a checkpoint *)

(** The rows after updates, as far as they are known: a null has no value. *)
Definition overwrite (f : Z -> option Z) (c : ChunkCheckpointState) (i : Z) : option Z :=
  if (startRow c <=? i) && (i <? startRow c + numRows c)
  then match isNull_at (chunkNulls c) (i - startRow c) with Ret false => chunkData c !! Z.to_nat (i - startRow c) | _ => None end
  else f i.

Definition after (f : Z -> option Z) (updates : list ChunkCheckpointState) : Z -> option Z := fold_left overwrite updates f.

(** Updates of rows before [endRow], of values of the type. *)
Record update_ok (dt : PhysicalTypeID) (m : CompressionMetadata) (endRow : Z) (c : ChunkCheckpointState) : Prop := {
  update_rows : 0 <= startRow c /\ 0 < numRows c /\ startRow c + numRows c <= endRow;
  update_count : Z.of_nat (length (chunkData c)) = numRows c;
  update_mask : mask_ok (chunkNulls c) (numRows c);
  update_typed : typed dt m (chunkNulls c) (chunkData c) 0 (numRows c);
}.

Section checkpoint.
Context `{FastPForLaws} (dt : PhysicalTypeID).
Abbreviation t := (visit dt).

(** Later metadata of a chunk on the same pages. *)
Definition same_chunk (chunk0 chunk : ColumnChunkMetadata) : Prop :=
  startPageIdx chunk = startPageIdx chunk0 /\ numPages chunk = numPages chunk0 /\ evolved dt (compMeta chunk0) (compMeta chunk).

Lemma same_chunk_value dataFH chunk0 chunk i : chunk_ok dt dataFH chunk0 -> same_chunk chunk0 chunk -> chunk_value dt dataFH chunk i = chunk_value dt dataFH chunk0 i.
Proof.
  intros [Hc|Hc] (Hs & _ & Hev).
  - pose proof (evolved_info dt _ _ (chunk_paged _ _ _ Hc) Hev) as Hi. destruct (chunk_paged _ _ _ Hc) as (E & _). destruct Hev as [E' _].
    unfold chunk_value, page_value, per_page. rewrite Hi, Hs, E'. by destruct E as [-> | ->].
  - destruct Hc as [E _ _ _ _]. destruct Hev as [E' Hm]. rewrite E in Hm. unfold chunk_value. by rewrite Hm, E.
Qed.

Lemma same_chunk_ok dataFH chunk0 chunk : chunk_ok dt dataFH chunk0 -> same_chunk chunk0 chunk -> 0 <= numValuesInChunk chunk <= room dt chunk0 -> chunk_ok dt dataFH chunk.
Proof.
  intros [Hc|Hc] (Hs & Hn & Hev) Hcount.
  - left. rewrite (paged_room dt dataFH chunk0 Hc) in Hcount. pose proof (evolved_info dt _ _ (chunk_paged _ _ _ Hc) Hev) as Hi.
    destruct Hc as [C1 C2 C3 C4 C5 C6]. destruct Hev as [E Hm]. split; rewrite ?Hs, ?Hn; try done.
    + unfold paged. by rewrite E, Hi.
    + intros Eb. rewrite <-E, Eb in Hm. apply Hm.
    + unfold per_page. by rewrite Hi.
  - right. destruct Hc as [E [Hs0 Hn0] Hcnt Hmin Hmax]. unfold room in Hcount. rewrite E, bool_decide_true in Hcount by done.
    destruct Hev as [E' Hm]. rewrite E in Hm. split; rewrite ?Hm; try done. by rewrite Hs, Hn.
Qed.

(** What [writable] says of each value. *)
Definition admitted (m : CompressionMetadata) (v : Z) : Prop :=
  match compression m with
  | INTEGER_BITPACKING => bounds_ok t m /\ exists a b, settled t m a b /\ a <= v <= b
  | CONSTANT => v = StorageValue_get t (meta_min m)
  | _ => True
  end.

Lemma writable_admitted m nullMask data lo n : writable dt m nullMask data lo n -> non_null nullMask data lo n (admitted m).
Proof.
  intros [_ Hw] i v Hi Hn Hv. unfold admitted. destruct (compression m); try done.
  - destruct Hw as [Hb Hw]. split; [done|]. by apply (Hw i).
  - by apply (Hw i).
Qed.

Lemma admitted_acceptable dataFH chunk a b : chunk_ok dt dataFH chunk -> admitted (compMeta chunk) a -> admitted (compMeta chunk) b -> a <= b ->
  acceptable dt (compMeta chunk) a b.
Proof.
  intros Hok Ha Hb Hle. unfold admitted, acceptable in *. destruct (compression (compMeta chunk)) eqn:E; try done.
  - destruct Ha as (Hbd & a1 & b1 & Hs1 & Hr1), Hb as (_ & a2 & b2 & Hs2 & Hr2). split; [done|]. by apply (settled_join dt _ a1 b1 a2 b2).
  - destruct Hok as [Hc|Hc]; [destruct (chunk_paged _ _ _ Hc) as ([E'|E'] & _); congruence|]. destruct Hc as [_ _ _ Hmin Hmax].
    split_and!; [done|congruence|congruence|done].
Qed.

Lemma column_write_run dataFH chunk0 state chunk dst data nullMask n : chunk_ok dt dataFH chunk0 -> initializeScanState dt chunk0 = Ret state -> same_chunk chunk0 chunk ->
  0 <= dst -> 0 < n -> dst + n <= room dt chunk0 -> dst + n < 2 ^ 64 -> n <= Z.of_nat (length data) -> mask_ok nullMask n ->
  writable dt (compMeta chunk0) nullMask data 0 n ->
  exists dataFH' chunk', write dataFH dt chunk state dst data nullMask 0 n = Ret (dataFH', chunk') /\
    written dt dataFH dataFH' chunk0 dst (dst + n) (0 - dst) data nullMask /\ same_chunk chunk0 chunk' /\
    numValuesInChunk chunk' = Z.max (numValuesInChunk chunk) (dst + n).
Proof.
  intros Hok Hst (Hs & Hnp & Hev) Hdst Hn Hroom Hbig Hlen Hmask Hwr. unfold write.
  destruct (writeValuesToPage_run dt dataFH chunk0 state dst data 0 n nullMask) as (F' & -> & Hw); try done.
  cbn [mbind outcome_bind].
  destruct (getMinMaxStorageValue_run nullMask data 0 n (admitted (compMeta chunk0))) as (mn & mx & -> & Hsome & Hmn & Hmx & Hle & _); try done.
  { by apply writable_admitted. }
  cbn [mbind outcome_bind]. unfold u64. rewrite wrap_small by lia.
  destruct (updateStatistics_run dt (compMeta chunk0) chunk (dst + n - 1) mn mx) as (m' & -> & Hev'); try done; [lia| |].
  { intros a b Ha Hb. eapply admitted_acceptable; eauto. }
  cbn [mbind outcome_bind]. eexists _, _. split; [done|]. split; [done|]. split; [by split_and!|]. cbn [numValuesInChunk]. lia.
Qed.

(** The values that are known are those of the file. *)
Definition agrees (dataFH : file) (chunk : ColumnChunkMetadata) (f : Z -> option Z) : Prop :=
  forall i v, 0 <= i -> f i = Some v -> chunk_value dt dataFH chunk i = v.

Lemma written_agrees dataFH dataFH' chunk c f : written dt dataFH dataFH' chunk (startRow c) (startRow c + numRows c) (0 - startRow c) (chunkData c) (chunkNulls c) ->
  agrees dataFH chunk f -> agrees dataFH' chunk (overwrite f c).
Proof.
  intros Hw Hf i v Hi Hv. unfold overwrite in Hv. destruct (Z.leb_spec (startRow c) i), (Z.ltb_spec i (startRow c + numRows c)); cbn [andb] in Hv.
  1: { destruct (isNull_at (chunkNulls c) (i - startRow c)) as [[]| |] eqn:En; try discriminate Hv.
       apply (written_values _ _ _ _ _ _ _ _ _ Hw); [lia|..]; by replace (i + (0 - startRow c)) with (i - startRow c) by lia. }
  all: rewrite (written_others _ _ _ _ _ _ _ _ _ Hw) by lia; by apply Hf.
Qed.

Lemma written_chunk_ok dataFH dataFH' chunk lo hi shift data nullMask : written dt dataFH dataFH' chunk lo hi shift data nullMask -> chunk_ok dt dataFH chunk -> chunk_ok dt dataFH' chunk.
Proof. intros Hw [Hc|Hc]; [left|by right]. by apply (written_pages _ _ _ _ _ _ _ _ _ Hw). Qed.

Lemma in_place_run dataFH chunk0 state chunk updates endRow f : chunk_ok dt dataFH chunk0 -> initializeScanState dt chunk0 = Ret state -> same_chunk chunk0 chunk ->
  endRow <= room dt chunk0 -> endRow < 2 ^ 64 -> 0 <= numValuesInChunk chunk <= room dt chunk0 ->
  Forall (fun c => update_ok dt (compMeta chunk0) endRow c /\ writable dt (compMeta chunk0) (chunkNulls c) (chunkData c) 0 (numRows c)) updates ->
  agrees dataFH chunk0 f ->
  exists dataFH' chunk', checkpointColumnChunkInPlace dataFH dt chunk state updates = Ret (dataFH', chunk') /\
    length dataFH' = length dataFH /\
    (forall k, ~ startPageIdx chunk0 <= Z.of_nat k < startPageIdx chunk0 + numPages chunk0 -> dataFH' !! k = dataFH !! k) /\
    chunk_ok dt dataFH' chunk0 /\ same_chunk chunk0 chunk' /\ agrees dataFH' chunk0 (after f updates) /\
    numValuesInChunk chunk' = fold_left (fun n c => Z.max n (startRow c + numRows c)) updates (numValuesInChunk chunk) /\
    0 <= numValuesInChunk chunk' <= room dt chunk0.
Proof.
  intros Hok Hst. revert dataFH chunk f Hok. induction updates as [|c updates IH]; intros dataFH chunk f Hok Hsame Hend Hbig Hcount Hups Hf.
  { exists dataFH, chunk. split_and!; (done || lia). }
  apply Forall_cons_1 in Hups as [[Hup Hwr] Hups]. destruct (update_rows _ _ _ _ Hup) as (Hs & Hn & He). cbn [checkpointColumnChunkInPlace].
  rewrite (proj2 (Z.ltb_lt _ _)) by done. cbn [ku_assert mbind outcome_bind].
  destruct (column_write_run dataFH chunk0 state chunk (startRow c) (chunkData c) (chunkNulls c) (numRows c)) as (F1 & chunk1 & -> & Hw & Hsame1 & Hcount1); try done; try lia.
  { by rewrite (update_count _ _ _ _ Hup). }
  { apply (update_mask _ _ _ _ Hup). }
  cbn [mbind outcome_bind].
  destruct (IH F1 chunk1 (overwrite f c)) as (F2 & chunk2 & -> & Hl2 & Ho2 & Hok2 & Hsame2 & Hag2 & Hc2 & Hr2); try done; try lia.
  { by eapply written_chunk_ok. }
  { by eapply written_agrees. }
  exists F2, chunk2. split_and!; try done; [|intros k Hk|..].
  - by rewrite Hl2, (written_length _ _ _ _ _ _ _ _ _ Hw).
  - by rewrite Ho2, (written_outside _ _ _ _ _ _ _ _ _ Hw).
  - cbn [fold_left]. by rewrite Hc2, Hcount1.
  - apply Hr2.
  - apply Hr2.
Qed.

(** What [canCheckpointInPlace] promises. *)
Lemma all_in_place_writable chunk n updates endRow : (compression (compMeta chunk) = INTEGER_BITPACKING -> bounds_ok t (compMeta chunk)) ->
  compression (compMeta chunk) <> BOOLEAN_BITPACKING -> Forall (update_ok dt (compMeta chunk) endRow) updates ->
  all_in_place (mkState chunk n) dt updates = Ret true ->
  Forall (fun c => update_ok dt (compMeta chunk) endRow c /\ writable dt (compMeta chunk) (chunkNulls c) (chunkData c) 0 (numRows c)) updates.
Proof.
  intros Hb Hbool Hups. induction Hups as [|c updates Hup _ IH]; intros Hrun; [done|]. cbn [all_in_place] in Hrun.
  destruct (update_rows _ _ _ _ Hup) as (Hs & Hn & He). rewrite (update_count _ _ _ _ Hup) in Hrun. rewrite Z.eqb_refl in Hrun.
  rewrite (proj2 (Z.eqb_neq _ 0)) in Hrun by lia. cbn [negb ku_assert mbind outcome_bind metadata] in Hrun.
  destruct (Metadata_canUpdateInPlace (compMeta chunk) (chunkData c) 0 (numRows c) dt (chunkNulls c)) as [[]| |] eqn:Ec; try discriminate Hrun.
  constructor; [split; [done|]|by apply IH]. apply (canUpdate_writable dt (compMeta chunk)); try done.
  - by rewrite (update_count _ _ _ _ Hup).
  - apply (update_mask _ _ _ _ Hup).
  - apply (update_typed _ _ _ _ Hup).
Qed.

Lemma canCheckpointInPlace_spec dataFH chunk state updates endRow : chunk_ok dt dataFH chunk -> initializeScanState dt chunk = Ret state ->
  Forall (update_ok dt (compMeta chunk) endRow) updates -> 0 <= endRow < 2 ^ 32 -> canCheckpointInPlace dt chunk state endRow updates = Ret true ->
  endRow <= room dt chunk /\
  Forall (fun c => update_ok dt (compMeta chunk) endRow c /\ writable dt (compMeta chunk) (chunkNulls c) (chunkData c) 0 (numRows c)) updates.
Proof.
  intros Hok Hst Hups Hend Hrun. unfold canCheckpointInPlace in Hrun.
  destruct (isEndOffsetOutOfPagesCapacity dt chunk endRow) as [[]| |] eqn:Ecap; try discriminate Hrun. cbn [mbind outcome_bind] in Hrun.
  assert (exists n, state = mkState chunk n) as [n ->].
  { unfold initializeScanState in Hst. destruct (Metadata_numValues _ _ _) as [n| |]; try discriminate Hst. injection Hst as <-. by exists n. }
  assert (Hkind : (compression (compMeta chunk) = INTEGER_BITPACKING -> bounds_ok t (compMeta chunk)) /\ compression (compMeta chunk) <> BOOLEAN_BITPACKING).
  { destruct Hok as [Hc|Hc]; [split; [apply (chunk_bounds _ _ _ Hc)|by destruct (chunk_paged _ _ _ Hc) as ([->| ->] & _)]|].
    rewrite (constant_is _ _ Hc). by split. }
  destruct Hkind as [Hb Hbool]. split.
  - unfold isEndOffsetOutOfPagesCapacity, isConstant in Ecap. destruct Hok as [Hc|Hc].
    + rewrite (paged_room dt dataFH chunk Hc). pose proof (chunk_paged _ _ _ Hc) as Hpg. pose proof (per_page_range dt _ Hpg) as [Hper _].
      rewrite bool_decide_false in Ecap by (by destruct Hpg as ([->| ->] & _)). rewrite (Metadata_numValues_paged dt _ Hpg) in Ecap.
      cbn [mbind outcome_bind] in Ecap. injection Ecap as Ecap. apply Z.leb_gt in Ecap. unfold u64, wrap in Ecap.
      destruct (chunk_range _ _ _ Hc) as (_ & Hnp & _). pose proof (Z.mod_le (per_page dt (compMeta chunk) * numPages chunk) (2 ^ 64) ltac:(nia) ltac:(done)). lia.
    + unfold room. rewrite bool_decide_true by (by destruct Hc). lia.
  - destruct (canAlwaysUpdateInPlace (compMeta chunk)) eqn:Ea; [|by apply (all_in_place_writable chunk n)].
    eapply Forall_impl; [exact Hups|]. intros c Hup. split; [done|]. split; [intros i v Hi Hn Hv; by apply (proj1 (update_typed _ _ _ _ Hup i v Hi Hn Hv))|].
    unfold canAlwaysUpdateInPlace in Ea. by destruct (compression (compMeta chunk)).
Qed.
End checkpoint.
