(* ===== verification/ZoneMap.v ===== *)
(** Statistics of column chunks of integers and the predicates that are tested on them
    before a scan ([storage/table/column_chunk_stats.cpp], [column_chunk_data.cpp],
    [column_chunk.cpp], [storage/predicate/]). A predicate on a constant is of a value of
    the type of the column. *)
From S2P Require Import Prelude Serializer FreeSpaceManager NullMask Bitpacking BitpackingFacts BitpackingPages Compression ColumnPages.
From S2P Require Import CompressionFacts.
Local Open Scope Z_scope.

Inductive ZoneMapCheckResult := ALWAYS_SCAN | SKIP_SCAN.

#[global] Instance ZoneMapCheckResult_eq_dec : EqDecision ZoneMapCheckResult.
Proof. solve_decision. Defined.

Inductive Comparison := EQUALS | NOT_EQUALS | GREATER_THAN | GREATER_THAN_EQUALS | LESS_THAN | LESS_THAN_EQUALS.

(** [StorageValueType] of the type that [TypeUtils::visit] calls with: internal IDs have
    no statistics. *)
Definition StorageValueType (physicalType : PhysicalTypeID) : bool := negb (bool_decide (physicalType = T_INTERNAL_ID)).

(** ** [ColumnChunkStats] *)

Record ColumnChunkStats := mkStats { stats_max : option StorageValue; stats_min : option StorageValue }.

Definition stats_update (s : ColumnChunkStats) (newMin newMax : option StorageValue) (dataType : PhysicalTypeID) : ColumnChunkStats :=
  let min := match stats_min s, newMin with
             | None, _ => newMin
             | Some m, Some n => if StorageValue_gt m n dataType then newMin else Some m
             | Some m, None => Some m
             end in
  let max := match stats_max s, newMax with
             | None, _ => newMax
             | Some m, Some n => if StorageValue_gt n m dataType then newMax else Some m
             | Some m, None => Some m
             end in
  mkStats max min.

Definition stats_update_value (s : ColumnChunkStats) (val : StorageValue) (dataType : PhysicalTypeID) : ColumnChunkStats :=
  let min := match stats_min s with None => Some val | Some m => if StorageValue_gt m val dataType then Some val else Some m end in
  let max := match stats_max s with None => Some val | Some m => if StorageValue_gt val m dataType then Some val else Some m end in
  mkStats max min.

(** Of values of an array. *)
Definition stats_update_data (s : ColumnChunkStats) (data : list Z) (offset numValues : Z) (nullMask : option NullMask.t) (physicalType : PhysicalTypeID)
  : outcome ColumnChunkStats :=
  if StorageValueType physicalType then
    '(minVal, maxVal) ← getMinMaxStorageValue data offset numValues nullMask;
    mret (stats_update s minVal maxVal physicalType)
  else mret s.

Definition stats_reset : ColumnChunkStats := mkStats None None.

Record MergedColumnChunkStats := mkMerged { stats : ColumnChunkStats; guaranteedNoNulls : bool; guaranteedAllNulls : bool }.

Definition merge (s o : MergedColumnChunkStats) (dataType : PhysicalTypeID) : MergedColumnChunkStats :=
  mkMerged (stats_update (stats s) (stats_min (stats o)) (stats_max (stats o)) dataType)
           (guaranteedNoNulls s && guaranteedNoNulls o) (guaranteedAllNulls s && guaranteedAllNulls o).

(** [ColumnChunkData::getMergedColumnChunkStats]; what the null data guarantees is given. *)
Definition getMergedColumnChunkStats (dataType : PhysicalTypeID) (inMemoryStats : ColumnChunkStats) (metadata : ColumnChunkMetadata)
    (haveNoNulls haveAllNulls : bool) : MergedColumnChunkStats :=
  let stats :=
    if StorageValueType dataType
    then stats_update inMemoryStats (Some (meta_min (compMeta metadata))) (Some (meta_max (compMeta metadata))) dataType else inMemoryStats in
  mkMerged stats haveNoNulls haveAllNulls.

(** [ColumnChunk::getMergedColumnChunkStats]: with those of the versions of its vectors
    that the transaction sees. *)
Definition ColumnChunk_getMergedColumnChunkStats (dataType : PhysicalTypeID) (baseStats : MergedColumnChunkStats) (vectors : list MergedColumnChunkStats)
  : MergedColumnChunkStats := fold_left (fun s o => merge s o dataType) vectors baseStats.

(** ** Predicates *)

Inductive ColumnPredicate :=
| ColumnConstantPredicate (expressionType : Comparison) (value : Z)
| ColumnNullPredicate (is_null : bool).

Definition inRange (min max val : Z) : bool := (min <=? val) && (val <=? max).

Definition checkZoneMapSwitch (t : int_type) (mergedStats : MergedColumnChunkStats) (expressionType : Comparison) (constant : Z) : ZoneMapCheckResult :=
  match stats_min (stats mergedStats), stats_max (stats mergedStats) with
  | Some min, Some max =>
      let max := StorageValue_get t max in
      let min := StorageValue_get t min in
      let skip := match expressionType with
                  | EQUALS => negb (inRange min max constant)
                  | NOT_EQUALS => (constant =? min) && (constant =? max)
                  | GREATER_THAN => max <=? constant
                  | GREATER_THAN_EQUALS => max <? constant
                  | LESS_THAN => constant <=? min
                  | LESS_THAN_EQUALS => constant <? min
                  end in
      if skip then SKIP_SCAN else ALWAYS_SCAN
  | _, _ => ALWAYS_SCAN
  end.

Definition predicate_checkZoneMap (dataType : PhysicalTypeID) (p : ColumnPredicate) (mergedStats : MergedColumnChunkStats) : ZoneMapCheckResult :=
  match p with
  | ColumnConstantPredicate expressionType value =>
      if StorageValueType dataType then checkZoneMapSwitch (visit dataType) mergedStats expressionType value else ALWAYS_SCAN
  | ColumnNullPredicate is_null =>
      let statToCheck := if is_null then guaranteedNoNulls mergedStats else guaranteedAllNulls mergedStats in
      if statToCheck then SKIP_SCAN else ALWAYS_SCAN
  end.

(** [ColumnPredicateSet::checkZoneMap]. *)
Fixpoint checkZoneMap (dataType : PhysicalTypeID) (predicates : list ColumnPredicate) (stats : MergedColumnChunkStats) : ZoneMapCheckResult :=
  match predicates with
  | [] => ALWAYS_SCAN
  | p :: predicates =>
      if bool_decide (predicate_checkZoneMap dataType p stats = SKIP_SCAN) then SKIP_SCAN else checkZoneMap dataType predicates stats
  end.

(** [getZoneMapResult]: the columns of a scan that have statistics. *)
Definition getZoneMapResult (columns : list (PhysicalTypeID * list ColumnPredicate * MergedColumnChunkStats)) : ZoneMapCheckResult :=
  if existsb (fun '(dataType, predicates, stats) => bool_decide (checkZoneMap dataType predicates stats = SKIP_SCAN)) columns then SKIP_SCAN else ALWAYS_SCAN.

(** ** What predicates mean *)

Definition compares (expressionType : Comparison) (v constant : Z) : bool :=
  match expressionType with
  | EQUALS => v =? constant
  | NOT_EQUALS => negb (v =? constant)
  | GREATER_THAN => constant <? v
  | GREATER_THAN_EQUALS => constant <=? v
  | LESS_THAN => v <? constant
  | LESS_THAN_EQUALS => v <=? constant
  end.

(** A row, without a value when it is null. *)
Definition satisfies (row : option Z) (p : ColumnPredicate) : bool :=
  match p, row with
  | ColumnConstantPredicate expressionType constant, Some v => compares expressionType v constant
  | ColumnConstantPredicate _ _, None => false
  | ColumnNullPredicate is_null, None => is_null
  | ColumnNullPredicate is_null, Some _ => negb is_null
  end.

(** ** Statistics that are right about a row *)

Definition bounded (dt : PhysicalTypeID) (s : ColumnChunkStats) (v : Z) : Prop :=
  exists a b, stats_min s = Some (StorageValue_of a) /\ stats_max s = Some (StorageValue_of b) /\
    MIN (visit dt) <= a /\ a <= v <= b /\ b <= MAX (visit dt).

Definition covers (dt : PhysicalTypeID) (s : MergedColumnChunkStats) (row : option Z) : Prop :=
  match row with
  | Some v => bounded dt (stats s) v /\ guaranteedAllNulls s = false
  | None => guaranteedNoNulls s = false
  end.
