(* ===== verification/ColumnPagesSpec.v ===== *)
(** What columns of integers promise: the rows that are flushed or updated in place are
    those that later scans return, and statistics that are right skip no row. *)
From S2P Require Import Prelude Serializer FreeSpaceManager NullMask Bitpacking BitpackingFacts BitpackingPages Compression ColumnPages.
From S2P Require Import CompressionFacts ColumnPagesFacts ColumnPagesUpdate ZoneMap.
Local Open Scope Z_scope.

(** ** Scans *)

(** The rows of an array: a null has no value. *)
Definition rows (data : list Z) (nullMask : option NullMask.t) (n : Z) (i : Z) : option Z :=
  if (0 <=? i) && (i <? n) then match isNull_at nullMask i with Ret false => data !! Z.to_nat i | _ => None end else None.

Section scans.
Context `{FastPForLaws} (dt : PhysicalTypeID).
Abbreviation t := (visit dt).

(** Scans into vectors return these rows, as far as they are known. *)
Definition scans_as (dataFH : file) (chunk : ColumnChunkMetadata) (f : Z -> option Z) : Prop :=
  exists state, initializeScanState dt chunk = Ret state /\
  forall lo n dst, 0 <= lo -> 0 <= n -> lo + n <= numValuesInChunk chunk -> n <= Z.of_nat (length dst) ->
  exists dst', scanInternal dataFH dt state lo n dst = Ret dst' /\ length dst' = length dst /\
    forall i v, lo <= i < lo + n -> f i = Some v -> dst' !! Z.to_nat (i - lo) = Some v.

Lemma scan_state dataFH chunk : chunk_ok dt dataFH chunk -> exists n, initializeScanState dt chunk = Ret (mkState chunk n).
Proof.
  intros [Hc|Hc]; unfold initializeScanState.
  - rewrite (Metadata_numValues_paged dt _ (chunk_paged _ _ _ Hc)). by eexists.
  - unfold Metadata_numValues. rewrite (constant_is _ _ Hc). by eexists.
Qed.

Lemma chunk_count dataFH chunk : chunk_ok dt dataFH chunk -> 0 <= numValuesInChunk chunk < 2 ^ 63.
Proof.
  intros [Hc|Hc]; [|pose proof (constant_count _ _ Hc); lia]. pose proof (chunk_room _ _ _ Hc). pose proof (chunk_range _ _ _ Hc). pose proof (chunk_file _ _ _ Hc).
  pose proof (per_page_range dt _ (chunk_paged _ _ _ Hc)) as [Hper _].
  assert (per_page dt (compMeta chunk) * numPages chunk <= 32768 * 2 ^ 32) by (apply Z.mul_le_mono_nonneg; lia). lia.
Qed.

(** [ReadCompressedValuesFromPageToVector] reads chunks. *)
Lemma vector_reads m : reads_chunks dt (ReadCompressedValuesFromPageToVector dt) (fun _ => True) m.
Proof.
  split.
  - intros Hpg page pos dst at_ n _ Hok Hpos Hn Hper Hat Hlen. destruct (read_page_vector dt m page pos dst at_ n) as (dst' & Hrun & Hrep); try done. by exists dst'.
  - intros E page pos dst at_ n. unfold ReadCompressedValuesFromPageToVector. by rewrite E.
Qed.

(** Into a column chunk of a type that is not [uint8_t]. *)
Lemma chunk_reads m : dt <> T_UINT8 -> reads_chunks dt (ReadCompressedValuesFromPage dt) (Forall (fun v => MIN t <= v <= MAX t)) m.
Proof.
  intros Hdt. split.
  - intros Hpg page pos dst at_ n Hty Hok Hpos Hn Hper Hat Hlen. destruct (read_page_vector dt m page pos dst at_ n) as (dst' & Hrun & Hrep); try done.
    exists dst'. rewrite read_page_chunk by done. split_and!; [done..|]. destruct Hrep as [Hl Hrep]. apply Forall_lookup. intros i v Hv. rewrite Hrep in Hv. case_match.
    + injection Hv as <-. unfold page_value, value_at. apply (decoded_in_type t). apply _.
    + by apply (proj1 (Forall_lookup _ _) Hty i v).
  - intros E page pos dst at_ n. unfold ReadCompressedValuesFromPage. by rewrite E.
Qed.

Lemma scanInternal_run dataFH chunk state lo n dst : chunk_ok dt dataFH chunk -> initializeScanState dt chunk = Ret state ->
  0 <= lo -> 0 <= n -> lo + n <= numValuesInChunk chunk -> n <= Z.of_nat (length dst) ->
  exists dst', scanInternal dataFH dt state lo n dst = Ret dst' /\ replaced dst dst' 0 n (fun i => chunk_value dt dataFH chunk (lo + i)).
Proof.
  intros Hok Hst Hlo Hn Hle Hlen. unfold scanInternal.
  destruct (readCompressedValues_run dt dataFH chunk state (ReadCompressedValuesFromPageToVector dt) (fun _ => True) dst 0 lo (lo + n)) as (dst' & -> & Hrep); try done; try lia.
  { apply vector_reads. }
  exists dst'. split; [done|]. replace (0 + (lo + n - lo)) with n in Hrep by lia. eapply replaced_ext; [|exact Hrep]. intros i _. cbn beta. f_equal. lia.
Qed.

(** The rows are those that are known of the chunk. *)
Lemma scans_agrees dataFH chunk f : chunk_ok dt dataFH chunk -> (forall i v, f i = Some v -> 0 <= i < numValuesInChunk chunk) ->
  scans_as dataFH chunk f <-> agrees dt dataFH chunk f.
Proof.
  intros Hok Hdom. split.
  - intros (state & Hst & Hscan) i v Hi Hv. specialize (Hdom i v Hv). destruct (Hscan i 1 [0]) as (dst' & Hrun & _ & Hd); [lia..|cbn; lia|].
    destruct (scanInternal_run dataFH chunk state i 1 [0] Hok Hst) as (dst2 & Hrun2 & _ & Hrep); [lia..|cbn; lia|]. rewrite Hrun in Hrun2. injection Hrun2 as <-.
    specialize (Hd i v ltac:(lia) Hv). specialize (Hrep 0%nat). rewrite Z.sub_diag in Hd. change (Z.to_nat 0) with 0%nat in Hd. rewrite Hd in Hrep.
    cbn in Hrep. injection Hrep as Hrep. rewrite Hrep. f_equal. lia.
  - intros Hag. destruct (scan_state dataFH chunk Hok) as [n0 Hst]. exists (mkState chunk n0). split; [done|]. intros lo n dst Hlo Hn Hle Hlen.
    destruct (scanInternal_run dataFH chunk _ lo n dst Hok Hst Hlo Hn Hle Hlen) as (dst' & -> & Hl & Hrep). exists dst'. split_and!; [done..|].
    intros i v Hi Hv. rewrite Hrep. rewrite (proj2 (Z.leb_le _ _)), (proj2 (Z.ltb_lt _ _)) by lia. cbn [andb]. f_equal.
    replace (lo + Z.of_nat (Z.to_nat (i - lo))) with i by lia. by apply Hag; [lia|].
Qed.
End scans.

(** ** Updates of a checkpoint *)

Section updates.
Context `{FastPForLaws} (dt : PhysicalTypeID).

Lemma after_domain f updates m endRow bound : Forall (update_ok dt m endRow) updates -> (forall i v, f i = Some v -> 0 <= i < bound) ->
  forall i v, after f updates i = Some v -> 0 <= i < fold_left (fun n c => Z.max n (startRow c + numRows c)) updates bound.
Proof.
  intros Hups. revert f bound. induction Hups as [|c updates Hup _ IH]; intros f bound Hf; [done|]. cbn [fold_left after].
  apply IH. intros i v Hv. destruct (update_rows _ _ _ _ Hup) as (Hs & Hn & _). unfold overwrite in Hv.
  destruct (Z.leb_spec (startRow c) i), (Z.ltb_spec i (startRow c + numRows c)); cbn [andb] in Hv; try (specialize (Hf i v Hv)); lia.
Qed.

End updates.

(** Updates without nulls. *)
Lemma plain_update_ok dt m endRow data start n : n = Z.of_nat (length data) -> 0 <= start -> 0 < n -> start + n <= endRow -> Forall (compressible (visit dt)) data ->
  update_ok dt m endRow (mkCheckpointState data None start n).
Proof.
  intros -> Hs Hn He Hv. split; cbn [chunkData chunkNulls startRow numRows]; [done|done|intros i Hi; exists false; by split|].
  intros i v _ _ Hi. pose proof (proj1 (Forall_lookup _ _) Hv _ _ Hi) as Hc. split; [apply Hc|done].
Qed.

(** Three values of a page of zeros, packed with eight bits after an offset of 100; then
    two updates of them, the second of a null. *)
Definition packed_example : ColumnChunkMetadata := mkChunkMetadata 0 1 3 (mkMetadata 100 300 INTEGER_BITPACKING).
Definition page_example : file := [replicate 4096 0].
Definition updates_example : list ChunkCheckpointState := [mkCheckpointState [250; 101] None 1 2; mkCheckpointState [300] None 3 1].
Definition rows_example (i : Z) : option Z := if (0 <=? i) && (i <? 3) then Some 100 else None.

Lemma page_example_ok : chunk_ok T_INT16 page_example packed_example.
Proof.
  left. split.
  - split; [by right|]. split; [by vm_compute|]. intros E. discriminate E.
  - intros _. split; try done; split; try done; intros _; done.
  - by vm_compute.
  - by vm_compute.
  - intros k Hk. cbn in Hk. assert (k = 0) as -> by lia. split; [apply Forall_replicate; lia|done].
  - by vm_compute.
Qed.

#[local] Existing Instances one_by_one one_by_one_laws.


(** ** Flushes *)

Section flushes.
Context `{FastPForLaws} (dt : PhysicalTypeID).
Abbreviation t := (visit dt).

Lemma rows_some data nullMask n i v : rows data nullMask n i = Some v -> 0 <= i < n /\ isNull_at nullMask i = Ret false /\ data !! Z.to_nat i = Some v.
Proof.
  unfold rows. destruct (Z.leb_spec 0 i), (Z.ltb_spec i n); cbn [andb]; try done.
  destruct (isNull_at nullMask i) as [[]| |]; done.
Qed.

End flushes.


(** ** Scans into column chunks *)

Section column_scan.
Context `{FastPForLaws} (dt : PhysicalTypeID).
Abbreviation t := (visit dt).

(** A scan into a column chunk clamps its range to the values of the chunk and returns
    what a scan of that range into a vector does, for every type but [uint8_t] (which is
    unpacked as another type, see below). *)
Theorem scan_reads_chunk dataFH chunk state columnChunk startOffset endOffset : dt <> T_UINT8 -> chunk_ok dt dataFH chunk ->
  initializeScanState dt chunk = Ret state -> 0 <= startOffset <= endOffset -> startOffset <= numValuesInChunk chunk ->
  Forall (fun v => MIN t <= v <= MAX t) columnChunk -> endOffset - startOffset <= Z.of_nat (length columnChunk) ->
  let n := Z.min endOffset (numValuesInChunk chunk) - startOffset in
  exists dst, scan dataFH dt state columnChunk startOffset endOffset = Ret dst /\
    scanInternal dataFH dt state startOffset n columnChunk = Ret dst /\ length dst = length columnChunk /\
    forall i, 0 <= i < n -> dst !! Z.to_nat i = Some (chunk_value dt dataFH chunk (startOffset + i)).
Proof.
  intros Hdt Hok Hst Hr Hle Hty Hlen n. destruct (scan_state dt dataFH chunk Hok) as [k Hst']. rewrite Hst' in Hst. injection Hst as <-.
  destruct (scanInternal_run dt dataFH chunk _ startOffset n columnChunk Hok Hst') as (dst & Hrun & Hrep); [lia..|]. unfold scan. cbn [metadata].
  rewrite (Z.min_l startOffset) by lia. rewrite (proj2 (Z.leb_le startOffset _)) by lia. cbn [ku_assert mbind outcome_bind]. fold n. rewrite (proj2 (Z.ltb_ge _ n)) by lia.
  destruct (readCompressedValues_run dt dataFH chunk (mkState chunk k) (ReadCompressedValuesFromPage dt) (Forall (fun v => MIN t <= v <= MAX t))
    columnChunk 0 startOffset (Z.min endOffset (numValuesInChunk chunk))) as (dst2 & Hrun2 & Hrep2); try done; try lia.
  { by apply chunk_reads. }
  assert (dst2 = dst) as ->.
  { apply list_eq. intros i. destruct Hrep as [_ Hrep], Hrep2 as [_ Hrep2]. rewrite Hrep, Hrep2. fold n. replace (0 + n) with n by lia.
    case_match; [|done]. cbn beta. do 2 f_equal. lia. }
  exists dst. split_and!; [done|done|apply Hrep|]. intros i Hi. destruct Hrep as [_ Hrep]. rewrite Hrep.
  rewrite (proj2 (Z.leb_le _ _)), (proj2 (Z.ltb_lt _ _)) by lia. cbn [andb]. do 2 f_equal. lia.
Qed.
End column_scan.

Lemma scan_reads_chunk_witness :
  exists dst, scan page_example T_INT16 (mkState packed_example 4096) [0; 0; 0; 0] 1 5 = Ret dst /\
    forall i, 0 <= i < 2 -> dst !! Z.to_nat i = Some (chunk_value T_INT16 page_example packed_example (1 + i)).
Proof.
  destruct (scan_reads_chunk T_INT16 page_example packed_example (mkState packed_example 4096) [0; 0; 0; 0] 1 5) as (dst & Hrun & _ & _ & Hd); try done.
  - apply page_example_ok.
  - repeat apply List.Forall_cons; done || apply List.Forall_nil.
  - exists dst. split; assumption.
Defined.

(** ** Values that are lost *)

(** A round trip of values through the flush of a chunk and scans of it. *)
Definition through_column (dt : PhysicalTypeID) (data : list Z) : outcome (list Z * list Z) :=
  let n := Z.of_nat (length data) in
  chunk ← getMetadataToFlush true dt data n n None;
  '(dataFH, chunk) ← flushBuffer true dt data n (replicate (Z.to_nat (numPages chunk)) []) 0 (numPages chunk) chunk;
  state ← initializeScanState dt chunk;
  vector ← scanInternal dataFH dt state 0 n (replicate (length data) 0);
  columnChunk ← scan dataFH dt state (replicate (length data) 0) 0 n;
  mret (vector, columnChunk).

(** The least value of a signed type is lost: its absolute value is itself, so the
    width is that of the largest value, and it reads back as zero. *)
Theorem least_value_lost :
  forallb (fun dt => bool_decide (through_column dt [MIN (visit dt); 1] = Ret ([0; 1], [0; 1]))) [T_INT8; T_INT16; T_INT32; T_INT64] = true.
Proof. by vm_compute. Qed.

(** A scan of a bit-packed column of [uint8_t] into a column chunk (as a checkpoint
    does that rewrites it) subtracts the wrong offset when the minimum is above 127: it
    unpacks with the packing of [int8_t]; a scan into a vector is right. *)
Theorem uint8_column_chunk_misread :
  through_column T_UINT8 [100; 200] = Ret ([100; 200], [0; 100]).
Proof. by vm_compute. Qed.
