(* ===== verification/ZoneMapSpec.v ===== *)
(** What the statistics of a column promise to a scan: predicates that are tested on them
    skip no row, as long as they bound the values; and where an update in place breaks
    that. *)
From S2P Require Import Prelude Serializer FreeSpaceManager NullMask Bitpacking BitpackingFacts BitpackingPages Compression ColumnPages.
From S2P Require Import CompressionFacts ColumnPagesUpdate ZoneMap.
Local Open Scope Z_scope.

Section stats.
Context (dt : PhysicalTypeID).
Abbreviation t := (visit dt).

(** Statistics of no value, or of values of the type. *)
Inductive canonical : ColumnChunkStats -> Prop :=
| canonical_empty : canonical (mkStats None None)
| canonical_bounds a b : MIN t <= a -> a <= b -> b <= MAX t -> canonical (mkStats (Some (StorageValue_of b)) (Some (StorageValue_of a))).

Lemma bounded_iff a b v : MIN t <= a -> a <= b -> b <= MAX t -> bounded dt (mkStats (Some (StorageValue_of b)) (Some (StorageValue_of a))) v <-> a <= v <= b.
Proof.
  intros Ha Hab Hb. split; [|intros Hv; exists a, b; split_and!; done || lia].
  intros (a' & b' & E1 & E2 & Ha' & Hv & Hb'). cbn in E1, E2. injection E1 as E1. injection E2 as E2.
  assert (a = a') as -> by (rewrite <-(StorageValue_get_of t a), <-(StorageValue_get_of t a') by lia; by rewrite E1).
  assert (b = b') as -> by (rewrite <-(StorageValue_get_of t b), <-(StorageValue_get_of t b') by lia; by rewrite E2). done.
Qed.

(** An update widens the bounds as far as needed. *)
Lemma stats_update_of a b a' b' : MIN t <= a -> a <= b -> b <= MAX t -> MIN t <= a' -> a' <= b' -> b' <= MAX t ->
  stats_update (mkStats (Some (StorageValue_of b)) (Some (StorageValue_of a))) (Some (StorageValue_of a')) (Some (StorageValue_of b')) dt =
  mkStats (Some (StorageValue_of (Z.max b b'))) (Some (StorageValue_of (Z.min a a'))).
Proof.
  intros Ha Hab Hb Ha' Hab' Hb'. unfold stats_update. cbn [stats_min stats_max]. rewrite !StorageValue_gt_of by lia.
  destruct (Z.ltb_spec b b'), (Z.ltb_spec a' a); rewrite ?(Z.max_r b b'), ?(Z.max_l b b'), ?(Z.min_r a a'), ?(Z.min_l a a') by lia; done.
Qed.

Lemma stats_update_bounds s o : canonical s -> canonical o ->
  let u := stats_update s (stats_min o) (stats_max o) dt in canonical u /\ forall v, bounded dt s v \/ bounded dt o v -> bounded dt u v.
Proof.
  assert (Hnone : forall v, ~ bounded dt (mkStats None None) v) by (intros v (? & ? & ? & _); done).
  intros [|a b Ha Hab Hb] [|a' b' Ha' Hab' Hb'] u.
  1-3: (split; [by constructor|]); intros v [Hv|Hv]; done || by apply Hnone in Hv.
  assert (u = mkStats (Some (StorageValue_of (Z.max b b'))) (Some (StorageValue_of (Z.min a a')))) as -> by by apply stats_update_of.
  split; [constructor; lia|]. intros v. rewrite !bounded_iff by lia. lia.
Qed.

(** The statistics of an array. *)
Lemma stats_update_data_bounds s data offset n nullMask : StorageValueType dt = true -> canonical s -> mask_ok nullMask (offset + n) -> 0 <= offset -> 0 < n ->
  offset + n <= Z.of_nat (length data) -> non_null nullMask data offset n (fun v => MIN t <= v <= MAX t) ->
  exists s', stats_update_data s data offset n nullMask dt = Ret s' /\ canonical s' /\ (forall v, bounded dt s v -> bounded dt s' v) /\
    non_null nullMask data offset n (bounded dt s').
Proof.
  intros Htype Hs Hmask Ho Hn Hlen Hty. unfold stats_update_data. rewrite Htype.
  destruct (getMinMaxStorageValue_run nullMask data offset n (fun v => MIN t <= v <= MAX t)) as (mn & mx & -> & Hsome & Hmn & Hmx & Hle & Hall); try done.
  cbn [mbind outcome_bind]. eexists. split; [done|].
  assert (Hc : canonical (mkStats (StorageValue_of <$> mx) (StorageValue_of <$> mn))).
  { destruct mn as [a|], mx as [b|]; [|by destruct (proj1 Hsome (mk_is_Some _ a eq_refl))|by destruct (proj2 Hsome (mk_is_Some _ b eq_refl))|constructor].
    destruct (Hmn a eq_refl), (Hmx b eq_refl). constructor; auto. }
  destruct (stats_update_bounds s _ Hs Hc) as [Hc' Hb]. cbn [stats_min stats_max] in Hc', Hb. split_and!; [done|auto|].
  intros i v Hi Hnn Hv. apply Hb. right. destruct (Hall i v Hi Hnn Hv) as (a & b & -> & -> & Hr). specialize (Hmn a eq_refl). specialize (Hmx b eq_refl). cbn beta in *.
  apply bounded_iff; lia.
Qed.

Lemma merge_covers s o : canonical (stats s) -> canonical (stats o) ->
  canonical (stats (merge s o dt)) /\ forall row, covers dt s row \/ covers dt o row -> covers dt (merge s o dt) row.
Proof.
  intros Hs Ho. destruct (stats_update_bounds _ _ Hs Ho) as [Hc Hb]. split; [done|]. unfold covers. intros [v|] Hrow; cbn [merge stats guaranteedAllNulls guaranteedNoNulls].
  - destruct Hrow as [[Hv Hg]|[Hv Hg]]; rewrite Hg; (split; [by apply Hb; auto|by rewrite ?andb_false_r]).
  - destruct Hrow as [->| ->]; by rewrite ?andb_false_r.
Qed.

Lemma merged_covers base vectors : canonical (stats base) -> Forall (fun s => canonical (stats s)) vectors ->
  forall row, covers dt base row \/ Exists (fun s => covers dt s row) vectors -> covers dt (ColumnChunk_getMergedColumnChunkStats dt base vectors) row.
Proof.
  intros Hb Hv. revert base Hb. unfold ColumnChunk_getMergedColumnChunkStats. induction Hv as [|s vectors Hs _ IH]; intros base Hb row Hrow; cbn [fold_left].
  - destruct Hrow as [Hrow|Hrow]; [done|by inversion Hrow].
  - destruct (merge_covers base s Hb Hs) as [Hc Hm]. apply IH; [done|]. destruct Hrow as [Hrow|Hrow]; [auto|]. inversion Hrow; subst; auto.
Qed.

(** A predicate that skips is false of the rows that the statistics cover. *)
Lemma predicate_skip p s row : covers dt s row -> predicate_checkZoneMap dt p s = SKIP_SCAN -> satisfies row p = false.
Proof.
  intros Hcov Hskip. destruct p as [c constant|null], row as [v|]; cbn in *; try done.
  - destruct (StorageValueType dt); [|done]. destruct Hcov as [(a & b & Emin & Emax & Ha & Hv & Hb) _]. unfold checkZoneMapSwitch in Hskip. rewrite Emin, Emax in Hskip.
    rewrite !(StorageValue_get_of t) in Hskip by lia. unfold inRange in Hskip. destruct c; cbn; case_match eqn:E; try discriminate Hskip; lia.
  - destruct Hcov as [_ Hg]. destruct null; [done|]. by rewrite Hg in Hskip.
  - destruct null; [|done]. by rewrite Hcov in Hskip.
Qed.

(** C18. A scan that the zone map skips would have returned nothing: when the statistics of
    a column chunk and of the versions of its vectors bound the values (and promise no
    rows without nulls, or of nulls alone, that are not so), then for every row that one
    of them covers a predicate of the set is false, for all comparisons with a constant
    and both tests for null. *)
Theorem skip_scan_sound base vectors predicates row : canonical (stats base) -> Forall (fun s => canonical (stats s)) vectors ->
  covers dt base row \/ Exists (fun s => covers dt s row) vectors ->
  checkZoneMap dt predicates (ColumnChunk_getMergedColumnChunkStats dt base vectors) = SKIP_SCAN ->
  Exists (fun p => satisfies row p = false) predicates.
Proof.
  intros Hb Hv Hrow. pose proof (merged_covers base vectors Hb Hv row Hrow) as Hcov. clear Hrow.
  induction predicates as [|p predicates IH]; intros Hskip; cbn [checkZoneMap] in Hskip; [done|].
  case_bool_decide as E; [|right; by apply IH]. left. by eapply predicate_skip.
Qed.
End stats.

(** The row 7 is in a vector that was updated; nothing is below 5. *)
Lemma skip_scan_sound_witness :
  Exists (fun p => satisfies (Some 7) p = false) [ColumnNullPredicate false; ColumnConstantPredicate LESS_THAN 5].
Proof.
  apply (skip_scan_sound T_INT32 (mkMerged (mkStats (Some 20) (Some 10)) true false) [mkMerged (mkStats (Some 7) (Some 5)) true false]).
  - by apply (canonical_bounds T_INT32 10 20).
  - constructor; [by apply (canonical_bounds T_INT32 5 7)|constructor].
  - right. left. split; [|done]. by exists 5, 7.
  - by vm_compute.
Defined.

(** ** Statistics that an update leaves behind *)

#[local] Existing Instances one_by_one one_by_one_laws.

(** Rows from -300 to 300, on a page of ten bits a value; an update of two of them. *)
Definition chunk_before : ColumnChunkMetadata := mkChunkMetadata 0 1 2 (mkMetadata (StorageValue_of (-300)) 300 INTEGER_BITPACKING).
Definition both_sides : ChunkCheckpointState := mkCheckpointState [-310; 310] None 0 2.

(** An update in place with values beyond both bounds moves the maximum and leaves the
    minimum: the checkpoint accepts it, the first row reads back as -310, and the zone
    map of the new statistics skips the chunk for [v < -305], which that row satisfies. *)
Theorem stale_minimum_skips_row :
  (inPlace ← canCheckpointInPlace T_INT16 chunk_before (mkState chunk_before 3276) 2 [both_sides];
   '(dataFH, chunk) ← checkpointColumnChunkInPlace [replicate 4096 0] T_INT16 chunk_before (mkState chunk_before 3276) [both_sides];
   row ← scanInternal dataFH T_INT16 (mkState chunk 3276) 0 1 [0];
   let predicate := ColumnConstantPredicate LESS_THAN (-305) in
   mret (inPlace, row, satisfies (head row) predicate, checkZoneMap T_INT16 [predicate] (getMergedColumnChunkStats T_INT16 stats_reset chunk true false)))
  = Ret (true, [-310], true, SKIP_SCAN).
Proof. by vm_compute. Qed.
