(* ===== verification/Date.v ===== *)
(** Dates ([common/types/date_t.cpp]): a [date_t] is the number of days since 1970-01-01,
    an [int32_t]; years, months and days come from tables of the 400 years after 1970, by
    which longer spans are shifted. Signed arithmetic of C++ has no meaning when it
    overflows: it is [Undef] wherever a date of the type can make it. An interval
    ([interval_t.h]) has months, days and microseconds. *)
From S2P Require Import Prelude.
Local Open Scope Z_scope.

(** A value computed as [int32_t] or [int64_t]. *)
Definition int32 (z : Z) : outcome Z := if (- 2 ^ 31 <=? z) && (z <? 2 ^ 31) then Ret z else Undef.
Definition int64 (z : Z) : outcome Z := if (- 2 ^ 63 <=? z) && (z <? 2 ^ 63) then Ret z else Undef.
(** [int32_t(z)]. *)
Definition cast_int32 (z : Z) : Z := (z + 2 ^ 31) mod 2 ^ 32 - 2 ^ 31.

(** [a[i]] for a signed index. *)
Definition at_index {A} (a : list A) (i : Z) : outcome A := if i <? 0 then Undef else load a (Z.to_nat i).

(** ** [interval_t.h] *)

Inductive DatePartSpecifier :=
| YEAR | MONTH | DAY | DECADE | CENTURY | MILLENNIUM | QUARTER | MICROSECOND | MILLISECOND | SECOND | MINUTE | HOUR | WEEK.

Record interval_t := Interval { months : Z; days : Z; micros : Z }.

Definition MONTHS_PER_YEAR : Z := 12.
Definition MONTHS_PER_QUARTER : Z := 3.
Definition MICROS_PER_MSEC : Z := 1000.
Definition MICROS_PER_SEC : Z := MICROS_PER_MSEC * 1000.
Definition MICROS_PER_MINUTE : Z := MICROS_PER_SEC * 60.
Definition MICROS_PER_HOUR : Z := MICROS_PER_MINUTE * 60.
Definition MICROS_PER_DAY : Z := MICROS_PER_HOUR * 24.

(** ** Constants and tables of [Date] *)

Definition MIN_YEAR : Z := -290307.
Definition MAX_YEAR : Z := 294247.
Definition EPOCH_YEAR : Z := 1970.
Definition YEAR_INTERVAL : Z := 400.
Definition DAYS_PER_YEAR_INTERVAL : Z := 146097.

Definition NORMAL_DAYS : list Z :=
  [0; 31; 28; 31; 30; 31; 30; 31; 31; 30; 31; 30; 31].
Definition LEAP_DAYS : list Z :=
  [0; 31; 29; 31; 30; 31; 30; 31; 31; 30; 31; 30; 31].
Definition CUMULATIVE_LEAP_DAYS : list Z :=
  [0; 31; 60; 91; 121; 152; 182; 213; 244; 274; 305; 335; 366].
Definition CUMULATIVE_DAYS : list Z :=
  [0; 31; 59; 90; 120; 151; 181; 212; 243; 273; 304; 334; 365].
Definition MONTH_PER_DAY_OF_YEAR : list Z :=
  [1; 1; 1; 1; 1; 1; 1; 1; 1; 1; 1; 1; 1; 1; 1; 1; 1; 1; 1; 1; 1; 1; 1; 1; 1; 1; 1; 1; 1; 1; 1; 2; 2; 2; 2; 2; 2; 2;
   2; 2; 2; 2; 2; 2; 2; 2; 2; 2; 2; 2; 2; 2; 2; 2; 2; 2; 2; 2; 2; 3; 3; 3; 3; 3; 3; 3; 3; 3; 3; 3; 3; 3; 3; 3; 3; 3;
   3; 3; 3; 3; 3; 3; 3; 3; 3; 3; 3; 3; 3; 3; 4; 4; 4; 4; 4; 4; 4; 4; 4; 4; 4; 4; 4; 4; 4; 4; 4; 4; 4; 4; 4; 4; 4; 4;
   4; 4; 4; 4; 4; 4; 5; 5; 5; 5; 5; 5; 5; 5; 5; 5; 5; 5; 5; 5; 5; 5; 5; 5; 5; 5; 5; 5; 5; 5; 5; 5; 5; 5; 5; 5; 5; 6;
   6; 6; 6; 6; 6; 6; 6; 6; 6; 6; 6; 6; 6; 6; 6; 6; 6; 6; 6; 6; 6; 6; 6; 6; 6; 6; 6; 6; 6; 7; 7; 7; 7; 7; 7; 7; 7; 7;
   7; 7; 7; 7; 7; 7; 7; 7; 7; 7; 7; 7; 7; 7; 7; 7; 7; 7; 7; 7; 7; 7; 8; 8; 8; 8; 8; 8; 8; 8; 8; 8; 8; 8; 8; 8; 8; 8;
   8; 8; 8; 8; 8; 8; 8; 8; 8; 8; 8; 8; 8; 8; 8; 9; 9; 9; 9; 9; 9; 9; 9; 9; 9; 9; 9; 9; 9; 9; 9; 9; 9; 9; 9; 9; 9; 9;
   9; 9; 9; 9; 9; 9; 9; 10; 10; 10; 10; 10; 10; 10; 10; 10; 10; 10; 10; 10; 10; 10; 10; 10; 10; 10; 10; 10; 10; 10;
   10; 10; 10; 10; 10; 10; 10; 10; 11; 11; 11; 11; 11; 11; 11; 11; 11; 11; 11; 11; 11; 11; 11; 11; 11; 11; 11; 11; 11;
   11; 11; 11; 11; 11; 11; 11; 11; 11; 12; 12; 12; 12; 12; 12; 12; 12; 12; 12; 12; 12; 12; 12; 12; 12; 12; 12; 12; 12;
   12; 12; 12; 12; 12; 12; 12; 12; 12; 12; 12].
Definition LEAP_MONTH_PER_DAY_OF_YEAR : list Z :=
  [1; 1; 1; 1; 1; 1; 1; 1; 1; 1; 1; 1; 1; 1; 1; 1; 1; 1; 1; 1; 1; 1; 1; 1; 1; 1; 1; 1; 1; 1; 1; 2; 2; 2; 2; 2; 2; 2;
   2; 2; 2; 2; 2; 2; 2; 2; 2; 2; 2; 2; 2; 2; 2; 2; 2; 2; 2; 2; 2; 2; 3; 3; 3; 3; 3; 3; 3; 3; 3; 3; 3; 3; 3; 3; 3; 3;
   3; 3; 3; 3; 3; 3; 3; 3; 3; 3; 3; 3; 3; 3; 3; 4; 4; 4; 4; 4; 4; 4; 4; 4; 4; 4; 4; 4; 4; 4; 4; 4; 4; 4; 4; 4; 4; 4;
   4; 4; 4; 4; 4; 4; 4; 5; 5; 5; 5; 5; 5; 5; 5; 5; 5; 5; 5; 5; 5; 5; 5; 5; 5; 5; 5; 5; 5; 5; 5; 5; 5; 5; 5; 5; 5; 5;
   6; 6; 6; 6; 6; 6; 6; 6; 6; 6; 6; 6; 6; 6; 6; 6; 6; 6; 6; 6; 6; 6; 6; 6; 6; 6; 6; 6; 6; 6; 7; 7; 7; 7; 7; 7; 7; 7;
   7; 7; 7; 7; 7; 7; 7; 7; 7; 7; 7; 7; 7; 7; 7; 7; 7; 7; 7; 7; 7; 7; 7; 8; 8; 8; 8; 8; 8; 8; 8; 8; 8; 8; 8; 8; 8; 8;
   8; 8; 8; 8; 8; 8; 8; 8; 8; 8; 8; 8; 8; 8; 8; 8; 9; 9; 9; 9; 9; 9; 9; 9; 9; 9; 9; 9; 9; 9; 9; 9; 9; 9; 9; 9; 9; 9;
   9; 9; 9; 9; 9; 9; 9; 9; 10; 10; 10; 10; 10; 10; 10; 10; 10; 10; 10; 10; 10; 10; 10; 10; 10; 10; 10; 10; 10; 10; 10;
   10; 10; 10; 10; 10; 10; 10; 10; 11; 11; 11; 11; 11; 11; 11; 11; 11; 11; 11; 11; 11; 11; 11; 11; 11; 11; 11; 11; 11;
   11; 11; 11; 11; 11; 11; 11; 11; 11; 12; 12; 12; 12; 12; 12; 12; 12; 12; 12; 12; 12; 12; 12; 12; 12; 12; 12; 12; 12;
   12; 12; 12; 12; 12; 12; 12; 12; 12; 12; 12].
Definition CUMULATIVE_YEAR_DAYS : list Z :=
  [0; 365; 730; 1096; 1461; 1826; 2191; 2557; 2922; 3287; 3652; 4018; 4383; 4748; 5113; 5479; 5844; 6209; 6574; 6940;
   7305; 7670; 8035; 8401; 8766; 9131; 9496; 9862; 10227; 10592; 10957; 11323; 11688; 12053; 12418; 12784; 13149;
   13514; 13879; 14245; 14610; 14975; 15340; 15706; 16071; 16436; 16801; 17167; 17532; 17897; 18262; 18628; 18993;
   19358; 19723; 20089; 20454; 20819; 21184; 21550; 21915; 22280; 22645; 23011; 23376; 23741; 24106; 24472; 24837;
   25202; 25567; 25933; 26298; 26663; 27028; 27394; 27759; 28124; 28489; 28855; 29220; 29585; 29950; 30316; 30681;
   31046; 31411; 31777; 32142; 32507; 32872; 33238; 33603; 33968; 34333; 34699; 35064; 35429; 35794; 36160; 36525;
   36890; 37255; 37621; 37986; 38351; 38716; 39082; 39447; 39812; 40177; 40543; 40908; 41273; 41638; 42004; 42369;
   42734; 43099; 43465; 43830; 44195; 44560; 44926; 45291; 45656; 46021; 46387; 46752; 47117; 47482; 47847; 48212;
   48577; 48942; 49308; 49673; 50038; 50403; 50769; 51134; 51499; 51864; 52230; 52595; 52960; 53325; 53691; 54056;
   54421; 54786; 55152; 55517; 55882; 56247; 56613; 56978; 57343; 57708; 58074; 58439; 58804; 59169; 59535; 59900;
   60265; 60630; 60996; 61361; 61726; 62091; 62457; 62822; 63187; 63552; 63918; 64283; 64648; 65013; 65379; 65744;
   66109; 66474; 66840; 67205; 67570; 67935; 68301; 68666; 69031; 69396; 69762; 70127; 70492; 70857; 71223; 71588;
   71953; 72318; 72684; 73049; 73414; 73779; 74145; 74510; 74875; 75240; 75606; 75971; 76336; 76701; 77067; 77432;
   77797; 78162; 78528; 78893; 79258; 79623; 79989; 80354; 80719; 81084; 81450; 81815; 82180; 82545; 82911; 83276;
   83641; 84006; 84371; 84736; 85101; 85466; 85832; 86197; 86562; 86927; 87293; 87658; 88023; 88388; 88754; 89119;
   89484; 89849; 90215; 90580; 90945; 91310; 91676; 92041; 92406; 92771; 93137; 93502; 93867; 94232; 94598; 94963;
   95328; 95693; 96059; 96424; 96789; 97154; 97520; 97885; 98250; 98615; 98981; 99346; 99711; 100076; 100442; 100807;
   101172; 101537; 101903; 102268; 102633; 102998; 103364; 103729; 104094; 104459; 104825; 105190; 105555; 105920;
   106286; 106651; 107016; 107381; 107747; 108112; 108477; 108842; 109208; 109573; 109938; 110303; 110669; 111034;
   111399; 111764; 112130; 112495; 112860; 113225; 113591; 113956; 114321; 114686; 115052; 115417; 115782; 116147;
   116513; 116878; 117243; 117608; 117974; 118339; 118704; 119069; 119435; 119800; 120165; 120530; 120895; 121260;
   121625; 121990; 122356; 122721; 123086; 123451; 123817; 124182; 124547; 124912; 125278; 125643; 126008; 126373;
   126739; 127104; 127469; 127834; 128200; 128565; 128930; 129295; 129661; 130026; 130391; 130756; 131122; 131487;
   131852; 132217; 132583; 132948; 133313; 133678; 134044; 134409; 134774; 135139; 135505; 135870; 136235; 136600;
   136966; 137331; 137696; 138061; 138427; 138792; 139157; 139522; 139888; 140253; 140618; 140983; 141349; 141714;
   142079; 142444; 142810; 143175; 143540; 143905; 144271; 144636; 145001; 145366; 145732; 146097].

(** ** Years, months and days *)

Definition isLeapYear (year : Z) : bool :=
  (Z.rem year 4 =? 0) && (negb (Z.rem year 100 =? 0) || (Z.rem year 400 =? 0)).

Definition isValid (year month day : Z) : bool :=
  if (month <? 1) || (12 <? month) then false
  else if (year <? MIN_YEAR) || (MAX_YEAR <? year) then false
  else if day <? 1 then false
  else if isLeapYear year then day <=? nth (Z.to_nat month) LEAP_DAYS 0 else day <=? nth (Z.to_nat month) NORMAL_DAYS 0.

(** The two loops that shift a number of days into the years of the table, which end
    after [fuel] rounds at most. *)
Fixpoint shift_days_up (fuel : nat) (n year : Z) : outcome (Z * Z) :=
  match fuel with
  | O => Undef
  | S fuel' => if n <? 0 then shift_days_up fuel' (n + DAYS_PER_YEAR_INTERVAL) (year - YEAR_INTERVAL) else Ret (n, year)
  end.
Fixpoint shift_days_down (fuel : nat) (n year : Z) : outcome (Z * Z) :=
  match fuel with
  | O => Undef
  | S fuel' => if DAYS_PER_YEAR_INTERVAL <=? n then shift_days_down fuel' (n - DAYS_PER_YEAR_INTERVAL) (year + YEAR_INTERVAL) else Ret (n, year)
  end.
(** The search downwards from an upper bound of the year. *)
Fixpoint search_year (fuel : nat) (n year_offset : Z) : outcome Z :=
  match fuel with
  | O => Undef
  | S fuel' => first_day ← at_index CUMULATIVE_YEAR_DAYS year_offset;
      if n <? first_day then _ ← ku_assert (0 <=? year_offset - 1); search_year fuel' n (year_offset - 1) else Ret year_offset
  end.
Definition shift_fuel (n interval : Z) : nat := S (Z.to_nat (Z.abs n / interval + 1)).

(** [Date::extractYearOffset]: the days within the interval, the year and its offset. *)
Definition extractYearOffset (n : Z) : outcome (Z * Z * Z) :=
  '(n, year) ← shift_days_up (shift_fuel n DAYS_PER_YEAR_INTERVAL) n EPOCH_YEAR;
  '(n, year) ← shift_days_down (shift_fuel n DAYS_PER_YEAR_INTERVAL) n year;
  year_offset ← search_year (S (Z.to_nat (Z.quot n 365))) n (Z.quot n 365);
  first_day ← at_index CUMULATIVE_YEAR_DAYS year_offset;
  _ ← ku_assert (first_day <=? n);
  Ret (n, year + year_offset, year_offset).

Definition convert (date : Z) : outcome (Z * Z * Z) :=
  '(n, out_year, year_offset) ← extractYearOffset date;
  first_day ← at_index CUMULATIVE_YEAR_DAYS year_offset;
  let out_day := n - first_day in
  _ ← ku_assert ((0 <=? out_day) && (out_day <=? 365));
  next_year ← at_index CUMULATIVE_YEAR_DAYS (year_offset + 1);
  let is_leap_year := next_year - first_day =? 366 in
  out_month ← at_index (if is_leap_year then LEAP_MONTH_PER_DAY_OF_YEAR else MONTH_PER_DAY_OF_YEAR) out_day;
  before ← at_index (if is_leap_year then CUMULATIVE_LEAP_DAYS else CUMULATIVE_DAYS) (out_month - 1);
  let out_day := out_day - before + 1 in
  month_days ← at_index (if is_leap_year then LEAP_DAYS else NORMAL_DAYS) out_month;
  _ ← ku_assert ((0 <? out_day) && (out_day <=? month_days));
  _ ← ku_assert ((0 <? out_month) && (out_month <=? 12));
  _ ← ku_assert (isValid out_year out_month out_day);
  Ret (out_year, out_month, out_day).

Fixpoint shift_year_up (fuel : nat) (year n : Z) : outcome (Z * Z) :=
  match fuel with
  | O => Undef
  | S fuel' => if year <? 1970 then shift_year_up fuel' (year + YEAR_INTERVAL) (n - DAYS_PER_YEAR_INTERVAL) else Ret (year, n)
  end.
Fixpoint shift_year_down (fuel : nat) (year n : Z) : outcome (Z * Z) :=
  match fuel with
  | O => Undef
  | S fuel' => if 2370 <=? year then shift_year_down fuel' (year - YEAR_INTERVAL) (n + DAYS_PER_YEAR_INTERVAL) else Ret (year, n)
  end.

Definition fromDate (year month day : Z) : outcome Z :=
  if negb (isValid year month day) then Throw (ConversionException "Date out of range: {}-{}-{}.")
  else
    '(year, n) ← shift_year_up (shift_fuel (year - 1970) YEAR_INTERVAL) year 0;
    '(year, n) ← shift_year_down (shift_fuel (year - 1970) YEAR_INTERVAL) year n;
    year_days ← at_index CUMULATIVE_YEAR_DAYS (year - 1970);
    before ← at_index (if isLeapYear year then CUMULATIVE_LEAP_DAYS else CUMULATIVE_DAYS) (month - 1);
    Ret (n + year_days + before + (day - 1)).

Definition monthDays (year month : Z) : outcome Z :=
  _ ← ku_assert ((1 <=? month) && (month <=? 12));
  at_index (if isLeapYear year then LEAP_DAYS else NORMAL_DAYS) month.

(** ** Operators *)

(** [date_t::operator+(const interval_t&)]. *)
Definition add_interval (date : Z) (interval : interval_t) : outcome Z :=
  result ← (if negb (months interval =? 0) then
    '(year, month, day) ← convert date;
    let year_diff := Z.quot (months interval) MONTHS_PER_YEAR in
    let year := year + year_diff in
    let month := month + (months interval - year_diff * MONTHS_PER_YEAR) in
    let '(year, month) :=
      if MONTHS_PER_YEAR <? month then (year + 1, month - MONTHS_PER_YEAR)
      else if month <=? 0 then (year - 1, month + MONTHS_PER_YEAR)
      else (year, month) in
    maxDayInMonth ← monthDays year month;
    let day := if maxDayInMonth <? day then maxDayInMonth else day in
    fromDate year month day
  else Ret date);
  result ← (if negb (days interval =? 0) then int32 (result + days interval) else Ret result);
  if negb (micros interval =? 0) then int32 (result + cast_int32 (Z.quot (micros interval) MICROS_PER_DAY)) else Ret result.

(** The interval that [operator-] of dates and timestamps adds. *)
Definition inverse (interval : interval_t) : outcome interval_t :=
  m ← int32 (- months interval); d ← int32 (- days interval); u ← int64 (- micros interval); Ret (Interval m d u).
Definition sub_interval (date : Z) (interval : interval_t) : outcome Z := interval ← inverse interval; add_interval date interval.
Definition add_days (date day : Z) : outcome Z := int32 (date + day).
Definition sub_days (date day : Z) : outcome Z := int32 (date - day).
Definition sub_date (date rhs : Z) : outcome Z := int32 (date - rhs).

(** ** Parts of a date *)

Definition dayNames : list string := ["Sunday"; "Monday"; "Tuesday"; "Wednesday"; "Thursday"; "Friday"; "Saturday"]%string.
Definition getDayName (date : Z) : outcome string :=
  index ← (if date <? 0 then opposite ← int32 (- date); n ← int32 (opposite + 3); Ret (7 - Z.rem n 7)
           else n ← int32 (date + 3); Ret (Z.rem n 7 + 1));
  load dayNames (Z.to_nat (Z.rem index 7)).

Definition monthNames : list string :=
  ["January"; "February"; "March"; "April"; "May"; "June"; "July"; "August"; "September"; "October"; "November"; "December"]%string.
Definition getMonthName (date : Z) : outcome string :=
  '(_, month, _) ← convert date; load monthNames (Z.to_nat (month - 1)).

Definition getLastDay (date : Z) : outcome Z :=
  '(year, month, _) ← convert date;
  first ← fromDate (year + Z.quot month 12) (Z.rem month 12 + 1) 1;
  sub_days first 1.

Definition getDatePart (specifier : DatePartSpecifier) (date : Z) : outcome Z :=
  '(year, month, day) ← convert date;
  match specifier with
  | YEAR => '(_, year, _) ← extractYearOffset date; Ret year
  | MONTH => Ret month
  | DAY => Ret day
  | DECADE => Ret (Z.quot year 10)
  | CENTURY => Ret (if 0 <? year then Z.quot (year - 1) 100 + 1 else Z.quot year 100 - 1)
  | MILLENNIUM => Ret (if 0 <? year then Z.quot (year - 1) 1000 + 1 else Z.quot year 1000 - 1)
  | QUARTER => Ret (Z.quot (month - 1) MONTHS_PER_QUARTER + 1)
  | _ => Ret 0
  end.

(** [Date::trunc] ([trunc_date]; timestamps have one of their own). *)
Definition trunc_date (specifier : DatePartSpecifier) (date : Z) : outcome Z :=
  match specifier with
  | YEAR => year ← getDatePart YEAR date; fromDate year 1 1
  | MONTH => year ← getDatePart YEAR date; month ← getDatePart MONTH date; fromDate year month 1
  | DAY => Ret date
  | DECADE => year ← getDatePart YEAR date; fromDate (Z.quot year 10 * 10) 1 1
  | CENTURY => year ← getDatePart YEAR date; fromDate (Z.quot year 100 * 100) 1 1
  | MILLENNIUM => year ← getDatePart YEAR date; fromDate (Z.quot year 1000 * 1000) 1 1
  | QUARTER => '(year, month, _) ← convert date; fromDate year (1 + Z.quot (month - 1) 3 * 3) 1
  | _ => Ret date
  end.

Example epoch : convert 0 = Ret (1970, 1, 1).
Proof. vm_compute. reflexivity. Qed.
Example leap_day : fromDate 2020 2 29 = Ret 18321.
Proof. vm_compute. reflexivity. Qed.
Example month_end : (d ← fromDate 2020 1 31; add_interval d (Interval 1 0 0)) = fromDate 2020 2 29.
Proof. vm_compute. reflexivity. Qed.
