(* ===== verification/CastHelpers.v ===== *)
(** Text of numbers, dates, times and intervals ([common/types/cast_helpers.h]). Numbers
    are written backwards into a buffer: a [writer] is the place of the pointer (the room
    before it) with the characters from there on; a write without room is [Undef], as is
    one past the end of a buffer. *)
From Stdlib Require Import Ascii String.
From S2P Require Import Prelude Date.
Local Open Scope Z_scope.

Definition chars (s : string) : list ascii := list_ascii_of_string s.
Definition char_of (z : Z) : ascii := ascii_of_N (Z.to_N (z mod 256)).
Definition code (c : ascii) : Z := Z.of_N (N_of_ascii c).
Definition zero_char : ascii := "0".

Definition digits : list ascii := chars
  "00010203040506070809101112131415161718192021222324252627282930313233343536373839404142434445464748495051525354555657585960616263646566676869707172737475767778798081828384858687888990919293949596979899".

(** ** [NumericHelper] *)

Definition writer : Type := nat * list ascii.
(** [*--ptr = c]. *)
Definition push (c : ascii) (w : writer) : outcome writer :=
  match fst w with O => Undef | S room => Ret (room, c :: snd w) end.
Definition push_pair (index : Z) (w : writer) : outcome writer :=
  low ← at_index digits (index + 1); w ← push low w; high ← at_index digits index; push high w.

(** Each round takes two of the at most twenty digits of a 64-bit value. *)
Definition UNSIGNED_ROUNDS : nat := 10.
Fixpoint FormatUnsigned (fuel : nat) (value : Z) (w : writer) : outcome writer :=
  match fuel with
  | O => Undef
  | S fuel' =>
      if 100 <=? value then w ← push_pair (Z.rem value 100 * 2) w; FormatUnsigned fuel' (Z.quot value 100) w
      else if value <? 10 then push (char_of (48 + value)) w
      else push_pair (value * 2) w
  end.
(** [while (endptr > data) *--endptr = '0'], and the buffer from its start. *)
Definition pad_zeros (w : writer) : list ascii := replicate (fst w) zero_char ++ snd w.

Definition at_least (value bound : Z) : Z := if bound <=? value then 1 else 0.
Definition getUnsignedInt64Length (value : Z) : Z :=
  if 10000000000 <=? value then
    if 1000000000000000 <=? value then
      16 + at_least value 10000000000000000 + at_least value 100000000000000000 + at_least value 1000000000000000000 + at_least value 10000000000000000000
    else 11 + at_least value 100000000000 + at_least value 1000000000000 + at_least value 10000000000000 + at_least value 100000000000000
  else if 100000 <=? value then
    6 + at_least value 1000000 + at_least value 10000000 + at_least value 100000000 + at_least value 1000000000
  else 1 + at_least value 10 + at_least value 100 + at_least value 1000 + at_least value 10000.

(** Two digits of a value, as dates and times write them. *)
Definition FormatTwoDigits (value : Z) : outcome (list ascii) :=
  if value <? 10 then Ret [zero_char; char_of (48 + value)]
  else high ← at_index digits (value * 2); low ← at_index digits (value * 2 + 1); Ret [high; low].

(** ** [DateToStringCast] *)
Module DateToStringCast.

Definition BC_SUFFIX : list ascii := chars " (BC)".

(** The length, the length of the year, the suffix and the year to write. *)
Definition Length (year : Z) : Z * Z * bool * Z :=
  let '(length, addBC, year) := if year <=? 0 then (6 + Z.of_nat (List.length BC_SUFFIX), true, - year + 1) else (6, false, year) in
  let yearLength := 4 + at_least year 10000 + at_least year 100000 + at_least year 1000000 + at_least year 10000000 in
  (length + yearLength, yearLength, addBC, year).

Definition Format (year month day yearLen : Z) (addBC : bool) : outcome (list ascii) :=
  w ← FormatUnsigned UNSIGNED_ROUNDS year (Z.to_nat yearLen, []);
  month_text ← FormatTwoDigits month;
  day_text ← FormatTwoDigits day;
  Ret (pad_zeros w ++ ["-"%char] ++ month_text ++ ["-"%char] ++ day_text ++ (if addBC then BC_SUFFIX else [])).
End DateToStringCast.

(** ** [TimeToStringCast] *)
Module TimeToStringCast.

(** The zeros at the end of the buffer, but for its first character. *)
Fixpoint trailing_zeros (i : nat) (micro_buffer : list ascii) : outcome Z :=
  match i with
  | O => Ret 0
  | S i' => c ← load micro_buffer i; if Ascii.eqb c zero_char then n ← trailing_zeros i' micro_buffer; Ret (n + 1) else Ret 0
  end.

Definition FormatMicros (microseconds : Z) : outcome (Z * list ascii) :=
  w ← FormatUnsigned UNSIGNED_ROUNDS microseconds (6%nat, []);
  let micro_buffer := pad_zeros w in
  n ← trailing_zeros 5 micro_buffer; Ret (n, micro_buffer).

Definition Length (micros : Z) : outcome (Z * list ascii) :=
  if micros =? 0 then Ret (8, [])
  else '(zeros, micro_buffer) ← FormatMicros micros; Ret (15 - zeros, micro_buffer).

(** Of the buffer of microseconds [length - 9] characters are copied. *)
Definition Format (length hour min sec : Z) (micro_buffer : list ascii) : outcome (list ascii) :=
  h ← FormatTwoDigits hour; m ← FormatTwoDigits min; s ← FormatTwoDigits sec;
  let time := h ++ [":"%char] ++ m ++ [":"%char] ++ s in
  if 8 <? length then
    let n := Z.to_nat (length - 9) in
    _ ← ku_assert (n <=? List.length micro_buffer)%nat;
    Ret (time ++ ["."%char] ++ take n micro_buffer)
  else Ret time.
End TimeToStringCast.

(** A buffer of [length] characters that is made, written from its start and returned. *)
Definition text_of (length : Z) (text : list ascii) : outcome (list ascii) :=
  if Z.of_nat (List.length text) <=? length then Ret (text ++ replicate (Z.to_nat length - List.length text) Ascii.zero) else Undef.

(** ** [IntervalToStringCast]: writes at the end of what the buffer has *)
Module IntervalToStringCast.

(** [char buffer[70]] of [Interval::toString]. *)
Definition BUFFER : nat := 70.
Definition append (text more : list ascii) : outcome (list ascii) :=
  if (List.length (text ++ more) <=? BUFFER)%nat then Ret (text ++ more) else Undef.

(** The number fills the room made for it. *)
Definition FormatSignedNumber (value : Z) (buffer : list ascii) : outcome (list ascii) :=
  let sign := if value <? 0 then -1 else 0 in
  unsigned_value ← int64 (Z.lxor value sign - sign);
  let room := getUnsignedInt64Length unsigned_value - sign in
  w ← FormatUnsigned UNSIGNED_ROUNDS unsigned_value (Z.to_nat room, []);
  w ← (if value <? 0 then push "-" w else Ret w);
  match fst w with O => append buffer (snd w) | S _ => Undef end.

Definition FormatIntervalValue (value : Z) (buffer name : list ascii) : outcome (list ascii) :=
  if value =? 0 then Ret buffer
  else
    buffer ← (match buffer with [] => Ret buffer | _ => append buffer [" "%char] end);
    buffer ← FormatSignedNumber value buffer;
    buffer ← append buffer name;
    if negb (value =? 1) then append buffer ["s"%char] else Ret buffer.

(** [micros != 0]: the time, up to the [int64_t] that has no opposite. *)
Definition FormatTime (interval_micros : Z) (buffer : list ascii) : outcome (list ascii) :=
  buffer ← (match buffer with [] => Ret buffer | _ => append buffer [" "%char] end);
  '(buffer, micros) ← (if interval_micros <? 0 then buffer ← append buffer ["-"%char]; opposite ← int64 (- interval_micros); Ret (buffer, opposite)
                       else Ret (buffer, interval_micros));
  let hour := Z.quot micros MICROS_PER_HOUR in let micros := micros - hour * MICROS_PER_HOUR in
  let min := Z.quot micros MICROS_PER_MINUTE in let micros := micros - min * MICROS_PER_MINUTE in
  let sec := Z.quot micros MICROS_PER_SEC in let micros := micros - sec * MICROS_PER_SEC in
  buffer ← (if hour <? 10 then append buffer [zero_char] else Ret buffer);
  buffer ← FormatSignedNumber hour buffer;
  buffer ← append buffer [":"%char];
  m ← FormatTwoDigits min; buffer ← append buffer m;
  buffer ← append buffer [":"%char];
  s ← FormatTwoDigits sec; buffer ← append buffer s;
  if negb (micros =? 0) then
    buffer ← append buffer ["."%char];
    '(zeros, text) ← TimeToStringCast.FormatMicros micros;
    _ ← append buffer text;
    append buffer (take (Z.to_nat (6 - zeros)) text)
  else Ret buffer.

Definition Format (interval : interval_t) : outcome (list ascii) :=
  buffer ← (if negb (months interval =? 0) then
    let years := Z.quot (months interval) 12 in
    let months := months interval - years * 12 in
    buffer ← FormatIntervalValue years [] (chars " year");
    FormatIntervalValue months buffer (chars " month")
  else Ret []);
  buffer ← (if negb (days interval =? 0) then FormatIntervalValue (days interval) buffer (chars " day") else Ret buffer);
  if negb (micros interval =? 0) then FormatTime (micros interval) buffer
  else match buffer with [] => Ret (chars "00:00:00") | _ => Ret buffer end.
End IntervalToStringCast.
