(* ===== verification/DateText.v ===== *)
(** Dates and times of day as text: [Date::tryConvertDate], [fromCString] and [toString]
    ([common/types/date_t.cpp]), and [common/types/dtime_t.cpp]. The parsers only move
    forward: a buffer with its length and position is the list of the characters that are
    left, so that their loops recur on it; a parser returns what it read with what is left,
    or [None] where the code returns false. *)
From Stdlib Require Import Ascii String.
From S2P Require Import Prelude Date CastHelpers.
Local Open Scope Z_scope.

(** ** [string_utils.h] *)

Definition isSpace (c : ascii) : bool :=
  (code c =? 32) || (code c =? 9) || (code c =? 10) || (code c =? 11) || (code c =? 12) || (code c =? 13).
Definition CharacterIsDigit (c : ascii) : bool := (48 <=? code c) && (code c <=? 57).
(** [c - '0']. *)
Definition digit_of (c : ascii) : Z := code c - 48.

Fixpoint skip_spaces (rest : list ascii) : list ascii :=
  match rest with
  | c :: rest' => if isSpace c then skip_spaces rest' else rest
  | [] => []
  end.

(** ** Dates *)

(** [Date::parseDoubleDigit]. *)
Definition parseDoubleDigit (rest : list ascii) : option (Z * list ascii) :=
  match rest with
  | c :: rest =>
      if CharacterIsDigit c then
        match rest with
        | c' :: rest' => if CharacterIsDigit c' then Some (digit_of c' + digit_of c * 10, rest') else Some (digit_of c, rest)
        | [] => Some (digit_of c, rest)
        end
      else None
  | [] => None
  end.

(** The loop over the digits of the year, which stops at the digit that makes it too large. *)
Fixpoint parse_year (rest : list ascii) (year : Z) : Z * list ascii :=
  match rest with
  | c :: rest' =>
      if CharacterIsDigit c then
        let year := digit_of c + year * 10 in
        if MAX_YEAR <? year then (year, rest) else parse_year rest' year
      else (year, rest)
  | [] => (year, rest)
  end.

Definition is_separator (c : ascii) : bool := Ascii.eqb c " " || Ascii.eqb c "-" || Ascii.eqb c "/" || Ascii.eqb c "\".

Definition tryConvertDate (buf : list ascii) (allowTrailing : bool) : outcome (option (Z * list ascii)) :=
  match skip_spaces buf with
  | [] => Ret None
  | (c :: _) as rest =>
      if negb (CharacterIsDigit c) then Ret None
      else
        let '(year, rest) := parse_year rest 0 in
        match rest with
        | [] => Ret None
        | sep :: rest =>
            if negb (is_separator sep) then Ret None
            else match parseDoubleDigit rest with
            | None => Ret None
            | Some (month, rest) =>
                match rest with
                | [] | [_] => Ret None
                | sep' :: rest =>
                    if negb (Ascii.eqb sep' sep) then Ret None
                    else match parseDoubleDigit rest with
                    | None => Ret None
                    | Some (day, rest) =>
                        let rest := skip_spaces rest in
                        if negb (Nat.eqb (length rest) 0) && negb allowTrailing then Ret None
                        else match fromDate year month day with
                        | Ret result => Ret (Some (result, rest))
                        | Throw (ConversionException _) => Ret None
                        | Throw e => Throw e
                        | Undef => Undef
                        end
                    end
                end
            end
        end
  end.

Definition date_fromCString (str : list ascii) : outcome Z :=
  result ← tryConvertDate str false;
  match result with
  | Some (date, _) => Ret date
  | None => Throw (ConversionException "Error occurred during parsing date. Given: {}. Expected format: (YYYY-MM-DD)")
  end.

Definition date_toString (date : Z) : outcome (list ascii) :=
  '(year, month, day) ← convert date;
  let '(length, yearLength, addBC, year) := DateToStringCast.Length year in
  text ← DateToStringCast.Format year month day yearLength addBC;
  text_of length text.

(** ** Times of day: [dtime_t] is its microseconds *)
Module Time.

Definition isValid (hour minute second microseconds : Z) : bool :=
  negb ((23 <? hour) || (hour <? 0) || (59 <? minute) || (minute <? 0) || (59 <? second) || (second <? 0) ||
        (999999 <? microseconds) || (microseconds <? 0)).

(** The values are those the callers pass: hours of nine digits, no overflow. *)
Definition fromTimeInternal (hour minute second microseconds : Z) : Z :=
  ((hour * 60 + minute) * 60 + second) * MICROS_PER_SEC + microseconds.

Definition fromTime (hour minute second microseconds : Z) : outcome Z :=
  if negb (isValid hour minute second microseconds) then Throw (ConversionException "Time field value out of range: {}:{}:{}[.{}].")
  else Ret (fromTimeInternal hour minute second microseconds).

Definition convert (dtime : Z) : outcome (Z * Z * Z * Z) :=
  let time := dtime in
  let hour := cast_int32 (Z.quot time MICROS_PER_HOUR) in
  let time := time - hour * MICROS_PER_HOUR in
  let min := cast_int32 (Z.quot time MICROS_PER_MINUTE) in
  let time := time - min * MICROS_PER_MINUTE in
  let sec := cast_int32 (Z.quot time MICROS_PER_SEC) in
  let time := time - sec * MICROS_PER_SEC in
  let micros := cast_int32 time in
  _ ← ku_assert (isValid hour min sec micros);
  Ret (hour, min, sec, micros).

(** Up to nine digits of the hour. *)
Fixpoint parse_hour (rest : list ascii) (digits : nat) (hour : Z) : option (Z * list ascii) :=
  match rest with
  | c :: rest' =>
      if CharacterIsDigit c then
        match digits with
        | S digits' => parse_hour rest' digits' (hour * 10 + digit_of c)
        | O => None
        end
      else Some (hour, rest)
  | [] => Some (hour, rest)
  end.

(** The digits after the point; from the seventh on they count nothing. *)
Fixpoint parse_fraction (rest : list ascii) (mult micros : Z) : Z * list ascii :=
  match rest with
  | c :: rest' =>
      if CharacterIsDigit c then
        parse_fraction rest' (Z.quot mult 10) (if 0 <? mult then micros + digit_of c * mult else micros)
      else (micros, rest)
  | [] => (micros, rest)
  end.

(** Two digits below sixty. *)
Definition parse_sixty (rest : list ascii) : option (Z * list ascii) :=
  match parseDoubleDigit rest with
  | Some (n, rest) => if (n <? 0) || (60 <=? n) then None else Some (n, rest)
  | None => None
  end.

Definition tryConvertInternal (buf : list ascii) : option (Z * list ascii) :=
  match skip_spaces buf with
  | [] => None
  | (c :: _) as rest =>
      if negb (CharacterIsDigit c) then None
      else match parse_hour rest 9 0 with
      | None | Some (_, []) => None
      | Some (hour, sep :: rest) =>
          if negb (Ascii.eqb sep ":") then None
          else match parse_sixty rest with
          | None | Some (_, []) => None
          | Some (min, sep' :: rest) =>
              if negb (Ascii.eqb sep' sep) then None
              else match parse_sixty rest with
              | None => None
              | Some (sec, rest) =>
                  let '(micros, rest) :=
                    match rest with
                    | c :: rest' => if Ascii.eqb c "." then parse_fraction rest' 100000 0 else (0, rest)
                    | [] => (0, rest)
                    end in
                  Some (fromTimeInternal hour min sec micros, rest)
              end
          end
      end
  end.

Definition tryConvertInterval (buf : list ascii) : option (Z * list ascii) :=
  match tryConvertInternal buf with
  | Some (result, rest) => match skip_spaces rest with [] => Some (result, []) | _ => None end
  | None => None
  end.

Definition tryConvertTime (buf : list ascii) : option (Z * list ascii) :=
  match tryConvertInternal buf with
  | Some (result, rest) => if result <? MICROS_PER_DAY then Some (result, rest) else None
  | None => None
  end.

Definition fromCString (buf : list ascii) : outcome Z :=
  match tryConvertTime buf with
  | Some (result, _) => Ret result
  | None => Throw (ConversionException "Error occurred during parsing time. Given: {}. Expected format: (hh:mm:ss[.zzzzzz]).")
  end.

Definition toString (time : Z) : outcome (list ascii) :=
  '(hour, min, sec, micros) ← convert time;
  '(length, micro_buffer) ← TimeToStringCast.Length micros;
  text ← TimeToStringCast.Format length hour min sec micro_buffer;
  text_of length text.
End Time.

Example date_written : (d ← fromDate 2020 2 9; date_toString d) = Ret (chars "2020-02-09").
Proof. vm_compute. reflexivity. Qed.
Example time_written : Time.toString 45296070000 = Ret (chars "12:34:56.07").
Proof. vm_compute. reflexivity. Qed.
Example time_parsed : Time.fromCString (chars " 12:34:56.07") = Ret 45296070000.
Proof. vm_compute. reflexivity. Qed.
Example bc_text : (d ← fromDate 0 12 31; date_toString d) = Ret (chars "0001-12-31 (BC)").
Proof. vm_compute. reflexivity. Qed.
Example date_parsed : date_fromCString (chars "  1999/2/28 ") = fromDate 1999 2 28.
Proof. vm_compute. reflexivity. Qed.
Example far_year : date_fromCString (chars "999999-01-01") = Throw (ConversionException "Error occurred during parsing date. Given: {}. Expected format: (YYYY-MM-DD)").
Proof. vm_compute. reflexivity. Qed.
