(* ===== verification/DateFacts.v ===== *)
(** The Gregorian calendar, as a reference for [Date.v]: leap years, lengths of months,
    the number of a day from 1970-01-01 in closed form, and the day after a day. The
    tables of the code are compared with it once, entry by entry, and the loops shift
    into their range. Then the decimal digits of [CastHelpers.v] and [DateText.v]. *)
From Stdlib Require Import Ascii String.
From S2P Require Import Prelude Date CastHelpers DateText.
Local Open Scope Z_scope.

(** ** The calendar *)

Definition leap (y : Z) : bool := (y mod 4 =? 0) && (negb (y mod 100 =? 0) || (y mod 400 =? 0)).
Definition month_length (y m : Z) : Z :=
  if m =? 2 then (if leap y then 29 else 28)
  else if (m =? 4) || (m =? 6) || (m =? 9) || (m =? 11) then 30 else 31.
Definition is_date (y m d : Z) : Prop := 1 <= m <= 12 /\ 1 <= d <= month_length y m.
Definition next_day (ymd : Z * Z * Z) : Z * Z * Z :=
  let '(y, m, d) := ymd in
  if d <? month_length y m then (y, m, d + 1) else if m <? 12 then (y, m + 1, 1) else (y + 1, 1, 1).

(** Leap days before the year, days before the year and the month. *)
Definition leaps_before (y : Z) : Z := (y - 1) / 4 - (y - 1) / 100 + (y - 1) / 400.
Definition days_before_year (y : Z) : Z := 365 * (y - 1970) + (leaps_before y - leaps_before 1970).
Definition days_before_month (l : bool) (m : Z) : Z :=
  (367 * m - 362) / 12 - (if m <=? 2 then 0 else if l then 1 else 2).
Definition day_number (y m d : Z) : Z := days_before_year y + days_before_month (leap y) m + (d - 1).

(** The days whose year the code accepts. *)
Definition MIN_DAY : Z := days_before_year MIN_YEAR.
Definition MAX_DAY : Z := days_before_year (MAX_YEAR + 1) - 1.
Lemma MIN_DAY_value : MIN_DAY = -106751981.
Proof. reflexivity. Qed.
Lemma MAX_DAY_value : MAX_DAY = 106752346.
Proof. reflexivity. Qed.
Definition in_years (n : Z) : Prop := MIN_DAY <= n <= MAX_DAY.

Lemma days_before_year_shift y k : days_before_year (y + 400 * k) = days_before_year y + 146097 * k.
Proof. unfold days_before_year, leaps_before. div_lia. Qed.

Lemma days_before_year_succ y : days_before_year (y + 1) = days_before_year y + if leap y then 366 else 365.
Proof.
  unfold days_before_year, leaps_before, leap. destruct (Z.eqb_spec (y mod 4) 0), (Z.eqb_spec (y mod 100) 0), (Z.eqb_spec (y mod 400) 0); cbn; div_lia.
Qed.

Lemma days_before_year_mono y y' : y <= y' -> days_before_year y <= days_before_year y'.
Proof. unfold days_before_year, leaps_before. div_lia. Qed.

Lemma year_unique n y y' : days_before_year y <= n < days_before_year (y + 1) -> days_before_year y' <= n < days_before_year (y' + 1) -> y = y'.
Proof.
  intros H H'. destruct (Z.lt_trichotomy y y') as [Hlt|[->|Hlt]]; [|done|].
  - pose proof (days_before_year_mono (y + 1) y'). lia.
  - pose proof (days_before_year_mono (y' + 1) y). lia.
Qed.

Lemma year_in_range n y : days_before_year y <= n < days_before_year (y + 1) -> in_years n <-> MIN_YEAR <= y <= MAX_YEAR.
Proof.
  intros H. unfold in_years, MIN_DAY, MAX_DAY. pose proof (days_before_year_mono MIN_YEAR y). pose proof (days_before_year_mono (y + 1) MIN_YEAR).
  pose proof (days_before_year_mono y MAX_YEAR). pose proof (days_before_year_mono (MAX_YEAR + 1) y).
  pose proof (days_before_year_mono (y + 1) (MAX_YEAR + 1)). lia.
Qed.

Lemma leap_shift y k : leap (y + 400 * k) = leap y.
Proof.
  unfold leap. replace ((y + 400 * k) mod 4) with (y mod 4) by div_lia. replace ((y + 400 * k) mod 100) with (y mod 100) by div_lia.
  by replace ((y + 400 * k) mod 400) with (y mod 400) by div_lia.
Qed.

Lemma isLeapYear_leap y : isLeapYear y = leap y.
Proof.
  assert (Hrem : forall b, 0 < b -> (Z.rem y b =? 0) = (y mod b =? 0)).
  { intros b Hb. destruct (Z.eqb_spec (Z.rem y b) 0) as [Hr|Hr], (Z.eqb_spec (y mod b) 0) as [Hm|Hm]; try done; exfalso.
    - apply Z.rem_divide in Hr; [|lia]. apply Hm. by apply Z.mod_divide; [lia|].
    - apply Z.mod_divide in Hm; [|lia]. apply Hr. by apply Z.rem_divide; [lia|]. }
  unfold isLeapYear, leap. by rewrite !Hrem by lia.
Qed.

(** ** The tables *)

Definition is_Ret (m : outcome Z) (z : Z) : bool := match m with Ret z' => z' =? z | _ => false end.
Lemma is_Ret_eq m z : is_Ret m z = true -> m = Ret z.
Proof. destruct m; cbn; try done. intros ->%Z.eqb_eq. done. Qed.

(** A table holds the values of a function from [lo] on. *)
Ltac by_table n lo P :=
  let i := fresh "i" in let Hi := fresh "Hi" in
  intros i Hi; apply is_Ret_eq; replace i with (i - lo + lo) by lia;
  apply (all_below_true n P); [vm_compute; reflexivity|lia].

Lemma cumulative_year_days : forall i, 0 <= i <= 400 -> at_index CUMULATIVE_YEAR_DAYS i = Ret (days_before_year (1970 + i)).
Proof. by_table 401%nat 0 (fun i => is_Ret (at_index CUMULATIVE_YEAR_DAYS (i + 0)) (days_before_year (1970 + (i + 0)))). Qed.

Lemma month_days_table (l : bool) y : leap y = l -> forall m, 1 <= m <= 12 -> at_index (if l then LEAP_DAYS else NORMAL_DAYS) m = Ret (month_length y m).
Proof.
  unfold month_length. intros ->. destruct l.
  - by_table 12%nat 1 (fun m => is_Ret (at_index LEAP_DAYS (m + 1)) (if m + 1 =? 2 then 29 else if (m + 1 =? 4) || (m + 1 =? 6) || (m + 1 =? 9) || (m + 1 =? 11) then 30 else 31)).
  - by_table 12%nat 1 (fun m => is_Ret (at_index NORMAL_DAYS (m + 1)) (if m + 1 =? 2 then 28 else if (m + 1 =? 4) || (m + 1 =? 6) || (m + 1 =? 9) || (m + 1 =? 11) then 30 else 31)).
Qed.

Lemma before_table (l : bool) : forall i, 0 <= i <= 12 -> at_index (if l then CUMULATIVE_LEAP_DAYS else CUMULATIVE_DAYS) i = Ret (days_before_month l (i + 1)).
Proof.
  destruct l.
  - by_table 13%nat 0 (fun i => is_Ret (at_index CUMULATIVE_LEAP_DAYS (i + 0)) (days_before_month true (i + 0 + 1))).
  - by_table 13%nat 0 (fun i => is_Ret (at_index CUMULATIVE_DAYS (i + 0)) (days_before_month false (i + 0 + 1))).
Qed.

Lemma days_before_month_succ y m : 1 <= m <= 12 -> days_before_month (leap y) (m + 1) = days_before_month (leap y) m + month_length y m.
Proof.
  intros Hm. unfold month_length, days_before_month.
  assert (Hc : m = 1 \/ m = 2 \/ m = 3 \/ m = 4 \/ m = 5 \/ m = 6 \/ m = 7 \/ m = 8 \/ m = 9 \/ m = 10 \/ m = 11 \/ m = 12) by lia.
  destruct (leap y); repeat destruct Hc as [->|Hc]; try subst m; reflexivity.
Qed.

Lemma days_before_january l : days_before_month l 1 = 0.
Proof. by destruct l. Qed.
Lemma days_before_new_year l : days_before_month l 13 = if l then 366 else 365.
Proof. by destruct l. Qed.

Lemma days_before_month_mono l m m' : 1 <= m <= m' -> m' <= 13 -> days_before_month l m <= days_before_month l m'.
Proof.
  intros. unfold days_before_month. destruct l, (Z.leb_spec m 2), (Z.leb_spec m' 2); div_lia.
Qed.

(** The month of a day of the year. *)
Definition month_table (l : bool) : list Z := if l then LEAP_MONTH_PER_DAY_OF_YEAR else MONTH_PER_DAY_OF_YEAR.
Definition in_month (l : bool) (doy m : Z) : bool :=
  (1 <=? m) && (m <=? 12) && (days_before_month l m <=? doy) && (doy <? days_before_month l (m + 1)).
Lemma month_of_day (l : bool) doy : 0 <= doy < (if l then 366 else 365) ->
  exists m, at_index (month_table l) doy = Ret m /\ 1 <= m <= 12 /\ days_before_month l m <= doy < days_before_month l (m + 1).
Proof.
  intros Hd. pose (P l := fun i => match at_index (month_table l) i with Ret m => in_month l i m | _ => false end).
  assert (HP : P l doy = true) by (destruct l; [apply (all_below_true 366)|apply (all_below_true 365)]; [vm_compute; reflexivity|lia|vm_compute; reflexivity|lia]).
  unfold P in HP. destruct (at_index (month_table l) doy) as [m| |]; [|done..]. exists m. split; [done|].
  unfold in_month in HP. rewrite !andb_true_iff, !Z.leb_le, Z.ltb_lt in HP. lia.
Qed.

Lemma month_unique l doy m m' : 1 <= m <= 12 -> 1 <= m' <= 12 -> days_before_month l m <= doy < days_before_month l (m + 1) ->
  days_before_month l m' <= doy < days_before_month l (m' + 1) -> m = m'.
Proof.
  intros Hm Hm' H H'. destruct (Z.lt_trichotomy m m') as [Hlt|[->|Hlt]]; [|done|].
  - pose proof (days_before_month_mono l (m + 1) m'). lia.
  - pose proof (days_before_month_mono l (m' + 1) m). lia.
Qed.

(** ** The loops *)

Lemma shift_days_up_Ret fuel n year : 0 <= n + 146097 * (Z.of_nat fuel - 1) -> (0 < fuel)%nat ->
  exists k, shift_days_up fuel n year = Ret (n + 146097 * k, year - 400 * k) /\ 0 <= n + 146097 * k /\ (n + 146097 * k < 146097 \/ k = 0).
Proof.
  revert n year. induction fuel as [|fuel IH]; intros n year Hf Hpos; [lia|]. cbn [shift_days_up]. unfold DAYS_PER_YEAR_INTERVAL, YEAR_INTERVAL.
  destruct (Z.ltb_spec n 0) as [Hn|Hn].
  - destruct (IH (n + 146097) (year - 400)) as (k & -> & H0 & Hk); [lia|lia|]. exists (k + 1). split; [f_equal; f_equal; lia|]. lia.
  - exists 0. split; [f_equal; f_equal; lia|]. lia.
Qed.

Lemma shift_days_down_Ret fuel n year : 0 <= n < 146097 * Z.of_nat fuel ->
  exists k, shift_days_down fuel n year = Ret (n - 146097 * k, year + 400 * k) /\ 0 <= n - 146097 * k < 146097.
Proof.
  revert n year. induction fuel as [|fuel IH]; intros n year Hf; [lia|]. cbn [shift_days_down]. unfold DAYS_PER_YEAR_INTERVAL, YEAR_INTERVAL.
  destruct (Z.leb_spec 146097 n) as [Hn|Hn].
  - destruct (IH (n - 146097) (year + 400)) as (k & -> & H0); [lia|]. exists (k + 1). split; [f_equal; f_equal; lia|]. lia.
  - exists 0. split; [f_equal; f_equal; lia|]. lia.
Qed.

Lemma search_year_Ret fuel n i : 0 <= n -> 0 <= i <= 400 -> (Z.to_nat i < fuel)%nat -> n < days_before_year (1970 + i + 1) ->
  exists j, search_year fuel n i = Ret j /\ 0 <= j <= i /\ days_before_year (1970 + j) <= n < days_before_year (1970 + j + 1).
Proof.
  intros Hn. revert i. induction fuel as [|fuel IH]; intros i Hi Hf Hlt; [lia|]. cbn [search_year]. rewrite cumulative_year_days by lia. cbn.
  destruct (Z.ltb_spec n (days_before_year (1970 + i))) as [Hd|Hd].
  - assert (Hi0 : i <> 0) by (intros ->; change (days_before_year (1970 + 0)) with 0 in Hd; lia).
    replace (0 <=? i - 1) with true by lia. cbn. destruct (IH (i - 1)) as (j & -> & Hj & Hy); [lia|lia| |].
    + by replace (1970 + (i - 1) + 1) with (1970 + i) by lia.
    + exists j. split; [done|]. split; [lia|done].
  - exists i. split; [done|]. split; [lia|done].
Qed.

Lemma upper_bound_year n : 0 <= n < 146097 -> 0 <= Z.quot n 365 <= 400 /\ n < days_before_year (1970 + Z.quot n 365 + 1).
Proof.
  intros Hn. rewrite Z.quot_div_nonneg by lia. split; [div_lia|]. pose proof (Z.div_mod n 365). pose proof (Z.mod_pos_bound n 365).
  set (q := n / 365) in *. assert (Hq : 0 <= q) by lia.
  unfold days_before_year, leaps_before. div_lia.
Qed.

(** The year of a day, and its offset in the table. *)
Lemma extractYearOffset_Ret n : exists k i, 0 <= i < 400 /\ extractYearOffset n = Ret (n - 146097 * k, 1970 + 400 * k + i, i) /\
  days_before_year (1970 + 400 * k + i) <= n < days_before_year (1970 + 400 * k + i + 1).
Proof.
  unfold extractYearOffset, shift_fuel, DAYS_PER_YEAR_INTERVAL, EPOCH_YEAR.
  destruct (shift_days_up_Ret (S (Z.to_nat (Z.abs n / 146097 + 1))) n 1970) as (k & -> & Hk & Hk0); [div_lia|lia|]. cbn [mbind outcome_bind].
  destruct (shift_days_down_Ret (S (Z.to_nat (Z.abs (n + 146097 * k) / 146097 + 1))) (n + 146097 * k) (1970 - 400 * k)) as (k' & -> & Hn'); [div_lia|]. cbn [mbind outcome_bind].
  set (n' := n + 146097 * k - 146097 * k') in *. destruct (upper_bound_year n' Hn') as [Hq Hlt].
  destruct (search_year_Ret (S (Z.to_nat (Z.quot n' 365))) n' (Z.quot n' 365)) as (i & -> & Hi & Hy); [lia|lia|lia|done|]. cbn [mbind outcome_bind].
  assert (Hi400 : i < 400) by (destruct (Z.eq_dec i 400) as [->|]; [change (days_before_year (1970 + 400)) with 146097 in Hy|]; lia).
  rewrite cumulative_year_days by lia. cbn. replace (days_before_year (1970 + i) <=? n') with true by lia. cbn.
  exists (k' - k), i. split; [lia|]. split; [apply (f_equal Ret), f_equal2; [apply f_equal2|done]; unfold n'; lia|].
  replace (1970 + 400 * (k' - k) + i) with (1970 + i + 400 * (k' - k)) by lia.
  replace (1970 + i + 400 * (k' - k) + 1) with (1970 + i + 1 + 400 * (k' - k)) by lia. rewrite !days_before_year_shift. unfold n' in *. lia.
Qed.

(** ** [convert] and [fromDate] *)

Lemma is_date_bounds y m d : is_date y m d -> days_before_year y <= day_number y m d < days_before_year (y + 1).
Proof.
  intros [Hm Hd]. unfold day_number. rewrite days_before_year_succ. pose proof (days_before_month_succ y m Hm) as Hs.
  pose proof (days_before_month_mono (leap y) 1 m). pose proof (days_before_month_mono (leap y) (m + 1) 13).
  pose proof (days_before_january (leap y)). pose proof (days_before_new_year (leap y)). lia.
Qed.

Lemma isValid_is_date y m d : isValid y m d = true <-> MIN_YEAR <= y <= MAX_YEAR /\ is_date y m d.
Proof.
  unfold isValid, is_date. rewrite isLeapYear_leap.
  destruct (Z.ltb_spec m 1); cbn [orb]; [split; [done|lia]|]. destruct (Z.ltb_spec 12 m); cbn [orb]; [split; [done|lia]|].
  destruct (Z.ltb_spec y MIN_YEAR); cbn [orb]; [split; [done|lia]|]. destruct (Z.ltb_spec MAX_YEAR y); cbn [orb]; [split; [done|lia]|].
  destruct (Z.ltb_spec d 1); [split; [done|lia]|]. pose proof (month_days_table (leap y) y eq_refl m) as Ht.
  unfold at_index in Ht. replace (m <? 0) with false in Ht by lia.
  assert (Hn : nth (Z.to_nat m) (if leap y then LEAP_DAYS else NORMAL_DAYS) 0 = month_length y m).
  { unfold load in Ht. rewrite nth_lookup. destruct (_ !! Z.to_nat m); [|exfalso; specialize (Ht ltac:(lia)); done]. cbn. injection Ht; [done|lia]. }
  destruct (leap y); rewrite Hn, Z.leb_le; intuition lia.
Qed.

Lemma day_number_inj y m d y' m' d' : is_date y m d -> is_date y' m' d' -> day_number y m d = day_number y' m' d' -> (y, m, d) = (y', m', d').
Proof.
  intros H H' Heq. pose proof (is_date_bounds _ _ _ H) as Hb. pose proof (is_date_bounds _ _ _ H') as Hb'. rewrite <- Heq in Hb'.
  assert (y = y') as <- by by eapply year_unique. destruct H as [Hm Hd], H' as [Hm' Hd'].
  pose proof (days_before_month_succ y m Hm). pose proof (days_before_month_succ y m' Hm'). unfold day_number in *.
  assert (m = m') as <- by (apply (month_unique (leap y) (days_before_month (leap y) m + (d - 1))); lia).
  do 2 f_equal. lia.
Qed.

(** Everything [convert] computes but its last assertion. *)
Lemma convert_steps n : exists y m d, convert n = (_ ← ku_assert (isValid y m d); Ret (y, m, d)) /\ is_date y m d /\ day_number y m d = n.
Proof.
  destruct (extractYearOffset_Ret n) as (k & i & Hi & Hx & Hy). unfold convert. rewrite Hx. cbn [mbind outcome_bind].
  rewrite !cumulative_year_days by lia. cbn [mbind outcome_bind]. set (y := 1970 + 400 * k + i) in *.
  assert (Hl : leap y = leap (1970 + i)) by (unfold y; replace (1970 + 400 * k + i) with (1970 + i + 400 * k) by lia; apply leap_shift).
  assert (Hs : forall j, days_before_year (1970 + 400 * k + j) = days_before_year (1970 + j) + 146097 * k)
    by (intros j; rewrite <- days_before_year_shift; f_equal; lia).
  rewrite days_before_year_succ in Hy. unfold y in Hy at 1 2. rewrite Hs, Hl in Hy.
  replace (1970 + (i + 1)) with (1970 + i + 1) by lia. rewrite days_before_year_succ.
  set (doy := n - 146097 * k - days_before_year (1970 + i)).
  replace (days_before_year (1970 + i) + (if leap (1970 + i) then 366 else 365) - days_before_year (1970 + i) =? 366) with (leap (1970 + i)) by (destruct (leap _); lia).
  assert (Hdoy : 0 <= doy < if leap (1970 + i) then 366 else 365) by (unfold doy; lia).
  replace ((0 <=? doy) && (doy <=? 365)) with true by (destruct (leap _); lia). cbn [mbind outcome_bind ku_assert]. rewrite <- Hl in *.
  destruct (month_of_day (leap y) doy Hdoy) as (m & Hm & Hm12 & Hin). unfold month_table in Hm. rewrite Hm. cbn [mbind outcome_bind].
  rewrite before_table by lia. cbn [mbind outcome_bind]. rewrite (month_days_table (leap y) y) by done. cbn [mbind outcome_bind].
  replace (m - 1 + 1) with m by lia. rewrite days_before_month_succ in Hin by done. set (d := doy - days_before_month (leap y) m + 1).
  replace ((0 <? d) && (d <=? month_length y m)) with true by (unfold d; lia). replace ((0 <? m) && (m <=? 12)) with true by lia. cbn [mbind outcome_bind ku_assert].
  exists y, m, d. split; [done|]. split; [split; [done|unfold d; lia]|]. unfold day_number, d. unfold y at 1. rewrite Hs. unfold doy. lia.
Qed.

Lemma convert_day_number y m d : isValid y m d = true -> convert (day_number y m d) = Ret (y, m, d).
Proof.
  intros Hv. destruct (convert_steps (day_number y m d)) as (y' & m' & d' & -> & Hd & Heq).
  apply isValid_is_date in Hv as Hv'. destruct Hv' as [_ Hd'].
  destruct (day_number_inj _ _ _ _ _ _ Hd Hd' Heq) as []. injection (day_number_inj _ _ _ _ _ _ Hd Hd' Heq) as -> -> ->. by rewrite Hv.
Qed.

Lemma in_years_valid n : in_years n -> exists y m d, isValid y m d = true /\ n = day_number y m d.
Proof.
  intros Hn. destruct (convert_steps n) as (y & m & d & _ & Hd & <-). exists y, m, d. split; [|done]. apply isValid_is_date. split; [|done].
  apply is_date_bounds in Hd. by eapply year_in_range.
Qed.

Lemma valid_in_years y m d : isValid y m d = true -> in_years (day_number y m d).
Proof. intros [Hy Hd]%isValid_is_date. apply is_date_bounds in Hd. by eapply year_in_range. Qed.

Lemma convert_Undef n : ~ in_years n -> convert n = Undef.
Proof.
  intros Hn. destruct (convert_steps n) as (y & m & d & -> & Hd & <-). destruct (isValid y m d) eqn:Hv; [|done]. by apply valid_in_years in Hv.
Qed.

Lemma convert_inv n y m d : convert n = Ret (y, m, d) -> isValid y m d = true /\ n = day_number y m d.
Proof.
  destruct (convert_steps n) as (y' & m' & d' & -> & Hd & <-). destruct (isValid y' m' d') eqn:Hv; [|done]. cbn. intros [= <- <- <-]. done.
Qed.

Lemma shift_year_up_Ret fuel y n : 1970 <= y + 400 * (Z.of_nat fuel - 1) -> (0 < fuel)%nat ->
  exists k, shift_year_up fuel y n = Ret (y + 400 * k, n - 146097 * k) /\ 1970 <= y + 400 * k /\ (y + 400 * k < 2370 \/ k = 0).
Proof.
  revert y n. induction fuel as [|fuel IH]; intros y n Hf Hpos; [lia|]. cbn [shift_year_up]. unfold DAYS_PER_YEAR_INTERVAL, YEAR_INTERVAL.
  destruct (Z.ltb_spec y 1970) as [Hn|Hn].
  - destruct (IH (y + 400) (n - 146097)) as (k & -> & H0 & Hk); [lia|lia|]. exists (k + 1). split; [f_equal; f_equal; lia|]. lia.
  - exists 0. split; [f_equal; f_equal; lia|]. lia.
Qed.

Lemma shift_year_down_Ret fuel y n : 1970 <= y < 1970 + 400 * Z.of_nat fuel ->
  exists k, shift_year_down fuel y n = Ret (y - 400 * k, n + 146097 * k) /\ 1970 <= y - 400 * k < 2370.
Proof.
  revert y n. induction fuel as [|fuel IH]; intros y n Hf; [lia|]. cbn [shift_year_down]. unfold DAYS_PER_YEAR_INTERVAL, YEAR_INTERVAL.
  destruct (Z.leb_spec 2370 y) as [Hn|Hn].
  - destruct (IH (y - 400) (n + 146097)) as (k & -> & H0); [lia|]. exists (k + 1). split; [f_equal; f_equal; lia|]. lia.
  - exists 0. split; [f_equal; f_equal; lia|]. lia.
Qed.

Lemma fromDate_Ret y m d : isValid y m d = true -> fromDate y m d = Ret (day_number y m d).
Proof.
  intros Hv. unfold fromDate. rewrite Hv. cbn [negb]. apply isValid_is_date in Hv as [_ [Hm _]]. unfold shift_fuel, YEAR_INTERVAL.
  destruct (shift_year_up_Ret (S (Z.to_nat (Z.abs (y - 1970) / 400 + 1))) y 0) as (k & -> & Hk & Hk0); [div_lia|lia|]. cbn [mbind outcome_bind].
  destruct (shift_year_down_Ret (S (Z.to_nat (Z.abs (y + 400 * k - 1970) / 400 + 1))) (y + 400 * k) (0 - 146097 * k)) as (k' & -> & Hy); [div_lia|].
  cbn [mbind outcome_bind]. rewrite cumulative_year_days by lia. cbn [mbind outcome_bind]. rewrite isLeapYear_leap.
  rewrite before_table by lia. cbn [mbind outcome_bind]. unfold day_number.
  replace (1970 + (y + 400 * k - 400 * k' - 1970)) with (y + 400 * (k - k')) by lia. rewrite days_before_year_shift.
  replace (y + 400 * k - 400 * k') with (y + 400 * (k - k')) by lia. rewrite leap_shift. replace (m - 1 + 1) with m by lia. f_equal. lia.
Qed.

(** The day after a day. *)
Lemma next_day_is_date y m d : is_date y m d ->
  let '(y', m', d') := next_day (y, m, d) in is_date y' m' d' /\ day_number y' m' d' = day_number y m d + 1.
Proof.
  intros [Hm Hd]. unfold next_day, is_date, day_number. pose proof (days_before_month_succ y m Hm) as Hs.
  assert (Hlen : forall y m, 1 <= month_length y m) by (intros; unfold month_length; repeat case_match; lia).
  destruct (Z.ltb_spec d (month_length y m)); [lia|]. destruct (Z.ltb_spec m 12).
  - pose proof (Hlen y (m + 1)). lia.
  - pose proof (Hlen (y + 1) 1). assert (m = 12) as -> by lia. rewrite days_before_year_succ, days_before_january. split; [lia|].
    change (12 + 1) with 13 in Hs. rewrite days_before_new_year in Hs. lia.
Qed.

(** Decimal digits: what [NumericHelper] writes is the digits of the number, and what the
    parsers of [DateText.v] read from digits is the number. *)

(** The character of a digit, and the last [n] digits of a number. *)
Definition digit_char (v : Z) : ascii := char_of (48 + v).
Fixpoint decimal (n : nat) (v : Z) : list ascii :=
  match n with O => [] | S n' => decimal n' (v / 10) ++ [digit_char (v mod 10)] end.

(** ** Characters *)

Definition is_digit_char (v : Z) : bool :=
  CharacterIsDigit (digit_char v) && (digit_of (digit_char v) =? v) && negb (isSpace (digit_char v)).
Lemma digit_char_facts v : 0 <= v < 10 ->
  CharacterIsDigit (digit_char v) = true /\ digit_of (digit_char v) = v /\ isSpace (digit_char v) = false.
Proof.
  intros Hv. assert (H : is_digit_char v = true) by (apply (all_below_true 10); [vm_compute; reflexivity|lia]).
  unfold is_digit_char in H. rewrite !andb_true_iff, negb_true_iff, Z.eqb_eq in H. tauto.
Qed.

Lemma mod10 v : 0 <= v mod 10 < 10.
Proof. apply Z.mod_pos_bound. lia. Qed.

Lemma digit_is_digit v : CharacterIsDigit (digit_char (v mod 10)) = true.
Proof. by destruct (digit_char_facts _ (mod10 v)). Qed.
Lemma digit_value v : digit_of (digit_char (v mod 10)) = v mod 10.
Proof. by destruct (digit_char_facts _ (mod10 v)) as (_ & ? & _). Qed.
Lemma digit_no_space v : isSpace (digit_char (v mod 10)) = false.
Proof. by destruct (digit_char_facts _ (mod10 v)) as (_ & _ & ?). Qed.
Create Rewrite HintDb digits.
#[export] Hint Rewrite digit_is_digit digit_value digit_no_space : digits.

Definition pair_digits (v : Z) : bool :=
  match at_index digits (v * 2), at_index digits (v * 2 + 1) with
  | Ret high, Ret low => Ascii.eqb high (digit_char (v / 10 mod 10)) && Ascii.eqb low (digit_char (v mod 10))
  | _, _ => false
  end.
Lemma digits_pair v : 0 <= v < 100 ->
  at_index digits (v * 2) = Ret (digit_char (v / 10 mod 10)) /\ at_index digits (v * 2 + 1) = Ret (digit_char (v mod 10)).
Proof.
  intros Hv. assert (H : pair_digits v = true) by (apply (all_below_true 100); [vm_compute; reflexivity|lia]).
  unfold pair_digits in H. destruct (at_index digits (v * 2)) as [high| |]; [|done..]. destruct (at_index digits (v * 2 + 1)) as [low| |]; [|done..].
  apply andb_prop in H as [->%Ascii.eqb_eq ->%Ascii.eqb_eq]. done.
Qed.

(** ** Lists of digits *)

Lemma length_decimal n v : length (decimal n v) = n.
Proof. revert v. induction n as [|n IH]; intros v; [done|]. cbn. rewrite length_app, IH. cbn. lia. Qed.

Lemma decimal_app n m v : decimal (n + m) v = decimal n (v / 10 ^ Z.of_nat m) ++ decimal m v.
Proof.
  revert v. induction m as [|m IH]; intros v.
  - rewrite Nat.add_0_r, Z.div_1_r. by rewrite app_nil_r.
  - replace (n + S m)%nat with (S (n + m)) by lia. cbn [decimal]. rewrite IH, <- app_assoc. f_equal. f_equal.
    rewrite Z.div_div by lia. f_equal. rewrite Nat2Z.inj_succ, Z.pow_succ_r by lia. done.
Qed.

Lemma decimal_zero n : decimal n 0 = replicate n zero_char.
Proof.
  induction n as [|n IH]; [done|]. cbn [decimal]. change (0 / 10) with 0. rewrite IH. change (digit_char (0 mod 10)) with zero_char.
  rewrite <- replicate_cons_app. done.
Qed.

(** More digits than the number has are zeros. *)
Lemma decimal_pad n k v : 0 <= v < 10 ^ Z.of_nat k -> decimal (n + k) v = replicate n zero_char ++ decimal k v.
Proof. intros Hv. by rewrite decimal_app, Z.div_small, decimal_zero. Qed.

Lemma lookup_decimal n i v : (i < n)%nat -> decimal n v !! i = Some (digit_char (v / 10 ^ Z.of_nat (n - S i) mod 10)).
Proof.
  intros Hi. replace n with (i + (1 + (n - S i)))%nat at 1 by lia. rewrite decimal_app, (decimal_app 1), lookup_app_r by (by rewrite length_decimal).
  rewrite length_decimal, Nat.sub_diag. done.
Qed.

Lemma decimal_pair v : decimal 2 v = [digit_char (v / 10 mod 10); digit_char (v mod 10)].
Proof. done. Qed.

(** ** What is written *)

Lemma push_pair_Ret v room text : 0 <= v < 100 -> push_pair (v * 2) (S (S room), text) = Ret (room, decimal 2 v ++ text).
Proof. intros Hv. destruct (digits_pair v Hv) as [Hh Hl]. unfold push_pair. rewrite Hl, Hh. done. Qed.

Lemma decimal_mod n v : 0 <= v -> decimal n (v mod 10 ^ Z.of_nat n) = decimal n v.
Proof.
  revert v. induction n as [|n IH]; intros v Hv; [done|]. cbn [decimal]. rewrite Nat2Z.inj_succ, Z.pow_succ_r by lia.
  assert (Hp : 0 < 10 ^ Z.of_nat n) by (apply Z.pow_pos_nonneg; lia). f_equal.
  - rewrite <- (IH (v / 10)) by div_lia. f_equal. rewrite Z.rem_mul_r by lia. rewrite Z.mul_comm, Z.div_add, Z.div_small by (try lia; apply Z.mod_pos_bound; lia). lia.
  - f_equal. f_equal. rewrite Z.rem_mul_r by lia. rewrite Z.mul_comm, Z.mod_add, Z.mod_mod by lia. done.
Qed.

(** [k] is the number of digits of the value. *)
Lemma FormatUnsigned_Ret fuel v room text : 0 <= v < 10 ^ Z.of_nat room -> v < 100 ^ Z.of_nat fuel -> (0 < fuel)%nat -> (0 < room)%nat ->
  exists k, (0 < k <= room)%nat /\ FormatUnsigned fuel v (room, text) = Ret ((room - k)%nat, decimal k v ++ text) /\
    v < 10 ^ Z.of_nat k /\ (k = 1%nat \/ 10 ^ Z.of_nat (k - 1) <= v).
Proof.
  revert v room text. induction fuel as [|fuel IH]; intros v room text Hv Hf Hfuel Hroom; [lia|]. cbn [FormatUnsigned].
  destruct (Z.leb_spec 100 v) as [Hbig|Hsmall].
  - destruct room as [|[|[|room]]]; [lia|cbn in Hv; lia|cbn in Hv; lia|].
    rewrite Z.rem_mod_nonneg, Z.quot_div_nonneg by lia. rewrite push_pair_Ret by (apply Z.mod_pos_bound; lia). cbn [mbind outcome_bind].
    rewrite (Nat2Z.inj_succ (S (S room))), (Nat2Z.inj_succ (S room)), !Z.pow_succ_r in Hv by lia. rewrite Nat2Z.inj_succ, Z.pow_succ_r in Hf by lia.
    destruct (IH (v / 100) (S room) (decimal 2 (v mod 100) ++ text)) as (k & Hk & -> & Hlt & Hge); [div_lia|div_lia| |lia|].
    { destruct fuel; [cbn in Hf; lia|lia]. }
    exists (k + 2)%nat. split; [lia|]. split.
    + apply (f_equal Ret), f_equal2; [lia|]. rewrite (decimal_app k 2), <- app_assoc. change (10 ^ Z.of_nat 2) with 100. by rewrite <- (decimal_mod 2 v) by lia.
    + replace (10 ^ Z.of_nat (k + 2)) with (10 ^ Z.of_nat k * 100) by (rewrite Nat2Z.inj_add, Z.pow_add_r by lia; done). split; [div_lia|]. right.
      destruct Hge as [->|Hge]; [change (10 ^ Z.of_nat (1 + 2 - 1)) with 100; lia|].
      replace (10 ^ Z.of_nat (k + 2 - 1)) with (10 ^ Z.of_nat (k - 1) * 100) by (transitivity (10 ^ (Z.of_nat (k - 1) + 2)); [by rewrite Z.pow_add_r by lia|f_equal; lia]). div_lia.
  - destruct (Z.ltb_spec v 10).
    + exists 1%nat. split; [lia|]. destruct room as [|room]; [lia|]. cbn. rewrite Nat.sub_0_r. rewrite Z.mod_small by lia.
      split; [done|]. split; [lia|by left].
    + destruct room as [|[|room]]; [lia|cbn in Hv; lia|]. rewrite push_pair_Ret by lia. exists 2%nat. split; [lia|].
      split; [apply (f_equal Ret), f_equal2; [lia|done]|]. change (10 ^ Z.of_nat 2) with 100. change (10 ^ Z.of_nat (2 - 1)) with 10. split; [lia|by right].
Qed.

(** Padded with zeros it fills its room. *)
Lemma FormatUnsigned_padded v room : 0 <= v < 10 ^ Z.of_nat room -> v < 2 ^ 64 -> (0 < room)%nat ->
  exists w, FormatUnsigned UNSIGNED_ROUNDS v (room, []) = Ret w /\ pad_zeros w = decimal room v.
Proof.
  intros Hv H64 Hroom. destruct (FormatUnsigned_Ret UNSIGNED_ROUNDS v room []) as (k & Hk & -> & Hlt & _); [done| |unfold UNSIGNED_ROUNDS; lia|done|].
  { change (100 ^ Z.of_nat UNSIGNED_ROUNDS) with (10 ^ 20). lia. }
  eexists. split; [done|]. unfold pad_zeros. cbn. rewrite app_nil_r. rewrite <- decimal_pad by lia. f_equal. lia.
Qed.

Lemma FormatTwoDigits_Ret v : 0 <= v < 100 -> FormatTwoDigits v = Ret (decimal 2 v).
Proof.
  intros Hv. unfold FormatTwoDigits. rewrite decimal_pair. destruct (Z.ltb_spec v 10).
  - by rewrite (Z.div_small v 10), (Z.mod_small v 10) by lia.
  - destruct (digits_pair v Hv) as [-> ->]. done.
Qed.

(** ** What is read *)

Lemma parse_year_decimal n v acc rest : 0 <= v < 10 ^ Z.of_nat n -> 0 <= acc -> acc * 10 ^ Z.of_nat n + v <= MAX_YEAR ->
  parse_year (decimal n v ++ rest) acc = parse_year rest (acc * 10 ^ Z.of_nat n + v).
Proof.
  revert v rest. induction n as [|n IH]; intros v rest Hv Hacc Hmax.
  - cbn in *. f_equal. lia.
  - rewrite Nat2Z.inj_succ, Z.pow_succ_r in * by lia. cbn [decimal]. rewrite <- app_assoc. assert (0 <= acc * 10 ^ Z.of_nat n) by (apply Z.mul_nonneg_nonneg; lia).
    rewrite IH; [|div_lia|done|div_lia]. cbn [app parse_year]. rewrite digit_is_digit, digit_value.
    replace (v mod 10 + (acc * 10 ^ Z.of_nat n + v / 10) * 10) with (acc * (10 * 10 ^ Z.of_nat n) + v) by div_lia.
    destruct (Z.ltb_spec MAX_YEAR (acc * (10 * 10 ^ Z.of_nat n) + v)); [lia|done].
Qed.

Lemma parseDoubleDigit_pair v rest : 0 <= v < 100 -> parseDoubleDigit (decimal 2 v ++ rest) = Some (v, rest).
Proof.
  intros Hv. rewrite decimal_pair. cbn. autorewrite with digits. rewrite (Z.mod_small (v / 10)) by div_lia. do 2 f_equal. div_lia.
Qed.

Lemma parse_sixty_pair v rest : 0 <= v < 60 -> Time.parse_sixty (decimal 2 v ++ rest) = Some (v, rest).
Proof.
  intros Hv. unfold Time.parse_sixty. rewrite parseDoubleDigit_pair by lia. by replace ((v <? 0) || (60 <=? v)) with false by lia.
Qed.

(** As many digits as are allowed, and no more. *)
Lemma parse_hour_decimal n v allowed acc rest : 0 <= v -> Time.parse_hour (decimal n v ++ rest) allowed acc =
  if (n <=? allowed)%nat then Time.parse_hour rest (allowed - n) (acc * 10 ^ Z.of_nat n + v mod 10 ^ Z.of_nat n) else None.
Proof.
  revert v rest. induction n as [|n IH]; intros v rest Hv; [cbn [decimal app Nat.leb]; rewrite Nat.sub_0_r, Z.mod_1_r; f_equal; cbn; lia|].
  cbn [decimal]. rewrite <- app_assoc, IH by div_lia. destruct (Nat.leb_spec n allowed) as [Hn|Hn]; [|by rewrite (proj2 (Nat.leb_gt _ _)) by lia].
  cbn [app Time.parse_hour]. rewrite digit_is_digit, digit_value. destruct (allowed - n)%nat as [|left] eqn:Hleft; [by rewrite (proj2 (Nat.leb_gt _ _)) by lia|].
  rewrite (proj2 (Nat.leb_le _ _)) by lia. replace (allowed - S n)%nat with left by lia. f_equal. rewrite Nat2Z.inj_succ, Z.pow_succ_r, Z.rem_mul_r by lia. lia.
Qed.

Lemma parse_fraction_decimal n v micros rest : (n <= 6)%nat -> 0 <= v ->
  Time.parse_fraction (decimal n v ++ rest) 100000 micros = Time.parse_fraction rest (100000 / 10 ^ Z.of_nat n) (micros + v mod 10 ^ Z.of_nat n * 10 ^ Z.of_nat (6 - n)).
Proof.
  revert v rest. induction n as [|n IH]; intros v rest Hn Hv.
  - cbn. rewrite Z.mod_1_r. f_equal. lia.
  - cbn [decimal]. rewrite <- app_assoc, IH by (try lia; div_lia). cbn [app Time.parse_fraction]. rewrite digit_is_digit, digit_value.
    rewrite Nat2Z.inj_succ, Z.pow_succ_r by lia. assert (Hp : 0 < 10 ^ Z.of_nat n) by (apply Z.pow_pos_nonneg; lia).
    rewrite Z.quot_div_nonneg by (try lia; apply Z.div_pos; lia). rewrite Z.div_div, (Z.mul_comm _ 10) by lia.
    assert (Hc : 100000 / 10 ^ Z.of_nat n = 10 ^ Z.of_nat (5 - n) /\ 10 ^ Z.of_nat (6 - n) = 10 * 10 ^ Z.of_nat (5 - n)).
    { assert (Hn' : (n = 0 \/ n = 1 \/ n = 2 \/ n = 3 \/ n = 4 \/ n = 5)%nat) by lia. repeat destruct Hn' as [->|Hn']; subst; done. }
    destruct Hc as [-> ->]. replace (6 - S n)%nat with (5 - n)%nat by lia. assert (0 < 10 ^ Z.of_nat (5 - n)) by (apply Z.pow_pos_nonneg; lia).
    rewrite (proj2 (Z.ltb_lt 0 _)) by done. f_equal. rewrite (Z.rem_mul_r v 10 (10 ^ Z.of_nat n)) by lia. lia.
Qed.
