(* ===== verification/Timestamp.v ===== *)
(** Timestamps ([common/types/timestamp_t.cpp]), microseconds since 1970-01-01 in an
    [int64_t]: the date and the time of one, their text, and arithmetic with intervals. *)
From Stdlib Require Import Ascii String.
From S2P Require Import Prelude Date CastHelpers DateText.
Local Open Scope Z_scope.

Definition getDate (timestamp : Z) : Z :=
  let negative := if timestamp <? 0 then 1 else 0 in
  cast_int32 (Z.quot (timestamp + negative) MICROS_PER_DAY - negative).
Definition getTime (timestamp : Z) : outcome Z := int64 (timestamp - getDate timestamp * MICROS_PER_DAY).

(** The conversions only assert that both parts are valid. *)
Definition fromDateTime (date time : Z) : outcome Z :=
  _ ← convert date; _ ← Time.convert time;
  micros ← int64 (date * MICROS_PER_DAY);
  int64 (micros + time).

(** [Timestamp::convert]. *)
Definition split_timestamp (timestamp : Z) : outcome (Z * Z) := time ← getTime timestamp; Ret (getDate timestamp, time).

(** ** Text *)

(** The hours and minutes of an offset, with what is left, or nothing read. *)
Definition tryParseUTCOffset (rest : list ascii) : option (Z * Z * list ascii) :=
  match rest with
  | sign_char :: h :: h' :: rest =>
      if negb (Ascii.eqb sign_char "+") && negb (Ascii.eqb sign_char "-") then None
      else if negb (CharacterIsDigit h) || negb (CharacterIsDigit h') then None
      else
        let signed z := if Ascii.eqb sign_char "-" then - z else z in
        let hour_offset := signed (digit_of h * 10 + digit_of h') in
        match rest with
        | [] => Some (hour_offset, 0, [])
        | c :: after_colon =>
            let rest := if Ascii.eqb c ":" then after_colon else rest in
            match rest with
            | m :: m' :: rest' =>
                if negb (CharacterIsDigit m) || negb (CharacterIsDigit m') then Some (hour_offset, 0, rest)
                else Some (hour_offset, signed (digit_of m * 10 + digit_of m'), rest')
            | _ => Some (hour_offset, 0, rest)
            end
        end
  | _ => None
  end.

Definition is_char (rest : list ascii) (c : ascii) : bool := match rest with c' :: _ => Ascii.eqb c' c | [] => false end.

Definition tryConvertTimestamp (str : list ascii) : outcome (option Z) :=
  parsed ← tryConvertDate str true;
  match parsed with
  | None => Ret None
  | Some (date, []) => result ← fromDateTime date 0; Ret (Some result)
  | Some (date, rest) =>
      let rest := if is_char rest " " || is_char rest "T" then tail rest else rest in
      match Time.tryConvertTime rest with
      | None => Ret None
      | Some (time, rest) =>
          result ← fromDateTime date time;
          match rest with
          | [] => Ret (Some result)
          | _ =>
              let rest := if is_char rest "Z" then tail rest else rest in
              '(result, rest) ← (match tryParseUTCOffset rest with
                | Some (hour_offset, minute_offset, rest) =>
                    result ← int64 (result - (hour_offset * MICROS_PER_HOUR + minute_offset * MICROS_PER_MINUTE)); Ret (result, rest)
                | None => Ret (result, rest)
                end);
              match skip_spaces rest with [] => Ret (Some result) | _ => Ret None end
          end
      end
  end.

Definition timestamp_fromCString (str : list ascii) : outcome Z :=
  parsed ← tryConvertTimestamp str;
  match parsed with
  | Some result => Ret result
  | None => Throw (ConversionException "Error occurred during parsing timestamp. Given: {}. Expected format: (YYYY-MM-DD hh:mm:ss[.zzzzzz][+-TT[:tt]])")
  end.

Definition timestamp_toString (timestamp : Z) : outcome (list ascii) :=
  '(date, time) ← split_timestamp timestamp;
  date_text ← date_toString date;
  time_text ← Time.toString time;
  Ret (date_text ++ [" "%char] ++ time_text).

(** ** Operators *)

(** [timestamp_t::operator+(const interval_t&)]. *)
Definition timestamp_add_interval (timestamp : Z) (interval : interval_t) : outcome Z :=
  '(date, time) ← split_timestamp timestamp;
  date ← add_interval date interval;
  let diff := micros interval - Z.quot (micros interval) MICROS_PER_DAY * MICROS_PER_DAY in
  let time := time + diff in
  '(date, time) ← (if MICROS_PER_DAY <=? time then date ← int32 (date + 1); Ret (date, time - MICROS_PER_DAY)
                   else if time <? 0 then date ← int32 (date - 1); Ret (date, time + MICROS_PER_DAY)
                   else Ret (date, time));
  fromDateTime date time.

Definition timestamp_sub_interval (timestamp : Z) (interval : interval_t) : outcome Z :=
  interval ← inverse interval; timestamp_add_interval timestamp interval.

(** [timestamp_t::operator-(const timestamp_t&)]. *)
Definition timestamp_sub (value rhs : Z) : outcome interval_t :=
  difference ← int64 (value - rhs);
  diff ← int64 (Z.abs difference);
  let result_days := cast_int32 (diff / MICROS_PER_DAY) in
  let result_micros := diff mod MICROS_PER_DAY in
  if value <? rhs then result_days ← int32 (- result_days); Ret (Interval 0 result_days (- result_micros))
  else Ret (Interval 0 result_days result_micros).

(** [date_t::operator==] and [operator<] with a timestamp. *)
Definition date_eq_timestamp (date rhs : Z) : outcome bool := value ← fromDateTime date 0; Ret (value =? rhs).
Definition date_lt_timestamp (date rhs : Z) : outcome bool := value ← fromDateTime date 0; Ret (value <? rhs).

(** ** Parts *)

Definition getTimestampPart (specifier : DatePartSpecifier) (timestamp : Z) : outcome Z :=
  match specifier with
  | MICROSECOND => time ← getTime timestamp; Ret (Z.rem time MICROS_PER_MINUTE)
  | MILLISECOND => time ← getTime timestamp; Ret (Z.quot (Z.rem time MICROS_PER_MINUTE) MICROS_PER_MSEC)
  | SECOND => time ← getTime timestamp; Ret (Z.quot (Z.rem time MICROS_PER_MINUTE) MICROS_PER_SEC)
  | MINUTE => time ← getTime timestamp; Ret (Z.quot (Z.rem time MICROS_PER_HOUR) MICROS_PER_MINUTE)
  | HOUR => time ← getTime timestamp; Ret (Z.quot time MICROS_PER_HOUR)
  | _ => getDatePart specifier (getDate timestamp)
  end.

(** [Timestamp::trunc]. *)
Definition trunc_timestamp (specifier : DatePartSpecifier) (timestamp : Z) : outcome Z :=
  '(date, time) ← split_timestamp timestamp;
  '(hour, min, sec, micros) ← Time.convert time;
  match specifier with
  | MICROSECOND => Ret timestamp
  | MILLISECOND => time ← Time.fromTime hour min sec (micros - Z.rem micros MICROS_PER_MSEC); fromDateTime date time
  | SECOND => time ← Time.fromTime hour min sec 0; fromDateTime date time
  | MINUTE => time ← Time.fromTime hour min 0 0; fromDateTime date time
  | HOUR => time ← Time.fromTime hour 0 0 0; fromDateTime date time
  | _ => date ← trunc_date specifier (getDate timestamp); fromDateTime date 0
  end.

Example timestamp_text : timestamp_toString (-1) = Ret (chars "1969-12-31 23:59:59.999999").
Proof. vm_compute. reflexivity. Qed.
Example timestamp_parsed : timestamp_fromCString (chars "1970-01-01T02:00:00Z+01:30") = Ret 1800000000.
Proof. vm_compute. reflexivity. Qed.
Example last_year_overflows : timestamp_fromCString (chars "294247-12-31") = Undef.
Proof. vm_compute. reflexivity. Qed.
