(* ===== verification/Interval.v ===== *)
(** Intervals ([common/types/interval_t.cpp]): comparison, arithmetic, parts and text. The
    SQL operators on them are these operators: [/] takes the [int64_t] of the query as a
    [uint64_t]. *)
From Stdlib Require Import Ascii String.
From S2P Require Import Prelude Date CastHelpers.
Local Open Scope Z_scope.

Definition DAYS_PER_MONTH : Z := 30.
Definition MONTHS_PER_DECADE : Z := 120.
Definition MONTHS_PER_CENTURY : Z := 1200.
Definition MONTHS_PER_MILLENIUM : Z := 12000.
Definition MICROS_PER_MONTH : Z := MICROS_PER_DAY * DAYS_PER_MONTH.
Definition NANOS_PER_MICRO : Z := 1000.

(** [int64_t(z)]. *)
Definition cast_int64 (z : Z) : Z := (z + 2 ^ 63) mod 2 ^ 64 - 2 ^ 63.

(** ** Comparison *)

Definition interval_eq (lhs rhs : interval_t) : bool :=
  (days lhs =? days rhs) && (months lhs =? months rhs) && (micros lhs =? micros rhs).

(** The values are those of the three fields: no sum leaves 64 bits. *)
Definition normalizeIntervalEntries (input : interval_t) : Z * Z * Z :=
  let extra_months_d := Z.quot (days input) DAYS_PER_MONTH in
  let extra_months_micros := Z.quot (micros input) MICROS_PER_MONTH in
  let input_days := days input - extra_months_d * DAYS_PER_MONTH in
  let input_micros := micros input - extra_months_micros * MICROS_PER_MONTH in
  let extra_days_micros := Z.quot input_micros MICROS_PER_DAY in
  let input_micros := input_micros - extra_days_micros * MICROS_PER_DAY in
  (months input + extra_months_d + extra_months_micros, input_days + extra_days_micros, input_micros).

Definition greaterThan (left right : interval_t) : bool :=
  let '(lMonths, lDays, lMicros) := normalizeIntervalEntries left in
  let '(rMonths, rDays, rMicros) := normalizeIntervalEntries right in
  if rMonths <? lMonths then true
  else if lMonths <? rMonths then false
  else if rDays <? lDays then true
  else if lDays <? rDays then false
  else rMicros <? lMicros.

Definition interval_gt (lhs rhs : interval_t) : bool := greaterThan lhs rhs.
Definition interval_ge (lhs rhs : interval_t) : bool := interval_gt lhs rhs || interval_eq lhs rhs.
Definition interval_lt (lhs rhs : interval_t) : bool := negb (interval_ge lhs rhs).
Definition interval_le (lhs rhs : interval_t) : bool := negb (interval_gt lhs rhs).

(** ** Arithmetic *)

Definition interval_add (lhs rhs : interval_t) : outcome interval_t :=
  m ← int32 (months lhs + months rhs); d ← int32 (days lhs + days rhs); u ← int64 (micros lhs + micros rhs); Ret (Interval m d u).
Definition interval_sub (lhs rhs : interval_t) : outcome interval_t :=
  m ← int32 (months lhs - months rhs); d ← int32 (days lhs - days rhs); u ← int64 (micros lhs - micros rhs); Ret (Interval m d u).

(** [interval_t::operator/(const uint64_t&)]: a signed operand becomes unsigned first. *)
Definition udiv (z rhs : Z) : outcome Z := if rhs =? 0 then Undef else Ret (u64 z / rhs).
Definition umod (z rhs : Z) : outcome Z := if rhs =? 0 then Undef else Ret (u64 z mod rhs).
Definition divide (interval : interval_t) (rhs : Z) : outcome interval_t :=
  monthsRemainder ← umod (months interval) rhs;
  let all_days := days interval + cast_int32 monthsRemainder * DAYS_PER_MONTH in
  daysRemainder ← umod all_days rhs;
  result_months ← udiv (months interval) rhs;
  result_days ← udiv all_days rhs;
  micros_of_days ← int64 (cast_int32 daysRemainder * MICROS_PER_DAY);
  all_micros ← int64 (micros interval + micros_of_days);
  result_micros ← udiv all_micros rhs;
  Ret (Interval (cast_int32 result_months) (cast_int32 result_days) (cast_int64 result_micros)).
(** The division of a query, by an [int64_t]. *)
Definition Divide (left : interval_t) (right : Z) : outcome interval_t := divide left (u64 right).

(** ** Parts *)

Definition getIntervalPart (specifier : DatePartSpecifier) (interval : interval_t) : outcome Z :=
  match specifier with
  | YEAR => Ret (Z.quot (months interval) MONTHS_PER_YEAR)
  | MONTH => Ret (Z.rem (months interval) MONTHS_PER_YEAR)
  | DAY => Ret (days interval)
  | DECADE => Ret (Z.quot (months interval) MONTHS_PER_DECADE)
  | CENTURY => Ret (Z.quot (months interval) MONTHS_PER_CENTURY)
  | MILLENNIUM => Ret (Z.quot (months interval) MONTHS_PER_MILLENIUM)
  | QUARTER => Ret (Z.quot (Z.rem (months interval) MONTHS_PER_YEAR) MONTHS_PER_QUARTER + 1)
  | MICROSECOND => Ret (Z.rem (micros interval) MICROS_PER_MINUTE)
  | MILLISECOND => Ret (Z.quot (Z.rem (micros interval) MICROS_PER_MINUTE) MICROS_PER_MSEC)
  | SECOND => Ret (Z.quot (Z.rem (micros interval) MICROS_PER_MINUTE) MICROS_PER_SEC)
  | MINUTE => Ret (Z.quot (Z.rem (micros interval) MICROS_PER_HOUR) MICROS_PER_MINUTE)
  | HOUR => Ret (cast_int32 (Z.quot (micros interval) MICROS_PER_HOUR))
  | WEEK => Undef
  end.

Definition getMicro (val : interval_t) : outcome Z :=
  m ← int64 (months val * MICROS_PER_MONTH); sum ← int64 (micros val + m);
  d ← int64 (days val * MICROS_PER_DAY); int64 (sum + d).
Definition getNanoseconds (val : interval_t) : outcome Z := u ← getMicro val; int64 (u * NANOS_PER_MICRO).

(** [Interval::toString]. *)
Definition interval_toString (interval : interval_t) : outcome (list ascii) := IntervalToStringCast.Format interval.

Example interval_text : interval_toString (Interval 14 (-3) 3661500000) = Ret (chars "1 year 2 months -3 days 01:01:01.5").
Proof. vm_compute. reflexivity. Qed.
Example third_of_three_months : Divide (Interval 3 1 0) 3 = Ret (Interval 1 0 28800000000).
Proof. vm_compute. reflexivity. Qed.
