(* ===== verification/TemporalFacts.v ===== *)
(** Dates, times and timestamps as text, and the parts of a timestamp: what [toString]
    writes, that the parsers read it back, and that a timestamp is its date and its time,
    before 1970 too; then intervals. *)
From Stdlib Require Import Ascii String.
From S2P Require Import Prelude Date CastHelpers DateText DateFacts Timestamp Interval.
Local Open Scope Z_scope.

(** ** Dates *)

Definition year_width (y : Z) : nat := Z.to_nat (4 + at_least y 10000 + at_least y 100000 + at_least y 1000000 + at_least y 10000000).
Definition date_text (y m d : Z) : list ascii := decimal (year_width y) y ++ ["-"%char] ++ decimal 2 m ++ ["-"%char] ++ decimal 2 d.

Lemma year_width_fits y : 1 <= y <= MAX_YEAR + 1 -> 0 <= y < 10 ^ Z.of_nat (year_width y) /\ (4 <= year_width y <= 6)%nat /\ y < 2 ^ 64.
Proof.
  unfold MAX_YEAR, year_width, at_least. intros Hy. destruct (Z.leb_spec 10000 y), (Z.leb_spec 100000 y), (Z.leb_spec 1000000 y), (Z.leb_spec 10000000 y); try lia.
  all: match goal with |- context [Z.to_nat ?e] => let n := eval vm_compute in (Z.to_nat e) in change (Z.to_nat e) with n end.
  all: match goal with |- context [10 ^ ?e] => let p := eval vm_compute in (10 ^ e) in change (10 ^ e) with p end.
  all: lia.
Qed.

Lemma text_of_exact text length : Z.of_nat (List.length text) = length -> text_of length text = Ret text.
Proof.
  intros <-. unfold text_of. rewrite (proj2 (Z.leb_le _ _)) by done. rewrite Nat2Z.id, Nat.sub_diag. cbn. by rewrite app_nil_r.
Qed.

(** The parts of a valid date fit their digits. *)
Lemma valid_bounds y m d : isValid y m d = true -> MIN_YEAR <= y <= MAX_YEAR /\ 1 <= m <= 12 /\ 1 <= d <= 31.
Proof.
  intros [Hy [Hm Hd]]%isValid_is_date. unfold month_length in Hd. split; [done|]. split; [done|]. repeat case_match; lia.
Qed.

Lemma date_toString_Ret y m d : isValid y m d = true ->
  date_toString (day_number y m d) = Ret (if y <=? 0 then date_text (1 - y) m d ++ DateToStringCast.BC_SUFFIX else date_text y m d).
Proof.
  intros Hv. destruct (valid_bounds _ _ _ Hv) as (Hy & Hm & Hd). unfold MIN_YEAR in Hy. unfold date_toString. rewrite convert_day_number by done. cbn [mbind outcome_bind].
  unfold DateToStringCast.Length, DateToStringCast.Format. change (Z.of_nat (List.length DateToStringCast.BC_SUFFIX)) with 5.
  destruct (Z.leb_spec y 0) as [Hbc|Had].
  - replace (- y + 1) with (1 - y) by lia. destruct (year_width_fits (1 - y)) as (Hw & Hn & H64); [unfold MAX_YEAR; lia|].
    fold (year_width (1 - y)). destruct (FormatUnsigned_padded (1 - y) (year_width (1 - y))) as (w & -> & Hp); [done|done|lia|]. cbn [mbind outcome_bind].
    rewrite !FormatTwoDigits_Ret by lia. cbn [mbind outcome_bind]. rewrite Hp, text_of_exact; [unfold date_text; by rewrite <- !app_assoc|].
    rewrite !length_app, !length_decimal. cbn [List.length]. change (List.length DateToStringCast.BC_SUFFIX) with 5%nat. unfold year_width in *. lia.
  - destruct (year_width_fits y) as (Hw & Hn & H64); [lia|].
    fold (year_width y). destruct (FormatUnsigned_padded y (year_width y)) as (w & -> & Hp); [done|done|lia|]. cbn [mbind outcome_bind].
    rewrite !FormatTwoDigits_Ret by lia. cbn [mbind outcome_bind]. rewrite Hp, app_nil_r, text_of_exact; [done|].
    rewrite !length_app, !length_decimal. cbn [List.length]. unfold year_width in *. lia.
Qed.

Lemma decimal_head n v : (0 < n)%nat -> exists v' rest, decimal n v = digit_char (v' mod 10) :: rest.
Proof.
  intros Hn. destruct n as [|n]; [lia|]. change (S n) with (1 + n)%nat. rewrite decimal_app. eexists _, _. done.
Qed.

(** Text that starts with a digit starts with no space. *)
Lemma starts_with_digit n v rest : (0 < n)%nat -> exists c rest', decimal n v ++ rest = c :: rest' /\ CharacterIsDigit c = true /\ isSpace c = false.
Proof.
  intros Hn. destruct (decimal_head n v Hn) as (v' & r & ->). eexists _, _. split; [done|]. autorewrite with digits. done.
Qed.

(** What the parser makes of a date, whatever follows. *)
Lemma tryConvertDate_digits y m d rest allowTrailing : 1 <= y <= MAX_YEAR -> 0 <= m < 100 -> 0 <= d < 100 ->
  tryConvertDate (date_text y m d ++ rest) allowTrailing =
    if negb (Nat.eqb (length (skip_spaces rest)) 0) && negb allowTrailing then Ret None
    else match fromDate y m d with
    | Ret result => Ret (Some (result, skip_spaces rest))
    | Throw (ConversionException _) => Ret None
    | Throw e => Throw e
    | Undef => Undef
    end.
Proof.
  intros Hy Hm Hd. destruct (year_width_fits y) as (Hw & Hn & _); [lia|].
  unfold tryConvertDate, date_text. rewrite <- !app_assoc.
  pose proof (parse_year_decimal (year_width y) y 0 (["-"%char] ++ decimal 2 m ++ ["-"%char] ++ decimal 2 d ++ rest)) as Hyear.
  rewrite Z.mul_0_l, Z.add_0_l in Hyear. specialize (Hyear ltac:(lia) ltac:(lia) ltac:(lia)). revert Hyear.
  destruct (starts_with_digit (year_width y) y (["-"%char] ++ decimal 2 m ++ ["-"%char] ++ decimal 2 d ++ rest)) as (c & tl & -> & Hc & Hs); [lia|].
  intros Hyear. cbn [skip_spaces]. rewrite Hs, Hc. cbn [negb]. rewrite Hyear. cbn [app parse_year]. change (CharacterIsDigit "-") with false.
  cbn [is_separator Ascii.eqb Bool.eqb orb negb]. rewrite (parseDoubleDigit_pair m) by lia.
  destruct (decimal_head 2 d) as (v & r & Hr); [lia|]. rewrite Hr at 1. cbn [app Ascii.eqb Bool.eqb negb]. by rewrite (parseDoubleDigit_pair d) by lia.
Qed.

Lemma tryConvertDate_text y m d rest allowTrailing : isValid y m d = true -> 1 <= y -> allowTrailing = true \/ rest = [] ->
  tryConvertDate (date_text y m d ++ rest) allowTrailing = Ret (Some (day_number y m d, skip_spaces rest)).
Proof.
  intros Hv Hy1 Hrest. destruct (valid_bounds _ _ _ Hv) as (Hy & Hm & Hd). rewrite tryConvertDate_digits, fromDate_Ret by (done || lia).
  destruct Hrest as [->| ->]; [by rewrite andb_false_r|done].
Qed.

(** ** Times of day *)

(** A time below a day, from its parts. *)
Definition is_time (h m s u : Z) : Prop := 0 <= h < 24 /\ 0 <= m < 60 /\ 0 <= s < 60 /\ 0 <= u < 1000000.

Lemma isValid_is_time h m s u : Time.isValid h m s u = true <-> is_time h m s u.
Proof. unfold Time.isValid, is_time. rewrite negb_true_iff, !orb_false_iff, !Z.ltb_ge. lia. Qed.

Lemma cast_int32_small z : - 2 ^ 31 <= z < 2 ^ 31 -> cast_int32 z = z.
Proof. intros Hz. unfold cast_int32. rewrite Z.mod_small; lia. Qed.
Lemma int64_Ret z : - 2 ^ 63 <= z < 2 ^ 63 -> int64 z = Ret z.
Proof. intros Hz. unfold int64. by replace ((- 2 ^ 63 <=? z) && (z <? 2 ^ 63)) with true by lia. Qed.
Lemma int32_Ret z : - 2 ^ 31 <= z < 2 ^ 31 -> int32 z = Ret z.
Proof. intros Hz. unfold int32. by replace ((- 2 ^ 31 <=? z) && (z <? 2 ^ 31)) with true by lia. Qed.

Ltac micros := unfold MICROS_PER_DAY, MICROS_PER_HOUR, MICROS_PER_MINUTE, MICROS_PER_SEC, MICROS_PER_MSEC in *.

Lemma time_bounds h m s u : is_time h m s u -> 0 <= Time.fromTimeInternal h m s u < MICROS_PER_DAY.
Proof. unfold is_time, Time.fromTimeInternal. micros. lia. Qed.

Lemma quot_exact a b q r : a = b * q + r -> 0 <= r < b -> 0 <= q -> Z.quot a b = q.
Proof. intros -> Hr Hq. rewrite Z.quot_div_nonneg by nia. symmetry. by apply (Z.div_unique _ _ _ r); [lia|]. Qed.

Lemma Time_convert_parts h m s u : is_time h m s u -> Time.convert (Time.fromTimeInternal h m s u) = Ret (h, m, s, u).
Proof.
  intros Ht. pose proof Ht as (Hh & Hm & Hs & Hu). unfold Time.convert, Time.fromTimeInternal. micros.
  rewrite (quot_exact _ _ h ((m * 60 + s) * 1000000 + u)) by lia. rewrite (cast_int32_small h) by lia.
  rewrite (quot_exact _ _ m (s * 1000000 + u)) by lia. rewrite (cast_int32_small m) by lia.
  rewrite (quot_exact _ _ s u) by lia. rewrite (cast_int32_small s) by lia.
  match goal with |- context [cast_int32 ?e] => replace e with u by lia end. rewrite cast_int32_small by lia.
  rewrite (proj2 (isValid_is_time h m s u)) by done. done.
Qed.

Lemma time_parts t : 0 <= t < MICROS_PER_DAY -> exists h m s u, is_time h m s u /\ t = Time.fromTimeInternal h m s u.
Proof.
  micros. intros Ht. exists (t / 3600000000), (t mod 3600000000 / 60000000), (t mod 60000000 / 1000000), (t mod 1000000).
  unfold is_time, Time.fromTimeInternal. micros. div_lia.
Qed.

Lemma Time_convert_Ret t : 0 <= t < MICROS_PER_DAY -> exists p, Time.convert t = Ret p.
Proof. intros Ht. destruct (time_parts t Ht) as (h & m & s & u & Hp & ->). eexists. by apply Time_convert_parts. Qed.

(** The microseconds without the zeros at their end. *)
Lemma trailing_zeros_Ret u i : (i <= 5)%nat -> 0 <= u ->
  exists z, TimeToStringCast.trailing_zeros i (decimal 6 u) = Ret (Z.of_nat z) /\ (z <= i)%nat /\ (u / 10 ^ Z.of_nat (5 - i)) mod 10 ^ Z.of_nat z = 0.
Proof.
  intros Hi Hu. induction i as [|i IH]; [exists 0%nat; cbn; split; [done|split; [done|apply Z.mod_1_r]]|].
  cbn [TimeToStringCast.trailing_zeros]. unfold load. rewrite lookup_decimal by lia. cbn [mbind outcome_bind].
  replace (6 - S (S i))%nat with (5 - S i)%nat by lia. set (v := u / 10 ^ Z.of_nat (5 - S i)).
  destruct (Ascii.eqb_spec (digit_char (v mod 10)) zero_char) as [Hc|Hc].
  - destruct IH as (z & -> & Hz & Hm); [lia|]. exists (S z). cbn [mbind outcome_bind]. split; [f_equal; lia|]. split; [lia|].
    assert (H0 : v mod 10 = 0) by (rewrite <- (digit_value v), Hc; done).
    replace (5 - i)%nat with (S (5 - S i)) in Hm by lia. rewrite Nat2Z.inj_succ, Z.pow_succ_r, (Z.mul_comm 10), <- Z.div_div in Hm by lia. fold v in Hm.
    rewrite Nat2Z.inj_succ, Z.pow_succ_r, Z.rem_mul_r by lia. rewrite Hm, H0. lia.
  - exists 0%nat. split; [done|]. split; [lia|]. apply Z.mod_1_r.
Qed.

Definition fraction_text (u : Z) (n : nat) : list ascii := decimal n (u / 10 ^ Z.of_nat (6 - n)).

Lemma FormatMicros_Ret u : 0 <= u < 1000000 -> exists z, TimeToStringCast.FormatMicros u = Ret (Z.of_nat z, decimal 6 u) /\ (z <= 5)%nat /\ u mod 10 ^ Z.of_nat z = 0.
Proof.
  intros Hu. unfold TimeToStringCast.FormatMicros. destruct (FormatUnsigned_padded u 6) as (w & -> & Hw); [cbn; lia|lia|lia|]. cbn [mbind outcome_bind]. rewrite Hw.
  destruct (trailing_zeros_Ret u 5) as (z & -> & Hz & Hm); [done|lia|]. cbn [mbind outcome_bind]. exists z. split; [done|]. split; [done|].
  cbn [Nat.sub] in Hm. by rewrite Z.div_1_r in Hm.
Qed.

Lemma take_fraction u z : (z <= 5)%nat -> take (6 - z) (decimal 6 u) = fraction_text u (6 - z).
Proof.
  intros Hz. replace 6%nat with ((6 - z) + z)%nat at 2 by lia. rewrite decimal_app, take_app_length' by (by rewrite length_decimal).
  unfold fraction_text. do 3 f_equal. lia.
Qed.

(** The text of a time with [n] digits of its fraction, from the colon after the hour on. *)
Definition after_hour (m s u : Z) (n : nat) : list ascii :=
  [":"%char] ++ decimal 2 m ++ [":"%char] ++ decimal 2 s ++ (if u =? 0 then [] else ["."%char] ++ fraction_text u n).
Definition time_text (h m s u : Z) (n : nat) : list ascii := decimal 2 h ++ after_hour m s u n.

Lemma Time_toString_Ret h m s u : is_time h m s u -> exists z, (z <= 5)%nat /\ u mod 10 ^ Z.of_nat z = 0 /\
  Time.toString (Time.fromTimeInternal h m s u) = Ret (time_text h m s u (6 - z)).
Proof.
  intros Ht. pose proof Ht as (Hh & Hm & Hs & Hu). unfold Time.toString. rewrite Time_convert_parts by done. cbn [mbind outcome_bind].
  unfold TimeToStringCast.Length, TimeToStringCast.Format, time_text, after_hour. rewrite !FormatTwoDigits_Ret by lia. destruct (Z.eqb_spec u 0) as [->|Hu0].
  - exists 0%nat. split; [lia|]. split; [done|]. cbn [mbind outcome_bind]. change (8 <? 8) with false. cbn iota. cbn [mbind outcome_bind]. rewrite !app_nil_r, text_of_exact; [done|].
    rewrite !length_app, !length_decimal. done.
  - destruct (FormatMicros_Ret u) as (z & -> & Hz & Hmod); [lia|]. exists z. split; [done|]. split; [done|]. cbn [mbind outcome_bind].
    rewrite (proj2 (Z.ltb_lt _ _)) by lia. replace (Z.to_nat (15 - Z.of_nat z - 9)) with (6 - z)%nat by lia. rewrite length_decimal.
    rewrite (proj2 (Nat.leb_le _ _)) by lia. cbn [mbind outcome_bind ku_assert]. rewrite take_fraction by done. rewrite <- !app_assoc.
    rewrite text_of_exact; [done|]. unfold fraction_text. rewrite !length_app, !length_decimal. cbn [List.length]. lia.
Qed.

(** An hour of up to nine digits is read, a longer one is refused. *)
Lemma tryConvertInternal_digits n h m s u z : (0 < n)%nat -> 0 <= h < 10 ^ Z.of_nat n -> 0 <= m < 60 -> 0 <= s < 60 -> 0 <= u < 1000000 -> (z <= 5)%nat -> u mod 10 ^ Z.of_nat z = 0 ->
  Time.tryConvertInternal (decimal n h ++ after_hour m s u (6 - z)) = if (n <=? 9)%nat then Some (Time.fromTimeInternal h m s u, []) else None.
Proof.
  intros Hn Hh Hm Hs Hu Hz Hmod. unfold Time.tryConvertInternal. pose proof (parse_hour_decimal n h 9 0 (after_hour m s u (6 - z)) (proj1 Hh)) as Hhour. revert Hhour.
  destruct (starts_with_digit n h (after_hour m s u (6 - z))) as (c & tl & -> & Hc & Hsp); [lia|].
  intros Hhour. cbn [skip_spaces]. rewrite Hsp, Hc. cbn [negb]. rewrite Hhour. destruct (n <=? 9)%nat; [|done]. unfold after_hour.
  set (fraction := if u =? 0 then [] else ["."%char] ++ fraction_text u (6 - z)). rewrite Z.mul_0_l, Z.add_0_l, Z.mod_small by done.
  cbn [app Time.parse_hour]. change (CharacterIsDigit ":") with false. cbn iota. cbn [Ascii.eqb Bool.eqb negb]. rewrite parse_sixty_pair by lia. cbn [Ascii.eqb Bool.eqb negb].
  rewrite parse_sixty_pair by lia. subst fraction. destruct (Z.eqb_spec u 0) as [->|Hu0]; [done|].
  cbn [app Ascii.eqb Bool.eqb]. unfold fraction_text. replace (6 - (6 - z))%nat with z by lia.
  assert (Hp : 0 < 10 ^ Z.of_nat z) by (apply Z.pow_pos_nonneg; lia).
  rewrite <- (app_nil_r (decimal _ _)), parse_fraction_decimal by (try lia; apply Z.div_pos; lia). cbn [Time.parse_fraction].
  replace (6 - (6 - z))%nat with z by lia. do 3 f_equal. rewrite Z.mod_small.
  - pose proof (Z.div_mod u (10 ^ Z.of_nat z)). lia.
  - split; [apply Z.div_pos; lia|]. apply Z.div_lt_upper_bound; [done|]. rewrite <- Z.pow_add_r by lia.
    replace (Z.of_nat z + Z.of_nat (6 - z)) with 6 by lia. lia.
Qed.

Lemma tryConvertInternal_text h m s u z : is_time h m s u -> (z <= 5)%nat -> u mod 10 ^ Z.of_nat z = 0 ->
  Time.tryConvertInternal (time_text h m s u (6 - z)) = Some (Time.fromTimeInternal h m s u, []).
Proof. intros (Hh & Hm & Hs & Hu) Hz Hmod. by apply (tryConvertInternal_digits 2); try lia. Qed.

(** A time ends where its digits do, and starts with one. *)
Lemma tryConvertTime_text h m s u z : is_time h m s u -> (z <= 5)%nat -> u mod 10 ^ Z.of_nat z = 0 ->
  Time.tryConvertTime (time_text h m s u (6 - z)) = Some (Time.fromTimeInternal h m s u, []).
Proof.
  intros Ht Hz Hmod. unfold Time.tryConvertTime. rewrite tryConvertInternal_text by done.
  by rewrite (proj2 (Z.ltb_lt _ _)) by apply time_bounds, Ht.
Qed.

Lemma time_text_head h m s u n : exists c tl, time_text h m s u n = c :: tl /\ isSpace c = false /\ Ascii.eqb c " " = false /\ Ascii.eqb c "T" = false.
Proof.
  destruct (decimal_head 2 h) as (v & r & Hr); [lia|]. unfold time_text. rewrite Hr. eexists _, _. split; [done|].
  rewrite digit_no_space. split; [done|]. pose proof (digit_is_digit v) as Hd. revert Hd. generalize (digit_char (v mod 10)). intros c Hd.
  split; [destruct (Ascii.eqb_spec c " ") as [->|]|destruct (Ascii.eqb_spec c "T") as [->|]]; done.
Qed.

(** ** Timestamps *)

Definition is_int64_value (v : Z) : Prop := - 2 ^ 63 <= v < 2 ^ 63.

Lemma getDate_floor v : is_int64_value v -> getDate v = v / MICROS_PER_DAY.
Proof.
  unfold is_int64_value, getDate. micros. intros Hv. destruct (Z.ltb_spec v 0).
  - rewrite cast_int32_small; Z.to_euclidean_division_equations; lia.
  - rewrite Z.add_0_r, Z.sub_0_r, Z.quot_div_nonneg by lia. apply cast_int32_small. div_lia.
Qed.

Lemma split_timestamp_Ret v : is_int64_value v -> split_timestamp v = Ret (v / MICROS_PER_DAY, v mod MICROS_PER_DAY).
Proof.
  intros Hv. unfold split_timestamp, getTime. rewrite getDate_floor by done. rewrite int64_Ret by (unfold is_int64_value in Hv; micros; div_lia).
  cbn. do 2 f_equal. micros. div_lia.
Qed.

(** The days of a timestamp are never after the last year. *)
Lemma timestamp_in_years v : is_int64_value v -> MIN_DAY <= v / MICROS_PER_DAY -> in_years (v / MICROS_PER_DAY).
Proof.
  intros Hv Hmin. split; [done|]. rewrite MAX_DAY_value. unfold is_int64_value in Hv. micros. div_lia.
Qed.

Lemma fromDateTime_Ret date time : in_years date -> 0 <= time < MICROS_PER_DAY -> is_int64_value (date * MICROS_PER_DAY) -> is_int64_value (date * MICROS_PER_DAY + time) ->
  fromDateTime date time = Ret (date * MICROS_PER_DAY + time).
Proof.
  intros Hd Ht H1 H2. unfold fromDateTime. destruct (in_years_valid date Hd) as (y & m & d & Hv & ->). rewrite convert_day_number by done. cbn [mbind outcome_bind].
  destruct (Time_convert_Ret time Ht) as (p & ->). cbn [mbind outcome_bind]. rewrite int64_Ret by done. cbn [mbind outcome_bind]. by rewrite int64_Ret.
Qed.

(** The two parts make the timestamp again. *)
Lemma fromDateTime_parts v : is_int64_value v -> MIN_DAY <= v / MICROS_PER_DAY -> fromDateTime (v / MICROS_PER_DAY) (v mod MICROS_PER_DAY) = Ret v.
Proof.
  intros Hv Hmin. assert (Hsum : v / MICROS_PER_DAY * MICROS_PER_DAY + v mod MICROS_PER_DAY = v) by (micros; div_lia).
  rewrite fromDateTime_Ret, Hsum; [done|by apply timestamp_in_years|apply Z.mod_pos_bound; by micros| |by rewrite Hsum].
  rewrite MIN_DAY_value in Hmin. unfold is_int64_value in *. micros. div_lia.
Qed.

(** Intervals: the order of their normal forms, the text of numbers that fills its room,
    and the arithmetic of a division. *)

(** An interval with fields of their types. *)
Definition interval_ok (i : interval_t) : Prop :=
  - 2 ^ 31 <= months i < 2 ^ 31 /\ - 2 ^ 31 <= days i < 2 ^ 31 /\ is_int64_value (micros i).

(** ** Order *)

Definition normal_lt (a b : Z * Z * Z) : Prop :=
  let '(m, d, u) := a in let '(m', d', u') := b in m < m' \/ (m = m' /\ (d < d' \/ (d = d' /\ u < u'))).

Lemma greaterThan_spec a b : greaterThan a b = true <-> normal_lt (normalizeIntervalEntries b) (normalizeIntervalEntries a).
Proof.
  unfold greaterThan, normal_lt. destruct (normalizeIntervalEntries a) as [[m d] u], (normalizeIntervalEntries b) as [[m' d'] u'].
  destruct (Z.ltb_spec m' m); [split; [lia|done]|]. destruct (Z.ltb_spec m m'); [split; [done|lia]|].
  destruct (Z.ltb_spec d' d); [split; [lia|done]|]. destruct (Z.ltb_spec d d'); [split; [done|lia]|]. rewrite Z.ltb_lt. lia.
Qed.

Lemma normal_lt_trichotomy a b : normal_lt a b \/ a = b \/ normal_lt b a.
Proof.
  destruct a as [[m d] u], b as [[m' d'] u']. unfold normal_lt.
  destruct (Z.lt_trichotomy m m') as [?|[->|?]]; [lia| |lia]. destruct (Z.lt_trichotomy d d') as [?|[->|?]]; [lia| |lia].
  destruct (Z.lt_trichotomy u u') as [?|[->|?]]; [lia|by right; left|lia].
Qed.

Lemma normal_lt_irrefl a : ~ normal_lt a a.
Proof. destruct a as [[m d] u]. unfold normal_lt. lia. Qed.
Lemma normal_lt_asym a b : normal_lt a b -> ~ normal_lt b a.
Proof. destruct a as [[m d] u], b as [[m' d'] u']. unfold normal_lt. lia. Qed.

Lemma interval_eq_spec a b : interval_eq a b = true <-> a = b.
Proof.
  unfold interval_eq. rewrite !andb_true_iff, !Z.eqb_eq. destruct a, b; cbn. split; [intros [[-> ->] ->]; done|intros [= -> -> ->]; done].
Qed.

(** ** Text in a buffer *)

Lemma append_Ret text more : (length text + length more <= 70)%nat -> IntervalToStringCast.append text more = Ret (text ++ more).
Proof. intros H. unfold IntervalToStringCast.append, IntervalToStringCast.BUFFER. rewrite (proj2 (Nat.leb_le _ _)) by (rewrite length_app; lia). done. Qed.

(** The number of digits. *)
Lemma getUnsignedInt64Length_digits v k : 0 <= v < 2 ^ 64 -> (0 < k)%nat -> v < 10 ^ Z.of_nat k -> (k = 1%nat \/ 10 ^ Z.of_nat (k - 1) <= v) ->
  getUnsignedInt64Length v = Z.of_nat k.
Proof.
  intros Hv Hk Hlt Hge. assert (Hk20 : (k <= 20)%nat).
  { destruct Hge as [->|Hge]; [lia|]. destruct (Nat.le_gt_cases k 20) as [|Hbig]; [done|]. exfalso.
    pose proof (Z.pow_le_mono_r 10 20 (Z.of_nat (k - 1))) as Hp. specialize (Hp ltac:(lia) ltac:(lia)). lia. }
  unfold getUnsignedInt64Length, at_least.
  do 21 (destruct k as [|k]; [cbn in Hlt, Hge; repeat match goal with |- context [?a <=? ?b] => destruct (Z.leb_spec a b) end; lia|]). lia.
Qed.

Lemma abs_lxor v : - 2 ^ 63 < v < 2 ^ 63 -> int64 (Z.lxor v (if v <? 0 then -1 else 0) - (if v <? 0 then -1 else 0)) = Ret (Z.abs v).
Proof.
  intros Hv. destruct (Z.ltb_spec v 0).
  - replace (Z.lxor v (-1)) with (- v - 1) by (rewrite Z.lxor_m1_r; unfold Z.lnot; lia). rewrite int64_Ret by lia. f_equal. lia.
  - rewrite Z.lxor_0_r. rewrite int64_Ret by lia. f_equal. lia.
Qed.

(** The digits of a number: no more than it has. *)
Definition num_digits (v : Z) : nat := Z.to_nat (getUnsignedInt64Length v).
Definition num_text (v : Z) : list ascii := decimal (num_digits v) v.
Definition signed_text (v : Z) : list ascii := (if v <? 0 then ["-"%char] else []) ++ num_text (Z.abs v).

Lemma num_digits_exact v : 0 <= v < 2 ^ 64 ->
  (0 < num_digits v)%nat /\ v < 10 ^ Z.of_nat (num_digits v) /\ (num_digits v = 1%nat \/ 10 ^ Z.of_nat (num_digits v - 1) <= v) /\
  (forall n, (0 < n)%nat -> v < 10 ^ Z.of_nat n -> (num_digits v <= n)%nat).
Proof.
  intros Hv. assert (Hk : exists k, (0 < k)%nat /\ v < 10 ^ Z.of_nat k /\ (k = 1%nat \/ 10 ^ Z.of_nat (k - 1) <= v)).
  { destruct (FormatUnsigned_Ret UNSIGNED_ROUNDS v 20 []) as (k & Hk & _ & Hlt & Hge); [cbn; lia|change (100 ^ Z.of_nat UNSIGNED_ROUNDS) with (10 ^ 20); lia|unfold UNSIGNED_ROUNDS; lia|lia|]. exists k. split; [lia|done]. }
  destruct Hk as (k & Hk & Hlt & Hge). unfold num_digits. rewrite (getUnsignedInt64Length_digits v k), Nat2Z.id by done. do 3 (split; [done|]).
  intros n Hn Hvn. destruct Hge as [->|Hge]; [lia|]. destruct (Nat.le_gt_cases k n) as [|Hlt']; [done|]. pose proof (Z.pow_le_mono_r 10 (Z.of_nat n) (Z.of_nat (k - 1))). lia.
Qed.

Lemma getUnsignedInt64Length_num v : 0 <= v < 2 ^ 64 -> getUnsignedInt64Length v = Z.of_nat (num_digits v).
Proof. intros Hv. destruct (num_digits_exact v Hv) as (Hpos & _). unfold num_digits in *. lia. Qed.

Lemma length_signed_text v n : - 2 ^ 63 < v < 2 ^ 63 -> Z.abs v < 10 ^ Z.of_nat n -> (0 < n)%nat ->
  (length (signed_text v) <= n + (if (v <? 0)%Z then 1 else 0))%nat.
Proof.
  intros Hv Hn Hn0. unfold signed_text, num_text. rewrite length_app, length_decimal. destruct (num_digits_exact (Z.abs v)) as (_ & _ & _ & Hle); [lia|].
  specialize (Hle n Hn0 Hn). destruct (v <? 0); cbn; lia.
Qed.

(** What is written fills the room that was made. *)
Lemma FormatSignedNumber_append v buffer : - 2 ^ 63 < v < 2 ^ 63 ->
  IntervalToStringCast.FormatSignedNumber v buffer = IntervalToStringCast.append buffer (signed_text v).
Proof.
  intros Hv. unfold IntervalToStringCast.FormatSignedNumber. rewrite abs_lxor by done. cbn [mbind outcome_bind].
  destruct (num_digits_exact (Z.abs v)) as (Hpos & Hlt & Hge & _); [lia|]. rewrite getUnsignedInt64Length_num by lia. set (k := num_digits (Z.abs v)) in *.
  set (sign := if v <? 0 then -1 else 0). set (neg := if v <? 0 then 1%nat else 0%nat).
  assert (Hsign : Z.to_nat (Z.of_nat k - sign) = (k + neg)%nat) by (unfold sign, neg; destruct (v <? 0); lia). rewrite Hsign.
  assert (Hpow : Z.abs v < 10 ^ Z.of_nat (k + neg)) by (pose proof (Z.pow_le_mono_r 10 (Z.of_nat k) (Z.of_nat (k + neg))); lia).
  destruct (FormatUnsigned_Ret UNSIGNED_ROUNDS (Z.abs v) (k + neg) []) as (k' & Hk' & -> & Hlt' & Hge'); [lia| |unfold UNSIGNED_ROUNDS; lia|lia|].
  { change (100 ^ Z.of_nat UNSIGNED_ROUNDS) with (10 ^ 20). lia. }
  assert (k' = k) as ->.
  { apply Nat2Z.inj. by rewrite <- (getUnsignedInt64Length_digits (Z.abs v) k), <- (getUnsignedInt64Length_digits (Z.abs v) k') by (try done; lia). }
  cbn [mbind outcome_bind]. rewrite app_nil_r. unfold signed_text, num_text. fold k. unfold neg. destruct (v <? 0).
  - replace (k + 1 - k)%nat with 1%nat by lia. done.
  - replace (k + 0 - k)%nat with 0%nat by lia. done.
Qed.

(** A call that adds at most [n] characters to the buffer. *)
Definition grows (n : nat) (buffer : list ascii) (m : outcome (list ascii)) : Prop :=
  exists text, m = Ret (buffer ++ text) /\ (length text <= n)%nat.

Lemma grows_ret n buffer : grows n buffer (Ret buffer).
Proof. exists []. rewrite app_nil_r. split; [done|cbn; lia]. Qed.

Lemma grows_le n n' buffer m : (n <= n')%nat -> grows n buffer m -> grows n' buffer m.
Proof. intros Hn (text & Hm & Ht). exists text. split; [done|lia]. Qed.

Lemma grows_append n buffer more : (length more <= n)%nat -> (length buffer + n <= 70)%nat -> grows n buffer (IntervalToStringCast.append buffer more).
Proof. intros Hn Hroom. exists more. split; [apply append_Ret; lia|done]. Qed.

Lemma grows_bind n n' buffer m k : grows n buffer m -> (forall buffer', (length buffer' <= length buffer + n)%nat -> grows n' buffer' (k buffer')) ->
  grows (n + n') buffer (mbind k m).
Proof.
  intros (text & -> & Ht) Hk. destruct (Hk (buffer ++ text)) as (text' & Hrun & Ht'); [rewrite length_app; lia|].
  exists (text ++ text'). cbn. rewrite Hrun, <- app_assoc. split; [done|]. rewrite length_app. lia.
Qed.

Lemma grows_number v buffer n : - 2 ^ 63 < v < 2 ^ 63 -> Z.abs v < 10 ^ Z.of_nat n -> (0 < n)%nat ->
  let m := (n + (if (v <? 0)%Z then 1 else 0))%nat in (length buffer + m <= 70)%nat -> grows m buffer (IntervalToStringCast.FormatSignedNumber v buffer).
Proof.
  intros Hv Hn Hn0 m Hroom. rewrite FormatSignedNumber_append by done. pose proof (length_signed_text v n Hv Hn Hn0) as Hlen.
  exists (signed_text v). split; [|done]. apply append_Ret. unfold m in Hroom. lia.
Qed.

Lemma grows_space buffer : (length buffer + 1 <= 70)%nat ->
  grows 1 buffer (match buffer with [] => Ret buffer | _ => IntervalToStringCast.append buffer [" "%char] end).
Proof. intros Hroom. destruct buffer; [apply grows_ret|]. by apply grows_append. Qed.

(** A part of an interval: a space, the number, its name and an s. *)
Lemma grows_value v buffer name n : - 2 ^ 63 < v < 2 ^ 63 -> Z.abs v < 10 ^ Z.of_nat n -> (0 < n)%nat ->
  (length buffer + (1 + ((n + 1) + (length name + 1))) <= 70)%nat ->
  grows (1 + ((n + 1) + (length name + 1))) buffer (IntervalToStringCast.FormatIntervalValue v buffer name).
Proof.
  intros Hv Hn Hn0 Hroom. unfold IntervalToStringCast.FormatIntervalValue. destruct (v =? 0); [apply grows_ret|].
  apply grows_bind; [apply grows_space; lia|]. intros b1 H1. apply grows_bind.
  { pose proof (grows_number v b1 n Hv Hn Hn0) as Hg. cbn in Hg. destruct (v <? 0); destruct Hg as (text & -> & Ht); try lia; exists text; split; done || lia. }
  intros b2 H2. apply grows_bind; [apply grows_append; lia|]. intros b3 H3. destruct (negb (v =? 1)); [apply grows_append; cbn; lia|apply grows_ret].
Qed.

(** The parts of a time of any length. *)
Lemma micros_parts u : 0 <= u < 2 ^ 63 -> let hour := Z.quot u MICROS_PER_HOUR in let r := u - hour * MICROS_PER_HOUR in
  let min := Z.quot r MICROS_PER_MINUTE in let r' := r - min * MICROS_PER_MINUTE in let sec := Z.quot r' MICROS_PER_SEC in
  0 <= hour < 10 ^ 10 /\ 0 <= min < 60 /\ 0 <= sec < 60 /\ 0 <= r' - sec * MICROS_PER_SEC < 1000000.
Proof. intros Hu. cbn zeta. micros. Z.to_euclidean_division_equations. lia. Qed.

(** What follows the hour. *)
Definition time_rest (min sec fraction : Z) (buffer : list ascii) : outcome (list ascii) :=
  buffer ← IntervalToStringCast.append buffer [":"%char];
  m ← FormatTwoDigits min; buffer ← IntervalToStringCast.append buffer m;
  buffer ← IntervalToStringCast.append buffer [":"%char];
  s ← FormatTwoDigits sec; buffer ← IntervalToStringCast.append buffer s;
  if negb (fraction =? 0) then
    buffer ← IntervalToStringCast.append buffer ["."%char];
    '(zeros, text) ← TimeToStringCast.FormatMicros fraction;
    _ ← IntervalToStringCast.append buffer text;
    IntervalToStringCast.append buffer (take (Z.to_nat (6 - zeros)) text)
  else Ret buffer.

Lemma grows_minutes min sec fraction buffer : 0 <= min < 60 -> 0 <= sec < 60 -> 0 <= fraction < 1000000 -> (length buffer + 13 <= 70)%nat ->
  grows 13 buffer (time_rest min sec fraction buffer).
Proof.
  intros Hm Hs Hf Hroom. unfold time_rest. rewrite (FormatTwoDigits_Ret min), (FormatTwoDigits_Ret sec) by lia. change 13%nat with (1 + (2 + (1 + (2 + 7))))%nat.
  apply grows_bind; [apply grows_append; cbn; lia|]. intros b1 H1. cbn [mbind outcome_bind].
  apply grows_bind; [apply grows_append; rewrite ?length_decimal; lia|]. intros b2 H2.
  apply grows_bind; [apply grows_append; cbn; lia|]. intros b3 H3. cbn [mbind outcome_bind].
  apply grows_bind; [apply grows_append; rewrite ?length_decimal; lia|]. intros b4 H4.
  destruct (negb (fraction =? 0)); [|apply grows_ret]. apply (grows_bind 1 6); [apply grows_append; cbn; lia|]. intros b5 H5.
  destruct (FormatMicros_Ret fraction) as (z & -> & Hz & _); [lia|]. cbn [mbind outcome_bind].
  rewrite (append_Ret b5 (decimal 6 fraction)) by (rewrite length_decimal; lia). cbn [mbind outcome_bind]. apply grows_append; [|lia]. rewrite length_take, length_decimal. lia.
Qed.

(** The hour has two digits at least. *)
Lemma grows_hour hour buffer k : 0 <= hour < 10 ^ 10 -> (length buffer + 23 <= 70)%nat ->
  (forall buffer', (length buffer' <= length buffer + 10)%nat -> grows 13 buffer' (k buffer')) ->
  grows 23 buffer (buffer ← (if hour <? 10 then IntervalToStringCast.append buffer [zero_char] else Ret buffer);
    buffer ← IntervalToStringCast.FormatSignedNumber hour buffer; k buffer).
Proof.
  intros Hh Hroom Hk. assert (Hpos : (hour <? 0) = false) by lia. destruct (Z.ltb_spec hour 10) as [H10|H10].
  - apply (grows_le (1 + (1 + 13))); [lia|]. apply grows_bind; [apply grows_append; cbn; lia|]. intros b1 H1. apply grows_bind; [|intros; apply Hk; lia].
    pose proof (grows_number hour b1 1) as Hg. rewrite Hpos in Hg. apply Hg; cbn; lia.
  - apply (grows_le (0 + (10 + 13))); [lia|]. apply grows_bind; [apply grows_ret|]. intros b1 H1. apply grows_bind; [|intros; apply Hk; lia].
    pose proof (grows_number hour b1 10) as Hg. rewrite Hpos in Hg. apply Hg; cbn; lia.
Qed.

Lemma grows_time u buffer : - 2 ^ 63 < u < 2 ^ 63 -> (length buffer + 25 <= 70)%nat -> grows 25 buffer (IntervalToStringCast.FormatTime u buffer).
Proof.
  intros Hu Hroom. unfold IntervalToStringCast.FormatTime. change 25%nat with (1 + 24)%nat.
  apply grows_bind; [apply grows_space; lia|]. intros b1 H1.
  assert (Hsign : exists b2, (if u <? 0 then buffer ← IntervalToStringCast.append b1 ["-"%char]; opposite ← int64 (- u); Ret (buffer, opposite) else Ret (b1, u)) = Ret (b2, Z.abs u) /\
    (length b2 <= length b1 + 1)%nat /\ exists sign, b2 = b1 ++ sign /\ (length sign <= 1)%nat).
  { destruct (Z.ltb_spec u 0).
    - rewrite append_Ret by (cbn; lia). cbn [mbind outcome_bind]. rewrite int64_Ret by lia. exists (b1 ++ ["-"%char]). cbn [mbind outcome_bind].
      split; [do 2 f_equal; lia|]. rewrite length_app. cbn. split; [lia|]. eexists. split; [done|cbn; lia].
    - exists b1. split; [do 2 f_equal; lia|]. split; [lia|]. exists []. by rewrite app_nil_r; split; [|cbn; lia]. }
  destruct Hsign as (b2 & -> & H2 & sign & -> & Hsign). cbn [mbind outcome_bind]. destruct (micros_parts (Z.abs u)) as (Hh & Hm & Hs & Hf); [lia|]. cbn zeta in *.
  set (hour := Z.quot (Z.abs u) MICROS_PER_HOUR) in *. set (min := Z.quot (Z.abs u - _) _) in *. set (sec := Z.quot (_ - min * _) _) in *.
  set (fraction := _ - sec * MICROS_PER_SEC) in *. clearbody hour min sec fraction.
  assert (Hg : grows 23 (b1 ++ sign) (buffer ← (if hour <? 10 then IntervalToStringCast.append (b1 ++ sign) [zero_char] else Ret (b1 ++ sign));
    buffer ← IntervalToStringCast.FormatSignedNumber hour buffer; time_rest min sec fraction buffer)).
  { apply grows_hour; [done|lia|]. intros b3 H3. apply grows_minutes; try done. lia. }
  destruct Hg as (text & Hrun & Ht). exists (sign ++ text). rewrite app_assoc. split; [exact Hrun|]. rewrite length_app. lia.
Qed.

(** ** The whole text *)

Lemma interval_toString_Ret i : interval_ok i -> micros i <> - 2 ^ 63 -> exists text, interval_toString i = Ret text /\ (length text <= 70)%nat.
Proof.
  intros (Hm & Hd & Hu) Hmin. unfold is_int64_value in Hu. unfold interval_toString, IntervalToStringCast.Format.
  assert (H1 : grows 28 [] (if negb (months i =? 0) then
    buffer ← IntervalToStringCast.FormatIntervalValue (Z.quot (months i) 12) [] (chars " year");
    IntervalToStringCast.FormatIntervalValue (months i - Z.quot (months i) 12 * 12) buffer (chars " month") else Ret [])).
  { destruct (negb (months i =? 0)); [|apply grows_ret]. apply (grows_bind 17 11).
    - apply (grows_value _ [] (chars " year") 9); try (cbn; lia); Z.to_euclidean_division_equations; lia.
    - intros b Hb. apply (grows_value _ b (chars " month") 2); try (cbn in *; lia); Z.to_euclidean_division_equations; lia. }
  destruct H1 as (t1 & -> & H1). cbn [app mbind outcome_bind].
  assert (H2 : grows 17 t1 (if negb (days i =? 0) then IntervalToStringCast.FormatIntervalValue (days i) t1 (chars " day") else Ret t1)).
  { destruct (negb (days i =? 0)); [|apply grows_ret]. apply (grows_value _ t1 (chars " day") 10); cbn; lia. }
  destruct H2 as (t2 & -> & H2). cbn [mbind outcome_bind]. destruct (Z.eqb_spec (micros i) 0) as [H0|H0]; cbn [negb].
  - destruct (t1 ++ t2) eqn:Ht; [exists (chars "00:00:00"); split; [done|cbn; lia]|]. eexists. split; [done|]. rewrite <- Ht, length_app. lia.
  - destruct (grows_time (micros i) (t1 ++ t2)) as (t3 & -> & H3); [lia|rewrite length_app; lia|]. eexists. split; [done|]. rewrite !length_app. lia.
Qed.

(** ** Division *)

Lemma int64_inv a b : int64 a = Ret b -> b = a /\ is_int64_value a.
Proof. unfold int64, is_int64_value. destruct ((- 2 ^ 63 <=? a) && (a <? 2 ^ 63)) eqn:Ha; [|done]. intros [= <-]. apply andb_prop in Ha as [?%Z.leb_le ?%Z.ltb_lt]. done. Qed.

Lemma udiv_Ret z r : 0 <= z < 2 ^ 64 -> 0 < r -> udiv z r = Ret (z / r).
Proof. intros Hz Hr. unfold udiv, u64. rewrite wrap_small by done. destruct (Z.eqb_spec r 0); [lia|done]. Qed.
Lemma umod_Ret z r : 0 <= z < 2 ^ 64 -> 0 < r -> umod z r = Ret (z mod r).
Proof. intros Hz Hr. unfold umod, u64. rewrite wrap_small by done. destruct (Z.eqb_spec r 0); [lia|done]. Qed.
Lemma cast_int64_small z : - 2 ^ 63 <= z < 2 ^ 63 -> cast_int64 z = z.
Proof. intros Hz. unfold cast_int64. rewrite Z.mod_small; lia. Qed.

Lemma div_mod_le z r : 0 <= z -> 0 < r -> 0 <= z / r <= z /\ 0 <= z mod r <= z.
Proof. intros Hz Hr. split; [split; [by apply Z.div_pos|]|split; [by apply Z.mod_pos_bound|by apply Z.mod_le]]. apply Z.div_le_upper_bound; nia. Qed.

Lemma divide_Ret m d u r : 0 <= m -> 0 <= d -> 0 <= u -> 0 < r < 2 ^ 63 -> u + (m * 30 + d) * MICROS_PER_DAY < 2 ^ 63 ->
  let all_days := d + m mod r * 30 in
  Divide (Interval m d u) r = Ret (Interval (m / r) (all_days / r) ((u + all_days mod r * MICROS_PER_DAY) / r)).
Proof.
  intros Hm Hd Hu Hr Ht all_days. destruct (div_mod_le m r) as [Bm Bmr]; [lia..|]. destruct (div_mod_le all_days r) as [Bd Bdr]; [unfold all_days; lia|lia|].
  assert (Hsmall : m * 30 + d <= 106751991 /\ 0 <= all_days <= m * 30 + d) by (unfold all_days; micros; lia).
  unfold Divide, divide, DAYS_PER_MONTH. unfold u64. rewrite (wrap_small 64 r) by lia. cbn [months days micros].
  rewrite !(umod_Ret m), !(udiv_Ret m) by lia. cbn [mbind outcome_bind]. rewrite (cast_int32_small (m mod r)) by lia. fold all_days.
  rewrite !(umod_Ret all_days), !(udiv_Ret all_days) by lia. cbn [mbind outcome_bind]. rewrite (cast_int32_small (all_days mod r)) by lia.
  set (t := u + all_days mod r * MICROS_PER_DAY) in *. assert (Bt : 0 <= t < 2 ^ 63 /\ 0 <= all_days mod r * MICROS_PER_DAY < 2 ^ 63) by (unfold t; micros; lia).
  rewrite int64_Ret by lia. cbn [mbind outcome_bind]. fold t. rewrite int64_Ret by lia. cbn [mbind outcome_bind]. rewrite udiv_Ret by lia. cbn [mbind outcome_bind].
  destruct (div_mod_le t r) as [Btq _]; [lia..|]. rewrite !cast_int32_small, cast_int64_small by lia. done.
Qed.

Definition all_micros (m d u : Z) : Z := u + (m * 30 + d) * MICROS_PER_DAY.

Lemma getMicro_Ret m d u : 0 <= m -> 0 <= d -> 0 <= u -> all_micros m d u < 2 ^ 63 -> getMicro (Interval m d u) = Ret (all_micros m d u).
Proof.
  unfold all_micros, getMicro, MICROS_PER_MONTH, DAYS_PER_MONTH. cbn [months days micros]. micros. intros Hm Hd Hu Ht.
  repeat (rewrite int64_Ret by lia; cbn [mbind outcome_bind]). f_equal. lia.
Qed.

Lemma getMicro_inv m d u total : 0 <= m -> 0 <= d -> 0 <= u -> getMicro (Interval m d u) = Ret total -> total = all_micros m d u /\ total < 2 ^ 63.
Proof.
  intros Hm Hd Hu Hrun. unfold getMicro in Hrun. inv_ret Hrun. apply int64_inv in Hrun as [-> Hb].
  repeat match goal with H : int64 _ = Ret _ |- _ => apply int64_inv in H as [-> ?] end.
  unfold all_micros, is_int64_value, MICROS_PER_MONTH, DAYS_PER_MONTH in *. cbn [months days micros] in *. micros. lia.
Qed.

(** The parts of the quotient are the quotient of the whole. *)
Lemma all_micros_div m d u r : 0 < r -> let all_days := d + m mod r * 30 in
  all_micros (m / r) (all_days / r) ((u + all_days mod r * MICROS_PER_DAY) / r) = all_micros m d u / r.
Proof.
  intros Hr all_days. unfold all_micros. pose proof (Z.div_mod m r) as Em. pose proof (Z.div_mod all_days r) as Ed. set (t := u + all_days mod r * MICROS_PER_DAY).
  pose proof (Z.div_mod t r) as Et. pose proof (Z.mod_pos_bound t r Hr) as Bt. apply (Z.div_unique _ _ _ (t mod r)); [lia|].
  unfold t, all_days in *. specialize (Em ltac:(lia)). specialize (Ed ltac:(lia)). specialize (Et ltac:(lia)). nia.
Qed.
