(* ===== verification/TemporalSpec.v ===== *)
(** Dates, times, timestamps and intervals: they follow the calendar, their arithmetic is
    that of days and months, their text reads back, and where the operators of intervals
    do not do what they mean to. *)
From Stdlib Require Import Ascii String.
From S2P Require Import Prelude Date CastHelpers DateText DateFacts Timestamp Interval TemporalFacts.
Local Open Scope Z_scope.

(** ** The calendar *)

Definition out_of_range : exn := ConversionException "Date out of range: {}-{}-{}.".

(** C29. The days of [date_t] follow the Gregorian calendar from 1970-01-01 on, day by day in
    both directions, from the first to the last day of the years that are accepted; outside
    of them [convert] fails its assertion. [isValid] accepts exactly the dates of the
    calendar in these years, [fromDate] throws for all others, and it and [convert] are
    inverse to each other. *)
Theorem dates_follow_calendar :
  convert 0 = Ret (1970, 1, 1) /\
  (forall n, MIN_DAY <= n < MAX_DAY -> exists ymd, convert n = Ret ymd /\ convert (n + 1) = Ret (next_day ymd)) /\
  (forall n, ~ in_years n -> convert n = Undef) /\
  (forall y m d, isValid y m d = true <-> MIN_YEAR <= y <= MAX_YEAR /\ is_date y m d) /\
  (forall y m d, fromDate y m d = if isValid y m d then Ret (day_number y m d) else Throw out_of_range) /\
  (forall n y m d, convert n = Ret (y, m, d) <-> fromDate y m d = Ret n).
Proof.
  split; [vm_compute; reflexivity|]. split; [|split; [apply convert_Undef|split; [apply isValid_is_date|]]].
  - intros n Hn. destruct (in_years_valid n) as (y & m & d & Hv & ->); [unfold in_years; lia|]. exists (y, m, d). rewrite convert_day_number by done. split; [done|].
    apply isValid_is_date in Hv as [_ Hd]. pose proof (next_day_is_date y m d Hd) as Hnext. destruct (next_day (y, m, d)) as [[y' m'] d'].
    destruct Hnext as [Hd' Hn']. rewrite <- Hn' in *. apply convert_day_number, isValid_is_date. split; [|done].
    eapply year_in_range; [by apply is_date_bounds|]. unfold in_years. lia.
  - assert (Hfrom : forall y m d, fromDate y m d = if isValid y m d then Ret (day_number y m d) else Throw out_of_range).
    { intros y m d. destruct (isValid y m d) eqn:Hv; [by apply fromDate_Ret|]. unfold fromDate. by rewrite Hv. }
    split; [done|]. intros n y m d. rewrite Hfrom. split.
    + intros [-> ->]%convert_inv. done.
    + destruct (isValid y m d) eqn:Hv; [|done]. intros [= <-]. by apply convert_day_number.
Qed.

Lemma dates_follow_calendar_witness :
  (exists ymd, convert 18321 = Ret ymd /\ convert (18321 + 1) = Ret (next_day ymd)) /\ fromDate 1900 2 29 = Throw out_of_range.
Proof.
  destruct dates_follow_calendar as (_ & Hnext & _ & _ & Hfrom & _). split; [apply Hnext; vm_compute; split; congruence|]. rewrite Hfrom. vm_compute. reflexivity.
Defined.

(** Months are added to a date as the calendar has them. *)
Definition add_months (y m d k : Z) : Z * Z * Z :=
  let total := y * 12 + (m - 1) + k in
  let y' := total / 12 in let m' := total mod 12 + 1 in (y', m', Z.min d (month_length y' m')).

Lemma monthDays_Ret y m : 1 <= m <= 12 -> monthDays y m = Ret (month_length y m).
Proof.
  intros Hm. unfold monthDays. replace ((1 <=? m) && (m <=? 12)) with true by lia. cbn. rewrite isLeapYear_leap. by apply month_days_table.
Qed.

Lemma add_months_date y m d k : is_date y m d -> let '(y', m', d') := add_months y m d k in is_date y' m' d'.
Proof.
  intros [Hm Hd]. unfold add_months, is_date. set (total := y * 12 + (m - 1) + k).
  assert (Hl : 1 <= month_length (total / 12) (total mod 12 + 1)) by (unfold month_length; repeat case_match; lia).
  split; [div_lia|lia].
Qed.

(** The year, month and day that [operator+] computes. *)
Lemma carry_months y m k : 1 <= m <= 12 ->
  let year := y + Z.quot k MONTHS_PER_YEAR in let month := m + (k - Z.quot k MONTHS_PER_YEAR * MONTHS_PER_YEAR) in
  (if MONTHS_PER_YEAR <? month then (year + 1, month - MONTHS_PER_YEAR) else if month <=? 0 then (year - 1, month + MONTHS_PER_YEAR) else (year, month)) =
  ((y * 12 + (m - 1) + k) / 12, (y * 12 + (m - 1) + k) mod 12 + 1).
Proof.
  intros Hm. cbn zeta. unfold MONTHS_PER_YEAR. pose proof (Z.quot_rem' k 12) as Hq. pose proof (Z.rem_bound_abs k 12) as Hr.
  set (q := Z.quot k 12) in *. set (r := Z.rem k 12) in *. replace (k - q * 12) with r by lia.
  assert (Hdiv : forall a b, 0 <= b < 12 -> y * 12 + (m - 1) + k = a * 12 + b -> (y * 12 + (m - 1) + k) / 12 = a /\ (y * 12 + (m - 1) + k) mod 12 = b).
  { intros a b Hb ->. div_lia. }
  destruct (Z.ltb_spec 12 (m + r)); [|destruct (Z.leb_spec (m + r) 0)].
  - destruct (Hdiv (y + q + 1) (m + r - 13)) as [-> ->]; [lia|lia|]. f_equal; lia.
  - destruct (Hdiv (y + q - 1) (m + r + 11)) as [-> ->]; [lia|lia|]. f_equal; lia.
  - destruct (Hdiv (y + q) (m + r - 1)) as [-> ->]; [lia|lia|]. f_equal; lia.
Qed.

(** The date so many months on, which [add_interval] computes first. *)
Lemma add_interval_months y m d i : isValid y m d = true ->
  let '(y', m', d') := add_months y m d (months i) in
  add_interval (day_number y m d) i =
    (result ← (if isValid y' m' d' then Ret (day_number y' m' d') else Throw out_of_range);
     result ← (if negb (days i =? 0) then int32 (result + days i) else Ret result);
     if negb (micros i =? 0) then int32 (result + cast_int32 (Z.quot (micros i) MICROS_PER_DAY)) else Ret result).
Proof.
  intros Hv. pose proof (proj1 (isValid_is_date _ _ _) Hv) as [_ Hdate]. pose proof Hdate as [Hm12 Hday].
  pose proof (add_months_date y m d (months i) Hdate) as Hdate'. destruct (add_months y m d (months i)) as [[y' m'] d'] eqn:Hadd.
  unfold add_interval. f_equal. unfold add_months in Hadd. injection Hadd as Hy' Hm' Hd'. destruct (Z.eqb_spec (months i) 0) as [H0|H0]; cbn [negb].
  - rewrite H0, Z.add_0_r in *. assert (y' = y) as -> by div_lia. assert (m' = m) as -> by div_lia.
    assert (Hd2 : d' = d) by (rewrite <- Hd', Hy', Hm'; lia). by rewrite Hd2, Hv.
  - rewrite convert_day_number by done. cbn [mbind outcome_bind]. pose proof (carry_months y m (months i) Hm12) as Hc. cbn zeta in Hc. rewrite Hc.
    rewrite Hy', Hm' in *. destruct Hdate' as [Hm12' _]. rewrite monthDays_Ret by done. cbn [mbind outcome_bind].
    replace (if month_length y' m' <? d then month_length y' m' else d) with d' by (rewrite <- Hd'; destruct (Z.ltb_spec (month_length y' m') d); lia).
    destruct (isValid y' m' d') eqn:Hv2; [by apply fromDate_Ret|]. unfold fromDate. by rewrite Hv2.
Qed.

Lemma int32_idem a b : int32 a = Ret b -> int32 b = Ret b.
Proof. unfold int32 at 1. destruct (_ && _) eqn:Ha; [|done]. intros [= <-]. unfold int32. by rewrite Ha. Qed.

(** The sums that the code skips would change nothing. *)
Lemma skip_zero z k (f : Z -> Z) : int32 z = Ret z -> f 0 = 0 -> (if negb (k =? 0) then int32 (z + f k) else Ret z) = int32 (z + f k).
Proof. intros Hz Hf. destruct (Z.eqb_spec k 0) as [->|]; [|done]. cbn. by rewrite Hf, Z.add_0_r. Qed.

(** C30. A date plus an interval is the date so many months on, at the last day of that month
    when it is shorter, so many days on, and as many as the microseconds make whole days;
    it throws exactly when the months leave the years that are accepted, and has no meaning
    exactly when a sum leaves the 32 bits of a date. *)
Theorem date_add_interval : forall y m d i, isValid y m d = true -> interval_ok i ->
  let '(y', m', d') := add_months y m d (months i) in
  add_interval (day_number y m d) i =
    (result ← (if isValid y' m' d' then Ret (day_number y' m' d') else Throw out_of_range);
     result ← int32 (result + days i);
     int32 (result + Z.quot (micros i) MICROS_PER_DAY)).
Proof.
  intros y m d i Hv (Hm & Hd & Hu). pose proof (add_interval_months y m d i Hv) as Hadd.
  destruct (add_months y m d (months i)) as [[y' m'] d']. rewrite Hadd. destruct (isValid y' m' d') eqn:Hv'; [|done]. cbn [mbind outcome_bind].
  assert (Hbase : int32 (day_number y' m' d') = Ret (day_number y' m' d')).
  { apply valid_in_years in Hv'. unfold in_years in Hv'. rewrite MIN_DAY_value, MAX_DAY_value in Hv'. apply int32_Ret. lia. }
  rewrite (skip_zero _ (days i) (fun k => k)) by done. destruct (int32 (day_number y' m' d' + days i)) as [r| |] eqn:Hr; [|done..]. cbn [mbind outcome_bind].
  rewrite (skip_zero r (micros i) (fun k => cast_int32 (Z.quot k MICROS_PER_DAY))) by (reflexivity || by eapply int32_idem). do 2 f_equal.
  apply cast_int32_small. unfold is_int64_value in Hu. micros. Z.to_euclidean_division_equations. lia.
Qed.

Lemma date_add_interval_witness : interval_ok (Interval 13 1 0) /\ add_interval (day_number 2020 1 31) (Interval 13 1 0) = Ret (day_number 2021 3 1).
Proof.
  assert (Hok : interval_ok (Interval 13 1 0)) by (unfold interval_ok, is_int64_value; cbn; lia). split; [done|].
  pose proof (date_add_interval 2020 1 31 (Interval 13 1 0) eq_refl Hok) as H. exact H.
Defined.

(** ** Weeks, and the ends of months *)

(** The first of January 1970 was a Thursday. *)
Theorem getDayName_weekday n : - 2 ^ 31 < n < 2 ^ 31 - 3 -> - 2 ^ 31 < - n < 2 ^ 31 - 3 -> getDayName n = load dayNames (Z.to_nat ((n + 4) mod 7)).
Proof.
  intros Hn Hn'. unfold getDayName. destruct (Z.ltb_spec n 0).
  - rewrite (int32_Ret (- n)) by lia. cbn [mbind outcome_bind]. rewrite int32_Ret by lia. cbn [mbind outcome_bind].
    do 2 f_equal. Z.to_euclidean_division_equations. lia.
  - rewrite int32_Ret by lia. cbn [mbind outcome_bind]. do 2 f_equal. Z.to_euclidean_division_equations. lia.
Qed.

Lemma sub_days_pred n : in_years n -> sub_days (n + 1) 1 = Ret n.
Proof. unfold in_years. rewrite MIN_DAY_value, MAX_DAY_value. intros Hn. unfold sub_days. rewrite int32_Ret by lia. f_equal. lia. Qed.

(** The last day of the month, but in the last month of all. *)
Theorem getLastDay_month_end y m d : isValid y m d = true -> getLastDay (day_number y m d) =
  if (y =? MAX_YEAR) && (m =? 12) then Throw out_of_range else Ret (day_number y m (month_length y m)).
Proof.
  intros Hv. pose proof (proj1 (isValid_is_date _ _ _) Hv) as [Hy [Hm Hd]]. unfold getLastDay. rewrite convert_day_number by done. cbn [mbind outcome_bind].
  assert (Hnext : (y + Z.quot m 12, Z.rem m 12 + 1) = if m =? 12 then (y + 1, 1) else (y, m + 1)).
  { destruct (Z.eqb_spec m 12) as [->|]; [reflexivity|]. f_equal; Z.to_euclidean_division_equations; lia. }
  assert (Hlen : 1 <= month_length y m) by lia.
  pose proof (next_day_is_date y m (month_length y m)) as Hday. unfold next_day in Hday. rewrite Z.ltb_irrefl in Hday.
  pose proof (f_equal fst Hnext) as Hny. pose proof (f_equal snd Hnext) as Hnm. cbn [fst snd] in Hny, Hnm. rewrite Hny, Hnm. clear Hnext Hny Hnm.
  destruct (Z.eqb_spec m 12) as [->|Hm12]; cbn [fst snd].
  - change (12 <? 12) with false in Hday. destruct Hday as [Hdate Hnum]; [by split|]. rewrite andb_true_r.
    destruct (Z.eqb_spec y MAX_YEAR) as [->|Hy'].
    + unfold fromDate. replace (isValid (MAX_YEAR + 1) 1 1) with false by reflexivity. done.
    + rewrite fromDate_Ret by (apply isValid_is_date; split; [lia|done]). cbn [mbind outcome_bind]. rewrite Hnum.
      apply sub_days_pred. apply valid_in_years, isValid_is_date. split; [done|split; lia].
  - replace (m <? 12) with true in Hday by lia. destruct Hday as [Hdate Hnum]; [by split|]. rewrite andb_false_r.
    rewrite fromDate_Ret by (apply isValid_is_date; split; [lia|done]). cbn [mbind outcome_bind]. rewrite Hnum.
    apply sub_days_pred. apply valid_in_years, isValid_is_date. split; [done|split; lia].
Qed.

(** Truncation to years, months and quarters. *)
Theorem trunc_date_starts y m d : isValid y m d = true ->
  trunc_date YEAR (day_number y m d) = Ret (day_number y 1 1) /\
  trunc_date MONTH (day_number y m d) = Ret (day_number y m 1) /\
  trunc_date QUARTER (day_number y m d) = Ret (day_number y ((m - 1) / 3 * 3 + 1) 1).
Proof.
  intros Hv. pose proof (proj1 (isValid_is_date _ _ _) Hv) as [Hy [Hm Hd]].
  assert (Hlen : forall m, 1 <= month_length y m) by (intros; unfold month_length; repeat case_match; lia).
  assert (Hfirst : forall m', 1 <= m' <= 12 -> fromDate y m' 1 = Ret (day_number y m' 1)).
  { intros m' Hm'. apply fromDate_Ret, isValid_is_date. split; [done|]. split; [done|]. pose proof (Hlen m'). lia. }
  assert (Hyear : getDatePart YEAR (day_number y m d) = Ret y).
  { unfold getDatePart. pose proof (convert_day_number y m d Hv) as Hc. rewrite Hc. cbn [mbind outcome_bind].
    destruct (extractYearOffset_Ret (day_number y m d)) as (k & i & Hi & -> & Hb). cbn. f_equal. symmetry.
    eapply year_unique; [|exact Hb]. apply is_date_bounds. by split. }
  unfold trunc_date. rewrite Hyear. cbn [mbind outcome_bind]. unfold getDatePart. rewrite convert_day_number by done. cbn [mbind outcome_bind].
  rewrite !Hfirst by (try lia; Z.to_euclidean_division_equations; lia). split; [done|]. split; [done|]. f_equal. f_equal. rewrite Z.quot_div_nonneg by lia. lia.
Qed.

(** Decades, centuries and millennia are cut towards the year 0, which is after the years before it. *)
Example truncated_to_the_future : (d ← fromDate (-5) 6 15; trunc_date DECADE d) = fromDate 0 1 1.
Proof. vm_compute. reflexivity. Qed.

(** ** Text *)

Definition date_error : exn := ConversionException "Error occurred during parsing date. Given: {}. Expected format: (YYYY-MM-DD)".

Lemma date_of_era n : days_before_year 1 <= n <= MAX_DAY -> exists y m d, isValid y m d = true /\ 1 <= y /\ n = day_number y m d.
Proof.
  intros Hn. destruct (in_years_valid n) as (y & m & d & Hv & ->).
  { split; [|lia]. transitivity (days_before_year 1); [by vm_compute|lia]. }
  exists y, m, d. split; [done|]. split; [|done]. apply isValid_is_date in Hv as [_ Hd%is_date_bounds].
  destruct (Z.le_gt_cases 1 y) as [|Hlt]; [done|]. pose proof (days_before_year_mono (y + 1) 1). lia.
Qed.

(** Dates before the year 1 are written with a suffix that is not read. *)
Lemma bc_date_unread y m d : isValid y m d = true -> y <= 0 ->
  exists text, date_toString (day_number y m d) = Ret text /\ date_fromCString text = Throw date_error.
Proof.
  intros Hv Hy. destruct (valid_bounds _ _ _ Hv) as (Hy' & Hm & Hd). unfold MIN_YEAR in Hy'. rewrite date_toString_Ret by done.
  rewrite (proj2 (Z.leb_le y 0)) by done. eexists. split; [done|]. unfold date_fromCString.
  by rewrite tryConvertDate_digits by (unfold MAX_YEAR; lia).
Qed.

Lemma timestamp_reads_back v : days_before_year 1 * MICROS_PER_DAY <= v < 2 ^ 63 ->
  exists text, timestamp_toString v = Ret text /\ timestamp_fromCString text = Ret v.
Proof.
  intros Hv. assert (Hint : is_int64_value v) by (unfold is_int64_value; pose proof (proj1 Hv) as Hlow; change (days_before_year 1) with (-719162) in Hlow; micros; lia).
  assert (Hday : days_before_year 1 <= v / MICROS_PER_DAY) by (apply Z.div_le_lower_bound; [by micros|lia]).
  assert (Hmin : MIN_DAY <= v / MICROS_PER_DAY) by (transitivity (days_before_year 1); [by vm_compute|done]).
  pose proof (timestamp_in_years v Hint Hmin) as [_ Hmax]. destruct (date_of_era (v / MICROS_PER_DAY)) as (y & m & d & Hd & Hy & Hdate); [lia|].
  assert (Ht : 0 <= v mod MICROS_PER_DAY < MICROS_PER_DAY) by (apply Z.mod_pos_bound; by micros).
  destruct (time_parts _ Ht) as (h & mi & s & u & Hp & Htime). destruct (Time_toString_Ret h mi s u Hp) as (z & Hz & Hmod & Hts).
  unfold timestamp_toString. rewrite split_timestamp_Ret by done. cbn [mbind outcome_bind]. rewrite Hdate, date_toString_Ret by done.
  rewrite (proj2 (Z.leb_gt y 0)) by lia. cbn [mbind outcome_bind]. rewrite Htime, Hts. cbn [mbind outcome_bind]. eexists. split; [done|].
  unfold timestamp_fromCString, tryConvertTimestamp. rewrite tryConvertDate_text by (try done; by left). cbn [mbind outcome_bind app skip_spaces].
  change (isSpace " ") with true. cbn iota.
  pose proof (tryConvertTime_text h mi s u z Hp Hz Hmod) as Hconv. pose proof (fromDateTime_parts v Hint Hmin) as Hparts. rewrite Hdate, Htime in Hparts.
  destruct (time_text_head h mi s u (6 - z)) as (c & tl & Htext & Hsp & Hc & HcT). rewrite Htext in *. cbn [skip_spaces is_char]. rewrite Hsp. cbn iota.
  cbn [is_char]. rewrite Hc, HcT. cbn [orb]. rewrite Hconv. cbn [mbind outcome_bind]. rewrite Hparts. done.
Qed.

(** C31. The text of a date from the year 1 on, of a time of day and of a timestamp from the
    year 1 on is read back as the same value, whatever the width of the year and the zeros
    that are left out at the end of the microseconds. The text of an earlier date is not
    read: its suffix is refused. *)
Theorem temporal_text_roundtrip :
  (forall n, days_before_year 1 <= n <= MAX_DAY -> exists text, date_toString n = Ret text /\ date_fromCString text = Ret n) /\
  (forall t, 0 <= t < MICROS_PER_DAY -> exists text, Time.toString t = Ret text /\ Time.fromCString text = Ret t) /\
  (forall v, days_before_year 1 * MICROS_PER_DAY <= v < 2 ^ 63 -> exists text, timestamp_toString v = Ret text /\ timestamp_fromCString text = Ret v) /\
  (forall n, MIN_DAY <= n < days_before_year 1 -> exists text, date_toString n = Ret text /\ date_fromCString text = Throw date_error).
Proof.
  split; [|split; [|split; [apply timestamp_reads_back|]]].
  - intros n (y & m & d & Hv & Hy & ->)%date_of_era. rewrite date_toString_Ret, (proj2 (Z.leb_gt y 0)) by (done || lia). eexists. split; [done|].
    unfold date_fromCString. rewrite <- (app_nil_r (date_text y m d)), tryConvertDate_text by (try done; by right). done.
  - intros t (h & m & s & u & Hp & ->)%time_parts. destruct (Time_toString_Ret h m s u Hp) as (z & Hz & Hmod & ->). eexists. split; [done|].
    unfold Time.fromCString. by rewrite tryConvertTime_text.
  - intros n Hn. destruct (in_years_valid n) as (y & m & d & Hv & ->).
    { split; [lia|]. transitivity (days_before_year 1); [lia|by vm_compute]. }
    apply bc_date_unread; [done|]. apply isValid_is_date in Hv as [_ Hd%is_date_bounds].
    destruct (Z.le_gt_cases y 0) as [|Hlt]; [done|]. pose proof (days_before_year_mono 1 y). lia.
Qed.

Lemma temporal_text_roundtrip_witness : exists text, timestamp_toString 1582934400500000 = Ret text /\ timestamp_fromCString text = Ret 1582934400500000.
Proof. destruct temporal_text_roundtrip as (_ & _ & Hts & _). apply Hts. vm_compute. split; congruence. Defined.

(** The dates of the last year from its eleventh day on are no timestamps: the product
    overflows. *)
Example timestamp_of_last_year : (d ← fromDate 294247 1 11; fromDateTime d 0) = Undef /\ date_lt_timestamp 106752346 0 = Undef.
Proof. by vm_compute. Qed.

(** ** Differences *)

(** One day more or less when the times of day sum up to it. *)
Lemma timestamp_add_Ret b q r : is_int64_value b -> MIN_DAY <= b / MICROS_PER_DAY -> - MICROS_PER_DAY < r < MICROS_PER_DAY ->
  let a := b + q * MICROS_PER_DAY + r in is_int64_value a -> MIN_DAY <= a / MICROS_PER_DAY ->
  timestamp_add_interval b (Interval 0 q r) = Ret a.
Proof.
  intros Hb Hbmin Hr a Ha Hamin. unfold timestamp_add_interval. rewrite split_timestamp_Ret by done. cbn [mbind outcome_bind].
  pose proof (timestamp_in_years b Hb Hbmin) as Hby. pose proof (timestamp_in_years a Ha Hamin) as Hay. unfold in_years in Hby, Hay. rewrite MIN_DAY_value, MAX_DAY_value in *.
  assert (Hdays : - 106751982 <= b / MICROS_PER_DAY + q <= 106752347) by (unfold a in *; clearbody a; micros; div_lia).
  assert (Hquot : Z.quot r MICROS_PER_DAY = 0) by (micros; Z.to_euclidean_division_equations; lia).
  assert (Hdate : add_interval (b / MICROS_PER_DAY) (Interval 0 q r) = Ret (b / MICROS_PER_DAY + q)).
  { unfold add_interval. cbn [months days micros]. change (0 =? 0) with true. cbn [negb mbind outcome_bind]. rewrite Hquot. change (cast_int32 0) with 0.
    destruct (Z.eqb_spec q 0) as [->|]; cbn [negb mbind outcome_bind]; [|rewrite int32_Ret by lia; cbn [mbind outcome_bind]];
      destruct (r =? 0); cbn [negb]; rewrite ?int32_Ret by lia; f_equal; lia. }
  rewrite Hdate. cbn [micros mbind outcome_bind]. rewrite Hquot. set (t := b mod MICROS_PER_DAY + (r - 0 * MICROS_PER_DAY)).
  assert (Hparts : exists date time, (if MICROS_PER_DAY <=? t then date ← int32 (b / MICROS_PER_DAY + q + 1); Ret (date, t - MICROS_PER_DAY)
    else if t <? 0 then date ← int32 (b / MICROS_PER_DAY + q - 1); Ret (date, t + MICROS_PER_DAY) else Ret (b / MICROS_PER_DAY + q, t)) = Ret (date, time) /\
    date = a / MICROS_PER_DAY /\ time = a mod MICROS_PER_DAY).
  { pose proof (Z.mod_pos_bound b MICROS_PER_DAY ltac:(by micros)) as Hm. rewrite !int32_Ret by lia. cbn [mbind outcome_bind].
    destruct (Z.leb_spec MICROS_PER_DAY t); [|destruct (Z.ltb_spec t 0)]; eexists _, _; (split; [done|]); unfold a, t in *; micros; div_lia. }
  destruct Hparts as (date & time & -> & -> & ->). cbn [mbind outcome_bind]. apply fromDateTime_parts; [done|]. by rewrite MIN_DAY_value.
Qed.

(** The difference of two timestamps has no months, its days and its microseconds have
    the sign of the difference, and adding it to the second timestamp gives the first. *)
Theorem timestamp_difference_added_back : forall a b, is_int64_value a -> is_int64_value b -> is_int64_value (a - b) -> a - b <> - 2 ^ 63 ->
  MIN_DAY <= a / MICROS_PER_DAY -> MIN_DAY <= b / MICROS_PER_DAY ->
  exists i, timestamp_sub a b = Ret i /\ months i = 0 /\ days i = Z.quot (a - b) MICROS_PER_DAY /\ micros i = Z.rem (a - b) MICROS_PER_DAY /\
    timestamp_add_interval b i = Ret a.
Proof.
  intros a b Ha Hb Hab Hmin Hay Hby. set (x := a - b) in *.
  assert (Hsub : timestamp_sub a b = Ret (Interval 0 (Z.quot x MICROS_PER_DAY) (Z.rem x MICROS_PER_DAY))).
  { unfold timestamp_sub. fold x. unfold is_int64_value in *. rewrite (int64_Ret x) by lia. cbn [mbind outcome_bind]. rewrite int64_Ret by lia. cbn [mbind outcome_bind].
    assert (Hx : 0 <= Z.abs x / MICROS_PER_DAY <= 106751991) by (micros; div_lia). rewrite cast_int32_small by lia.
    destruct (Z.ltb_spec a b).
    - rewrite int32_Ret by lia. cbn [mbind outcome_bind]. apply (f_equal Ret), f_equal2; subst x; micros; Z.to_euclidean_division_equations; lia.
    - apply (f_equal Ret), f_equal2; subst x; micros; Z.to_euclidean_division_equations; lia. }
  eexists. split; [exact Hsub|]. do 3 (split; [done|]). pose proof (Z.quot_rem' x MICROS_PER_DAY) as Hqr.
  assert (Heq : b + Z.quot x MICROS_PER_DAY * MICROS_PER_DAY + Z.rem x MICROS_PER_DAY = a) by (subst x; lia).
  rewrite <- Heq. apply timestamp_add_Ret; rewrite ?Heq; try done. micros. Z.to_euclidean_division_equations. lia.
Qed.

Lemma timestamp_difference_added_back_witness : exists i, timestamp_sub 1000 86400000000 = Ret i /\ timestamp_add_interval 86400000000 i = Ret 1000.
Proof.
  destruct (timestamp_difference_added_back 1000 86400000000) as (i & Hi & _ & _ & _ & Hadd); [by vm_compute..|].
  exists i. by split.
Defined.

(** ** Intervals *)

(** C32. An interval is less than another exactly when its normal form is, or when the two
    have the same normal form and different fields: [<] is a strict order of the normal
    forms, but intervals that are equal up to their normal form, such as a month and thirty
    days, are each less than the other, and neither is greater. *)
Theorem interval_less :
  (forall a b, interval_lt a b = true <->
    normal_lt (normalizeIntervalEntries a) (normalizeIntervalEntries b) \/ (normalizeIntervalEntries a = normalizeIntervalEntries b /\ a <> b)) /\
  (forall a b, normalizeIntervalEntries a = normalizeIntervalEntries b -> a <> b ->
    interval_lt a b = true /\ interval_lt b a = true /\ interval_gt a b = false /\ interval_gt b a = false /\ interval_ge a b = false).
Proof.
  assert (Hgt : forall a b, normalizeIntervalEntries a = normalizeIntervalEntries b -> interval_gt a b = false).
  { intros a b Heq. unfold interval_gt. destruct (greaterThan a b) eqn:Hg; [|done]. apply greaterThan_spec in Hg. rewrite Heq in Hg. by apply normal_lt_irrefl in Hg. }
  assert (Heq : forall a b, a <> b -> interval_eq a b = false).
  { intros a b Hne. destruct (interval_eq a b) eqn:He; [by apply interval_eq_spec in He|done]. }
  assert (Hlt : forall a b, normalizeIntervalEntries a = normalizeIntervalEntries b -> a <> b -> interval_lt a b = true).
  { intros a b Hn Hne. unfold interval_lt, interval_ge. by rewrite Hgt, Heq. }
  split.
  - intros a b. unfold interval_lt, interval_ge. rewrite negb_true_iff, orb_false_iff. split.
    + intros [Hg He]. destruct (normal_lt_trichotomy (normalizeIntervalEntries a) (normalizeIntervalEntries b)) as [|[Hn|Hn]]; [by left| |].
      * right. split; [done|]. intros ->. by rewrite (proj2 (interval_eq_spec b b)) in He.
      * apply greaterThan_spec in Hn. unfold interval_gt in Hg. by rewrite Hn in Hg.
    + intros [Hn|[Hn Hne]]; [|by split; [apply Hgt|apply Heq]]. unfold interval_gt. split.
      * destruct (greaterThan a b) eqn:Hg; [|done]. apply greaterThan_spec in Hg. by apply normal_lt_asym in Hg.
      * apply Heq. intros ->. by apply normal_lt_irrefl in Hn.
  - intros a b Hn Hne. unfold interval_ge. rewrite (Hgt a b Hn), (Hgt b a), Heq, !Hlt by (done || by symmetry || congruence). done.
Qed.

Lemma interval_less_witness : interval_lt (Interval 1 0 0) (Interval 0 30 0) = true /\ interval_lt (Interval 0 30 0) (Interval 1 0 0) = true.
Proof. destruct interval_less as [_ H]. destruct (H (Interval 1 0 0) (Interval 0 30 0)) as (H1 & H2 & _); [reflexivity|discriminate|]. by split. Defined.

(** The text of an interval fits the buffer it is written to, the longest with a character
    to spare; the least number of microseconds has no opposite. *)
Theorem interval_text_fits : forall i, interval_ok i -> micros i <> - 2 ^ 63 ->
  exists text, interval_toString i = Ret text /\ (length text <= IntervalToStringCast.BUFFER)%nat.
Proof. exact interval_toString_Ret. Qed.

Example least_micros : interval_toString (Interval 0 0 (- 2 ^ 63)) = Undef.
Proof. by vm_compute. Qed.

(** An interval of no negative part over a positive number: when all its microseconds
    are a 64-bit number, with months of thirty days, the result has the quotient of them,
    and months and days that are rounded down, their remainders carried to the next part. *)
Theorem interval_divide : forall i r total, 0 <= months i -> 0 <= days i -> 0 <= micros i -> 0 < r < 2 ^ 63 -> getMicro i = Ret total ->
  exists q, Divide i r = Ret q /\ getMicro q = Ret (total / r) /\ months q = months i / r /\ days q = (days i + months i mod r * 30) / r /\ 0 <= micros q.
Proof.
  intros [m d u] r total Hm Hd Hu Hr Htotal. cbn [months days micros] in *. destruct (getMicro_inv m d u total) as [-> Hlt]; [done..|].
  eexists. split; [apply divide_Ret; done|]. cbn [months days micros]. rewrite <- all_micros_div by lia.
  assert (H1 : 0 <= m / r) by (by apply Z.div_pos; lia). assert (H2 : 0 <= (d + m mod r * 30) / r) by (apply Z.div_pos; [pose proof (Z.mod_pos_bound m r); lia|lia]).
  assert (H3 : 0 <= (u + (d + m mod r * 30) mod r * MICROS_PER_DAY) / r) by (apply Z.div_pos; [pose proof (Z.mod_pos_bound (d + m mod r * 30) r); micros; lia|lia]).
  split; [|done]. apply getMicro_Ret; try done. rewrite all_micros_div by lia. apply Z.div_lt_upper_bound; [lia|].
  unfold all_micros in *. micros. nia.
Qed.

Lemma interval_divide_witness : exists q, Divide (Interval 7 0 0) 2 = Ret q /\ getMicro q = Ret (7 * 30 * 86400000000 / 2) /\ months q = 3 /\ days q = 15.
Proof.
  destruct (interval_divide (Interval 7 0 0) 2 (7 * 30 * 86400000000)) as (q & Hq & Ht & Hm & Hd & _); [by vm_compute..|]. exists q. by repeat split.
Defined.

(** Negative operands are taken for large unsigned ones, and zero divides. *)
Example negative_interval_divided : Divide (Interval (-1) 0 0) 3 = Ret (Interval 1431655765 0 0).
Proof. by vm_compute. Qed.
Example divided_by_negative : Divide (Interval 0 1 0) (-1) = Ret (Interval 0 0 0).
Proof. by vm_compute. Qed.
Example divided_by_zero : Divide (Interval 0 1 0) 0 = Undef.
Proof. by vm_compute. Qed.
