(* ===== verification/Arithmetic.v ===== *)
(** The checked arithmetic of queries ([function/arithmetic/], with [numeric_limits.h] and
    [include/function/cast/functions/numeric_cast.h]) on the eight integer types of
    [Bitpacking.v]. The type [dst] of the intermediate result is the next larger one of the
    same signedness, or for 64 bits the type itself. On 64 signed bits GCC and Clang have
    built-in functions that tell whether the result fits; the code for other compilers is
    here too ([_portable]). The operands are references, which one operation writes to. *)
From S2P Require Import Prelude Bitpacking.
Local Open Scope Z_scope.

Definition fits (t : int_type) (z : Z) : bool := (MIN t <=? z) && (z <=? MAX t).
(** [DST_TYPE] of the specialisations. *)
Definition dst_of (t : int_type) : int_type := if bits t =? 64 then t else IntType (2 * bits t) (is_signed t).
Definition is_int64_type (t : int_type) : bool := (bits t =? 64) && is_signed t.
Definition is_uint64_type (t : int_type) : bool := (bits t =? 64) && negb (is_signed t).

Definition typeName (t : int_type) : string :=
  (if is_signed t then "INT" else "UINT") +:+ (if bits t =? 8 then "8" else if bits t =? 16 then "16" else if bits t =? 32 then "32" else "64").
Definition not_within (prefix : string) (t : int_type) : exn := OverflowException (prefix +:+ " is not within " +:+ typeName t +:+ " range.").

(** An operation on two references: the result, and the operands after it. *)
Definition binary_op : Type := Z -> Z -> outcome (Z * Z * Z).

(** [uresult] is computed in [dst] and must lie in the range of [src]. *)
Definition checked (src : int_type) (uresult : Z) : option Z :=
  if (uresult <? MIN src) || (MAX src <? uresult) then None else Some (cast src uresult).
(** [__builtin_add_overflow] and the like. *)
Definition builtin (t : int_type) (exact : Z) : option Z := if fits t exact then Some exact else None.

Definition or_throw {A} (m : option A) (e : exn) : outcome A := match m with Some a => Ret a | None => Throw e end.

(** ** [add.cpp] *)

Definition addInPlaceWithOverflowCheck (t : int_type) (left right : Z) : option Z :=
  let dst := dst_of t in checked t (cast dst (cast dst left + cast dst right)).
Definition AddInPlace (t : int_type) (left right : Z) : option Z :=
  if is_int64_type t then builtin t (left + right)
  else if is_uint64_type t then
    if cast t (MAX t - left) <? right then None else addInPlaceWithOverflowCheck t left right
  else addInPlaceWithOverflowCheck t left right.
Definition AddInPlace_portable (left right : Z) : option Z :=
  let tmp := cast INT64 (cast UINT64 (cast UINT64 left + cast UINT64 right)) in
  if ((left <? 0) && (right <? 0) && (0 <=? tmp)) || ((0 <=? left) && (0 <=? right) && (tmp <? 0)) then None else Some tmp.
Definition Add (t : int_type) (left right : Z) : outcome Z := or_throw (AddInPlace t left right) (not_within "Value {} + {}" t).

(** ** [subtract.cpp] *)

Definition SubtractInPlaceWithOverflowCheck (t : int_type) (left right : Z) : option Z :=
  let dst := dst_of t in checked t (cast dst (cast dst left - cast dst right)).
Definition SubtractInPlace (t : int_type) (left right : Z) : option Z :=
  if is_int64_type t then builtin t (left - right)
  else if is_signed t then SubtractInPlaceWithOverflowCheck t left right
  else if left <? right then None else SubtractInPlaceWithOverflowCheck t left right.
Definition SubtractInPlace_portable (left right : Z) : option Z :=
  if right <? 0 then (if cast INT64 (MAX INT64 + right) <? left then None else Some (cast INT64 (left - right)))
  else if left <? cast INT64 (MIN INT64 + right) then None else Some (cast INT64 (left - right)).
Definition Subtract (t : int_type) (left right : Z) : outcome Z := or_throw (SubtractInPlace t left right) (not_within "Value {} - {}" t).

(** ** [multiply.cpp] *)

Definition tryMultiplyWithOverflowCheck (t : int_type) (left right : Z) : option Z :=
  let dst := dst_of t in checked t (cast dst (cast dst left * cast dst right)).
(** The check of 64 unsigned bits, on the smaller operand and the halves of the larger. *)
Definition multiply_uint64 (left right : Z) : option Z :=
  if MAX UINT32 <? left then None
  else
    let c := cast UINT32 (Z.shiftr right 32) in
    let d := cast UINT32 (Z.land (MAX UINT32) right) in
    let r := cast UINT64 (left * c) in
    let s := cast UINT64 (left * d) in
    if MAX UINT32 <? r then None
    else
      let r := cast UINT64 (Z.shiftl r 32) in
      if cast UINT64 (MAX UINT64 - s) <? r then None else tryMultiplyWithOverflowCheck UINT64 left right.
(** [std::swap] exchanges what the references refer to. *)
Definition TryMultiply (t : int_type) (left right : Z) : option Z * (Z * Z) :=
  if is_uint64_type t then
    let '(smaller, larger) := if right <? left then (right, left) else (left, right) in
    (multiply_uint64 smaller larger, (smaller, larger))
  else if is_int64_type t then (builtin t (left * right), (left, right))
  else (tryMultiplyWithOverflowCheck t left right, (left, right)).
Definition high_bits_mask : Z := 72057591890444288. (* 0xffffff80000000 *)
Definition TryMultiply_portable (left right : Z) : option Z :=
  if left =? MIN INT64 then (if right =? 0 then Some 0 else if right =? 1 then Some left else None)
  else if right =? MIN INT64 then (if left =? 0 then Some 0 else if left =? 1 then Some right else None)
  else
    let left_non_negative := Z.abs left in
    let right_non_negative := Z.abs right in
    let left_high_bits := Z.shiftr left_non_negative 32 in
    let left_low_bits := Z.land left_non_negative 4294967295 in
    let right_high_bits := Z.shiftr right_non_negative 32 in
    let right_low_bits := Z.land right_non_negative 4294967295 in
    let low_low := cast UINT64 (left_low_bits * right_low_bits) in
    let exceeds high_bits := negb (Z.land high_bits high_bits_mask =? 0) in
    let overflow :=
      if left_high_bits =? 0 then
        if negb (right_high_bits =? 0) then exceeds (cast UINT64 (cast UINT64 (left_low_bits * right_high_bits) + Z.shiftr low_low 32)) else false
      else if right_high_bits =? 0 then exceeds (cast UINT64 (cast UINT64 (left_high_bits * right_low_bits) + Z.shiftr low_low 32))
      else true in
    if overflow then None else Some (cast INT64 (left * right)).
Definition Multiply (t : int_type) : binary_op := fun left right =>
  let '(result, (left', right')) := TryMultiply t left right in
  result ← or_throw result (not_within "Value {} * {}" t); Ret (result, left', right').

(** ** [divide.cpp], [modulo.cpp] *)

Definition tryDivideWithOverflowCheck (t : int_type) (left right : Z) : option Z :=
  let dst := dst_of t in checked t (cast dst (Z.quot (cast dst left) (cast dst right))).
Definition TryDivide (t : int_type) (left right : Z) : option Z :=
  if is_int64_type t && ((left =? MIN INT64) && (right =? -1)) then None else tryDivideWithOverflowCheck t left right.
Definition Divide (t : int_type) (left right : Z) : outcome Z :=
  if right =? 0 then Throw (RuntimeException "Divide by zero.") else or_throw (TryDivide t left right) (not_within "Value {} / {}" t).

Definition tryModuloWithOverflowCheck (t : int_type) (left right : Z) : option Z :=
  let dst := dst_of t in
  if (left =? MIN t) && (right =? -1) then None else Some (cast t (cast dst (Z.rem (cast dst left) (cast dst right)))).
Definition TryModulo (t : int_type) (left right : Z) : option Z :=
  if is_int64_type t && ((left =? MIN INT64) && (right =? -1)) then None else tryModuloWithOverflowCheck t left right.
Definition Modulo (t : int_type) (left right : Z) : outcome Z :=
  if right =? 0 then Throw (RuntimeException "Modulo by zero.")
  else if is_signed t then or_throw (TryModulo t left right) (not_within "Value {} % {}" t)
  else Ret (Z.rem left right).

(** ** [negate.cpp], [abs.cpp] *)

Definition NegateInPlace (t : int_type) (input : Z) : option Z := if input =? MIN t then None else Some (cast t (- input)).
(** Unsigned types have the primary template, [result = -input]. *)
Definition Negate (t : int_type) (input : Z) : outcome Z :=
  if is_signed t then or_throw (NegateInPlace t input) (OverflowException ("Value {} cannot be negated within " +:+ typeName t +:+ " range."))
  else Ret (cast t (- input)).

Definition AbsInPlace (t : int_type) (input : Z) : option Z := if input =? MIN t then None else Some (cast t (Z.abs input)).
Definition Abs (t : int_type) (input : Z) : outcome Z :=
  if is_signed t then or_throw (AbsInPlace t input) (OverflowException ("Cannot take the absolute value of {} within " +:+ typeName t +:+ " range."))
  else Ret input.

(** ** [numeric_cast.h] *)

(** [NumericLimits<T>::digits]. *)
Definition type_digits (t : int_type) : Z :=
  if bits t =? 8 then 3 else if bits t =? 16 then 5 else if bits t =? 32 then 10 else if is_signed t then 19 else 20.
Definition tryCastWithOverflowCheck (src dst : int_type) (value : Z) : option Z :=
  if negb (Bool.eqb (is_signed src) (is_signed dst)) then
    if is_signed src then
      if type_digits dst <? type_digits src then
        if (value <? 0) || (cast src (MAX dst) <? value) then None else Some (cast dst value)
      else if value <? 0 then None else Some (cast dst value)
    else if type_digits dst <=? type_digits src then (if value <=? cast src (MAX dst) then Some (cast dst value) else None)
    else Some (cast dst value)
  else if type_digits src <=? type_digits dst then Some (cast dst value)
  else if (value <? cast src (MIN dst)) || (cast src (MAX dst) <? value) then None
  else Some (cast dst value).
(** [CastToInt32::operation] and the like ([cast_functions.h]). *)
Definition CastTo (src dst : int_type) (value : Z) : outcome Z :=
  or_throw (tryCastWithOverflowCheck src dst value) (OverflowException ("Value {} is not within " +:+ typeName dst +:+ " range")).

Example add_overflows : Add INT8 100 28 = Throw (OverflowException "Value {} + {} is not within INT8 range.").
Proof. by vm_compute. Qed.
Example multiply_swaps : Multiply UINT64 5 3 = Ret (15, 3, 5).
Proof. by vm_compute. Qed.
Example negated_unsigned : Negate UINT8 5 = Ret 251.
Proof. by vm_compute. Qed.
(** The mask of the portable check has seven digits less than sixteen: bits above the 55th pass. *)
Example portable_misses_overflow : TryMultiply_portable (2 ^ 28) (2 ^ 60) = Some 0.
Proof. by vm_compute. Qed.
