(* ===== verification/ArithmeticSpec.v ===== *)
(** The checked arithmetic is the arithmetic of the integers where the result is in the
    type, and throws elsewhere; and what it does to its operands. *)
From S2P Require Import Prelude Bitpacking Arithmetic.
Local Open Scope Z_scope.

(** The types that have the operations. *)
Definition sql_types : list int_type := [INT8; INT16; INT32; INT64; UINT8; UINT16; UINT32; UINT64].
Definition is_sql (t : int_type) : Prop := In t sql_types.

(** A case for each type, with its bounds computed. *)
Ltac type_cases H := destruct H as [<-|[<-|[<-|[<-|[<-|[<-|[<-|[<-|[]]]]]]]]].
Ltac bounds_in := unfold fits, MIN, MAX, is_int64_type, is_uint64_type, dst_of, cast, wrap, INT8, INT16, INT32, INT64, UINT8, UINT16, UINT32, UINT64 in *; cbn [bits is_signed] in *;
  repeat match goal with |- context [2 ^ ?e] => let v := eval vm_compute in (2 ^ e) in change (2 ^ e) with v
  | H : context [2 ^ ?e] |- _ => let v := eval vm_compute in (2 ^ e) in change (2 ^ e) with v in H end; cbn in *.

Lemma fits_spec t z : fits t z = true <-> MIN t <= z <= MAX t.
Proof. unfold fits. rewrite andb_true_iff, !Z.leb_le. done. Qed.

(** A value of the type is its own cast. *)
Lemma cast_fits t z : is_sql t -> MIN t <= z <= MAX t -> cast t z = z.
Proof. intros Ht Hz. type_cases Ht; bounds_in; rewrite ?Z.mod_small; lia. Qed.

Lemma dst_sql t : is_sql t -> bits t < 64 -> is_sql (dst_of t).
Proof. intros Ht Hb. type_cases Ht; cbn in Hb; try lia; unfold is_sql, sql_types; cbn; tauto. Qed.

(** The check of a result that is exact in the larger type. *)
Lemma checked_exact t z : is_sql t -> checked t z = if fits t z then Some z else None.
Proof.
  intros Ht. unfold checked, fits. destruct (Z.ltb_spec z (MIN t)), (Z.ltb_spec (MAX t) z); cbn [orb].
  1-3: by replace ((MIN t <=? z) && (z <=? MAX t)) with false by lia.
  replace ((MIN t <=? z) && (z <=? MAX t)) with true by lia. by rewrite cast_fits.
Qed.

Lemma dst_of_sql t : is_sql t -> is_sql (dst_of t).
Proof. intros Ht. type_cases Ht; unfold is_sql, sql_types; cbn; tauto. Qed.

Lemma dst_id t z : is_sql t -> MIN (dst_of t) <= z <= MAX (dst_of t) -> cast (dst_of t) z = z.
Proof. intros Ht. by apply cast_fits, dst_of_sql. Qed.

(** What the larger type holds of two values of a smaller one. *)
Lemma dst_room t l r : is_sql t -> bits t < 64 -> MIN t <= l <= MAX t -> MIN t <= r <= MAX t ->
  let holds z := MIN (dst_of t) <= z <= MAX (dst_of t) in
  holds l /\ holds r /\ holds (l + r) /\ holds (l * r) /\ (is_signed t = true \/ r <= l -> holds (l - r)).
Proof. intros Ht Hb Hl Hr holds. unfold holds. type_cases Ht; bounds_in; try lia; repeat split; nia. Qed.

Lemma is_sql_64 t : is_sql t -> ~ bits t < 64 -> t = INT64 \/ t = UINT64.
Proof. intros Ht Hb. type_cases Ht; cbn in Hb; try lia; tauto. Qed.

(** The branches for 64 bits are for 64 bits. *)
Lemma small_type t : bits t < 64 -> is_int64_type t = false /\ is_uint64_type t = false.
Proof. intros Hb. unfold is_int64_type, is_uint64_type. by replace (bits t =? 64) with false by lia. Qed.

Lemma AddInPlace_exact t l r : is_sql t -> MIN t <= l <= MAX t -> MIN t <= r <= MAX t ->
  AddInPlace t l r = if fits t (l + r) then Some (l + r) else None.
Proof.
  intros Ht Hl Hr. unfold AddInPlace. destruct (Z_lt_dec (bits t) 64) as [Hb|Hb].
  - destruct (small_type t Hb) as [-> ->]. destruct (dst_room t l r Ht Hb Hl Hr) as (? & ? & ? & _). unfold addInPlaceWithOverflowCheck.
    rewrite !dst_id by (done || (rewrite ?dst_id by done; done)). by apply checked_exact.
  - destruct (is_sql_64 t Ht Hb) as [->| ->]; [done|]. change (is_int64_type UINT64) with false. change (is_uint64_type UINT64) with true. cbn iota.
    rewrite cast_fits by (try done; bounds_in; lia). unfold addInPlaceWithOverflowCheck. change (dst_of UINT64) with UINT64. rewrite (cast_fits _ l), (cast_fits _ r) by done.
    destruct (Z.ltb_spec (MAX UINT64 - l) r) as [Hov|Hov].
    + unfold fits. by replace ((MIN UINT64 <=? l + r) && (l + r <=? MAX UINT64)) with false by lia.
    + rewrite cast_fits by (try done; bounds_in; lia). by apply checked_exact.
Qed.

Lemma SubtractInPlace_exact t l r : is_sql t -> MIN t <= l <= MAX t -> MIN t <= r <= MAX t ->
  SubtractInPlace t l r = if fits t (l - r) then Some (l - r) else None.
Proof.
  intros Ht Hl Hr. unfold SubtractInPlace. destruct (is_int64_type t) eqn:H64; [done|].
  assert (Hcheck : is_signed t = true \/ r <= l -> SubtractInPlaceWithOverflowCheck t l r = if fits t (l - r) then Some (l - r) else None).
  { intros Hle. unfold SubtractInPlaceWithOverflowCheck. destruct (Z_lt_dec (bits t) 64) as [Hb|Hb].
    - destruct (dst_room t l r Ht Hb Hl Hr) as (? & ? & _ & _ & Hsub). specialize (Hsub Hle).
      rewrite !dst_id by (done || (rewrite ?dst_id by done; done)). by apply checked_exact.
    - destruct (is_sql_64 t Ht Hb) as [->| ->]; [done|]. destruct Hle as [|Hle]; [done|]. change (dst_of UINT64) with UINT64. rewrite (cast_fits _ l), (cast_fits _ r) by done.
      rewrite cast_fits by (try done; bounds_in; lia). by apply checked_exact. }
  destruct (is_signed t) eqn:Hs; [apply Hcheck; by left|]. destruct (Z.ltb_spec l r) as [Hlt|Hle]; [|apply Hcheck; by right].
  assert (Hmin : MIN t = 0) by (unfold MIN; by rewrite Hs). unfold fits. rewrite Hmin. by replace ((0 <=? l - r) && (l - r <=? MAX t)) with false by lia.
Qed.

(** The halves of the larger operand. *)
Lemma multiply_uint64_exact l r : 0 <= l <= r -> r <= MAX UINT64 -> multiply_uint64 l r = if fits UINT64 (l * r) then Some (l * r) else None.
Proof.
  intros Hl Hr. unfold multiply_uint64. change (MAX UINT32) with (2 ^ 32 - 1) in *. change (MAX UINT64) with (2 ^ 64 - 1) in *.
  assert (Hfits : fits UINT64 (l * r) = (l * r <? 2 ^ 64)) by (unfold fits; change (MIN UINT64) with 0; change (MAX UINT64) with (2 ^ 64 - 1); nia).
  rewrite Hfits. destruct (Z.ltb_spec (2 ^ 32 - 1) l) as [Hbig|Hsmall]; [by rewrite (proj2 (Z.ltb_ge _ _)) by nia|].
  rewrite Z.shiftr_div_pow2 by lia. replace (Z.land (2 ^ 32 - 1) r) with (r mod 2 ^ 32) by (rewrite <- Z.land_ones by lia; apply Z.land_comm).
  pose proof (Z.div_mod r (2 ^ 32) ltac:(lia)) as Er. pose proof (Z.mod_pos_bound r (2 ^ 32) ltac:(lia)) as Br.
  assert (Bc : 0 <= r / 2 ^ 32 < 2 ^ 32) by (split; [apply Z.div_pos; lia|apply Z.div_lt_upper_bound; lia]).
  set (c := r / 2 ^ 32) in *. set (d := r mod 2 ^ 32) in *. rewrite (cast_fits UINT32 c), (cast_fits UINT32 d) by (cbn; tauto || (change (MIN UINT32) with 0; change (MAX UINT32) with (2 ^ 32 - 1); lia)).
  assert (H64 : forall z, 0 <= z < 2 ^ 64 -> cast UINT64 z = z) by (intros z Hz; apply cast_fits; [cbn; tauto|change (MIN UINT64) with 0; change (MAX UINT64) with (2 ^ 64 - 1); lia]).
  rewrite (H64 (l * c)), (H64 (l * d)) by nia. destruct (Z.ltb_spec (2 ^ 32 - 1) (l * c)); [by rewrite (proj2 (Z.ltb_ge _ _)) by nia|].
  rewrite Z.shiftl_mul_pow2 by lia. rewrite (H64 (2 ^ 64 - 1 - l * d)), (H64 (l * c * 2 ^ 32)) by nia.
  assert (Eprod : l * r = l * c * 2 ^ 32 + l * d) by (rewrite Er; lia). destruct (Z.ltb_spec (2 ^ 64 - 1 - l * d) (l * c * 2 ^ 32)); [by rewrite (proj2 (Z.ltb_ge _ _)) by lia|].
  unfold tryMultiplyWithOverflowCheck. change (dst_of UINT64) with UINT64. rewrite (H64 l), (H64 r) by lia. rewrite H64 by lia. rewrite checked_exact by (cbn; tauto). by rewrite Hfits.
Qed.

(** The operands after a multiplication. *)
Definition operands_after (t : int_type) (l r : Z) : Z * Z := if is_uint64_type t && (r <? l) then (r, l) else (l, r).

Lemma TryMultiply_exact t l r : is_sql t -> MIN t <= l <= MAX t -> MIN t <= r <= MAX t ->
  TryMultiply t l r = (if fits t (l * r) then Some (l * r) else None, operands_after t l r).
Proof.
  intros Ht Hl Hr. unfold TryMultiply, operands_after. destruct (Z_lt_dec (bits t) 64) as [Hb|Hb].
  - destruct (small_type t Hb) as [-> ->]. destruct (dst_room t l r Ht Hb Hl Hr) as (? & ? & _ & ? & _). unfold tryMultiplyWithOverflowCheck.
    rewrite !dst_id by (done || (rewrite ?dst_id by done; done)). by rewrite checked_exact.
  - destruct (is_sql_64 t Ht Hb) as [->| ->]; [done|]. change (is_uint64_type UINT64) with true. cbn [andb]. change (MIN UINT64) with 0 in *.
    destruct (Z.ltb_spec r l); rewrite multiply_uint64_exact by lia; [by rewrite Z.mul_comm|done].
Qed.

Lemma quot_bound l r : r <> 0 -> Z.abs (Z.quot l r) <= Z.abs l.
Proof. intros Hr. rewrite <- Z.quot_abs by done. rewrite Z.quot_div_nonneg by lia. apply Z.div_le_upper_bound; [lia|]. nia. Qed.
Lemma rem_bound l r : r <> 0 -> Z.abs (Z.rem l r) <= Z.abs l /\ 0 <= l * Z.rem l r.
Proof.
  intros Hr. split; [|rewrite Z.mul_comm; by apply Z.rem_sign_mul]. rewrite <- Z.rem_abs by done. rewrite Z.rem_mod_nonneg by lia. apply Z.mod_le; lia.
Qed.

(** Quotients and remainders of a type stay in it, but for the least value over -1. *)
Lemma quot_fits t l r : is_sql t -> MIN t <= l <= MAX t -> MIN t <= r <= MAX t -> r <> 0 -> ~ (is_signed t = true /\ l = MIN t /\ r = -1) ->
  MIN t <= Z.quot l r <= MAX t.
Proof.
  intros Ht Hl Hr H0 Hov. pose proof (quot_bound l r H0) as Hq. destruct (Z.eq_dec r (-1)) as [->|Hr1].
  - replace (Z.quot l (-1)) with (- l) by (Z.to_euclidean_division_equations; lia). type_cases Ht; bounds_in; lia.
  - assert (Hsign : is_signed t = false -> 0 <= Z.quot l r) by (intros Hs; apply Z.quot_pos; unfold MIN in *; rewrite Hs in *; lia).
    assert (Hlow : l = MIN t -> Z.quot l r <= MAX t \/ r = 1).
    { intros ->. destruct (Z.eq_dec r 1); [by right|]. left. assert (Z.abs (Z.quot (MIN t) r) * 2 <= Z.abs (MIN t)).
      { rewrite <- Z.quot_abs by done. rewrite Z.quot_div_nonneg by lia. pose proof (Z.mul_div_le (Z.abs (MIN t)) (Z.abs r)). nia. }
      type_cases Ht; bounds_in; lia. }
    destruct (Z.eq_dec r 1) as [->|]; [rewrite Z.quot_1_r; lia|]. type_cases Ht; bounds_in; lia.
Qed.

Lemma rem_fits t l r : is_sql t -> MIN t <= l <= MAX t -> r <> 0 -> MIN t <= Z.rem l r <= MAX t.
Proof. intros Ht Hl H0. destruct (rem_bound l r H0) as [Hb Hs]. type_cases Ht; bounds_in; try lia; nia. Qed.

(** The least value over -1, which no type holds. *)
Definition least_over_minus_one (t : int_type) (l r : Z) : bool := is_signed t && ((l =? MIN t) && (r =? -1)).

Lemma TryDivide_exact t l r : is_sql t -> MIN t <= l <= MAX t -> MIN t <= r <= MAX t -> r <> 0 ->
  TryDivide t l r = if least_over_minus_one t l r then None else Some (Z.quot l r).
Proof.
  intros Ht Hl Hr H0. assert (Hchecked : MIN (dst_of t) <= Z.quot l r <= MAX (dst_of t) -> MIN (dst_of t) <= l <= MAX (dst_of t) -> MIN (dst_of t) <= r <= MAX (dst_of t) ->
    tryDivideWithOverflowCheck t l r = if fits t (Z.quot l r) then Some (Z.quot l r) else None).
  { intros Hq Hl' Hr'. unfold tryDivideWithOverflowCheck. rewrite !dst_id by (done || (rewrite ?dst_id by done; done)). by apply checked_exact. }
  unfold TryDivide, least_over_minus_one. destruct (Z_lt_dec (bits t) 64) as [Hb|Hb].
  - destruct (small_type t Hb) as [-> _]. cbn [andb]. destruct (dst_room t l r Ht Hb Hl Hr) as (Hdl & Hdr & _). pose proof (quot_bound l r H0) as Hq.
    rewrite Hchecked by (try done; type_cases Ht; bounds_in; try lia; pose proof (Z.quot_pos l r); lia).
    destruct (is_signed t && ((l =? MIN t) && (r =? -1))) eqn:Hov.
    + apply andb_prop in Hov as [Hs [->%Z.eqb_eq ->%Z.eqb_eq]%andb_prop]. type_cases Ht; try done; reflexivity.
    + rewrite (proj2 (fits_spec t _)); [done|]. apply quot_fits; try done. intros (Hs & -> & ->). by rewrite Hs, !Z.eqb_refl in Hov.
  - assert (Hfits : is_signed t && ((l =? MIN t) && (r =? -1)) = false -> fits t (Z.quot l r) = true).
    { intros Hov. apply fits_spec, quot_fits; try done. intros (Hs & -> & ->). by rewrite Hs, !Z.eqb_refl in Hov. }
    destruct (is_sql_64 t Ht Hb) as [->| ->]; cbn [is_int64_type is_signed bits INT64 UINT64 Z.eqb Pos.eqb andb] in *.
    + destruct ((l =? MIN INT64) && (r =? -1)) eqn:Hov; [done|]. specialize (Hfits eq_refl). rewrite Hchecked; try done; [by rewrite Hfits|]. by apply fits_spec.
    + specialize (Hfits eq_refl). rewrite Hchecked; try done; [by rewrite Hfits|]. by apply fits_spec.
Qed.

Lemma Modulo_exact t l r : is_sql t -> MIN t <= l <= MAX t -> MIN t <= r <= MAX t -> r <> 0 ->
  Modulo t l r = if least_over_minus_one t l r then Throw (not_within "Value {} % {}" t) else Ret (Z.rem l r).
Proof.
  intros Ht Hl Hr H0. unfold Modulo, least_over_minus_one. rewrite (proj2 (Z.eqb_neq r 0)) by done. destruct (is_signed t) eqn:Hs; [|done]. cbn [andb].
  unfold TryModulo, tryModuloWithOverflowCheck. assert (Hmin : is_int64_type t = true -> MIN INT64 = MIN t) by (intros H; type_cases Ht; done).
  destruct ((l =? MIN t) && (r =? -1)) eqn:Hov.
  - destruct (is_int64_type t) eqn:H64; cbn [andb]; [rewrite Hmin, Hov by done|]; done.
  - replace (is_int64_type t && _) with false by (destruct (is_int64_type t) eqn:H64; cbn [andb]; [rewrite Hmin, Hov by done|]; done).
    pose proof (rem_fits t l r Ht Hl H0) as Hrem. cbn [or_throw]. f_equal.
    assert (Hsub : forall z, MIN t <= z <= MAX t -> cast (dst_of t) z = z) by (intros z Hz; apply dst_id; [done|]; type_cases Ht; bounds_in; try done; lia).
    rewrite (Hsub l), (Hsub r), (Hsub _ Hrem) by done. by apply cast_fits.
Qed.

Lemma NegateInPlace_exact t i : is_sql t -> is_signed t = true -> MIN t <= i <= MAX t -> NegateInPlace t i = if fits t (- i) then Some (- i) else None.
Proof.
  intros Ht Hs Hi. unfold NegateInPlace. destruct (Z.eqb_spec i (MIN t)) as [->|Hne]; [type_cases Ht; done|].
  assert (Hb : MIN t <= - i <= MAX t) by (type_cases Ht; try done; bounds_in; lia). rewrite cast_fits by done. by rewrite (proj2 (fits_spec t _)).
Qed.

Lemma AbsInPlace_exact t i : is_sql t -> is_signed t = true -> MIN t <= i <= MAX t -> AbsInPlace t i = if fits t (Z.abs i) then Some (Z.abs i) else None.
Proof.
  intros Ht Hs Hi. unfold AbsInPlace. destruct (Z.eqb_spec i (MIN t)) as [->|Hne]; [type_cases Ht; done|].
  assert (Hb : MIN t <= Z.abs i <= MAX t) by (type_cases Ht; try done; bounds_in; lia). rewrite cast_fits by done. by rewrite (proj2 (fits_spec t _)).
Qed.

(** The result of an operation that throws when it does not fit. *)
Definition exact_or_throw (t : int_type) (z : Z) (e : exn) : outcome Z := if fits t z then Ret z else Throw e.
Lemma or_throw_fits t z e : or_throw (if fits t z then Some z else None) e = exact_or_throw t z e.
Proof. unfold exact_or_throw. by destruct (fits t z). Qed.



(** The comparisons of a cast, between closed bounds. *)
Ltac closed_bounds :=
  repeat match goal with |- context [cast ?t (MAX ?u)] => let v := eval vm_compute in (cast t (MAX u)) in change (cast t (MAX u)) with v
  | |- context [cast ?t (MIN ?u)] => let v := eval vm_compute in (cast t (MIN u)) in change (cast t (MIN u)) with v end;
  repeat match goal with |- context [MAX ?u] => let v := eval vm_compute in (MAX u) in change (MAX u) with v
  | H : context [MAX ?u] |- _ => let v := eval vm_compute in (MAX u) in change (MAX u) with v in H
  | |- context [MIN ?u] => let v := eval vm_compute in (MIN u) in change (MIN u) with v
  | H : context [MIN ?u] |- _ => let v := eval vm_compute in (MIN u) in change (MIN u) with v in H end.

(** Casts between the types throw exactly for the values the other type has not. *)
Theorem cast_exact : forall src dst v, is_sql src -> is_sql dst -> MIN src <= v <= MAX src ->
  CastTo src dst v = exact_or_throw dst v (OverflowException ("Value {} is not within " +:+ typeName dst +:+ " range")).
Proof.
  intros src dst v Hs Hd Hv. unfold CastTo. rewrite <- or_throw_fits. f_equal.
  enough (Htry : tryCastWithOverflowCheck src dst v = if fits dst v then Some (cast dst v) else None).
  { rewrite Htry. destruct (fits dst v) eqn:Hf; [|done]. apply fits_spec in Hf. by rewrite cast_fits. }
  unfold tryCastWithOverflowCheck, type_digits, fits. generalize (cast dst v). intros c.
  type_cases Hs; type_cases Hd; cbn [bits is_signed INT8 INT16 INT32 INT64 UINT8 UINT16 UINT32 UINT64 negb Bool.eqb Z.eqb Z.ltb Z.leb Z.compare Pos.compare Pos.compare_cont Pos.eqb]; closed_bounds.
  all: repeat match goal with |- context [?a <=? ?b] => destruct (Z.leb_spec a b) | |- context [?a <? ?b] => destruct (Z.ltb_spec a b) end; cbn [andb orb]; done || lia.
Qed.

(** The code for other compilers: sums and differences are right, products are not. *)
Theorem portable_sums : forall l r, MIN INT64 <= l <= MAX INT64 -> MIN INT64 <= r <= MAX INT64 ->
  AddInPlace_portable l r = AddInPlace INT64 l r /\ SubtractInPlace_portable l r = SubtractInPlace INT64 l r.
Proof.
  intros l r Hl Hr. rewrite AddInPlace_exact, SubtractInPlace_exact by (done || (cbn; tauto)). unfold AddInPlace_portable, SubtractInPlace_portable, fits, cast, wrap.
  cbn [bits is_signed INT64 UINT64] in *. change (2 ^ (64 - 1)) with 9223372036854775808. change (2 ^ 64) with 18446744073709551616. closed_bounds. split.
  - rewrite <- Z.add_mod, Z.add_mod_idemp_l by lia.
    assert (Htmp : (l + r + 9223372036854775808) mod 18446744073709551616 - 9223372036854775808 =
      if l + r <? -9223372036854775808 then l + r + 18446744073709551616 else if 9223372036854775807 <? l + r then l + r - 18446744073709551616 else l + r)
      by (repeat case_match; bool_to_prop; (Z.div_mod_to_equations; lia)).
    rewrite Htmp. repeat match goal with |- context [?a <=? ?b] => destruct (Z.leb_spec a b) | |- context [?a <? ?b] => destruct (Z.ltb_spec a b) end; cbn [andb orb]; done || lia.
  - assert (Hsub : forall z, -9223372036854775808 <= z <= 9223372036854775807 -> (z + 9223372036854775808) mod 18446744073709551616 - 9223372036854775808 = z)
      by (intros z Hz; rewrite Z.mod_small; lia).
    destruct (Z.ltb_spec r 0); rewrite Hsub by lia.
    + destruct (Z.ltb_spec (9223372036854775807 + r) l); [|rewrite Hsub by lia]; repeat match goal with |- context [?a <=? ?b] => destruct (Z.leb_spec a b) end; cbn [andb]; done || lia.
    + destruct (Z.ltb_spec l (-9223372036854775808 + r)); [|rewrite Hsub by lia]; repeat match goal with |- context [?a <=? ?b] => destruct (Z.leb_spec a b) end; cbn [andb]; done || lia.
Qed.
