(* ===== verification/BinaryExecutor.v ===== *)
(** The loop that applies a function to two vectors of values
    ([include/function/binary_function_executor.h]): a vector has its values and its null
    mask ([common/vector/value_vector.h]); a flat one has a single position, the first of
    its selection vector, which is used for every row of the other. The function gets
    references to the values in the vectors, so that what it writes to its operands stays
    there. The vectors are three different ones. *)
From S2P Require Import Prelude SelVector NullMask NullMaskFacts NullMaskSpec Bitpacking Arithmetic.

Record ValueVector := mkVector { values : list Z; nullMask : NullMask.t; isFlat : bool }.

Definition vector_isNull (v : ValueVector) (pos : nat) : outcome bool := NullMask.isNull (NullMask.data (nullMask v)) (Z.of_nat pos).
Definition vector_setNull (v : ValueVector) (pos : nat) (b : bool) : outcome ValueVector :=
  m ← NullMask.set (nullMask v) (Z.of_nat pos) b; Ret (mkVector (values v) m (isFlat v)).
Definition vector_hasNoNullsGuarantee (v : ValueVector) : bool := NullMask.hasNoNullsGuarantee (nullMask v).
Definition vector_setAllNull (v : ValueVector) : ValueVector := mkVector (values v) (NullMask.setAllNull (nullMask v)) (isFlat v).
Definition vector_setAllNonNull (v : ValueVector) : ValueVector := mkVector (values v) (NullMask.setAllNonNull (nullMask v)) (isFlat v).
Definition vector_write (v : ValueVector) (pos : nat) (z : Z) : outcome ValueVector :=
  d ← store (values v) pos z; Ret (mkVector d (nullMask v) (isFlat v)).

Definition vectors : Type := ValueVector * ValueVector * ValueVector.

Section executor.
Context (FUNC : binary_op) (leftSelVector rightSelVector resultSelVector : SelectionVector.t).

(** [BinaryFunctionExecutor::executeOnValue], through [BinaryFunctionWrapper]. *)
Definition executeOnValue (lPos rPos resPos : nat) (s : vectors) : outcome vectors :=
  let '(lv, rv, res) := s in
  l ← load (values lv) lPos; r ← load (values rv) rPos;
  '(x, l', r') ← FUNC l r;
  lv ← vector_write lv lPos l'; rv ← vector_write rv rPos r'; res ← vector_write res resPos x;
  Ret (lv, rv, res).

(** [selVector[i]]. *)
Definition sel_at (sv : SelectionVector.t) (i : nat) : outcome nat := load (SelectionVector.pointee sv) i.

Definition getSelectedPositions (selPos : nat) (leftFlat rightFlat : bool) : outcome (nat * nat * nat) :=
  lPos ← sel_at leftSelVector (if leftFlat then 0 else selPos);
  rPos ← sel_at rightSelVector (if rightFlat then 0 else selPos);
  resPos ← sel_at resultSelVector (if leftFlat && rightFlat then 0 else selPos);
  Ret (lPos, rPos, resPos).

(** One round of the loop. *)
Definition executeOnPosition (leftFlat rightFlat noNullsGuaranteed : bool) (selPos : nat) (s : vectors) : outcome vectors :=
  '(lPos, rPos, resPos) ← getSelectedPositions selPos leftFlat rightFlat;
  let '(lv, rv, res) := s in
  if noNullsGuaranteed then executeOnValue lPos rPos resPos (lv, rv, res)
  else
    ln ← vector_isNull lv lPos;
    null ← (if ln : bool then Ret true else vector_isNull rv rPos);
    res ← vector_setNull res resPos null;
    isNull ← vector_isNull res resPos;
    if negb isNull then executeOnValue lPos rPos resPos (lv, rv, res) else Ret (lv, rv, res).

(** A flat operand that is null makes all null. *)
Definition flat_null (v : ValueVector) (sv : SelectionVector.t) : outcome bool :=
  if isFlat v then pos ← sel_at sv 0; vector_isNull v pos else Ret false.

Definition numSelectedValues (left : ValueVector) : nat :=
  if isFlat left then SelectionVector.getSelSize rightSelVector else SelectionVector.getSelSize leftSelVector.

Definition executeOnSelectedValues (left right result : ValueVector) : outcome vectors :=
  right_null ← flat_null right rightSelVector;
  allNullsGuaranteed ← (if right_null : bool then Ret true else flat_null left leftSelVector);
  if allNullsGuaranteed : bool then Ret (left, right, vector_setAllNull result)
  else
    let noNullsGuaranteed := (isFlat left || vector_hasNoNullsGuarantee left) && (isFlat right || vector_hasNoNullsGuarantee right) in
    let result := if noNullsGuaranteed then vector_setAllNonNull result else result in
    for_range 0 (numSelectedValues left) (executeOnPosition (isFlat left) (isFlat right) noNullsGuaranteed) (left, right, result).
End executor.

(** Functions that leave their operands alone. *)
Definition pure_op (f : Z -> Z -> outcome Z) : binary_op := fun l r => x ← f l r; Ret (x, l, r).

(** An unfiltered selection of the first [n] positions. *)
Definition first_positions (n : nat) : SelectionVector.t := SelectionVector.mk SelectionVector.Buffer n SelectionVector.DYNAMIC (seq 0 n).
Definition vector_of (l : list Z) (flat : bool) : ValueVector := mkVector l (NullMask.make (Z.of_nat (length l))) flat.

Example sums : executeOnSelectedValues (pure_op (Add INT32)) (first_positions 1) (first_positions 2) (first_positions 2)
  (vector_of [5%Z] true) (vector_of [3%Z; 4%Z] false) (vector_of [0%Z; 0%Z] false) =
  Ret (vector_of [5%Z] true, vector_of [3%Z; 4%Z] false, vector_of [8%Z; 9%Z] false).
Proof. vm_compute. reflexivity. Qed.

(** The vectorised execution of a function is the function row by row, nulls included, when
    it leaves its operands alone; the one that does not gives wrong products. *)
Import NullMask.

Definition null_at (v : ValueVector) (p : nat) : bool := bit (data (nullMask v)) (Z.of_nat p).
Definition value_at (v : ValueVector) (p : nat) : Z := nth p (values v) 0%Z.

(** A vector that has room for a position. *)
Definition has_position (v : ValueVector) (p : nat) : Prop :=
  p < length (values v) /\ (Z.of_nat p < num_bits (data (nullMask v)))%Z /\ (Z.of_nat p < 2 ^ 32)%Z.
Definition vector_sound (v : ValueVector) : Prop := sound (nullMask v).

Lemma isNull_at v p : has_position v p -> vector_isNull v p = Ret (null_at v p).
Proof. intros (_ & Hb & H32). unfold vector_isNull. by rewrite isNull_run by lia. Qed.

Lemma load_at v p : has_position v p -> load (values v) p = Ret (value_at v p).
Proof.
  intros (Hp & _ & _). unfold load, value_at. destruct (lookup_lt_is_Some_2 (values v) p Hp) as [x Hx]. by rewrite Hx, (nth_lookup_Some _ _ _ _ Hx).
Qed.

(** Writing what is there changes nothing. *)
Lemma write_back v p : has_position v p -> vector_write v p (value_at v p) = Ret v.
Proof.
  intros (Hp & _ & _). unfold vector_write. rewrite store_Ret by done. cbn. destruct v as [d m fl]. cbn in *. do 2 f_equal.
  apply list_insert_id. destruct (lookup_lt_is_Some_2 d p Hp) as [x Hx]. unfold value_at. cbn. by rewrite (nth_lookup_Some _ _ _ _ Hx).
Qed.

(** A position of the result has been given a cell: null, or a value; the others are as before. *)
Definition cell_written (c : option Z) (p : nat) (v v' : ValueVector) : Prop :=
  vector_sound v' /\ (forall q, has_position v q -> has_position v' q) /\ null_at v' p = bool_decide (c = None) /\ (forall x, c = Some x -> value_at v' p = x) /\
  forall q, q <> p -> value_at v' q = value_at v q /\ null_at v' q = null_at v q.

Lemma write_cell v p x : vector_sound v -> has_position v p -> null_at v p = false ->
  exists v', vector_write v p x = Ret v' /\ cell_written (Some x) p v v' /\ nullMask v' = nullMask v.
Proof.
  intros Hs Hp Hn. pose proof Hp as (Hlt & _). unfold vector_write. rewrite store_Ret by done. eexists. split; [done|]. split; [|done].
  split; [done|]. split; [intros q (? & ? & ?); split; cbn; [by rewrite length_insert|done]|]. split; [by rewrite bool_decide_false by done|].
  split; [intros y [= <-]; unfold value_at; cbn; by rewrite nth_lookup, list_lookup_insert_eq|].
  intros q Hq. split; [|done]. unfold value_at. cbn. by rewrite !nth_lookup, list_lookup_insert_ne.
Qed.

Lemma setNull_cell v p (b : bool) : vector_sound v -> has_position v p ->
  exists v', vector_setNull v p b = Ret v' /\ vector_sound v' /\ (forall q, has_position v q -> has_position v' q) /\ null_at v' p = b /\
    values v' = values v /\ forall q, q <> p -> null_at v' q = null_at v q.
Proof.
  intros Hs (Hlt & Hb & H32). pose proof Hs as [Hok _]. destruct (setNull_run (data (nullMask v)) (Z.of_nat p) b Hok) as (l' & Hrun & Hok' & Hlen & Hbit); [lia..|].
  assert (Hset : NullMask.set (nullMask v) (Z.of_nat p) b = Ret (mk l' (mayContainNulls (nullMask v) || b))).
  { unfold NullMask.set. rewrite getNumNullBits_eq, (proj2 (Z.ltb_lt _ _)) by done. cbn [ku_assert mbind outcome_bind]. by rewrite Hrun. }
  unfold vector_setNull. rewrite Hset. eexists. split; [done|]. split; [exact (sound_set _ _ _ _ Hs (conj (Nat2Z.is_nonneg p) H32) Hset)|]. unfold has_position, null_at. cbn.
  assert (Hnb : num_bits l' = num_bits (data (nullMask v))) by (unfold num_bits; by rewrite Hlen). rewrite Hnb. split; [done|].
  split; [by rewrite Hbit, Z.eqb_refl by lia|]. split; [done|]. intros q Hq. rewrite Hbit by lia. by rewrite (proj2 (Z.eqb_neq _ _)) by lia.
Qed.

(** ** The loop *)

Section execution.
Context (f : Z -> Z -> outcome Z) (leftSelVector rightSelVector resultSelVector : SelectionVector.t) (lv rv : ValueVector).

(** The cell that a row should get, from the positions of its operands. *)
Definition cell (lPos rPos : nat) : outcome (option Z) :=
  if null_at lv lPos || null_at rv rPos then Ret None else x ← f (value_at lv lPos) (value_at rv rPos); Ret (Some x).

Definition row_cells (rows : list (nat * nat * nat)) : outcome (list (option Z)) := mapM (fun row => cell (fst (fst row)) (snd (fst row))) rows.

(** The rows of a selection: positions that have room, and results of their own. *)
Definition row_at (selPos lPos rPos resPos : nat) : Prop :=
  getSelectedPositions leftSelVector rightSelVector resultSelVector selPos (isFlat lv) (isFlat rv) = Ret (lPos, rPos, resPos).
Definition rows_ok (n : nat) (rows : list (nat * nat * nat)) (result : ValueVector) : Prop :=
  length rows = n /\ NoDup (map snd rows) /\
  forall k lPos rPos resPos, rows !! k = Some (lPos, rPos, resPos) ->
    row_at k lPos rPos resPos /\ has_position lv lPos /\ has_position rv rPos /\ has_position result resPos.

(** The result after the cells of some rows. *)
Definition cells_written (rows : list (nat * nat * nat)) (cells : list (option Z)) (v v' : ValueVector) : Prop :=
  vector_sound v' /\ (forall q, has_position v q -> has_position v' q) /\
  (forall k lPos rPos resPos c, rows !! k = Some (lPos, rPos, resPos) -> cells !! k = Some c ->
    null_at v' resPos = bool_decide (c = None) /\ forall x, c = Some x -> value_at v' resPos = x) /\
  forall q, ~ In q (map snd rows) -> value_at v' q = value_at v q /\ null_at v' q = null_at v q.

(** No null is in the operands or the result when the code skips the masks. *)
Definition no_nulls (rows : list (nat * nat * nat)) (result : ValueVector) : Prop :=
  forall lPos rPos resPos, In (lPos, rPos, resPos) rows -> null_at lv lPos = false /\ null_at rv rPos = false /\ null_at result resPos = false.

(** The outcome of a run, from that of the cells. *)
Definition run_gives {A} (cells : outcome A) (run : outcome vectors) (post : A -> ValueVector -> Prop) : Prop :=
  match cells with
  | Ret a => exists result', run = Ret (lv, rv, result') /\ post a result'
  | Throw e => run = Throw e
  | Undef => run = Undef
  end.

Lemma executeOnValue_cell lPos rPos resPos v : vector_sound v -> has_position lv lPos -> has_position rv rPos -> has_position v resPos -> null_at v resPos = false ->
  run_gives (f (value_at lv lPos) (value_at rv rPos)) (executeOnValue (pure_op f) lPos rPos resPos (lv, rv, v)) (fun x v' => cell_written (Some x) resPos v v').
Proof.
  intros Hs Hl Hr Hp Hn. unfold run_gives, executeOnValue, pure_op. rewrite !load_at by done. cbn [mbind outcome_bind].
  destruct (f _ _) as [x| |]; [|done..]. cbn [mbind outcome_bind]. rewrite !write_back by done. cbn [mbind outcome_bind].
  destruct (write_cell v resPos x Hs Hp Hn) as (v' & -> & Hw & _). exists v'. split; done.
Qed.

Lemma executeOnPosition_cell guaranteed selPos lPos rPos resPos v : row_at selPos lPos rPos resPos -> vector_sound v ->
  has_position lv lPos -> has_position rv rPos -> has_position v resPos ->
  (guaranteed = true -> null_at lv lPos = false /\ null_at rv rPos = false /\ null_at v resPos = false) ->
  run_gives (cell lPos rPos) (executeOnPosition (pure_op f) leftSelVector rightSelVector resultSelVector (isFlat lv) (isFlat rv) guaranteed selPos (lv, rv, v))
    (fun c v' => cell_written c resPos v v').
Proof.
  intros Hrow Hs Hl Hr Hp Hg. unfold executeOnPosition. rewrite Hrow. cbn [mbind outcome_bind]. unfold cell. destruct guaranteed.
  - destruct (Hg eq_refl) as (-> & -> & Hn). cbn [orb]. pose proof (executeOnValue_cell lPos rPos resPos v Hs Hl Hr Hp Hn) as Hx.
    destruct (f _ _) as [x| |]; exact Hx.
  - rewrite (isNull_at lv lPos), (isNull_at rv rPos) by done. cbn [mbind outcome_bind].
    assert (Hnull : (if null_at lv lPos then Ret true else Ret (null_at rv rPos)) = Ret (null_at lv lPos || null_at rv rPos)) by (by destruct (null_at lv lPos)).
    rewrite Hnull. cbn [mbind outcome_bind]. destruct (setNull_cell v resPos (null_at lv lPos || null_at rv rPos) Hs Hp) as (v1 & -> & Hs1 & Hp1 & Hn1 & Hv1 & Hq1).
    cbn [mbind outcome_bind]. rewrite isNull_at by by apply Hp1. cbn [mbind outcome_bind]. rewrite Hn1.
    assert (Hval : forall q, value_at v1 q = value_at v q) by (intros q; unfold value_at; by rewrite Hv1).
    destruct (null_at lv lPos || null_at rv rPos); cbn [negb].
    + exists v1. split; [done|]. split; [done|]. split; [done|]. split; [done|]. split; [done|]. intros q Hq. by rewrite Hval, Hq1.
    + pose proof (executeOnValue_cell lPos rPos resPos v1 Hs1 Hl Hr (Hp1 _ Hp) Hn1) as Hx. destruct (f _ _) as [x| |]; [|exact Hx..].
      destruct Hx as (v' & Hrun & Hs' & Hp' & Hn' & Hx' & Hq'). exists v'. split; [exact Hrun|]. split; [done|]. split; [auto|]. split; [done|]. split; [done|].
      intros q Hq. destruct (Hq' q Hq) as [-> ->]. by rewrite Hval, Hq1.
Qed.

(** A further cell, of a position of its own. *)
Lemma cells_cons lPos rPos resPos rows c cells v v1 v' : ~ In resPos (map snd rows) -> cell_written c resPos v v1 -> cells_written rows cells v1 v' ->
  cells_written ((lPos, rPos, resPos) :: rows) (c :: cells) v v'.
Proof.
  intros Hnew (_ & Hp1 & Hn1 & Hx1 & Hq1) (Hs' & Hp' & Hcells & Hq'). split; [done|]. split; [auto|]. split.
  - intros [|k] l r p c' Hrow Hc; cbn in Hrow, Hc; [|by eapply Hcells]. injection Hrow as <- <- <-. injection Hc as <-. destruct (Hq' resPos Hnew) as [-> ->]. done.
  - cbn. intros q Hq. apply Decidable.not_or in Hq as [Hne Hq]. destruct (Hq' q Hq) as [-> ->]. by apply Hq1.
Qed.
Lemma loop_cells guaranteed rows : forall lo v, vector_sound v -> NoDup (map snd rows) -> (guaranteed = true -> no_nulls rows v) ->
  (forall k lPos rPos resPos, rows !! k = Some (lPos, rPos, resPos) ->
    row_at (lo + k) lPos rPos resPos /\ has_position lv lPos /\ has_position rv rPos /\ has_position v resPos) ->
  run_gives (row_cells rows)
    (for_range lo (length rows) (executeOnPosition (pure_op f) leftSelVector rightSelVector resultSelVector (isFlat lv) (isFlat rv) guaranteed) (lv, rv, v))
    (fun cells v' => cells_written rows cells v v').
Proof.
  induction rows as [|[[l r] p] rows IH]; intros lo v Hs Hnd Hg Hrows.
  { exists v. split; [done|]. split; [done|]. split; [done|]. split; [intros [|k]; done|done]. }
  destruct (Hrows 0 l r p eq_refl) as (Hrow & Hl & Hr & Hp). rewrite Nat.add_0_r in Hrow. cbn [map] in Hnd. apply NoDup_cons in Hnd as [Hnew Hnd]. rewrite list_elem_of_In in Hnew.
  pose proof (executeOnPosition_cell guaranteed lo l r p v Hrow Hs Hl Hr Hp (fun H => Hg H l r p (or_introl eq_refl))) as Hc.
  unfold row_cells in *. cbn [mapM length for_range fst snd]. unfold run_gives in *. destruct (cell l r) as [c| |]; [|by rewrite Hc..]. destruct Hc as (v1 & -> & Hw). cbn [mbind outcome_bind].
  pose proof Hw as (Hs1 & Hp1 & _ & _ & Hq1). specialize (IH (S lo) v1 Hs1 Hnd).
  assert (Hg1 : guaranteed = true -> no_nulls rows v1).
  { intros H l' r' p' Hin. destruct (Hg H l' r' p' (or_intror Hin)) as (? & ? & Hn). split; [done|]. split; [done|].
    destruct (Hq1 p') as [_ ->]; [|done]. intros ->. apply Hnew. apply in_map_iff. by exists (l', r', p). }
  assert (Hrows1 : forall k l r p, rows !! k = Some (l, r, p) -> row_at (S lo + k) l r p /\ has_position lv l /\ has_position rv r /\ has_position v1 p).
  { intros k l' r' p' Hk. destruct (Hrows (S k) l' r' p' Hk) as (? & ? & ? & ?). replace (S lo + k) with (lo + S k) by lia. auto. }
  specialize (IH Hg1 Hrows1). destruct (mapM _ rows) as [cells| |]; cbn [mbind outcome_bind mret outcome_ret]; [|exact IH..].
  destruct IH as (v' & Hrun & Hws). exists v'. split; [exact Hrun|]. by eapply cells_cons.
Qed.

(** ** The whole *)

(** A flat operand has a first position. *)
Definition flat_ok (v : ValueVector) (sv : SelectionVector.t) : Prop := isFlat v = true -> exists pos, sel_at sv 0 = Ret pos /\ has_position v pos.

Lemma flat_null_Ret v sv : flat_ok v sv -> exists b, flat_null v sv = Ret b /\
  (b = true <-> isFlat v = true /\ exists pos, sel_at sv 0 = Ret pos /\ null_at v pos = true).
Proof.
  intros Hok. unfold flat_null. destruct (isFlat v) eqn:Hflat; [|exists false; split; [done|split; [done|by intros []]]].
  destruct (Hok Hflat) as (pos & Hpos & Hp). rewrite Hpos. cbn [mbind outcome_bind]. rewrite isNull_at by done. eexists. split; [done|]. split.
  - intros Hn. split; [done|]. by exists pos.
  - intros [_ (pos' & [= <-] & Hn)]. done.
Qed.

(** The position of a flat operand in every row. *)
Lemma row_flat k lPos rPos resPos : row_at k lPos rPos resPos ->
  (isFlat lv = true -> sel_at leftSelVector 0 = Ret lPos) /\ (isFlat rv = true -> sel_at rightSelVector 0 = Ret rPos).
Proof.
  unfold row_at, getSelectedPositions. intros Hrow. inv_ret Hrow. simplify_eq. split; intros Hflat; rewrite Hflat in *; done.
Qed.

Lemma setAllNonNull_at v : vector_sound v -> let v' := vector_setAllNonNull v in
  vector_sound v' /\ values v' = values v /\ forall q, has_position v q -> has_position v' q /\ null_at v' q = false.
Proof.
  intros Hs v'. assert (Hs' : sound (setAllNonNull (nullMask v))).
  { unfold setAllNonNull. destruct (negb _); [done|]. split; [by apply const_ok|]. intros _. apply bit_zeros. cbn. rewrite Forall_map. by apply Forall_true. }
  assert (Hlen : length (data (setAllNonNull (nullMask v))) = length (data (nullMask v))) by (unfold setAllNonNull; destruct (negb _); [done|apply length_map]).
  split; [done|]. split; [done|]. intros q (Hq & Hb & H32). unfold has_position, null_at, v', num_bits in *. cbn. rewrite Hlen. split; [done|].
  destruct Hs' as [_ Hno]. apply Hno; [|unfold num_bits; rewrite Hlen; lia]. unfold setAllNonNull, hasNoNullsGuarantee. by destruct (mayContainNulls (nullMask v)) eqn:Hm; cbn; rewrite ?Hm.
Qed.

Lemma setAllNull_at v q : has_position v q -> null_at (vector_setAllNull v) q = true /\ value_at (vector_setAllNull v) q = value_at v q.
Proof.
  intros (_ & Hb & _). split; [|done]. unfold null_at, vector_setAllNull, setAllNull. cbn [nullMask data]. unfold bit, get, num_bits in *.
  assert (Hq : (0 <= Z.of_nat q / 64 < Z.of_nat (length (data (nullMask v))))%Z) by (split; [apply Z.div_pos; lia|apply Z.div_lt_upper_bound; lia]).
  rewrite nth_lookup, list_lookup_fmap. destruct (lookup_lt_is_Some_2 (data (nullMask v)) (Z.to_nat (Z.of_nat q / 64)) ltac:(lia)) as [w ->]. cbn [fmap option_fmap option_map default].
  unfold id, ALL_NULL_ENTRY. rewrite testbit_not64 by (apply Z.mod_pos_bound; lia). pose proof (Z.mod_pos_bound (Z.of_nat q) 64 ltac:(lia)). unfold NO_NULL_ENTRY.
  rewrite Z.testbit_0_l. by rewrite (proj2 (Z.ltb_lt _ _)) by lia.
Qed.

(** A null flat operand makes every cell null. *)
Lemma null_cells rows : (forall lPos rPos resPos, In (lPos, rPos, resPos) rows -> null_at lv lPos || null_at rv rPos = true) ->
  row_cells rows = Ret (map (fun _ => None) rows).
Proof.
  induction rows as [|[[l r] p] rows IH]; intros Hnull; [done|]. unfold row_cells in *. cbn [mapM fst snd map].
  assert (Hc : cell l r = Ret None) by (unfold cell; by rewrite (Hnull l r p) by by left). rewrite Hc.
  cbn [mbind outcome_bind]. rewrite IH; [done|]. intros l' r' p' Hin. apply (Hnull l' r' p'). by right.
Qed.

(** What the rows read from the result, and what stays of it. *)
Definition reads_cells (rows : list (nat * nat * nat)) (result : ValueVector) (cells : list (option Z)) (result' : ValueVector) : Prop :=
  length cells = length rows /\
  (forall k lPos rPos resPos c, rows !! k = Some (lPos, rPos, resPos) -> cells !! k = Some c ->
    null_at result' resPos = bool_decide (c = None) /\ forall x, c = Some x -> value_at result' resPos = x) /\
  forall q, ~ In q (map snd rows) -> value_at result' q = value_at result q.

Lemma mapM_length {A B} (g : A -> outcome B) l l' : mapM g l = Ret l' -> length l' = length l.
Proof.
  revert l'. induction l as [|a l IH]; intros l' Hrun; cbn in Hrun; [by injection Hrun as <-|].
  destruct (g a) as [b| |]; [|done..]. cbn in Hrun. destruct (mapM g l) as [k| |]; [|done..]. injection Hrun as <-. cbn. f_equal. by apply IH.
Qed.
End execution.

(** An operand whose mask is skipped has no null there. *)
Lemma operand_not_null v p : vector_sound v -> has_position v p -> isFlat v || vector_hasNoNullsGuarantee v = true ->
  (isFlat v = true -> null_at v p = false) -> null_at v p = false.
Proof.
  intros [_ Hno] (_ & Hb & _) Hg Hflat. apply orb_prop in Hg as [Hf|Hg]; [by apply Hflat|]. apply Hno; [done|lia].
Qed.


Lemma vector_of_sound l flat : vector_sound (vector_of l flat).
Proof. split; [by apply Forall_replicate|]. intros _. apply bit_zeros, Forall_replicate. done. Qed.

(** Five times 3 and 4, with the five in a flat vector, and a null. *)
Definition left_example : ValueVector := vector_of [5%Z] true.
Definition right_example : ValueVector := mkVector [3%Z; 4%Z; 9%Z] (mk [4%Z] true) false.
Definition result_example : ValueVector := vector_of [0%Z; 0%Z; 0%Z] false.


(** Multiplication of [uint64_t] exchanges its operands in the vectors when the first is
    the larger: five in a flat vector times 3 and 4 gives 15 and 12, and the vectors have
    other values afterwards. *)
Theorem uint64_products_wrong :
  executeOnSelectedValues (Multiply UINT64) (first_positions 1) (first_positions 2) (first_positions 2)
    (vector_of [5%Z] true) (vector_of [3%Z; 4%Z] false) (vector_of [0%Z; 0%Z] false) =
  Ret (vector_of [3%Z] true, vector_of [5%Z; 4%Z] false, vector_of [15%Z; 12%Z] false) /\
  executeOnSelectedValues (Multiply INT64) (first_positions 1) (first_positions 2) (first_positions 2)
    (vector_of [5%Z] true) (vector_of [3%Z; 4%Z] false) (vector_of [0%Z; 0%Z] false) =
  Ret (vector_of [5%Z] true, vector_of [3%Z; 4%Z] false, vector_of [15%Z; 20%Z] false).
Proof. split; vm_compute; reflexivity. Qed.
