(* ===== verification/IntegerCast.v ===== *)
(** Text to integers ([include/function/cast/functions/cast_string_non_nested_functions.h]):
    the digits are taken one by one, each after a check that the result still fits its type.
    [StringUtils::removeCStringWhiteSpaces] is of [common/string_utils.cpp]. *)
From Stdlib Require Import Ascii String.
From S2P Require Import Prelude Bitpacking CastHelpers DateText DateFacts Arithmetic ArithmeticSpec.
Local Open Scope Z_scope.

Definition removeCStringWhiteSpaces (input : list ascii) : list ascii := rev (skip_spaces (rev (skip_spaces input))).

(** [IntegerCastOperation::handleDigit]. *)
Definition handleDigit (t : int_type) (negative : bool) (result digit : Z) : option Z :=
  if negative then (if result <? Z.quot (MIN t + digit) 10 then None else Some (result * 10 - digit))
  else if Z.quot (MAX t - digit) 10 <? result then None
  else Some (result * 10 + digit).

Fixpoint cast_digits (t : int_type) (negative : bool) (input : list ascii) (result : Z) : option Z :=
  match input with
  | [] => Some result
  | c :: input' =>
      if negb (CharacterIsDigit c) then None
      else match handleDigit t negative result (digit_of c) with
      | Some result' => cast_digits t negative input' result'
      | None => None
      end
  end.

(** The position starts after the sign; without a digit it fails. *)
Definition integerCastLoop (t : int_type) (negative : bool) (input : list ascii) : option Z :=
  let input := if negative then tail input else input in
  match cast_digits t negative input 0 with
  | Some result => if (0 <? List.length input)%nat then Some result else None
  | None => None
  end.

Definition tryIntegerCast (t : int_type) (input : list ascii) : option Z :=
  let input := removeCStringWhiteSpaces input in
  match input with
  | [] => None
  | c :: input' =>
      if Ascii.eqb c "-" then
        if negb (is_signed t) && negb (forallb (fun c => Ascii.eqb c "0") input') then None else integerCastLoop t true input
      else if (1 <? List.length input)%nat && Ascii.eqb c "0" then None
      else integerCastLoop t false input
  end.

(** [simpleIntegerCast]; [CastString::operation] of [int64_t] is this. *)
Definition simpleIntegerCast (t : int_type) (input : list ascii) : outcome Z :=
  or_throw (tryIntegerCast t input) (ConversionException "Cast failed. Could not convert {} to {}.").

Example least_int64 : simpleIntegerCast INT64 (chars " -9223372036854775808 ") = Ret (- 2 ^ 63).
Proof. by vm_compute. Qed.
Example out_of_uint8 : tryIntegerCast UINT8 (chars "256") = None.
Proof. by vm_compute. Qed.
(** Leading zeros are refused, but not after a sign. *)
Example leading_zeros : tryIntegerCast INT32 (chars "007") = None /\ tryIntegerCast INT32 (chars "-007") = Some (-7).
Proof. by vm_compute. Qed.

(** Text to integers: what is accepted, and what it is. *)

(** The number of a list of digits, after a number. *)
Fixpoint numeral_from (acc : Z) (ds : list ascii) : Z :=
  match ds with [] => acc | c :: ds' => numeral_from (acc * 10 + digit_of c) ds' end.
Definition all_digits (ds : list ascii) : bool := forallb CharacterIsDigit ds.

(** The number that a text without spaces around it denotes: digits without a leading zero,
    or a sign and digits. *)
Definition numeral (body : list ascii) : option Z :=
  match body with
  | [] => None
  | c :: ds =>
      if Ascii.eqb c "-" then (if (0 <? List.length ds)%nat && all_digits ds then Some (- numeral_from 0 ds) else None)
      else if all_digits body && negb ((1 <? List.length body)%nat && Ascii.eqb c "0") then Some (numeral_from 0 body) else None
  end.

Lemma digit_bounds c : CharacterIsDigit c = true -> 0 <= digit_of c <= 9.
Proof. unfold CharacterIsDigit, digit_of. rewrite andb_true_iff, !Z.leb_le. lia. Qed.

Lemma numeral_from_ge ds acc : all_digits ds = true -> 0 <= acc -> acc <= numeral_from acc ds.
Proof.
  revert acc. induction ds as [|c ds IH]; intros acc Hd Hacc; cbn in *; [lia|]. apply andb_prop in Hd as [Hc Hd].
  pose proof (digit_bounds c Hc). specialize (IH (acc * 10 + digit_of c) Hd). lia.
Qed.

(** The check of a digit is exact. *)
Lemma handleDigit_positive t acc d : is_sql t -> 0 <= acc -> 0 <= d <= 9 ->
  handleDigit t false acc d = if acc * 10 + d <=? MAX t then Some (acc * 10 + d) else None.
Proof.
  intros Ht Hacc Hd. unfold handleDigit. assert (Hmax : 127 <= MAX t) by (type_cases Ht; bounds_in; lia). rewrite Z.quot_div_nonneg by lia.
  pose proof (Z.div_mod (MAX t - d) 10). pose proof (Z.mod_pos_bound (MAX t - d) 10).
  destruct (Z.ltb_spec ((MAX t - d) / 10) acc), (Z.leb_spec (acc * 10 + d) (MAX t)); done || lia.
Qed.

Lemma handleDigit_negative t acc d : is_sql t -> is_signed t = true -> 0 <= acc -> 0 <= d <= 9 ->
  handleDigit t true (- acc) d = if MIN t <=? - (acc * 10 + d) then Some (- (acc * 10 + d)) else None.
Proof.
  intros Ht Hs Hacc Hd. unfold handleDigit. assert (Hmin : MIN t <= -128) by (type_cases Ht; try done; bounds_in; lia).
  replace (MIN t + d) with (- (- MIN t - d)) by lia. rewrite Z.quot_opp_l, Z.quot_div_nonneg by lia.
  pose proof (Z.div_mod (- MIN t - d) 10). pose proof (Z.mod_pos_bound (- MIN t - d) 10).
  destruct (Z.ltb_spec (- acc) (- ((- MIN t - d) / 10))), (Z.leb_spec (MIN t) (- (acc * 10 + d))); try lia; [done|f_equal; lia].
Qed.

Lemma cast_digits_positive t ds : is_sql t -> forall acc, 0 <= acc <= MAX t ->
  cast_digits t false ds acc = if all_digits ds && (numeral_from acc ds <=? MAX t) then Some (numeral_from acc ds) else None.
Proof.
  intros Ht. induction ds as [|c ds IH]; intros acc Hacc; cbn [cast_digits all_digits forallb numeral_from]; [by rewrite (proj2 (Z.leb_le _ _)) by lia|].
  destruct (CharacterIsDigit c) eqn:Hc; cbn [negb andb]; [|done]. pose proof (digit_bounds c Hc) as Hd. rewrite handleDigit_positive by (done || lia).
  destruct (Z.leb_spec (acc * 10 + digit_of c) (MAX t)); [by apply IH; lia|]. fold (all_digits ds). destruct (all_digits ds) eqn:Hds; [|done]. cbn [andb].
  pose proof (numeral_from_ge ds (acc * 10 + digit_of c) Hds). by rewrite (proj2 (Z.leb_gt _ _)) by lia.
Qed.

Lemma cast_digits_negative t ds : is_sql t -> is_signed t = true -> forall acc, 0 <= acc <= - MIN t ->
  cast_digits t true ds (- acc) = if all_digits ds && (MIN t <=? - numeral_from acc ds) then Some (- numeral_from acc ds) else None.
Proof.
  intros Ht Hs. induction ds as [|c ds IH]; intros acc Hacc; cbn [cast_digits all_digits forallb numeral_from]; [by rewrite (proj2 (Z.leb_le _ _)) by lia|].
  destruct (CharacterIsDigit c) eqn:Hc; cbn [negb andb]; [|done]. pose proof (digit_bounds c Hc) as Hd. rewrite handleDigit_negative by (done || lia).
  destruct (Z.leb_spec (MIN t) (- (acc * 10 + digit_of c))); [by apply IH; lia|]. fold (all_digits ds). destruct (all_digits ds) eqn:Hds; [|done]. cbn [andb].
  pose proof (numeral_from_ge ds (acc * 10 + digit_of c) Hds). by rewrite (proj2 (Z.leb_gt _ _)) by lia.
Qed.

(** Only zeros may follow the sign of an unsigned number. *)
Lemma cast_zeros t ds : is_sql t -> is_signed t = false -> forallb (fun c => Ascii.eqb c "0") ds = true -> cast_digits t true ds 0 = Some 0.
Proof.
  intros Ht Hs. induction ds as [|c ds IH]; intros Hz; [done|]. cbn in Hz. apply andb_prop in Hz as [->%Ascii.eqb_eq Hz]. cbn [cast_digits].
  change (CharacterIsDigit "0") with true. change (digit_of "0") with 0. unfold handleDigit. cbn [negb].
  assert (Hmin : MIN t = 0) by (unfold MIN; by rewrite Hs). rewrite Hmin. change (Z.quot (0 + 0) 10) with 0. rewrite Z.ltb_irrefl. change (0 * 10 - 0) with 0. by apply IH.
Qed.

Lemma zeros_numeral ds acc : all_digits ds = true -> 0 <= acc -> (forallb (fun c => Ascii.eqb c "0") ds = true /\ acc = 0 <-> numeral_from acc ds = 0).
Proof.
  revert acc. induction ds as [|c ds IH]; intros acc Hd Hacc; [cbn; tauto|]. cbn in Hd. apply andb_prop in Hd as [Hc Hd]. cbn [numeral_from forallb].
  pose proof (digit_bounds c Hc) as Hb. rewrite <- IH, andb_true_iff, Ascii.eqb_eq by (done || lia). split.
  - intros [[-> Hz] ->]. done.
  - intros [Hz H0]. assert (Hc0 : digit_of c = 0) by lia. split; [split; [|done]|lia].
    unfold digit_of, code in Hc0. assert (Hn : N_of_ascii c = 48%N) by lia. rewrite <- (ascii_N_embedding c), Hn. done.
Qed.

(** C35. Text is cast to an integer type exactly when, without the spaces around it, it is a
    numeral whose value the type has, and the result is that value; no other text is
    accepted, and no overflow goes unnoticed. *)
Theorem integer_cast_exact : forall t input, is_sql t ->
  simpleIntegerCast t input =
    match numeral (removeCStringWhiteSpaces input) with
    | Some z => exact_or_throw t z (ConversionException "Cast failed. Could not convert {} to {}.")
    | None => Throw (ConversionException "Cast failed. Could not convert {} to {}.")
    end.
Proof.
  intros t input Ht. unfold simpleIntegerCast, tryIntegerCast, exact_or_throw. destruct (removeCStringWhiteSpaces input) as [|c ds]; [done|]. cbn [numeral].
  assert (Hzero : MIN t <= 0 <= MAX t) by (type_cases Ht; bounds_in; lia). destruct (Ascii.eqb_spec c "-") as [->|Hc].
  - unfold integerCastLoop. cbn [tail]. destruct (is_signed t) eqn:Hs; cbn [negb andb].
    + pose proof (cast_digits_negative t ds Ht Hs 0) as Hneg. change (- 0) with 0 in Hneg. rewrite Hneg by lia. unfold fits. destruct (all_digits ds) eqn:Hd; cbn [andb]; [|by rewrite andb_false_r].
      pose proof (numeral_from_ge ds 0 Hd ltac:(lia)). rewrite andb_true_r. assert (Hmax : (- numeral_from 0 ds <=? MAX t) = true) by (apply Z.leb_le; lia).
      destruct (MIN t <=? - numeral_from 0 ds) eqn:Hmin, (0 <? List.length ds)%nat; by rewrite ?Hmin, ?Hmax.
    + assert (Hmin : MIN t = 0) by (unfold MIN; by rewrite Hs). destruct (forallb (fun c => Ascii.eqb c "0") ds) eqn:Hz; cbn [negb].
      * rewrite cast_zeros by done. assert (Hd : all_digits ds = true).
        { unfold all_digits. apply forallb_forall. intros x Hx. apply (proj1 (forallb_forall _ _) Hz) in Hx. apply Ascii.eqb_eq in Hx as ->. done. }
        rewrite Hd, (proj1 (zeros_numeral ds 0 Hd ltac:(lia)) (conj Hz eq_refl)). rewrite andb_true_r. unfold fits. rewrite Hmin. change (- 0) with 0.
        assert (Hmax : (0 <=? MAX t) = true) by (apply Z.leb_le; lia). destruct (0 <? List.length ds)%nat; by rewrite ?Hmin, ?Hmax.
      * destruct (all_digits ds) eqn:Hd; [|by rewrite andb_false_r]. destruct (0 <? List.length ds)%nat; [|done]. cbn [andb].
        assert (Hne : numeral_from 0 ds <> 0) by (intros H0; apply (zeros_numeral ds 0 Hd) in H0 as [H0 _]; [|lia]; by rewrite Hz in H0).
        pose proof (numeral_from_ge ds 0 Hd ltac:(lia)). unfold fits. rewrite Hmin. by rewrite (proj2 (Z.leb_gt _ _)) by lia.
  - destruct ((1 <? List.length (c :: ds))%nat && Ascii.eqb c "0") eqn:Hlead; cbn [negb]; [by rewrite andb_false_r|]. rewrite andb_true_r.
    unfold integerCastLoop. rewrite cast_digits_positive by (done || lia). destruct (all_digits (c :: ds)) eqn:Hd; cbn [andb]; [|done].
    pose proof (numeral_from_ge (c :: ds) 0 Hd ltac:(lia)). unfold fits. rewrite (proj2 (Z.leb_le (MIN t) _)) by lia. cbn [andb].
    destruct (numeral_from 0 (c :: ds) <=? MAX t); done.
Qed.

Lemma integer_cast_exact_witness : simpleIntegerCast INT8 (chars " -128") = Ret (-128) /\ simpleIntegerCast INT8 (chars "128") = Throw (ConversionException "Cast failed. Could not convert {} to {}.").
Proof.
  assert (Ht : is_sql INT8) by (cbn; tauto).
  pose proof (integer_cast_exact INT8 (chars " -128") Ht) as H1. pose proof (integer_cast_exact INT8 (chars "128") Ht) as H2. split; [exact H1|exact H2].
Defined.
