(* ===== verification/Utf8.v ===== *)
(** UTF-8 text and its case: validation and codepoints ([third_party/utf8proc/]) and the
    conversion of case by [LOWER], [UPPER] and the parsers of specifiers
    ([function/base_lower_upper_operation.cpp], [StringUtils::changeCase] of
    [common/string_utils.cpp]). A pointer into a text is the text from there on; [int c] of
    a byte has the bits of the byte below its sign. The case of a codepoint is looked up in
    generated tables ([utf8proc_data.h]), which are parameters here. *)
From Stdlib Require Import Ascii String.
From S2P Require Import Prelude Date CastHelpers.
Local Open Scope Z_scope.

(** ** [utf8proc_wrapper.cpp] *)

Inductive UnicodeType := INVALID | ASCII | UNICODE.

(** The bytes after the first one. *)
Fixpoint extra_bytes (nextraBytes : nat) (utf8char : Z) (s : list ascii) : option (Z * list ascii) :=
  match nextraBytes, s with
  | O, _ => Some (utf8char, s)
  | S n, c :: s' =>
      if negb (Z.land (code c) 0xC0 =? 0x80) then None
      else extra_bytes n (Z.lor (Z.shiftl utf8char 6) (Z.land (code c) 0x3F)) s'
  | S _, [] => None
  end.

(** [None] is [INVALID], else what follows the sequence. *)
Definition UTF8ExtraByteLoop (nextraBytes : nat) (mask utf8char : Z) (s : list ascii) : option (list ascii) :=
  if (List.length s <? nextraBytes)%nat then None
  else match extra_bytes nextraBytes utf8char s with
  | None => None
  | Some (utf8char, s) =>
      if Z.land utf8char mask =? 0 then None
      else if 0x10FFFF <? utf8char then None
      else if Z.land utf8char 0x1FFF800 =? 0xD800 then None
      else Some s
  end.

(** Every round takes a byte at least. *)
Fixpoint analyze_loop (fuel : nat) (type : UnicodeType) (s : list ascii) : outcome UnicodeType :=
  match fuel, s with
  | _, [] => Ret type
  | O, _ => Undef
  | S fuel', b :: s' =>
      let c := code b in
      if Z.land c 0x80 =? 0 then analyze_loop fuel' type s'
      else
        let sequence :=
          if Z.land c 0xE0 =? 0xC0 then UTF8ExtraByteLoop 1 0x000780 (Z.land c 0x1F) s'
          else if Z.land c 0xF0 =? 0xE0 then UTF8ExtraByteLoop 2 0x00F800 (Z.land c 0x0F) s'
          else if Z.land c 0xF8 =? 0xF0 then UTF8ExtraByteLoop 3 0x1F0000 (Z.land c 0x07) s'
          else None in
        match sequence with
        | Some s'' => analyze_loop fuel' UNICODE s''
        | None => Ret INVALID
        end
  end.
Definition analyze (s : list ascii) : outcome UnicodeType := analyze_loop (List.length s) ASCII s.
Definition isValid (s : list ascii) : outcome bool := type ← analyze s; Ret (match type with INVALID => false | _ => true end).

(** ** [utf8proc.cpp] *)

(** A byte [u[i]]; behind the text nothing may be read. *)
Definition byte_at (u : list ascii) (i : nat) : outcome Z := c ← load u i; Ret (code c).

(** The codepoint, and its size if it is set. *)
Definition utf8proc_codepoint (u : list ascii) (sz : nat) : outcome (Z * nat) :=
  u0 ← byte_at u 0;
  if u0 <=? 127 then Ret (u0, 1%nat)
  else
    u1 ← byte_at u 1;
    if (192 <=? u0) && (u0 <=? 223) then Ret ((u0 - 192) * 64 + (u1 - 128), 2%nat)
    else if (u0 =? 0xed) && (Z.land u1 0xa0 =? 0xa0) then Ret (-1, sz)
    else
      u2 ← byte_at u 2;
      if (224 <=? u0) && (u0 <=? 239) then Ret ((u0 - 224) * 4096 + (u1 - 128) * 64 + (u2 - 128), 3%nat)
      else
        u3 ← byte_at u 3;
        if (240 <=? u0) && (u0 <=? 247) then Ret ((u0 - 240) * 262144 + (u1 - 128) * 4096 + (u2 - 128) * 64 + (u3 - 128), 4%nat)
        else Ret (-1, sz).

Definition utf8proc_codepoint_to_utf8 (cp : Z) : option (list ascii) :=
  if cp <=? 0x7F then Some [char_of cp]
  else if cp <=? 0x7FF then Some [char_of (Z.shiftr cp 6 + 192); char_of (Z.land cp 63 + 128)]
  else if (0xd800 <=? cp) && (cp <=? 0xdfff) then None
  else if cp <=? 0xFFFF then Some [char_of (Z.shiftr cp 12 + 224); char_of (Z.land (Z.shiftr cp 6) 63 + 128); char_of (Z.land cp 63 + 128)]
  else if cp <=? 0x10FFFF then
    Some [char_of (Z.shiftr cp 18 + 240); char_of (Z.land (Z.shiftr cp 12) 63 + 128); char_of (Z.land (Z.shiftr cp 6) 63 + 128); char_of (Z.land cp 63 + 128)]
  else None.

Definition utf8proc_codepoint_length (cp : Z) : Z :=
  if cp <=? 0x7F then 1
  else if cp <=? 0x7FF then 2
  else if (0xd800 <=? cp) && (cp <=? 0xdfff) then -1
  else if cp <=? 0xFFFF then 3
  else if cp <=? 0x10FFFF then 4
  else -1.

(** ** [base_lower_upper_operation.cpp] *)

(** [toupper] and [tolower] of the C locale, on seven bits. *)
Definition ascii_case (isUpper : bool) (c : ascii) : ascii :=
  if isUpper then (if (97 <=? code c) && (code c <=? 122) then char_of (code c - 32) else c)
  else if (65 <=? code c) && (code c <=? 90) then char_of (code c + 32)
  else c.

Section case.
(** [utf8proc_toupper] and [utf8proc_tolower]. *)
Context (utf8proc_toupper utf8proc_tolower : Z -> Z).

Definition convertedCodepoint (isUpper : bool) (codepoint : Z) : Z :=
  if isUpper then utf8proc_toupper codepoint else utf8proc_tolower codepoint.

Fixpoint getResultLen_loop (fuel : nat) (isUpper : bool) (input : list ascii) (outputLength : Z) : outcome Z :=
  match fuel, input with
  | _, [] => Ret outputLength
  | O, _ => Undef
  | S fuel', c :: input' =>
      if negb (Z.land (code c) 0x80 =? 0) then
        '(codepoint, size) ← utf8proc_codepoint input 0;
        if codepoint <? 0 then Throw (RuntimeException (if isUpper then "Failed calling UPPER: Invalid UTF-8." else "Failed calling LOWER: Invalid UTF-8."))
        else
          let newSize := utf8proc_codepoint_length (convertedCodepoint isUpper codepoint) in
          _ ← ku_assert (0 <=? newSize);
          getResultLen_loop fuel' isUpper (skipn size input) (u32 (outputLength + newSize))
      else getResultLen_loop fuel' isUpper input' (u32 (outputLength + 1))
  end.
Definition getResultLen (isUpper : bool) (input : list ascii) : outcome Z := getResultLen_loop (List.length input) isUpper input 0.

(** What is written at [result] for the character at the position, and its size. *)
Definition convertCharCase (toUpper : bool) (input : list ascii) : outcome (list ascii * nat) :=
  c ← load input 0;
  if negb (Z.land (code c) 0x80 =? 0) then
    '(codepoint, originalSize) ← utf8proc_codepoint input 1;
    _ ← ku_assert (0 <=? codepoint);
    match utf8proc_codepoint_to_utf8 (convertedCodepoint toUpper codepoint) with
    | Some bytes => Ret (bytes, originalSize)
    | None => Undef
    end
  else Ret ([ascii_case toUpper c], 1%nat).

(** [room] bytes are left in the buffer; the bytes that are written, in order. *)
Fixpoint convertCase (fuel : nat) (toUpper : bool) (input : list ascii) (room : nat) : outcome (list ascii) :=
  match fuel, input with
  | _, [] => Ret []
  | O, _ => Undef
  | S fuel', _ =>
      '(bytes, originalSize) ← convertCharCase toUpper input;
      if (room <? List.length bytes)%nat then Undef
      else
        rest ← convertCase fuel' toUpper (skipn originalSize input) (room - List.length bytes);
        Ret (bytes ++ rest)
  end.

(** A buffer of the length for the result, and the result in it. *)
Definition BaseLowerUpperFunction_operation (isUpper : bool) (input : list ascii) : outcome (list ascii) :=
  resultLen ← getResultLen isUpper input;
  bytes ← convertCase (List.length input) isUpper input (Z.to_nat resultLen);
  Ret (bytes ++ replicate (Z.to_nat resultLen - List.length bytes) Ascii.zero).

(** [StringUtils::changeCase]. *)
Definition changeCase (toUpper : bool) (input : list ascii) : outcome (list ascii) :=
  valid ← isValid input;
  if negb valid then Throw (RuntimeException "Invalid UTF8-encoded string.")
  else BaseLowerUpperFunction_operation toUpper input.
Definition toLower : list ascii -> outcome (list ascii) := changeCase false.
End case.

(** The German sharp s has two bytes, its capital three. *)
Definition sharp_s : list ascii := [char_of 195; char_of 159].
Definition sharp_s_table (cp : Z) : Z := if cp =? 0xDF then 0x1E9E else cp.
Example sharp_s_grows : changeCase sharp_s_table id true (chars "gro" ++ sharp_s) = Ret (chars "GRO" ++ [char_of 225; char_of 186; char_of 158]).
Proof. by vm_compute. Qed.
Example overlong_refused : isValid [char_of 192; char_of 128] = Ret false.
Proof. by vm_compute. Qed.
Example surrogate_refused : isValid [char_of 237; char_of 160; char_of 128] = Ret false.
Proof. by vm_compute. Qed.
Example cut_refused : isValid [char_of 226; char_of 130] = Ret false.
Proof. by vm_compute. Qed.
