(* ===== verification/Utf8Spec.v ===== *)
(** UTF-8: the encoding of codepoints as sequences of bytes, and that the library's
    functions decode, measure and write it; then what is valid, and the case of a text. *)
From Stdlib Require Import Ascii String.
From S2P Require Import Prelude CastHelpers Utf8.
Local Open Scope Z_scope.

(** ** The encoding *)

(** A scalar value of Unicode: a codepoint that is no surrogate. *)
Definition scalar (cp : Z) : Prop := 0 <= cp < 0xD800 \/ 0xDFFF < cp <= 0x10FFFF.

(** The bytes after the first one, of six bits each. *)
Fixpoint tail_bytes (n : nat) (cp : Z) : list ascii :=
  match n with O => [] | S n' => char_of (128 + cp / 64 ^ Z.of_nat n' mod 64) :: tail_bytes n' cp end.
(** How many they are, and the mark of the first byte. *)
Definition extra (cp : Z) : nat := if cp <? 0x80 then 0 else if cp <? 0x800 then 1 else if cp <? 0x10000 then 2 else 3.
Definition mark (n : nat) : Z := match n with 0%nat => 0 | 1%nat => 192 | 2%nat => 224 | _ => 240 end.
Definition encode (cp : Z) : list ascii := char_of (mark (extra cp) + cp / 64 ^ Z.of_nat (extra cp)) :: tail_bytes (extra cp) cp.
Definition encode_all (cps : list Z) : list ascii := concat (map encode cps).

Example euro : encode 0x20AC = map char_of [226; 130; 172].
Proof. by vm_compute. Qed.

(** ** Bytes *)

Lemma code_char_of z : 0 <= z < 256 -> code (char_of z) = z.
Proof.
  intros Hz. unfold code, char_of. rewrite Z.mod_small by done. rewrite N_ascii_embedding by lia. lia.
Qed.
Lemma char_of_code c : char_of (code c) = c.
Proof.
  unfold code, char_of. pose proof (N_ascii_bounded c). rewrite Z.mod_small by lia. rewrite N2Z.id. apply ascii_N_embedding.
Qed.
Lemma code_bounds c : 0 <= code c < 256.
Proof. unfold code. pose proof (N_ascii_bounded c). lia. Qed.

(** What the tests of bits say of a byte. *)
Definition byte_facts (c : Z) : bool :=
  Bool.eqb (Z.land c 0x80 =? 0) (c <? 128) &&
  Bool.eqb (Z.land c 0xC0 =? 0x80) ((128 <=? c) && (c <? 192)) &&
  Bool.eqb (Z.land c 0xE0 =? 0xC0) ((192 <=? c) && (c <? 224)) &&
  Bool.eqb (Z.land c 0xF0 =? 0xE0) ((224 <=? c) && (c <? 240)) &&
  Bool.eqb (Z.land c 0xF8 =? 0xF0) ((240 <=? c) && (c <? 248)) &&
  (Z.land c 0x3F =? c mod 64) && (Z.land c 0x1F =? c mod 32) && (Z.land c 0x0F =? c mod 16) && (Z.land c 0x07 =? c mod 8) &&
  implb ((128 <=? c) && (c <? 192)) (Bool.eqb (Z.land c 0xa0 =? 0xa0) (160 <=? c)).
Lemma byte_tests c : 0 <= c < 256 ->
  (Z.land c 0x80 =? 0) = (c <? 128) /\ (Z.land c 0xC0 =? 0x80) = ((128 <=? c) && (c <? 192)) /\
  (Z.land c 0xE0 =? 0xC0) = ((192 <=? c) && (c <? 224)) /\ (Z.land c 0xF0 =? 0xE0) = ((224 <=? c) && (c <? 240)) /\
  (Z.land c 0xF8 =? 0xF0) = ((240 <=? c) && (c <? 248)) /\
  Z.land c 0x3F = c mod 64 /\ Z.land c 0x1F = c mod 32 /\ Z.land c 0x0F = c mod 16 /\ Z.land c 0x07 = c mod 8 /\
  (128 <= c < 192 -> (Z.land c 0xa0 =? 0xa0) = (160 <=? c)).
Proof.
  intros Hc. assert (H : byte_facts c = true) by (apply (all_below_true 256); [vm_compute; reflexivity|lia]).
  unfold byte_facts in H. rewrite !andb_true_iff, !Bool.eqb_true_iff, !Z.eqb_eq in H. destruct H as [[[[[[[[[H1 H2] H3] H4] H5] H6] H7] H8] H9] H10].
  repeat (split; [done|]). intros Hr. replace ((128 <=? c) && (c <? 192)) with true in H10 by lia. by apply Bool.eqb_prop in H10.
Qed.

(** ** Bits of numbers *)

Lemma lor_shifted v x : 0 <= x < 64 -> Z.lor (Z.shiftl v 6) x = v * 64 + x.
Proof.
  intros Hx. change 64 with (2 ^ 6) in *. assert (Hland : Z.land (Z.shiftl v 6) x = 0).
  { apply Z.bits_inj'. intros i Hi. rewrite Z.land_spec, Z.bits_0. destruct (Z.lt_ge_cases i 6).
    - by rewrite Z.shiftl_spec_low.
    - rewrite <- (Z.mod_small x (2 ^ 6)) by done. rewrite Z.mod_pow2_bits_high by lia. by rewrite andb_false_r. }
  rewrite <- Z.lxor_lor, <- Z.add_nocarry_lxor by exact Hland. by rewrite Z.shiftl_mul_pow2 by lia.
Qed.

(** A mask of the bits [k], ..., [k + j - 1]. *)
Lemma land_high cp k j : 0 <= k -> 0 <= j -> 0 <= cp < 2 ^ (k + j) -> Z.land cp (Z.shiftl (Z.ones j) k) = cp / 2 ^ k * 2 ^ k.
Proof.
  intros Hk Hj Hcp. assert (Hq : 0 <= Z.shiftr cp k < 2 ^ j).
  { rewrite Z.shiftr_div_pow2 by done. split; [apply Z.div_pos; lia|]. apply Z.div_lt_upper_bound; [lia|]. rewrite <- Z.pow_add_r by lia. tauto. }
  rewrite <- (Z.shiftl_mul_pow2 (cp / 2 ^ k)), <- (Z.shiftr_div_pow2 cp k) by done.
  rewrite <- (Z.mod_small (Z.shiftr cp k) (2 ^ j)) by exact Hq. rewrite <- Z.land_ones by done.
  apply Z.bits_inj'. intros i Hi. rewrite Z.land_spec. destruct (Z.lt_ge_cases i k).
  - rewrite !Z.shiftl_spec_low by done. by rewrite andb_false_r.
  - rewrite !Z.shiftl_spec, Z.land_spec, Z.shiftr_spec by lia. by replace (i - k + k) with i by lia.
Qed.
Lemma land_high_zero cp k j : 0 <= k -> 0 <= j -> 0 <= cp < 2 ^ (k + j) -> (Z.land cp (Z.shiftl (Z.ones j) k) =? 0) = (cp <? 2 ^ k).
Proof.
  intros Hk Hj Hcp. rewrite land_high by done. assert (Hp : 0 < 2 ^ k) by lia. destruct (Z.ltb_spec cp (2 ^ k)).
  - by rewrite Z.div_small by lia.
  - apply Z.eqb_neq. assert (1 <= cp / 2 ^ k) by (apply Z.div_le_lower_bound; lia). nia.
Qed.
Lemma surrogate_test cp : 0 <= cp < 2 ^ 25 -> (Z.land cp 0x1FFF800 =? 0xD800) = ((0xD800 <=? cp) && (cp <=? 0xDFFF)).
Proof.
  intros Hcp. change 0x1FFF800 with (Z.shiftl (Z.ones 14) 11). rewrite land_high by lia. change (2 ^ 11) with 2048.
  destruct (Z.eqb_spec (cp / 2048 * 2048) 0xD800); symmetry; [apply andb_true_intro; split; apply Z.leb_le|apply andb_false_iff; rewrite !Z.leb_gt]; div_lia.
Qed.

(** ** The bytes after the first *)

Lemma code_tail x : code (char_of (128 + x mod 64)) = 128 + x mod 64.
Proof. apply code_char_of. pose proof (Z.mod_pos_bound x 64). lia. Qed.

Lemma length_tail_bytes n cp : length (tail_bytes n cp) = n.
Proof. induction n as [|n IH]; [done|]. cbn. by rewrite IH. Qed.

Lemma pow64_pos n : 0 < 64 ^ Z.of_nat n.
Proof. lia. Qed.
Lemma pow64_succ n : 64 ^ Z.of_nat (S n) = 64 * 64 ^ Z.of_nat n.
Proof. rewrite Nat2Z.inj_succ, Z.pow_succ_r by lia. done. Qed.

(** They depend on the last [6 * n] bits only. *)
Lemma tail_bytes_mod n a cp : tail_bytes n (a * 64 ^ Z.of_nat n + cp) = tail_bytes n cp.
Proof.
  revert a. induction n as [|n IH]; intros a; [done|]. cbn [tail_bytes]. rewrite pow64_succ. pose proof (pow64_pos n).
  replace (a * (64 * 64 ^ Z.of_nat n) + cp) with (a * 64 * 64 ^ Z.of_nat n + cp) by lia. rewrite IH, Z.div_add_l by lia.
  f_equal. f_equal. rewrite (Z.add_comm (a * 64)), Z.mod_add by lia. done.
Qed.

Lemma extra_bytes_tail n v cp s : 0 <= v -> extra_bytes n v (tail_bytes n cp ++ s) = Some (v * 64 ^ Z.of_nat n + cp mod 64 ^ Z.of_nat n, s).
Proof.
  revert v. induction n as [|n IH]; intros v Hv; [cbn; rewrite Z.mod_1_r; do 2 f_equal; lia|]. cbn [tail_bytes app extra_bytes].
  pose proof (Z.mod_pos_bound (cp / 64 ^ Z.of_nat n) 64 ltac:(lia)) as Hm. rewrite code_tail.
  destruct (byte_tests (128 + cp / 64 ^ Z.of_nat n mod 64) ltac:(lia)) as (_ & -> & _ & _ & _ & -> & _).
  replace ((128 <=? _) && _) with true by lia. cbn [negb]. rewrite lor_shifted by (apply Z.mod_pos_bound; lia). pose proof (pow64_pos n).
  replace ((128 + cp / 64 ^ Z.of_nat n mod 64) mod 64) with (cp / 64 ^ Z.of_nat n mod 64) by div_lia. rewrite IH by lia. do 2 f_equal.
  rewrite pow64_succ, (Z.mul_comm 64), Z.rem_mul_r by lia. lia.
Qed.

Lemma extra_bytes_inv n v s u s' : 0 <= v -> extra_bytes n v s = Some (u, s') ->
  exists r, 0 <= r < 64 ^ Z.of_nat n /\ u = v * 64 ^ Z.of_nat n + r /\ s = tail_bytes n r ++ s'.
Proof.
  revert v s. induction n as [|n IH]; intros v s Hv Hrun.
  - destruct s; injection Hrun as <- <-; exists 0; (split; [lia|split; [lia|done]]).
  - destruct s as [|c s]; [done|]. cbn [extra_bytes] in Hrun. destruct (byte_tests (code c) (code_bounds c)) as (_ & Htest & _ & _ & _ & Hlow & _).
    rewrite Htest, Hlow in Hrun. destruct ((128 <=? code c) && (code c <? 192)) eqn:Hc; [|done]. cbn [negb] in Hrun. apply andb_prop in Hc as [Hc1%Z.leb_le Hc2%Z.ltb_lt].
    pose proof (Z.mod_pos_bound (code c) 64 ltac:(lia)) as Hm. rewrite lor_shifted in Hrun by done.
    apply IH in Hrun as (r & Hr & -> & ->); [|lia]. exists (code c mod 64 * 64 ^ Z.of_nat n + r). rewrite pow64_succ. pose proof (pow64_pos n). split; [nia|]. split; [lia|].
    cbn [tail_bytes app]. rewrite tail_bytes_mod. rewrite Z.div_add_l, (Z.div_small r) by lia. f_equal. rewrite <- (char_of_code c) at 1. f_equal. div_lia.
Qed.

(** ** Sequences *)

Definition mask_of_extra (n : nat) : Z := match n with 1%nat => 0x000780 | 2%nat => 0x00F800 | _ => 0x1F0000 end.

(** The three tests on a codepoint of [n] more bytes: it needs them, is not too large and is no surrogate. *)
Lemma sequence_tests n v r : (1 <= n <= 3)%nat -> 0 <= v < 2 ^ (6 - Z.of_nat n) -> 0 <= r < 64 ^ Z.of_nat n ->
  let cp := v * 64 ^ Z.of_nat n + r in
  (if Z.land cp (mask_of_extra n) =? 0 then false else if 0x10FFFF <? cp then false else if Z.land cp 0x1FFF800 =? 0xD800 then false else true) = true <->
  scalar cp /\ extra cp = n.
Proof.
  intros Hn Hv Hr cp. assert (Hcp : 0 <= cp < 2 ^ 21) by (destruct n as [|[|[|[|]]]]; try lia; cbn in *; unfold cp; lia).
  rewrite surrogate_test by lia. unfold scalar, extra. destruct n as [|[|[|[|]]]]; try lia; cbn [mask_of_extra].
  1: change 0x780 with (Z.shiftl (Z.ones 4) 7). 2: change 0xF800 with (Z.shiftl (Z.ones 5) 11). 3: change 0x1F0000 with (Z.shiftl (Z.ones 5) 16).
  all: rewrite land_high_zero by (cbn in *; unfold cp; lia).
  all: cbn in Hv, Hr; assert (Hb : cp = v * 64 ^ _ + r) by reflexivity; cbn in Hb; clearbody cp.
  all: repeat match goal with |- context [?a <? ?b] => destruct (Z.ltb_spec a b) | |- context [?a <=? ?b] => destruct (Z.leb_spec a b) end; cbn [andb].
  all: split; [intros H'; first [discriminate H'|split; lia]|intros [? ?]; first [reflexivity|lia]].
Qed.

Lemma UTF8ExtraByteLoop_spec n v s s' : (1 <= n <= 3)%nat -> 0 <= v < 2 ^ (6 - Z.of_nat n) ->
  UTF8ExtraByteLoop n (mask_of_extra n) v s = Some s' <-> exists cp, scalar cp /\ extra cp = n /\ cp / 64 ^ Z.of_nat n = v /\ s = tail_bytes n cp ++ s'.
Proof.
  intros Hn Hv. pose proof (pow64_pos n) as Hp. unfold UTF8ExtraByteLoop. split.
  - destruct (length s <? n)%nat; [done|]. destruct (extra_bytes n v s) as [[u s1]|] eqn:Hx; [|done]. apply extra_bytes_inv in Hx as (r & Hr & -> & ->); [|lia].
    pose proof (sequence_tests n v r Hn Hv Hr) as Ht. cbn zeta in Ht. repeat case_match; try done. intros [= ->]. exists (v * 64 ^ Z.of_nat n + r).
    destruct Ht as [Ht _]. destruct (Ht eq_refl) as [Hs He]. split; [done|]. split; [done|]. rewrite tail_bytes_mod. split; [|done]. rewrite Z.div_add_l, Z.div_small; lia.
  - intros (cp & Hs & He & <- & ->). rewrite length_app, length_tail_bytes, (proj2 (Nat.ltb_ge _ _)) by lia. rewrite extra_bytes_tail by lia.
    pose proof (sequence_tests n (cp / 64 ^ Z.of_nat n) (cp mod 64 ^ Z.of_nat n) Hn Hv (Z.mod_pos_bound _ _ Hp)) as Ht. cbn zeta in Ht.
    rewrite (Z.mul_comm (cp / _)), <- Z.div_mod in * by lia. destruct Ht as [_ Ht]. specialize (Ht (conj Hs He)). repeat case_match; done.
Qed.

(** ** Validation *)

Lemma extra_cases cp : scalar cp ->
  (extra cp = 0%nat /\ 0 <= cp < 0x80) \/ ((1 <= extra cp <= 3)%nat /\ 0x80 <= cp /\ 0 <= cp / 64 ^ Z.of_nat (extra cp) < 2 ^ (6 - Z.of_nat (extra cp))).
Proof.
  intros Hs. unfold scalar, extra in *. repeat match goal with |- context [?a <? ?b] => destruct (Z.ltb_spec a b) end; [left|right..]; cbn; (split; [lia|]); [lia|..];
    (split; [lia|]); (split; [apply Z.div_pos|apply Z.div_lt_upper_bound]; lia).
Qed.

Lemma encode_ascii c : code c < 128 -> encode (code c) = [c].
Proof.
  intros Hc. pose proof (code_bounds c). unfold encode. replace (extra (code c)) with 0%nat by (unfold extra; by rewrite (proj2 (Z.ltb_lt _ _))).
  cbn. rewrite Z.div_1_r. f_equal. apply char_of_code.
Qed.

(** The first byte, its bits below the mark and the tests that find it. *)
Lemma first_byte n v : (1 <= n <= 3)%nat -> 0 <= v < 2 ^ (6 - Z.of_nat n) -> 0 <= mark n + v < 256 /\ 128 <= mark n + v /\
  forall A (f1 f2 f3 : Z -> A) d,
  (let c := mark n + v in if Z.land c 0xE0 =? 0xC0 then f1 (Z.land c 0x1F) else if Z.land c 0xF0 =? 0xE0 then f2 (Z.land c 0x0F) else if Z.land c 0xF8 =? 0xF0 then f3 (Z.land c 0x07) else d)
  = match n with 1%nat => f1 v | 2%nat => f2 v | _ => f3 v end.
Proof.
  intros Hn Hv. destruct n as [|[|[|[|]]]]; try lia; cbn [mark] in *; cbn in Hv; (split; [lia|]); (split; [lia|]); intros A f1 f2 f3 d; cbn zeta.
  all: match goal with |- context [Z.land ?c 0xE0] => destruct (byte_tests c) as (_ & _ & -> & -> & -> & _ & -> & -> & -> & _); [lia|] end.
  - replace ((192 <=? 192 + v) && (192 + v <? 224)) with true by lia. f_equal. div_lia.
  - replace ((192 <=? 224 + v) && (224 + v <? 224)) with false by lia. replace ((224 <=? 224 + v) && (224 + v <? 240)) with true by lia. f_equal. div_lia.
  - replace ((192 <=? 240 + v) && (240 + v <? 224)) with false by lia. replace ((224 <=? 240 + v) && (240 + v <? 240)) with false by lia.
    replace ((240 <=? 240 + v) && (240 + v <? 248)) with true by lia. f_equal. div_lia.
Qed.

(** A valid text starts with the encoding of a codepoint, after which it is valid. *)
Lemma analyze_encode fuel type cp s : scalar cp -> analyze_loop (S fuel) type (encode cp ++ s) = analyze_loop fuel (if cp <? 0x80 then type else UNICODE) s.
Proof.
  intros Hs. unfold encode. destruct (extra_cases cp Hs) as [[He Hcp]|(He & Hcp & Hv)].
  - rewrite He. cbn [mark tail_bytes app analyze_loop]. rewrite Z.add_0_l, Z.div_1_r, code_char_of by lia.
    destruct (byte_tests cp ltac:(lia)) as [-> _]. by rewrite (proj2 (Z.ltb_lt cp 128)) by lia.
  - destruct (first_byte _ _ He Hv) as (Hb & H128 & Hif). cbn [app analyze_loop]. rewrite code_char_of by done.
    destruct (byte_tests _ Hb) as [-> _]. rewrite !(proj2 (Z.ltb_ge _ 128)) by done. cbn zeta in *. rewrite (Hif _ (fun u => UTF8ExtraByteLoop 1 _ u _) (fun u => UTF8ExtraByteLoop 2 _ u _) (fun u => UTF8ExtraByteLoop 3 _ u _)).
    assert (Hseq : UTF8ExtraByteLoop (extra cp) (mask_of_extra (extra cp)) (cp / 64 ^ Z.of_nat (extra cp)) (tail_bytes (extra cp) cp ++ s) = Some s).
    { apply UTF8ExtraByteLoop_spec; [done|done|]. by exists cp. }
    destruct (extra cp) as [|[|[|[|]]]]; try lia; cbn [mask_of_extra] in Hseq; by rewrite Hseq.
Qed.

Lemma encode_of_sequence n v b s s' : (1 <= n <= 3)%nat -> 0 <= v < 2 ^ (6 - Z.of_nat n) -> code b = mark n + v ->
  UTF8ExtraByteLoop n (mask_of_extra n) v s = Some s' -> exists cp, scalar cp /\ b :: s = encode cp ++ s'.
Proof.
  intros Hn Hv Hb Hseq. apply UTF8ExtraByteLoop_spec in Hseq as (cp & Hs & He & Hdiv & ->); [|done|done]. exists cp. split; [done|].
  unfold encode. rewrite He, Hdiv, <- Hb, char_of_code. done.
Qed.

Lemma analyze_step b s : (exists cp s', scalar cp /\ b :: s = encode cp ++ s') \/ (forall fuel type, analyze_loop (S fuel) type (b :: s) = Ret INVALID).
Proof.
  pose proof (code_bounds b) as Hb. destruct (byte_tests (code b) Hb) as (H80 & _ & HE0 & HF0 & HF8 & _ & M5 & M4 & M3 & _).
  destruct (Z.ltb_spec (code b) 128) as [Hlt|Hge]; [left; exists (code b), s; rewrite encode_ascii by done; split; [left; lia|done]|].
  assert (Hrun : forall fuel type, analyze_loop (S fuel) type (b :: s) = match (if (192 <=? code b) && (code b <? 224) then UTF8ExtraByteLoop 1 0x000780 (code b mod 32) s
    else if (224 <=? code b) && (code b <? 240) then UTF8ExtraByteLoop 2 0x00F800 (code b mod 16) s
    else if (240 <=? code b) && (code b <? 248) then UTF8ExtraByteLoop 3 0x1F0000 (code b mod 8) s else None) with Some s'' => analyze_loop fuel UNICODE s'' | None => Ret INVALID end).
  { intros. cbn [analyze_loop]. by rewrite H80, HE0, HF0, HF8, M5, M4, M3. }
  destruct ((192 <=? code b) && (code b <? 224)) eqn:C1; [|destruct ((224 <=? code b) && (code b <? 240)) eqn:C2; [|destruct ((240 <=? code b) && (code b <? 248)) eqn:C3; [|by right]]].
  all: match type of Hrun with context [UTF8ExtraByteLoop ?n ?m ?v ?s] => destruct (UTF8ExtraByteLoop n m v s) as [s'|] eqn:Hseq; [|by right]; left;
    destruct (encode_of_sequence n v b s s') as (cp & Hs & Heq); [lia|cbn; apply Z.mod_pos_bound; lia|cbn [mark]; bool_to_prop; div_lia|done|by exists cp, s'] end.
Qed.

Lemma encode_nonempty cp : (0 < length (encode cp))%nat.
Proof. unfold encode. cbn. lia. Qed.

Lemma analyze_encode_all cps : Forall scalar cps -> forall fuel type, (length (encode_all cps) <= fuel)%nat ->
  analyze_loop fuel type (encode_all cps) = Ret (if forallb (fun cp => cp <? 0x80) cps then type else UNICODE).
Proof.
  induction 1 as [|cp cps Hs Hcps IH]; intros fuel type Hlen; [by destruct fuel|]. unfold encode_all in *. cbn [map concat] in *. rewrite length_app in Hlen.
  pose proof (encode_nonempty cp). destruct fuel as [|fuel]; [lia|]. rewrite analyze_encode, IH by (done || lia). cbn [forallb].
  destruct (cp <? 128); cbn [andb]; [done|]. by destruct (forallb _ cps).
Qed.

Lemma analyze_total fuel : forall type s, (length s <= fuel)%nat -> (exists cps, Forall scalar cps /\ s = encode_all cps) \/ analyze_loop fuel type s = Ret INVALID.
Proof.
  induction fuel as [|fuel IH]; intros type s Hlen; (destruct s as [|b s]; [left; by exists []|]); [cbn in Hlen; lia|].
  destruct (analyze_step b s) as [(cp & s' & Hs & Heq)|Hinv]; [|by right]. rewrite Heq in *. rewrite length_app in Hlen. pose proof (encode_nonempty cp).
  rewrite analyze_encode by done. destruct (IH (if cp <? 0x80 then type else UNICODE) s') as [(cps & Hcps & ->)|Hinv]; [lia| |by right].
  left. exists (cp :: cps). split; [by constructor|done].
Qed.

(** ** Codepoints *)

Lemma byte_at_cons c u i : byte_at (c :: u) (S i) = byte_at u i.
Proof. done. Qed.
Lemma byte_at_head c u : byte_at (c :: u) 0 = Ret (code c).
Proof. done. Qed.

Lemma utf8proc_codepoint_encode cp s sz : scalar cp -> utf8proc_codepoint (encode cp ++ s) sz = Ret (cp, length (encode cp)).
Proof.
  intros Hs. unfold encode. destruct (extra_cases cp Hs) as [[He Hcp]|(He & Hcp & Hv)].
  - rewrite He. cbn [mark tail_bytes app]. unfold utf8proc_codepoint. rewrite byte_at_head, Z.add_0_l, Z.div_1_r, code_char_of by lia. cbn [mbind outcome_bind].
    by rewrite (proj2 (Z.leb_le cp 127)) by lia.
  - destruct (first_byte _ _ He Hv) as (Hb & H128 & _). unfold utf8proc_codepoint. unfold scalar, extra in *.
    destruct (Z.ltb_spec cp 0x80); [lia|]. destruct (Z.ltb_spec cp 0x800); [|destruct (Z.ltb_spec cp 0x10000)].
    all: cbn [mark tail_bytes app length] in *; rewrite ?byte_at_cons, ?byte_at_head; cbn [mbind outcome_bind]; rewrite !code_tail, code_char_of by done; cbn [mbind outcome_bind].
    all: change (64 ^ Z.of_nat 0) with 1 in *; change (64 ^ Z.of_nat 1) with 64 in *; change (64 ^ Z.of_nat 2) with 4096 in *; change (64 ^ Z.of_nat 3) with 262144 in *; rewrite Z.div_1_r.
    + replace (192 + cp / 64 <=? 127) with false by lia. replace ((192 <=? 192 + cp / 64) && (192 + cp / 64 <=? 223)) with true by div_lia. do 2 f_equal. div_lia.
    + replace (224 + cp / 4096 <=? 127) with false by lia. replace ((192 <=? 224 + cp / 4096) && (224 + cp / 4096 <=? 223)) with false by lia.
      pose proof (Z.mod_pos_bound (cp / 64) 64 ltac:(lia)) as H6.
      destruct (byte_tests (128 + cp / 64 mod 64)) as (_ & _ & _ & _ & _ & _ & _ & _ & _ & Ha0); [lia|]. rewrite Ha0 by lia.
      replace ((224 + cp / 4096 =? 237) && (160 <=? 128 + cp / 64 mod 64)) with false by div_lia.
      replace ((224 <=? 224 + cp / 4096) && (224 + cp / 4096 <=? 239)) with true by div_lia. do 2 f_equal. div_lia.
    + replace (240 + cp / 262144 <=? 127) with false by lia. replace ((192 <=? 240 + cp / 262144) && (240 + cp / 262144 <=? 223)) with false by lia.
      replace (240 + cp / 262144 =? 237) with false by lia. cbn [andb]. replace ((224 <=? 240 + cp / 262144) && (240 + cp / 262144 <=? 239)) with false by lia.
      replace ((240 <=? 240 + cp / 262144) && (240 + cp / 262144 <=? 247)) with true by div_lia. do 2 f_equal. div_lia.
Qed.

Lemma codepoint_to_utf8_encode cp : scalar cp -> utf8proc_codepoint_to_utf8 cp = Some (encode cp).
Proof.
  intros Hs. unfold utf8proc_codepoint_to_utf8, encode, extra. rewrite !Z.shiftr_div_pow2 by lia. change 63 with (Z.ones 6). rewrite !Z.land_ones by lia. unfold scalar in Hs.
  destruct (Z.ltb_spec cp 0x80); [replace (cp <=? 127) with true by lia; cbn; by rewrite Z.div_1_r|]. replace (cp <=? 127) with false by lia.
  destruct (Z.ltb_spec cp 0x800); [replace (cp <=? 2047) with true by lia|replace (cp <=? 2047) with false by lia; replace ((55296 <=? cp) && (cp <=? 57343)) with false by lia;
    destruct (Z.ltb_spec cp 0x10000); [replace (cp <=? 65535) with true by lia|replace (cp <=? 65535) with false by lia; replace (cp <=? 1114111) with true by lia]].
  all: cbn [mark tail_bytes]; change (64 ^ Z.of_nat 0) with 1; change (64 ^ Z.of_nat 1) with (2 ^ 6); change (64 ^ Z.of_nat 2) with (2 ^ 12); change (64 ^ Z.of_nat 3) with (2 ^ 18);
    rewrite Z.div_1_r, ?(Z.add_comm (_ / _)), ?(Z.add_comm (_ mod _)); done.
Qed.

Lemma codepoint_length_encode cp : scalar cp -> utf8proc_codepoint_length cp = Z.of_nat (length (encode cp)).
Proof.
  intros Hs. unfold utf8proc_codepoint_length, encode, extra. unfold scalar in Hs. cbn [length]. rewrite length_tail_bytes.
  repeat match goal with |- context [?a <? ?b] => destruct (Z.ltb_spec a b) | |- context [?a <=? ?b] => destruct (Z.leb_spec a b) end; cbn [andb]; lia.
Qed.

Lemma length_encode cp : (1 <= length (encode cp) <= 4)%nat.
Proof. unfold encode, extra. cbn [length]. rewrite length_tail_bytes. repeat case_match; lia. Qed.

(** UTF-8: what is valid, and the case of a text codepoint by codepoint. *)

(** C37. The validation of a text ends and accepts exactly the concatenations of encodings of
    scalar values: no overlong sequence, surrogate, codepoint out of range or cut sequence. *)
Theorem valid_is_encoded : forall s, exists b, isValid s = Ret b /\ (b = true <-> exists cps, Forall scalar cps /\ s = encode_all cps).
Proof.
  intros s. unfold isValid, analyze. destruct (analyze_total (length s) ASCII s) as [(cps & Hcps & ->)|Hinv]; [lia| |].
  - rewrite analyze_encode_all by done. exists true. destruct (forallb _ cps); (split; [done|]); split; [eauto|done|eauto|done].
  - exists false. rewrite Hinv. split; [done|]. split; [done|]. intros (cps & Hcps & ->). rewrite analyze_encode_all in Hinv by done. by destruct (forallb _ cps).
Qed.

(** The decoder of single codepoints is the inverse of the encoder. *)
Theorem codepoint_roundtrip cp : scalar cp -> exists bytes, utf8proc_codepoint_to_utf8 cp = Some bytes /\
  utf8proc_codepoint_length cp = Z.of_nat (length bytes) /\ forall s sz, utf8proc_codepoint (bytes ++ s) sz = Ret (cp, length bytes).
Proof.
  intros Hs. exists (encode cp). split; [by apply codepoint_to_utf8_encode|]. split; [by apply codepoint_length_encode|]. intros s sz. by apply utf8proc_codepoint_encode.
Qed.

(** ** Case *)

Section case.
Context (utf8proc_toupper utf8proc_tolower : Z -> Z).

(** The tables map characters to characters. *)
Definition tables_ok : Prop := forall isUpper cp, scalar cp -> scalar (convertedCodepoint utf8proc_toupper utf8proc_tolower isUpper cp).

(** The case of a codepoint. *)
Definition case_of (isUpper : bool) (cp : Z) : Z :=
  if cp <? 0x80 then code (ascii_case isUpper (char_of cp)) else convertedCodepoint utf8proc_toupper utf8proc_tolower isUpper cp.

Lemma code_ascii_case isUpper c : code c < 128 -> code (ascii_case isUpper c) < 128.
Proof.
  intros Hc. pose proof (code_bounds c). unfold ascii_case. repeat case_match; bool_to_prop; rewrite ?code_char_of by lia; lia.
Qed.

Lemma scalar_case isUpper cp : tables_ok -> scalar cp -> scalar (case_of isUpper cp).
Proof.
  intros Hok Hs. unfold case_of. destruct (Z.ltb_spec cp 0x80); [|by apply Hok]. left. assert (0 <= cp) by (unfold scalar in Hs; lia).
  pose proof (code_bounds (ascii_case isUpper (char_of cp))). pose proof (code_ascii_case isUpper (char_of cp)) as Hc. rewrite code_char_of in Hc by lia. lia.
Qed.

(** The first character of a text tells whether it is ASCII. *)
Lemma encode_head cp : scalar cp -> exists c tl, encode cp = c :: tl /\ (Z.land (code c) 0x80 =? 0) = (cp <? 0x80) /\ (cp < 0x80 -> c = char_of cp /\ tl = []).
Proof.
  intros Hs. unfold encode. eexists _, _. split; [done|]. destruct (extra_cases cp Hs) as [[He Hcp]|(He & Hcp & Hv)].
  - rewrite He. cbn [mark tail_bytes]. rewrite Z.add_0_l, Z.div_1_r, code_char_of by lia. destruct (byte_tests cp ltac:(lia)) as [-> _]. by repeat split.
  - destruct (first_byte _ _ He Hv) as (Hb & H128 & _). rewrite code_char_of by done. destruct (byte_tests _ Hb) as [-> _].
    rewrite !(proj2 (Z.ltb_ge _ 128)) by done. split; [done|lia].
Qed.

Lemma encode_all_cons cp cps : encode_all (cp :: cps) = encode cp ++ encode_all cps.
Proof. done. Qed.

Lemma encode_case_ascii isUpper cp : 0 <= cp < 0x80 -> encode (case_of isUpper cp) = [ascii_case isUpper (char_of cp)].
Proof.
  intros Hcp. unfold case_of. rewrite (proj2 (Z.ltb_lt cp 0x80)) by lia. apply encode_ascii, code_ascii_case. rewrite code_char_of; lia.
Qed.

Lemma length_encode_all cps : (length cps <= length (encode_all cps) <= 4 * length cps)%nat.
Proof.
  induction cps as [|cp cps IH]; [cbn; lia|]. rewrite encode_all_cons, length_app. pose proof (length_encode cp). cbn [length]. lia.
Qed.

Lemma getResultLen_loop_encode isUpper cps : tables_ok -> Forall scalar cps -> forall fuel acc, (length (encode_all cps) <= fuel)%nat ->
  0 <= acc -> acc + Z.of_nat (length (encode_all (map (case_of isUpper) cps))) < 2 ^ 32 ->
  getResultLen_loop utf8proc_toupper utf8proc_tolower fuel isUpper (encode_all cps) acc = Ret (acc + Z.of_nat (length (encode_all (map (case_of isUpper) cps)))).
Proof.
  intros Hok Hcps. induction Hcps as [|cp cps Hs Hcps IH]; intros fuel acc Hlen Hacc Hmax; [destruct fuel; cbn; f_equal; lia|].
  cbn [map] in *. rewrite !encode_all_cons, !length_app in *. destruct (encode_head cp Hs) as (c & tl & Henc & Hland & Hascii).
  pose proof (utf8proc_codepoint_encode cp (encode_all cps) 0 Hs) as Hdec. rewrite Henc in *. cbn [length] in *. destruct fuel as [|fuel]; [lia|].
  cbn [app getResultLen_loop]. rewrite Hland. assert (Hnew := length_encode (case_of isUpper cp)). destruct (Z.ltb_spec cp 0x80) as [Hlt|Hge]; cbn [negb].
  - destruct (Hascii Hlt) as [-> ->]. assert (0 <= cp) by (unfold scalar in Hs; lia). rewrite encode_case_ascii in * by lia. cbn [length app] in *.
    unfold u32. rewrite wrap_small by lia. rewrite IH by lia. f_equal. lia.
  - cbn [app] in Hdec. rewrite Hdec. cbn [mbind outcome_bind]. rewrite (proj2 (Z.ltb_ge cp 0)) by lia.
    assert (Hcase : convertedCodepoint utf8proc_toupper utf8proc_tolower isUpper cp = case_of isUpper cp) by (unfold case_of; by rewrite (proj2 (Z.ltb_ge _ _))).
    rewrite Hcase, codepoint_length_encode by (by apply scalar_case). rewrite ku_assert_true by (apply Z.leb_le; lia).
    unfold u32. rewrite wrap_small by lia. cbn [skipn]. rewrite skipn_app, skipn_all, Nat.sub_diag. cbn [skipn app]. rewrite IH by lia. f_equal. lia.
Qed.

Lemma convertCase_encode isUpper cps : tables_ok -> Forall scalar cps -> forall fuel, (length (encode_all cps) <= fuel)%nat ->
  convertCase utf8proc_toupper utf8proc_tolower fuel isUpper (encode_all cps) (length (encode_all (map (case_of isUpper) cps))) = Ret (encode_all (map (case_of isUpper) cps)).
Proof.
  intros Hok Hcps. induction Hcps as [|cp cps Hs Hcps IH]; intros fuel Hlen; [by destruct fuel|].
  cbn [map] in *. rewrite !encode_all_cons, !length_app in *. destruct (encode_head cp Hs) as (c & tl & Henc & Hland & Hascii).
  pose proof (utf8proc_codepoint_encode cp (encode_all cps) 1 Hs) as Hdec. rewrite Henc in *. cbn [length] in *. destruct fuel as [|fuel]; [lia|].
  cbn [app convertCase] in *. unfold convertCharCase. rewrite (load_Ret _ 0 c) by done. cbn [mbind outcome_bind]. rewrite Hland. destruct (Z.ltb_spec cp 0x80) as [Hlt|Hge]; cbn [negb].
  - destruct (Hascii Hlt) as [-> ->]. assert (0 <= cp) by (unfold scalar in Hs; lia). rewrite encode_case_ascii in * by lia. cbn [mbind outcome_bind length app skipn].
    rewrite (proj2 (Nat.ltb_ge _ _)) by lia. replace (1 + _ - 1)%nat with (length (encode_all (map (case_of isUpper) cps))) by lia. by rewrite IH by lia.
  - rewrite Hdec. cbn [mbind outcome_bind]. rewrite ku_assert_true by (apply Z.leb_le; lia).
    assert (Hcase : convertedCodepoint utf8proc_toupper utf8proc_tolower isUpper cp = case_of isUpper cp) by (unfold case_of; by rewrite (proj2 (Z.ltb_ge _ _))).
    rewrite Hcase, codepoint_to_utf8_encode by (by apply scalar_case). cbn [mbind outcome_bind]. rewrite (proj2 (Nat.ltb_ge _ _)) by lia.
    cbn [skipn]. rewrite skipn_app, skipn_all, Nat.sub_diag. cbn [skipn app]. rewrite Nat.add_comm, Nat.add_sub. by rewrite IH by lia.
Qed.

End case.

