(* ===== verification/IntervalText.v ===== *)
(** Text to intervals ([Interval::fromCString] of [common/types/interval_t.cpp]): numbers
    with specifiers, then a time. The labels of the source are functions here: each gets the
    text from its position on; [parse_interval] is entered again after every specifier,
    with at least two characters less. *)
From Stdlib Require Import Ascii String.
From S2P Require Import Prelude Bitpacking Date CastHelpers DateText Interval Arithmetic IntegerCast Utf8.
Local Open Scope Z_scope.

Definition DAYS_PER_WEEK : Z := 7.

Definition is_any (specifier : string) (names : list string) : bool := existsb (String.eqb specifier) names.

(** An exception of this class is caught and another one thrown. *)
Definition rethrow {A} (m : outcome A) (e : exn) : outcome A := match m with Throw (OverflowException _) => Throw e | _ => m end.

(** [intervalTryAddition<T>]: the new value of [target]. *)
Definition intervalTryAddition (t : int_type) (target input multiplier fraction : Z) : outcome Z :=
  '(addition, _, _) ← rethrow (Multiply INT64 input multiplier) (OverflowException "Interval value is out of range");
  additionBase ← CastTo INT64 t addition;
  target ← rethrow (Add t target additionBase) (OverflowException "Interval value is out of range");
  if negb (fraction =? 0) then
    product ← int64 (fraction * multiplier);
    additionBase ← CastTo INT64 t (Z.quot product MICROS_PER_SEC);
    rethrow (Add t target additionBase) (OverflowException "Interval fraction is out of range")
  else Ret target.

Definition set_months (i : interval_t) (m : Z) : interval_t := Date.Interval m (days i) (micros i).
Definition set_days (i : interval_t) (d : Z) : interval_t := Date.Interval (months i) d (micros i).
Definition set_micros (i : interval_t) (u : Z) : interval_t := Date.Interval (months i) (days i) u.

(** The switch over the specifiers. *)
Definition add_specified (specifier : DatePartSpecifier) (number fraction : Z) (result : interval_t) : outcome interval_t :=
  let add_months input multiplier fraction result := m ← intervalTryAddition INT32 (months result) input multiplier fraction; Ret (set_months result m) in
  let add_days input multiplier fraction result := d ← intervalTryAddition INT32 (days result) input multiplier fraction; Ret (set_days result d) in
  let add_micros input multiplier fraction result := u ← intervalTryAddition INT64 (micros result) input multiplier fraction; Ret (set_micros result u) in
  match specifier with
  | MILLENNIUM => add_months number MONTHS_PER_MILLENIUM fraction result
  | CENTURY => add_months number MONTHS_PER_CENTURY fraction result
  | DECADE => add_months number MONTHS_PER_DECADE fraction result
  | YEAR => add_months number MONTHS_PER_YEAR fraction result
  | QUARTER =>
      result ← add_months number MONTHS_PER_QUARTER fraction result;
      fraction ← int64 (fraction * MONTHS_PER_QUARTER);
      add_days 0 DAYS_PER_MONTH (Z.rem fraction MICROS_PER_SEC) result
  | MONTH => result ← add_months number 1 0 result; add_days 0 DAYS_PER_MONTH fraction result
  | DAY => result ← add_days number 1 0 result; add_micros 0 MICROS_PER_DAY fraction result
  | WEEK =>
      result ← add_days number DAYS_PER_WEEK fraction result;
      fraction ← int64 (fraction * DAYS_PER_WEEK);
      add_micros 0 MICROS_PER_DAY (Z.rem fraction MICROS_PER_SEC) result
  | HOUR => add_micros number MICROS_PER_HOUR fraction result
  | MINUTE => add_micros number MICROS_PER_MINUTE fraction result
  | SECOND => add_micros number MICROS_PER_SEC fraction result
  | MILLISECOND => add_micros number MICROS_PER_MSEC fraction result
  | MICROSECOND =>
      twice ← int64 (fraction * 2);
      number ← int64 (number + Z.quot twice MICROS_PER_SEC);
      add_micros number 1 0 result
  end.

(** The characters up to the first that fails a test, and the rest. *)
Fixpoint span (p : ascii -> bool) (s : list ascii) : list ascii * list ascii :=
  match s with
  | c :: s' => if p c then let '(a, b) := span p s' in (c :: a, b) else ([], s)
  | [] => ([], [])
  end.

(** [end_of_string]. *)
Definition interval_error : exn := ConversionException "Error occurred during parsing interval. Given: {}.".
Definition end_of_string (foundAny : bool) (result : interval_t) : outcome interval_t := if foundAny then Ret result else Throw interval_error.

(** [interval_parse_time], from where the number started. *)
Definition interval_parse_time (start : list ascii) (result : interval_t) : outcome interval_t :=
  match Time.tryConvertInterval start with
  | None => Throw (ConversionException "Error occurred during parsing time. Given: {}.")
  | Some (time, _) => u ← int64 (micros result + time); end_of_string true (set_micros result u)
  end.

(** [interval_parse_number] when the digits do not end the text: the number, its fraction
    and what follows. *)
Definition read_number (digits rest : list ascii) : outcome (Z * Z * list ascii) :=
  number ← simpleIntegerCast INT64 digits;
  match rest with
  | c :: rest' => if Ascii.eqb c "." then let '(fraction, rest) := Time.parse_fraction rest' 100000 0 in Ret (number, fraction, rest) else Ret (number, 0, rest)
  | [] => Ret (number, 0, rest)
  end.

Section case.
Context (utf8proc_toupper utf8proc_tolower : Z -> Z).

Definition tryGetDatePartSpecifier (specifier : list ascii) : outcome DatePartSpecifier :=
  specifier ← toLower utf8proc_toupper utf8proc_tolower specifier;
  let s := string_of_list_ascii specifier in
  if is_any s ["year"; "yr"; "y"; "years"; "yrs"] then Ret YEAR
  else if is_any s ["month"; "mon"; "months"; "mons"] then Ret MONTH
  else if is_any s ["day"; "days"; "d"; "dayofmonth"] then Ret DAY
  else if is_any s ["decade"; "dec"; "decades"; "decs"] then Ret DECADE
  else if is_any s ["century"; "cent"; "centuries"; "c"] then Ret CENTURY
  else if is_any s ["millennium"; "mil"; "millenniums"; "millennia"; "mils"; "millenium"; "milleniums"] then Ret MILLENNIUM
  else if is_any s ["microseconds"; "microsecond"; "us"; "usec"; "usecs"; "usecond"; "useconds"] then Ret MICROSECOND
  else if is_any s ["milliseconds"; "millisecond"; "ms"; "msec"; "msecs"; "msecond"; "mseconds"] then Ret MILLISECOND
  else if is_any s ["second"; "sec"; "seconds"; "secs"; "s"] then Ret SECOND
  else if is_any s ["minute"; "min"; "minutes"; "mins"; "m"] then Ret MINUTE
  else if is_any s ["hour"; "hr"; "hours"; "hrs"; "h"] then Ret HOUR
  else if is_any s ["week"; "weeks"; "w"; "weekofyear"] then Ret WEEK
  else if is_any s ["quarter"; "quarters"] then Ret QUARTER
  else Throw (ConversionException "Unrecognized interval specifier string: {}.").

(** [interval_parse_identifier]: the result, and the rest of the text. *)
Definition interval_parse_identifier (rest : list ascii) (number fraction : Z) (result : interval_t) : outcome (interval_t * list ascii) :=
  let '(specifierStr, rest) := span (fun c => negb (isSpace c)) (skip_spaces rest) in
  match specifierStr with
  | [] => Throw (ConversionException "Error occurred during parsing interval. Field name is missing.")
  | _ =>
      specifier ← tryGetDatePartSpecifier specifierStr;
      result ← add_specified specifier number fraction result;
      Ret (result, rest)
  end.

(** [parse_interval]; [number] and [fraction] are what was read last. *)
Fixpoint parse_interval (fuel : nat) (s : list ascii) (number fraction : Z) (foundAny : bool) (result : interval_t) : outcome interval_t :=
  match fuel with
  | O => Undef
  | S fuel' =>
      match skip_spaces s with
      | [] => end_of_string foundAny result
      | (c :: _) as start =>
          if negb (CharacterIsDigit c) then Throw interval_error
          else
            let '(digits, rest) := span CharacterIsDigit start in
            match rest with
            | c :: _ =>
                if Ascii.eqb c ":" then interval_parse_time start result
                else
                  '(number, fraction, rest) ← read_number digits rest;
                  '(result, rest) ← interval_parse_identifier rest number fraction result;
                  parse_interval fuel' rest number fraction true result
            | [] =>
                '(result, rest) ← interval_parse_identifier [] number fraction result;
                parse_interval fuel' rest number fraction true result
            end
      end
  end.

Definition interval_fromCString (str : list ascii) : outcome interval_t :=
  match str with
  | [] => Throw (ConversionException "Error occurred during parsing interval. Given empty string.")
  | c :: str' => parse_interval (S (List.length str)) (if Ascii.eqb c "@" then str' else str) 0 0 false (Date.Interval 0 0 0)
  end.

Example interval_parsed : interval_fromCString (chars "2 years 3 DAYS 1:02:03.5") = Ret (Date.Interval 24 3 3723500000).
Proof. by vm_compute. Qed.
Example fraction_parsed : interval_fromCString (chars "1.5 weeks") = Ret (Date.Interval 0 10 43200000000).
Proof. by vm_compute. Qed.
Example negative_unread : interval_fromCString (chars "-3 days") = Throw interval_error.
Proof. by vm_compute. Qed.
Example number_alone : interval_fromCString (chars "3") = Throw (ConversionException "Error occurred during parsing interval. Field name is missing.").
Proof. by vm_compute. Qed.
Example months_overflow : interval_fromCString (chars "178956971 years") = Throw (OverflowException "Value {} is not within INT32 range").
Proof. by vm_compute. Qed.
End case.
