(* ===== verification/IntervalTextSpec.v ===== *)
(** The text of an interval is its parts with spaces between them; the parser takes the
    parts one by one; and what is printed is read back, unless a part is negative or the
    time is too long. *)
From Stdlib Require Import Ascii String.
From S2P Require Import Prelude Bitpacking Date CastHelpers DateText DateFacts Timestamp Interval TemporalFacts Arithmetic ArithmeticSpec IntegerCast.
From S2P Require Import Utf8 IntervalText.
Local Open Scope Z_scope.

(** ** What is written *)

(** Parts, each after a space; a text has no space before its first part. *)
Definition spaced (parts : list (list ascii)) : list ascii := concat (map (cons " "%char) parts).
Definition joined (parts : list (list ascii)) : list ascii := tail (spaced parts).

Definition value_text (v : Z) (name : string) : list ascii := signed_text v ++ chars name ++ (if v =? 1 then [] else ["s"%char]).
Definition value_parts (v : Z) (name : string) : list (list ascii) := if v =? 0 then [] else [value_text v name].
Definition hour_text (h : Z) : list ascii := (if h <? 10 then [zero_char] else []) ++ num_text h.

(** A text of the microseconds. *)
Definition is_clock (u : Z) (text : list ascii) : Prop := exists h m s f z,
  0 <= h < 10 ^ 10 /\ 0 <= m < 60 /\ 0 <= s < 60 /\ 0 <= f < 1000000 /\ (z <= 5)%nat /\ f mod 10 ^ Z.of_nat z = 0 /\
  Z.abs u = Time.fromTimeInternal h m s f /\ text = (if u <? 0 then ["-"%char] else []) ++ hour_text h ++ after_hour m s f (6 - z).

Lemma spaced_app a b : spaced (a ++ b) = spaced a ++ spaced b.
Proof. unfold spaced. by rewrite map_app, concat_app. Qed.

Lemma joined_snoc parts part : Forall (fun p => p <> []) parts ->
  (match joined parts with [] => [] | _ => joined parts ++ [" "%char] end) ++ part = joined (parts ++ [part]).
Proof.
  intros Hp. unfold joined. rewrite spaced_app. destruct Hp as [|p ps Hp _]; [cbn; by rewrite app_nil_r|]. unfold spaced. cbn [map concat app tail]. rewrite app_nil_r.
  destruct p as [|c p]; [done|]. cbn [app]. by rewrite <- !app_assoc.
Qed.

Lemma append_inv text more b : IntervalToStringCast.append text more = Ret b -> b = text ++ more.
Proof. unfold IntervalToStringCast.append. case_match; [|done]. by intros [= <-]. Qed.

Lemma space_inv parts b : Forall (fun p => p <> []) parts ->
  (match joined parts with [] => Ret (joined parts) | _ => IntervalToStringCast.append (joined parts) [" "%char] end) = Ret b ->
  forall part, b ++ part = joined (parts ++ [part]).
Proof.
  intros Hp Hb part. rewrite <- joined_snoc by done. destruct (joined parts); [injection Hb as <-; done|]. apply append_inv in Hb as ->. done.
Qed.

Lemma signed_text_nonempty v : - 2 ^ 63 < v < 2 ^ 63 -> signed_text v <> [].
Proof.
  intros Hv Hnil. apply (f_equal length) in Hnil. unfold signed_text, num_text in Hnil. rewrite length_app, length_decimal in Hnil.
  destruct (num_digits_exact (Z.abs v)) as [Hpos _]; [lia|]. cbn in Hnil. lia.
Qed.
Lemma value_text_nonempty v name : - 2 ^ 63 < v < 2 ^ 63 -> value_text v name <> [].
Proof. intros Hv Hnil. apply (signed_text_nonempty v Hv). unfold value_text in Hnil. by apply app_eq_nil in Hnil as [? _]. Qed.

Lemma FormatIntervalValue_inv v parts name b : - 2 ^ 63 < v < 2 ^ 63 -> Forall (fun p => p <> []) parts ->
  IntervalToStringCast.FormatIntervalValue v (joined parts) (chars name) = Ret b -> b = joined (parts ++ value_parts v name).
Proof.
  intros Hv Hp Hrun. unfold IntervalToStringCast.FormatIntervalValue, value_parts in *. destruct (v =? 0); [injection Hrun as <-; by rewrite app_nil_r|].
  inv_ret Hrun. rewrite FormatSignedNumber_append in * by done. unfold value_text.
  repeat match goal with H : IntervalToStringCast.append _ _ = Ret _ |- _ => apply append_inv in H as -> end.
  match goal with H : context [joined parts] |- _ => pose proof (space_inv _ _ Hp H) as Hs end. rewrite <- Hs.
  destruct (v =? 1); cbn [negb] in Hrun; [injection Hrun as <-|apply append_inv in Hrun as ->]; by rewrite ?app_nil_r, <- !app_assoc.
Qed.

Lemma fraction_inv f buffer b : 0 <= f < 1000000 ->
  (if negb (f =? 0) then
    buffer ← IntervalToStringCast.append buffer ["."%char];
    '(zeros, text) ← TimeToStringCast.FormatMicros f;
    _ ← IntervalToStringCast.append buffer text;
    IntervalToStringCast.append buffer (take (Z.to_nat (6 - zeros)) text)
  else Ret buffer) = Ret b ->
  exists z, (z <= 5)%nat /\ f mod 10 ^ Z.of_nat z = 0 /\ b = buffer ++ (if f =? 0 then [] else ["."%char] ++ fraction_text f (6 - z)).
Proof.
  intros Hf Hrun. destruct (Z.eqb_spec f 0) as [->|Hf0]; cbn [negb] in Hrun.
  - injection Hrun as <-. exists 0%nat. rewrite app_nil_r. split; [lia|done].
  - destruct (FormatMicros_Ret f Hf) as (z & Hmicros & Hz & Hmod). rewrite Hmicros in Hrun. cbn [mbind outcome_bind] in Hrun. inv_ret Hrun.
    repeat match goal with H : IntervalToStringCast.append _ _ = Ret _ |- _ => apply append_inv in H as -> end.
    exists z. split; [done|]. split; [done|]. replace (Z.to_nat (6 - Z.of_nat z)) with (6 - z)%nat by lia. rewrite take_fraction by done. by rewrite <- !app_assoc.
Qed.

Lemma time_rest_inv m s f buffer b : 0 <= m < 60 -> 0 <= s < 60 -> 0 <= f < 1000000 -> time_rest m s f buffer = Ret b ->
  exists z, (z <= 5)%nat /\ f mod 10 ^ Z.of_nat z = 0 /\ b = buffer ++ after_hour m s f (6 - z).
Proof.
  intros Hm Hs Hf Hrun. unfold time_rest in Hrun. rewrite !FormatTwoDigits_Ret in Hrun by lia. inv_ret Hrun.
  apply fraction_inv in Hrun as (z & Hz & Hmod & ->); [|done]. repeat match goal with H : IntervalToStringCast.append _ _ = Ret _ |- _ => apply append_inv in H as -> | H : Ret _ = Ret _ |- _ => injection H as <- end.
  exists z. split; [done|]. split; [done|]. unfold after_hour. by rewrite <- !app_assoc.
Qed.

Lemma FormatTime_inv u parts b : - 2 ^ 63 < u < 2 ^ 63 -> Forall (fun p => p <> []) parts -> IntervalToStringCast.FormatTime u (joined parts) = Ret b ->
  exists part, is_clock u part /\ b = joined (parts ++ [part]).
Proof.
  intros Hu Hp Hrun. unfold IntervalToStringCast.FormatTime in Hrun. inv_ret Hrun.
  match goal with H : context [joined parts] |- _ => pose proof (space_inv _ _ Hp H) as Hs; clear H end.
  set (sign := if u <? 0 then ["-"%char] else []). assert (Ha0 : a0 = (a ++ sign, Z.abs u)).
  { unfold sign. destruct (Z.ltb_spec u 0).
    - inv_ret Hret0. rewrite int64_Ret in Hret1 by lia. injection Hret1 as <-. apply append_inv in Hret as ->. rewrite <- Hret0. f_equal. lia.
    - injection Hret0 as <-. rewrite app_nil_r. f_equal. lia. }
  subst a0. clear Hret0. destruct (micros_parts (Z.abs u)) as (Hh & Hm & Hsec & Hf); [lia|]. cbn zeta in *.
  assert (Hsum : Z.abs u = Time.fromTimeInternal (Z.quot (Z.abs u) MICROS_PER_HOUR) (Z.quot (Z.abs u - Z.quot (Z.abs u) MICROS_PER_HOUR * MICROS_PER_HOUR) MICROS_PER_MINUTE)
    (Z.quot (Z.abs u - Z.quot (Z.abs u) MICROS_PER_HOUR * MICROS_PER_HOUR - Z.quot (Z.abs u - Z.quot (Z.abs u) MICROS_PER_HOUR * MICROS_PER_HOUR) MICROS_PER_MINUTE * MICROS_PER_MINUTE) MICROS_PER_SEC)
    (Z.abs u - Z.quot (Z.abs u) MICROS_PER_HOUR * MICROS_PER_HOUR - Z.quot (Z.abs u - Z.quot (Z.abs u) MICROS_PER_HOUR * MICROS_PER_HOUR) MICROS_PER_MINUTE * MICROS_PER_MINUTE
      - Z.quot (Z.abs u - Z.quot (Z.abs u) MICROS_PER_HOUR * MICROS_PER_HOUR - Z.quot (Z.abs u - Z.quot (Z.abs u) MICROS_PER_HOUR * MICROS_PER_HOUR) MICROS_PER_MINUTE * MICROS_PER_MINUTE) MICROS_PER_SEC * MICROS_PER_SEC))
    by (unfold Time.fromTimeInternal; micros; lia).
  set (hour := Z.quot (Z.abs u) MICROS_PER_HOUR) in *. set (min := Z.quot (Z.abs u - _) _) in *. set (sec := Z.quot (_ - min * _) _) in *.
  set (fraction := _ - sec * MICROS_PER_SEC) in *. clearbody hour min sec fraction.
  assert (Hrun' : (buffer ← (if hour <? 10 then IntervalToStringCast.append (a ++ sign) [zero_char] else Ret (a ++ sign));
    buffer ← IntervalToStringCast.FormatSignedNumber hour buffer; time_rest min sec fraction buffer) = Ret b) by exact Hrun. clear Hrun.
  inv_ret Hrun'. apply time_rest_inv in Hrun' as (z & Hz & Hmod & ->); [|done..]. rewrite FormatSignedNumber_append in * by lia.
  exists (sign ++ hour_text hour ++ after_hour min sec fraction (6 - z)). split; [by exists hour, min, sec, fraction, z|]. rewrite <- Hs.
  unfold hour_text. assert (Hnum : signed_text hour = num_text hour) by (unfold signed_text; rewrite (proj2 (Z.ltb_ge hour 0)) by lia; rewrite Z.abs_eq by lia; done).
  destruct (hour <? 10); repeat match goal with H : IntervalToStringCast.append _ _ = Ret _ |- _ => apply append_inv in H as -> | H : Ret _ = Ret _ |- _ => injection H as <- end;
    rewrite Hnum; by rewrite <- !app_assoc.
Qed.

(** The parts of an interval. *)
Definition parts_of (i : interval_t) : list (list ascii) :=
  value_parts (Z.quot (months i) 12) " year" ++ value_parts (months i - Z.quot (months i) 12 * 12) " month" ++ value_parts (days i) " day".

Lemma value_parts_nonempty v name : - 2 ^ 63 < v < 2 ^ 63 -> Forall (fun p => p <> []) (value_parts v name).
Proof. intros Hv. unfold value_parts. destruct (v =? 0); constructor; [by apply value_text_nonempty|done]. Qed.

Lemma parts_of_nonempty i : interval_ok i -> Forall (fun p => p <> []) (parts_of i).
Proof.
  intros (Hm & Hd & _). unfold parts_of. rewrite !Forall_app. repeat split; apply value_parts_nonempty; Z.to_euclidean_division_equations; lia.
Qed.

Lemma interval_toString_text i : interval_ok i -> micros i <> - 2 ^ 63 -> exists text, interval_toString i = Ret text /\
  if micros i =? 0 then text = (match parts_of i with [] => chars "00:00:00" | _ => joined (parts_of i) end)
  else exists part, is_clock (micros i) part /\ text = joined (parts_of i ++ [part]).
Proof.
  intros Hok Hmin. destruct (interval_toString_Ret i Hok Hmin) as (text & Hrun & _). exists text. split; [done|]. destruct Hok as (Hm & Hd & Hu). unfold is_int64_value in Hu.
  unfold interval_toString, IntervalToStringCast.Format in Hrun. inv_ret Hrun.
  assert (Hy : - 2 ^ 63 < Z.quot (months i) 12 < 2 ^ 63 /\ - 2 ^ 63 < months i - Z.quot (months i) 12 * 12 < 2 ^ 63) by (Z.to_euclidean_division_equations; lia).
  destruct Hy as [Hy Hmo]. assert (Ha : a = joined (value_parts (Z.quot (months i) 12) " year" ++ value_parts (months i - Z.quot (months i) 12 * 12) " month")).
  { destruct (Z.eqb_spec (months i) 0) as [H0|H0]; cbn [negb] in Hret; [injection Hret as <-; by rewrite H0|]. inv_ret Hret.
    match goal with H : context [chars " year"] |- _ => apply (FormatIntervalValue_inv _ []) in H as ->; [|done|constructor] end.
    apply FormatIntervalValue_inv in Hret; [done|done|]. rewrite app_nil_l. by apply value_parts_nonempty. }
  assert (Ha0 : a0 = joined (parts_of i)).
  { unfold parts_of. rewrite app_assoc. destruct (Z.eqb_spec (days i) 0) as [H0|H0]; cbn [negb] in Hret0.
    - injection Hret0 as <-. rewrite H0. unfold value_parts at 3. by rewrite app_nil_r.
    - subst a. apply FormatIntervalValue_inv in Hret0; [done|lia|]. apply Forall_app. split; by apply value_parts_nonempty. }
  pose proof (parts_of_nonempty i) as Hne. specialize (Hne ltac:(repeat split; lia)). destruct (Z.eqb_spec (micros i) 0) as [H0|H0]; cbn [negb] in Hrun.
  - subst a0. destruct Hne as [|p ps Hp]; [by injection Hrun as <-|]. unfold joined, spaced in *. cbn [map concat app tail] in *. destruct p as [|c p]; [done|]. by injection Hrun as <-.
  - subst a0. apply FormatTime_inv in Hrun as (part & Hpart & ->); [by exists part|lia|done].
Qed.

(** ** What is read *)

Definition stops (p : ascii -> bool) (rest : list ascii) : Prop := match rest with [] => True | c :: _ => p c = false end.

Lemma span_app p a rest : forallb p a = true -> stops p rest -> span p (a ++ rest) = (a, rest).
Proof.
  intros Ha Hrest. induction a as [|c a IH]; cbn in *.
  - destruct rest as [|c rest]; [done|]. cbn in *. by rewrite Hrest.
  - apply andb_prop in Ha as [Hc Ha]. rewrite Hc, IH by done. done.
Qed.

Lemma decimal_digits n v : forallb CharacterIsDigit (decimal n v) = true.
Proof. revert v. induction n as [|n IH]; intros v; [done|]. cbn [decimal]. rewrite forallb_app, IH. cbn. by rewrite digit_is_digit. Qed.

Lemma numeral_from_app acc a b : numeral_from acc (a ++ b) = numeral_from (numeral_from acc a) b.
Proof. revert acc. induction a as [|c a IH]; intros acc; [done|]. cbn. apply IH. Qed.

Lemma numeral_from_decimal n acc v : 0 <= v -> numeral_from acc (decimal n v) = acc * 10 ^ Z.of_nat n + v mod 10 ^ Z.of_nat n.
Proof.
  revert acc v. induction n as [|n IH]; intros acc v Hv; [cbn; rewrite Z.mod_1_r; lia|]. cbn [decimal]. rewrite numeral_from_app, IH by div_lia. cbn [numeral_from].
  rewrite digit_value, Nat2Z.inj_succ, Z.pow_succ_r, Z.rem_mul_r by lia. lia.
Qed.

Lemma decimal_front n v : decimal (S n) v = digit_char (v / 10 ^ Z.of_nat n mod 10) :: decimal n v.
Proof. exact (decimal_app 1 n v). Qed.

(** No leading zero. *)
Lemma num_text_front v : 0 < v < 2 ^ 63 -> exists c tl, num_text v = c :: tl /\ CharacterIsDigit c = true /\ isSpace c = false /\ c <> "-"%char /\ c <> "0"%char /\ c <> ":"%char.
Proof.
  intros Hv. destruct (num_digits_exact v) as (Hpos & Hlt & Hge & _); [lia|]. unfold num_text. destruct (num_digits v) as [|n]; [lia|]. rewrite decimal_front.
  replace (S n - 1)%nat with n in Hge by lia. rewrite Nat2Z.inj_succ, Z.pow_succ_r in Hlt by lia. assert (Hp : 0 < 10 ^ Z.of_nat n) by lia.
  assert (Hd : 1 <= v / 10 ^ Z.of_nat n < 10).
  { split; [apply Z.div_le_lower_bound; [lia|]; rewrite Z.mul_1_r; destruct Hge as [[= ->]|]; [cbn; lia|done]|apply Z.div_lt_upper_bound; lia]. }
  eexists _, _. split; [done|]. autorewrite with digits. do 2 (split; [done|]).
  assert (Hne : forall c : ascii, digit_of c <> v / 10 ^ Z.of_nat n \/ CharacterIsDigit c = false -> digit_char ((v / 10 ^ Z.of_nat n) mod 10) <> c).
  { intros c [Hc|Hc] Heq; [apply Hc; by rewrite <- Heq, digit_value, Z.mod_small by lia|by rewrite <- Heq, digit_is_digit in Hc]. }
  split; [by apply Hne; right|]. split; apply Hne; [left; change (digit_of "0") with 0; lia|by right].
Qed.

Lemma digits_no_space ds : forallb CharacterIsDigit ds = true -> skip_spaces ds = ds.
Proof.
  destruct ds as [|c ds]; [done|]. intros [Hc _]%andb_prop. cbn [skip_spaces]. enough (isSpace c = false) as -> by done.
  destruct (isSpace c) eqn:Hs; [|done]. exfalso. revert Hc Hs. destruct c as [[] [] [] [] [] [] [] []]; by vm_compute.
Qed.

Lemma simpleIntegerCast_num v : 0 < v < 2 ^ 63 -> simpleIntegerCast INT64 (num_text v) = Ret v.
Proof.
  intros Hv. destruct (num_digits_exact v) as (Hpos & Hlt & _); [lia|]. destruct (num_text_front v Hv) as (c & tl & Hc & _ & _ & Hminus & Hzero & _).
  assert (Hds : forallb CharacterIsDigit (num_text v) = true) by apply decimal_digits.
  unfold simpleIntegerCast, tryIntegerCast, removeCStringWhiteSpaces. rewrite (digits_no_space (num_text v)) by done.
  rewrite (digits_no_space (rev _)), rev_involutive by (apply forallb_forall; intros x Hx; apply (proj1 (forallb_forall _ _) Hds), in_rev; done). rewrite Hc.
  destruct (Ascii.eqb_spec c "-"); [done|]. destruct (Ascii.eqb_spec c "0"); [done|]. rewrite andb_false_r. unfold integerCastLoop. rewrite <- Hc.
  assert (Hnum : numeral_from 0 (num_text v) = v) by (unfold num_text; rewrite numeral_from_decimal, Z.mod_small; lia).
  rewrite cast_digits_positive by (unfold is_sql; cbn; tauto || (change (MAX INT64) with (2 ^ 63 - 1); lia)). unfold all_digits. rewrite Hds, Hnum.
  change (MAX INT64) with (2 ^ 63 - 1). rewrite (proj2 (Z.leb_le _ _)) by lia. cbn [andb]. by rewrite Hc.
Qed.

(** ** Additions without a fraction *)

Lemma intervalTryAddition_Ret t target input multiplier : t = INT32 \/ t = INT64 -> MIN INT64 <= input <= MAX INT64 -> MIN INT64 <= multiplier <= MAX INT64 ->
  MIN t <= target <= MAX t -> MIN t <= input * multiplier <= MAX t -> MIN t <= target + input * multiplier <= MAX t ->
  intervalTryAddition t target input multiplier 0 = Ret (target + input * multiplier).
Proof.
  intros Ht Hi Hm Hta Hp Hsum. assert (Hsql : is_sql t /\ MIN INT64 <= MIN t /\ MAX t <= MAX INT64) by (destruct Ht as [->| ->]; (split; [unfold is_sql; cbn; tauto|by vm_compute])).
  destruct Hsql as (Hsql & Hlow & Hhigh). assert (H64 : is_sql INT64) by (unfold is_sql; cbn; tauto).
  unfold intervalTryAddition, Multiply. rewrite TryMultiply_exact by done. rewrite (proj2 (fits_spec INT64 _)) by lia. cbn [operands_after is_uint64_type INT64 bits is_signed andb negb or_throw mbind outcome_bind rethrow].
  replace (operands_after INT64 input multiplier) with (input, multiplier) by done. cbn [mbind outcome_bind rethrow].
  rewrite cast_exact by (done || lia). unfold exact_or_throw. rewrite (proj2 (fits_spec t _)) by done. cbn [mbind outcome_bind].
  unfold Add. rewrite AddInPlace_exact, (proj2 (fits_spec t _)) by done. done.
Qed.

(** The value of a part in months or days; no overflow. *)
Definition add_part (specifier : DatePartSpecifier) (v : Z) (i : interval_t) : interval_t :=
  match specifier with
  | YEAR => set_months i (months i + v * 12)
  | MONTH => set_months i (months i + v)
  | _ => set_days i (days i + v)
  end.
Definition named (name : string) (specifier : DatePartSpecifier) : Prop :=
  (name = " year" /\ specifier = YEAR) \/ (name = " month" /\ specifier = MONTH) \/ (name = " day" /\ specifier = DAY).

Lemma add_specified_Ret name specifier v i : named name specifier -> 0 <= v -> interval_ok i -> interval_ok (add_part specifier v i) -> 0 <= months i -> 0 <= days i ->
  add_specified specifier v 0 i = Ret (add_part specifier v i).
Proof.
  intros Hname Hv (Hm & Hd & Hu) (Hm' & Hd' & Hu') Hmpos Hdpos. unfold is_int64_value in *. change (MIN INT64) with (- 2 ^ 63) in *.
  assert (H32 : MIN INT32 = - 2 ^ 31 /\ MAX INT32 = 2 ^ 31 - 1 /\ MIN INT64 = - 2 ^ 63 /\ MAX INT64 = 2 ^ 63 - 1) by done. destruct H32 as (M1 & M2 & M3 & M4).
  destruct Hname as [[-> ->]|[[-> ->]|[-> ->]]]; cbn [add_part set_months set_days months days micros] in *; unfold add_specified, MONTHS_PER_YEAR.
  - rewrite intervalTryAddition_Ret by (try (by left); rewrite ?M1, ?M2, ?M3, ?M4; lia). done.
  - rewrite (intervalTryAddition_Ret INT32 (months i) v 1) by (try (by left); rewrite ?M1, ?M2, ?M3, ?M4; lia). cbn [mbind outcome_bind set_months days].
    rewrite intervalTryAddition_Ret by (try (by left); rewrite ?M1, ?M2, ?M3, ?M4; unfold DAYS_PER_MONTH; lia). cbn [mbind outcome_bind]. unfold set_months, set_days. cbn [months days micros]. do 2 f_equal; lia.
  - rewrite (intervalTryAddition_Ret INT32 (days i) v 1) by (try (by left); rewrite ?M1, ?M2, ?M3, ?M4; lia). cbn [mbind outcome_bind set_days micros].
    rewrite intervalTryAddition_Ret by (try (by right); rewrite ?M1, ?M2, ?M3, ?M4; micros; lia). cbn [mbind outcome_bind]. unfold set_micros, set_days. cbn [months days micros]. do 2 f_equal; lia.
Qed.

Section read.
Context (utf8proc_toupper utf8proc_tolower : Z -> Z).
Local Abbreviation parse_interval := (parse_interval utf8proc_toupper utf8proc_tolower).
Local Abbreviation interval_parse_identifier := (interval_parse_identifier utf8proc_toupper utf8proc_tolower).

Lemma identifier_read name specifier v rest n r : named name specifier -> stops (fun c => negb (isSpace c)) rest ->
  interval_parse_identifier (chars name ++ (if v =? 1 then [] else ["s"%char]) ++ rest) n 0 r = (r' ← add_specified specifier n 0 r; Ret (r', rest)).
Proof.
  intros Hname Hrest. unfold interval_parse_identifier.
  assert (Hid : exists word, skip_spaces (chars name ++ (if v =? 1 then [] else ["s"%char]) ++ rest) = word ++ rest /\ word <> [] /\
    forallb (fun c => negb (isSpace c)) word = true /\ tryGetDatePartSpecifier utf8proc_toupper utf8proc_tolower word = Ret specifier).
  { destruct Hname as [[-> ->]|[[-> ->]|[-> ->]]]; destruct (v =? 1).
    - exists (chars "year"). by vm_compute. - exists (chars "years"). by vm_compute. - exists (chars "month"). by vm_compute.
    - exists (chars "months"). by vm_compute. - exists (chars "day"). by vm_compute. - exists (chars "days"). by vm_compute. }
  destruct Hid as (word & -> & Hne & Hword & Hspec). rewrite span_app by done. destruct word as [|c word]; [done|]. rewrite Hspec. done.
Qed.

Lemma name_head name specifier v : named name specifier -> exists tl, chars name ++ (if v =? 1 then [] else ["s"%char]) = " "%char :: tl.
Proof. intros [[-> _]|[[-> _]|[-> _]]]; destruct (v =? 1); eexists; reflexivity. Qed.

Lemma read_value fuel v name specifier rest n fr found r : 0 < v < 2 ^ 63 -> named name specifier -> stops (fun c => negb (isSpace c)) rest ->
  parse_interval (S fuel) (value_text v name ++ rest) n fr found r = (r' ← add_specified specifier v 0 r; parse_interval fuel rest v 0 true r').
Proof.
  intros Hv Hname Hrest. unfold value_text, signed_text. rewrite (proj2 (Z.ltb_ge v 0)), Z.abs_eq by lia. cbn [app].
  destruct (num_text_front v Hv) as (c & tl & Hc & Hdigit & Hsp & _). destruct (name_head name specifier v Hname) as (name_tl & Hhead).
  rewrite <- !app_assoc. cbn [IntervalText.parse_interval].
  assert (Hskip : forall more, skip_spaces (num_text v ++ more) = num_text v ++ more) by (intros more; rewrite Hc; cbn; by rewrite Hsp). rewrite Hskip.
  assert (Hspan : span CharacterIsDigit (num_text v ++ chars name ++ (if v =? 1 then [] else ["s"%char]) ++ rest) = (num_text v, chars name ++ (if v =? 1 then [] else ["s"%char]) ++ rest)).
  { apply span_app; [apply decimal_digits|]. rewrite app_assoc, Hhead. done. }
  destruct (num_text v ++ chars name ++ (if v =? 1 then [] else ["s"%char]) ++ rest) as [|c' s'] eqn:Hs; [by rewrite Hc in Hs|].
  assert (Hc' : c' = c) by (rewrite Hc in Hs; by injection Hs). subst c'. rewrite Hdigit. cbn [negb]. rewrite Hspan.
  pose proof (identifier_read name specifier v rest v r Hname Hrest) as Hid. rewrite (app_assoc (chars name)) in *. rewrite Hhead in *. cbn [app] in *. change (Ascii.eqb " " ":") with false. cbn iota.
  unfold read_number. rewrite simpleIntegerCast_num by done. cbn [mbind outcome_bind]. change (Ascii.eqb " " ".") with false. cbn iota. cbn [mbind outcome_bind].
  rewrite Hid. destruct (add_specified specifier v 0 r); done.
Qed.

Lemma read_space fuel s n fr found r : parse_interval (S fuel) (" "%char :: s) n fr found r = parse_interval (S fuel) s n fr found r.
Proof. done. Qed.
Lemma read_minus fuel s n fr found r : parse_interval (S fuel) ("-"%char :: s) n fr found r = Throw interval_error.
Proof. done. Qed.

Lemma spaced_stops parts : stops (fun c => negb (isSpace c)) (spaced parts).
Proof. by destruct parts. Qed.

(** One part that may be left out: it is read, or the text is refused. *)
Lemma read_parts fuel v name specifier parts n fr found r : - 2 ^ 31 <= v < 2 ^ 31 -> named name specifier -> interval_ok r -> 0 <= months r -> 0 <= days r ->
  interval_ok (add_part specifier v r) ->
  exists n' fr', parse_interval (length (value_parts v name) + S fuel) (spaced (value_parts v name ++ parts)) n fr found r =
    if v <? 0 then Throw interval_error
    else parse_interval (S fuel) (spaced parts) n' fr' (found || negb (v =? 0)) (if v =? 0 then r else add_part specifier v r).
Proof.
  intros Hv Hname Hok Hm Hd Hok'. unfold value_parts. destruct (Z.eqb_spec v 0) as [->|H0].
  - exists n, fr. cbn [length app Nat.add]. change (0 <? 0) with false. by rewrite orb_false_r.
  - exists v, 0. cbn [length app Nat.add]. unfold spaced at 1. cbn [map concat]. cbn [app]. rewrite read_space. fold (spaced parts). destruct (Z.ltb_spec v 0) as [Hneg|Hpos].
    + unfold value_text, signed_text. rewrite (proj2 (Z.ltb_lt v 0)) by done. cbn [app]. apply read_minus.
    + rewrite (read_value (S fuel) v name specifier) by (done || lia || apply spaced_stops). rewrite (add_specified_Ret name) by (done || lia). cbn [mbind outcome_bind negb]. by rewrite orb_true_r.
Qed.

(** ** The time *)

Lemma hour_text_decimal h : 0 <= h < 10 ^ 10 -> exists n, (0 < n)%nat /\ h < 10 ^ Z.of_nat n /\ hour_text h = decimal n h /\ (n <=? 9)%nat = (h <? 10 ^ 9).
Proof.
  intros Hh. destruct (num_digits_exact h) as (Hpos & Hlt & Hge & Hle); [lia|]. unfold hour_text, num_text. destruct (Z.ltb_spec h 10) as [H10|H10].
  - exists 2%nat. assert (H1 : num_digits h = 1%nat) by (specialize (Hle 1%nat); cbn in Hle; lia). rewrite H1. split; [lia|]. split; [cbn; lia|].
    split; [exact (eq_sym (decimal_pad 1 1 h ltac:(cbn; lia)))|]. symmetry. apply Z.ltb_lt. lia.
  - exists (num_digits h). split; [done|]. split; [done|]. split; [done|]. destruct (Z.ltb_spec h (10 ^ 9)) as [H9|H9].
    + apply Nat.leb_le. apply Hle; [lia|exact H9].
    + apply Nat.leb_gt. destruct (Nat.le_gt_cases (num_digits h) 9) as [Hn|Hn]; [|done]. pose proof (Z.pow_le_mono_r 10 (Z.of_nat (num_digits h)) 9). lia.
Qed.

Definition time_error : exn := ConversionException "Error occurred during parsing time. Given: {}.".

Lemma read_clock fuel u part n fr found r : 0 <= u < 2 ^ 63 -> is_clock u part ->
  parse_interval (S fuel) part n fr found r = if u <? 10 ^ 9 * MICROS_PER_HOUR then (x ← int64 (micros r + u); Ret (set_micros r x)) else Throw time_error.
Proof.
  intros Hu (h & m & s & f & z & Hh & Hm & Hs & Hf & Hz & Hmod & Hsum & ->). rewrite (proj2 (Z.ltb_ge u 0)), Z.abs_eq in * by lia. cbn [app].
  destruct (hour_text_decimal h Hh) as (k & Hk & Hlt & -> & Hnine). pose proof (tryConvertInternal_digits k h m s f z Hk ltac:(lia) Hm Hs Hf Hz Hmod) as Hconv.
  assert (Hspan : span CharacterIsDigit (decimal k h ++ after_hour m s f (6 - z)) = (decimal k h, after_hour m s f (6 - z))) by (apply span_app; [apply decimal_digits|done]).
  assert (Hhour : (h <? 10 ^ 9) = (u <? 10 ^ 9 * MICROS_PER_HOUR)) by (rewrite Hsum; unfold Time.fromTimeInternal; micros; destruct (Z.ltb_spec h (10 ^ 9)); symmetry; [apply Z.ltb_lt|apply Z.ltb_ge]; lia).
  destruct (starts_with_digit k h (after_hour m s f (6 - z)) Hk) as (c & tl & Heq & Hc & Hsp). rewrite Heq in *. cbn [IntervalText.parse_interval skip_spaces]. rewrite Hsp, Hc. cbn [negb].
  rewrite Hspan. unfold after_hour at 1. cbn [app]. change (Ascii.eqb ":" ":") with true. cbn iota. unfold interval_parse_time, Time.tryConvertInterval. rewrite Hconv, Hnine, Hhour, Hsum.
  destruct (Time.fromTimeInternal h m s f <? 10 ^ 9 * MICROS_PER_HOUR); reflexivity.
Qed.
End read.

(** Intervals as text: what is printed is read back, unless a part is negative or the time
    is too long. *)

Section read.
Context (utf8proc_toupper utf8proc_tolower : Z -> Z).

Lemma length_joined parts : Forall (fun p => p <> []) parts -> (length parts <= length (joined parts))%nat.
Proof.
  assert (Hsp : forall ps, Forall (fun p : list ascii => p <> []) ps -> (2 * length ps <= length (spaced ps))%nat).
  { induction 1 as [|p ps Hp _ IH]; [done|]. unfold spaced in *. cbn [map concat length app]. rewrite length_app. destruct p; [done|]. cbn [length]. lia. }
  intros Hp. pose proof (Hsp parts Hp) as Hl. unfold joined. destruct parts; [done|]. destruct (spaced _) as [|c tl]; cbn [tail length] in *; lia.
Qed.

(** All parts but the time: read, or refused at the first minus. *)
Lemma read_parts_of i fuel parts : interval_ok i ->
  exists n fr, parse_interval utf8proc_toupper utf8proc_tolower (length (parts_of i) + S fuel) (spaced (parts_of i ++ parts)) 0 0 false (Date.Interval 0 0 0) =
    if (months i <? 0) || (days i <? 0) then Throw interval_error
    else parse_interval utf8proc_toupper utf8proc_tolower (S fuel) (spaced parts) n fr (negb (months i =? 0) || negb (days i =? 0)) (Date.Interval (months i) (days i) 0).
Proof.
  intros (Hm & Hd & Hu). unfold parts_of. set (y := Z.quot (months i) 12). set (mo := months i - y * 12).
  assert (Hquot : months i = 12 * y + mo /\ - 12 < mo < 12 /\ (0 <= months i -> 0 <= y /\ 0 <= mo) /\ (months i <= 0 -> y <= 0 /\ mo <= 0)) by (unfold mo, y; Z.to_euclidean_division_equations; lia).
  clearbody y mo. assert (Hy : - 2 ^ 31 <= y < 2 ^ 31 /\ - 2 ^ 31 <= mo < 2 ^ 31 /\ (months i <? 0) = (y <? 0) || (mo <? 0) /\ (months i =? 0) = (y =? 0) && (mo =? 0)).
  { split; [lia|]. split; [lia|]. split.
    - destruct (Z.ltb_spec (months i) 0), (Z.ltb_spec y 0), (Z.ltb_spec mo 0); cbn; done || lia.
    - destruct (Z.eqb_spec (months i) 0), (Z.eqb_spec y 0), (Z.eqb_spec mo 0); cbn; done || lia. }
  destruct Hy as (Hy & Hmo & -> & ->). rewrite !length_app, <- !app_assoc, <- !Nat.add_assoc.
  assert (Hr : forall m d, - 2 ^ 31 <= m < 2 ^ 31 -> - 2 ^ 31 <= d < 2 ^ 31 -> interval_ok (Date.Interval m d 0)) by (intros; unfold interval_ok, is_int64_value; cbn; lia).
  assert (Hadd1 : (if y =? 0 then Date.Interval 0 0 0 else add_part YEAR y (Date.Interval 0 0 0)) = Date.Interval (y * 12) 0 0) by (destruct (Z.eqb_spec y 0) as [->|]; done).
  assert (Hadd2 : (if mo =? 0 then Date.Interval (y * 12) 0 0 else add_part MONTH mo (Date.Interval (y * 12) 0 0)) = Date.Interval (months i) 0 0).
  { destruct (Z.eqb_spec mo 0) as [->|]; unfold add_part, set_months; cbn [months days micros]; f_equal; lia. }
  assert (Hadd3 : (if days i =? 0 then Date.Interval (months i) 0 0 else add_part DAY (days i) (Date.Interval (months i) 0 0)) = Date.Interval (months i) (days i) 0).
  { destruct (Z.eqb_spec (days i) 0) as [->|]; done. }
  destruct (read_parts utf8proc_toupper utf8proc_tolower (length (value_parts mo " month") + (length (value_parts (days i) " day") + fuel)) y " year" YEAR
    (value_parts mo " month" ++ value_parts (days i) " day" ++ parts) 0 0 false (Date.Interval 0 0 0)) as (n1 & fr1 & H1); [done|left; done|apply Hr; lia|done|done|apply Hr; cbn; lia|].
  rewrite Hadd1 in H1. replace (length (value_parts y " year") + (length (value_parts mo " month") + (length (value_parts (days i) " day") + S fuel)))%nat
    with (length (value_parts y " year") + S (length (value_parts mo " month") + (length (value_parts (days i) " day") + fuel)))%nat by lia.
  rewrite H1. clear H1. destruct (Z.ltb_spec y 0) as [Hy0|Hy0]; [exists 0, 0; done|]. rewrite orb_false_l.
  destruct (read_parts utf8proc_toupper utf8proc_tolower (length (value_parts (days i) " day") + fuel) mo " month" MONTH
    (value_parts (days i) " day" ++ parts) n1 fr1 (negb (y =? 0)) (Date.Interval (y * 12) 0 0)) as (n2 & fr2 & H2); [done|right; left; done|apply Hr; lia|cbn; lia|done|apply Hr; cbn; lia|].
  rewrite Hadd2 in H2. replace (S (length (value_parts mo " month") + (length (value_parts (days i) " day") + fuel)))
    with (length (value_parts mo " month") + S (length (value_parts (days i) " day") + fuel))%nat by lia.
  rewrite H2. clear H2. destruct (Z.ltb_spec mo 0) as [Hm0|Hm0]; [exists 0, 0; done|]. rewrite orb_false_l.
  destruct (read_parts utf8proc_toupper utf8proc_tolower fuel (days i) " day" DAY parts n2 fr2 (negb (y =? 0) || negb (mo =? 0)) (Date.Interval (months i) 0 0)) as (n3 & fr3 & H3);
    [done|right; right; done|apply Hr; lia|cbn; lia|done|apply Hr; cbn; lia|].
  rewrite Hadd3 in H3. replace (S (length (value_parts (days i) " day") + fuel)) with (length (value_parts (days i) " day") + S fuel)%nat by lia.
  exists n3, fr3. rewrite H3. destruct (days i <? 0); [done|]. by rewrite negb_andb.
Qed.

Lemma joined_spaced fuel parts n fr found r : (parts = [] \/ exists c tl ps, parts = (c :: tl) :: ps) ->
  parse_interval utf8proc_toupper utf8proc_tolower (S fuel) (joined parts) n fr found r = parse_interval utf8proc_toupper utf8proc_tolower (S fuel) (spaced parts) n fr found r.
Proof. intros [->|(c & tl & ps & ->)]; [done|]. unfold joined, spaced. cbn [map concat app tail]. symmetry. apply read_space. Qed.

(** The first character is a digit or a minus. *)
Lemma signed_text_head v : - 2 ^ 63 < v < 2 ^ 63 -> v <> 0 -> exists c tl, signed_text v = c :: tl /\ Ascii.eqb c "@" = false.
Proof.
  intros Hv H0. unfold signed_text. destruct (v <? 0); [by eexists _, _|]. destruct (num_text_front (Z.abs v)) as (c & tl & -> & Hc & _); [lia|].
  exists c, tl. split; [done|]. destruct (Ascii.eqb_spec c "@") as [->|]; done.
Qed.

Lemma clock_head u part : - 2 ^ 63 < u < 2 ^ 63 -> is_clock u part -> exists c tl, part = c :: tl /\ Ascii.eqb c "@" = false.
Proof.
  intros Hu (h & m & s & f & z & Hh & _ & _ & _ & _ & _ & _ & ->). destruct (u <? 0); [by eexists _, _|]. cbn [app].
  destruct (hour_text_decimal h Hh) as (k & Hk & _ & -> & _). destruct (starts_with_digit k h (after_hour m s f (6 - z)) Hk) as (c & tl & -> & Hc & _).
  exists c, tl. split; [done|]. destruct (Ascii.eqb_spec c "@") as [->|]; done.
Qed.

Definition headed (p : list ascii) : Prop := exists c tl, p = c :: tl /\ Ascii.eqb c "@" = false.

Lemma parts_of_headed i : interval_ok i -> Forall headed (parts_of i).
Proof.
  intros (Hm & Hd & _). assert (Hpart : forall v name, - 2 ^ 63 < v < 2 ^ 63 -> Forall headed (value_parts v name)).
  { intros v name Hv. unfold value_parts. destruct (Z.eqb_spec v 0); constructor; [|done]. destruct (signed_text_head v) as (c & tl & Hc & Hat); [done|done|].
    unfold value_text. rewrite Hc. exists c. cbn [app]. eexists. by split. }
  unfold parts_of. rewrite !Forall_app. repeat split; apply Hpart; Z.to_euclidean_division_equations; lia.
Qed.

(** The parser on a text of parts, with fuel to spare. *)
Lemma fromCString_joined parts : Forall headed parts -> parts <> [] ->
  interval_fromCString utf8proc_toupper utf8proc_tolower (joined parts) =
  parse_interval utf8proc_toupper utf8proc_tolower (S (length (joined parts))) (spaced parts) 0 0 false (Date.Interval 0 0 0) /\ (length parts <= length (joined parts))%nat.
Proof.
  intros Hp Hne. split.
  - rewrite <- joined_spaced; [|right]; (destruct Hp as [|p ps (c & tl & -> & Hat) Hps]; [done|]); [|by exists c, tl, ps].
    unfold joined, spaced. cbn [map concat app tail]. unfold interval_fromCString. by rewrite Hat.
  - apply length_joined. eapply Forall_impl; [exact Hp|]. by intros p (c & tl & -> & _).
Qed.

Lemma value_parts_nil v name : value_parts v name = [] -> v = 0.
Proof. unfold value_parts. by destruct (Z.eqb_spec v 0). Qed.
Lemma parts_of_nil i : parts_of i = [] -> months i = 0 /\ days i = 0.
Proof.
  unfold parts_of. intros [Hy%value_parts_nil [Hm%value_parts_nil Hd%value_parts_nil]%app_eq_nil]%app_eq_nil. split; [|done]. rewrite Hy in Hm. lia.
Qed.

(** Without a time. *)
Lemma read_without_time i : interval_ok i -> micros i = 0 ->
  interval_fromCString utf8proc_toupper utf8proc_tolower (match parts_of i with [] => chars "00:00:00" | _ => joined (parts_of i) end) =
  if (months i <? 0) || (days i <? 0) then Throw interval_error else Ret i.
Proof.
  intros Hok H0. pose proof (parts_of_headed i Hok) as Hparts. assert (Hi : Date.Interval (months i) (days i) 0 = i) by (rewrite <- H0; by destruct i).
  destruct (parts_of i) as [|p ps] eqn:Hp.
  - apply parts_of_nil in Hp as [Hm Hd]. rewrite Hm, Hd in *. rewrite <- Hi. by vm_compute.
  - destruct (fromCString_joined (p :: ps) Hparts) as [-> Hlen]; [done|]. rewrite <- Hp in *. set (k := length (joined (parts_of i))) in *.
    replace (S k) with (length (parts_of i) + S (k - length (parts_of i)))%nat by lia.
    destruct (read_parts_of i (k - length (parts_of i)) [] Hok) as (n & fr & Hread). rewrite app_nil_r in Hread. rewrite Hread, Hi. destruct (_ || _); [done|].
    assert (Hfound : negb (months i =? 0) || negb (days i =? 0) = true).
    { destruct (Z.eqb_spec (months i) 0) as [Hm|], (Z.eqb_spec (days i) 0) as [Hd|]; try done. exfalso. unfold parts_of in Hp. rewrite Hm, Hd in Hp. done. }
    by rewrite Hfound.
Qed.

(** With a time. *)
Lemma read_with_time i part : interval_ok i -> - 2 ^ 63 < micros i -> is_clock (micros i) part ->
  interval_fromCString utf8proc_toupper utf8proc_tolower (joined (parts_of i ++ [part])) =
  if (months i <? 0) || (days i <? 0) || (micros i <? 0) then Throw interval_error else if micros i <? 10 ^ 9 * MICROS_PER_HOUR then Ret i else Throw time_error.
Proof.
  intros Hok Hu Hclock. pose proof Hok as (_ & _ & Hmicros). unfold is_int64_value in Hmicros.
  destruct (fromCString_joined (parts_of i ++ [part])) as [-> Hlen].
  { apply Forall_app. split; [by apply parts_of_headed|]. constructor; [|done]. apply (clock_head (micros i)); [lia|done]. }
  { by destruct (parts_of i). }
  set (k := length (joined (parts_of i ++ [part]))) in *. rewrite length_app in Hlen. cbn [length] in Hlen.
  replace (S k) with (length (parts_of i) + S (k - length (parts_of i)))%nat by lia.
  destruct (read_parts_of i (k - length (parts_of i)) [part] Hok) as (n & fr & ->). destruct ((months i <? 0) || (days i <? 0)); [done|]. rewrite orb_false_l.
  unfold spaced. cbn [map concat app]. rewrite app_nil_r, read_space. destruct (Z.ltb_spec (micros i) 0) as [Hneg|Hpos].
  - destruct Hclock as (h & m & s & f & z & _ & _ & _ & _ & _ & _ & _ & ->). rewrite (proj2 (Z.ltb_lt _ _)) by done. apply read_minus.
  - rewrite (read_clock _ _ _ (micros i)) by (done || lia). cbn [micros]. rewrite Z.add_0_l, int64_Ret by lia. cbn [mbind outcome_bind]. unfold set_micros. cbn [months days].
    by destruct i.
Qed.

(** C33. The text of an interval of no negative part, with a time of less than a thousand
    million hours, is read back as the same interval, whatever parts are left out and
    however the digits are cut; a text with a longer time or with a minus is refused, for
    every interval that has a text. *)
Theorem interval_text_roundtrip : forall i, interval_ok i -> micros i <> - 2 ^ 63 -> exists text, interval_toString i = Ret text /\
  interval_fromCString utf8proc_toupper utf8proc_tolower text =
    if (months i <? 0) || (days i <? 0) || (micros i <? 0) then Throw interval_error
    else if micros i <? 10 ^ 9 * MICROS_PER_HOUR then Ret i else Throw time_error.
Proof.
  intros i Hok Hmin. destruct (interval_toString_text i Hok Hmin) as (text & Hrun & Htext). exists text. split; [done|]. pose proof Hok as (_ & _ & Hu). unfold is_int64_value in Hu.
  destruct (Z.eqb_spec (micros i) 0) as [H0|H0].
  - subst text. rewrite read_without_time by done. rewrite H0, orb_false_r. done.
  - destruct Htext as (part & Hclock & ->). apply read_with_time; [done|lia|done].
Qed.
End read.

Lemma interval_text_roundtrip_witness : exists text, interval_toString (Date.Interval 14 3 3661500000) = Ret text /\ interval_fromCString id id text = Ret (Date.Interval 14 3 3661500000).
Proof.
  apply (interval_text_roundtrip id id (Date.Interval 14 3 3661500000)); [unfold interval_ok, is_int64_value; cbn; lia|done].
Defined.

(** ** The fuel is enough *)

Lemma span_split p s a b : span p s = (a, b) -> s = a ++ b.
Proof.
  revert a. induction s as [|c s IH]; intros a; cbn; [by intros [= <- <-]|]. destruct (p c); [|by intros [= <- <-]].
  destruct (span p s) as [a' b'] eqn:Hs. intros [= <- <-]. by rewrite (IH a').
Qed.
Lemma length_skip_spaces s : (length (skip_spaces s) <= length s)%nat.
Proof. induction s as [|c s IH]; [done|]. cbn. destruct (isSpace c); cbn; lia. Qed.
Lemma length_parse_fraction s : forall mult acc v rest, Time.parse_fraction s mult acc = (v, rest) -> (length rest <= length s)%nat.
Proof.
  induction s as [|c s IH]; intros mult acc v rest; cbn; [by intros [= _ <-]|]. destruct (CharacterIsDigit c); [|by intros [= _ <-]].
  intros Hrun. apply IH in Hrun. lia.
Qed.

Lemma length_read_number digits s v : read_number digits s = Ret v -> (length (snd v) <= length s)%nat.
Proof.
  unfold read_number. intros Hrun. destruct s as [|c s]; [inv_ret Hrun; by subst v|].
  destruct (Ascii.eqb c "."); [|inv_ret Hrun; by subst v]. destruct (Time.parse_fraction s 100000 0) as [f rest] eqn:Hf. inv_ret Hrun. subst v. apply length_parse_fraction in Hf. cbn in *. lia.
Qed.

Section fuel.
Context (utf8proc_toupper utf8proc_tolower : Z -> Z).

Lemma length_identifier s n fr r v : interval_parse_identifier utf8proc_toupper utf8proc_tolower s n fr r = Ret v -> (length (snd v) <= length s)%nat.
Proof.
  unfold interval_parse_identifier. destruct (span _ (skip_spaces s)) as [a b] eqn:Hs. apply span_split in Hs. destruct a as [|c a]; [done|]. intros Hrun. inv_ret Hrun. subst v.
  pose proof (length_skip_spaces s) as Hl. rewrite Hs, length_app in Hl. cbn in *. lia.
Qed.

(** The parser ends: it enters itself with a shorter text each time. *)
Theorem interval_fuel : forall s fuel n fr found r, (length s < fuel)%nat ->
  parse_interval utf8proc_toupper utf8proc_tolower fuel s n fr found r = parse_interval utf8proc_toupper utf8proc_tolower (S (length s)) s n fr found r.
Proof.
  assert (Hboth : forall f f' s n fr found r, (length s < f)%nat -> (length s < f')%nat ->
    parse_interval utf8proc_toupper utf8proc_tolower f s n fr found r = parse_interval utf8proc_toupper utf8proc_tolower f' s n fr found r).
  { induction f as [|f IH]; intros f' s n fr found r Hf Hf'; [lia|]. destruct f' as [|f']; [lia|]. cbn [parse_interval]. pose proof (length_skip_spaces s) as Hl.
    destruct (skip_spaces s) as [|c s']; [done|]. destruct (CharacterIsDigit c) eqn:Hc; cbn [negb]; [|done]. destruct (span CharacterIsDigit (c :: s')) as [digits rest] eqn:Hspan.
    assert (Hrest : (length rest < length s)%nat).
    { cbn [span] in Hspan. rewrite Hc in Hspan. destruct (span CharacterIsDigit s') as [a b] eqn:Hs'. injection Hspan as _ <-. apply span_split in Hs'. rewrite Hs' in Hl. cbn [length] in Hl. rewrite length_app in Hl. lia. }
    destruct rest as [|c' rest]; [|destruct (Ascii.eqb c' ":"); [done|]; destruct (read_number digits (c' :: rest)) as [[[number fraction] rest']| |] eqn:Hnum; [|done..]; cbn [mbind outcome_bind];
      apply length_read_number in Hnum; cbn [snd] in Hnum].
    all: match goal with |- mbind _ ?m = mbind _ ?m => destruct m as [[r' rest1]| |] eqn:Hid; [|done..]; cbn [mbind outcome_bind]; apply length_identifier in Hid; cbn [snd length] in Hid; apply IH; cbn [length] in *; lia end. }
  intros. apply Hboth; lia.
Qed.

(** The sums of the time and of a rounded fraction are not checked. *)
Example time_overflows : interval_fromCString utf8proc_toupper utf8proc_tolower (chars "9223372036854775807 us 1:00:00") = Undef.
Proof. by vm_compute. Qed.
Example rounding_overflows : interval_fromCString utf8proc_toupper utf8proc_tolower (chars "9223372036854775807.6 us") = Undef.
Proof. by vm_compute. Qed.
End fuel.
